(* ===== verification/_CoqProject ===== *)
-Q . S2P
Prelude.v
JsNumber.v
Decimal.v
Schema.v
Ledger.v
Wallet.v
Locks.v
HandoverOtp.v
CancellationPolicy.v
Commission.v
PaymentRefund.v
Outbox.v
BookingStore.v
DepositStore.v
BookingLifecycle.v
LifecycleHandover.v
BookingService.v
LifecycleMoney.v
Payments.v
PaymentOrders.v
PaymentWebhook.v
FareCalculator.v
Coupons.v
Quotes.v
MarketplacePricing.v
MarketplaceQuotes.v
BookingCreation.v
Checkout.v
Reservations.v
Resilience.v
ProviderRouting.v
IntegrationRuntime.v
Payouts.v
PayoutBook.v
PayoutSafety.v
VendorDeposits.v
DepositLedger.v
DepositSafety.v
BookingDeposits.v
DepositSettlement.v
Loyalty.v
LoyaltyLedger.v
LoyaltySafety.v
Referrals.v
ReferralRewards.v
ReferralSafety.v
TripExtensions.v
ExtensionSafety.v
Availability.v
AvailabilitySafety.v
Reconciliation.v
ReconciliationSafety.v
Corporate.v
CorporateSafety.v
Auth.v
Permissions.v
AuthSafety.v
