(* ===== verification/Prelude.v ===== *)
(** * The money and booking core of the DriveGo backend, verified

    The repository is a car rental marketplace: a NestJS backend in TypeScript
    (src/car_rental_backend/src) over PostgreSQL (Prisma) and Redis, and
    Flutter applications that call it.  This library models the part of the
    backend that moves bookings and money and the runtime through which it
    calls outside services, and proves what the services promise to each
    other.  Paths below are relative to src/car_rental_backend/src.

    ** How the program is put together

    A quote ([PricingService], or the marketplace quote service) fixes a
    price and holds a car for some minutes.  A booking is made from it, either
    by [BookingsService.createBooking] or by the checkout orchestrator, which
    collects the payment first.  The payments service turns an unpaid booking
    into an order at a gateway, verifies the payment or takes the gateway's
    webhook, redeems the coupon, holds the deposit and posts the journal.
    From then on [BookingLifecycleService] is the only place where a booking
    changes status: [executeTransition] takes the lock of the booking, checks
    who asks, whether the transition matrix has the step and whether its
    preconditions hold, computes the cancellation fee, and runs one database
    transaction with status, deposit, refund intent, journals, vehicle,
    fulfilment and an outbox event; the gateway refund follows the commit.
    What vendors earned leaves the platform as payouts.  Calls of gateways and
    other providers go through the integration runtime, which routes, retries,
    limits and breaks circuits.

    ** Files

    Foundations
    - Prelude.v: exceptions, the state-and-exception monad of a handler
      ([M], [require], [transaction], [try_finally], [zoom]), the lemmas and
      the hint databases [steps] and [preserves] all files use, JavaScript's
      strings.
    - JsNumber.v: JavaScript numbers as rationals rounded to 53 bits
      ([js_add], [js_mul], [toFixed], [Math.round]) with error bounds.
      Decimal.v: decimal.js amounts ([DecimalArith]: 20 significant digits,
      with the concrete rounding [decimal20]), conversions from and to numbers
      ([DecimalNumbers]) and numeric columns ([NumericColumn]).  Comparisons,
      negation, minimum and the sums of stored amounts are exact; every other
      operation whose rounding can show is rounded ([dec_add], ...).
    - Schema.v: the enumerations of prisma/schema.prisma.

    Money
    - Ledger.v: finance/ledger-core.service.ts.  The table of entries is a
      list in posting order; [recordJournal], the balance readers, the audit,
      the listing.  Commission.v: finance/marketplace-commission.service.ts.
    - Wallet.v: wallets/wallets.service.ts.
    - CancellationPolicy.v: bookings/cancellation-policy.service.ts.
    - PaymentRefund.v, Payments.v, PaymentOrders.v, PaymentWebhook.v:
      payments/payments.service.ts but its queries, with the invoice of
      invoices/invoices.service.ts.  The store [PayStore] contains the
      [LifecycleStore].
    - Payouts.v: payouts/payouts.service.ts and its RazorpayX provider;
      PayoutBook.v: the abstract book of payouts; PayoutSafety.v: what holds
      over time.
    - VendorDeposits.v: vendors/onboarding/vendor-security-deposit.service.ts
      over the tables of DepositStore.v (which the webhook shares);
      DepositLedger.v: each operation keeps the account of its ledger;
      DepositSafety.v: sequences of operations.
    - BookingDeposits.v: deposits/deposits.service.ts, damage-claims/ and
      disputes/; DepositSettlement.v: what they keep.
    - Loyalty.v: loyalty/loyalty.service.ts; LoyaltyLedger.v and
      LoyaltySafety.v: its accounts over time.  Referrals.v:
      referrals/referrals.service.ts; ReferralRewards.v and ReferralSafety.v:
      what an attribution is rewarded for.
    - Corporate.v: corporate/, credit of companies; CorporateSafety.v.
    - Reconciliation.v: payments/reconciliation.service.ts, with the audit of
      all wallets; ReconciliationSafety.v: the job between other requests.

    Prices
    - FareCalculator.v: pricing/fare-calculator.service.ts, the commission
      percentages and the deposit rules.  Coupons.v: coupons/ and, with the
      redemption of Payments.v, the life of a coupon.
    - Quotes.v: pricing/pricing.service.ts.  MarketplacePricing.v:
      marketplace/ rule resolution, calendar factors, add-ons, promotions.
      MarketplaceQuotes.v: marketplace/marketplace-quote.service.ts.

    Bookings
    - Locks.v: redis/booking-lock.service.ts and distributed-lock.service.ts
      against the class [Redis] of the commands they send; [redis_mem] is an
      instance.  HandoverOtp.v: bookings/handover-otp.service.ts, against the
      class [Bcrypt].  Outbox.v: the outbox service and its worker.
    - BookingStore.v: the tables of the lifecycle, [LifecycleStore], whose
      parts are the stores of the files above.
    - BookingLifecycle.v: bookings/booking-lifecycle.service.ts whole, and
      the abstract specification [ReservationBook] it refines.
      LifecycleHandover.v: its codes, inspections and vehicle settlement.
      LifecycleMoney.v: its journals, and concrete runs that show defects.
    - BookingService.v: what bookings/bookings.service.ts adds to the
      lifecycle.  BookingCreation.v: its [createBooking].  Reservations.v:
      quotes, creation, payments and lifecycle as one system of steps.
    - Checkout.v: marketplace/checkout-orchestrator.service.ts.
    - TripExtensions.v: bookings/trip-extensions.service.ts; ExtensionSafety.v:
      extensions between all other requests.  Availability.v:
      cars/vehicle-availability.service.ts; AvailabilitySafety.v: holds,
      blocks and bookings of a car as one calendar.

    Accounts
    - Auth.v: auth/ (codes, logins, registration, refresh tokens) against the
      classes [RedisCache], [Bcrypt] and [Jwt]; Permissions.v: roles and
      guards; AuthSafety.v: sequences of requests.

    Integrations (integrations/runtime/)
    - Resilience.v: failure classes, retry loop, circuit breaker, rate
      limiter, keyed cache.  ProviderRouting.v: policies, costs, health, the
      chain of a request, the route of a payment.  IntegrationRuntime.v:
      [execute] over an arbitrary world of adapters, and the simulator.

    ** How code becomes definitions

    A handler is a function of type [M S A] from a store to a value or an
    exception and the store it leaves; a throw keeps the writes made before it
    unless a [transaction] encloses them.  A component's handlers run on their
    own store and are lifted to a larger one by [zoom].  The clock, generated
    ids, answers of outside services and the presence of optional services
    are arguments, gathered in records such as [TransitionEnv].  Exceptions
    are told apart by class, as the code does; messages are not modelled.
    Unique and foreign keys and conditional updates of the database throw the
    Prisma error the code would see.  Concurrency is modelled where the code
    relies on it: the locks, the conditional update of the status, the checks
    of a one-time code, two verifications of one payment, the answer of a bank
    overtaken by its webhook; there other requests are interleaved as steps.

    ** What is proved

    - Lifecycle: a transition is all or nothing; it refines the reservation
      book; statuses follow the matrix; a rental starts and ends only with the
      live code and the finished inspection.
    - Reservations: through quotes, creations, payments and transitions no car
      is booked twice for one time, and the price that was quoted is the price
      booked.  The checkout confirms all or nothing and books a payment once;
      it does not look at the other bookings of the car, so it is not part of
      that system.  Reconciliation jobs between requests keep this; so do
      extensions, for bookings whose car is not being returned, while each
      still lengthens its booking.  Holds, blocks and bookings share one
      calendar, and the availability check is exact.
    - Prices: quotes add up in floating point and in their lines, coupons take
      whole paise and keep their limits, the calendar loop ends, a marketplace
      quote verifies exactly with its own amounts.
    - Money: journals of amounts with two decimals net to zero and the
      balances satisfy the accounting equation; wallets reconcile in every
      store reached by whole paise, and the audit freezes exactly the others; a
      payment is PAID only when all of it was collected, a second verification
      moves nothing, a webhook takes effect once; refunds happen once and stay
      within the payment; cancellation fees are exact to the paisa.
    - Payouts: the handlers refine a book of payouts, late answers of the bank
      included; vendors are promised no more than the most they had earned and
      what the bank settled late, and executions and reversals are posted at
      most once and in full.
    - Deposits of vendors: the ledger leads gaplessly from zero to the balance
      in every state reached by operations and by webhooks for deposits still
      empty, a key moves money once, only a sealed verification pays.
    - Deposits of bookings: a held deposit is settled once and to the paisa,
      the hourly release spares open claims, claims follow their protocol.
    - Loyalty, referrals, corporate credit: accounts replay their entries, a
      booking earns once, a referral is rewarded once and only for a trip that
      qualifies, reservations stay within the limits.
    - Accounts: a refresh token works once, a phone login needs the live code.
    - Reconciliation: only captured payments confirm a booking, and a cycle
      counts every candidate.
    - Coordination: locks exclude, outbox events are never stranded, and runs
      of the worker publish all that is due.
    - Integrations: an execution makes boundedly many calls and repeats only
      what is safe to repeat, a keyed request reaches a provider once, open
      circuits protect, rates hold, the chain has the admissible providers.
    - Lemmas named in the findings evaluate the definitions on concrete
      stores where the code does not do what it means to.

    ** Bounds and fuel

    Most recursion is structural on lists of lines, entries, events, tiers or
    providers.  The calendar loop of MarketplacePricing.v has one unit of fuel
    per day and a theorem that this is enough; the retry loop of Resilience.v
    and the turns of IntegrationRuntime.v count the retries that remain.
    Floating point results are bounded for amounts up to a hundred billion
    rupees ([amount], [money]), decimal sums for 17 digits ([amounts_fit]);
    the columns hold less.

    ** Not modelled

    Fleet, fulfilment and the operations engines keep administrative rows of
    their own.  Provider adapters and catalogues, SMS and sign-in providers,
    notifications, the configuration table, queries and listings, cache
    invalidation, log lines, controllers, request validation and the Flutter
    applications are left out: they do not change the state modelled here, or
    are calls of outside services, whose answers are arguments. *)
From stdpp Require Export base gmap list strings option numbers relations.
From Stdlib Require Export QArith Qround Qabs Qpower Qreduction Lqa.
From stdpp Require Import tactics pretty.
Close Scope Q_scope.
Open Scope Z_scope.

Declare Scope js_scope.
Delimit Scope js_scope with js.

(** ** Exceptions

    The Nest exception classes the services throw, and the Prisma error codes
    they test.  Messages are not modelled, the class (and the code) is. *)
Inductive Exn : Type :=
  | BadRequestException
  | NotFoundException
  | ForbiddenException
  | ConflictException
  | ServiceUnavailableException
  | UnauthorizedException
  | TooManyRequestsException
  | BadGatewayException
  | UnbalancedJournalException
  | PrismaP2025            (* the record to update does not exist *)
  | PrismaP2002            (* unique constraint violation *)
  | PrismaP2003            (* foreign key violation *)
  | OtherError.

#[export] Instance Exn_eq_dec : EqDecision Exn.
Proof. solve_decision. Defined.

Inductive result (A : Type) : Type :=
  | Ok (a : A)
  | Throw (e : Exn).
Arguments Ok {A} a.
Arguments Throw {A} e.

#[export] Instance result_eq_dec `{EqDecision A} : EqDecision (result A).
Proof. solve_decision. Defined.

Definition is_Ok {A} (r : result A) : bool :=
  match r with Ok _ => true | Throw _ => false end.

(** ** State and exceptions

    A handler reads and writes a store [S] and returns or throws.  A throw
    keeps the writes made before it, as an [await]ed sequence of database
    calls does; [transaction] undoes them, as [prisma.$transaction] does. *)
Definition M (S A : Type) : Type := S -> result A * S.

#[export] Instance M_ret S : MRet (M S) := fun A (a : A) s => (Ok a, s).
#[export] Instance M_bind S : MBind (M S) := fun A B f m s =>
  match m s with
  | (Ok a, s') => f a s'
  | (Throw e, s') => (Throw e, s')
  end.

Section operations.
Context {S : Type}.

Definition throw {A} (e : Exn) : M S A := fun s => (Throw e, s).
Definition get : M S S := fun s => (Ok s, s).
Definition modify (f : S -> S) : M S unit := fun s => (Ok tt, f s).
(** [if (!b) throw e] *)
Definition require (b : bool) (e : Exn) : M S unit :=
  if b then mret tt else throw e.
(** [if (b) m] *)
Definition when (b : bool) (m : M S unit) : M S unit :=
  if b then m else mret tt.
Definition from_option_or {A} (o : option A) (e : Exn) : M S A :=
  match o with Some a => mret a | None => throw e end.
(** The answer or the exception of another service. *)
Definition of_result {A} (r : result A) : M S A := fun s => (r, s).
Definition try_catch {A} (m : M S A) (h : Exn -> M S A) : M S A := fun s =>
  match m s with
  | (Ok a, s') => (Ok a, s')
  | (Throw e, s') => h e s'
  end.
(** [try { m } finally { f }]: [f] runs on both paths; its own throw wins. *)
Definition try_finally {A} (m : M S A) (f : M S unit) : M S A := fun s =>
  match m s with
  | (r, s') =>
    match f s' with
    | (Ok _, s'') => (r, s'')
    | (Throw e, s'') => (Throw e, s'')
    end
  end.
(** [prisma.$transaction(m)]: all of [m]'s writes or none. *)
Definition transaction {A} (m : M S A) : M S A := fun s =>
  match m s with
  | (Ok a, s') => (Ok a, s')
  | (Throw e, _) => (Throw e, s)
  end.
(** [for (const x of l) m(x)] *)
Fixpoint forEach {A} (l : list A) (m : A -> M S unit) : M S unit :=
  match l with
  | [] => mret tt
  | x :: l' => m x ;; forEach l' m
  end.
End operations.

(** Runs the handler [m] of one component on its part of a larger store. *)
Definition zoom {S T A} (get_part : S -> T) (set_part : T -> S -> S)
    (m : M T A) : M S A := fun s =>
  match m (get_part s) with (r, t) => (r, set_part t s) end.

(** ** Running and inverting handlers *)
Section laws.
Context {S : Type}.
Implicit Types s : S.

Lemma bind_Ok {A B} (m : M S A) (k : A -> M S B) s b s' :
  (x ← m; k x) s = (Ok b, s') <->
  exists a s1, m s = (Ok a, s1) /\ k a s1 = (Ok b, s').
Proof.
  unfold mbind, M_bind. destruct (m s) as [[a|e] s1]; split.
  - intros H. by exists a, s1.
  - intros (a' & s1' & H & H'). by simplify_eq.
  - intros H. by simplify_eq.
  - intros (a' & s1' & H & _). by simplify_eq.
Qed.

Lemma bind_Throw {A B} (m : M S A) (k : A -> M S B) s e s' :
  (x ← m; k x) s = (Throw e, s') <->
  m s = (Throw e, s') \/
  exists a s1, m s = (Ok a, s1) /\ k a s1 = (Throw e, s').
Proof.
  unfold mbind, M_bind. destruct (m s) as [[a|e0] s1]; split.
  - intros H. right. by exists a, s1.
  - intros [H|(a' & s1' & H & H')]; by simplify_eq.
  - intros H. left. by simplify_eq.
  - intros [H|(a' & s1' & H & H')]; by simplify_eq.
Qed.

Lemma require_Ok b e s u s' :
  require b e s = (Ok u, s') <-> b = true /\ s' = s.
Proof. destruct u, b; unfold require, throw, mret, M_ret; naive_solver. Qed.

Lemma require_Throw b e s e' s' :
  require b e s = (Throw e', s') <-> b = false /\ e' = e /\ s' = s.
Proof. destruct b; unfold require, throw, mret, M_ret; naive_solver. Qed.

Lemma when_true b (m : M S unit) : b = true -> when b m = m.
Proof. by intros ->. Qed.

Lemma transaction_Ok {A} (m : M S A) s a s' :
  transaction m s = (Ok a, s') <-> m s = (Ok a, s').
Proof. unfold transaction. destruct (m s) as [[]?]; naive_solver. Qed.

(** A transaction that throws leaves the store as it was. *)
Lemma transaction_Throw {A} (m : M S A) s e s' :
  transaction m s = (Throw e, s') <-> s' = s /\ exists s1, m s = (Throw e, s1).
Proof. unfold transaction. destruct (m s) as [[]?]; naive_solver. Qed.

Lemma from_option_or_Ok {A} (o : option A) e s a s' :
  from_option_or o e s = (Ok a, s') <-> o = Some a /\ s' = s.
Proof. destruct o; unfold from_option_or, throw, mret, M_ret; naive_solver. Qed.

Lemma from_option_or_Throw {A} (o : option A) e s e' s' :
  from_option_or o e s = (Throw e', s') <-> o = None /\ e' = e /\ s' = s.
Proof. destruct o; unfold from_option_or, throw, mret, M_ret; naive_solver. Qed.

Lemma ret_run {A} (a : A) s : mret (M:=M S) a s = (Ok a, s).
Proof. done. Qed.
Lemma get_run s : get s = (Ok s, s).
Proof. done. Qed.
Lemma modify_run f s : modify f s = (Ok tt, f s).
Proof. done. Qed.
Lemma throw_run {A} e s : throw (A:=A) e s = (Throw e, s).
Proof. done. Qed.
Lemma bind_run {A B} (m : M S A) (k : A -> M S B) s :
  (x ← m; k x) s =
  match m s with (Ok a, s') => k a s' | (Throw e, s') => (Throw e, s') end.
Proof. done. Qed.
End laws.

Lemma zoom_run {S T A} (gp : S -> T) sp (m : M T A) s r s' :
  zoom gp sp m s = (r, s') <-> exists t, m (gp s) = (r, t) /\ s' = sp t s.
Proof. unfold zoom. destruct (m (gp s)) as [r0 t]. naive_solver. Qed.

(** A concrete run, from its answer. *)
Lemma run_eq {A B} (p : A * B) a : fst p = a -> p = (a, snd p).
Proof. intros <-. apply surjective_pairing. Qed.

(** One step of a handler, as an equation on its runs. *)
Section steps.
Context {S : Type}.
Implicit Types s : S.
Lemma require_bind {B} b e (k : unit -> M S B) s :
  mbind k (require b e) s = if b then k tt s else (Throw e, s).
Proof. by destruct b. Qed.
Lemma from_option_bind {A B} (o : option A) e (k : A -> M S B) s :
  mbind k (from_option_or o e) s = match o with Some a => k a s | None => (Throw e, s) end.
Proof. by destruct o. Qed.
Lemma of_result_bind {A B} (r : result A) (k : A -> M S B) s :
  mbind k (of_result r) s = match r with Ok a => k a s | Throw e => (Throw e, s) end.
Proof. by destruct r. Qed.
Lemma get_bind {B} (k : S -> M S B) s : mbind k get s = k s s.
Proof. done. Qed.
Lemma ret_bind {A B} (a : A) (k : A -> M S B) s : mbind k (mret a) s = k a s.
Proof. done. Qed.
Lemma modify_bind {B} f (k : unit -> M S B) s : mbind k (modify f) s = k tt (f s).
Proof. done. Qed.
Lemma throw_bind {A B} e (k : A -> M S B) s : mbind k (throw e) s = (Throw e, s).
Proof. done. Qed.
Lemma when_bind {B} b (m : M S unit) (k : unit -> M S B) s :
  mbind k (when b m) s = if b then mbind k m s else k tt s.
Proof. by destruct b. Qed.
Lemma bind_assoc_run {A B C} (m : M S A) (f : A -> M S B) (g : B -> M S C) s :
  mbind g (mbind f m) s = mbind (fun a => mbind g (f a)) m s.
Proof. unfold mbind, M_bind. by destruct (m s) as [[]]. Qed.
End steps.
Create Rewrite HintDb steps.
#[export] Hint Rewrite @require_bind @from_option_bind @of_result_bind @get_bind @ret_bind @modify_bind
  @throw_bind @when_bind @bind_assoc_run @ret_run @modify_run @throw_run @get_run : steps.
(** Runs the leading deterministic steps of the handler in the goal or in [H]. *)
Ltac step := autorewrite with steps.
Ltac step_in H := autorewrite with steps in H.

(** The first guard of [H : handler s = (Ok _, _)] held: [E] says so. *)
Tactic Notation "guard_in" hyp(H) "as" simple_intropattern(E) :=
  step_in H;
  lazymatch type of H with
  | (if ?b then _ else _) = _ =>
      let G := fresh in destruct b eqn:G; [revert G; intros E|discriminate H]
  | match ?o with Some _ => _ | None => _ end = _ =>
      let G := fresh in destruct o eqn:G; [revert G; intros E|discriminate H]
  end.

(** [run_inv H] turns [H : handler s = (r, s')] into the equations of the
    steps it went through. *)
Ltac run_inv_1 H :=
  lazymatch type of H with
  | mbind _ _ _ = (Ok _, _) =>
      apply bind_Ok in H as (? & ? & ?H & H); simpl in H
  | require _ _ _ = (Ok _, _) => apply require_Ok in H as [?H ->]
  | require _ _ _ = (Throw _, _) => apply require_Throw in H as (?H & -> & ->)
  | from_option_or _ _ _ = (Ok _, _) => apply from_option_or_Ok in H as [?H ->]
  | from_option_or _ _ _ = (Throw _, _) =>
      apply from_option_or_Throw in H as (?H & -> & ->)
  | transaction _ _ = (Ok _, _) => apply transaction_Ok in H
  | mret _ _ = (_, _) => rewrite ret_run in H
  | get _ = (_, _) => rewrite get_run in H
  | modify _ _ = (_, _) => rewrite modify_run in H
  | throw _ _ = (_, _) => rewrite throw_run in H
  | (_, _) = (_, _) => simplify_eq H
  end.
Ltac run_inv :=
  repeat match goal with
  | H : _ = (Ok _, _) |- _ => run_inv_1 H
  | H : _ = (Throw _, _) |- _ => run_inv_1 H
  | H : (Ok _, _) = (Ok _, _) |- _ => simplify_eq H
  end; simplify_eq/=.

(** ** JavaScript's [||] on optional strings: the empty string is falsy *)
Definition truthy (o : option string) : option string :=
  match o with Some "" => None | _ => o end.
Definition str_or (o : option string) (d : string) : string :=
  default d (truthy o).
Definition opt_or (o d : option string) : option string :=
  match truthy o with Some s => Some s | None => d end.

(** [s.trim()] on ASCII strings *)
Definition is_space (c : Ascii.ascii) : bool :=
  let n := Ascii.nat_of_ascii c in (n =? 32)%nat || ((9 <=? n) && (n <=? 13))%nat.
Fixpoint trim_left (s : string) : string :=
  match s with
  | String c s' => if is_space c then trim_left s' else s
  | EmptyString => EmptyString
  end.
Fixpoint trim_right (s : string) : string :=
  match s with
  | String c s' =>
    match trim_right s' with
    | EmptyString => if is_space c then EmptyString else String c EmptyString
    | s'' => String c s''
    end
  | EmptyString => EmptyString
  end.
Definition trim (s : string) : string := trim_right (trim_left s).

Fixpoint all_chars (P : Ascii.ascii -> bool) (s : string) : bool :=
  match s with EmptyString => true | String c s' => P c && all_chars P s' end.

Lemma trim_id s : all_chars (fun c => negb (is_space c)) s = true -> trim s = s.
Proof.
  intros H. unfold trim.
  assert (trim_left s = s) as ->.
  { destruct s as [|c s]; [done|]. simpl in *. by destruct (is_space c). }
  induction s as [|c s IH]; [done|]. simpl in *. apply andb_true_iff in H as [Hc Hs].
  rewrite (IH Hs). destruct s; [by destruct (is_space c)|done].
Qed.

(** [s.includes(p)], and the same up to the case of ASCII letters. *)
Definition includes (p s : string) : bool :=
  match String.index 0 p s with Some _ => true | None => false end.
Definition to_lower (c : Ascii.ascii) : Ascii.ascii :=
  let n := Ascii.nat_of_ascii c in
  if ((65 <=? n) && (n <=? 90))%nat then Ascii.ascii_of_nat (n + 32) else c.
Fixpoint lowercase (s : string) : string :=
  match s with
  | EmptyString => EmptyString
  | String c s' => String (to_lower c) (lowercase s')
  end.

(** [s.toUpperCase()] *)
Definition to_upper (c : Ascii.ascii) : Ascii.ascii :=
  let n := Ascii.nat_of_ascii c in
  if ((97 <=? n) && (n <=? 122))%nat then Ascii.ascii_of_nat (n - 32) else c.
Fixpoint uppercase (s : string) : string :=
  match s with
  | EmptyString => EmptyString
  | String c s' => String (to_upper c) (uppercase s')
  end.

(** [String(n).padStart(5, '0')] *)
Definition padStart5 (s : string) : string :=
  String.substring 0 (5 - String.length s) "00000" +:+ s.

(** [s.startsWith(p)], [s.split(c)] for one character, and the digits
    [parseInt(s, 10)] reads ([None] is [NaN]; a [Number] is exact up to
    2^53). *)
Fixpoint startsWith (p s : string) : bool :=
  match p, s with
  | EmptyString, _ => true
  | String a p', String b s' => Ascii.eqb a b && startsWith p' s'
  | String _ _, EmptyString => false
  end.
Fixpoint split_on (c : Ascii.ascii) (s : string) : list string :=
  match s with
  | EmptyString => [EmptyString]
  | String a s' =>
    match split_on c s' with
    | [] => []
    | w :: ws => if Ascii.eqb a c then EmptyString :: w :: ws else String a w :: ws
    end
  end.
Definition digit (c : Ascii.ascii) : option Z :=
  let n := Z.of_nat (Ascii.nat_of_ascii c) in
  if (48 <=? n)%Z && (n <=? 57)%Z then Some (n - 48)%Z else None.
Fixpoint digits_from (acc : Z) (s : string) : Z :=
  match s with
  | EmptyString => acc
  | String c s' => match digit c with Some d => digits_from (acc * 10 + d) s' | None => acc end
  end.
Definition parse_digits (s : string) : option Z :=
  match s with
  | EmptyString => None
  | String c _ => match digit c with Some _ => Some (digits_from 0 s) | None => None end
  end.
Definition parseInt (s : string) : option Z :=
  match trim_left s with
  | String c s' =>
    if Ascii.eqb c (Ascii.ascii_of_nat 45) then option_map Z.opp (parse_digits s')
    else if Ascii.eqb c (Ascii.ascii_of_nat 43) then parse_digits s'
    else parse_digits (String c s')
  | EmptyString => None
  end.

(** ** Numerals: what [pretty] prints, [parseInt] reads *)
Lemma digit_pretty x : (x < 10)%N -> digit (pretty_N_char x) = Some (Z.of_N x).
Proof.
  intros H.
  assert (x = 0 \/ x = 1 \/ x = 2 \/ x = 3 \/ x = 4 \/ x = 5 \/ x = 6 \/ x = 7 \/ x = 8 \/ x = 9)%N as Hx by lia.
  naive_solver.
Qed.

Lemma digits_from_pretty x s :
  exists k, forall acc, digits_from acc (pretty_N_go x s) = digits_from (acc * k + Z.of_N x) s.
Proof.
  revert s. induction (N.lt_wf_0 x) as [x _ IH]; intros s.
  assert (x = 0 \/ 0 < x)%N as [->|Hx] by lia.
  { exists 1. intros acc. rewrite pretty_N_go_0. f_equal. lia. }
  rewrite pretty_N_go_step by done. destruct (IH (x / 10)%N (N.div_lt x 10 Hx eq_refl)
    (String (pretty_N_char (x mod 10)) s)) as [k Hk].
  exists (k * 10). intros acc. rewrite Hk. simpl. rewrite digit_pretty by (apply N.mod_lt; lia). f_equal.
  pose proof (N.div_mod x 10 ltac:(lia)). lia.
Qed.

Lemma pretty_go_chars (P : Ascii.ascii -> bool) x s : (forall d, (d < 10)%N -> P (pretty_N_char d) = true) ->
  all_chars P (pretty_N_go x s) = all_chars P s.
Proof.
  intros HP. revert s. induction (N.lt_wf_0 x) as [x _ IH]; intros s.
  assert (x = 0 \/ 0 < x)%N as [->|Hx] by lia; [by rewrite pretty_N_go_0|].
  rewrite pretty_N_go_step by done. rewrite IH by (by apply N.div_lt). simpl.
  by rewrite HP by (apply N.mod_lt; lia).
Qed.

Lemma pretty_go_head x s : (0 < x)%N ->
  exists c s' d, pretty_N_go x s = String c s' /\ digit c = Some d.
Proof.
  revert s. induction (N.lt_wf_0 x) as [x _ IH]; intros s Hx. rewrite pretty_N_go_step by done.
  destruct (N.eq_0_gt_0_cases (x / 10)) as [->|Hd].
  - rewrite pretty_N_go_0. do 3 eexists. split; [done|]. by apply digit_pretty, N.mod_lt.
  - apply IH; [by apply N.div_lt|done].
Qed.

Lemma digit_plain c d : digit c = Some d ->
  is_space c = false /\ Ascii.eqb c (Ascii.ascii_of_nat 45) = false /\
  Ascii.eqb c (Ascii.ascii_of_nat 43) = false /\ Ascii.eqb c (Ascii.ascii_of_nat 95) = false.
Proof. destruct c as [[] [] [] [] [] [] [] []]; vm_compute; intros; split_and!; congruence. Qed.

Lemma parseInt_pretty (n : Z) : 0 < n -> parseInt (pretty n) = Some n.
Proof.
  destruct n as [|p|]; try lia. intros _. change (pretty (Z.pos p)) with (pretty_N_go (N.pos p) "").
  destruct (pretty_go_head (N.pos p) "" ltac:(lia)) as (c & s' & d & E & Hd).
  destruct (digits_from_pretty (N.pos p) "") as [k Hk]. specialize (Hk 0). rewrite E in *.
  destruct (digit_plain c d Hd) as (H1 & H2 & H3 & _).
  unfold parseInt. simpl trim_left. rewrite H1, H2, H3. unfold parse_digits. rewrite Hd, Hk. done.
Qed.

Lemma split_on_app c w t : all_chars (fun a => negb (Ascii.eqb a c)) w = true ->
  split_on c (w +:+ String c t) = w :: split_on c t.
Proof.
  assert (forall s, split_on c s <> []) as Hne.
  { induction s as [|a s IH]; simpl; [done|]. destruct (split_on c s); [done|]. by destruct (Ascii.eqb a c). }
  induction w as [|a w IH]; simpl.
  - intros _. rewrite Ascii.eqb_refl. specialize (Hne t). by destruct (split_on c t).
  - intros [Ha Hw]%andb_true_iff. change (Strings.String.append w (String c t)) with (w +:+ String c t).
    rewrite (IH Hw). apply negb_true_iff in Ha. by rewrite Ha.
Qed.

Lemma pretty_no_underscore (n : Z) : 0 < n ->
  all_chars (fun a => negb (Ascii.eqb a (Ascii.ascii_of_nat 95))) (pretty n) = true.
Proof.
  destruct n as [|p|]; try lia. intros _. change (pretty (Z.pos p)) with (pretty_N_go (N.pos p) "").
  rewrite pretty_go_chars; [done|]. intros d Hd.
  by destruct (digit_plain _ _ (digit_pretty d Hd)) as (_ & _ & _ & ->).
Qed.

Lemma startsWith_app p s : startsWith p (p +:+ s) = true.
Proof. induction p as [|c p IH]; [by destruct s|]. simpl. by rewrite Ascii.eqb_refl. Qed.

(** ** Lists *)
Lemma find_app {A} (f : A -> bool) l1 l2 :
  List.find f (l1 ++ l2) =
    match List.find f l1 with Some x => Some x | None => List.find f l2 end.
Proof. induction l1 as [|x l1 IH]; simpl; [done|]. by destruct (f x). Qed.

Lemma find_None_iff {A} (f : A -> bool) l :
  List.find f l = None <-> forall x, x ∈ l -> f x = false.
Proof.
  split.
  - intros H x Hx%list_elem_of_In. by eapply List.find_none.
  - intros H. destruct (List.find f l) as [x|] eqn:E; [|done].
    apply List.find_some in E as [Hin Hf]. apply list_elem_of_In in Hin.
    rewrite H in Hf; done.
Qed.

Lemma find_Some_elem {A} (f : A -> bool) l x :
  List.find f l = Some x -> x ∈ l /\ f x = true.
Proof. intros [H ?]%List.find_some. by apply list_elem_of_In in H. Qed.

Lemma filter_none {A} (P : A -> Prop) `{forall x, Decision (P x)} (l : list A) :
  (forall x, x ∈ l -> ~ P x) -> filter P l = [].
Proof.
  induction l as [|x l IH]; intros HP; [done|]. rewrite filter_cons_False; [|apply HP; left].
  apply IH. intros y Hy. apply HP. by right.
Qed.

(** ** [[...l].sort((a, b) => key(b) - key(a))]

    JavaScript's sort is stable.  The first element of the sorted list that
    satisfies a predicate is what one pass keeping the best element finds. *)
Section sort_desc.
Context {A : Type} (key : A -> Q).

Fixpoint insert_desc (x : A) (l : list A) : list A :=
  match l with
  | [] => [x]
  | y :: l' => if Qle_bool (key y) (key x) then x :: l else y :: insert_desc x l'
  end.
Definition sort_desc (l : list A) : list A := fold_right insert_desc [] l.

(** The element of the highest key, the first of equals. *)
Definition best (l : list A) : option A :=
  fold_right (fun x acc => match acc with
                           | Some y => if Qle_bool (key y) (key x) then Some x else Some y
                           | None => Some x
                           end) None l.

Lemma sort_desc_perm l : sort_desc l ≡ₚ l.
Proof.
  induction l as [|x l IH]; [done|]. simpl. rewrite <- IH at 2. generalize (sort_desc l). clear.
  induction l as [|y l IH]; simpl; [done|]. destruct (Qle_bool (key y) (key x)); [done|].
  rewrite IH. constructor.
Qed.

(** In a sorted list nothing after an element has a higher key. *)
Fixpoint sorted_desc (l : list A) : Prop :=
  match l with
  | [] => True
  | x :: l' => (forall y, y ∈ l' -> (key y <= key x)%Q) /\ sorted_desc l'
  end.

Lemma insert_desc_sorted x l : sorted_desc l -> sorted_desc (insert_desc x l).
Proof.
  induction l as [|y l IH]; simpl; [intros _; split; [intros ? []%elem_of_nil|done]|].
  intros [Hy Hs]. destruct (Qle_bool (key y) (key x)) eqn:E; simpl.
  - apply Qle_bool_iff in E. split; [|done]. intros z [->|Hz]%elem_of_cons; [done|].
    specialize (Hy z Hz). lra.
  - split; [|by apply IH]. assert (insert_desc x l ≡ₚ x :: l) as Hp.
    { clear. induction l as [|u l IH]; simpl; [done|]. destruct (Qle_bool (key u) (key x)); [done|].
      rewrite IH. constructor. }
    intros z Hz. rewrite Hp in Hz. apply elem_of_cons in Hz as [->|Hz]; [|by apply Hy].
    apply Qlt_le_weak, Qnot_le_lt. intros H. apply Qle_bool_iff in H. congruence.
Qed.
Lemma sort_desc_sorted l : sorted_desc (sort_desc l).
Proof. induction l as [|x l IH]; [done|]. by apply insert_desc_sorted. Qed.

Lemma find_insert_desc (f : A -> bool) x l : sorted_desc l ->
  List.find f (insert_desc x l) =
    if f x then match List.find f l with
                | Some y => if Qle_bool (key y) (key x) then Some x else Some y
                | None => Some x
                end
    else List.find f l.
Proof.
  induction l as [|y l IH]; simpl; [by destruct (f x)|]. intros [Hy Hs].
  destruct (Qle_bool (key y) (key x)) eqn:E; simpl.
  - destruct (f x) eqn:Ex; [|done]. destruct (f y) eqn:Ey; [by rewrite E|].
    destruct (List.find f l) as [z|] eqn:Ez; [|done]. apply find_Some_elem in Ez as [Hz _].
    specialize (Hy z Hz). apply Qle_bool_iff in E.
    by rewrite (proj2 (Qle_bool_iff _ _) (Qle_trans _ _ _ Hy E)).
  - destruct (f y) eqn:Ey; [by destruct (f x); rewrite ?E|]. by apply IH.
Qed.

Lemma find_sort_desc (f : A -> bool) l :
  List.find f (sort_desc l) = best (List.filter f l).
Proof.
  induction l as [|x l IH]; [done|]. simpl.
  rewrite find_insert_desc by apply sort_desc_sorted. rewrite IH. by destruct (f x).
Qed.
Lemma head_sort_desc l : head (sort_desc l) = best l.
Proof.
  transitivity (List.find (fun _ => true) (sort_desc l)); [by destruct (sort_desc l)|].
  rewrite find_sort_desc. f_equal. induction l as [|x l IH]; [done|]. simpl. by rewrite IH.
Qed.

Lemma best_spec l x : best l = Some x -> x ∈ l /\ forall y, y ∈ l -> (key y <= key x)%Q.
Proof.
  revert x. induction l as [|z l IH]; simpl; [done|]. intros x. destruct (best l) as [y|] eqn:Eb.
  - destruct (IH y eq_refl) as [Hin Hmax].
    destruct (Qle_bool (key y) (key z)) eqn:E; intros [= <-].
    + apply Qle_bool_iff in E. split; [left|]. intros u [->|Hu]%elem_of_cons; [lra|].
      specialize (Hmax u Hu). lra.
    + assert (key z <= key y)%Q.
      { apply Qlt_le_weak, Qnot_le_lt. intros H. apply Qle_bool_iff in H. congruence. }
      split; [by right|]. intros u [->|Hu]%elem_of_cons; [done|by apply Hmax].
  - intros [= <-]. assert (l = []) as ->.
    { destruct l as [|u l]; [done|]. simpl in Eb. destruct (best l); [|done]. by destruct (Qle_bool _ _). }
    split; [left|]. intros u [->|[]%elem_of_nil]%elem_of_cons. lra.
Qed.
Lemma best_None l : best l = None -> l = [].
Proof.
  destruct l as [|u l]; [done|]. simpl. destruct (best l); [|done]. by destruct (Qle_bool _ _).
Qed.
End sort_desc.

(** ** Strings *)
Lemma string_length_app s t : String.length (s +:+ t) = (String.length s + String.length t)%nat.
Proof. induction s as [|c s IH]; [done|]. simpl. by rewrite IH. Qed.

(** ** Invariants of handlers *)
Definition preserves {S A} (P : S -> Prop) (m : M S A) : Prop :=
  forall s r s', m s = (r, s') -> P s -> P s'.

Section preserves.
Context {S : Type} (P : S -> Prop).

Lemma preserves_ret {A} (a : A) : preserves P (mret (M:=M S) a).
Proof. intros s r s' H. unfold mret, M_ret in H. by simplify_eq. Qed.
Lemma preserves_throw {A} e : preserves P (throw (A:=A) e).
Proof. intros s r s' H. unfold throw in H. by simplify_eq. Qed.
Lemma preserves_require b e : preserves P (require b e).
Proof. destruct b; [apply preserves_ret|apply preserves_throw]. Qed.
Lemma preserves_from_option_or {A} (o : option A) e : preserves P (from_option_or o e).
Proof. destruct o; [apply preserves_ret|apply preserves_throw]. Qed.
Lemma preserves_of_result {A} (r : result A) : preserves P (of_result r).
Proof. intros s r' s' H. unfold of_result in H. by simplify_eq. Qed.
Lemma preserves_bind {A B} (m : M S A) (k : A -> M S B) :
  preserves P m -> (forall a, preserves P (k a)) -> preserves P (x ← m; k x).
Proof.
  intros Hm Hk s r s' H Hs. rewrite bind_run in H.
  destruct (m s) as [[a|e] s1] eqn:E; [by eapply Hk; eauto|]. simplify_eq. eauto.
Qed.
Lemma preserves_read : preserves P get.
Proof. intros s r s' H Hs. rewrite get_run in H. by simplify_eq. Qed.
(** The continuation of a [get] may rely on the invariant of what it read. *)
Lemma preserves_get {B} (k : S -> M S B) :
  (forall s r s', P s -> k s s = (r, s') -> P s') -> preserves P (s ← get; k s).
Proof. intros H s r s' Hk Hs. rewrite bind_run, get_run in Hk. eauto. Qed.
Lemma preserves_transaction {A} (m : M S A) : preserves P m -> preserves P (transaction m).
Proof.
  intros Hm s r s' H Hs. unfold transaction in H.
  destruct (m s) as [[a|e] s1] eqn:E; simplify_eq; eauto.
Qed.
Lemma preserves_try_catch {A} (m : M S A) h :
  preserves P m -> (forall e, preserves P (h e)) -> preserves P (try_catch m h).
Proof.
  intros Hm Hh s r s' H Hs. unfold try_catch in H.
  destruct (m s) as [[a|e] s1] eqn:E; simplify_eq; [eauto|eapply Hh; eauto].
Qed.
Lemma preserves_when b m : preserves P m -> preserves P (when b m).
Proof. intros. destruct b; [done|apply preserves_ret]. Qed.
Lemma preserves_modify f : (forall s, P s -> P (f s)) -> preserves P (modify f).
Proof. intros Hf s r s' H Hs. rewrite modify_run in H. simplify_eq. auto. Qed.
Lemma preserves_zoom {T A} (gp : S -> T) sp (m : M T A) :
  (forall t s, P s -> P (sp t s)) -> preserves P (zoom gp sp m).
Proof.
  intros Hsp s r s' H Hs. unfold zoom in H. destruct (m (gp s)) as [? t]. simplify_eq. auto.
Qed.

Lemma preserves_finally {A} (m : M S A) f : preserves P m -> preserves P f -> preserves P (try_finally m f).
Proof.
  intros Hm Hf s r s' H Hs. unfold try_finally in H. destruct (m s) as [r1 s1] eqn:E.
  destruct (f s1) as [r2 s2] eqn:Ef. assert (P s2) by eauto. by destruct r2; simplify_eq.
Qed.

(** Past a step that preserves what is known. *)
Lemma past_preserved {A B} (m : M S A) (k : A -> M S B) s b s' :
  (m ≫= k) s = (Ok b, s') -> P s -> preserves P m -> exists a s1, P s1 /\ k a s1 = (Ok b, s').
Proof. intros (a & s1 & E & H)%bind_Ok Hs Hm. exists a, s1. eauto. Qed.
End preserves.

(** [m] leaves the part [f] of the store alone. *)
Definition keeps {S A B} (f : S -> B) (m : M S A) : Prop := forall x, preserves (fun t => f t = x) m.

Lemma keeps_eq {S A B} (f : S -> B) (m : M S A) s r s' : keeps f m -> m s = (r, s') -> f s' = f s.
Proof. intros H E. exact (H (f s) s r s' E eq_refl). Qed.

Lemma keeps_of {S A B C} (f : S -> B) (h : B -> C) (m : M S A) :
  keeps f m -> keeps (fun s => h (f s)) m.
Proof. intros H x s r s' E <-. by rewrite (keeps_eq f m s r s'). Qed.

(** [m] only reads. *)
Definition readonly {S A} (m : M S A) : Prop := forall x, preserves (fun t => t = x) m.
Lemma readonly_eq {S A} (m : M S A) s r s' : readonly m -> m s = (r, s') -> s' = s.
Proof. intros H E. exact (H s s r s' E eq_refl). Qed.
Lemma readonly_zoom {S T A} (gp : S -> T) sp (m : M T A) :
  (forall s, sp (gp s) s = s) -> readonly m -> readonly (zoom gp sp m).
Proof.
  intros Hid Hm x s r s' H <-. apply zoom_run in H as (t & H & ->). by rewrite (readonly_eq _ _ _ _ Hm H).
Qed.

(** ** Handlers that never throw *)
Definition returns {S A} (m : M S A) : Prop := forall s, exists a s', m s = (Ok a, s').
Lemma returns_ret {S A} (a : A) : returns (S:=S) (mret a).
Proof. intros s. by exists a, s. Qed.
Lemma returns_bind {S A B} (m : M S A) (k : A -> M S B) : returns m -> (forall a, returns (k a)) -> returns (m ≫= k).
Proof.
  intros Hm Hk s. destruct (Hm s) as (a & s1 & E). destruct (Hk a s1) as (b & s2 & E2). exists b, s2.
  by rewrite bind_run, E.
Qed.
Lemma returns_get {S} : returns (S:=S) get.
Proof. intros s. by exists s, s. Qed.
Lemma returns_modify {S} (f : S -> S) : returns (modify f).
Proof. intros s. by exists tt, (f s). Qed.
Lemma returns_zoom {S T A} (gp : S -> T) sp (m : M T A) : returns m -> returns (zoom gp sp m).
Proof. intros Hm s. destruct (Hm (gp s)) as (a & t & E). exists a, (sp t s). unfold zoom. by rewrite E. Qed.
Lemma returns_catch {S A} (m : M S A) h : (forall e, returns (h e)) -> returns (try_catch m h).
Proof.
  intros Hh s. unfold try_catch. destruct (m s) as [[a|e] s1]; [by exists a, s1|apply Hh].
Qed.
Lemma returns_finally {S A} (m : M S A) f : returns m -> returns f -> returns (try_finally m f).
Proof.
  intros Hm Hf s. unfold try_finally. destruct (Hm s) as (a & s1 & E). rewrite E.
  destruct (Hf s1) as (u & s2 & ->). by exists a, s2.
Qed.
Create HintDb returns discriminated.
#[export] Hint Resolve returns_ret returns_get returns_modify : returns.

(** An invariant of the steps holds in every reachable store. *)
Lemma rtc_invariant {S} (R : relation S) (P : S -> Prop) x y :
  (forall a b, R a b -> P a -> P b) -> rtc R x y -> P x -> P y.
Proof. intros HR. induction 1; eauto. Qed.

Create HintDb preserves discriminated.
#[export] Hint Resolve preserves_ret preserves_throw preserves_require preserves_read
  preserves_from_option_or preserves_of_result preserves_bind preserves_transaction preserves_when
  preserves_try_catch : preserves.

(** Moves [H], a run that returns, past its first step, which preserves what
    [Hi] says of the store. *)
Tactic Notation "skip_in" ident(H) ident(Hi) tactic3(tac) :=
  let N := fresh in pose proof (past_preserved _ _ _ _ _ _ H Hi) as N; lapply N;
  [clear N H Hi; let x := fresh "x" in let t := fresh "t" in intros (x & t & Hi & H)
  |clear N H Hi; tac].

(** Runs a handler in hypothesis [H] case by case. *)
Ltac exec H :=
  cbv [mbind M_bind mret M_ret get modify require throw from_option_or when] in H;
  repeat (case_match; simplify_eq/=).
