(* ===== verification/JsNumber.v ===== *)
(** * JavaScript numbers

    A finite [number] is the rational it denotes; every arithmetic operation
    is the exact one followed by [rnd], IEEE-754 rounding to nearest, ties to
    even, with a 53-bit significand.  The exponent range is not modelled: no
    overflow to [Infinity], no subnormals, no [NaN], no sign of zero.  The
    amounts of this program are far inside that range.  [js_toFixed] is
    [Number.prototype.toFixed] below 1e21, [js_round] is [Math.round]. *)
From S2P Require Import Prelude.
Open Scope Z_scope.
Open Scope Q_scope.

Definition pow2 (e : Z) : Q := Qpower 2 e.

(** The exponent [k] of a positive rational: 2^k <= q < 2^(k+1). *)
Definition flog2 (q : Q) : Z :=
  let k := (Z.log2 (Qnum q) - Z.log2 (QDen q))%Z in
  if Qle_bool (pow2 k) q then k else (k - 1)%Z.

(** Round half to even, to an integer. *)
Definition rne (q : Q) : Z :=
  let f := Qfloor q in
  match Qcompare (q - inject_Z f) (1 # 2) with
  | Lt => f
  | Gt => (f + 1)%Z
  | Eq => if Z.even f then f else (f + 1)%Z
  end.

Definition rnd (x : Q) : Q :=
  let y := Qred x in
  if Qeq_bool y 0 then 0
  else let e := (flog2 (Qabs y) - 52)%Z in
       Qred (inject_Z (rne (y / pow2 e)) * pow2 e).

Definition js_add (a b : Q) : Q := rnd (a + b).
Definition js_sub (a b : Q) : Q := rnd (a - b).
Definition js_mul (a b : Q) : Q := rnd (a * b).
Definition js_div (a b : Q) : Q := rnd (a / b).
Definition js_max (a b : Q) : Q := if Qle_bool a b then b else a.
Definition js_min (a b : Q) : Q := if Qle_bool a b then a else b.
(** A number as a condition. *)
Definition nonzero (q : Q) : bool := negb (Qeq_bool q 0).
Definition js_lt (a b : Q) : bool := negb (Qle_bool b a).
Definition js_le (a b : Q) : bool := Qle_bool a b.
(** [Math.round]: the integer nearest to x, ties upwards. *)
Definition js_round (x : Q) : Z := Qfloor (x + (1 # 2)).
Definition js_ceil (x : Q) : Z := Qceiling x.
(** [x.toFixed(d)], as the integer it prints with the point moved right [d]
    places: nearest, ties away from zero. *)
Definition js_toFixed (d : nat) (x : Q) : Z :=
  let m := Qfloor (Qabs x * inject_Z (10 ^ Z.of_nat d) + (1 # 2)) in
  if Qle_bool 0 x then m else (- m)%Z.
(** [Number(x.toFixed(d))] *)
Definition js_toFixed_num (d : nat) (x : Q) : Q :=
  rnd (inject_Z (js_toFixed d x) / inject_Z (10 ^ Z.of_nat d)).

(** The double nearest to an amount of [p] paise. *)
Definition rupees (p : Z) : Q := rnd (inject_Z p / 100).

(** ** Powers of two *)
Lemma pow2_pos e : 0 < pow2 e.
Proof. apply Qpower_0_lt. reflexivity. Qed.

Lemma pow2_plus a b : pow2 (a + b) == pow2 a * pow2 b.
Proof. apply Qpower_plus. discriminate. Qed.

Lemma pow2_Z e : (0 <= e)%Z -> pow2 e == inject_Z (2 ^ e).
Proof. intros. unfold pow2. rewrite Zpower_Qpower by done. reflexivity. Qed.

Lemma pow2_succ e : pow2 (e + 1) == 2 * pow2 e.
Proof. rewrite pow2_plus. change (pow2 1) with (2 : Q). ring. Qed.

Lemma pow2_pred e : pow2 e == 2 * pow2 (e - 1).
Proof. rewrite <- pow2_succ. now replace (e - 1 + 1)%Z with e by lia. Qed.

Lemma pow2_le a b : (a <= b)%Z -> pow2 a <= pow2 b.
Proof.
  intros. replace b with (a + (b - a))%Z by lia. rewrite pow2_plus.
  rewrite (pow2_Z (b - a)) by lia.
  pose proof (pow2_pos a).
  assert (1 <= inject_Z (2 ^ (b - a))) by
    (change 1 with (inject_Z 1); rewrite <- Zle_Qle;
     pose proof (Z.pow_pos_nonneg 2 (b - a)); lia).
  nra.
Qed.

Lemma inject_Z_sub a b : inject_Z (a - b) == inject_Z a - inject_Z b.
Proof. unfold Z.sub. rewrite inject_Z_plus, inject_Z_opp. reflexivity. Qed.

Lemma flog2_spec q : 0 < q -> pow2 (flog2 q) <= q /\ q < pow2 (flog2 q + 1).
Proof.
  intros Hq. unfold flog2.
  set (a := Z.log2 (Qnum q)). set (b := Z.log2 (QDen q)).
  assert (Hn : (0 < Qnum q)%Z) by (destruct q; unfold Qlt in Hq; simpl in *; lia).
  destruct (Z.log2_spec _ Hn) as [Ha1 Ha2].
  destruct (Z.log2_spec (QDen q) eq_refl) as [Hb1 Hb2].
  fold a in Ha1, Ha2. fold b in Hb1, Hb2.
  pose proof (Z.log2_nonneg (Qnum q)). pose proof (Z.log2_nonneg (QDen q)).
  assert (Eq : q * inject_Z (QDen q) == inject_Z (Qnum q)).
  { destruct q as [n d]. unfold Qeq; simpl. lia. }
  assert (HA : pow2 a <= inject_Z (Qnum q) /\ inject_Z (Qnum q) < pow2 (a + 1)).
  { rewrite !pow2_Z by lia. rewrite <- Zle_Qle, <- Zlt_Qlt. unfold Z.succ in *. lia. }
  assert (HB : pow2 b <= inject_Z (QDen q) /\ inject_Z (QDen q) < pow2 (b + 1)).
  { rewrite !pow2_Z by lia. rewrite <- Zle_Qle, <- Zlt_Qlt. unfold Z.succ in *. lia. }
  assert (Hd : 0 < inject_Z (QDen q)) by (now rewrite <- (Zlt_Qlt 0)).
  assert (Hup : q < pow2 (a - b + 1)).
  { assert (pow2 (a - b + 1) * pow2 b == pow2 (a + 1)) as Hp
      by (rewrite <- pow2_plus; now replace (a - b + 1 + b)%Z with (a + 1)%Z by lia).
    apply (Qmult_lt_r _ _ (inject_Z (QDen q))); [done|].
    assert (pow2 (a - b + 1) * pow2 b <= pow2 (a - b + 1) * inject_Z (QDen q))
      by (apply Qmult_le_l; [apply pow2_pos | tauto]). lra. }
  assert (Hlo : pow2 (a - b - 1) <= q).
  { assert (pow2 (a - b - 1) * pow2 (b + 1) == pow2 a) as Hp
      by (rewrite <- pow2_plus; now replace (a - b - 1 + (b + 1))%Z with a by lia).
    apply (Qmult_le_r _ _ (inject_Z (QDen q))); [done|].
    assert (pow2 (a - b - 1) * inject_Z (QDen q) <= pow2 (a - b - 1) * pow2 (b + 1))
      by (apply Qmult_le_l; [apply pow2_pos | apply Qlt_le_weak; tauto]). lra. }
  destruct (Qle_bool (pow2 (a - b)) q) eqn:E.
  - apply Qle_bool_iff in E. split; [done|]. exact Hup.
  - split; [exact Hlo|]. replace (a - b - 1 + 1)%Z with (a - b)%Z by lia.
    apply Qnot_le_lt. intros H'. apply Qle_bool_iff in H'. congruence.
Qed.

(** ** Rounding error *)
Lemma rne_half q : Qabs (inject_Z (rne q) - q) <= 1 # 2.
Proof.
  unfold rne. pose proof (Qfloor_le q). pose proof (Qlt_floor q).
  rewrite inject_Z_plus in *. change (inject_Z 1) with 1 in *.
  apply Qabs_Qle_condition.
  destruct (Qcompare_spec (q - inject_Z (Qfloor q)) (1 # 2));
    [destruct (Z.even _)| |]; rewrite ?inject_Z_plus;
    change (inject_Z 1) with 1; split; lra.
Qed.

#[export] Instance rne_proper : Proper (Qeq ==> eq) rne.
Proof.
  intros x y E. unfold rne. rewrite (Qfloor_comp _ _ E).
  assert (E' : x - inject_Z (Qfloor y) == y - inject_Z (Qfloor y)) by (now rewrite E).
  now rewrite (Qcompare_comp _ _ E' _ _ (Qeq_refl (1#2))).
Qed.

Lemma rne_Z n : rne (inject_Z n) = n.
Proof.
  unfold rne. rewrite Qfloor_Z.
  assert (E : inject_Z n - inject_Z n == 0) by ring.
  now rewrite (Qcompare_comp _ _ E _ _ (Qeq_refl (1#2))).
Qed.

#[export] Instance rnd_proper : Proper (Qeq ==> eq) rnd.
Proof. intros x y E. unfold rnd. now rewrite (Qred_complete _ _ E). Qed.

(** Equal rationals round to the very same number. *)
Lemma rnd_eq x y : x == y -> rnd x = rnd y.
Proof. intros E. unfold rnd. by rewrite (Qred_complete _ _ E). Qed.

Lemma rnd_0 : rnd 0 = 0.
Proof. reflexivity. Qed.

Lemma Qabs_pos_nz x : ~ x == 0 -> 0 < Qabs x.
Proof.
  intros H. apply Qnot_le_lt. intros H'. apply H.
  apply Qabs_Qle_condition in H'. lra.
Qed.

(** The spacing at [x]: [x] divided by it lies in [2^52, 2^53). *)
Definition ulp (x : Q) : Q := pow2 (flog2 (Qabs (Qred x)) - 52).

Lemma rnd_ulp x : ~ x == 0 ->
  rnd x == inject_Z (rne (x / ulp x)) * ulp x.
Proof.
  intros Hx. unfold rnd, ulp.
  destruct (Qeq_bool (Qred x) 0) eqn:E.
  - apply Qeq_bool_eq in E. rewrite Qred_correct in E. contradiction.
  - rewrite Qred_correct. now setoid_rewrite (Qred_correct x) at 1.
Qed.

Lemma ulp_bounds x : ~ x == 0 ->
  0 < ulp x /\ pow2 52 * ulp x <= Qabs x /\ Qabs x < pow2 53 * ulp x.
Proof.
  intros Hx. unfold ulp. set (k := flog2 (Qabs (Qred x))).
  assert (Ha : 0 < Qabs (Qred x)) by (rewrite Qred_correct; now apply Qabs_pos_nz).
  destruct (flog2_spec _ Ha) as [H1 H2]. fold k in H1, H2.
  rewrite Qred_correct in H1, H2.
  split; [apply pow2_pos|]. rewrite <- !pow2_plus.
  now replace (52 + (k - 52))%Z with k by lia;
    replace (53 + (k - 52))%Z with (k + 1)%Z by lia.
Qed.

(** Half an ulp, hence at most 2^-53 of the value. *)
Lemma rnd_err x : Qabs (rnd x - x) <= Qabs x * pow2 (-53).
Proof.
  destruct (Qeq_dec x 0) as [E|Hx].
  { rewrite (rnd_proper _ _ E), E. vm_compute. discriminate. }
  destruct (ulp_bounds x Hx) as (Hu & Hlo & _).
  pose proof (rne_half (x / ulp x)) as Hr.
  assert (Ed : x == x / ulp x * ulp x) by (field; lra).
  rewrite rnd_ulp by done.
  assert (E : inject_Z (rne (x / ulp x)) * ulp x - x
              == (inject_Z (rne (x / ulp x)) - x / ulp x) * ulp x) by (field; lra).
  rewrite E, Qabs_Qmult, (Qabs_pos (ulp x)) by lra.
  assert (Qabs (inject_Z (rne (x / ulp x)) - x / ulp x) * ulp x <= (1 # 2) * ulp x)
    by (apply Qmult_le_compat_r; lra).
  change (pow2 52) with (inject_Z (2 ^ 52)) in Hlo.
  change (pow2 (-53)) with (1 # 9007199254740992).
  change (inject_Z (2 ^ 52)) with 4503599627370496 in Hlo. lra.
Qed.
Lemma rnd_nonneg x : 0 <= x -> 0 <= rnd x.
Proof.
  intros H. pose proof (rnd_err x) as E. rewrite (Qabs_pos x H) in E.
  apply Qabs_Qle_condition in E as [E _]. assert (pow2 (-53) == 1 # 9007199254740992) as Hp by reflexivity.
  rewrite Hp in E. lra.
Qed.

Lemma rnd_nonpos x : x <= 0 -> rnd x <= 0.
Proof.
  intros H. pose proof (rnd_err x) as E. rewrite (Qabs_neg x H) in E.
  apply Qabs_Qle_condition in E as [_ E]. assert (pow2 (-53) == 1 # 9007199254740992) as Hp by reflexivity.
  rewrite Hp in E. lra.
Qed.

Lemma rnd_close x b : Qabs x <= b -> Qabs (rnd x - x) <= b * pow2 (-53).
Proof.
  intros H. pose proof (rnd_err x). pose proof (pow2_pos (-53)).
  assert (Qabs x * pow2 (-53) <= b * pow2 (-53)) by (apply Qmult_le_compat_r; lra).
  lra.
Qed.

(** ** Exact cases *)
Lemma pow2_lt_inv a b : pow2 a < pow2 b -> (a < b)%Z.
Proof.
  intros H. destruct (Z_lt_le_dec a b) as [|Hle]; [done|].
  pose proof (pow2_le _ _ Hle). lra.
Qed.

Lemma pow2_inv_Z e : (e <= 0)%Z -> inject_Z (2 ^ (- e)) * pow2 e == 1.
Proof.
  intros. rewrite <- pow2_Z by lia. rewrite <- pow2_plus.
  replace (- e + e)%Z with 0%Z by lia. reflexivity.
Qed.

Lemma Qabs_Z n : Qabs (inject_Z n) = inject_Z (Z.abs n).
Proof. reflexivity. Qed.

Lemma rnd_multiple x m u : rne (x / u) = m -> x == inject_Z m * u ->
  u = ulp x -> ~ x == 0 -> rnd x == x.
Proof. intros Hm Hx -> Hnz. rewrite rnd_ulp by done. rewrite Hm. now symmetry. Qed.

(** Integers up to 2^53 in absolute value are doubles. *)
Lemma rnd_Z n : (Z.abs n <= 2 ^ 53)%Z -> rnd (inject_Z n) == inject_Z n.
Proof.
  intros Hn. destruct (decide (n = 0%Z)) as [->|Hnz]; [reflexivity|].
  set (x := inject_Z n).
  assert (Hx : ~ x == 0) by (unfold x; intros H; apply Hnz; now rewrite <- inject_Z_injective).
  destruct (ulp_bounds x Hx) as (Hu & Hlo & Hhi).
  unfold x in Hlo, Hhi. rewrite Qabs_Z in Hlo, Hhi. fold x in Hlo, Hhi.
  assert (HN : inject_Z (Z.abs n) <= inject_Z (2 ^ 53)) by now rewrite <- Zle_Qle.
  change (pow2 52) with (inject_Z (2 ^ 52)) in Hlo.
  change (inject_Z (2 ^ 52)) with 4503599627370496 in Hlo.
  change (inject_Z (2 ^ 53)) with 9007199254740992 in HN.
  unfold ulp in Hlo, Hhi, Hu. set (e := (flog2 (Qabs (Qred x)) - 52)%Z) in *.
  assert (He : (e < 2)%Z).
  { apply pow2_lt_inv. change (pow2 2) with 4. lra. }
  destruct (decide (e = 1%Z)) as [E1|E1].
  - rewrite E1 in Hlo. change (pow2 1) with 2 in Hlo.
    assert (Hge : (2 ^ 53 <= Z.abs n)%Z).
    { rewrite Zle_Qle. change (inject_Z (2 ^ 53)) with 9007199254740992. lra. }
    assert (Hc : (n = 2 ^ 53 \/ n = - 2 ^ 53)%Z) by lia.
    destruct Hc; subst n; vm_compute; reflexivity.
  - assert (E : pow2 e * inject_Z (2 ^ (- e)) == 1)
      by (rewrite Qmult_comm; apply pow2_inv_Z; lia).
    assert (Hq : x / pow2 e == inject_Z (n * 2 ^ (- e))).
    { rewrite inject_Z_mult. fold x.
      transitivity (x / pow2 e * (pow2 e * inject_Z (2 ^ (- e)))); [rewrite E; ring|].
      field. lra. }
    apply (rnd_multiple x (n * 2 ^ (- e)) (pow2 e)); [|rewrite <- Hq|done|done].
    + rewrite Hq. apply rne_Z.
    + field. lra.
Qed.

(** ** Rounding to an integer or to decimal places *)
Lemma Qfloor_unique q n : inject_Z n <= q -> q < inject_Z n + 1 -> Qfloor q = n.
Proof.
  intros H1 H2. pose proof (Qfloor_le q). pose proof (Qlt_floor q).
  rewrite inject_Z_plus in *. change (inject_Z 1) with 1 in *.
  assert (inject_Z n < inject_Z (Qfloor q + 1)) as Ha
    by (rewrite inject_Z_plus; change (inject_Z 1) with 1; lra).
  assert (inject_Z (Qfloor q) < inject_Z (n + 1)) as Hb
    by (rewrite inject_Z_plus; change (inject_Z 1) with 1; lra).
  rewrite <- Zlt_Qlt in Ha, Hb. lia.
Qed.

Lemma js_round_near x n : Qabs (x - inject_Z n) < 1 # 2 -> js_round x = n.
Proof.
  intros H%Qabs_Qlt_condition. unfold js_round. apply Qfloor_unique; lra.
Qed.

Lemma js_round_half x : Qabs (inject_Z (js_round x) - x) <= 1 # 2.
Proof.
  unfold js_round. pose proof (Qfloor_le (x + (1 # 2))). pose proof (Qlt_floor (x + (1 # 2))).
  rewrite inject_Z_plus in *. change (inject_Z 1) with 1 in *.
  apply Qabs_Qle_condition. split; lra.
Qed.

Definition scale10 (d : nat) : Q := inject_Z (10 ^ Z.of_nat d).

Lemma scale10_pos d : 0 < scale10 d.
Proof. unfold scale10. rewrite <- (Zlt_Qlt 0). lia. Qed.

(** [toFixed] rounds the magnitude and puts the sign back. *)
Lemma js_toFixed_sign d x :
  (0 <= x /\ js_toFixed d x = js_round (x * scale10 d)) \/
  (x < 0 /\ js_toFixed d x = (- js_round (- (x * scale10 d)))%Z).
Proof.
  unfold js_toFixed, js_round. fold (scale10 d).
  destruct (Qle_bool 0 x) eqn:E; [left|right].
  - apply Qle_bool_iff in E. split; [done|]. now rewrite Qabs_pos.
  - assert (Hx : x < 0).
    { apply Qnot_le_lt. intros H'. apply Qle_bool_iff in H'. congruence. }
    split; [done|]. f_equal. apply Qfloor_comp.
    rewrite Qabs_neg by now apply Qlt_le_weak. ring.
Qed.

Lemma js_toFixed_near d x n :
  Qabs (x * scale10 d - inject_Z n) < 1 # 2 -> js_toFixed d x = n.
Proof.
  intros H. destruct (js_toFixed_sign d x) as [[_ ->]|[_ ->]].
  - now apply js_round_near.
  - rewrite (js_round_near _ (- n)); [lia|].
    rewrite inject_Z_opp, <- Qabs_opp.
    assert (E : - (- (x * scale10 d) - - inject_Z n) == x * scale10 d - inject_Z n) by ring.
    now rewrite E.
Qed.

Lemma js_toFixed_half d x : Qabs (inject_Z (js_toFixed d x) - x * scale10 d) <= 1 # 2.
Proof.
  destruct (js_toFixed_sign d x) as [[_ ->]|[_ ->]]; [apply js_round_half|].
  pose proof (js_round_half (- (x * scale10 d))) as H.
  rewrite <- Qabs_opp in H. rewrite inject_Z_opp.
  assert (E : - (inject_Z (js_round (- (x * scale10 d))) - - (x * scale10 d)) ==
              - inject_Z (js_round (- (x * scale10 d))) - x * scale10 d) by ring.
  now rewrite <- E.
Qed.

#[export] Instance js_toFixed_proper d : Proper (Qeq ==> eq) (js_toFixed d).
Proof.
  intros x y E. unfold js_toFixed. rewrite (Qleb_comp 0 0 (Qeq_refl 0) _ _ E).
  assert (E' : Qabs x * inject_Z (10 ^ Z.of_nat d) + (1 # 2) ==
               Qabs y * inject_Z (10 ^ Z.of_nat d) + (1 # 2)) by now rewrite E.
  now rewrite (Qfloor_comp _ _ E').
Qed.

#[export] Instance js_round_proper : Proper (Qeq ==> eq) js_round.
Proof. intros x y E. unfold js_round. apply Qfloor_comp. now rewrite E. Qed.

(** ** Amounts in rupees as doubles

    An amount of [p] paise reaches the code as [rupees p].  Below ten
    trillion paise the roundings of the operations used on amounts stay far
    from half a paisa, so sums, differences and conversions back to paise are
    exact. *)
Definition money (p : Z) : Prop := (Z.abs p <= 10 ^ 13)%Z.

Lemma rupees_err p : money p ->
  Qabs (rupees p - inject_Z p / 100) <= 1 # 80000.
Proof.
  intros Hp. unfold rupees.
  assert (Hb : Qabs (inject_Z p / 100) <= 100000000000).
  { unfold Qdiv. rewrite Qabs_Qmult, Qabs_Z. change (Qabs (/ 100)) with (1 # 100).
    assert (inject_Z (Z.abs p) <= inject_Z (10 ^ 13)) by now rewrite <- Zle_Qle.
    change (inject_Z (10 ^ 13)) with 10000000000000 in *. lra. }
  pose proof (rnd_close _ _ Hb) as H.
  assert (100000000000 * pow2 (-53) <= 1 # 80000) by (vm_compute; discriminate). lra.
Qed.

Lemma rupees_0 : rupees 0 = 0.
Proof. reflexivity. Qed.

(** [Math.round(x * 100)] recovers the paise of an amount. *)
Lemma rupees_to_paise p : money p -> js_round (js_mul (rupees p) 100) = p.
Proof.
  intros Hp. pose proof (rupees_err p Hp) as He. apply Qabs_Qle_condition in He.
  set (r := rupees p) in *. set (z := inject_Z p / 100) in *.
  assert (Hz : 100 * z == inject_Z p) by (unfold z; field).
  assert (Hzb : Qabs z <= 100000000000).
  { unfold z, Qdiv. rewrite Qabs_Qmult, Qabs_Z. change (Qabs (/ 100)) with (1 # 100).
    assert (inject_Z (Z.abs p) <= inject_Z (10 ^ 13)) by now rewrite <- Zle_Qle.
    change (inject_Z (10 ^ 13)) with 10000000000000 in *. lra. }
  apply Qabs_Qle_condition in Hzb.
  assert (Hb : Qabs (r * 100) <= 10000000000001) by (apply Qabs_Qle_condition; lra).
  pose proof (rnd_close _ _ Hb) as Hr. fold (js_mul r 100) in Hr.
  assert (10000000000001 * pow2 (-53) <= 1 # 800) by (vm_compute; discriminate).
  apply Qabs_Qle_condition in Hr. apply js_round_near.
  apply Qabs_Qlt_condition. lra.
Qed.

(** A double within a third of a paisa of [p] paise prints as [p] paise. *)
Lemma toFixed_rupees x p :
  Qabs (x - inject_Z p / 100) <= 1 # 300 -> js_toFixed 2 x = p.
Proof.
  intros H. apply js_toFixed_near. change (scale10 2) with 100.
  apply Qabs_Qle_condition in H.
  set (z := inject_Z p / 100) in *.
  assert (Hz : 100 * z == inject_Z p) by (unfold z; field).
  apply Qabs_Qlt_condition. lra.
Qed.

Lemma toFixed_num_rupees x p :
  Qabs (x - inject_Z p / 100) <= 1 # 300 -> js_toFixed_num 2 x = rupees p.
Proof.
  intros H. unfold js_toFixed_num. rewrite (toFixed_rupees _ _ H). reflexivity.
Qed.

(** The exact value of a double sum or difference of two amounts. *)
Lemma rupees_sub_close p q : money p -> money q -> money (p - q) ->
  Qabs (js_sub (rupees p) (rupees q) - inject_Z (p - q) / 100) <= 1 # 10000.
Proof.
  intros Hp Hq Hpq. pose proof (rupees_err p Hp) as E1. pose proof (rupees_err q Hq) as E2.
  apply Qabs_Qle_condition in E1. apply Qabs_Qle_condition in E2.
  rewrite inject_Z_sub.
  assert (Hz : (inject_Z p - inject_Z q) / 100 == inject_Z p / 100 - inject_Z q / 100) by field.
  rewrite Hz. set (a := inject_Z p / 100) in *. set (b := inject_Z q / 100) in *.
  assert (Hd : - 100000000000 <= a - b <= 100000000000).
  { rewrite <- Hz. rewrite <- inject_Z_sub.
    assert (Hl : - inject_Z (10 ^ 13) <= inject_Z (p - q) <= inject_Z (10 ^ 13)).
    { unfold money in Hpq. rewrite <- inject_Z_opp, <- !Zle_Qle. lia. }
    change (inject_Z (10 ^ 13)) with 10000000000000 in Hl.
    assert (100 * (inject_Z (p - q) / 100) == inject_Z (p - q)) by field. lra. }
  assert (Hb : Qabs (rupees p - rupees q) <= 100000000001)
    by (apply Qabs_Qle_condition; lra).
  pose proof (rnd_close _ _ Hb) as Hr. fold (js_sub (rupees p) (rupees q)) in Hr.
  assert (100000000001 * pow2 (-53) <= 1 # 80000) by (vm_compute; discriminate).
  apply Qabs_Qle_condition in Hr. apply Qabs_Qle_condition. lra.
Qed.

(** [Number((a - b).toFixed(2))] on two amounts is their difference. *)
Lemma rupees_sub p q : money p -> money q -> money (p - q) ->
  js_toFixed_num 2 (js_sub (rupees p) (rupees q)) = rupees (p - q).
Proof.
  intros. apply toFixed_num_rupees.
  pose proof (rupees_sub_close p q). assert (1 # 10000 <= 1 # 300) by (vm_compute; discriminate).
  assert (Qabs (js_sub (rupees p) (rupees q) - inject_Z (p - q) / 100) <= 1 # 10000) by auto.
  lra.
Qed.

(** [x] is within [e] rupees of [p] paise. *)
Definition near (x : Q) (p : Z) (e : Q) : Prop := Qabs (x - inject_Z p / 100) <= e.

Lemma paise_bound p : money p -> Qabs (inject_Z p / 100) <= 100000000000.
Proof.
  intros Hp. unfold Qdiv. rewrite Qabs_Qmult, Qabs_Z. change (Qabs (/ 100)) with (1 # 100).
  assert (inject_Z (Z.abs p) <= inject_Z (10 ^ 13)) by now rewrite <- Zle_Qle.
  change (inject_Z (10 ^ 13)) with 10000000000000 in *. lra.
Qed.

Lemma near_rupees p : money p -> near (rupees p) p (1 # 80000).
Proof. apply rupees_err. Qed.

Lemma near_rnd x p e : money p -> e <= 1 -> near x p e -> near (rnd x) p (e + (1 # 80000)).
Proof.
  unfold near. intros Hp%paise_bound He H. apply Qabs_Qle_condition in H, Hp.
  assert (Qabs x <= 100000000001) as Hb by (apply Qabs_Qle_condition; lra).
  pose proof (rnd_close _ _ Hb) as Hr. apply Qabs_Qle_condition in Hr.
  assert (100000000001 * pow2 (-53) <= 1 # 80000) by (vm_compute; discriminate).
  apply Qabs_Qle_condition. lra.
Qed.

Lemma near_sub x y p q e f : money (p - q) -> e + f <= 1 -> near x p e -> near y q f ->
  near (js_sub x y) (p - q) (e + f + (1 # 80000)).
Proof.
  intros Hpq Hef Hx Hy. apply near_rnd; [done..|]. unfold near in *.
  apply Qabs_Qle_condition in Hx, Hy. apply Qabs_Qle_condition.
  assert (inject_Z (p - q) / 100 == inject_Z p / 100 - inject_Z q / 100)
    by (rewrite inject_Z_sub; field). lra.
Qed.

Lemma near_add x y p q e f : money (p + q) -> e + f <= 1 -> near x p e -> near y q f ->
  near (js_add x y) (p + q) (e + f + (1 # 80000)).
Proof.
  intros Hpq Hef Hx Hy. apply near_rnd; [done..|]. unfold near in *.
  apply Qabs_Qle_condition in Hx, Hy. apply Qabs_Qle_condition.
  assert (inject_Z (p + q) / 100 == inject_Z p / 100 + inject_Z q / 100)
    by (rewrite inject_Z_plus; field). lra.
Qed.

Lemma near_weaken x p e f : e <= f -> near x p e -> near x p f.
Proof. unfold near. lra. Qed.

(** [Math.round(x * 100)] on a double close to an amount gives its paise. *)
Lemma near_round x p e : money p -> e <= 1 # 400 -> near x p e -> js_round (js_mul x 100) = p.
Proof.
  unfold near. intros Hp He H. pose proof (paise_bound _ Hp) as Hb.
  apply Qabs_Qle_condition in H, Hb.
  assert (inject_Z p / 100 * 100 == inject_Z p) as Hz by field.
  assert (Qabs (x * 100) <= 10000000000001) as Hx by (apply Qabs_Qle_condition; lra).
  pose proof (rnd_close _ _ Hx) as Hr. fold (js_mul x 100) in Hr.
  assert (10000000000001 * pow2 (-53) <= 1 # 800) by (vm_compute; discriminate).
  apply Qabs_Qle_condition in Hr. apply js_round_near, Qabs_Qlt_condition. lra.
Qed.

(** Where the product by 100 rounds, it is within a paisa and a bit. *)
Lemma round_paise_bound x b : Qabs x <= b -> 1 <= b -> b <= 10000000000 ->
  Qabs (inject_Z (js_round (js_mul x 100)) - x * 100) <= 1.
Proof.
  intros Hx Hb1 Hb. pose proof (js_round_half (js_mul x 100)) as Hh.
  assert (Qabs (x * 100) <= 1000000000000) as Hx1
    by (apply Qabs_Qle_condition in Hx; apply Qabs_Qle_condition; lra).
  pose proof (rnd_close _ _ Hx1) as Hr. fold (js_mul x 100) in Hr.
  assert (1000000000000 * pow2 (-53) <= 1 # 4) by (vm_compute; discriminate).
  apply Qabs_Qle_condition in Hh, Hr. apply Qabs_Qle_condition. lra.
Qed.
