(* ===== verification/Decimal.v ===== *)
(** * Decimal amounts and database columns

    [Decimal] of decimal.js is the rational it denotes.  The library rounds
    the result of an operation to 20 significant digits: [DecimalArith] is that
    rounding, as documented.  Amounts are sums and differences of column values
    (at most 12 digits), on which it is the identity, and the model writes
    [+] and [-] for those; where the code divides, multiplies or adds what a
    division gave, it goes through [dec_round].

    A money column is declared [Decimal(10, 2)] or [Decimal(12, 2)] in
    prisma/schema.prisma: the database rounds what it stores to two places.
    [NumericColumn] is that behaviour, as documented by PostgreSQL. *)
From S2P Require Import Prelude JsNumber.
Open Scope Z_scope.
Open Scope Q_scope.

Abbreviation Decimal := Q (only parsing).

Definition d_eq (a b : Q) : bool := Qeq_bool a b.
Definition d_le (a b : Q) : bool := Qle_bool a b.
Definition d_lt (a b : Q) : bool := negb (Qle_bool b a).
Definition d_gt (a b : Q) : bool := d_lt b a.
Definition d_ge (a b : Q) : bool := d_le b a.
Definition d_min (a b : Q) : Q := if d_le a b then a else b.
Definition d_max (a b : Q) : Q := if d_le a b then b else a.

Lemma d_eq_true a b : d_eq a b = true <-> a == b.
Proof. apply Qeq_bool_iff. Qed.
Lemma d_eq_false a b : d_eq a b = false <-> ~ a == b.
Proof. rewrite <- d_eq_true. destruct (d_eq a b); naive_solver. Qed.
Lemma d_le_true a b : d_le a b = true <-> a <= b.
Proof. apply Qle_bool_iff. Qed.
Lemma d_le_false a b : d_le a b = false <-> b < a.
Proof.
  unfold d_le. destruct (Qle_bool a b) eqn:E.
  - apply Qle_bool_iff in E. split; [done|]. intros. exfalso. lra.
  - split; [|done]. intros _. apply Qnot_le_lt. intros H.
    apply Qle_bool_iff in H. congruence.
Qed.
Lemma d_lt_true a b : d_lt a b = true <-> a < b.
Proof. unfold d_lt. rewrite negb_true_iff. apply d_le_false. Qed.
Lemma d_lt_false a b : d_lt a b = false <-> b <= a.
Proof. unfold d_lt. rewrite negb_false_iff. apply d_le_true. Qed.
Lemma d_gt_true a b : d_gt a b = true <-> b < a.
Proof. apply d_lt_true. Qed.
Lemma d_gt_false a b : d_gt a b = false <-> a <= b.
Proof. apply d_lt_false. Qed.
Lemma d_ge_true a b : d_ge a b = true <-> b <= a.
Proof. apply d_le_true. Qed.
Lemma d_ge_false a b : d_ge a b = false <-> a < b.
Proof. apply d_le_false. Qed.

(** Turns every decided comparison of the context into its proposition. *)
Ltac dec_bool :=
  repeat match goal with
  | H : d_eq _ _ = true |- _ => apply d_eq_true in H
  | H : d_eq _ _ = false |- _ => apply d_eq_false in H
  | H : d_le _ _ = true |- _ => apply d_le_true in H
  | H : d_le _ _ = false |- _ => apply d_le_false in H
  | H : d_lt _ _ = true |- _ => apply d_lt_true in H
  | H : d_lt _ _ = false |- _ => apply d_lt_false in H
  | H : d_gt _ _ = true |- _ => apply d_gt_true in H
  | H : d_gt _ _ = false |- _ => apply d_gt_false in H
  | H : d_ge _ _ = true |- _ => apply d_ge_true in H
  | H : d_ge _ _ = false |- _ => apply d_ge_false in H
  | H : negb _ = true |- _ => apply negb_true_iff in H
  | H : negb _ = false |- _ => apply negb_false_iff in H
  end.

Lemma d_min_spec a b : (a <= b /\ d_min a b = a) \/ (b < a /\ d_min a b = b).
Proof. unfold d_min. destruct (d_le a b) eqn:E; dec_bool; auto. Qed.
Lemma d_max_spec a b : (a <= b /\ d_max a b = b) \/ (b < a /\ d_max a b = a).
Proof. unfold d_max. destruct (d_le a b) eqn:E; dec_bool; auto. Qed.

#[export] Instance d_min_proper : Proper (Qeq ==> Qeq ==> Qeq) d_min.
Proof.
  intros a a' Ea b b' Eb. destruct (d_min_spec a b) as [[? ->]|[? ->]], (d_min_spec a' b') as [[? ->]|[? ->]];
    lra.
Qed.
#[export] Instance d_max_proper : Proper (Qeq ==> Qeq ==> Qeq) d_max.
Proof.
  intros a a' Ea b b' Eb. destruct (d_max_spec a b) as [[? ->]|[? ->]], (d_max_spec a' b') as [[? ->]|[? ->]];
    lra.
Qed.

(** ** Whole paise *)
Definition whole_paise (q : Q) : Prop := exists n : Z, q == inject_Z n / 100.

Lemma whole_paise_0 : whole_paise 0.
Proof. exists 0%Z. reflexivity. Qed.
Lemma whole_paise_of n : whole_paise (inject_Z n / 100).
Proof. now exists n. Qed.
Lemma whole_paise_add a b : whole_paise a -> whole_paise b -> whole_paise (a + b).
Proof.
  intros [m Hm] [n Hn]. exists (m + n)%Z. rewrite Hm, Hn, inject_Z_plus. field.
Qed.
Lemma whole_paise_sub a b : whole_paise a -> whole_paise b -> whole_paise (a - b).
Proof.
  intros [m Hm] [n Hn]. exists (m - n)%Z. rewrite Hm, Hn, inject_Z_sub. field.
Qed.
Lemma whole_paise_min a b : whole_paise a -> whole_paise b -> whole_paise (d_min a b).
Proof. intros. destruct (d_min_spec a b) as [[_ ->]|[_ ->]]; done. Qed.
Lemma whole_paise_max a b : whole_paise a -> whole_paise b -> whole_paise (d_max a b).
Proof. intros. destruct (d_max_spec a b) as [[_ ->]|[_ ->]]; done. Qed.
#[export] Instance whole_paise_proper : Proper (Qeq ==> iff) whole_paise.
Proof. intros a b E. split; intros [n H]; exists n; [now rewrite <- E | now rewrite E]. Qed.

(** A decision, for concrete amounts. *)
Definition is_whole_paise (q : Q) : bool := Qeq_bool (inject_Z (Qfloor (q * 100)) / 100) q.
Lemma is_whole_paise_true q : is_whole_paise q = true -> whole_paise q.
Proof. intros H%Qeq_bool_eq. exists (Qfloor (q * 100)). by symmetry. Qed.

Create HintDb dec discriminated.
#[export] Hint Resolve whole_paise_0 whole_paise_of whole_paise_add
  whole_paise_sub whole_paise_min whole_paise_max : dec.

(** ** Rounding to significant digits *)
Class DecimalArith : Type := {
  dec_round : Q -> Q;
  dec_round_exact q : whole_paise q -> Qabs q <= 100000000000000000 -> dec_round q == q;
  dec_round_err q : Qabs (dec_round q - q) <= Qabs q * (5 # 100000000000000000000);
}.
Definition dec_add `{DecimalArith} (a b : Q) : Q := dec_round (a + b).
Definition dec_sub `{DecimalArith} (a b : Q) : Q := dec_round (a - b).
Definition dec_mul `{DecimalArith} (a b : Q) : Q := dec_round (a * b).
Definition dec_div `{DecimalArith} (a b : Q) : Q := dec_round (a / b).

(** The library's default context: 20 digits, halves away from zero.  The
    exponent [e] is found from the binary one and checked. *)
Definition pow10 (e : Z) : Q := Qpower 10 e.
Definition exponent10 (y : Q) : Z :=
  let k := (flog2 y * 30103 / 100000)%Z in
  if Qle_bool (pow10 (k + 1)) y then (k + 1)%Z else if Qle_bool (pow10 k) y then k else (k - 1)%Z.
Definition half_up (x : Q) : Z :=
  if Qle_bool 0 x then Qfloor (x + (1 # 2)) else (- Qfloor (- x + (1 # 2)))%Z.
Definition dec_round20 (q : Q) : Q :=
  let e := exponent10 (Qabs (Qred q)) in
  if Qle_bool (pow10 e) (Qabs (Qred q)) && Qle_bool (Qabs (Qred q)) (pow10 (e + 1)) then
    Qred (inject_Z (half_up (Qred q / pow10 (e - 19))) * pow10 (e - 19))
  else q.

Lemma pow10_pos e : 0 < pow10 e.
Proof. apply Qpower_0_lt. reflexivity. Qed.
Lemma pow10_plus a b : pow10 (a + b) == pow10 a * pow10 b.
Proof. apply Qpower_plus. discriminate. Qed.
Lemma pow10_Z e : (0 <= e)%Z -> pow10 e == inject_Z (10 ^ e).
Proof. intros. unfold pow10. rewrite Zpower_Qpower by done. reflexivity. Qed.

Lemma half_up_half x : Qabs (inject_Z (half_up x) - x) <= 1 # 2.
Proof.
  assert (forall y, Qabs (inject_Z (Qfloor (y + (1 # 2))) - y) <= 1 # 2) as H.
  { intros y. pose proof (Qfloor_le (y + (1 # 2))). pose proof (Qlt_floor (y + (1 # 2))) as Hl.
    rewrite inject_Z_plus in Hl. change (inject_Z 1) with 1 in Hl.
    apply Qabs_Qle_condition. split; lra. }
  unfold half_up. destruct (Qle_bool 0 x); [apply H|].
  specialize (H (- x)). rewrite <- Qabs_opp in H. rewrite inject_Z_opp.
  assert (- (inject_Z (Qfloor (- x + (1 # 2))) - - x) == - inject_Z (Qfloor (- x + (1 # 2))) - x)
    as E by ring. by rewrite E in H.
Qed.

Lemma half_up_Z n : half_up (inject_Z n) = n.
Proof.
  unfold half_up. destruct (Qle_bool 0 (inject_Z n)).
  - apply Qfloor_unique; rewrite ?inject_Z_plus; lra.
  - rewrite (Qfloor_unique _ (- n)); [lia| |]; rewrite inject_Z_opp; lra.
Qed.
#[export] Instance half_up_proper : Proper (Qeq ==> eq) half_up.
Proof.
  intros x y E. unfold half_up. rewrite (Qleb_comp 0 0 (Qeq_refl 0) _ _ E).
  assert (x + (1 # 2) == y + (1 # 2)) as -> by (by rewrite E).
  assert (- x + (1 # 2) == - y + (1 # 2)) as -> by (by rewrite E). done.
Qed.

Lemma pow10_nz e : ~ pow10 e == 0.
Proof. pose proof (pow10_pos e). lra. Qed.

Lemma pow10_gt e : 1000000000000000000 <= pow10 e \/ (e <= 17)%Z.
Proof.
  destruct (Z.le_gt_cases e 17) as [|Hgt]; [by right|left].
  replace e with (18 + (e - 18))%Z by lia. rewrite pow10_plus, (pow10_Z (e - 18)) by lia.
  assert (1 <= inject_Z (10 ^ (e - 18))).
  { change 1 with (inject_Z 1). rewrite <- Zle_Qle. pose proof (Z.pow_pos_nonneg 10 (e - 18)). lia. }
  assert (pow10 18 == 1000000000000000000) as -> by reflexivity. lra.
Qed.

#[refine, export] Instance decimal20 : DecimalArith := { dec_round := dec_round20 }.
Proof.
  - intros q [n Hn] Hq. unfold dec_round20. cbv zeta. set (e := exponent10 _).
    destruct (Qle_bool (pow10 e) (Qabs (Qred q)) && _) eqn:E; [|reflexivity].
    apply andb_true_iff in E as [E1%Qle_bool_iff _].
    assert (Qred q == q) as Hr by apply Qred_correct. rewrite Hr in E1. rewrite Hr, Qred_correct.
    destruct (pow10_gt e) as [He|He]; [lra|].
    assert (q == inject_Z (n * 10 ^ (17 - e)) * pow10 (e - 19)) as Hm.
    { rewrite Hn, inject_Z_mult, <- pow10_Z, <- Qmult_assoc, <- pow10_plus by lia.
      replace (17 - e + (e - 19))%Z with (-2)%Z by lia. reflexivity. }
    assert (q / pow10 (e - 19) == inject_Z (n * 10 ^ (17 - e))) as ->
      by (rewrite Hm; field; apply pow10_nz).
    rewrite half_up_Z. by symmetry.
  - intros q. unfold dec_round20. cbv zeta. set (e := exponent10 _).
    pose proof (Qabs_nonneg q).
    destruct (Qle_bool (pow10 e) (Qabs (Qred q)) && _) eqn:E.
    2: { assert (q - q == 0) as -> by ring. change (Qabs 0) with 0. lra. }
    apply andb_true_iff in E as [E1%Qle_bool_iff _].
    assert (Qred q == q) as Hr by apply Qred_correct. rewrite Hr in E1. rewrite Hr, Qred_correct.
    assert (pow10 (e - 19) == pow10 e * (1 # 10000000000000000000)) as Hu
      by (unfold Z.sub; rewrite pow10_plus; reflexivity).
    pose proof (half_up_half (q / pow10 (e - 19))) as Hh. pose proof (pow10_pos (e - 19)) as Hp.
    set (m := inject_Z (half_up (q / pow10 (e - 19)))) in *.
    assert (m * pow10 (e - 19) - q == (m - q / pow10 (e - 19)) * pow10 (e - 19)) as ->
      by (field; apply pow10_nz).
    rewrite Qabs_Qmult, (Qabs_pos (pow10 (e - 19))) by lra.
    assert (Qabs (m - q / pow10 (e - 19)) * pow10 (e - 19) <= (1 # 2) * pow10 (e - 19))
      by (apply Qmult_le_compat_r; lra). lra.
Defined.

(** ** Columns *)
Class NumericColumn : Type := {
  store : Q -> Q;
  store_exact q : whole_paise q -> store q == q;
  store_whole q : whole_paise (store q);
  store_err q : Qabs (store q - q) <= 1 # 200;
}.

(** Rounding half away from zero, as [numeric(12, 2)] does. *)
#[refine, export] Instance half_away_column : NumericColumn := {
  store q := Qred (inject_Z (js_toFixed 2 q) / 100)
}.
Proof.
  - intros q [n Hn]. rewrite Qred_correct.
    rewrite (js_toFixed_proper 2 _ _ Hn).
    assert (E : js_toFixed 2 (inject_Z n / 100) = n).
    { apply js_toFixed_near. change (scale10 2) with 100.
      assert (E0 : inject_Z n / 100 * 100 - inject_Z n == 0) by field.
      rewrite E0. reflexivity. }
    rewrite E. now symmetry.
  - intros q. exists (js_toFixed 2 q). apply Qred_correct.
  - intros q. rewrite Qred_correct. pose proof (js_toFixed_half 2 q) as H. change (scale10 2) with 100 in H.
    apply Qabs_Qle_condition in H as [H1 H2]. apply Qabs_Qle_condition.
    assert (inject_Z (js_toFixed 2 q) / 100 == inject_Z (js_toFixed 2 q) * (1 # 100)) as -> by field. split; lra.
Defined.

(** ** Decimals and JavaScript numbers

    [to_places2] is [toDecimalPlaces(2)] and [of_number x] is
    [new Decimal(x)] of a number, the decimal its shortest print shows, as
    decimal.js documents: a double that was made from an amount in paise
    becomes that amount again. *)
Class DecimalNumbers : Type := {
  to_places2 : Q -> Q;
  to_places2_whole q : whole_paise (to_places2 q);
  to_places2_err q : Qabs (to_places2 q - q) <= 1 # 200;
  #[global] to_places2_proper :: Proper (Qeq ==> Qeq) to_places2;
  of_number : Q -> Q;
  of_number_paise p : money p -> of_number (rupees p) == inject_Z p / 100;
  of_number_close x : Qabs (of_number x - x) <= Qabs x * pow2 (-52);
}.

#[refine, export] Instance decimal_js : DecimalNumbers := {
  to_places2 q := Qred (inject_Z (half_up (q * 100)) / 100);
  of_number x := let p := js_round (js_mul x 100) in
    if Qeq_bool (rupees p) x then Qred (inject_Z p / 100) else x
}.
Proof.
  - intros q. exists (half_up (q * 100)). apply Qred_correct.
  - intros q. rewrite Qred_correct. pose proof (half_up_half (q * 100)) as H.
    apply Qabs_Qle_condition in H as [H1 H2]. apply Qabs_Qle_condition.
    assert (inject_Z (half_up (q * 100)) / 100 == inject_Z (half_up (q * 100)) * (1 # 100)) as -> by field.
    split; lra.
  - intros x y E. rewrite !Qred_correct. by rewrite E.
  - intros p Hp. cbv zeta. rewrite (rupees_to_paise p Hp), (proj2 (Qeq_bool_iff _ _) (Qeq_refl _)).
    apply Qred_correct.
  - intros x. cbv zeta. set (p := js_round (js_mul x 100)). pose proof (Qabs_nonneg x).
    destruct (Qeq_bool (rupees p) x) eqn:E.
    2: { assert (x - x == 0) as -> by ring. change (Qabs 0) with 0.
         apply Qmult_le_0_compat; [done|apply Qlt_le_weak, pow2_pos]. }
    apply Qeq_bool_iff in E. rewrite Qred_correct.
    pose proof (rnd_err (inject_Z p / 100)) as He. unfold rupees in E. rewrite E in He.
    set (y := inject_Z p / 100) in *. rewrite <- Qabs_opp in He.
    assert (- (x - y) == y - x) as Ey by ring. rewrite Ey in He.
    pose proof (Qabs_triangle (y - x) x) as Ht. assert (y - x + x == y) as Et by ring. rewrite Et in Ht.
    assert (pow2 (-52) == 2 * pow2 (-53)) as -> by reflexivity.
    assert (pow2 (-53) == 1 # 9007199254740992) as Hp by reflexivity. rewrite Hp in *. lra.
Defined.

Lemma inject_Z_lt_inv a b : inject_Z a < inject_Z b -> (a < b)%Z.
Proof. intros H. by rewrite <- Zlt_Qlt in H. Qed.

(** Two whole amounts less than a paisa apart are equal. *)
Lemma whole_paise_close a b : whole_paise a -> whole_paise b -> Qabs (a - b) < 1 # 100 -> a == b.
Proof.
  intros [m Hm] [n Hn] H. rewrite Hm, Hn in H |- *. apply Qabs_Qlt_condition in H as [H1 H2].
  assert (m = n) as ->; [|reflexivity].
  assert (inject_Z m / 100 - inject_Z n / 100 == (inject_Z m - inject_Z n) * (1 # 100)) as E by field.
  rewrite E in H1, H2.
  assert (m < n + 1)%Z by (apply inject_Z_lt_inv; rewrite inject_Z_plus; change (inject_Z 1) with 1; lra).
  assert (n < m + 1)%Z by (apply inject_Z_lt_inv; rewrite inject_Z_plus; change (inject_Z 1) with 1; lra).
  lia.
Qed.
(** A whole amount above [-0.01] is not negative; differences of whole
    amounts below [n + 1] paise are at most [n]. *)
Lemma whole_paise_le a n : whole_paise a -> a < (inject_Z n + 1) / 100 -> a <= inject_Z n / 100.
Proof.
  intros [m Hm] H. rewrite Hm in *.
  assert (m < n + 1)%Z.
  { apply inject_Z_lt_inv. rewrite inject_Z_plus. change (inject_Z 1) with 1.
    assert (forall x y : Q, x / 100 < y / 100 -> x < y) as Hd; [|by apply Hd].
    intros x y Hxy. assert (x / 100 == x * (1 # 100)) as E1 by field.
    assert (y / 100 == y * (1 # 100)) as E2 by field. rewrite E1, E2 in Hxy. lra. }
  assert (inject_Z m <= inject_Z n) by (rewrite <- Zle_Qle; lia).
  assert (inject_Z m / 100 == inject_Z m * (1 # 100)) as -> by field.
  assert (inject_Z n / 100 == inject_Z n * (1 # 100)) as -> by field. lra.
Qed.

Section numbers.
Context {num : DecimalNumbers}.
Lemma to_places2_exact q : whole_paise q -> to_places2 q == q.
Proof.
  intros H. apply whole_paise_close; [apply to_places2_whole|done|].
  eapply Qle_lt_trans; [apply to_places2_err|]. reflexivity.
Qed.
Lemma to_places2_nonneg q : 0 <= q -> 0 <= to_places2 q.
Proof.
  intros H. pose proof (to_places2_err q) as E. apply Qabs_Qle_condition in E as [E _].
  pose proof (whole_paise_sub _ _ whole_paise_0 (to_places2_whole q)) as Hw.
  apply (whole_paise_le _ 0) in Hw.
  2: { assert ((inject_Z 0 + 1) / 100 == 1 # 100) as -> by reflexivity. lra. }
  change (inject_Z 0) with 0 in Hw. assert (0 / 100 == 0) as E0 by reflexivity. rewrite E0 in Hw. lra.
Qed.
End numbers.
#[export] Hint Resolve to_places2_whole : dec.

(** ** Sums over a table *)
Fixpoint sum_by {A} (f : A -> Q) (l : list A) : Q :=
  match l with
  | [] => 0
  | x :: l' => f x + sum_by f l'
  end.

Lemma sum_by_app {A} (f : A -> Q) l1 l2 :
  sum_by f (l1 ++ l2) == sum_by f l1 + sum_by f l2.
Proof. induction l1 as [|x l1 IH]; simpl; [ring|]. rewrite IH. ring. Qed.

Lemma sum_by_snoc {A} (f : A -> Q) l x : sum_by f (l ++ [x]) == sum_by f l + f x.
Proof. rewrite sum_by_app. simpl. ring. Qed.

Lemma sum_by_ext {A} (f g : A -> Q) l :
  (forall x, x ∈ l -> f x == g x) -> sum_by f l == sum_by g l.
Proof.
  induction l as [|x l IH]; simpl; intros Hfg; [reflexivity|].
  rewrite (Hfg x) by left. rewrite IH; [reflexivity|].
  intros y Hy. apply Hfg. by right.
Qed.

Lemma sum_by_plus {A} (f g : A -> Q) l :
  sum_by (fun x => f x + g x) l == sum_by f l + sum_by g l.
Proof. induction l as [|x l IH]; simpl; [ring|]. rewrite IH. ring. Qed.

Lemma sum_by_opp {A} (f : A -> Q) l : sum_by (fun x => - f x) l == - sum_by f l.
Proof. induction l as [|x l IH]; simpl; [ring|]. rewrite IH. ring. Qed.

Lemma sum_by_zero {A} (f : A -> Q) l : (forall x, x ∈ l -> f x == 0) -> sum_by f l == 0.
Proof.
  intros Hf. rewrite (sum_by_ext f (fun _ => 0)) by done.
  clear. induction l; simpl; [reflexivity|]. rewrite IHl. ring.
Qed.

Lemma sum_by_nonneg {A} (f : A -> Q) l : (forall x, x ∈ l -> 0 <= f x) -> 0 <= sum_by f l.
Proof.
  induction l as [|x l IH]; simpl; intros Hf; [lra|].
  assert (0 <= f x) by (apply Hf; left).
  assert (0 <= sum_by f l) by (apply IH; intros y Hy; apply Hf; by right). lra.
Qed.
Create Rewrite HintDb decr.
#[export] Hint Rewrite @sum_by_app @sum_by_snoc @sum_by_plus @sum_by_opp : decr.

(** ** Amounts in columns *)
Section columns.
Context {col : NumericColumn} {num : DecimalNumbers}.
(** A number within a tenth of a paisa of an amount is stored as it. *)
Lemma store_near x p e : money p -> near x p e -> e <= 1 # 1000 -> store (of_number x) == inject_Z p / 100.
Proof.
  intros Hm Hn He. pose proof (paise_bound p Hm) as Hp. unfold near in Hn.
  assert (Qabs x <= 100000000001) as Hx.
  { apply Qabs_Qle_condition in Hp, Hn. apply Qabs_Qle_condition. lra. }
  pose proof (of_number_close x) as Hc.
  assert (Qabs x * pow2 (-52) <= 1 # 40000) as Hs.
  { eapply Qle_trans; [apply Qmult_le_compat_r; [exact Hx|apply Qlt_le_weak, pow2_pos]|]. vm_compute. discriminate. }
  pose proof (store_err (of_number x)) as Hst.
  apply whole_paise_close; [apply store_whole|by exists p|].
  apply Qabs_Qle_condition in Hn, Hst. pose proof (Qle_trans _ _ _ Hc Hs) as Hc'. apply Qabs_Qle_condition in Hc'.
  apply Qabs_Qlt_condition. lra.
Qed.
Definition column_ok (q : Q) : Prop := whole_paise q /\ 0 <= q /\ q < 100000000.
#[export] Instance column_ok_proper : Proper (Qeq ==> iff) column_ok.
Proof. intros a b E. unfold column_ok. by rewrite E. Qed.
Lemma column_ok_paise q : column_ok q -> exists p, (0 <= p <= 10 ^ 10)%Z /\ q == inject_Z p / 100.
Proof.
  intros ([p Hp] & H0 & H1). exists p. split; [|done]. rewrite Hp in H0, H1.
  assert (inject_Z p / 100 == inject_Z p * (1 # 100)) as E by field. rewrite E in H0, H1.
  assert (0 <= inject_Z p) as H2 by lra. assert (inject_Z p < inject_Z (10 ^ 10)) as H3 by (change (inject_Z (10 ^ 10)) with 10000000000; lra).
  change 0 with (inject_Z 0) in H2. rewrite <- Zle_Qle in H2. rewrite <- Zlt_Qlt in H3. lia.
Qed.
Lemma money_column p : (0 <= p <= 10 ^ 10)%Z -> money p.
Proof. unfold money. lia. Qed.
Lemma store_nonneg x : 0 <= x -> 0 <= store (of_number x).
Proof.
  intros Hx. pose proof (of_number_close x) as Hc. rewrite (Qabs_pos x) in Hc by done.
  assert (pow2 (-52) <= 1) by (vm_compute; discriminate).
  assert (x * pow2 (-52) <= x * 1) as Hm by (rewrite !(Qmult_comm x); apply Qmult_le_compat_r; done).
  apply Qabs_Qle_condition in Hc as [Hc _]. pose proof (store_err (of_number x)) as Hs. apply Qabs_Qle_condition in Hs as [Hs _].
  pose proof (whole_paise_sub _ _ whole_paise_0 (store_whole (of_number x))) as Hw.
  apply (whole_paise_le _ 0) in Hw.
  2: { assert ((inject_Z 0 + 1) / 100 == 1 # 100) as -> by reflexivity. lra. }
  change (inject_Z 0) with 0 in Hw. assert (0 / 100 == 0) as E0 by reflexivity. rewrite E0 in Hw. lra.
Qed.
(** A stored amount as a number, and what sums and differences store. *)
Lemma rnd_column p q : q == inject_Z p / 100 -> rnd q = rupees p.
Proof. intros E. by rewrite (rnd_eq _ _ E). Qed.
Lemma near_nonneg x p e : near x p e -> e <= 1 # 1000 -> 0 <= x -> (0 <= p)%Z.
Proof.
  unfold near. intros H He Hx. apply Qabs_Qle_condition in H as [_ H].
  destruct (Z.le_gt_cases 0 p) as [|Hlt]; [done|]. exfalso.
  assert (inject_Z p <= -1) by (change (-1)%Q with (inject_Z (-1)); rewrite <- Zle_Qle; lia).
  assert (inject_Z p / 100 == inject_Z p * (1 # 100)) as Ed by field. rewrite Ed in H. lra.
Qed.
Lemma rupees_le p q : money p -> money q -> rupees q <= rupees p -> (q <= p)%Z.
Proof.
  intros Hp Hq H. pose proof (near_rupees p Hp) as E1. pose proof (near_rupees q Hq) as E2. unfold near in *.
  apply Qabs_Qle_condition in E1, E2. destruct (Z.le_gt_cases q p) as [|Hlt]; [done|]. exfalso.
  assert (inject_Z p + 1 <= inject_Z q) by (change 1 with (inject_Z 1); rewrite <- inject_Z_plus, <- Zle_Qle; lia).
  assert (inject_Z p / 100 == inject_Z p * (1 # 100)) as Ed by field. rewrite Ed in E1.
  assert (inject_Z q / 100 == inject_Z q * (1 # 100)) as Ed' by field. rewrite Ed' in E2. lra.
Qed.
End columns.
