(* ===== verification/Schema.v ===== *)
(** * The enums of prisma/schema.prisma

    One inductive type per enum the modelled services use, with the schema's
    constructors.  A prefix keeps apart the constructors several enums share
    ([PENDING], [CANCELLED], ...). *)
From S2P Require Import Prelude.

Inductive Role : Type :=
  | ROLE_CUSTOMER | ROLE_VENDOR | ROLE_ADMIN | ROLE_SUPPORT_AGENT.
#[export] Instance Role_eq_dec : EqDecision Role.
Proof. solve_decision. Defined.

Inductive BookingStatus : Type :=
  | BS_PENDING | BS_CONFIRMED | BS_HANDOVER_READY | BS_ONGOING
  | BS_RETURN_PENDING | BS_COMPLETED | BS_CANCELLED | BS_REFUND_PENDING
  | BS_REFUNDED | BS_DISPUTED | BS_EXPIRED.
#[export] Instance BookingStatus_eq_dec : EqDecision BookingStatus.
Proof. solve_decision. Defined.

Inductive PaymentStatus : Type :=
  | PS_CREATED | PS_PENDING | PS_AUTHORIZED | PS_CAPTURED
  | PS_PAID | PS_FAILED | PS_CANCELLED | PS_EXPIRED
  | PS_PARTIALLY_REFUNDED | PS_REFUNDED.
#[export] Instance PaymentStatus_eq_dec : EqDecision PaymentStatus.
Proof. solve_decision. Defined.

Inductive RefundStatus : Type :=
  | RS_NONE | RS_REQUESTED | RS_PENDING | RS_PROCESSED
  | RS_FAILED | RS_RETRYABLE.
#[export] Instance RefundStatus_eq_dec : EqDecision RefundStatus.
Proof. solve_decision. Defined.

Inductive InspectionType : Type :=
  | INS_PRE_TRIP | INS_POST_TRIP.
#[export] Instance InspectionType_eq_dec : EqDecision InspectionType.
Proof. solve_decision. Defined.

Inductive HandoverOtpType : Type :=
  | OTP_PICKUP | OTP_RETURN.
#[export] Instance HandoverOtpType_eq_dec : EqDecision HandoverOtpType.
Proof. solve_decision. Defined.

Inductive VehicleBlockType : Type :=
  | VB_MAINTENANCE | VB_ACCIDENT_REPAIR | VB_ROUTINE_INSPECTION | VB_VENDOR_BLACKOUT
  | VB_ADMIN_LOCK | VB_SAFETY_HOLD.
#[export] Instance VehicleBlockType_eq_dec : EqDecision VehicleBlockType.
Proof. solve_decision. Defined.

Inductive SecurityDepositStatus : Type :=
  | SD_REQUIRED | SD_HELD | SD_REFUNDED | SD_PARTIALLY_REFUNDED
  | SD_FORFEITED | SD_CANCELLED.
#[export] Instance SecurityDepositStatus_eq_dec : EqDecision SecurityDepositStatus.
Proof. solve_decision. Defined.

Inductive ReferralStatus : Type :=
  | RFS_INVITED | RFS_REGISTERED | RFS_QUALIFIED | RFS_REWARDED | RFS_CANCELLED | RFS_EXPIRED | RFS_FRAUD_BLOCKED.
#[export] Instance ReferralStatus_eq_dec : EqDecision ReferralStatus.
Proof. solve_decision. Defined.

Inductive LoyaltyTierCode : Type := LTC_BRONZE | LTC_SILVER | LTC_GOLD | LTC_PLATINUM.
#[export] Instance LoyaltyTierCode_eq_dec : EqDecision LoyaltyTierCode.
Proof. solve_decision. Defined.

Inductive LoyaltyTransactionType : Type :=
  | LTX_TRIP_COMPLETION_EARNED | LTX_PROMOTION_BONUS | LTX_REDEMPTION_TO_WALLET | LTX_TIER_UPGRADE_BONUS
  | LTX_ADMIN_ADJUSTMENT | LTX_CANCELLATION_REVERSAL | LTX_POINTS_EXPIRY.
#[export] Instance LoyaltyTransactionType_eq_dec : EqDecision LoyaltyTransactionType.
Proof. solve_decision. Defined.

Inductive DisputeStatus : Type :=
  | DSP_OPEN | DSP_UNDER_REVIEW | DSP_RESOLVED | DSP_REJECTED.
#[export] Instance DisputeStatus_eq_dec : EqDecision DisputeStatus.
Proof. solve_decision. Defined.

Inductive DamageClaimStatus : Type :=
  | DC_SUBMITTED | DC_UNDER_REVIEW | DC_APPROVED | DC_PARTIALLY_APPROVED
  | DC_REJECTED | DC_SETTLED.
#[export] Instance DamageClaimStatus_eq_dec : EqDecision DamageClaimStatus.
Proof. solve_decision. Defined.

Inductive VehicleOperationalStatus : Type :=
  | VO_DRAFT | VO_PENDING_VERIFICATION | VO_ACTIVE | VO_INACTIVE
  | VO_MAINTENANCE | VO_SUSPENDED | VO_RETIRED.
#[export] Instance VehicleOperationalStatus_eq_dec : EqDecision VehicleOperationalStatus.
Proof. solve_decision. Defined.

Inductive VehicleVerificationStatus : Type :=
  | VV_PENDING | VV_VERIFIED | VV_REJECTED.
#[export] Instance VehicleVerificationStatus_eq_dec : EqDecision VehicleVerificationStatus.
Proof. solve_decision. Defined.

Inductive FulfillmentStage : Type :=
  | FS_PENDING_ALLOCATION | FS_ALLOCATED | FS_PREPARATION_SCHEDULED | FS_PREPARATION_IN_PROGRESS
  | FS_CLEANING_COMPLETED | FS_INSPECTION_COMPLETED | FS_READY_FOR_PICKUP | FS_CUSTOMER_CHECKED_IN
  | FS_HANDOVER_IN_PROGRESS | FS_ACTIVE_RENTAL | FS_RETURN_INSPECTION_PENDING | FS_SETTLEMENT_PENDING
  | FS_COMPLETED | FS_CANCELLED.
#[export] Instance FulfillmentStage_eq_dec : EqDecision FulfillmentStage.
Proof. solve_decision. Defined.

Inductive LedgerAccountType : Type :=
  | GATEWAY_CLEARING | CUSTOMER_WALLET | CUSTOMER_DEPOSIT_ESCROW | VENDOR_PAYABLE
  | PLATFORM_COMMISSION_REVENUE | TAX_GST_LIABILITY | CORPORATE_RECEIVABLE | DISPUTE_HOLD.
#[export] Instance LedgerAccountType_eq_dec : EqDecision LedgerAccountType.
Proof. solve_decision. Defined.

Inductive LedgerEntrySide : Type :=
  | DEBIT | CREDIT.
#[export] Instance LedgerEntrySide_eq_dec : EqDecision LedgerEntrySide.
Proof. solve_decision. Defined.

Inductive WalletStatus : Type :=
  | WS_ACTIVE | WS_FROZEN | WS_CLOSED.
#[export] Instance WalletStatus_eq_dec : EqDecision WalletStatus.
Proof. solve_decision. Defined.

Inductive WalletBucketType : Type :=
  | BUCKET_REAL_MONEY | BUCKET_PROMOTIONAL | BUCKET_REFUND_CREDIT.
#[export] Instance WalletBucketType_eq_dec : EqDecision WalletBucketType.
Proof. solve_decision. Defined.

Inductive LedgerEntryType : Type :=
  | LT_CUSTOMER_DEPOSIT | LT_CHECKOUT_DEBIT | LT_BOOKING_REFUND | LT_REFERRAL_REWARD
  | LT_LOYALTY_CONVERSION | LT_ADMIN_ADJUSTMENT | LT_CANCELLATION_CREDIT | LT_EXPIRATION.
#[export] Instance LedgerEntryType_eq_dec : EqDecision LedgerEntryType.
Proof. solve_decision. Defined.

Inductive LedgerDirection : Type :=
  | DIR_CREDIT | DIR_DEBIT.
#[export] Instance LedgerDirection_eq_dec : EqDecision LedgerDirection.
Proof. solve_decision. Defined.

Inductive PricingRuleScope : Type :=
  | SCOPE_PLATFORM | SCOPE_VENDOR | SCOPE_BRANCH | SCOPE_VEHICLE_CLASS.
#[export] Instance PricingRuleScope_eq_dec : EqDecision PricingRuleScope.
Proof. solve_decision. Defined.

Inductive SalesChannel : Type :=
  | CH_CUSTOMER_APP | CH_WEB_MARKETPLACE | CH_VENDOR_DIRECT | CH_BRANCH_DESK
  | CH_ADMIN_PORTAL | CH_CORPORATE_B2B | CH_AFFILIATE_PARTNER.
#[export] Instance SalesChannel_eq_dec : EqDecision SalesChannel.
Proof. solve_decision. Defined.

Inductive CarCategory : Type :=
  | CAT_HATCHBACK | CAT_SEDAN | CAT_SUV | CAT_LUXURY
  | CAT_TEMPO_TRAVELLER | CAT_MINI_BUS.
#[export] Instance CarCategory_eq_dec : EqDecision CarCategory.
Proof. solve_decision. Defined.


Inductive VerificationStatus : Type :=
  | VS_PENDING | VS_VERIFIED | VS_SUSPENDED.
#[export] Instance VerificationStatus_eq_dec : EqDecision VerificationStatus.
Proof. solve_decision. Defined.

Inductive ServiceAreaStatus : Type :=
  | SA_ACTIVE | SA_COMING_SOON | SA_INACTIVE.
#[export] Instance ServiceAreaStatus_eq_dec : EqDecision ServiceAreaStatus.
Proof. solve_decision. Defined.

Inductive TripType : Type :=
  | TRIP_LOCAL | TRIP_OUTSTATION | TRIP_AIRPORT_TRANSFER | TRIP_SELF_DRIVE.
#[export] Instance TripType_eq_dec : EqDecision TripType.
Proof. solve_decision. Defined.

Inductive DiscountType : Type :=
  | DT_PERCENTAGE | DT_FIXED.
#[export] Instance DiscountType_eq_dec : EqDecision DiscountType.
Proof. solve_decision. Defined.

Inductive VehicleHoldStatus : Type :=
  | VH_ACTIVE | VH_RELEASED | VH_EXPIRED | VH_CONVERTED.
#[export] Instance VehicleHoldStatus_eq_dec : EqDecision VehicleHoldStatus.
Proof. solve_decision. Defined.

Inductive QuoteStatus : Type :=
  | QS_ACTIVE | QS_ACCEPTED | QS_EXPIRED | QS_SUPERSEDED.
#[export] Instance QuoteStatus_eq_dec : EqDecision QuoteStatus.
Proof. solve_decision. Defined.

Inductive QuoteLineItemType : Type :=
  | QL_BASE_RENTAL | QL_HOURLY_RENTAL | QL_PACKAGE_TIER | QL_DURATION_DISCOUNT
  | QL_COUPON_DISCOUNT | QL_REFERRAL_DISCOUNT | QL_PLATFORM_FEE | QL_GST
  | QL_DELIVERY_FEE | QL_PICKUP_FEE | QL_RETURN_FEE | QL_ONE_WAY_SURCHARGE
  | QL_PROTECTION_FEE | QL_SECURITY_DEPOSIT | QL_EXTRA_ADDON.
#[export] Instance QuoteLineItemType_eq_dec : EqDecision QuoteLineItemType.
Proof. solve_decision. Defined.

Inductive CheckoutSessionStatus : Type :=
  | CK_DRAFT | CK_QUOTE_LOCKED | CK_PAYMENT_PENDING | CK_PAYMENT_PROCESSING
  | CK_CONFIRMED | CK_PAYMENT_FAILED | CK_EXPIRED | CK_CANCELLED.
#[export] Instance CheckoutSessionStatus_eq_dec : EqDecision CheckoutSessionStatus.
Proof. solve_decision. Defined.

Inductive DeliveryType : Type :=
  | DEL_NONE | DEL_DOORSTEP_DELIVERY | DEL_DOORSTEP_PICKUP | DEL_ROUND_TRIP_DELIVERY.
#[export] Instance DeliveryType_eq_dec : EqDecision DeliveryType.
Proof. solve_decision. Defined.

Inductive PayoutStatus : Type :=
  | PO_PENDING | PO_APPROVED | PO_PROCESSING | PO_PAID
  | PO_FAILED | PO_REJECTED | PO_REVERSED.
#[export] Instance PayoutStatus_eq_dec : EqDecision PayoutStatus.
Proof. solve_decision. Defined.

Inductive VendorDepositStatus : Type :=
  | VD_REQUIRED | VD_NOT_REQUIRED | VD_PENDING | VD_PAYMENT_INITIATED | VD_PARTIALLY_PAID | VD_PAID | VD_PAYMENT_FAILED
  | VD_HELD | VD_RELEASED | VD_REFUND_PENDING | VD_PARTIALLY_REFUNDED | VD_REFUNDED | VD_FORFEITED | VD_REVIEW_REQUIRED.
#[export] Instance VendorDepositStatus_eq_dec : EqDecision VendorDepositStatus.
Proof. solve_decision. Defined.

Inductive VendorDepositTransactionType : Type :=
  | VT_INITIAL_PAYMENT | VT_PARTIAL_PAYMENT | VT_TOP_UP | VT_RELEASE | VT_REFUND | VT_FORFEITURE | VT_ADMIN_ADJUSTMENT.
#[export] Instance VendorDepositTransactionType_eq_dec : EqDecision VendorDepositTransactionType.
Proof. solve_decision. Defined.

Inductive RequirementFulfillmentStatus : Type :=
  | RF_PENDING | RF_SUBMITTED | RF_UNDER_REVIEW | RF_APPROVED | RF_REJECTED | RF_EXPIRED | RF_WAIVED.
#[export] Instance RequirementFulfillmentStatus_eq_dec : EqDecision RequirementFulfillmentStatus.
Proof. solve_decision. Defined.

Inductive ExtensionStatus : Type := EXT_PENDING_PAYMENT | EXT_CONFIRMED | EXT_CANCELLED | EXT_EXPIRED.
#[export] Instance ExtensionStatus_eq_dec : EqDecision ExtensionStatus.
Proof. solve_decision. Defined.
