(* ===== verification/Ledger.v ===== *)
(** * The platform ledger: src/car_rental_backend/src/finance/ledger-core.service.ts

    The table [PlatformLedgerEntry] is the list of its rows in posting order.
    [recordJournal] is the whole handler; [Date.now()] and the random journal
    suffix are arguments. *)
From S2P Require Import Prelude JsNumber Decimal Schema.
From stdpp Require Import pretty.
Open Scope Z_scope.
Open Scope Q_scope.

Record JournalEntryLineInput : Type := {
  li_accountType : LedgerAccountType;
  li_accountEntityId : option string;
  li_side : option LedgerEntrySide;
  li_entrySide : option LedgerEntrySide;
  li_amount : Q;
  li_narration : option string;
  li_description : option string;
  li_bookingId : option string;
  li_paymentId : option string;
  li_payoutId : option string;
}.

Record RecordJournalInput : Type := {
  rj_journalId : option string;
  rj_referenceType : string;
  rj_referenceId : string;
  rj_narration : option string;
  rj_description : option string;
  rj_lines : option (list JournalEntryLineInput);
  rj_entries : option (list JournalEntryLineInput);
  rj_idempotencyKey : option string;
  rj_currency : option string;
  rj_bookingId : option string;
  rj_paymentId : option string;
  rj_payoutId : option string;
  rj_vendorId : option string;
}.

Record PlatformLedgerEntry : Type := {
  ple_journalId : string;
  ple_accountType : LedgerAccountType;
  ple_accountEntityId : option string;
  ple_side : LedgerEntrySide;
  ple_amount : Q;
  ple_currency : string;
  ple_bookingId : option string;
  ple_paymentId : option string;
  ple_payoutId : option string;
  ple_referenceType : string;
  ple_referenceId : string;
  ple_narration : string;
  ple_idempotencyKey : option string;
  ple_postedAt : Z;
}.

Abbreviation LedgerTable := (list PlatformLedgerEntry).

Record ParsedLine : Type := {
  pl_accountType : LedgerAccountType;
  pl_accountEntityId : option string;
  pl_side : LedgerEntrySide;
  pl_amount : Q;
  pl_narration : string;
  pl_bookingId : option string;
  pl_paymentId : option string;
  pl_payoutId : option string;
}.

Record JournalResult : Type := {
  jr_journalId : string;
  jr_entries : list PlatformLedgerEntry;
  jr_isDuplicate : bool;
}.

Section recordJournal.
Context {col : NumericColumn} {dec : DecimalArith}.

(** [platformLedgerEntry.create]: [idempotencyKey] is unique, the amount is
    stored at the scale of its column. *)
Definition createEntry (e : PlatformLedgerEntry) : M LedgerTable PlatformLedgerEntry :=
  fun L =>
    let clash := match ple_idempotencyKey e with
                 | None => false
                 | Some k => existsb (fun e' => bool_decide (ple_idempotencyKey e' = Some k)) L
                 end in
    let row := {| ple_journalId := ple_journalId e;
                  ple_accountType := ple_accountType e;
                  ple_accountEntityId := ple_accountEntityId e;
                  ple_side := ple_side e;
                  ple_amount := store (ple_amount e);
                  ple_currency := ple_currency e;
                  ple_bookingId := ple_bookingId e;
                  ple_paymentId := ple_paymentId e;
                  ple_payoutId := ple_payoutId e;
                  ple_referenceType := ple_referenceType e;
                  ple_referenceId := ple_referenceId e;
                  ple_narration := ple_narration e;
                  ple_idempotencyKey := ple_idempotencyKey e;
                  ple_postedAt := ple_postedAt e |} in
    if clash then (Throw PrismaP2002, L) else (Ok row, L ++ [row]).

(** [const rawLines = input.lines || input.entries || []] (an array is
    truthy, an empty one too) and the default narration. *)
Definition rawLines (input : RecordJournalInput) : list JournalEntryLineInput :=
  match rj_lines input with
  | Some l => l
  | None => default [] (rj_entries input)
  end.
Definition journalNarration (input : RecordJournalInput) : string :=
  str_or (rj_narration input)
    (str_or (rj_description input) (rj_referenceType input +:+ " journal")).

(** Step 2: amounts and sides are validated line by line while the two
    totals accumulate. *)
Fixpoint parseLines (input : RecordJournalInput) (lines : list JournalEntryLineInput)
    (totalDebit totalCredit : Q) (parsed : list ParsedLine)
    : result (Q * Q * list ParsedLine) :=
  match lines with
  | [] => Ok (totalDebit, totalCredit, parsed)
  | line :: rest =>
    let amount := li_amount line in
    if d_le amount 0 then Throw BadRequestException
    else
      match match li_side line with Some s => Some s | None => li_entrySide line end with
      | None => Throw BadRequestException
      | Some side =>
        let p := {| pl_accountType := li_accountType line;
                    pl_accountEntityId := opt_or (li_accountEntityId line) (rj_vendorId input);
                    pl_side := side;
                    pl_amount := amount;
                    pl_narration := str_or (li_narration line)
                      (str_or (li_description line) (journalNarration input));
                    pl_bookingId := opt_or (li_bookingId line) (rj_bookingId input);
                    pl_paymentId := opt_or (li_paymentId line) (rj_paymentId input);
                    pl_payoutId := opt_or (li_payoutId line) (rj_payoutId input) |} in
        match side with
        | DEBIT => parseLines input rest (dec_add totalDebit amount) totalCredit (parsed ++ [p])
        | CREDIT => parseLines input rest totalDebit (dec_add totalCredit amount) (parsed ++ [p])
        end
      end
  end.

Definition lineIdempotencyKey (key : option string) (i : nat) : option string :=
  match truthy key with
  | None => None
  | Some k => if bool_decide (i = 0%nat) then Some k else Some (k +:+ "_line_" +:+ pretty i)
  end.

(** Step 4: [executePersistence]. *)
Fixpoint persistLines (now : Z) (input : RecordJournalInput) (journalId : string)
    (i : nat) (lines : list ParsedLine) : M LedgerTable (list PlatformLedgerEntry) :=
  match lines with
  | [] => mret []
  | line :: rest =>
    entry ← createEntry {|
      ple_journalId := journalId;
      ple_accountType := pl_accountType line;
      ple_accountEntityId := pl_accountEntityId line;
      ple_side := pl_side line;
      ple_amount := pl_amount line;
      ple_currency := str_or (rj_currency input) "INR";
      ple_bookingId := pl_bookingId line;
      ple_paymentId := pl_paymentId line;
      ple_payoutId := pl_payoutId line;
      ple_referenceType := rj_referenceType input;
      ple_referenceId := rj_referenceId input;
      ple_narration := pl_narration line;
      ple_idempotencyKey := lineIdempotencyKey (rj_idempotencyKey input) i;
      ple_postedAt := now |};
    entries ← persistLines now input journalId (S i) rest;
    mret (entry :: entries)
  end.

(** [inTx]: the caller passed its own transaction client. *)
Definition recordJournal (now : Z) (freshId : string) (inTx : bool)
    (input : RecordJournalInput) : M LedgerTable JournalResult :=
  let lines := rawLines input in
  require (negb (Nat.ltb (length lines) 2)) BadRequestException ;;
  L ← get;
  match match truthy (rj_idempotencyKey input) with
        | None => None
        | Some k => List.find (fun e => bool_decide (ple_idempotencyKey e = Some k)) L
        end with
  | Some existing =>
    mret {| jr_journalId := ple_journalId existing;
            jr_entries := filter (fun e => ple_journalId e = ple_journalId existing) L;
            jr_isDuplicate := true |}
  | None =>
    match parseLines input lines 0 0 [] with
    | Throw e => throw e
    | Ok (totalDebit, totalCredit, parsedLines) =>
      require (d_eq totalDebit totalCredit) UnbalancedJournalException ;;
      let journalId := str_or (rj_journalId input) ("jrn_" +:+ freshId) in
      entries ← (if inTx then persistLines now input journalId 0 parsedLines
                 else transaction (persistLines now input journalId 0 parsedLines));
      mret {| jr_journalId := journalId; jr_entries := entries; jr_isDuplicate := false |}
    end
  end.
End recordJournal.

(** ** Balances *)
Definition isAssetAccount (a : LedgerAccountType) : bool :=
  bool_decide (a = GATEWAY_CLEARING) || bool_decide (a = CORPORATE_RECEIVABLE).

(** The loop over the fetched rows: every side but [DEBIT] is a credit. *)
Fixpoint debitsCredits (entries : list PlatformLedgerEntry) (debits credits : Q) : Q * Q :=
  match entries with
  | [] => (debits, credits)
  | e :: rest =>
    match ple_side e with
    | DEBIT => debitsCredits rest (debits + ple_amount e) credits
    | CREDIT => debitsCredits rest debits (credits + ple_amount e)
    end
  end.

Definition accountWhere (accountType : LedgerAccountType) (entity : option string)
    (e : PlatformLedgerEntry) : bool :=
  bool_decide (ple_accountType e = accountType) &&
  match entity with
  | None => true
  | Some id => bool_decide (ple_accountEntityId e = Some id)
  end.

Definition getAccountBalance (L : LedgerTable) (accountType : LedgerAccountType)
    (accountEntityId : option string) : Q :=
  let '(debits, credits) :=
    debitsCredits (filter (fun e => accountWhere accountType accountEntityId e) L) 0 0 in
  if isAssetAccount accountType then debits - credits else credits - debits.

Definition getVendorPayableBalance (L : LedgerTable) (vendorId : string) : Q :=
  getAccountBalance L VENDOR_PAYABLE (Some vendorId).

Definition postedIn (startDate endDate : option Z) (e : PlatformLedgerEntry) : bool :=
  match startDate with None => true | Some d => Z.leb d (ple_postedAt e) end &&
  match endDate with None => true | Some d => Z.leb (ple_postedAt e) d end.

Definition getPlatformCommissionRevenue (L : LedgerTable) (startDate endDate : option Z) : Q :=
  let '(debits, credits) :=
    debitsCredits (filter (fun e =>
      bool_decide (ple_accountType e = PLATFORM_COMMISSION_REVENUE) &&
      postedIn startDate endDate e) L) 0 0 in
  credits - debits.

Definition getTaxLiabilityBalance (L : LedgerTable) (startDate endDate : option Z) : Q :=
  let '(debits, credits) :=
    debitsCredits (filter (fun e =>
      bool_decide (ple_accountType e = TAX_GST_LIABILITY) &&
      postedIn startDate endDate e) L) 0 0 in
  credits - debits.

(** ** Integrity audit *)

(** A JavaScript [Map] iterates in insertion order: [set] on a present key
    keeps its position. *)
Fixpoint map_set (k : string) (f : option Q -> Q) (m : list (string * Q)) : list (string * Q) :=
  match m with
  | [] => [(k, f None)]
  | (k', v) :: m' => if bool_decide (k = k') then (k', f (Some v)) :: m'
                     else (k', v) :: map_set k f m'
  end.

Definition entryDelta (e : PlatformLedgerEntry) : Q :=
  match ple_side e with DEBIT => ple_amount e | CREDIT => - ple_amount e end.

Fixpoint journalSums (entries : list PlatformLedgerEntry) (sums : list (string * Q))
    : list (string * Q) :=
  match entries with
  | [] => sums
  | e :: rest =>
    journalSums rest (map_set (ple_journalId e)
                        (fun current => default 0 current + entryDelta e) sums)
  end.

Record IntegrityReport : Type := {
  totalJournals : nat;
  balancedJournals : nat;
  unbalancedJournals : list string;
}.

Definition verifyLedgerIntegrity (L : LedgerTable) : IntegrityReport :=
  let sums := journalSums L [] in
  let unbalanced := map fst (filter (fun p => d_eq (snd p) 0 = false) sums) in
  {| totalJournals := length sums;
     balancedJournals := (length sums - length unbalanced)%nat;
     unbalancedJournals := unbalanced |}.

(** ** Paginated listing

    [where] is the conjunction of the filter's truthy fields; rows come in
    descending posting order, the reverse of the table. *)
Record LedgerFilterDto : Type := {
  lf_journalId : option string;
  lf_accountType : option LedgerAccountType;
  lf_accountEntityId : option string;
  lf_bookingId : option string;
  lf_paymentId : option string;
  lf_payoutId : option string;
  lf_referenceType : option string;
  lf_referenceId : option string;
  lf_startDate : option Z;
  lf_endDate : option Z;
}.

Definition matchStr (f : option string) (v : option string) : bool :=
  match truthy f with None => true | Some s => bool_decide (v = Some s) end.

Definition ledgerWhere (f : LedgerFilterDto) (e : PlatformLedgerEntry) : bool :=
  matchStr (lf_journalId f) (Some (ple_journalId e)) &&
  match lf_accountType f with None => true | Some a => bool_decide (ple_accountType e = a) end &&
  matchStr (lf_accountEntityId f) (ple_accountEntityId e) &&
  matchStr (lf_bookingId f) (ple_bookingId e) &&
  matchStr (lf_paymentId f) (ple_paymentId e) &&
  matchStr (lf_payoutId f) (ple_payoutId e) &&
  matchStr (lf_referenceType f) (Some (ple_referenceType e)) &&
  matchStr (lf_referenceId f) (Some (ple_referenceId e)) &&
  postedIn (lf_startDate f) (lf_endDate f) e.

Record LedgerPage : Type := {
  lp_data : list PlatformLedgerEntry;
  lp_total : nat;
  lp_totalPages : nat;
}.

(** [page] and [limit] are the validated query parameters, at least 1. *)
Definition getLedgerEntries (L : LedgerTable) (f : LedgerFilterDto) (page limit : nat)
    : LedgerPage :=
  let entries := reverse (filter (fun e => ledgerWhere f e) L) in
  {| lp_data := take limit (drop ((page - 1) * limit) entries);
     lp_total := length entries;
     lp_totalPages := ((length entries + limit - 1) / limit)%nat |}.

(** ** Specification: every journal nets to zero *)
Definition journal_sum (jid : string) (L : LedgerTable) : Q :=
  sum_by (fun e => if bool_decide (ple_journalId e = jid) then entryDelta e else 0) L.
Definition ledger_balanced (L : LedgerTable) : Prop :=
  forall jid, journal_sum jid L == 0.

Lemma ledger_balanced_nil : ledger_balanced [].
Proof. intros jid. reflexivity. Qed.

(** *** The audit computes the journal sums *)
Definition assoc (k : string) (m : list (string * Q)) : option Q :=
  snd <$> List.find (fun p => bool_decide (fst p = k)) m.

Lemma assoc_map_set k k' f m :
  assoc k' (map_set k f m) = if bool_decide (k = k') then Some (f (assoc k m)) else assoc k' m.
Proof.
  unfold assoc. induction m as [|[k0 v] m IH]; simpl.
  - repeat case_bool_decide; by subst.
  - destruct (decide (k = k0)) as [->|Hk0].
    + rewrite (bool_decide_true (k0 = k0)) by done. simpl. by case_bool_decide.
    + rewrite (bool_decide_false (k = k0)) by done. simpl.
      rewrite (bool_decide_false (k0 = k)) by done.
      destruct (decide (k0 = k')) as [->|].
      * by rewrite bool_decide_true, (bool_decide_false (k = k')) by done.
      * rewrite (bool_decide_false (k0 = k')) by done. exact IH.
Qed.

Lemma map_set_keys k f m :
  map fst (map_set k f m) =
    if bool_decide (k ∈ map fst m) then map fst m else map fst m ++ [k].
Proof.
  induction m as [|[k0 v] m IH]; [done|]. cbn [map_set].
  destruct (decide (k = k0)) as [->|Hne].
  - rewrite bool_decide_true by done. cbn [map fst].
    by rewrite bool_decide_true by set_solver.
  - rewrite (bool_decide_false (k = k0)) by done. cbn [map fst]. rewrite IH.
    destruct (decide (k ∈ map fst m));
      [rewrite !bool_decide_true by set_solver | rewrite !bool_decide_false by set_solver]; done.
Qed.

Lemma journalSums_assoc L sums jid :
  default 0 (assoc jid (journalSums L sums)) == default 0 (assoc jid sums) + journal_sum jid L.
Proof.
  unfold journal_sum. revert sums. induction L as [|e L IH]; intros sums; simpl; [ring|].
  rewrite IH, assoc_map_set.
  case_bool_decide as Hj; simpl; [subst jid; ring | ring].
Qed.

Lemma journalSums_nodup L sums :
  NoDup (map fst sums) -> NoDup (map fst (journalSums L sums)).
Proof.
  revert sums. induction L as [|e L IH]; intros sums Hnd; simpl; [done|].
  apply IH. rewrite map_set_keys. case_bool_decide; [done|].
  apply NoDup_app. split_and!; [done|set_solver|apply NoDup_singleton].
Qed.

Lemma journalSums_keys L sums k :
  k ∈ map fst (journalSums L sums) <-> k ∈ map fst sums \/ k ∈ map ple_journalId L.
Proof.
  revert sums. induction L as [|e L IH]; intros sums; simpl; [set_solver|].
  rewrite IH, map_set_keys. case_bool_decide; set_solver.
Qed.

Lemma assoc_In k v m : NoDup (map fst m) -> (k, v) ∈ m -> assoc k m = Some v.
Proof.
  unfold assoc. induction m as [|[k0 v0] m IH]; simpl; [set_solver|].
  intros [Hk0 Hnd]%NoDup_cons Hin. case_bool_decide as Hd; simpl.
  - subst. apply elem_of_cons in Hin as [?|Hin]; [by simplify_eq|].
    destruct Hk0. by apply (list_elem_of_fmap_2 fst) in Hin.
  - apply elem_of_cons in Hin as [?|Hin]; [by simplify_eq|]. by apply IH.
Qed.

Lemma unbalanced_iff L jid :
  jid ∈ unbalancedJournals (verifyLedgerIntegrity L) <-> ~ journal_sum jid L == 0.
Proof.
  unfold verifyLedgerIntegrity; simpl.
  assert (Hnd : NoDup (map fst (journalSums L []))) by (apply journalSums_nodup; constructor).
  pose proof (journalSums_assoc L [] jid) as Hs. simpl in Hs.
  rewrite Qplus_0_l in Hs. rewrite <- Hs. clear Hs. split.
  - intros ([k v] & -> & [Hv Hin]%list_elem_of_filter)%list_elem_of_fmap. simpl in *.
    rewrite (assoc_In _ _ _ Hnd Hin). simpl. by apply d_eq_false.
  - intros Hne. destruct (assoc jid (journalSums L [])) as [v|] eqn:E; simpl in *; [|by destruct Hne].
    apply list_elem_of_fmap. exists (jid, v). split; [done|].
    apply list_elem_of_filter. simpl. split; [by apply d_eq_false|].
    unfold assoc in E. destruct (List.find _ _) as [[k v']|] eqn:Ef; simplify_eq/=.
    apply List.find_some in Ef as [Hin Hk]. apply bool_decide_eq_true in Hk. simpl in Hk. subst.
    by apply list_elem_of_In.
Qed.

(** *** Recording *)
Section record_lemmas.
Context {col : NumericColumn} {dec : DecimalArith}.

(** Amounts the two totals add up exactly: at most two decimals and no more
    than 17 digits in all. *)
Definition amounts_fit (lines : list JournalEntryLineInput) : Prop :=
  Forall (fun l => whole_paise (li_amount l)) lines /\
  sum_by (fun l => Qabs (li_amount l)) lines <= 100000000000000000.

Definition lineDelta (p : ParsedLine) : Q :=
  match pl_side p with DEBIT => pl_amount p | CREDIT => - pl_amount p end.

Lemma parseLines_Ok input lines td tc acc td' tc' ps :
  parseLines input lines td tc acc = Ok (td', tc', ps) ->
  exists new, ps = acc ++ new /\ map pl_amount new = map li_amount lines /\
    Forall (fun p => 0 < pl_amount p) new /\
    (Forall (fun l => whole_paise (li_amount l)) lines -> whole_paise td -> whole_paise tc ->
     Qabs td + Qabs tc + sum_by (fun l => Qabs (li_amount l)) lines <= 100000000000000000 ->
     td' - tc' == td - tc + sum_by lineDelta new).
Proof.
  revert td tc acc. induction lines as [|line lines IH]; intros td tc acc; simpl.
  { intros [= <- <- <-]. exists []. rewrite app_nil_r.
    split_and!; [done|done|constructor|intros; simpl; ring]. }
  destruct (d_le (li_amount line) 0) eqn:Hpos; [done|]. dec_bool.
  destruct (match li_side line with Some s => Some s | None => li_entrySide line end)
    as [[]|]; [| |done];
    intros (new & -> & Hmap & Hall & Hd)%IH; eexists (_ :: new);
    (split_and!; [by rewrite <- app_assoc|simpl; by rewrite Hmap|by constructor|]);
    intros [Hw1 Hw2]%Forall_cons Htd Htc Hsum; unfold dec_add in Hd.
  - pose proof (Qabs_triangle td (li_amount line)) as Ht. pose proof (Qabs_nonneg tc).
    pose proof (sum_by_nonneg (fun l => Qabs (li_amount l)) lines (fun x _ => Qabs_nonneg _)).
    assert (dec_round (td + li_amount line) == td + li_amount line) as Hr
      by (apply dec_round_exact; [auto with dec|lra]).
    simpl. rewrite Hd; [rewrite Hr; unfold lineDelta; simpl; ring|done|by rewrite Hr; auto with dec|done|].
    rewrite Hr. lra.
  - pose proof (Qabs_triangle tc (li_amount line)) as Ht. pose proof (Qabs_nonneg td).
    pose proof (sum_by_nonneg (fun l => Qabs (li_amount l)) lines (fun x _ => Qabs_nonneg _)).
    assert (dec_round (tc + li_amount line) == tc + li_amount line) as Hr
      by (apply dec_round_exact; [auto with dec|lra]).
    simpl. rewrite Hd; [rewrite Hr; unfold lineDelta; simpl; ring|done|done|by rewrite Hr; auto with dec|].
    rewrite Hr. lra.
Qed.

Lemma createEntry_Ok e L row L' :
  createEntry e L = (Ok row, L') ->
  L' = L ++ [row] /\ ple_journalId row = ple_journalId e /\ ple_side row = ple_side e /\
  ple_amount row = store (ple_amount e) /\ ple_idempotencyKey row = ple_idempotencyKey e /\
  ple_accountType row = ple_accountType e /\ ple_accountEntityId row = ple_accountEntityId e.
Proof. unfold createEntry. intros H. by case_match; simplify_eq. Qed.

Lemma persistLines_Ok now input jid i lines L entries L' :
  persistLines now input jid i lines L = (Ok entries, L') ->
  L' = L ++ entries /\
  Forall (fun e => ple_journalId e = jid) entries /\
  Forall2 (fun e p => ple_side e = pl_side p /\ ple_amount e = store (pl_amount p) /\
                      ple_accountType e = pl_accountType p) entries lines.
Proof.
  revert i L entries L'. induction lines as [|p lines IH]; intros i L entries L'; simpl.
  - intros [= <- <-]. rewrite app_nil_r. repeat split; constructor.
  - intros (row & L1 & Hc & (es & L2 & Hp & Hr)%bind_Ok)%bind_Ok.
    rewrite ret_run in Hr. simplify_eq.
    apply createEntry_Ok in Hc as (-> & Hj & Hs & Ha & _ & Ht & _). simpl in *.
    apply IH in Hp as (-> & Hjs & H2).
    rewrite <- app_assoc. split_and!; [done|by constructor|by constructor].
Qed.

Lemma persistLines_first_key now input jid lines L entries L' k :
  persistLines now input jid 0 lines L = (Ok entries, L') ->
  truthy (rj_idempotencyKey input) = Some k -> lines <> [] ->
  exists e es, entries = e :: es /\ ple_idempotencyKey e = Some k.
Proof.
  intros H Hk. destruct lines as [|p lines]; [done|]. intros _. simpl in H.
  apply bind_Ok in H as (row & L1 & Hc & (es & L2 & Hp & [= <- <-])%bind_Ok).
  apply createEntry_Ok in Hc as (_ & _ & _ & _ & Hkey & _).
  exists row, es. split; [done|]. rewrite Hkey. simpl. unfold lineIdempotencyKey.
  by rewrite Hk.
Qed.

(** A row's stored amount is exact when the input amount is whole paise. *)
Lemma persisted_delta entries lines :
  Forall2 (fun e p => ple_side e = pl_side p /\ ple_amount e = store (pl_amount p) /\
                      ple_accountType e = pl_accountType p) entries lines ->
  Forall (fun p => whole_paise (pl_amount p)) lines ->
  sum_by entryDelta entries == sum_by lineDelta lines.
Proof.
  induction 1 as [|e p es ps (Hs & Ha & _) _ IH]; intros Hw; simpl; [reflexivity|].
  apply Forall_cons in Hw as [Hw1 Hw2]. rewrite IH by done.
  unfold entryDelta, lineDelta. rewrite Hs, Ha.
  destruct (pl_side p); rewrite store_exact by done; reflexivity.
Qed.

Lemma journal_sum_app jid L1 L2 :
  journal_sum jid (L1 ++ L2) == journal_sum jid L1 + journal_sum jid L2.
Proof. apply sum_by_app. Qed.

Lemma journal_sum_one jid jid' entries :
  Forall (fun e => ple_journalId e = jid) entries ->
  journal_sum jid' entries == if bool_decide (jid = jid') then sum_by entryDelta entries else 0.
Proof.
  unfold journal_sum. induction 1 as [|e es He _ IH]; simpl; [by case_match|].
  rewrite IH, He. case_bool_decide; simpl; ring.
Qed.

Lemma recordJournal_Ok_inv now fid inTx input L r L' :
  recordJournal now fid inTx input L = (Ok r, L') ->
  (jr_isDuplicate r = true /\ L' = L /\
     exists k e, truthy (rj_idempotencyKey input) = Some k /\ e ∈ L /\
       ple_idempotencyKey e = Some k /\ jr_journalId r = ple_journalId e /\
       forall x, x ∈ jr_entries r -> ple_journalId x = jr_journalId r /\ x ∈ L) \/
  (jr_isDuplicate r = false /\ L' = L ++ jr_entries r /\
     exists td tc ps, parseLines input (rawLines input) 0 0 [] = Ok (td, tc, ps) /\
       td == tc /\ Forall (fun e => ple_journalId e = jr_journalId r) (jr_entries r) /\
       Forall2 (fun e p => ple_side e = pl_side p /\ ple_amount e = store (pl_amount p) /\
                           ple_accountType e = pl_accountType p) (jr_entries r) ps).
Proof.
  unfold recordJournal.
  intros (? & ? & [Hlen ->]%require_Ok & (? & ? & [= <- <-] & H)%bind_Ok)%bind_Ok.
  destruct (match truthy (rj_idempotencyKey input) with Some _ => _ | None => _ end)
    as [ex|] eqn:Ef.
  - left. rewrite ret_run in H. simplify_eq/=. split_and!; [done..|].
    destruct (truthy _) as [k|]; [|done]. apply List.find_some in Ef as [Hin Hk].
    apply bool_decide_eq_true in Hk. apply list_elem_of_In in Hin.
    exists k, ex. split_and!; [done..|]. intros y. by rewrite list_elem_of_filter.
  - right. destruct (parseLines _ _ _ _ _) as [[[td tc] ps]|] eqn:Ep; [|done].
    apply bind_Ok in H as (? & ? & [Heq ->]%require_Ok & (entries & ? & Hp & [= <- <-])%bind_Ok).
    assert (persistLines now input (str_or (rj_journalId input) ("jrn_" +:+ fid)) 0 ps L
            = (Ok entries, x1)) as Hp' by (destruct inTx; [done|by apply transaction_Ok]).
    clear Hp. rename Hp' into Hp. simpl.
    apply persistLines_Ok in Hp as (-> & Hj & H2). dec_bool. eauto 10.
Qed.
End record_lemmas.

(** *** Throwing leaves the table alone *)
Section throw_lemmas.
Context {col : NumericColumn} {dec : DecimalArith}.

Lemma recordJournal_Throw_inv now fid input L e L' :
  recordJournal now fid false input L = (Throw e, L') -> L' = L.
Proof.
  unfold recordJournal.
  intros [(_ & _ & ->)%require_Throw|(? & ? & [_ ->]%require_Ok & H)]%bind_Throw; [done|].
  apply bind_Throw in H as [H|(? & ? & [= <- <-] & H)]; [done|].
  destruct (match truthy (rj_idempotencyKey input) with Some _ => _ | None => _ end); [done|].
  destruct (parseLines _ _ _ _ _) as [[[td tc] ps]|]; [|by rewrite throw_run in H; simplify_eq].
  apply bind_Throw in H as [(_ & _ & ->)%require_Throw|(? & ? & [_ ->]%require_Ok & H)]; [done|].
  apply bind_Throw in H as [[-> _]%transaction_Throw|(? & ? & _ & H)]; done.
Qed.

Lemma parsed_whole_paise input lines td tc ps :
  parseLines input lines 0 0 [] = Ok (td, tc, ps) ->
  Forall (fun l => whole_paise (li_amount l)) lines ->
  Forall (fun p => whole_paise (pl_amount p)) ps.
Proof.
  intros (new & -> & Hm & _)%parseLines_Ok Hw. simpl.
  assert (Forall whole_paise (map pl_amount new)) as H by (rewrite Hm; by apply List.Forall_map).
  rewrite List.Forall_map in H. exact H.
Qed.

Lemma recorded_balanced now fid inTx input L r L' :
  amounts_fit (rawLines input) ->
  ledger_balanced L ->
  recordJournal now fid inTx input L = (Ok r, L') -> ledger_balanced L'.
Proof.
  intros [Hw Hfit] Hb [(_ & -> & _)|(_ & -> & td & tc & ps & Hp & Heq & Hj & H2)]%recordJournal_Ok_inv;
    [done|].
  intros jid. assert (Hz : journal_sum jid L == 0) by apply Hb.
  rewrite journal_sum_app, Hz, (journal_sum_one _ _ _ Hj).
  case_bool_decide; [|ring].
  rewrite (persisted_delta _ _ H2) by eauto using parsed_whole_paise.
  apply parseLines_Ok in Hp as (new & -> & _ & _ & Hsum). simpl.
  assert (td - tc == 0 - 0 + sum_by lineDelta new)
    by (apply Hsum; [done|apply whole_paise_0..|change (Qabs 0) with 0; lra]). lra.
Qed.
End throw_lemmas.

Lemma verify_clean_iff L :
  unbalancedJournals (verifyLedgerIntegrity L) = [] <-> ledger_balanced L.
Proof.
  split.
  - intros H jid. destruct (Qeq_dec (journal_sum jid L) 0) as [|Hne]; [done|].
    apply unbalanced_iff in Hne. rewrite H in Hne. set_solver.
  - intros H. apply elem_of_nil_inv. intros jid Hin%unbalanced_iff. by apply Hin.
Qed.

(** C13. The double-entry invariant.  Whatever [recordJournal] returns or
    throws, it only appends rows, all of one journal.  When the submitted
    amounts have at most two decimals, the scale of the column (and 17 digits
    in all, which decimal.js adds exactly), a table in which every journal
    nets to zero stays so, and the audit [verifyLedgerIntegrity] reports no
    journal.  (Amounts with more decimals are rounded row by row, and a journal
    can then be off by paise.)  A call inside the caller's transaction is
    covered when it returns (when it throws, that transaction is rolled back
    by the caller). *)
Theorem recordJournal_preserves_balance {col : NumericColumn} {dec : DecimalArith} now fid inTx input L r L' :
  inTx = false \/ is_Ok r = true ->
  recordJournal now fid inTx input L = (r, L') ->
  (exists jid rows, L' = L ++ rows /\ Forall (fun e => ple_journalId e = jid) rows) /\
  (amounts_fit (rawLines input) -> ledger_balanced L ->
   ledger_balanced L' /\ unbalancedJournals (verifyLedgerIntegrity L') = []).
Proof.
  intros Hr H. destruct r as [r|e].
  - split; [|intros Hw Hb; rewrite verify_clean_iff; split; by eapply recorded_balanced].
    apply recordJournal_Ok_inv in H as [(_ & -> & _)|(_ & -> & _ & _ & _ & _ & _ & Hj & _)]; [|by eexists _, _].
    exists "", []. split; [by rewrite app_nil_r|constructor].
  - destruct Hr as [->|]; [|done]. apply recordJournal_Throw_inv in H as ->. rewrite verify_clean_iff.
    split; [|done]. exists "", []. split; [by rewrite app_nil_r|constructor].
Qed.

Definition sample_line (a : LedgerAccountType) (sd : LedgerEntrySide) (paise : Z) :
    JournalEntryLineInput :=
  {| li_accountType := a; li_accountEntityId := None; li_side := Some sd;
     li_entrySide := None; li_amount := inject_Z paise / 100; li_narration := None;
     li_description := None; li_bookingId := Some "b1"; li_paymentId := None;
     li_payoutId := None |}.
Definition sample_journal (key : string) (lines : list JournalEntryLineInput) :
    RecordJournalInput :=
  {| rj_journalId := None; rj_referenceType := "BOOKING_PAYMENT_VERIFIED";
     rj_referenceId := "b1"; rj_narration := None; rj_description := None;
     rj_lines := Some lines; rj_entries := None; rj_idempotencyKey := Some key;
     rj_currency := None; rj_bookingId := Some "b1"; rj_paymentId := None;
     rj_payoutId := None; rj_vendorId := Some "v1" |}.
Definition sample_lines : list JournalEntryLineInput :=
  [sample_line GATEWAY_CLEARING DEBIT 120050; sample_line VENDOR_PAYABLE CREDIT 100000;
   sample_line PLATFORM_COMMISSION_REVENUE CREDIT 20050].
Definition sample_run : result JournalResult * LedgerTable :=
  recordJournal (col:=half_away_column) 1000 "f" false (sample_journal "k1" sample_lines) [].

Lemma recordJournal_preserves_balance_witness :
  is_Ok (fst sample_run) = true /\
  (ledger_balanced (snd sample_run) /\
   unbalancedJournals (verifyLedgerIntegrity (snd sample_run)) = []).
Proof.
  split; [vm_compute; reflexivity|].
  apply (recordJournal_preserves_balance (col:=half_away_column) 1000 "f" false
           (sample_journal "k1" sample_lines) [] (fst sample_run)).
  - by left.
  - apply surjective_pairing.
  - split; [repeat constructor; apply whole_paise_of|vm_compute; discriminate].
  - apply ledger_balanced_nil.
Defined.


(** *** Idempotency *)
Definition by_key (k : string) (e : PlatformLedgerEntry) : bool :=
  bool_decide (ple_idempotencyKey e = Some k).

Lemma recordJournal_duplicate {col : NumericColumn} {dec : DecimalArith} now fid inTx input L k e :
  truthy (rj_idempotencyKey input) = Some k ->
  (2 <= length (rawLines input))%nat ->
  List.find (by_key k) L = Some e ->
  recordJournal now fid inTx input L =
    (Ok {| jr_journalId := ple_journalId e;
           jr_entries := filter (fun e' => ple_journalId e' = ple_journalId e) L;
           jr_isDuplicate := true |}, L).
Proof.
  intros Hk Hlen Hf. unfold recordJournal. rewrite Hk.
  assert ((length (rawLines input) <? 2)%nat = false) as -> by (apply Nat.ltb_ge; lia).
  unfold by_key in Hf. cbv [mbind M_bind require negb mret M_ret get]. by rewrite Hf.
Qed.

(** The row a key leads to after a call with that key returned. *)
Lemma recordJournal_key_found {col : NumericColumn} {dec : DecimalArith} now fid inTx input L r L' k :
  truthy (rj_idempotencyKey input) = Some k ->
  recordJournal now fid inTx input L = (Ok r, L') ->
  exists e, List.find (by_key k) L' = Some e /\ ple_journalId e = jr_journalId r.
Proof.
  intros Hk H. unfold recordJournal in H. rewrite Hk in H.
  apply bind_Ok in H as (? & ? & [Hlen ->]%require_Ok & (? & ? & [= <- <-] & H)%bind_Ok).
  fold (by_key k) in H. destruct (List.find (by_key k) L) as [e|] eqn:Ef.
  { rewrite ret_run in H. simplify_eq. by exists e. }
  destruct (parseLines _ _ _ _ _) as [[[td tc] ps]|] eqn:Ep; [|done].
  apply bind_Ok in H as (? & ? & [Heq ->]%require_Ok & (entries & ? & Hp & [= <- <-])%bind_Ok).
  assert (persistLines now input (str_or (rj_journalId input) ("jrn_" +:+ fid)) 0 ps L
          = (Ok entries, x1)) as Hp' by (destruct inTx; [done|by apply transaction_Ok]).
  assert (ps <> []) as Hne.
  { intros ->. apply parseLines_Ok in Ep as (new & Hn & Hm & _). simpl in Hn. subst new.
    simpl in Hm. destruct (rawLines input); [|done]. done. }
  pose proof (persistLines_first_key _ _ _ _ _ _ _ _ Hp' Hk Hne) as (e & es & -> & He).
  apply persistLines_Ok in Hp' as (-> & Hj & _).
  exists e. split; [|by apply Forall_cons in Hj as [? _]].
  rewrite find_app, Ef. simpl. unfold by_key at 1. by rewrite bool_decide_true.
Qed.

(** Replays.  Once a call with an idempotency key has returned, any later
    call with that key, whatever (two or more) lines it carries, returns the
    same journal as a duplicate, with the rows the first call returned, and
    leaves the table unchanged. *)
Theorem recordJournal_idempotent {col : NumericColumn} {dec : DecimalArith} now fid inTx input L r L' k
    now2 fid2 inTx2 input2 :
  truthy (rj_idempotencyKey input) = Some k ->
  truthy (rj_idempotencyKey input2) = Some k ->
  (2 <= length (rawLines input2))%nat ->
  recordJournal now fid inTx input L = (Ok r, L') ->
  exists r2, recordJournal now2 fid2 inTx2 input2 L' = (Ok r2, L') /\
    jr_isDuplicate r2 = true /\ jr_journalId r2 = jr_journalId r /\
    forall e, e ∈ jr_entries r -> e ∈ jr_entries r2.
Proof.
  intros Hk Hk2 Hlen H.
  destruct (recordJournal_key_found _ _ _ _ _ _ _ _ Hk H) as (e0 & Hf & Hj).
  eexists. split; [by apply (recordJournal_duplicate _ _ _ _ _ k e0)|]. simpl.
  split_and!; [done|done|]. rewrite Hj. intros e He. apply list_elem_of_filter.
  apply recordJournal_Ok_inv in H as [(_ & -> & k' & e' & Hk' & Hin & Hkey & Hje & Hall)|
                                      (_ & -> & _ & _ & _ & _ & _ & Hall & _)].
  - by apply Hall.
  - rewrite Forall_forall in Hall. split; [by apply Hall|]. apply elem_of_app. by right.
Qed.

Definition sample_replay : result JournalResult * LedgerTable :=
  recordJournal (col:=half_away_column) 2000 "g" true
    (sample_journal "k1" [sample_line VENDOR_PAYABLE DEBIT 5; sample_line VENDOR_PAYABLE DEBIT 7])
    (snd sample_run).

Lemma recordJournal_idempotent_witness :
  exists r r2, fst sample_run = Ok r /\ sample_replay = (Ok r2, snd sample_run) /\
    jr_isDuplicate r2 = true /\ jr_journalId r2 = jr_journalId r.
Proof.
  destruct (fst sample_run) as [r|] eqn:E; [|vm_compute in E; discriminate].
  destruct (recordJournal_idempotent (col:=half_away_column) 1000 "f" false
              (sample_journal "k1" sample_lines) [] r (snd sample_run) "k1"
              2000 "g" true
              (sample_journal "k1" [sample_line VENDOR_PAYABLE DEBIT 5;
                                    sample_line VENDOR_PAYABLE DEBIT 7]))
    as (r2 & H & Hd & Hj & _).
  - reflexivity.
  - reflexivity.
  - simpl. lia.
  - rewrite <- E. apply surjective_pairing.
  - exists r, r2. split; [done|]. split; [exact H|]. by split.
Defined.

(** *** What a fresh, well-formed journal does *)
Definition well_formed_line (l : JournalEntryLineInput) : Prop :=
  0 < li_amount l /\
  is_Some (match li_side l with Some s => Some s | None => li_entrySide l end).
Definition line_is (sd : LedgerEntrySide) (l : JournalEntryLineInput) : bool :=
  bool_decide (match li_side l with Some s => Some s | None => li_entrySide l end = Some sd).
Definition side_total (sd : LedgerEntrySide) (lines : list JournalEntryLineInput) : Q :=
  sum_by (fun l => if line_is sd l then li_amount l else 0) lines.

Lemma side_total_abs sd lines : Forall well_formed_line lines ->
  0 <= side_total sd lines <= sum_by (fun l => Qabs (li_amount l)) lines.
Proof.
  unfold side_total. induction 1 as [|l lines [Hpos _] _ IH]; simpl; [lra|].
  rewrite (Qabs_pos (li_amount l)) by lra. destruct (line_is sd l); lra.
Qed.

Lemma parseLines_well_formed {dec : DecimalArith} input lines td tc acc :
  Forall well_formed_line lines -> whole_paise td -> whole_paise tc ->
  Forall (fun l => whole_paise (li_amount l)) lines -> 0 <= td -> 0 <= tc ->
  td + side_total DEBIT lines <= 100000000000000000 ->
  tc + side_total CREDIT lines <= 100000000000000000 ->
  exists td' tc' ps, parseLines input lines td tc acc = Ok (td', tc', ps) /\
    length ps = (length acc + length lines)%nat /\
    td' == td + side_total DEBIT lines /\ tc' == tc + side_total CREDIT lines.
Proof.
  intros Hwf. revert td tc acc.
  induction Hwf as [|l lines [Hpos [sd Hs]] Hwf IH]; intros td tc acc Htd Htc Hw Ptd Ptc Bd Bc; simpl.
  { do 3 eexists. split; [done|]. unfold side_total; simpl. split_and!; [lia|ring|ring]. }
  apply Forall_cons in Hw as [Hwl Hw].
  rewrite (proj2 (d_le_false _ _) Hpos), Hs.
  assert (line_is DEBIT l = bool_decide (sd = DEBIT) /\
          line_is CREDIT l = bool_decide (sd = CREDIT)) as [HD HC].
  { unfold line_is. rewrite Hs. split; apply bool_decide_ext; naive_solver. }
  unfold side_total in *; simpl in *. rewrite HD, HC in *. fold (side_total DEBIT lines) in *.
  fold (side_total CREDIT lines) in *.
  pose proof (side_total_abs DEBIT lines Hwf). pose proof (side_total_abs CREDIT lines Hwf).
  unfold dec_add. destruct sd; simpl in *.
  - assert (dec_round (td + li_amount l) == td + li_amount l) as Hr
      by (apply dec_round_exact; [auto with dec|rewrite Qabs_pos; lra]).
    edestruct IH as (td' & tc' & ps & -> & Hl & H1 & H2);
      [by rewrite Hr; auto with dec|exact Htc|done|by rewrite Hr; lra|done|by rewrite Hr; lra|lra|].
    do 3 eexists. split; [done|].
    rewrite length_app in Hl. simpl in *. split_and!; [lia|rewrite H1, Hr; ring|rewrite H2; ring].
  - assert (dec_round (tc + li_amount l) == tc + li_amount l) as Hr
      by (apply dec_round_exact; [auto with dec|rewrite Qabs_pos; lra]).
    edestruct IH as (td' & tc' & ps & -> & Hl & H1 & H2);
      [exact Htd|by rewrite Hr; auto with dec|done|done|by rewrite Hr; lra|lra|by rewrite Hr; lra|].
    do 3 eexists. split; [done|].
    rewrite length_app in Hl. simpl in *. split_and!; [lia|rewrite H1; ring|rewrite H2, Hr; ring].
Qed.

(** No row carries a key this journal would write. *)
Definition keys_fresh (key : option string) (i : nat) (L : LedgerTable) : Prop :=
  forall j e, (i <= j)%nat -> e ∈ L ->
    is_Some (lineIdempotencyKey key j) -> ple_idempotencyKey e <> lineIdempotencyKey key j.

Lemma lineIdempotencyKey_inj key i j k :
  lineIdempotencyKey key i = Some k -> lineIdempotencyKey key j = Some k -> i = j.
Proof.
  unfold lineIdempotencyKey. destruct (truthy key) as [s|]; [|done].
  assert (Hne : forall n : nat, s <> s +:+ "_line_" +:+ pretty n).
  { intros n Hn. apply (f_equal String.length) in Hn.
    rewrite !string_length_app in Hn. simpl in Hn. lia. }
  repeat case_bool_decide; intros Hi Hj; simplify_eq/=; try done.
  - by destruct (Hne j).
  - by destruct (Hne i).
Qed.

Lemma persistLines_fresh {col : NumericColumn} now input jid i lines L :
  keys_fresh (rj_idempotencyKey input) i L ->
  exists entries, persistLines now input jid i lines L = (Ok entries, L ++ entries) /\
    length entries = length lines.
Proof.
  revert i L. induction lines as [|p lines IH]; intros i L Hf; simpl.
  { exists []. rewrite ret_run. by rewrite app_nil_r. }
  unfold createEntry; simpl. rewrite bind_run.
  set (k := lineIdempotencyKey (rj_idempotencyKey input) i).
  assert (Hc : match k with
               | None => false
               | Some k => existsb (fun e' => bool_decide (ple_idempotencyKey e' = Some k)) L
               end = false).
  { destruct k as [k0|] eqn:Ek; [|done]. apply not_true_iff_false.
    intros (e & Hin & He)%existsb_exists. apply bool_decide_eq_true in He.
    unfold k in Ek. apply (Hf i e); [lia|by apply list_elem_of_In|by rewrite Ek|by rewrite Ek]. }
  rewrite Hc.
  match goal with |- context [L ++ [?row]] => set (r := row) end.
  destruct (IH (S i) (L ++ [r])) as (es & Hes & Hlen).
  { intros j e Hj [Hin| ->%list_elem_of_singleton]%elem_of_app Hs; [apply Hf; [lia|done..]|].
    simpl. fold k. intros Hk. destruct Hs as [k' Hk']. rewrite Hk' in Hk.
    pose proof (lineIdempotencyKey_inj _ _ _ _ Hk Hk'). lia. }
  exists (r :: es). rewrite bind_run, Hes, ret_run. simpl.
  rewrite <- app_assoc. by rewrite Hlen.
Qed.

Lemma recordJournal_fresh_run {col : NumericColumn} {dec : DecimalArith} now fid inTx input L :
  (2 <= length (rawLines input))%nat ->
  Forall well_formed_line (rawLines input) -> amounts_fit (rawLines input) ->
  keys_fresh (rj_idempotencyKey input) 0 L ->
  (side_total DEBIT (rawLines input) == side_total CREDIT (rawLines input) /\
   exists entries, length entries = length (rawLines input) /\
     recordJournal now fid inTx input L =
       (Ok {| jr_journalId := str_or (rj_journalId input) ("jrn_" +:+ fid);
              jr_entries := entries; jr_isDuplicate := false |}, L ++ entries)) \/
  (~ side_total DEBIT (rawLines input) == side_total CREDIT (rawLines input) /\
   recordJournal now fid inTx input L = (Throw UnbalancedJournalException, L)).
Proof.
  intros Hlen Hwf [Hw Hfit] Hf. unfold recordJournal.
  assert ((length (rawLines input) <? 2)%nat = false) as -> by (apply Nat.ltb_ge; lia).
  change (require (negb false) BadRequestException) with (mret (M:=M LedgerTable) tt).
  rewrite bind_run, ret_run, bind_run, get_run.
  assert (match truthy (rj_idempotencyKey input) with
          | None => None
          | Some k => List.find (fun e => bool_decide (ple_idempotencyKey e = Some k)) L
          end = None) as ->.
  { destruct (truthy _) as [k|] eqn:Ek; [|done]. apply find_None_iff. intros e He.
    apply bool_decide_eq_false. pose proof (Hf 0%nat e) as H0.
    unfold lineIdempotencyKey in H0. rewrite Ek in H0. apply H0; [lia|done|eauto]. }
  pose proof (side_total_abs DEBIT _ Hwf). pose proof (side_total_abs CREDIT _ Hwf).
  destruct (parseLines_well_formed input (rawLines input) 0 0 [] Hwf whole_paise_0 whole_paise_0 Hw
    ltac:(lra) ltac:(lra) ltac:(lra) ltac:(lra)) as (td & tc & ps & -> & Hl & Hd & Hc).
  rewrite Qplus_0_l in Hd, Hc. rewrite bind_run.
  destruct (d_eq td tc) eqn:Heq; dec_bool; [left|right].
  - split; [by rewrite <- Hd, <- Hc|].
    destruct (persistLines_fresh now input (str_or (rj_journalId input) ("jrn_" +:+ fid))
                0 ps L Hf) as (es & Hes & Hel).
    exists es. split; [by rewrite Hel, Hl|]. cbv [require mret M_ret]. rewrite bind_run.
    unfold transaction. destruct inTx; by rewrite Hes.
  - split; [by rewrite <- Hd, <- Hc|]. done.
Qed.

(** Functional behaviour on a fresh key.  With at least two well-formed
    lines (positive amount, a side) and no row carrying one of the journal's
    keys, the call returns exactly when debits equal credits: it then appends
    one row per line under one journal id; otherwise it throws
    [UnbalancedJournalException] and writes nothing. *)
Theorem recordJournal_fresh {col : NumericColumn} {dec : DecimalArith} now fid inTx input L :
  (2 <= length (rawLines input))%nat ->
  Forall well_formed_line (rawLines input) -> amounts_fit (rawLines input) ->
  keys_fresh (rj_idempotencyKey input) 0 L ->
  (side_total DEBIT (rawLines input) == side_total CREDIT (rawLines input) /\
   exists entries, length entries = length (rawLines input) /\
     recordJournal now fid inTx input L =
       (Ok {| jr_journalId := str_or (rj_journalId input) ("jrn_" +:+ fid);
              jr_entries := entries; jr_isDuplicate := false |}, L ++ entries)) \/
  (~ side_total DEBIT (rawLines input) == side_total CREDIT (rawLines input) /\
   recordJournal now fid inTx input L = (Throw UnbalancedJournalException, L)).
Proof. apply recordJournal_fresh_run. Qed.

Lemma recordJournal_fresh_witness :
  (exists entries, length entries = 3%nat /\
     recordJournal (col:=half_away_column) 7 "f" true (sample_journal "k9" sample_lines)
       (snd sample_run) =
     (Ok {| jr_journalId := "jrn_f"; jr_entries := entries; jr_isDuplicate := false |},
      snd sample_run ++ entries)).
Proof.
  destruct (recordJournal_fresh (col:=half_away_column) 7 "f" true
              (sample_journal "k9" sample_lines) (snd sample_run)) as [[_ H]|[H _]].
  - simpl. lia.
  - repeat constructor; eauto.
  - split; [repeat constructor; apply whole_paise_of|vm_compute; discriminate].
  - intros j e _ He [k Hk].
    assert (Hs : forall e', e' ∈ snd sample_run ->
              exists c, ple_idempotencyKey e' = Some ("k1" +:+ c)).
    { clear. intros e' He'%list_elem_of_In. vm_compute in He'.
      destruct He' as [<-|[<-|[<-|[]]]]; [exists ""|exists "_line_1"|exists "_line_2"]; reflexivity. }
    destruct (Hs e He) as [c ->]. clear He Hs. unfold lineIdempotencyKey in Hk |- *; simpl in Hk |- *.
    case_bool_decide; discriminate.
  - exact H.
  - exfalso. apply H. vm_compute. reflexivity.
Defined.

(** *** Trial balance *)
Definition asset_accounts : list LedgerAccountType := [GATEWAY_CLEARING; CORPORATE_RECEIVABLE].
Definition claim_accounts : list LedgerAccountType :=
  [CUSTOMER_WALLET; CUSTOMER_DEPOSIT_ESCROW; VENDOR_PAYABLE; PLATFORM_COMMISSION_REVENUE;
   TAX_GST_LIABILITY; DISPUTE_HOLD].

Lemma debitsCredits_diff entries d c d' c' :
  debitsCredits entries d c = (d', c') -> d' - c' == d - c + sum_by entryDelta entries.
Proof.
  revert d c. induction entries as [|e es IH]; intros d c; simpl.
  { intros [= <- <-]. ring. }
  unfold entryDelta at 1. destruct (ple_side e); intros ->%IH; ring.
Qed.

Lemma sum_by_filter {A} (f : A -> Q) (P : A -> bool) l :
  sum_by f (filter (fun x => P x) l) == sum_by (fun x => if P x then f x else 0) l.
Proof.
  induction l as [|x l IH]; [reflexivity|]. rewrite filter_cons. cbn [sum_by].
  case_decide as Hd; cbn [sum_by]; rewrite IH; destruct (P x);
    first [reflexivity | by destruct Hd | ring].
Qed.

Definition account_delta (a : LedgerAccountType) (L : LedgerTable) : Q :=
  sum_by (fun e => if bool_decide (ple_accountType e = a) then entryDelta e else 0) L.

Lemma getAccountBalance_spec L a :
  getAccountBalance L a None ==
    if isAssetAccount a then account_delta a L else - account_delta a L.
Proof.
  unfold getAccountBalance. destruct (debitsCredits _ 0 0) as [d c] eqn:E.
  apply debitsCredits_diff in E. rewrite sum_by_filter in E.
  assert (E' : d - c == account_delta a L).
  { rewrite E. rewrite (sum_by_ext _ (fun e => if bool_decide (ple_accountType e = a)
                                               then entryDelta e else 0)); [unfold account_delta; ring|].
    intros e _. unfold accountWhere. by rewrite andb_true_r. }
  destruct (isAssetAccount a); [done|]. rewrite <- E'. ring.
Qed.

(** A balanced ledger's entries net to zero over all journals. *)
Lemma ledger_balanced_total L : ledger_balanced L -> sum_by entryDelta L == 0.
Proof.
  intros Hb. remember (length L) as n eqn:Hn.
  revert L Hn Hb. induction n as [n IH] using lt_wf_ind. intros L -> Hb.
  destruct L as [|e L]; [reflexivity|]. set (j := ple_journalId e).
  set (rest := filter (fun x => negb (bool_decide (ple_journalId x = j))) (e :: L)).
  assert (Hsplit : sum_by entryDelta (e :: L) == journal_sum j (e :: L) + sum_by entryDelta rest).
  { unfold rest. rewrite (sum_by_filter entryDelta (fun x => negb (bool_decide _))).
    unfold journal_sum. rewrite <- sum_by_plus. apply sum_by_ext. intros x _.
    case_bool_decide; simpl; ring. }
  rewrite Hsplit. assert (Hj : journal_sum j (e :: L) == 0) by apply Hb. rewrite Hj.
  rewrite Qplus_0_l. apply (IH (length rest)); [|done|].
  - unfold rest. rewrite filter_cons_False by (unfold j; rewrite bool_decide_true; [tauto|done]).
    pose proof (length_filter (fun x => negb (bool_decide (ple_journalId x = j))) L). simpl. lia.
  - intros jid. destruct (decide (jid = j)) as [->|Hne].
    + apply sum_by_zero. intros x [Hx _]%list_elem_of_filter.
      apply Is_true_true, negb_true_iff, bool_decide_eq_false in Hx.
      by rewrite bool_decide_false.
    + assert (Hz : journal_sum jid (e :: L) == 0) by apply Hb. rewrite <- Hz.
      unfold journal_sum, rest.
      rewrite (sum_by_filter _ (fun x => negb (bool_decide _))). apply sum_by_ext. intros x _.
      repeat case_bool_decide; simpl; try reflexivity. congruence.
Qed.

(** The accounting equation.  In a ledger whose journals all net to zero,
    the balances [getAccountBalance] reports for the asset accounts (gateway
    clearing, corporate receivables) add up to those it reports for the
    liability, escrow and revenue accounts. *)
Theorem accounting_equation L :
  ledger_balanced L ->
  sum_by (fun a => getAccountBalance L a None) asset_accounts ==
  sum_by (fun a => getAccountBalance L a None) claim_accounts.
Proof.
  intros Hb%ledger_balanced_total. simpl. rewrite !getAccountBalance_spec. simpl.
  assert (Hall : account_delta GATEWAY_CLEARING L + account_delta CORPORATE_RECEIVABLE L +
    account_delta CUSTOMER_WALLET L + account_delta CUSTOMER_DEPOSIT_ESCROW L +
    account_delta VENDOR_PAYABLE L + account_delta PLATFORM_COMMISSION_REVENUE L +
    account_delta TAX_GST_LIABILITY L + account_delta DISPUTE_HOLD L == sum_by entryDelta L).
  { unfold account_delta. rewrite <- !sum_by_plus. apply sum_by_ext. intros e _.
    destruct (ple_accountType e); simpl; ring. }
  rewrite Hb in Hall. lra.
Qed.

Lemma accounting_equation_witness :
  ledger_balanced (snd sample_run) /\
  sum_by (fun a => getAccountBalance (snd sample_run) a None) asset_accounts ==
  sum_by (fun a => getAccountBalance (snd sample_run) a None) claim_accounts.
Proof.
  assert (ledger_balanced (snd sample_run)) as Hb
    by (apply verify_clean_iff; vm_compute; reflexivity).
  split; [exact Hb|]. exact (accounting_equation (snd sample_run) Hb).
Defined.

(** *** Pagination *)
Fixpoint pages (L : LedgerTable) (f : LedgerFilterDto) (limit n : nat)
    : list PlatformLedgerEntry :=
  match n with
  | O => []
  | S m => pages L f limit m ++ lp_data (getLedgerEntries L f (S m) limit)
  end.

Lemma pages_take L f limit n :
  pages L f limit n = take (n * limit) (reverse (filter (fun e => ledgerWhere f e) L)).
Proof.
  induction n as [|n IH]; [done|]. simpl. rewrite IH.
  replace (S n - 1)%nat with n by lia. rewrite Nat.sub_0_r.
  by rewrite take_take_drop, Nat.add_comm.
Qed.

(** Pagination loses and repeats nothing: the pages 1 to [totalPages], in
    order, are the matching rows in descending posting order. *)
Theorem getLedgerEntries_pages L f limit :
  (1 <= limit)%nat ->
  pages L f limit (lp_totalPages (getLedgerEntries L f 1 limit)) =
    reverse (filter (fun e => ledgerWhere f e) L).
Proof.
  intros Hl. rewrite pages_take. apply take_ge. simpl.
  set (n := length _).
  pose proof (Nat.div_mod_eq (n + limit - 1) limit).
  pose proof (Nat.mod_upper_bound (n + limit - 1) limit). nia.
Qed.

Lemma getLedgerEntries_pages_witness :
  (1 <= 2)%nat /\
  pages (snd sample_run) (Build_LedgerFilterDto None None None None None None None None None None)
    2 2 = reverse (snd sample_run).
Proof.
  split; [lia|].
  exact (getLedgerEntries_pages (snd sample_run)
           (Build_LedgerFilterDto None None None None None None None None None None) 2
           ltac:(lia)).
Defined.
