(* ===== verification/Wallet.v ===== *)
(** * Customer wallets: src/car_rental_backend/src/wallets/wallets.service.ts

    The store holds the [Wallet] rows by id, the [WalletLedgerEntry] rows in
    creation order, the platform ledger and the ids of frozen-wallet alarms.
    Clock, generated ids, the system configuration and the Razorpay client
    are arguments of the handlers that use them. *)
From S2P Require Import Prelude JsNumber Decimal Schema Ledger.
From stdpp Require Import pretty.
Open Scope Z_scope.
Open Scope Q_scope.

Definition MAX_SINGLE_DEPOSIT : Q := 50000.
Definition MIN_SINGLE_DEPOSIT : Q := 100.
Definition MAX_WALLET_BALANCE_CAP : Q := 100000.

Record Wallet : Type := {
  w_userId : string;
  w_availableBalance : Q;
  w_lockedBalance : Q;
  w_realBalance : Q;
  w_promoBalance : Q;
  w_status : WalletStatus;
}.

Record WalletLedgerEntry : Type := {
  we_walletId : string;
  we_type : LedgerEntryType;
  we_direction : LedgerDirection;
  we_bucket : WalletBucketType;
  we_amount : Q;
  we_balanceBefore : Q;
  we_balanceAfter : Q;
  we_referenceType : string;
  we_referenceId : option string;
  we_idempotencyKey : string;
  we_expiresAt : option Z;
  we_createdAt : Z;
}.

Record WalletStore : Type := {
  ws_wallets : gmap string Wallet;
  ws_entries : list WalletLedgerEntry;
  ws_ledger : LedgerTable;
}.

Definition set_wallet (id : string) (w : Wallet) (s : WalletStore) : WalletStore :=
  {| ws_wallets := <[id := w]> (ws_wallets s); ws_entries := ws_entries s;
     ws_ledger := ws_ledger s |}.
Definition add_entry (e : WalletLedgerEntry) (s : WalletStore) : WalletStore :=
  {| ws_wallets := ws_wallets s; ws_entries := ws_entries s ++ [e];
     ws_ledger := ws_ledger s |}.
Definition set_wledger (L : LedgerTable) (s : WalletStore) : WalletStore :=
  {| ws_wallets := ws_wallets s; ws_entries := ws_entries s; ws_ledger := L |}.

(** config-engine/system-config.interface.ts, [WalletConfig] *)
Record WalletConfig : Type := {
  cfg_isEnabled : bool;
  cfg_maxSingleDeposit : Q;
  cfg_minSingleDeposit : Q;
  cfg_maxWalletBalanceCap : Q;
  cfg_maxWalletPaymentPercentage : Q;
  cfg_minBookingAmountForWalletUse : Q;
  cfg_maxPromoCreditPerBooking : Q;
  cfg_maxDailyWalletUsage : Q;
  cfg_isDepositsEnabled : bool;
}.

(** [n || d] on numbers: zero is falsy. *)
Definition num_or (n d : Q) : Q := if Qeq_bool n 0 then d else n.

Section wallets.
Context {col : NumericColumn} {dec : DecimalArith}.
(** [date.toISOString().slice(0, 10)] *)
Variable isoDay : Z -> string.

(** [wallet.update]: the columns round what they store. *)
Definition updateBalances (id : string) (w : Wallet) (available real promo : Q)
    : M WalletStore unit :=
  modify (set_wallet id
    {| w_userId := w_userId w; w_availableBalance := store available;
       w_lockedBalance := w_lockedBalance w; w_realBalance := store real;
       w_promoBalance := store promo; w_status := w_status w |}).

(** [walletLedgerEntry.create]: [idempotencyKey] is unique. *)
Definition createWalletEntry (e : WalletLedgerEntry) : M WalletStore WalletLedgerEntry :=
  s ← get;
  let row := {| we_walletId := we_walletId e; we_type := we_type e;
                we_direction := we_direction e; we_bucket := we_bucket e;
                we_amount := store (we_amount e);
                we_balanceBefore := store (we_balanceBefore e);
                we_balanceAfter := store (we_balanceAfter e);
                we_referenceType := we_referenceType e; we_referenceId := we_referenceId e;
                we_idempotencyKey := we_idempotencyKey e; we_expiresAt := we_expiresAt e;
                we_createdAt := we_createdAt e |} in
  require (negb (existsb (fun e' => String.eqb (we_idempotencyKey e') (we_idempotencyKey e))
                   (ws_entries s))) PrismaP2002 ;;
  modify (add_entry row) ;;
  mret row.

(** [wallet.findUnique({ where: { userId } })]: [userId] is unique. *)
Definition findWalletByUser (userId : string) (s : WalletStore) : option (string * Wallet) :=
  List.find (fun p => String.eqb (w_userId (snd p)) userId) (map_to_list (ws_wallets s)).

Definition getOrCreateWallet (freshId userId : string) : M WalletStore (string * Wallet) :=
  s ← get;
  match findWalletByUser userId s with
  | Some p => mret p
  | None =>
    let w := {| w_userId := userId; w_availableBalance := 0; w_lockedBalance := 0;
                w_realBalance := 0; w_promoBalance := 0; w_status := WS_ACTIVE |} in
    modify (set_wallet freshId w) ;;
    mret (freshId, w)
  end.

Definition getWalletTransactions (freshId userId : string) (page limit : nat)
    : M WalletStore (list WalletLedgerEntry * nat * nat) :=
  p ← getOrCreateWallet freshId userId;
  s ← get;
  let entries := reverse (filter (fun e => we_walletId e = fst p) (ws_entries s)) in
  mret (take limit (drop ((page - 1) * limit) entries), length entries,
        ((length entries + limit - 1) / limit)%nat).

(** ** Promotional expiry *)
Definition expiredPromo (walletId : string) (now : Z) (e : WalletLedgerEntry) : bool :=
  String.eqb (we_walletId e) walletId &&
  bool_decide (we_bucket e = BUCKET_PROMOTIONAL) &&
  bool_decide (we_direction e = DIR_CREDIT) &&
  match we_expiresAt e with None => false | Some t => Z.ltb t now end.
Definition isExpiration (walletId : string) (e : WalletLedgerEntry) : bool :=
  String.eqb (we_walletId e) walletId && bool_decide (we_type e = LT_EXPIRATION).

Definition cleanExpiredPromotionalCredits (now : Z) (walletId : string) : M WalletStore Q :=
  s ← get;
  let expiredEntries := filter (fun e => expiredPromo walletId now e) (ws_entries s) in
  if bool_decide (expiredEntries = []) then mret 0
  else
    match ws_wallets s !! walletId with
    | None => mret 0
    | Some wallet =>
      if d_le (w_promoBalance wallet) 0 then mret 0
      else
        let totalHistoricalExpiredCredits := sum_by we_amount expiredEntries in
        let alreadyExpiredAmount :=
          sum_by we_amount (filter (fun e => isExpiration walletId e) (ws_entries s)) in
        let unexpiredDebitRequired := totalHistoricalExpiredCredits - alreadyExpiredAmount in
        let actualExpiredAmount := d_min unexpiredDebitRequired (w_promoBalance wallet) in
        if d_gt actualExpiredAmount 0 then
          let newPromo := w_promoBalance wallet - actualExpiredAmount in
          let newAvailable := w_availableBalance wallet - actualExpiredAmount in
          createWalletEntry
            {| we_walletId := walletId; we_type := LT_EXPIRATION;
               we_direction := DIR_DEBIT; we_bucket := BUCKET_PROMOTIONAL;
               we_amount := actualExpiredAmount;
               we_balanceBefore := w_availableBalance wallet;
               we_balanceAfter := newAvailable; we_referenceType := "SYSTEM";
               we_referenceId := Some "PROMO_EXPIRATION";
               we_idempotencyKey := "promo_expiry_" +:+ walletId +:+ "_" +:+ isoDay now;
               we_expiresAt := None; we_createdAt := now |} ;;
          updateBalances walletId wallet newAvailable (w_realBalance wallet) newPromo ;;
          mret actualExpiredAmount
        else mret 0
    end.

(** ** Credit *)
Definition findByKey (key : string) (s : WalletStore) : option WalletLedgerEntry :=
  List.find (fun e => String.eqb (we_idempotencyKey e) key) (ws_entries s).

(** The cap checked by a credit: [ADMIN_ADJUSTMENT]s and deployments without
    a configuration service use the constant. *)
Definition creditCap (systemConfig : option WalletConfig) (type : LedgerEntryType) : Q :=
  match systemConfig with
  | Some config =>
    if bool_decide (type = LT_ADMIN_ADJUSTMENT) then MAX_WALLET_BALANCE_CAP
    else num_or (cfg_maxWalletBalanceCap config) MAX_WALLET_BALANCE_CAP
  | None => MAX_WALLET_BALANCE_CAP
  end.
Definition walletDisabled (systemConfig : option WalletConfig) (type : LedgerEntryType) : bool :=
  match systemConfig with
  | Some config => negb (bool_decide (type = LT_ADMIN_ADJUSTMENT)) && negb (cfg_isEnabled config)
  | None => false
  end.

Definition executeCredit (now : Z) (systemConfig : option WalletConfig) (walletId : string)
    (amount : Q) (type : LedgerEntryType) (bucket : WalletBucketType) (referenceType : string)
    (referenceId : option string) (idempotencyKey : string) (expiresAt : option Z)
    : M WalletStore WalletLedgerEntry :=
  s ← get;
  match findByKey idempotencyKey s with
  | Some existingEntry => mret existingEntry
  | None =>
    lockedWallet ← from_option_or (ws_wallets s !! walletId) NotFoundException;
    require (bool_decide (w_status lockedWallet = WS_ACTIVE)) BadRequestException ;;
    let currentAvailable := w_availableBalance lockedWallet in
    let newAvailable := currentAvailable + amount in
    require (negb (walletDisabled systemConfig type)) BadRequestException ;;
    require (negb (d_gt newAvailable (creditCap systemConfig type))) BadRequestException ;;
    let '(newReal, newPromo) :=
      if bool_decide (bucket = BUCKET_REAL_MONEY) || bool_decide (bucket = BUCKET_REFUND_CREDIT)
      then (w_realBalance lockedWallet + amount, w_promoBalance lockedWallet)
      else (w_realBalance lockedWallet, w_promoBalance lockedWallet + amount) in
    ledgerEntry ← createWalletEntry
      {| we_walletId := walletId; we_type := type; we_direction := DIR_CREDIT;
         we_bucket := bucket; we_amount := amount; we_balanceBefore := currentAvailable;
         we_balanceAfter := newAvailable; we_referenceType := referenceType;
         we_referenceId := referenceId; we_idempotencyKey := idempotencyKey;
         we_expiresAt := expiresAt; we_createdAt := now |};
    updateBalances walletId lockedWallet newAvailable newReal newPromo ;;
    mret ledgerEntry
  end.

Definition creditWallet (now : Z) (systemConfig : option WalletConfig) (walletId : string)
    (amount : Q) (type : LedgerEntryType) (bucket : WalletBucketType) (referenceType : string)
    (referenceId : option string) (idempotencyKey : string) (expiresAt : option Z)
    (externalTx : bool) : M WalletStore WalletLedgerEntry :=
  require (negb (d_le amount 0)) BadRequestException ;;
  let run := executeCredit now systemConfig walletId amount type bucket referenceType
               referenceId idempotencyKey expiresAt in
  if externalTx then run else transaction run.

(** ** Debit: promotional money first, then real money *)
Definition consumeBuckets (currentReal currentPromo amount : Q)
    : Q * Q * WalletBucketType :=
  if d_gt currentPromo 0 then
    if d_ge currentPromo amount then (currentReal, currentPromo - amount, BUCKET_PROMOTIONAL)
    else (currentReal - (amount - currentPromo), 0, BUCKET_PROMOTIONAL)
  else (currentReal - amount, currentPromo, BUCKET_REAL_MONEY).

Definition executeDebit (now : Z) (systemConfig : option WalletConfig) (walletId : string)
    (amount : Q) (type : LedgerEntryType) (referenceType : string)
    (referenceId : option string) (idempotencyKey : string)
    : M WalletStore WalletLedgerEntry :=
  s ← get;
  match findByKey idempotencyKey s with
  | Some existingEntry => mret existingEntry
  | None =>
    lockedWallet ← from_option_or (ws_wallets s !! walletId) NotFoundException;
    require (bool_decide (w_status lockedWallet = WS_ACTIVE)) BadRequestException ;;
    require (negb (walletDisabled systemConfig type)) BadRequestException ;;
    let currentAvailable := w_availableBalance lockedWallet in
    require (negb (d_lt currentAvailable amount)) BadRequestException ;;
    let newAvailable := currentAvailable - amount in
    let '(newReal, newPromo, primaryBucket) :=
      consumeBuckets (w_realBalance lockedWallet) (w_promoBalance lockedWallet) amount in
    ledgerEntry ← createWalletEntry
      {| we_walletId := walletId; we_type := type; we_direction := DIR_DEBIT;
         we_bucket := primaryBucket; we_amount := amount;
         we_balanceBefore := currentAvailable; we_balanceAfter := newAvailable;
         we_referenceType := referenceType; we_referenceId := referenceId;
         we_idempotencyKey := idempotencyKey; we_expiresAt := None; we_createdAt := now |};
    updateBalances walletId lockedWallet newAvailable newReal newPromo ;;
    mret ledgerEntry
  end.

Definition debitWallet (now : Z) (systemConfig : option WalletConfig) (walletId : string)
    (amount : Q) (type : LedgerEntryType) (referenceType : string)
    (referenceId : option string) (idempotencyKey : string) (externalTx : bool)
    : M WalletStore WalletLedgerEntry :=
  require (negb (d_le amount 0)) BadRequestException ;;
  let run := executeDebit now systemConfig walletId amount type referenceType referenceId
               idempotencyKey in
  if externalTx then run else transaction run.

(** ** How much of a booking the wallet may pay *)
Record UsableWallet : Type := {
  uw_allowed : bool;
  uw_usableAmount : Q;
  uw_promoAmount : Q;
  uw_realAmount : Q;
  uw_availableBalance : Q;
}.

Definition defaultWalletConfig : WalletConfig :=
  {| cfg_isEnabled := true; cfg_maxSingleDeposit := 50000; cfg_minSingleDeposit := 100;
     cfg_maxWalletBalanceCap := 100000; cfg_maxWalletPaymentPercentage := 100;
     cfg_minBookingAmountForWalletUse := 0; cfg_maxPromoCreditPerBooking := 5000;
     cfg_maxDailyWalletUsage := 50000; cfg_isDepositsEnabled := true |}.

Definition checkoutDebitSince (walletId : string) (since : Z) (e : WalletLedgerEntry) : bool :=
  String.eqb (we_walletId e) walletId && bool_decide (we_direction e = DIR_DEBIT) &&
  bool_decide (we_type e = LT_CHECKOUT_DEBIT) && Z.leb since (we_createdAt e).

(** The decimal part of [validateAndCalculateUsableWallet], after the
    wallet is refreshed: target, promotional and real shares. *)
Definition usableSplit (config : WalletConfig) (w : Wallet) (usedToday bookingTotal : Q)
    (requested : option Q) : Q * Q * Q :=
  let maxPercent := num_or (cfg_maxWalletPaymentPercentage config) 100 in
  let maxAllowedByPercentage := bookingTotal * maxPercent / 100 in
  let maxPromoAllowed := num_or (cfg_maxPromoCreditPerBooking config) 5000 in
  let usablePromo := d_min (w_promoBalance w) maxPromoAllowed in
  let maxDailyLimit := num_or (cfg_maxDailyWalletUsage config) 50000 in
  let remainingDailyAllowance := d_max 0 (maxDailyLimit - usedToday) in
  let maxPossibleDebit :=
    d_min (d_min (d_min (w_availableBalance w) bookingTotal) maxAllowedByPercentage)
      remainingDailyAllowance in
  let targetAmount := match requested with
                      | Some r => d_min r maxPossibleDebit
                      | None => maxPossibleDebit
                      end in
  let finalPromo := d_min targetAmount usablePromo in
  (targetAmount, finalPromo, targetAmount - finalPromo).

Definition validateAndCalculateUsableWallet (now startOfToday : Z)
    (systemConfig : option WalletConfig) (freshId userId : string) (bookingAmount : Q)
    (requestedWalletAmount : option Q) : M WalletStore UsableWallet :=
  p ← getOrCreateWallet freshId userId;
  cleanExpiredPromotionalCredits now (fst p) ;;
  s ← get;
  let currentWallet := default (snd p) (ws_wallets s !! fst p) in
  let config := default defaultWalletConfig systemConfig in
  let refused := {| uw_allowed := false; uw_usableAmount := 0; uw_promoAmount := 0;
                    uw_realAmount := 0;
                    uw_availableBalance := rnd (w_availableBalance currentWallet) |} in
  if negb (cfg_isEnabled config) then mret refused
  else if negb (Qeq_bool (cfg_minBookingAmountForWalletUse config) 0) &&
          d_lt bookingAmount (cfg_minBookingAmountForWalletUse config) then mret refused
  else
    let usedToday := sum_by we_amount
      (filter (fun e => checkoutDebitSince (fst p) startOfToday e) (ws_entries s)) in
    let '(target, promo, real) :=
      usableSplit config currentWallet usedToday bookingAmount requestedWalletAmount in
    mret {| uw_allowed := d_gt target 0; uw_usableAmount := rnd target;
            uw_promoAmount := rnd promo; uw_realAmount := rnd real;
            uw_availableBalance := rnd (w_availableBalance currentWallet) |}.

(** ** Deposits *)

(** The amount sent to Razorpay, in paise, or the mock order. *)
Inductive DepositOrder : Type :=
  | MockOrder
  | RazorpayOrder (amountInPaise : Z).

Definition createDepositOrder (useMock : bool) (systemConfig : option WalletConfig)
    (razorpayCreate : Z -> bool) (freshId userId : string) (amount : Q)
    : M WalletStore DepositOrder :=
  let config := default defaultWalletConfig systemConfig in
  require (negb (negb (cfg_isEnabled config) || negb (cfg_isDepositsEnabled config)))
    BadRequestException ;;
  require (negb (js_lt amount (cfg_minSingleDeposit config) ||
                 js_lt (cfg_maxSingleDeposit config) amount)) BadRequestException ;;
  p ← getOrCreateWallet freshId userId;
  let projectedBalance := w_availableBalance (snd p) + amount in
  require (negb (d_gt projectedBalance (cfg_maxWalletBalanceCap config)))
    BadRequestException ;;
  let amountInPaise := js_round (js_mul amount 100) in
  if useMock then mret MockOrder
  else if razorpayCreate amountInPaise then mret (RazorpayOrder amountInPaise)
  else throw BadRequestException.

(** What [razorpay.payments.fetch] returns. *)
Record RazorpayPayment : Type := {
  rp_order_id : option string;
  rp_currency : option string;
  rp_status : string;
  rp_amount : Z;
}.

Definition isINR (currency : string) : bool :=
  existsb (String.eqb currency)
    ["inr"; "inR"; "iNr"; "iNR"; "Inr"; "InR"; "INr"; "INR"].

(** Step 2 of [verifyDepositPayment].  [fetched] is [None] when the call to
    the gateway throws, [Some None] when it finds no payment. *)
Definition depositAmountOf (useMock : bool) (fetched : option (option RazorpayPayment))
    (razorpayOrderId : string) : result Q :=
  if useMock then Ok 1000
  else
    match fetched with
    | None => Throw BadRequestException
    | Some None => Throw BadRequestException
    | Some (Some payment) =>
      if match truthy (rp_order_id payment) with
         | Some o => negb (String.eqb o razorpayOrderId) | None => false end
      then Throw BadRequestException
      else if match truthy (rp_currency payment) with
              | Some c => negb (isINR c) | None => false end
      then Throw BadRequestException
      else if negb (String.eqb (rp_status payment) "captured") then Throw BadRequestException
      else Ok (inject_Z (rp_amount payment) / 100)
    end.

Definition depositJournal (userId razorpayPaymentId : string) (depositAmount : Q)
    : RecordJournalInput :=
  let line a id sd :=
    {| li_accountType := a; li_accountEntityId := Some id; li_side := Some sd;
       li_entrySide := None; li_amount := depositAmount; li_narration := None;
       li_description := None; li_bookingId := None; li_paymentId := None;
       li_payoutId := None |} in
  {| rj_journalId := None; rj_referenceType := "WALLET_DEPOSIT";
     rj_referenceId := razorpayPaymentId; rj_narration := None; rj_description := None;
     rj_lines := Some [line GATEWAY_CLEARING "RAZORPAY" DEBIT;
                       line CUSTOMER_WALLET userId CREDIT];
     rj_entries := None; rj_idempotencyKey := Some ("jrn_wlt_dep_" +:+ razorpayPaymentId);
     rj_currency := None; rj_bookingId := None; rj_paymentId := None;
     rj_payoutId := None; rj_vendorId := None |}.

(** [mockAccepted]: not production, mock mode and the mock signature.
    [signatureValid]: the answer of Razorpay's [validatePaymentVerification].
    The notification at the end is not modelled; its failure is caught. *)
Definition verifyDepositPayment (now : Z) (useMock mockAccepted signatureValid : bool)
    (systemConfig : option WalletConfig) (hasLedger : bool)
    (fetched : option (option RazorpayPayment)) (freshId freshJournal userId : string)
    (razorpayOrderId razorpayPaymentId : string) : M WalletStore WalletLedgerEntry :=
  require (negb match systemConfig with
                | Some config => negb (cfg_isEnabled config) || negb (cfg_isDepositsEnabled config)
                | None => false
                end) BadRequestException ;;
  p ← getOrCreateWallet freshId userId;
  let idempotencyKey := "wallet_deposit_" +:+ razorpayPaymentId in
  require (mockAccepted || signatureValid) BadRequestException ;;
  match depositAmountOf useMock fetched razorpayOrderId with
  | Throw e => throw e
  | Ok depositAmount =>
    ledgerEntry ← creditWallet now systemConfig (fst p) depositAmount LT_CUSTOMER_DEPOSIT
      BUCKET_REAL_MONEY "PAYMENT" (Some razorpayPaymentId) idempotencyKey None false;
    when hasLedger
      (try_catch
         (zoom ws_ledger set_wledger
            (r ← recordJournal now freshJournal false
                   (depositJournal userId razorpayPaymentId depositAmount);
             mret tt))
         (fun _ => mret tt)) ;;
    mret ledgerEntry
  end.

(** ** Administration *)
Definition adminAdjustWallet (now : Z) (systemConfig : option WalletConfig)
    (adminUserId walletId : string) (amount : Q) (direction : LedgerDirection)
    (bucket : WalletBucketType) (clientNonce : option string)
    : M WalletStore WalletLedgerEntry :=
  let idempotencyKey := "wallet_admin_adj_" +:+ adminUserId +:+ "_" +:+ walletId +:+ "_" +:+
                        str_or clientNonce (pretty now) in
  match direction with
  | DIR_CREDIT => creditWallet now systemConfig walletId amount LT_ADMIN_ADJUSTMENT bucket
                    "ADMIN" (Some adminUserId) idempotencyKey None false
  | DIR_DEBIT => debitWallet now systemConfig walletId amount LT_ADMIN_ADJUSTMENT
                    "ADMIN" (Some adminUserId) idempotencyKey false
  end.

Record Reconciliation : Type := {
  rec_isMatched : bool;
  rec_cachedAvailable : Q;
  rec_computedAvailable : Q;
}.

Definition ofDirection (walletId : string) (d : LedgerDirection) (e : WalletLedgerEntry) : bool :=
  String.eqb (we_walletId e) walletId && bool_decide (we_direction e = d).

Definition reconcileWallet (walletId : string) : M WalletStore Reconciliation :=
  s ← get;
  wallet ← from_option_or (ws_wallets s !! walletId) NotFoundException;
  let totalCredits := sum_by we_amount (filter (fun e => ofDirection walletId DIR_CREDIT e) (ws_entries s)) in
  let totalDebits := sum_by we_amount (filter (fun e => ofDirection walletId DIR_DEBIT e) (ws_entries s)) in
  let calculatedBalance := totalCredits - totalDebits in
  let isMatched := d_eq (w_availableBalance wallet) calculatedBalance in
  let isBucketSumMatched :=
    d_eq (w_realBalance wallet + w_promoBalance wallet) (w_availableBalance wallet) in
  when (negb isMatched || negb isBucketSumMatched)
    (modify (set_wallet walletId
      {| w_userId := w_userId wallet; w_availableBalance := w_availableBalance wallet;
         w_lockedBalance := w_lockedBalance wallet; w_realBalance := w_realBalance wallet;
         w_promoBalance := w_promoBalance wallet; w_status := WS_FROZEN |})) ;;
  mret {| rec_isMatched := isMatched && isBucketSumMatched;
          rec_cachedAvailable := rnd (w_availableBalance wallet);
          rec_computedAvailable := rnd calculatedBalance |}.
End wallets.

(** ** Specification *)
Definition signed (e : WalletLedgerEntry) : Q :=
  match we_direction e with DIR_CREDIT => we_amount e | DIR_DEBIT => - we_amount e end.
Definition wallet_net (id : string) (entries : list WalletLedgerEntry) : Q :=
  sum_by (fun e => if String.eqb (we_walletId e) id then signed e else 0) entries.

(** The cached balances of a wallet agree with each other and with the
    entries, and neither bucket is overdrawn. *)
Record wallet_ok (s : WalletStore) (id : string) (w : Wallet) : Prop := {
  ok_split : w_availableBalance w == w_realBalance w + w_promoBalance w;
  ok_real : 0 <= w_realBalance w;
  ok_promo : 0 <= w_promoBalance w;
  ok_net : w_availableBalance w == wallet_net id (ws_entries s);
  ok_whole_real : whole_paise (w_realBalance w);
  ok_whole_promo : whole_paise (w_promoBalance w);
}.
Record store_ok (s : WalletStore) : Prop := {
  so_wallets id w : ws_wallets s !! id = Some w -> wallet_ok s id w;
  so_entries e : e ∈ ws_entries s ->
    is_Some (ws_wallets s !! we_walletId e) /\ whole_paise (we_amount e);
}.

Definition empty_store : WalletStore :=
  {| ws_wallets := ∅; ws_entries := []; ws_ledger := [] |}.
Lemma store_ok_empty : store_ok empty_store.
Proof. split; simpl; [intros id w; by rewrite lookup_empty|set_solver]. Qed.

Lemma whole_paise_available s id w : wallet_ok s id w -> whole_paise (w_availableBalance w).
Proof. intros [-> ? ? ? ? ?]. auto with dec. Qed.
#[export] Hint Resolve whole_paise_available ok_whole_real ok_whole_promo : dec.

Lemma wallet_net_snoc id entries e :
  wallet_net id (entries ++ [e]) ==
    wallet_net id entries + (if String.eqb (we_walletId e) id then signed e else 0).
Proof. apply sum_by_snoc. Qed.

(** One movement on a wallet: a row is added and the balances move by it. *)
Lemma store_ok_move s id w w' e :
  store_ok s -> ws_wallets s !! id = Some w -> we_walletId e = id ->
  whole_paise (we_amount e) ->
  w_availableBalance w' == w_availableBalance w + signed e ->
  w_availableBalance w' == w_realBalance w' + w_promoBalance w' ->
  0 <= w_realBalance w' -> 0 <= w_promoBalance w' ->
  whole_paise (w_realBalance w') -> whole_paise (w_promoBalance w') ->
  store_ok (set_wallet id w' (add_entry e s)).
Proof.
  intros [Hw He] Hid Hwid Hwe Hav Hsp Hr Hp Hwr Hwp. split; simpl.
  - intros id' w0. destruct (decide (id = id')) as [<-|Hne].
    + rewrite lookup_insert_eq. intros [= <-].
      split; simpl; [done..| |done|done].
      rewrite wallet_net_snoc, Hwid, String.eqb_refl, Hav.
      by rewrite (ok_net _ _ _ (Hw _ _ Hid)).
    + rewrite lookup_insert_ne by done. intros Hw0.
      destruct (Hw _ _ Hw0). split; simpl; try done.
      rewrite wallet_net_snoc, Hwid.
      rewrite (proj2 (String.eqb_neq id id')) by done. by rewrite Qplus_0_r.
  - intros e0 [Hin| ->%list_elem_of_singleton]%elem_of_app.
    + destruct (He _ Hin) as [His ?]. split; [|done].
      destruct (decide (id = we_walletId e0)) as [<-|Hne].
      * by rewrite lookup_insert_eq.
      * by rewrite lookup_insert_ne.
    + rewrite Hwid, lookup_insert_eq. eauto.
Qed.

(** *** What credits and debits do, branch by branch *)
Section moves.
Context {col : NumericColumn} {dec : DecimalArith}.

Lemma findByKey_fresh key s :
  findByKey key s = None ->
  existsb (fun e' => String.eqb (we_idempotencyKey e') key) (ws_entries s) = false.
Proof.
  intros Ek. apply not_true_iff_false. intros (e & Hin & He)%existsb_exists.
  unfold findByKey in Ek. rewrite find_None_iff in Ek.
  rewrite Ek in He; [done|by apply list_elem_of_In].
Qed.

Lemma executeCredit_cases now cfg id amount type bucket rt rid key exp s r s' :
  executeCredit now cfg id amount type bucket rt rid key exp s = (r, s') ->
  (s' = s /\ (forall e, r = Ok e -> findByKey key s = Some e)) \/
  exists w row, ws_wallets s !! id = Some w /\ r = Ok row /\ w_status w = WS_ACTIVE /\
    findByKey key s = None /\ walletDisabled cfg type = false /\
    w_availableBalance w + amount <= creditCap cfg type /\
    let real := bool_decide (bucket = BUCKET_REAL_MONEY) ||
                bool_decide (bucket = BUCKET_REFUND_CREDIT) in
    we_walletId row = id /\ we_direction row = DIR_CREDIT /\ we_amount row = store amount /\
    we_idempotencyKey row = key /\ we_expiresAt row = exp /\
    s' = set_wallet id
      {| w_userId := w_userId w; w_availableBalance := store (w_availableBalance w + amount);
         w_lockedBalance := w_lockedBalance w;
         w_realBalance := store (if real then w_realBalance w + amount else w_realBalance w);
         w_promoBalance := store (if real then w_promoBalance w else w_promoBalance w + amount);
         w_status := w_status w |} (add_entry row s).
Proof.
  unfold executeCredit. step.
  destruct (findByKey key s) as [e|] eqn:Ek.
  { step. intros [= <- <-]. left. split; [done|]. intros e' [= <-]. done. }
  step. destruct (ws_wallets s !! id) as [w|] eqn:Ew; [|intros [= <- <-]; left; by split].
  step. case_bool_decide as Hst; [|intros [= <- <-]; left; by split].
  step. destruct (walletDisabled cfg type) eqn:Ed; [intros [= <- <-]; left; by split|].
  step. destruct (d_gt _ _) eqn:Ecap; [intros [= <- <-]; left; by split|]. dec_bool.
  simpl. intros H. right. exists w.
  destruct (bool_decide (bucket = BUCKET_REAL_MONEY) || bool_decide (bucket = BUCKET_REFUND_CREDIT));
    unfold createWalletEntry, updateBalances in H; step_in H; simpl in H;
    rewrite (findByKey_fresh _ _ Ek) in H; step_in H;
    simplify_eq/=; eexists; repeat (split; [done|]); done.
Qed.

Lemma executeDebit_cases now cfg id amount type rt rid key s r s' :
  executeDebit now cfg id amount type rt rid key s = (r, s') ->
  (s' = s /\ (forall e, r = Ok e -> findByKey key s = Some e)) \/
  exists w row, ws_wallets s !! id = Some w /\ r = Ok row /\ w_status w = WS_ACTIVE /\
    findByKey key s = None /\ walletDisabled cfg type = false /\
    amount <= w_availableBalance w /\
    we_walletId row = id /\ we_direction row = DIR_DEBIT /\ we_amount row = store amount /\
    we_idempotencyKey row = key /\
    s' = set_wallet id
      {| w_userId := w_userId w; w_availableBalance := store (w_availableBalance w - amount);
         w_lockedBalance := w_lockedBalance w;
         w_realBalance := store (consumeBuckets (w_realBalance w) (w_promoBalance w) amount).1.1;
         w_promoBalance := store (consumeBuckets (w_realBalance w) (w_promoBalance w) amount).1.2;
         w_status := w_status w |} (add_entry row s).
Proof.
  unfold executeDebit. step.
  destruct (findByKey key s) as [e|] eqn:Ek.
  { step. intros [= <- <-]. left. split; [done|]. intros e' [= <-]. done. }
  step. destruct (ws_wallets s !! id) as [w|] eqn:Ew; [|intros [= <- <-]; left; by split].
  step. case_bool_decide as Hst; [|intros [= <- <-]; left; by split].
  step. destruct (walletDisabled cfg type) eqn:Ed; [intros [= <- <-]; left; by split|].
  step. destruct (d_lt _ _) eqn:Ecap; [intros [= <- <-]; left; by split|]. dec_bool.
  simpl. intros H. right. exists w.
  destruct (consumeBuckets _ _ _) as [[nr np] pb];
    unfold createWalletEntry, updateBalances in H; step_in H; simpl in H;
    rewrite (findByKey_fresh _ _ Ek) in H; step_in H;
    simplify_eq/=; eexists; repeat (split; [done|]); done.
Qed.

Lemma executeDebit_runs now cfg id amount type rt rid key s w :
  ws_wallets s !! id = Some w -> w_status w = WS_ACTIVE -> walletDisabled cfg type = false ->
  findByKey key s = None -> amount <= w_availableBalance w ->
  exists row,
    executeDebit now cfg id amount type rt rid key s = (Ok row, set_wallet id
      {| w_userId := w_userId w; w_availableBalance := store (w_availableBalance w - amount);
         w_lockedBalance := w_lockedBalance w;
         w_realBalance := store (consumeBuckets (w_realBalance w) (w_promoBalance w) amount).1.1;
         w_promoBalance := store (consumeBuckets (w_realBalance w) (w_promoBalance w) amount).1.2;
         w_status := w_status w |} (add_entry row s)) /\
    we_amount row = store amount.
Proof.
  intros Hw Hact Hdis Hkey Hle%d_lt_false. unfold executeDebit. step. rewrite Hkey. step. rewrite Hw.
  step. rewrite bool_decide_true by done. simpl. step. rewrite Hdis. simpl. step. rewrite Hle. simpl.
  destruct (consumeBuckets _ _ _) as [[??]?]. unfold createWalletEntry, updateBalances.
  step. simpl. rewrite (findByKey_fresh _ _ Hkey). step. simpl. eexists. split; reflexivity.
Qed.

(** Promotional money first; the buckets lose exactly the amount. *)
Lemma consumeBuckets_spec real promo amount :
  0 <= real -> 0 <= promo -> 0 < amount -> amount <= real + promo ->
  let '(r, p, _) := consumeBuckets real promo amount in
  r + p == real + promo - amount /\ 0 <= r <= real /\ 0 <= p <= promo /\
  promo - p == d_min amount promo.
Proof.
  intros. unfold consumeBuckets.
  destruct (d_min_spec amount promo) as [[Hm ->]|[Hm ->]];
    destruct (d_gt promo 0) eqn:E1; dec_bool; try destruct (d_ge promo amount) eqn:E2; dec_bool;
    repeat split; lra.
Qed.

Lemma consumeBuckets_whole real promo amount :
  whole_paise real -> whole_paise promo -> whole_paise amount ->
  whole_paise (consumeBuckets real promo amount).1.1 /\
  whole_paise (consumeBuckets real promo amount).1.2.
Proof. intros. unfold consumeBuckets. repeat case_match; simpl; auto with dec. Qed.
End moves.

(** *** Every handler keeps the store consistent *)
Section invariant.
Context {col : NumericColumn} {dec : DecimalArith}.
Variable isoDay : Z -> string.

(** Rounding to the column does nothing to whole paise. *)
Ltac stored := rewrite ?store_exact by auto with dec.

Lemma executeCredit_ok now cfg id amount type bucket rt rid key exp s r s' :
  0 < amount -> whole_paise amount -> store_ok s ->
  executeCredit now cfg id amount type bucket rt rid key exp s = (r, s') -> store_ok s'.
Proof.
  intros Hpos Hwh Hs [[-> _]|(w & row & Hw & -> & _ & _ & _ & _ & Hid & Hd & Ha & _ & _ & ->)]
    %executeCredit_cases; [done|].
  pose proof (so_wallets _ Hs _ _ Hw) as Hok. pose proof Hok as [Hsp Hr Hp _ Hwr Hwp].
  assert (Hwa : whole_paise (w_availableBalance w)) by eauto with dec.
  destruct (bool_decide (bucket = BUCKET_REAL_MONEY) || bool_decide (bucket = BUCKET_REFUND_CREDIT));
    (eapply store_ok_move; [done|exact Hw|done| | | | | | |]); simpl;
    unfold signed; rewrite ?Hd, ?Ha; auto using store_whole; stored; lra.
Qed.

Lemma executeDebit_ok now cfg id amount type rt rid key s r s' :
  0 < amount -> whole_paise amount -> store_ok s ->
  executeDebit now cfg id amount type rt rid key s = (r, s') -> store_ok s'.
Proof.
  intros Hpos Hwh Hs [[-> _]|(w & row & Hw & -> & _ & _ & _ & Hle & Hid & Hd & Ha & _ & ->)]
    %executeDebit_cases; [done|].
  pose proof (so_wallets _ Hs _ _ Hw) as Hok. pose proof Hok as [Hsp Hr Hp _ Hwr Hwp].
  assert (Hwa : whole_paise (w_availableBalance w)) by eauto with dec.
  pose proof (consumeBuckets_spec _ _ amount Hr Hp Hpos ltac:(lra)) as Hc.
  pose proof (consumeBuckets_whole _ _ amount Hwr Hwp Hwh) as [Hw1 Hw2].
  destruct (consumeBuckets _ _ _) as [[nr np] b]. simpl in *. destruct Hc as (Hc1 & Hc2 & Hc3 & _).
  eapply store_ok_move; [done|exact Hw|done| | | | | | |]; simpl;
    unfold signed; rewrite ?Hd, ?Ha; auto using store_whole; stored; lra.
Qed.

Lemma preserves_creditWallet now cfg id amount type bucket rt rid key exp tx :
  whole_paise amount ->
  preserves store_ok (creditWallet now cfg id amount type bucket rt rid key exp tx).
Proof.
  intros Hw s r s'. unfold creditWallet. step. destruct (d_le amount 0) eqn:E; dec_bool; simpl.
  - intros [= <- <-]. done.
  - intros H Hs. destruct tx; [by eapply executeCredit_ok|].
    revert H Hs. apply preserves_transaction. intros s0 r0 s0' H Hs. by eapply executeCredit_ok.
Qed.

Lemma preserves_debitWallet now cfg id amount type rt rid key tx :
  whole_paise amount ->
  preserves store_ok (debitWallet now cfg id amount type rt rid key tx).
Proof.
  intros Hw s r s'. unfold debitWallet. step. destruct (d_le amount 0) eqn:E; dec_bool; simpl.
  - intros [= <- <-]. done.
  - intros H Hs. destruct tx; [by eapply executeDebit_ok|].
    revert H Hs. apply preserves_transaction. intros s0 r0 s0' H Hs. by eapply executeDebit_ok.
Qed.

Lemma sum_by_whole {A} (f : A -> Q) l :
  (forall x, x ∈ l -> whole_paise (f x)) -> whole_paise (sum_by f l).
Proof.
  induction l as [|x l IH]; intros H; simpl; [auto with dec|].
  apply whole_paise_add; [apply H; left|]. apply IH. intros y Hy. apply H. by right.
Qed.

Lemma preserves_cleanExpired now id :
  preserves store_ok (cleanExpiredPromotionalCredits isoDay now id).
Proof.
  apply preserves_get. intros s r s' Hs.
  case_bool_decide as He; [intros [= <- <-]; done|].
  destruct (ws_wallets s !! id) as [w|] eqn:Hw; [|intros [= <- <-]; done].
  destruct (d_le (w_promoBalance w) 0); [intros [= <- <-]; done|].
  cbv zeta. set (amt := d_min _ _). destruct (d_gt amt 0) eqn:Epos; [|intros [= <- <-]; done]. dec_bool.
  pose proof (so_wallets _ Hs _ _ Hw) as Hok. pose proof Hok as [Hsp Hr Hp _ Hwr Hwp].
  assert (Hwa : whole_paise (w_availableBalance w)) by eauto with dec.
  assert (Hamt : whole_paise amt /\ amt <= w_promoBalance w).
  { unfold amt. split.
    - apply whole_paise_min; [|done]. apply whole_paise_sub; apply sum_by_whole;
        intros x [_ Hx]%list_elem_of_filter; by apply (so_entries _ Hs).
    - destruct (d_min_spec (sum_by we_amount (filter (fun e => expiredPromo id now e) (ws_entries s)) -
          sum_by we_amount (filter (fun e => isExpiration id e) (ws_entries s)))
          (w_promoBalance w)) as [[? ->]|[? ->]]; lra. }
  destruct Hamt as [Hwh Hle]. clearbody amt.
  unfold createWalletEntry, updateBalances. step. simpl.
  destruct (existsb _ _); simpl; intros H; simplify_eq/=; [done|].
  eapply store_ok_move; [done|exact Hw|done| | | | | | |]; simpl;
    unfold signed; simpl; auto using store_whole; stored; lra.
Qed.

(** A generated id belongs to no row. *)
Definition fresh_wallet_id (id : string) (s : WalletStore) : Prop :=
  ws_wallets s !! id = None.

Lemma store_ok_create s id userId :
  store_ok s -> fresh_wallet_id id s ->
  store_ok (set_wallet id
    {| w_userId := userId; w_availableBalance := 0; w_lockedBalance := 0;
       w_realBalance := 0; w_promoBalance := 0; w_status := WS_ACTIVE |} s).
Proof.
  intros [Hw He] Hf. split; simpl.
  - intros id' w. destruct (decide (id = id')) as [<-|Hne].
    + rewrite lookup_insert_eq. intros [= <-].
      split; simpl; auto with dec; try lra.
      unfold wallet_net. rewrite sum_by_zero; [reflexivity|]. intros e Hin.
      destruct (String.eqb_spec (we_walletId e) id) as [E|]; [|reflexivity].
      destruct (He e Hin) as [[w' Hw'] _]. rewrite E in Hw'. unfold fresh_wallet_id in Hf. congruence.
    + rewrite lookup_insert_ne by done. intros Hid. by destruct (Hw _ _ Hid); split.
  - intros e Hin. destruct (He e Hin) as [[w' Hw'] Hp]. split; [|done].
    destruct (decide (id = we_walletId e)) as [<-|Hne].
    + by rewrite lookup_insert_eq.
    + rewrite lookup_insert_ne by done. eauto.
Qed.

Lemma getOrCreateWallet_ok fid uid s r s' :
  getOrCreateWallet fid uid s = (r, s') -> store_ok s -> fresh_wallet_id fid s -> store_ok s'.
Proof.
  unfold getOrCreateWallet. step. destruct (findWalletByUser uid s); step;
    intros H Hs Hf; simplify_eq/=; [done|by apply store_ok_create].
Qed.

(** A consistent wallet passes the audit, which then changes nothing. *)
Lemma reconcile_consistent id s w :
  store_ok s -> ws_wallets s !! id = Some w ->
  exists rec, reconcileWallet id s = (Ok rec, s) /\ rec_isMatched rec = true.
Proof.
  intros Hs Hw. pose proof (so_wallets _ Hs _ _ Hw) as [Hsp _ _ Hnet _ _].
  unfold reconcileWallet. step. rewrite Hw. step.
  set (c := sum_by we_amount (filter (fun e => ofDirection id DIR_CREDIT e) (ws_entries s))).
  set (d := sum_by we_amount (filter (fun e => ofDirection id DIR_DEBIT e) (ws_entries s))).
  assert (Hcd : w_availableBalance w == c - d).
  { rewrite Hnet. unfold c, d, wallet_net, Qminus. rewrite !sum_by_filter, <- sum_by_opp, <- sum_by_plus.
    apply sum_by_ext. intros e _. unfold ofDirection, signed.
    destruct (String.eqb (we_walletId e) id), (we_direction e); simpl; ring. }
  assert (d_eq (w_availableBalance w) (c - d) = true) as -> by by apply d_eq_true.
  assert (d_eq (w_realBalance w + w_promoBalance w) (w_availableBalance w) = true) as ->
    by (apply d_eq_true; by symmetry).
  simpl. step. eexists. split; done.
Qed.
End invariant.

(** *** Reachable stores *)
Section reachable.
Context {col : NumericColumn} {dec : DecimalArith}.
Variable isoDay : Z -> string.

(** One call on the service.  Amounts of direct credits, debits and
    adjustments are whole paise ([fractional_adjustment_freezes]: one that is
    not is rounded twice); deposits are by construction.  The id of a
    new wallet is unused. *)
Inductive wallet_step : WalletStore -> WalletStore -> Prop :=
  | step_credit now cfg id amount type bucket rt rid key exp tx s r s' :
      whole_paise amount ->
      creditWallet now cfg id amount type bucket rt rid key exp tx s = (r, s') ->
      wallet_step s s'
  | step_debit now cfg id amount type rt rid key tx s r s' :
      whole_paise amount ->
      debitWallet now cfg id amount type rt rid key tx s = (r, s') -> wallet_step s s'
  | step_admin now cfg admin id amount dir bucket nonce s r s' :
      whole_paise amount ->
      adminAdjustWallet now cfg admin id amount dir bucket nonce s = (r, s') ->
      wallet_step s s'
  | step_expire now id s r s' :
      cleanExpiredPromotionalCredits isoDay now id s = (r, s') -> wallet_step s s'
  | step_open fid uid s r s' :
      fresh_wallet_id fid s -> getOrCreateWallet fid uid s = (r, s') -> wallet_step s s'
  | step_list fid uid page limit s r s' :
      fresh_wallet_id fid s -> getWalletTransactions fid uid page limit s = (r, s') ->
      wallet_step s s'
  | step_usable now today cfg fid uid booking requested s r s' :
      fresh_wallet_id fid s ->
      validateAndCalculateUsableWallet isoDay now today cfg fid uid booking requested s = (r, s') ->
      wallet_step s s'
  | step_order mock cfg razorpay fid uid amount s r s' :
      fresh_wallet_id fid s ->
      createDepositOrder mock cfg razorpay fid uid amount s = (r, s') -> wallet_step s s'
  | step_deposit now mock accepted valid cfg hasLedger fetched fid fj uid oid pid s r s' :
      fresh_wallet_id fid s ->
      verifyDepositPayment now mock accepted valid cfg hasLedger fetched fid fj uid oid pid s =
        (r, s') -> wallet_step s s'
  | step_reconcile id s r s' : reconcileWallet id s = (r, s') -> wallet_step s s'.

Lemma ok_after_open {A} fid uid (k : string * Wallet -> M WalletStore A) s r s' :
  (forall p, preserves store_ok (k p)) ->
  (p ← getOrCreateWallet fid uid; k p) s = (r, s') ->
  fresh_wallet_id fid s -> store_ok s -> store_ok s'.
Proof.
  intros Hk H Hf Hs. rewrite bind_run in H.
  destruct (getOrCreateWallet fid uid s) as [[p|e] s1] eqn:E; simplify_eq;
    pose proof (getOrCreateWallet_ok _ _ _ _ _ E Hs Hf) as Hs1; [|done].
  by eapply Hk.
Qed.

Lemma preserves_get_ok {A} (k : WalletStore -> M WalletStore A) :
  (forall s0, preserves store_ok (k s0)) -> preserves store_ok (s ← get; k s).
Proof. intros Hk. apply preserves_get. intros s r s' Hs H. by eapply Hk. Qed.

Lemma preserves_adminAdjust now cfg admin id amount dir bucket nonce :
  whole_paise amount ->
  preserves store_ok (adminAdjustWallet now cfg admin id amount dir bucket nonce).
Proof. intros. destruct dir; [by apply preserves_creditWallet|by apply preserves_debitWallet]. Qed.

Lemma depositAmountOf_whole mock fetched oid a :
  depositAmountOf mock fetched oid = Ok a -> whole_paise a.
Proof.
  unfold depositAmountOf. repeat case_match; intros; simplify_eq; auto with dec.
  exists 100000%Z. reflexivity.
Qed.

Lemma preserves_ledger_zoom {A} (m : M LedgerTable A) :
  preserves store_ok (zoom ws_ledger set_wledger m).
Proof. apply preserves_zoom. intros t s [Hw He]. split; [|exact He].
  intros id w Hid. destruct (Hw id w Hid). by split. Qed.

Lemma verifyDepositPayment_ok now mock accepted valid cfg hasLedger fetched fid fj uid oid pid s r s' :
  verifyDepositPayment now mock accepted valid cfg hasLedger fetched fid fj uid oid pid s = (r, s') ->
  fresh_wallet_id fid s -> store_ok s -> store_ok s'.
Proof.
  unfold verifyDepositPayment. rewrite require_bind.
  destruct (negb _); [|intros [= <- <-]; done].
  apply ok_after_open. intros p. apply preserves_bind; [auto with preserves|]. intros _.
  destruct (depositAmountOf mock fetched oid) as [a|e] eqn:Ea; [|auto with preserves].
  apply preserves_bind; [apply preserves_creditWallet; by eapply depositAmountOf_whole|].
  intros row. auto using preserves_ledger_zoom with preserves.
Qed.

Lemma validateUsable_ok now today cfg fid uid booking requested s r s' :
  validateAndCalculateUsableWallet isoDay now today cfg fid uid booking requested s = (r, s') ->
  fresh_wallet_id fid s -> store_ok s -> store_ok s'.
Proof.
  apply ok_after_open. intros p. apply preserves_bind; [apply preserves_cleanExpired|]. intros _.
  apply preserves_get_ok. intros s0. cbv zeta.
  repeat case_match; auto with preserves.
Qed.

Lemma createDepositOrder_ok mock cfg razorpay fid uid amount s r s' :
  createDepositOrder mock cfg razorpay fid uid amount s = (r, s') ->
  fresh_wallet_id fid s -> store_ok s -> store_ok s'.
Proof.
  unfold createDepositOrder. cbv zeta. rewrite !require_bind.
  destruct (negb _); [|intros [= <- <-]; done].
  destruct (negb _); [|intros [= <- <-]; done].
  apply ok_after_open. intros p. apply preserves_bind; [auto with preserves|]. intros _.
  repeat case_match; auto with preserves.
Qed.

Lemma getWalletTransactions_ok fid uid page limit s r s' :
  getWalletTransactions fid uid page limit s = (r, s') ->
  fresh_wallet_id fid s -> store_ok s -> store_ok s'.
Proof. apply ok_after_open. intros p. apply preserves_get_ok. auto with preserves. Qed.

Lemma reconcile_never_writes id s r s' :
  store_ok s -> reconcileWallet id s = (r, s') -> s' = s.
Proof.
  intros Hs H. destruct (ws_wallets s !! id) as [w|] eqn:Hw.
  - destruct (reconcile_consistent id s w Hs Hw) as (rec & Hr & _). congruence.
  - unfold reconcileWallet in H. step_in H. rewrite Hw in H. by simplify_eq.
Qed.

Lemma wallet_step_ok s s' : wallet_step s s' -> store_ok s -> store_ok s'.
Proof.
  destruct 1; intros Hs.
  - by eapply preserves_creditWallet.
  - by eapply preserves_debitWallet.
  - by eapply preserves_adminAdjust.
  - by eapply preserves_cleanExpired.
  - by eapply getOrCreateWallet_ok.
  - by eapply getWalletTransactions_ok.
  - by eapply validateUsable_ok.
  - by eapply createDepositOrder_ok.
  - by eapply verifyDepositPayment_ok.
  - by erewrite reconcile_never_writes.
Qed.

Lemma reachable_store_ok s : rtc wallet_step empty_store s -> store_ok s.
Proof.
  intros H. by apply (rtc_invariant _ _ _ _ wallet_step_ok H), store_ok_empty.
Qed.
End reachable.

(** *** Properties *)
Section properties.
Context {col : NumericColumn} {dec : DecimalArith}.
Variable isoDay : Z -> string.

(** C14. In every store the service can reach by movements of whole paise, the cached balances of every wallet are the real plus the promotional bucket and the credits minus the debits of its entries, no bucket is negative, and the reconciliation of the wallet reports a match and writes nothing (so it never freezes a wallet). *)
Theorem reachable_wallets_reconcile s id w :
  rtc (wallet_step isoDay) empty_store s -> ws_wallets s !! id = Some w ->
  0 <= w_realBalance w /\ 0 <= w_promoBalance w /\
  w_availableBalance w == w_realBalance w + w_promoBalance w /\
  w_availableBalance w == wallet_net id (ws_entries s) /\
  exists rec, reconcileWallet id s = (Ok rec, s) /\ rec_isMatched rec = true.
Proof.
  intros Hs%reachable_store_ok Hw. pose proof (so_wallets _ Hs _ _ Hw) as [].
  repeat (split; [done|]). by eapply reconcile_consistent.
Qed.

(** A debit refuses a non-positive amount or one above the balance with BadRequestException and changes nothing; otherwise it takes the promotional bucket first and the real bucket for the rest, so that neither is overdrawn, appends one entry and leaves every other wallet alone. *)
Theorem debitWallet_spec now cfg id amount type rt rid key tx s w :
  store_ok s -> whole_paise amount -> ws_wallets s !! id = Some w ->
  w_status w = WS_ACTIVE -> walletDisabled cfg type = false -> findByKey key s = None ->
  let run := debitWallet now cfg id amount type rt rid key tx s in
  ((amount <= 0 \/ w_availableBalance w < amount) -> run = (Throw BadRequestException, s)) /\
  (0 < amount <= w_availableBalance w ->
   exists row s' w', run = (Ok row, s') /\ ws_entries s' = ws_entries s ++ [row] /\
     ws_wallets s' = <[id := w']> (ws_wallets s) /\ we_amount row == amount /\
     let fromPromo := d_min amount (w_promoBalance w) in
     w_promoBalance w' == w_promoBalance w - fromPromo /\
     w_realBalance w' == w_realBalance w - (amount - fromPromo) /\
     w_availableBalance w' == w_availableBalance w - amount /\
     0 <= w_promoBalance w' /\ 0 <= w_realBalance w').
Proof.
  intros Hs Hwh Hw Hact Hdis Hkey run. subst run. unfold debitWallet. rewrite require_bind.
  pose proof (so_wallets _ Hs _ _ Hw) as Hok. pose proof Hok as [Hsp Hr Hp _ Hwr Hwp].
  split.
  - intros Hbad. destruct (d_le amount 0) eqn:E; [done|]. dec_bool.
    destruct Hbad as [?|Hlt]; [lra|].
    unfold transaction, executeDebit. apply d_lt_true in Hlt.
    destruct tx; step; rewrite Hkey; step; rewrite Hw, Hact; simpl; step; rewrite Hdis; simpl; step;
      by rewrite Hlt.
  - intros [Hpos Hle]. apply d_le_false in Hpos as Hpos'. rewrite Hpos'. simpl.
    destruct (executeDebit_runs now cfg id amount type rt rid key s w) as (row & E & Ha); try done.
    assert (Hav : whole_paise (w_availableBalance w)) by eauto with dec.
    pose proof (consumeBuckets_spec _ _ amount Hr Hp Hpos ltac:(lra)) as Hc.
    pose proof (consumeBuckets_whole _ _ amount Hwr Hwp Hwh) as [Hw1 Hw2].
    destruct (consumeBuckets _ _ _) as [[nr np] b]. simpl in *.
    destruct Hc as (Hc1 & Hc2 & Hc3 & Hc4).
    eexists row, _, _. split; [by destruct tx; unfold transaction; rewrite E|].
    simpl. split; [done|]. split; [done|]. cbn [w_promoBalance w_realBalance w_availableBalance]. rewrite Ha, !store_exact by auto with dec.
    split; [done|]. rewrite <- Hc4. repeat split; lra.
Qed.

Lemma findByKey_move id w row s :
  findByKey (we_idempotencyKey row) s = None ->
  findByKey (we_idempotencyKey row) (set_wallet id w (add_entry row s)) = Some row.
Proof.
  unfold findByKey. simpl. intros H. rewrite find_app, H. simpl. by rewrite String.eqb_refl.
Qed.

Lemma credit_records_key now cfg id amount type bucket rt rid key exp tx s row s' :
  creditWallet now cfg id amount type bucket rt rid key exp tx s = (Ok row, s') ->
  findByKey key s' = Some row.
Proof.
  unfold creditWallet. rewrite require_bind. destruct (negb _); [|done].
  intros H. assert (executeCredit now cfg id amount type bucket rt rid key exp s = (Ok row, s'))
    as [[-> Hk]|(w & row' & _ & [= <-] & _ & Hk & _ & _ & _ & _ & _ & <- & _ & ->)]%executeCredit_cases
    by (destruct tx; [done|by apply transaction_Ok]); [by apply Hk|by apply findByKey_move].
Qed.

Lemma debit_records_key now cfg id amount type rt rid key tx s row s' :
  debitWallet now cfg id amount type rt rid key tx s = (Ok row, s') ->
  findByKey key s' = Some row.
Proof.
  unfold debitWallet. rewrite require_bind. destruct (negb _); [|done].
  intros H. assert (executeDebit now cfg id amount type rt rid key s = (Ok row, s'))
    as [[-> Hk]|(w & row' & _ & [= <-] & _ & Hk & _ & _ & _ & _ & _ & <- & ->)]%executeDebit_cases
    by (destruct tx; [done|by apply transaction_Ok]); [by apply Hk|by apply findByKey_move].
Qed.

Lemma credit_replay now cfg id amount type bucket rt rid key exp tx s row :
  findByKey key s = Some row -> 0 < amount ->
  creditWallet now cfg id amount type bucket rt rid key exp tx s = (Ok row, s).
Proof.
  intros Hk Hpos%d_le_false. unfold creditWallet. rewrite Hpos. simpl. rewrite ret_bind.
  assert (executeCredit now cfg id amount type bucket rt rid key exp s = (Ok row, s)) as E
    by (unfold executeCredit; step; by rewrite Hk).
  by destruct tx; unfold transaction; rewrite E.
Qed.

Lemma debit_replay now cfg id amount type rt rid key tx s row :
  findByKey key s = Some row -> 0 < amount ->
  debitWallet now cfg id amount type rt rid key tx s = (Ok row, s).
Proof.
  intros Hk Hpos%d_le_false. unfold debitWallet. rewrite Hpos. simpl. rewrite ret_bind.
  assert (executeDebit now cfg id amount type rt rid key s = (Ok row, s)) as E
    by (unfold executeDebit; step; by rewrite Hk).
  by destruct tx; unfold transaction; rewrite E.
Qed.

(** An idempotency key moves money once: after a credit or a debit under a key has succeeded, any later positive credit or debit under the same key, on whatever wallet and for whatever amount, returns the row of the first and changes nothing. *)
Theorem wallet_key_moves_money_once now cfg id amount type bucket rt rid key exp tx
    now' cfg' id' amount' type' bucket' rt' rid' exp' tx' s row s' :
  creditWallet now cfg id amount type bucket rt rid key exp tx s = (Ok row, s') \/
  debitWallet now cfg id amount type rt rid key tx s = (Ok row, s') ->
  0 < amount' ->
  creditWallet now' cfg' id' amount' type' bucket' rt' rid' key exp' tx' s' = (Ok row, s') /\
  debitWallet now' cfg' id' amount' type' rt' rid' key tx' s' = (Ok row, s').
Proof.
  intros [H%credit_records_key|H%debit_records_key] Hpos; split;
    by (apply credit_replay || apply debit_replay).
Qed.

(** What the wallet may pay towards a booking is at most the available balance, the booking total, the configured percentage of it, what is left of the daily limit and what the customer asked for; the promotional share stays within the promotional balance and its per-booking cap, and both shares add up to the total. *)
Theorem usableSplit_bounds config w usedToday bookingTotal requested :
  0 <= w_availableBalance w -> 0 <= w_promoBalance w -> 0 <= bookingTotal ->
  0 <= cfg_maxWalletPaymentPercentage config -> 0 <= cfg_maxPromoCreditPerBooking config ->
  (forall r, requested = Some r -> 0 <= r) ->
  let '(target, promo, real) := usableSplit config w usedToday bookingTotal requested in
  0 <= target /\ target <= w_availableBalance w /\ target <= bookingTotal /\
  target <= bookingTotal * num_or (cfg_maxWalletPaymentPercentage config) 100 / 100 /\
  target <= d_max 0 (num_or (cfg_maxDailyWalletUsage config) 50000 - usedToday) /\
  (forall r, requested = Some r -> target <= r) /\
  promo + real == target /\ 0 <= real /\ 0 <= promo <= w_promoBalance w /\
  promo <= num_or (cfg_maxPromoCreditPerBooking config) 5000.
Proof.
  intros Ha Hp Hb Hpct Hcap Hreq.
  assert (forall n d, 0 <= n -> 0 <= d -> 0 <= num_or n d) as Hor
    by (intros n d; unfold num_or; by destruct (Qeq_bool n 0)).
  unfold usableSplit. cbv zeta.
  pose proof (Hor _ 100 Hpct ltac:(lra)) as H1. pose proof (Hor _ 5000 Hcap ltac:(lra)) as H2.
  set (pct := num_or _ 100) in *. set (cap := num_or _ 5000) in *.
  set (daily := d_max _ _).
  assert (0 <= daily) as H3 by (unfold daily; destruct (d_max_spec 0
    (num_or (cfg_maxDailyWalletUsage config) 50000 - usedToday)) as [[? ->]|[? ->]]; lra).
  assert (0 <= bookingTotal * pct / 100) as H4
    by (apply Qle_shift_div_l; [lra|]; rewrite Qmult_0_l; by apply Qmult_le_0_compat).
  clearbody pct cap daily. set (byPct := bookingTotal * pct / 100) in *. clearbody byPct.
  set (possible := d_min (d_min (d_min (w_availableBalance w) bookingTotal) byPct) daily).
  assert (0 <= possible /\ possible <= w_availableBalance w /\ possible <= bookingTotal /\
          possible <= byPct /\ possible <= daily) as Hpos.
  { unfold possible.
    destruct (d_min_spec (w_availableBalance w) bookingTotal) as [[? ->]|[? ->]];
      (match goal with |- context [d_min (d_min ?x byPct) daily] =>
         destruct (d_min_spec x byPct) as [[? ->]|[? ->]] end);
      (match goal with |- context [d_min ?x daily] =>
         destruct (d_min_spec x daily) as [[? ->]|[? ->]] end); repeat split; lra. }
  clearbody possible.
  assert (exists target, match requested with Some r => d_min r possible | None => possible end = target /\
          0 <= target <= possible /\ forall r, requested = Some r -> target <= r) as (target & -> & Ht & Htr).
  { destruct requested as [r|]; eexists; (split; [done|]).
    - pose proof (Hreq r eq_refl). split; [|intros ? [= <-]];
        destruct (d_min_spec r possible) as [[? ->]|[? ->]]; lra.
    - split; [lra|done]. }
  destruct (d_min_spec (w_promoBalance w) cap) as [[? ->]|[? ->]];
    (match goal with |- context [d_min target ?x] =>
       destruct (d_min_spec target x) as [[? ->]|[? ->]] end); repeat split; try done; lra.
Qed.

Lemma ledger_zoom_frame {A} (m : M LedgerTable A) s r s' :
  zoom ws_ledger set_wledger m s = (r, s') ->
  ws_wallets s' = ws_wallets s /\ ws_entries s' = ws_entries s.
Proof. unfold zoom. destruct (m (ws_ledger s)). intros. by simplify_eq/=. Qed.

Lemma deposit_journal_frame b (m : M LedgerTable unit) s :
  exists s', when b (try_catch (zoom ws_ledger set_wledger m) (fun _ => mret tt)) s = (Ok tt, s') /\
    ws_wallets s' = ws_wallets s /\ ws_entries s' = ws_entries s.
Proof.
  destruct b; [|by exists s]. unfold when, try_catch.
  destruct (zoom ws_ledger set_wledger m s) as [[[]|e] s1] eqn:E;
    apply ledger_zoom_frame in E; by exists s1.
Qed.

Lemma verifyDeposit_records_key now mock accepted valid cfg hl fetched fid fj uid oid pid s row s' :
  verifyDepositPayment now mock accepted valid cfg hl fetched fid fj uid oid pid s = (Ok row, s') ->
  findByKey ("wallet_deposit_" +:+ pid) s' = Some row.
Proof.
  unfold verifyDepositPayment. intros (u & s1 & _ & (p & s2 & _ & H)%bind_Ok)%bind_Ok.
  apply bind_Ok in H as (u' & s3 & _ & H).
  destruct (depositAmountOf mock fetched oid) as [a|e]; [|done].
  apply bind_Ok in H as (row' & s4 & Hc%credit_records_key & (u'' & s5 & Hj & [= -> <-])%bind_Ok).
  match type of Hj with when ?b (try_catch (zoom _ _ ?m) _) _ = _ =>
    destruct (deposit_journal_frame b m s4) as (s6 & Hj' & _ & He) end.
  rewrite Hj' in Hj. simplify_eq. unfold findByKey in *. by rewrite He.
Qed.

Lemma open_frame fid uid s r s' :
  getOrCreateWallet fid uid s = (r, s') -> fresh_wallet_id fid s ->
  ws_entries s' = ws_entries s /\
  (forall id w, ws_wallets s !! id = Some w -> ws_wallets s' !! id = Some w).
Proof.
  unfold getOrCreateWallet. step. destruct (findWalletByUser uid s); step; intros H Hf;
    simplify_eq/=; [done|]. split; [done|]. intros id w Hid.
  rewrite lookup_insert_ne; [done|]. intros ->. unfold fresh_wallet_id in Hf. congruence.
Qed.

Lemma getOrCreateWallet_row fid u s p s' : getOrCreateWallet fid u s = (Ok p, s') ->
  ws_wallets s' !! fst p = Some (snd p) /\ w_userId (snd p) = u /\ ws_entries s' = ws_entries s.
Proof.
  unfold getOrCreateWallet. step. destruct (findWalletByUser u s) as [q|] eqn:E; step; intros [= <- <-].
  - unfold findWalletByUser in E. apply find_some in E as [Hin Hu%String.eqb_eq]. split_and!; [|done|done].
    apply elem_of_map_to_list, list_elem_of_In. by destruct q.
  - cbn. by rewrite lookup_insert_eq.
Qed.

Lemma depositAmount_pos_or_throw now cfg id a bucket rt rid key exp s row :
  findByKey key s = Some row ->
  exists r, creditWallet now cfg id a LT_CUSTOMER_DEPOSIT bucket rt rid key exp false s = (r, s) /\
    (r = Ok row \/ r = Throw BadRequestException).
Proof.
  intros Hk. destruct (d_le a 0) eqn:E.
  - exists (Throw BadRequestException). unfold creditWallet. by rewrite E; auto.
  - exists (Ok row). dec_bool. split; [by apply credit_replay|by left].
Qed.

Lemma verifyDeposit_replay now mock accepted valid cfg hl fetched fid fj uid oid pid s row r s' :
  findByKey ("wallet_deposit_" +:+ pid) s = Some row -> fresh_wallet_id fid s ->
  verifyDepositPayment now mock accepted valid cfg hl fetched fid fj uid oid pid s = (r, s') ->
  ws_entries s' = ws_entries s /\
  (forall id w, ws_wallets s !! id = Some w -> ws_wallets s' !! id = Some w) /\
  (forall row', r = Ok row' -> row' = row).
Proof.
  intros Hk Hf. unfold verifyDepositPayment. rewrite require_bind.
  destruct (negb _); [|intros [= <- <-]; done]. rewrite bind_run.
  destruct (getOrCreateWallet fid uid s) as [[p|e] s1] eqn:Eo; apply open_frame in Eo as [He Hw];
    try done; [|intros [= <- <-]; done].
  assert (findByKey ("wallet_deposit_" +:+ pid) s1 = Some row) as Hk1
    by (unfold findByKey in *; by rewrite He).
  rewrite require_bind. destruct (_ || _); [|intros [= <- <-]; done].
  destruct (depositAmountOf mock fetched oid) as [a|e]; [|intros [= <- <-]; done].
  rewrite bind_run. destruct (depositAmount_pos_or_throw now cfg (fst p) a BUCKET_REAL_MONEY "PAYMENT"
    (Some pid) _ None _ _ Hk1) as (r1 & -> & [->| ->]); [|intros [= <- <-]; done].
  rewrite bind_run. match goal with |- context [when ?b (try_catch (zoom _ _ ?m) _) s1] =>
    destruct (deposit_journal_frame b m s1) as (s6 & -> & Hw6 & He6) end.
  intros [= <- <-]. rewrite He6, Hw6. split; [done|]. split; [done|]. by intros row' [= ->].
Qed.

(** A gateway payment is credited once: after verifyDepositPayment has succeeded for a payment id, a second call with that payment id, by the same or another user, adds no wallet entry, changes no existing wallet and can only return the first entry. *)
Theorem deposit_credited_once now mock accepted valid cfg hl fetched fid fj uid oid pid
    now' mock' accepted' valid' cfg' hl' fetched' fid' fj' uid' oid' s row s' r s'' :
  verifyDepositPayment now mock accepted valid cfg hl fetched fid fj uid oid pid s = (Ok row, s') ->
  verifyDepositPayment now' mock' accepted' valid' cfg' hl' fetched' fid' fj' uid' oid' pid s' = (r, s'') ->
  fresh_wallet_id fid' s' ->
  ws_entries s'' = ws_entries s' /\
  (forall id w, ws_wallets s' !! id = Some w -> ws_wallets s'' !! id = Some w) /\
  (forall row', r = Ok row' -> row' = row).
Proof.
  intros H1 H2 Hf. apply verifyDeposit_records_key in H1.
  by eapply verifyDeposit_replay.
Qed.
End properties.

(** *** Concrete runs *)
Definition sample_day (now : Z) : string := pretty (now / 86400000)%Z.
Definition opened : WalletStore := (getOrCreateWallet "w1" "u1" empty_store).2.
Definition deposit_run (s : WalletStore) : result WalletLedgerEntry * WalletStore :=
  verifyDepositPayment 0 true true false None true None "w1" "j1" "u1" "order_1" "pay_1" s.
Definition deposited : WalletStore := (deposit_run empty_store).2.
Definition promo_of (id : string) (s : WalletStore) : option Q :=
  option_map w_promoBalance (ws_wallets s !! id).

Lemma fresh_empty id : fresh_wallet_id id empty_store.
Proof. apply lookup_empty. Qed.

Lemma deposited_reachable isoDay : rtc (wallet_step isoDay) empty_store deposited.
Proof.
  apply rtc_once. eapply step_deposit; [apply (fresh_empty "w1")|].
  unfold deposited. apply surjective_pairing.
Qed.

Lemma reachable_wallets_reconcile_witness :
  exists w, ws_wallets deposited !! "w1" = Some w /\
    exists rec, reconcileWallet "w1" deposited = (Ok rec, deposited) /\ rec_isMatched rec = true.
Proof.
  destruct (ws_wallets deposited !! "w1") as [w|] eqn:E; [|vm_compute in E; discriminate E].
  exists w. split; [reflexivity|].
  exact (proj2 (proj2 (proj2 (proj2
    (reachable_wallets_reconcile sample_day _ _ _ (deposited_reachable sample_day) E))))).
Defined.

Lemma debitWallet_spec_witness :
  exists w, ws_wallets deposited !! "w1" = Some w /\
    ((300 <= 0 \/ w_availableBalance w < 300) ->
     debitWallet 1 None "w1" 300 LT_CHECKOUT_DEBIT "BOOKING" None "k" false deposited =
       (Throw BadRequestException, deposited)).
Proof.
  destruct (ws_wallets deposited !! "w1") as [w|] eqn:E; [|vm_compute in E; discriminate E].
  exists w. split; [reflexivity|].
  refine (proj1 (debitWallet_spec 1 None "w1" 300 LT_CHECKOUT_DEBIT "BOOKING" None "k" false
    deposited w _ _ E _ _ _)).
  - exact (reachable_store_ok sample_day _ (deposited_reachable sample_day)).
  - exists 30000%Z. reflexivity.
  - vm_compute in E. injection E as <-. reflexivity.
  - reflexivity.
  - vm_compute. reflexivity.
Defined.

Definition credit_100 : M WalletStore WalletLedgerEntry :=
  creditWallet 5 None "w1" 100 LT_REFERRAL_REWARD BUCKET_PROMOTIONAL "REFERRAL" None "key" (Some 10%Z) false.

Lemma wallet_key_moves_money_once_witness :
  exists row s', credit_100 deposited = (Ok row, s') /\
    debitWallet 9 None "w7" 3 LT_CHECKOUT_DEBIT "BOOKING" None "key" false s' = (Ok row, s').
Proof.
  destruct (credit_100 deposited) as [[row|e] s'] eqn:E; [|exfalso; vm_compute in E; discriminate E].
  exists row, s'. split; [reflexivity|]. unfold credit_100 in E.
  exact (proj2 (wallet_key_moves_money_once 5 None "w1" 100 LT_REFERRAL_REWARD BUCKET_PROMOTIONAL
    "REFERRAL" None "key" (Some 10%Z) false 9 None "w7" 3 LT_CHECKOUT_DEBIT BUCKET_REAL_MONEY "BOOKING" None
    None false deposited row s' (or_introl E) ltac:(lra))).
Defined.

Definition sample_wallet (real promo : Q) : Wallet :=
  {| w_userId := "u1"; w_availableBalance := real + promo; w_lockedBalance := 0;
     w_realBalance := real; w_promoBalance := promo; w_status := WS_ACTIVE |}.

Lemma usableSplit_bounds_witness :
  usableSplit defaultWalletConfig (sample_wallet 700 300) 0 500 None = (500, 300, 500 - 300) /\
  let '(target, _, _) := usableSplit defaultWalletConfig (sample_wallet 700 300) 0 500 None in
  target <= 500.
Proof.
  split; [reflexivity|].
  pose proof (usableSplit_bounds defaultWalletConfig (sample_wallet 700 300) 0 500 None
    ltac:(simpl; lra) ltac:(simpl; lra) ltac:(simpl; lra) ltac:(simpl; lra) ltac:(simpl; lra)
    ltac:(intros r Hr; discriminate Hr)) as H.
  destruct (usableSplit _ _ _ _ _) as [[t p] r]. exact (proj1 (proj2 (proj2 H))).
Defined.

Lemma deposit_credited_once_witness :
  exists row r s'', deposit_run empty_store = (Ok row, deposited) /\
    verifyDepositPayment 7 true true false None true None "w2" "j2" "u2" "order_2" "pay_1" deposited =
      (r, s'') /\ ws_entries s'' = ws_entries deposited.
Proof.
  destruct (deposit_run empty_store) as [[row|e] s'] eqn:E; [|exfalso; vm_compute in E; discriminate E].
  assert (s' = deposited) as -> by (unfold deposited; rewrite E; reflexivity).
  destruct (verifyDepositPayment 7 true true false None true None "w2" "j2" "u2" "order_2" "pay_1" deposited)
    as [r s''] eqn:E2.
  exists row, r, s''. split; [reflexivity|]. split; [reflexivity|].
  unfold deposit_run in E. eapply proj1, deposit_credited_once; [exact E|exact E2|vm_compute; reflexivity].
Defined.

(** *** What the expiry, the promotional cap and the adjustments really do *)
Definition promo_credit (now : Z) (amount : Q) (key : string) (expiresAt : option Z)
    : M WalletStore WalletLedgerEntry :=
  creditWallet now None "w1" amount LT_REFERRAL_REWARD BUCKET_PROMOTIONAL "REFERRAL" None key expiresAt false.
Definition checkout_debit (now : Z) (amount : Q) (key : string) : M WalletStore WalletLedgerEntry :=
  debitWallet now None "w1" amount LT_CHECKOUT_DEBIT "BOOKING" None key false.

(** A credit of 500 that expires at 10 is spent in time; a credit of 300
    that never expires is left. *)
Definition spent_then_expired : M WalletStore Q :=
  promo_credit 1 500 "a" (Some 10%Z) ;;
  checkout_debit 2 500 "b" ;;
  promo_credit 3 300 "c" None ;;
  cleanExpiredPromotionalCredits sample_day 20 "w1".

(** The expiry sweep does not look at what was spent: a customer who spent an expiring promotional credit before its date still loses the same amount of other, unexpired promotional money at the next sweep. *)
Theorem expiry_takes_spent_credit :
  exists s, spent_then_expired opened = (Ok 300, s) /\
    option_map (Qeq_bool 0) (promo_of "w1" s) = Some true.
Proof. eexists. split; vm_compute; reflexivity. Qed.

(** Two credits expire on the same UTC day, with a sweep after each. *)
Definition two_sweeps : M WalletStore Q :=
  promo_credit 1 500 "a" (Some 10%Z) ;;
  promo_credit 2 300 "b" (Some 30%Z) ;;
  cleanExpiredPromotionalCredits sample_day 20 "w1" ;;
  cleanExpiredPromotionalCredits sample_day 40 "w1".

(** A second expiry on the same day fails: the sweep's idempotency key holds only the wallet and the day, so when another credit expires later that day the entry violates the unique key, the handler throws and the expired credit stays spendable. *)
Theorem second_sweep_of_a_day_throws :
  exists s, two_sweeps opened = (Throw PrismaP2002, s) /\
    option_map (Qeq_bool 300) (promo_of "w1" s) = Some true.
Proof. eexists. split; vm_compute; reflexivity. Qed.

Definition promo_checkout : M WalletStore WalletLedgerEntry :=
  promo_credit 1 10000 "a" None ;; checkout_debit 2 7000 "b".

(** The per-booking cap on promotional money is computed but not enforced: with 10000 promotional and 1000 real rupees the shares quoted for a booking of 7000 are 5000 promotional and 2000 real, more real money than there is, and the debit of the quoted total takes all 7000 from the promotional bucket. *)
Theorem promo_cap_not_enforced :
  usableSplit defaultWalletConfig (sample_wallet 1000 10000) 0 7000 None = (7000, 5000, 7000 - 5000) /\
  exists row s, promo_checkout deposited = (Ok row, s) /\
    option_map (Qeq_bool 3000) (promo_of "w1" s) = Some true.
Proof. split; [reflexivity|]. do 2 eexists. split; vm_compute; reflexivity. Qed.

(** An administrator removes 1.005 rupees: the two balances and the entry are
    rounded apart. *)
Definition fractional_adjustment : M WalletStore bool :=
  adminAdjustWallet 1 None "admin" "w1" (1005 # 1000) DIR_DEBIT BUCKET_REAL_MONEY (Some "n") ;;
  rec ← reconcileWallet "w1";
  mret (rec_isMatched rec).

(** An adjustment of a fraction of a paisa breaks the wallet: debiting 1.005 rupees from 1000 stores the amount as 1.01 and the balance as 999.00, and the next reconciliation reports a mismatch and freezes the wallet. *)
Theorem fractional_adjustment_freezes :
  exists s, fractional_adjustment deposited = (Ok false, s) /\
    option_map w_status (ws_wallets s !! "w1") = Some WS_FROZEN.
Proof. eexists. split; vm_compute; reflexivity. Qed.
