(* ===== verification/Locks.v ===== *)
(** * Distributed locks: src/car_rental_backend/src/redis/

    [BookingLockService] (booking-lock.service.ts) and
    [DistributedLockService] (distributed-lock.service.ts) against an
    interface of the Redis commands they send.  The Lua script of a release
    is atomic: it is the sequence of its commands.  Tokens ([randomUUID]),
    the clock and the reachability of the server are arguments. *)
From S2P Require Import Prelude.
Open Scope Z_scope.

(** ** The Redis commands used, with their documented behaviour

    [redis_get now k] is what [GET] answers at time [now]; [redis_set_px_nx]
    is [SET k v PX ttl NX], which answers whether it wrote. *)
Class Redis (R : Type) : Type := {
  redis_get : Z -> string -> R -> option string;
  redis_set_px_nx : Z -> string -> string -> Z -> R -> bool * R;
  redis_del : Z -> string -> R -> R;
  set_nx_busy now k v ttl r :
    is_Some (redis_get now k r) -> redis_set_px_nx now k v ttl r = (false, r);
  set_nx_free now k v ttl r :
    redis_get now k r = None -> (redis_set_px_nx now k v ttl r).1 = true;
  set_nx_get now t k v ttl r :
    redis_get now k r = None -> now <= t -> t < now + ttl ->
    redis_get t k (redis_set_px_nx now k v ttl r).2 = Some v;
  set_nx_expired now t k v ttl r :
    redis_get now k r = None -> now + ttl <= t ->
    redis_get t k (redis_set_px_nx now k v ttl r).2 = None;
  set_nx_other now t k k' v ttl r :
    k <> k' -> redis_get t k' (redis_set_px_nx now k v ttl r).2 = redis_get t k' r;
  del_get now t k r : redis_get t k (redis_del now k r) = None;
  del_other now t k k' r : k <> k' -> redis_get t k' (redis_del now k r) = redis_get t k' r;
  get_expires now t k r : now <= t -> redis_get now k r = None -> redis_get t k r = None;
}.

(** A concrete server: values with the time they expire. *)
Abbreviation RedisMem := (gmap string (string * Z)).
Definition mem_get (now : Z) (k : string) (r : RedisMem) : option string :=
  match r !! k with
  | Some (v, expires) => if now <? expires then Some v else None
  | None => None
  end.
Definition mem_set (now : Z) (k v : string) (ttl : Z) (r : RedisMem) : bool * RedisMem :=
  match mem_get now k r with
  | Some _ => (false, r)
  | None => (true, <[k := (v, now + ttl)]> r)
  end.
#[refine, export] Instance redis_mem : Redis RedisMem := {
  redis_get := mem_get;
  redis_set_px_nx := mem_set;
  redis_del now k r := delete k r
}.
Proof.
  all: unfold mem_set.
  - intros now k v ttl r [x ->]. done.
  - intros now k v ttl r ->. done.
  - intros now t k v ttl r -> ??. unfold mem_get; simpl. rewrite lookup_insert_eq.
    by rewrite (proj2 (Z.ltb_lt _ _)).
  - intros now t k v ttl r -> ?. unfold mem_get; simpl. rewrite lookup_insert_eq.
    by rewrite (proj2 (Z.ltb_ge _ _)).
  - intros now t k k' v ttl r Hne. destruct (mem_get now k r); [done|].
    unfold mem_get; simpl. by rewrite lookup_insert_ne.
  - intros now t k r. unfold mem_get. by rewrite lookup_delete_eq.
  - intros now t k k' r Hne. unfold mem_get. by rewrite lookup_delete_ne.
  - intros now t k r Hle. unfold mem_get. destruct (r !! k) as [[v e]|]; [|done].
    destruct (Z.ltb_spec now e), (Z.ltb_spec t e); try done; lia.
Defined.

Section locks.
Context {R : Type} {redis : Redis R}.

(** ** [BookingLockService] *)
Definition getLockKey (carId : string) : string := "lock:car:" +:+ carId.
Definition getCancellationLockKey (bookingId : string) : string :=
  "lock:cancel:booking:" +:+ bookingId.

(** The body both acquisitions share: [SET NX PX], 409 when the key is held,
    503 when the server does not answer. *)
Definition acquireKey (up : bool) (now : Z) (key token : string) (ttlMs : Z) : M R string :=
  if up then
    fun r => match redis_set_px_nx now key token ttlMs r with
             | (true, r') => (Ok token, r')
             | (false, r') => (Throw ConflictException, r')
             end
  else throw ServiceUnavailableException.

Definition acquireLock (up : bool) (now : Z) (carId token : string) (ttlMs : Z) : M R string :=
  acquireKey up now (getLockKey carId) token ttlMs.
Definition acquireCancellationLock (up : bool) (now : Z) (bookingId token : string) (ttlMs : Z)
    : M R string :=
  acquireKey up now (getCancellationLockKey bookingId) token ttlMs.

(** The Lua script: [DEL] only when the value is the caller's token. *)
Definition luaCompareAndDelete (now : Z) (key token : string) : M R bool := fun r =>
  if bool_decide (redis_get now key r = Some token) then (Ok true, redis_del now key r)
  else (Ok false, r).

Definition releaseKey (up : bool) (now : Z) (key token : string) : M R bool :=
  if up then luaCompareAndDelete now key token else throw OtherError.

Definition releaseLock (up : bool) (now : Z) (carId token : string) : M R bool :=
  releaseKey up now (getLockKey carId) token.
Definition releaseCancellationLock (up : bool) (now : Z) (bookingId token : string) : M R bool :=
  releaseKey up now (getCancellationLockKey bookingId) token.

(** ** [DistributedLockService] *)
Record LockHandle : Type := {
  lh_resourceKey : string;
  lh_token : string;
  lh_expiresAt : Z;
}.

Definition acquire (up : bool) (now : Z) (resourceKey token : string) (ttlMs : Z) : M R LockHandle :=
  if up then
    fun r => match redis_set_px_nx now resourceKey token ttlMs r with
             | (true, r') => (Ok {| lh_resourceKey := resourceKey; lh_token := token;
                                    lh_expiresAt := now + ttlMs |}, r')
             | (false, r') => (Throw ConflictException, r')
             end
  else throw OtherError.

Definition release (up : bool) (now : Z) (handle : LockHandle) : M R bool :=
  try_catch (releaseKey up now (lh_resourceKey handle) (lh_token handle)) (fun _ => mret false).

(** [withLock]: [action] runs on a store [S] that holds the server; [later]
    is the time the release is sent. *)
Definition withLock {S A} (server : S -> R) (setServer : R -> S -> S) (up up' : bool)
    (now later : Z) (resourceKey token : string) (ttlMs : Z) (action : M S A) : M S A :=
  handle ← zoom server setServer (acquire up now resourceKey token ttlMs);
  try_finally action (zoom server setServer (release up' later handle ;; mret tt)).
End locks.

(** ** Properties *)
Section lock_laws.
Context {R : Type} {redis : Redis R}.

Lemma acquireKey_busy up now key token ttl holder r :
  redis_get now key r = Some holder ->
  exists e, acquireKey up now key token ttl r = (Throw e, r) /\
    e = if up then ConflictException else ServiceUnavailableException.
Proof.
  intros Hk. unfold acquireKey. destruct up; [|by eexists].
  rewrite set_nx_busy by (by rewrite Hk). by eexists.
Qed.

Lemma acquireKey_holds up now key token ttl r t r' :
  acquireKey up now key token ttl r = (Ok t, r') ->
  t = token /\ redis_get now key r = None /\
  r' = (redis_set_px_nx now key token ttl r).2.
Proof.
  unfold acquireKey. destruct up; [|done].
  destruct (redis_get now key r) as [x|] eqn:E.
  - rewrite set_nx_busy by (by rewrite E). done.
  - destruct (redis_set_px_nx now key token ttl r) as [[] ?]; intros; by simplify_eq.
Qed.

(** Whatever a call does on a key, it leaves every other key as it was. *)
Lemma acquireKey_other up now t key key' token ttl r :
  key <> key' -> redis_get t key' (acquireKey up now key token ttl r).2 = redis_get t key' r.
Proof.
  intros Hne. unfold acquireKey. destruct up; [|done].
  destruct (redis_set_px_nx now key token ttl r) as [[] r'] eqn:E; simpl;
    by rewrite <- (set_nx_other now t key key' token ttl r Hne), E.
Qed.
Lemma releaseKey_other up now t key key' token r :
  key <> key' -> redis_get t key' (releaseKey up now key token r).2 = redis_get t key' r.
Proof.
  intros Hne. unfold releaseKey, luaCompareAndDelete. destruct up; [|done].
  case_bool_decide; simpl; [by apply del_other|done].
Qed.
Lemma releaseKey_foreign up now key token r :
  redis_get now key r <> Some token -> (releaseKey up now key token r).2 = r.
Proof.
  intros Hne. unfold releaseKey, luaCompareAndDelete. destruct up; [|done].
  by rewrite bool_decide_false.
Qed.

(** One call of a client of [BookingLockService]. *)
Inductive lock_call : Type :=
  | CallAcquire (up : bool) (now : Z) (carId token : string) (ttl : Z)
  | CallRelease (up : bool) (now : Z) (carId token : string)
  | CallAcquireCancellation (up : bool) (now : Z) (bookingId token : string) (ttl : Z)
  | CallReleaseCancellation (up : bool) (now : Z) (bookingId token : string).

Definition call_time (c : lock_call) : Z :=
  match c with
  | CallAcquire _ now _ _ _ | CallRelease _ now _ _
  | CallAcquireCancellation _ now _ _ _ | CallReleaseCancellation _ now _ _ => now
  end.
Definition run_call (c : lock_call) (r : R) : R :=
  match c with
  | CallAcquire up now car token ttl => (acquireLock up now car token ttl r).2
  | CallRelease up now car token => (releaseLock up now car token r).2
  | CallAcquireCancellation up now b token ttl => (acquireCancellationLock up now b token ttl r).2
  | CallReleaseCancellation up now b token => (releaseCancellationLock up now b token r).2
  end.
(** A client that does not know the token cannot send it for this car. *)
Definition foreign (carId token : string) (c : lock_call) : Prop :=
  match c with CallRelease _ _ car t => car = carId -> t <> token | _ => True end.

Lemma lock_keys_disjoint carId bookingId : getLockKey carId <> getCancellationLockKey bookingId.
Proof. unfold getLockKey, getCancellationLockKey. by intros H; simplify_eq/=. Qed.

Lemma lock_key_inj carId carId' : getLockKey carId = getLockKey carId' -> carId = carId'.
Proof. unfold getLockKey. simpl. by intros H; simplify_eq. Qed.

Definition held (carId token : string) (from until : Z) (r : R) : Prop :=
  forall t, from <= t < until -> redis_get t (getLockKey carId) r = Some token.

Lemma run_call_held carId token from until c r :
  held carId token from until r -> from <= call_time c < until -> foreign carId token c ->
  held carId token from until (run_call c r).
Proof.
  intros Hh Ht Hf t Hin.
  destruct c as [up now car tok ttl|up now car tok|up now b tok ttl|up now b tok]; simpl in *.
  - destruct (decide (car = carId)) as [->|Hne].
    + destruct (acquireKey_busy up now (getLockKey carId) tok ttl _ r (Hh _ Ht)) as (e & He & _).
      unfold acquireLock. rewrite He. by apply Hh.
    + unfold acquireLock. rewrite acquireKey_other; [by apply Hh|]. by intros ?%lock_key_inj.
  - destruct (decide (car = carId)) as [->|Hne].
    + unfold releaseLock. rewrite releaseKey_foreign; [by apply Hh|].
      rewrite (Hh _ Ht). intros [= E]. by apply Hf.
    + unfold releaseLock. rewrite releaseKey_other; [by apply Hh|]. by intros ?%lock_key_inj.
  - unfold acquireCancellationLock. rewrite acquireKey_other; [by apply Hh|].
    intros H. symmetry in H. by apply lock_keys_disjoint in H.
  - unfold releaseCancellationLock. rewrite releaseKey_other; [by apply Hh|].
    intros H. symmetry in H. by apply lock_keys_disjoint in H.
Qed.

(** C38. Mutual exclusion: once a car lock is acquired, then whatever calls other clients make before its time-to-live runs out, in whatever order and on whatever car or booking, every further acquisition of that car's lock fails (409, or 503 when the coordinator is down) and the holder can still release it. *)
Theorem car_lock_exclusive up now carId token ttl r r0 calls :
  acquireLock up now carId token ttl r = (Ok token, r0) ->
  Forall (fun c => now <= call_time c < now + ttl /\ foreign carId token c) calls ->
  let r1 := fold_left (fun r c => run_call c r) calls r0 in
  forall up' now' token' ttl', now <= now' < now + ttl ->
    acquireLock up' now' carId token' ttl' r1 =
      (Throw (if up' then ConflictException else ServiceUnavailableException), r1) /\
    releaseLock true now' carId token r1 = (Ok true, redis_del now' (getLockKey carId) r1).
Proof.
  intros (_ & Hfree & ->)%acquireKey_holds Hc r1 up' now' token' ttl' Hin.
  assert (held carId token now (now + ttl) r1) as Hh.
  { subst r1. assert (held carId token now (now + ttl)
      (redis_set_px_nx now (getLockKey carId) token ttl r).2) as H0
      by (intros t ?; apply set_nx_get; lia || done).
    revert H0. generalize (redis_set_px_nx now (getLockKey carId) token ttl r).2.
    induction Hc as [|c calls [Ht Hf] _ IH]; simpl; [done|].
    intros r0 H0. by apply IH, run_call_held. }
  specialize (Hh now' Hin). split.
  - destruct (acquireKey_busy up' now' _ token' ttl' _ _ Hh) as (e & He & ->). exact He.
  - unfold releaseLock, releaseKey, luaCompareAndDelete. by rewrite bool_decide_true.
Qed.

(** Only the holder releases: a release with a token that is not the one stored (an expired holder coming back after somebody else acquired the lock) answers false and changes nothing. *)
Theorem stale_release_is_noop up now carId token r :
  redis_get now (getLockKey carId) r <> Some token ->
  releaseLock true now carId token r = (Ok false, r) /\
  (releaseLock up now carId token r).2 = r.
Proof.
  intros Hne. split; [|by apply releaseKey_foreign].
  unfold releaseLock, releaseKey, luaCompareAndDelete. by rewrite bool_decide_false.
Qed.

(** withLock runs the action only when the lock was free and always tries to release it: a busy lock makes it throw 409 without touching the store, and when the action ends, by value or by exception, while the lock is still its own, the key is free afterwards and the action's outcome is returned. *)
Theorem withLock_runs_and_releases {S A} (server : S -> R) (setServer : R -> S -> S)
    now later key token ttl (action : M S A) s :
  (forall r s, server (setServer r s) = r) -> (forall s, setServer (server s) s = s) ->
  (is_Some (redis_get now key (server s)) ->
   withLock server setServer true true now later key token ttl action s = (Throw ConflictException, s)) /\
  (redis_get now key (server s) = None ->
   let s0 := setServer (redis_set_px_nx now key token ttl (server s)).2 s in
   redis_get later key (server (action s0).2) = Some token ->
   exists s', withLock server setServer true true now later key token ttl action s = ((action s0).1, s') /\
     redis_get later key (server s') = None).
Proof.
  intros Hget Hset. unfold withLock. rewrite bind_run. split.
  - intros [x Hk]. unfold zoom at 1, acquire. rewrite set_nx_busy by (by rewrite Hk). by rewrite Hset.
  - cbv zeta. intros Hk Hown. pose proof (set_nx_free now key token ttl (server s) Hk) as Hok.
    unfold zoom at 1, acquire.
    destruct (redis_set_px_nx now key token ttl (server s)) as [b r0]. simpl in *. subst b.
    unfold try_finally. destruct (action (setServer r0 s)) as [res s1]. simpl in *.
    unfold zoom, release, try_catch, releaseKey, luaCompareAndDelete. rewrite bind_run.
    simpl. rewrite bool_decide_true by done. simpl. eexists. split; [done|].
    rewrite Hget. apply del_get.
Qed.
End lock_laws.

Lemma car_lock_exclusive_witness :
  acquireLock true 0 "car1" "A" 10000 (∅ : RedisMem) =
    (Ok "A", {["lock:car:car1" := ("A", 10000)]}) /\
  acquireLock true 9 "car1" "C" 10000 ({["lock:car:car1" := ("A", 10000)]} : RedisMem) =
    (Throw ConflictException, {["lock:car:car1" := ("A", 10000)]}).
Proof.
  split; [reflexivity|].
  refine (proj1 (car_lock_exclusive true 0 "car1" "A" 10000 (∅ : RedisMem) _
    [CallAcquire true 5 "car1" "B" 10000; CallRelease true 7 "car1" "B"] eq_refl _ true 9 "C" 10000 _)).
  - repeat constructor; simpl; try lia; discriminate.
  - lia.
Defined.

Lemma stale_release_is_noop_witness :
  let r : RedisMem := {["lock:car:car1" := ("B", 30000)]} in
  releaseLock true 15000 "car1" "A" r = (Ok false, r).
Proof. refine (proj1 (stale_release_is_noop true 15000 "car1" "A" _ _)). vm_compute. discriminate. Defined.

Lemma withLock_runs_and_releases_witness :
  exists s', withLock (fun s : RedisMem * Z => s.1) (fun r s => (r, s.2)) true true 0 5 "k" "A" 10
      (modify (fun s => (s.1, s.2 + 1)) ;; throw (A:=unit) ConflictException) (∅, 3) =
      (Throw ConflictException, s') /\ redis_get 5 "k" s'.1 = None.
Proof.
  refine (proj2 (withLock_runs_and_releases (fun s : RedisMem * Z => s.1) (fun r s => (r, s.2))
    0 5 "k" "A" 10 _ (∅, 3) _ _) _ _).
  - reflexivity.
  - intros [r z]. reflexivity.
  - reflexivity.
  - vm_compute. reflexivity.
Defined.
