(* ===== verification/HandoverOtp.v ===== *)
(** * Handover one-time passwords: src/car_rental_backend/src/bookings/handover-otp.service.ts

    The store is the [HandoverOtp] table in creation order.  The hash of
    bcrypt, the random number, the clock and the row ids are arguments; the
    notification, whose failure is caught, is not modelled. *)
From S2P Require Import Prelude Schema.
From stdpp Require Import pretty.
Open Scope Z_scope.

Record HandoverOtp : Type := {
  ho_id : string;
  ho_bookingId : string;
  ho_otpType : HandoverOtpType;
  ho_recipientId : string;
  ho_otpHash : string;
  ho_expiresAt : Z;
  ho_verified : bool;
  ho_attemptCount : Z;
}.
Abbreviation OtpTable := (list HandoverOtp).

(** What the service reads of a booking. *)
Record OtpBooking : Type := {
  ob_status : BookingStatus;
  ob_vendorUserId : string;
  ob_customerId : string;
  ob_customer : option string;   (* the id of the customer record *)
}.

(** What bcrypt promises: a hash accepts the password it was made from. *)
Class Bcrypt : Type := {
  hashSync : string -> string;
  compareSync : string -> string -> bool;
  compare_hash raw : compareSync raw (hashSync raw) = true;
}.

Section otp.
Context {bcrypt : Bcrypt}.

Definition OTP_TTL_MS : Z := 15 * 60 * 1000.

Definition activeOtp (bookingId : string) (otpType : HandoverOtpType) (o : HandoverOtp) : bool :=
  String.eqb (ho_bookingId o) bookingId && bool_decide (ho_otpType o = otpType) &&
  negb (ho_verified o).

(** [crypto.randomInt(100000, 999999).toString()] *)
Definition rawOtpOf (randomInt : Z) : string := pretty randomInt.

Definition generateAndSendOtp (now : Z) (freshId : string) (randomInt : Z)
    (found : option OtpBooking) (bookingId : string) (otpType : HandoverOtpType)
    (userId : string) (role : Role) : M OtpTable Z :=
  booking ← from_option_or found NotFoundException;
  let isAdmin := bool_decide (role = ROLE_ADMIN) in
  let isVendor := String.eqb (ob_vendorUserId booking) userId in
  let isCustomer := String.eqb (ob_customerId booking) userId in
  require (isAdmin || isVendor || isCustomer) ForbiddenException ;;
  require (match otpType with
           | OTP_PICKUP => bool_decide (ob_status booking = BS_CONFIRMED)
           | OTP_RETURN => bool_decide (ob_status booking = BS_ONGOING)
           end) BadRequestException ;;
  recipient ← from_option_or (ob_customer booking) NotFoundException;
  modify (filter (fun o => negb (activeOtp bookingId otpType o))) ;;
  modify (fun s => s ++
    [{| ho_id := freshId; ho_bookingId := bookingId; ho_otpType := otpType;
        ho_recipientId := recipient; ho_otpHash := hashSync (rawOtpOf randomInt);
        ho_expiresAt := now + OTP_TTL_MS; ho_verified := false; ho_attemptCount := 0 |}]) ;;
  mret 900.

(** [handoverOtp.findFirst(... orderBy createdAt desc)] *)
Definition findLatest (bookingId : string) (otpType : HandoverOtpType) (s : OtpTable)
    : option HandoverOtp :=
  List.find (activeOtp bookingId otpType) (reverse s).

Definition incrementAttempts (id : string) : OtpTable -> OtpTable :=
  map (fun o => if String.eqb (ho_id o) id then
      {| ho_id := ho_id o; ho_bookingId := ho_bookingId o; ho_otpType := ho_otpType o;
         ho_recipientId := ho_recipientId o; ho_otpHash := ho_otpHash o;
         ho_expiresAt := ho_expiresAt o; ho_verified := ho_verified o;
         ho_attemptCount := ho_attemptCount o + 1 |} else o).

(** The [updateMany] of the last step and its [count]. *)
Definition unverifiedWithId (id : string) (o : HandoverOtp) : bool :=
  String.eqb (ho_id o) id && negb (ho_verified o).
Definition markVerified (id : string) : OtpTable -> OtpTable :=
  map (fun o => if unverifiedWithId id o then
      {| ho_id := ho_id o; ho_bookingId := ho_bookingId o; ho_otpType := ho_otpType o;
         ho_recipientId := ho_recipientId o; ho_otpHash := ho_otpHash o;
         ho_expiresAt := ho_expiresAt o; ho_verified := true;
         ho_attemptCount := ho_attemptCount o |} else o).

(** The checks of [verifyOtp]: another request may run between them and
    [consumeOtp]. *)
Definition checkOtp (now : Z) (bookingId : string) (otpType : HandoverOtpType) (rawOtp : string)
    : M OtpTable string :=
  require (negb (String.eqb rawOtp "") && (String.length (trim rawOtp) =? 6)%nat)
    BadRequestException ;;
  s ← get;
  latestOtp ← from_option_or (findLatest bookingId otpType s) BadRequestException;
  require (now <=? ho_expiresAt latestOtp) BadRequestException ;;
  require (negb (5 <=? ho_attemptCount latestOtp)) BadRequestException ;;
  if compareSync (trim rawOtp) (ho_otpHash latestOtp) then mret (ho_id latestOtp)
  else modify (incrementAttempts (ho_id latestOtp)) ;; throw BadRequestException.

Definition consumeOtp (id : string) : M OtpTable bool :=
  s ← get;
  require (existsb (unverifiedWithId id) s) BadRequestException ;;
  modify (markVerified id) ;;
  mret true.

Definition verifyOtp (now : Z) (bookingId : string) (otpType : HandoverOtpType) (rawOtp : string)
    : M OtpTable bool :=
  id ← checkOtp now bookingId otpType rawOtp;
  consumeOtp id.
End otp.

(** ** Lemmas *)
(** The decimal digits of a six-digit number. *)
Lemma pretty_go_length (k : nat) x s :
  (10 ^ N.of_nat k <= x < 10 ^ N.of_nat (S k))%N ->
  String.length (pretty_N_go x s) = (S k + String.length s)%nat.
Proof.
  revert x s. induction k as [|k IH]; intros x s [Hl Hu].
  - change (1 <= x)%N in Hl. change (x < 10)%N in Hu.
    rewrite pretty_N_go_step by lia. rewrite (N.div_small x 10) by done. by rewrite pretty_N_go_0.
  - rewrite !Nat2N.inj_succ, !N.pow_succ_r' in Hl, Hu.
    rewrite pretty_N_go_step by nia. rewrite IH.
    + simpl. lia.
    + split; [apply N.div_le_lower_bound; lia|].
      apply N.Div0.div_lt_upper_bound. done.
Qed.

Lemma pretty_N_char_not_space x : negb (is_space (pretty_N_char x)) = true.
Proof. unfold pretty_N_char. by repeat case_match. Qed.

Lemma pretty_go_not_space x s :
  all_chars (fun c => negb (is_space c)) s = true ->
  all_chars (fun c => negb (is_space c)) (pretty_N_go x s) = true.
Proof.
  revert s. induction (N.lt_wf_0 x) as [x _ IH]. intros s Hs.
  destruct (decide (x = 0%N)) as [->|Hx]; [by rewrite pretty_N_go_0|].
  rewrite pretty_N_go_step by lia. apply IH; [apply N.div_lt; lia|].
  simpl. by rewrite pretty_N_char_not_space.
Qed.

Lemma rawOtpOf_six n : 100000 <= n < 999999 ->
  trim (rawOtpOf n) = rawOtpOf n /\ String.length (rawOtpOf n) = 6%nat.
Proof.
  intros Hn. unfold rawOtpOf. destruct n as [|p|p]; try lia.
  change (pretty (Z.pos p)) with (pretty_N_go (N.pos p) "").
  split.
  - apply trim_id. by apply pretty_go_not_space.
  - rewrite (pretty_go_length 5); [done|]. simpl. lia.
Qed.

Section otp_laws.
Context {bcrypt : Bcrypt}.

Definition well_formed_code (raw : string) : bool :=
  negb (String.eqb raw "") && (String.length (trim raw) =? 6)%nat.

Lemma findLatest_map b ty (f : HandoverOtp -> HandoverOtp) s :
  (forall o, activeOtp b ty (f o) = activeOtp b ty o) ->
  findLatest b ty (map f s) = option_map f (findLatest b ty s).
Proof.
  intros Hf. unfold findLatest. change (map f s) with (f <$> s). rewrite <- fmap_reverse.
  induction (reverse s) as [|o l IH]; [done|]. simpl. rewrite Hf.
  by destruct (activeOtp b ty o).
Qed.

Lemma findLatest_increment b ty id s :
  exists f, findLatest b ty (incrementAttempts id s) = option_map f (findLatest b ty s) /\
    forall o, ho_otpHash (f o) = ho_otpHash o /\ ho_expiresAt (f o) = ho_expiresAt o /\
      (ho_id o = id -> ho_attemptCount (f o) = ho_attemptCount o + 1).
Proof.
  eexists. split; [apply findLatest_map|].
  - intros o. unfold activeOtp. by destruct (String.eqb (ho_id o) id).
  - intros o. cbv beta. by destruct (String.eqb_spec (ho_id o) id).
Qed.

Lemma findLatest_active b ty s o :
  findLatest b ty s = Some o -> o ∈ s /\ activeOtp b ty o = true.
Proof. intros [Hin Ha]%find_Some_elem. split; [by apply elem_of_reverse|done]. Qed.

Lemma verifyOtp_cases now b ty raw s :
  verifyOtp now b ty raw s =
    match findLatest b ty s with
    | Some o =>
      if well_formed_code raw && (now <=? ho_expiresAt o) && negb (5 <=? ho_attemptCount o) then
        if compareSync (trim raw) (ho_otpHash o) then (Ok true, markVerified (ho_id o) s)
        else (Throw BadRequestException, incrementAttempts (ho_id o) s)
      else (Throw BadRequestException, s)
    | None => (Throw BadRequestException, s)
    end.
Proof.
  unfold verifyOtp, checkOtp, well_formed_code. step.
  destruct (_ && _)%bool; simpl; [|by destruct (findLatest b ty s)].
  step. destruct (findLatest b ty s) as [o|] eqn:Eo; [|done]. step.
  destruct (now <=? ho_expiresAt o); [|done]. step.
  destruct (5 <=? ho_attemptCount o); [done|]. simpl.
  destruct (compareSync _ _); [|done]. step.
  unfold consumeOtp. step. apply findLatest_active in Eo as [Hin Ha].
  assert (existsb (unverifiedWithId (ho_id o)) s = true) as ->; [|done].
  apply existsb_exists. exists o. split; [by apply list_elem_of_In|].
  unfold activeOtp in Ha. apply andb_true_iff in Ha as [_ Hv].
  unfold unverifiedWithId. by rewrite String.eqb_refl.
Qed.

(** What accepting a code means. *)
Definition code_accepted (now : Z) (b : string) (ty : HandoverOtpType) (raw : string)
    (s s' : OtpTable) : Prop :=
  exists o, o ∈ s /\ activeOtp b ty o = true /\ now <= ho_expiresAt o /\ ho_attemptCount o < 5 /\
    compareSync (trim raw) (ho_otpHash o) = true /\ s' = markVerified (ho_id o) s.

Lemma verifyOtp_Ok now b ty raw s v s' :
  verifyOtp now b ty raw s = (Ok v, s') -> code_accepted now b ty raw s s'.
Proof.
  rewrite verifyOtp_cases. destruct (findLatest b ty s) as [o|] eqn:Eo; [|done].
  destruct (_ && _ && _) eqn:E; [|done]. destruct (compareSync _ _) eqn:Ec; [|done].
  intros [= _ <-]. apply andb_true_iff in E as [[_ He]%andb_true_iff Ha].
  apply negb_true_iff, Z.leb_gt in Ha. apply Z.leb_le in He.
  apply findLatest_active in Eo as [Hin Hact]. by exists o.
Qed.

Lemma generate_appends now fid n found bid ty uid role s v s' :
  generateAndSendOtp now fid n found bid ty uid role s = (Ok v, s') ->
  exists rcp, s' = filter (fun o => negb (activeOtp bid ty o)) s ++
    [{| ho_id := fid; ho_bookingId := bid; ho_otpType := ty; ho_recipientId := rcp;
        ho_otpHash := hashSync (rawOtpOf n); ho_expiresAt := now + OTP_TTL_MS;
        ho_verified := false; ho_attemptCount := 0 |}].
Proof.
  unfold generateAndSendOtp. step. destruct found as [bk|]; [|done]. step.
  destruct (_ || _ || _); [|done]. step.
  match goal with |- (if ?b then _ else _) _ = _ -> _ => destruct b | |- (if ?b then _ else _) = _ -> _ => destruct b end; [|done].
  step. destruct (ob_customer bk) as [rcp|]; [|done]. step.
  intros [= _ <-]. by exists rcp.
Qed.

Lemma activeOtp_new b ty id rcp h e n :
  activeOtp b ty {| ho_id := id; ho_bookingId := b; ho_otpType := ty; ho_recipientId := rcp;
    ho_otpHash := h; ho_expiresAt := e; ho_verified := false; ho_attemptCount := n |} = true.
Proof. unfold activeOtp. simpl. by rewrite String.eqb_refl, bool_decide_true. Qed.

Lemma findLatest_none_after_mark b ty s o :
  findLatest b ty (filter (fun o => negb (activeOtp b ty o)) s ++ [o]) = Some o ->
  findLatest b ty (markVerified (ho_id o) (filter (fun o => negb (activeOtp b ty o)) s ++ [o])) = None.
Proof.
  intros [_ Ha]%findLatest_active. unfold findLatest. apply find_None_iff.
  intros x Hx. rewrite elem_of_reverse, list_elem_of_In in Hx. unfold markVerified in Hx.
  apply in_map_iff in Hx as (y & <- & Hy%list_elem_of_In).
  destruct (unverifiedWithId (ho_id o) y) eqn:Eu.
  - unfold activeOtp. simpl. by rewrite andb_false_r.
  - apply elem_of_app in Hy as [[Hy _]%list_elem_of_filter| ->%list_elem_of_singleton].
    + by destruct (activeOtp b ty y).
    + unfold unverifiedWithId in Eu. rewrite String.eqb_refl in Eu. unfold activeOtp in *.
      simpl in Eu. by rewrite Eu, andb_false_r in Ha.
Qed.

(** Round trip: a freshly generated handover code verifies until fifteen minutes later, and exactly once: after that success every further verification for the booking and action is refused until a new code is generated. *)
Theorem generated_otp_verifies_once now fid n found bid ty uid role s v s' later :
  100000 <= n < 999999 ->
  generateAndSendOtp now fid n found bid ty uid role s = (Ok v, s') ->
  later <= now + OTP_TTL_MS ->
  exists s'', verifyOtp later bid ty (rawOtpOf n) s' = (Ok true, s'') /\
    forall t raw, verifyOtp t bid ty raw s'' = (Throw BadRequestException, s'').
Proof.
  intros Hn (rcp & ->)%generate_appends Hl. destruct (rawOtpOf_six n Hn) as [Htrim Hlen].
  set (o := Build_HandoverOtp _ _ _ _ _ _ _ _).
  assert (findLatest bid ty (filter (fun o => negb (activeOtp bid ty o)) s ++ [o]) = Some o) as Hf
    by (unfold findLatest; rewrite reverse_snoc; simpl;
        by rewrite (activeOtp_new bid ty fid rcp _ _ 0 : activeOtp bid ty o = true)).
  exists (markVerified (ho_id o) (filter (fun o => negb (activeOtp bid ty o)) s ++ [o])). split.
  - rewrite verifyOtp_cases, Hf. unfold well_formed_code.
    rewrite Htrim, Hlen. simpl. rewrite compare_hash, (proj2 (Z.leb_le _ _) Hl).
    destruct (rawOtpOf n); [done|]. done.
  - intros t raw. by rewrite verifyOtp_cases, (findLatest_none_after_mark _ _ _ _ Hf).
Qed.

Lemma wrong_code_counts now b ty raw s o :
  findLatest b ty s = Some o -> well_formed_code raw = true -> now <= ho_expiresAt o ->
  compareSync (trim raw) (ho_otpHash o) = false ->
  exists o', (verifyOtp now b ty raw s).1 = Throw BadRequestException /\
    findLatest b ty (verifyOtp now b ty raw s).2 = Some o' /\
    ho_otpHash o' = ho_otpHash o /\ ho_expiresAt o' = ho_expiresAt o /\
    ho_attemptCount o' = (if 5 <=? ho_attemptCount o then ho_attemptCount o else ho_attemptCount o + 1).
Proof.
  intros Hf Hwf Hexp Hc. rewrite verifyOtp_cases, Hf, Hwf, Hc, (proj2 (Z.leb_le _ _) Hexp). simpl.
  destruct (5 <=? ho_attemptCount o); [by exists o|]. simpl.
  destruct (findLatest_increment b ty (ho_id o) s) as (f & -> & Hspec). rewrite Hf.
  destruct (Hspec o) as (Hh & He & Ha). exists (f o). repeat split; auto.
Qed.

(** [verifyOtp] called once per element, ignoring the answers. *)
Definition attempts (b : string) (ty : HandoverOtpType) (codes : list (Z * string)) (s : OtpTable)
    : OtpTable := fold_left (fun s a => (verifyOtp a.1 b ty a.2 s).2) codes s.

(** Brute force: the attempt counter survives the exception, so after five wrong six-character codes against the active code no code at all is accepted any more, not even the right one, until a new one is generated. *)
Theorem otp_locks_after_five b ty codes s o now raw :
  findLatest b ty s = Some o -> 0 <= ho_attemptCount o ->
  Forall (fun a => well_formed_code a.2 = true /\ a.1 <= ho_expiresAt o /\
                   compareSync (trim a.2) (ho_otpHash o) = false) codes ->
  5 <= Z.of_nat (length codes) ->
  verifyOtp now b ty raw (attempts b ty codes s) = (Throw BadRequestException, attempts b ty codes s).
Proof.
  intros Hf Hn Hc Hlen.
  assert (exists o', findLatest b ty (attempts b ty codes s) = Some o' /\ 5 <= ho_attemptCount o')
    as (o' & Hf' & H5).
  { assert (5 <= ho_attemptCount o + Z.of_nat (length codes)) as Hsum by lia. clear Hlen Hn.
    revert s o Hf Hc Hsum. induction codes as [|a codes IH]; intros s o Hf Hc Hsum.
    - exists o. simpl in *. split; [done|lia].
    - apply Forall_cons in Hc as [(Hwf & He & Hw) Hc].
      destruct (wrong_code_counts a.1 b ty a.2 s o Hf Hwf He Hw) as (o1 & _ & Hf1 & Hh & Hx & Ha).
      apply (IH _ o1 Hf1); [by rewrite Hh, Hx|]. simpl in Hsum. rewrite Ha.
      destruct (Z.leb_spec 5 (ho_attemptCount o)); lia. }
  rewrite verifyOtp_cases, Hf', (proj2 (Z.leb_le _ _) H5). simpl. by rewrite andb_false_r.
Qed.

(** Two requests may both pass the checks with the same right code before either writes; the conditional update lets only the first one through. *)
Theorem concurrent_verifications_one_wins now now' b ty raw raw' s id s1 :
  checkOtp now b ty raw s = (Ok id, s1) -> checkOtp now' b ty raw' s1 = (Ok id, s1) ->
  exists s2, consumeOtp id s1 = (Ok true, s2) /\ consumeOtp id s2 = (Throw BadRequestException, s2).
Proof.
  intros _ Hcheck. unfold checkOtp in Hcheck. revert Hcheck. step.
  destruct (_ && _)%bool; [|done]. step. destruct (findLatest b ty s1) as [o|] eqn:Eo; [|done]. step.
  destruct (now' <=? _); [|done]. step. destruct (negb _); [|done]. step.
  destruct (compareSync _ _); [|step; done]. step. intros [= <-].
  apply findLatest_active in Eo as [Hin Ha].
  assert (existsb (unverifiedWithId (ho_id o)) s1 = true) as Hex.
  { apply existsb_exists. exists o. split; [by apply list_elem_of_In|].
    unfold activeOtp in Ha. apply andb_true_iff in Ha as [_ Hv].
    unfold unverifiedWithId. by rewrite String.eqb_refl. }
  exists (markVerified (ho_id o) s1). unfold consumeOtp. step. rewrite Hex. simpl. split; [done|].
  assert (existsb (unverifiedWithId (ho_id o)) (markVerified (ho_id o) s1) = false) as ->; [|done].
  apply not_true_iff_false. intros (x & Hx & Hu)%existsb_exists. unfold markVerified in Hx.
  apply in_map_iff in Hx as (y & <- & _). destruct (unverifiedWithId (ho_id o) y) eqn:Ey.
  - unfold unverifiedWithId in Hu. simpl in Hu. by rewrite andb_false_r in Hu.
  - congruence.
Qed.

(** A pickup code cannot be requested in [HANDOVER_READY] nor a return code
    in [RETURN_PENDING], the statuses the lifecycle leaves on it. *)
Lemma no_otp_once_ready now fid n bk bid ty uid role s :
  ob_status bk = BS_HANDOVER_READY \/ ob_status bk = BS_RETURN_PENDING ->
  exists e, generateAndSendOtp now fid n (Some bk) bid ty uid role s = (Throw e, s).
Proof.
  intros H. unfold generateAndSendOtp. step. destruct (_ || _ || _); [|by eexists]. step.
  destruct ty; (rewrite bool_decide_false; [by eexists|destruct H as [-> | ->]; done]).
Qed.
End otp_laws.

(** ** Concrete runs *)
Definition plain_bcrypt : Bcrypt :=
  {| hashSync raw := "#" +:+ raw; compareSync raw h := String.eqb ("#" +:+ raw) h;
     compare_hash raw := String.eqb_refl _ |}.
Definition sample_booking : OtpBooking :=
  {| ob_status := BS_CONFIRMED; ob_vendorUserId := "v"; ob_customerId := "c"; ob_customer := Some "c" |}.
Definition generated : OtpTable :=
  (generateAndSendOtp (bcrypt := plain_bcrypt) 0 "o1" 123456 (Some sample_booking) "b1" OTP_PICKUP "c" ROLE_CUSTOMER []).2.

Lemma generated_otp_verifies_once_witness :
  exists s'', verifyOtp (bcrypt := plain_bcrypt) 60000 "b1" OTP_PICKUP "123456" generated = (Ok true, s'') /\
    forall t raw, verifyOtp (bcrypt := plain_bcrypt) t "b1" OTP_PICKUP raw s'' = (Throw BadRequestException, s'').
Proof.
  refine (generated_otp_verifies_once (bcrypt := plain_bcrypt) 0 "o1" 123456 (Some sample_booking) "b1"
    OTP_PICKUP "c" ROLE_CUSTOMER [] 900 generated 60000 _ _ _).
  - lia.
  - reflexivity.
  - unfold OTP_TTL_MS. lia.
Defined.

Lemma otp_locks_after_five_witness :
  let wrong := repeat (1, "000000") 5 in
  verifyOtp (bcrypt := plain_bcrypt) 2 "b1" OTP_PICKUP "123456" (attempts (bcrypt := plain_bcrypt) "b1" OTP_PICKUP wrong generated) =
    (Throw BadRequestException, attempts (bcrypt := plain_bcrypt) "b1" OTP_PICKUP wrong generated).
Proof.
  destruct (findLatest "b1" OTP_PICKUP generated) as [o|] eqn:E; [|discriminate E].
  refine (otp_locks_after_five (bcrypt := plain_bcrypt) "b1" OTP_PICKUP _ generated o 2 "123456" E _ _ _);
    vm_compute in E; injection E as <-; simpl; try lia.
  repeat constructor; vm_compute; discriminate.
Defined.

Lemma concurrent_verifications_one_wins_witness :
  exists s2, consumeOtp "o1" generated = (Ok true, s2) /\ consumeOtp "o1" s2 = (Throw BadRequestException, s2).
Proof.
  exact (concurrent_verifications_one_wins (bcrypt := plain_bcrypt) 5 6 "b1" OTP_PICKUP "123456" "123456"
    generated "o1" generated eq_refl eq_refl).
Defined.
