(* ===== verification/CancellationPolicy.v ===== *)
(** * Cancellation fees: src/car_rental_backend/src/bookings/cancellation-policy.service.ts

    Dates are milliseconds, amounts arrive as [Decimal]s and are computed with
    as JavaScript numbers.  Tier descriptions are display text and left out. *)
From S2P Require Import Prelude JsNumber Decimal Schema.
Open Scope Z_scope.
Open Scope Q_scope.

Record CancellationTier : Type := {
  ct_minHoursBeforePickup : Q;
  ct_feePercent : Q;
  ct_tier : string;
}.
(** [cm_tiers] is [None] when the configured value is not an array, and
    [cm_afterStartFeePercent] when it is not a number. *)
Record CancellationMatrixConfig : Type := {
  cm_tiers : option (list CancellationTier);
  cm_afterStartFeePercent : option Q;
  cm_afterStartTier : option string;
}.

Definition DEFAULT_TIERS : list CancellationTier :=
  [{| ct_minHoursBeforePickup := 24; ct_feePercent := 0; ct_tier := "FULL_REFUND_FREE_CANCELLATION" |};
   {| ct_minHoursBeforePickup := 6; ct_feePercent := 25; ct_tier := "MODERATE_CANCELLATION" |};
   {| ct_minHoursBeforePickup := 0; ct_feePercent := 50; ct_tier := "LATE_CANCELLATION" |}].
Definition DEFAULT_CANCELLATION_MATRIX : CancellationMatrixConfig :=
  {| cm_tiers := Some DEFAULT_TIERS; cm_afterStartFeePercent := Some 100;
     cm_afterStartTier := Some "NO_REFUND_AFTER_START" |}.

Record CalculateCancellationParams : Type := {
  cp_startDate : Z;
  cp_cancellationTime : Z;
  cp_amountPaid : Q;
  cp_depositAmount : option Q;
  cp_actorRole : Role;
  cp_isAdminOverride : bool;
  cp_isPendingConfirmation : bool;
  cp_cancellationMatrix : option CancellationMatrixConfig;
}.

(** The amounts [cancellationFee] and [refundAmount] are [Decimal]s of a
    number printed with two digits: the digits printed. *)
Record CancellationCalculationResult : Type := {
  cr_tier : string;
  cr_hoursRemaining : Q;
  cr_cancellationFeePercent : Q;
  cr_cancellationFee : Q;
  cr_refundAmountPercent : Q;
  cr_refundAmount : Q;
  cr_refundAmountInPaise : Z;
  cr_isEligibleForRefund : bool;
}.

(** [[...tiers].sort((a, b) => b.min - a.min)]: a stable sort. *)
Fixpoint insertTier (t : CancellationTier) (l : list CancellationTier) : list CancellationTier :=
  match l with
  | [] => [t]
  | u :: l' =>
    if js_le (ct_minHoursBeforePickup u) (ct_minHoursBeforePickup t) then t :: l
    else u :: insertTier t l'
  end.
Definition sortTiers (l : list CancellationTier) : list CancellationTier :=
  fold_right insertTier [] l.

Definition tierMatches (hoursRemaining : Q) (t : CancellationTier) : bool :=
  if Qeq_bool (ct_minHoursBeforePickup t) 24 then js_lt 24 hoursRemaining
  else js_le (ct_minHoursBeforePickup t) hoursRemaining.

(** Hours to pickup, to two decimals. *)
Definition hoursRemainingOf (startDate cancellationTime : Z) : Q :=
  js_toFixed_num 2 (js_div (inject_Z (startDate - cancellationTime)) 3600000).

Definition afterStart (m : CancellationMatrixConfig) : string * Q * Q :=
  let feePercent := default 100 (cm_afterStartFeePercent m) in
  (str_or (cm_afterStartTier m) "NO_REFUND_AFTER_START", feePercent,
   js_max 0 (js_sub 100 feePercent)).

(** The tier, the fee and the refund percentage of a cancellation. *)
Definition selectTier (p : CalculateCancellationParams) (hoursRemaining : Q) : string * Q * Q :=
  let m := default DEFAULT_CANCELLATION_MATRIX (cp_cancellationMatrix p) in
  if cp_isPendingConfirmation p then ("PENDING_CONFIRMATION_FULL_REFUND", 0, 100)
  else if bool_decide (cp_actorRole p = ROLE_VENDOR) then ("VENDOR_CANCELLED", 0, 100)
  else if bool_decide (cp_actorRole p = ROLE_ADMIN) && cp_isAdminOverride p then
    ("ADMIN_OVERRIDE_FULL_REFUND", 0, 100)
  else if js_lt hoursRemaining 0 then afterStart m
  else
    let tiers := match cm_tiers m with Some l => sortTiers l | None => DEFAULT_TIERS end in
    match List.find (tierMatches hoursRemaining) tiers with
    | Some t => (ct_tier t, ct_feePercent t, js_max 0 (js_sub 100 (ct_feePercent t)))
    | None => afterStart m
    end.

Definition calculateCancellation (p : CalculateCancellationParams)
    : CancellationCalculationResult :=
  let paidNumber := rnd (cp_amountPaid p) in
  let depositNumber := rnd (default 0 (cp_depositAmount p)) in
  let fareNumber := js_max 0 (js_sub paidNumber depositNumber) in
  let hoursRemaining := hoursRemainingOf (cp_startDate p) (cp_cancellationTime p) in
  let '(tier, feePercent, refundPercent) := selectTier p hoursRemaining in
  let feeDigits := js_toFixed 2 (js_div (js_mul fareNumber feePercent) 100) in
  let feeAmountNumber := js_toFixed_num 2 (js_div (js_mul fareNumber feePercent) 100) in
  let refundDigits := js_toFixed 2 (js_sub paidNumber feeAmountNumber) in
  let refundAmountNumber := js_toFixed_num 2 (js_sub paidNumber feeAmountNumber) in
  {| cr_tier := tier; cr_hoursRemaining := hoursRemaining;
     cr_cancellationFeePercent := feePercent;
     cr_cancellationFee := inject_Z feeDigits / 100;
     cr_refundAmountPercent := refundPercent;
     cr_refundAmount := inject_Z refundDigits / 100;
     cr_refundAmountInPaise := js_round (js_mul refundAmountNumber 100);
     cr_isEligibleForRefund := js_lt 0 refundAmountNumber |}.

(** [configured]: what the configuration service answers, if there is one and
    the call does not throw. *)
Definition calculateCancellationWithConfig (configured : option CancellationMatrixConfig)
    (p : CalculateCancellationParams) : CancellationCalculationResult :=
  match cp_cancellationMatrix p with
  | Some _ => calculateCancellation p
  | None =>
    let matrix :=
      match configured with
      | Some c => match cm_tiers c with
                  | Some (_ :: _) => c
                  | _ => DEFAULT_CANCELLATION_MATRIX
                  end
      | None => DEFAULT_CANCELLATION_MATRIX
      end in
    calculateCancellation
      {| cp_startDate := cp_startDate p; cp_cancellationTime := cp_cancellationTime p;
         cp_amountPaid := cp_amountPaid p; cp_depositAmount := cp_depositAmount p;
         cp_actorRole := cp_actorRole p; cp_isAdminOverride := cp_isAdminOverride p;
         cp_isPendingConfirmation := cp_isPendingConfirmation p;
         cp_cancellationMatrix := Some matrix |}
  end.

(** ** Amounts *)

(** Amounts up to a billion rupees: the [Decimal(10, 2)] columns hold less
    than a tenth of that. *)
Definition amount (p : Z) : Prop := (0 <= p <= 10 ^ 11)%Z.

Lemma amount_money p : amount p -> money p.
Proof. unfold amount, money. lia. Qed.

Lemma amount_bounds p : amount p -> 0 <= inject_Z p / 100 <= 1000000000.
Proof.
  intros [H0 H1]. rewrite Zle_Qle in H0, H1. change (inject_Z 0) with 0 in H0.
  change (inject_Z (10 ^ 11)) with 100000000000 in H1.
  assert (100 * (inject_Z p / 100) == inject_Z p) by field. lra.
Qed.

Lemma rnd_near x y b e :
  Qabs (x - y) <= e -> Qabs x <= b -> Qabs (rnd x - y) <= e + b * pow2 (-53).
Proof.
  intros He Hb%rnd_close. apply Qabs_Qle_condition in He, Hb. apply Qabs_Qle_condition. lra.
Qed.

Definition eps : Q := 1 # 8000000.
Lemma eps_ok : 1000000001 * pow2 (-53) <= eps.
Proof. vm_compute. discriminate. Qed.
Lemma eps_ok_100 : 100000000100 * pow2 (-53) <= 100 * eps.
Proof. vm_compute. discriminate. Qed.

Lemma rupees_close p : amount p -> Qabs (rupees p - inject_Z p / 100) <= eps.
Proof.
  intros H%amount_bounds. pose proof eps_ok.
  assert (Qabs (inject_Z p / 100) <= 1000000001) as Hb by (apply Qabs_Qle_condition; lra).
  pose proof (rnd_close _ _ Hb). unfold rupees. lra.
Qed.

Lemma fare_close p d : amount p -> amount d -> (d <= p)%Z ->
  Qabs (js_max 0 (js_sub (rupees p) (rupees d)) - inject_Z (p - d) / 100) <= 3 * eps.
Proof.
  intros Hp Hd Hle. pose proof (amount_bounds _ Hp). pose proof (amount_bounds _ Hd).
  assert (amount (p - d)) as Hpd%amount_bounds by (unfold amount in *; lia).
  pose proof (rupees_close _ Hp) as E1. pose proof (rupees_close _ Hd) as E2.
  apply Qabs_Qle_condition in E1, E2. unfold eps in *.
  assert (inject_Z (p - d) / 100 == inject_Z p / 100 - inject_Z d / 100) as Hsub
    by (rewrite inject_Z_sub; field).
  assert (Qabs (js_sub (rupees p) (rupees d) - inject_Z (p - d) / 100) <=
          2 * eps + 1000000001 * pow2 (-53)) as H1
    by (apply rnd_near; apply Qabs_Qle_condition; unfold eps; lra).
  pose proof eps_ok. apply Qabs_Qle_condition in H1. unfold eps in *. apply Qabs_Qle_condition.
  unfold js_max. destruct (Qle_bool 0 _) eqn:E; [lra|].
  assert (js_sub (rupees p) (rupees d) < 0)
    by (apply Qnot_le_lt; intros HH%Qle_bool_iff; congruence). lra.
Qed.

(** The percentage of an amount, in whole paise. *)
Lemma percent_close x a f : 0 <= a <= 1000000000 -> (0 <= f <= 100)%Z ->
  Qabs (x - a) <= 3 * eps ->
  Qabs (js_div (js_mul x (inject_Z f)) 100 - a * inject_Z f / 100) <= 5 * eps + (1 # 100000000).
Proof.
  intros Ha Hf Hx. destruct Hf as [Hf0 Hf1]. rewrite Zle_Qle in Hf0, Hf1.
  change (inject_Z 0) with 0 in Hf0. change (inject_Z 100) with 100 in Hf1.
  set (F := inject_Z f) in *. apply Qabs_Qle_condition in Hx. unfold eps in *.
  assert (0 <= a * F <= 100000000000) as HaF by (split; nra).
  assert (- (3 * (1 # 8000000) * 100) <= (x - a) * F <= 3 * (1 # 8000000) * 100) as HxF by (split; nra).
  assert (x * F == a * F + (x - a) * F) as Hexp by ring.
  assert (Qabs (js_mul x F - a * F) <= 300 * (1 # 8000000) + 100000000100 * pow2 (-53)) as Hm
    by (apply rnd_near; apply Qabs_Qle_condition; lra).
  pose proof eps_ok_100 as He. unfold eps in He. apply Qabs_Qle_condition in Hm.
  assert (js_mul x F / 100 == js_mul x F * (1 # 100)) as Hd1 by field.
  assert (a * F / 100 == a * F * (1 # 100)) as Hd2 by field.
  assert (Qabs (js_div (js_mul x F) 100 - a * F / 100) <=
          4 * (1 # 8000000) + 1000000001 * pow2 (-53)) as Hq
    by (apply rnd_near; apply Qabs_Qle_condition; lra).
  pose proof eps_ok as He1. unfold eps in He1. lra.
Qed.

Lemma fee_digits p d f : amount p -> amount d -> (d <= p)%Z -> (0 <= f <= 100)%Z ->
  let F := js_toFixed 2 (js_div (js_mul (js_max 0 (js_sub (rupees p) (rupees d))) (inject_Z f)) 100) in
  (Z.abs (100 * F - (p - d) * f) <= 50)%Z.
Proof.
  intros Hp Hd Hle Hf F.
  assert (amount (p - d)) as Ha by (unfold amount in *; lia).
  pose proof (percent_close _ _ f (amount_bounds _ Ha) Hf (fare_close p d Hp Hd Hle)) as Hc.
  pose proof (js_toFixed_half 2 (js_div (js_mul (js_max 0 (js_sub (rupees p) (rupees d))) (inject_Z f)) 100)) as Hh.
  fold F in Hh. change (scale10 2) with 100 in Hh.
  set (q := js_div _ 100) in *. apply Qabs_Qle_condition in Hc, Hh. unfold eps in *.
  assert (inject_Z (p - d) / 100 * inject_Z f / 100 == inject_Z ((p - d) * f) * (1 # 10000)) as Hm
    by (rewrite inject_Z_mult; field).
  assert (inject_Z (100 * F) == 100 * inject_Z F) as H100 by (rewrite inject_Z_mult; reflexivity).
  assert (inject_Z (100 * F) <= inject_Z ((p - d) * f) + (101 # 2)) as H1 by lra.
  assert (inject_Z ((p - d) * f) <= inject_Z (100 * F) + (101 # 2)) as H2 by lra.
  assert (forall a b, inject_Z a <= inject_Z b + (101 # 2) -> (a <= b + 50)%Z) as Hint.
  { intros a b Hab. assert (inject_Z a < inject_Z (b + 51)) as Hlt.
    { rewrite inject_Z_plus. change (inject_Z 51) with 51. lra. }
    rewrite <- Zlt_Qlt in Hlt. lia. }
  apply Hint in H1, H2. lia.
Qed.

Section paise.
Variables (prm : CalculateCancellationParams) (paid deposit f : Z).
Hypothesis Hpaid : cp_amountPaid prm == inject_Z paid / 100.
Hypothesis Hdep : default 0 (cp_depositAmount prm) == inject_Z deposit / 100.
Hypothesis Hp : amount paid.
Hypothesis Hd : amount deposit.
Hypothesis Hle : (deposit <= paid)%Z.
Hypothesis Hf : (0 <= f <= 100)%Z.
Let r := calculateCancellation prm.

Lemma toFixed_num_2 x : js_toFixed_num 2 x = rupees (js_toFixed 2 x).
Proof. reflexivity. Qed.
Lemma rnd_Qeq x y : x == y -> rnd x = rnd y.
Proof. intros E. unfold rnd. by rewrite (Qred_complete _ _ E). Qed.

Lemma cancellation_digits :
  cr_cancellationFeePercent r = inject_Z f ->
  exists fee : Z, (Z.abs (100 * fee - (paid - deposit) * f) <= 50)%Z /\ (0 <= fee <= paid - deposit)%Z /\
    cr_cancellationFee r == inject_Z fee / 100 /\ cr_refundAmount r == inject_Z (paid - fee) / 100 /\
    cr_refundAmountInPaise r = (paid - fee)%Z /\
    cr_isEligibleForRefund r = (0 <? paid - fee)%Z.
Proof.
  unfold r, calculateCancellation. destruct (selectTier _ _) as [[tier fp] rp]. cbn beta iota zeta delta
    [cr_cancellationFeePercent cr_cancellationFee cr_refundAmount cr_refundAmountInPaise cr_isEligibleForRefund].
  intros ->. rewrite (rnd_Qeq _ _ Hpaid), (rnd_Qeq _ _ Hdep). fold (rupees paid) (rupees deposit).
  pose proof (fee_digits paid deposit f Hp Hd Hle Hf) as Hfee. cbv zeta in Hfee.
  rewrite !toFixed_num_2. set (fee := js_toFixed 2 (js_div _ 100)) in *.
  assert (0 <= fee <= paid - deposit)%Z as Hfb by (unfold amount in *; split; nia).
  assert (amount fee) as Haf by (unfold amount in *; lia).
  assert (amount (paid - fee)) as Har by (unfold amount in *; lia).
  pose proof (rupees_sub_close paid fee (amount_money _ Hp) (amount_money _ Haf) (amount_money _ Har)) as Hsc.
  assert (js_toFixed 2 (js_sub (rupees paid) (rupees fee)) = (paid - fee)%Z) as Hdig.
  { apply toFixed_rupees. assert (1 # 10000 <= 1 # 300) by (vm_compute; discriminate). lra. }
  exists fee. split; [done|]. split; [done|]. split; [reflexivity|].
  rewrite Hdig. split; [reflexivity|]. split; [by apply rupees_to_paise, amount_money|].
  pose proof (rupees_close _ Har) as Hc. apply Qabs_Qle_condition in Hc. unfold eps in Hc.
  unfold js_lt. destruct (Z.ltb_spec 0 (paid - fee)) as [Hpos|Hneg].
  - apply negb_true_iff, not_true_iff_false. intros Hq%Qle_bool_iff.
    assert (inject_Z 1 <= inject_Z (paid - fee)) as H1 by (rewrite <- Zle_Qle; lia).
    change (inject_Z 1) with 1 in H1.
    assert (100 * (inject_Z (paid - fee) / 100) == inject_Z (paid - fee)) by field. lra.
  - assert (paid - fee = 0)%Z as -> by (unfold amount in *; lia). reflexivity.
Qed.
End paise.

(** ** Time *)

(** Hundredths of an hour, as printed. *)
Definition centihours (d : Z) : Z := js_toFixed 2 (js_div (inject_Z d) 3600000).

Lemma centihours_near d : (Z.abs d <= 10 ^ 15)%Z ->
  (Z.abs (36000 * centihours d - d) <= 18000)%Z.
Proof.
  intros Hd. unfold centihours.
  pose proof (js_toFixed_half 2 (js_div (inject_Z d) 3600000)) as Hh.
  change (scale10 2) with 100 in Hh. set (h := js_toFixed 2 _) in *.
  assert (- inject_Z (10 ^ 15) <= inject_Z d <= inject_Z (10 ^ 15)) as Hb
    by (rewrite <- inject_Z_opp, <- !Zle_Qle; lia).
  change (inject_Z (10 ^ 15)) with 1000000000000000 in Hb.
  assert (inject_Z d / 3600000 == inject_Z d * (1 # 3600000)) as Hdiv by field.
  assert (Qabs (inject_Z d / 3600000) <= 300000000) as Hq by (apply Qabs_Qle_condition; lra).
  pose proof (rnd_close _ _ Hq) as Hr. fold (js_div (inject_Z d) 3600000) in Hr.
  assert (300000000 * pow2 (-53) <= 1 # 20000000) as Hp by (vm_compute; discriminate).
  apply Qabs_Qle_condition in Hh, Hr.
  assert (inject_Z (36000 * h) == 36000 * inject_Z h) as Hm by (rewrite inject_Z_mult; reflexivity).
  assert (inject_Z (36000 * h) < inject_Z (d + 18001)) as H1
    by (rewrite inject_Z_plus; change (inject_Z 18001) with 18001; lra).
  assert (inject_Z (d - 18001) < inject_Z (36000 * h)) as H2
    by (rewrite inject_Z_sub; change (inject_Z 18001) with 18001; lra).
  rewrite <- Zlt_Qlt in H1, H2. lia.
Qed.

(** Comparing a printed number with a whole number of hours. *)
Lemma rupees_lt h n : money h -> (Z.abs n <= 10 ^ 9)%Z ->
  js_lt (inject_Z n) (rupees h) = (100 * n <? h)%Z /\
  js_le (inject_Z n) (rupees h) = (100 * n <=? h)%Z.
Proof.
  intros Hh Hn. pose proof (rupees_err h Hh) as He. apply Qabs_Qle_condition in He.
  assert (inject_Z h / 100 == inject_Z h * (1 # 100)) as Hd by field.
  assert (forall a b, inject_Z a < inject_Z b + (1 # 2) -> (a <= b)%Z) as Hint.
  { intros a b Hab. assert (inject_Z a < inject_Z (b + 1)) as Hlt.
    { rewrite inject_Z_plus. change (inject_Z 1) with 1. lra. }
    rewrite <- Zlt_Qlt in Hlt. lia. }
  assert (inject_Z (100 * n) == 100 * inject_Z n) as Hm by (rewrite inject_Z_mult; reflexivity).
  assert (Hle : inject_Z n <= rupees h <-> (100 * n <= h)%Z).
  { split; [intros; apply Hint; lra|]. rewrite Zle_Qle. intros H.
    destruct (decide (100 * n = h)%Z) as [<-|Hne].
    - unfold rupees. assert (inject_Z (100 * n) / 100 == inject_Z n) as E by (rewrite Hm; field).
      rewrite (rnd_Qeq _ _ E), rnd_Z by lia. lra.
    - assert (inject_Z (100 * n + 1) <= inject_Z h) as H1 by (rewrite <- Zle_Qle in *; lia).
      rewrite inject_Z_plus in H1. change (inject_Z 1) with 1 in H1. lra. }
  assert (Hge : rupees h <= inject_Z n <-> (h <= 100 * n)%Z).
  { split; [intros; apply Hint; lra|]. rewrite Zle_Qle. intros H.
    destruct (decide (100 * n = h)%Z) as [<-|Hne].
    - unfold rupees. assert (inject_Z (100 * n) / 100 == inject_Z n) as E by (rewrite Hm; field).
      rewrite (rnd_Qeq _ _ E), rnd_Z by lia. lra.
    - assert (inject_Z (h + 1) <= inject_Z (100 * n)) as H1 by (rewrite <- Zle_Qle in *; lia).
      rewrite inject_Z_plus in H1. change (inject_Z 1) with 1 in H1. lra. }
  unfold js_lt, js_le. split.
  - destruct (Z.ltb_spec (100 * n) h) as [H|H].
    + apply negb_true_iff, not_true_iff_false. rewrite Qle_bool_iff, Hge. lia.
    + apply negb_false_iff, Qle_bool_iff, Hge. lia.
  - destruct (Z.leb_spec (100 * n) h) as [H|H].
    + by apply Qle_bool_iff, Hle.
    + apply not_true_iff_false. rewrite Qle_bool_iff, Hle. lia.
Qed.

(** ** Properties *)

(** What the default matrix charges, in per cent, for [d] ms before pickup. *)
Definition default_fee (d : Z) : Z :=
  if (86418000 <? d)%Z then 0 else if (21582000 <? d)%Z then 25
  else if (-18000 <? d)%Z then 50 else 100.

Definition timed (p : CalculateCancellationParams) : Prop :=
  cp_isPendingConfirmation p = false /\ cp_actorRole p <> ROLE_VENDOR /\
  (cp_actorRole p = ROLE_ADMIN -> cp_isAdminOverride p = false).

Lemma sortTiers_default : sortTiers DEFAULT_TIERS = DEFAULT_TIERS.
Proof. reflexivity. Qed.

Lemma timed_selects p h : timed p ->
  selectTier p h =
    let m := default DEFAULT_CANCELLATION_MATRIX (cp_cancellationMatrix p) in
    if js_lt h 0 then afterStart m
    else match List.find (tierMatches h)
                 match cm_tiers m with Some l => sortTiers l | None => DEFAULT_TIERS end with
         | Some t => (ct_tier t, ct_feePercent t, js_max 0 (js_sub 100 (ct_feePercent t)))
         | None => afterStart m
         end.
Proof.
  intros (Hp & Hv & Ha). unfold selectTier. rewrite Hp, (bool_decide_false _ Hv).
  destruct (decide (cp_actorRole p = ROLE_ADMIN)) as [E|E].
  - by rewrite (Ha E), andb_false_r.
  - by rewrite (bool_decide_false _ E).
Qed.

(** Without an exemption, the default matrix charges a cancellation by the time left to pickup rounded to hundredths of an hour (36 seconds): nothing from 24 hours and 18 seconds on, 25 per cent from 6 hours less 18 seconds, 50 per cent until 18 seconds after the start, 100 per cent later; so the documented limits of 24, 6 and 0 hours are off by 18 seconds. *)
Theorem default_matrix_fee p :
  timed p -> cp_cancellationMatrix p = None ->
  let d := (cp_startDate p - cp_cancellationTime p)%Z in
  (Z.abs d <= 10 ^ 15)%Z -> d <> 86418000%Z -> d <> 21582000%Z -> d <> (-18000)%Z ->
  cr_cancellationFeePercent (calculateCancellation p) = inject_Z (default_fee d).
Proof.
  intros Ht Hm d Hd N1 N2 N3. unfold calculateCancellation.
  assert (hoursRemainingOf (cp_startDate p) (cp_cancellationTime p) = rupees (centihours d)) as -> by done.
  rewrite (timed_selects _ _ Ht), Hm. cbn [default cm_tiers DEFAULT_CANCELLATION_MATRIX].
  rewrite sortTiers_default. pose proof (centihours_near d Hd) as Hc.
  assert (money (centihours d)) as Hmon by (unfold money; lia).
  set (h := centihours d) in *. clearbody h.
  destruct (rupees_lt h 24 Hmon ltac:(lia)) as [H24 _]. destruct (rupees_lt h 6 Hmon ltac:(lia)) as [_ H6].
  destruct (rupees_lt h 0 Hmon ltac:(lia)) as [_ H0].
  change (inject_Z 24) with 24 in *. change (inject_Z 6) with 6 in *. change (inject_Z 0) with 0 in *.
  unfold js_lt at 1. unfold js_le in H0. rewrite H0.
  unfold DEFAULT_TIERS, List.find, tierMatches. cbn [ct_minHoursBeforePickup].
  change (Qeq_bool 24 24) with true. change (Qeq_bool 6 24) with false. change (Qeq_bool 0 24) with false.
  cbv iota. unfold js_le at 2. rewrite H24, H6, H0. unfold default_fee, afterStart.
  destruct (Z.ltb_spec 86418000 d), (Z.ltb_spec 21582000 d), (Z.ltb_spec (-18000) d), (Z.leb_spec (100 * 0) h),
    (Z.ltb_spec (100 * 24) h), (Z.leb_spec (100 * 6) h); try lia; reflexivity.
Qed.

(** The fee and the refund split what was paid exactly, to the paisa, although they are computed in floating point: for amounts of whole paise and a whole percentage, the fee is the percentage of the fare (the deposit excluded) rounded to the nearest paisa, the refund in paise is the payment minus that fee, and the deposit is always refunded. *)
Theorem cancellation_conserves p paid deposit f :
  cp_amountPaid p == inject_Z paid / 100 -> default 0 (cp_depositAmount p) == inject_Z deposit / 100 ->
  (0 <= deposit <= paid)%Z -> (paid <= 10 ^ 11)%Z -> (0 <= f <= 100)%Z ->
  let r := calculateCancellation p in
  cr_cancellationFeePercent r = inject_Z f ->
  exists fee, cr_cancellationFee r == inject_Z fee / 100 /\
    (Z.abs (100 * fee - (paid - deposit) * f) <= 50)%Z /\
    cr_refundAmountInPaise r = (paid - fee)%Z /\
    cr_refundAmount r == inject_Z (paid - fee) / 100 /\
    (deposit <= cr_refundAmountInPaise r <= paid)%Z /\
    cr_isEligibleForRefund r = (0 <? cr_refundAmountInPaise r)%Z.
Proof.
  intros Hp Hd Hb Hm Hf r Hr.
  assert (amount paid) as Hap by (unfold amount; lia).
  assert (amount deposit) as Had by (unfold amount; lia).
  destruct (cancellation_digits p paid deposit f Hp Hd Hap Had (proj2 Hb) Hf Hr)
    as (fee & Hfee & Hfb & H1 & H2 & H3 & H4).
  exists fee. fold r in H1, H2, H3, H4. rewrite H3. repeat split; done || lia.
Qed.

(** A cancellation before the owner confirmed, by the vendor, or under an administrator's override refunds every paisa paid, whatever the matrix and the time. *)
Theorem exempt_full_refund p paid deposit :
  cp_isPendingConfirmation p = true \/ cp_actorRole p = ROLE_VENDOR \/
    (cp_actorRole p = ROLE_ADMIN /\ cp_isAdminOverride p = true) ->
  cp_amountPaid p == inject_Z paid / 100 -> default 0 (cp_depositAmount p) == inject_Z deposit / 100 ->
  (0 <= deposit <= paid)%Z -> (paid <= 10 ^ 11)%Z ->
  let r := calculateCancellation p in
  cr_refundAmountInPaise r = paid /\ cr_cancellationFee r == 0 /\ cr_refundAmountPercent r = 100.
Proof.
  intros Hex Hp Hd Hb Hm r.
  assert (exists t, selectTier p (hoursRemainingOf (cp_startDate p) (cp_cancellationTime p)) = (t, 0, 100))
    as [t Ht].
  { unfold selectTier. destruct (cp_isPendingConfirmation p); [by eexists|].
    case_bool_decide; [by eexists|]. destruct Hex as [?|[?|[-> ->]]]; try done. by eexists. }
  assert (cr_cancellationFeePercent r = inject_Z 0 /\ cr_refundAmountPercent r = 100) as [Hf H100]
    by (unfold r, calculateCancellation; by rewrite Ht).
  assert (amount paid) as Hap by (unfold amount; lia).
  assert (amount deposit) as Had by (unfold amount; lia).
  destruct (cancellation_digits p paid deposit 0 Hp Hd Hap Had (proj2 Hb) ltac:(lia) Hf)
    as (fee & Hfee & Hfb & H1 & _ & H3 & _).
  assert (fee = 0%Z) as -> by lia. fold r in H1, H3. rewrite H1, H3. split; [lia|]. by split.
Qed.

(** ** Concrete cancellations *)
Definition sample_cancellation (d : Z) (role : Role) : CalculateCancellationParams :=
  {| cp_startDate := d; cp_cancellationTime := 0; cp_amountPaid := 350050 # 100;
     cp_depositAmount := Some 1000; cp_actorRole := role; cp_isAdminOverride := false;
     cp_isPendingConfirmation := false; cp_cancellationMatrix := None |}.

Lemma default_matrix_fee_witness :
  cr_cancellationFeePercent (calculateCancellation (sample_cancellation 86410000 ROLE_CUSTOMER)) = 25.
Proof.
  refine (default_matrix_fee (sample_cancellation 86410000 ROLE_CUSTOMER) _ _ _ _ _ _).
  - repeat split; discriminate.
  - reflexivity.
  - simpl. lia.
  - discriminate.
  - discriminate.
  - discriminate.
Defined.

Lemma cancellation_conserves_witness :
  exists fee, cr_cancellationFee (calculateCancellation (sample_cancellation 43200000 ROLE_CUSTOMER)) ==
      inject_Z fee / 100 /\ (Z.abs (100 * fee - (350050 - 100000) * 25) <= 50)%Z /\
    cr_refundAmountInPaise (calculateCancellation (sample_cancellation 43200000 ROLE_CUSTOMER)) = (350050 - fee)%Z.
Proof.
  destruct (cancellation_conserves (sample_cancellation 43200000 ROLE_CUSTOMER) 350050 100000 25)
    as (fee & H1 & H2 & H3 & _); [reflexivity|reflexivity|lia|lia|lia|vm_compute; reflexivity|].
  exists fee. split; [exact H1|]. split; [exact H2|exact H3].
Defined.

Lemma exempt_full_refund_witness :
  cr_refundAmountInPaise (calculateCancellation (sample_cancellation 0 ROLE_VENDOR)) = 350050%Z.
Proof.
  refine (proj1 (exempt_full_refund (sample_cancellation 0 ROLE_VENDOR) 350050 100000 _ _ _ _ _)).
  - right; left; reflexivity.
  - reflexivity.
  - reflexivity.
  - lia.
  - lia.
Defined.
