(* ===== verification/Commission.v ===== *)
(** * Marketplace commission: src/car_rental_backend/src/finance/marketplace-commission.service.ts

    The rules are the rows of [MarketplaceCommissionRule] in the order the
    database returns them ([findFirst] has no order of its own). *)
From S2P Require Import Prelude JsNumber Decimal Schema.
Open Scope Z_scope.
Open Scope Q_scope.

Record CommissionRule : Type := {
  mr_scope : PricingRuleScope;
  mr_branchId : option string;
  mr_vendorId : option string;
  mr_vehicleClass : option CarCategory;
  mr_channel : SalesChannel;
  mr_isActive : bool;
  mr_platformPct : Q;
  mr_vendorPct : Q;
  mr_branchPct : Q;
  mr_fixedPlatformFee : Q;
  mr_gatewayFeeRecovery : Q;
  mr_taxGstPct : Q;
}.

Record CommissionCalculationContext : Type := {
  cc_vendorId : string;
  cc_branchId : option string;
  cc_vehicleClass : CarCategory;
  cc_channel : option SalesChannel;
  cc_grossAmount : Q;
  cc_discountAmount : option Q;
  cc_subsidyAmount : option Q;
}.

Record CommissionBreakdown : Type := {
  cb_taxableAmount : Q;
  cb_gstAmount : Q;
  cb_totalCustomerPayable : Q;
  cb_platformFee : Q;
  cb_vendorNetPayable : Q;
  cb_branchShare : Q;
  cb_gatewayFeeRecovery : Q;
  cb_promotionalSubsidy : Q;
  cb_appliedRuleScope : PricingRuleScope;
  cb_vendorPct : Q;
  cb_isBalanced : bool;
}.

Definition forClass (c : CarCategory) (ch : SalesChannel) (r : CommissionRule) : bool :=
  bool_decide (mr_vehicleClass r = Some c) && bool_decide (mr_channel r = ch) && mr_isActive r.

(** Branch rule, else vendor rule, else platform rule. *)
Definition resolveCommissionRule (rules : list CommissionRule) (ctx : CommissionCalculationContext)
    (channel : SalesChannel) : option CommissionRule :=
  let branchRule :=
    match truthy (cc_branchId ctx) with
    | Some b => List.find (fun r => bool_decide (mr_branchId r = Some b) &&
                                    forClass (cc_vehicleClass ctx) channel r) rules
    | None => None
    end in
  match branchRule with
  | Some r => Some r
  | None =>
    let vendorRule :=
      match truthy (Some (cc_vendorId ctx)) with
      | Some v => List.find (fun r => bool_decide (mr_vendorId r = Some v) &&
                                      forClass (cc_vehicleClass ctx) channel r) rules
      | None => None
      end in
    match vendorRule with
    | Some r => Some r
    | None => List.find (fun r => bool_decide (mr_scope r = SCOPE_PLATFORM) &&
                                  bool_decide (mr_channel r = channel) && mr_isActive r) rules
    end
  end.

(** [Math.round(x * 100) / 100] *)
Definition round2 (x : Q) : Q := js_div (inject_Z (js_round (js_mul x 100))) 100.
(** [(x * pct) / 100] *)
Definition percentOf (x pct : Q) : Q := js_div (js_mul x pct) 100.

Definition calculateCommission (rules : list CommissionRule) (ctx : CommissionCalculationContext)
    : CommissionBreakdown :=
  let channel := default CH_CUSTOMER_APP (cc_channel ctx) in
  let rule := resolveCommissionRule rules ctx channel in
  let col f d := match rule with Some r => rnd (f r) | None => d end in
  let platformPct := col mr_platformPct 15 in
  let vendorPct := col mr_vendorPct 80 in
  let branchPct := col mr_branchPct 5 in
  let fixedFee := col mr_fixedPlatformFee 0 in
  let gatewayFeePct := col mr_gatewayFeeRecovery 2 in
  let gstPct := col mr_taxGstPct 18 in
  let gross := cc_grossAmount ctx in
  let discount := default 0 (cc_discountAmount ctx) in
  let taxable := js_max 0 (js_sub gross discount) in
  let gstAmount := round2 (percentOf taxable gstPct) in
  let totalCustomerPayable := round2 (js_add taxable gstAmount) in
  let platformFee := round2 (js_add (percentOf taxable platformPct) fixedFee) in
  let branchShare := round2 (percentOf taxable branchPct) in
  let vendorNetPayable := round2 (js_sub (js_sub taxable platformFee) branchShare) in
  let gatewayFeeRecovery := round2 (percentOf totalCustomerPayable gatewayFeePct) in
  let subsidy := default 0 (cc_subsidyAmount ctx) in
  let sumSplits := round2 (js_add (js_add platformFee branchShare) vendorNetPayable) in
  let isBalanced := js_lt (Qabs (js_sub sumSplits taxable)) (rnd (5 # 100)) in
  {| cb_taxableAmount := taxable; cb_gstAmount := gstAmount;
     cb_totalCustomerPayable := totalCustomerPayable; cb_platformFee := platformFee;
     cb_vendorNetPayable := vendorNetPayable; cb_branchShare := branchShare;
     cb_gatewayFeeRecovery := gatewayFeeRecovery; cb_promotionalSubsidy := subsidy;
     cb_appliedRuleScope := match rule with Some r => mr_scope r | None => SCOPE_PLATFORM end;
     cb_vendorPct := vendorPct; cb_isBalanced := isBalanced |}.

(** ** Lemmas *)
Lemma round2_rupees x : round2 x = rupees (js_round (js_mul x 100)).
Proof. reflexivity. Qed.

(** A share of an amount stays of the size of the amount. *)
Lemma percentOf_bound x pct : 0 <= x <= 1000000001 -> 0 <= pct <= 101 ->
  Qabs (percentOf x pct) <= 2000000000.
Proof.
  intros Hx Hp. assert (0 <= x * pct <= 101000000101) as Hxp by (split; nra).
  assert (Qabs (x * pct) <= 101000000101) as Hb by (apply Qabs_Qle_condition; lra).
  pose proof (rnd_close _ _ Hb) as Hr. fold (js_mul x pct) in Hr.
  assert (101000000101 * pow2 (-53) <= 1) by (vm_compute; discriminate).
  apply Qabs_Qle_condition in Hr.
  assert (js_mul x pct / 100 == js_mul x pct * (1 # 100)) as Hd by field.
  assert (Qabs (js_mul x pct / 100) <= 1100000000) as Hb2 by (apply Qabs_Qle_condition; lra).
  pose proof (rnd_close _ _ Hb2) as Hr2. fold (js_div (js_mul x pct) 100) in Hr2.
  assert (1100000000 * pow2 (-53) <= 1) by (vm_compute; discriminate).
  apply Qabs_Qle_condition in Hr2, Hb2. apply Qabs_Qle_condition. unfold percentOf. lra.
Qed.

Lemma round_money x : Qabs x <= 5000000000 -> (Z.abs (js_round (js_mul x 100)) <= 10 ^ 12)%Z.
Proof.
  intros Hx. pose proof (round_paise_bound x 5000000000 Hx ltac:(lra) ltac:(lra)) as H.
  apply Qabs_Qle_condition in H, Hx.
  assert (inject_Z (js_round (js_mul x 100)) <= inject_Z (10 ^ 12)) as H1
    by (change (inject_Z (10 ^ 12)) with 1000000000000; lra).
  assert (inject_Z (- 10 ^ 12) <= inject_Z (js_round (js_mul x 100))) as H2
    by (change (inject_Z (- 10 ^ 12)) with (-1000000000000); lra).
  rewrite <- Zle_Qle in H1, H2. lia.
Qed.

Lemma rnd_within x b : 0 <= x <= b -> 0 <= rnd x <= b * (9007199254740993 # 9007199254740992).
Proof.
  intros [H0 Hb]. pose proof (rnd_err x) as He. rewrite (Qabs_pos x H0) in He.
  change (pow2 (-53)) with (1 # 9007199254740992) in He. apply Qabs_Qle_condition in He. lra.
Qed.

Definition sane_rule (r : CommissionRule) : Prop :=
  (0 <= mr_platformPct r <= 100) /\ (0 <= mr_branchPct r <= 100) /\
  (0 <= mr_fixedPlatformFee r <= 1000000000).

Lemma taxable_near g d t : (0 <= d <= 10 ^ 11)%Z -> (0 <= g <= 10 ^ 11)%Z -> t = Z.max 0 (g - d) ->
  near (js_max 0 (js_sub (rupees g) (rupees d))) t (3 # 80000).
Proof.
  intros Hd Hg Ht.
  assert (money g /\ money d /\ money (g - d)) as (Mg & Md & Mgd) by (unfold money; lia).
  pose proof (near_sub _ _ g d (1 # 80000) (1 # 80000) Mgd ltac:(lra) (near_rupees _ Mg) (near_rupees _ Md)) as Hn.
  unfold near in *. apply Qabs_Qle_condition in Hn. apply Qabs_Qle_condition.
  assert (forall z, inject_Z z / 100 == inject_Z z * (1 # 100)) as Hc by (intros; field).
  rewrite Hc in *. destruct (Z.max_spec 0 (g - d)) as [[Hlt E]|[Hle E]]; rewrite E in Ht; subst t.
  - assert (inject_Z 0 <= inject_Z (g - d)) as H0 by (rewrite <- Zle_Qle; lia). change (inject_Z 0) with 0 in H0.
    unfold js_max. destruct (Qle_bool 0 _) eqn:Eb; [lra|].
    assert (js_sub (rupees g) (rupees d) < 0) by (apply Qnot_le_lt; intros HH%Qle_bool_iff; congruence). lra.
  - assert (inject_Z (g - d) <= inject_Z 0) as H0 by (rewrite <- Zle_Qle; lia). change (inject_Z 0) with 0 in *.
    unfold js_max. destruct (Qle_bool 0 _) eqn:Eb; [|lra]. apply Qle_bool_iff in Eb. lra.
Qed.

Lemma fixed_share_money x pct fixed : 0 <= x <= 1000000001 -> 0 <= pct <= 101 -> 0 <= fixed <= 1000000001 ->
  (Z.abs (js_round (js_mul (js_add (percentOf x pct) fixed) 100)) <= 10 ^ 12)%Z.
Proof.
  intros Hx Hp Hf. apply round_money. pose proof (percentOf_bound x pct Hx Hp) as Hb.
  apply Qabs_Qle_condition in Hb.
  assert (Qabs (percentOf x pct + fixed) <= 3000000001) as Hs by (apply Qabs_Qle_condition; lra).
  pose proof (rnd_close _ _ Hs) as Hr. fold (js_add (percentOf x pct) fixed) in Hr.
  assert (3000000001 * pow2 (-53) <= 1) by (vm_compute; discriminate).
  apply Qabs_Qle_condition in Hr. apply Qabs_Qle_condition. lra.
Qed.

(** Rounded shares taken off an amount leave the rest to the paisa. *)
Lemma remainder_exact x t P B : near x t (3 # 80000) -> money P -> money B ->
  money (t - P) -> money (t - P - B) ->
  round2 (js_sub (js_sub x (rupees P)) (rupees B)) = rupees (t - P - B).
Proof.
  intros Hx MP MB M1 M2. rewrite round2_rupees. f_equal.
  apply (near_round _ _ (7 # 80000)); [done|lra|].
  eapply near_weaken; [|apply near_sub; [done| |apply near_sub; [done| |exact Hx|apply near_rupees; done]|
    apply near_rupees; done]]; lra.
Qed.

Lemma splits_balanced x t P B : near x t (3 # 80000) -> money t -> money P -> money B ->
  money (P + B) -> money (t - P - B) ->
  js_lt (Qabs (js_sub (round2 (js_add (js_add (rupees P) (rupees B)) (rupees (t - P - B)))) x))
    (rnd (5 # 100)) = true.
Proof.
  intros Hx Mt MP MB MPB MR. rewrite round2_rupees.
  assert (js_round (js_mul (js_add (js_add (rupees P) (rupees B)) (rupees (t - P - B))) 100) = t) as ->.
  { apply (near_round _ _ (5 # 80000)); [done|lra|].
    replace t with (P + B + (t - P - B))%Z at 2 by lia.
    eapply near_weaken; [|apply near_add; [|  |apply near_add|]]; try (by apply near_rupees); try done; try lra.
    by replace (P + B + (t - P - B))%Z with t by lia. }
  assert (near (js_sub (rupees t) x) (t - t) (5 # 80000)) as Hn.
  { eapply near_weaken; [|apply near_sub; [|  |apply near_rupees; done|exact Hx]]; try lra.
    rewrite Z.sub_diag. unfold money. lia. }
  unfold near in Hn. rewrite Z.sub_diag in Hn.
  assert (js_sub (rupees t) x - inject_Z 0 / 100 == js_sub (rupees t) x) as E
    by (change (inject_Z 0) with 0; field). rewrite E in Hn.
  unfold js_lt. apply negb_true_iff, not_true_iff_false. intros Hle%Qle_bool_iff.
  assert (5 # 80000 < rnd (5 # 100)) by (vm_compute; reflexivity). lra.
Qed.

(** The platform fee and the branch share are whole paise, the vendor receives exactly the rest of the taxable amount, so the three shares add up to it to the paisa and the integrity flag is always true; the vendor percentage of the rule plays no part. *)
Theorem commission_splits_exactly rules ctx g d :
  cc_grossAmount ctx = rupees g -> default 0 (cc_discountAmount ctx) = rupees d ->
  (0 <= g <= 10 ^ 11)%Z -> (0 <= d <= 10 ^ 11)%Z -> Forall sane_rule rules ->
  let r := calculateCommission rules ctx in let t := Z.max 0 (g - d) in
  exists P B, cb_platformFee r = rupees P /\ cb_branchShare r = rupees B /\
    cb_vendorNetPayable r = rupees (t - P - B) /\ cb_isBalanced r = true.
Proof.
  intros Hg Hd Bg Bd Hrules r t. unfold r, calculateCommission. cbv zeta. rewrite Hg, Hd.
  set (rule := resolveCommissionRule _ _ _).
  assert (forall f b k, 0 <= k <= b -> (forall u, sane_rule u -> 0 <= f u <= b) ->
    0 <= match rule with Some u => rnd (f u) | None => k end <= b * (9007199254740993 # 9007199254740992)) as Hcol.
  { intros f b k Hk Hf. destruct rule as [u|] eqn:E.
    - apply rnd_within, Hf. rewrite List.Forall_forall in Hrules. apply Hrules.
      unfold rule, resolveCommissionRule in E.
      repeat case_match; simplify_eq; by (eapply List.find_some; eassumption) ||
        match goal with H : List.find _ _ = Some _ |- _ => apply List.find_some in H; tauto end.
    - lra. }
  pose proof (Hcol mr_platformPct 100 15 ltac:(lra) ltac:(intros u (?&?&?); done)) as H1.
  pose proof (Hcol mr_branchPct 100 5 ltac:(lra) ltac:(intros u (?&?&?); done)) as H2.
  pose proof (Hcol mr_fixedPlatformFee 1000000000 0 ltac:(lra) ltac:(intros u (?&?&?); done)) as H3.
  clearbody rule. set (pp := match rule with Some u => rnd (mr_platformPct u) | None => 15 end) in *.
  set (bp := match rule with Some u => rnd (mr_branchPct u) | None => 5 end) in *.
  set (fx := match rule with Some u => rnd (mr_fixedPlatformFee u) | None => 0 end) in *.
  cbn [cb_platformFee cb_branchShare cb_vendorNetPayable cb_isBalanced].
  pose proof (taxable_near g d t Bd Bg eq_refl) as Hx.
  set (x := js_max 0 (js_sub (rupees g) (rupees d))) in *.
  assert (0 <= x <= 1000000001) as Bx.
  { split; [unfold x, js_max; destruct (Qle_bool 0 _) eqn:Eb; [by apply Qle_bool_iff|lra]|].
    unfold near in Hx. apply Qabs_Qle_condition in Hx.
    assert (inject_Z t <= inject_Z (10 ^ 11)) as Ht by (rewrite <- Zle_Qle; lia).
    change (inject_Z (10 ^ 11)) with 100000000000 in Ht.
    assert (inject_Z t / 100 == inject_Z t * (1 # 100)) by field. lra. }
  clearbody x pp bp fx. rewrite !round2_rupees.
  pose proof (fixed_share_money x pp fx Bx ltac:(lra) ltac:(lra)) as MP.
  assert (Z.abs (js_round (js_mul (percentOf x bp) 100)) <= 10 ^ 12)%Z as MB.
  { apply round_money. pose proof (percentOf_bound x bp Bx ltac:(lra)). lra. }
  set (P := js_round (js_mul (js_add (percentOf x pp) fx) 100)) in *.
  set (B := js_round (js_mul (percentOf x bp) 100)) in *.
  assert (0 <= t <= 10 ^ 11)%Z as Ht by lia. clearbody P B t.
  assert (round2 (js_sub (js_sub x (rupees P)) (rupees B)) = rupees (t - P - B)) as Hv
    by (apply remainder_exact; done || (unfold money; lia)).
  rewrite <- !round2_rupees, Hv. exists P, B. split; [done|]. split; [done|]. split; [done|].
  apply splits_balanced; done || (unfold money; lia).
Qed.

(** The most specific active rule wins: a rule of the branch for the vehicle class and channel, else one of the vendor, else a platform rule of the channel; without any the built-in percentages apply. *)
Theorem resolveCommissionRule_order rules ctx ch :
  let branch r := bool_decide (mr_branchId r = cc_branchId ctx) && forClass (cc_vehicleClass ctx) ch r in
  let vendor r := bool_decide (mr_vendorId r = Some (cc_vendorId ctx)) && forClass (cc_vehicleClass ctx) ch r in
  let platform r := bool_decide (mr_scope r = SCOPE_PLATFORM) && bool_decide (mr_channel r = ch) && mr_isActive r in
  cc_branchId ctx <> None -> cc_branchId ctx <> Some "" -> cc_vendorId ctx <> "" ->
  match resolveCommissionRule rules ctx ch with
  | Some r => r ∈ rules /\ mr_isActive r = true /\ mr_channel r = ch /\
      (branch r = true \/
       (forall u, u ∈ rules -> branch u = false) /\
       (vendor r = true \/ (forall u, u ∈ rules -> vendor u = false) /\ platform r = true))
  | None => forall u, u ∈ rules -> branch u = false /\ vendor u = false /\ platform u = false
  end.
Proof.
  intros branch vendor platform Hb Hb' Hv. unfold resolveCommissionRule.
  assert (truthy (cc_branchId ctx) = cc_branchId ctx) as ->
    by (destruct (cc_branchId ctx) as [[|]|]; done).
  assert (truthy (Some (cc_vendorId ctx)) = Some (cc_vendorId ctx)) as -> by (by destruct (cc_vendorId ctx)).
  destruct (cc_branchId ctx) as [b|] eqn:Eb; [|done].
  assert (forall u, branch u = bool_decide (mr_branchId u = Some b) && forClass (cc_vehicleClass ctx) ch u)
    as Hbr by (by intros u; unfold branch; rewrite ?Eb).
  assert (forall r, forClass (cc_vehicleClass ctx) ch r = true -> mr_isActive r = true /\ mr_channel r = ch)
    as Hcl by (intros r [[_ ?%bool_decide_eq_true]%andb_true_iff ?]%andb_true_iff; done).
  destruct (List.find _ rules) as [r|] eqn:E1.
  { apply find_Some_elem in E1 as [Hin Hr]. pose proof Hr as [_ [? ?]%Hcl]%andb_true_iff.
    repeat split; try done. left. by rewrite Hbr. }
  rewrite find_None_iff in E1.
  destruct (List.find _ rules) as [r|] eqn:E2.
  { apply find_Some_elem in E2 as [Hin Hr]. pose proof Hr as [_ [? ?]%Hcl]%andb_true_iff.
    repeat split; try done. right. split; [intros u Hu; rewrite Hbr; by apply E1|by left]. }
  rewrite find_None_iff in E2.
  destruct (List.find _ rules) as [r|] eqn:E3.
  - apply find_Some_elem in E3 as [Hin Hr].
    pose proof Hr as [[_ ?%bool_decide_eq_true]%andb_true_iff ?]%andb_true_iff.
    repeat split; try done. right. split; [intros u Hu; rewrite Hbr; by apply E1|]. right. by split.
  - rewrite find_None_iff in E3. intros u Hu. rewrite Hbr. split; [by apply E1|]. split; [by apply E2|by apply E3].
Qed.

(** ** Concrete splits *)
Definition sample_context : CommissionCalculationContext :=
  {| cc_vendorId := "v1"; cc_branchId := Some "b1"; cc_vehicleClass := CAT_SUV; cc_channel := None;
     cc_grossAmount := rupees 333333; cc_discountAmount := Some (rupees 3010); cc_subsidyAmount := None |}.
Definition sample_rule : CommissionRule :=
  {| mr_scope := SCOPE_VENDOR; mr_branchId := None; mr_vendorId := Some "v1";
     mr_vehicleClass := Some CAT_SUV; mr_channel := CH_CUSTOMER_APP; mr_isActive := true;
     mr_platformPct := 12 + (1 # 2); mr_vendorPct := 80; mr_branchPct := 5; mr_fixedPlatformFee := 49;
     mr_gatewayFeeRecovery := 2; mr_taxGstPct := 18 |}.

Lemma commission_splits_exactly_witness :
  exists P B, cb_platformFee (calculateCommission [sample_rule] sample_context) = rupees P /\
    cb_branchShare (calculateCommission [sample_rule] sample_context) = rupees B /\
    cb_vendorNetPayable (calculateCommission [sample_rule] sample_context) = rupees (330323 - P - B) /\
    cb_isBalanced (calculateCommission [sample_rule] sample_context) = true.
Proof.
  refine (commission_splits_exactly [sample_rule] sample_context 333333 3010 eq_refl eq_refl _ _ _); try lia.
  constructor; [|constructor]. unfold sane_rule. simpl. lra.
Defined.

Lemma resolveCommissionRule_order_witness :
  resolveCommissionRule [sample_rule] sample_context CH_CUSTOMER_APP = Some sample_rule /\
  (sample_rule ∈ [sample_rule] /\ mr_isActive sample_rule = true).
Proof.
  split; [reflexivity|].
  pose proof (resolveCommissionRule_order [sample_rule] sample_context CH_CUSTOMER_APP
    ltac:(discriminate) ltac:(discriminate) ltac:(discriminate)) as H.
  exact (conj (proj1 H) (proj1 (proj2 H))).
Defined.
