(* ===== verification/PaymentRefund.v ===== *)
(** * Refunds: [refund] and [adminRefund] of src/car_rental_backend/src/payments/payments.service.ts

    Payments are keyed by their booking ([bookingId] is unique).  The answers
    of the Razorpay API, the mock id, the clock and fresh wallet ids are
    arguments.  The rest of the payments service (orders, webhooks) is not in
    this file. *)
From S2P Require Import Prelude JsNumber Decimal Schema Ledger Wallet.
From stdpp Require Import pretty.
Open Scope Z_scope.
Open Scope Q_scope.

Record Payment : Type := {
  pm_id : string;
  pm_amount : Q;
  pm_status : PaymentStatus;
  pm_gatewayProvider : string;
  pm_paymentMethod : option string;
  pm_razorpayOrderId : option string;
  pm_razorpayPaymentId : option string;
  pm_razorpayRefundId : option string;
  pm_refundAmount : option Q;
  pm_refundStatus : RefundStatus;
}.

Record PaymentRefund : Type := {
  pr_paymentId : string;
  pr_bookingId : string;
  pr_gatewayRefundId : option string;
  pr_idempotencyKey : string;
  pr_requestedAmount : Q;
  pr_processedAmount : option Q;
  pr_requestedByUserId : option string;
  pr_status : RefundStatus;
}.

Record PaymentAuditLog : Type := {
  pal_paymentId : string;
  pal_eventType : string;
  pal_fromStatus : option PaymentStatus;
  pal_toStatus : PaymentStatus;
  pal_amount : option Q;
  pal_gatewayReference : option string;
  pal_source : string;
}.

Record MoneyStore : Type := {
  ms_payments : gmap string Payment;
  ms_refunds : list PaymentRefund;
  ms_audit : list PaymentAuditLog;
  ms_wallets : WalletStore;
}.

Definition set_payment (bookingId : string) (p : Payment) (s : MoneyStore) : MoneyStore :=
  {| ms_payments := <[bookingId := p]> (ms_payments s); ms_refunds := ms_refunds s;
     ms_audit := ms_audit s; ms_wallets := ms_wallets s |}.
Definition set_refunds (l : list PaymentRefund) (s : MoneyStore) : MoneyStore :=
  {| ms_payments := ms_payments s; ms_refunds := l; ms_audit := ms_audit s;
     ms_wallets := ms_wallets s |}.
Definition add_audit (a : PaymentAuditLog) (s : MoneyStore) : MoneyStore :=
  {| ms_payments := ms_payments s; ms_refunds := ms_refunds s; ms_audit := ms_audit s ++ [a];
     ms_wallets := ms_wallets s |}.
Definition set_wallets (w : WalletStore) (s : MoneyStore) : MoneyStore :=
  {| ms_payments := ms_payments s; ms_refunds := ms_refunds s; ms_audit := ms_audit s;
     ms_wallets := w |}.

(** What [payments.refund] and [payments.fetchMultipleRefund] of the gateway
    answer: a refund with its status, or an error whose description may say
    the payment was already refunded, with the first refund then listed
    ([Throw] when that second call fails). *)
Inductive RazorpayRefundAnswer : Type :=
  | RefundResponse (id status : string)
  | RefundError (already : bool) (listed : result (option (string * string))).

Record RefundResult : Type := {
  rr_refundId : option string;
  rr_refundAmount : Q;
  rr_refundStatus : RefundStatus;
  rr_isDuplicate : bool;
}.

Record RefundEnv : Type := {
  re_now : Z;
  re_useMock : bool;
  re_mockId : string;
  re_answer : RazorpayRefundAnswer;
  re_walletConfig : option WalletConfig;
  re_freshWalletId : string;
  re_hasWallets : bool;
}.

Section refund.
Context {col : NumericColumn}.

(** [paymentRefund.create]: [idempotencyKey] and [gatewayRefundId] are unique
    and [paymentId] refers to a payment. *)
Definition paymentExists (id : string) (s : MoneyStore) : bool :=
  existsb (fun p => String.eqb (pm_id (snd p)) id) (map_to_list (ms_payments s)).
Definition refundClashes (key : string) (gid : option string) (l : list PaymentRefund) : bool :=
  existsb (fun r => String.eqb (pr_idempotencyKey r) key ||
                    match gid with
                    | Some g => bool_decide (pr_gatewayRefundId r = Some g)
                    | None => false
                    end) l.
Definition createPaymentRefund (r : PaymentRefund) : M MoneyStore unit :=
  s ← get;
  require (paymentExists (pr_paymentId r) s) PrismaP2003 ;;
  require (negb (refundClashes (pr_idempotencyKey r) (pr_gatewayRefundId r) (ms_refunds s)))
    PrismaP2002 ;;
  modify (set_refunds (ms_refunds s ++
    [{| pr_paymentId := pr_paymentId r; pr_bookingId := pr_bookingId r;
        pr_gatewayRefundId := pr_gatewayRefundId r; pr_idempotencyKey := pr_idempotencyKey r;
        pr_requestedAmount := store (pr_requestedAmount r);
        pr_processedAmount := option_map store (pr_processedAmount r);
        pr_requestedByUserId := pr_requestedByUserId r; pr_status := pr_status r |}])).

(** The status a gateway refund maps to. *)
Definition gatewayStatus (status : string) : RefundStatus :=
  if String.eqb status "pending" then RS_PENDING
  else if String.eqb status "failed" then RS_FAILED else RS_PROCESSED.

(** [bookingId.slice(-8)] *)
Definition slice_last (n : nat) (s : string) : string :=
  String.substring (String.length s - n) n s.

Definition totalWalletPaid (bookingId : string) (entries : list WalletLedgerEntry) : Q :=
  sum_by we_amount (filter (fun e =>
    String.eqb (we_referenceType e) "BOOKING" && bool_decide (we_referenceId e = Some bookingId) &&
    bool_decide (we_type e = LT_CHECKOUT_DEBIT)) entries).

(** Step 3: the refund id and its status. *)
Definition processGatewayRefund (env : RefundEnv) (bookingId : string) (payment : Payment)
    (gatewayRefundInPaise : Z) : M MoneyStore (option string * RefundStatus) :=
  if (0 <? gatewayRefundInPaise)%Z then
    if re_useMock env then mret (Some ("rfnd_mock_" +:+ re_mockId env), RS_PROCESSED)
    else
      require (match truthy (pm_razorpayPaymentId payment) with Some _ => true | None => false end)
        BadRequestException ;;
      match re_answer env with
      | RefundResponse id status => mret (Some id, gatewayStatus status)
      | RefundError false _ => throw BadRequestException
      | RefundError true (Throw e) => throw e
      | RefundError true (Ok (Some (id, status))) => mret (Some id, gatewayStatus status)
      | RefundError true (Ok None) => throw BadRequestException
      end
  else mret (Some ("rfnd_wlt_" +:+ slice_last 8 bookingId), RS_PROCESSED).

(** Step 4: the wallet's share of the refund. *)
Definition processWalletRefund (env : RefundEnv) (customerId : option string) (bookingId : string)
    (payment : Payment) (walletRefundRupees : Q) : M MoneyStore unit :=
  when (d_gt walletRefundRupees 0 && re_hasWallets env)
    match customerId with
    | Some c =>
      zoom ms_wallets set_wallets
        (w ← getOrCreateWallet (re_freshWalletId env) c;
         creditWallet (re_now env) (re_walletConfig env) (fst w) walletRefundRupees
           LT_BOOKING_REFUND BUCKET_REFUND_CREDIT "BOOKING" (Some bookingId)
           ("refund_wallet_" +:+ bookingId +:+ "_" +:+ pm_id payment) None false ;;
         mret tt)
    | None => mret tt
    end.

Definition refundKey (keyParam : option string) (bookingId : string) (payment : Payment) : string :=
  str_or keyParam ("refund_" +:+ bookingId +:+ "_" +:+ pm_id payment).

(** [customerId]: [booking.findUnique({ select: { customerId } })]. *)
Definition refund (env : RefundEnv) (customerId : option string) (bookingId : string)
    (refundAmountInPaise : Z) (idempotencyKeyParam requestedByUserId : option string)
    : M MoneyStore RefundResult :=
  s ← get;
  match ms_payments s !! bookingId with
  | None => mret {| rr_refundId := None; rr_refundAmount := 0; rr_refundStatus := RS_NONE;
                    rr_isDuplicate := false |}
  | Some payment =>
    if negb (bool_decide (pm_status payment = PS_PAID)) then
      mret {| rr_refundId := truthy (pm_razorpayRefundId payment);
              rr_refundAmount := default 0 (pm_refundAmount payment);
              rr_refundStatus := pm_refundStatus payment; rr_isDuplicate := false |}
    else
      let refundAmountInRupees :=
        inject_Z (js_toFixed 2 (js_div (inject_Z refundAmountInPaise) 100)) / 100 in
      if (refundAmountInPaise <=? 0)%Z then
        modify (set_payment bookingId
          {| pm_id := pm_id payment; pm_amount := pm_amount payment; pm_status := pm_status payment;
             pm_gatewayProvider := pm_gatewayProvider payment; pm_paymentMethod := pm_paymentMethod payment;
             pm_razorpayOrderId := pm_razorpayOrderId payment;
             pm_razorpayPaymentId := pm_razorpayPaymentId payment;
             pm_razorpayRefundId := pm_razorpayRefundId payment;
             pm_refundAmount := Some 0; pm_refundStatus := RS_NONE |}) ;;
        mret {| rr_refundId := None; rr_refundAmount := 0; rr_refundStatus := RS_NONE;
                rr_isDuplicate := false |}
      else
        let maxRefundPaise := js_round (js_mul (rnd (pm_amount payment)) 100) in
        require (refundAmountInPaise <=? maxRefundPaise)%Z BadRequestException ;;
        let walletPaid := totalWalletPaid bookingId (ws_entries (ms_wallets s)) in
        let totalGatewayPaid := pm_amount payment - walletPaid in
        let gatewayRefundRupees := d_min refundAmountInRupees totalGatewayPaid in
        let walletRefundRupees := refundAmountInRupees - gatewayRefundRupees in
        let gatewayRefundInPaise := js_round (js_mul (rnd gatewayRefundRupees) 100) in
        let idempotencyKey := refundKey idempotencyKeyParam bookingId payment in
        match List.find (fun r => String.eqb (pr_idempotencyKey r) idempotencyKey) (ms_refunds s) with
        | Some existing =>
          mret {| rr_refundId := pr_gatewayRefundId existing;
                  rr_refundAmount := default (pr_requestedAmount existing) (pr_processedAmount existing);
                  rr_refundStatus := pr_status existing; rr_isDuplicate := true |}
        | None =>
          r ← processGatewayRefund env bookingId payment gatewayRefundInPaise;
          processWalletRefund env customerId bookingId payment walletRefundRupees ;;
          modify (set_payment bookingId
            {| pm_id := pm_id payment; pm_amount := pm_amount payment;
               pm_status := if bool_decide (snd r = RS_PROCESSED) then PS_REFUNDED else PS_PAID;
               pm_gatewayProvider := pm_gatewayProvider payment; pm_paymentMethod := pm_paymentMethod payment;
             pm_razorpayOrderId := pm_razorpayOrderId payment;
               pm_razorpayPaymentId := pm_razorpayPaymentId payment;
               pm_razorpayRefundId := fst r;
               pm_refundAmount := Some (store refundAmountInRupees); pm_refundStatus := snd r |}) ;;
          modify (add_audit
            {| pal_paymentId := pm_id payment;
               pal_eventType := if bool_decide (snd r = RS_PROCESSED) then "REFUND_PROCESSED"
                                else "REFUND_INITIATED";
               pal_fromStatus := Some (pm_status payment);
               pal_toStatus := if bool_decide (snd r = RS_PROCESSED) then PS_REFUNDED
                               else pm_status payment;
               pal_amount := Some (store refundAmountInRupees); pal_gatewayReference := fst r;
               pal_source := match truthy requestedByUserId with Some _ => "ADMIN" | None => "SYSTEM" end |}) ;;
          try_catch
            (createPaymentRefund
               {| pr_paymentId := pm_id payment; pr_bookingId := bookingId;
                  pr_gatewayRefundId := fst r; pr_idempotencyKey := idempotencyKey;
                  pr_requestedAmount := refundAmountInRupees;
                  pr_processedAmount := if bool_decide (snd r = RS_PROCESSED)
                                        then Some refundAmountInRupees else None;
                  pr_requestedByUserId := requestedByUserId; pr_status := snd r |})
            (fun _ => mret tt) ;;
          mret {| rr_refundId := fst r; rr_refundAmount := refundAmountInRupees;
                  rr_refundStatus := snd r; rr_isDuplicate := false |}
        end
  end.

(** [dtoAmount] and [dtoKey] are the optional fields of the request.  The
    administrator's audit log entry is not modelled. *)
Definition adminRefund (env : RefundEnv) (customerId : option string) (bookingId : string)
    (dtoAmount : option Z) (dtoKey : option string) (userId : string) (role : Role)
    : M MoneyStore RefundResult :=
  require (bool_decide (role = ROLE_ADMIN)) ForbiddenException ;;
  s ← get;
  payment ← from_option_or (ms_payments s !! bookingId) NotFoundException;
  require (bool_decide (pm_status payment = PS_PAID) || bool_decide (pm_status payment = PS_REFUNDED) ||
           bool_decide (pm_status payment = PS_PARTIALLY_REFUNDED)) BadRequestException ;;
  let currentRefunded := default 0 (pm_refundAmount payment) in
  let maxRefundable := pm_amount payment - currentRefunded in
  require (negb (d_le maxRefundable 0)) BadRequestException ;;
  let maxRefundablePaise := js_round (js_mul (rnd maxRefundable) 100) in
  let targetRefundPaise :=
    match dtoAmount with
    | Some a => if (a =? 0)%Z then maxRefundablePaise else a
    | None => maxRefundablePaise
    end in
  require (targetRefundPaise <=? maxRefundablePaise)%Z BadRequestException ;;
  let effectiveKey := str_or dtoKey
    ("admin_rfnd_" +:+ bookingId +:+ "_" +:+ pretty targetRefundPaise +:+ "_" +:+ pretty (re_now env)) in
  refund env customerId bookingId targetRefundPaise (Some effectiveKey) (Some userId).
End refund.

(** ** Properties *)
Section refund_laws.
Context {col : NumericColumn}.

Lemma walletRefund_frame env c b p amt s r s' :
  processWalletRefund env c b p amt s = (r, s') ->
  ms_payments s' = ms_payments s /\ ms_refunds s' = ms_refunds s /\ ms_audit s' = ms_audit s.
Proof.
  unfold processWalletRefund, when. destruct (_ && _); [|intros [= _ <-]; done].
  destruct c; [|intros [= _ <-]; done]. unfold zoom. case_match. by intros [= _ <-].
Qed.

Lemma paymentExists_insert b p s : paymentExists (pm_id p) (set_payment b p s) = true.
Proof.
  apply existsb_exists. exists (b, p). split; [|by apply String.eqb_refl].
  apply list_elem_of_In, elem_of_map_to_list, lookup_insert_eq.
Qed.

Lemma gatewayRefund_pure env b p paise s r s' :
  processGatewayRefund env b p paise s = (r, s') -> s' = s.
Proof.
  unfold processGatewayRefund. destruct (0 <? paise)%Z; [|by intros [= _ <-]].
  destruct (re_useMock env); [by intros [= _ <-]|]. rewrite require_bind.
  destruct (match truthy _ with Some _ => _ | None => _ end); [|by intros [= _ <-]].
  by destruct (re_answer env) as [| [|] [[[]|]|]]; intros [= _ <-].
Qed.

(** What a refund that went through leaves behind. *)
Lemma refund_fresh_inv env c b paise key user s r s' payment :
  ms_payments s !! b = Some payment -> pm_status payment = PS_PAID -> (0 < paise)%Z ->
  refund env c b paise key user s = (Ok r, s') -> rr_isDuplicate r = false ->
  let amount := inject_Z (js_toFixed 2 (js_div (inject_Z paise) 100)) / 100 in
  let processed := bool_decide (rr_refundStatus r = RS_PROCESSED) in
  (paise <= js_round (js_mul (rnd (pm_amount payment)) 100))%Z /\ rr_refundAmount r = amount /\
  ms_payments s' = <[b := {| pm_id := pm_id payment; pm_amount := pm_amount payment;
      pm_status := if processed then PS_REFUNDED else PS_PAID;
      pm_gatewayProvider := pm_gatewayProvider payment; pm_paymentMethod := pm_paymentMethod payment;
             pm_razorpayOrderId := pm_razorpayOrderId payment;
      pm_razorpayPaymentId := pm_razorpayPaymentId payment; pm_razorpayRefundId := rr_refundId r;
      pm_refundAmount := Some (store amount); pm_refundStatus := rr_refundStatus r |}]> (ms_payments s) /\
  (ms_refunds s' = ms_refunds s /\ refundClashes (refundKey key b payment) (rr_refundId r) (ms_refunds s) = true \/
   exists row, ms_refunds s' = ms_refunds s ++ [row] /\ pr_idempotencyKey row = refundKey key b payment /\
     pr_status row = rr_refundStatus r) /\
  List.find (fun r => String.eqb (pr_idempotencyKey r) (refundKey key b payment)) (ms_refunds s) = None.
Proof.
  intros Hp Hst Hpos H Hdup. unfold refund in H. rewrite get_bind, Hp, (bool_decide_true _ Hst) in H.
  cbv beta zeta in H. cbn [negb] in H.
  assert ((paise <=? 0)%Z = false) as Hz by lia. rewrite Hz, require_bind in H.
  destruct (paise <=? js_round _)%Z eqn:Hmax; [|done]. apply Z.leb_le in Hmax.
  destruct (List.find _ _) as [ex|] eqn:Ef; [injection H as <- _; done|].
  apply bind_Ok in H as ([gid st] & s1 & Hg & H). apply gatewayRefund_pure in Hg as ->.
  apply bind_Ok in H as (u & s2 & Hw & H). apply walletRefund_frame in Hw as (Hpay & Href & _).
  rewrite !modify_bind in H. rewrite bind_run in H. unfold try_catch in H.
  destruct (createPaymentRefund _ _) as [[u'|e] s3] eqn:Ec; unfold createPaymentRefund in Ec;
    rewrite get_bind, require_bind in Ec;
    match type of Ec with context [paymentExists ?i ?st] =>
      assert (paymentExists i st = true) as Hex by exact (paymentExists_insert _ _ _);
      rewrite Hex, require_bind in Ec end; simpl in Ec; rewrite Href in Ec;
    destruct (refundClashes _ _ _) eqn:Ecl; simpl in Ec; rewrite ?modify_run in Ec; simplify_eq/=.
  - injection H as <- <-. simpl. rewrite Hpay. repeat (split; [done|]). split; [|by rewrite ?Ef].
    right. eexists. by split.
  - injection H as <- <-. simpl. rewrite Hpay. repeat (split; [done|]). split; [|by rewrite ?Ef].
    left. by rewrite Href.
Qed.

(** C34. A booking's refund happens at most once per idempotency key: after a refund of a paid booking went through, with a gateway refund id no other row has, any later call under the same key, whatever amount it asks for and whatever the gateway would answer, returns without moving money or changing a row; and the refund never exceeds the payment. *)
Theorem refund_at_most_once env c b paise key user s r s' payment env' c' paise' user' :
  ms_payments s !! b = Some payment -> pm_status payment = PS_PAID -> (0 < paise)%Z ->
  refund env c b paise key user s = (Ok r, s') -> rr_isDuplicate r = false ->
  refundClashes (refundKey key b payment) (rr_refundId r) (ms_refunds s) = false ->
  (0 < paise' <= js_round (js_mul (rnd (pm_amount payment)) 100))%Z ->
  (paise <= js_round (js_mul (rnd (pm_amount payment)) 100))%Z /\
  exists r', refund env' c' b paise' key user' s' = (Ok r', s').
Proof.
  intros Hp Hst Hpos H Hdup Hcl Hp'.
  destruct (refund_fresh_inv _ _ _ _ _ _ _ _ _ _ Hp Hst Hpos H Hdup)
    as (Hmax & _ & Hpay & [[_ Hc]|(row & Hrows & Hkey & Hstat)] & Hf); [congruence|].
  split; [done|]. unfold refund. rewrite get_bind, Hpay, lookup_insert_eq.
  cbn [pm_status pm_amount pm_razorpayRefundId pm_refundAmount pm_refundStatus].
  destruct (decide (rr_refundStatus r = RS_PROCESSED)) as [E|E].
  - rewrite (bool_decide_true _ E). by eexists.
  - rewrite (bool_decide_false _ E), (bool_decide_true (PS_PAID = PS_PAID)) by done. cbn [negb].
    assert ((paise' <=? 0)%Z = false) as Hz by lia. cbv zeta.
    rewrite Hz, require_bind, (proj2 (Z.leb_le _ _) (proj2 Hp')).
    unfold refundKey in *. cbn [pm_id]. rewrite Hrows, find_app, Hf. cbn [List.find].
    rewrite Hkey, String.eqb_refl. by eexists.
Qed.

(** A gateway refund marks the payment [REFUNDED] whatever its amount, and
    [refund] skips payments that are not [PAID]: an administrator who refunds
    the rest is told it went through, and nothing moves. *)
Lemma admin_refund_of_the_rest_is_lost env c b amount key user s payment refunded :
  ms_payments s !! b = Some payment -> pm_status payment = PS_REFUNDED ->
  pm_refundAmount payment = Some refunded -> refunded < pm_amount payment ->
  match amount with
  | Some a => (0 < a <= js_round (js_mul (rnd (pm_amount payment - refunded)) 100))%Z
  | None => True
  end ->
  exists r, adminRefund env c b amount key user ROLE_ADMIN s = (Ok r, s) /\
    rr_refundStatus r = pm_refundStatus payment /\ rr_refundAmount r = refunded.
Proof.
  intros Hp Hst Hr Hlt Ha. unfold adminRefund. step. rewrite Hp. step. rewrite Hst, Hr. simpl. step.
  assert (d_le (pm_amount payment - refunded) 0 = false) as -> by (apply d_le_false; lra). simpl.
  step. match goal with |- context [Z.leb ?x ?y] => assert (Z.leb x y = true) as -> end.
  { apply Z.leb_le. destruct amount as [a|]; [|lia]. destruct (Z.eqb_spec a 0); lia. }
  simpl. unfold refund. rewrite get_bind, Hp, Hst. simpl. eexists. split; [done|]. by rewrite Hr.
Qed.
End refund_laws.

(** ** Concrete refunds *)
Definition sample_payment (amount : Q) : Payment :=
  {| pm_id := "p1"; pm_amount := amount; pm_status := PS_PAID; pm_gatewayProvider := "RAZORPAY";
     pm_paymentMethod := None; pm_razorpayOrderId := Some "order_1";
     pm_razorpayPaymentId := Some "pay_1"; pm_razorpayRefundId := None; pm_refundAmount := None;
     pm_refundStatus := RS_NONE |}.
Definition paid_store (amount : Q) : MoneyStore :=
  {| ms_payments := {["b1" := sample_payment amount]}; ms_refunds := []; ms_audit := [];
     ms_wallets := empty_store |}.
Definition sample_env (answer : RazorpayRefundAnswer) : RefundEnv :=
  {| re_now := 0; re_useMock := false; re_mockId := "x"; re_answer := answer; re_walletConfig := None;
     re_freshWalletId := "w1"; re_hasWallets := true |}.
Definition pending_refund : result RefundResult * MoneyStore :=
  refund (sample_env (RefundResponse "rfnd_1" "pending")) (Some "c1") "b1" 7500 None None (paid_store 100).

Lemma refund_at_most_once_witness :
  exists r s' r', pending_refund = (Ok r, s') /\
    refund (sample_env (RefundResponse "rfnd_2" "processed")) (Some "c1") "b1" 9000 None None s' = (Ok r', s').
Proof.
  destruct pending_refund as [[r|e] s'] eqn:E; [|exfalso; vm_compute in E; discriminate E].
  unfold pending_refund in E.
  assert (rr_isDuplicate r = false /\ rr_refundId r = Some "rfnd_1") as [Hd Hi]
    by (vm_compute in E; injection E as <- <-; split; reflexivity).
  destruct (refund_at_most_once (sample_env (RefundResponse "rfnd_1" "pending")) (Some "c1") "b1" 7500 None None
    (paid_store 100) r s' (sample_payment 100)
    (sample_env (RefundResponse "rfnd_2" "processed")) (Some "c1") 9000 None eq_refl eq_refl ltac:(lia) E Hd)
    as (_ & r' & Hr).
  - rewrite Hi. reflexivity.
  - vm_compute. split; [reflexivity|discriminate].
  - exists r, s', r'. split; [reflexivity|exact Hr].
Defined.
