(* ===== verification/Outbox.v ===== *)
(** * The booking outbox: src/car_rental_backend/src/bookings/

    Dispatch of an event ([BookingOutboxService], booking-outbox.service.ts)
    and the polling worker ([OutboxWorkerService], outbox-worker.service.ts).
    The store is the [BookingOutboxEvent] table in creation order and the log
    of what was handed to the realtime stream and to the notification
    orchestrator; whether a hand-over to the orchestrator throws is an
    argument, as are the clock and the vendor lookup. *)
From S2P Require Import Prelude Schema.
Open Scope Z_scope.

Inductive OutboxStatus : Type :=
  | OB_PENDING | OB_PROCESSING | OB_PUBLISHED | OB_FAILED | OB_DEAD_LETTER.
#[export] Instance OutboxStatus_eq_dec : EqDecision OutboxStatus.
Proof. solve_decision. Defined.

Record BookingOutboxEvent : Type := {
  oe_id : string;
  oe_bookingId : string;
  oe_eventType : string;
  oe_tenantId : string;
  oe_actorId : string;
  oe_previousStatus : BookingStatus;
  oe_newStatus : BookingStatus;
  oe_correlationId : string;
  oe_customerId : string;          (* payload.customerId *)
  oe_refundAmount : option Q;      (* payload.refundAmount *)
  oe_status : OutboxStatus;
  oe_retryCount : Z;
  oe_maxRetries : Z;
  oe_updatedAt : Z;
}.

Inductive Channel : Type := SSE | ORCHESTRATOR.
#[export] Instance Channel_eq_dec : EqDecision Channel.
Proof. solve_decision. Defined.
Record Delivery : Type := {
  dl_channel : Channel;
  dl_eventId : string;
  dl_recipientId : string;
  dl_eventType : string;
  dl_title : string;
}.

Record OutboxState : Type := {
  os_events : list BookingOutboxEvent;
  os_sent : list Delivery;
}.

(** The injected collaborators and the clock of one run. *)
Record OutboxEnv : Type := {
  ox_now : Z;
  ox_hasRealtime : bool;
  ox_hasOrchestrator : bool;
  ox_vendorUser : string -> option string;
  ox_publishOk : string -> bool;     (* by recipient *)
}.

Definition set_status (id : string) (st : OutboxStatus) (retry : Z -> Z) (now : Z)
    (s : OutboxState) : OutboxState :=
  {| os_events := map (fun e => if String.eqb (oe_id e) id then
       {| oe_id := oe_id e; oe_bookingId := oe_bookingId e; oe_eventType := oe_eventType e;
          oe_tenantId := oe_tenantId e; oe_actorId := oe_actorId e;
          oe_previousStatus := oe_previousStatus e; oe_newStatus := oe_newStatus e;
          oe_correlationId := oe_correlationId e; oe_customerId := oe_customerId e;
          oe_refundAmount := oe_refundAmount e; oe_status := st;
          oe_retryCount := retry (oe_retryCount e); oe_maxRetries := oe_maxRetries e;
          oe_updatedAt := now |} else e) (os_events s);
     os_sent := os_sent s |}.
Definition send (d : Delivery) (s : OutboxState) : OutboxState :=
  {| os_events := os_events s; os_sent := os_sent s ++ [d] |}.

Definition findEvent (id : string) (s : OutboxState) : option BookingOutboxEvent :=
  List.find (fun e => String.eqb (oe_id e) id) (os_events s).

(** ** Dispatch *)
Definition mapToOperationalEventType (eventType : string) : string :=
  if existsb (String.eqb eventType)
       ["BOOKING_CREATED"; "BOOKING_CONFIRMED"; "BOOKING_CANCELLED"; "HANDOVER_READY";
        "TRIP_STARTED"; "RETURN_PENDING"; "BOOKING_COMPLETED"]
  then eventType else "BOOKING_CONFIRMED".

Definition getEventTitle (eventType : string) : string :=
  match List.find (fun p => String.eqb (fst p) eventType)
    [("BOOKING_CREATED", "New Booking Created"); ("BOOKING_CONFIRMED", "Booking Confirmed");
     ("BOOKING_CANCELLED", "Booking Cancelled"); ("HANDOVER_READY", "Vehicle Ready for Handover");
     ("TRIP_STARTED", "Trip In Progress"); ("RETURN_PENDING", "Vehicle Return Initiated");
     ("BOOKING_COMPLETED", "Trip Completed"); ("BOOKING_EXPIRED", "Booking Expired")] with
  | Some p => snd p
  | None => "Booking State Updated"
  end.

Definition vendorMilestone (eventType : string) : bool :=
  existsb (String.eqb eventType)
    ["BOOKING_CREATED"; "BOOKING_CANCELLED"; "RETURN_PENDING"; "BOOKING_COMPLETED"].

Definition deliver (ch : Channel) (event : BookingOutboxEvent) (recipient type : string)
    : M OutboxState unit :=
  modify (send {| dl_channel := ch; dl_eventId := oe_id event; dl_recipientId := recipient;
                  dl_eventType := type; dl_title := getEventTitle (oe_eventType event) |}).

(** [notificationOrchestrator.publishEvent] *)
Definition publishEvent (env : OutboxEnv) (event : BookingOutboxEvent) (recipient : string)
    : M OutboxState unit :=
  require (ox_publishOk env recipient) OtherError ;;
  deliver ORCHESTRATOR event recipient (mapToOperationalEventType (oe_eventType event)).

(** [if (vendor && vendor.userId) m(vendor.userId)] *)
Definition withVendor (env : OutboxEnv) (event : BookingOutboxEvent)
    (m : string -> M OutboxState unit) : M OutboxState unit :=
  match truthy (ox_vendorUser env (oe_tenantId event)) with
  | Some userId => m userId
  | None => mret tt
  end.

(** The body of the [try]: stream, orchestrator, mark. *)
Definition deliverAll (env : OutboxEnv) (event : BookingOutboxEvent) : M OutboxState unit :=
  let hasCustomer := negb (String.eqb (oe_customerId event) "") in
  when (ox_hasRealtime env)
    (when hasCustomer (deliver SSE event (oe_customerId event) (oe_eventType event)) ;;
     withVendor env event (fun v => deliver SSE event v (oe_eventType event))) ;;
  when (ox_hasOrchestrator env)
    (when hasCustomer (publishEvent env event (oe_customerId event)) ;;
     when (vendorMilestone (oe_eventType event)) (withVendor env event (publishEvent env event))) ;;
  modify (set_status (oe_id event) OB_PUBLISHED (fun n => n) (ox_now env)).

Definition failedStatus (nextRetry maxRetries : Z) : OutboxStatus :=
  if maxRetries <=? nextRetry then OB_DEAD_LETTER else OB_FAILED.

Definition dispatchEvent (env : OutboxEnv) (outboxEventId : string) : M OutboxState bool :=
  s ← get;
  match findEvent outboxEventId s with
  | None => mret false
  | Some event =>
    if bool_decide (oe_status event = OB_PUBLISHED) then mret true
    else
      try_catch
        (deliverAll env event ;; mret true)
        (fun _ =>
           let nextRetryCount := oe_retryCount event + 1 in
           modify (set_status outboxEventId (failedStatus nextRetryCount (oe_maxRetries event))
                     (fun _ => nextRetryCount) (ox_now env)) ;;
           mret false)
  end.

(** Chronological: the order of the table. *)
Definition getLifecycleHistory (bookingId : string) (s : OutboxState) : list BookingOutboxEvent :=
  filter (fun e => oe_bookingId e = bookingId) (os_events s).

(** ** The worker *)
Record OutboxWorkerResult : Type := {
  wr_processed : Z;
  wr_success : Z;
  wr_failed : Z;
  wr_deadLetter : Z;
  wr_staleRecovered : Z;
}.

Definition isStale (cutoff : Z) (e : BookingOutboxEvent) : bool :=
  bool_decide (oe_status e = OB_PROCESSING) && (oe_updatedAt e <? cutoff).

Definition recoverStaleProcessingEvents (now timeoutMs : Z) : M OutboxState Z :=
  s ← get;
  let staleEvents := take 50 (filter (fun e => isStale (now - timeoutMs) e) (os_events s)) in
  forEach staleEvents (fun ev =>
    let nextRetry := oe_retryCount ev + 1 in
    modify (set_status (oe_id ev) (failedStatus nextRetry (oe_maxRetries ev))
              (fun _ => nextRetry) now)) ;;
  mret (Z.of_nat (length staleEvents)).

Definition isCandidate (e : BookingOutboxEvent) : bool :=
  bool_decide (oe_status e = OB_PENDING) ||
  (bool_decide (oe_status e = OB_FAILED) && (oe_retryCount e <? 5)).

Definition backoffMs (retryCount : Z) : Z := Z.min 60000 (1000 * 2 ^ retryCount).
Definition inBackoff (now : Z) (e : BookingOutboxEvent) : bool :=
  bool_decide (oe_status e = OB_FAILED) && (now - oe_updatedAt e <? backoffMs (oe_retryCount e)).

(** The conditional [updateMany] and whether its count is positive. *)
Definition isClaimable (id : string) (e : BookingOutboxEvent) : bool :=
  String.eqb (oe_id e) id &&
  (bool_decide (oe_status e = OB_PENDING) || bool_decide (oe_status e = OB_FAILED)).
Definition claimEvent (now : Z) (id : string) : M OutboxState bool :=
  s ← get;
  if existsb (isClaimable id) (os_events s)
  then modify (set_status id OB_PROCESSING (fun n => n) now) ;; mret true
  else mret false.

Definition countSuccess (r : OutboxWorkerResult) : OutboxWorkerResult :=
  {| wr_processed := wr_processed r + 1; wr_success := wr_success r + 1; wr_failed := wr_failed r;
     wr_deadLetter := wr_deadLetter r; wr_staleRecovered := wr_staleRecovered r |}.
Definition countFailed (r : OutboxWorkerResult) : OutboxWorkerResult :=
  {| wr_processed := wr_processed r + 1; wr_success := wr_success r; wr_failed := wr_failed r + 1;
     wr_deadLetter := wr_deadLetter r; wr_staleRecovered := wr_staleRecovered r |}.
Definition countDead (r : OutboxWorkerResult) : OutboxWorkerResult :=
  {| wr_processed := wr_processed r + 1; wr_success := wr_success r; wr_failed := wr_failed r;
     wr_deadLetter := wr_deadLetter r + 1; wr_staleRecovered := wr_staleRecovered r |}.

(** Step 4 for a claimed event.  [dispatchEvent] throws only when the
    database does, which the model leaves out, so the outer [catch] of the
    code is not reached. *)
Definition dispatchClaimed (env : OutboxEnv) (event : BookingOutboxEvent) (r : OutboxWorkerResult)
    : M OutboxState OutboxWorkerResult :=
  dispatched ← dispatchEvent env (oe_id event);
  if dispatched : bool then mret (countSuccess r)
  else
    s ← get;
    mret (if match findEvent (oe_id event) s with
             | Some updated => bool_decide (oe_status updated = OB_DEAD_LETTER)
             | None => false
             end
          then countDead r else countFailed r).

Fixpoint processLoop (env : OutboxEnv) (batchSize : Z) (candidates : list BookingOutboxEvent)
    (r : OutboxWorkerResult) : M OutboxState OutboxWorkerResult :=
  match candidates with
  | [] => mret r
  | event :: rest =>
    if batchSize <=? wr_processed r then mret r
    else if inBackoff (ox_now env) event then processLoop env batchSize rest r
    else
      claimed ← claimEvent (ox_now env) (oe_id event);
      if claimed : bool then
        r' ← dispatchClaimed env event r;
        processLoop env batchSize rest r'
      else processLoop env batchSize rest r
  end.

Definition processPendingEvents (env : OutboxEnv) (batchSize : Z) : M OutboxState OutboxWorkerResult :=
  stale ← recoverStaleProcessingEvents (ox_now env) 300000;
  s ← get;
  let candidates := take (Z.to_nat (batchSize * 2)) (filter (fun e => isCandidate e) (os_events s)) in
  processLoop env batchSize candidates
    {| wr_processed := 0; wr_success := 0; wr_failed := 0; wr_deadLetter := 0;
       wr_staleRecovered := stale |}.

(** ** Lemmas *)
Definition update_event (st : OutboxStatus) (retry : Z -> Z) (now : Z) (e : BookingOutboxEvent)
    : BookingOutboxEvent :=
  {| oe_id := oe_id e; oe_bookingId := oe_bookingId e; oe_eventType := oe_eventType e;
     oe_tenantId := oe_tenantId e; oe_actorId := oe_actorId e;
     oe_previousStatus := oe_previousStatus e; oe_newStatus := oe_newStatus e;
     oe_correlationId := oe_correlationId e; oe_customerId := oe_customerId e;
     oe_refundAmount := oe_refundAmount e; oe_status := st;
     oe_retryCount := retry (oe_retryCount e); oe_maxRetries := oe_maxRetries e;
     oe_updatedAt := now |}.

Lemma set_status_elem id st f now s e :
  e ∈ os_events (set_status id st f now s) <->
  exists e0, e0 ∈ os_events s /\
    e = if String.eqb (oe_id e0) id then update_event st f now e0 else e0.
Proof.
  simpl. rewrite list_elem_of_In, in_map_iff.
  split; intros (e0 & H1 & H2); exists e0; rewrite list_elem_of_In in *; by split.
Qed.

Lemma set_status_ids id st f now s :
  map oe_id (os_events (set_status id st f now s)) = map oe_id (os_events s).
Proof.
  simpl. rewrite map_map. apply map_ext. intros e. by destruct (String.eqb _ _).
Qed.

(** A well-formed event: what its status says about its retries. *)
Definition event_ok (e : BookingOutboxEvent) : Prop :=
  0 <= oe_retryCount e /\ 0 < oe_maxRetries e /\
  match oe_status e with
  | OB_PENDING | OB_PROCESSING => oe_retryCount e < oe_maxRetries e
  | OB_FAILED => 0 < oe_retryCount e < oe_maxRetries e
  | OB_DEAD_LETTER => oe_maxRetries e <= oe_retryCount e
  | OB_PUBLISHED => True
  end.
Record outbox_ok (s : OutboxState) : Prop := {
  ob_unique : NoDup (map oe_id (os_events s));
  ob_events e : e ∈ os_events s -> event_ok e;
}.

Lemma same_id_same_event l (e e' : BookingOutboxEvent) :
  NoDup (map oe_id l) -> e ∈ l -> e' ∈ l -> oe_id e = oe_id e' -> e = e'.
Proof.
  induction l as [|x l IH]; [set_solver|]. intros [Hx Hnd]%NoDup_cons He He' Hid.
  apply elem_of_cons in He as [->|He], He' as [->|He']; try done.
  - destruct Hx. rewrite Hid. by apply (list_elem_of_fmap_2 oe_id).
  - destruct Hx. rewrite <- Hid. by apply (list_elem_of_fmap_2 oe_id).
  - by apply IH.
Qed.

Lemma findEvent_elem id s e : findEvent id s = Some e -> e ∈ os_events s /\ oe_id e = id.
Proof. intros [H E%String.eqb_eq]%find_Some_elem. done. Qed.

Lemma set_status_ok id st f now s :
  outbox_ok s ->
  (forall e, e ∈ os_events s -> oe_id e = id -> event_ok (update_event st f now e)) ->
  outbox_ok (set_status id st f now s).
Proof.
  intros [Hnd He] Hup. split; [by rewrite set_status_ids|].
  intros e (e0 & Hin & ->)%set_status_elem.
  destruct (String.eqb_spec (oe_id e0) id); [by apply Hup|by apply He].
Qed.

Lemma send_ok d s : outbox_ok s -> outbox_ok (send d s).
Proof. by intros [? ?]. Qed.

Lemma preserves_deliver ch e r t : preserves outbox_ok (deliver ch e r t).
Proof. apply preserves_modify. intros s. apply send_ok. Qed.
#[export] Hint Resolve preserves_deliver : preserves.

Lemma preserves_withVendor env e m :
  (forall v, preserves outbox_ok (m v)) -> preserves outbox_ok (withVendor env e m).
Proof. intros Hm. unfold withVendor. destruct (truthy _); auto with preserves. Qed.

Lemma preserves_publish env e r : preserves outbox_ok (publishEvent env e r).
Proof. unfold publishEvent. auto with preserves. Qed.
#[export] Hint Resolve preserves_withVendor preserves_publish : preserves.

Lemma failed_ok now e :
  event_ok e -> event_ok (update_event (failedStatus (oe_retryCount e + 1) (oe_maxRetries e))
    (fun _ => oe_retryCount e + 1) now e).
Proof.
  intros (Hr & Hm & _). unfold event_ok, failedStatus. simpl.
  destruct (Z.leb_spec (oe_maxRetries e) (oe_retryCount e + 1)); simpl; lia.
Qed.

(** Marking one event's failure from the row that was read. *)
Lemma set_failed_ok now ev s :
  outbox_ok s -> ev ∈ os_events s ->
  outbox_ok (set_status (oe_id ev) (failedStatus (oe_retryCount ev + 1) (oe_maxRetries ev))
    (fun _ => oe_retryCount ev + 1) now s).
Proof.
  intros Hs Hin. apply set_status_ok; [done|]. intros e He Hid.
  rewrite (same_id_same_event _ e ev (ob_unique _ Hs) He Hin Hid).
  apply failed_ok. by apply (ob_events _ Hs).
Qed.

(** The deliveries of a dispatch touch no event before the last step. *)
Definition same_events (evs : list BookingOutboxEvent) (s : OutboxState) : Prop := os_events s = evs.
Lemma deliverAll_cases env ev s r s' :
  deliverAll env ev s = (r, s') ->
  (r = Ok tt /\ os_events s' = os_events (set_status (oe_id ev) OB_PUBLISHED (fun n => n) (ox_now env) s)) \/
  (r <> Ok tt /\ os_events s' = os_events s).
Proof.
  unfold deliverAll. rewrite bind_run. intros H.
  assert (forall (m : M OutboxState unit) s0 r0 s1, preserves (same_events (os_events s0)) m ->
    m s0 = (r0, s1) -> os_events s1 = os_events s0) as Hfr by (intros m s0 r0 s1 Hm E; by apply (Hm _ _ _ E)).
  assert (forall evs ch e rc t, preserves (same_events evs) (deliver ch e rc t)) as Hd
    by (intros; by apply preserves_modify).
  assert (forall evs m, (forall v, preserves (same_events evs) (m v)) ->
    preserves (same_events evs) (withVendor env ev m)) as Hv
    by (intros evs m Hm; unfold withVendor; destruct (truthy _); auto with preserves).
  match type of H with context [when (ox_hasRealtime env) ?m s] =>
    destruct (when (ox_hasRealtime env) m s) as [[[]|e1] s1] eqn:E1 end;
    (apply Hfr in E1; [|unfold same_events in *; auto 10 with preserves]).
  2: { simplify_eq. by right. }
  rewrite bind_run in H.
  match type of H with context [when (ox_hasOrchestrator env) ?m s1] =>
    destruct (when (ox_hasOrchestrator env) m s1) as [[[]|e2] s2] eqn:E2 end;
    (apply Hfr in E2; [|unfold publishEvent; auto 12 with preserves]).
  - left. rewrite modify_run in H. simplify_eq. split; [done|]. simpl. by rewrite E2, E1.
  - right. simplify_eq. split; [done|]. by rewrite E2.
Qed.

Lemma outbox_ok_events s s' : os_events s = os_events s' -> outbox_ok s -> outbox_ok s'.
Proof. intros E [H1 H2]. split; by rewrite <- E. Qed.

Lemma published_ok id now s : outbox_ok s -> outbox_ok (set_status id OB_PUBLISHED (fun n => n) now s).
Proof.
  intros Hs. apply set_status_ok; [done|]. intros e He _.
  by destruct (ob_events _ Hs _ He) as (? & ? & _).
Qed.

Lemma preserves_dispatch env id : preserves outbox_ok (dispatchEvent env id).
Proof.
  apply preserves_get. intros s r s' Hs.
  destruct (findEvent id s) as [ev|] eqn:Ef; [|by intros [= _ <-]].
  apply findEvent_elem in Ef as [Hin <-].
  case_bool_decide; [by intros [= _ <-]|]. unfold try_catch. rewrite bind_run.
  destruct (deliverAll env ev s) as [r1 s1] eqn:E. apply deliverAll_cases in E as [[-> E]|[Hne E]].
  - intros [= _ <-]. eapply outbox_ok_events; [symmetry; exact E|]. by apply published_ok.
  - destruct r1 as [[]|e1]; [done|]. intros [= _ <-]. apply set_failed_ok; [|by rewrite E].
    by eapply outbox_ok_events.
Qed.

Lemma preserves_claim now id : preserves outbox_ok (claimEvent now id).
Proof.
  apply preserves_get. intros s r s' Hs. destruct (existsb _ _) eqn:Ex; [|by intros [= _ <-]].
  intros [= _ <-]. apply set_status_ok; [done|]. intros e He Hid.
  apply existsb_exists in Ex as (e' & Hin' & [Hid'%String.eqb_eq Hc]%andb_true_iff).
  apply list_elem_of_In in Hin'. subst id.
  assert (e = e') as -> by (by eapply (same_id_same_event _ _ _ (ob_unique _ Hs))).
  destruct (ob_events _ Hs _ He) as (? & ? & Hst). unfold event_ok. simpl.
  apply orb_true_iff in Hc as [Hc|Hc]; apply bool_decide_eq_true in Hc; rewrite Hc in Hst; lia.
Qed.

Lemma preserves_recover now timeout : preserves outbox_ok (recoverStaleProcessingEvents now timeout).
Proof.
  apply preserves_get. intros s r s' Hs. rewrite bind_run.
  set (stale := take 50 _).
  assert (forall l s0 r0 s1, outbox_ok s0 ->
    (forall ev, ev ∈ l -> ev ∈ os_events s0) -> NoDup (map oe_id l) ->
    forEach l (fun ev => modify (set_status (oe_id ev) (failedStatus (oe_retryCount ev + 1) (oe_maxRetries ev))
      (fun _ => oe_retryCount ev + 1) now)) s0 = (r0, s1) -> outbox_ok s1) as Hloop.
  { clear. induction l as [|ev l IH]; intros s0 r0 s1 Hs0 Hin Hnd; simpl; [by intros [= _ <-]|].
    apply NoDup_cons in Hnd as [Hx Hnd]. rewrite modify_bind. apply IH; [| |done].
    - apply set_failed_ok; [done|]. apply Hin. by left.
    - intros e He. apply set_status_elem. exists e. split; [apply Hin; by right|].
      destruct (String.eqb_spec (oe_id e) (oe_id ev)) as [Heq|]; [|done].
      destruct Hx. rewrite <- Heq. by apply (list_elem_of_fmap_2 oe_id). }
  assert (stale `sublist_of` os_events s) as Hsub
    by (unfold stale; etrans; [apply sublist_take|apply sublist_filter]).
  assert (forall r0 s1, forEach stale (fun ev => modify (set_status (oe_id ev)
      (failedStatus (oe_retryCount ev + 1) (oe_maxRetries ev)) (fun _ => oe_retryCount ev + 1) now)) s
      = (r0, s1) -> outbox_ok s1) as Hrun.
  { intros r0 s1. apply Hloop; [done| |].
    - intros ev Hev. by eapply elem_of_sublist.
    - eapply sublist_NoDup; [apply (ob_unique _ Hs)|]. by apply fmap_sublist. }
  destruct (forEach stale _ s) as [[[]|e] s1] eqn:E; intros [= _ <-]; by eapply Hrun.
Qed.
#[export] Hint Resolve preserves_dispatch preserves_claim preserves_recover : preserves.

Lemma preserves_dispatchClaimed env ev r : preserves outbox_ok (dispatchClaimed env ev r).
Proof.
  apply preserves_bind; [auto with preserves|]. intros []; [auto with preserves|].
  apply preserves_get. intros s r0 s' Hs. by intros [= _ <-].
Qed.

Lemma preserves_processLoop env batch cands r : preserves outbox_ok (processLoop env batch cands r).
Proof.
  revert r. induction cands as [|ev cands IH]; intros r; simpl; [auto with preserves|].
  destruct (batch <=? wr_processed r); [auto with preserves|].
  destruct (inBackoff _ ev); [done|]. apply preserves_bind; [auto with preserves|].
  intros []; [|done]. apply preserves_bind; [apply preserves_dispatchClaimed|done].
Qed.

Lemma preserves_worker env batch : preserves outbox_ok (processPendingEvents env batch).
Proof.
  apply preserves_bind; [auto with preserves|]. intros n. apply preserves_get.
  intros s r s' Hs H. by eapply preserves_processLoop.
Qed.

(** ** Properties *)

(** Any run of the dispatcher, the worker and the recovery, in any order,
    interleaved with the creation of new events. *)
Inductive outbox_step : OutboxState -> OutboxState -> Prop :=
  | step_dispatch env id s r s' : dispatchEvent env id s = (r, s') -> outbox_step s s'
  | step_claim now id s r s' : claimEvent now id s = (r, s') -> outbox_step s s'
  | step_recover now t s r s' : recoverStaleProcessingEvents now t s = (r, s') -> outbox_step s s'
  | step_worker env batch s r s' : processPendingEvents env batch s = (r, s') -> outbox_step s s'
  | step_new ev s : event_ok ev -> oe_id ev ∉ map oe_id (os_events s) ->
      outbox_step s {| os_events := os_events s ++ [ev]; os_sent := os_sent s |}.

Lemma outbox_step_ok s s' : outbox_step s s' -> outbox_ok s -> outbox_ok s'.
Proof.
  destruct 1 as [env id s r s' H|now id s r s' H|now t s r s' H|env b s r s' H|ev s Hev Hnew]; intros Hs.
  - by eapply preserves_dispatch.
  - by eapply preserves_claim.
  - by eapply preserves_recover.
  - by eapply preserves_worker.
  - destruct Hs as [Hnd He]. split; simpl.
    + rewrite map_app. apply NoDup_app. split_and!; [done|set_solver|apply NoDup_singleton].
    + intros e [Hin| ->%list_elem_of_singleton]%elem_of_app; auto.
Qed.

(** C39. In every reachable outbox the retry count of an event stays below its maximum until the event is dead-lettered, a failed event has been tried, ids are unique; so with a maximum of at most 5 every event is published, dead-lettered, claimed, or one the worker's query selects: none is stranded. *)
Theorem outbox_never_strands_events s e :
  rtc outbox_step {| os_events := []; os_sent := [] |} s -> e ∈ os_events s -> oe_maxRetries e <= 5 ->
  match oe_status e with
  | OB_PUBLISHED => True
  | OB_DEAD_LETTER => oe_maxRetries e <= oe_retryCount e
  | OB_PROCESSING => oe_retryCount e < oe_maxRetries e
  | OB_PENDING | OB_FAILED => isCandidate e = true
  end.
Proof.
  intros Hr Hin Hmax. assert (outbox_ok s) as Hs.
  { apply (rtc_invariant _ _ _ _ outbox_step_ok Hr). split; [apply NoDup_nil_2|set_solver]. }
  destruct (ob_events _ Hs _ Hin) as (Hn & Hm & Hst). unfold isCandidate.
  destruct (oe_status e); try done; simpl in *.
  apply Z.ltb_lt. lia.
Qed.

Lemma publish_ok_run env ev rc s :
  (forall x, ox_publishOk env x = true) ->
  exists s', publishEvent env ev rc s = (Ok tt, s') /\ os_events s' = os_events s.
Proof. intros Hok. unfold publishEvent. rewrite require_bind, Hok. by eexists. Qed.

Definition runs_clean (m : M OutboxState unit) : Prop :=
  forall s, exists s', m s = (Ok tt, s') /\ os_events s' = os_events s.
Lemma clean_ret : runs_clean (mret tt).
Proof. intros s. by exists s. Qed.
Lemma clean_bind m k : runs_clean m -> runs_clean k -> runs_clean (m ;; k).
Proof.
  intros Hm Hk s. destruct (Hm s) as (s1 & E1 & H1). destruct (Hk s1) as (s2 & E2 & H2).
  exists s2. rewrite bind_run, E1, E2. split; [done|congruence].
Qed.
Lemma clean_when b m : runs_clean m -> runs_clean (when b m).
Proof. destruct b; [done|intros _; apply clean_ret]. Qed.
Lemma clean_deliver ch ev rc t : runs_clean (deliver ch ev rc t).
Proof. intros s. by eexists. Qed.
Lemma clean_vendor env ev m : (forall v, runs_clean (m v)) -> runs_clean (withVendor env ev m).
Proof. unfold withVendor. destruct (truthy _); [done|intros _; apply clean_ret]. Qed.
Create HintDb clean discriminated.
#[export] Hint Resolve clean_ret clean_bind clean_when clean_deliver clean_vendor : clean.

Lemma deliverAll_ok env ev s :
  (forall x, ox_publishOk env x = true) ->
  exists s', deliverAll env ev s = (Ok tt, s') /\
    os_events s' = os_events (set_status (oe_id ev) OB_PUBLISHED (fun n => n) (ox_now env) s).
Proof.
  intros Hok. assert (forall rc, runs_clean (publishEvent env ev rc)) as Hp
    by (intros rc s0; by apply publish_ok_run).
  unfold deliverAll. rewrite bind_run.
  match goal with |- context [when (ox_hasRealtime env) ?m] =>
    destruct (clean_when (ox_hasRealtime env) m ltac:(auto 10 with clean) s) as (s1 & -> & E1) end.
  rewrite bind_run.
  match goal with |- context [when (ox_hasOrchestrator env) ?m] =>
    destruct (clean_when (ox_hasOrchestrator env) m ltac:(auto 10 with clean) s1) as (s2 & -> & E2) end.
  rewrite modify_run. eexists. split; [done|]. simpl. by rewrite E2, E1.
Qed.

Lemma dispatch_ok env id s e :
  (forall x, ox_publishOk env x = true) -> findEvent id s = Some e -> oe_status e <> OB_PUBLISHED ->
  exists s', dispatchEvent env id s = (Ok true, s') /\
    os_events s' = os_events (set_status id OB_PUBLISHED (fun n => n) (ox_now env) s).
Proof.
  intros Hok Hf Hst. unfold dispatchEvent. rewrite get_bind, Hf, (bool_decide_false _ Hst).
  destruct (deliverAll_ok env e s Hok) as (s1 & E & Hev). unfold try_catch. rewrite bind_run, E.
  apply findEvent_elem in Hf as [_ <-]. by exists s1.
Qed.

Lemma find_by_id id s e :
  NoDup (map oe_id (os_events s)) -> e ∈ os_events s -> oe_id e = id -> findEvent id s = Some e.
Proof.
  intros Hnd Hin <-. unfold findEvent. destruct (List.find _ _) as [e'|] eqn:E.
  - apply findEvent_elem in E as [Hin' Hid]. f_equal. by eapply same_id_same_event.
  - apply find_None_iff with (x := e) in E; [|done]. by rewrite String.eqb_refl in E.
Qed.

(** Statuses by id, which is all the worker's loop acts on. *)
Definition claimable (s : OutboxState) (id : string) : Prop :=
  exists e, e ∈ os_events s /\ oe_id e = id /\ (oe_status e = OB_PENDING \/ oe_status e = OB_FAILED).

Lemma claim_and_dispatch env id s :
  (forall x, ox_publishOk env x = true) -> NoDup (map oe_id (os_events s)) -> claimable s id ->
  exists s1 s2, claimEvent (ox_now env) id s = (Ok true, s1) /\ dispatchEvent env id s1 = (Ok true, s2) /\
    os_events s2 = os_events (set_status id OB_PUBLISHED (fun n => n) (ox_now env) s).
Proof.
  intros Hok Hnd (e & Hin & Hid & Hst). unfold claimEvent. rewrite get_bind.
  assert (existsb (isClaimable id) (os_events s) = true) as ->.
  { apply existsb_exists. exists e. split; [by apply list_elem_of_In|]. unfold isClaimable.
    rewrite Hid, String.eqb_refl. by destruct Hst as [-> | ->]. }
  eexists _. set (s1 := set_status id OB_PROCESSING (fun n => n) (ox_now env) s).
  destruct (dispatch_ok env id s1 (update_event OB_PROCESSING (fun n => n) (ox_now env) e) Hok)
    as (s2 & E & Hev); [|done|].
  - apply find_by_id; [by unfold s1; rewrite set_status_ids| |done].
    apply set_status_elem. exists e. split; [done|]. by rewrite Hid, String.eqb_refl.
  - exists s2. split; [done|]. split; [exact E|]. rewrite Hev. simpl. rewrite map_map. apply map_ext.
    intros e0. destruct (String.eqb (oe_id e0) id) eqn:E0; simpl; by rewrite E0.
Qed.

Lemma claimable_other s id id' now :
  id <> id' -> claimable s id' ->
  claimable (set_status id OB_PUBLISHED (fun n => n) now s) id'.
Proof.
  intros Hne (e & Hin & Hid & Hst). exists e. split; [|done]. apply set_status_elem. exists e.
  split; [done|]. rewrite (proj2 (String.eqb_neq _ _)); [done|congruence].
Qed.

(** The table after the events [ids] were published. *)
Definition publish (env : OutboxEnv) (ids : list string) (e : BookingOutboxEvent) : BookingOutboxEvent :=
  if bool_decide (oe_id e ∈ ids) then update_event OB_PUBLISHED (fun n => n) (ox_now env) e else e.
Lemma publish_id env ids e : oe_id (publish env ids e) = oe_id e.
Proof. unfold publish. by case_bool_decide. Qed.
Lemma publish_ids env ids l : map oe_id (map (publish env ids) l) = map oe_id l.
Proof. rewrite map_map. apply map_ext. apply publish_id. Qed.
Lemma publish_cons env id ids l : id ∉ ids ->
  map (publish env ids) (map (fun e => if String.eqb (oe_id e) id then update_event OB_PUBLISHED (fun n => n) (ox_now env) e else e) l)
  = map (publish env (id :: ids)) l.
Proof.
  intros Hn. rewrite map_map. apply map_ext. intros e. unfold publish.
  destruct (String.eqb_spec (oe_id e) id) as [E|E]; simpl.
  - rewrite (bool_decide_eq_false_2 (oe_id e ∈ ids)) by (by rewrite E). by rewrite bool_decide_eq_true_2 by (rewrite E; left).
  - do 2 case_bool_decide; [done|set_solver..|done].
Qed.

(** The loop publishes as many candidates as the batch still takes. *)
Lemma loop_publishes env batch cands r s :
  (forall x, ox_publishOk env x = true) -> NoDup (map oe_id (os_events s)) -> NoDup (map oe_id cands) ->
  (forall e, e ∈ cands -> claimable s (oe_id e) /\ inBackoff (ox_now env) e = false) -> wr_processed r <= batch ->
  let served := take (Z.to_nat (batch - wr_processed r)) cands in
  exists r' s', processLoop env batch cands r s = (Ok r', s') /\
    wr_success r' = wr_success r + Z.of_nat (length served) /\
    os_events s' = map (publish env (map oe_id served)) (os_events s).
Proof.
  intros Hok. revert r s. induction cands as [|ev cands IH]; intros r s Hnd Hc Hall Hb served.
  - exists r, s. unfold served. rewrite take_nil. simpl. split_and!; [done|lia|].
    symmetry. rewrite <- (map_id (os_events s)) at 2. apply map_ext. intros e. unfold publish.
    by rewrite bool_decide_eq_false_2 by set_solver.
  - apply NoDup_cons in Hc as [Hx Hc]. simpl. destruct (Z.leb_spec batch (wr_processed r)).
    { exists r, s. unfold served. replace (Z.to_nat (batch - wr_processed r)) with 0%nat by lia. simpl. split_and!; [done|lia|].
      symmetry. rewrite <- (map_id (os_events s)) at 2. apply map_ext. intros e. unfold publish.
      by rewrite bool_decide_eq_false_2 by set_solver. }
    destruct (Hall ev) as [Hcl ->]; [by left|].
    destruct (claim_and_dispatch env (oe_id ev) s Hok Hnd Hcl) as (s1 & s2 & E1 & E2 & Hev).
    rewrite bind_run, E1. unfold dispatchClaimed. rewrite bind_assoc_run, bind_run, E2, ret_bind.
    assert (served = ev :: take (Z.to_nat (batch - wr_processed (countSuccess r))) cands) as Hs.
    { unfold served. replace (Z.to_nat (batch - wr_processed r)) with (S (Z.to_nat (batch - wr_processed (countSuccess r))))
        by (simpl; lia). done. }
    destruct (IH (countSuccess r) s2) as (r' & s' & E & Hn & Hi).
    + by rewrite Hev, set_status_ids.
    + done.
    + intros e He. destruct (Hall e) as [Hcl' ?]; [by right|]. split; [|done].
      assert (oe_id ev <> oe_id e) as Hne
        by (intros Heq; apply Hx; rewrite Heq; by apply (list_elem_of_fmap_2 oe_id)).
      destruct (claimable_other s _ _ (ox_now env) Hne Hcl') as (e0 & He0 & He1).
      exists e0. by rewrite Hev.
    + simpl. lia.
    + exists r', s'. rewrite Hs. split_and!; [exact E|rewrite Hn; simpl; lia|]. rewrite Hi, Hev. cbn [map].
      apply (publish_cons env (oe_id ev)). intros Hin. apply Hx. apply list_elem_of_fmap in Hin as (e & -> & Hin).
      apply (list_elem_of_fmap_2 oe_id). eapply elem_of_sublist; [exact Hin|apply sublist_take].
Qed.

Definition dueEvents (s : OutboxState) : list BookingOutboxEvent := filter (fun e => isCandidate e) (os_events s).
Lemma due_claimable s e : e ∈ dueEvents s -> e ∈ os_events s /\ isCandidate e = true /\ claimable s (oe_id e).
Proof.
  intros [He Hin]%list_elem_of_filter. apply Is_true_true in He. split_and!; [done..|]. exists e. split_and!; [done|done|].
  unfold isCandidate in He. apply orb_true_iff in He as [H|[H _]%andb_true_iff]; apply bool_decide_eq_true in H; auto.
Qed.
Lemma due_nodup s : NoDup (map oe_id (os_events s)) -> NoDup (map oe_id (dueEvents s)).
Proof. intros H. eapply sublist_NoDup; [exact H|]. apply fmap_sublist, sublist_filter. Qed.
Lemma filter_others a b : NoDup (map oe_id (a ++ b)) -> filter (fun e => oe_id e ∉ map oe_id a) (a ++ b) = b.
Proof.
  rewrite map_app. intros (_ & Hd & _)%NoDup_app. rewrite filter_app.
  assert (filter (fun e => oe_id e ∉ map oe_id a) a = []) as ->.
  { apply elem_of_nil_inv. intros e [Hn Hin]%list_elem_of_filter. by apply Hn, (list_elem_of_fmap_2 oe_id). }
  simpl. induction b as [|e b IH]; [done|]. rewrite filter_cons, decide_True.
  - f_equal. apply IH. intros x Hx Hin. apply (Hd x Hx). by right.
  - intros Hin. apply (Hd _ Hin). left.
Qed.
(** What is due after a prefix of what was due is published. *)
Lemma due_after env k s s' : NoDup (map oe_id (os_events s)) ->
  os_events s' = map (publish env (map oe_id (take k (dueEvents s)))) (os_events s) -> dueEvents s' = drop k (dueEvents s).
Proof.
  intros Hnd Hs. pose proof (due_nodup s Hnd) as Hd. set (ids := map oe_id (take k (dueEvents s))) in *.
  assert (forall l, filter (fun e => isCandidate e) (map (publish env ids) l)
    = filter (fun e => oe_id e ∉ ids) (filter (fun e => isCandidate e) l)) as Hmap.
  { induction l as [|e l IH]; [done|]. cbn [map]. rewrite !filter_cons. destruct (decide (oe_id e ∈ ids)) as [Hin|Hin].
    - assert (isCandidate (publish env ids e) = false) as -> by (unfold publish; by rewrite bool_decide_eq_true_2).
      rewrite decide_False by (intros []). rewrite IH. destruct (decide _); [|done]. rewrite filter_cons. by rewrite decide_False by tauto.
    - assert (publish env ids e = e) as -> by (unfold publish; by rewrite bool_decide_eq_false_2).
      destruct (decide _); [rewrite filter_cons, decide_True by done; by rewrite IH|exact IH]. }
  unfold dueEvents at 1. rewrite Hs, Hmap. fold (dueEvents s). unfold ids.
  pose proof (filter_others (take k (dueEvents s)) (drop k (dueEvents s))) as H. rewrite take_drop in H. by apply H.
Qed.

(** Nothing is in the way of the worker. *)
Definition unhindered (env : OutboxEnv) (s : OutboxState) : Prop :=
  (forall x, ox_publishOk env x = true) /\
  (forall e, e ∈ os_events s -> isStale (ox_now env - 300000) e = false) /\
  (forall e, e ∈ os_events s -> isCandidate e = true -> inBackoff (ox_now env) e = false).
Lemma run_publishes env batch s : unhindered env s -> NoDup (map oe_id (os_events s)) -> 0 <= batch ->
  let served := take (Z.to_nat batch) (dueEvents s) in
  exists r s', processPendingEvents env batch s = (Ok r, s') /\ wr_success r = Z.of_nat (length served) /\
    os_events s' = map (publish env (map oe_id served)) (os_events s).
Proof.
  intros (Hok & Hstale & Hback) Hnd Hb served. unfold processPendingEvents. rewrite bind_run.
  unfold recoverStaleProcessingEvents. rewrite get_bind.
  assert (filter (fun e => isStale (ox_now env - 300000) e) (os_events s) = []) as ->.
  { apply elem_of_nil_inv. intros e [He Hin]%list_elem_of_filter. by rewrite (Hstale e Hin) in He. }
  rewrite take_nil. cbn [forEach]. rewrite !ret_bind, ret_run, get_bind. fold (dueEvents s). cbv zeta.
  pose proof (sublist_take (dueEvents s) (Z.to_nat (batch * 2))) as Hsub.
  destruct (loop_publishes env batch (take (Z.to_nat (batch * 2)) (dueEvents s)) {| wr_processed := 0; wr_success := 0; wr_failed := 0;
      wr_deadLetter := 0; wr_staleRecovered := 0 |} s Hok Hnd) as (r & s' & E & Hs & Hi).
  - eapply sublist_NoDup; [by apply due_nodup|]. by apply fmap_sublist.
  - intros e He. destruct (due_claimable s e) as (Hin & Hc & Hcl); [by eapply elem_of_sublist|]. split; [done|by apply Hback].
  - done.
  - simpl in Hs, Hi. rewrite take_take, Z.sub_0_r in Hs, Hi.
    replace (Z.to_nat batch `min` Z.to_nat (batch * 2))%nat with (Z.to_nat batch) in Hs, Hi by lia. by exists r, s'.
Qed.

(** Consecutive runs of the worker, and how many events they published. *)
Fixpoint runWorker (envs : list OutboxEnv) (batch : Z) : M OutboxState Z :=
  match envs with
  | [] => mret 0
  | env :: rest => r ← processPendingEvents env batch; n ← runWorker rest batch; mret (wr_success r + n)
  end.
Lemma runs_publish envs batch s :
  (forall env, env ∈ envs -> unhindered env s) -> NoDup (map oe_id (os_events s)) -> 0 < batch ->
  Z.of_nat (length (dueEvents s)) <= batch * Z.of_nat (length envs) ->
  exists s', runWorker envs batch s = (Ok (Z.of_nat (length (dueEvents s))), s') /\
    map oe_id (os_events s') = map oe_id (os_events s) /\
    (forall e, e ∈ os_events s' -> oe_id e ∈ map oe_id (dueEvents s) -> oe_status e = OB_PUBLISHED) /\
    (forall e, e ∈ os_events s' -> oe_id e ∉ map oe_id (dueEvents s) -> e ∈ os_events s).
Proof.
  revert s. induction envs as [|env envs IH]; intros s Hun Hnd Hb Hlen.
  - destruct (dueEvents s); [|simpl in Hlen; lia]. exists s. simpl. split_and!; [done..|set_solver|done].
  - destruct (run_publishes env batch s) as (r & s1 & E & Hr & Hs1); [apply Hun; by left|done|lia|].
    set (k := Z.to_nat batch) in *. pose proof (due_after env k s s1 Hnd Hs1) as Hdue.
    assert (map oe_id (os_events s1) = map oe_id (os_events s)) as Hids by (rewrite Hs1; apply publish_ids).
    assert (forall e, e ∈ os_events s1 -> e ∈ os_events s \/ oe_status e = OB_PUBLISHED) as Hback.
    { intros e He. rewrite Hs1 in He. apply list_elem_of_fmap in He as (e0 & -> & He0). unfold publish.
      case_bool_decide; [by right|by left]. }
    destruct (IH s1) as (s2 & E2 & Hi & Hpub & Hold).
    + intros env' Hin. destruct (Hun env') as (H1 & H2 & H3); [by right|]. split_and!; [done| |];
        intros e [He|He]%Hback; eauto; unfold isStale, isCandidate; rewrite He; done.
    + by rewrite Hids.
    + done.
    + rewrite Hdue, length_drop. simpl in Hlen. lia.
    + exists s2. split; [|split; [by rewrite Hi|]].
      { simpl. rewrite bind_run, E, bind_run, E2, ret_run, Hr, Hdue, length_drop, length_take. do 3 f_equal. lia. }
      assert (map oe_id (dueEvents s) = map oe_id (take k (dueEvents s)) ++ map oe_id (dueEvents s1)) as Hsplit
        by (rewrite Hdue, <- map_app, take_drop; done).
      pose proof (due_nodup s Hnd) as Hdn. rewrite Hsplit in Hdn. apply NoDup_app in Hdn as (_ & Hdis & _).
      assert (forall e, e ∈ os_events s2 -> oe_id e ∉ map oe_id (dueEvents s1) ->
        exists e0, e0 ∈ os_events s /\ e = publish env (map oe_id (take k (dueEvents s))) e0) as Hfrom.
      { intros e He Hn. apply Hold in He; [|done]. rewrite Hs1 in He. apply list_elem_of_fmap in He as (e0 & -> & He0). by exists e0. }
      split; intros e He Hin; rewrite Hsplit in Hin.
      * destruct (decide (oe_id e ∈ map oe_id (dueEvents s1))) as [Hd|Hd]; [by apply Hpub|].
        destruct (Hfrom e He Hd) as (e0 & _ & ->). rewrite publish_id in Hin, Hd. unfold publish.
        by rewrite bool_decide_eq_true_2 by set_solver.
      * rewrite elem_of_app in Hin. destruct (Hfrom e He) as (e0 & He0 & ->); [tauto|]. rewrite publish_id in Hin.
        unfold publish. by rewrite bool_decide_eq_false_2 by tauto.
Qed.

(** C40. Liveness of delivery: while the orchestrator accepts every hand-over, nothing is abandoned in processing and no event is in its back-off, consecutive runs of the worker publish every due event, one batch each: with as many runs as it takes batches to hold the events that are due, all of them are published and counted as successes, and no event is left pending or retryable. *)
Theorem worker_publishes_all envs batch s :
  (forall env, env ∈ envs -> unhindered env s) -> NoDup (map oe_id (os_events s)) -> 0 < batch ->
  Z.of_nat (length (dueEvents s)) <= batch * Z.of_nat (length envs) ->
  exists s', runWorker envs batch s = (Ok (Z.of_nat (length (dueEvents s))), s') /\
    map oe_id (os_events s') = map oe_id (os_events s) /\
    forall e, e ∈ os_events s' -> isCandidate e = false /\
      (oe_id e ∈ map oe_id (dueEvents s) -> oe_status e = OB_PUBLISHED).
Proof.
  intros Hun Hnd Hb Hlen. destruct (runs_publish envs batch s Hun Hnd Hb Hlen) as (s' & E & Hi & Hp & Hold).
  exists s'. split_and!; [exact E|exact Hi|]. intros e He. split; [|by apply Hp].
  destruct (decide (oe_id e ∈ map oe_id (dueEvents s))) as [Hd|Hd].
  - unfold isCandidate. by rewrite (Hp e He Hd).
  - apply not_true_iff_false. intros Hc. apply Hd, (list_elem_of_fmap_2 oe_id), list_elem_of_filter.
    split; [by apply Is_true_true|by apply Hold].
Qed.

(** ** Concrete runs *)
Definition sample_event (id type : string) (st : OutboxStatus) (retry : Z) : BookingOutboxEvent :=
  {| oe_id := id; oe_bookingId := "b1"; oe_eventType := type; oe_tenantId := "v1"; oe_actorId := "a";
     oe_previousStatus := BS_PENDING; oe_newStatus := BS_CONFIRMED; oe_correlationId := "c" +:+ id;
     oe_customerId := "c1"; oe_refundAmount := None; oe_status := st; oe_retryCount := retry;
     oe_maxRetries := 3; oe_updatedAt := 0 |}.
Definition sample_outbox_env (ok : bool) (now : Z) : OutboxEnv :=
  {| ox_now := now; ox_hasRealtime := true; ox_hasOrchestrator := true;
     ox_vendorUser := fun _ => Some "u9"; ox_publishOk := fun _ => ok |}.
Definition sample_outbox : OutboxState :=
  {| os_events := [sample_event "e1" "BOOKING_CONFIRMED" OB_PENDING 0;
                   sample_event "e2" "BOOKING_CANCELLED" OB_FAILED 1]; os_sent := [] |}.

Lemma outbox_never_strands_events_witness :
  exists e, e ∈ os_events (dispatchEvent (sample_outbox_env false 5) "e1"
      {| os_events := [sample_event "e1" "BOOKING_CONFIRMED" OB_PENDING 0]; os_sent := [] |}).2 /\
    oe_status e = OB_FAILED /\ isCandidate e = true.
Proof.
  set (s := (dispatchEvent _ _ _).2).
  assert (rtc outbox_step {| os_events := []; os_sent := [] |} s) as Hr.
  { eapply rtc_l; [apply (step_new (sample_event "e1" "BOOKING_CONFIRMED" OB_PENDING 0));
      [vm_compute; repeat split; discriminate|simpl; intros H; inversion H]|].
    apply rtc_once. eapply step_dispatch. apply surjective_pairing. }
  destruct (os_events s) as [|e l] eqn:E; [vm_compute in E; discriminate E|].
  exists e. split; [left|].
  assert (oe_status e = OB_FAILED /\ oe_maxRetries e = 3) as [Hf Hm]
    by (vm_compute in E; injection E as <- _; split; reflexivity).
  split; [exact Hf|].
  pose proof (outbox_never_strands_events s e Hr ltac:(rewrite E; left) ltac:(lia)) as H.
  rewrite Hf in H. exact H.
Defined.

(** Two due events, two runs of one event each. *)
Lemma worker_publishes_all_witness :
  exists s', runWorker [sample_outbox_env true 400000; sample_outbox_env true 500000] 1 sample_outbox = (Ok 2, s') /\
    map oe_status (os_events s') = [OB_PUBLISHED; OB_PUBLISHED].
Proof.
  destruct (worker_publishes_all [sample_outbox_env true 400000; sample_outbox_env true 500000] 1 sample_outbox)
    as (s' & E & _).
  - intros env Hin%list_elem_of_In. split_and!; destruct Hin as [<-|[<-|[]]];
      first [reflexivity | intros e He%list_elem_of_In; destruct He as [<-|[<-|[]]]; reflexivity].
  - apply (bool_decide_unpack _). reflexivity.
  - lia.
  - vm_compute. discriminate.
  - exists s'. split; [exact E|]. revert E. vm_compute. intros [= <-]. reflexivity.
Defined.

(** A rejected payment window and every other unmapped event is announced to
    the customer as a confirmed booking. *)
Lemma expiry_announced_as_confirmation :
  mapToOperationalEventType "BOOKING_EXPIRED" = "BOOKING_CONFIRMED" /\
  getEventTitle "BOOKING_EXPIRED" = "Booking Expired".
Proof. split; reflexivity. Qed.
