(* ===== verification/BookingStore.v ===== *)
(** * The data of the booking lifecycle

    The tables [BookingLifecycleService] (bookings/booking-lifecycle.service.ts)
    reads and writes, one record per model of prisma/schema.prisma with the
    columns it uses.  Payments and wallets are the [MoneyStore] of
    PaymentRefund.v, whose wallet part holds the platform ledger; the outbox,
    the handover codes and the lock server are those of their own files. *)
From S2P Require Import Prelude JsNumber Decimal Schema Ledger Wallet Locks HandoverOtp.
From S2P Require Import CancellationPolicy Commission PaymentRefund Outbox.
Open Scope Z_scope.

Record SecurityDeposit : Type := {
  sd_amount : Q;
  sd_status : SecurityDepositStatus;
  sd_heldAt : option Z;
  sd_razorpayPaymentId : option string;
  sd_releasedAt : option Z;
  sd_refundedAmount : Q;
  sd_deductedAmount : Q;
  sd_razorpayRefundId : option string;
}.

(** [b_cancellationMatrix] is what the price snapshot recorded of the policy
    and [b_commissionSplit] what a confirmation adds to it. *)
Record Booking : Type := {
  b_customerId : string;
  b_vendorId : string;
  b_carId : string;
  b_pickupHubId : option string;
  b_startDate : Z;
  b_endDate : Z;
  b_totalFare : Q;
  b_platformFee : Q;
  b_gstAmount : Q;
  b_netToVendor : Q;
  b_disputeFlag : bool;
  b_quoteTotal : option Q;
  b_couponId : option string;
  b_discountAmount : option Q;
  b_corporateAccountId : option string;
  b_cancellationMatrix : option CancellationMatrixConfig;
  b_commissionSplit : option CommissionBreakdown;
  b_securityDeposit : option SecurityDeposit;
  b_status : BookingStatus;
  b_cancellationReason : option string;
  b_cancellationFee : option Q;
  b_refundAmount : option Q;
  b_cancelledAt : option Z;
  b_cancelledBy : option string;
}.

Record Car : Type := {
  car_operationalStatus : VehicleOperationalStatus;
  car_verificationStatus : VehicleVerificationStatus;
  car_isAvailable : bool;
  car_type : CarCategory;
  car_pickupHubId : option string;
}.
Record VehicleBlock : Type := {
  vb_id : string;
  vb_carId : string;
  vb_vendorId : string;
  vb_blockType : VehicleBlockType;
  vb_startDate : Z;
  vb_endDate : Z;
}.
Record VehicleAuditLog : Type := {
  va_carId : string;
  va_actorId : string;
  va_action : string;
  va_fromStatus : VehicleOperationalStatus;
  va_toStatus : VehicleOperationalStatus;
  va_bookingId : string;
}.
Record FulfillmentRecord : Type := {
  ff_vendorId : string;
  ff_branchId : option string;
  ff_carId : string;
  ff_stage : FulfillmentStage;
}.
Record Inspection : Type := {
  insp_finalized : bool;
  insp_damagePhotos : nat;
  insp_conditionNotes : option string;
}.

Record Fleet : Type := {
  fl_cars : gmap string Car;
  fl_blocks : list VehicleBlock;
  fl_audit : list VehicleAuditLog;
  fl_fulfillment : gmap string FulfillmentRecord;   (* by booking *)
}.

(** Tables the lifecycle only reads. *)
Record Reference : Type := {
  rd_vendorUser : gmap string string;
  rd_preTrip : gmap string Inspection;              (* by booking *)
  rd_postTrip : gmap string Inspection;
  rd_claims : list (string * DamageClaimStatus);
  rd_rules : list CommissionRule;
}.

Record AuditLog : Type := {
  al_userId : string;
  al_action : string;
  al_entityId : string;
}.

Record LifecycleStore (R : Type) : Type := {
  ls_bookings : gmap string Booking;
  ls_fleet : Fleet;
  ls_money : MoneyStore;
  ls_otps : OtpTable;
  ls_outbox : OutboxState;
  ls_audit : list AuditLog;
  ls_locks : R;
  ls_ref : Reference;
}.
Arguments ls_bookings {R}. Arguments ls_fleet {R}. Arguments ls_money {R}. Arguments ls_otps {R}.
Arguments ls_outbox {R}. Arguments ls_audit {R}. Arguments ls_locks {R}. Arguments ls_ref {R}.

Section setters.
Context {R : Type}.
Implicit Types s : LifecycleStore R.

Definition set_booking (id : string) (b : Booking) s : LifecycleStore R :=
  {| ls_bookings := <[id := b]> (ls_bookings s); ls_fleet := ls_fleet s; ls_money := ls_money s;
     ls_otps := ls_otps s; ls_outbox := ls_outbox s; ls_audit := ls_audit s; ls_locks := ls_locks s;
     ls_ref := ls_ref s |}.
Definition set_fleet (f : Fleet) s : LifecycleStore R :=
  {| ls_bookings := ls_bookings s; ls_fleet := f; ls_money := ls_money s;
     ls_otps := ls_otps s; ls_outbox := ls_outbox s; ls_audit := ls_audit s; ls_locks := ls_locks s;
     ls_ref := ls_ref s |}.
Definition set_money (m : MoneyStore) s : LifecycleStore R :=
  {| ls_bookings := ls_bookings s; ls_fleet := ls_fleet s; ls_money := m;
     ls_otps := ls_otps s; ls_outbox := ls_outbox s; ls_audit := ls_audit s; ls_locks := ls_locks s;
     ls_ref := ls_ref s |}.
Definition set_otps (o : OtpTable) s : LifecycleStore R :=
  {| ls_bookings := ls_bookings s; ls_fleet := ls_fleet s; ls_money := ls_money s;
     ls_otps := o; ls_outbox := ls_outbox s; ls_audit := ls_audit s; ls_locks := ls_locks s;
     ls_ref := ls_ref s |}.
Definition set_outbox (o : OutboxState) s : LifecycleStore R :=
  {| ls_bookings := ls_bookings s; ls_fleet := ls_fleet s; ls_money := ls_money s;
     ls_otps := ls_otps s; ls_outbox := o; ls_audit := ls_audit s; ls_locks := ls_locks s;
     ls_ref := ls_ref s |}.
Definition set_audit (a : list AuditLog) s : LifecycleStore R :=
  {| ls_bookings := ls_bookings s; ls_fleet := ls_fleet s; ls_money := ls_money s;
     ls_otps := ls_otps s; ls_outbox := ls_outbox s; ls_audit := a; ls_locks := ls_locks s;
     ls_ref := ls_ref s |}.
Definition set_locks (l : R) s : LifecycleStore R :=
  {| ls_bookings := ls_bookings s; ls_fleet := ls_fleet s; ls_money := ls_money s;
     ls_otps := ls_otps s; ls_outbox := ls_outbox s; ls_audit := ls_audit s; ls_locks := l;
     ls_ref := ls_ref s |}.
End setters.

Definition set_car (id : string) (c : Car) (f : Fleet) : Fleet :=
  {| fl_cars := <[id := c]> (fl_cars f); fl_blocks := fl_blocks f; fl_audit := fl_audit f;
     fl_fulfillment := fl_fulfillment f |}.
Definition add_block (b : VehicleBlock) (f : Fleet) : Fleet :=
  {| fl_cars := fl_cars f; fl_blocks := fl_blocks f ++ [b]; fl_audit := fl_audit f;
     fl_fulfillment := fl_fulfillment f |}.
Definition add_vehicle_audit (a : VehicleAuditLog) (f : Fleet) : Fleet :=
  {| fl_cars := fl_cars f; fl_blocks := fl_blocks f; fl_audit := fl_audit f ++ [a];
     fl_fulfillment := fl_fulfillment f |}.
Definition set_fulfillment (m : gmap string FulfillmentRecord) (f : Fleet) : Fleet :=
  {| fl_cars := fl_cars f; fl_blocks := fl_blocks f; fl_audit := fl_audit f; fl_fulfillment := m |}.
Definition set_ledger (L : LedgerTable) (m : MoneyStore) : MoneyStore :=
  set_wallets (set_wledger L (ms_wallets m)) m.

(** The platform ledger of a store. *)
Definition the_ledger {R} (s : LifecycleStore R) : LedgerTable := ws_ledger (ms_wallets (ls_money s)).
