(* ===== verification/DepositStore.v ===== *)
(** * The tables of the vendors' security deposits

    Deposits, their ledger and policies, and the onboarding requirement a paid
    deposit fulfils, as the webhook of Payments.v and the service of
    VendorDeposits.v share them. *)
From S2P Require Import Prelude JsNumber Decimal Schema BookingStore.
Open Scope Z_scope.

Record VendorSecurityDeposit : Type := {
  vsd_vendorId : string;
  vsd_requiredAmount : Q;
  vsd_paidAmount : Q;
  vsd_remainingAmount : Q;
  vsd_status : VendorDepositStatus;
  vsd_isExempt : bool;
  vsd_provider : string;
  vsd_policyVersion : Z;
  vsd_providerOrderId : option string;
  vsd_providerPaymentId : option string;
}.
Record VendorDepositLedgerEntry : Type := {
  vde_depositId : string;
  vde_amount : Q;
  vde_direction : LedgerDirection;
  vde_balanceBefore : Q;
  vde_balanceAfter : Q;
  vde_transactionType : VendorDepositTransactionType;
  vde_reference : string;
  vde_idempotencyKey : string;
}.
Record VendorDepositPolicy : Type := {
  vdp_version : Z;
  vdp_isRequired : bool;
  vdp_amount : Q;
  vdp_refundPolicy : string;
  vdp_paymentProvider : string;
  vdp_isActive : bool;
}.
Record VendorDeposits : Type := {
  vds_deposits : gmap string VendorSecurityDeposit;
  vds_ledger : list VendorDepositLedgerEntry;
  vds_policies : list VendorDepositPolicy;
  vds_requirement : option string;                          (* the active DEP_SECURITY definition *)
  vds_states : gmap string RequirementFulfillmentStatus;    (* vendor -> state of that requirement *)
  vds_vendors : list string;
  vds_audit : list AuditLog;
}.

Definition with_deposits (m : gmap string VendorSecurityDeposit) (v : VendorDeposits) : VendorDeposits :=
  {| vds_deposits := m; vds_ledger := vds_ledger v; vds_policies := vds_policies v; vds_requirement := vds_requirement v;
     vds_states := vds_states v; vds_vendors := vds_vendors v; vds_audit := vds_audit v |}.
Definition with_entry (e : VendorDepositLedgerEntry) (v : VendorDeposits) : VendorDeposits :=
  {| vds_deposits := vds_deposits v; vds_ledger := vds_ledger v ++ [e]; vds_policies := vds_policies v;
     vds_requirement := vds_requirement v; vds_states := vds_states v; vds_vendors := vds_vendors v; vds_audit := vds_audit v |}.
Definition with_policies (l : list VendorDepositPolicy) (v : VendorDeposits) : VendorDeposits :=
  {| vds_deposits := vds_deposits v; vds_ledger := vds_ledger v; vds_policies := l; vds_requirement := vds_requirement v;
     vds_states := vds_states v; vds_vendors := vds_vendors v; vds_audit := vds_audit v |}.
Definition with_state (vendorId : string) (st : RequirementFulfillmentStatus) (v : VendorDeposits) : VendorDeposits :=
  {| vds_deposits := vds_deposits v; vds_ledger := vds_ledger v; vds_policies := vds_policies v;
     vds_requirement := vds_requirement v; vds_states := <[vendorId := st]> (vds_states v); vds_vendors := vds_vendors v;
     vds_audit := vds_audit v |}.
Definition with_audit (a : AuditLog) (v : VendorDeposits) : VendorDeposits :=
  {| vds_deposits := vds_deposits v; vds_ledger := vds_ledger v; vds_policies := vds_policies v;
     vds_requirement := vds_requirement v; vds_states := vds_states v; vds_vendors := vds_vendors v;
     vds_audit := vds_audit v ++ [a] |}.

(** What the operations change in a deposit. *)
Definition deposit_set (required paid remaining : Q) (st : VendorDepositStatus) (d : VendorSecurityDeposit) : VendorSecurityDeposit :=
  {| vsd_vendorId := vsd_vendorId d; vsd_requiredAmount := required; vsd_paidAmount := paid; vsd_remainingAmount := remaining;
     vsd_status := st; vsd_isExempt := vsd_isExempt d; vsd_provider := vsd_provider d; vsd_policyVersion := vsd_policyVersion d;
     vsd_providerOrderId := vsd_providerOrderId d; vsd_providerPaymentId := vsd_providerPaymentId d |}.
Definition deposit_provider (provider : string) (version : Z) (orderId paymentId : option string) (d : VendorSecurityDeposit)
    : VendorSecurityDeposit :=
  {| vsd_vendorId := vsd_vendorId d; vsd_requiredAmount := vsd_requiredAmount d; vsd_paidAmount := vsd_paidAmount d;
     vsd_remainingAmount := vsd_remainingAmount d; vsd_status := vsd_status d; vsd_isExempt := vsd_isExempt d;
     vsd_provider := provider; vsd_policyVersion := version; vsd_providerOrderId := orderId; vsd_providerPaymentId := paymentId |}.
Definition deposit_exempt (b : bool) (d : VendorSecurityDeposit) : VendorSecurityDeposit :=
  {| vsd_vendorId := vsd_vendorId d; vsd_requiredAmount := vsd_requiredAmount d; vsd_paidAmount := vsd_paidAmount d;
     vsd_remainingAmount := vsd_remainingAmount d; vsd_status := vsd_status d; vsd_isExempt := b;
     vsd_provider := vsd_provider d; vsd_policyVersion := vsd_policyVersion d;
     vsd_providerOrderId := vsd_providerOrderId d; vsd_providerPaymentId := vsd_providerPaymentId d |}.

(** [update], [ledgerEntry.create] (its idempotency key is unique) and the
    [upsert] of the requirement's state. *)
Definition updateDeposit (id : string) (f : VendorSecurityDeposit -> VendorSecurityDeposit) : M VendorDeposits VendorSecurityDeposit :=
  v ← get;
  d ← from_option_or (vds_deposits v !! id) PrismaP2025;
  modify (with_deposits (<[id := f d]> (vds_deposits v))) ;;
  mret (f d).
Definition createDepositEntry (e : VendorDepositLedgerEntry) : M VendorDeposits VendorDepositLedgerEntry :=
  v ← get;
  require (negb (existsb (fun x => String.eqb (vde_idempotencyKey x) (vde_idempotencyKey e)) (vds_ledger v))) PrismaP2002 ;;
  modify (with_entry e) ;;
  mret e.
Definition upsertRequirement (vendorId : string) (st : RequirementFulfillmentStatus) : M VendorDeposits unit :=
  v ← get;
  match vds_requirement v with Some _ => modify (with_state vendorId st) | None => mret tt end.
