(* ===== verification/BookingLifecycle.v ===== *)
(** * The booking state machine: src/car_rental_backend/src/bookings/booking-lifecycle.service.ts

    [executeTransition] whole: lock, idempotent skip, authorization, matrix,
    preconditions, cancellation amounts, the transaction, the refund after it
    and the release of the lock.  Left out: cache invalidation, log lines, the
    un-awaited dispatch of the event and the un-awaited referral and loyalty
    calls, none of which can fail the transition. *)
From S2P Require Import Prelude JsNumber Decimal Schema Ledger Wallet Locks HandoverOtp.
From S2P Require Import CancellationPolicy Commission PaymentRefund Outbox BookingStore.
From stdpp Require Import pretty.
Open Scope Z_scope.
Open Scope Q_scope.

Inductive ActorRole : Type := SYSTEM | RoleOf (r : Role).
#[export] Instance ActorRole_eq_dec : EqDecision ActorRole.
Proof. solve_decision. Defined.

Record BookingTransitionContext : Type := {
  tc_bookingId : string;
  tc_actorId : string;
  tc_actorRole : ActorRole;
  tc_targetStatus : BookingStatus;
  tc_reason : option string;
  tc_handoverOtp : option string;
}.

(** The clock (one reading per call), generated ids, the reachability of the
    lock server at acquisition and release, and what the optional services
    answer: [te_eligible] the vehicle eligibility, [te_earlyPickup] the
    configured minutes, [te_cancelMatrix] the configured policy. *)
Record TransitionEnv : Type := {
  te_now : Z;
  te_later : Z;
  te_lockUp : bool;
  te_releaseUp : bool;
  te_token : string;
  te_eventId : string;
  te_journalId : string;
  te_blockId : string;
  te_eligible : option bool;
  te_earlyPickup : option Z;
  te_cancelMatrix : option CancellationMatrixConfig;
  te_hasLedger : bool;
  te_hasCommission : bool;
  te_refund : RefundEnv;
}.

Record TransitionResult : Type := {
  tr_outboxEventId : string;
  tr_previousStatus : BookingStatus;
  tr_newStatus : BookingStatus;
}.

(** ** The canonical transition matrix *)
Definition matrix (current : BookingStatus) : list BookingStatus :=
  match current with
  | BS_PENDING => [BS_CONFIRMED; BS_CANCELLED; BS_EXPIRED]
  | BS_CONFIRMED => [BS_HANDOVER_READY; BS_ONGOING; BS_CANCELLED; BS_REFUND_PENDING]
  | BS_HANDOVER_READY => [BS_ONGOING; BS_CANCELLED]
  | BS_ONGOING => [BS_RETURN_PENDING; BS_COMPLETED]
  | BS_RETURN_PENDING => [BS_COMPLETED; BS_DISPUTED]
  | BS_REFUND_PENDING => [BS_REFUNDED; BS_DISPUTED]
  | BS_DISPUTED => [BS_COMPLETED; BS_REFUND_PENDING; BS_REFUNDED]
  | BS_COMPLETED | BS_REFUNDED | BS_CANCELLED | BS_EXPIRED => []
  end.

Definition status_lower (st : BookingStatus) : string :=
  match st with
  | BS_PENDING => "pending" | BS_CONFIRMED => "confirmed" | BS_HANDOVER_READY => "handover_ready"
  | BS_ONGOING => "ongoing" | BS_RETURN_PENDING => "return_pending" | BS_COMPLETED => "completed"
  | BS_CANCELLED => "cancelled" | BS_REFUND_PENDING => "refund_pending" | BS_REFUNDED => "refunded"
  | BS_DISPUTED => "disputed" | BS_EXPIRED => "expired"
  end.

Definition status_upper (st : BookingStatus) : string :=
  match st with
  | BS_PENDING => "PENDING" | BS_CONFIRMED => "CONFIRMED" | BS_HANDOVER_READY => "HANDOVER_READY"
  | BS_ONGOING => "ONGOING" | BS_RETURN_PENDING => "RETURN_PENDING" | BS_COMPLETED => "COMPLETED"
  | BS_CANCELLED => "CANCELLED" | BS_REFUND_PENDING => "REFUND_PENDING" | BS_REFUNDED => "REFUNDED"
  | BS_DISPUTED => "DISPUTED" | BS_EXPIRED => "EXPIRED"
  end.

Definition resolveEventType (status : BookingStatus) : string :=
  match status with
  | BS_CONFIRMED => "BOOKING_CONFIRMED"
  | BS_CANCELLED => "BOOKING_CANCELLED"
  | BS_HANDOVER_READY => "HANDOVER_READY"
  | BS_ONGOING => "TRIP_STARTED"
  | BS_RETURN_PENDING => "RETURN_PENDING"
  | BS_COMPLETED => "BOOKING_COMPLETED"
  | BS_EXPIRED => "BOOKING_EXPIRED"
  | BS_PENDING => "BOOKING_PENDING"
  | BS_REFUND_PENDING => "BOOKING_REFUND_PENDING"
  | BS_REFUNDED => "BOOKING_REFUNDED"
  | BS_DISPUTED => "BOOKING_DISPUTED"
  end.

Section lifecycle.
Context {R : Type} {redis : Redis R} {col : NumericColumn} {dec : DecimalArith} {bcrypt : Bcrypt}.
Abbreviation LM := (M (LifecycleStore R)).

(** ** Guards *)
Definition validateStateTransition (current target : BookingStatus) : LM unit :=
  require (bool_decide (target ∈ matrix current)) BadRequestException.

Definition validateAuthorization (vendorUser : option string) (booking : Booking)
    (actorId : string) (actorRole : ActorRole) (targetStatus : BookingStatus) : LM unit :=
  match actorRole with
  | SYSTEM | RoleOf ROLE_ADMIN => mret tt
  | RoleOf role =>
    let isCustomer := String.eqb (b_customerId booking) actorId in
    let isVendor := bool_decide (vendorUser = Some actorId) in
    require (isCustomer || isVendor) ForbiddenException ;;
    when (bool_decide (role = ROLE_CUSTOMER))
      (require isCustomer ForbiddenException ;;
       require (bool_decide (targetStatus = BS_CANCELLED) ||
                bool_decide (targetStatus = BS_RETURN_PENDING)) ForbiddenException) ;;
    when (bool_decide (role = ROLE_VENDOR))
      (require isVendor ForbiddenException ;;
       require (negb (bool_decide (targetStatus = BS_REFUNDED))) ForbiddenException)
  end.

(** [!reason || reason.trim().length < n] *)
Definition reasonShorter (n : nat) (reason : option string) : bool :=
  match truthy reason with
  | None => true
  | Some r => (String.length (trim r) <? n)%nat
  end.

Definition isAdminActor (actorRole : ActorRole) : bool :=
  bool_decide (actorRole = RoleOf ROLE_ADMIN) || bool_decide (actorRole = SYSTEM).

(** [booking.car?.operationalStatus && ... !== ACTIVE], and the same for the
    verification status. *)
Definition carOperational (car : option Car) : bool :=
  match car with Some c => bool_decide (car_operationalStatus c = VO_ACTIVE) | None => true end.
Definition carVerified (car : option Car) : bool :=
  match car with Some c => bool_decide (car_verificationStatus c = VV_VERIFIED) | None => true end.

Definition overlappingBlock (booking : Booking) (blocks : list VehicleBlock) : bool :=
  existsb (fun v => String.eqb (vb_carId v) (b_carId booking) &&
    (vb_startDate v <? b_endDate booking)%Z && (b_startDate booking <? vb_endDate v)%Z) blocks.

Definition occupying (st : BookingStatus) : bool :=
  bool_decide (st ∈ [BS_CONFIRMED; BS_HANDOVER_READY; BS_ONGOING; BS_RETURN_PENDING]).
Definition overlaps (a b : Booking) : bool :=
  String.eqb (b_carId a) (b_carId b) && (b_startDate a <? b_endDate b)%Z && (b_startDate b <? b_endDate a)%Z.
Definition overlappingBooking (bookingId : string) (booking : Booking) (bookings : gmap string Booking)
    : bool :=
  existsb (fun p => negb (String.eqb (fst p) bookingId) && occupying (b_status (snd p)) &&
                    overlaps (snd p) booking) (map_to_list bookings).

Definition finalizedInspection (i : option Inspection) : bool :=
  match i with Some x => insp_finalized x | None => false end.

(** The code an actor who is no administrator must give, or the reason an
    administrator must. *)
Definition checkHandoverOtp (now : Z) (bookingId : string) (otpType : HandoverOtpType)
    (isAdmin : bool) (handoverOtp reason : option string) : LM unit :=
  if negb isAdmin then
    match truthy handoverOtp with
    | None => throw BadRequestException
    | Some code => zoom ls_otps set_otps (v ← verifyOtp now bookingId otpType code; mret tt)
    end
  else
    require (match truthy handoverOtp with Some _ => true | None => negb (reasonShorter 10 reason) end)
      BadRequestException.

Definition confirmPreconditions (bookingId : string) (booking : Booking) (car : option Car)
    (payment : option Payment) (isAdmin : bool) (reason : option string) : LM unit :=
  require (carOperational car) ConflictException ;;
  require (carVerified car) ConflictException ;;
  s ← get;
  require (negb (overlappingBlock booking (fl_blocks (ls_fleet s)))) ConflictException ;;
  require (negb (overlappingBooking bookingId booking (ls_bookings s))) ConflictException ;;
  let isPaid := match payment with Some p => bool_decide (pm_status p = PS_PAID) | None => false end in
  when (negb isPaid)
    (require isAdmin BadRequestException ;;
     require (negb (reasonShorter 10 reason)) BadRequestException).

Definition handoverReadyPreconditions (bookingId : string) (car : option Car) : LM unit :=
  require (carOperational car) ConflictException ;;
  s ← get;
  require (finalizedInspection (rd_preTrip (ls_ref s) !! bookingId)) BadRequestException.

Definition ongoingPreconditions (env : TransitionEnv) (bookingId : string) (booking : Booking)
    (car : option Car) (payment : option Payment) (isAdmin : bool) (reason handoverOtp : option string)
    : LM unit :=
  require (carOperational car) ConflictException ;;
  require (carVerified car) ConflictException ;;
  require (default true (te_eligible env)) ConflictException ;;
  require (negb (match b_securityDeposit booking with
                 | Some d => bool_decide (sd_status d = SD_REQUIRED)
                 | None => false
                 end && negb isAdmin)) BadRequestException ;;
  require (negb (match payment with
                 | Some p => negb (bool_decide (pm_status p = PS_PAID))
                 | None => false
                 end && negb isAdmin)) BadRequestException ;;
  let allowEarlyPickupMinutes := default 30%Z (te_earlyPickup env) in
  let earliestAllowedPickupTime := (b_startDate booking - allowEarlyPickupMinutes * 60 * 1000)%Z in
  require (negb ((te_now env <? earliestAllowedPickupTime)%Z && negb isAdmin)) BadRequestException ;;
  s ← get;
  require (finalizedInspection (rd_preTrip (ls_ref s) !! bookingId)) BadRequestException ;;
  checkHandoverOtp (te_now env) bookingId OTP_PICKUP isAdmin handoverOtp reason.

Definition completedPreconditions (env : TransitionEnv) (bookingId : string) (booking : Booking)
    (isAdmin : bool) (reason handoverOtp : option string) : LM unit :=
  require (negb (b_disputeFlag booking && negb isAdmin)) BadRequestException ;;
  s ← get;
  require (finalizedInspection (rd_postTrip (ls_ref s) !! bookingId)) BadRequestException ;;
  checkHandoverOtp (te_now env) bookingId OTP_RETURN isAdmin handoverOtp reason.

Definition validateBusinessPreconditions (env : TransitionEnv) (bookingId : string)
    (booking : Booking) (car : option Car) (payment : option Payment) (targetStatus : BookingStatus)
    (actorRole : ActorRole) (reason handoverOtp : option string) : LM unit :=
  let isAdmin := isAdminActor actorRole in
  when (bool_decide (targetStatus = BS_CONFIRMED))
    (confirmPreconditions bookingId booking car payment isAdmin reason) ;;
  when (bool_decide (targetStatus = BS_HANDOVER_READY)) (handoverReadyPreconditions bookingId car) ;;
  when (bool_decide (targetStatus = BS_ONGOING))
    (ongoingPreconditions env bookingId booking car payment isAdmin reason handoverOtp) ;;
  when (bool_decide (targetStatus = BS_COMPLETED))
    (completedPreconditions env bookingId booking isAdmin reason handoverOtp).

(** ** Cancellation amounts *)
Definition cancelParams (env : TransitionEnv) (booking : Booking) (payment : option Payment)
    (actorRole : ActorRole) (reason : option string) : CalculateCancellationParams :=
  {| cp_startDate := b_startDate booking;
     cp_cancellationTime := te_now env;
     cp_amountPaid := match payment with Some p => pm_amount p | None => b_totalFare booking end;
     cp_depositAmount := Some (match b_securityDeposit booking with
                               | Some d => sd_amount d | None => 0 end);
     cp_actorRole := match actorRole with SYSTEM => ROLE_ADMIN | RoleOf r => r end;
     cp_isAdminOverride := bool_decide (actorRole = RoleOf ROLE_ADMIN) &&
       match reason with Some r => includes "admin_full_refund" r | None => false end;
     cp_isPendingConfirmation := bool_decide (b_status booking = BS_PENDING);
     cp_cancellationMatrix := b_cancellationMatrix booking |}.

Definition cancellationCalc (env : TransitionEnv) (booking : Booking) (payment : option Payment)
    (targetStatus : BookingStatus) (actorRole : ActorRole) (reason : option string)
    : option CancellationCalculationResult :=
  if bool_decide (targetStatus = BS_CANCELLED)
  then Some (calculateCancellationWithConfig (te_cancelMatrix env)
               (cancelParams env booking payment actorRole reason))
  else None.

(** ** The two journals of a refund *)
Definition ledgerLine (account : LedgerAccountType) (entity : option string) (side : LedgerEntrySide)
    (amount : Q) (bookingId paymentId : string) : JournalEntryLineInput :=
  {| li_accountType := account; li_accountEntityId := entity; li_side := Some side;
     li_entrySide := None; li_amount := amount; li_narration := None; li_description := None;
     li_bookingId := Some bookingId; li_paymentId := Some paymentId; li_payoutId := None |}.

Definition pushIf (b : bool) (l : JournalEntryLineInput) : list JournalEntryLineInput :=
  if b then [l] else [].

Definition depositOf (booking : Booking) : Q :=
  match b_securityDeposit booking with Some d => sd_amount d | None => 0 end.

(** The baseline posted when the payment was never journalled: a surplus of
    the components over the total is taken from the platform fee. *)
Definition initialLines (bookingId : string) (booking : Booking) (payment : Payment)
    : list JournalEntryLineInput :=
  let secDeposit := depositOf booking in
  let vendorPayable := b_netToVendor booking in
  let gstTax := b_gstAmount booking in
  let platformFee := b_platformFee booking in
  let totalExpected := b_totalFare booking + secDeposit in
  let subComponents := vendorPayable + platformFee + gstTax + secDeposit in
  let delta := totalExpected - subComponents in
  let adjustedPlatformFee := platformFee + delta in
  let line a e sd amount := ledgerLine a e sd amount bookingId (pm_id payment) in
  [line GATEWAY_CLEARING (Some (str_or (Some (pm_gatewayProvider payment)) "RAZORPAY")) DEBIT totalExpected;
   line VENDOR_PAYABLE (Some (b_vendorId booking)) CREDIT vendorPayable] ++
  pushIf (d_gt adjustedPlatformFee 0) (line PLATFORM_COMMISSION_REVENUE None CREDIT adjustedPlatformFee) ++
  pushIf (d_gt gstTax 0) (line TAX_GST_LIABILITY None CREDIT gstTax) ++
  pushIf (d_gt secDeposit 0)
    (line CUSTOMER_DEPOSIT_ESCROW (Some (b_customerId booking)) CREDIT secDeposit).

Record Reversal : Type := {
  rv_depositRefund : Q;
  rv_vendorReversal : Q;
  rv_platformReversal : Q;
  rv_gstReversal : Q;
}.

(** How a refund is taken back from the accounts the payment went to. *)
Definition reversalParts (booking : Booking) (refundRupees : Q) : Reversal :=
  let depositAmount := depositOf booking in
  let depositActive := match b_securityDeposit booking with
                       | Some d => negb (bool_decide (sd_status d = SD_CANCELLED))
                       | None => true
                       end in
  let depositRefund :=
    if d_gt depositAmount 0 && depositActive then d_min depositAmount refundRupees else 0 in
  let fareRefund :=
    if d_ge (refundRupees - depositRefund) 0 then refundRupees - depositRefund else 0 in
  let totalFare := b_totalFare booking in
  let platformFee := b_platformFee booking in
  let gstAmount := b_gstAmount booking in
  let netToVendor := b_netToVendor booking in
  if d_gt totalFare 0 && d_gt fareRefund 0 then
    let ratio := dec_div fareRefund totalFare in
    let vendorReversal := d_min netToVendor (dec_mul netToVendor ratio) in
    let platformReversal := dec_mul platformFee ratio in
    let gstReversal := dec_mul gstAmount ratio in
    let sub := dec_add (dec_add (dec_add vendorReversal platformReversal) gstReversal) depositRefund in
    let diff := dec_sub refundRupees sub in
    {| rv_depositRefund := depositRefund; rv_vendorReversal := vendorReversal;
       rv_platformReversal := dec_add platformReversal diff; rv_gstReversal := gstReversal |}
  else if d_lt depositRefund refundRupees then
    let vendorReversal := d_min netToVendor (refundRupees - depositRefund) in
    {| rv_depositRefund := depositRefund; rv_vendorReversal := vendorReversal;
       rv_platformReversal := refundRupees - depositRefund - vendorReversal; rv_gstReversal := 0 |}
  else
    {| rv_depositRefund := depositRefund; rv_vendorReversal := 0; rv_platformReversal := 0;
       rv_gstReversal := 0 |}.

Definition reversalLines (bookingId : string) (booking : Booking) (payment : Payment)
    (refundRupees : Q) : list JournalEntryLineInput :=
  let rv := reversalParts booking refundRupees in
  let line a e sd amount := ledgerLine a e sd amount bookingId (pm_id payment) in
  pushIf (d_gt (rv_depositRefund rv) 0)
    (line CUSTOMER_DEPOSIT_ESCROW (Some (b_customerId booking)) DEBIT (rv_depositRefund rv)) ++
  pushIf (d_gt (rv_vendorReversal rv) 0)
    (line VENDOR_PAYABLE (Some (b_vendorId booking)) DEBIT (rv_vendorReversal rv)) ++
  pushIf (d_gt (rv_platformReversal rv) 0)
    (line PLATFORM_COMMISSION_REVENUE None DEBIT (rv_platformReversal rv)) ++
  pushIf (d_gt (rv_gstReversal rv) 0) (line TAX_GST_LIABILITY None DEBIT (rv_gstReversal rv)) ++
  [line GATEWAY_CLEARING (Some (str_or (Some (pm_gatewayProvider payment)) "RAZORPAY")) CREDIT refundRupees].

Definition journalOf (refType key bookingId vendorId paymentId : string)
    (lines : list JournalEntryLineInput) : RecordJournalInput :=
  {| rj_journalId := None; rj_referenceType := refType; rj_referenceId := bookingId;
     rj_narration := None; rj_description := None; rj_lines := Some lines; rj_entries := None;
     rj_idempotencyKey := Some key; rj_currency := None; rj_bookingId := Some bookingId;
     rj_paymentId := Some paymentId; rj_payoutId := None; rj_vendorId := Some vendorId |}.

Definition baselineJournal (bookingId : string) (booking : Booking) (payment : Payment) : RecordJournalInput :=
  journalOf "BOOKING_PAYMENT_VERIFIED" ("jrn_pay_verify_" +:+ bookingId) bookingId (b_vendorId booking)
    (pm_id payment) (initialLines bookingId booking payment).
Definition reversalJournal (bookingId : string) (booking : Booking) (payment : Payment)
    (refundRupees : Q) : RecordJournalInput :=
  journalOf "CANCELLATION_REFUND" ("jrn_refund_intent_" +:+ bookingId) bookingId (b_vendorId booking)
    (pm_id payment) (reversalLines bookingId booking payment refundRupees).

Definition hasBaseline (bookingId : string) (L : LedgerTable) : bool :=
  existsb (fun e => bool_decide (ple_bookingId e = Some bookingId) &&
    (String.eqb (ple_referenceType e) "BOOKING_PAYMENT_VERIFIED" ||
     String.eqb (ple_referenceType e) "BOOKING_CONFIRMATION")) L.

(** [recordJournal] in the caller's transaction, on the platform ledger. *)
Definition postJournal (env : TransitionEnv) (suffix : string) (input : RecordJournalInput) : LM unit :=
  zoom the_ledger (fun L s => set_money (set_ledger L (ls_money s)) s)
    (r ← recordJournal (te_now env) (te_journalId env +:+ suffix) true input; mret tt).

Definition refundRupeesOf (paise : Z) : Q :=
  inject_Z (js_toFixed 2 (js_div (inject_Z paise) 100)) / 100.

Definition refundIntent (env : TransitionEnv) (bookingId : string) (booking : Booking)
    (payment : option Payment) (actorId : string) (paise : Z) : LM unit :=
  let refundRupees := refundRupeesOf paise in
  zoom ls_money set_money
    (createPaymentRefund
       {| pr_paymentId := match payment with Some p => pm_id p | None => bookingId end;
          pr_bookingId := bookingId; pr_gatewayRefundId := None;
          pr_idempotencyKey := "rfnd_" +:+ bookingId +:+ "_" +:+
            match payment with Some p => str_or (Some (pm_id p)) "pay" | None => "pay" end +:+ "_" +:+
            pretty (te_now env);
          pr_requestedAmount := refundRupees; pr_processedAmount := None;
          pr_requestedByUserId := Some actorId; pr_status := RS_PENDING |}) ;;
  match payment with
  | Some p =>
    when (te_hasLedger env)
      (s ← get;
       when (negb (hasBaseline bookingId (the_ledger s)) && bool_decide (pm_status p = PS_PAID))
         (postJournal env "a" (baselineJournal bookingId booking p)) ;;
       postJournal env "b" (reversalJournal bookingId booking p refundRupees))
  | None => mret tt
  end.

(** ** The steps of the transaction *)

(** [booking.update({ where: { id, status: previousStatus } })]: no row
    matches when the status changed meanwhile. *)
Definition updateBooking (env : TransitionEnv) (bookingId : string) (previousStatus targetStatus : BookingStatus)
    (actorId : string) (reason : option string) (calc : option CancellationCalculationResult) : LM unit :=
  s ← get;
  match ls_bookings s !! bookingId with
  | Some b =>
    require (bool_decide (b_status b = previousStatus)) PrismaP2025 ;;
    modify (set_booking bookingId
      {| b_customerId := b_customerId b; b_vendorId := b_vendorId b; b_carId := b_carId b;
         b_pickupHubId := b_pickupHubId b; b_startDate := b_startDate b; b_endDate := b_endDate b;
         b_totalFare := b_totalFare b; b_platformFee := b_platformFee b; b_gstAmount := b_gstAmount b;
         b_netToVendor := b_netToVendor b; b_disputeFlag := b_disputeFlag b; b_quoteTotal := b_quoteTotal b;
         b_couponId := b_couponId b; b_discountAmount := b_discountAmount b;
         b_corporateAccountId := b_corporateAccountId b;
         b_cancellationMatrix := b_cancellationMatrix b; b_commissionSplit := b_commissionSplit b;
         b_securityDeposit :=
           match b_securityDeposit b with
           | Some d =>
             if bool_decide (targetStatus = BS_CANCELLED) &&
                bool_decide (sd_status d ∈ [SD_REQUIRED; SD_HELD])
             then Some {| sd_amount := sd_amount d; sd_status := SD_CANCELLED;
                          sd_heldAt := sd_heldAt d; sd_razorpayPaymentId := sd_razorpayPaymentId d;
                          sd_releasedAt := Some (te_now env); sd_refundedAmount := sd_refundedAmount d;
                          sd_deductedAmount := sd_deductedAmount d; sd_razorpayRefundId := sd_razorpayRefundId d |}
             else Some d
           | None => None
           end;
         b_status := targetStatus;
         b_cancellationReason := opt_or reason (b_cancellationReason b);
         b_cancellationFee := match calc with Some c => Some (store (cr_cancellationFee c))
                              | None => b_cancellationFee b end;
         b_refundAmount := match calc with Some c => Some (store (cr_refundAmount c))
                           | None => b_refundAmount b end;
         b_cancelledAt := match calc with Some _ => Some (te_now env) | None => b_cancelledAt b end;
         b_cancelledBy := match calc with Some _ => Some actorId | None => b_cancelledBy b end |})
  | None => throw PrismaP2025
  end.

Definition onFleet (f : Fleet -> Fleet) : LM unit :=
  modify (fun s => set_fleet (f (ls_fleet s)) s).

Definition statusOf (car : option Car) : VehicleOperationalStatus :=
  match car with Some c => car_operationalStatus c | None => VO_ACTIVE end.

Definition vehicleAudit (bookingId : string) (booking : Booking) (actorId action : string)
    (fromStatus toStatus : VehicleOperationalStatus) : LM unit :=
  onFleet (add_vehicle_audit
    {| va_carId := b_carId booking; va_actorId := actorId; va_action := action;
       va_fromStatus := fromStatus; va_toStatus := toStatus; va_bookingId := bookingId |}).

(** [/damage|scratch|dent|accident|broken|cracked/i] *)
Definition mentionsDamage (notes : string) : bool :=
  existsb (fun w => includes w (lowercase notes))
    ["damage"; "scratch"; "dent"; "accident"; "broken"; "cracked"].
Definition inspectionDamage (i : option Inspection) : bool :=
  match i with
  | Some x => (0 <? insp_damagePhotos x)%nat ||
              match truthy (insp_conditionNotes x) with Some n => mentionsDamage n | None => false end
  | None => false
  end.
Definition activeClaims (bookingId : string) (claims : list (string * DamageClaimStatus)) : bool :=
  existsb (fun c => String.eqb (fst c) bookingId &&
                    negb (bool_decide (snd c ∈ [DC_REJECTED; DC_SETTLED]))) claims.

(** [car.update]: the row must exist. *)
Definition updateCar (carId : string) (st : VehicleOperationalStatus) (available : bool) : LM unit :=
  s ← get;
  c ← from_option_or (fl_cars (ls_fleet s) !! carId) PrismaP2025;
  onFleet (set_car carId {| car_operationalStatus := st; car_verificationStatus := car_verificationStatus c;
                            car_isAvailable := available; car_type := car_type c;
                            car_pickupHubId := car_pickupHubId c |}).

Definition SEVEN_DAYS_MS : Z := 7 * 24 * 60 * 60 * 1000.

(** Step 5.3: damage holds the vehicle, a clean return releases it. *)
Definition settleVehicle (env : TransitionEnv) (bookingId : string) (booking : Booking) (car : option Car)
    (actorId : string) : LM unit :=
  s ← get;
  let hasDamage := inspectionDamage (rd_postTrip (ls_ref s) !! bookingId) ||
                   activeClaims bookingId (rd_claims (ls_ref s)) in
  if hasDamage then
    onFleet (add_block {| vb_id := te_blockId env; vb_carId := b_carId booking; vb_vendorId := b_vendorId booking;
                          vb_blockType := VB_SAFETY_HOLD; vb_startDate := te_now env;
                          vb_endDate := (te_now env + SEVEN_DAYS_MS)%Z |}) ;;
    updateCar (b_carId booking) VO_INACTIVE false ;;
    vehicleAudit bookingId booking actorId "POST_RENTAL_DAMAGE_HOLD" (statusOf car) VO_INACTIVE
  else
    updateCar (b_carId booking) VO_ACTIVE true ;;
    vehicleAudit bookingId booking actorId "RENTAL_COMPLETED" (statusOf car) VO_ACTIVE.

(** Step 5.5: [updateMany] leaves a missing record missing. *)
Definition setStage (bookingId : string) (st : FulfillmentStage) (f : Fleet) : Fleet :=
  set_fulfillment (alter (fun r => {| ff_vendorId := ff_vendorId r; ff_branchId := ff_branchId r;
                                      ff_carId := ff_carId r; ff_stage := st |})
                     bookingId (fl_fulfillment f)) f.
Definition syncFulfillment (bookingId : string) (booking : Booking) (car : option Car)
    (targetStatus : BookingStatus) : LM unit :=
  match targetStatus with
  | BS_CONFIRMED =>
    let initialStage := if String.eqb (b_carId booking) "" then FS_PENDING_ALLOCATION else FS_ALLOCATED in
    onFleet (fun f => set_fulfillment (<[bookingId :=
      {| ff_vendorId := b_vendorId booking;
         ff_branchId := opt_or (b_pickupHubId booking)
                          match car with Some c => car_pickupHubId c | None => None end;
         ff_carId := b_carId booking; ff_stage := initialStage |}]> (fl_fulfillment f)) f)
  | BS_CANCELLED | BS_EXPIRED => onFleet (setStage bookingId FS_CANCELLED)
  | BS_HANDOVER_READY => onFleet (setStage bookingId FS_READY_FOR_PICKUP)
  | BS_ONGOING => onFleet (setStage bookingId FS_ACTIVE_RENTAL)
  | BS_COMPLETED => onFleet (setStage bookingId FS_COMPLETED)
  | _ => mret tt
  end.

(** Step 5.6: the split is stored in the price snapshot. *)
Definition storeCommission (bookingId : string) (booking : Booking) (car : option Car) : LM unit :=
  s ← get;
  match ls_bookings s !! bookingId with
  | Some b =>
    let split := calculateCommission (rd_rules (ls_ref s))
      {| cc_vendorId := b_vendorId booking; cc_branchId := truthy (b_pickupHubId booking);
         cc_vehicleClass := match car with Some c => car_type c | None => CAT_SEDAN end;
         cc_channel := None; cc_grossAmount := rnd (b_totalFare booking); cc_discountAmount := None;
         cc_subsidyAmount := None |} in
    modify (set_booking bookingId
      {| b_customerId := b_customerId b; b_vendorId := b_vendorId b; b_carId := b_carId b;
         b_pickupHubId := b_pickupHubId b; b_startDate := b_startDate b; b_endDate := b_endDate b;
         b_totalFare := b_totalFare b; b_platformFee := b_platformFee b; b_gstAmount := b_gstAmount b;
         b_netToVendor := b_netToVendor b; b_disputeFlag := b_disputeFlag b; b_quoteTotal := b_quoteTotal b;
         b_couponId := b_couponId b; b_discountAmount := b_discountAmount b;
         b_corporateAccountId := b_corporateAccountId b;
         b_cancellationMatrix := b_cancellationMatrix b; b_commissionSplit := Some split;
         b_securityDeposit := b_securityDeposit b; b_status := b_status b;
         b_cancellationReason := b_cancellationReason b; b_cancellationFee := b_cancellationFee b;
         b_refundAmount := b_refundAmount b; b_cancelledAt := b_cancelledAt b;
         b_cancelledBy := b_cancelledBy b |})
  | None => mret tt
  end.

Definition correlationIdOf (env : TransitionEnv) (bookingId : string) (st : BookingStatus) : string :=
  "evt_booking_" +:+ status_lower st +:+ "_" +:+ bookingId +:+ "_" +:+ pretty (te_now env).

(** [bookingOutboxEvent.create]: [correlationId] is unique, and so is the id. *)
Definition createOutboxEvent (env : TransitionEnv) (bookingId : string) (booking : Booking)
    (actorId : string) (previousStatus targetStatus : BookingStatus)
    (calc : option CancellationCalculationResult) : LM unit :=
  s ← get;
  require (negb (existsb (fun e => String.eqb (oe_correlationId e) (correlationIdOf env bookingId targetStatus) ||
                                   String.eqb (oe_id e) (te_eventId env))
                   (os_events (ls_outbox s)))) PrismaP2002 ;;
  modify (set_outbox
    {| os_events := os_events (ls_outbox s) ++
         [{| oe_id := te_eventId env; oe_bookingId := bookingId;
             oe_eventType := resolveEventType targetStatus; oe_tenantId := b_vendorId booking;
             oe_actorId := actorId; oe_previousStatus := previousStatus; oe_newStatus := targetStatus;
             oe_correlationId := correlationIdOf env bookingId targetStatus;
             oe_customerId := b_customerId booking;
             oe_refundAmount := option_map cr_refundAmount calc; oe_status := OB_PENDING;
             oe_retryCount := 0; oe_maxRetries := 3; oe_updatedAt := te_now env |}];
       os_sent := os_sent (ls_outbox s) |}).

Definition transitionTransaction (env : TransitionEnv) (bookingId : string) (booking : Booking)
    (car : option Car) (payment : option Payment) (actorId : string)
    (targetStatus : BookingStatus) (reason : option string)
    (calc : option CancellationCalculationResult) : LM unit :=
  updateBooking env bookingId (b_status booking) targetStatus actorId reason calc ;;
  when (match calc with Some c => (0 <? cr_refundAmountInPaise c)%Z | None => false end)
    (refundIntent env bookingId booking payment actorId
       (match calc with Some c => cr_refundAmountInPaise c | None => 0%Z end)) ;;
  when (bool_decide (targetStatus = BS_CONFIRMED))
    (vehicleAudit bookingId booking actorId "BOOKING_RESERVED" (statusOf car) (statusOf car)) ;;
  when (bool_decide (targetStatus = BS_ONGOING))
    (vehicleAudit bookingId booking actorId "RENTAL_STARTED" (statusOf car) (statusOf car)) ;;
  when (bool_decide (targetStatus = BS_COMPLETED)) (settleVehicle env bookingId booking car actorId) ;;
  when (bool_decide (targetStatus = BS_CANCELLED) || bool_decide (targetStatus = BS_EXPIRED))
    (vehicleAudit bookingId booking actorId
       (if bool_decide (targetStatus = BS_CANCELLED) then "BOOKING_CANCELLED" else "BOOKING_EXPIRED")
       (statusOf car) (statusOf car)) ;;
  syncFulfillment bookingId booking car targetStatus ;;
  when (bool_decide (targetStatus = BS_CONFIRMED) && te_hasCommission env)
    (storeCommission bookingId booking car) ;;
  createOutboxEvent env bookingId booking actorId (b_status booking) targetStatus calc.

(** ** After the commit *)

(** [paymentRefund.updateMany({ where: { bookingId, status: PENDING } })]: the
    statement fails as a whole when it would give one gateway id to two rows. *)
Definition isPendingRefund (bookingId : string) (r : PaymentRefund) : bool :=
  String.eqb (pr_bookingId r) bookingId && bool_decide (pr_status r = RS_PENDING).
Definition gatewayIdClash (bookingId : string) (gid : option string) (l : list PaymentRefund) : bool :=
  match gid with
  | Some g =>
    existsb (fun r => negb (isPendingRefund bookingId r) && bool_decide (pr_gatewayRefundId r = Some g)) l ||
    (1 <? length (filter (fun r => isPendingRefund bookingId r) l))%nat
  | None => false
  end.
Definition updatePendingRefunds (bookingId : string) (st : RefundStatus) (gid : option string)
    (processed : option Q) : M MoneyStore unit :=
  s ← get;
  require (negb (existsb (isPendingRefund bookingId) (ms_refunds s) &&
                 gatewayIdClash bookingId gid (ms_refunds s))) PrismaP2002 ;;
  modify (set_refunds (map (fun r => if isPendingRefund bookingId r then
    {| pr_paymentId := pr_paymentId r; pr_bookingId := pr_bookingId r;
       pr_gatewayRefundId := match gid with Some g => Some g | None => pr_gatewayRefundId r end;
       pr_idempotencyKey := pr_idempotencyKey r; pr_requestedAmount := pr_requestedAmount r;
       pr_processedAmount := match processed with Some q => Some (store q) | None => pr_processedAmount r end;
       pr_requestedByUserId := pr_requestedByUserId r; pr_status := st |} else r) (ms_refunds s))).

(** Step 7.1: the gateway refund and what becomes of the intent. *)
Definition dispatchRefund (env : TransitionEnv) (bookingId : string) (customerId : string) (paise : Z)
    : M MoneyStore unit :=
  try_catch
    (refundRes ← refund (te_refund env) (Some customerId) bookingId paise None None;
     updatePendingRefunds bookingId RS_PROCESSED (truthy (rr_refundId refundRes))
       (Some (rr_refundAmount refundRes)))
    (fun _ => updatePendingRefunds bookingId RS_RETRYABLE None None).

Definition afterCommit (env : TransitionEnv) (bookingId : string) (booking : Booking)
    (actorId : string) (actorRole : ActorRole) (targetStatus : BookingStatus)
    (calc : option CancellationCalculationResult) : LM unit :=
  when (bool_decide (actorRole = RoleOf ROLE_ADMIN))
    (modify (fun s => set_audit (ls_audit s ++
       [{| al_userId := actorId; al_action := "BOOKING_LIFECYCLE_" +:+ status_upper targetStatus;
           al_entityId := bookingId |}]) s)) ;;
  when (match calc with Some c => (0 <? cr_refundAmountInPaise c)%Z | None => false end)
    (zoom ls_money set_money (dispatchRefund env bookingId (b_customerId booking)
       (match calc with Some c => cr_refundAmountInPaise c | None => 0%Z end))).

(** ** [executeTransition] *)
Definition lastEvent (bookingId : string) (st : BookingStatus) (events : list BookingOutboxEvent)
    : option BookingOutboxEvent :=
  List.find (fun e => String.eqb (oe_bookingId e) bookingId && bool_decide (oe_newStatus e = st))
    (reverse events).

(** The body of the [try]. *)
Definition transitionBody (env : TransitionEnv) (ctx : BookingTransitionContext) : LM TransitionResult :=
  let bookingId := tc_bookingId ctx in
  let targetStatus := tc_targetStatus ctx in
  s ← get;
  booking ← from_option_or (ls_bookings s !! bookingId) NotFoundException;
  if bool_decide (b_status booking = targetStatus) then
    mret {| tr_outboxEventId :=
              match lastEvent bookingId targetStatus (os_events (ls_outbox s)) with
              | Some e => str_or (Some (oe_id e)) "idempotent_existing"
              | None => "idempotent_existing"
              end;
            tr_previousStatus := b_status booking; tr_newStatus := targetStatus |}
  else
    let car := fl_cars (ls_fleet s) !! b_carId booking in
    let payment := ms_payments (ls_money s) !! bookingId in
    validateAuthorization (rd_vendorUser (ls_ref s) !! b_vendorId booking) booking (tc_actorId ctx)
      (tc_actorRole ctx) targetStatus ;;
    validateStateTransition (b_status booking) targetStatus ;;
    validateBusinessPreconditions env bookingId booking car payment targetStatus (tc_actorRole ctx)
      (tc_reason ctx) (tc_handoverOtp ctx) ;;
    let calc := cancellationCalc env booking payment targetStatus (tc_actorRole ctx) (tc_reason ctx) in
    transaction (transitionTransaction env bookingId booking car payment (tc_actorId ctx) targetStatus
                   (tc_reason ctx) calc) ;;
    afterCommit env bookingId booking (tc_actorId ctx) (tc_actorRole ctx) targetStatus calc ;;
    mret {| tr_outboxEventId := te_eventId env; tr_previousStatus := b_status booking;
            tr_newStatus := targetStatus |}.

Definition LOCK_TTL_MS : Z := 20000.

Definition executeTransition (env : TransitionEnv) (ctx : BookingTransitionContext) : LM TransitionResult :=
  lockToken ← zoom ls_locks set_locks
    (acquireCancellationLock (te_lockUp env) (te_now env) (tc_bookingId ctx) (te_token env) LOCK_TTL_MS);
  try_finally
    (try_catch (transitionBody env ctx)
       (fun e => if bool_decide (e = PrismaP2025) then throw ConflictException else throw e))
    (zoom ls_locks set_locks
       (r ← releaseCancellationLock (te_releaseUp env) (te_later env) (tc_bookingId ctx) lockToken; mret tt)).

(** ** The public operations *)
Definition transition (env : TransitionEnv) (bookingId actorId : string) (actorRole : ActorRole)
    (target : BookingStatus) (reason otp : option string) : LM TransitionResult :=
  executeTransition env {| tc_bookingId := bookingId; tc_actorId := actorId; tc_actorRole := actorRole;
                           tc_targetStatus := target; tc_reason := reason; tc_handoverOtp := otp |}.

Definition confirmBooking env bookingId actorId actorRole reason :=
  transition env bookingId actorId actorRole BS_CONFIRMED reason None.
Definition rejectBooking env bookingId actorId actorRole (reason : string) : LM TransitionResult :=
  require (negb (String.length (trim reason) =? 0)%nat) BadRequestException ;;
  transition env bookingId actorId actorRole BS_CANCELLED (Some ("Vendor Rejected: " +:+ reason)) None.
Definition cancelBooking env bookingId actorId actorRole (reason : string) : LM TransitionResult :=
  require (negb (String.length (trim reason) =? 0)%nat) BadRequestException ;;
  transition env bookingId actorId actorRole BS_CANCELLED (Some reason) None.
Definition markReadyForHandover env bookingId actorId actorRole :=
  transition env bookingId actorId actorRole BS_HANDOVER_READY None None.
Definition startRental env bookingId actorId actorRole handoverOtp adminReason :=
  transition env bookingId actorId actorRole BS_ONGOING adminReason handoverOtp.
Definition initiateReturn env bookingId actorId actorRole :=
  transition env bookingId actorId actorRole BS_RETURN_PENDING None None.
Definition completeBooking env bookingId actorId actorRole handoverOtp adminReason :=
  transition env bookingId actorId actorRole BS_COMPLETED adminReason handoverOtp.
Definition expireBooking env bookingId systemReason :=
  transition env bookingId "SYSTEM" SYSTEM BS_EXPIRED (Some systemReason) None.
End lifecycle.

(** ** What a booking occupies *)
Record Slot : Type := {
  sl_status : BookingStatus;
  sl_carId : string;
  sl_start : Z;
  sl_end : Z;
}.
Definition slot (b : Booking) : Slot :=
  {| sl_status := b_status b; sl_carId := b_carId b; sl_start := b_startDate b; sl_end := b_endDate b |}.
Definition with_status (st : BookingStatus) (x : Slot) : Slot :=
  {| sl_status := st; sl_carId := sl_carId x; sl_start := sl_start x; sl_end := sl_end x |}.
Definition slots {R} (s : LifecycleStore R) : gmap string Slot := slot <$> ls_bookings s.

Lemma lookup_slots {R} (s : LifecycleStore R) id : slots s !! id = slot <$> (ls_bookings s !! id).
Proof. apply lookup_fmap. Qed.

(** ** Frames: what each step leaves alone *)
Section frames.
Context {R : Type} {redis : Redis R} {col : NumericColumn} {dec : DecimalArith} {bcrypt : Bcrypt}.
Implicit Types s : LifecycleStore R.

(** Everything but the handover codes and the locks. *)
Record unchanged s0 s : Prop := {
  un_bookings : ls_bookings s = ls_bookings s0;
  un_fleet : ls_fleet s = ls_fleet s0;
  un_money : ls_money s = ls_money s0;
  un_outbox : ls_outbox s = ls_outbox s0;
  un_audit : ls_audit s = ls_audit s0;
  un_ref : ls_ref s = ls_ref s0;
}.
Lemma unchanged_refl s : unchanged s s.
Proof. done. Qed.

Lemma preserves_zoom_otps {A} s0 (m : M OtpTable A) :
  preserves (unchanged s0) (zoom ls_otps set_otps m).
Proof. apply preserves_zoom. by intros t s [? ? ? ? ? ?]. Qed.

Lemma preserves_get_const {A} (P : LifecycleStore R -> Prop) (k : LifecycleStore R -> M (LifecycleStore R) A) :
  (forall s0, preserves P (k s0)) -> preserves P (s ← get; k s).
Proof. intros Hk. apply preserves_get. intros s r s' Hs H. by eapply Hk. Qed.

Lemma preserves_checkOtp s0 now b ty adm code reason :
  preserves (unchanged s0) (checkHandoverOtp now b ty adm code reason).
Proof.
  unfold checkHandoverOtp. destruct (negb adm); [destruct (truthy code)|];
    auto using preserves_zoom_otps with preserves.
Qed.
Hint Resolve preserves_checkOtp preserves_get_const : preserves.

Lemma preserves_preconditions s0 env id b car pay st role reason code :
  preserves (unchanged s0) (validateBusinessPreconditions env id b car pay st role reason code).
Proof.
  unfold validateBusinessPreconditions, confirmPreconditions, handoverReadyPreconditions,
    ongoingPreconditions, completedPreconditions.
  auto 20 with preserves.
Qed.

Lemma preserves_authorization s0 vu b actor role st :
  preserves (unchanged s0) (validateAuthorization vu b actor role st).
Proof. unfold validateAuthorization. destruct role as [|[]]; auto 12 with preserves. Qed.

(** Steps that move no booking and write no event. *)
Definition inert (X : gmap string Booking) (O : OutboxState) s : Prop :=
  ls_bookings s = X /\ ls_outbox s = O.

Lemma inert_money {A} X O (m : M MoneyStore A) : preserves (inert X O) (zoom ls_money set_money m).
Proof. by apply preserves_zoom. Qed.
Lemma inert_journal X O env suffix j : preserves (inert X O) (postJournal env suffix j).
Proof. apply preserves_zoom. by intros L s [? ?]. Qed.
Lemma inert_fleet X O f : preserves (inert X O) (onFleet f).
Proof. apply preserves_modify. by intros s [? ?]. Qed.
Hint Resolve inert_money inert_journal inert_fleet : preserves.

Lemma inert_refundIntent X O env id b pay actor paise :
  preserves (inert X O) (refundIntent env id b pay actor paise).
Proof. unfold refundIntent. destruct pay; auto 12 with preserves. Qed.
Lemma inert_audit X O id b actor action f t : preserves (inert X O) (vehicleAudit id b actor action f t).
Proof. apply inert_fleet. Qed.
Lemma inert_updateCar X O c st a : preserves (inert X O) (updateCar c st a).
Proof. unfold updateCar. auto 8 with preserves. Qed.
Hint Resolve inert_refundIntent inert_audit inert_updateCar : preserves.
Lemma inert_settle X O env id b car actor : preserves (inert X O) (settleVehicle env id b car actor).
Proof. apply preserves_get_const. intros s. cbv zeta. destruct (_ || _); auto 10 with preserves. Qed.
Lemma inert_fulfillment X O id b car st : preserves (inert X O) (syncFulfillment id b car st).
Proof. unfold syncFulfillment. destruct st; auto with preserves. Qed.
Hint Resolve inert_settle inert_fulfillment : preserves.

Lemma inert_afterCommit X O env id b actor role st calc :
  preserves (inert X O) (afterCommit env id b actor role st calc).
Proof.
  unfold afterCommit. apply preserves_bind; [|auto with preserves].
  apply preserves_when, preserves_modify. by intros s [? ?].
Qed.
End frames.
#[export] Hint Resolve preserves_checkOtp preserves_get_const preserves_preconditions
  preserves_authorization inert_money inert_journal inert_fleet inert_refundIntent inert_audit
  inert_updateCar inert_settle inert_fulfillment inert_afterCommit : preserves.

(** ** What the transaction does to bookings and outbox *)
Section transaction_laws.
Context {R : Type} {redis : Redis R} {col : NumericColumn} {dec : DecimalArith} {bcrypt : Bcrypt}.
Implicit Types s : LifecycleStore R.

Lemma updateBooking_Ok env id prev target actor reason calc s u s' :
  updateBooking env id prev target actor reason calc s = (Ok u, s') ->
  exists b b', ls_bookings s !! id = Some b /\ b_status b = prev /\
    s' = set_booking id b' s /\ slot b' = with_status target (slot b) /\
    b_vendorId b' = b_vendorId b /\ b_customerId b' = b_customerId b /\
    b_totalFare b' = b_totalFare b.
Proof.
  unfold updateBooking. rewrite get_bind. destruct (ls_bookings s !! id) as [b|]; [|done].
  rewrite require_bind. case_bool_decide as Hst; [|done]. intros [= _ <-].
  do 2 eexists. by repeat split.
Qed.

(** The event a transition appends. *)
Definition event_of (env : TransitionEnv) (id : string) (b : Booking) (actor : string)
    (target : BookingStatus) (e : BookingOutboxEvent) : Prop :=
  oe_id e = te_eventId env /\ oe_bookingId e = id /\ oe_eventType e = resolveEventType target /\
  oe_tenantId e = b_vendorId b /\ oe_customerId e = b_customerId b /\ oe_actorId e = actor /\
  oe_previousStatus e = b_status b /\ oe_newStatus e = target /\ oe_status e = OB_PENDING /\
  oe_retryCount e = 0%Z /\ oe_maxRetries e = 3%Z.

Lemma createOutboxEvent_Ok env id b actor prev target calc s u s' :
  createOutboxEvent env id b actor prev target calc s = (Ok u, s') -> prev = b_status b ->
  ls_bookings s' = ls_bookings s /\
  exists e, os_events (ls_outbox s') = os_events (ls_outbox s) ++ [e] /\ event_of env id b actor target e.
Proof.
  unfold createOutboxEvent. rewrite get_bind, require_bind. destruct (negb _); [|done].
  intros [= _ <-] ->. split; [done|]. eexists. split; [done|]. by repeat split.
Qed.

Lemma storeCommission_slots id b car s r s' :
  storeCommission id b car s = (r, s') -> slots s' = slots s /\ ls_outbox s' = ls_outbox s.
Proof.
  unfold storeCommission. rewrite get_bind. destruct (ls_bookings s !! id) as [b0|] eqn:E;
    [|by intros [= _ <-]]. intros [= _ <-]. split; [|done].
  apply map_eq. intros i. rewrite !lookup_slots. simpl. destruct (decide (id = i)) as [<-|Hne].
  - by rewrite lookup_insert_eq, E.
  - by rewrite lookup_insert_ne.
Qed.

Definition slots_and_events (X : gmap string Slot) (O : OutboxState) s : Prop :=
  slots s = X /\ ls_outbox s = O.
Lemma inert_slots {A} (m : M (LifecycleStore R) A) X O :
  (forall B O, preserves (inert B O) m) -> preserves (slots_and_events X O) m.
Proof.
  intros Hm s r s' H [HX HO]. destruct (Hm (ls_bookings s) (ls_outbox s) s r s' H) as [H1 H2]; [done|].
  split; [|congruence]. unfold slots in *. by rewrite H1.
Qed.

Lemma transitionTransaction_Ok env id b car pay actor target reason calc s u s' :
  transitionTransaction env id b car pay actor target reason calc s = (Ok u, s') ->
  exists b0, ls_bookings s !! id = Some b0 /\ b_status b0 = b_status b /\
    slots s' = <[id := with_status target (slot b0)]> (slots s) /\
    exists e, os_events (ls_outbox s') = os_events (ls_outbox s) ++ [e] /\ event_of env id b actor target e.
Proof.
  unfold transitionTransaction. intros (? & s1 & Hu & H)%bind_Ok.
  apply updateBooking_Ok in Hu as (b0 & b' & Hb0 & Hst & -> & Hsl & _).
  assert (slots (set_booking id b' s) = <[id := with_status target (slot b0)]> (slots s)) as HX
    by (unfold slots; simpl; by rewrite fmap_insert, Hsl).
  set (X := <[id := with_status target (slot b0)]> (slots s)) in *.
  assert (slots_and_events X (ls_outbox s) (set_booking id b' s)) as Hinv by done. clear HX.
  set (s1 := set_booking id b' s) in *. clearbody s1.
  exists b0. split; [done|]. split; [done|].
  do 6 (skip_in H Hinv (apply inert_slots; intros; auto 6 with preserves)).
  skip_in H Hinv idtac.
  2: { apply preserves_when. intros ? ? ? E [H1 H2]. apply storeCommission_slots in E as [E1 E2].
       split; congruence. }
  apply createOutboxEvent_Ok in H as (Hbk & e & He & Hev); [|done].
  destruct Hinv as [H1 H2]. rewrite H2 in He. split; [|by exists e]. unfold slots in *. by rewrite Hbk.
Qed.
End transaction_laws.

(** ** One transition, whole *)
Definition permitted (vendorUser : option string) (b : Booking) (actor : string) (role : ActorRole)
    (target : BookingStatus) : Prop :=
  match role with
  | SYSTEM | RoleOf ROLE_ADMIN => True
  | RoleOf ROLE_CUSTOMER => b_customerId b = actor /\ target ∈ [BS_CANCELLED; BS_RETURN_PENDING]
  | RoleOf ROLE_VENDOR => vendorUser = Some actor /\ target <> BS_REFUNDED
  | RoleOf ROLE_SUPPORT_AGENT => b_customerId b = actor \/ vendorUser = Some actor
  end.

(** What confirming promises: a vehicle in service, no block and no other
    reservation in the period, and a payment or an administrator's reason. *)
Definition confirmable {R} (s : LifecycleStore R) (id : string) (b : Booking) (role : ActorRole)
    (reason : option string) : Prop :=
  (forall c, fl_cars (ls_fleet s) !! b_carId b = Some c ->
     car_operationalStatus c = VO_ACTIVE /\ car_verificationStatus c = VV_VERIFIED) /\
  overlappingBlock b (fl_blocks (ls_fleet s)) = false /\
  overlappingBooking id b (ls_bookings s) = false /\
  ((exists p, ms_payments (ls_money s) !! id = Some p /\ pm_status p = PS_PAID) \/
   (isAdminActor role = true /\ reasonShorter 10 reason = false)).

Section body_laws.
Context {R : Type} {redis : Redis R} {col : NumericColumn} {dec : DecimalArith} {bcrypt : Bcrypt}.
Implicit Types s : LifecycleStore R.

Lemma validateAuthorization_Ok vu b actor role target s u s' :
  validateAuthorization vu b actor role target s = (Ok u, s') ->
  s' = s /\ permitted vu b actor role target.
Proof.
  unfold validateAuthorization, permitted.
  destruct role as [|[]]; try (by intros [= _ <-]); rewrite require_bind;
    (destruct (String.eqb_spec (b_customerId b) actor) as [Hc|Hc];
     case_bool_decide as Hv; simpl; [| | |done]);
    rewrite ?bind_run; cbv [when bool_decide decide decide_rel Role_eq_dec require throw mret M_ret mbind M_bind];
    simpl; intros H; repeat case_match; simplify_eq/=;
    repeat match goal with
    | H : _ || _ = true |- _ => apply orb_true_iff in H as [H|H]; apply bool_decide_eq_true in H
    | H : negb _ = true |- _ => apply negb_true_iff, bool_decide_eq_false in H
    end; subst; (split; [done|]); try (split; [done|]); set_solver.
Qed.

Lemma validateStateTransition_Ok cur target s u s' :
  validateStateTransition cur target s = (Ok u, s') -> s' = s /\ target ∈ matrix cur.
Proof. intros [H ->]%require_Ok. split; [done|]. by apply bool_decide_eq_true in H. Qed.

Lemma carOperational_true c : carOperational c = true ->
  forall x, c = Some x -> car_operationalStatus x = VO_ACTIVE.
Proof. destruct c; [|done]. by intros H%bool_decide_eq_true x [= <-]. Qed.
Lemma carVerified_true c : carVerified c = true ->
  forall x, c = Some x -> car_verificationStatus x = VV_VERIFIED.
Proof. destruct c; [|done]. by intros H%bool_decide_eq_true x [= <-]. Qed.

Lemma preconditions_confirm env id b role reason code s u s' :
  validateBusinessPreconditions env id b (fl_cars (ls_fleet s) !! b_carId b)
    (ms_payments (ls_money s) !! id) BS_CONFIRMED role reason code s = (Ok u, s') ->
  confirmable s id b role reason.
Proof.
  unfold validateBusinessPreconditions. intros (? & s1 & H & _)%bind_Ok.
  rewrite bool_decide_true in H by done. unfold when, confirmPreconditions in H. cbv zeta in H.
  rewrite require_bind in H. destruct (carOperational _) eqn:Eo; [|done].
  rewrite require_bind in H. destruct (carVerified _) eqn:Ev; [|done].
  rewrite get_bind, require_bind in H. destruct (overlappingBlock _ _) eqn:Eb; [done|].
  simpl in H. rewrite require_bind in H. destruct (overlappingBooking _ _ _) eqn:Ek; [done|]. simpl in H.
  split; [|split; [done|split; [done|]]].
  - intros c Hc. split; [by eapply carOperational_true|by eapply carVerified_true].
  - destruct (match ms_payments (ls_money s) !! id with Some _ => _ | None => _ end) eqn:Ep.
    + left. destruct (ms_payments (ls_money s) !! id) as [p|]; [|done].
      apply bool_decide_eq_true in Ep. by exists p.
    + right. simpl in H. rewrite require_bind in H. destruct (isAdminActor role); [|done].
      apply require_Ok in H as [H _]. by apply negb_true_iff in H.
Qed.

Lemma transitionBody_cases env ctx s r s' :
  transitionBody env ctx s = (r, s') ->
  unchanged s s' \/
  exists b e, ls_bookings s !! tc_bookingId ctx = Some b /\ b_status b <> tc_targetStatus ctx /\
    tc_targetStatus ctx ∈ matrix (b_status b) /\
    permitted (rd_vendorUser (ls_ref s) !! b_vendorId b) b (tc_actorId ctx) (tc_actorRole ctx)
      (tc_targetStatus ctx) /\
    (tc_targetStatus ctx = BS_CONFIRMED ->
       confirmable s (tc_bookingId ctx) b (tc_actorRole ctx) (tc_reason ctx)) /\
    slots s' = <[tc_bookingId ctx := with_status (tc_targetStatus ctx) (slot b)]> (slots s) /\
    os_events (ls_outbox s') = os_events (ls_outbox s) ++ [e] /\
    event_of env (tc_bookingId ctx) b (tc_actorId ctx) (tc_targetStatus ctx) e.
Proof.
  unfold transitionBody. cbv zeta. rewrite get_bind, from_option_bind.
  destruct (ls_bookings s !! tc_bookingId ctx) as [b|] eqn:Eb; [|intros [= _ <-]; by left].
  case_bool_decide as Hsame; [intros [= _ <-]; by left|]. rewrite bind_run.
  destruct (validateAuthorization _ b _ _ _ s) as [[u|e] s1] eqn:E1.
  2: { intros [= _ <-]. left. eapply preserves_authorization; [exact E1|done]. }
  apply validateAuthorization_Ok in E1 as [-> Hperm]. rewrite bind_run.
  destruct (validateStateTransition _ _ s) as [[u2|e] s1] eqn:E2.
  2: { intros [= _ <-]. left. unfold validateStateTransition in E2.
       apply require_Throw in E2 as (_ & _ & ->). done. }
  apply validateStateTransition_Ok in E2 as [-> Hmat]. rewrite bind_run.
  destruct (validateBusinessPreconditions _ _ _ _ _ _ _ _ _ s) as [[u3|e] s2] eqn:E3;
    pose proof (preserves_preconditions s _ _ _ _ _ _ _ _ _ _ _ _ E3 (unchanged_refl s)) as Hun;
    [|intros [= _ <-]; by left].
  rewrite bind_run. destruct (transaction _ s2) as [[u4|e] s3] eqn:E4.
  2: { intros [= _ <-]. left. by apply transaction_Throw in E4 as [-> _]. }
  apply transaction_Ok, transitionTransaction_Ok in E4 as (b0 & Hb0 & _ & Hsl & ev & Hev & Hevent).
  rewrite (un_bookings _ _ Hun), Eb in Hb0. injection Hb0 as <-.
  assert (slots s2 = slots s) as Hs2 by (unfold slots; by rewrite (un_bookings _ _ Hun)).
  rewrite (un_outbox _ _ Hun) in Hev. rewrite Hs2 in Hsl.
  rewrite bind_run. intros H. right. exists b, ev.
  split; [done|]. split; [done|]. split; [done|]. split; [done|].
  split; [by intros Hc; rewrite Hc in E3; eapply preconditions_confirm|].
  destruct (afterCommit _ _ _ _ _ _ _ s3) as [[u5|e] s4] eqn:E5;
    pose proof (inert_afterCommit (ls_bookings s3) (ls_outbox s3) _ _ _ _ _ _ _ _ _ _ E5
      (conj eq_refl eq_refl)) as [H1 H2]; [rewrite ret_run in H|];
    simplify_eq; (split; [unfold slots; rewrite H1; exact Hsl|]); by rewrite H2.
Qed.
End body_laws.

(** ** Properties *)
Section properties.
Context {R : Type} {redis : Redis R} {col : NumericColumn} {dec : DecimalArith} {bcrypt : Bcrypt}.
Implicit Types s : LifecycleStore R.

Lemma lock_frame {A} (m : M R A) s r s' :
  zoom ls_locks set_locks m s = (r, s') -> unchanged s s' /\ ls_otps s' = ls_otps s.
Proof. unfold zoom. case_match. intros [= _ <-]. by repeat split. Qed.

Lemma unchanged_trans s1 s2 s3 : unchanged s1 s2 -> unchanged s2 s3 -> unchanged s1 s3.
Proof. intros [] []. split; congruence. Qed.

Definition committed env ctx s s' : Prop :=
  exists b e, ls_bookings s !! tc_bookingId ctx = Some b /\ b_status b <> tc_targetStatus ctx /\
    tc_targetStatus ctx ∈ matrix (b_status b) /\
    permitted (rd_vendorUser (ls_ref s) !! b_vendorId b) b (tc_actorId ctx) (tc_actorRole ctx)
      (tc_targetStatus ctx) /\
    (tc_targetStatus ctx = BS_CONFIRMED ->
       confirmable s (tc_bookingId ctx) b (tc_actorRole ctx) (tc_reason ctx)) /\
    slots s' = <[tc_bookingId ctx := with_status (tc_targetStatus ctx) (slot b)]> (slots s) /\
    os_events (ls_outbox s') = os_events (ls_outbox s) ++ [e] /\
    event_of env (tc_bookingId ctx) b (tc_actorId ctx) (tc_targetStatus ctx) e.

Lemma committed_frame env ctx s1 s2 s3 s4 :
  unchanged s1 s2 -> unchanged s3 s4 -> committed env ctx s2 s3 -> committed env ctx s1 s4.
Proof.
  intros [Hb Hf Hm Ho _ Hr] [Hb' _ _ Ho' _ _] (b & e & H1 & H2 & H3 & H4 & H5 & H6 & H7 & H8).
  exists b, e. unfold confirmable, slots in *. rewrite Hb, ?Hf, ?Hm, ?Hr in *. rewrite Hb', Ho', H7, Ho.
  do 7 (split; [done|]). done.
Qed.

Lemma executeTransition_cases env ctx s r s' :
  executeTransition env ctx s = (r, s') -> unchanged s s' \/ committed env ctx s s'.
Proof.
  unfold executeTransition. rewrite bind_run.
  destruct (zoom ls_locks set_locks _ s) as [[token|e] s1] eqn:E1; apply lock_frame in E1 as [Hu1 _];
    [|intros [= _ <-]; by left].
  unfold try_finally. destruct (try_catch _ _ s1) as [r2 s2] eqn:E2.
  destruct (zoom ls_locks set_locks _ s2) as [r3 s3] eqn:E3. apply lock_frame in E3 as [Hu3 _].
  intros H. assert (s3 = s') as <- by (by destruct r3; simplify_eq). clear H.
  unfold try_catch in E2. destruct (transitionBody env ctx s1) as [r4 s4] eqn:E4.
  assert (s4 = s2) as -> by (unfold throw in E2; repeat case_match; by simplify_eq).
  apply transitionBody_cases in E4 as [Hu|Hc].
  - left. by eapply unchanged_trans, unchanged_trans.
  - right. by eapply committed_frame.
Qed.

(** C1. A transition is all or nothing.  Whatever executeTransition returns or throws, either no booking, vehicle, payment, journal, wallet, event or audit row changed, or exactly this happened: the actor was permitted, the matrix allows the step, a confirmation found the vehicle in service, free in the period and paid for (or excused by an administrator), only this booking moved, to the target status, and one pending outbox event records the step. *)
Theorem transition_all_or_nothing env ctx s r s' :
  executeTransition env ctx s = (r, s') -> unchanged s s' \/ committed env ctx s s'.
Proof. apply executeTransition_cases. Qed.

Definition lifecycle_step s s' : Prop := exists env ctx r, executeTransition env ctx s = (r, s').
End properties.

(** ** Abstract specification: the reservation book

    What the lifecycle promises to the rest of the system: bookings are slots
    (vehicle, period, status); one slot moves at a time, along the matrix, and
    a slot is confirmed only when no occupied slot of its vehicle overlaps. *)
Module ReservationBook.
Definition apart (x y : Slot) : Prop := (sl_end x <= sl_start y \/ sl_end y <= sl_start x)%Z.

Inductive step (B : gmap string Slot) : gmap string Slot -> Prop :=
  | step_skip : step B B
  | step_move id x target :
      B !! id = Some x -> target ∈ matrix (sl_status x) ->
      (target = BS_CONFIRMED -> forall j y, j <> id -> B !! j = Some y ->
         occupying (sl_status y) = true -> sl_carId y = sl_carId x -> apart y x) ->
      step B (<[id := with_status target x]> B).

Definition exclusive (B : gmap string Slot) : Prop :=
  forall i j x y, i <> j -> B !! i = Some x -> B !! j = Some y ->
    occupying (sl_status x) = true -> occupying (sl_status y) = true ->
    sl_carId x = sl_carId y -> apart x y.

(** Only a confirmation lets a slot occupy its vehicle. *)
Lemma occupying_entry cur target : target ∈ matrix cur -> occupying target = true ->
  occupying cur = true \/ target = BS_CONFIRMED.
Proof.
  intros Hm Ho. destruct cur, target; simpl in *; try (by right); try (by left);
    exfalso; set_solver.
Qed.

Lemma step_exclusive B B' : step B B' -> exclusive B -> exclusive B'.
Proof.
  intros [|id x0 target Hx0 Hm Hc] Hex; [done|].
  assert (forall j y, j <> id -> B !! j = Some y -> occupying target = true ->
    occupying (sl_status y) = true -> sl_carId y = sl_carId x0 -> apart y x0) as Hkey.
  { intros j y Hne Hj Ht Hy Hcar. destruct (occupying_entry _ _ Hm Ht) as [Hocc|Htc].
    - exact (Hex j id y x0 Hne Hj Hx0 Hy Hocc Hcar).
    - by eapply Hc. }
  intros i j x y Hij Hx Hy Ox Oy Hcar. destruct (decide (i = id)) as [->|Hi].
  - rewrite lookup_insert_eq in Hx. injection Hx as <-. rewrite lookup_insert_ne in Hy by done.
    destruct (Hkey j y) as [?|?]; try done; [by right|by left].
  - rewrite lookup_insert_ne in Hx by done. destruct (decide (j = id)) as [->|Hj].
    + rewrite lookup_insert_eq in Hy. injection Hy as <-. by apply (Hkey i x).
    + rewrite lookup_insert_ne in Hy by done. exact (Hex i j x y Hij Hx Hy Ox Oy Hcar).
Qed.

(** A slot keeps its vehicle and dates; its status walks the matrix. *)
Definition follows (x x' : Slot) : Prop :=
  sl_carId x' = sl_carId x /\ sl_start x' = sl_start x /\ sl_end x' = sl_end x /\
  rtc (fun a b => b ∈ matrix a) (sl_status x) (sl_status x').

#[export] Instance follows_preorder : PreOrder follows.
Proof.
  split; [by repeat split|]. intros x y z (A1 & A2 & A3 & A4) (B1 & B2 & B3 & B4).
  split_and!; [congruence..|by etrans].
Qed.

Lemma step_follows B B' id x : step B B' -> B !! id = Some x ->
  exists x', B' !! id = Some x' /\ follows x x'.
Proof.
  intros [|i y target Hy Hm _] Hx; [by exists x|]. destruct (decide (i = id)) as [->|Hne].
  - exists (with_status target y). rewrite lookup_insert_eq. split; [done|]. simplify_eq.
    split_and!; [done..|]. by apply rtc_once.
  - exists x. by rewrite lookup_insert_ne.
Qed.

Lemma steps_follow B B' id x : rtc step B B' -> B !! id = Some x ->
  exists x', B' !! id = Some x' /\ follows x x'.
Proof.
  intros Hr. revert x. induction Hr as [B|B B1 B2 Hs _ IH]; intros x Hx; [by exists x|].
  destruct (step_follows _ _ _ _ Hs Hx) as (y & Hy & F1). destruct (IH y Hy) as (z & Hz & F2).
  exists z. split; [done|]. by etrans.
Qed.

Lemma follows_final x x' : follows x x' -> matrix (sl_status x) = [] -> sl_status x' = sl_status x.
Proof.
  intros (_ & _ & _ & H) Hnil. inversion H as [|? y ? Hy]; [done|]. rewrite Hnil in Hy. set_solver.
Qed.
End ReservationBook.

Section refinement.
Context {R : Type} {redis : Redis R} {col : NumericColumn} {dec : DecimalArith} {bcrypt : Bcrypt}.
Implicit Types s : LifecycleStore R.

Lemma confirmable_free s id b role reason j y :
  confirmable s id b role reason -> j <> id -> slots s !! j = Some y -> occupying (sl_status y) = true ->
  sl_carId y = b_carId b -> ReservationBook.apart y (slot b).
Proof.
  intros (_ & _ & Hov & _) Hne Hj Ho Hcar. rewrite lookup_slots in Hj.
  destruct (ls_bookings s !! j) as [bj|] eqn:Ej; [|done]. injection Hj as <-.
  unfold ReservationBook.apart. simpl.
  destruct (Z_le_gt_dec (b_endDate bj) (b_startDate b)) as [|H1]; [by left|].
  destruct (Z_le_gt_dec (b_endDate b) (b_startDate bj)) as [|H2]; [by right|]. exfalso.
  apply not_true_iff_false in Hov. apply Hov. unfold overlappingBooking. apply existsb_exists.
  exists (j, bj). split; [by apply list_elem_of_In, elem_of_map_to_list|]. simpl in *.
  rewrite (proj2 (String.eqb_neq _ _)), Ho by done. unfold overlaps. rewrite Hcar, String.eqb_refl. simpl.
  apply andb_true_iff. rewrite !Z.ltb_lt. lia.
Qed.

Lemma step_refines s s' : lifecycle_step s s' -> ReservationBook.step (slots s) (slots s').
Proof.
  intros (env & ctx & r & [Hu|(b & e & H1 & _ & H3 & _ & H5 & H6 & _)]%executeTransition_cases).
  - unfold slots. rewrite (un_bookings _ _ Hu). constructor.
  - rewrite H6. apply (ReservationBook.step_move _ (tc_bookingId ctx) (slot b)); [|done|].
    + by rewrite lookup_slots, H1.
    + intros Hc j y Hne Hj Ho Hcar. by eapply confirmable_free; [apply H5| | | |].
Qed.
Lemma steps_refine s s' : rtc lifecycle_step s s' -> rtc ReservationBook.step (slots s) (slots s').
Proof. apply rtc_congruence. intros. by apply step_refines. Qed.

(** C12. Refinement: every call of executeTransition, with any clock, actor, request and any answer of the database, the lock server and the optional services, is a step of the reservation book. *)
Theorem lifecycle_refines_book env ctx s r s' :
  executeTransition env ctx s = (r, s') -> ReservationBook.step (slots s) (slots s').
Proof. intros H. apply step_refines. by exists env, ctx, r. Qed.

(** Over any sequence of transitions a booking keeps its vehicle and dates and its status only moves along the edges of the canonical matrix; so a completed, refunded, cancelled or expired booking keeps its status for ever. *)
Theorem status_follows_matrix s s' id x :
  rtc lifecycle_step s s' -> slots s !! id = Some x ->
  exists x', slots s' !! id = Some x' /\ sl_carId x' = sl_carId x /\ sl_start x' = sl_start x /\
    sl_end x' = sl_end x /\ rtc (fun a b => b ∈ matrix a) (sl_status x) (sl_status x') /\
    (matrix (sl_status x) = [] -> sl_status x' = sl_status x).
Proof.
  intros Hr%steps_refine Hx.
  destruct (ReservationBook.steps_follow _ _ _ _ Hr Hx) as (x' & Hx' & F). exists x'.
  pose proof F as (? & ? & ? & ?). split_and!; try done. by apply ReservationBook.follows_final.
Qed.

(** No double booking: when transitions run one after the other, two bookings that occupy the same vehicle (confirmed, ready, ongoing or being returned) never overlap in time. *)
Theorem no_double_booking_reachable s s' :
  ReservationBook.exclusive (slots s) -> rtc lifecycle_step s s' -> ReservationBook.exclusive (slots s').
Proof.
  intros H Hr%steps_refine. by apply (rtc_invariant _ _ _ _ ReservationBook.step_exclusive Hr).
Qed.

(** While somebody holds a booking's lock, a transition of that booking is refused with 409 and changes nothing at all; with the lock server down it is refused with 503. *)
Theorem transition_needs_lock env ctx s holder :
  redis_get (te_now env) (getCancellationLockKey (tc_bookingId ctx)) (ls_locks s) = Some holder ->
  executeTransition env ctx s =
    (Throw (if te_lockUp env then ConflictException else ServiceUnavailableException), s).
Proof.
  intros Hh. unfold executeTransition. rewrite bind_run. unfold zoom at 1, acquireCancellationLock.
  destruct (acquireKey_busy (te_lockUp env) (te_now env) _ (te_token env) LOCK_TTL_MS _ _ Hh)
    as (e & -> & ->). f_equal. by destruct s.
Qed.

(** The conditional update protects against a writer that ignores the lock: when the status read at the start is no longer the one in the table, the transaction fails as a whole and nothing is written. *)
Theorem stale_status_writes_nothing env id b car pay actor target reason calc s b' :
  ls_bookings s !! id = Some b' -> b_status b' <> b_status b ->
  transaction (transitionTransaction env id b car pay actor target reason calc) s = (Throw PrismaP2025, s).
Proof.
  intros Hb Hne. apply transaction_Throw. split; [done|]. exists s. unfold transitionTransaction.
  rewrite bind_run. unfold updateBooking. rewrite get_bind, Hb, require_bind.
  by rewrite (bool_decide_false _ Hne).
Qed.
End refinement.

(** ** Concrete runs *)
Definition run_env (now : Z) : TransitionEnv :=
  {| te_now := now; te_later := now + 1; te_lockUp := true; te_releaseUp := true; te_token := "tok";
     te_eventId := "ev_" +:+ pretty now; te_journalId := "j_" +:+ pretty now; te_blockId := "blk_" +:+ pretty now; te_eligible := None;
     te_earlyPickup := None; te_cancelMatrix := None; te_hasLedger := true; te_hasCommission := true;
     te_refund := sample_env (RefundResponse "rfnd_1" "processed") |}.
Definition HOUR : Z := 3600000.
Definition rental (car : string) (st : BookingStatus) (net fee gst total deposit : Q) : Booking :=
  {| b_customerId := "c1"; b_vendorId := "v1"; b_carId := car; b_pickupHubId := None;
     b_startDate := 100 * HOUR; b_endDate := 200 * HOUR; b_totalFare := total; b_platformFee := fee;
     b_gstAmount := gst; b_netToVendor := net; b_disputeFlag := false; b_quoteTotal := None; b_couponId := None;
     b_discountAmount := None; b_corporateAccountId := None; b_cancellationMatrix := None;
     b_commissionSplit := None;
     b_securityDeposit := Some {| sd_amount := deposit; sd_status := SD_REQUIRED; sd_heldAt := None;
       sd_razorpayPaymentId := None; sd_releasedAt := None; sd_refundedAmount := 0%Q; sd_deductedAmount := 0%Q;
       sd_razorpayRefundId := None |};
     b_status := st; b_cancellationReason := None; b_cancellationFee := None; b_refundAmount := None;
     b_cancelledAt := None; b_cancelledBy := None |}.
Definition ready_car : Car :=
  {| car_operationalStatus := VO_ACTIVE; car_verificationStatus := VV_VERIFIED; car_isAvailable := true;
     car_type := CAT_SEDAN; car_pickupHubId := Some "h1" |}.
Definition store_of (bookings : gmap string Booking) (money : MoneyStore) : LifecycleStore RedisMem :=
  {| ls_bookings := bookings;
     ls_fleet := {| fl_cars := {["car1" := ready_car]}; fl_blocks := []; fl_audit := []; fl_fulfillment := ∅ |};
     ls_money := money; ls_otps := []; ls_outbox := {| os_events := []; os_sent := [] |}; ls_audit := [];
     ls_locks := ∅;
     ls_ref := {| rd_vendorUser := {["v1" := "vu1"]}; rd_preTrip := ∅; rd_postTrip := ∅; rd_claims := [];
                  rd_rules := [] |} |}.
Definition standard_rental (st : BookingStatus) : Booking := rental "car1" st 1000 100 18 1118 5000.
Definition paid_pending : LifecycleStore RedisMem :=
  store_of {["b1" := standard_rental BS_PENDING]} (paid_store 6118).
#[local] Existing Instance plain_bcrypt.
Definition request (id actor : string) (role : ActorRole) (st : BookingStatus) (reason : option string)
    : BookingTransitionContext :=
  {| tc_bookingId := id; tc_actorId := actor; tc_actorRole := role; tc_targetStatus := st;
     tc_reason := reason; tc_handoverOtp := None |}.
Definition vendor_confirms : BookingTransitionContext := request "b1" "vu1" (RoleOf ROLE_VENDOR) BS_CONFIRMED None.
Definition confirm_run : result TransitionResult * LifecycleStore RedisMem :=
  executeTransition (run_env HOUR) vendor_confirms paid_pending.

Lemma transition_all_or_nothing_witness :
  committed (run_env HOUR) vendor_confirms paid_pending (snd confirm_run).
Proof.
  destruct (transition_all_or_nothing (run_env HOUR) vendor_confirms paid_pending (fst confirm_run)
    (snd confirm_run) (surjective_pairing _)) as [Hu|Hc]; [|exact Hc].
  exfalso. apply un_outbox, (f_equal (fun o => length (os_events o))) in Hu. vm_compute in Hu. discriminate Hu.
Defined.

Lemma lifecycle_refines_book_witness :
  ReservationBook.step (slots paid_pending) (slots (snd confirm_run)).
Proof.
  exact (lifecycle_refines_book (run_env HOUR) vendor_confirms paid_pending (fst confirm_run)
    (snd confirm_run) (surjective_pairing _)).
Defined.

Lemma confirm_run_reached : rtc lifecycle_step paid_pending (snd confirm_run).
Proof. apply rtc_once. exists (run_env HOUR), vendor_confirms, (fst confirm_run). apply surjective_pairing. Qed.

Lemma status_follows_matrix_witness :
  exists x', slots (snd confirm_run) !! "b1" = Some x' /\
    rtc (fun a b => b ∈ matrix a) BS_PENDING (sl_status x').
Proof.
  destruct (status_follows_matrix paid_pending (snd confirm_run) "b1" (slot (standard_rental BS_PENDING))
    confirm_run_reached eq_refl) as (x' & H1 & _ & _ & _ & H2 & _).
  exists x'. split; [exact H1|exact H2].
Defined.

(** Two reservations of the same car, one after the other. *)
Definition later_rental : Booking :=
  {| b_customerId := "c2"; b_vendorId := "v1"; b_carId := "car1"; b_pickupHubId := None;
     b_startDate := 200 * HOUR; b_endDate := 300 * HOUR; b_totalFare := 1118; b_platformFee := 100;
     b_gstAmount := 18; b_netToVendor := 1000; b_disputeFlag := false; b_quoteTotal := None; b_couponId := None;
     b_discountAmount := None; b_corporateAccountId := None; b_cancellationMatrix := None;
     b_commissionSplit := None; b_securityDeposit := None; b_status := BS_CONFIRMED;
     b_cancellationReason := None; b_cancellationFee := None; b_refundAmount := None;
     b_cancelledAt := None; b_cancelledBy := None |}.
Definition two_bookings : LifecycleStore RedisMem :=
  store_of {["b1" := standard_rental BS_PENDING; "b2" := later_rental]} (paid_store 6118).
Definition second_run : result TransitionResult * LifecycleStore RedisMem :=
  executeTransition (run_env HOUR) vendor_confirms two_bookings.

Lemma two_bookings_exclusive : ReservationBook.exclusive (slots two_bookings).
Proof.
  intros i j x y Hij. rewrite !lookup_slots. unfold two_bookings, store_of; cbn [ls_bookings].
  destruct (decide (i = "b1")) as [->|Hi].
  - intros [= <-] _ Ho. discriminate Ho.
  - destruct (decide (j = "b1")) as [->|Hj]; [intros _ [= <-] _ Ho; discriminate Ho|].
    rewrite !(lookup_insert_ne _ "b1") by done. intros [? [[<- _]%lookup_singleton_Some _]]%fmap_Some.
    by intros [? [[<- _]%lookup_singleton_Some _]]%fmap_Some.
Qed.

Lemma no_double_booking_reachable_witness :
  is_Ok (fst second_run) = true /\ ReservationBook.exclusive (slots (snd second_run)).
Proof.
  split; [vm_compute; reflexivity|].
  apply (no_double_booking_reachable two_bookings); [exact two_bookings_exclusive|].
  apply rtc_once. exists (run_env HOUR), vendor_confirms, (fst second_run). apply surjective_pairing.
Defined.

Lemma transition_needs_lock_witness :
  executeTransition (run_env HOUR) vendor_confirms
    (set_locks {[getCancellationLockKey "b1" := ("other", 2 * HOUR)%Z]} paid_pending) =
  (Throw ConflictException, set_locks {[getCancellationLockKey "b1" := ("other", 2 * HOUR)%Z]} paid_pending).
Proof.
  exact (transition_needs_lock (run_env HOUR) vendor_confirms
    (set_locks {[getCancellationLockKey "b1" := ("other", 2 * HOUR)%Z]} paid_pending) "other" eq_refl).
Defined.

Lemma stale_status_writes_nothing_witness :
  transaction (transitionTransaction (run_env HOUR) "b1" (standard_rental BS_PENDING) None None "vu1"
    BS_CONFIRMED None None) (snd confirm_run) = (Throw PrismaP2025, snd confirm_run).
Proof.
  destruct (ls_bookings (snd confirm_run) !! "b1") as [b'|] eqn:E; [|vm_compute in E; discriminate E].
  apply (stale_status_writes_nothing (run_env HOUR) "b1" (standard_rental BS_PENDING) None None "vu1"
    BS_CONFIRMED None None (snd confirm_run) b' E).
  assert (b_status <$> (ls_bookings (snd confirm_run) !! "b1") = Some BS_CONFIRMED) as H
    by (vm_compute; reflexivity).
  rewrite E in H. injection H as H. rewrite H. discriminate.
Defined.
