(* ===== verification/LifecycleHandover.v ===== *)
(** * Handing the vehicle over and taking it back

    What [startRental] and [completeBooking] of
    bookings/booking-lifecycle.service.ts need and leave behind: the codes and
    inspections of lines 1153-1264, the vehicle of lines 630-727. *)
From S2P Require Import Prelude JsNumber Decimal Schema Ledger Wallet Locks HandoverOtp.
From S2P Require Import CancellationPolicy Commission PaymentRefund Outbox BookingStore.
From S2P Require Import BookingLifecycle.
From stdpp Require Import pretty.
Open Scope Z_scope.

Section successful.
Context {R : Type} {redis : Redis R} {col : NumericColumn} {dec : DecimalArith} {bcrypt : Bcrypt}.
Implicit Types s : LifecycleStore R.

(** A call that returns ran its body, between two changes of the locks. *)
Lemma executeTransition_Ok env ctx s r s' :
  executeTransition env ctx s = (Ok r, s') ->
  exists s1 s2, unchanged s s1 /\ ls_otps s1 = ls_otps s /\ transitionBody env ctx s1 = (Ok r, s2) /\
    unchanged s2 s' /\ ls_otps s' = ls_otps s2.
Proof.
  unfold executeTransition. intros (token & s1 & E1 & H)%bind_Ok. apply lock_frame in E1 as [Hu1 Ho1].
  unfold try_finally in H. destruct (try_catch _ _ s1) as [r2 s2] eqn:E2.
  destruct (zoom ls_locks set_locks _ s2) as [r3 s3] eqn:E3. apply lock_frame in E3 as [Hu3 Ho3].
  assert (r2 = Ok r /\ s3 = s') as [-> <-] by (destruct r3; by simplify_eq).
  exists s1, s2. split_and!; try done. unfold try_catch in E2.
  destruct (transitionBody env ctx s1) as [[r4|e] s4]; [done|]. unfold throw in E2. by case_bool_decide.
Qed.

(** The body of a call that moved the booking. *)
Record moved env ctx s b s2 s3 s' : Prop := {
  mv_found : ls_bookings s !! tc_bookingId ctx = Some b;
  mv_checked : validateBusinessPreconditions env (tc_bookingId ctx) b
    (fl_cars (ls_fleet s) !! b_carId b) (ms_payments (ls_money s) !! tc_bookingId ctx)
    (tc_targetStatus ctx) (tc_actorRole ctx) (tc_reason ctx) (tc_handoverOtp ctx) s = (Ok tt, s2);
  mv_unchanged : unchanged s s2;
  mv_committed : transitionTransaction env (tc_bookingId ctx) b (fl_cars (ls_fleet s) !! b_carId b)
    (ms_payments (ls_money s) !! tc_bookingId ctx) (tc_actorId ctx) (tc_targetStatus ctx) (tc_reason ctx)
    (cancellationCalc env b (ms_payments (ls_money s) !! tc_bookingId ctx) (tc_targetStatus ctx)
       (tc_actorRole ctx) (tc_reason ctx)) s2 = (Ok tt, s3);
  mv_after : afterCommit env (tc_bookingId ctx) b (tc_actorId ctx) (tc_actorRole ctx) (tc_targetStatus ctx)
    (cancellationCalc env b (ms_payments (ls_money s) !! tc_bookingId ctx) (tc_targetStatus ctx)
       (tc_actorRole ctx) (tc_reason ctx)) s3 = (Ok tt, s');
  mv_step : tc_targetStatus ctx ∈ matrix (b_status b);
}.

Lemma transitionBody_moved env ctx s r s' b :
  transitionBody env ctx s = (Ok r, s') -> ls_bookings s !! tc_bookingId ctx = Some b ->
  b_status b <> tc_targetStatus ctx -> exists s2 s3, moved env ctx s b s2 s3 s'.
Proof.
  unfold transitionBody. cbv zeta. rewrite get_bind, from_option_bind. intros H Hb Hne.
  rewrite Hb, (bool_decide_false _ Hne) in H.
  apply bind_Ok in H as (? & ? & [-> _]%validateAuthorization_Ok & H).
  apply bind_Ok in H as (? & ? & [-> Hm]%validateStateTransition_Ok & H).
  apply bind_Ok in H as ([] & s2 & E1 & H).
  apply bind_Ok in H as ([] & s3 & E2 & H). rewrite transaction_Ok in E2.
  apply bind_Ok in H as ([] & s4 & E3 & [= _ <-]).
  exists s2, s3. split; try done. by eapply preserves_preconditions, unchanged_refl.
Qed.
End successful.

(** ** Codes and inspections *)
Section codes.
Context {R : Type} {redis : Redis R} {col : NumericColumn} {dec : DecimalArith} {bcrypt : Bcrypt}.
Implicit Types s : LifecycleStore R.

Lemma checkHandoverOtp_Ok now id ty code reason s u s' :
  checkHandoverOtp now id ty false code reason s = (Ok u, s') ->
  exists c, truthy code = Some c /\ code_accepted now id ty c (ls_otps s) (ls_otps s').
Proof.
  unfold checkHandoverOtp. simpl. destruct (truthy code) as [c|]; [|done]. unfold zoom.
  destruct (mbind (M:=M OtpTable) _ _ (ls_otps s)) as [r1 t] eqn:E. intros [= -> <-].
  apply bind_Ok in E as (v & t' & Hv%verifyOtp_Ok & [= _ <-]). by exists c.
Qed.

(** The condition an ordinary user meets to start or to end a rental. *)
Definition code_and_inspection (now : Z) (id : string) (code : option string) (ty : HandoverOtpType)
    (inspections : gmap string Inspection) (otps otps' : OtpTable) : Prop :=
  (exists i, inspections !! id = Some i /\ insp_finalized i = true) /\
  exists c, truthy code = Some c /\ code_accepted now id ty c otps otps'.

Lemma finalized_true i : finalizedInspection i = true -> exists x, i = Some x /\ insp_finalized x = true.
Proof. destruct i as [x|]; [|done]. by exists x. Qed.

Lemma ongoing_Ok env id b car pay reason code s u s' :
  ongoingPreconditions env id b car pay false reason code s = (Ok u, s') ->
  code_and_inspection (te_now env) id code OTP_PICKUP (rd_preTrip (ls_ref s)) (ls_otps s) (ls_otps s').
Proof.
  unfold ongoingPreconditions. cbv zeta.
  do 6 (intros (? & ? & [_ ->]%require_Ok & H)%bind_Ok; revert H).
  rewrite get_bind. intros (? & ? & [Hf%finalized_true ->]%require_Ok & H%checkHandoverOtp_Ok)%bind_Ok.
  by split.
Qed.

Lemma completed_Ok env id b reason code s u s' :
  completedPreconditions env id b false reason code s = (Ok u, s') ->
  code_and_inspection (te_now env) id code OTP_RETURN (rd_postTrip (ls_ref s)) (ls_otps s) (ls_otps s').
Proof.
  unfold completedPreconditions. intros (? & ? & [_ ->]%require_Ok & H)%bind_Ok. revert H.
  rewrite get_bind. intros (? & ? & [Hf%finalized_true ->]%require_Ok & H%checkHandoverOtp_Ok)%bind_Ok.
  by split.
Qed.

(** Nothing after the check touches the codes. *)
Definition same_otps (O : OtpTable) s : Prop := ls_otps s = O.
Lemma otps_money {A} O (m : M MoneyStore A) : preserves (same_otps O) (zoom ls_money set_money m).
Proof. by apply preserves_zoom. Qed.
Lemma otps_modify O f : (forall s, ls_otps (f s) = ls_otps s) -> preserves (same_otps O) (modify f).
Proof. intros Hf. apply preserves_modify. unfold same_otps. intros s <-. apply Hf. Qed.
Lemma otps_journal O env x j : preserves (same_otps O) (postJournal env x j).
Proof. by apply preserves_zoom. Qed.
Lemma otps_fleet O f : preserves (same_otps O) (onFleet f).
Proof. by apply otps_modify. Qed.
Hint Resolve otps_money otps_journal otps_fleet otps_modify : preserves.

Lemma otps_updateBooking O env id p t actor reason calc :
  preserves (same_otps O) (updateBooking env id p t actor reason calc).
Proof. apply preserves_get_const. intros s0. destruct (ls_bookings s0 !! id); auto with preserves. Qed.
Lemma otps_refundIntent O env id b pay actor paise :
  preserves (same_otps O) (refundIntent env id b pay actor paise).
Proof. unfold refundIntent. destruct pay; auto 12 with preserves. Qed.
Lemma otps_updateCar O c st a : preserves (same_otps O) (updateCar c st a).
Proof. unfold updateCar. auto 8 with preserves. Qed.
Hint Resolve otps_updateBooking otps_refundIntent otps_updateCar : preserves.
Lemma otps_settle O env id b car actor : preserves (same_otps O) (settleVehicle env id b car actor).
Proof. apply preserves_get_const. intros s. cbv zeta. unfold vehicleAudit. destruct (_ || _); auto 10 with preserves. Qed.
Lemma otps_fulfillment O id b car st : preserves (same_otps O) (syncFulfillment id b car st).
Proof. unfold syncFulfillment. destruct st; auto with preserves. Qed.
Lemma otps_commission O id b car : preserves (same_otps O) (storeCommission id b car).
Proof. apply preserves_get_const. intros s0. destruct (ls_bookings s0 !! id); auto with preserves. Qed.
Hint Resolve otps_settle otps_fulfillment otps_commission : preserves.

Lemma otps_transaction O env id b car pay actor t reason calc :
  preserves (same_otps O) (transitionTransaction env id b car pay actor t reason calc).
Proof. unfold transitionTransaction, vehicleAudit, createOutboxEvent. auto 25 with preserves. Qed.
Lemma otps_after O env id b actor role t calc :
  preserves (same_otps O) (afterCommit env id b actor role t calc).
Proof. unfold afterCommit. auto 8 with preserves. Qed.

(** C32. Nobody but an administrator starts a rental without a finalised pickup inspection and the live pickup code of that booking, nor completes one without a finalised return inspection and the live return code; a code is live when it has not expired, has been missed fewer than five times and has not been used, and it is used up by the call. *)
Theorem handover_needs_code env ctx s r s' b :
  executeTransition env ctx s = (Ok r, s') -> ls_bookings s !! tc_bookingId ctx = Some b ->
  b_status b <> tc_targetStatus ctx -> isAdminActor (tc_actorRole ctx) = false ->
  (tc_targetStatus ctx = BS_ONGOING ->
     code_and_inspection (te_now env) (tc_bookingId ctx) (tc_handoverOtp ctx) OTP_PICKUP
       (rd_preTrip (ls_ref s)) (ls_otps s) (ls_otps s')) /\
  (tc_targetStatus ctx = BS_COMPLETED ->
     code_and_inspection (te_now env) (tc_bookingId ctx) (tc_handoverOtp ctx) OTP_RETURN
       (rd_postTrip (ls_ref s)) (ls_otps s) (ls_otps s')).
Proof.
  intros (s1 & s4 & Hu & Ho & Hbody & _ & Ho')%executeTransition_Ok Hb Hne Hadm.
  rewrite <- (un_bookings _ _ Hu) in Hb. rewrite <- (un_ref _ _ Hu), <- Ho, Ho'.
  destruct (transitionBody_moved _ _ _ _ _ _ Hbody Hb Hne) as (s2 & s3 & [_ Hc _ Ht Ha]).
  assert (ls_otps s4 = ls_otps s2) as ->.
  { eapply otps_after; [exact Ha|]. eapply otps_transaction; [exact Ht|done]. }
  unfold validateBusinessPreconditions in Hc. cbv zeta in Hc. rewrite Hadm in Hc.
  split; intros Hst; rewrite Hst in Hc; unfold when in Hc;
    repeat match type of Hc with context [bool_decide (?x = ?y)] =>
      let v := eval vm_compute in (bool_decide (x = y)) in
      change (bool_decide (x = y)) with v in Hc end.
  - do 2 apply bind_Ok in Hc as ([] & ? & [= <-] & Hc).
    apply bind_Ok in Hc as ([] & ? & Hc & [= <-]). by eapply ongoing_Ok.
  - do 3 apply bind_Ok in Hc as ([] & ? & [= <-] & Hc). by eapply completed_Ok.
Qed.
End codes.

(** ** The vehicle after the rental *)
Section vehicle.
Context {R : Type} {redis : Redis R} {col : NumericColumn} {dec : DecimalArith} {bcrypt : Bcrypt}.
Implicit Types s : LifecycleStore R.

(** What completing a rental makes of the fleet. *)
Definition settled (now : Z) (blockId : string) (id : string) (b : Booking) (c : Car) (damaged : bool) (f f' : Fleet) : Prop :=
  fl_cars f' = <[b_carId b := {| car_operationalStatus := if damaged then VO_INACTIVE else VO_ACTIVE;
    car_verificationStatus := car_verificationStatus c; car_isAvailable := negb damaged;
    car_type := car_type c; car_pickupHubId := car_pickupHubId c |}]> (fl_cars f) /\
  fl_blocks f' = fl_blocks f ++ (if damaged then
    [{| vb_id := blockId; vb_carId := b_carId b; vb_vendorId := b_vendorId b; vb_blockType := VB_SAFETY_HOLD;
        vb_startDate := now; vb_endDate := (now + SEVEN_DAYS_MS)%Z |}] else []).

Lemma settleVehicle_Ok env id b car actor s u s' c :
  settleVehicle env id b car actor s = (Ok u, s') -> fl_cars (ls_fleet s) !! b_carId b = Some c ->
  settled (te_now env) (te_blockId env) id b c
    (inspectionDamage (rd_postTrip (ls_ref s) !! id) || activeClaims id (rd_claims (ls_ref s)))
    (ls_fleet s) (ls_fleet s').
Proof.
  unfold settleVehicle, updateCar, vehicleAudit, onFleet. rewrite get_bind. cbv zeta. intros H Hc.
  destruct (inspectionDamage _ || _); revert H; step; simpl; rewrite Hc; step; intros [= _ <-];
    split; simpl; by rewrite ?app_nil_r.
Qed.

(** Nothing else in the completion touches cars or blocks. *)
Definition same_yard (F : Fleet) (X : Reference) s : Prop :=
  fl_cars (ls_fleet s) = fl_cars F /\ fl_blocks (ls_fleet s) = fl_blocks F /\ ls_ref s = X.
Lemma yard_money {A} F X (m : M MoneyStore A) : preserves (same_yard F X) (zoom ls_money set_money m).
Proof. by apply preserves_zoom. Qed.
Lemma yard_after F X env id b actor role t calc :
  preserves (same_yard F X) (afterCommit env id b actor role t calc).
Proof.
  unfold afterCommit. apply preserves_bind; [|auto using yard_money with preserves].
  by apply preserves_when, preserves_modify.
Qed.
Lemma yard_fulfillment F X id b car : preserves (same_yard F X) (syncFulfillment id b car BS_COMPLETED).
Proof. by apply preserves_modify. Qed.
Lemma yard_event F X env id b actor p t calc : preserves (same_yard F X) (createOutboxEvent env id b actor p t calc).
Proof.
  apply preserves_get_const. intros s. apply preserves_bind; [auto with preserves|]. intros _. by apply preserves_modify.
Qed.

(** Completing a rental releases its vehicle when it came back clean and holds it when it did not: with damage photographed or described at the return inspection, or an open claim, the vehicle is inactive, not available and blocked for seven days; otherwise it is active and available, and nothing is blocked. *)
Theorem completion_settles_vehicle env ctx s r s' b c :
  executeTransition env ctx s = (Ok r, s') -> tc_targetStatus ctx = BS_COMPLETED ->
  ls_bookings s !! tc_bookingId ctx = Some b -> b_status b <> BS_COMPLETED ->
  fl_cars (ls_fleet s) !! b_carId b = Some c ->
  settled (te_now env) (te_blockId env) (tc_bookingId ctx) b c
    (inspectionDamage (rd_postTrip (ls_ref s) !! tc_bookingId ctx) ||
     activeClaims (tc_bookingId ctx) (rd_claims (ls_ref s)))
    (ls_fleet s) (ls_fleet s').
Proof.
  intros (s1 & s4 & Hu & _ & Hbody & Hu' & _)%executeTransition_Ok Ht Hb Hne Hcar.
  rewrite <- (un_bookings _ _ Hu) in Hb. rewrite <- (un_fleet _ _ Hu) in Hcar |- *.
  rewrite <- (un_ref _ _ Hu), (un_fleet _ _ Hu').
  destruct (transitionBody_moved _ _ _ _ _ _ Hbody Hb) as (s2 & s3 & [_ _ Hun Hc Ha _]); [by rewrite Ht|].
  rewrite Ht in Hc. unfold transitionTransaction in Hc.
  rewrite <- (un_fleet _ _ Hun) in Hcar |- *. rewrite <- (un_ref _ _ Hun).
  apply bind_Ok in Hc as ([] & t1 & (b0 & b' & _ & _ & -> & _)%updateBooking_Ok & Hc).
  apply bind_Ok in Hc as ([] & t2 & [= <-] & Hc). do 2 apply bind_Ok in Hc as ([] & ? & [= <-] & Hc).
  apply bind_Ok in Hc as ([] & t3 & Hs & Hc).
  eapply (settleVehicle_Ok _ _ _ _ _ (set_booking _ _ s2)) in Hs; [|exact Hcar].
  apply bind_Ok in Hc as ([] & ? & [= <-] & Hc). apply bind_Ok in Hc as ([] & t4 & Hf & Hc).
  apply bind_Ok in Hc as ([] & t5 & [= <-] & He).
  assert (same_yard (ls_fleet t3) (ls_ref t3) s4) as (E1 & E2 & _).
  { eapply yard_after; [exact Ha|]. eapply yard_event; [exact He|]. by eapply yard_fulfillment. }
  unfold settled in *. by rewrite E1, E2.
Qed.
End vehicle.

(** ** Concrete runs *)
#[local] Existing Instance plain_bcrypt.
Definition held_deposit (b : Booking) : Booking :=
  {| b_customerId := b_customerId b; b_vendorId := b_vendorId b; b_carId := b_carId b;
     b_pickupHubId := b_pickupHubId b; b_startDate := b_startDate b; b_endDate := b_endDate b;
     b_totalFare := b_totalFare b; b_platformFee := b_platformFee b; b_gstAmount := b_gstAmount b;
     b_netToVendor := b_netToVendor b; b_disputeFlag := b_disputeFlag b; b_quoteTotal := b_quoteTotal b;
         b_couponId := b_couponId b; b_discountAmount := b_discountAmount b;
         b_corporateAccountId := b_corporateAccountId b;
     b_cancellationMatrix := b_cancellationMatrix b; b_commissionSplit := b_commissionSplit b;
     b_securityDeposit := Some {| sd_amount := 5000; sd_status := SD_HELD; sd_heldAt := None;
       sd_razorpayPaymentId := None; sd_releasedAt := None; sd_refundedAmount := 0%Q; sd_deductedAmount := 0%Q;
       sd_razorpayRefundId := None |};
     b_status := b_status b; b_cancellationReason := b_cancellationReason b;
     b_cancellationFee := b_cancellationFee b; b_refundAmount := b_refundAmount b;
     b_cancelledAt := b_cancelledAt b; b_cancelledBy := b_cancelledBy b |}.
Definition inspected (photos : nat) : Inspection :=
  {| insp_finalized := true; insp_damagePhotos := photos; insp_conditionNotes := Some "clean" |}.
Definition code_for (ty : HandoverOtpType) (now : Z) : OtpTable :=
  [{| ho_id := "o1"; ho_bookingId := "b1"; ho_otpType := ty; ho_recipientId := "c1";
      ho_otpHash := hashSync "123456"; ho_expiresAt := now + OTP_TTL_MS; ho_verified := false;
      ho_attemptCount := 0 |}].
Definition handover_store (st : BookingStatus) (otps : OtpTable) (photos : nat) : LifecycleStore RedisMem :=
  let s := store_of {["b1" := held_deposit (standard_rental st)]} (paid_store 6118) in
  {| ls_bookings := ls_bookings s; ls_fleet := ls_fleet s; ls_money := ls_money s; ls_otps := otps;
     ls_outbox := ls_outbox s; ls_audit := ls_audit s; ls_locks := ls_locks s;
     ls_ref := {| rd_vendorUser := {["v1" := "vu1"]}; rd_preTrip := {["b1" := inspected 0]};
                  rd_postTrip := {["b1" := inspected photos]}; rd_claims := []; rd_rules := [] |} |}.
Definition with_code (st : BookingStatus) : BookingTransitionContext :=
  {| tc_bookingId := "b1"; tc_actorId := "vu1"; tc_actorRole := RoleOf ROLE_VENDOR; tc_targetStatus := st;
     tc_reason := None; tc_handoverOtp := Some "123456" |}.
Definition start_run : result TransitionResult * LifecycleStore RedisMem :=
  executeTransition (run_env (100 * HOUR)) (with_code BS_ONGOING)
    (handover_store BS_CONFIRMED (code_for OTP_PICKUP (100 * HOUR)) 0).
Definition return_run (photos : nat) : result TransitionResult * LifecycleStore RedisMem :=
  executeTransition (run_env (200 * HOUR)) (with_code BS_COMPLETED)
    (handover_store BS_ONGOING (code_for OTP_RETURN (200 * HOUR)) photos).

Lemma handover_needs_code_witness :
  exists r, fst start_run = Ok r /\
  exists c, Some "123456" = Some c /\
    code_accepted (100 * HOUR) "b1" OTP_PICKUP c (code_for OTP_PICKUP (100 * HOUR)) (ls_otps (snd start_run)).
Proof.
  destruct (fst start_run) as [r|e] eqn:E; [|vm_compute in E; discriminate E].
  exists r. split; [reflexivity|].
  assert (start_run = (Ok r, snd start_run)) as H by (rewrite <- E; apply surjective_pairing).
  destruct (handover_needs_code (run_env (100 * HOUR)) (with_code BS_ONGOING)
    (handover_store BS_CONFIRMED (code_for OTP_PICKUP (100 * HOUR)) 0) r (snd start_run)
    (held_deposit (standard_rental BS_CONFIRMED)) H eq_refl ltac:(discriminate) eq_refl) as [Hc _].
  exact (proj2 (Hc eq_refl)).
Defined.

Lemma completion_settles_vehicle_witness :
  settled (200 * HOUR) "blk_720000000" "b1" (held_deposit (standard_rental BS_ONGOING)) ready_car true
    (ls_fleet (handover_store BS_ONGOING (code_for OTP_RETURN (200 * HOUR)) 2)) (ls_fleet (snd (return_run 2))) /\
  settled (200 * HOUR) "blk_720000000" "b1" (held_deposit (standard_rental BS_ONGOING)) ready_car false
    (ls_fleet (handover_store BS_ONGOING (code_for OTP_RETURN (200 * HOUR)) 0)) (ls_fleet (snd (return_run 0))).
Proof.
  destruct (fst (return_run 2)) as [r2|e] eqn:E2; [|vm_compute in E2; discriminate E2].
  destruct (fst (return_run 0)) as [r0|e] eqn:E0; [|vm_compute in E0; discriminate E0].
  assert (return_run 2 = (Ok r2, snd (return_run 2))) as H2 by (rewrite <- E2; apply surjective_pairing).
  assert (return_run 0 = (Ok r0, snd (return_run 0))) as H0 by (rewrite <- E0; apply surjective_pairing).
  split.
  - exact (completion_settles_vehicle (run_env (200 * HOUR)) (with_code BS_COMPLETED) _ r2 _
      (held_deposit (standard_rental BS_ONGOING)) ready_car H2 eq_refl eq_refl ltac:(discriminate) eq_refl).
  - exact (completion_settles_vehicle (run_env (200 * HOUR)) (with_code BS_COMPLETED) _ r0 _
      (held_deposit (standard_rental BS_ONGOING)) ready_car H0 eq_refl eq_refl ltac:(discriminate) eq_refl).
Defined.
