(* ===== verification/BookingService.v ===== *)
(** * The other operations of src/car_rental_backend/src/bookings/bookings.service.ts

    What a customer, a vendor or the staff ask about a booking after its
    creation: the preview of a cancellation, the changes of status (which go to
    the lifecycle service), the dispute flag.  The old path without a lifecycle
    service is dead code in the application and is not modelled. *)
From S2P Require Import Prelude JsNumber Decimal Schema Ledger Wallet Locks HandoverOtp PaymentRefund Outbox BookingStore.
From S2P Require Import CancellationPolicy BookingLifecycle LifecycleHandover.
Open Scope Z_scope.

Section service.
Context {R : Type} {redis : Redis R} {col : NumericColumn} {dec : DecimalArith} {bcrypt : Bcrypt}.
Abbreviation LM := (M (LifecycleStore R)).

(** ** Preview *)
Record CancellationPreview : Type := {
  pv_tier : string;
  pv_startDate : Z;
  pv_cancellationTime : Z;
  pv_hoursRemaining : Q;
  pv_amountPaid : Q;
  pv_cancellationFeePercent : Q;
  pv_cancellationFee : Q;
  pv_refundAmountPercent : Q;
  pv_refundAmount : Q;
  pv_isEligibleForRefund : bool;
}.

Definition previewParams (now : Z) (booking : Booking) (payment : option Payment) (role : Role)
    : CalculateCancellationParams :=
  {| cp_startDate := b_startDate booking;
     cp_cancellationTime := now;
     cp_amountPaid := match payment with Some p => pm_amount p | None => b_totalFare booking end;
     cp_depositAmount := Some (match b_securityDeposit booking with
                               | Some d => sd_amount d | None => 0%Q end);
     cp_actorRole := role;
     cp_isAdminOverride := false;
     cp_isPendingConfirmation := bool_decide (b_status booking = BS_PENDING);
     cp_cancellationMatrix := b_cancellationMatrix booking |}.

(** [configured] is the matrix of the configuration service, if any. *)
Definition getCancellationPreview (configured : option CancellationMatrixConfig) (now : Z) (bookingId : string)
    (userId : string) (role : Role) : LM CancellationPreview :=
  s ← get;
  booking ← from_option_or (ls_bookings s !! bookingId) NotFoundException;
  let isAdmin := bool_decide (role = ROLE_ADMIN) || bool_decide (role = ROLE_SUPPORT_AGENT) in
  let isCustomer := String.eqb (b_customerId booking) userId in
  let isVendor := bool_decide (rd_vendorUser (ls_ref s) !! b_vendorId booking = Some userId) in
  require (isAdmin || isCustomer || isVendor) ForbiddenException ;;
  require (negb (bool_decide (b_status booking = BS_CANCELLED))) BadRequestException ;;
  require (negb (bool_decide (b_status booking = BS_COMPLETED))) BadRequestException ;;
  let params := previewParams now booking (ms_payments (ls_money s) !! bookingId) role in
  let calculation := calculateCancellationWithConfig configured params in
  mret {| pv_tier := cr_tier calculation; pv_startDate := cp_startDate params; pv_cancellationTime := now;
          pv_hoursRemaining := cr_hoursRemaining calculation; pv_amountPaid := cp_amountPaid params;
          pv_cancellationFeePercent := cr_cancellationFeePercent calculation;
          pv_cancellationFee := cr_cancellationFee calculation;
          pv_refundAmountPercent := cr_refundAmountPercent calculation;
          pv_refundAmount := cr_refundAmount calculation;
          pv_isEligibleForRefund := cr_isEligibleForRefund calculation |}.

(** ** Changes of status *)
Definition updateStatus (env : TransitionEnv) (bookingId : string) (newStatus : BookingStatus)
    (userId : string) (role : Role) (reason handoverOtp : option string) : LM TransitionResult :=
  executeTransition env {| tc_bookingId := bookingId; tc_actorId := userId; tc_actorRole := RoleOf role;
                           tc_targetStatus := newStatus; tc_reason := reason; tc_handoverOtp := handoverOtp |}.
Definition customerCancels (env : TransitionEnv) (bookingId customerId reason : string) : LM TransitionResult :=
  cancelBooking env bookingId customerId (RoleOf ROLE_CUSTOMER) reason.

(** ** The dispute flag *)
Definition with_disputeFlag (flag : bool) (b : Booking) : Booking :=
  {| b_customerId := b_customerId b; b_vendorId := b_vendorId b; b_carId := b_carId b;
     b_pickupHubId := b_pickupHubId b; b_startDate := b_startDate b; b_endDate := b_endDate b;
     b_totalFare := b_totalFare b; b_platformFee := b_platformFee b; b_gstAmount := b_gstAmount b;
     b_netToVendor := b_netToVendor b; b_disputeFlag := flag; b_quoteTotal := b_quoteTotal b;
     b_couponId := b_couponId b; b_discountAmount := b_discountAmount b;
     b_corporateAccountId := b_corporateAccountId b;
     b_cancellationMatrix := b_cancellationMatrix b; b_commissionSplit := b_commissionSplit b;
     b_securityDeposit := b_securityDeposit b; b_status := b_status b;
     b_cancellationReason := b_cancellationReason b; b_cancellationFee := b_cancellationFee b;
     b_refundAmount := b_refundAmount b; b_cancelledAt := b_cancelledAt b; b_cancelledBy := b_cancelledBy b |}.
Definition setDispute (flag : bool) (bookingId : string) : LM unit :=
  s ← get;
  booking ← from_option_or (ls_bookings s !! bookingId) NotFoundException;
  modify (set_booking bookingId (with_disputeFlag flag booking)).
Definition flagDispute : string -> LM unit := setDispute true.
Definition resolveDispute : string -> LM unit := setDispute false.

(** ** The two tables of steps *)
Definition allowedTransitions (current : BookingStatus) : list BookingStatus :=
  match current with
  | BS_PENDING => [BS_CONFIRMED; BS_CANCELLED; BS_EXPIRED]
  | BS_CONFIRMED => [BS_HANDOVER_READY; BS_ONGOING; BS_CANCELLED; BS_REFUND_PENDING]
  | BS_HANDOVER_READY => [BS_ONGOING; BS_CANCELLED]
  | BS_ONGOING => [BS_RETURN_PENDING; BS_COMPLETED]
  | BS_RETURN_PENDING => [BS_COMPLETED; BS_DISPUTED]
  | BS_REFUND_PENDING => [BS_REFUNDED; BS_DISPUTED]
  | BS_DISPUTED => [BS_COMPLETED; BS_REFUND_PENDING; BS_REFUNDED]
  | BS_COMPLETED | BS_REFUNDED | BS_CANCELLED | BS_EXPIRED => []
  end.
Definition validateStatusTransition (currentStatus targetStatus : BookingStatus) : LM unit :=
  if bool_decide (currentStatus = targetStatus) then mret tt
  else require (bool_decide (targetStatus ∈ allowedTransitions currentStatus)) BadRequestException.
Definition getAllowedNextStates (current : BookingStatus) (role : Role) : list BookingStatus :=
  match role with
  | ROLE_CUSTOMER => match current with BS_PENDING | BS_CONFIRMED => [BS_CANCELLED] | _ => [] end
  | ROLE_VENDOR =>
    match current with
    | BS_PENDING => [BS_CONFIRMED; BS_CANCELLED]
    | BS_CONFIRMED => [BS_HANDOVER_READY; BS_ONGOING; BS_CANCELLED]
    | BS_HANDOVER_READY => [BS_ONGOING; BS_CANCELLED]
    | BS_ONGOING => [BS_RETURN_PENDING; BS_COMPLETED]
    | BS_RETURN_PENDING => [BS_COMPLETED]
    | _ => []
    end
  | _ => []
  end.
End service.

(** ** Laws *)
Section service_laws.
Context {R : Type} {redis : Redis R} {col : NumericColumn} {dec : DecimalArith} {bcrypt : Bcrypt}.
Implicit Types s : LifecycleStore R.

Lemma preview_readonly configured now id user role :
  readonly (getCancellationPreview (R:=R) configured now id user role).
Proof. intros x. unfold getCancellationPreview. auto 12 with preserves. Qed.

(** A cancellation that commits leaves the row [updateBooking] wrote. *)
Lemma cancelled_row env id b car pay actor reason c s u s' :
  transitionTransaction env id b car pay actor BS_CANCELLED reason (Some c) s = (Ok u, s') ->
  exists b', ls_bookings s' !! id = Some b' /\ b_status b' = BS_CANCELLED /\
    b_cancellationFee b' = Some (store (cr_cancellationFee c)) /\
    b_refundAmount b' = Some (store (cr_refundAmount c)) /\ b_cancelledAt b' = Some (te_now env) /\
    b_cancelledBy b' = Some actor.
Proof.
  unfold transitionTransaction. rewrite (bool_decide_true (BS_CANCELLED = BS_CANCELLED)) by done.
  rewrite !(bool_decide_false (BS_CANCELLED = _)) by done. intros (? & s1 & Hu & H)%bind_Ok.
  unfold updateBooking in Hu. rewrite get_bind in Hu. destruct (ls_bookings s !! id) as [b0|]; [|done].
  rewrite require_bind in Hu. destruct (bool_decide (b_status b0 = b_status b)); [|done].
  rewrite (bool_decide_true (BS_CANCELLED = BS_CANCELLED)) in Hu by done. injection Hu as _ <-.
  match type of H with _ (set_booking id ?row s) = _ => set (b' := row) in H end.
  assert (inert (<[id := b']> (ls_bookings s)) (ls_outbox s) (set_booking id b' s)) as Hi by done.
  set (s1 := set_booking id b' s) in *. clearbody s1.
  assert (ls_bookings s' = <[id := b']> (ls_bookings s)) as Hs'.
  { clearbody b'. do 7 (skip_in H Hi (simpl; auto 12 with preserves)).
    apply createOutboxEvent_Ok in H as [-> _]; [|done]. by destruct Hi. }
  exists b'. rewrite Hs', lookup_insert_eq. by subst b'.
Qed.

(** A previewed refund is the params' own, whichever of the two asks. *)
Lemma preview_is_calculation configured now id user role s pv s' b :
  getCancellationPreview configured now id user role s = (Ok pv, s') -> ls_bookings s !! id = Some b ->
  let c := calculateCancellationWithConfig configured
             (previewParams now b (ms_payments (ls_money s) !! id) role) in
  pv_cancellationFee pv = cr_cancellationFee c /\ pv_refundAmount pv = cr_refundAmount c /\
  pv_isEligibleForRefund pv = cr_isEligibleForRefund c.
Proof.
  unfold getCancellationPreview. intros H Hb. step_in H. rewrite Hb in H.
  guard_in H as _. guard_in H as _. guard_in H as _. by injection H as <- _.
Qed.

Lemma whole_cents z : whole_paise (inject_Z z / 100).
Proof. exists z. reflexivity. Qed.
Lemma cancellation_amounts_whole configured p :
  whole_paise (cr_cancellationFee (calculateCancellationWithConfig configured p)) /\
  whole_paise (cr_refundAmount (calculateCancellationWithConfig configured p)).
Proof.
  unfold calculateCancellationWithConfig. destruct (cp_cancellationMatrix p); unfold calculateCancellation;
    destruct (selectTier _ _) as [[? ?] ?]; split; apply whole_cents.
Qed.

(** What the preview shows is what the cancellation charges: a customer,
    vendor or administrator who cancels at the time of the preview (without
    the administrator's override for a full refund) finds exactly the
    previewed fee and refund on the cancelled booking, although the preview
    and the transition compute them in two places. *)
Theorem preview_is_charged env id user role reason otp s pv s1 r s'
    (Hpv : getCancellationPreview (te_cancelMatrix env) (te_now env) id user role s = (Ok pv, s1))
    (Hreason : role = ROLE_ADMIN -> match reason with Some t => includes "admin_full_refund" t = false | None => True end)
    (H : updateStatus env id BS_CANCELLED user role reason otp s = (Ok r, s')) :
  exists b b', ls_bookings s !! id = Some b /\ BS_CANCELLED ∈ matrix (b_status b) /\
    ls_bookings s' !! id = Some b' /\ b_status b' = BS_CANCELLED /\ b_cancelledAt b' = Some (te_now env) /\
    b_cancelledBy b' = Some user /\
    exists fee refund, b_cancellationFee b' = Some fee /\ b_refundAmount b' = Some refund /\
      (fee == pv_cancellationFee pv /\ refund == pv_refundAmount pv)%Q.
Proof.
  destruct (ls_bookings s !! id) as [b|] eqn:Hb.
  2: { unfold getCancellationPreview in Hpv. step_in Hpv. by rewrite Hb in Hpv. }
  destruct (preview_is_calculation _ _ _ _ _ _ _ _ _ Hpv Hb) as (Efee & Eref & _).
  assert (b_status b <> BS_CANCELLED) as Hne.
  { unfold getCancellationPreview in Hpv. step_in Hpv. rewrite Hb in Hpv. guard_in Hpv as _.
    by guard_in Hpv as ?%negb_true_iff%bool_decide_eq_false. }
  unfold updateStatus in H. apply executeTransition_Ok in H as (t1 & t4 & Hu & _ & Hbody & Hu' & _).
  rewrite <- (un_bookings _ _ Hu), <- (un_money _ _ Hu) in *.
  destruct (transitionBody_moved _ _ _ _ _ _ Hbody Hb Hne) as (t2 & t3 & [_ _ Hun Hc Ha Hm]). simpl in *.
  set (c := calculateCancellationWithConfig _ _) in Efee, Eref.
  assert (cancellationCalc env b (ms_payments (ls_money t1) !! id) BS_CANCELLED (RoleOf role) reason = Some c) as Ec.
  { unfold cancellationCalc. rewrite bool_decide_true by done. f_equal. unfold c. f_equal.
    unfold cancelParams, previewParams. f_equal. case_bool_decide as Hr; [|done]. injection Hr as ->.
    specialize (Hreason eq_refl). by destruct reason. }
  rewrite Ec in Hc, Ha. apply cancelled_row in Hc as (b' & Hb' & H1 & H2 & H3 & H4 & H5).
  pose proof (inert_afterCommit (ls_bookings t3) (ls_outbox t3) _ _ _ _ _ _ _ _ _ _ Ha) as [Hbk _]; [done|].
  exists b, b'. rewrite (un_bookings _ _ Hu'), Hbk. split_and!; try done.
  do 2 eexists. split_and!; try done; rewrite store_exact; rewrite ?Efee, ?Eref; try reflexivity;
    apply cancellation_amounts_whole.
Qed.
End service_laws.

(** The table of this service and the lists per role against the matrix of the
    lifecycle service. *)
Lemma tables_agree {R} cur target (s : LifecycleStore R) :
  fst (validateStatusTransition cur target s) = Ok tt <-> cur = target \/ target ∈ matrix cur.
Proof.
  unfold validateStatusTransition. case_bool_decide as E; [by split; [left|]|].
  unfold require. assert (allowedTransitions cur = matrix cur) as -> by (by destruct cur).
  case_bool_decide as E'; simpl; split; try done; [by right|by intros [?|?]].
Qed.
Lemma role_steps_in_matrix cur role target : target ∈ getAllowedNextStates cur role -> target ∈ matrix cur.
Proof. destruct role, cur; simpl; try (by intros []%elem_of_nil); set_solver. Qed.

(** ** A concrete cancellation *)
#[local] Existing Instance plain_bcrypt.
Definition confirmed_store : LifecycleStore RedisMem :=
  store_of {["b1" := standard_rental BS_CONFIRMED]} (paid_store 6118).
Definition preview_run : result CancellationPreview * LifecycleStore RedisMem :=
  getCancellationPreview None (90 * HOUR) "b1" "c1" ROLE_CUSTOMER confirmed_store.
Definition cancel_run : result TransitionResult * LifecycleStore RedisMem :=
  updateStatus (run_env (90 * HOUR)) "b1" BS_CANCELLED "c1" ROLE_CUSTOMER (Some "Plans changed") None confirmed_store.

Lemma preview_is_charged_witness :
  exists b', ls_bookings (snd cancel_run) !! "b1" = Some b' /\ b_status b' = BS_CANCELLED /\
    exists fee, b_cancellationFee b' = Some fee /\ (fee == 5590 # 20)%Q.
Proof.
  destruct (fst preview_run) as [pv|] eqn:E; [|vm_compute in E; discriminate E].
  destruct (fst cancel_run) as [r|] eqn:E'; [|vm_compute in E'; discriminate E'].
  destruct (preview_is_charged (run_env (90 * HOUR)) "b1" "c1" ROLE_CUSTOMER (Some "Plans changed") None
    confirmed_store pv (snd preview_run) r (snd cancel_run)) as (b & b' & _ & _ & H1 & H2 & _ & _ & fee & re & H3 & _ & H4 & _).
  - apply (run_eq preview_run). exact E.
  - discriminate.
  - apply (run_eq cancel_run). exact E'.
  - exists b'. split; [exact H1|]. split; [exact H2|]. exists fee. split; [exact H3|].
    rewrite H4. vm_compute in E. injection E as <-. vm_compute. reflexivity.
Defined.

(** An ongoing rental has a preview with a refund, but cannot be cancelled. *)
Definition ongoing_store : LifecycleStore RedisMem :=
  store_of {["b1" := standard_rental BS_ONGOING]} (paid_store 6118).
Lemma preview_of_uncancellable :
  (pv_isEligibleForRefund <$> (match fst (getCancellationPreview None (90 * HOUR) "b1" "c1" ROLE_CUSTOMER ongoing_store)
     with Ok pv => Some pv | Throw _ => None end)) = Some true /\
  fst (updateStatus (run_env (90 * HOUR)) "b1" BS_CANCELLED "c1" ROLE_CUSTOMER (Some "Plans changed") None ongoing_store)
    = Throw BadRequestException.
Proof. split; vm_compute; reflexivity. Qed.
