(* ===== verification/LifecycleMoney.v ===== *)
(** * The money of a cancellation

    The journals [executeTransition] posts for a refund
    (bookings/booking-lifecycle.service.ts, steps 5.0 and 7.1): the reversal
    of a full refund balances; partial refunds, discounted fares and unpaid
    bookings are computed on concrete stores. *)
From S2P Require Import Prelude JsNumber Decimal Schema Ledger Wallet Locks HandoverOtp.
From S2P Require Import CancellationPolicy Commission PaymentRefund Outbox BookingStore.
From S2P Require Import BookingLifecycle.
From stdpp Require Import pretty.
Open Scope Z_scope.
Open Scope Q_scope.

(** ** The reversal of a full refund *)
Section full_refund.
Context {dec : DecimalArith} {col : NumericColumn}.

(** A fare in whole paise whose components do not exceed it, below ten
    million rupees (the [Decimal(10, 2)] columns hold less). *)
Record sound_fare (b : Booking) : Prop := {
  sf_total : whole_paise (b_totalFare b);
  sf_fee : whole_paise (b_platformFee b);
  sf_gst : whole_paise (b_gstAmount b);
  sf_net : whole_paise (b_netToVendor b);
  sf_deposit : whole_paise (depositOf b);
  sf_fee_nonneg : 0 <= b_platformFee b;
  sf_gst_nonneg : 0 <= b_gstAmount b;
  sf_net_nonneg : 0 <= b_netToVendor b;
  sf_deposit_nonneg : 0 <= depositOf b;
  sf_positive : 0 < b_totalFare b;
  sf_cover : b_netToVendor b + b_gstAmount b <= b_totalFare b;
  sf_bound : b_totalFare b + b_platformFee b + depositOf b <= 100000000;
}.

Lemma dec_exact q : whole_paise q -> -1000000000000 <= q <= 1000000000000 -> dec_round q == q.
Proof.
  intros H Hq. apply dec_round_exact; [done|]. apply Qabs_Qle_condition. lra.
Qed.

(** The deposit row an active deposit is in. *)
Definition depositHeld (b : Booking) : Prop :=
  match b_securityDeposit b with Some d => sd_status d <> SD_CANCELLED | None => True end.

Lemma depositRefund_full b F : sound_fare b -> depositHeld b -> F == b_totalFare b + depositOf b ->
  let d := (if d_gt (depositOf b) 0 && match b_securityDeposit b with
                                       | Some d => negb (bool_decide (sd_status d = SD_CANCELLED))
                                       | None => true end
            then d_min (depositOf b) F else 0) in d == depositOf b.
Proof.
  intros Hs Hh HF. pose proof (sf_deposit_nonneg _ Hs). pose proof (sf_positive _ Hs). cbv zeta.
  assert (match b_securityDeposit b with
          | Some d => negb (bool_decide (sd_status d = SD_CANCELLED)) | None => true end = true) as ->.
  { unfold depositHeld in Hh. destruct (b_securityDeposit b); [|done]. by rewrite bool_decide_false. }
  rewrite andb_true_r. destruct (d_gt (depositOf b) 0) eqn:E; dec_bool; [|lra].
  destruct (d_min_spec (depositOf b) F) as [[_ ->]|[? ->]]; lra.
Qed.

Lemma full_reversal b F : sound_fare b -> depositHeld b -> F == b_totalFare b + depositOf b ->
  rv_depositRefund (reversalParts b F) == depositOf b /\
  rv_vendorReversal (reversalParts b F) == b_netToVendor b /\
  rv_gstReversal (reversalParts b F) == b_gstAmount b /\
  rv_platformReversal (reversalParts b F) == b_totalFare b - b_netToVendor b - b_gstAmount b.
Proof.
  intros Hs Hh HF. pose proof (depositRefund_full b F Hs Hh HF) as Hd. cbv zeta in Hd.
  destruct Hs as [Wt Wf Wg Wn Wd Nf Ng Nn Nd Hp Hc Hb]. unfold reversalParts. cbv zeta.
  set (d := if _ && _ then _ else _) in *.
  assert (d_ge (F - d) 0 = true) as -> by (apply d_ge_true; lra).
  assert (F - d == b_totalFare b) as Hfr by lra.
  assert (d_gt (b_totalFare b) 0 = true) as -> by (apply d_gt_true; lra).
  assert (d_gt (F - d) 0 = true) as -> by (apply d_gt_true; lra). simpl.
  assert ((F - d) / b_totalFare b == 1) as H1 by (rewrite Hfr; field; lra).
  assert (dec_div (F - d) (b_totalFare b) == 1) as Hr.
  { unfold dec_div. rewrite dec_exact, H1; [done| |lra]. rewrite H1. by exists 100%Z. }
  set (r := dec_div _ _) in *.
  assert (forall x, whole_paise x -> 0 <= x <= 100000000 -> dec_mul x r == x) as Hm.
  { intros x Wx Bx. unfold dec_mul. assert (x * r == x) as Hx by (rewrite Hr; ring).
    rewrite dec_exact, Hx; [done|by rewrite Hx|lra]. }
  assert (d_min (b_netToVendor b) (dec_mul (b_netToVendor b) r) == b_netToVendor b) as Hv.
  { pose proof (Hm (b_netToVendor b) Wn ltac:(lra)).
    destruct (d_min_spec (b_netToVendor b) (dec_mul (b_netToVendor b) r)) as [[_ ->]|[? ->]]; lra. }
  set (v := d_min (b_netToVendor b) _) in *. set (g := dec_mul (b_gstAmount b) r).
  assert (g == b_gstAmount b) as Hg by (apply Hm; [done|lra]).
  assert (dec_mul (b_platformFee b) r == b_platformFee b) as Hpf by (apply Hm; [done|lra]).
  set (p := dec_mul (b_platformFee b) r) in *. clearbody v g p d.
  split; [done|]. split; [done|]. split; [done|]. unfold dec_add, dec_sub.
  assert (whole_paise v /\ whole_paise p /\ whole_paise g /\ whole_paise d /\ whole_paise F)
    as (Wv & Wp & Wgg & Wdd & WF).
  { rewrite Hv, Hpf, Hg, Hd, HF. auto 10 with dec. }
  assert (dec_round (v + p) == v + p) as E1 by (apply dec_exact; [auto with dec|lra]).
  assert (dec_round (dec_round (v + p) + g) == v + p + g) as E2
    by (rewrite dec_exact, E1; [ring|rewrite E1; auto with dec|lra]).
  set (e2 := dec_round (_ + g)) in *. clearbody e2.
  assert (dec_round (e2 + d) == v + p + g + d) as E3
    by (rewrite dec_exact, E2; [ring|rewrite E2; auto with dec|lra]).
  set (e3 := dec_round (_ + d)) in *. clearbody e3.
  assert (dec_round (F - e3) == F - (v + p + g + d)) as E4
    by (rewrite dec_exact, E3; [ring|rewrite E3; auto 7 with dec|lra]).
  set (e4 := dec_round (F - _)) in *. clearbody e4.
  rewrite dec_exact, E4; [lra| |lra]. rewrite E4. auto 8 with dec.
Qed.
End full_refund.

Section posting.
Context {dec : DecimalArith} {col : NumericColumn}.

Lemma pushIf_side sd c l : side_total sd (pushIf c l) == if c && line_is sd l then li_amount l else 0.
Proof. unfold side_total, pushIf. destruct c; simpl; [destruct (line_is sd l)|]; ring. Qed.
Lemma side_total_app sd l1 l2 : side_total sd (l1 ++ l2) == side_total sd l1 + side_total sd l2.
Proof. apply sum_by_app. Qed.

(** Pushing drops nothing but zeros. *)
Lemma pushed_amount q : 0 <= q -> (if d_gt q 0 then q else 0) == q.
Proof. intros Hq. destruct (d_gt q 0) eqn:E; dec_bool; [done|lra]. Qed.

Lemma reversalLines_sides id b p F :
  let rv := reversalParts b F in
  0 <= rv_depositRefund rv -> 0 <= rv_vendorReversal rv -> 0 <= rv_platformReversal rv ->
  0 <= rv_gstReversal rv ->
  side_total DEBIT (reversalLines id b p F) ==
    rv_depositRefund rv + rv_vendorReversal rv + rv_platformReversal rv + rv_gstReversal rv /\
  side_total CREDIT (reversalLines id b p F) == F.
Proof.
  cbv zeta. unfold reversalLines. cbv zeta. set (rv := reversalParts b F). intros.
  split; rewrite !side_total_app, !pushIf_side; unfold side_total; cbn [sum_by];
    rewrite ?andb_true_r, ?andb_false_r; simpl.
  - rewrite !pushed_amount by done. ring.
  - ring.
Qed.

Lemma reversalLines_length id b p F :
  let rv := reversalParts b F in
  0 < rv_depositRefund rv + rv_vendorReversal rv + rv_platformReversal rv + rv_gstReversal rv ->
  (2 <= length (reversalLines id b p F))%nat.
Proof.
  cbv zeta. unfold reversalLines. cbv zeta. set (rv := reversalParts b F). intros H.
  rewrite !length_app. unfold pushIf.
  destruct (d_gt (rv_depositRefund rv) 0) eqn:E1; [simpl; lia|].
  destruct (d_gt (rv_vendorReversal rv) 0) eqn:E2; [simpl; lia|].
  destruct (d_gt (rv_platformReversal rv) 0) eqn:E3; [simpl; lia|].
  destruct (d_gt (rv_gstReversal rv) 0) eqn:E4; [simpl; lia|]. dec_bool. lra.
Qed.

Lemma abs_sides lines : Forall well_formed_line lines ->
  sum_by (fun l => Qabs (li_amount l)) lines == side_total DEBIT lines + side_total CREDIT lines.
Proof.
  unfold side_total. induction 1 as [|l lines [Hpos [sd Hs]] _ IH]; simpl; [ring|].
  rewrite IH, (Qabs_pos (li_amount l)) by lra. unfold line_is. rewrite Hs. destruct sd; simpl; ring.
Qed.

Lemma pushIf_Forall (P : JournalEntryLineInput -> Prop) c l :
  (c = true -> P l) -> Forall P (pushIf c l).
Proof. destruct c; simpl; auto. Qed.

(** Cancelling with a full refund reverses exactly what the payment booked.  For a fare in whole paise whose vendor and tax parts do not exceed it, the reversal debits the deposit escrow, the vendor's net, the tax and the rest of the fare from the platform, and recordJournal posts it as one balanced journal. *)
Theorem full_refund_journal_posts now fid id b p F L :
  sound_fare b -> depositHeld b -> F == b_totalFare b + depositOf b ->
  keys_fresh (Some ("jrn_refund_intent_" +:+ id)) 0 L ->
  let rv := reversalParts b F in
  (rv_depositRefund rv == depositOf b /\ rv_vendorReversal rv == b_netToVendor b /\
   rv_gstReversal rv == b_gstAmount b /\
   rv_platformReversal rv == b_totalFare b - b_netToVendor b - b_gstAmount b) /\
  exists entries, length entries = length (reversalLines id b p F) /\
    recordJournal now fid true (reversalJournal id b p F) L =
      (Ok {| jr_journalId := "jrn_" +:+ fid; jr_entries := entries; jr_isDuplicate := false |}, L ++ entries).
Proof.
  intros Hs Hh HF Hk rv. pose proof (full_reversal b F Hs Hh HF) as Hrv. split; [exact Hrv|].
  fold rv in Hrv. destruct Hrv as (H1 & H2 & H3 & H4).
  destruct Hs as [Wt Wf Wg Wn Wd Nf Ng Nn Nd Hp Hc Hb].
  assert (whole_paise (rv_depositRefund rv) /\ whole_paise (rv_vendorReversal rv) /\
    whole_paise (rv_platformReversal rv) /\ whole_paise (rv_gstReversal rv) /\ whole_paise F)
    as (W1 & W2 & W3 & W4 & W5) by (rewrite H1, H2, H3, H4, HF; auto 10 with dec).
  destruct (reversalLines_sides id b p F) as [HD HC]; fold rv; [lra..|]. fold rv in HD.
  assert (Forall well_formed_line (reversalLines id b p F)) as Hwf.
  { unfold reversalLines. cbv zeta. fold rv. repeat apply Forall_app_2;
      try (apply pushIf_Forall; intros E; dec_bool; split; simpl; [lra|eauto]).
    repeat constructor; simpl; [lra|eauto]. }
  assert (Forall (fun l => whole_paise (li_amount l)) (reversalLines id b p F)) as Hw.
  { unfold reversalLines. cbv zeta. fold rv. repeat apply Forall_app_2;
      try (apply pushIf_Forall; by intros _). by repeat constructor. }
  assert (rawLines (reversalJournal id b p F) = reversalLines id b p F) as Hraw by done.
  destruct (recordJournal_fresh_run now fid true (reversalJournal id b p F) L) as [[_ Hok]|[Hne _]];
    rewrite ?Hraw; [|done| |done| |].
  - apply reversalLines_length. fold rv. lra.
  - split; [done|]. rewrite (abs_sides _ Hwf), HD, HC. lra.
  - exact Hok.
  - exfalso. apply Hne. rewrite Hraw, HD, HC, H1, H2, H3, H4, HF. ring.
Qed.
End posting.

#[local] Existing Instance plain_bcrypt.

Definition fare_booking : Booking := standard_rental BS_CONFIRMED.
Lemma full_refund_journal_posts_witness :
  exists entries, recordJournal 0 "f" true (reversalJournal "b1" fare_booking (sample_payment 6118) 6118) [] =
    (Ok {| jr_journalId := "jrn_f"; jr_entries := entries; jr_isDuplicate := false |}, entries).
Proof.
  destruct (full_refund_journal_posts 0 "f" "b1" fare_booking (sample_payment 6118) 6118 [])
    as [_ (entries & _ & H)].
  - assert (forall n, whole_paise (inject_Z n)) as Hw.
    { intros n. exists (n * 100)%Z. rewrite inject_Z_mult. field. }
    constructor; try (vm_compute; discriminate); try reflexivity.
    + exact (Hw 1118%Z).
    + exact (Hw 100%Z).
    + exact (Hw 18%Z).
    + exact (Hw 1000%Z).
    + exact (Hw 5000%Z).
  - discriminate.
  - reflexivity.
  - intros j e _ He. apply not_elem_of_nil in He as [].
  - exists entries. exact H.
Defined.

(** ** Concrete cancellations *)
Definition cancels : BookingTransitionContext :=
  request "b1" "c1" (RoleOf ROLE_CUSTOMER) BS_CANCELLED (Some "changed plans").
Definition cancel_run (now : Z) (b : Booking) (money : MoneyStore)
    : result TransitionResult * LifecycleStore RedisMem :=
  executeTransition (run_env now) cancels (store_of {["b1" := b]} money).
Definition refund_rows (s : LifecycleStore RedisMem) : list (RefundStatus * bool) :=
  map (fun r => (pr_status r, bool_decide (pr_gatewayRefundId r = Some "rfnd_1"))) (ms_refunds (ls_money s)).

(** A coupon of 300 on a fare whose platform fee is 100: the platform's share
    of the reversal is negative, its line is left out, the journal does not
    balance, and the booking cannot be cancelled. *)
Lemma discounted_booking_cannot_be_cancelled :
  fst (cancel_run HOUR (rental "car1" BS_CONFIRMED 1000 100 18 818 5000) (paid_store 5818)) =
    Throw UnbalancedJournalException.
Proof. vm_compute. reflexivity. Qed.

(** Half the fare kept as a fee: the parts of the reversal are not rounded to
    paise and their sum, kept to 20 digits, misses the refund. *)
Lemma late_cancellation_can_be_refused :
  fst (cancel_run (98 * HOUR)
         (rental "car1" BS_CONFIRMED (1142487 # 100) (171373 # 100) (30847 # 100) (1344707 # 100) 5000)
         (paid_store (1844707 # 100))) = Throw UnbalancedJournalException.
Proof. vm_compute. reflexivity. Qed.

(** A quarter kept: the totals agree, but each part is rounded to paise when
    it is stored, and the journal as stored is off by a paisa. *)
Definition quarter_run : result TransitionResult * LifecycleStore RedisMem :=
  cancel_run (90 * HOUR)
    (rental "car1" BS_CONFIRMED (331782 # 100) (39814 # 100) (7167 # 100) (378763 # 100) 5000)
    (paid_store (878763 # 100)).
Lemma partial_refund_journal_off_by_a_paisa :
  is_Ok (fst quarter_run) = true /\
  unbalancedJournals (verifyLedgerIntegrity (the_ledger (snd quarter_run))) = ["jrn_j_324000000b"] /\
  journal_sum "jrn_j_324000000b" (the_ledger (snd quarter_run)) == -(1 # 100).
Proof. vm_compute. done. Qed.

(** The gateway refund succeeds and its own row takes the gateway's id, which
    is unique: marking the intent processed with the same id fails, and the
    intent is left to be retried. *)
Lemma processed_refund_left_retryable :
  let s := snd (cancel_run HOUR fare_booking (paid_store 6118)) in
  refund_rows s = [(RS_RETRYABLE, false); (RS_PROCESSED, true)] /\
  (pm_status <$> (ms_payments (ls_money s) !! "b1") = Some PS_REFUNDED).
Proof. vm_compute. done. Qed.

(** Nobody paid, yet the refund of the full amount is booked against the
    vendor, the platform, the tax and the deposit accounts. *)
Definition unpaid_store : MoneyStore :=
  {| ms_payments := {["b1" := {| pm_id := "p1"; pm_amount := 6118; pm_status := PS_CREATED;
       pm_gatewayProvider := "RAZORPAY"; pm_paymentMethod := None;
       pm_razorpayOrderId := Some "order_1"; pm_razorpayPaymentId := None; pm_razorpayRefundId := None;
       pm_refundAmount := None; pm_refundStatus := RS_NONE |}]};
     ms_refunds := []; ms_audit := []; ms_wallets := empty_store |}.
Lemma unpaid_cancellation_debits_vendor :
  let s := snd (cancel_run HOUR (standard_rental BS_PENDING) unpaid_store) in
  getVendorPayableBalance (the_ledger s) "v1" == -1000 /\
  getAccountBalance (the_ledger s) GATEWAY_CLEARING None == -6118.
Proof. vm_compute. done. Qed.

(** Without a payment row the intent names the booking as its payment, which
    no payment has: the foreign key refuses it and the cancellation fails. *)
Lemma booking_without_payment_cannot_be_cancelled :
  fst (cancel_run HOUR (standard_rental BS_PENDING)
         {| ms_payments := ∅; ms_refunds := []; ms_audit := []; ms_wallets := empty_store |}) =
    Throw PrismaP2003.
Proof. vm_compute. reflexivity. Qed.

(** The lock is the booking's and the overlap is only read before the
    transaction: two paid bookings of one car for one period, confirmed at the
    same time, both pass the check and both commit. *)
Definition rivals : LifecycleStore RedisMem :=
  store_of {["b1" := standard_rental BS_PENDING; "b2" := standard_rental BS_PENDING]}
    {| ms_payments := {["b1" := sample_payment 6118; "b2" := sample_payment 6118]}; ms_refunds := [];
       ms_audit := []; ms_wallets := empty_store |}.
Definition check_confirm (id : string) (s : LifecycleStore RedisMem) : result unit :=
  fst (validateBusinessPreconditions (run_env HOUR) id (standard_rental BS_PENDING) (Some ready_car)
         (Some (sample_payment 6118)) BS_CONFIRMED (RoleOf ROLE_VENDOR) None None s).
Definition commit_confirm (now : Z) (id : string) (s : LifecycleStore RedisMem) :
    result unit * LifecycleStore RedisMem :=
  transaction (transitionTransaction (run_env now) id (standard_rental BS_PENDING) (Some ready_car)
    (Some (sample_payment 6118)) "vu1" BS_CONFIRMED None None) s.
Definition both_confirmed : result unit * LifecycleStore RedisMem :=
  commit_confirm (HOUR + 1) "b2" (snd (commit_confirm HOUR "b1" rivals)).
Lemma concurrent_confirmations_double_book :
  check_confirm "b1" rivals = Ok tt /\ check_confirm "b2" rivals = Ok tt /\
  fst both_confirmed = Ok tt /\ ~ ReservationBook.exclusive (slots (snd both_confirmed)).
Proof.
  split; [vm_compute; reflexivity|]. split; [vm_compute; reflexivity|].
  split; [vm_compute; reflexivity|]. intros H.
  assert (forall id, id = "b1" \/ id = "b2" ->
    slots (snd both_confirmed) !! id = Some (slot (standard_rental BS_CONFIRMED))) as Hl
    by (intros id [-> | ->]; vm_compute; reflexivity).
  destruct (H "b1" "b2" _ _ ltac:(done) (Hl "b1" ltac:(auto)) (Hl "b2" ltac:(auto)) eq_refl eq_refl eq_refl)
    as [Hf|Hf]; vm_compute in Hf; by apply Hf.
Qed.
