(* ===== verification/Payments.v ===== *)
(** * Payment orders and their verification

    payments/payments.service.ts: the payment state machine
    ([assertValidTransition]), [createOrder], [verifyPayment] and the journal
    of a verified payment; invoices/invoices.service.ts:
    [generateInvoiceForBooking].  The checks of Razorpay's library, its API,
    the answers of the integration runtime and generated ids are arguments. *)
From S2P Require Import Prelude JsNumber Decimal Schema Ledger Wallet Locks HandoverOtp DepositStore.
From S2P Require Import CancellationPolicy Commission PaymentRefund Outbox BookingStore.
From S2P Require Import BookingLifecycle LifecycleMoney.
From stdpp Require Import pretty.
Open Scope Z_scope.
Open Scope Q_scope.

Record Coupon : Type := {
  cpn_code : string;
  cpn_discountType : DiscountType;
  cpn_discountValue : Q;
  cpn_maxDiscountAmount : option Q;
  cpn_minBookingAmount : option Q;
  cpn_startDate : option Z;
  cpn_expiresAt : option Z;
  cpn_isActive : bool;
  cpn_globalUsageLimit : option Z;
  cpn_perCustomerLimit : option Z;
  cpn_firstBookingOnly : bool;
  cpn_city : option string;
  cpn_tripType : option TripType;
  cpn_carCategory : option CarCategory;
  cpn_usageCount : Z;
  cpn_vendorId : option string;
  cpn_branchId : option string;
  cpn_minRentalDays : option Z;
  cpn_stackable : bool;
}.
Definition with_usageCount (n : Z) (c : Coupon) : Coupon :=
  {| cpn_code := cpn_code c; cpn_discountType := cpn_discountType c;
     cpn_discountValue := cpn_discountValue c; cpn_maxDiscountAmount := cpn_maxDiscountAmount c;
     cpn_minBookingAmount := cpn_minBookingAmount c; cpn_startDate := cpn_startDate c;
     cpn_expiresAt := cpn_expiresAt c; cpn_isActive := cpn_isActive c;
     cpn_globalUsageLimit := cpn_globalUsageLimit c; cpn_perCustomerLimit := cpn_perCustomerLimit c;
     cpn_firstBookingOnly := cpn_firstBookingOnly c; cpn_city := cpn_city c;
     cpn_tripType := cpn_tripType c; cpn_carCategory := cpn_carCategory c; cpn_usageCount := n;
     cpn_vendorId := cpn_vendorId c; cpn_branchId := cpn_branchId c;
     cpn_minRentalDays := cpn_minRentalDays c; cpn_stackable := cpn_stackable c |}.
Record CouponUsage : Type := {
  cu_couponId : string;
  cu_customerId : string;
  cu_bookingId : string;
  cu_discountAmount : Q;
}.
Record Invoice : Type := {
  inv_invoiceNumber : string;
  inv_bookingId : string;
  inv_paymentId : string;
  inv_customerId : string;
  inv_vendorId : string;
  inv_platformFee : Q;
  inv_gstAmount : Q;
  inv_discountAmount : Q;
  inv_totalFare : Q;
  inv_depositAmount : Q;
}.
Inductive WebhookStatus : Type := WH_RECEIVED | WH_PROCESSED.
Record WebhookEvent : Type := {
  wh_eventId : string;
  wh_gateway : string;
  wh_eventType : string;
  wh_status : WebhookStatus;
}.

Record PayStore (R : Type) : Type := {
  ps_core : LifecycleStore R;
  ps_coupons : gmap string Coupon;
  ps_usages : list CouponUsage;
  ps_invoices : list Invoice;
  ps_webhooks : list WebhookEvent;
  ps_vendorDeposits : VendorDeposits;
}.
Arguments ps_core {R}. Arguments ps_coupons {R}. Arguments ps_usages {R}. Arguments ps_invoices {R}.
Arguments ps_webhooks {R}. Arguments ps_vendorDeposits {R}.

Section setters.
Context {R : Type}.
Implicit Types s : PayStore R.
Definition set_core (c : LifecycleStore R) s : PayStore R :=
  {| ps_core := c; ps_coupons := ps_coupons s; ps_usages := ps_usages s; ps_invoices := ps_invoices s;
     ps_webhooks := ps_webhooks s; ps_vendorDeposits := ps_vendorDeposits s |}.
Definition set_coupon (id : string) (c : Coupon) s : PayStore R :=
  {| ps_core := ps_core s; ps_coupons := <[id := c]> (ps_coupons s); ps_usages := ps_usages s;
     ps_invoices := ps_invoices s; ps_webhooks := ps_webhooks s;
     ps_vendorDeposits := ps_vendorDeposits s |}.
Definition add_usage (u : CouponUsage) s : PayStore R :=
  {| ps_core := ps_core s; ps_coupons := ps_coupons s; ps_usages := ps_usages s ++ [u];
     ps_invoices := ps_invoices s; ps_webhooks := ps_webhooks s;
     ps_vendorDeposits := ps_vendorDeposits s |}.
Definition set_invoices (l : list Invoice) s : PayStore R :=
  {| ps_core := ps_core s; ps_coupons := ps_coupons s; ps_usages := ps_usages s; ps_invoices := l;
     ps_webhooks := ps_webhooks s; ps_vendorDeposits := ps_vendorDeposits s |}.
Definition set_webhooks (l : list WebhookEvent) s : PayStore R :=
  {| ps_core := ps_core s; ps_coupons := ps_coupons s; ps_usages := ps_usages s;
     ps_invoices := ps_invoices s; ps_webhooks := l; ps_vendorDeposits := ps_vendorDeposits s |}.
Definition set_vendorDeposits (v : VendorDeposits) s : PayStore R :=
  {| ps_core := ps_core s; ps_coupons := ps_coupons s; ps_usages := ps_usages s;
     ps_invoices := ps_invoices s; ps_webhooks := ps_webhooks s; ps_vendorDeposits := v |}.

Definition pay_money s : MoneyStore := ls_money (ps_core s).
Definition set_pay_money (m : MoneyStore) s : PayStore R := set_core (set_money m (ps_core s)) s.
Definition pay_wallets s : WalletStore := ms_wallets (pay_money s).
Definition set_pay_wallets (w : WalletStore) s : PayStore R :=
  set_pay_money (set_wallets w (pay_money s)) s.
Definition pay_ledger s : LedgerTable := ws_ledger (pay_wallets s).
Definition set_pay_ledger (L : LedgerTable) s : PayStore R :=
  set_pay_wallets (set_wledger L (pay_wallets s)) s.
Definition payment_of (bookingId : string) s : option Payment := ms_payments (pay_money s) !! bookingId.
Definition booking_of (bookingId : string) s : option Booking := ls_bookings (ps_core s) !! bookingId.
End setters.

(** ** The payment state machine *)
Definition validTransitions (fromStatus : PaymentStatus) : list PaymentStatus :=
  match fromStatus with
  | PS_CREATED | PS_PENDING =>
    [PS_AUTHORIZED; PS_CAPTURED; PS_PAID; PS_FAILED; PS_CANCELLED; PS_EXPIRED]
  | PS_AUTHORIZED => [PS_CAPTURED; PS_PAID; PS_FAILED; PS_CANCELLED; PS_EXPIRED]
  | PS_CAPTURED => [PS_PAID; PS_PARTIALLY_REFUNDED; PS_REFUNDED]
  | PS_PAID => [PS_PARTIALLY_REFUNDED; PS_REFUNDED]
  | PS_PARTIALLY_REFUNDED => [PS_PARTIALLY_REFUNDED; PS_REFUNDED]
  | PS_FAILED | PS_CANCELLED | PS_EXPIRED => [PS_CREATED]
  | PS_REFUNDED => []
  end.

Definition assertValidTransition {S} (fromStatus : option PaymentStatus) (toStatus : PaymentStatus)
    : M S unit :=
  match fromStatus with
  | None => require (bool_decide (toStatus = PS_CREATED)) BadRequestException
  | Some from =>
    if bool_decide (from = toStatus) then mret tt
    else require (bool_decide (toStatus ∈ validTransitions from)) ConflictException
  end.

(** ** Arguments of the handlers *)
Record VerifyPaymentDto : Type := {
  vp_bookingId : string;
  vp_razorpayOrderId : string;
  vp_razorpayPaymentId : string;
  vp_razorpaySignature : string;
}.

(** [pe_signature order payment signature]: the answer of
    [validatePaymentVerification] ([Throw] when it throws). *)
Record PayEnv : Type := {
  pe_now : Z;
  pe_useMock : bool;
  pe_hasWallets : bool;
  pe_hasLedger : bool;
  pe_hasInvoices : bool;
  pe_walletConfig : option WalletConfig;
  pe_freshWalletId : string;
  pe_freshPaymentId : string;
  pe_journalId : string;
  pe_random : string;
  pe_runtime : option (result (option string));
  pe_createOrder : Z -> result string;
  pe_signature : string -> string -> string -> result bool;
  pe_fetch : string -> result (option RazorpayPayment);
}.

Record OrderResult : Type := {
  or_orderId : string;
  or_amount : Z;
  or_isFullWallet : bool;
  or_walletApplied : Q;
  or_promoApplied : Q;
  or_realApplied : Q;
  or_gatewayAmount : Q;
}.

Record VerifyResult : Type := {
  vr_paymentId : string;
  vr_already : bool;
}.

Section payments.
Context {R : Type} {col : NumericColumn} {dec : DecimalArith}.
Abbreviation PM := (M (PayStore R)).
(** [now] as "YYYY-MM" *)
Variable yearMonth : Z -> string.

(** ** Orders *)
Definition totalExpectedOf (booking : Booking) : Q := b_totalFare booking + depositOf booking.

Definition toPaise (amount : Q) : Z := js_round (js_mul (rnd amount) 100).

(** The accepted quote must name the same total, to five paise. *)
Definition quoteMatches (booking : Booking) (totalAmount : Q) : bool :=
  match b_quoteTotal booking with
  | Some quoteTotal => negb (js_le (rnd (5 # 100)) (Qabs (rnd (quoteTotal - totalAmount))))
  | None => true
  end.

(** The wallet's share of an order: applied, promotional, real. *)
Definition walletShare (env : PayEnv) (useWallet : bool) (customerId : string) (totalAmount : Q)
    : PM (Q * Q * Q) :=
  if useWallet && pe_hasWallets env then
    wallet ← zoom pay_wallets set_pay_wallets (getOrCreateWallet (pe_freshWalletId env) customerId);
    let w := snd wallet in
    if bool_decide (w_status w = WS_ACTIVE) && d_gt (w_availableBalance w) 0 then
      let walletApplied := d_min (w_availableBalance w) totalAmount in
      let promoApplied := d_min (w_promoBalance w) walletApplied in
      mret (walletApplied, promoApplied, walletApplied - promoApplied)
    else mret (0, 0, 0)
  else mret (0, 0, 0).

Definition fullWalletOrder (bookingId : string) : string := "order_wallet_full_" +:+ bookingId.

(** The order at the gateway: mock, through the integration runtime, or by
    the library. *)
Definition gatewayOrder (env : PayEnv) (walletApplied : Q) (amountInPaise : Z) : PM string :=
  if pe_useMock env then
    let walletPaise := toPaise walletApplied in
    mret (if (0 <? walletPaise)%Z
          then "order_mock_split_" +:+ pretty walletPaise +:+ "_" +:+ pe_random env
          else "order_mock_" +:+ pe_random env)
  else
    match pe_runtime env with
    | Some (Ok (Some id)) => mret id
    | _ => match pe_createOrder env amountInPaise with
           | Ok id => mret id
           | Throw _ => throw BadRequestException
           end
    end.

(** [razorpayOrderId] is unique. *)
Definition orderIdTaken (bookingId orderId : string) (payments : gmap string Payment) : bool :=
  existsb (fun p => negb (String.eqb (fst p) bookingId) &&
                    bool_decide (pm_razorpayOrderId (snd p) = Some orderId)) (map_to_list payments).

Definition writeOrder (env : PayEnv) (bookingId orderId : string) (totalAmount : Q)
    (existing : option Payment) : PM Payment :=
  s ← get;
  require (negb (orderIdTaken bookingId orderId (ms_payments (pay_money s)))) PrismaP2002 ;;
  let p :=
    match existing with
    | Some e =>
      {| pm_id := pm_id e; pm_amount := store totalAmount; pm_status := PS_CREATED;
         pm_gatewayProvider := pm_gatewayProvider e; pm_paymentMethod := pm_paymentMethod e;
         pm_razorpayOrderId := Some orderId; pm_razorpayPaymentId := pm_razorpayPaymentId e;
         pm_razorpayRefundId := pm_razorpayRefundId e; pm_refundAmount := pm_refundAmount e;
         pm_refundStatus := pm_refundStatus e |}
    | None =>
      {| pm_id := pe_freshPaymentId env; pm_amount := store totalAmount; pm_status := PS_CREATED;
         pm_gatewayProvider := "RAZORPAY"; pm_paymentMethod := None;
         pm_razorpayOrderId := Some orderId; pm_razorpayPaymentId := None;
         pm_razorpayRefundId := None; pm_refundAmount := None; pm_refundStatus := RS_NONE |}
    end in
  zoom pay_money set_pay_money (modify (set_payment bookingId p)) ;;
  mret p.

(** The row of [recordPaymentAuditLog]; payload hash and actor are left out. *)
Definition recordPaymentAuditLog (paymentId eventType : string) (fromStatus : option PaymentStatus)
    (toStatus : PaymentStatus) (amount : option Q) (reference : option string) (source : string)
    : PM unit :=
  zoom pay_money set_pay_money (modify (add_audit
    {| pal_paymentId := paymentId; pal_eventType := eventType; pal_fromStatus := fromStatus;
       pal_toStatus := toStatus; pal_amount := option_map store amount;
       pal_gatewayReference := truthy reference; pal_source := source |})).

Definition createOrder (env : PayEnv) (bookingId customerId : string) (useWallet : bool)
    : PM OrderResult :=
  s ← get;
  booking ← from_option_or (booking_of bookingId s) NotFoundException;
  require (String.eqb (b_customerId booking) customerId) ForbiddenException ;;
  require (bool_decide (b_status booking = BS_PENDING)) BadRequestException ;;
  let existingPayment := payment_of bookingId s in
  require (match existingPayment with
           | Some p => negb (bool_decide (pm_status p = PS_PAID) || bool_decide (pm_status p = PS_REFUNDED))
           | None => true
           end) ConflictException ;;
  let totalAmount := totalExpectedOf booking in
  require (quoteMatches booking totalAmount) ConflictException ;;
  share ← walletShare env useWallet customerId totalAmount;
  let '(walletApplied, promoApplied, realApplied) := share in
  let gatewayAmount := totalAmount - walletApplied in
  let isFullWallet := d_le gatewayAmount 0 in
  let amountInPaise := if isFullWallet then 0%Z else toPaise gatewayAmount in
  orderId ← (if isFullWallet then mret (fullWalletOrder bookingId)
             else gatewayOrder env walletApplied amountInPaise);
  paymentRecord ← writeOrder env bookingId orderId totalAmount existingPayment;
  recordPaymentAuditLog (pm_id paymentRecord)
    (match existingPayment with Some _ => "PAYMENT_ORDER_RENEWED" | None => "PAYMENT_ORDER_CREATED" end)
    (option_map pm_status existingPayment) PS_CREATED (Some totalAmount) (Some orderId) "CUSTOMER" ;;
  mret {| or_orderId := orderId; or_amount := amountInPaise; or_isFullWallet := isFullWallet;
          or_walletApplied := rnd walletApplied; or_promoApplied := rnd promoApplied;
          or_realApplied := rnd realApplied; or_gatewayAmount := rnd gatewayAmount |}.

(** ** The journal of a verified payment *)
Definition paymentLines (bookingId : string) (booking : Booking) (payment : Payment)
    (totalExpected gatewayPaid walletRequired : Q) (isFullWalletOrder : bool)
    : list JournalEntryLineInput :=
  let secDeposit := depositOf booking in
  let vendorPayable := b_netToVendor booking in
  let gstTax := b_gstAmount booking in
  let platformFee := b_platformFee booking in
  let subComponents := vendorPayable + platformFee + gstTax + secDeposit in
  let delta := totalExpected - subComponents in
  let adjustedPlatformFee := platformFee + delta in
  let corporate := truthy (b_corporateAccountId booking) in
  let isCorporate := bool_decide (pm_paymentMethod payment = Some "CORPORATE_CREDIT") ||
                     match corporate with Some _ => true | None => false end in
  let line a e sd amount := ledgerLine a e sd amount bookingId (pm_id payment) in
  pushIf (d_gt walletRequired 0)
    (line CUSTOMER_WALLET (Some (b_customerId booking)) DEBIT walletRequired) ++
  pushIf (d_gt gatewayPaid 0)
    (line (if isCorporate then CORPORATE_RECEIVABLE else GATEWAY_CLEARING)
       (Some (if isCorporate then default "CORPORATE" corporate
              else if isFullWalletOrder then "WALLET"
              else str_or (Some (pm_gatewayProvider payment)) "RAZORPAY"))
       DEBIT gatewayPaid) ++
  [line VENDOR_PAYABLE (Some (b_vendorId booking)) CREDIT vendorPayable] ++
  pushIf (d_gt adjustedPlatformFee 0) (line PLATFORM_COMMISSION_REVENUE None CREDIT adjustedPlatformFee) ++
  pushIf (d_gt gstTax 0) (line TAX_GST_LIABILITY None CREDIT gstTax) ++
  pushIf (d_gt secDeposit 0)
    (line CUSTOMER_DEPOSIT_ESCROW (Some (b_customerId booking)) CREDIT secDeposit).

Definition paymentJournal (bookingId : string) (booking : Booking) (payment : Payment)
    (totalExpected gatewayPaid walletRequired : Q) (isFullWalletOrder : bool) : RecordJournalInput :=
  journalOf "BOOKING_PAYMENT_VERIFIED" ("jrn_pay_verify_" +:+ bookingId) bookingId (b_vendorId booking)
    (pm_id payment)
    (paymentLines bookingId booking payment totalExpected gatewayPaid walletRequired isFullWalletOrder).

Definition recordPaymentLedgerJournal (env : PayEnv) (bookingId : string) (booking : Booking)
    (payment : Payment) (totalExpected gatewayPaid walletRequired : Q) (isFullWalletOrder : bool)
    : PM unit :=
  when (pe_hasLedger env)
    (zoom pay_ledger set_pay_ledger
       (r ← recordJournal (pe_now env) (pe_journalId env) true
              (paymentJournal bookingId booking payment totalExpected gatewayPaid walletRequired
                 isFullWalletOrder);
        mret tt)).

(** ** What the gateway and the wallet have to pay *)

Definition with_status_and_id (p : Payment) (st : PaymentStatus) (razorpayPaymentId : option string)
    : Payment :=
  {| pm_id := pm_id p; pm_amount := pm_amount p; pm_status := st;
     pm_gatewayProvider := pm_gatewayProvider p; pm_paymentMethod := pm_paymentMethod p;
     pm_razorpayOrderId := pm_razorpayOrderId p; pm_razorpayPaymentId := razorpayPaymentId;
     pm_razorpayRefundId := pm_razorpayRefundId p; pm_refundAmount := pm_refundAmount p;
     pm_refundStatus := pm_refundStatus p |}.

(** [payment.update({ where: { id: payment.id } })] *)
Definition updatePayment (bookingId : string) (payment : Payment) (st : PaymentStatus)
    (razorpayPaymentId : option string) : PM unit :=
  s ← get;
  p ← from_option_or (payment_of bookingId s) PrismaP2025;
  require (String.eqb (pm_id p) (pm_id payment)) PrismaP2025 ;;
  zoom pay_money set_pay_money (modify (set_payment bookingId (with_status_and_id p st razorpayPaymentId))).

(** Step 5. *)
Definition signatureAccepted (env : PayEnv) (dto : VerifyPaymentDto) : bool :=
  (pe_useMock env && String.eqb (vp_razorpaySignature dto) "mock_signature") ||
  match pe_signature env (vp_razorpayOrderId dto) (vp_razorpayPaymentId dto) (vp_razorpaySignature dto) with
  | Ok valid => valid
  | Throw _ => false
  end.

(** Step 6, outside mock mode: order, currency, status and amount as the
    gateway has them; a failed payment is stored as such. *)
Definition capturedAmount (env : PayEnv) (dto : VerifyPaymentDto) (payment : Payment)
    (totalExpected : Q) : PM Q :=
  match pe_fetch env (vp_razorpayPaymentId dto) with
  | Throw _ => throw BadRequestException
  | Ok None => throw BadRequestException
  | Ok (Some rp) =>
    require (match truthy (rp_order_id rp) with
             | Some o => String.eqb o (vp_razorpayOrderId dto) | None => true end) BadRequestException ;;
    require (match truthy (rp_currency rp) with Some c => isINR c | None => true end)
      BadRequestException ;;
    if String.eqb (rp_status rp) "failed" then
      updatePayment (vp_bookingId dto) payment PS_FAILED (Some (vp_razorpayPaymentId dto)) ;;
      throw BadRequestException
    else
      require (String.eqb (rp_status rp) "captured") BadRequestException ;;
      let gatewayPaid := inject_Z (rp_amount rp) / 100 in
      require ((rp_amount rp =? toPaise totalExpected)%Z || pe_hasWallets env) BadRequestException ;;
      require (negb (d_lt (totalExpected - gatewayPaid) 0)) BadRequestException ;;
      mret gatewayPaid
  end.

(** In mock mode the wallet's share is read back from the order id. *)
Definition mockWalletShare (orderId : string) : Q :=
  if startsWith "order_mock_split_" orderId
  then inject_Z (default 0%Z (match split_on (Ascii.ascii_of_nat 95) orderId !! 3%nat with
                              | Some part => parseInt part
                              | None => None
                              end)) / 100
  else 0.

Definition isFullWalletOrderId (payment : Payment) (orderId : string) : bool :=
  match pm_razorpayOrderId payment with
  | Some o => startsWith "order_wallet_full_" o
  | None => false
  end || startsWith "order_wallet_full_" orderId.

(** Gateway part and wallet part of the total. *)
Definition paymentParts (env : PayEnv) (dto : VerifyPaymentDto) (payment : Payment) (totalExpected : Q)
    : PM (Q * Q) :=
  if isFullWalletOrderId payment (vp_razorpayOrderId dto) then mret (0, totalExpected)
  else
    require (signatureAccepted env dto) BadRequestException ;;
    if pe_useMock env then
      let walletRequired := mockWalletShare (vp_razorpayOrderId dto) in
      mret (totalExpected - walletRequired, walletRequired)
    else
      gatewayPaid ← capturedAmount env dto payment totalExpected;
      mret (gatewayPaid, totalExpected - gatewayPaid).

(** ** The transaction *)
Definition settleWallet (env : PayEnv) (bookingId : string) (booking : Booking) (walletRequired : Q)
    : PM unit :=
  when (d_gt walletRequired 0)
    (require (pe_hasWallets env) BadRequestException ;;
     zoom pay_wallets set_pay_wallets
       (userWallet ← getOrCreateWallet (pe_freshWalletId env) (b_customerId booking);
        require (negb (d_lt (w_availableBalance (snd userWallet)) walletRequired)) BadRequestException ;;
        debitWallet (pe_now env) (pe_walletConfig env) (fst userWallet) walletRequired
          LT_CHECKOUT_DEBIT "BOOKING" (Some bookingId) ("wallet_checkout_debit_" +:+ bookingId) true ;;
        mret tt)).

Definition with_deposit (b : Booking) (d : SecurityDeposit) : Booking :=
  {| b_customerId := b_customerId b; b_vendorId := b_vendorId b; b_carId := b_carId b;
     b_pickupHubId := b_pickupHubId b; b_startDate := b_startDate b; b_endDate := b_endDate b;
     b_totalFare := b_totalFare b; b_platformFee := b_platformFee b; b_gstAmount := b_gstAmount b;
     b_netToVendor := b_netToVendor b; b_disputeFlag := b_disputeFlag b;
     b_quoteTotal := b_quoteTotal b; b_couponId := b_couponId b;
     b_discountAmount := b_discountAmount b; b_corporateAccountId := b_corporateAccountId b;
     b_cancellationMatrix := b_cancellationMatrix b; b_commissionSplit := b_commissionSplit b;
     b_securityDeposit := Some d; b_status := b_status b;
     b_cancellationReason := b_cancellationReason b; b_cancellationFee := b_cancellationFee b;
     b_refundAmount := b_refundAmount b; b_cancelledAt := b_cancelledAt b;
     b_cancelledBy := b_cancelledBy b |}.

(** [securityDeposit.update] when the booking read had a deposit. *)
Definition holdDeposit (env : PayEnv) (bookingId : string) (booking : Booking) (paymentId : string)
    : PM unit :=
  match b_securityDeposit booking with
  | None => mret tt
  | Some _ =>
    s ← get;
    b ← from_option_or (booking_of bookingId s) PrismaP2025;
    d ← from_option_or (b_securityDeposit b) PrismaP2025;
    modify (fun s => set_core (set_booking bookingId
      (with_deposit b {| sd_amount := sd_amount d; sd_status := SD_HELD; sd_heldAt := Some (pe_now env);
                         sd_razorpayPaymentId := Some paymentId; sd_releasedAt := sd_releasedAt d;
         sd_refundedAmount := sd_refundedAmount d; sd_deductedAmount := sd_deductedAmount d;
         sd_razorpayRefundId := sd_razorpayRefundId d |})
      (ps_core s)) s)
  end.

Definition paymentStatusName (st : PaymentStatus) : string :=
  match st with
  | PS_CREATED => "CREATED" | PS_PENDING => "PENDING" | PS_AUTHORIZED => "AUTHORIZED"
  | PS_CAPTURED => "CAPTURED" | PS_PAID => "PAID" | PS_FAILED => "FAILED" | PS_CANCELLED => "CANCELLED"
  | PS_EXPIRED => "EXPIRED" | PS_PARTIALLY_REFUNDED => "PARTIALLY_REFUNDED" | PS_REFUNDED => "REFUNDED"
  end.

(** [previousStatus] and [newStatus] of an outbox event are booking
    statuses: the client refuses any other string. *)
Definition bookingStatusNamed (name : string) : option BookingStatus :=
  List.find (fun st => String.eqb (status_upper st) name)
    [BS_PENDING; BS_CONFIRMED; BS_HANDOVER_READY; BS_ONGOING; BS_RETURN_PENDING; BS_COMPLETED;
     BS_CANCELLED; BS_REFUND_PENDING; BS_REFUNDED; BS_DISPUTED; BS_EXPIRED].

Definition createPaymentEvent (env : PayEnv) (bookingId : string) (booking : Booking)
    (payment : Payment) (eventType correlation actorId : string) : PM unit :=
  previousStatus ← from_option_or (bookingStatusNamed (paymentStatusName (pm_status payment))) OtherError;
  newStatus ← from_option_or (bookingStatusNamed (paymentStatusName PS_PAID)) OtherError;
  modify (fun s => set_core (set_outbox
    {| os_events := os_events (ls_outbox (ps_core s)) ++
         [{| oe_id := correlation; oe_bookingId := bookingId; oe_eventType := eventType;
             oe_tenantId := b_vendorId booking; oe_actorId := actorId;
             oe_previousStatus := previousStatus; oe_newStatus := newStatus;
             oe_correlationId := correlation; oe_customerId := b_customerId booking;
             oe_refundAmount := None; oe_status := OB_PENDING; oe_retryCount := 0; oe_maxRetries := 3;
             oe_updatedAt := pe_now env |}];
       os_sent := os_sent (ls_outbox (ps_core s)) |} (ps_core s)) s).

(** [couponUsage] is written once per booking, within the coupon's limits. *)
Definition redeemCoupon (bookingId : string) (b : Booking) : PM unit :=
  match truthy (b_couponId b) with
  | None => mret tt
  | Some couponId =>
    s ← get;
    if existsb (fun u => String.eqb (cu_bookingId u) bookingId) (ps_usages s) then mret tt
    else
      couponRecord ← from_option_or (ps_coupons s !! couponId) BadRequestException;
      require (cpn_isActive couponRecord) BadRequestException ;;
      require (match cpn_globalUsageLimit couponRecord with
               | Some limit => negb (limit <=? cpn_usageCount couponRecord)%Z
               | None => true
               end) BadRequestException ;;
      let perCustomerLimit := default 1%Z (cpn_perCustomerLimit couponRecord) in
      let customerUsageCount := Z.of_nat (length (filter (fun u =>
        String.eqb (cu_couponId u) couponId && String.eqb (cu_customerId u) (b_customerId b))
        (ps_usages s))) in
      require (negb (perCustomerLimit <=? customerUsageCount)%Z) BadRequestException ;;
      modify (set_coupon couponId (with_usageCount (cpn_usageCount couponRecord + 1)%Z couponRecord)) ;;
      discountAmount ← from_option_or (b_discountAmount b) OtherError;
      modify (add_usage {| cu_couponId := couponId; cu_customerId := b_customerId b;
                           cu_bookingId := bookingId; cu_discountAmount := store discountAmount |})
  end.

(** An invoice is issued once per booking; when its number is taken none is. *)
Definition generateInvoiceForBooking (env : PayEnv) (bookingId : string) : PM unit :=
  s ← get;
  b ← from_option_or (booking_of bookingId s) NotFoundException;
  if existsb (fun i => String.eqb (inv_bookingId i) bookingId) (ps_invoices s) then mret tt
  else
    let invoiceNumber := "INV-" +:+ yearMonth (pe_now env) +:+ "-" +:+
                         padStart5 (pretty (length (ps_invoices s) + 1)%nat) in
    if existsb (fun i => String.eqb (inv_invoiceNumber i) invoiceNumber) (ps_invoices s) then mret tt
    else
      modify (set_invoices (ps_invoices s ++
        [{| inv_invoiceNumber := invoiceNumber; inv_bookingId := bookingId;
            inv_paymentId := match payment_of bookingId s with Some p => pm_id p | None => "PAY-PENDING" end;
            inv_customerId := b_customerId b; inv_vendorId := b_vendorId b;
            inv_platformFee := b_platformFee b; inv_gstAmount := b_gstAmount b;
            inv_discountAmount := default 0 (b_discountAmount b); inv_totalFare := b_totalFare b;
            inv_depositAmount := depositOf b |}])).

(** Step 7: [booking] and [payment] are the rows read before the transaction;
    the booking it returns is the one to notify about. *)
Definition settlePayment (env : PayEnv) (dto : VerifyPaymentDto) (booking : Booking) (payment : Payment)
    (gatewayPaid walletRequired : Q) : PM (option Booking) :=
  let bookingId := vp_bookingId dto in
  let totalExpected := totalExpectedOf booking in
  let isFullWalletOrder := isFullWalletOrderId payment (vp_razorpayOrderId dto) in
  let resolvedPaymentId := str_or (Some (vp_razorpayPaymentId dto))
    (if isFullWalletOrder then "pay_wallet_" +:+ bookingId else "pay_mock_" +:+ pretty (pe_now env)) in
  settleWallet env bookingId booking walletRequired ;;
  assertValidTransition (Some (pm_status payment)) PS_PAID ;;
  updatePayment bookingId payment PS_PAID (Some resolvedPaymentId) ;;
  recordPaymentAuditLog (pm_id payment) "PAYMENT_VERIFIED" (Some (pm_status payment)) PS_PAID
    (Some totalExpected) (Some resolvedPaymentId) "CUSTOMER" ;;
  holdDeposit env bookingId booking resolvedPaymentId ;;
  recordPaymentLedgerJournal env bookingId booking payment totalExpected gatewayPaid walletRequired
    isFullWalletOrder ;;
  try_catch (createPaymentEvent env bookingId booking payment "PAYMENT_VERIFIED"
               ("evt_pay_verified_" +:+ pm_id payment +:+ "_" +:+ pretty (pe_now env)) (b_customerId booking))
    (fun _ => mret tt) ;;
  s ← get;
  match booking_of bookingId s with
  | None => mret None
  | Some b =>
    redeemCoupon bookingId b ;;
    when (pe_hasInvoices env) (try_catch (generateInvoiceForBooking env bookingId) (fun _ => mret tt)) ;;
    mret (Some b)
  end.

Definition verifyPayment (env : PayEnv) (dto : VerifyPaymentDto) (customerId : string) : PM VerifyResult :=
  s ← get;
  booking ← from_option_or (booking_of (vp_bookingId dto) s) NotFoundException;
  require (String.eqb (b_customerId booking) customerId) ForbiddenException ;;
  payment ← from_option_or (payment_of (vp_bookingId dto) s) NotFoundException;
  require (bool_decide (pm_razorpayOrderId payment = Some (vp_razorpayOrderId dto))) BadRequestException ;;
  if bool_decide (pm_status payment = PS_PAID) then
    require (bool_decide (pm_razorpayPaymentId payment = Some (vp_razorpayPaymentId dto)) ||
             match truthy (pm_razorpayPaymentId payment) with Some _ => false | None => true end ||
             startsWith "order_wallet_full_" (vp_razorpayOrderId dto)) ConflictException ;;
    mret {| vr_paymentId := pm_id payment; vr_already := true |}
  else
    require (negb (bool_decide (pm_status payment = PS_REFUNDED))) BadRequestException ;;
    parts ← paymentParts env dto payment (totalExpectedOf booking);
    transaction (settlePayment env dto booking payment (fst parts) (snd parts)) ;;
    mret {| vr_paymentId := pm_id payment; vr_already := false |}.
End payments.

(** ** Frames *)
Section frames.
Context {R : Type} {col : NumericColumn} {dec : DecimalArith}.
Variable yearMonth : Z -> string.
Implicit Types s : PayStore R.

(** The parts of the store the properties speak of. *)
Definition pay_slots s : gmap string Slot := slots (ps_core s).
Definition coupon_view s : gmap string Coupon * list CouponUsage := (ps_coupons s, ps_usages s).

Lemma slots_with_deposit id b d (c : LifecycleStore R) :
  ls_bookings c !! id = Some b -> slots (set_booking id (with_deposit b d) c) = slots c.
Proof.
  intros H. unfold slots. simpl. rewrite fmap_insert. apply insert_id. by rewrite lookup_fmap, H.
Qed.

Lemma holdDeposit_Ok env id b pid s u s' :
  holdDeposit env id b pid s = (Ok u, s') ->
  (b_securityDeposit b = None /\ s' = s) \/
  exists b0 d0, booking_of id s = Some b0 /\ b_securityDeposit b0 = Some d0 /\
    s' = set_core (set_booking id (with_deposit b0
      {| sd_amount := sd_amount d0; sd_status := SD_HELD; sd_heldAt := Some (pe_now env);
         sd_razorpayPaymentId := Some pid; sd_releasedAt := sd_releasedAt d0;
         sd_refundedAmount := sd_refundedAmount d0; sd_deductedAmount := sd_deductedAmount d0;
         sd_razorpayRefundId := sd_razorpayRefundId d0 |}) (ps_core s)) s.
Proof.
  unfold holdDeposit. destruct (b_securityDeposit b); [|intros [= _ <-]; by left].
  step. destruct (booking_of id s) as [b0|] eqn:Hb; [|done]. step.
  destruct (b_securityDeposit b0) as [d0|] eqn:Hd; [|done]. step. intros [= _ <-]. right. eauto.
Qed.

Lemma createPaymentEvent_throws env id b p ty corr actor s :
  createPaymentEvent (R:=R) env id b p ty corr actor s = (Throw OtherError, s).
Proof.
  unfold createPaymentEvent. step. destruct (bookingStatusNamed (paymentStatusName (pm_status p))); step; done.
Qed.

(** Each step of the settlement changes one part of the store. *)
Definition wallet_frame s := (ls_bookings (ps_core s), ms_payments (pay_money s), coupon_view s).
Definition payment_frame s := (ls_bookings (ps_core s), pay_wallets s, coupon_view s).
Definition deposit_frame s := (pay_money s, coupon_view s, pay_slots s).

Lemma keeps_settleWallet env id b w : keeps wallet_frame (settleWallet env id b w).
Proof.
  intros x. apply preserves_when, preserves_bind; [auto with preserves|]. intros _.
  apply preserves_zoom. by intros t s <-.
Qed.
Lemma keeps_journal env id b p tot g w full :
  keeps wallet_frame (recordPaymentLedgerJournal (R:=R) env id b p tot g w full).
Proof. intros x. apply preserves_when, preserves_zoom. by intros t s <-. Qed.
Lemma keeps_updatePayment id p st pid : keeps payment_frame (updatePayment (R:=R) id p st pid).
Proof.
  intros x s r s' H <-. unfold updatePayment in H. step_in H.
  destruct (payment_of id s); [|by injection H as _ <-].
  step_in H. destruct (String.eqb _ _); by injection H as _ <-.
Qed.
Lemma keeps_audit pid ty f t a ref src :
  keeps payment_frame (recordPaymentAuditLog (R:=R) pid ty f t a ref src).
Proof. intros x s r s' H <-. by injection H as _ <-. Qed.
Lemma keeps_holdDeposit env id b pid : keeps deposit_frame (holdDeposit (R:=R) env id b pid).
Proof.
  intros x s r s' H <-. unfold holdDeposit in H. destruct (b_securityDeposit b); [|by injection H as _ <-].
  step_in H. destruct (booking_of id s) as [b0|] eqn:Hb; [|by injection H as _ <-]. step_in H.
  destruct (b_securityDeposit b0); [|by injection H as _ <-]. step_in H. injection H as _ <-.
  unfold deposit_frame, pay_slots. simpl. by rewrite slots_with_deposit.
Qed.
Lemma keeps_redeem id b : keeps ps_core (redeemCoupon (R:=R) id b).
Proof.
  intros x s r s' H <-. unfold redeemCoupon in H. destruct (truthy (b_couponId b)); [|by injection H as _ <-].
  step_in H. destruct (existsb _ _); [by injection H as _ <-|].
  by exec H.
Qed.
Lemma keeps_invoice env id : keeps (fun s => (ps_core s, coupon_view s))
  (generateInvoiceForBooking (R:=R) yearMonth env id).
Proof.
  intros x s r s' H <-. unfold generateInvoiceForBooking in H. step_in H.
  destruct (booking_of id s); [|by injection H as _ <-]. step_in H.
  destruct (existsb _ _); [by injection H as _ <-|]. cbv zeta in H.
  destruct (existsb _ _); by injection H as _ <-.
Qed.
Lemma invoice_step env id s r s' :
  when (pe_hasInvoices env) (try_catch (generateInvoiceForBooking yearMonth env id) (fun _ => mret tt)) s =
    (r, s') -> ps_core s' = ps_core s /\ coupon_view s' = coupon_view s.
Proof.
  intros H.
  assert (preserves (fun t => (ps_core t, coupon_view t) = (ps_core s, coupon_view s))
    (when (pe_hasInvoices env)
       (try_catch (generateInvoiceForBooking yearMonth env id) (fun _ => mret tt)))) as Hk
    by (apply preserves_when, preserves_try_catch; [apply keeps_invoice|auto with preserves]).
  pose proof (Hk _ _ _ H eq_refl) as E. split; [exact (f_equal fst E)|exact (f_equal snd E)].
Qed.


(** ** A settlement, step by step *)
Definition resolvedId (env : PayEnv) (dto : VerifyPaymentDto) (p : Payment) : string :=
  str_or (Some (vp_razorpayPaymentId dto))
    (if isFullWalletOrderId p (vp_razorpayOrderId dto) then "pay_wallet_" +:+ vp_bookingId dto
     else "pay_mock_" +:+ pretty (pe_now env)).

(** The stores after the wallet, the payment row, the deposit and the
    journal; the coupon comes last. *)
Lemma settlePayment_Ok env dto b p g w s o s' :
  settlePayment yearMonth env dto b p g w s = (Ok o, s') ->
  let id := vp_bookingId dto in
  exists s1 s2 s3 s4,
    settleWallet env id b w s = (Ok tt, s1) /\
    (pm_status p = PS_PAID \/ PS_PAID ∈ validTransitions (pm_status p)) /\
    (exists p0, payment_of id s1 = Some p0 /\ pm_id p0 = pm_id p /\
       ms_payments (pay_money s2) =
         <[id := with_status_and_id p0 PS_PAID (Some (resolvedId env dto p))]> (ms_payments (pay_money s1))) /\
    payment_frame s2 = payment_frame s1 /\
    holdDeposit env id b (resolvedId env dto p) s2 = (Ok tt, s3) /\
    recordPaymentLedgerJournal env id b p (totalExpectedOf b) g w
      (isFullWalletOrderId p (vp_razorpayOrderId dto)) s3 = (Ok tt, s4) /\
    o = booking_of id s4 /\ ps_core s' = ps_core s4 /\
    match o with
    | None => coupon_view s' = coupon_view s4
    | Some b' => exists s5, redeemCoupon id b' s4 = (Ok tt, s5) /\ coupon_view s' = coupon_view s5
    end.
Proof.
  intros H id. unfold settlePayment in H. cbv zeta in H. fold id (resolvedId env dto p) in H.
  apply bind_Ok in H as ([] & s1 & Hw & H).
  apply bind_Ok in H as ([] & ? & Ht & H).
  assert ((pm_status p = PS_PAID \/ PS_PAID ∈ validTransitions (pm_status p)) /\ x = s1) as [Hst ->].
  { unfold assertValidTransition in Ht. case_bool_decide; [by injection Ht as <-; auto|].
    apply require_Ok in Ht as [Ht ->]. apply bool_decide_eq_true in Ht. auto. }
  apply bind_Ok in H as ([] & s2a & Hu & H). pose proof (keeps_eq _ _ _ _ _ (keeps_updatePayment _ _ _ _) Hu) as Fu.
  apply bind_Ok in H as ([] & s2 & Ha & H). pose proof (keeps_eq _ _ _ _ _ (keeps_audit _ _ _ _ _ _ _) Ha) as Fa.
  apply bind_Ok in H as ([] & s3 & Hd & H). apply bind_Ok in H as ([] & s4 & Hj & H).
  rewrite bind_run in H. unfold try_catch at 1 in H. rewrite createPaymentEvent_throws, ret_run in H.
  rewrite get_bind in H. exists s1, s2, s3, s4. split; [done|]. split; [done|]. split_and!.
  - unfold updatePayment in Hu. step_in Hu. destruct (payment_of id s1) as [p0|] eqn:Hp; [|done]. step_in Hu.
    destruct (String.eqb_spec (pm_id p0) (pm_id p)) as [He|]; [|done]. exists p0. split; [done|]. split; [done|].
    injection Ha as <-. by injection Hu as <-.
  - by rewrite Fa, Fu.
  - done.
  - done.
  - destruct (booking_of id s4) as [b'|]; [|by injection H as <-].
    apply bind_Ok in H as (? & ? & _ & (? & ? & _ & [= <- _])%bind_Ok). done.
  - destruct (booking_of id s4) as [b'|]; [|by injection H as _ <-].
    apply bind_Ok in H as ([] & s5 & Hr & ([] & s6 & Hi & [= _ <-])%bind_Ok).
    apply invoice_step in Hi as [-> _]. by apply (keeps_eq _ _ _ _ _ (keeps_redeem _ _) Hr).
  - destruct (booking_of id s4) as [b'|]; [|by injection H as <- <-].
    apply bind_Ok in H as ([] & s5 & Hr & ([] & s6 & Hi & [= <- <-])%bind_Ok).
    apply invoice_step in Hi as [_ ->]. eauto.
Qed.

(** ** Replays *)
Definition walletKey (id : string) : string := "wallet_checkout_debit_" +:+ id.
Definition journalKey (id : string) : string := "jrn_pay_verify_" +:+ id.
Definition redeemed (id : string) s : bool :=
  existsb (fun u => String.eqb (cu_bookingId u) id) (ps_usages s).

Lemma findWalletByUser_is_Some u ws :
  is_Some (findWalletByUser u ws) <-> exists id w, ws_wallets ws !! id = Some w /\ w_userId w = u.
Proof.
  unfold findWalletByUser. split.
  - intros [[id w] [Hin He]%find_Some_elem]. exists id, w. split; [by apply elem_of_map_to_list|].
    by apply String.eqb_eq.
  - intros (id & w & Hl & <-). destruct (List.find _ _) eqn:E; [done|]. rewrite find_None_iff in E.
    specialize (E (id, w) ltac:(by apply elem_of_map_to_list)). simpl in E.
    by rewrite String.eqb_refl in E.
Qed.

Lemma set_pay_wallets_id s : set_pay_wallets (pay_wallets s) s = s.
Proof. by destruct s as [[? ? [? ? ? []]] ? ? ? ?]. Qed.
Lemma set_pay_ledger_id s : set_pay_ledger (pay_ledger s) s = s.
Proof. by destruct s as [[? ? [? ? ? []]] ? ? ? ?]. Qed.

Lemma getOrCreateWallet_run fid u ws :
  exists p ws', getOrCreateWallet fid u ws = (Ok p, ws') /\ ws_wallets ws' !! fst p = Some (snd p) /\
    w_userId (snd p) = u /\ ws_entries ws' = ws_entries ws /\ ws_ledger ws' = ws_ledger ws /\
    (is_Some (findWalletByUser u ws) -> ws' = ws) /\ (ws' = ws \/ w_availableBalance (snd p) = 0).
Proof.
  unfold getOrCreateWallet. step. destruct (findWalletByUser u ws) as [[id w]|] eqn:E; step.
  - exists (id, w), ws. unfold findWalletByUser in E. apply find_Some_elem in E as [Hin He].
    apply elem_of_map_to_list in Hin. apply String.eqb_eq in He. split_and!; auto.
  - do 2 eexists. split; [done|]. simpl. rewrite lookup_insert_eq. split_and!; auto; by intros [].
Qed.

Lemma settleWallet_records env id b w s u s1 : settleWallet env id b w s = (Ok u, s1) -> 0 < w ->
  is_Some (findByKey (walletKey id) (pay_wallets s1)) /\
  is_Some (findWalletByUser (b_customerId b) (pay_wallets s1)).
Proof.
  intros H Hpos%d_gt_true. unfold settleWallet in H. rewrite (when_true _ _ Hpos) in H.
  apply bind_Ok in H as (? & ? & [_ ->]%require_Ok & H). apply zoom_run in H as (t & E & ->).
  destruct (getOrCreateWallet_run (pe_freshWalletId env) (b_customerId b) (pay_wallets s))
    as (p & ws' & Hg & Hl & Hu & _).
  rewrite bind_run, Hg, require_bind in E. destruct (negb _); [|done].
  apply bind_Ok in E as (row & t' & Hd & [= _ <-]). change (pay_wallets (set_pay_wallets t' s)) with t'.
  split; [unfold walletKey; by rewrite (debit_records_key _ _ _ _ _ _ _ _ _ _ _ _ Hd)|].
  unfold debitWallet in Hd. rewrite require_bind in Hd. destruct (negb _); [|done].
  apply executeDebit_cases in Hd as [[-> _]|(w0 & r0 & Hw0 & _ & _ & _ & _ & _ & _ & _ & _ & _ & ->)];
    apply findWalletByUser_is_Some; [by exists (fst p), (snd p)|].
  exists (fst p). eexists. simpl. rewrite lookup_insert_eq. split; [done|]. simpl.
  by replace w0 with (snd p) by congruence.
Qed.

Lemma settleWallet_replay env id b w s r s1 : settleWallet env id b w s = (r, s1) ->
  (0 < w -> is_Some (findByKey (walletKey id) (pay_wallets s)) /\
            is_Some (findWalletByUser (b_customerId b) (pay_wallets s))) -> s1 = s.
Proof.
  intros H Hk. unfold settleWallet, when in H. destruct (d_gt w 0) eqn:Hpos; [|by injection H].
  dec_bool. destruct (Hk Hpos) as [[row Hrow] Hu]. rewrite require_bind in H.
  destruct (pe_hasWallets env); [|by injection H]. unfold zoom in H.
  destruct (getOrCreateWallet_run (pe_freshWalletId env) (b_customerId b) (pay_wallets s))
    as (p & ws' & Hg & _ & _ & _ & _ & Hsame & _). specialize (Hsame Hu) as ->.
  rewrite bind_run, Hg, require_bind in H. destruct (negb _).
  - rewrite bind_run, (debit_replay _ _ _ _ _ _ _ _ _ _ _ Hrow Hpos), ret_run in H. injection H as _ <-.
    apply set_pay_wallets_id.
  - injection H as _ <-. apply set_pay_wallets_id.
Qed.

Lemma journal_records env id b p tot g w full s u s' :
  recordPaymentLedgerJournal env id b p tot g w full s = (Ok u, s') -> pe_hasLedger env = true ->
  is_Some (List.find (by_key (journalKey id)) (pay_ledger s')).
Proof.
  intros H Hl. unfold recordPaymentLedgerJournal in H. rewrite (when_true _ _ Hl) in H.
  apply zoom_run in H as (t & E & ->). apply bind_Ok in E as (r & t' & Hj & [= _ <-]). change (pay_ledger (set_pay_ledger t' s)) with t'.
  by apply (recordJournal_key_found _ _ _ _ _ _ _ (journalKey id)) in Hj as (e & -> & _).
Qed.

Lemma journal_replay env id b p tot g w full s r s' :
  recordPaymentLedgerJournal env id b p tot g w full s = (r, s') ->
  is_Some (List.find (by_key (journalKey id)) (pay_ledger s)) -> s' = s.
Proof.
  intros H [e He]. unfold recordPaymentLedgerJournal, when in H.
  destruct (pe_hasLedger env); [|by injection H]. unfold zoom in H.
  set (input := paymentJournal _ _ _ _ _ _ _) in H. rewrite bind_run in H.
  destruct (decide (2 <= length (rawLines input))%nat) as [Hlen|Hlen].
  - rewrite (recordJournal_duplicate _ _ _ input _ (journalKey id) e) in H by done.
    injection H as _ <-. apply set_pay_ledger_id.
  - unfold recordJournal in H. rewrite require_bind in H.
    assert ((length (rawLines input) <? 2)%nat = true) as Hf by (apply Nat.ltb_lt; lia).
    rewrite Hf in H. injection H as _ <-. apply set_pay_ledger_id.
Qed.

Lemma redeem_records id b s u s' : redeemCoupon id b s = (Ok u, s') ->
  truthy (b_couponId b) = None \/ redeemed id s' = true.
Proof.
  unfold redeemCoupon. destruct (truthy (b_couponId b)) as [cid|]; [|by left]. intros H. right.
  step_in H. unfold redeemed. destruct (existsb _ (ps_usages s)) eqn:E; [by injection H as _ <-|].
  exec H; rewrite existsb_app; simpl; by rewrite String.eqb_refl, orb_true_r.
Qed.
Lemma redeem_replay id b s r s' : redeemCoupon id b s = (r, s') ->
  truthy (b_couponId b) = None \/ redeemed id s = true -> s' = s.
Proof.
  unfold redeemCoupon. intros H [Hn|Hr]; [rewrite Hn in H; by injection H|].
  destruct (truthy (b_couponId b)); [|by injection H]. step_in H. unfold redeemed in Hr. rewrite Hr in H.
  by injection H.
Qed.

Lemma holdDeposit_coupon env id b pid s u s' b' :
  holdDeposit env id b pid s = (Ok u, s') -> booking_of id s' = Some b' ->
  exists b0, booking_of id s = Some b0 /\ b_couponId b' = b_couponId b0.
Proof.
  intros [[_ ->]|(b0 & d0 & Hb & _ & ->)]%holdDeposit_Ok Hb'; [by exists b'|].
  unfold booking_of in Hb'. simpl in Hb'. rewrite lookup_insert_eq in Hb'. injection Hb' as <-. by exists b0.
Qed.

(** What a settlement leaves for the next one to find. *)
Record leaves_traces (id : string) (b : Booking) (w : Q) s : Prop := {
  lt_wallet : 0 < w -> is_Some (findByKey (walletKey id) (pay_wallets s)) /\
                       is_Some (findWalletByUser (b_customerId b) (pay_wallets s));
  lt_journal : is_Some (List.find (by_key (journalKey id)) (pay_ledger s));
  lt_coupon : forall b', booking_of id s = Some b' -> truthy (b_couponId b') = None \/ redeemed id s = true;
}.

Lemma journal_wallets env id b p tot g w full s u s' :
  recordPaymentLedgerJournal env id b p tot g w full s = (Ok u, s') ->
  ws_wallets (pay_wallets s') = ws_wallets (pay_wallets s) /\
  ws_entries (pay_wallets s') = ws_entries (pay_wallets s).
Proof.
  unfold recordPaymentLedgerJournal, when. destruct (pe_hasLedger env); [|by intros [= _ <-]].
  intros (t & _ & ->)%zoom_run. done.
Qed.

Lemma settlement_leaves_traces env dto b p g w s o s' :
  settlePayment yearMonth env dto b p g w s = (Ok o, s') -> pe_hasLedger env = true ->
  leaves_traces (vp_bookingId dto) b w s' /\ pm_status <$> payment_of (vp_bookingId dto) s' = Some PS_PAID.
Proof.
  intros H Hl. apply settlePayment_Ok in H
    as (s1 & s2 & s3 & s4 & Hw & _ & (p0 & _ & _ & Hp) & F2 & Hd & Hj & -> & Hcore & Hc).
  set (id := vp_bookingId dto) in *.
  pose proof (keeps_eq _ _ _ _ _ (keeps_holdDeposit _ _ _ _) Hd) as F3. injection F3 as Fm _ _ _.
  pose proof (keeps_eq _ _ _ _ _ (keeps_journal _ _ _ _ _ _ _ _) Hj) as F4. injection F4 as _ Fp _ _.
  destruct (journal_wallets _ _ _ _ _ _ _ _ _ _ _ Hj) as [Ew Ee].
  assert (forall t : PayStore R, ps_core t = ps_core s4 -> pay_wallets t = pay_wallets s4) as Hcw
    by (intros t E; unfold pay_wallets, pay_money; by rewrite E).
  assert (pay_wallets s3 = pay_wallets s1) as E31.
  { unfold pay_wallets at 1. rewrite Fm. injection F2 as _ E _ _. exact E. }
  split; [split|].
  - intros Hpos. destruct (settleWallet_records _ _ _ _ _ _ _ Hw Hpos) as [Hk Hu].
    rewrite (Hcw _ Hcore). unfold findByKey, findWalletByUser in *. rewrite Ew, Ee, E31. done.
  - unfold pay_ledger. rewrite (Hcw _ Hcore). by apply (journal_records _ _ _ _ _ _ _ _ _ _ _ Hj).
  - intros b'. unfold booking_of at 1. rewrite Hcore. fold (booking_of id s4). intros Hb'. rewrite Hb' in Hc.
    destruct Hc as (s5 & Hr & Hcv). destruct (redeem_records _ _ _ _ _ Hr) as [?|Hred]; [by left|right].
    unfold redeemed in *. injection Hcv as _ ->. exact Hred.
  - unfold payment_of, pay_money. rewrite Hcore. fold (pay_money s4). rewrite Fp, Fm, Hp.
    by rewrite lookup_insert_eq.
Qed.

(** C18. Money is taken once, even when two requests verify the same payment at the same time.  Both have read the booking and the unpaid payment before either commits; after the first has settled, the second, with whatever payment id, time and environment, moves no wallet money, posts no journal line, redeems no coupon, leaves every booking's slot alone and the payment PAID. *)
Theorem second_settlement_moves_nothing env env' dto dto' b p g w s o s' r s'' :
  settlePayment yearMonth env dto b p g w s = (Ok o, s') -> pe_hasLedger env = true ->
  vp_bookingId dto' = vp_bookingId dto ->
  transaction (settlePayment yearMonth env' dto' b p g w) s' = (r, s'') ->
  pay_wallets s'' = pay_wallets s' /\ coupon_view s'' = coupon_view s' /\ pay_slots s'' = pay_slots s' /\
  pm_status <$> payment_of (vp_bookingId dto) s'' = Some PS_PAID.
Proof.
  intros H Hl Hid H'. destruct (settlement_leaves_traces _ _ _ _ _ _ _ _ _ H Hl) as [[Lw Lj Lc] Hst].
  clear H. destruct r as [o'|e]; [|by apply transaction_Throw in H' as [-> _]].
  apply transaction_Ok, settlePayment_Ok in H'
    as (s1 & s2 & s3 & s4 & Hw & _ & (p0 & _ & _ & Hp) & F2 & Hd & Hj & -> & Hcore & Hc).
  rewrite Hid in *. set (id := vp_bookingId dto) in *.
  pose proof (settleWallet_replay _ _ _ _ _ _ _ Hw Lw) as ->. injection F2 as F2b F2w F2c F2u.
  pose proof (keeps_eq _ _ _ _ _ (keeps_holdDeposit _ _ _ _) Hd) as F3. injection F3 as Fm Fc Fu Fs.
  assert (pay_wallets s3 = pay_wallets s') as E3 by (unfold pay_wallets at 1; by rewrite Fm).
  pose proof (journal_replay _ _ _ _ _ _ _ _ _ _ _ Hj ltac:(unfold pay_ledger; by rewrite E3)) as ->.
  assert (coupon_view s'' = coupon_view s3) as ->.
  { destruct (booking_of id s3) as [b'|] eqn:Hb'; [|done]. destruct Hc as (s5 & Hr & ->).
    destruct (holdDeposit_coupon _ _ _ _ _ _ _ _ Hd Hb') as (b0 & Hb0 & Hcp).
    unfold booking_of in Hb0. rewrite F2b in Hb0.
    rewrite (redeem_replay _ _ _ _ _ Hr); [done|]. rewrite Hcp. unfold redeemed. rewrite Fu, F2u.
    exact (Lc b0 Hb0). }
  split_and!.
  - unfold pay_wallets at 1, pay_money. rewrite Hcore. exact E3.
  - unfold coupon_view. by rewrite Fc, Fu, F2c, F2u.
  - unfold pay_slots at 1. rewrite Hcore. fold (pay_slots s3). rewrite Fs. unfold pay_slots, slots. by rewrite F2b.
  - unfold payment_of, pay_money. rewrite Hcore. fold (pay_money s3). rewrite Fm, Hp. by rewrite lookup_insert_eq.
Qed.

(** ** What verification collects *)

(** An invariant that each step of a payment keeps. *)
Section verification_invariant.
Variable P : PayStore R -> Prop.
Hypothesis P_wallet : forall A (m : M (PayStore R) A), keeps wallet_frame m -> preserves P m.
Hypothesis P_payment : forall A (m : M (PayStore R) A), keeps payment_frame m -> preserves P m.
Hypothesis P_deposit : forall A (m : M (PayStore R) A), keeps deposit_frame m -> preserves P m.
Hypothesis P_redeem : forall id b, preserves P (redeemCoupon id b).
Hypothesis P_rest : forall s s', ps_core s' = ps_core s -> coupon_view s' = coupon_view s -> P s -> P s'.

Lemma invariant_get {B} (k : PayStore R -> M (PayStore R) B) :
  (forall t, preserves P (k t)) -> preserves P (s ← get; k s).
Proof. intros H. apply preserves_get. intros s r s' Hs E. by eapply H. Qed.

Lemma settlePayment_invariant env dto b p g w : preserves P (settlePayment yearMonth env dto b p g w).
Proof.
  unfold settlePayment. cbv zeta.
  apply preserves_bind; [apply P_wallet, keeps_settleWallet|intros _].
  apply preserves_bind; [unfold assertValidTransition; case_bool_decide; auto with preserves|intros _].
  apply preserves_bind; [apply P_payment, keeps_updatePayment|intros _].
  apply preserves_bind; [apply P_payment, keeps_audit|intros _].
  apply preserves_bind; [apply P_deposit, keeps_holdDeposit|intros _].
  apply preserves_bind; [apply P_wallet, keeps_journal|intros _].
  apply preserves_bind; [apply preserves_try_catch; [|auto with preserves]|intros _].
  { intros s r s' H Hs. rewrite createPaymentEvent_throws in H. by injection H as _ <-. }
  apply invariant_get. intros t. destruct (booking_of _ t) as [b'|]; [|auto with preserves].
  apply preserves_bind; [apply P_redeem|intros _].
  apply preserves_bind; [|auto with preserves].
  intros s r s' H Hs. apply invoice_step in H as [H1 H2]. by apply (P_rest s).
Qed.

Lemma capturedAmount_invariant env dto p tot : preserves P (capturedAmount (R:=R) env dto p tot).
Proof.
  unfold capturedAmount. destruct (pe_fetch env _) as [[rp|]|]; auto with preserves.
  apply preserves_bind; [auto with preserves|intros _].
  apply preserves_bind; [auto with preserves|intros _].
  destruct (String.eqb _ "failed"); [|auto 8 with preserves].
  apply preserves_bind; [apply P_payment, keeps_updatePayment|auto with preserves].
Qed.

Lemma paymentParts_invariant env dto p tot : preserves P (paymentParts (R:=R) env dto p tot).
Proof.
  unfold paymentParts. destruct (isFullWalletOrderId _ _); [auto with preserves|].
  apply preserves_bind; [auto with preserves|intros _].
  destruct (pe_useMock env); [auto with preserves|].
  apply preserves_bind; [apply capturedAmount_invariant|auto with preserves].
Qed.

Lemma verifyPayment_invariant env dto c :
  (forall b p g w, preserves P (transaction (settlePayment yearMonth env dto b p g w))) ->
  preserves P (verifyPayment yearMonth env dto c).
Proof.
  intros P_settle. unfold verifyPayment. apply invariant_get. intros t.
  apply preserves_bind; [auto with preserves|intros b].
  apply preserves_bind; [auto with preserves|intros _].
  apply preserves_bind; [auto with preserves|intros p].
  apply preserves_bind; [auto with preserves|intros _].
  case_bool_decide; [auto with preserves|].
  apply preserves_bind; [auto with preserves|intros _].
  apply preserves_bind; [apply paymentParts_invariant|intros parts].
  apply preserves_bind; [apply P_settle|auto with preserves].
Qed.
End verification_invariant.

(** Payments never touch what a booking occupies. *)
Definition bookings_slots (m : gmap string Booking) : gmap string Slot := slot <$> m.
Lemma slots_of_wallet_frame {A} (m : M (PayStore R) A) : keeps wallet_frame m -> keeps pay_slots m.
Proof. apply (keeps_of wallet_frame (fun f => bookings_slots f.1.1)). Qed.
Lemma slots_of_payment_frame {A} (m : M (PayStore R) A) : keeps payment_frame m -> keeps pay_slots m.
Proof. apply (keeps_of payment_frame (fun f => bookings_slots f.1.1)). Qed.
Lemma slots_of_deposit_frame {A} (m : M (PayStore R) A) : keeps deposit_frame m -> keeps pay_slots m.
Proof. apply (keeps_of deposit_frame (fun f => f.2)). Qed.
Lemma slots_of_core {A} (m : M (PayStore R) A) : keeps ps_core m -> keeps pay_slots m.
Proof. apply (keeps_of ps_core slots). Qed.

Lemma slots_of_same_core x (s s' : PayStore R) : ps_core s' = ps_core s -> pay_slots s = x -> pay_slots s' = x.
Proof. intros H <-. unfold pay_slots. by rewrite H. Qed.

Lemma settlePayment_slots env dto b p g w : keeps pay_slots (settlePayment yearMonth env dto b p g w).
Proof.
  intros x. apply settlePayment_invariant; [intros; by apply slots_of_wallet_frame|
    intros; by apply slots_of_payment_frame|intros; by apply slots_of_deposit_frame|
    intros; apply slots_of_core, keeps_redeem|intros s s' H _; by apply slots_of_same_core].
Qed.
Lemma paymentParts_slots env dto p tot : keeps pay_slots (paymentParts (R:=R) env dto p tot).
Proof. intros x. apply paymentParts_invariant. intros; by apply slots_of_payment_frame. Qed.

Lemma verifyPayment_slots env dto c : keeps pay_slots (verifyPayment yearMonth env dto c).
Proof.
  intros x. apply verifyPayment_invariant; [intros; by apply slots_of_payment_frame|].
  intros b p g w. apply preserves_transaction, settlePayment_slots.
Qed.

(** What the gateway answered for a part it collected. *)
Definition gateway_evidence (env : PayEnv) (dto : VerifyPaymentDto) (p : Payment) (tot g : Q) : Prop :=
  if isFullWalletOrderId p (vp_razorpayOrderId dto) then g = 0
  else signatureAccepted env dto = true /\
    if pe_useMock env then True
    else exists rp, pe_fetch env (vp_razorpayPaymentId dto) = Ok (Some rp) /\ rp_status rp = "captured" /\
      match truthy (rp_order_id rp) with Some o => o = vp_razorpayOrderId dto | None => True end /\
      match truthy (rp_currency rp) with Some c => isINR c = true | None => True end /\
      g = inject_Z (rp_amount rp) / 100 /\ g <= tot.

Lemma paymentParts_Ok env dto p tot s g w s' :
  paymentParts (R:=R) env dto p tot s = (Ok (g, w), s') ->
  s' = s /\ g + w == tot /\ gateway_evidence env dto p tot g.
Proof.
  unfold paymentParts, gateway_evidence. destruct (isFullWalletOrderId _ _).
  { intros [= <- <- <-]. split_and!; [done|ring|done]. }
  intros (? & ? & [Hs ->]%require_Ok & H)%bind_Ok. destruct (pe_useMock env).
  { injection H as <- <- <-. split_and!; [done|ring|done|done]. }
  apply bind_Ok in H as (g' & ? & H & [= <- <- <-]). unfold capturedAmount in H.
  destruct (pe_fetch env _) as [[rp|]|] eqn:Ef; [|done..].
  apply bind_Ok in H as (? & ? & [Ho ->]%require_Ok & H). apply bind_Ok in H as (? & ? & [Hc ->]%require_Ok & H).
  destruct (String.eqb _ "failed"); [apply bind_Ok in H as (? & ? & _ & [=])|].
  apply bind_Ok in H as (? & ? & [Hst ->]%require_Ok & H). apply bind_Ok in H as (? & ? & [_ ->]%require_Ok & H).
  apply bind_Ok in H as (? & ? & [Hle ->]%require_Ok & [= <- <-]). dec_bool.
  split_and!; [done|ring|done|]. exists rp. split; [done|]. split; [by apply String.eqb_eq|].
  split; [by destruct (truthy (rp_order_id rp)); [apply String.eqb_eq|]|].
  split; [by destruct (truthy (rp_currency rp))|]. split; [done|].
  lra.
Qed.

(** The wallet of the customer pays its part. *)
Definition wallet_paid (id customerId : string) (w : Q) (before after : WalletStore) : Prop :=
  exists wid wlt row, ws_wallets before !! wid = Some wlt /\ w_userId wlt = customerId /\
    w <= w_availableBalance wlt /\ ws_entries after = ws_entries before ++ [row] /\
    we_walletId row = wid /\ we_direction row = DIR_DEBIT /\ we_amount row = store w /\
    we_idempotencyKey row = walletKey id /\
    w_availableBalance <$> ws_wallets after !! wid = Some (store (w_availableBalance wlt - w)).

Lemma settleWallet_pays env id b w s u s1 : settleWallet env id b w s = (Ok u, s1) -> 0 < w ->
  findByKey (walletKey id) (pay_wallets s) = None ->
  wallet_paid id (b_customerId b) w (pay_wallets s) (pay_wallets s1).
Proof.
  intros H Hpos%d_gt_true Hk. unfold settleWallet in H. rewrite (when_true _ _ Hpos) in H. dec_bool.
  apply bind_Ok in H as (? & ? & [_ ->]%require_Ok & H). apply zoom_run in H as (t & E & ->).
  destruct (getOrCreateWallet_run (pe_freshWalletId env) (b_customerId b) (pay_wallets s))
    as (p & ws' & Hg & Hl & Hu & He & _ & _ & Hz).
  rewrite bind_run, Hg in E. apply bind_Ok in E as (? & ? & [Hle ->]%require_Ok & E). dec_bool.
  apply bind_Ok in E as (row & t' & Hd & [= _ <-]). change (pay_wallets (set_pay_wallets t' s)) with t'.
  destruct Hz as [->|Hz]; [|rewrite Hz in Hle; lra].
  unfold debitWallet in Hd. apply bind_Ok in Hd as (? & ? & [_ ->]%require_Ok & Hd).
  apply executeDebit_cases in Hd
    as [[-> Hf]|(w0 & r0 & Hw0 & [= <-] & _ & _ & _ & Hle0 & Hi & Hdir & Ha & Hk0 & ->)].
  { specialize (Hf row eq_refl). unfold walletKey in Hk. congruence. }
  replace w0 with (snd p) in * by congruence.
  exists (fst p), (snd p), row. simpl. rewrite lookup_insert_eq. done.
Qed.

(** C16. No payment is marked PAID unless its whole amount was collected.  When verification of an unpaid payment succeeds, the order is the one issued for this booking, the status allowed it, gateway part and wallet part add up to fare plus deposit, the gateway part was captured in rupees under this order with an accepted signature, the wallet part was debited from the customer's wallet in the same transaction, the payment carries the payment id, the deposit is held, and no booking's slot changed. *)
Theorem verification_collects_everything env dto c s r s' :
  verifyPayment yearMonth env dto c s = (Ok r, s') -> vr_already r = false ->
  let id := vp_bookingId dto in
  exists b p g w, booking_of id s = Some b /\ b_customerId b = c /\ payment_of id s = Some p /\
    pm_razorpayOrderId p = Some (vp_razorpayOrderId dto) /\ PS_PAID ∈ validTransitions (pm_status p) /\
    g + w == totalExpectedOf b /\ gateway_evidence env dto p (totalExpectedOf b) g /\
    (0 < w -> findByKey (walletKey id) (pay_wallets s) = None ->
     exists ws, wallet_paid id c w (pay_wallets s) ws /\ ws_entries (pay_wallets s') = ws_entries ws /\
       ws_wallets (pay_wallets s') = ws_wallets ws) /\
    ms_payments (pay_money s') =
      <[id := with_status_and_id p PS_PAID (Some (resolvedId env dto p))]> (ms_payments (pay_money s)) /\
    (is_Some (b_securityDeposit b) ->
     sd_status <$> (booking_of id s' ≫= b_securityDeposit) = Some SD_HELD) /\
    pay_slots s' = pay_slots s.
Proof.
  intros H Hal id. pose proof (keeps_eq _ _ _ _ _ (verifyPayment_slots _ _ _) H) as Hslots.
  unfold verifyPayment in H. fold id in H. rewrite get_bind in H.
  apply bind_Ok in H as (b & ? & [Hb ->]%from_option_or_Ok & H).
  apply bind_Ok in H as (? & ? & [Hc ->]%require_Ok & H). apply String.eqb_eq in Hc as <-.
  apply bind_Ok in H as (p & ? & [Hp ->]%from_option_or_Ok & H).
  apply bind_Ok in H as (? & ? & [Ho%bool_decide_eq_true ->]%require_Ok & H).
  case_bool_decide as Hpaid.
  { apply bind_Ok in H as (? & ? & _ & [= <- _]). done. }
  apply bind_Ok in H as (? & ? & [_ ->]%require_Ok & H).
  apply bind_Ok in H as ([g w] & ? & (-> & Hgw & Hev)%paymentParts_Ok & H).
  apply bind_Ok in H as (o & s1' & Hs & [= _ <-]). rewrite transaction_Ok in Hs. simpl in Hs.
  exists b, p, g, w.
  apply settlePayment_Ok in Hs
    as (s1 & s2 & s3 & s4 & Hw & Hst & (p0 & Hp0 & _ & Hpay) & F2 & Hd & Hj & _ & Hcore & _).
  fold id in Hw, Hp0, Hpay, Hd, Hj.
  pose proof (keeps_eq _ _ _ _ _ (keeps_settleWallet _ _ _ _) Hw) as F1. injection F1 as F1b F1p _ _.
  injection F2 as F2b F2w _ _.
  pose proof (keeps_eq _ _ _ _ _ (keeps_holdDeposit _ _ _ _) Hd) as F3. injection F3 as Fm _ _ _.
  pose proof (keeps_eq _ _ _ _ _ (keeps_journal _ _ _ _ _ _ _ _) Hj) as F4. injection F4 as F4b F4p _ _.
  assert (p0 = p) as -> by (unfold payment_of in *; congruence).
  split_and!; try done.
  - by destruct Hst.
  - intros Hpos Hk. exists (pay_wallets s1). split; [by apply (settleWallet_pays _ _ _ _ _ _ _ Hw)|].
    destruct (journal_wallets _ _ _ _ _ _ _ _ _ _ _ Hj) as [Ew Ee].
    assert (pay_wallets s1' = pay_wallets s4) as -> by (unfold pay_wallets, pay_money; by rewrite Hcore).
    rewrite Ew, Ee.
    assert (pay_wallets s3 = pay_wallets s1) as -> by (unfold pay_wallets at 1; rewrite Fm; exact F2w). done.
  - unfold pay_money at 1. rewrite Hcore. fold (pay_money s4). by rewrite F4p, Fm, Hpay, F1p.
  - intros [d Hdep]. unfold booking_of. rewrite Hcore, F4b.
    destruct (holdDeposit_Ok _ _ _ _ _ _ _ Hd) as [[Hn _]|(b0 & d0 & _ & _ & ->)]; [congruence|].
    simpl. by rewrite lookup_insert_eq.
Qed.
End frames.

(** ** The journal of a payment *)
Section payment_journal.
Context {dec : DecimalArith} {col : NumericColumn}.

(** A fare in whole paise with a vendor share, below ten million rupees. *)
Record payable_fare (b : Booking) : Prop := {
  pf_total : whole_paise (b_totalFare b);
  pf_fee : whole_paise (b_platformFee b);
  pf_gst : whole_paise (b_gstAmount b);
  pf_net : whole_paise (b_netToVendor b);
  pf_deposit : whole_paise (depositOf b);
  pf_gst_nonneg : 0 <= b_gstAmount b;
  pf_net_pos : 0 < b_netToVendor b;
  pf_deposit_nonneg : 0 <= depositOf b;
  pf_positive : 0 < b_totalFare b;
  pf_bound : b_totalFare b + b_netToVendor b + b_gstAmount b + depositOf b <= 100000000;
}.

Lemma pushed_pos q : (if d_gt q 0 then q else 0) == d_max q 0.
Proof. unfold d_max. destruct (d_gt q 0) eqn:E1, (d_le q 0) eqn:E2; dec_bool; lra. Qed.

Definition platformShare (b : Booking) : Q := b_totalFare b - b_netToVendor b - b_gstAmount b.

Lemma paymentLines_sides id b p g w full : 0 <= g -> 0 <= w -> payable_fare b ->
  side_total DEBIT (paymentLines id b p (totalExpectedOf b) g w full) == g + w /\
  side_total CREDIT (paymentLines id b p (totalExpectedOf b) g w full) ==
    b_netToVendor b + d_max (platformShare b) 0 + b_gstAmount b + depositOf b.
Proof.
  intros Hg Hw Hf. pose proof (pf_gst_nonneg _ Hf). pose proof (pf_deposit_nonneg _ Hf).
  unfold paymentLines. cbv zeta. split; rewrite !side_total_app, !pushIf_side; unfold side_total; cbn [sum_by];
    rewrite ?andb_true_r, ?andb_false_r; simpl; rewrite ?andb_true_r, ?andb_false_r.
  - rewrite !pushed_amount by done. ring.
  - rewrite (pushed_amount (b_gstAmount b)), (pushed_amount (depositOf b)) by done. rewrite pushed_pos.
    unfold totalExpectedOf, platformShare.
    assert (b_platformFee b + (b_totalFare b + depositOf b -
      (b_netToVendor b + b_platformFee b + b_gstAmount b + depositOf b)) ==
      b_totalFare b - b_netToVendor b - b_gstAmount b) as E by ring.
    rewrite E. ring.
Qed.

Lemma paymentLines_well_formed id b p g w full : payable_fare b -> whole_paise g -> whole_paise w ->
  let lines := paymentLines id b p (totalExpectedOf b) g w full in
  Forall well_formed_line lines /\ Forall (fun l => whole_paise (li_amount l)) lines.
Proof.
  intros [Wt Wf Wg Wn Wd] Hg Hw. cbv zeta. unfold paymentLines. cbv zeta.
  assert (whole_paise (b_platformFee b + (totalExpectedOf b -
    (b_netToVendor b + b_platformFee b + b_gstAmount b + depositOf b)))) by (unfold totalExpectedOf; auto 10 with dec).
  split; repeat apply Forall_app_2; try (apply pushIf_Forall; intros E; dec_bool; simpl; done || (split; simpl; [lra|eauto]));
    repeat constructor; simpl; eauto.
Qed.

Lemma paymentLines_length id b p tot g w full : 0 < g + w ->
  (2 <= length (paymentLines id b p tot g w full))%nat.
Proof.
  intros H. unfold paymentLines. cbv zeta. rewrite !length_app. unfold pushIf.
  destruct (d_gt w 0) eqn:E1; [simpl; lia|]. destruct (d_gt g 0) eqn:E2; [simpl; lia|]. dec_bool. lra.
Qed.

Lemma payment_journal_run now fid id b p g w full L :
  payable_fare b -> whole_paise g -> 0 <= g -> 0 <= w -> g + w == totalExpectedOf b ->
  keys_fresh (Some (journalKey id)) 0 L ->
  let journal := paymentJournal id b p (totalExpectedOf b) g w full in
  (0 <= platformShare b /\
   side_total DEBIT (rawLines journal) == totalExpectedOf b /\
   side_total CREDIT (rawLines journal) ==
     b_netToVendor b + platformShare b + b_gstAmount b + depositOf b /\
   exists entries, recordJournal now fid true journal L =
     (Ok {| jr_journalId := "jrn_" +:+ fid; jr_entries := entries; jr_isDuplicate := false |}, L ++ entries)) \/
  (platformShare b < 0 /\ recordJournal now fid true journal L = (Throw UnbalancedJournalException, L)).
Proof.
  intros Hf Wg Hg Hw Hgw Hk journal. destruct (paymentLines_sides id b p g w full Hg Hw Hf) as [HD HC].
  pose proof Hf as [Wt Wf Wgst Wn Wd Ng Nn Nd Hp Hb].
  assert (whole_paise w) as Ww.
  { assert (w == totalExpectedOf b - g) as -> by lra. unfold totalExpectedOf. auto with dec. }
  destruct (paymentLines_well_formed id b p g w full Hf Wg Ww) as [Hwf Hwh].
  assert (0 < g + w) as Hpos by (rewrite Hgw; unfold totalExpectedOf; lra).
  assert (d_max (platformShare b) 0 <= b_totalFare b /\ 0 <= d_max (platformShare b) 0) as [Hmax Hmax0]
    by (unfold platformShare; destruct (d_max_spec (b_totalFare b - b_netToVendor b - b_gstAmount b) 0)
          as [[? ->]|[? ->]]; lra).
  destruct (recordJournal_fresh_run now fid true journal L) as [[He (es & _ & Hr)]|[He Hr]]; [| done | | done | |].
  - by apply paymentLines_length.
  - split; [exact Hwh|]. change (rawLines journal) with (paymentLines id b p (totalExpectedOf b) g w full).
    rewrite (abs_sides _ Hwf), HD, HC, Hgw. unfold totalExpectedOf. lra.
  - change (rawLines journal) with (paymentLines id b p (totalExpectedOf b) g w full) in *.
    rewrite HD, HC, Hgw in He. unfold totalExpectedOf in He. left.
    assert (d_max (platformShare b) 0 == platformShare b) as Hm by (unfold platformShare at 2; lra).
    split; [destruct (d_max_spec (platformShare b) 0) as [[? E]|[? E]]; lra|].
    rewrite HD, HC, Hm. split_and!; [done|done|by exists es].
  - change (rawLines journal) with (paymentLines id b p (totalExpectedOf b) g w full) in *.
    rewrite HD, HC, Hgw in He. unfold totalExpectedOf in He. right. split; [|done].
    destruct (d_max_spec (platformShare b) 0) as [[? E]|[? E]]; [|exfalso]; rewrite E in He; unfold platformShare in *;
      [|apply He; ring].
    destruct (Qlt_le_dec (b_totalFare b - b_netToVendor b - b_gstAmount b) 0); [done|].
    exfalso. apply He. lra.
Qed.

(** The journal of a payment is posted exactly when the fare covers the vendor's net and the tax.  For a fare in whole paise and parts that add up to the amount due, it debits wallet and gateway with the parts and credits the vendor, the tax, the deposit escrow and the platform with the rest, as one balanced journal; a fare that does not cover them (a discount above the platform fee) makes it throw, and with it the whole settlement. *)
Theorem payment_journal_posts now fid id b p g w full L :
  payable_fare b -> whole_paise g -> 0 <= g -> 0 <= w -> g + w == totalExpectedOf b ->
  keys_fresh (Some (journalKey id)) 0 L ->
  let journal := paymentJournal id b p (totalExpectedOf b) g w full in
  (0 <= platformShare b /\
   side_total DEBIT (rawLines journal) == totalExpectedOf b /\
   side_total CREDIT (rawLines journal) ==
     b_netToVendor b + platformShare b + b_gstAmount b + depositOf b /\
   exists entries, recordJournal now fid true journal L =
     (Ok {| jr_journalId := "jrn_" +:+ fid; jr_entries := entries; jr_isDuplicate := false |}, L ++ entries)) \/
  (platformShare b < 0 /\ recordJournal now fid true journal L = (Throw UnbalancedJournalException, L)).
Proof. apply payment_journal_run. Qed.
End payment_journal.
