(* ===== verification/PaymentOrders.v ===== *)
(** * From an order to its payment

    What [createOrder] asks for is what [verifyPayment] collects
    (payments/payments.service.ts): the wallet's share of an order, the paise
    sent to the gateway and the settlement that follows. *)
From S2P Require Import Prelude JsNumber Decimal Schema Ledger Wallet Locks HandoverOtp.
From S2P Require Import CancellationPolicy Commission PaymentRefund Outbox BookingStore.
From S2P Require Import BookingLifecycle LifecycleMoney DepositStore Payments.
From stdpp Require Import pretty.
Open Scope Z_scope.
Open Scope Q_scope.

Definition underscore : Ascii.ascii := Ascii.ascii_of_nat 95.

(** The wallet's share travels in the id of a mock order. *)
Lemma mockWalletShare_split n r : (0 < n)%Z ->
  mockWalletShare ("order_mock_split_" +:+ pretty n +:+ "_" +:+ r) = inject_Z n / 100.
Proof.
  intros Hn. unfold mockWalletShare. rewrite startsWith_app.
  change ("order_mock_split_" +:+ pretty n +:+ "_" +:+ r) with
    ("order" +:+ String underscore ("mock" +:+ String underscore
       ("split" +:+ String underscore (pretty n +:+ String underscore r)))).
  fold underscore. rewrite !split_on_app by (done || by apply pretty_no_underscore). simpl.
  by rewrite parseInt_pretty.
Qed.

Lemma toPaise_exact q : whole_paise q -> Qabs q <= 10000000000 -> inject_Z (toPaise q) / 100 == q.
Proof.
  intros [n Hn] Hq. assert (money n) as Hm.
  { unfold money. rewrite Hn in Hq. rewrite Zle_Qle, <- Qabs_Z.
    assert (inject_Z n == inject_Z n / 100 * 100) as -> by field. rewrite Qabs_Qmult.
    change (Qabs 100) with 100. change (inject_Z (10 ^ 13)) with (10000000000000 # 1). lra. }
  unfold toPaise. assert (rnd q = rupees n) as -> by exact (rnd_proper _ _ Hn).
  by rewrite rupees_to_paise.
Qed.

Lemma toPaise_pos q : whole_paise q -> 0 < q -> q <= 10000000000 -> (0 < toPaise q)%Z.
Proof.
  intros Hw Hp Hb. pose proof (toPaise_exact q Hw ltac:(rewrite Qabs_pos; lra)) as E.
  assert (0 < inject_Z (toPaise q)) as H.
  { assert (inject_Z (toPaise q) == inject_Z (toPaise q) / 100 * 100) as -> by field. lra. }
  by rewrite (Zlt_Qlt 0).
Qed.

Section orders.
Context {R : Type} {col : NumericColumn} {dec : DecimalArith}.
Variable yearMonth : Z -> string.
Implicit Types s : PayStore R.

(** The wallet's share of an order, as the store shows it. *)
Definition share_of (customerId : string) (tot wa : Q) s : Prop :=
  wa = 0 \/
  exists wid wlt, findWalletByUser customerId (pay_wallets s) = Some (wid, wlt) /\ w_status wlt = WS_ACTIVE /\
    0 < w_availableBalance wlt /\ wa = d_min (w_availableBalance wlt) tot.

Lemma walletShare_Ok env uw c tot s wa pa ra s1 : walletShare env uw c tot s = (Ok (wa, pa, ra), s1) ->
  share_of c tot wa s1 /\ wallet_frame s1 = wallet_frame s /\ ps_webhooks s1 = ps_webhooks s /\
  ws_entries (pay_wallets s1) = ws_entries (pay_wallets s) /\ pay_ledger s1 = pay_ledger s.
Proof.
  unfold walletShare. destruct (uw && pe_hasWallets env); [|by intros [= <- _ _ <-]; split; [left|]].
  intros ([wid wlt] & s2 & (t & Hg & ->)%zoom_run & H)%bind_Ok. unfold getOrCreateWallet in Hg. step_in Hg.
  destruct (findWalletByUser c (pay_wallets s)) as [[wid' wlt']|] eqn:Ef; step_in Hg; injection Hg as <- <- <-;
    cbn [snd] in H.
  - rewrite set_pay_wallets_id in H. destruct (_ && _) eqn:E; injection H as <- _ _ <-; [|by split; [left|]].
    apply andb_true_iff in E as [E1%bool_decide_eq_true E2]. dec_bool. split; [right; by exists wid', wlt'|done].
  - simpl in H. injection H as <- _ _ <-. by split; [left|].
Qed.

(** What an order that was created leaves: the booking and the wallets as
    they were, the payment CREATED under the order's id. *)
Record ordered (id c : string) (o : OrderResult) (b : Booking) (wa : Q) s s1 : Prop := {
  od_booking : booking_of id s = Some b;
  od_customer : b_customerId b = c;
  od_pending : b_status b = BS_PENDING;
  od_share : share_of c (totalExpectedOf b) wa s1;
  od_bookings : ls_bookings (ps_core s1) = ls_bookings (ps_core s);
  od_coupons : coupon_view s1 = coupon_view s;
  od_entries : ws_entries (pay_wallets s1) = ws_entries (pay_wallets s);
  od_ledger : pay_ledger s1 = pay_ledger s;
  od_applied : or_walletApplied o = rnd wa;
  od_full : or_isFullWallet o = d_le (totalExpectedOf b - wa) 0;
  od_amount : or_amount o = if or_isFullWallet o then 0%Z else toPaise (totalExpectedOf b - wa);
  od_full_id : or_isFullWallet o = true -> or_orderId o = fullWalletOrder id;
  od_payment : exists p, payment_of id s1 = Some p /\ pm_status p = PS_CREATED /\
    pm_razorpayOrderId p = Some (or_orderId o);
}.

Lemma gatewayOrder_pure env wa paise s r s1 : gatewayOrder (R:=R) env wa paise s = (r, s1) -> s1 = s.
Proof.
  unfold gatewayOrder. destruct (pe_useMock env); [by intros [= _ <-]|].
  destruct (pe_runtime env) as [[[id|]|]|]; try destruct (pe_createOrder env paise); by intros [= _ <-].
Qed.

Lemma createOrder_Ok env id c uw s o s1 : createOrder env id c uw s = (Ok o, s1) ->
  exists b wa, ordered id c o b wa s s1.
Proof.
  intros H. unfold createOrder in H. rewrite get_bind in H.
  apply bind_Ok in H as (b & ? & [Hb ->]%from_option_or_Ok & H).
  apply bind_Ok in H as (? & ? & [Hc ->]%require_Ok & H). apply String.eqb_eq in Hc.
  apply bind_Ok in H as (? & ? & [Hst%bool_decide_eq_true ->]%require_Ok & H). cbv zeta in H.
  apply bind_Ok in H as (? & ? & [_ ->]%require_Ok & H).
  apply bind_Ok in H as (? & ? & [_ ->]%require_Ok & H).
  apply bind_Ok in H as ([[wa pa] ra] & s2 & Hs & H).
  apply walletShare_Ok in Hs as (Hsh & Fw & _ & He & HL). injection Fw as F1 F2 F3 F4.
  apply bind_Ok in H as (oid & s3 & Ho & H).
  assert (s3 = s2 /\ (d_le (totalExpectedOf b - wa) 0 = true -> oid = fullWalletOrder id)) as [-> Hoid].
  { destruct (d_le _ 0); [by injection Ho as <- <-|]. by apply gatewayOrder_pure in Ho as ->. }
  clear Ho. apply bind_Ok in H as (p & s4 & Hp & H). unfold writeOrder in Hp. rewrite get_bind in Hp.
  apply bind_Ok in Hp as (? & ? & [_ ->]%require_Ok & Hp).
  apply bind_Ok in Hp as (? & ? & (? & [= _ <-] & ->)%zoom_run & Hp). injection Hp as <- <-.
  apply bind_Ok in H as (? & ? & (? & [= _ <-] & ->)%zoom_run & [= <- <-]).
  exists b, wa. split; try done.
  - unfold coupon_view. simpl. by rewrite F3, F4.
  - eexists. unfold payment_of. simpl. rewrite lookup_insert_eq. split; [done|]. by case_match.
Qed.

(** ** Running a settlement *)
Lemma settleWallet_runs env id b w s wid wlt :
  (0 < w -> pe_hasWallets env = true /\ findWalletByUser (b_customerId b) (pay_wallets s) = Some (wid, wlt) /\
    w_status wlt = WS_ACTIVE /\ walletDisabled (pe_walletConfig env) LT_CHECKOUT_DEBIT = false /\
    findByKey (walletKey id) (pay_wallets s) = None /\ w <= w_availableBalance wlt) ->
  exists s1, settleWallet env id b w s = (Ok tt, s1) /\ wallet_frame s1 = wallet_frame s /\
    pay_ledger s1 = pay_ledger s /\
    (0 < w -> w_availableBalance <$> ws_wallets (pay_wallets s1) !! wid = Some (store (w_availableBalance wlt - w))).
Proof.
  intros H. unfold settleWallet, when. destruct (d_gt w 0) eqn:Hpos; dec_bool.
  2: { exists s. split_and!; try done. intros. lra. }
  destruct (H Hpos) as (Hh & Hf & Hact & Hdis & Hk & Hle). clear H. rewrite require_bind, Hh.
  assert (ws_wallets (pay_wallets s) !! wid = Some wlt) as Hl.
  { unfold findWalletByUser in Hf. apply find_Some_elem in Hf as [Hin _]. by apply elem_of_map_to_list in Hin. }
  destruct (executeDebit_runs (pe_now env) (pe_walletConfig env) wid w LT_CHECKOUT_DEBIT "BOOKING" (Some id)
    (walletKey id) (pay_wallets s) wlt Hl Hact Hdis Hk Hle) as (row & Hd & _).
  unfold zoom, getOrCreateWallet. rewrite bind_assoc_run, get_bind, Hf, ret_bind, require_bind. cbn [snd fst].
  assert (d_lt (w_availableBalance wlt) w = false) as -> by (by apply d_lt_false). cbn [negb].
  unfold debitWallet. rewrite bind_assoc_run, require_bind.
  assert (d_le w 0 = false) as -> by (by apply d_le_false). cbn [negb]. fold (walletKey id).
  rewrite bind_run, Hd, ret_run. eexists. split; [done|]. split; [done|]. split; [done|]. intros _. simpl.
  by rewrite lookup_insert_eq.
Qed.

Lemma updatePayment_runs id p st pid s : payment_of id s = Some p ->
  updatePayment id p st pid s = (Ok tt, set_pay_money (set_payment id (with_status_and_id p st pid) (pay_money s)) s).
Proof. intros H. unfold updatePayment. step. rewrite H. step. by rewrite String.eqb_refl. Qed.

Lemma holdDeposit_runs env id b pid s : booking_of id s = Some b ->
  exists s1, holdDeposit env id b pid s = (Ok tt, s1).
Proof.
  intros H. unfold holdDeposit. destruct (b_securityDeposit b) as [d|] eqn:Hd; [|by exists s].
  step. rewrite H. step. rewrite Hd. step. by eexists.
Qed.

Lemma journal_runs env id b p g w full s :
  payable_fare b -> 0 <= platformShare b -> whole_paise g -> 0 <= g -> 0 <= w -> g + w == totalExpectedOf b ->
  keys_fresh (Some (journalKey id)) 0 (pay_ledger s) ->
  exists s1, recordPaymentLedgerJournal env id b p (totalExpectedOf b) g w full s = (Ok tt, s1).
Proof.
  intros Hf Hs Wg Hg Hw Hgw Hk. unfold recordPaymentLedgerJournal, when. destruct (pe_hasLedger env); [|by exists s].
  unfold zoom. rewrite bind_run.
  destruct (payment_journal_run (pe_now env) (pe_journalId env) id b p g w full (pay_ledger s) Hf Wg Hg Hw Hgw Hk)
    as [(_ & _ & _ & es & ->)|[Hneg _]]; [|lra]. rewrite ret_run. by eexists.
Qed.

Lemma invoice_Ok env id s : exists s1,
  when (pe_hasInvoices env) (try_catch (generateInvoiceForBooking yearMonth env id) (fun _ => mret tt)) s =
    (Ok tt, s1).
Proof.
  unfold when, try_catch. destruct (pe_hasInvoices env); [|by exists s].
  destruct (generateInvoiceForBooking _ _ _ _) as [[[]|] s1]; by exists s1.
Qed.

(** A settlement of a payment that can be made goes through. *)
Lemma settlement_runs env dto b p g w s wid wlt : let id := vp_bookingId dto in
  booking_of id s = Some b -> payment_of id s = Some p -> pm_status p = PS_CREATED ->
  truthy (b_couponId b) = None -> payable_fare b -> 0 <= platformShare b ->
  keys_fresh (Some (journalKey id)) 0 (pay_ledger s) ->
  whole_paise g -> 0 <= g -> 0 <= w -> g + w == totalExpectedOf b ->
  (0 < w -> pe_hasWallets env = true /\ findWalletByUser (b_customerId b) (pay_wallets s) = Some (wid, wlt) /\
    w_status wlt = WS_ACTIVE /\ walletDisabled (pe_walletConfig env) LT_CHECKOUT_DEBIT = false /\
    findByKey (walletKey id) (pay_wallets s) = None /\ w <= w_availableBalance wlt) ->
  exists o s', settlePayment yearMonth env dto b p g w s = (Ok o, s') /\
    (pm_status <$> payment_of id s' = Some PS_PAID) /\
    (0 < w -> w_availableBalance <$> ws_wallets (pay_wallets s') !! wid = Some (store (w_availableBalance wlt - w))).
Proof.
  intros id Hb Hp Hst Hcp Hf Hsh Hk Wg Hg Hw Hgw Hwal.
  destruct (settleWallet_runs env id b w s wid wlt Hwal) as (s1 & H1 & F1 & L1 & A1). injection F1 as F1b F1p _ _.
  unfold settlePayment. cbv zeta. fold (resolvedId env dto p). fold id. rewrite bind_run, H1.
  unfold assertValidTransition. rewrite Hst, bool_decide_false by done. rewrite require_bind.
  rewrite (bool_decide_true (PS_PAID ∈ _)) by (vm_compute; set_solver).
  assert (payment_of id s1 = Some p) as Hp1 by (unfold payment_of in *; by rewrite F1p).
  rewrite bind_run, (updatePayment_runs _ _ _ _ _ Hp1).
  unfold recordPaymentAuditLog at 1, zoom at 1. rewrite bind_run, modify_run.
  match goal with |- context [set_pay_money (add_audit ?a ?m) ?t] =>
    set (s2 := set_pay_money (add_audit a m) t) end.
  assert (pay_wallets s2 = pay_wallets s1) as E2 by done.
  assert (booking_of id s2 = Some b) as Hb2 by (unfold booking_of in *; by rewrite <- Hb, <- F1b).
  assert (payment_of id s2 = Some (with_status_and_id p PS_PAID (Some (resolvedId env dto p)))) as Hp2
    by (unfold payment_of; simpl; by rewrite lookup_insert_eq).
  clearbody s2.
  destruct (holdDeposit_runs env id b (resolvedId env dto p) s2 Hb2) as (s3 & H3).
  pose proof (keeps_eq _ _ _ _ _ (keeps_holdDeposit _ _ _ _) H3) as F3. injection F3 as Fm _ _ _.
  rewrite bind_run, H3.
  assert (pay_wallets s3 = pay_wallets s1) as E3 by (unfold pay_wallets at 1; by rewrite Fm).
  destruct (journal_runs env id b p g w (isFullWalletOrderId p (vp_razorpayOrderId dto)) s3) as (s4 & H4);
    try done.
  { unfold pay_ledger in *. by rewrite E3, L1. }
  rewrite bind_run, H4. pose proof (keeps_eq _ _ _ _ _ (keeps_journal _ _ _ _ _ _ _ _) H4) as F4.
  injection F4 as F4b F4p _ _. destruct (journal_wallets _ _ _ _ _ _ _ _ _ _ _ H4) as [Ew _].
  rewrite bind_run. unfold try_catch at 1. rewrite createPaymentEvent_throws, ret_run, get_bind.
  assert (pm_status <$> payment_of id s4 = Some PS_PAID /\
    (0 < w -> w_availableBalance <$> ws_wallets (pay_wallets s4) !! wid = Some (store (w_availableBalance wlt - w))))
    as [Hpaid Hbal].
  { split; [unfold payment_of in *; rewrite F4p, Fm; by rewrite Hp2|]. by rewrite Ew, E3. }
  destruct (booking_of id s4) as [b4|] eqn:Hb4; [|by do 2 eexists].
  assert (truthy (b_couponId b4) = None) as Hc4.
  { unfold booking_of in Hb4. rewrite F4b in Hb4.
    destruct (holdDeposit_coupon _ _ _ _ _ _ _ _ H3 Hb4) as (b0 & Hb0 & ->). congruence. }
  unfold redeemCoupon. rewrite Hc4, ret_bind, bind_run.
  destruct (invoice_Ok env id s4) as [s5 H5]. rewrite H5, ret_run. do 2 eexists. split; [done|].
  apply invoice_step in H5 as [H5 _]. unfold payment_of, pay_wallets, pay_money in *. by rewrite H5.
Qed.

(** The customer paid the order at the gateway: the entity it reports is
    captured, in rupees, of this order and of the amount asked for.  An order
    id of the gateway is not one of the full-wallet ids. *)
Record order_paid (env : PayEnv) (dto : VerifyPaymentDto) (o : OrderResult) : Prop := {
  op_order : vp_razorpayOrderId dto = or_orderId o;
  op_kind : startsWith "order_wallet_full_" (or_orderId o) = or_isFullWallet o;
  op_gateway : or_isFullWallet o = false ->
    pe_useMock env = false /\ signatureAccepted env dto = true /\
    exists rp, pe_fetch env (vp_razorpayPaymentId dto) = Ok (Some rp) /\ rp_order_id rp = Some (or_orderId o) /\
      rp_currency rp = Some "INR" /\ rp_status rp = "captured" /\ rp_amount rp = or_amount o;
}.

(** Wallets are enabled and in whole paise, neither the wallet's debit nor
    the payment's journal was posted before. *)
Record ready_to_settle (env : PayEnv) (id : string) s : Prop := {
  rs_wallets : pe_hasWallets env = true;
  rs_enabled : walletDisabled (pe_walletConfig env) LT_CHECKOUT_DEBIT = false;
  rs_key : findByKey (walletKey id) (pay_wallets s) = None;
  rs_journal : keys_fresh (Some (journalKey id)) 0 (pay_ledger s);
  rs_whole : map_Forall (fun _ w => whole_paise (w_availableBalance w)) (ws_wallets (pay_wallets s));
}.

Lemma paid_parts env dto o b wa p s : let tot := totalExpectedOf b in
  order_paid env dto o -> pm_razorpayOrderId p = Some (or_orderId o) -> pe_hasWallets env = true ->
  or_isFullWallet o = d_le (tot - wa) 0 ->
  or_amount o = (if or_isFullWallet o then 0%Z else toPaise (tot - wa)) ->
  whole_paise tot -> whole_paise wa -> 0 <= wa -> wa <= tot -> tot <= 1000000000 ->
  exists g w, paymentParts env dto p tot s = (Ok (g, w), s) /\ g == tot - wa /\ w == wa /\ g + w == tot.
Proof.
  intros tot [Ho Hkind Hgw] Hp Hh Hfull Hamt Wt Ww Hwa Hle Hb.
  unfold paymentParts, isFullWalletOrderId. rewrite Hp, Ho, orb_diag, Hkind.
  destruct (or_isFullWallet o) eqn:E.
  - exists 0, tot. symmetry in Hfull. dec_bool. split_and!; [done|lra..].
  - destruct (Hgw eq_refl) as (Hm & Hs & rp & Hf & Hro & Hrc & Hrs & Hra).
    rewrite require_bind, Hs, Hm. unfold capturedAmount. rewrite Hf, bind_assoc_run, require_bind, Hro, Ho.
    assert (match truthy (Some (or_orderId o)) with Some o' => String.eqb o' (or_orderId o) | None => true end = true)
      as -> by (destruct (or_orderId o); [done|]; apply String.eqb_refl).
    rewrite bind_assoc_run, require_bind, Hrc. simpl (match truthy _ with _ => _ end). cbv iota.
    rewrite Hrs. simpl (String.eqb "captured" "failed"). cbv iota.
    rewrite bind_assoc_run, require_bind. simpl (String.eqb "captured" "captured"). cbv iota.
    rewrite bind_assoc_run, require_bind, Hh, orb_true_r. rewrite bind_assoc_run, require_bind, Hra, Hamt.
    assert (inject_Z (toPaise (tot - wa)) / 100 == tot - wa) as Eg
      by (apply toPaise_exact; [auto with dec|rewrite Qabs_pos; lra]).
    assert (d_lt (tot - inject_Z (toPaise (tot - wa)) / 100) 0 = false) as -> by (apply d_lt_false; lra).
    cbn [negb]. rewrite !ret_bind, ret_run. do 2 eexists. split; [done|]. split_and!; lra.
Qed.

(** An order can always be paid as it was issued.  When createOrder has issued an order for a booking whose fare covers its parts, with or without a share of the wallet, and the gateway captured exactly the paise asked for (nothing when the wallet pays all), verifyPayment succeeds on it: the payment is PAID and the customer's wallet has paid exactly the share announced, although the order carries only rounded numbers. *)
Theorem order_then_verification_settles env env' id c uw s o s1 dto :
  createOrder env id c uw s = (Ok o, s1) -> vp_bookingId dto = id ->
  (forall b, booking_of id s = Some b ->
     payable_fare b /\ 0 <= platformShare b /\ truthy (b_couponId b) = None) ->
  ready_to_settle env' id s1 -> order_paid env' dto o ->
  exists pid s2 wa, verifyPayment yearMonth env' dto c s1 = (Ok {| vr_paymentId := pid; vr_already := false |}, s2) /\
    (pm_status <$> payment_of id s2 = Some PS_PAID) /\ or_walletApplied o = rnd wa /\
    (0 < wa -> exists wid wlt avail, findWalletByUser c (pay_wallets s1) = Some (wid, wlt) /\
       w_availableBalance <$> ws_wallets (pay_wallets s2) !! wid = Some avail /\
       avail == w_availableBalance wlt - wa).
Proof.
  intros H Hid Hbk [Hh Hen Hk Hj Hwh] Hpaid. apply createOrder_Ok in H as (b & wa & [Hb Hc _ Hsh Fb _ _ _ Hap Hfull Hamt _ (p & Hp & Hst & Hpo)]).
  destruct (Hbk b Hb) as (Hf & Hps & Hcp). subst id. set (id := vp_bookingId dto) in *.
  pose proof Hf as [Wt Wfee Wg Wn Wd Ng Nn Nd Hpos Hbound]. set (tot := totalExpectedOf b) in *.
  assert (whole_paise tot /\ 0 < tot <= 1000000000) as [Wtot Btot]
    by (unfold tot, totalExpectedOf; split; [auto with dec|lra]).
  assert (whole_paise wa /\ 0 <= wa <= tot /\ (0 < wa -> exists wid wlt,
    findWalletByUser c (pay_wallets s1) = Some (wid, wlt) /\ w_status wlt = WS_ACTIVE /\
    whole_paise (w_availableBalance wlt) /\ wa <= w_availableBalance wlt)) as (Wwa & Bwa & Hwal).
  { destruct Hsh as [->|(wid & wlt & Hfw & Hact & Hav & ->)].
    - split; [auto with dec|]. split; [lra|]. intros. lra.
    - assert (whole_paise (w_availableBalance wlt)) as Wav.
      { unfold findWalletByUser in Hfw. apply find_Some_elem in Hfw as [Hin _].
        apply elem_of_map_to_list in Hin. by apply (Hwh wid). }
      split; [auto with dec|]. fold tot.
      split; [destruct (d_min_spec (w_availableBalance wlt) tot) as [[? ->]|[? ->]]; lra|].
      intros _. exists wid, wlt. split_and!; try done.
      destruct (d_min_spec (w_availableBalance wlt) tot) as [[? ->]|[? ->]]; lra. }
  destruct (paid_parts env' dto o b wa p s1) as (g & w & Hparts & Eg & Ew & Egw); try done; try apply Bwa; try apply Btot.
  fold tot in Hparts, Eg, Egw.
  assert (booking_of id s1 = Some b) as Hb1 by (unfold booking_of in *; by rewrite Fb).
  assert (exists wid wlt, 0 < w -> findWalletByUser (b_customerId b) (pay_wallets s1) = Some (wid, wlt) /\
    w_status wlt = WS_ACTIVE /\ whole_paise (w_availableBalance wlt) /\ w <= w_availableBalance wlt)
    as (wid & wlt & Hwal').
  { destruct (Qlt_le_dec 0 wa) as [Hp0|Hn0].
    - destruct (Hwal Hp0) as (wid & wlt & H1 & H2 & H3 & H4). exists wid, wlt. intros _. rewrite Hc.
      split_and!; try done. lra.
    - exists "", {| w_userId := ""; w_availableBalance := 0; w_lockedBalance := 0; w_realBalance := 0;
                   w_promoBalance := 0; w_status := WS_ACTIVE |}. intros. lra. }
  destruct (settlement_runs env' dto b p g w s1 wid wlt) as (o' & s2 & Hrun & Hpd & Hbal); try done; try lra.
  { assert (g == tot - wa) as -> by lra. auto with dec. }
  { intros Hw. destruct (Hwal' Hw) as (H1 & H2 & _ & H4). done. }
  exists (pm_id p), s2, wa. split_and!; try done.
  { unfold verifyPayment. rewrite get_bind, from_option_bind. fold id. rewrite Hb1, require_bind.
    assert (String.eqb (b_customerId b) c = true) as -> by (by apply String.eqb_eq).
    rewrite from_option_bind, Hp, require_bind, bool_decide_true by (rewrite Hpo; f_equal; symmetry; apply (op_order _ _ _ Hpaid)).
    rewrite bool_decide_false by (by rewrite Hst). rewrite require_bind, Hst, bool_decide_false by done.
    fold tot. rewrite bind_run, Hparts. cbn [fst snd negb]. rewrite bind_run. unfold transaction. by rewrite Hrun, ret_run. }
  intros Hp0. assert (0 < w) as Hw by lra. destruct (Hwal' Hw) as (H1 & _ & H3 & _).
  exists wid, wlt, (store (w_availableBalance wlt - w)). rewrite Hc in H1. split_and!; [done|by apply Hbal|].
  rewrite store_exact; [lra|]. assert (w_availableBalance wlt - w == w_availableBalance wlt - wa) as -> by lra.
  auto with dec.
Qed.
End orders.

(** ** A concrete order: 2000 from the wallet, the rest by card *)
#[local] Existing Instance plain_bcrypt.
Definition year_month (now : Z) : string := "2026-01".
Definition customer_wallet (balance : Q) : WalletStore :=
  {| ws_wallets := {["w1" := {| w_userId := "c1"; w_availableBalance := balance; w_lockedBalance := 0;
       w_realBalance := balance; w_promoBalance := 0; w_status := WS_ACTIVE |}]};
     ws_entries := []; ws_ledger := [] |}.
Definition pay_store (bookings : gmap string Booking) (payments : gmap string Payment) (ws : WalletStore)
    : PayStore RedisMem :=
  {| ps_core := store_of bookings {| ms_payments := payments; ms_refunds := []; ms_audit := []; ms_wallets := ws |};
     ps_coupons := ∅; ps_usages := []; ps_invoices := []; ps_webhooks := [];
     ps_vendorDeposits := {| vds_deposits := ∅; vds_ledger := []; vds_policies := []; vds_requirement := None; vds_states := ∅;
                            vds_vendors := []; vds_audit := [] |} |}.
Definition gateway_entity (orderId : string) (paise : Z) : RazorpayPayment :=
  {| rp_order_id := Some orderId; rp_currency := Some "INR"; rp_status := "captured"; rp_amount := paise |}.
Definition live_env (paise : Z) : PayEnv :=
  {| pe_now := HOUR; pe_useMock := false; pe_hasWallets := true; pe_hasLedger := true; pe_hasInvoices := true;
     pe_walletConfig := None; pe_freshWalletId := "w9"; pe_freshPaymentId := "p1"; pe_journalId := "j1";
     pe_random := "x1"; pe_runtime := None; pe_createOrder := fun _ => Ok "order_g1";
     pe_signature := fun _ _ signature => Ok (String.eqb signature "sig");
     pe_fetch := fun _ => Ok (Some (gateway_entity "order_g1" paise)) |}.
Definition dto_1 : VerifyPaymentDto :=
  {| vp_bookingId := "b1"; vp_razorpayOrderId := "order_g1"; vp_razorpayPaymentId := "pay_1";
     vp_razorpaySignature := "sig" |}.
Definition open_store : PayStore RedisMem :=
  pay_store {["b1" := standard_rental BS_PENDING]} ∅ (customer_wallet 2000).
Definition order_run : result OrderResult * PayStore RedisMem :=
  createOrder (live_env 411800) "b1" "c1" true open_store.
Definition verify_run : result VerifyResult * PayStore RedisMem :=
  verifyPayment year_month (live_env 411800) dto_1 "c1" (snd order_run).

Lemma standard_payable : payable_fare (standard_rental BS_PENDING).
Proof.
  assert (forall n, whole_paise (inject_Z n)) as Hw.
  { intros n. exists (n * 100)%Z. rewrite inject_Z_mult. field. }
  constructor; try (vm_compute; discriminate); try reflexivity.
  - exact (Hw 1118%Z).
  - exact (Hw 100%Z).
  - exact (Hw 18%Z).
  - exact (Hw 1000%Z).
  - exact (Hw 5000%Z).
Qed.

Lemma order_then_verification_settles_witness :
  exists pid s2, verifyPayment year_month (live_env 411800) dto_1 "c1" (snd order_run) =
    (Ok {| vr_paymentId := pid; vr_already := false |}, s2) /\
    pm_status <$> payment_of "b1" s2 = Some PS_PAID.
Proof.
  destruct (order_then_verification_settles year_month (live_env 411800) (live_env 411800) "b1" "c1" true
    open_store {| or_orderId := "order_g1"; or_amount := 411800; or_isFullWallet := false;
                  or_walletApplied := 2000; or_promoApplied := 0; or_realApplied := 2000;
                  or_gatewayAmount := 4118 |} (snd order_run) dto_1) as (pid & s2 & wa & H1 & H2 & _).
  - apply (run_eq order_run). vm_compute. reflexivity.
  - reflexivity.
  - intros b Hb. vm_compute in Hb. injection Hb as <-. split_and!; [exact standard_payable|vm_compute; discriminate|reflexivity].
  - split; [reflexivity|reflexivity|vm_compute; reflexivity| |].
    + intros j e _ He. apply not_elem_of_nil in He as [].
    + intros i w Hi. exists 200000%Z. destruct (decide (i = "w1")) as [->|Hne].
      * vm_compute in Hi. injection Hi as <-. reflexivity.
      * change (ws_wallets (pay_wallets (snd order_run))) with (ws_wallets (customer_wallet 2000)) in Hi.
        simpl in Hi. rewrite lookup_singleton_ne in Hi by done. discriminate Hi.
  - split; [reflexivity|reflexivity|]. intros _. split_and!; [reflexivity|reflexivity|].
    exists (gateway_entity "order_g1" 411800). by split_and!.
  - exists pid, s2. by split.
Defined.

Lemma verification_collects_everything_witness :
  sd_status <$> (booking_of "b1" (snd verify_run) ≫= b_securityDeposit) = Some SD_HELD /\
  pay_slots (snd verify_run) = pay_slots (snd order_run).
Proof.
  destruct (verification_collects_everything year_month (live_env 411800) dto_1 "c1" (snd order_run)
    {| vr_paymentId := "p1"; vr_already := false |} (snd verify_run))
    as (b & p & g & w & Hb & _ & _ & _ & _ & _ & _ & _ & _ & Hd & Hs).
  - apply (run_eq verify_run). vm_compute. reflexivity.
  - reflexivity.
  - split; [|exact Hs]. apply Hd. vm_compute in Hb. injection Hb as <-. by eexists.
Defined.

(** Two requests that both read the unpaid payment: a second payment id. *)
Definition dto_2 : VerifyPaymentDto :=
  {| vp_bookingId := "b1"; vp_razorpayOrderId := "order_g1"; vp_razorpayPaymentId := "pay_2";
     vp_razorpaySignature := "sig" |}.
Definition ordered_payment : Payment :=
  {| pm_id := "p1"; pm_amount := 6118; pm_status := PS_CREATED; pm_gatewayProvider := "RAZORPAY";
     pm_paymentMethod := None; pm_razorpayOrderId := Some "order_g1"; pm_razorpayPaymentId := None;
     pm_razorpayRefundId := None; pm_refundAmount := None; pm_refundStatus := RS_NONE |}.
Definition settle_run (dto : VerifyPaymentDto) (s : PayStore RedisMem)
    : result (option Booking) * PayStore RedisMem :=
  settlePayment year_month (live_env 411800) dto (standard_rental BS_PENDING) ordered_payment 4118 2000 s.
Definition first_settlement : result (option Booking) * PayStore RedisMem := settle_run dto_1 (snd order_run).
Definition second_settlement : result (option Booking) * PayStore RedisMem :=
  transaction (settle_run dto_2) (snd first_settlement).

Lemma second_settlement_moves_nothing_witness :
  exists o, fst first_settlement = Ok o /\
    pay_wallets (snd second_settlement) = pay_wallets (snd first_settlement).
Proof.
  destruct (fst first_settlement) as [o|] eqn:E; [|vm_compute in E; discriminate E].
  exists o. split; [reflexivity|].
  destruct (second_settlement_moves_nothing year_month (live_env 411800) (live_env 411800) dto_1 dto_2
    (standard_rental BS_PENDING) ordered_payment 4118 2000 (snd order_run) o (snd first_settlement)
    (fst second_settlement) (snd second_settlement)) as (H & _).
  - rewrite <- E. exact (surjective_pairing first_settlement).
  - reflexivity.
  - reflexivity.
  - exact (surjective_pairing second_settlement).
  - exact H.
Defined.

Lemma payment_journal_posts_witness :
  exists entries, recordJournal 0 "j1" true
    (paymentJournal "b1" (standard_rental BS_PENDING) ordered_payment 6118 4118 2000 false) [] =
    (Ok {| jr_journalId := "jrn_j1"; jr_entries := entries; jr_isDuplicate := false |}, entries).
Proof.
  destruct (payment_journal_posts 0 "j1" "b1" (standard_rental BS_PENDING) ordered_payment 4118 2000 false [])
    as [(_ & _ & _ & entries & H)|[H _]].
  - exact standard_payable.
  - exists 411800%Z. reflexivity.
  - vm_compute. discriminate.
  - vm_compute. discriminate.
  - reflexivity.
  - intros j e _ He. apply not_elem_of_nil in He as [].
  - exists entries. exact H.
  - vm_compute in H. discriminate H.
Defined.

(** ** What goes wrong *)

(** A coupon of 300 on a fare whose platform fee is 100: the payment's journal
    does not balance, so the booking cannot be paid. *)
Definition discounted : Booking := rental "car1" BS_PENDING 1000 100 18 818 5000.
Definition discounted_store : PayStore RedisMem :=
  pay_store {["b1" := discounted]} {["b1" := ordered_payment]} (customer_wallet 0).
Lemma discounted_booking_cannot_be_paid :
  fst (verifyPayment year_month (live_env 581800) dto_1 "c1" discounted_store) =
    Throw UnbalancedJournalException.
Proof. vm_compute. reflexivity. Qed.

(** Verification does not look at the booking's status. *)
Lemma cancelled_booking_can_be_paid :
  let s := pay_store {["b1" := standard_rental BS_CANCELLED]} {["b1" := ordered_payment]} (customer_wallet 0) in
  let run := verifyPayment year_month (live_env 611800) dto_1 "c1" s in
  is_Ok (fst run) = true /\ pm_status <$> payment_of "b1" (snd run) = Some PS_PAID /\
  b_status <$> booking_of "b1" (snd run) = Some BS_CANCELLED.
Proof. vm_compute. done. Qed.

(** A new order resets a payment that was captured; the state machine of the
    same file does not have the step. *)
Lemma order_resets_captured_payment :
  let captured := with_status_and_id ordered_payment PS_CAPTURED (Some "pay_1") in
  let s := pay_store {["b1" := standard_rental BS_PENDING]} {["b1" := captured]} (customer_wallet 0) in
  let run := createOrder (live_env 0) "b1" "c1" false s in
  is_Ok (fst run) = true /\ pm_status <$> payment_of "b1" (snd run) = Some PS_CREATED /\
  PS_CREATED ∉ validTransitions PS_CAPTURED.
Proof.
  split; [vm_compute; reflexivity|]. split; [vm_compute; reflexivity|].
  simpl. intros H. repeat (apply elem_of_cons in H as [H|H]; [discriminate H|]). by apply not_elem_of_nil in H.
Qed.
