(* ===== verification/PaymentWebhook.v ===== *)
(** * Gateway webhooks: [handleWebhook] of payments/payments.service.ts

    One endpoint for Razorpay, Cashfree and Stripe.  The parsed payload and
    the headers are records of the fields the handler reads; HMACs, the hash,
    [JSON.parse] and Razorpay's signature check are arguments.  Notifications
    are left out. *)
From S2P Require Import Prelude JsNumber Decimal Schema Ledger Wallet Locks HandoverOtp.
From S2P Require Import CancellationPolicy Commission PaymentRefund Outbox BookingStore.
From S2P Require Import BookingLifecycle LifecycleMoney DepositStore Payments PaymentOrders.
From stdpp Require Import pretty.
Open Scope Z_scope.
Open Scope Q_scope.

(** [payload.payload.payment.entity]; an [order_id] of [None] is [null]. *)
Record PaymentEntity : Type := {
  pe_order_id : option string;
  pe_id : option string;
  pe_amount : option Q;
  pe_currency : option string;
}.
(** [payload.payload.refund.entity] *)
Record RefundEntity : Type := {
  re_id : string;
  re_payment_id : string;
  re_amount : Z;
}.
Record WebhookPayload : Type := {
  wp_event : option string;
  wp_type : option string;
  wp_object : option string;
  wp_event_id : option string;
  wp_id : option string;
  wp_payment : option PaymentEntity;
  wp_refund : option RefundEntity;
  wp_order_order_id : option string;       (* data.order *)
  wp_order_amount : option Q;
  wp_order_currency : option string;
  wp_cf_payment_id : option string;        (* data.payment *)
  wp_object_id : option string;            (* data.object *)
  wp_object_orderId : option string;
  wp_object_amount : option Q;
  wp_object_currency : option string;
}.
Record WebhookHeaders : Type := {
  hd_webhook_signature : option string;
  hd_cf_signature : option string;
  hd_stripe_signature : option string;
  hd_webhook_timestamp : option string;
  hd_event_ids : list (option string);     (* x-razorpay-event-id, x-webhook-id, stripe-event-id, x-event-id *)
}.

Record WebhookEnv : Type := {
  we_pay : PayEnv;
  we_cfSecret : string;
  we_stripeSecret : string;
  we_hmacBase64 : string -> string -> string;
  we_hmacHex : string -> string -> string;
  we_sha256 : string -> string;
  we_razorpayValid : string -> string -> bool;
  we_parse : string -> option WebhookPayload;
}.

Inductive WebhookReply : Type :=
  | Received | Duplicate | AlreadyProcessed | VendorDepositProcessed | PaymentNotFound.
#[export] Instance WebhookReply_eq_dec : EqDecision WebhookReply.
Proof. solve_decision. Defined.

Inductive Gateway : Type := RAZORPAY | CASHFREE | STRIPE.
#[export] Instance Gateway_eq_dec : EqDecision Gateway.
Proof. solve_decision. Defined.
Definition gatewayName (g : Gateway) : string :=
  match g with RAZORPAY => "RAZORPAY" | CASHFREE => "CASHFREE" | STRIPE => "STRIPE" end.

(** [a || b || ...] on optional strings *)
Definition present (o : option string) : bool := match truthy o with Some _ => true | None => false end.
Fixpoint firstTruthy (l : list (option string)) : option string :=
  match l with
  | [] => None
  | o :: l' => match truthy o with Some s => Some s | None => firstTruthy l' end
  end.
Fixpoint firstNonZero (l : list (option Q)) : option Q :=
  match l with
  | [] => None
  | Some q :: l' => if Qeq_bool q 0 then firstNonZero l' else Some q
  | None :: l' => firstNonZero l'
  end.
Definition starts (p : string) (o : option string) : bool :=
  match o with Some s => startsWith p s | None => false end.

Definition detectGateway (payload : WebhookPayload) (headers : option WebhookHeaders) : Gateway :=
  let isCashfree :=
    match headers with
    | Some h => present (hd_webhook_signature h) || present (hd_cf_signature h)
    | None => false
    end || starts "PAYMENT_" (wp_type payload) || present (wp_order_order_id payload) in
  let isStripe :=
    match headers with Some h => present (hd_stripe_signature h) | None => false end ||
    bool_decide (wp_object payload = Some "event") || starts "payment_intent." (wp_type payload) in
  if isCashfree then CASHFREE else if isStripe then STRIPE else RAZORPAY.

(** The fields of Stripe's signature header: the last one of a name counts. *)
Definition stripeField (name signature : string) : option string :=
  match List.find (fun parts => bool_decide (parts !! 0%nat = Some name))
          (reverse (map (split_on (Ascii.ascii_of_nat 61)) (split_on (Ascii.ascii_of_nat 44) signature))) with
  | Some parts => parts !! 1%nat
  | None => None
  end.

Definition secretSet (secret : string) : bool :=
  negb (String.eqb secret "") && negb (startsWith "placeholder" secret).

Definition webhookSignatureValid (env : WebhookEnv) (gateway : Gateway) (rawBody signature : string)
    (headers : option WebhookHeaders) : bool :=
  if pe_useMock (we_pay env) && String.eqb signature "mock_signature" then true
  else
    match gateway with
    | CASHFREE =>
      if secretSet (we_cfSecret env) then
        let ts := match headers with Some h => str_or (hd_webhook_timestamp h) "" | None => "" end in
        String.eqb signature (we_hmacBase64 env (we_cfSecret env) (ts +:+ rawBody)) ||
        String.eqb signature "mock_signature"
      else true
    | STRIPE =>
      if secretSet (we_stripeSecret env) && negb (String.eqb signature "mock_signature") then
        match truthy (stripeField "t" signature), truthy (stripeField "v1" signature) with
        | Some t, Some v1 => String.eqb v1 (we_hmacHex env (we_stripeSecret env) (t +:+ "." +:+ rawBody))
        | _, _ => true
        end
      else true
    | RAZORPAY => we_razorpayValid env rawBody signature
    end.

Definition eventName (payload : WebhookPayload) : string :=
  default "payment.captured" (firstTruthy [wp_event payload; wp_type payload]).
Definition eventIdOf (env : WebhookEnv) (payload : WebhookPayload) (headers : option WebhookHeaders)
    (rawBody : string) : string :=
  default (we_sha256 env rawBody)
    (firstTruthy (match headers with Some h => hd_event_ids h | None => [] end ++
                  [wp_event_id payload; wp_id payload])).

Definition isPaymentSuccessEvent (event : string) : bool :=
  existsb (String.eqb event)
    ["payment.captured"; "order.paid"; "PAYMENT_SUCCESS_WEBHOOK"; "payment_intent.succeeded"].

Definition entityField {A} (f : PaymentEntity -> option A) (payload : WebhookPayload) : option A :=
  match wp_payment payload with Some e => f e | None => None end.
Definition webhookOrderId (payload : WebhookPayload) : option string :=
  firstTruthy [entityField pe_order_id payload; wp_order_order_id payload; wp_object_orderId payload;
               wp_object_id payload].
Definition webhookPaymentId (now : Z) (payload : WebhookPayload) : string :=
  default ("pay_" +:+ pretty now)
    (firstTruthy [entityField pe_id payload; wp_cf_payment_id payload; wp_object_id payload]).
Definition webhookAmount (payload : WebhookPayload) : option Q :=
  firstNonZero [entityField pe_amount payload;
                match firstNonZero [wp_order_amount payload] with
                | Some a => Some (inject_Z (js_round (js_mul a 100)))
                | None => None
                end;
                wp_object_amount payload].
Definition webhookCurrency (payload : WebhookPayload) : string :=
  default "INR" (firstTruthy [entityField pe_currency payload; wp_order_currency payload;
                              wp_object_currency payload]).

Section webhook.
Context {R : Type} {col : NumericColumn} {dec : DecimalArith}.
Abbreviation PM := (M (PayStore R)).

(** [payment.findFirst]: some row that matches. *)
Definition findPayment (matches : Payment -> bool) (s : PayStore R) : option (string * Payment) :=
  List.find (fun p => matches (snd p)) (map_to_list (ms_payments (pay_money s))).

Definition markProcessed (eventId : string) : PM unit :=
  modify (fun s => set_webhooks (map (fun e =>
    if String.eqb (wh_eventId e) eventId
    then {| wh_eventId := wh_eventId e; wh_gateway := wh_gateway e; wh_eventType := wh_eventType e;
            wh_status := WH_PROCESSED |}
    else e) (ps_webhooks s)) s).

(** ** Vendors' security deposits *)
Definition findVendorDeposit (orderId paymentId : string) (v : VendorDeposits)
    : option (string * VendorSecurityDeposit) :=
  List.find (fun d => bool_decide (vsd_providerOrderId (snd d) = Some orderId) ||
                      bool_decide (vsd_providerPaymentId (snd d) = Some paymentId))
    (map_to_list (vds_deposits v)).

(** The transaction of a deposit that is not PAID yet: amounts are written,
    whatever was captured; [idempotencyKey] is unique. *)
Definition settleVendorDeposit (depositId orderId paymentId : string) (d : VendorSecurityDeposit)
    : M VendorDeposits unit :=
  let depositAmount := rnd (vsd_requiredAmount d) in
  updateDeposit depositId (fun d0 =>
    deposit_provider (vsd_provider d0) (vsd_policyVersion d0) (vsd_providerOrderId d0) (Some paymentId)
      (deposit_set (vsd_requiredAmount d0) (store depositAmount) 0 VD_PAID d0)) ;;
  v ← get;
  when (negb (existsb (fun e => String.eqb (vde_reference e) paymentId) (vds_ledger v)))
    (createDepositEntry {| vde_depositId := depositId; vde_amount := store depositAmount; vde_direction := DIR_CREDIT;
       vde_balanceBefore := store (rnd (vsd_paidAmount d)); vde_balanceAfter := store depositAmount;
       vde_transactionType := VT_INITIAL_PAYMENT; vde_reference := paymentId;
       vde_idempotencyKey := "wh_" +:+ paymentId |} ;; mret tt) ;;
  upsertRequirement (vsd_vendorId d) RF_APPROVED.

(** ** A payment that was captured *)
Definition captureTransaction (env : PayEnv) (bookingId : string) (payment : Payment) (paymentId : string)
    : PM (option Booking) :=
  updatePayment bookingId payment PS_PAID (Some paymentId) ;;
  recordPaymentAuditLog (pm_id payment) "WEBHOOK_PAYMENT_CAPTURED" (Some (pm_status payment)) PS_PAID
    (Some (pm_amount payment)) (Some paymentId) "WEBHOOK" ;;
  s ← get;
  match booking_of bookingId s with
  | Some b =>
    recordPaymentLedgerJournal env bookingId b payment (totalExpectedOf b) (totalExpectedOf b) 0 false ;;
    try_catch (createPaymentEvent env bookingId b payment "PAYMENT_CAPTURED"
                 ("evt_pay_captured_" +:+ pm_id payment +:+ "_" +:+ pretty (pe_now env)) "SYSTEM")
      (fun _ => mret tt) ;;
    mret (Some b)
  | None => mret None
  end.

Definition handleCaptured (env : PayEnv) (payload : WebhookPayload) (eventId : string) : PM WebhookReply :=
  match webhookOrderId payload with
  | None => mret Received
  | Some orderId =>
    let paymentId := webhookPaymentId (pe_now env) payload in
    s ← get;
    match findPayment (fun p => bool_decide (pm_razorpayOrderId p = Some orderId) ||
                                bool_decide (pm_razorpayPaymentId p = Some paymentId) ||
                                String.eqb (pm_id p) orderId) s with
    | None =>
      match findVendorDeposit orderId paymentId (ps_vendorDeposits s) with
      | Some (depositId, d) =>
        when (negb (bool_decide (vsd_status d = VD_PAID)))
          (transaction (zoom ps_vendorDeposits set_vendorDeposits
                          (settleVendorDeposit depositId orderId paymentId d))) ;;
        mret VendorDepositProcessed
      | None => mret PaymentNotFound
      end
    | Some (bookingId, payment) =>
      if negb (isINR (webhookCurrency payload)) then mret Received
      else if match webhookAmount payload with
              | Some amount => negb (Qeq_bool amount (inject_Z (toPaise (pm_amount payment))))
              | None => false
              end then mret Received
      else if bool_decide (pm_status payment = PS_PAID) then
        markProcessed eventId ;; mret AlreadyProcessed
      else
        transaction (captureTransaction env bookingId payment paymentId) ;;
        markProcessed eventId ;;
        mret Received
    end
  end.

(** ** Failed, authorized, refunded *)
Definition findByOrder (orderId : option string) : PayStore R -> option (string * Payment) :=
  findPayment (fun p => bool_decide (pm_razorpayOrderId p = orderId)).
Definition findByRefund (r : RefundEntity) : PayStore R -> option (string * Payment) :=
  findPayment (fun p => bool_decide (pm_razorpayRefundId p = Some (re_id r)) ||
                        bool_decide (pm_razorpayPaymentId p = Some (re_payment_id r))).

Definition handleFailed (payload : WebhookPayload) : PM WebhookReply :=
  match wp_payment payload with
  | None => mret Received
  | Some e =>
    s ← get;
    match findByOrder (pe_order_id e) s with
    | Some (bookingId, payment) =>
      when (negb (bool_decide (pm_status payment = PS_PAID)) && negb (bool_decide (pm_status payment = PS_REFUNDED)))
        (updatePayment bookingId payment PS_FAILED (pe_id e) ;;
         recordPaymentAuditLog (pm_id payment) "WEBHOOK_PAYMENT_FAILED" (Some (pm_status payment)) PS_FAILED
           None (pe_id e) "WEBHOOK")
    | None => mret tt
    end ;;
    mret Received
  end.

Definition handleAuthorized (payload : WebhookPayload) : PM WebhookReply :=
  match wp_payment payload with
  | None => mret Received
  | Some e =>
    s ← get;
    match findByOrder (pe_order_id e) s with
    | Some (bookingId, payment) =>
      when (bool_decide (pm_status payment = PS_CREATED))
        (updatePayment bookingId payment PS_AUTHORIZED (pe_id e) ;;
         recordPaymentAuditLog (pm_id payment) "WEBHOOK_PAYMENT_AUTHORIZED" (Some PS_CREATED) PS_AUTHORIZED
           None (pe_id e) "WEBHOOK")
    | None => mret tt
    end ;;
    mret Received
  end.

Definition with_refund (p : Payment) (st : PaymentStatus) (refundId : option string) (amount : option Q)
    (refundStatus : RefundStatus) : Payment :=
  {| pm_id := pm_id p; pm_amount := pm_amount p; pm_status := st;
     pm_gatewayProvider := pm_gatewayProvider p; pm_paymentMethod := pm_paymentMethod p;
     pm_razorpayOrderId := pm_razorpayOrderId p; pm_razorpayPaymentId := pm_razorpayPaymentId p;
     pm_razorpayRefundId := refundId; pm_refundAmount := amount; pm_refundStatus := refundStatus |}.

(** [razorpayRefundId] is unique. *)
Definition refundIdTaken (bookingId refundId : string) (payments : gmap string Payment) : bool :=
  existsb (fun p => negb (String.eqb (fst p) bookingId) &&
                    bool_decide (pm_razorpayRefundId (snd p) = Some refundId)) (map_to_list payments).

Definition updateRefund (bookingId refundId : string) (p : Payment) : PM unit :=
  s ← get;
  require (negb (refundIdTaken bookingId refundId (ms_payments (pay_money s)))) PrismaP2002 ;;
  zoom pay_money set_pay_money (modify (set_payment bookingId p)).

Definition handleRefundProcessed (payload : WebhookPayload) : PM WebhookReply :=
  match wp_refund payload with
  | None => mret Received
  | Some r =>
    s ← get;
    match findByRefund r s with
    | Some (bookingId, payment) =>
      if bool_decide (pm_refundStatus payment = RS_PROCESSED) then mret AlreadyProcessed
      else
        let refundRupees := refundRupeesOf (re_amount r) in
        updateRefund bookingId (re_id r)
          (with_refund payment PS_REFUNDED (Some (re_id r)) (Some (store refundRupees)) RS_PROCESSED) ;;
        recordPaymentAuditLog (pm_id payment) "WEBHOOK_REFUND_PROCESSED" (Some (pm_status payment)) PS_REFUNDED
          (Some refundRupees) (Some (re_id r)) "WEBHOOK" ;;
        mret Received
    | None => mret Received
    end
  end.

Definition handleRefundCreated (payload : WebhookPayload) : PM WebhookReply :=
  match wp_refund payload with
  | None => mret Received
  | Some r =>
    s ← get;
    match findByRefund r s with
    | Some (bookingId, payment) =>
      when (negb (bool_decide (pm_refundStatus payment = RS_PROCESSED)))
        (let refundRupees := refundRupeesOf (re_amount r) in
         updateRefund bookingId (re_id r)
           (with_refund payment (pm_status payment) (Some (re_id r)) (Some (store refundRupees)) RS_PENDING) ;;
         recordPaymentAuditLog (pm_id payment) "WEBHOOK_REFUND_CREATED" (Some (pm_status payment))
           (pm_status payment) (Some refundRupees) (Some (re_id r)) "WEBHOOK")
    | None => mret tt
    end ;;
    mret Received
  end.

Definition handleRefundFailed (payload : WebhookPayload) : PM WebhookReply :=
  match wp_refund payload with
  | None => mret Received
  | Some r =>
    s ← get;
    match findByRefund r s with
    | Some (bookingId, payment) =>
      zoom pay_money set_pay_money (modify (set_payment bookingId
        (with_refund payment (pm_status payment) (pm_razorpayRefundId payment) (pm_refundAmount payment)
           RS_FAILED)))
    | None => mret tt
    end ;;
    mret Received
  end.

Definition dispatchWebhook (env : PayEnv) (payload : WebhookPayload) (eventId : string) : PM WebhookReply :=
  let event := eventName payload in
  if isPaymentSuccessEvent event then handleCaptured env payload eventId
  else if String.eqb event "payment.failed" then handleFailed payload
  else if String.eqb event "payment.authorized" then handleAuthorized payload
  else if String.eqb event "refund.processed" then handleRefundProcessed payload
  else if String.eqb event "refund.created" then handleRefundCreated payload
  else if String.eqb event "refund.failed" then handleRefundFailed payload
  else mret Received.

(** The event is recorded first: [eventId] is unique, and a second delivery
    stops here. *)
Definition handleWebhook (env : WebhookEnv) (rawBody signature : string) (headers : option WebhookHeaders)
    : PM WebhookReply :=
  payload ← from_option_or (we_parse env rawBody) OtherError;
  let gateway := detectGateway payload headers in
  require (webhookSignatureValid env gateway rawBody signature headers) BadRequestException ;;
  let eventId := eventIdOf env payload headers rawBody in
  s ← get;
  if existsb (fun e => String.eqb (wh_eventId e) eventId) (ps_webhooks s) then mret Duplicate
  else
    modify (set_webhooks (ps_webhooks s ++
      [{| wh_eventId := eventId; wh_gateway := gatewayName gateway; wh_eventType := eventName payload;
          wh_status := WH_RECEIVED |}])) ;;
    dispatchWebhook (we_pay env) payload eventId.
End webhook.

(** ** Properties *)
Section webhook_laws.
Context {R : Type} {col : NumericColumn} {dec : DecimalArith}.
Implicit Types s : PayStore R.

(** The events recorded so far; none is ever removed. *)
Definition seen (eventId : string) s : bool :=
  existsb (fun e => String.eqb (wh_eventId e) eventId) (ps_webhooks s).

(** What no webhook undoes: recorded events and the bookings' slots. *)
Definition steady (eventId : string) (X : gmap string Slot) s : Prop :=
  seen eventId s = true /\ pay_slots s = X.

Section steady.
Variable id : string.
Variable X : gmap string Slot.
Abbreviation stays m := (preserves (steady id X) m).

Lemma steady_mark id' : stays (markProcessed (R:=R) id').
Proof.
  intros s r s' [= _ <-] [Hs HX]. split; [|done]. rewrite <- Hs. unfold seen. simpl. clear.
  induction (ps_webhooks s) as [|e l IH]; [done|]. simpl. rewrite IH.
  by destruct (String.eqb (wh_eventId e) id').
Qed.
Lemma steady_updatePayment bid p st pid : stays (updatePayment (R:=R) bid p st pid).
Proof.
  intros s r s' H Hs. unfold updatePayment in H. step_in H. destruct (payment_of bid s); [|by injection H as _ <-].
  step_in H. destruct (String.eqb _ _); by injection H as _ <-.
Qed.
Lemma steady_audit pid ty f t a ref src : stays (recordPaymentAuditLog (R:=R) pid ty f t a ref src).
Proof. by intros s r s' [= _ <-]. Qed.
Lemma steady_journal env bid b p tot g w full : stays (recordPaymentLedgerJournal (R:=R) env bid b p tot g w full).
Proof. apply preserves_when, preserves_zoom. done. Qed.
Lemma steady_updateRefund bid rid p : stays (updateRefund (R:=R) bid rid p).
Proof.
  intros s r s' H Hs. unfold updateRefund in H. step_in H. destruct (negb _); by injection H as _ <-.
Qed.
Lemma steady_event env bid b p ty corr actor : stays (createPaymentEvent (R:=R) env bid b p ty corr actor).
Proof. intros s r s' H Hs. rewrite createPaymentEvent_throws in H. by injection H as _ <-. Qed.
Lemma steady_vendor {A} (m : M VendorDeposits A) : stays (zoom (S:=PayStore R) ps_vendorDeposits set_vendorDeposits m).
Proof. by apply preserves_zoom. Qed.
Lemma steady_money f : stays (zoom (S:=PayStore R) pay_money set_pay_money (modify f)).
Proof. by apply preserves_zoom. Qed.
Lemma steady_get {B} (k : PayStore R -> M (PayStore R) B) : (forall t, stays (k t)) -> stays (s ← get; k s).
Proof. intros H. apply preserves_get. intros s r s' Hs E. by eapply H. Qed.
#[local] Hint Resolve steady_mark steady_updatePayment steady_audit steady_journal steady_updateRefund
  steady_event steady_vendor steady_money steady_get : preserves.
#[local] Hint Extern 5 (preserves _ (match ?x with _ => _ end)) => destruct x : preserves.

Lemma steady_capture env bid p pid : stays (captureTransaction (R:=R) env bid p pid).
Proof. unfold captureTransaction. auto 12 with preserves. Qed.
Lemma steady_dispatch env payload eid : stays (dispatchWebhook (R:=R) env payload eid).
Proof.
  unfold dispatchWebhook, handleCaptured, handleFailed, handleAuthorized, handleRefundProcessed,
    handleRefundCreated, handleRefundFailed. cbv zeta.
  auto 20 using steady_capture with preserves.
Qed.
End steady.

(** A delivery that is parsed and accepted. *)
Definition accepted (env : WebhookEnv) (raw signature : string) (headers : option WebhookHeaders)
    (eventId : string) : Prop :=
  exists payload, we_parse env raw = Some payload /\
    webhookSignatureValid env (detectGateway payload headers) raw signature headers = true /\
    eventIdOf env payload headers raw = eventId.

Definition webhook_step (s s' : PayStore R) : Prop :=
  exists env raw signature headers r, handleWebhook env raw signature headers s = (r, s').

Lemma steady_webhook id X env raw signature headers :
  preserves (steady id X) (handleWebhook (R:=R) env raw signature headers).
Proof.
  intros s r s' H [Hs HX]. unfold handleWebhook in H. step_in H.
  destruct (we_parse env raw) as [payload|]; [|by injection H as _ <-]. step_in H.
  destruct (webhookSignatureValid _ _ _ _ _); [|by injection H as _ <-]. step_in H.
  destruct (existsb _ _); [by injection H as _ <-|]. step_in H.
  eapply steady_dispatch; [exact H|]. split; [|done]. unfold seen in *. simpl. by rewrite existsb_app, Hs.
Qed.

Lemma accepted_run env raw signature headers id s : accepted env raw signature headers id ->
  exists payload, we_parse env raw = Some payload /\
    handleWebhook env raw signature headers s =
      if seen id s then (Ok Duplicate, s)
      else dispatchWebhook (we_pay env) payload id (set_webhooks (ps_webhooks s ++
        [{| wh_eventId := id; wh_gateway := gatewayName (detectGateway payload headers);
            wh_eventType := eventName payload; wh_status := WH_RECEIVED |}]) s).
Proof.
  intros (payload & Hp & Hv & Hid). exists payload. split; [done|]. unfold handleWebhook. step. rewrite Hp. step.
  rewrite Hv. step. unfold seen. rewrite Hid. by destruct (existsb _ _).
Qed.

(** C33. A webhook takes effect once.  After a delivery of an event has been accepted, whatever came of it and however many other deliveries follow, every further delivery of an event with that id is answered as a duplicate and changes nothing; no delivery at all changes which vehicle and period a booking occupies. *)
Theorem webhook_takes_effect_once env raw signature headers s r s' s'' id env' raw' signature' headers' :
  handleWebhook env raw signature headers s = (r, s') -> accepted env raw signature headers id ->
  rtc webhook_step s' s'' -> accepted env' raw' signature' headers' id ->
  handleWebhook env' raw' signature' headers' s'' = (Ok Duplicate, s'') /\ pay_slots s'' = pay_slots s.
Proof.
  intros H Ha Hsteps Ha'.
  assert (steady id (pay_slots s) s') as Hs'.
  { destruct (accepted_run _ _ _ _ _ s Ha) as (payload & _ & Hrun). rewrite Hrun in H.
    destruct (seen id s) eqn:E; [by injection H as _ <-|]. eapply steady_dispatch; [exact H|].
    split; [|done]. unfold seen. simpl. rewrite existsb_app. simpl. by rewrite String.eqb_refl, orb_true_r. }
  assert (steady id (pay_slots s) s'') as [Hs HX].
  { eapply (rtc_invariant webhook_step (steady id (pay_slots s))); [|exact Hsteps|exact Hs'].
    intros a b (e & w & sg & h & r0 & Hr) Hst. by apply (steady_webhook _ _ _ _ _ _ _ _ _ Hr). }
  split; [|done]. destruct (accepted_run _ _ _ _ _ s'' Ha') as (payload & _ & ->). by rewrite Hs.
Qed.

(** ** Which webhooks pay *)
Section unpaid.
Variable bid : string.
Definition unpaid s : Prop := pm_status <$> payment_of bid s <> Some PS_PAID.

Lemma find_payment_of m b p s : findPayment m s = Some (b, p) -> payment_of b s = Some p /\ m p = true.
Proof.
  unfold findPayment. intros [Hin Hm]%find_Some_elem. by apply elem_of_map_to_list in Hin.
Qed.

Lemma unpaid_insert b p s : (b = bid -> pm_status p <> PS_PAID) -> unpaid s ->
  unpaid (set_pay_money (set_payment b p (pay_money s)) s).
Proof.
  unfold unpaid, payment_of. simpl. intros Hp Hu. destruct (decide (b = bid)) as [->|Hne].
  - rewrite lookup_insert_eq. simpl. intros [= E]. by apply Hp.
  - by rewrite lookup_insert_ne.
Qed.

Lemma unpaid_updatePayment b p st pid : (b = bid -> st <> PS_PAID) ->
  preserves unpaid (updatePayment (R:=R) b p st pid).
Proof.
  intros Hst s r s' H Hs. unfold updatePayment in H. step_in H. destruct (payment_of b s); [|by injection H as _ <-].
  step_in H. destruct (String.eqb _ _); injection H as _ <-; [by apply unpaid_insert|done].
Qed.
Lemma unpaid_audit pid ty f t a ref src : preserves unpaid (recordPaymentAuditLog (R:=R) pid ty f t a ref src).
Proof. by intros s r s' [= _ <-]. Qed.
Lemma unpaid_mark id' : preserves unpaid (markProcessed (R:=R) id').
Proof. by intros s r s' [= _ <-]. Qed.
Lemma unpaid_journal env b bk p tot g w full :
  preserves unpaid (recordPaymentLedgerJournal (R:=R) env b bk p tot g w full).
Proof. apply preserves_when, preserves_zoom. done. Qed.
Lemma unpaid_event env b bk p ty corr actor : preserves unpaid (createPaymentEvent (R:=R) env b bk p ty corr actor).
Proof. intros s r s' H Hs. rewrite createPaymentEvent_throws in H. by injection H as _ <-. Qed.
Lemma unpaid_vendor {A} (m : M VendorDeposits A) :
  preserves unpaid (zoom (S:=PayStore R) ps_vendorDeposits set_vendorDeposits m).
Proof. by apply preserves_zoom. Qed.
Lemma unpaid_updateRefund b rid p : (b = bid -> pm_status p <> PS_PAID) ->
  preserves unpaid (updateRefund (R:=R) b rid p).
Proof.
  intros Hp s r s' H Hs. unfold updateRefund in H. step_in H.
  destruct (negb _); injection H as _ <-; [by apply unpaid_insert|done].
Qed.
Lemma unpaid_set b p : (b = bid -> pm_status p <> PS_PAID) ->
  preserves unpaid (zoom (S:=PayStore R) pay_money set_pay_money (modify (set_payment b p))).
Proof. intros Hp s r s' [= _ <-] Hs. by apply unpaid_insert. Qed.

(** A payment that was read has the stored status. *)
Lemma found_unpaid m s b p : findPayment m s = Some (b, p) -> unpaid s -> b = bid -> pm_status p <> PS_PAID.
Proof. intros [E _]%find_payment_of Hu -> Hp. apply Hu. rewrite E. simpl. by rewrite Hp. Qed.

#[local] Hint Resolve unpaid_audit unpaid_mark unpaid_journal unpaid_event unpaid_vendor unpaid_set
  unpaid_updateRefund unpaid_updatePayment : preserves.
#[local] Hint Extern 1 (_ <> _) => discriminate : preserves.

(** Runs [s ← get; match find s with ...], keeping the found row's status. *)
Ltac read_payment :=
  apply preserves_get; let t := fresh "t" in let Ht := fresh "Ht" in let H := fresh "H" in
  intros t ? ? Ht H;
  let Hk := fresh "Hk" in
  match type of H with ?m _ = _ => assert (preserves unpaid m) as Hk; [|exact (Hk _ _ _ H Ht)] end;
  clear H; match goal with |- context [match ?f with Some _ => _ | None => _ end] =>
    let E := fresh "E" in destruct f as [[? ?]|] eqn:E end;
  [match goal with E : _ = Some _ |- _ => pose proof (found_unpaid _ _ _ _ E Ht) end|].

Lemma unpaid_others env payload eid : isPaymentSuccessEvent (eventName payload) = false ->
  preserves unpaid (dispatchWebhook (R:=R) env payload eid).
Proof.
  intros Hev. unfold dispatchWebhook. rewrite Hev.
  assert (preserves unpaid (handleFailed (R:=R) payload)) by
    (unfold handleFailed; destruct (wp_payment payload); [read_payment|]; auto 8 with preserves).
  assert (preserves unpaid (handleAuthorized (R:=R) payload)) by
    (unfold handleAuthorized; destruct (wp_payment payload); [read_payment|]; auto 8 with preserves).
  assert (preserves unpaid (handleRefundProcessed (R:=R) payload)) by
    (unfold handleRefundProcessed; destruct (wp_refund payload); [read_payment; [case_bool_decide|]|];
     auto 8 with preserves).
  assert (preserves unpaid (handleRefundCreated (R:=R) payload)) by
    (unfold handleRefundCreated; destruct (wp_refund payload); [read_payment|]; auto 8 with preserves).
  assert (preserves unpaid (handleRefundFailed (R:=R) payload)) by
    (unfold handleRefundFailed; destruct (wp_refund payload); [read_payment|]; auto 8 with preserves).
  repeat case_match; auto with preserves.
Qed.

Lemma unpaid_capture env b p pid : b <> bid -> preserves unpaid (captureTransaction (R:=R) env b p pid).
Proof.
  intros Hne. unfold captureTransaction.
  apply preserves_bind; [apply unpaid_updatePayment; done|intros _].
  apply preserves_bind; [auto with preserves|intros _]. apply preserves_get. intros t r t' Ht H.
  destruct (booking_of b t); [|by injection H as _ <-]. revert H Ht.
  apply preserves_bind; [auto with preserves|intros _]. apply preserves_bind; [|auto with preserves].
  apply preserves_try_catch; auto with preserves.
Qed.

(** What a captured payment writes. *)
Lemma captureTransaction_Ok env b p pid s o s' : captureTransaction (R:=R) env b p pid s = (Ok o, s') ->
  payment_of b s = Some p ->
  payment_of b s' = Some (with_status_and_id p PS_PAID (Some pid)) /\
  ws_entries (pay_wallets s') = ws_entries (pay_wallets s) /\
  ws_wallets (pay_wallets s') = ws_wallets (pay_wallets s) /\
  (is_Some (booking_of b s) -> pe_hasLedger env = true ->
   is_Some (List.find (by_key (journalKey b)) (pay_ledger s'))).
Proof.
  intros H Hp. unfold captureTransaction in H.
  apply bind_Ok in H as (? & s1 & Hu & H). unfold updatePayment in Hu. step_in Hu. rewrite Hp in Hu. step_in Hu.
  rewrite String.eqb_refl in Hu. injection Hu as _ <-.
  apply bind_Ok in H as (? & s2 & Ha & H). injection Ha as _ <-. rewrite get_bind in H.
  match type of H with _ ?t = _ => set (s2 := t) in * end.
  assert (booking_of b s2 = booking_of b s) as Eb by done. rewrite Eb in H.
  assert (payment_of b s2 = Some (with_status_and_id p PS_PAID (Some pid))) as Hp2
    by (unfold payment_of; simpl; by rewrite lookup_insert_eq).
  destruct (booking_of b s) as [bk|] eqn:Hb.
  - apply bind_Ok in H as ([] & s3 & Hj & H). rewrite bind_run in H. unfold try_catch in H.
    rewrite createPaymentEvent_throws, ret_run in H. injection H as _ <-.
    pose proof (keeps_eq _ _ _ _ _ (keeps_journal _ _ _ _ _ _ _ _) Hj) as F. injection F as _ Fp _ _.
    destruct (journal_wallets _ _ _ _ _ _ _ _ _ _ _ Hj) as [Ew Ee]. rewrite Ew, Ee.
    split; [unfold payment_of in *; by rewrite Fp|]. split; [done|]. split; [done|]. intros _ Hl.
    by apply (journal_records _ _ _ _ _ _ _ _ _ _ _ Hj).
  - injection H as _ <-. split_and!; try done; by intros [].
Qed.

(** A webhook marks a payment PAID only for a captured payment of the exact amount.  If a delivery makes an unpaid payment PAID, then it was accepted, its event reports a successful payment in rupees, the amount it names, when it names one, is the payment's to the paisa, the payment keeps its amount and takes the reported id, no wallet moved and, with the ledger on, the payment's journal is in it. *)
Theorem webhook_pays_exactly env raw signature headers s r s' p :
  handleWebhook env raw signature headers s = (r, s') ->
  payment_of bid s = Some p -> pm_status p <> PS_PAID -> pm_status <$> payment_of bid s' = Some PS_PAID ->
  exists payload, we_parse env raw = Some payload /\ r = Ok Received /\
    webhookSignatureValid env (detectGateway payload headers) raw signature headers = true /\
    isPaymentSuccessEvent (eventName payload) = true /\ isINR (webhookCurrency payload) = true /\
    (forall a, webhookAmount payload = Some a -> a == inject_Z (toPaise (pm_amount p))) /\
    payment_of bid s' =
      Some (with_status_and_id p PS_PAID (Some (webhookPaymentId (pe_now (we_pay env)) payload))) /\
    ws_entries (pay_wallets s') = ws_entries (pay_wallets s) /\
    ws_wallets (pay_wallets s') = ws_wallets (pay_wallets s) /\
    (is_Some (booking_of bid s) -> pe_hasLedger (we_pay env) = true ->
     is_Some (List.find (by_key (journalKey bid)) (pay_ledger s'))).
Proof.
  intros H Hp Hst Hpaid. assert (unpaid s) as Hu by (unfold unpaid; rewrite Hp; simpl; congruence).
  unfold handleWebhook in H. step_in H. destruct (we_parse env raw) as [payload|] eqn:Hparse;
    [|injection H as _ <-; by destruct Hu]. step_in H.
  destruct (webhookSignatureValid _ _ _ _ _) eqn:Hv; [|injection H as _ <-; by destruct Hu]. step_in H.
  destruct (existsb _ _); [injection H as _ <-; by destruct Hu|]. step_in H.
  match type of H with dispatchWebhook _ _ ?e ?t = _ => set (s0 := t) in H; set (eid := e) in H end.
  assert (unpaid s0) as Hu0 by done. assert (payment_of bid s0 = Some p) as Hp0 by done.
  exists payload. split; [done|].
  destruct (isPaymentSuccessEvent (eventName payload)) eqn:Hev;
    [|exfalso; by apply (unpaid_others _ _ _ Hev _ _ _ H Hu0)].
  unfold dispatchWebhook in H. rewrite Hev in H. unfold handleCaptured in H.
  destruct (webhookOrderId payload) as [oid|]; [|injection H as _ <-; by destruct Hu0].
  rewrite get_bind in H. destruct (findPayment _ s0) as [[b' p']|] eqn:Hf.
  2: { destruct (findVendorDeposit _ _ _) as [[did d]|]; [|injection H as _ <-; by destruct Hu0]. exfalso.
       assert (preserves unpaid (when (negb (bool_decide (vsd_status d = VD_PAID))) (transaction (zoom (S:=PayStore R) ps_vendorDeposits
         set_vendorDeposits (settleVendorDeposit did oid (webhookPaymentId (pe_now (we_pay env)) payload) d))) ;;
         mret VendorDepositProcessed)) as Hk by auto 8 with preserves.
       by apply (Hk _ _ _ H Hu0). }
  destruct (isINR _) eqn:Hinr; cbn [negb] in H; [|injection H as _ <-; by destruct Hu0].
  destruct (match webhookAmount payload with Some _ => _ | None => _ end) eqn:Hamt in H;
    [injection H as _ <-; by destruct Hu0|].
  case_bool_decide as Hst'.
  { rewrite bind_run in H. injection H as _ <-. by destruct Hu0. }
  rewrite bind_run in H. destruct (transaction _ s0) as [[o|e] s1] eqn:Ht;
    [|apply transaction_Throw in Ht as [-> _]; injection H as _ <-; by destruct Hu0].
  rewrite transaction_Ok in Ht. rewrite bind_run in H. injection H as <- <-.
  destruct (decide (b' = bid)) as [->|Hne].
  2: { exfalso. apply (unpaid_capture _ _ _ _ Hne _ _ _ Ht) in Hu0. by apply Hu0. }
  apply find_payment_of in Hf as [Hf _]. assert (p' = p) as -> by congruence.
  destruct (captureTransaction_Ok _ _ _ _ _ _ _ Ht Hp0) as (C1 & C2 & C3 & C4).
  split_and!; try done. intros a Ha. rewrite Ha in Hamt. by apply negb_false_iff, Qeq_bool_iff in Hamt.
Qed.
End unpaid.
End webhook_laws.

(** ** Concrete deliveries *)
#[local] Existing Instance plain_bcrypt.
Definition no_payload : WebhookPayload :=
  {| wp_event := None; wp_type := None; wp_object := None; wp_event_id := None; wp_id := None;
     wp_payment := None; wp_refund := None; wp_order_order_id := None; wp_order_amount := None;
     wp_order_currency := None; wp_cf_payment_id := None; wp_object_id := None; wp_object_orderId := None;
     wp_object_amount := None; wp_object_currency := None |}.
Definition captured_event (amount : option Q) : WebhookPayload :=
  {| wp_event := Some "payment.captured"; wp_type := None; wp_object := None; wp_event_id := None;
     wp_id := Some "evt_1";
     wp_payment := Some {| pe_order_id := Some "order_g1"; pe_id := Some "pay_1"; pe_amount := amount;
                           pe_currency := Some "INR" |};
     wp_refund := None; wp_order_order_id := None; wp_order_amount := None;
     wp_order_currency := None; wp_cf_payment_id := None; wp_object_id := None; wp_object_orderId := None;
     wp_object_amount := None; wp_object_currency := None |}.
(** Production: no mock mode, both other gateways configured. *)
Definition hook_env (payload : WebhookPayload) : WebhookEnv :=
  {| we_pay := live_env 0; we_cfSecret := "cf_secret"; we_stripeSecret := "whsec";
     we_hmacBase64 := fun key m => "hmac" +:+ key +:+ m; we_hmacHex := fun key m => "hmac" +:+ key +:+ m;
     we_sha256 := fun m => m; we_razorpayValid := fun _ signature => String.eqb signature "rzp_sig";
     we_parse := fun _ => Some payload |}.
Definition deliver (payload : WebhookPayload) (signature : string) (s : PayStore RedisMem)
    : result WebhookReply * PayStore RedisMem :=
  handleWebhook (hook_env payload) "raw" signature None s.
Definition hook_store (b : Booking) (p : Payment) : PayStore RedisMem :=
  pay_store {["b1" := b]} {["b1" := p]} (customer_wallet 0).
Definition hooked : result WebhookReply * PayStore RedisMem :=
  deliver (captured_event (Some 611800)) "rzp_sig" (hook_store (standard_rental BS_PENDING) ordered_payment).

Lemma webhook_takes_effect_once_witness :
  deliver (captured_event (Some 611800)) "rzp_sig" (snd hooked) = (Ok Duplicate, snd hooked).
Proof.
  assert (accepted (hook_env (captured_event (Some 611800))) "raw" "rzp_sig" None "evt_1") as Ha
    by (exists (captured_event (Some 611800)); done).
  destruct (webhook_takes_effect_once (hook_env (captured_event (Some 611800))) "raw" "rzp_sig" None
    (hook_store (standard_rental BS_PENDING) ordered_payment) (fst hooked) (snd hooked) (snd hooked) "evt_1"
    (hook_env (captured_event (Some 611800))) "raw" "rzp_sig" None) as [H _].
  - exact (surjective_pairing hooked).
  - exact Ha.
  - apply rtc_refl.
  - exact Ha.
  - exact H.
Defined.

Lemma webhook_pays_exactly_witness :
  payment_of "b1" (snd hooked) = Some (with_status_and_id ordered_payment PS_PAID (Some "pay_1")) /\
  is_Some (List.find (by_key (journalKey "b1")) (pay_ledger (snd hooked))).
Proof.
  destruct (webhook_pays_exactly "b1" (hook_env (captured_event (Some 611800))) "raw" "rzp_sig" None
    (hook_store (standard_rental BS_PENDING) ordered_payment) (fst hooked) (snd hooked) ordered_payment)
    as (payload & Hp & _ & _ & _ & _ & _ & H1 & _ & _ & H2).
  - exact (surjective_pairing hooked).
  - reflexivity.
  - discriminate.
  - vm_compute. reflexivity.
  - injection Hp as <-. split; [exact H1|]. apply H2; [|reflexivity]. eexists. reflexivity.
Defined.

(** ** What goes wrong *)

(** Anyone can mark a payment PAID in production: the literal signature
    "mock_signature" passes for Cashfree whatever the secret, and a payload
    without an amount is not compared. *)
Definition forged_event : WebhookPayload :=
  {| wp_event := None; wp_type := Some "PAYMENT_SUCCESS_WEBHOOK"; wp_object := None; wp_event_id := None;
     wp_id := Some "evt_f"; wp_payment := None; wp_refund := None; wp_order_order_id := Some "order_g1";
     wp_order_amount := None; wp_order_currency := None; wp_cf_payment_id := None; wp_object_id := None;
     wp_object_orderId := None; wp_object_amount := None; wp_object_currency := None |}.

(** The endpoint is public and can be forged: with mock mode off and a Cashfree secret configured, a delivery signed with the literal string "mock_signature" that names no amount marks an unpaid payment PAID. *)
Lemma forged_webhook_marks_paid :
  pe_useMock (we_pay (hook_env forged_event)) = false /\
  pm_status <$> payment_of "b1" (snd (deliver forged_event "mock_signature"
    (hook_store (standard_rental BS_PENDING) ordered_payment))) = Some PS_PAID.
Proof. split; [reflexivity|]. vm_compute. reflexivity. Qed.

(** A refunded payment becomes PAID again. *)
Lemma webhook_revives_refunded_payment :
  let refunded := with_status_and_id ordered_payment PS_REFUNDED (Some "pay_1") in
  pm_status <$> payment_of "b1" (snd (deliver (captured_event (Some 611800)) "rzp_sig"
    (hook_store (standard_rental BS_CANCELLED) refunded))) = Some PS_PAID /\
  PS_PAID ∉ validTransitions PS_REFUNDED.
Proof. split; [vm_compute; reflexivity|]. by intros H%not_elem_of_nil. Qed.

(** Processing fails, the event is already recorded: the gateway's next
    delivery is answered as a duplicate and the payment stays unpaid. *)
Lemma failed_webhook_is_lost :
  let first := deliver (captured_event (Some 581800)) "rzp_sig"
    (hook_store discounted {| pm_id := "p1"; pm_amount := 5818; pm_status := PS_CREATED;
       pm_gatewayProvider := "RAZORPAY"; pm_paymentMethod := None; pm_razorpayOrderId := Some "order_g1";
       pm_razorpayPaymentId := None; pm_razorpayRefundId := None; pm_refundAmount := None;
       pm_refundStatus := RS_NONE |}) in
  let second := deliver (captured_event (Some 581800)) "rzp_sig" (snd first) in
  fst first = Throw UnbalancedJournalException /\ fst second = Ok Duplicate /\
  pm_status <$> payment_of "b1" (snd second) = Some PS_CREATED.
Proof. vm_compute. done. Qed.

(** When the webhook is faster than the customer's verification, the deposit
    is never held: verification finds the payment PAID and returns early. *)
Lemma deposit_not_held_after_webhook :
  let verified := verifyPayment year_month (live_env 611800) dto_1 "c1" (snd hooked) in
  fst verified = Ok {| vr_paymentId := "p1"; vr_already := true |} /\
  sd_status <$> (booking_of "b1" (snd verified) ≫= b_securityDeposit) = Some SD_REQUIRED.
Proof. vm_compute. done. Qed.

(** One rupee captured under the order of a vendor's deposit settles all of
    it. *)
Lemma one_rupee_settles_vendor_deposit :
  let deposit := {| vsd_vendorId := "v1"; vsd_requiredAmount := 50000; vsd_paidAmount := 0;
                    vsd_remainingAmount := 50000; vsd_status := VD_PAYMENT_INITIATED; vsd_isExempt := false;
                    vsd_provider := "RAZORPAY"; vsd_policyVersion := 1;
                    vsd_providerOrderId := Some "order_g1"; vsd_providerPaymentId := None |} in
  let s := set_vendorDeposits {| vds_deposits := {["d1" := deposit]}; vds_ledger := []; vds_policies := [];
             vds_requirement := Some "r1"; vds_states := ∅; vds_vendors := ["v1"]; vds_audit := [] |}
             (pay_store ∅ ∅ (customer_wallet 0)) in
  let run := deliver (captured_event (Some 100)) "rzp_sig" s in
  fst run = Ok VendorDepositProcessed /\
  vsd_paidAmount <$> vds_deposits (ps_vendorDeposits (snd run)) !! "d1" = Some (store 50000) /\
  vds_states (ps_vendorDeposits (snd run)) !! "v1" = Some RF_APPROVED.
Proof. vm_compute. done. Qed.
