(* ===== verification/FareCalculator.v ===== *)
(** * Fares, commission and deposits

    - common/fare-calculator.service.ts: [calculateFare].
    - common/commission-resolver.service.ts: [resolveCommissionPercent].
    - deposits/deposit-rules.service.ts: the deposit of a category and city,
      and the rules an administrator keeps.

    The rules of a table are listed in the order the database returns them.
    What the configuration service answers is an argument: [None] when it is
    not wired, fails or has no such number. *)
From S2P Require Import Prelude JsNumber Decimal Schema.
Open Scope Z_scope.
Open Scope Q_scope.

(** ** [FareCalculatorService]

    Percentages of tiers and of the weekly and monthly discounts are
    JavaScript numbers, the other amounts are decimals. *)
Record DurationTier : Type := {
  dt_minDays : Q;
  dt_discountPercent : Q;
}.

Record FareDetails : Type := {
  fd_baseFare : Q;
  fd_originalBaseFare : Q;
  fd_discountAmount : Q;
  fd_discountPercentage : Q;
  fd_platformFee : Q;
  fd_gst : Q;
  fd_total : Q;
  fd_netToVendor : Q;
}.

Section fare.
Context {dec : DecimalArith} {num : DecimalNumbers}.

Definition tierReached (durationDays : Z) (t : DurationTier) : bool :=
  js_le (dt_minDays t) (inject_Z durationDays).

Definition matchedTier (durationDays : Z) (tiers : list DurationTier) : option DurationTier :=
  List.find (tierReached durationDays) (sort_desc dt_minDays tiers).

Definition fareDiscountPercent (durationDays : Z) (weeklyDiscountPercent monthlyDiscountPercent : Q)
    (durationDiscounts : option (list DurationTier)) : Q :=
  match durationDiscounts with
  | Some (t :: l) =>
    match matchedTier durationDays (t :: l) with
    | Some matched => if js_lt 0 (dt_discountPercent matched) then of_number (dt_discountPercent matched) else 0
    | None => 0
    end
  | _ =>
    if (30 <=? durationDays)%Z && js_lt 0 monthlyDiscountPercent then of_number monthlyDiscountPercent
    else if (7 <=? durationDays)%Z && js_lt 0 weeklyDiscountPercent then of_number weeklyDiscountPercent
    else 0
  end.

Definition calculateFare (distanceKm basePackagePrice pricePerKm commissionPercent : Q)
    (durationDays : Z) (weeklyDiscountPercent monthlyDiscountPercent gstRatePercent : Q)
    (durationDiscounts : option (list DurationTier)) : FareDetails :=
  let commPct := dec_div commissionPercent 100 in
  let initialBaseFare := dec_add (dec_mul distanceKm pricePerKm) basePackagePrice in
  let discountPct :=
    fareDiscountPercent durationDays weeklyDiscountPercent monthlyDiscountPercent durationDiscounts in
  let discountAmount :=
    if d_gt discountPct 0 then dec_mul initialBaseFare (dec_div discountPct 100) else 0 in
  let baseFare :=
    if d_gt discountPct 0 then dec_sub initialBaseFare discountAmount else initialBaseFare in
  let platformFee := dec_mul baseFare commPct in
  let effectiveGstRate := dec_div gstRatePercent 100 in
  let gst := dec_mul platformFee effectiveGstRate in
  let total := dec_add (dec_add baseFare platformFee) gst in
  {| fd_baseFare := to_places2 baseFare;
     fd_originalBaseFare := to_places2 initialBaseFare;
     fd_discountAmount := to_places2 discountAmount;
     fd_discountPercentage := rnd discountPct;
     fd_platformFee := to_places2 platformFee;
     fd_gst := to_places2 gst;
     fd_total := to_places2 total;
     fd_netToVendor := to_places2 baseFare |}.
End fare.

(** ** [CommissionResolverService] *)
Record CommissionConfig : Type := {
  cc_city : option string;
  cc_carCategory : option CarCategory;
  cc_tripType : option TripType;
  cc_percentage : Q;
}.

(** [equals] with [mode: 'insensitive'] *)
Definition sameCity (a b : string) : bool := String.eqb (lowercase a) (lowercase b).

Definition ruleApplies (city : string) (carCategory : CarCategory) (tripType : TripType)
    (r : CommissionConfig) : bool :=
  match cc_city r with Some c => sameCity c city | None => true end &&
  match cc_carCategory r with Some c => bool_decide (c = carCategory) | None => true end &&
  match cc_tripType r with Some t => bool_decide (t = tripType) | None => true end.

Definition ruleScore (r : CommissionConfig) : Z :=
  (match cc_city r with Some _ => 4 | None => 0 end + match cc_carCategory r with Some _ => 2 | None => 0 end +
   match cc_tripType r with Some _ => 1 | None => 0 end)%Z.

Definition defaultCommission (configured : option Q) : Q :=
  match configured with
  | Some d => if js_le 0 d && js_le d 100 then d else 10
  | None => 10
  end.

Definition resolveCommissionPercent {num : DecimalNumbers} (table : list CommissionConfig)
    (configured : option Q) (city : string) (carCategory : CarCategory) (tripType : TripType) : Q :=
  let rules := List.filter (ruleApplies city carCategory tripType) table in
  match head (sort_desc (fun r => inject_Z (ruleScore r)) rules) with
  | Some r => cc_percentage r
  | None => of_number (defaultCommission configured)
  end.

(** ** [DepositRulesService] *)
Record DepositRule : Type := {
  dr_carCategory : CarCategory;
  dr_city : option string;
  dr_depositAmount : Q;
  dr_isActive : bool;
}.

Definition DEFAULT_DEPOSIT_AMOUNTS (c : CarCategory) : Q :=
  match c with
  | CAT_HATCHBACK => 3000 | CAT_SEDAN => 4000 | CAT_SUV => 5000 | CAT_LUXURY => 10000
  | CAT_TEMPO_TRAVELLER => 8000 | CAT_MINI_BUS => 10000
  end.

Definition cityRule (carCategory : CarCategory) (city : string) (r : DepositRule) : bool :=
  bool_decide (dr_carCategory r = carCategory) &&
  match dr_city r with Some c => sameCity c (trim city) | None => false end && dr_isActive r.
Definition globalRule (carCategory : CarCategory) (r : DepositRule) : bool :=
  bool_decide (dr_carCategory r = carCategory) && bool_decide (dr_city r = None) && dr_isActive r.

Definition dynamicRule (table : list DepositRule) (carCategory : CarCategory) (city : option string)
    : option DepositRule :=
  match truthy city with
  | Some c =>
    match List.find (cityRule carCategory c) table with
    | Some r => Some r
    | None => List.find (globalRule carCategory) table
    end
  | None => List.find (globalRule carCategory) table
  end.

(** [table] is [None] when the query fails. *)
Definition getDepositAmount (table : option (list DepositRule)) (configured : CarCategory -> option Q)
    (carCategory : CarCategory) (city : option string) : Q :=
  match (l ← table; dynamicRule l carCategory city) with
  | Some r => rnd (dr_depositAmount r)
  | None =>
    match configured carCategory with
    | Some d => if js_le 0 d then d else DEFAULT_DEPOSIT_AMOUNTS carCategory
    | None => DEFAULT_DEPOSIT_AMOUNTS carCategory
    end
  end.

(** The rule of exactly this category and city. *)
Definition isRuleOf (carCategory : CarCategory) (city : option string) (r : DepositRule) : bool :=
  bool_decide (dr_carCategory r = carCategory) && bool_decide (dr_city r = city).

Fixpoint updateFirst {A} (f : A -> bool) (g : A -> A) (l : list A) : list A :=
  match l with
  | [] => []
  | x :: l' => if f x then g x :: l' else x :: updateFirst f g l'
  end.

Definition upsertRule {col : NumericColumn} (carCategory : CarCategory) (depositAmount : Q)
    (city : option string) : M (list DepositRule) DepositRule :=
  let normalizedCity := truthy (trim <$> city) in
  let row := {| dr_carCategory := carCategory; dr_city := normalizedCity;
                dr_depositAmount := store depositAmount; dr_isActive := true |} in
  table ← get;
  match List.find (isRuleOf carCategory normalizedCity) table with
  | Some _ => modify (updateFirst (isRuleOf carCategory normalizedCity) (fun _ => row)) ;; mret row
  | None => modify (fun l => l ++ [row]) ;; mret row
  end.

(** ** Laws *)
Section decimal_bounds.
Context {dec : DecimalArith}.

Lemma dec_round_near q b : Qabs q <= b -> Qabs (dec_round q - q) <= b * (5 # 100000000000000000000).
Proof.
  intros H. eapply Qle_trans; [apply dec_round_err|]. apply Qmult_le_compat_r; [done|discriminate].
Qed.
Lemma dec_round_abs q b : Qabs q <= b -> Qabs (dec_round q) <= 2 * b.
Proof.
  intros H. pose proof (dec_round_near q b H) as E. pose proof (Qabs_nonneg q).
  apply Qabs_Qle_condition in E as [E1 E2]. apply Qabs_Qle_condition in H as [H1 H2].
  apply Qabs_Qle_condition. split; lra.
Qed.
Lemma dec_round_nonneg q : 0 <= q -> 0 <= dec_round q.
Proof.
  intros H. pose proof (dec_round_err q) as E. rewrite (Qabs_pos q H) in E.
  apply Qabs_Qle_condition in E as [E _]. lra.
Qed.
Lemma dec_mul_abs a c A : Qabs a <= A -> Qabs c <= 2 -> Qabs (dec_mul a c) <= 4 * A.
Proof.
  intros Ha Hc. unfold dec_mul. assert (Qabs (a * c) <= 2 * A) as H.
  { rewrite Qabs_Qmult. pose proof (Qabs_nonneg a). pose proof (Qabs_nonneg c). nra. }
  apply dec_round_abs in H. lra.
Qed.
(** A percentage as a fraction. *)
Lemma dec_percent p : 0 <= p -> p <= 100 -> 0 <= dec_div p 100 /\ dec_div p 100 <= 1 + (5 # 100000000000000000000).
Proof.
  intros H0 H1. assert (p / 100 == p * (1 # 100)) as E by field.
  assert (0 <= p / 100 <= 1) as [Hp0 Hp1] by (rewrite E; split; lra).
  split; [by apply dec_round_nonneg|]. assert (Qabs (p / 100) <= 1) as Ha by (by rewrite Qabs_pos).
  apply dec_round_near, Qabs_Qle_condition in Ha as [_ Ha]. unfold dec_div. lra.
Qed.
End decimal_bounds.

(** What the fare is computed from: nothing negative, at most a billion
    rupees, percentages up to a hundred. *)
Record fare_inputs (km pkg ppk comm gst pct : Q) : Prop := {
  fi_km : 0 <= km;
  fi_ppk : 0 <= ppk;
  fi_pkg : 0 <= pkg;
  fi_size : km * ppk + pkg <= 1000000000;
  fi_comm : 0 <= comm /\ comm <= 100;
  fi_gst : 0 <= gst /\ gst <= 100;
  fi_pct : 0 <= pct /\ pct <= 100;
}.

Section fare_laws.
Context {dec : DecimalArith} {num : DecimalNumbers}.

Lemma initial_fare_bounds km ppk pkg : 0 <= km -> 0 <= ppk -> 0 <= pkg -> km * ppk + pkg <= 1000000000 ->
  0 <= dec_add (dec_mul km ppk) pkg /\ dec_add (dec_mul km ppk) pkg <= 6000000000.
Proof.
  intros Hk Hp Hg Hs. assert (0 <= km * ppk) as H0 by nra.
  assert (0 <= dec_mul km ppk) as H1 by (by apply dec_round_nonneg).
  assert (Qabs (km * ppk) <= 1000000000) as H2 by (rewrite Qabs_pos by done; lra).
  apply dec_round_abs, Qabs_Qle_condition in H2 as [_ H2]. change (dec_round (km * ppk)) with (dec_mul km ppk) in H2.
  split; [apply dec_round_nonneg; lra|].
  assert (Qabs (dec_mul km ppk + pkg) <= 3000000000) as H3 by (rewrite Qabs_pos; lra).
  apply dec_round_abs, Qabs_Qle_condition in H3 as [_ H3]. unfold dec_add. lra.
Qed.

(** Taking a percentage [r] off [i]. *)
Lemma discounted_bounds i r : 0 <= i -> i <= 6000000000 -> 0 <= r -> r <= 1 + (5 # 100000000000000000000) ->
  let d := dec_mul i r in let b := dec_sub i d in
  0 <= d /\ Qabs (i - d - b) <= (1 # 1000000) /\ - (1 # 1000000) <= b /\ Qabs b <= 60000000000.
Proof.
  intros Hi0 Hi Hr0 Hr d b. assert (0 <= i * r) as Hir by nra.
  assert (i * r <= 6000000001) as Hir2 by nra.
  assert (0 <= d) as Hd0 by (by apply dec_round_nonneg).
  assert (Qabs (i * r) <= 6000000001) as Ha by (by rewrite Qabs_pos).
  apply dec_round_near, Qabs_Qle_condition in Ha as [Ha1 Ha2].
  change (dec_round (i * r)) with d in *.
  assert (i * r <= i + (1 # 1000000000)) as Hup by nra.
  assert (Qabs (i - d) <= 30000000000) as Hid by (apply Qabs_Qle_condition; split; lra).
  pose proof (dec_round_abs _ _ Hid) as Hb. change (dec_round (i - d)) with b in Hb.
  apply dec_round_near in Hid. change (dec_round (i - d)) with b in Hid.
  apply Qabs_Qle_condition in Hid as [Hb1 Hb2].
  split_and!; [done|apply Qabs_Qle_condition; split; lra|lra|lra].
Qed.

(** A share [c] of [b] is not negative but for the error of [b]. *)
Lemma share_bounds b c B : - (1 # 1000000) <= b -> Qabs b <= B -> B <= 300000000000 -> 0 <= c ->
  c <= 1 + (5 # 100000000000000000000) ->
  - (1 # 100000) <= dec_mul b c /\ Qabs (dec_mul b c) <= 4 * B.
Proof.
  intros Hb HB HB2 Hc0 Hc. split; [|apply dec_mul_abs; [done|rewrite Qabs_pos; lra]].
  assert (Qabs (b * c) <= 2 * B) as H.
  { rewrite Qabs_Qmult, (Qabs_pos c) by done. pose proof (Qabs_nonneg b). nra. }
  apply dec_round_near, Qabs_Qle_condition in H as [H _]. change (dec_round (b * c)) with (dec_mul b c) in H.
  assert (- (2 # 1000000) <= b * c) by nra. lra.
Qed.

Lemma dec_sum3_near b p g : Qabs b <= 60000000000 -> Qabs p <= 240000000000 -> Qabs g <= 960000000000 ->
  Qabs (dec_add (dec_add b p) g - (b + p + g)) <= 1 # 1000000.
Proof.
  intros Hb Hp Hg. assert (Qabs (b + p) <= 300000000000) as H.
  { eapply Qle_trans; [apply Qabs_triangle|]. lra. }
  pose proof (dec_round_abs _ _ H) as H1. apply dec_round_near in H.
  change (dec_round (b + p)) with (dec_add b p) in *.
  assert (Qabs (dec_add b p + g) <= 1600000000000) as H2.
  { eapply Qle_trans; [apply Qabs_triangle|]. lra. }
  apply dec_round_near in H2. change (dec_round (dec_add b p + g)) with (dec_add (dec_add b p) g) in H2.
  apply Qabs_Qle_condition in H as [? ?]. apply Qabs_Qle_condition in H2 as [? ?].
  apply Qabs_Qle_condition. split; lra.
Qed.

Lemma to_places2_almost q : - (1 # 500) <= q -> 0 <= to_places2 q.
Proof.
  intros H. pose proof (to_places2_err q) as E. apply Qabs_Qle_condition in E as [E _].
  pose proof (whole_paise_sub _ _ whole_paise_0 (to_places2_whole q)) as Hw.
  apply (whole_paise_le _ 0) in Hw.
  - assert (inject_Z 0 / 100 == 0) as E0 by reflexivity. rewrite E0 in Hw. lra.
  - assert ((inject_Z 0 + 1) / 100 == 1 # 100) as -> by reflexivity. lra.
Qed.

(** A whole amount less than [n + 1] paise from zero is at most [n] paise. *)
Lemma whole_paise_abs_le a n : whole_paise a -> Qabs a < (inject_Z n + 1) / 100 -> Qabs a <= inject_Z n / 100.
Proof.
  intros Hw H. apply Qabs_Qlt_condition in H as [H1 H2]. apply Qabs_Qle_condition. split.
  - assert (whole_paise (- a)) as Hw'.
    { destruct Hw as [m Hm]. exists (- m)%Z. rewrite Hm, inject_Z_opp. field. }
    pose proof (whole_paise_le (- a) n Hw'). lra.
  - by apply whole_paise_le.
Qed.
End fare_laws.

Section fare_properties.
Context {dec : DecimalArith} {num : DecimalNumbers}.

(** The parts of a fare in whole paise. *)
Definition fare_parts_whole (f : FareDetails) : Prop :=
  whole_paise (fd_baseFare f) /\ whole_paise (fd_originalBaseFare f) /\ whole_paise (fd_discountAmount f) /\
  whole_paise (fd_platformFee f) /\ whole_paise (fd_gst f) /\ whole_paise (fd_total f).
Definition fare_parts_nonneg (f : FareDetails) : Prop :=
  0 <= fd_baseFare f /\ 0 <= fd_originalBaseFare f /\ 0 <= fd_discountAmount f /\
  0 <= fd_platformFee f /\ 0 <= fd_gst f /\ 0 <= fd_total f.

(** A fare is a price: for inputs that are not negative, percentages up
    to a hundred and fares up to a billion rupees, every part of it is a whole
    number of paise and none is negative; what the discount leaves of the
    original fare is the base fare to a paisa, the vendor's net is the base
    fare, and the total is base fare, platform fee and tax to two paise,
    although each part is rounded on its own. *)
Theorem fare_adds_up km pkg ppk comm days weekly monthly gst tiers
    (H : fare_inputs km pkg ppk comm gst (fareDiscountPercent days weekly monthly tiers)) :
  let f := calculateFare km pkg ppk comm days weekly monthly gst tiers in
  fare_parts_whole f /\ fare_parts_nonneg f /\ fd_netToVendor f = fd_baseFare f /\
  Qabs (fd_originalBaseFare f - fd_discountAmount f - fd_baseFare f) <= 1 # 100 /\
  Qabs (fd_total f - (fd_baseFare f + fd_platformFee f + fd_gst f)) <= 2 # 100.
Proof.
  destruct H as [Hk Hp Hg Hs [Hc0 Hc1] [Ht0 Ht1] [Hd0 Hd1]].
  destruct (initial_fare_bounds km ppk pkg Hk Hp Hg Hs) as [Hi0 Hi1].
  destruct (dec_percent comm Hc0 Hc1) as [Hcc0 Hcc1]. destruct (dec_percent gst Ht0 Ht1) as [Hgg0 Hgg1].
  destruct (dec_percent _ Hd0 Hd1) as [Hr0 Hr1].
  unfold calculateFare. set (pct := fareDiscountPercent _ _ _ _) in *.
  set (i := dec_add (dec_mul km ppk) pkg) in *.
  set (d := if d_gt pct 0 then _ else 0). set (b := if d_gt pct 0 then _ else i).
  assert (0 <= d /\ Qabs (i - d - b) <= (1 # 1000000) /\ - (1 # 1000000) <= b /\ Qabs b <= 60000000000)
    as (Hd & Hid & Hb0 & Hb1).
  { subst d b. destruct (d_gt pct 0); [by apply discounted_bounds|].
    split_and!; [lra| |lra|rewrite Qabs_pos; lra].
    assert (i - 0 - i == 0) as -> by ring. discriminate. }
  set (c := dec_div comm 100) in *. set (r := dec_div gst 100) in *.
  destruct (share_bounds b c 60000000000 Hb0 Hb1) as [Hp0 Hp1]; [discriminate|done..|].
  set (p := dec_mul b c) in *.
  assert (- (1 # 1000) <= dec_mul p r /\ Qabs (dec_mul p r) <= 960000000000) as [Hg0 Hg1].
  { assert (- (2 # 100000) <= p * r) as H1 by nra.
    assert (Qabs p <= 240000000000) as Hp1' by lra.
    assert (Qabs (p * r) <= 480000000000) as H2.
    { rewrite Qabs_Qmult, (Qabs_pos r) by done. pose proof (Qabs_nonneg p). nra. }
    apply dec_round_near, Qabs_Qle_condition in H2 as [H2 _]. change (dec_round (p * r)) with (dec_mul p r) in H2.
    split; [lra|]. eapply Qle_trans; [apply (dec_mul_abs p r _ Hp1'); rewrite Qabs_pos; lra|]. discriminate. }
  set (g := dec_mul p r) in *.
  assert (Qabs p <= 240000000000) as Hp1' by lra.
  pose proof (dec_sum3_near b p g Hb1 Hp1' Hg1) as Hsum. set (t := dec_add (dec_add b p) g) in *.
  pose proof (to_places2_err i) as Ei. pose proof (to_places2_err d) as Ed.
  pose proof (to_places2_err b) as Eb. pose proof (to_places2_err p) as Ep.
  pose proof (to_places2_err g) as Eg. pose proof (to_places2_err t) as Et.
  apply Qabs_Qle_condition in Ei as [? ?], Ed as [? ?], Eb as [? ?], Ep as [? ?], Eg as [? ?], Et as [? ?].
  apply Qabs_Qle_condition in Hid as [? ?], Hsum as [? ?].
  unfold fare_parts_whole, fare_parts_nonneg; cbn [fd_baseFare fd_originalBaseFare fd_discountAmount
    fd_platformFee fd_gst fd_total fd_netToVendor].
  split; [split_and!; apply to_places2_whole|].
  split; [split_and!; apply to_places2_almost; lra|]. split; [done|]. split.
  - assert (1 # 100 == inject_Z 1 / 100) as -> by reflexivity. apply (whole_paise_abs_le _ 1); [auto 10 with dec|].
    assert ((inject_Z 1 + 1) / 100 == 2 # 100) as -> by reflexivity. apply Qabs_Qlt_condition. split; lra.
  - assert (2 # 100 == inject_Z 2 / 100) as -> by reflexivity. apply (whole_paise_abs_le _ 2); [auto 10 with dec|].
    assert ((inject_Z 2 + 1) / 100 == 3 # 100) as -> by reflexivity. apply Qabs_Qlt_condition. split; lra.
Qed.

(** The duration discount is the best tier: whatever order the tiers are
    configured in, the tier applied is one that the rental reaches and no
    tier it reaches asks for more days; without a reached tier there is none.
    It is the tier a single pass over the reached ones finds. *)
Theorem duration_tier_is_best days (tiers : list DurationTier) :
  matchedTier days tiers = best dt_minDays (List.filter (tierReached days) tiers) /\
  match matchedTier days tiers with
  | Some t => t ∈ tiers /\ tierReached days t = true /\
      forall u, u ∈ tiers -> tierReached days u = true -> dt_minDays u <= dt_minDays t
  | None => forall u, u ∈ tiers -> tierReached days u = false
  end.
Proof.
  unfold matchedTier. rewrite find_sort_desc. split; [done|].
  assert (forall u, u ∈ List.filter (tierReached days) tiers <-> u ∈ tiers /\ tierReached days u = true) as Hf.
  { intros u. rewrite !list_elem_of_In. apply List.filter_In. }
  destruct (best _ _) as [t|] eqn:E.
  - apply best_spec in E as [[Hin Ht]%Hf Hmax]. split_and!; try done.
    intros u Hu Hr. apply Hmax, Hf. done.
  - intros u Hu. destruct (tierReached days u) eqn:Hr; [|done].
    assert (u ∈ List.filter (tierReached days) tiers) as Hin by (by apply Hf).
    rewrite (best_None _ _ E) in Hin. by apply elem_of_nil in Hin.
Qed.
End fare_properties.

Section rule_properties.
Context {num : DecimalNumbers}.

(** [a] is more specific than [b]: it names a city and [b] does not, or, as
    to the city alike, a category, or, as to both alike, a trip type. *)
Definition moreSpecific (a b : CommissionConfig) : bool :=
  let city r := bool_decide (is_Some (cc_city r)) in
  let category r := bool_decide (is_Some (cc_carCategory r)) in
  let trip r := bool_decide (is_Some (cc_tripType r)) in
  (city a && negb (city b)) ||
  (eqb (city a) (city b) && category a && negb (category b)) ||
  (eqb (city a) (city b) && eqb (category a) (category b) && trip a && negb (trip b)).

Lemma moreSpecific_score a b : moreSpecific a b = true <-> (ruleScore b < ruleScore a)%Z.
Proof.
  destruct a as [[] [] [] ?], b as [[] [] [] ?]; unfold moreSpecific, ruleScore; simpl; split; try done; lia.
Qed.

(** The commission is the most specific rule's: the percentage charged is
    that of a rule that applies to city, category and trip type and to which
    no rule that applies is preferred, where a city counts before a category
    and a category before a trip type; among equals the first of the table
    wins.  Without a rule it is the configured default between 0 and 100, or
    10 per cent. *)
Theorem commission_is_most_specific table configured city category trip :
  let pct := resolveCommissionPercent table configured city category trip in
  match best (fun r => inject_Z (ruleScore r)) (List.filter (ruleApplies city category trip) table) with
  | Some r => pct = cc_percentage r /\ r ∈ table /\ ruleApplies city category trip r = true /\
      forall r', r' ∈ table -> ruleApplies city category trip r' = true -> moreSpecific r' r = false
  | None => (forall r, r ∈ table -> ruleApplies city category trip r = false) /\
      pct = of_number (defaultCommission configured) /\
      0 <= defaultCommission configured /\ defaultCommission configured <= 100
  end.
Proof.
  unfold resolveCommissionPercent. rewrite head_sort_desc.
  assert (forall r, r ∈ List.filter (ruleApplies city category trip) table <->
                    r ∈ table /\ ruleApplies city category trip r = true) as Hf.
  { intros r. rewrite !list_elem_of_In. apply List.filter_In. }
  destruct (best _ _) as [r|] eqn:E.
  - apply best_spec in E as [[Hin Ha]%Hf Hmax]. split_and!; try done.
    intros r' Hr' Ha'. apply not_true_is_false. rewrite moreSpecific_score.
    specialize (Hmax r' (proj2 (Hf r') (conj Hr' Ha'))). rewrite <- Zle_Qle in Hmax. lia.
  - split_and!; [|done|..].
    + intros r Hr. destruct (ruleApplies city category trip r) eqn:Ha; [|done].
      assert (r ∈ List.filter (ruleApplies city category trip) table) as Hin by (by apply Hf).
      rewrite (best_None _ _ E) in Hin. by apply elem_of_nil in Hin.
    + unfold defaultCommission, js_le. destruct configured as [d|]; [|discriminate].
      destruct (Qle_bool 0 d) eqn:E0; simpl; [|discriminate].
      destruct (Qle_bool d 100); [by apply Qle_bool_iff|discriminate].
    + unfold defaultCommission, js_le. destruct configured as [d|]; [|discriminate].
      destruct (Qle_bool 0 d); simpl; [|discriminate].
      destruct (Qle_bool d 100) eqn:E1; [by apply Qle_bool_iff|discriminate].
Qed.
End rule_properties.

Section deposit_rules.
Context {col : NumericColumn}.

Lemma updateFirst_split {A} (f : A -> bool) (h : A -> A) l x : List.find f l = Some x ->
  exists l1 l2, l = l1 ++ x :: l2 /\ updateFirst f h l = l1 ++ h x :: l2 /\ forall y, y ∈ l1 -> f y = false.
Proof.
  induction l as [|y l IH]; simpl; [done|]. destruct (f y) eqn:E.
  - intros [= ->]. exists [], l. split_and!; [done..|]. by intros ? ?%elem_of_nil.
  - intros H. destruct (IH H) as (l1 & l2 & -> & -> & Hl). exists (y :: l1), l2.
    split_and!; [done..|]. intros z [->|Hz]%elem_of_cons; [done|by apply Hl].
Qed.

(** After an upsert the table is its old rows, of which those before the new
    one are of other categories or cities, with the new row. *)
Lemma upsertRule_run cat amount city table :
  exists l1 l2 row, upsertRule cat amount city table = (Ok row, l1 ++ row :: l2) /\
    row = {| dr_carCategory := cat; dr_city := truthy (trim <$> city);
             dr_depositAmount := store amount; dr_isActive := true |} /\
    forall r, r ∈ l1 -> r ∈ table /\ isRuleOf cat (truthy (trim <$> city)) r = false.
Proof.
  unfold upsertRule. rewrite get_bind. cbv zeta. destruct (List.find _ table) as [x|] eqn:E.
  - destruct (updateFirst_split _ (fun _ => {| dr_carCategory := cat; dr_city := truthy (trim <$> city);
      dr_depositAmount := store amount; dr_isActive := true |}) _ _ E) as (l1 & l2 & Hl & Hu & Hn).
    exists l1, l2. eexists. split; [|split; [reflexivity|]].
    + rewrite modify_bind, ret_run. by rewrite Hu.
    + intros r Hr. split; [rewrite Hl; apply elem_of_app; by left|by apply Hn].
  - exists table, []. eexists. split; [|split; [reflexivity|]].
    + by rewrite modify_bind, ret_run.
    + intros r Hr. split; [done|]. by apply (proj1 (find_None_iff _ _) E).
Qed.

(** A deposit rule works as entered: after an administrator stored a
    deposit for a category and a city, that amount is the deposit of bookings
    of that category in that city, whatever was configured before, provided
    no active rule writes the same city in other letters (rules are stored by
    the exact name but looked up by the letters of the name). *)
Theorem deposit_rule_roundtrip cat amount city table configured
    (Hc : trim city <> "")
    (Hu : forall r, r ∈ table -> cityRule cat city r = true -> dr_city r = Some (trim city)) :
  let '(_, table') := upsertRule cat amount (Some city) table in
  getDepositAmount (Some table') configured cat (Some city) = rnd (store amount).
Proof.
  destruct (upsertRule_run cat amount (Some city) table) as (l1 & l2 & row & -> & Hrow & Hl1).
  assert (truthy (Some city) = Some city) as Ht by (destruct city; [by destruct Hc|done]).
  assert (truthy (trim <$> Some city) = Some (trim city)) as Htt by (simpl; by destruct (trim city)).
  rewrite Htt in Hrow, Hl1. unfold getDepositAmount, dynamicRule. rewrite Ht. simpl.
  assert (List.find (cityRule cat city) (l1 ++ row :: l2) = Some row) as ->; [|by rewrite Hrow].
  rewrite find_app. assert (List.find (cityRule cat city) l1 = None) as ->.
  { apply find_None_iff. intros r Hr. destruct (Hl1 r Hr) as [Hin Hn].
    destruct (cityRule cat city r) eqn:E; [|done]. pose proof (Hu r Hin E) as Hcity.
    unfold cityRule in E. unfold isRuleOf in Hn.
    destruct (bool_decide (dr_carCategory r = cat)); [|done].
    by rewrite Hcity, bool_decide_true in Hn. }
  simpl. subst row. unfold cityRule, sameCity. simpl. by rewrite bool_decide_true, String.eqb_refl.
Qed.
End deposit_rules.

(** ** Concrete runs *)
Definition weekend_tiers : list DurationTier :=
  [{| dt_minDays := 3; dt_discountPercent := 5 |}; {| dt_minDays := 30; dt_discountPercent := 20 |};
   {| dt_minDays := 7; dt_discountPercent := 10 |}].

(** Eight days at 1234.56 a day with the weekly tier, 12.5 per cent. *)
Lemma fare_adds_up_witness :
  let f := calculateFare 0 (987648 # 100) 0 (125 # 10) 8 0 0 18 (Some weekend_tiers) in
  (fd_total f == 1019993 # 100) /\ (fd_discountAmount f == 98765 # 100) /\
  Qabs (fd_total f - (fd_baseFare f + fd_platformFee f + fd_gst f)) <= 2 # 100.
Proof.
  split; [vm_compute; reflexivity|]. split; [vm_compute; reflexivity|].
  refine (proj2 (proj2 (proj2 (proj2 (fare_adds_up 0 (987648 # 100) 0 (125 # 10) 8 0 0 18 (Some weekend_tiers) _))))).
  split; try (split; vm_compute; congruence); vm_compute; congruence.
Defined.

Definition pune_rules : list DepositRule :=
  [{| dr_carCategory := CAT_SUV; dr_city := None; dr_depositAmount := 6000; dr_isActive := true |};
   {| dr_carCategory := CAT_SUV; dr_city := Some "Pune"; dr_depositAmount := 7000; dr_isActive := true |}].

Lemma deposit_rule_roundtrip_witness :
  let '(_, table') := upsertRule CAT_SUV 7500 (Some " Pune ") pune_rules in
  getDepositAmount (Some table') (fun _ => None) CAT_SUV (Some " Pune ") = rnd (store 7500).
Proof.
  apply (deposit_rule_roundtrip CAT_SUV 7500 " Pune " pune_rules (fun _ => None)); [by vm_compute|].
  unfold pune_rules. intros r [->|[->|[]%elem_of_nil]%elem_of_cons]%elem_of_cons H; [done|reflexivity].
Defined.

(** A rule entered under "pune" is shadowed by an older one under "Pune". *)
Lemma deposit_rule_shadowed :
  let '(_, table') := upsertRule CAT_SUV 7500 (Some "pune") pune_rules in
  getDepositAmount (Some table') (fun _ => None) CAT_SUV (Some "pune") == 7000.
Proof. vm_compute. reflexivity. Qed.
