(* ===== verification/Coupons.v ===== *)
(** * Coupons: src/car_rental_backend/src/coupons/coupons.service.ts

    [validateCoupon] whole, in JavaScript numbers, the list of coupons offered
    to a customer and the creation of a coupon; and, with the redemption of
    Payments.v, the invariant that usage stays within the limits.  The other
    administrator operations (edit, delete, listings) are left out.

    Coupons are a table from id to row; [code] is unique.  A city and a
    category of the car, when the request names one, are arguments. *)
From S2P Require Import Prelude JsNumber Decimal Schema Ledger Wallet Locks HandoverOtp PaymentRefund Outbox BookingStore.
From S2P Require Import BookingLifecycle Payments PaymentOrders FareCalculator.
Open Scope Z_scope.
Open Scope Q_scope.

(** [cd_car] is the category and vendor city of the car [dto.carId] names. *)
Record ValidateCouponDto : Type := {
  cd_code : string;
  cd_car : option (CarCategory * string);
  cd_subtotal : Q;
  cd_city : option string;
  cd_tripType : option TripType;
  cd_carCategory : option CarCategory;
}.

Record CouponResult : Type := {
  co_couponId : string;
  co_code : string;
  co_discountAmount : Q;
  co_finalPayableAmount : Q;
}.

Section coupons.
Context {R : Type}.
Abbreviation PM := (M (PayStore R)).
Implicit Types s : PayStore R.

Definition findCoupon (code : string) (m : gmap string Coupon) : option (string * Coupon) :=
  List.find (fun p => String.eqb (cpn_code (snd p)) code) (map_to_list m).

Definition usesOf (couponId : string) (l : list CouponUsage) : list CouponUsage :=
  filter (fun u => String.eqb (cu_couponId u) couponId) l.
Definition usesBy (couponId customerId : string) (l : list CouponUsage) : Z :=
  Z.of_nat (length (filter (fun u =>
    String.eqb (cu_couponId u) couponId && String.eqb (cu_customerId u) customerId) l)).

Definition globalLimitReached (c : Coupon) : bool :=
  match cpn_globalUsageLimit c with Some limit => (limit <=? cpn_usageCount c)%Z | None => false end.
Definition customerLimitReached (couponId customerId : string) (c : Coupon) (l : list CouponUsage) : bool :=
  (default 1 (cpn_perCustomerLimit c) <=? usesBy couponId customerId l)%Z.

(** A booking that makes the next one not the first. *)
Definition countsAsBooking (customerId : string) (b : Booking) : bool :=
  String.eqb (b_customerId b) customerId &&
  bool_decide (b_status b ∈ [BS_CONFIRMED; BS_ONGOING; BS_COMPLETED]).

(** A restriction binds when both sides are known. *)
Definition differs {A} `{EqDecision A} (restriction actual : option A) : bool :=
  match restriction, actual with Some r, Some a => negb (bool_decide (r = a)) | _, _ => false end.
Definition cityDiffers (restriction actual : option string) : bool :=
  match truthy restriction, truthy actual with
  | Some r, Some a => negb (sameCity r a)
  | _, _ => false
  end.

(** The discount before it is rounded, never more than the subtotal. *)
Definition rawDiscount (c : Coupon) (subtotal : Q) : Q :=
  let discountVal := rnd (cpn_discountValue c) in
  let calculated :=
    match cpn_discountType c with
    | DT_PERCENTAGE =>
      let d := js_div (js_mul subtotal discountVal) 100 in
      match cpn_maxDiscountAmount c with
      | Some cap => js_min d (rnd cap)
      | None => d
      end
    | DT_FIXED => discountVal
    end in
  js_min calculated subtotal.
(** [Math.round(x * 100) / 100] *)
Definition roundPaise (x : Q) : Q := js_div (inject_Z (js_round (js_mul x 100))) 100.

Definition validateCoupon (now : Z) (customerId : string) (dto : ValidateCouponDto) : PM CouponResult :=
  s ← get;
  found ← from_option_or (findCoupon (uppercase (trim (cd_code dto))) (ps_coupons s)) NotFoundException;
  let couponId := fst found in
  let coupon := snd found in
  require (cpn_isActive coupon) BadRequestException ;;
  require (match cpn_startDate coupon with Some t => negb (now <? t)%Z | None => true end) BadRequestException ;;
  require (match cpn_expiresAt coupon with Some t => negb (t <? now)%Z | None => true end) BadRequestException ;;
  require (negb (globalLimitReached coupon)) BadRequestException ;;
  require (negb (customerLimitReached couponId customerId coupon (ps_usages s))) BadRequestException ;;
  require (negb (cpn_firstBookingOnly coupon &&
                 existsb (fun p => countsAsBooking customerId (snd p)) (map_to_list (ls_bookings (ps_core s)))))
    BadRequestException ;;
  let carCategory := match cd_carCategory dto with Some c => Some c | None => fst <$> cd_car dto end in
  let carCity := match truthy (cd_city dto) with Some c => Some c | None => snd <$> cd_car dto end in
  require (negb (cityDiffers (cpn_city coupon) carCity)) BadRequestException ;;
  require (negb (differs (cpn_tripType coupon) (cd_tripType dto))) BadRequestException ;;
  require (negb (differs (cpn_carCategory coupon) carCategory)) BadRequestException ;;
  let subtotal := cd_subtotal dto in
  require (match cpn_minBookingAmount coupon with
           | Some minAmount => negb (js_lt subtotal (rnd minAmount))
           | None => true
           end) BadRequestException ;;
  let calculatedDiscount := roundPaise (rawDiscount coupon subtotal) in
  mret {| co_couponId := couponId; co_code := cpn_code coupon; co_discountAmount := calculatedDiscount;
          co_finalPayableAmount := js_max 0 (js_sub subtotal calculatedDiscount) |}.

(** [getAvailableCoupons]: the ids of the coupons offered. *)
Definition couponOffered (now : Z) (customerId : string) (city : option string) (l : list CouponUsage)
    (p : string * Coupon) : bool :=
  let c := snd p in
  cpn_isActive c &&
  match cpn_startDate c with Some t => (t <=? now)%Z | None => true end &&
  match cpn_expiresAt c with Some t => (now <=? t)%Z | None => true end &&
  negb (globalLimitReached c) && negb (cityDiffers (cpn_city c) city) &&
  negb (customerLimitReached (fst p) customerId c l).
Definition getAvailableCoupons (now : Z) (customerId : string) (city : option string) : PM (list string) :=
  s ← get;
  mret (map fst (List.filter (couponOffered now customerId city (ps_usages s)) (map_to_list (ps_coupons s)))).

Definition createCoupon {col : NumericColumn} (freshId adminUserId : string) (dto : Coupon) : PM string :=
  let code := uppercase (trim (cpn_code dto)) in
  s ← get;
  require (match findCoupon code (ps_coupons s) with Some _ => false | None => true end) BadRequestException ;;
  modify (set_coupon freshId
    {| cpn_code := code; cpn_discountType := cpn_discountType dto;
       cpn_discountValue := store (cpn_discountValue dto);
       cpn_maxDiscountAmount := store <$> cpn_maxDiscountAmount dto;
       cpn_minBookingAmount := store <$> cpn_minBookingAmount dto;
       cpn_startDate := cpn_startDate dto; cpn_expiresAt := cpn_expiresAt dto;
       cpn_isActive := cpn_isActive dto; cpn_globalUsageLimit := cpn_globalUsageLimit dto;
       cpn_perCustomerLimit := Some (default 1%Z (cpn_perCustomerLimit dto));
       cpn_firstBookingOnly := cpn_firstBookingOnly dto; cpn_city := cpn_city dto;
       cpn_tripType := cpn_tripType dto; cpn_carCategory := cpn_carCategory dto; cpn_usageCount := 0%Z;
       cpn_vendorId := cpn_vendorId dto; cpn_branchId := cpn_branchId dto;
       cpn_minRentalDays := cpn_minRentalDays dto; cpn_stackable := cpn_stackable dto |}) ;;
  modify (fun s => set_core (set_audit (ls_audit (ps_core s) ++
    [{| al_userId := adminUserId; al_action := "COUPON_CREATED"; al_entityId := freshId |}]) (ps_core s)) s) ;;
  mret freshId.
End coupons.

(** ** Amounts *)
Lemma js_min_spec a b : (a <= b /\ js_min a b = a) \/ (b < a /\ js_min a b = b).
Proof. exact (d_min_spec a b). Qed.

Lemma paise_le p q : (p <= q)%Z -> inject_Z p / 100 <= inject_Z q / 100.
Proof.
  intros H. assert (inject_Z p <= inject_Z q) by (by rewrite <- Zle_Qle).
  assert (forall z, inject_Z z / 100 == inject_Z z * (1 # 100)) as E by (intros; field). rewrite !E. lra.
Qed.
Lemma money_nonneg_rupees p : money p -> (0 <= p)%Z -> 0 <= rupees p.
Proof. intros _ H. apply rnd_nonneg. apply (paise_le 0 p) in H.
  eapply Qle_trans; [|exact H]. discriminate. Qed.
Lemma rupees_mono p q : money p -> money q -> (p <= q)%Z -> rupees p <= rupees q.
Proof.
  intros Hp Hq H. destruct (Z.eq_dec p q) as [->|]; [lra|].
  assert (p + 1 <= q)%Z as H1%paise_le by lia. rewrite inject_Z_plus in H1.
  pose proof (near_rupees p Hp) as E1. pose proof (near_rupees q Hq) as E2. unfold near in *.
  apply Qabs_Qle_condition in E1 as [? ?], E2 as [? ?]. change (inject_Z 1) with 1 in H1.
  assert ((inject_Z p + 1) / 100 == inject_Z p / 100 + (1 # 100)) as E by field. rewrite E in H1. lra.
Qed.

(** Rounding an amount between zero and [q] paise gives between zero and [q]. *)
Lemma roundPaise_le x q : money q -> 0 <= x -> x <= rupees q ->
  exists p, roundPaise x = rupees p /\ (0 <= p <= q)%Z.
Proof.
  intros Hq H0 Hx. exists (js_round (js_mul x 100)). split; [done|].
  assert (0 <= js_mul x 100) as Hm by (apply rnd_nonneg; lra).
  pose proof (near_rupees q Hq) as E. unfold near in E. apply Qabs_Qle_condition in E as [_ E].
  pose proof (paise_bound _ Hq) as Hb. apply Qabs_Qle_condition in Hb as [_ Hb].
  assert (inject_Z q / 100 == inject_Z q * (1 # 100)) as Eq by field. rewrite Eq in *.
  assert (Qabs (x * 100) <= 10000000000002) as Ha by (rewrite Qabs_pos; lra).
  pose proof (rnd_close _ _ Ha) as Hr. fold (js_mul x 100) in Hr. apply Qabs_Qle_condition in Hr as [_ Hr].
  assert (10000000000002 * pow2 (-53) <= 1 # 800) by (vm_compute; discriminate).
  assert (js_mul x 100 < inject_Z q + (1 # 2)) as Hlt by lra.
  unfold js_round. split.
  - change 0%Z with (Qfloor 0). apply Qfloor_resp_le. lra.
  - assert (Qfloor (js_mul x 100 + (1 # 2)) < q + 1)%Z; [|lia].
    apply inject_Z_lt_inv. rewrite inject_Z_plus. change (inject_Z 1) with 1.
    pose proof (Qfloor_le (js_mul x 100 + (1 # 2))). lra.
Qed.
Lemma roundPaise_rupees p : money p -> roundPaise (rupees p) = rupees p.
Proof. intros H. unfold roundPaise. by rewrite (rupees_to_paise p H). Qed.

#[export] Instance js_mul_proper : Proper (Qeq ==> Qeq ==> Qeq) js_mul.
Proof. intros a b E c d F. unfold js_mul. by rewrite E, F. Qed.
#[export] Instance roundPaise_proper : Proper (Qeq ==> eq) roundPaise.
Proof. intros a b E. unfold roundPaise. by rewrite E. Qed.

(** [pct] per cent of [q] paise, to a hundredth of a paisa, up to a billion
    rupees. *)
Lemma percent_near q pct : (0 <= q <= 10 ^ 11)%Z -> 0 <= pct -> pct <= 100 ->
  Qabs (js_div (js_mul (rupees q) (rnd pct)) 100 - inject_Z q * pct * (1 # 10000)) <= 1 # 10000.
Proof.
  intros Hq H0 H1. assert (money q) as Hm by (unfold money; lia).
  pose proof (near_rupees q Hm) as Ea. unfold near in Ea. apply Qabs_Qle_condition in Ea as [Ea1 Ea2].
  assert (inject_Z q / 100 == inject_Z q * (1 # 100)) as Eq by field. rewrite Eq in *. clear Eq.
  assert (0 <= inject_Z q) as Hq0 by (change 0 with (inject_Z 0); rewrite <- Zle_Qle; lia).
  assert (inject_Z q <= 100000000000) as Hq1 by (change 100000000000 with (inject_Z (10 ^ 11)); rewrite <- Zle_Qle; lia).
  assert (Qabs pct <= 100) as Hp by (by rewrite Qabs_pos).
  pose proof (rnd_close _ _ Hp) as Er. apply Qabs_Qle_condition in Er as [Er1 Er2].
  assert (pow2 (-53) <= 1 # 9007199254740992) as Hpow by (vm_compute; discriminate).
  set (a := rupees q) in *. set (u := inject_Z q) in *. set (r := rnd pct) in *.
  assert (0 <= a) as Ha0 by (apply money_nonneg_rupees; [done|lia]).
  assert (0 <= r) as Hr0 by (by apply rnd_nonneg).
  assert (- (1 # 70000000) <= r - pct /\ r - pct <= 1 # 70000000000000) as [Hr1 Hr2] by (split; lra).
  assert (Qabs (a * r - u * (1 # 100) * pct) <= 1 # 700) as E1.
  { assert (a * r - u * (1 # 100) * pct == (a - u * (1 # 100)) * pct + a * (r - pct)) as -> by ring.
    assert (- (1 # 70000000000000) <= r - pct) as Hr1' by lra.
    assert (- (100 # 80000) <= (a - u * (1 # 100)) * pct <= 100 # 80000) as [? ?] by (split; nra).
    assert (a <= 1000000001) as Ha1 by lra.
    assert (- (1000000001 # 70000000000000) <= a * (r - pct) <= 1000000001 # 70000000000000) as [? ?] by (split; nra).
    apply Qabs_Qle_condition. split; lra. }
  apply Qabs_Qle_condition in E1 as [E1 E2].
  assert (u * (1 # 100) * pct <= 100000000000) as Hup by nra.
  assert (0 <= u * (1 # 100) * pct) as Hup0 by nra.
  assert (Qabs (a * r) <= 100000000001) as Hb by (apply Qabs_Qle_condition; split; lra).
  pose proof (rnd_close _ _ Hb) as E3. fold (js_mul a r) in E3. apply Qabs_Qle_condition in E3 as [E3 E4].
  set (m := js_mul a r) in *. assert (m / 100 == m * (1 # 100)) as Em by field.
  assert (Qabs (m / 100) <= 1000000001) as Hb2 by (rewrite Em; apply Qabs_Qle_condition; split; lra).
  pose proof (rnd_close _ _ Hb2) as E5. fold (js_div m 100) in E5. rewrite Em in E5.
  apply Qabs_Qle_condition in E5 as [E5 E6].
  apply Qabs_Qle_condition. split; lra.
Qed.

(** ** Properties *)
Section coupon_laws.
Context {R : Type}.
Implicit Types s : PayStore R.

(** What an accepted coupon satisfies. *)
Record coupon_accepted (now : Z) (customerId : string) (dto : ValidateCouponDto) s
    (couponId : string) (c : Coupon) : Prop := {
  ca_row : ps_coupons s !! couponId = Some c;
  ca_code : cpn_code c = uppercase (trim (cd_code dto));
  ca_active : cpn_isActive c = true;
  ca_started : forall t, cpn_startDate c = Some t -> (t <= now)%Z;
  ca_alive : forall t, cpn_expiresAt c = Some t -> (now <= t)%Z;
  ca_global : forall limit, cpn_globalUsageLimit c = Some limit -> (cpn_usageCount c < limit)%Z;
  ca_customer : (usesBy couponId customerId (ps_usages s) < default 1 (cpn_perCustomerLimit c))%Z;
  ca_first : cpn_firstBookingOnly c = true -> forall id b, ls_bookings (ps_core s) !! id = Some b ->
    b_customerId b = customerId -> b_status b ∉ [BS_CONFIRMED; BS_ONGOING; BS_COMPLETED];
  ca_min : forall m, cpn_minBookingAmount c = Some m -> rnd m <= cd_subtotal dto;
}.

Lemma findCoupon_Some code (m : gmap string Coupon) p : findCoupon code m = Some p ->
  m !! fst p = Some (snd p) /\ cpn_code (snd p) = code.
Proof.
  intros [Hin Hc]%find_Some_elem. destruct p as [i c]. split; [by apply elem_of_map_to_list|].
  by apply String.eqb_eq.
Qed.

Lemma validateCoupon_Ok now customerId dto s r s' : validateCoupon now customerId dto s = (Ok r, s') ->
  s' = s /\ exists c, coupon_accepted now customerId dto s (co_couponId r) c /\
    co_discountAmount r = roundPaise (rawDiscount c (cd_subtotal dto)) /\
    co_finalPayableAmount r = js_max 0 (js_sub (cd_subtotal dto) (co_discountAmount r)).
Proof.
  unfold validateCoupon. intros H. step_in H.
  destruct (findCoupon _ _) as [[id c]|] eqn:Ef; [|done]. apply findCoupon_Some in Ef as [Hrow Hcode]. simpl in *.
  repeat (step_in H; match type of H with context [if ?b then _ else _] =>
    lazymatch b with cpn_isActive _ => destruct b eqn:? | match _ with _ => _ end => destruct b eqn:?
                   | negb _ => destruct b eqn:? end; [|done] end).
  step_in H. injection H as <- <-. split; [done|]. exists c. split; [|done]. simpl.
  repeat match goal with E : negb _ = true |- _ => apply negb_true_iff in E end.
  split; try done.
  - intros t Ht. rewrite Ht in *. repeat match goal with E : negb _ = true |- _ => apply negb_true_iff in E end. lia.
  - intros t Ht. rewrite Ht in *. repeat match goal with E : negb _ = true |- _ => apply negb_true_iff in E end. lia.
  - intros l Hl. unfold globalLimitReached in *. rewrite Hl in *. lia.
  - unfold customerLimitReached in *. lia.
  - intros Hf i b Hi Hb Hst. rewrite Hf in *. simpl in *.
    assert (existsb (fun p => countsAsBooking customerId p.2) (map_to_list (ls_bookings (ps_core s))) = true); [|congruence].
    apply existsb_exists. exists (i, b). split; [by apply list_elem_of_In, elem_of_map_to_list|].
    unfold countsAsBooking. simpl. rewrite Hb, String.eqb_refl. by apply bool_decide_true.
  - intros m Hm. rewrite Hm in *. unfold js_lt in *.
    repeat match goal with E : negb _ = true |- _ => apply negb_true_iff in E end. dec_bool.
    destruct (Qle_bool (rnd m) (cd_subtotal dto)) eqn:E; [by apply Qle_bool_iff|done].
Qed.

(** The terms a coupon row holds: a value and a cap in whole hundredths, a
    percentage up to a hundred. *)
Record coupon_terms (c : Coupon) : Prop := {
  ct_value : exists v, cpn_discountValue c == inject_Z v / 100 /\ money v /\ (0 <= v)%Z;
  ct_percent : cpn_discountType c = DT_PERCENTAGE -> cpn_discountValue c <= 100;
  ct_cap : forall m, cpn_maxDiscountAmount c = Some m -> exists k, m == inject_Z k / 100 /\ money k /\ (0 <= k)%Z;
}.

(** What the coupon takes off [amount], unrounded. *)
Definition couponValue (c : Coupon) (amount : Q) : Q :=
  d_min (match cpn_discountType c with
         | DT_FIXED => cpn_discountValue c
         | DT_PERCENTAGE =>
           let share := amount * cpn_discountValue c * (1 # 100) in
           match cpn_maxDiscountAmount c with Some cap => d_min share cap | None => share end
         end) amount.

Lemma js_min_close a b a' b' e : Qabs (a - a') <= e -> Qabs (b - b') <= e -> Qabs (js_min a b - d_min a' b') <= e.
Proof.
  intros Ha%Qabs_Qle_condition Hb%Qabs_Qle_condition. apply Qabs_Qle_condition.
  destruct (js_min_spec a b) as [[? ->]|[? ->]], (d_min_spec a' b') as [[? ->]|[? ->]]; split; lra.
Qed.

Lemma rnd_rupees x v : x == inject_Z v / 100 -> rnd x == rupees v.
Proof. intros E. unfold rupees. by rewrite E. Qed.
Lemma rnd_amount_close x v : x == inject_Z v / 100 -> money v -> Qabs (rnd x - x) <= 1 # 10000.
Proof.
  intros E H. rewrite (rnd_rupees x v E), E. eapply Qle_trans; [by apply rupees_err|]. discriminate.
Qed.

Lemma rawDiscount_close c q : coupon_terms c -> (0 <= q <= 10 ^ 11)%Z ->
  Qabs (rawDiscount c (rupees q) - couponValue c (inject_Z q / 100)) <= 1 # 10000.
Proof.
  intros [(v & Ev & Hv & Hv0) Hp Hcap] Hq. assert (money q) as Hm by (unfold money; lia).
  unfold rawDiscount, couponValue. apply js_min_close.
  2: { eapply Qle_trans; [by apply rupees_err|]. discriminate. }
  destruct (cpn_discountType c) eqn:Et; [|by apply (rnd_amount_close _ v)].
  assert (Qabs (js_div (js_mul (rupees q) (rnd (cpn_discountValue c))) 100 -
    inject_Z q / 100 * cpn_discountValue c * (1 # 100)) <= 1 # 10000) as Hs.
  { assert (inject_Z q / 100 * cpn_discountValue c * (1 # 100) == inject_Z q * cpn_discountValue c * (1 # 10000))
      as -> by field.
    apply percent_near; [done| |by apply Hp]. rewrite Ev. eapply Qle_trans; [|apply (paise_le 0 v); done]. discriminate. }
  destruct (cpn_maxDiscountAmount c) as [m|] eqn:Em; [|done]. destruct (Hcap m eq_refl) as (k & Ek & Hk & _).
  apply js_min_close; [done|by apply (rnd_amount_close _ k)].
Qed.

Lemma rawDiscount_range c q : coupon_terms c -> (0 <= q <= 10 ^ 11)%Z ->
  0 <= rawDiscount c (rupees q) /\ rawDiscount c (rupees q) <= rupees q.
Proof.
  intros [(v & Ev & Hv & Hv0) Hp Hcap] Hq. assert (money q) as Hm by (unfold money; lia).
  assert (0 <= rupees q) as Hr by (apply money_nonneg_rupees; [done|lia]).
  assert (0 <= rnd (cpn_discountValue c)) as Hd.
  { apply rnd_nonneg. rewrite Ev. eapply Qle_trans; [|apply (paise_le 0 v); done]. discriminate. }
  unfold rawDiscount. set (x := match cpn_discountType c with DT_PERCENTAGE => _ | DT_FIXED => _ end).
  assert (0 <= x) as Hx; [|destruct (js_min_spec x (rupees q)) as [[? ->]|[? ->]]; split; lra].
  subst x. destruct (cpn_discountType c); [|done].
  assert (0 <= js_div (js_mul (rupees q) (rnd (cpn_discountValue c))) 100) as Hs.
  { apply rnd_nonneg. apply Qle_shift_div_l; [reflexivity|]. assert (0 * 100 == 0) as -> by reflexivity.
    apply rnd_nonneg, Qmult_le_0_compat; done. }
  destruct (cpn_maxDiscountAmount c) as [m|] eqn:Em; [|done]. destruct (Hcap m eq_refl) as (k & Ek & Hk & Hk0).
  assert (0 <= rnd m) as Hm0.
  { apply rnd_nonneg. rewrite Ek. eapply Qle_trans; [|apply (paise_le 0 k); done]. discriminate. }
  destruct (js_min_spec (js_div (js_mul (rupees q) (rnd (cpn_discountValue c))) 100) (rnd m)) as [[? ->]|[? ->]]; done.
Qed.

(** Rounding to paise moves an amount by at most half a paisa and a bit. *)
Lemma roundPaise_near x q p : (0 <= q <= 10 ^ 11)%Z -> 0 <= x -> x <= rupees q ->
  roundPaise x = rupees p -> (0 <= p <= q)%Z -> Qabs (inject_Z p / 100 - x) <= 6 # 1000.
Proof.
  intros Hq H0 H1 Ep Hp. assert (money q /\ money p) as [Hm Hmp] by (unfold money; lia).
  pose proof (near_rupees q Hm) as En. unfold near in En. apply Qabs_Qle_condition in En as [_ En].
  assert (inject_Z q <= inject_Z (10 ^ 11)) as Hq' by (rewrite <- Zle_Qle; lia).
  change (inject_Z (10 ^ 11)) with 100000000000 in Hq'.
  assert (inject_Z q / 100 == inject_Z q * (1 # 100)) as Eq by field. rewrite Eq in En.
  assert (Qabs x <= 1000000001) as Hx by (rewrite Qabs_pos by done; lra).
  pose proof (round_paise_bound x _ Hx ltac:(discriminate) ltac:(discriminate)) as Hb.
  apply Qabs_Qle_condition in Hb as [Hb1 Hb2].
  assert (money (js_round (js_mul x 100))) as Hmr.
  { unfold money. assert (js_round (js_mul x 100) < 10 ^ 13)%Z.
    { apply inject_Z_lt_inv. change (inject_Z (10 ^ 13)) with 10000000000000. lra. }
    assert (- 2 < js_round (js_mul x 100))%Z; [|lia].
    apply inject_Z_lt_inv. change (inject_Z (-2)) with (-2). lra. }
  assert (js_round (js_mul x 100) = p) as E.
  { rewrite <- (rupees_to_paise p Hmp), <- Ep. symmetry.
    exact (rupees_to_paise (js_round (js_mul x 100)) Hmr). }
  pose proof (js_round_half (js_mul x 100)) as Hh. rewrite E in Hh.
  assert (Qabs (x * 100) <= 100000000001) as Hx100 by (rewrite Qabs_pos; lra).
  pose proof (rnd_close _ _ Hx100) as Hr. fold (js_mul x 100) in Hr.
  assert (100000000001 * pow2 (-53) <= 1 # 80000) by (vm_compute; discriminate).
  apply Qabs_Qle_condition in Hh as [? ?], Hr as [? ?].
  assert (inject_Z p / 100 == inject_Z p * (1 # 100)) as -> by field.
  apply Qabs_Qle_condition. split; lra.
Qed.

(** C30. A coupon takes off what it says, to the paisa, although it is
    computed in floating point: an accepted coupon is active, in its period
    and within its limits; on a subtotal of [q] paise up to a billion rupees
    the discount is a whole number of paise between zero and [q], within a
    paisa of the percentage (up to the cap) or the fixed amount, and what
    remains to pay is the rest. *)
Theorem coupon_discount_exact now customerId dto s r s' q
    (H : validateCoupon now customerId dto s = (Ok r, s')) (Hq : (0 <= q <= 10 ^ 11)%Z)
    (Hs : cd_subtotal dto = rupees q)
    (Ht : forall c, ps_coupons s !! co_couponId r = Some c -> coupon_terms c) :
  s' = s /\ exists c p, coupon_accepted now customerId dto s (co_couponId r) c /\
    co_discountAmount r = rupees p /\ (0 <= p <= q)%Z /\
    Qabs (inject_Z p / 100 - couponValue c (inject_Z q / 100)) < 1 # 100 /\
    near (co_finalPayableAmount r) (q - p) (1 # 10000).
Proof.
  apply validateCoupon_Ok in H as (-> & c & Hc & Hd & Hf). split; [done|]. exists c.
  specialize (Ht c (ca_row _ _ _ _ _ _ Hc)). rewrite Hs in *.
  assert (money q) as Hm by (unfold money; lia).
  destruct (rawDiscount_range c q Ht Hq) as [H0 H1]. pose proof (rawDiscount_close c q Ht Hq) as Hcl.
  set (x := rawDiscount c (rupees q)) in *.
  destruct (roundPaise_le x q Hm H0 H1) as (p & Ep & Hp). exists p. rewrite Ep in Hd. split_and!; try done; try lia.
  - pose proof (roundPaise_near x q p Hq H0 H1 Ep Hp) as Hn.
    apply Qabs_Qle_condition in Hn as [? ?], Hcl as [? ?]. apply Qabs_Qlt_condition. split; lra.
  - rewrite Hf, Hd. assert (money p /\ money (q - p)) as [Hmp Hmqp] by (unfold money; lia).
    pose proof (near_sub _ _ _ _ (1 # 80000) (1 # 80000) Hmqp ltac:(discriminate) (near_rupees q Hm) (near_rupees p Hmp)) as Hn.
    unfold js_max. destruct (Qle_bool 0 _) eqn:E.
    + eapply near_weaken; [|exact Hn]. discriminate.
    + assert (js_sub (rupees q) (rupees p) < 0) as Hneg.
      { apply Qnot_le_lt. intros X%Qle_bool_iff. congruence. }
      assert (p <= q)%Z as Hpq by lia. pose proof (rupees_mono p q Hmp Hm Hpq).
      assert (0 <= js_sub (rupees q) (rupees p)); [apply rnd_nonneg; lra|lra].
Qed.
End coupon_laws.

(** ** Usage stays within the limits *)
Section usage.
Context {R : Type} {col : NumericColumn} {dec : DecimalArith}.
Implicit Types s : PayStore R.

(** Every usage belongs to a coupon, no booking used two; a coupon's counter
    is the number of its usages and neither limit is exceeded. *)
Record within_limits (m : gmap string Coupon) (l : list CouponUsage) : Prop := {
  wl_known : forall u, u ∈ l -> is_Some (m !! cu_couponId u);
  wl_once : NoDup (cu_bookingId <$> l);
  wl_count : forall id c, m !! id = Some c -> cpn_usageCount c = Z.of_nat (length (usesOf id l));
  wl_global : forall id c limit, m !! id = Some c -> cpn_globalUsageLimit c = Some limit ->
    (cpn_usageCount c <= Z.max 0 limit)%Z;
  wl_customer : forall id c customer, m !! id = Some c ->
    (usesBy id customer l <= Z.max 0 (default 1 (cpn_perCustomerLimit c)))%Z;
}.
Definition coupons_ok s : Prop := within_limits (ps_coupons s) (ps_usages s).

Lemma usesOf_snoc id l u :
  length (usesOf id (l ++ [u])) = (length (usesOf id l) + if String.eqb (cu_couponId u) id then 1 else 0)%nat.
Proof.
  unfold usesOf. rewrite filter_app, length_app. f_equal. rewrite filter_cons.
  case_decide as E; [apply Is_true_true in E|apply Is_true_false in E]; by rewrite E.
Qed.
Lemma usesBy_snoc id cust l u : usesBy id cust (l ++ [u]) =
  (usesBy id cust l + if String.eqb (cu_couponId u) id && String.eqb (cu_customerId u) cust then 1 else 0)%Z.
Proof.
  unfold usesBy. rewrite filter_app, length_app, Nat2Z.inj_add. f_equal. rewrite filter_cons.
  case_decide as E; [apply Is_true_true in E|apply Is_true_false in E]; by rewrite E.
Qed.

Lemma redemption_within m l id c u : within_limits m l -> m !! id = Some c -> cu_couponId u = id ->
  globalLimitReached c = false -> (usesBy id (cu_customerId u) l < default 1 (cpn_perCustomerLimit c))%Z ->
  (forall v, v ∈ l -> cu_bookingId v <> cu_bookingId u) ->
  within_limits (<[id := with_usageCount (cpn_usageCount c + 1) c]> m) (l ++ [u]).
Proof.
  intros [Hk Ho Hn Hg Hc] Hid Hu Hgl Hcl Hb. split.
  - intros v [Hv| ->%list_elem_of_singleton]%elem_of_app; apply lookup_insert_is_Some'; [right; auto|by left].
  - rewrite fmap_app. apply NoDup_app. split_and!; [done| |apply NoDup_singleton].
    intros x (v & -> & Hv)%list_elem_of_fmap. simpl. rewrite list_elem_of_singleton. by apply Hb.
  - intros i c' Hi. rewrite usesOf_snoc, Hu. destruct (String.eqb_spec id i) as [->|Hne].
    + rewrite lookup_insert_eq in Hi. injection Hi as <-. simpl. rewrite (Hn _ _ Hid). lia.
    + rewrite lookup_insert_ne in Hi by done. rewrite Nat.add_0_r. by apply Hn.
  - intros i c' limit Hi Hl. destruct (decide (id = i)) as [->|Hne].
    + rewrite lookup_insert_eq in Hi. injection Hi as <-. simpl in *.
      unfold globalLimitReached in Hgl. rewrite Hl in Hgl. lia.
    + rewrite lookup_insert_ne in Hi by done. by apply (Hg i).
  - intros i c' cust Hi. rewrite usesBy_snoc, Hu. destruct (String.eqb_spec id i) as [->|Hne].
    + rewrite lookup_insert_eq in Hi. injection Hi as <-. simpl.
      destruct (String.eqb_spec (cu_customerId u) cust) as [<-|_]; simpl; [lia|].
      rewrite Z.add_0_r. by apply Hc.
    + rewrite lookup_insert_ne in Hi by done. rewrite Z.add_0_r. by apply Hc.
Qed.

Lemma redeem_within id b s u s' : redeemCoupon (R:=R) id b s = (Ok u, s') -> coupons_ok s -> coupons_ok s'.
Proof.
  intros H Hs. unfold redeemCoupon in H. destruct (truthy (b_couponId b)) as [cid|]; [|by injection H as _ <-].
  rewrite get_bind in H. destruct (existsb _ _) eqn:Eb; [by injection H as _ <-|].
  rewrite from_option_bind in H. destruct (ps_coupons s !! cid) as [c|] eqn:Ec; [|done].
  step_in H. destruct (cpn_isActive c); [|done]. step_in H.
  destruct (match cpn_globalUsageLimit c with Some _ => _ | None => true end) eqn:Eg; [|done].
  cbv zeta in H. step_in H. fold (usesBy cid (b_customerId b) (ps_usages s)) in H.
  destruct (negb _) eqn:El; [|done]. step_in H. destruct (b_discountAmount b) as [d|]; [|done].
  rewrite modify_run in H. injection H as _ <-. apply negb_true_iff, Z.leb_gt in El.
  apply (redemption_within (ps_coupons s)); try done.
  - unfold globalLimitReached. destruct (cpn_globalUsageLimit c); [by apply negb_true_iff|done].
  - intros v Hv E. simpl in E. assert (existsb (fun u => String.eqb (cu_bookingId u) id) (ps_usages s) = true); [|congruence].
    apply existsb_exists. exists v. split; [by apply list_elem_of_In|by apply String.eqb_eq].
Qed.

Lemma coupons_ok_view s s' : coupon_view s' = coupon_view s -> coupons_ok s -> coupons_ok s'.
Proof. intros [= E1 E2]. unfold coupons_ok. by rewrite E1, E2. Qed.

Variable yearMonth : Z -> string.

Lemma settlement_within env dto b p g w :
  preserves coupons_ok (transaction (settlePayment (R:=R) yearMonth env dto b p g w)).
Proof.
  intros s r s' H Hs. destruct r as [o|e]; [|by apply transaction_Throw in H as [-> _]].
  rewrite transaction_Ok in H.
  apply settlePayment_Ok in H as (s1 & s2 & s3 & s4 & Hw & _ & _ & F2 & Hd & Hj & _ & _ & Hr).
  assert (coupon_view s4 = coupon_view s) as E.
  { transitivity (coupon_view s3); [exact (f_equal snd (keeps_eq _ _ _ _ _ (keeps_journal _ _ _ _ _ _ _ _) Hj))|].
    transitivity (coupon_view s2); [exact (f_equal (fun f => f.1.2) (keeps_eq _ _ _ _ _ (keeps_holdDeposit _ _ _ _) Hd))|].
    transitivity (coupon_view s1); [exact (f_equal snd F2)|].
    exact (f_equal snd (keeps_eq _ _ _ _ _ (keeps_settleWallet _ _ _ _) Hw)). }
  apply (coupons_ok_view _ _ E) in Hs. destruct o as [b'|]; [|by apply (coupons_ok_view s4)].
  destruct Hr as (s5 & Hr & Ev). apply (coupons_ok_view s5); [done|]. exact (redeem_within _ _ _ _ _ Hr Hs).
Qed.

Lemma coupons_of_payment_frame {A} (m : M (PayStore R) A) : keeps payment_frame m -> preserves coupons_ok m.
Proof.
  intros H s r s' E. apply coupons_ok_view. exact (f_equal snd (keeps_eq _ _ _ _ _ H E)).
Qed.

Lemma findCoupon_None code (m : gmap string Coupon) id c :
  findCoupon code m = None -> m !! id = Some c -> cpn_code c <> code.
Proof.
  intros H Hi. apply find_None_iff with (x := (id, c)) in H; [|by apply elem_of_map_to_list].
  by apply String.eqb_neq.
Qed.

(** The requests that change coupons: a payment that is verified, and a new
    coupon under an id no coupon has. *)
Inductive coupon_step s s' : Prop :=
  | step_verify env dto customer r : verifyPayment yearMonth env dto customer s = (r, s') -> coupon_step s s'
  | step_create id admin dto r : ps_coupons s !! id = None ->
      createCoupon (col:=col) id admin dto s = (r, s') -> coupon_step s s'.

Lemma createCoupon_within id admin dto s r s' : ps_coupons s !! id = None ->
  createCoupon (col:=col) id admin dto s = (r, s') -> coupons_ok s -> coupons_ok s'.
Proof.
  intros Hn H [Hk Ho Hc Hg Hu]. unfold createCoupon in H. step_in H. cbv zeta in H.
  destruct (findCoupon _ _); [by injection H as _ <-|]. simpl in H. injection H as _ <-.
  assert (forall u, u ∈ ps_usages s -> cu_couponId u <> id) as Hid.
  { intros u [c Hu']%Hk E. rewrite E in Hu'. congruence. }
  assert (forall cust, usesBy id cust (ps_usages s) = 0%Z) as Hby.
  { intros cust. unfold usesBy. rewrite filter_none; [done|].
    intros u Hin [E _]%Is_true_true%andb_true_iff. apply String.eqb_eq in E. by apply (Hid u). }
  split; simpl.
  - intros u Hu'. apply lookup_insert_is_Some'. right. by apply Hk.
  - done.
  - intros i c Hi. destruct (decide (id = i)) as [->|Hne].
    + rewrite lookup_insert_eq in Hi. injection Hi as <-. simpl. unfold usesOf.
      rewrite filter_none; [done|].
      intros u Hin E%Is_true_true. apply String.eqb_eq in E. by apply (Hid u).
    + rewrite lookup_insert_ne in Hi by done. by apply Hc.
  - intros i c limit Hi Hl. destruct (decide (id = i)) as [->|Hne].
    + rewrite lookup_insert_eq in Hi. injection Hi as <-. simpl. lia.
    + rewrite lookup_insert_ne in Hi by done. by apply (Hg i).
  - intros i c cust Hi. destruct (decide (id = i)) as [->|Hne].
    + rewrite lookup_insert_eq in Hi. injection Hi as <-. rewrite Hby. lia.
    + rewrite lookup_insert_ne in Hi by done. by apply Hu.
Qed.

(** C31. Coupons stay within their limits: through any sequence of verified
    payments and newly created coupons, every coupon's counter is the number
    of its usages and does not exceed the global limit, no customer uses it
    more often than allowed, and no booking uses two coupons. *)
Theorem coupons_stay_within_limits s s' (H : rtc coupon_step s s') (Hs : coupons_ok s) : coupons_ok s'.
Proof.
  revert H Hs. apply rtc_invariant. intros a b [env dto customer r H|id admin dto r Hn H] Ha.
  - revert H Ha. apply verifyPayment_invariant; [intros; by apply coupons_of_payment_frame|].
    intros. apply settlement_within.
  - by apply (createCoupon_within id admin dto a r).
Qed.
End usage.

(** ** Concrete runs *)
Definition save_coupon : Coupon :=
  {| cpn_code := " save "; cpn_discountType := DT_PERCENTAGE; cpn_discountValue := 125 # 10;
     cpn_maxDiscountAmount := Some 500; cpn_minBookingAmount := Some 1000; cpn_startDate := None;
     cpn_expiresAt := Some (500 * HOUR)%Z; cpn_isActive := true; cpn_globalUsageLimit := Some 1%Z;
     cpn_perCustomerLimit := None; cpn_firstBookingOnly := true; cpn_city := Some "Pune";
     cpn_tripType := None; cpn_carCategory := None; cpn_usageCount := 7%Z; cpn_vendorId := None; cpn_branchId := None;
     cpn_minRentalDays := None; cpn_stackable := false |}.
(** The standard rental with 50 taken off by coupon "k1". *)
Definition with_coupon (b : Booking) : Booking :=
  {| b_customerId := b_customerId b; b_vendorId := b_vendorId b; b_carId := b_carId b;
     b_pickupHubId := b_pickupHubId b; b_startDate := b_startDate b; b_endDate := b_endDate b;
     b_totalFare := b_totalFare b - 50; b_platformFee := b_platformFee b; b_gstAmount := b_gstAmount b;
     b_netToVendor := b_netToVendor b; b_disputeFlag := b_disputeFlag b; b_quoteTotal := b_quoteTotal b;
     b_couponId := Some "k1"; b_discountAmount := Some 50; b_corporateAccountId := b_corporateAccountId b;
     b_cancellationMatrix := b_cancellationMatrix b; b_commissionSplit := b_commissionSplit b;
     b_securityDeposit := b_securityDeposit b; b_status := b_status b;
     b_cancellationReason := b_cancellationReason b; b_cancellationFee := b_cancellationFee b;
     b_refundAmount := b_refundAmount b; b_cancelledAt := b_cancelledAt b; b_cancelledBy := b_cancelledBy b |}.
Definition coupon_store : PayStore RedisMem :=
  pay_store {["b1" := with_coupon (standard_rental BS_PENDING)]} {["b1" := ordered_payment]} (customer_wallet 0).
Definition created_run : result string * PayStore RedisMem := createCoupon "k1" "admin" save_coupon coupon_store.
Definition redeemed_run : result VerifyResult * PayStore RedisMem :=
  verifyPayment year_month (live_env 606800) dto_1 "c1" (snd created_run).

Lemma coupons_stay_within_limits_witness :
  coupons_ok (snd redeemed_run) /\
  cpn_usageCount <$> ps_coupons (snd redeemed_run) !! "k1" = Some 1%Z.
Proof.
  split; [|vm_compute; reflexivity].
  apply (coupons_stay_within_limits year_month coupon_store).
  - apply rtc_l with (snd created_run).
    { apply (step_create year_month _ _ "k1" "admin" save_coupon (fst created_run));
        [reflexivity|exact (surjective_pairing created_run)]. }
    apply rtc_once. apply (step_verify year_month _ _ (live_env 606800) dto_1 "c1" (fst redeemed_run)).
    exact (surjective_pairing redeemed_run).
  - split; simpl.
    + intros u Hu. exfalso. by apply not_elem_of_nil in Hu.
    + apply NoDup_nil_2.
    + intros id c Hi. rewrite lookup_empty in Hi. discriminate Hi.
    + intros id c l Hi. rewrite lookup_empty in Hi. discriminate Hi.
    + intros id c cust Hi. rewrite lookup_empty in Hi. discriminate Hi.
Defined.

Definition save_dto : ValidateCouponDto :=
  {| cd_code := "Save"; cd_car := None; cd_subtotal := rupees 333333; cd_city := Some "pune";
     cd_tripType := Some TRIP_SELF_DRIVE; cd_carCategory := Some CAT_SUV |}.
Definition save_run : result CouponResult * PayStore RedisMem :=
  validateCoupon HOUR "c2" save_dto (snd created_run).

Lemma coupon_discount_exact_witness :
  exists r, fst save_run = Ok r /\ exists c p, co_discountAmount r = rupees p /\ (0 <= p <= 333333)%Z /\
    Qabs (inject_Z p / 100 - couponValue c (inject_Z 333333 / 100)) < 1 # 100.
Proof.
  destruct (fst save_run) as [r|] eqn:E; [|vm_compute in E; discriminate E]. exists r. split; [reflexivity|].
  destruct (coupon_discount_exact HOUR "c2" save_dto (snd created_run) r (snd save_run) 333333)
    as (_ & c & p & _ & H1 & H2 & H3 & _).
  - rewrite <- E. exact (surjective_pairing save_run).
  - lia.
  - reflexivity.
  - intros c Hc. assert (co_couponId r = "k1") as Ek by (vm_compute in E; injection E as <-; reflexivity).
    rewrite Ek in Hc. vm_compute in Hc. injection Hc as <-. split.
    + exists 1250%Z. split_and!; [reflexivity|vm_compute; discriminate|lia].
    + intros _. vm_compute. discriminate.
    + intros m [= <-]. exists 50000%Z. split_and!; [reflexivity|vm_compute; discriminate|lia].
  - exists c, p. exact (conj H1 (conj H2 H3)).
Defined.

(** The coupon is used up by one booking: the next customer is refused. *)
Lemma used_up_coupon_is_refused :
  fst (validateCoupon HOUR "c2" save_dto (snd redeemed_run)) = Throw BadRequestException.
Proof. vm_compute. reflexivity. Qed.
