(* ===== verification/Quotes.v ===== *)
(** * Quotes: src/car_rental_backend/src/pricing/pricing.service.ts

    [generateQuote], [getQuoteById], [refreshQuote] and
    [verifyAndAcceptQuote].  The catalogue of cars and prices is read only
    here.  What the other services answer (availability, demand pricing,
    delivery, configuration) are arguments, gathered in [QuoteEnv]; the names
    and descriptions of line items are left out. *)
From S2P Require Import Prelude JsNumber Decimal Schema Ledger Wallet Locks HandoverOtp PaymentRefund Outbox BookingStore.
From S2P Require Import CancellationPolicy BookingLifecycle Payments PaymentOrders FareCalculator Coupons.
Open Scope Z_scope.
Open Scope Q_scope.

(** ** The catalogue *)

(** The columns of a car, its vendor and its service area that pricing and
    booking creation read besides those of [Car]; the discounts are floats. *)
Record CarOffer : Type := {
  cf_vendorId : string;
  cf_vendorCity : string;
  cf_vendorVerification : VerificationStatus;
  cf_areaStatus : option (ServiceAreaStatus * ServiceAreaStatus);   (* area, its city *)
  cf_availableTripTypes : list TripType;
  cf_blockedDates : list Z;
  cf_pricePerKm : Q;
  cf_pricePerDay : Q;
  cf_pricePerHour : Q;
  cf_weeklyDiscountPercent : option Q;
  cf_monthlyDiscountPercent : option Q;
}.
Record MileagePackage : Type := {
  mp_carId : string;
  mp_tripType : TripType;
  mp_basePricePerDay : Q;
  mp_isActive : bool;
}.
Record ProtectionPackage : Type := {
  pp_isActive : bool;
  pp_city : option string;
  pp_dailyRate : Q;
}.
Record Catalog : Type := {
  ct_offers : gmap string CarOffer;
  ct_packages : gmap string MileagePackage;
  ct_protection : gmap string ProtectionPackage;
  ct_commission : list CommissionConfig;
  ct_deposits : list DepositRule;
  ct_closures : list (string * Z);                (* location, date it is closed *)
}.

(** ** Quotes and holds *)
Record QuoteLineItem : Type := {
  qi_type : QuoteLineItemType;
  qi_rate : Q;
  qi_quantity : Q;
  qi_amount : Q;
  qi_isRefundable : bool;
}.
Record AncillarySelectionInput : Type := {
  as_code : string;
  as_quantity : option Q;
}.
(** What the marketplace adds to the metadata of its quotes. *)
Record MarketMetadata : Type := {
  mm_integrityChecksum : string;
  mm_vehicleClass : CarCategory;
  mm_appliedCouponCode : option string;
  mm_ancillarySelections : list AncillarySelectionInput;
}.
Record QuoteMetadata : Type := {
  qm_mileagePackageId : option string;
  qm_couponCode : option string;
  qm_deliveryAddress : option string;
  qm_pickupHubId : option string;
  qm_returnHubId : option string;
  qm_market : option MarketMetadata;
}.
Record BookingQuote : Type := {
  bq_tenantId : string;
  bq_customerId : option string;
  bq_carId : string;
  bq_tripType : TripType;
  bq_startDate : Z;
  bq_endDate : Z;
  bq_durationDays : Z;
  bq_durationHours : Z;
  bq_subtotal : Q;
  bq_discountTotal : Q;
  bq_feesTotal : Q;
  bq_taxTotal : Q;
  bq_depositTotal : Q;
  bq_totalPayable : Q;
  bq_netToVendor : Q;
  bq_status : QuoteStatus;
  bq_expiresAt : Z;
  bq_acceptedAt : option Z;
  bq_idempotencyKey : option string;
  bq_metadata : QuoteMetadata;
  bq_lineItems : list QuoteLineItem;
}.
Record VehicleHold : Type := {
  vh_id : string;
  vh_carId : string;
  vh_customerId : string;
  vh_vendorId : string;
  vh_startDate : Z;
  vh_endDate : Z;
  vh_expiresAt : Z;
  vh_status : VehicleHoldStatus;
  vh_idempotencyKey : option string;
}.

Record SalesStore (R : Type) : Type := {
  sl_pay : PayStore R;
  sl_quotes : gmap string BookingQuote;
  sl_holds : list VehicleHold;
  sl_catalog : Catalog;
  sl_settings : option (list TripType);           (* enabledTripTypes of the singleton row *)
}.
Arguments sl_pay {R}. Arguments sl_quotes {R}. Arguments sl_holds {R}. Arguments sl_catalog {R}.
Arguments sl_settings {R}.

Section setters.
Context {R : Type}.
Implicit Types s : SalesStore R.
Definition set_pay (p : PayStore R) s : SalesStore R :=
  {| sl_pay := p; sl_quotes := sl_quotes s; sl_holds := sl_holds s; sl_catalog := sl_catalog s;
     sl_settings := sl_settings s |}.
Definition set_quotes (q : gmap string BookingQuote) s : SalesStore R :=
  {| sl_pay := sl_pay s; sl_quotes := q; sl_holds := sl_holds s; sl_catalog := sl_catalog s;
     sl_settings := sl_settings s |}.
Definition set_holds (h : list VehicleHold) s : SalesStore R :=
  {| sl_pay := sl_pay s; sl_quotes := sl_quotes s; sl_holds := h; sl_catalog := sl_catalog s;
     sl_settings := sl_settings s |}.
Definition set_settings (t : list TripType) s : SalesStore R :=
  {| sl_pay := sl_pay s; sl_quotes := sl_quotes s; sl_holds := sl_holds s; sl_catalog := sl_catalog s;
     sl_settings := Some t |}.
Definition sales_core s : LifecycleStore R := ps_core (sl_pay s).
Definition set_sales_core (c : LifecycleStore R) s : SalesStore R := set_pay (set_core c (sl_pay s)) s.
Definition car_of (carId : string) s : option Car := fl_cars (ls_fleet (sales_core s)) !! carId.
Definition offer_of (carId : string) s : option CarOffer := ct_offers (sl_catalog s) !! carId.
End setters.

Definition with_quote_status (st : QuoteStatus) (q : BookingQuote) : BookingQuote :=
  {| bq_tenantId := bq_tenantId q; bq_customerId := bq_customerId q; bq_carId := bq_carId q;
     bq_tripType := bq_tripType q; bq_startDate := bq_startDate q; bq_endDate := bq_endDate q;
     bq_durationDays := bq_durationDays q; bq_durationHours := bq_durationHours q;
     bq_subtotal := bq_subtotal q; bq_discountTotal := bq_discountTotal q; bq_feesTotal := bq_feesTotal q;
     bq_taxTotal := bq_taxTotal q; bq_depositTotal := bq_depositTotal q;
     bq_totalPayable := bq_totalPayable q; bq_netToVendor := bq_netToVendor q; bq_status := st;
     bq_expiresAt := bq_expiresAt q; bq_acceptedAt := bq_acceptedAt q;
     bq_idempotencyKey := bq_idempotencyKey q; bq_metadata := bq_metadata q; bq_lineItems := bq_lineItems q |}.
Definition accepted_by (customerId : string) (now : Z) (q : BookingQuote) : BookingQuote :=
  {| bq_tenantId := bq_tenantId q; bq_customerId := Some customerId; bq_carId := bq_carId q;
     bq_tripType := bq_tripType q; bq_startDate := bq_startDate q; bq_endDate := bq_endDate q;
     bq_durationDays := bq_durationDays q; bq_durationHours := bq_durationHours q;
     bq_subtotal := bq_subtotal q; bq_discountTotal := bq_discountTotal q; bq_feesTotal := bq_feesTotal q;
     bq_taxTotal := bq_taxTotal q; bq_depositTotal := bq_depositTotal q;
     bq_totalPayable := bq_totalPayable q; bq_netToVendor := bq_netToVendor q; bq_status := QS_ACCEPTED;
     bq_expiresAt := bq_expiresAt q; bq_acceptedAt := Some now;
     bq_idempotencyKey := bq_idempotencyKey q; bq_metadata := bq_metadata q; bq_lineItems := bq_lineItems q |}.

(** ** Requests and answers *)
Record CreateQuoteDto : Type := {
  cq_carId : string;
  cq_startDate : Z;
  cq_endDate : Z;
  cq_tripType : TripType;
  cq_pickupHubId : option string;
  cq_returnHubId : option string;
  cq_deliveryType : option DeliveryType;
  cq_deliveryAddress : option string;
  cq_deliveryLatitude : option Q;
  cq_couponCode : option string;
  cq_protectionPackageId : option string;
  cq_mileagePackageId : option string;
  cq_idempotencyKey : option string;
}.
Record DeliveryQuote : Type := {
  dq_isAvailable : bool;
  dq_deliveryFee : Q;
  dq_pickupFee : Q;
  dq_returnFee : Q;
  dq_oneWaySurcharge : Q;
}.

(** [None] for a service that is not wired, for an answer that fails and for a
    configuration without the value; [qe_available] is what the availability
    service answers, [qe_demand] the daily rate of demand pricing,
    [qe_delivery] the answer or the exception of the location service. *)
Record QuoteEnv : Type := {
  qe_now : Z;
  qe_freshId : string;
  qe_available : option bool;
  qe_demand : option Q;
  qe_durationTiers : option (list DurationTier);
  qe_commission : option Q;
  qe_gstRate : option Q;
  qe_delivery : option (result DeliveryQuote);
  qe_hasCoupons : bool;
  qe_hasDepositRules : bool;
  qe_depositDefaults : CarCategory -> option Q;
  qe_validityMinutes : option Q;
  qe_cancelMatrix : option CancellationMatrixConfig;
}.

Definition DAY_MS : Z := 24 * 60 * 60 * 1000.
Definition HOUR_MS : Z := 60 * 60 * 1000.
(** [Math.max(1, Math.ceil(ms / unit))] *)
Definition unitsOf (unit ms : Z) : Z := Z.max 1 (js_ceil (js_div (inject_Z ms) (inject_Z unit))).
Definition QUOTE_VALIDITY_MINUTES : Q := 15.

Definition wantsDelivery (t : option DeliveryType) : bool :=
  match t with Some DEL_NONE | None => false | Some _ => true end.

(** The prices of a quote, before they are totalled. *)
Record QuoteParts : Type := {
  qp_baseType : QuoteLineItemType;
  qp_unitPrice : Q;
  qp_quantity : Q;
  qp_initialBaseFare : Q;
  qp_discounted : bool;
  qp_durationDiscount : Q;
  qp_platformFee : Q;
  qp_gst : Q;
  qp_deliveryFee : Q;
  qp_pickupFee : Q;
  qp_returnFee : Q;
  qp_oneWayFee : Q;
  qp_protectionRate : Q;
  qp_protectionDays : Q;
  qp_protectionFee : option Q;
  qp_couponDiscount : Q;
  qp_deposit : Q;
}.

Section quotes.
Context {R : Type} {redis : Redis R} {col : NumericColumn} {dec : DecimalArith} {num : DecimalNumbers}.
Abbreviation SM := (M (SalesStore R)).

(** The base price: package, hours, demand price or days. *)
Definition baseLine (env : QuoteEnv) (dto : CreateQuoteDto) (offer : CarOffer)
    (packages : gmap string MileagePackage) (durationDays durationHours : Z)
    : SM (QuoteLineItemType * Q * Q) :=
  match truthy (cq_mileagePackageId dto) with
  | Some pkgId =>
    pkg ← from_option_or (packages !! pkgId) NotFoundException;
    require (String.eqb (mp_carId pkg) (cq_carId dto) && mp_isActive pkg) NotFoundException ;;
    require (bool_decide (mp_tripType pkg = cq_tripType dto)) BadRequestException ;;
    mret (QL_PACKAGE_TIER, mp_basePricePerDay pkg, inject_Z durationDays)
  | None =>
    if bool_decide (cq_tripType dto = TRIP_LOCAL) || bool_decide (cq_tripType dto = TRIP_AIRPORT_TRANSFER)
    then mret (QL_HOURLY_RENTAL, cf_pricePerHour offer, inject_Z durationHours)
    else
      match qe_demand env with
      | Some rate => mret (QL_BASE_RENTAL, (if js_lt 0 rate then of_number rate else cf_pricePerDay offer),
                           inject_Z durationDays)
      | None => mret (QL_BASE_RENTAL, cf_pricePerDay offer, inject_Z durationDays)
      end
  end.

Definition validTier (t : DurationTier) : bool := js_lt 0 (dt_minDays t) && js_le 0 (dt_discountPercent t).
Definition configuredTiers (env : QuoteEnv) : list DurationTier :=
  match qe_durationTiers env with Some l => List.filter validTier l | None => [] end.
Definition positive (p : option Q) : option Q :=
  match p with Some x => if js_lt 0 x then Some x else None | None => None end.
Definition durationDiscountPct (env : QuoteEnv) (offer : CarOffer) (durationDays : Z) : Q :=
  match configuredTiers env with
  | (_ :: _) as tiers => match matchedTier durationDays tiers with Some t => dt_discountPercent t | None => 0 end
  | [] =>
    match (if (30 <=? durationDays)%Z then positive (cf_monthlyDiscountPercent offer) else None) with
    | Some p => p
    | None => match (if (7 <=? durationDays)%Z then positive (cf_weeklyDiscountPercent offer) else None) with
              | Some p => p
              | None => 0
              end
    end
  end.

Definition gstRateOf (configured : option Q) : Q :=
  match configured with
  | Some r => if js_le 0 r && js_le r 100 then r else 18
  | None => 18
  end.

(** The four charges of the location service; what it throws is rethrown when
    it is a 400 or 409 and otherwise the charges are 0. *)
Definition deliveryCharges (env : QuoteEnv) (dto : CreateQuoteDto) : SM (Q * Q * Q * Q) :=
  let asked := match truthy (cq_pickupHubId dto), truthy (cq_returnHubId dto), cq_deliveryLatitude dto,
                     truthy (cq_deliveryAddress dto) with
               | None, None, None, None => false
               | _, _, _, _ => true
               end in
  match (if asked then qe_delivery env else None) with
  | None => mret (0, 0, 0, 0)
  | Some (Ok q) =>
    require (negb (negb (dq_isAvailable q) && wantsDelivery (cq_deliveryType dto))) BadRequestException ;;
    mret (to_places2 (of_number (dq_deliveryFee q)), to_places2 (of_number (dq_pickupFee q)),
          to_places2 (of_number (dq_returnFee q)), to_places2 (of_number (dq_oneWaySurcharge q)))
  | Some (Throw e) =>
    match e with
    | BadRequestException | ConflictException => throw e
    | _ => mret (0, 0, 0, 0)
    end
  end.

Definition protectionOf (packages : gmap string ProtectionPackage) (id : option string) (city : string)
    : option ProtectionPackage :=
  match truthy id ≫= (fun i => packages !! i) with
  | Some pkg => if pp_isActive pkg && match truthy (pp_city pkg) with Some c => sameCity c city | None => true end
                then Some pkg else None
  | None => None
  end.

Definition quoteParts (env : QuoteEnv) (userId : option string) (dto : CreateQuoteDto) (car : Car)
    (offer : CarOffer) (durationDays durationHours : Z) : SM QuoteParts :=
  s ← get;
  let cat := sl_catalog s in
  base ← baseLine env dto offer (ct_packages cat) durationDays durationHours;
  let '(baseType, unitPrice, quantity) := base in
  let initialBaseFare := dec_mul unitPrice quantity in
  let pct := durationDiscountPct env offer durationDays in
  let discounted := js_lt 0 pct in
  let durationDiscount :=
    if discounted then to_places2 (dec_mul initialBaseFare (of_number (js_div pct 100))) else 0 in
  let baseFare := if discounted then dec_sub initialBaseFare durationDiscount else initialBaseFare in
  let commissionPercent := resolveCommissionPercent (ct_commission cat) (qe_commission env)
                             (cf_vendorCity offer) (car_type car) (cq_tripType dto) in
  let platformFee := to_places2 (dec_mul baseFare (dec_div commissionPercent 100)) in
  let gst := to_places2 (dec_mul platformFee (dec_div (of_number (gstRateOf (qe_gstRate env))) 100)) in
  charges ← deliveryCharges env dto;
  let '(deliveryFee, pickupFee, returnFee, oneWayFee) := charges in
  let protection := protectionOf (ct_protection cat) (cq_protectionPackageId dto) (cf_vendorCity offer) in
  let protectionFee := (fun p => to_places2 (dec_mul (pp_dailyRate p) (inject_Z durationDays))) <$> protection in
  couponDiscount ←
    match truthy (cq_couponCode dto), qe_hasCoupons env with
    | Some code, true =>
      let subtotalForCoupon := dec_add (dec_add baseFare platformFee) gst in
      c ← zoom sl_pay set_pay (validateCoupon (qe_now env) (str_or userId "anonymous-quote")
        {| cd_code := code; cd_car := Some (car_type car, cf_vendorCity offer);
           cd_subtotal := rnd subtotalForCoupon; cd_city := Some (cf_vendorCity offer);
           cd_tripType := Some (cq_tripType dto); cd_carCategory := Some (car_type car) |});
      mret (to_places2 (of_number (co_discountAmount c)))
    | _, _ => mret 0
    end;
  let deposit :=
    if qe_hasDepositRules env
    then to_places2 (of_number (getDepositAmount (Some (ct_deposits cat)) (qe_depositDefaults env)
                                  (car_type car) (Some (cf_vendorCity offer))))
    else 5000 in
  mret {| qp_baseType := baseType; qp_unitPrice := unitPrice; qp_quantity := quantity;
          qp_initialBaseFare := initialBaseFare; qp_discounted := discounted; qp_durationDiscount := durationDiscount;
          qp_platformFee := platformFee; qp_gst := gst; qp_deliveryFee := deliveryFee;
          qp_pickupFee := pickupFee; qp_returnFee := returnFee; qp_oneWayFee := oneWayFee;
          qp_protectionRate := match protection with Some p => pp_dailyRate p | None => 0 end;
          qp_protectionDays := inject_Z durationDays; qp_protectionFee := protectionFee;
          qp_couponDiscount := couponDiscount; qp_deposit := deposit |}.

(** ** Totals *)
Definition line (t : QuoteLineItemType) (rate quantity amount : Q) (refundable : bool) : QuoteLineItem :=
  {| qi_type := t; qi_rate := rate; qi_quantity := quantity; qi_amount := amount; qi_isRefundable := refundable |}.
Definition lineIf (t : QuoteLineItemType) (amount : Q) : list QuoteLineItem :=
  if d_gt amount 0 then [line t amount 1 amount false] else [].

(** The line items as they are pushed, in decimals. *)
Definition quoteLines (p : QuoteParts) : list QuoteLineItem :=
  [line (qp_baseType p) (qp_unitPrice p) (qp_quantity p) (to_places2 (qp_initialBaseFare p)) false] ++
  (if qp_discounted p
   then [line QL_DURATION_DISCOUNT (qp_durationDiscount p) 1 (- qp_durationDiscount p) false] else []) ++
  [line QL_PLATFORM_FEE (qp_platformFee p) 1 (qp_platformFee p) false;
   line QL_GST (qp_gst p) 1 (qp_gst p) false] ++
  lineIf QL_DELIVERY_FEE (qp_deliveryFee p) ++ lineIf QL_PICKUP_FEE (qp_pickupFee p) ++
  lineIf QL_RETURN_FEE (qp_returnFee p) ++ lineIf QL_ONE_WAY_SURCHARGE (qp_oneWayFee p) ++
  match qp_protectionFee p with
  | Some fee => [line QL_PROTECTION_FEE (qp_protectionRate p) (qp_protectionDays p) fee false]
  | None => []
  end ++
  (if d_gt (qp_couponDiscount p) 0
   then [line QL_COUPON_DISCOUNT (qp_couponDiscount p) 1 (- qp_couponDiscount p) false] else []) ++
  [line QL_SECURITY_DEPOSIT (qp_deposit p) 1 (qp_deposit p) true].

(** What the items become in the table: [new Decimal(x.toNumber())], rounded
    to the column. *)
Definition storedLine (i : QuoteLineItem) : QuoteLineItem :=
  line (qi_type i) (store (of_number (rnd (qi_rate i)))) (store (of_number (rnd (qi_quantity i))))
       (store (of_number (rnd (qi_amount i)))) (qi_isRefundable i).

Record QuoteTotals : Type := {
  qt_subtotal : Q;
  qt_discountTotal : Q;
  qt_feesTotal : Q;
  qt_taxTotal : Q;
  qt_depositTotal : Q;
  qt_tripFare : Q;
  qt_totalPayable : Q;
  qt_netToVendor : Q;
}.
Definition quoteTotals (p : QuoteParts) : QuoteTotals :=
  let baseFare :=
    if qp_discounted p then dec_sub (qp_initialBaseFare p) (qp_durationDiscount p)
    else qp_initialBaseFare p in
  let protectionFee := default 0 (qp_protectionFee p) in
  let fulfillmentTotal := to_places2
    (dec_add (dec_add (dec_add (qp_deliveryFee p) (qp_pickupFee p)) (qp_returnFee p)) (qp_oneWayFee p)) in
  let depositTotal := to_places2 (qp_deposit p) in
  let tripFare := to_places2 (dec_sub (dec_add (dec_add (dec_add (dec_add baseFare (qp_platformFee p)) (qp_gst p))
                    fulfillmentTotal) protectionFee) (qp_couponDiscount p)) in
  {| qt_subtotal := to_places2 (qp_initialBaseFare p);
     qt_discountTotal := to_places2 (dec_add (qp_durationDiscount p) (qp_couponDiscount p));
     qt_feesTotal := to_places2 (dec_add (dec_add (qp_platformFee p) fulfillmentTotal) protectionFee);
     qt_taxTotal := to_places2 (qp_gst p);
     qt_depositTotal := depositTotal;
     qt_tripFare := tripFare;
     qt_totalPayable := to_places2 (dec_add tripFare depositTotal);
     qt_netToVendor := to_places2 (dec_add baseFare fulfillmentTotal) |}.

Definition quoteRow (env : QuoteEnv) (userId : option string) (dto : CreateQuoteDto) (offer : CarOffer)
    (durationDays durationHours : Z) (p : QuoteParts) : BookingQuote :=
  let t := quoteTotals p in
  let validityMinutes := default QUOTE_VALIDITY_MINUTES (positive (qe_validityMinutes env)) in
  {| bq_tenantId := cf_vendorId offer; bq_customerId := userId; bq_carId := cq_carId dto;
     bq_tripType := cq_tripType dto; bq_startDate := cq_startDate dto; bq_endDate := cq_endDate dto;
     bq_durationDays := durationDays; bq_durationHours := durationHours;
     bq_subtotal := store (qt_subtotal t); bq_discountTotal := store (qt_discountTotal t);
     bq_feesTotal := store (qt_feesTotal t); bq_taxTotal := store (qt_taxTotal t);
     bq_depositTotal := store (qt_depositTotal t); bq_totalPayable := store (qt_totalPayable t);
     bq_netToVendor := store (qt_netToVendor t); bq_status := QS_ACTIVE;
     bq_expiresAt := (qe_now env + Qfloor (js_mul (js_mul validityMinutes 60) 1000))%Z;
     bq_acceptedAt := None; bq_idempotencyKey := cq_idempotencyKey dto;
     bq_metadata := {| qm_mileagePackageId := truthy (cq_mileagePackageId dto);
                       qm_couponCode := if qe_hasCoupons env then uppercase <$> (trim <$> truthy (cq_couponCode dto)) else None;
                       qm_deliveryAddress := cq_deliveryAddress dto; qm_pickupHubId := cq_pickupHubId dto;
                       qm_returnHubId := cq_returnHubId dto; qm_market := None |};
     bq_lineItems := map storedLine (quoteLines p) |}.

(** ** [generateQuote] *)
Definition quoteByKey (key : string) (m : gmap string BookingQuote) : option (string * BookingQuote) :=
  List.find (fun p => bool_decide (bq_idempotencyKey (snd p) = Some key)) (map_to_list m).

(** The row is refused when its idempotency key is taken. *)
Definition createQuoteRow (id : string) (row : BookingQuote) : SM (string * BookingQuote) :=
  s ← get;
  require (match bq_idempotencyKey row with
           | Some key => match quoteByKey key (sl_quotes s) with Some _ => false | None => true end
           | None => true
           end) PrismaP2002 ;;
  modify (set_quotes (<[id := row]> (sl_quotes s))) ;;
  mret (id, row).

Definition priceQuote (env : QuoteEnv) (userId : option string) (dto : CreateQuoteDto)
    : SM (string * BookingQuote) :=
  s ← get;
  car ← from_option_or (car_of (cq_carId dto) s) NotFoundException;
  offer ← from_option_or (offer_of (cq_carId dto) s) NotFoundException;
  require (car_isAvailable car) ConflictException ;;
  require (bool_decide (cf_vendorVerification offer = VS_VERIFIED)) BadRequestException ;;
  require (match cf_availableTripTypes offer with
           | [] => true
           | l => bool_decide (cq_tripType dto ∈ l)
           end) BadRequestException ;;
  require (default true (qe_available env)) ConflictException ;;
  let durationMs := (cq_endDate dto - cq_startDate dto)%Z in
  let durationDays := unitsOf DAY_MS durationMs in
  let durationHours := unitsOf HOUR_MS durationMs in
  parts ← quoteParts env userId dto car offer durationDays durationHours;
  createQuoteRow (qe_freshId env) (quoteRow env userId dto offer durationDays durationHours parts).

Definition generateQuote (env : QuoteEnv) (userId : option string) (dto : CreateQuoteDto)
    : SM (string * BookingQuote) :=
  require (cq_startDate dto <? cq_endDate dto)%Z BadRequestException ;;
  require (negb (cq_startDate dto <? qe_now env - 120000)%Z) BadRequestException ;;
  s ← get;
  match truthy (cq_idempotencyKey dto) ≫= (fun key => quoteByKey key (sl_quotes s)) with
  | Some (id, q) =>
    if bool_decide (bq_status q = QS_ACTIVE) && (qe_now env <? bq_expiresAt q)%Z then mret (id, q)
    else priceQuote env userId dto
  | None => priceQuote env userId dto
  end.

(** ** [getQuoteById], [refreshQuote] *)
Definition getQuoteById (now : Z) (quoteId : string) (user : option (string * Role)) : SM BookingQuote :=
  s ← get;
  quote ← from_option_or (sl_quotes s !! quoteId) NotFoundException;
  let vendorUser := rd_vendorUser (ls_ref (sales_core s)) !! bq_tenantId quote in
  require (match user with
           | Some (userId, ROLE_VENDOR) =>
             String.eqb (bq_tenantId quote) userId || bool_decide (vendorUser = Some userId)
           | _ => true
           end) ForbiddenException ;;
  require (match user, truthy (bq_customerId quote) with
           | Some (userId, ROLE_CUSTOMER), Some c => String.eqb c userId
           | _, _ => true
           end) ForbiddenException ;;
  if bool_decide (bq_status quote = QS_ACTIVE) && (bq_expiresAt quote <? now)%Z then
    modify (set_quotes (<[quoteId := with_quote_status QS_EXPIRED quote]> (sl_quotes s))) ;;
    mret (with_quote_status QS_EXPIRED quote)
  else mret quote.

Definition refreshDto (q : BookingQuote) : CreateQuoteDto :=
  let meta := bq_metadata q in
  {| cq_carId := bq_carId q; cq_startDate := bq_startDate q; cq_endDate := bq_endDate q;
     cq_tripType := bq_tripType q; cq_pickupHubId := qm_pickupHubId meta; cq_returnHubId := qm_returnHubId meta;
     cq_deliveryType := None; cq_deliveryAddress := qm_deliveryAddress meta; cq_deliveryLatitude := None;
     cq_couponCode := qm_couponCode meta; cq_protectionPackageId := None;
     cq_mileagePackageId := qm_mileagePackageId meta; cq_idempotencyKey := None |}.
Definition refreshQuote (env : QuoteEnv) (quoteId : string) (userId : option string)
    : SM (string * BookingQuote) :=
  s ← get;
  oldQuote ← from_option_or (sl_quotes s !! quoteId) NotFoundException;
  when (bool_decide (bq_status oldQuote = QS_ACTIVE))
    (modify (set_quotes (<[quoteId := with_quote_status QS_SUPERSEDED oldQuote]> (sl_quotes s)))) ;;
  generateQuote env userId (refreshDto oldQuote).

(** ** [verifyAndAcceptQuote] *)
Record PriceSnapshot : Type := {
  sn_subtotal : Q;
  sn_discountTotal : Q;
  sn_feesTotal : Q;
  sn_taxTotal : Q;
  sn_depositTotal : Q;
  sn_tripFare : Q;
  sn_totalPayable : Q;
  sn_netToVendor : Q;
  sn_platformFee : Q;                    (* the amount of the PLATFORM_FEE item, or 0 *)
  sn_cancellationMatrix : option CancellationMatrixConfig;
}.
Definition platformFeeLine (q : BookingQuote) : Q :=
  match List.find (fun i => bool_decide (qi_type i = QL_PLATFORM_FEE)) (bq_lineItems q) with
  | Some i => rnd (qi_amount i)
  | None => 0
  end.
Definition priceSnapshot (env : QuoteEnv) (q : BookingQuote) : PriceSnapshot :=
  let tripFare := bq_subtotal q - bq_discountTotal q + bq_feesTotal q + bq_taxTotal q in
  {| sn_subtotal := rnd (bq_subtotal q); sn_discountTotal := rnd (bq_discountTotal q);
     sn_feesTotal := rnd (bq_feesTotal q); sn_taxTotal := rnd (bq_taxTotal q);
     sn_depositTotal := rnd (bq_depositTotal q); sn_tripFare := rnd tripFare;
     sn_totalPayable := rnd (bq_totalPayable q); sn_netToVendor := rnd (bq_netToVendor q);
     sn_platformFee := platformFeeLine q; sn_cancellationMatrix := qe_cancelMatrix env |}.

Definition verifyAndAcceptQuote (env : QuoteEnv) (quoteId customerId carId : string)
    (startDate endDate : Z) (tripType : TripType) : SM PriceSnapshot :=
  s ← get;
  quote ← from_option_or (sl_quotes s !! quoteId) NotFoundException;
  require (negb (bool_decide (bq_status quote = QS_EXPIRED) || (bq_expiresAt quote <? qe_now env)%Z))
    ConflictException ;;
  require (bool_decide (bq_status quote = QS_ACTIVE)) ConflictException ;;
  require (String.eqb (bq_carId quote) carId) BadRequestException ;;
  require (bool_decide (bq_tripType quote = tripType)) BadRequestException ;;
  require (negb ((120000 <? Z.abs (startDate - bq_startDate quote))%Z ||
                 (120000 <? Z.abs (endDate - bq_endDate quote))%Z)) ConflictException ;;
  let accepted := accepted_by customerId (qe_now env) quote in
  modify (set_quotes (<[quoteId := accepted]> (sl_quotes s))) ;;
  mret (priceSnapshot env accepted).
End quotes.

(** ** Laws *)
Lemma whole_money q : whole_paise q -> Qabs q <= 1000000000 -> exists p, q == inject_Z p / 100 /\ money p.
Proof.
  intros [p Hp] H. exists p. split; [done|]. rewrite Hp in H. unfold money.
  assert (inject_Z p / 100 == inject_Z p * (1 # 100)) as E by field. rewrite E in H.
  apply Qabs_Qle_condition in H as [H1 H2].
  assert (p < 100000000001)%Z by (apply inject_Z_lt_inv; change (inject_Z 100000000001) with 100000000001; lra).
  assert (-100000000001 < p)%Z by (apply inject_Z_lt_inv; change (inject_Z (-100000000001)) with (-100000000001); lra).
  lia.
Qed.

Section quote_laws.
Context {R : Type} {redis : Redis R} {col : NumericColumn} {dec : DecimalArith} {num : DecimalNumbers}.

(** An amount in whole paise up to a billion rupees passes unchanged through
    a JavaScript number and a column. *)
Lemma number_roundtrip q : whole_paise q -> Qabs q <= 1000000000 -> of_number (rnd q) == q.
Proof.
  intros Hw Hb. destruct (whole_money q Hw Hb) as (p & Ep & Hp). rewrite (rnd_eq _ _ Ep).
  change (rnd (inject_Z p / 100)) with (rupees p). by rewrite of_number_paise.
Qed.

Lemma dec_exact_amount q : whole_paise q -> Qabs q <= 100000000000 -> dec_round q == q.
Proof. intros Hw Hb. apply dec_round_exact; [done|]. eapply Qle_trans; [exact Hb|]. discriminate. Qed.

(** Amounts a quote is made of: whole paise, up to a billion rupees, charges
    not negative. *)
Definition amount_ok (q : Q) : Prop := whole_paise q /\ 0 <= q /\ q <= 1000000000.
Record parts_ok (p : QuoteParts) : Prop := {
  po_initial : amount_ok (qp_initialBaseFare p);
  po_discount : amount_ok (qp_durationDiscount p);
  po_platform : amount_ok (qp_platformFee p);
  po_gst : amount_ok (qp_gst p);
  po_delivery : amount_ok (qp_deliveryFee p);
  po_pickup : amount_ok (qp_pickupFee p);
  po_return : amount_ok (qp_returnFee p);
  po_oneWay : amount_ok (qp_oneWayFee p);
  po_protection : amount_ok (default 0 (qp_protectionFee p));
  po_coupon : amount_ok (qp_couponDiscount p);
  po_deposit : amount_ok (qp_deposit p);
  po_undiscounted : qp_discounted p = false -> qp_durationDiscount p = 0;
}.

(** The exact trip fare. *)
Definition exactFare (p : QuoteParts) : Q :=
  qp_initialBaseFare p - qp_durationDiscount p + qp_platformFee p + qp_gst p +
  (qp_deliveryFee p + qp_pickupFee p + qp_returnFee p + qp_oneWayFee p) +
  default 0 (qp_protectionFee p) - qp_couponDiscount p.

(** [x] is the whole amount [v], at most [b]: sums, roundings and columns
    keep it exactly. *)
Definition exactly (x v b : Q) : Prop := whole_paise v /\ x == v /\ Qabs v <= b.

Lemma exactly_ok q : amount_ok q -> exactly q q 1000000000.
Proof. intros (Hw & H0 & H1). split_and!; [done|reflexivity|]. by rewrite Qabs_pos. Qed.
Lemma exactly_add x y u v a b : exactly x u a -> exactly y v b -> a + b <= 100000000000 ->
  exactly (dec_add x y) (u + v) (a + b).
Proof.
  intros (Hu & Eu & Bu) (Hv & Ev & Bv) Hb.
  assert (Qabs (u + v) <= a + b) as Hab by (eapply Qle_trans; [apply Qabs_triangle|lra]).
  split_and!; [auto with dec| |done]. unfold dec_add. rewrite dec_exact_amount; rewrite Eu, Ev; [reflexivity|auto with dec|lra].
Qed.
Lemma exactly_sub x y u v a b : exactly x u a -> exactly y v b -> a + b <= 100000000000 ->
  exactly (dec_sub x y) (u - v) (a + b).
Proof.
  intros (Hu & Eu & Bu) (Hv & Ev & Bv) Hb.
  assert (Qabs (u - v) <= a + b) as Hab.
  { apply Qabs_Qle_condition in Bu as [? ?], Bv as [? ?]. apply Qabs_Qle_condition. split; lra. }
  split_and!; [auto with dec| |done]. unfold dec_sub. rewrite dec_exact_amount; rewrite Eu, Ev; [reflexivity|auto with dec|lra].
Qed.
Lemma exactly_places x v b : exactly x v b -> exactly (to_places2 x) v b.
Proof.
  intros (Hv & E & B). split_and!; [done| |done]. rewrite to_places2_exact; [done|by rewrite E].
Qed.
Lemma exactly_store x v b : exactly x v b -> store x == v.
Proof. intros (Hv & E & _). rewrite store_exact; [done|by rewrite E]. Qed.
Lemma exactly_weaken x v w b c : exactly x v b -> v == w -> b <= c -> exactly x w c.
Proof.
  intros (Hv & E & B) Ew Hbc. split_and!; [by rewrite <- Ew|by rewrite E|]. rewrite <- Ew. lra.
Qed.

Lemma quoteTotals_exact p : parts_ok p -> let t := quoteTotals p in
  let charges := qp_deliveryFee p + qp_pickupFee p + qp_returnFee p + qp_oneWayFee p in
  store (qt_subtotal t) == qp_initialBaseFare p /\
  store (qt_discountTotal t) == qp_durationDiscount p + qp_couponDiscount p /\
  store (qt_feesTotal t) == qp_platformFee p + charges + default 0 (qp_protectionFee p) /\
  store (qt_taxTotal t) == qp_gst p /\ store (qt_depositTotal t) == qp_deposit p /\
  store (qt_totalPayable t) == exactFare p + qp_deposit p /\
  store (qt_netToVendor t) == qp_initialBaseFare p - qp_durationDiscount p + charges.
Proof.
  intros [Hi%exactly_ok Hd%exactly_ok Hp%exactly_ok Hg%exactly_ok H1%exactly_ok H2%exactly_ok H3%exactly_ok
    H4%exactly_ok Hr%exactly_ok Hc%exactly_ok Hs%exactly_ok Hu]. unfold quoteTotals, exactFare. cbv zeta. simpl.
  set (base := if qp_discounted p then _ else _).
  assert (exactly base (qp_initialBaseFare p - qp_durationDiscount p) 2000000000) as Hb.
  { subst base. destruct (qp_discounted p); [by apply (exactly_sub _ _ _ _ 1000000000 1000000000)|].
    rewrite (Hu eq_refl). eapply exactly_weaken; [exact Hi|ring|discriminate]. }
  pose proof (exactly_places _ _ _ (exactly_add _ _ _ _ _ _
    (exactly_add _ _ _ _ _ _ (exactly_add _ _ _ _ _ _ H1 H2 ltac:(discriminate)) H3 ltac:(discriminate)) H4
    ltac:(discriminate))) as Hf.
  split_and!; eapply exactly_store, exactly_places.
  - exact Hi.
  - apply (exactly_add _ _ _ _ _ _ Hd Hc). discriminate.
  - eapply exactly_add; [eapply exactly_add; [exact Hp|exact Hf|discriminate]|exact Hr|discriminate].
  - exact Hg.
  - exact Hs.
  - eapply exactly_weaken; [eapply exactly_add; [apply exactly_places; eapply exactly_sub;
      [eapply exactly_add; [eapply exactly_add; [eapply exactly_add; [eapply exactly_add;
        [exact Hb|exact Hp|discriminate]|exact Hg|discriminate]|exact Hf|discriminate]|exact Hr|discriminate]
      |exact Hc|discriminate]|apply exactly_places, Hs|discriminate]|ring|apply Qle_refl].
  - eapply exactly_add; [exact Hb|exact Hf|discriminate].
Qed.

Lemma storedLine_amount t rate quantity x r : whole_paise x -> Qabs x <= 1000000000 ->
  qi_amount (storedLine (line t rate quantity x r)) == x.
Proof.
  intros Hw Hb. simpl. rewrite store_exact by (rewrite number_roundtrip; done). by apply number_roundtrip.
Qed.
Definition itemSum (l : list QuoteLineItem) : Q := sum_by qi_amount (map storedLine l).
Lemma itemSum_app l1 l2 : itemSum (l1 ++ l2) == itemSum l1 + itemSum l2.
Proof. unfold itemSum. by rewrite map_app, sum_by_app. Qed.
Lemma itemSum_one t rate quantity x r : whole_paise x -> Qabs x <= 1000000000 ->
  itemSum [line t rate quantity x r] == x.
Proof. intros. unfold itemSum. cbn [map sum_by]. rewrite storedLine_amount by done. ring. Qed.
Lemma itemSum_cons t rate quantity x r l : whole_paise x -> Qabs x <= 1000000000 ->
  itemSum (line t rate quantity x r :: l) == x + itemSum l.
Proof. intros. change (?i :: l) with ([i] ++ l). by rewrite itemSum_app, itemSum_one. Qed.
Lemma itemSum_if t a : amount_ok a -> itemSum (lineIf t a) == a.
Proof.
  intros (Hw & H0 & H1). unfold lineIf. destruct (d_gt a 0) eqn:E; dec_bool.
  - apply itemSum_one; [done|]. by rewrite Qabs_pos.
  - unfold itemSum. simpl. lra.
Qed.
Lemma whole_paise_opp a : whole_paise a -> whole_paise (- a).
Proof. intros [n Hn]. exists (- n)%Z. rewrite Hn, inject_Z_opp. field. Qed.
Lemma itemSum_minus t (b : bool) a : amount_ok a -> (b = false -> a == 0) ->
  itemSum (if b then [line t a 1 (- a) false] else []) == - a.
Proof.
  intros (Hw & H0 & H1) Hb. destruct b.
  - apply itemSum_one; [by apply whole_paise_opp|]. by rewrite Qabs_opp, Qabs_pos.
  - unfold itemSum. simpl. rewrite (Hb eq_refl). reflexivity.
Qed.

Lemma quoteLines_sum p : parts_ok p -> itemSum (quoteLines p) == exactFare p + qp_deposit p.
Proof.
  intros [Hi Hd Hp Hg H1 H2 H3 H4 Hr Hc Hs Hu]. unfold quoteLines, exactFare. rewrite !itemSum_app.
  rewrite (itemSum_if _ _ H1), (itemSum_if _ _ H2), (itemSum_if _ _ H3), (itemSum_if _ _ H4).
  rewrite itemSum_minus; [|done|intros E; by rewrite (Hu E)].
  rewrite itemSum_minus; [|done|intros E; dec_bool; destruct Hc as (_ & ? & _); lra].
  assert (itemSum match qp_protectionFee p with
    | Some fee => [line QL_PROTECTION_FEE (qp_protectionRate p) (qp_protectionDays p) fee false]
    | None => [] end == default 0 (qp_protectionFee p)) as ->.
  { destruct (qp_protectionFee p) as [fee|]; [|reflexivity]. destruct Hr as (Hw & ? & ?).
    apply itemSum_one; [done|]. simpl in *. by rewrite Qabs_pos. }
  destruct Hp as (Wp & ? & ?), Hg as (Wg & ? & ?), Hs as (Ws & ? & ?), Hi as (Wi & ? & ?).
  assert (to_places2 (qp_initialBaseFare p) == qp_initialBaseFare p) as Ei by (by apply to_places2_exact).
  rewrite (itemSum_one (qp_baseType p)); [|apply to_places2_whole|by rewrite Ei, Qabs_pos].
  rewrite (itemSum_cons QL_PLATFORM_FEE), (itemSum_one QL_GST), (itemSum_one QL_SECURITY_DEPOSIT)
    by (try done; by rewrite Qabs_pos).
  rewrite Ei. ring.
Qed.

(** ** What a quote says *)
Lemma createQuoteRow_Ok id row s r s' : createQuoteRow (R:=R) id row s = (Ok r, s') ->
  r = (id, row) /\ s' = set_quotes (<[id := row]> (sl_quotes s)) s.
Proof.
  unfold createQuoteRow. intros H. step_in H.
  destruct (match bq_idempotencyKey row with Some _ => _ | None => true end); [|done].
  step_in H. injection H as <- <-. done.
Qed.

Lemma validateCoupon_readonly now customerId dto : readonly (validateCoupon (R:=R) now customerId dto).
Proof. intros x. unfold validateCoupon. auto 30 with preserves. Qed.

Lemma quoteParts_readonly env userId dto car offer days hours :
  readonly (quoteParts (R:=R) env userId dto car offer days hours).
Proof.
  intros x. unfold quoteParts. apply preserves_bind; [auto with preserves|intros t].
  apply preserves_bind; [|intros [[bt up] qy]; apply preserves_bind; [|intros [[[df pf] rf] ow]; apply preserves_bind]].
  - unfold baseLine. destruct (truthy _); [auto 10 with preserves|].
    destruct (_ || _); [auto with preserves|]. destruct (qe_demand env); auto with preserves.
  - unfold deliveryCharges. cbv zeta. repeat case_match; auto with preserves.
  - destruct (truthy (cq_couponCode dto)), (qe_hasCoupons env); try auto with preserves.
    apply preserves_bind; [|auto with preserves].
    apply readonly_zoom; [by intros []|apply validateCoupon_readonly].
  - auto with preserves.
Qed.

(** The steps of a priced quote. *)
Lemma priceQuote_Ok env userId dto s id q s' : priceQuote (R:=R) env userId dto s = (Ok (id, q), s') ->
  exists car offer p, car_of (cq_carId dto) s = Some car /\ offer_of (cq_carId dto) s = Some offer /\
    car_isAvailable car = true /\ cf_vendorVerification offer = VS_VERIFIED /\
    let ms := (cq_endDate dto - cq_startDate dto)%Z in
    quoteParts env userId dto car offer (unitsOf DAY_MS ms) (unitsOf HOUR_MS ms) s = (Ok p, s) /\
    id = qe_freshId env /\
    q = quoteRow env userId dto offer (unitsOf DAY_MS ms) (unitsOf HOUR_MS ms) p /\
    s' = set_quotes (<[id := q]> (sl_quotes s)) s.
Proof.
  unfold priceQuote. intros H. step_in H. destruct (car_of (cq_carId dto) s) as [car|]; [|done].
  step_in H. destruct (offer_of (cq_carId dto) s) as [offer|]; [|done].
  step_in H. destruct (car_isAvailable car) eqn:Ha; [|done].
  step_in H. destruct (bool_decide (cf_vendorVerification offer = VS_VERIFIED)) eqn:Hv; [|done].
  apply bool_decide_eq_true in Hv. step_in H.
  destruct (match cf_availableTripTypes offer with [] => true | _ :: _ => _ end); [|done].
  step_in H. destruct (default true (qe_available env)); [|done]. cbv zeta in H.
  apply bind_Ok in H as (p & s1 & Hp & H).
  pose proof (readonly_eq _ _ _ _ (quoteParts_readonly _ _ _ _ _ _ _) Hp) as ->.
  apply createQuoteRow_Ok in H as [E ->]. injection E as -> ->. by exists car, offer, p.
Qed.

Definition same_price (q : BookingQuote) (fare deposit : Q) : Prop :=
  bq_totalPayable q == fare + deposit /\ bq_depositTotal q == deposit /\
  bq_subtotal q - bq_discountTotal q + bq_feesTotal q + bq_taxTotal q == fare /\
  sum_by qi_amount (bq_lineItems q) == bq_totalPayable q.

(** C19. A quote adds up: when its parts are whole paise up to a billion
    rupees, the total payable is the trip fare and the deposit, the fare is
    subtotal less discounts plus fees and tax as stored, the stored line items
    add up to the total, and the vendor's net, platform fee, tax and
    protection make up the fare and the coupon: nothing is lost in the
    roundings on the way into the table. *)
Theorem quote_adds_up env userId dto s id q s'
    (H : priceQuote (R:=R) env userId dto s = (Ok (id, q), s')) :
  exists car offer p, car_of (cq_carId dto) s = Some car /\ offer_of (cq_carId dto) s = Some offer /\
    (let ms := (cq_endDate dto - cq_startDate dto)%Z in
     quoteParts env userId dto car offer (unitsOf DAY_MS ms) (unitsOf HOUR_MS ms) s = (Ok p, s)) /\
    sl_quotes s' = <[id := q]> (sl_quotes s) /\
    (parts_ok p ->
     same_price q (exactFare p) (qp_deposit p) /\
     bq_netToVendor q + qp_platformFee p + bq_taxTotal q + default 0 (qp_protectionFee p) ==
       exactFare p + qp_couponDiscount p).
Proof.
  apply priceQuote_Ok in H as (car & offer & p & H1 & H2 & _ & _ & H3 & -> & -> & ->).
  exists car, offer, p. do 4 (split; [done|]). intros Hp.
  destruct (quoteTotals_exact p Hp) as (E1 & E2 & E3 & E4 & E5 & E6 & E7).
  pose proof (quoteLines_sum p Hp) as Es. unfold itemSum in Es.
  unfold same_price, quoteRow. simpl. rewrite E1, E2, E3, E4, E5, E6, E7, Es. unfold exactFare.
  split_and!; ring.
Qed.
End quote_laws.

(** ** A concrete catalogue *)
Definition pune_offer : CarOffer :=
  {| cf_vendorId := "v1"; cf_vendorCity := "Pune"; cf_vendorVerification := VS_VERIFIED;
     cf_areaStatus := Some (SA_ACTIVE, SA_ACTIVE); cf_availableTripTypes := [TRIP_SELF_DRIVE; TRIP_OUTSTATION];
     cf_blockedDates := []; cf_pricePerKm := 9; cf_pricePerDay := 123499 # 100; cf_pricePerHour := 150;
     cf_weeklyDiscountPercent := Some 10; cf_monthlyDiscountPercent := Some 20 |}.
Definition basic_cover : ProtectionPackage :=
  {| pp_isActive := true; pp_city := None; pp_dailyRate := 99 |}.
Definition pune_catalog : Catalog :=
  {| ct_offers := {["car1" := pune_offer]}; ct_packages := ∅; ct_protection := {["pp1" := basic_cover]};
     ct_commission := [{| cc_city := Some "pune"; cc_carCategory := None; cc_tripType := None; cc_percentage := 125 # 10 |}];
     ct_deposits := pune_rules; ct_closures := [] |}.
Definition sales_store (p : PayStore RedisMem) : SalesStore RedisMem :=
  {| sl_pay := p; sl_quotes := ∅; sl_holds := []; sl_catalog := pune_catalog;
     sl_settings := Some [TRIP_SELF_DRIVE; TRIP_OUTSTATION] |}.
Definition quote_env (id : string) : QuoteEnv :=
  {| qe_now := HOUR; qe_freshId := id; qe_available := Some true; qe_demand := None; qe_durationTiers := None;
     qe_commission := None; qe_gstRate := Some 18;
     qe_delivery := Some (Ok {| dq_isAvailable := true; dq_deliveryFee := 250; dq_pickupFee := 0;
                                dq_returnFee := 100; dq_oneWaySurcharge := 0 |});
     qe_hasCoupons := true; qe_hasDepositRules := true; qe_depositDefaults := fun _ => None;
     qe_validityMinutes := None; qe_cancelMatrix := None |}.
(** Eight days with delivery, the basic protection and the coupon "SAVE". *)
Definition trip_dto : CreateQuoteDto :=
  {| cq_carId := "car1"; cq_startDate := 240 * HOUR; cq_endDate := 432 * HOUR; cq_tripType := TRIP_SELF_DRIVE;
     cq_pickupHubId := Some "h1"; cq_returnHubId := None; cq_deliveryType := Some DEL_DOORSTEP_DELIVERY;
     cq_deliveryAddress := Some "MG Road 1"; cq_deliveryLatitude := None; cq_couponCode := Some "save";
     cq_protectionPackageId := Some "pp1"; cq_mileagePackageId := None; cq_idempotencyKey := Some "key1" |}.
Definition empty_sales : SalesStore RedisMem := sales_store (snd created_run).
Definition quote_run : result (string * BookingQuote) * SalesStore RedisMem :=
  generateQuote (quote_env "q1") (Some "c2") trip_dto empty_sales.
Definition price_run : result (string * BookingQuote) * SalesStore RedisMem :=
  priceQuote (quote_env "q1") (Some "c2") trip_dto empty_sales.
Definition quoted : BookingQuote :=
  match fst price_run with Ok (_, q) => q | Throw _ => with_quote_status QS_EXPIRED
    {| bq_tenantId := ""; bq_customerId := None; bq_carId := ""; bq_tripType := TRIP_LOCAL; bq_startDate := 0;
       bq_endDate := 0; bq_durationDays := 0; bq_durationHours := 0; bq_subtotal := 0; bq_discountTotal := 0;
       bq_feesTotal := 0; bq_taxTotal := 0; bq_depositTotal := 0; bq_totalPayable := 0; bq_netToVendor := 0;
       bq_status := QS_EXPIRED; bq_expiresAt := 0; bq_acceptedAt := None; bq_idempotencyKey := None;
       bq_metadata := {| qm_mileagePackageId := None; qm_couponCode := None; qm_deliveryAddress := None;
                         qm_pickupHubId := None; qm_returnHubId := None; qm_market := None |};
       bq_lineItems := [] |} end.

Lemma quote_adds_up_witness :
  sum_by qi_amount (bq_lineItems quoted) == bq_totalPayable quoted /\ bq_totalPayable quoted == 1484549 # 100.
Proof.
  destruct (quote_adds_up (quote_env "q1") (Some "c2") trip_dto empty_sales "q1" quoted (snd price_run))
    as (car & offer & p & H1 & H2 & H3 & _ & H4).
  - apply (run_eq price_run). vm_compute. reflexivity.
  - split; [|vm_compute; reflexivity]. apply H4. vm_compute in H1. injection H1 as <-.
    vm_compute in H2. injection H2 as <-. vm_compute in H3. injection H3 as <-.
    split; try (split; [apply is_whole_paise_true; vm_compute; reflexivity|split; vm_compute; discriminate]).
    vm_compute. discriminate.
Defined.
