(* ===== verification/MarketplacePricing.v ===== *)
(** * Prices of the marketplace

    - pricing/rental-pricing-resolution.service.ts: [resolvePricing], the
      hierarchy of pricing rules and the calendar.
    - marketplace/promotion-engine.service.ts: [evaluatePromotion].
    - marketplace/ancillary-products.service.ts: [calculateAncillariesTotal].

    Prices here are JavaScript numbers.  A local date is that of a zone [tz]
    milliseconds from UTC, the server's, without daylight saving.  Names and
    explanations of line items are left out. *)
From S2P Require Import Prelude JsNumber Decimal Schema Ledger Wallet Locks HandoverOtp PaymentRefund Outbox BookingStore.
From S2P Require Import CancellationPolicy BookingLifecycle Payments FareCalculator Coupons Quotes.
Open Scope Z_scope.

(** ** The calendar *)

(** [Date.getDay] and [Date.getMonth] of the time [t]. *)
Definition localDay (tz t : Z) : Z := (t + tz) / DAY_MS.
Definition getDay (tz t : Z) : Z := (localDay tz t + 4) mod 7.
Definition getMonth (tz t : Z) : Z :=
  let doe := (localDay tz t + 719468) mod 146097 in
  let yoe := (doe - doe / 1460 + doe / 36524 - doe / 146096) / 365 in
  let doy := doe - (365 * yoe + yoe / 4 - yoe / 100) in
  let mp := (5 * doy + 2) / 153 in
  if mp <? 10 then mp + 2 else mp - 10.

Definition PEAK_MONTHS : list Z := [0; 4; 5; 11].
Definition isWeekend (tz t : Z) : bool := (getDay tz t =? 0) || (getDay tz t =? 6).
Definition isPeak (tz t : Z) : bool := bool_decide (getMonth tz t ∈ PEAK_MONTHS).

(** The loop [while (current < end)], one local day a turn. *)
Fixpoint calendarLoop (tz : Z) (fuel : nat) (current endDate weekendDays peakDays : Z) : option (Z * Z) :=
  if current <? endDate then
    match fuel with
    | O => None
    | S fuel' =>
      calendarLoop tz fuel' (current + DAY_MS) endDate
        (if isWeekend tz current then weekendDays + 1 else weekendDays)
        (if isPeak tz current then peakDays + 1 else peakDays)
    end
  else Some (weekendDays, peakDays).
(** Days begun between two times: the turns of the loop. *)
Definition daysBegun (startDate endDate : Z) : Z := (endDate - startDate + DAY_MS - 1) / DAY_MS.
Definition calculateCalendarFactors (tz startDate endDate : Z) : option (Z * Z) :=
  calendarLoop tz (Z.to_nat (daysBegun startDate endDate)) startDate endDate 0 0.

(** ** Pricing rules *)
Open Scope Q_scope.
Record RentalPricingRule : Type := {
  rr_id : string;
  rr_scope : PricingRuleScope;
  rr_priority : Z;
  rr_vendorId : option string;
  rr_branchId : option string;
  rr_vehicleClass : option CarCategory;
  rr_carId : option string;
  rr_isActive : bool;
  rr_effectiveFrom : option Z;
  rr_effectiveTo : option Z;
  rr_dailyRate : option Q;
  rr_hourlyRateMultiplier : option Q;
  rr_weekendMultiplier : option Q;
  rr_peakSeasonMultiplier : option Q;
  rr_holidayMultiplier : option Q;
  rr_weeklyDiscountPct : option Q;
  rr_monthlyDiscountPct : option Q;
  rr_extraKmRate : option Q;
  rr_lateReturnHourlyFee : option Q;
  rr_securityDepositAmount : option Q;
  rr_convenienceFee : option Q;
  rr_oneWayBaseFee : option Q;
}.

Record PricingContext : Type := {
  px_vendorId : string;
  px_branchId : option string;
  px_returnBranchId : option string;
  px_vehicleClass : CarCategory;
  px_carId : option string;
  px_startDate : Z;
  px_endDate : Z;
  px_tripType : TripType;
  px_couponDiscountAmount : option Q;
  px_deliveryFee : option Q;
  px_pickupFee : option Q;
  px_returnFee : option Q;
}.

Definition scopeRank (sc : PricingRuleScope) : Z :=
  match sc with SCOPE_PLATFORM => 1 | SCOPE_VENDOR => 2 | SCOPE_BRANCH => 3 | SCOPE_VEHICLE_CLASS => 4 end.

Definition ruleMatches (now : Z) (ctx : PricingContext) (r : RentalPricingRule) : bool :=
  rr_isActive r &&
  (bool_decide (rr_scope r = SCOPE_PLATFORM) ||
   match truthy (Some (px_vendorId ctx)) with
   | Some v => bool_decide (rr_scope r = SCOPE_VENDOR) && bool_decide (rr_vendorId r = Some v)
   | None => false
   end ||
   match truthy (px_branchId ctx) with
   | Some b => bool_decide (rr_scope r = SCOPE_BRANCH) && bool_decide (rr_branchId r = Some b)
   | None => false
   end ||
   (bool_decide (rr_scope r = SCOPE_VEHICLE_CLASS) &&
    bool_decide (rr_vehicleClass r = Some (px_vehicleClass ctx))) ||
   match truthy (px_carId ctx) with Some c => bool_decide (rr_carId r = Some c) | None => false end) &&
  match rr_effectiveFrom r with Some t => (t <=? now)%Z | None => true end &&
  match rr_effectiveTo r with Some t => (now <=? t)%Z | None => true end.

(** Rows in [ORDER BY priority DESC], ties as the table has them. *)
Definition fetchActiveHierarchyRules (now : Z) (ctx : PricingContext) (rules : list RentalPricingRule)
    : list RentalPricingRule :=
  sort_desc (fun r => inject_Z (rr_priority r)) (List.filter (ruleMatches now ctx) rules).

(** The order of application: by scope, then by priority (a 32-bit integer),
    the greatest last.  [sort_desc] is stable and so is [Array.sort]. *)
Definition applicationKey (r : RentalPricingRule) : Q :=
  inject_Z (- (scopeRank (rr_scope r) * 2 ^ 32 + rr_priority r)).
Definition sortedRules (l : list RentalPricingRule) : list RentalPricingRule := sort_desc applicationKey l.

Record Rates : Type := {
  rt_dailyRate : Q;
  rt_hourlyRate : Q;
  rt_weekendMultiplier : Q;
  rt_peakMultiplier : Q;
  rt_holidayMultiplier : Q;
  rt_weeklyDiscountPct : Q;
  rt_monthlyDiscountPct : Q;
  rt_extraKmRate : Q;
  rt_lateReturnHourlyFee : Q;
  rt_deposit : Q;
  rt_convenienceFee : Q;
  rt_oneWayBaseFee : Q;
}.

Definition getDefaultDailyRateForClass (c : CarCategory) : Q :=
  match c with
  | CAT_HATCHBACK => 1499 | CAT_SEDAN => 2299 | CAT_SUV => 3499 | CAT_LUXURY => 7999
  | CAT_TEMPO_TRAVELLER => 5499 | CAT_MINI_BUS => 8999
  end.

Definition defaultRates (vehicleClass : CarCategory) (car : option CarOffer) : Rates :=
  let daily := match car with Some c => rnd (cf_pricePerDay c) | None => getDefaultDailyRateForClass vehicleClass end in
  let hourly := match car with Some c => rnd (cf_pricePerHour c) | None => inject_Z (js_round (js_div daily 8)) end in
  {| rt_dailyRate := daily; rt_hourlyRate := hourly; rt_weekendMultiplier := 1; rt_peakMultiplier := 1;
     rt_holidayMultiplier := 1;
     rt_weeklyDiscountPct := default 0 (car ≫= cf_weeklyDiscountPercent);
     rt_monthlyDiscountPct := default 0 (car ≫= cf_monthlyDiscountPercent);
     rt_extraKmRate := match car with Some c => rnd (cf_pricePerKm c) | None => 12 end;
     rt_lateReturnHourlyFee := inject_Z (js_round (js_mul hourly (3 # 2)));
     rt_deposit := 3000; rt_convenienceFee := 150; rt_oneWayBaseFee := 500 |}.

(** One turn of the loop over the rules: a column that is set replaces the
    rate; the hourly multiplier applies to the daily rate so far. *)
Definition applyRule (rt : Rates) (r : RentalPricingRule) : Rates :=
  let col (c : option Q) (old : Q) := match c with Some q => rnd q | None => old end in
  let daily := col (rr_dailyRate r) (rt_dailyRate rt) in
  {| rt_dailyRate := daily;
     rt_hourlyRate := match rr_hourlyRateMultiplier r with
                      | Some m => inject_Z (js_round (js_mul daily (rnd m)))
                      | None => rt_hourlyRate rt
                      end;
     rt_weekendMultiplier := col (rr_weekendMultiplier r) (rt_weekendMultiplier rt);
     rt_peakMultiplier := col (rr_peakSeasonMultiplier r) (rt_peakMultiplier rt);
     rt_holidayMultiplier := col (rr_holidayMultiplier r) (rt_holidayMultiplier rt);
     rt_weeklyDiscountPct := default (rt_weeklyDiscountPct rt) (rr_weeklyDiscountPct r);
     rt_monthlyDiscountPct := default (rt_monthlyDiscountPct rt) (rr_monthlyDiscountPct r);
     rt_extraKmRate := col (rr_extraKmRate r) (rt_extraKmRate rt);
     rt_lateReturnHourlyFee := col (rr_lateReturnHourlyFee r) (rt_lateReturnHourlyFee rt);
     rt_deposit := col (rr_securityDepositAmount r) (rt_deposit rt);
     rt_convenienceFee := col (rr_convenienceFee r) (rt_convenienceFee rt);
     rt_oneWayBaseFee := col (rr_oneWayBaseFee r) (rt_oneWayBaseFee rt) |}.
Definition resolveRates (vehicleClass : CarCategory) (car : option CarOffer) (rules : list RentalPricingRule) : Rates :=
  fold_left applyRule (sortedRules rules) (defaultRates vehicleClass car).

(** ** [resolvePricing] *)
Inductive ItemCategory : Type := IC_BASE | IC_MULTIPLIER | IC_FEE | IC_TAX | IC_DISCOUNT | IC_DEPOSIT.
Record PricingItem : Type := {
  pi_category : ItemCategory;
  pi_rate : Q;
  pi_quantity : Q;
  pi_amount : Q;
  pi_isRefundable : bool;
}.
Definition item (c : ItemCategory) (rate quantity amount : Q) : PricingItem :=
  {| pi_category := c; pi_rate := rate; pi_quantity := quantity; pi_amount := amount;
     pi_isRefundable := match c with IC_DEPOSIT => true | _ => false end |}.
Definition itemIf (b : bool) (i : PricingItem) : list PricingItem := if b then [i] else [].

Record PricingResolution : Type := {
  er_lineItems : list PricingItem;
  er_subtotal : Q;
  er_discountTotal : Q;
  er_feesTotal : Q;
  er_taxTotal : Q;
  er_depositTotal : Q;
  er_totalPayable : Q;
  er_netToVendor : Q;
}.

Definition surcharge (portion multiplier : Q) (days : Z) : Z :=
  if (0 <? days)%Z && js_lt 1 multiplier
  then js_round (js_mul (js_mul portion (js_sub multiplier 1)) (inject_Z days)) else 0%Z.
(** [x && x > 0 ? x : 0] and [x || 0] *)
Definition positiveOr0 (x : option Q) : Q := match x with Some q => if js_lt 0 q then q else 0 | None => 0 end.

Definition priceOf (rt : Rates) (ctx : PricingContext) (totalHours totalDays weekendDays peakDays : Z)
    : PricingResolution :=
  let hourly := (bool_decide (px_tripType ctx = TRIP_LOCAL) || bool_decide (px_tripType ctx = TRIP_AIRPORT_TRANSFER))
                && (totalHours <? 24)%Z in
  let rate := if hourly then rt_hourlyRate rt else rt_dailyRate rt in
  let units := inject_Z (if hourly then totalHours else totalDays) in
  let baseFare := inject_Z (js_round (js_mul rate units)) in
  let portion := if hourly then js_mul (rt_hourlyRate rt) 8 else rt_dailyRate rt in
  let weekendSurcharge := surcharge portion (rt_weekendMultiplier rt) weekendDays in
  let maxMultiplier := js_max (rt_peakMultiplier rt) (rt_holidayMultiplier rt) in
  let peakSurcharge := surcharge portion maxMultiplier peakDays in
  let discountPct := if (30 <=? totalDays)%Z && js_lt 0 (rt_monthlyDiscountPct rt) then Some (rt_monthlyDiscountPct rt)
                     else if (7 <=? totalDays)%Z && js_lt 0 (rt_weeklyDiscountPct rt) then Some (rt_weeklyDiscountPct rt)
                     else None in
  let durationDiscount := match discountPct with
                          | Some pct => inject_Z (js_round (js_mul baseFare (js_div pct 100)))
                          | None => 0
                          end in
  let couponDiscount := positiveOr0 (px_couponDiscountAmount ctx) in
  let oneWayFee := match truthy (px_branchId ctx), truthy (px_returnBranchId ctx) with
                   | Some a, Some b => if String.eqb a b then 0 else rt_oneWayBaseFee rt
                   | _, _ => 0
                   end in
  let isOneWay := match truthy (px_branchId ctx), truthy (px_returnBranchId ctx) with
                  | Some a, Some b => negb (String.eqb a b)
                  | _, _ => false
                  end in
  let subtotal := js_max 0 (js_add (js_add baseFare (inject_Z weekendSurcharge)) (inject_Z peakSurcharge)) in
  let totalDiscounts := js_add durationDiscount couponDiscount in
  let totalFees := js_add (js_add (js_add (js_add (rt_convenienceFee rt) oneWayFee)
                     (default 0 (px_pickupFee ctx))) (default 0 (px_returnFee ctx))) (default 0 (px_deliveryFee ctx)) in
  let taxableAmount := js_max 0 (js_add (js_sub subtotal totalDiscounts) totalFees) in
  let taxTotal := inject_Z (js_round (js_mul taxableAmount (rnd (18 # 100)))) in
  {| er_lineItems :=
       [item IC_BASE rate units baseFare] ++
       itemIf (0 <? weekendSurcharge)%Z
         (item IC_MULTIPLIER (js_toFixed_num 2 (js_sub (rt_weekendMultiplier rt) 1)) (inject_Z weekendDays)
            (inject_Z weekendSurcharge)) ++
       itemIf (0 <? peakSurcharge)%Z
         (item IC_MULTIPLIER (js_toFixed_num 2 (js_sub maxMultiplier 1)) (inject_Z peakDays) (inject_Z peakSurcharge)) ++
       match discountPct with Some pct => [item IC_DISCOUNT pct 1 (- durationDiscount)] | None => [] end ++
       itemIf (js_lt 0 couponDiscount) (item IC_DISCOUNT couponDiscount 1 (- couponDiscount)) ++
       itemIf isOneWay (item IC_FEE oneWayFee 1 oneWayFee) ++
       itemIf (js_lt 0 (rt_convenienceFee rt)) (item IC_FEE (rt_convenienceFee rt) 1 (rt_convenienceFee rt)) ++
       itemIf (js_lt 0 (positiveOr0 (px_pickupFee ctx)))
         (item IC_FEE (positiveOr0 (px_pickupFee ctx)) 1 (positiveOr0 (px_pickupFee ctx))) ++
       itemIf (js_lt 0 (positiveOr0 (px_returnFee ctx)))
         (item IC_FEE (positiveOr0 (px_returnFee ctx)) 1 (positiveOr0 (px_returnFee ctx))) ++
       [item IC_TAX 18 1 taxTotal] ++
       itemIf (js_lt 0 (rt_deposit rt)) (item IC_DEPOSIT (rt_deposit rt) 1 (rt_deposit rt));
     er_subtotal := subtotal; er_discountTotal := totalDiscounts; er_feesTotal := totalFees;
     er_taxTotal := taxTotal; er_depositTotal := rt_deposit rt;
     er_totalPayable := js_add (js_add taxableAmount taxTotal) (rt_deposit rt);
     er_netToVendor := inject_Z (js_round (js_mul (js_sub subtotal totalDiscounts) (rnd (85 # 100)))) |}.

(** [car]: the row of [ctx.carId], if it is found. *)
Definition resolvePricing {S} (tz now : Z) (rules : list RentalPricingRule) (car : option CarOffer)
    (ctx : PricingContext) : M S PricingResolution :=
  require (px_startDate ctx <? px_endDate ctx)%Z BadRequestException ;;
  let durationMs := (px_endDate ctx - px_startDate ctx)%Z in
  let totalHours := unitsOf HOUR_MS durationMs in
  let totalDays := unitsOf DAY_MS durationMs in
  let rt := resolveRates (px_vehicleClass ctx) car (fetchActiveHierarchyRules now ctx rules) in
  let '(weekendDays, peakDays) := default (0%Z, 0%Z) (calculateCalendarFactors tz (px_startDate ctx) (px_endDate ctx)) in
  mret (priceOf rt ctx totalHours totalDays weekendDays peakDays).

(** ** Promotions *)
Record PromotionContext : Type := {
  pn_customerId : option string;
  pn_vendorId : string;
  pn_branchId : option string;
  pn_vehicleClass : CarCategory;
  pn_tripType : option TripType;
  pn_subtotal : Q;
  pn_durationDays : Z;
  pn_existingDiscountsCount : Z;
}.
Record PromotionResult : Type := {
  po_isValid : bool;
  po_code : string;
  po_discountType : DiscountType;
  po_discountAmount : Q;
  po_effectiveDiscountAmount : Q;
  po_isStackable : bool;
}.
Definition rejected (code : string) : PromotionResult :=
  {| po_isValid := false; po_code := code; po_discountType := DT_FIXED; po_discountAmount := 0;
     po_effectiveDiscountAmount := 0; po_isStackable := false |}.

(** The restriction to a vendor, a branch, a length and other discounts. *)
Definition promotionScoped (ctx : PromotionContext) (c : Coupon) : bool :=
  match truthy (cpn_vendorId c) with Some v => String.eqb v (pn_vendorId ctx) | None => true end &&
  negb (differs (truthy (cpn_branchId c)) (truthy (pn_branchId ctx))) &&
  match cpn_minRentalDays c with Some d => (d =? 0)%Z || (d <=? pn_durationDays ctx)%Z | None => true end &&
  (cpn_stackable c || (pn_existingDiscountsCount ctx <=? 0)%Z).
(** The limits that depend on the customer. *)
Definition promotionOpenTo {R} (customerId couponId : string) (c : Coupon) (s : PayStore R) : bool :=
  negb (cpn_firstBookingOnly c &&
        existsb (fun p => countsAsBooking customerId (snd p)) (map_to_list (ls_bookings (ps_core s)))) &&
  match cpn_perCustomerLimit c with
  | Some limit => (limit <=? 0)%Z || (usesBy couponId customerId (ps_usages s) <? limit)%Z
  | None => true
  end.
Definition promotionApplies {R} (now : Z) (ctx : PromotionContext) (couponId : string) (c : Coupon)
    (s : PayStore R) : bool :=
  cpn_isActive c &&
  match cpn_startDate c with Some t => negb (now <? t)%Z | None => true end &&
  match cpn_expiresAt c with Some t => negb (t <? now)%Z | None => true end &&
  promotionScoped ctx c &&
  match cpn_carCategory c with Some k => bool_decide (k = pn_vehicleClass ctx) | None => true end &&
  negb (differs (cpn_tripType c) (pn_tripType ctx)) &&
  match cpn_minBookingAmount c with Some m => negb (js_lt (pn_subtotal ctx) (rnd m)) | None => true end &&
  negb (globalLimitReached c) &&
  match truthy (pn_customerId ctx) with Some cust => promotionOpenTo cust couponId c s | None => true end.

Definition calculatedDiscount (c : Coupon) (subtotal : Q) : Q :=
  let discountVal := rnd (cpn_discountValue c) in
  match cpn_discountType c with
  | DT_PERCENTAGE =>
    let d := js_div (js_mul subtotal discountVal) 100 in
    match cpn_maxDiscountAmount c with Some cap => js_min d (rnd cap) | None => d end
  | DT_FIXED => discountVal
  end.

Definition evaluatePromotion {R} (now : Z) (code : string) (ctx : PromotionContext) : M (PayStore R) PromotionResult :=
  s ← get;
  let normalizedCode := uppercase (trim code) in
  found ← from_option_or (findCoupon normalizedCode (ps_coupons s)) NotFoundException;
  let coupon := snd found in
  if promotionApplies now ctx (fst found) coupon s then
    let discount := calculatedDiscount coupon (pn_subtotal ctx) in
    mret {| po_isValid := true; po_code := cpn_code coupon; po_discountType := cpn_discountType coupon;
            po_discountAmount := roundPaise discount;
            po_effectiveDiscountAmount := roundPaise (js_max 0 (js_min (pn_subtotal ctx) discount));
            po_isStackable := cpn_stackable coupon |}
  else mret (rejected normalizedCode).

(** ** Ancillary products *)
Record AncillaryProduct : Type := {
  ap_code : string;
  ap_pricingModel : string;
  ap_basePrice : Q;
  ap_taxRate : Q;
  ap_vendorId : option string;
  ap_isActive : bool;
  ap_maxQuantity : Z;
}.
Record CalculatedAncillaryItem : Type := {
  ai_code : string;
  ai_unitPrice : Q;
  ai_quantity : Q;
  ai_taxRate : Q;
  ai_taxAmount : Q;
  ai_subtotal : Q;
  ai_totalAmount : Q;
}.
Record AncillariesResult : Type := {
  ar_items : list CalculatedAncillaryItem;
  ar_subtotal : Q;
  ar_taxTotal : Q;
  ar_total : Q;
}.

Definition findProduct (products : list AncillaryProduct) (code vendorId : string) : option AncillaryProduct :=
  List.find (fun p => String.eqb (ap_code p) code && ap_isActive p &&
                      (bool_decide (ap_vendorId p = None) || bool_decide (ap_vendorId p = Some vendorId))) products.
Definition orElse (x : option Q) (d : Q) : Q := match x with Some q => if Qeq_bool q 0 then d else q | None => d end.

Definition ancillaryItem (durationDays : Z) (baseFare : Q) (p : AncillaryProduct) (quantity : option Q)
    : CalculatedAncillaryItem :=
  let qty := js_max 1 (js_min (orElse (Some (inject_Z (ap_maxQuantity p))) 5) (orElse quantity 1)) in
  let unitPrice := rnd (ap_basePrice p) in
  let taxRate := rnd (ap_taxRate p) in
  let itemSubtotal :=
    if String.eqb (ap_pricingModel p) "PER_DAY" then js_mul (js_mul unitPrice (inject_Z durationDays)) qty
    else if String.eqb (ap_pricingModel p) "PERCENTAGE" then js_mul (js_mul baseFare (js_div unitPrice 100)) qty
    else js_mul unitPrice qty in
  let taxAmount := js_mul itemSubtotal taxRate in
  {| ai_code := ap_code p; ai_unitPrice := unitPrice; ai_quantity := qty; ai_taxRate := taxRate;
     ai_taxAmount := roundPaise taxAmount; ai_subtotal := roundPaise itemSubtotal;
     ai_totalAmount := roundPaise (js_add itemSubtotal taxAmount) |}.

(** [array.reduce((sum, x) => sum + f(x), 0)] *)
Definition js_sum {A} (f : A -> Q) (l : list A) : Q := fold_left (fun acc x => js_add acc (f x)) l 0.

Definition calculateAncillariesTotal (products : list AncillaryProduct) (selections : list AncillarySelectionInput)
    (rentalDurationDays : Z) (baseFare : Q) (vendorId : string) : AncillariesResult :=
  let durationDays := Z.max 1 rentalDurationDays in
  let items := omap (fun sel =>
    (fun p => ancillaryItem durationDays baseFare p (as_quantity sel)) <$>
      findProduct products (uppercase (trim (as_code sel))) vendorId) selections in
  {| ar_items := items; ar_subtotal := roundPaise (js_sum ai_subtotal items);
     ar_taxTotal := roundPaise (js_sum ai_taxAmount items); ar_total := roundPaise (js_sum ai_totalAmount items) |}.

(** The platform's products, those of [ensureDefaultAncillaries]. *)
Definition platformProduct (code pricingModel : string) (basePrice : Q) (maxQuantity : Z) : AncillaryProduct :=
  {| ap_code := code; ap_pricingModel := pricingModel; ap_basePrice := basePrice; ap_taxRate := 18 # 100;
     ap_vendorId := None; ap_isActive := true; ap_maxQuantity := maxQuantity |}.
Definition defaultCatalog : list AncillaryProduct :=
  [platformProduct "ADDITIONAL_DRIVER" "PER_DAY" 250 2; platformProduct "CHILD_SAFETY_SEAT" "PER_DAY" 200 2;
   platformProduct "GPS_NAVIGATION" "FLAT" 500 1; platformProduct "ROADSIDE_ASSISTANCE" "FLAT" 499 1;
   platformProduct "ZERO_DEP_PROTECTION" "PER_DAY" 450 1; platformProduct "EV_FAST_CHARGING_PASS" "FLAT" 899 1;
   platformProduct "DOORSTEP_DELIVERY" "FLAT" 350 1; platformProduct "POST_TRIP_CLEANING" "FLAT" 300 1].
Definition ensureDefaultAncillaries (products : list AncillaryProduct) : list AncillaryProduct :=
  fold_left (fun l p => if existsb (fun q => String.eqb (ap_code q) (ap_code p)) l then l else l ++ [p])
    defaultCatalog products.

(** ** The calendar loop *)
Open Scope Z_scope.
(** The reference: the days, one after the other, on which [f] holds. *)
Fixpoint daysWhere (f : Z -> bool) (current : Z) (n : nat) : Z :=
  match n with
  | O => 0
  | S n' => (if f current then 1 else 0) + daysWhere f (current + DAY_MS) n'
  end.

Lemma daysBegun_step a b : a < b -> daysBegun a b = daysBegun (a + DAY_MS) b + 1.
Proof.
  intros H. unfold daysBegun. replace (b - a + DAY_MS - 1) with (b - (a + DAY_MS) + DAY_MS - 1 + 1 * DAY_MS) by lia.
  by rewrite Z.div_add.
Qed.
Lemma daysBegun_pos a b : a < b -> 0 < daysBegun a b.
Proof.
  intros H. unfold daysBegun. apply Z.div_str_pos. unfold DAY_MS. lia.
Qed.
Lemma daysBegun_over a b : b <= a -> daysBegun a b <= 0.
Proof.
  intros H. unfold daysBegun. apply Zlt_succ_le. apply Z.div_lt_upper_bound; unfold DAY_MS; lia.
Qed.

Lemma calendarLoop_counts tz fuel a b w p : daysBegun a b <= Z.of_nat fuel ->
  calendarLoop tz fuel a b w p =
    Some (w + daysWhere (isWeekend tz) a (Z.to_nat (daysBegun a b)),
          p + daysWhere (isPeak tz) a (Z.to_nat (daysBegun a b))).
Proof.
  revert a w p. induction fuel as [|fuel IH]; intros a w p Hf; simpl;
    destruct (Z.ltb_spec a b) as [Hlt|Hge].
  - pose proof (daysBegun_pos a b Hlt). lia.
  - pose proof (daysBegun_over a b Hge). replace (Z.to_nat (daysBegun a b)) with O by lia. simpl. do 2 f_equal; lia.
  - pose proof (daysBegun_step a b Hlt) as E. pose proof (daysBegun_pos a b Hlt). rewrite IH by lia.
    rewrite E. replace (Z.to_nat (daysBegun (a + DAY_MS) b + 1)) with (S (Z.to_nat (daysBegun (a + DAY_MS) b))) by lia.
    cbn [daysWhere].
    destruct (isWeekend tz a), (isPeak tz a); f_equal; f_equal; lia.
  - pose proof (daysBegun_over a b Hge). replace (Z.to_nat (daysBegun a b)) with O by lia. simpl. do 2 f_equal; lia.
Qed.

Lemma daysWhere_bounds f a n : 0 <= daysWhere f a n <= Z.of_nat n.
Proof. revert a. induction n as [|n IH]; intros a; simpl; [lia|]. specialize (IH (a + DAY_MS)). case_match; lia. Qed.
Lemma daysWhere_app f a n m : daysWhere f a (n + m) = daysWhere f a n + daysWhere f (a + Z.of_nat n * DAY_MS) m.
Proof.
  revert a. induction n as [|n IH]; intros a; [simpl; by rewrite Z.add_0_r|].
  rewrite Nat.add_succ_l. cbn [daysWhere]. rewrite IH. replace (a + DAY_MS + Z.of_nat n * DAY_MS) with (a + Z.of_nat (S n) * DAY_MS) by lia. lia.
Qed.
Lemma getDay_shift tz t i : getDay tz (t + i * DAY_MS) = (getDay tz t + i) mod 7.
Proof.
  unfold getDay, localDay. replace (t + i * DAY_MS + tz) with (t + tz + i * DAY_MS) by lia.
  rewrite Z.div_add by done. rewrite Zplus_mod_idemp_l. f_equal. lia.
Qed.
Lemma week_weekends tz t : daysWhere (isWeekend tz) t 7 = 2.
Proof.
  assert (forall i, isWeekend tz (t + i * DAY_MS) = ((getDay tz t + i) mod 7 =? 0) || ((getDay tz t + i) mod 7 =? 6))
    as E by (intros i; unfold isWeekend; by rewrite getDay_shift).
  assert (forall n i, daysWhere (isWeekend tz) (t + i * DAY_MS) (S n) =
    (if ((getDay tz t + i) mod 7 =? 0) || ((getDay tz t + i) mod 7 =? 6) then 1 else 0) +
    daysWhere (isWeekend tz) (t + (i + 1) * DAY_MS) n) as Step.
  { intros n i. cbn [daysWhere]. rewrite E. do 2 f_equal. lia. }
  replace t with (t + 0 * DAY_MS) at 1 by lia. rewrite !Step. cbn [daysWhere].
  pose proof (Z.mod_pos_bound (localDay tz t + 4) 7 ltac:(lia)) as Hb. fold (getDay tz t) in Hb.
  assert (getDay tz t = 0 \/ getDay tz t = 1 \/ getDay tz t = 2 \/ getDay tz t = 3 \/ getDay tz t = 4 \/
          getDay tz t = 5 \/ getDay tz t = 6) as Hd by lia.
  clear -Hd. by destruct Hd as [->|[->|[->|[->|[->|[->| ->]]]]]].
Qed.
Lemma weeks_weekends tz t k : daysWhere (isWeekend tz) t (7 * k) = 2 * Z.of_nat k.
Proof.
  revert t. induction k as [|k IH]; intros t; [done|].
  replace (7 * S k)%nat with (7 + 7 * k)%nat by lia. rewrite daysWhere_app, week_weekends, IH. lia.
Qed.

(** The calendar loop of the pricing ends and counts right: for any two
    times, in any zone, one turn per day begun is enough fuel and more changes
    nothing; it answers the number of weekend days and of peak days of a
    day-by-day enumeration, none of them more than the days begun, and [k]
    whole weeks have exactly [2 k] weekend days. *)
Theorem calendar_loop_terminates tz a b fuel : (Z.to_nat (daysBegun a b) <= fuel)%nat ->
  exists w p, calculateCalendarFactors tz a b = Some (w, p) /\ calendarLoop tz fuel a b 0 0 = Some (w, p) /\
    w = daysWhere (isWeekend tz) a (Z.to_nat (daysBegun a b)) /\
    p = daysWhere (isPeak tz) a (Z.to_nat (daysBegun a b)) /\
    0 <= w <= Z.max 0 (daysBegun a b) /\ 0 <= p <= Z.max 0 (daysBegun a b) /\
    (forall k : nat, b - a = Z.of_nat k * (7 * DAY_MS) -> w = 2 * Z.of_nat k).
Proof.
  intros Hf. do 2 eexists. unfold calculateCalendarFactors. rewrite !calendarLoop_counts by lia. rewrite !Z.add_0_l.
  pose proof (daysWhere_bounds (isWeekend tz) a (Z.to_nat (daysBegun a b))).
  pose proof (daysWhere_bounds (isPeak tz) a (Z.to_nat (daysBegun a b))).
  split_and!; try done; try lia. intros k Hk.
  replace (daysBegun a b) with (Z.of_nat (7 * k)); [by rewrite Nat2Z.id, weeks_weekends|].
  unfold daysBegun. rewrite Hk. replace (Z.of_nat k * (7 * DAY_MS) + DAY_MS - 1) with (DAY_MS - 1 + Z.of_nat (7 * k) * DAY_MS) by lia.
  rewrite Z.div_add by done. rewrite Z.div_small by (unfold DAY_MS; lia). lia.
Qed.

(** ** The two coupon engines *)
Open Scope Q_scope.
Section engines.
Context {R : Type}.
Implicit Types s : PayStore R.

(** The amounts of a coupon are not negative. *)
Record sound_coupon (c : Coupon) : Prop := {
  sn_value : 0 <= cpn_discountValue c;
  sn_cap : forall cap, cpn_maxDiscountAmount c = Some cap -> 0 <= cap;
  sn_limit : exists limit, cpn_perCustomerLimit c = Some limit /\ (0 < limit)%Z;
}.

Lemma calculatedDiscount_nonneg c subtotal : sound_coupon c -> 0 <= subtotal -> 0 <= calculatedDiscount c subtotal.
Proof.
  intros [Hv Hc _] Hs. unfold calculatedDiscount. pose proof (rnd_nonneg _ Hv) as Hr.
  destruct (cpn_discountType c); [|done].
  assert (0 <= js_div (js_mul subtotal (rnd (cpn_discountValue c))) 100) as Hd.
  { apply rnd_nonneg. apply Qle_shift_div_l; [lra|]. rewrite Qmult_0_l. apply rnd_nonneg. nra. }
  destruct (cpn_maxDiscountAmount c) as [cap|] eqn:E; [|done]. pose proof (rnd_nonneg _ (Hc cap eq_refl)).
  destruct (js_min_spec (js_div (js_mul subtotal (rnd (cpn_discountValue c))) 100) (rnd cap)) as [[_ ->]|[_ ->]]; lra.
Qed.

Lemma effective_is_raw c subtotal : sound_coupon c -> 0 <= subtotal ->
  roundPaise (js_max 0 (js_min subtotal (calculatedDiscount c subtotal))) = roundPaise (rawDiscount c subtotal).
Proof.
  intros Hc Hs. pose proof (calculatedDiscount_nonneg _ _ Hc Hs) as Hd. apply roundPaise_proper.
  change (rawDiscount c subtotal) with (js_min (calculatedDiscount c subtotal) subtotal).
  set (d := calculatedDiscount c subtotal) in *. clearbody d.
  destruct (js_min_spec subtotal d) as [[H1 ->]|[H1 ->]], (js_min_spec d subtotal) as [[H2 ->]|[H2 ->]]; try lra;
    unfold js_max; destruct (Qle_bool 0 _) eqn:E; try lra;
    exfalso; apply not_true_iff_false in E; apply E, Qle_bool_iff; lra.
Qed.

Lemma open_to cust id c s : sound_coupon c ->
  promotionOpenTo cust id c s =
    negb (customerLimitReached id cust c (ps_usages s)) &&
    negb (cpn_firstBookingOnly c &&
          existsb (fun p => countsAsBooking cust (snd p)) (map_to_list (ls_bookings (ps_core s)))).
Proof.
  intros [_ _ (l & E & Hl)]. unfold promotionOpenTo, customerLimitReached. rewrite E. simpl.
  rewrite andb_comm. f_equal. rewrite Z.ltb_antisym. destruct (Z.leb_spec l 0); [lia|done].
Qed.

(** The request of the other engine. *)
Definition asCouponDto (code : string) (ctx : PromotionContext) : ValidateCouponDto :=
  {| cd_code := code; cd_car := None; cd_subtotal := pn_subtotal ctx; cd_city := None;
     cd_tripType := pn_tripType ctx; cd_carCategory := Some (pn_vehicleClass ctx) |}.

(** The two coupon engines agree: for a coupon of the table with amounts
    that are not negative and a limit per customer, evaluatePromotion accepts
    it for a customer exactly when validateCoupon does (no city given) and the
    scope it alone checks (vendor, branch, length, stacking) allows it, and
    then both give the same discount to the last digit. *)
Theorem coupon_engines_agree now code ctx cust s id c
    (Hfind : findCoupon (uppercase (trim code)) (ps_coupons s) = Some (id, c))
    (Hc : sound_coupon c) (Hs : 0 <= pn_subtotal ctx)
    (Hcust : truthy (pn_customerId ctx) = Some cust) :
  exists p, fst (evaluatePromotion now code ctx s) = Ok p /\
    match fst (validateCoupon now cust (asCouponDto code ctx) s) with
    | Ok r => po_isValid p = promotionScoped ctx c /\
              (po_isValid p = true -> po_effectiveDiscountAmount p = co_discountAmount r)
    | Throw _ => po_isValid p = false
    end.
Proof.
  unfold evaluatePromotion, validateCoupon. rewrite !get_bind. cbv zeta. cbn [cd_code asCouponDto]. rewrite Hfind.
  rewrite !from_option_bind. cbn [fst snd]. rewrite !require_bind.
  unfold promotionApplies. rewrite Hcust, (open_to cust id c s Hc).
  assert (match cpn_carCategory c with Some k => bool_decide (k = pn_vehicleClass ctx) | None => true end =
          negb (differs (cpn_carCategory c) (Some (pn_vehicleClass ctx)))) as ->
    by (unfold differs; destruct (cpn_carCategory c); [by rewrite negb_involutive|done]).
  assert (cityDiffers (cpn_city c) None = false) as Hcity by (unfold cityDiffers; by destruct (truthy (cpn_city c))).
  cbv [asCouponDto cd_city cd_car cd_tripType cd_carCategory cd_subtotal truthy fmap option_fmap option_map].
  rewrite Hcity. cbn [negb].
  destruct (cpn_isActive c); [|by eexists].
  destruct (match cpn_startDate c with Some t => negb (now <? t)%Z | None => true end); [|by eexists].
  destruct (match cpn_expiresAt c with Some t => negb (t <? now)%Z | None => true end); [|by eexists].
  repeat match goal with |- context [if ?b then _ else (Throw _, s)] => destruct b eqn:?; cbn [negb andb] end;
    rewrite ?andb_false_r, ?andb_true_r; try (by eexists).
  destruct (promotionScoped ctx c); (eexists; split; [reflexivity|]); (split; [done|]); [|done].
  intros _. by apply effective_is_raw.
Qed.
End engines.

(** ** Concrete prices *)
(** Twenty days from a Saturday morning, India Standard Time. *)
Lemma calendar_loop_terminates_witness :
  calendarLoop 19800000 25 1772848800000 (1772848800000 + 20 * DAY_MS) 0 0 = Some (6, 0)%Z /\
  exists w p, calculateCalendarFactors 19800000 1772848800000 (1772848800000 + 20 * DAY_MS) = Some (w, p).
Proof.
  split; [vm_compute; reflexivity|].
  destruct (calendar_loop_terminates 19800000 1772848800000 (1772848800000 + 20 * DAY_MS) 25) as (w & p & H & _).
  - vm_compute. lia.
  - exists w, p. exact H.
Defined.

Definition promotion_context : PromotionContext :=
  {| pn_customerId := Some "c2"; pn_vendorId := "v1"; pn_branchId := None; pn_vehicleClass := CAT_SEDAN;
     pn_tripType := Some TRIP_SELF_DRIVE; pn_subtotal := 3705; pn_durationDays := 3; pn_existingDiscountsCount := 0 |}.
Definition promotion_run : result PromotionResult * PayStore RedisMem :=
  evaluatePromotion HOUR " Save" promotion_context (snd created_run).

Lemma coupon_engines_agree_witness :
  exists p, fst promotion_run = Ok p /\ po_isValid p = true /\ po_effectiveDiscountAmount p = rupees 46313.
Proof.
  destruct (findCoupon (uppercase (trim " Save")) (ps_coupons (snd created_run))) as [[id c]|] eqn:E;
    [|vm_compute in E; discriminate E].
  destruct (coupon_engines_agree HOUR " Save" promotion_context "c2" (snd created_run) id c) as (p & Hp & Hv).
  - exact E.
  - vm_compute in E. injection E as <- <-. split.
    + vm_compute. discriminate.
    + intros cap [= <-]. vm_compute. discriminate.
    + exists 1%Z. by split.
  - vm_compute. discriminate.
  - reflexivity.
  - exists p. split; [exact Hp|].
    destruct (fst (validateCoupon HOUR "c2" (asCouponDto " Save" promotion_context) (snd created_run))) as [r|] eqn:Er;
      [|vm_compute in Er; discriminate Er].
    destruct Hv as [H1 H2]. vm_compute in E. injection E as <- <-. split; [exact H1|].
    rewrite (H2 H1). vm_compute in Er. injection Er as <-. vm_compute. reflexivity.
Defined.

(** A rule created with nothing but a daily rate for its class holds the
    defaults of the table: multipliers 1, discounts and fees 0. *)
Definition bare_rule (id : string) (scope : PricingRuleScope) (daily : option Q) : RentalPricingRule :=
  {| rr_id := id; rr_scope := scope; rr_priority := 0; rr_vendorId := Some "v1"; rr_branchId := None;
     rr_vehicleClass := Some CAT_SEDAN; rr_carId := None; rr_isActive := true; rr_effectiveFrom := None;
     rr_effectiveTo := None; rr_dailyRate := daily; rr_hourlyRateMultiplier := None;
     rr_weekendMultiplier := Some 1; rr_peakSeasonMultiplier := Some 1; rr_holidayMultiplier := Some 1;
     rr_weeklyDiscountPct := Some 0; rr_monthlyDiscountPct := Some 0; rr_extraKmRate := None;
     rr_lateReturnHourlyFee := None; rr_securityDepositAmount := None; rr_convenienceFee := Some 0;
     rr_oneWayBaseFee := Some 0 |}.
Definition vendor_rule : RentalPricingRule :=
  {| rr_id := "r1"; rr_scope := SCOPE_VENDOR; rr_priority := 10; rr_vendorId := Some "v1"; rr_branchId := None;
     rr_vehicleClass := None; rr_carId := None; rr_isActive := true; rr_effectiveFrom := None;
     rr_effectiveTo := None; rr_dailyRate := None; rr_hourlyRateMultiplier := None;
     rr_weekendMultiplier := Some (5 # 4); rr_peakSeasonMultiplier := Some 1; rr_holidayMultiplier := Some 1;
     rr_weeklyDiscountPct := Some 15; rr_monthlyDiscountPct := Some 0; rr_extraKmRate := None;
     rr_lateReturnHourlyFee := None; rr_securityDepositAmount := None; rr_convenienceFee := Some 99;
     rr_oneWayBaseFee := Some 0 |}.
(** With the bare class rule the vendor's weekend rate, weekly discount and
    fee are gone. *)
Lemma bare_rule_resets :
  let alone := resolveRates CAT_SEDAN None [vendor_rule] in
  let both := resolveRates CAT_SEDAN None [vendor_rule; bare_rule "r2" SCOPE_VEHICLE_CLASS (Some 2500)] in
  (rt_weekendMultiplier alone, rt_weeklyDiscountPct alone, rt_convenienceFee alone) = (5 # 4, 15 # 1, 99 # 1) /\
  (rt_weekendMultiplier both, rt_weeklyDiscountPct both, rt_convenienceFee both) = (1 # 1, 0 # 1, 0 # 1).
Proof. split; vm_compute; reflexivity. Qed.
(** A coupon of vendor "v9" is refused by this engine and accepted by the
    other one, which createBooking uses. *)
Definition foreign_coupon : Coupon :=
  {| cpn_code := "V9"; cpn_discountType := DT_FIXED; cpn_discountValue := 200; cpn_maxDiscountAmount := None;
     cpn_minBookingAmount := None; cpn_startDate := None; cpn_expiresAt := None; cpn_isActive := true;
     cpn_globalUsageLimit := None; cpn_perCustomerLimit := Some 1%Z; cpn_firstBookingOnly := false;
     cpn_city := None; cpn_tripType := None; cpn_carCategory := None; cpn_usageCount := 0%Z;
     cpn_vendorId := Some "v9"; cpn_branchId := None; cpn_minRentalDays := Some 5%Z; cpn_stackable := false |}.
Lemma vendor_coupon_accepted_elsewhere :
  let s := set_coupon "k9" foreign_coupon (snd created_run) in
  po_isValid <$> match fst (evaluatePromotion HOUR "v9" promotion_context s) with Ok p => Some p | Throw _ => None end
    = Some false /\
  co_discountAmount <$> match fst (validateCoupon HOUR "c2" (asCouponDto "v9" promotion_context) s) with
                        | Ok r => Some r | Throw _ => None end = Some (200 # 1).
Proof. split; vm_compute; reflexivity. Qed.
