(* ===== verification/MarketplaceQuotes.v ===== *)
(** * Quotes of the marketplace: src/car_rental_backend/src/marketplace/marketplace-quote.service.ts

    [createQuote], [getVerifiedQuote] and [refreshQuote], over the table of
    quotes the pricing service writes too.  The text that is hashed and the
    hash are one argument, [checksum], of the values the text prints. *)
From S2P Require Import Prelude JsNumber Decimal Schema Ledger Wallet Locks HandoverOtp PaymentRefund Outbox BookingStore.
From S2P Require Import CancellationPolicy BookingLifecycle Payments FareCalculator Coupons Quotes MarketplacePricing.
Open Scope Z_scope.
Open Scope Q_scope.

(** ** Data *)
Record CheckoutSession : Type := {
  cs_customerId : string;
  cs_quoteId : string;
  cs_status : CheckoutSessionStatus;
  cs_driverDetails : option (string * Z);          (* licence number and age *)
  cs_ancillarySelections : option (list AncillarySelectionInput);
  cs_selectedPaymentMethod : option string;
  cs_selectedPaymentProvider : option string;
  cs_paymentAttempts : Z;
  cs_lastPaymentError : option string;             (* its provider *)
  cs_bookingId : option string;
  cs_expiresAt : Z;
  cs_completedAt : option Z;
  cs_activeOrderId : option string;                (* of the metadata *)
  cs_fallbackChain : list string;                  (* of the routing decision there *)
}.

(** The store of the marketplace; sessions by their [sessionId]. *)
Record MarketStore (R : Type) : Type := {
  mk_sales : SalesStore R;
  mk_rules : list RentalPricingRule;
  mk_products : list AncillaryProduct;
  mk_sessions : gmap string CheckoutSession;
}.
Arguments mk_sales {R}. Arguments mk_rules {R}. Arguments mk_products {R}. Arguments mk_sessions {R}.

Section setters.
Context {R : Type}.
Implicit Types s : MarketStore R.
Definition set_sales (x : SalesStore R) s : MarketStore R :=
  {| mk_sales := x; mk_rules := mk_rules s; mk_products := mk_products s; mk_sessions := mk_sessions s |}.
Definition set_session (id : string) (c : CheckoutSession) s : MarketStore R :=
  {| mk_sales := mk_sales s; mk_rules := mk_rules s; mk_products := mk_products s;
     mk_sessions := <[id := c]> (mk_sessions s) |}.
Definition market_quotes s : gmap string BookingQuote := sl_quotes (mk_sales s).
Definition set_market_quote (id : string) (q : BookingQuote) s : MarketStore R :=
  set_sales (set_quotes (<[id := q]> (market_quotes s)) (mk_sales s)) s.
Definition market_pay s : PayStore R := sl_pay (mk_sales s).
Definition set_market_pay (p : PayStore R) s : MarketStore R := set_sales (set_pay p (mk_sales s)) s.
End setters.

Record CreateMarketplaceQuoteInput : Type := {
  mi_customerId : option string;
  mi_vendorId : string;
  mi_branchId : option string;
  mi_returnBranchId : option string;
  mi_vehicleClass : option CarCategory;
  mi_carId : string;
  mi_startDate : Z;
  mi_endDate : Z;
  mi_tripType : option TripType;
  mi_couponCode : option string;
  mi_ancillaries : list AncillarySelectionInput;
  mi_deliveryAddress : option string;
  mi_idempotencyKey : option string;
}.
Record MarketEnv : Type := {
  me_now : Z;
  me_tz : Z;
  me_freshId : string;
}.

(** What the snapshot of a quote says, in numbers. *)
Record QuoteSnapshot : Type := {
  qs_quoteId : string;
  qs_tenantId : string;
  qs_customerId : option string;
  qs_carId : string;
  qs_vehicleClass : CarCategory;
  qs_tripType : TripType;
  qs_startDate : Z;
  qs_endDate : Z;
  qs_subtotal : Q;
  qs_discountTotal : Q;
  qs_feesTotal : Q;
  qs_taxTotal : Q;
  qs_depositTotal : Q;
  qs_totalPayable : Q;
  qs_netToVendor : Q;
  qs_expiresAt : Z;
  qs_status : QuoteStatus;
  qs_integrityChecksum : string;
}.

(** The values the hashed text prints; equal numbers print alike. *)
Definition ChecksumPayload : Type := string * Z * Z * list Q.
Definition payload (carId : string) (startDate endDate : Z) (amounts : list Q) : ChecksumPayload :=
  (carId, startDate, endDate, map Qred amounts).

Record MarketTotals : Type := {
  mt_subtotal : Q;
  mt_discountTotal : Q;
  mt_feesTotal : Q;
  mt_taxTotal : Q;
  mt_depositTotal : Q;
  mt_totalPayable : Q;
  mt_netToVendor : Q;
  mt_appliedCouponCode : option string;
  mt_lineItems : list QuoteLineItem;
}.
Definition hashedAmounts (t : MarketTotals) : list Q :=
  [mt_subtotal t; mt_discountTotal t; mt_feesTotal t; mt_taxTotal t; mt_depositTotal t; mt_totalPayable t].

Section market_quotes.
Context {R : Type} {col : NumericColumn} {num : DecimalNumbers}.
Abbreviation MM := (M (MarketStore R)).
Variable checksum : ChecksumPayload -> string.

Definition QUOTE_LOCK_DURATION_MINUTES : Z := 15.

Definition itemType (c : ItemCategory) : QuoteLineItemType :=
  match c with
  | IC_BASE => QL_BASE_RENTAL | IC_TAX => QL_GST | IC_DEPOSIT => QL_SECURITY_DEPOSIT
  | IC_DISCOUNT => QL_DURATION_DISCOUNT | IC_MULTIPLIER | IC_FEE => QL_PLATFORM_FEE
  end.
Definition pricedLine (i : PricingItem) : QuoteLineItem :=
  line (itemType (pi_category i)) (pi_rate i) (pi_quantity i) (pi_amount i) (pi_isRefundable i).
Definition addonLine (i : CalculatedAncillaryItem) : QuoteLineItem :=
  line QL_EXTRA_ADDON (ai_unitPrice i) (ai_quantity i) (ai_subtotal i) false.

Definition mapToSnapshot (id : string) (q : BookingQuote) : QuoteSnapshot :=
  let meta := qm_market (bq_metadata q) in
  {| qs_quoteId := id; qs_tenantId := bq_tenantId q; qs_customerId := bq_customerId q; qs_carId := bq_carId q;
     qs_vehicleClass := match meta with Some m => mm_vehicleClass m | None => CAT_SEDAN end;
     qs_tripType := bq_tripType q; qs_startDate := bq_startDate q; qs_endDate := bq_endDate q;
     qs_subtotal := rnd (bq_subtotal q); qs_discountTotal := rnd (bq_discountTotal q);
     qs_feesTotal := rnd (bq_feesTotal q); qs_taxTotal := rnd (bq_taxTotal q);
     qs_depositTotal := rnd (bq_depositTotal q); qs_totalPayable := rnd (bq_totalPayable q);
     qs_netToVendor := rnd (bq_netToVendor q); qs_expiresAt := bq_expiresAt q; qs_status := bq_status q;
     qs_integrityChecksum := match meta with Some m => mm_integrityChecksum m | None => "" end |}.

Definition pricingContext (input : CreateMarketplaceQuoteInput) (car : Car) (offer : CarOffer) : PricingContext :=
  {| px_vendorId := str_or (Some (mi_vendorId input)) (cf_vendorId offer);
     px_branchId := match truthy (mi_branchId input) with Some b => Some b | None => truthy (car_pickupHubId car) end;
     px_returnBranchId := mi_returnBranchId input;
     px_vehicleClass := default (car_type car) (mi_vehicleClass input); px_carId := Some (mi_carId input);
     px_startDate := mi_startDate input; px_endDate := mi_endDate input;
     px_tripType := default TRIP_SELF_DRIVE (mi_tripType input); px_couponDiscountAmount := None;
     px_deliveryFee := None; px_pickupFee := None; px_returnFee := None |}.

(** Steps 3 to 6: the price with coupon and add-ons. *)
Definition marketTotals (env : MarketEnv) (input : CreateMarketplaceQuoteInput) (car : Car) (offer : CarOffer)
    : MM MarketTotals :=
  s ← get;
  let ctx := pricingContext input car offer in
  let durationDays := unitsOf DAY_MS (mi_endDate input - mi_startDate input) in
  price ← resolvePricing (me_tz env) (me_now env) (mk_rules s) (Some offer) ctx;
  let subtotal := er_subtotal price in
  promo ←
    match truthy (mi_couponCode input) with
    | Some code =>
      r ← zoom market_pay set_market_pay (evaluatePromotion (me_now env) code
        {| pn_customerId := mi_customerId input; pn_vendorId := px_vendorId ctx; pn_branchId := mi_branchId input;
           pn_vehicleClass := px_vehicleClass ctx; pn_tripType := mi_tripType input; pn_subtotal := subtotal;
           pn_durationDays := durationDays;
           pn_existingDiscountsCount := if js_lt 0 (er_discountTotal price) then 1%Z else 0%Z |});
      mret (if po_isValid r && js_lt 0 (po_effectiveDiscountAmount r) then Some r else None)
    | None => mret None
    end;
  let discountTotal := match promo with
                       | Some r => js_add (er_discountTotal price) (po_effectiveDiscountAmount r)
                       | None => er_discountTotal price
                       end in
  let addons := ar_items (calculateAncillariesTotal (mk_products s) (mi_ancillaries input) durationDays subtotal
                            (px_vendorId ctx)) in
  let feesTotal := fold_left (fun acc a => js_add acc (ai_subtotal a)) addons (er_feesTotal price) in
  let taxTotal := fold_left (fun acc a => js_add acc (ai_taxAmount a)) addons (er_taxTotal price) in
  let depositTotal := er_depositTotal price in
  mret {| mt_subtotal := subtotal; mt_discountTotal := discountTotal; mt_feesTotal := feesTotal;
          mt_taxTotal := taxTotal; mt_depositTotal := depositTotal;
          mt_totalPayable := js_max 0 (roundPaise (js_add (js_add (js_add (js_sub subtotal discountTotal) feesTotal)
                               taxTotal) depositTotal));
          mt_netToVendor := er_netToVendor price; mt_appliedCouponCode := po_code <$> promo;
          mt_lineItems := map pricedLine (er_lineItems price) ++
            match promo with
            | Some r => [line QL_COUPON_DISCOUNT (po_effectiveDiscountAmount r) 1 (- po_effectiveDiscountAmount r) false]
            | None => []
            end ++ map addonLine addons |}.

(** Step 8: the row, each number turned decimal and rounded to its column. *)
Definition marketRow (env : MarketEnv) (input : CreateMarketplaceQuoteInput) (car : Car) (offer : CarOffer)
    (t : MarketTotals) : BookingQuote :=
  let dec x := store (of_number x) in
  {| bq_tenantId := str_or (Some (mi_vendorId input)) (cf_vendorId offer); bq_customerId := mi_customerId input;
     bq_carId := mi_carId input; bq_tripType := default TRIP_SELF_DRIVE (mi_tripType input);
     bq_startDate := mi_startDate input; bq_endDate := mi_endDate input;
     bq_durationDays := unitsOf DAY_MS (mi_endDate input - mi_startDate input);
     bq_durationHours := unitsOf HOUR_MS (mi_endDate input - mi_startDate input);
     bq_subtotal := dec (mt_subtotal t); bq_discountTotal := dec (mt_discountTotal t);
     bq_feesTotal := dec (mt_feesTotal t); bq_taxTotal := dec (mt_taxTotal t);
     bq_depositTotal := dec (mt_depositTotal t); bq_totalPayable := dec (mt_totalPayable t);
     bq_netToVendor := dec (mt_netToVendor t); bq_status := QS_ACTIVE;
     bq_expiresAt := (me_now env + QUOTE_LOCK_DURATION_MINUTES * 60 * 1000)%Z;
     bq_acceptedAt := None; bq_idempotencyKey := mi_idempotencyKey input;
     bq_metadata := {| qm_mileagePackageId := None; qm_couponCode := None;
       qm_deliveryAddress := mi_deliveryAddress input; qm_pickupHubId := None; qm_returnHubId := None;
       qm_market := Some {|
         mm_integrityChecksum :=
           checksum (payload (mi_carId input) (mi_startDate input) (mi_endDate input) (hashedAmounts t));
         mm_vehicleClass := default (car_type car) (mi_vehicleClass input);
         mm_appliedCouponCode := mt_appliedCouponCode t;
         mm_ancillarySelections := mi_ancillaries input |} |};
     bq_lineItems := map (fun i => line (qi_type i) (dec (qi_rate i)) (dec (qi_quantity i)) (dec (qi_amount i))
                                     (qi_isRefundable i)) (mt_lineItems t) |}.

Definition priceMarketQuote (env : MarketEnv) (input : CreateMarketplaceQuoteInput) : MM QuoteSnapshot :=
  s ← get;
  car ← from_option_or (car_of (mi_carId input) (mk_sales s)) NotFoundException;
  offer ← from_option_or (offer_of (mi_carId input) (mk_sales s)) NotFoundException;
  t ← marketTotals env input car offer;
  created ← zoom mk_sales set_sales (createQuoteRow (me_freshId env) (marketRow env input car offer t));
  mret (mapToSnapshot (fst created) (snd created)).

Definition createQuote (env : MarketEnv) (input : CreateMarketplaceQuoteInput) : MM QuoteSnapshot :=
  require (mi_startDate input <? mi_endDate input)%Z BadRequestException ;;
  s ← get;
  match truthy (mi_idempotencyKey input) ≫= (fun key => quoteByKey key (market_quotes s)) with
  | Some (id, q) =>
    if bool_decide (bq_status q = QS_ACTIVE) && (me_now env <? bq_expiresAt q)%Z then mret (mapToSnapshot id q)
    else priceMarketQuote env input
  | None => priceMarketQuote env input
  end.

(** The amounts of a stored quote, as numbers again. *)
Definition storedAmounts (q : BookingQuote) : list Q :=
  [rnd (bq_subtotal q); rnd (bq_discountTotal q); rnd (bq_feesTotal q); rnd (bq_taxTotal q);
   rnd (bq_depositTotal q); rnd (bq_totalPayable q)].
Definition untampered (q : BookingQuote) : bool :=
  match qm_market (bq_metadata q) with
  | Some m =>
    String.eqb (mm_integrityChecksum m) "" ||
    String.eqb (mm_integrityChecksum m)
      (checksum (payload (bq_carId q) (bq_startDate q) (bq_endDate q) (storedAmounts q)))
  | None => true
  end.

Definition getVerifiedQuote (now : Z) (quoteId : string) : MM QuoteSnapshot :=
  s ← get;
  quote ← from_option_or (market_quotes s !! quoteId) NotFoundException;
  if bool_decide (bq_status quote = QS_ACTIVE) && (bq_expiresAt quote <? now)%Z then
    modify (set_market_quote quoteId (with_quote_status QS_EXPIRED quote)) ;;
    throw ConflictException
  else
    require (bool_decide (bq_status quote = QS_ACTIVE)) ConflictException ;;
    require (untampered quote) ConflictException ;;
    mret (mapToSnapshot quoteId quote).

(** What a refresh asks for again: neither branch, return branch nor key. *)
Definition refreshInput (customerId : option string) (q : BookingQuote) : CreateMarketplaceQuoteInput :=
  let meta := qm_market (bq_metadata q) in
  {| mi_customerId := match truthy customerId with Some c => Some c | None => truthy (bq_customerId q) end;
     mi_vendorId := bq_tenantId q; mi_branchId := None; mi_returnBranchId := None;
     mi_vehicleClass := Some (match meta with Some m => mm_vehicleClass m | None => CAT_SEDAN end);
     mi_carId := bq_carId q; mi_startDate := bq_startDate q; mi_endDate := bq_endDate q;
     mi_tripType := Some (bq_tripType q); mi_couponCode := meta ≫= mm_appliedCouponCode;
     mi_ancillaries := match meta with Some m => mm_ancillarySelections m | None => [] end;
     mi_deliveryAddress := qm_deliveryAddress (bq_metadata q); mi_idempotencyKey := None |}.
Definition refreshMarketQuote (env : MarketEnv) (quoteId : string) (customerId : option string) : MM QuoteSnapshot :=
  s ← get;
  oldQuote ← from_option_or (market_quotes s !! quoteId) NotFoundException;
  when (bool_decide (bq_status oldQuote = QS_ACTIVE) || bool_decide (bq_status oldQuote = QS_EXPIRED))
    (modify (set_market_quote quoteId (with_quote_status QS_SUPERSEDED oldQuote))) ;;
  createQuote env (refreshInput customerId oldQuote).
End market_quotes.

(** ** Laws *)
(** A number that prints as whole paise, of a size the columns hold. *)
Definition paise_number (x : Q) : Prop := exists p, money p /\ x = rupees p.

Section market_laws.
Context {R : Type} {col : NumericColumn} {num : DecimalNumbers}.
Implicit Types s : MarketStore R.
Variable checksum : ChecksumPayload -> string.

Lemma evaluatePromotion_readonly now code ctx : readonly (evaluatePromotion (R:=R) now code ctx).
Proof.
  intros x. unfold evaluatePromotion. apply preserves_bind; [auto with preserves|intros s].
  apply preserves_bind; [auto with preserves|intros found]. cbv zeta. case_match; auto with preserves.
Qed.
Lemma marketTotals_readonly env input car offer : readonly (marketTotals (R:=R) env input car offer).
Proof.
  intros x. unfold marketTotals. cbv zeta. apply preserves_bind; [auto with preserves|intros t].
  apply preserves_bind; [unfold resolvePricing; cbv zeta; case_match; auto with preserves|intros price].
  apply preserves_bind; [|auto with preserves]. destruct (truthy (mi_couponCode input)); [|auto with preserves].
  apply preserves_bind; [|auto with preserves]. apply readonly_zoom; [by intros [[]]|apply evaluatePromotion_readonly].
Qed.

Lemma priceMarketQuote_Ok env input s snap s' : priceMarketQuote checksum env input s = (Ok snap, s') ->
  exists car offer t, car_of (mi_carId input) (mk_sales s) = Some car /\
    offer_of (mi_carId input) (mk_sales s) = Some offer /\ marketTotals env input car offer s = (Ok t, s) /\
    let row := marketRow checksum env input car offer t in
    snap = mapToSnapshot (me_freshId env) row /\ s' = set_market_quote (me_freshId env) row s.
Proof.
  unfold priceMarketQuote. intros H. step_in H. destruct (car_of _ _) as [car|] eqn:Ecar; [|done].
  step_in H. destruct (offer_of _ _) as [offer|] eqn:Eoffer; [|done]. step_in H.
  apply bind_Ok in H as (t & s1 & Ht & H).
  pose proof (readonly_eq _ _ _ _ (marketTotals_readonly _ _ _ _) Ht) as ->.
  apply bind_Ok in H as (created & s2 & Hc & [= <- <-]). apply zoom_run in Hc as (x & Hc & ->).
  apply createQuoteRow_Ok in Hc as [-> ->]. exists car, offer, t. by split_and!.
Qed.

(** A number of whole paise survives the table. *)
Lemma stored_back x : paise_number x -> rnd (store (of_number x)) = x.
Proof.
  intros (p & Hp & ->). pose proof (of_number_paise p Hp) as E.
  assert (whole_paise (of_number (rupees p))) as Hw by (exists p; exact E).
  unfold rupees at 2. apply rnd_eq. by rewrite (store_exact _ Hw).
Qed.
Lemma storedAmounts_back env input car offer t : Forall paise_number (hashedAmounts t) ->
  storedAmounts (marketRow checksum env input car offer t) = hashedAmounts t.
Proof.
  unfold hashedAmounts, storedAmounts. simpl. rewrite !Forall_cons. intros (H1 & H2 & H3 & H4 & H5 & H6 & _).
  by rewrite !stored_back.
Qed.

Lemma getVerifiedQuote_found now id q s : market_quotes s !! id = Some q ->
  getVerifiedQuote checksum now id s =
    if bool_decide (bq_status q = QS_ACTIVE) && (bq_expiresAt q <? now)%Z
    then (Throw ConflictException, set_market_quote id (with_quote_status QS_EXPIRED q) s)
    else if bool_decide (bq_status q = QS_ACTIVE) && untampered checksum q then (Ok (mapToSnapshot id q), s)
    else (Throw ConflictException, s).
Proof.
  intros H. unfold getVerifiedQuote. rewrite get_bind, H, from_option_bind.
  destruct (bool_decide (bq_status q = QS_ACTIVE)); cbn [andb]; [|done].
  destruct (bq_expiresAt q <? now)%Z; [done|]. rewrite !require_bind. by destruct (untampered checksum q).
Qed.

Lemma market_quote_found id q s : market_quotes (set_market_quote id q s) !! id = Some q.
Proof. apply lookup_insert_eq. Qed.

(** A marketplace quote keeps its price for fifteen minutes and cannot be
    altered.  When a quote was priced and its amounts are whole paise, it
    verifies until its expiry, with the snapshot the customer was given and
    the amounts that were hashed, and from then on it is refused and marked
    expired; and with a hash without collisions no row that carries its
    checksum verifies unless car, dates and all six amounts are the same. *)
Theorem market_quote_integrity env input s snap s' now
    (H : priceMarketQuote checksum env input s = (Ok snap, s'))
    (Hsha : forall a b, checksum a = checksum b -> a = b) (Htext : forall a, checksum a <> "") :
  exists car offer t, car_of (mi_carId input) (mk_sales s) = Some car /\
    offer_of (mi_carId input) (mk_sales s) = Some offer /\ marketTotals env input car offer s = (Ok t, s) /\
    (Forall paise_number (hashedAmounts t) -> (now <= me_now env + 15 * 60 * 1000)%Z ->
       getVerifiedQuote checksum now (qs_quoteId snap) s' = (Ok snap, s') /\
       [qs_subtotal snap; qs_discountTotal snap; qs_feesTotal snap; qs_taxTotal snap; qs_depositTotal snap;
        qs_totalPayable snap] = hashedAmounts t) /\
    ((me_now env + 15 * 60 * 1000 < now)%Z ->
       exists s'', getVerifiedQuote checksum now (qs_quoteId snap) s' = (Throw ConflictException, s'') /\
         (bq_status <$> market_quotes s'' !! qs_quoteId snap) = Some QS_EXPIRED) /\
    (forall id q r s1 s2, market_quotes s1 !! id = Some q ->
       mm_integrityChecksum <$> qm_market (bq_metadata q) = Some (qs_integrityChecksum snap) ->
       getVerifiedQuote checksum now id s1 = (Ok r, s2) ->
       bq_carId q = mi_carId input /\ bq_startDate q = mi_startDate input /\ bq_endDate q = mi_endDate input /\
       Forall2 Qeq (storedAmounts q) (hashedAmounts t)).
Proof.
  apply priceMarketQuote_Ok in H as (car & offer & t & Hcar & Hoffer & Ht & -> & ->).
  set (row := marketRow _ _ _ _ _ _). exists car, offer, t. do 3 (split; [done|]).
  change (qs_quoteId (mapToSnapshot (me_freshId env) row)) with (me_freshId env).
  split; [|split].
  - intros Hp Hnow. rewrite (getVerifiedQuote_found _ _ row) by apply market_quote_found.
    replace (bq_expiresAt row <? now)%Z with false
      by (symmetry; apply Z.ltb_ge; unfold row; simpl; unfold QUOTE_LOCK_DURATION_MINUTES; lia).
    pose proof (storedAmounts_back env input car offer t Hp) as Eb. fold row in Eb.
    assert (untampered checksum row = true) as ->.
    { unfold untampered. rewrite Eb. simpl. by rewrite String.eqb_refl, orb_true_r. }
    simpl. split; [done|exact Eb].
  - intros Hnow. rewrite (getVerifiedQuote_found _ _ row) by apply market_quote_found.
    replace (bq_expiresAt row <? now)%Z with true
      by (symmetry; apply Z.ltb_lt; unfold row; simpl; unfold QUOTE_LOCK_DURATION_MINUTES; lia).
    simpl. eexists. split; [done|]. by rewrite market_quote_found.
  - intros id q r s1 s2 Hq Hm Hv. rewrite (getVerifiedQuote_found _ _ q _ Hq) in Hv.
    destruct (bool_decide (bq_status q = QS_ACTIVE)); [|done]. cbn [andb] in Hv.
    destruct (bq_expiresAt q <? now)%Z; [done|]. destruct (untampered checksum q) eqn:E; [|done].
    unfold untampered in E. destruct (qm_market (bq_metadata q)) as [m|]; [|done].
    injection Hm as Hm. rewrite Hm in E. apply orb_true_iff in E as [E%String.eqb_eq|E%String.eqb_eq].
    + exfalso. eapply Htext. exact E.
    + apply Hsha in E. unfold payload in E. injection E as E1 E2 E3 E4.
      split_and!; [done..|].
      repeat constructor; match goal with |- ?a == ?b => rewrite <- (Qred_correct a), <- (Qred_correct b); congruence end.
Qed.
End market_laws.

(** ** Concrete quotes *)
(** A hash without collisions: the payload itself, coded in binary. *)
Fixpoint bits (p : BinNums.positive) : string :=
  match p with xH => "." | xO q => "0" +:+ bits q | xI q => "1" +:+ bits q end.
Definition plain_checksum (p : ChecksumPayload) : string :=
  let '(carId, a, b, amounts) := p in
  bits (encode (carId, a, b, map (fun q => (Qnum q, Qden q)) amounts)).
Lemma bits_inj p q : bits p = bits q -> p = q.
Proof. revert q. induction p as [p IH|p IH|]; intros [q|q|] H; simplify_eq/=; try done; f_equal; by apply IH. Qed.
Lemma plain_checksum_inj a b : plain_checksum a = plain_checksum b -> a = b.
Proof.
  destruct a as [[[c1 a1] b1] l1], b as [[[c2 a2] b2] l2]. unfold plain_checksum. intros H%bits_inj.
  apply (inj encode) in H. injection H as -> -> -> H. f_equal.
  revert l2 H. induction l1 as [|[n1 d1] l1 IH]; intros [|[n2 d2] l2] H; simplify_eq/=; [done|].
  f_equal. by apply IH.
Qed.
Lemma plain_checksum_text a : plain_checksum a <> "".
Proof. destruct a as [[[c t1] t2] l]. unfold plain_checksum. by destruct (encode _). Qed.

Definition market_store : MarketStore RedisMem :=
  {| mk_sales := empty_sales; mk_rules := []; mk_products := ensureDefaultAncillaries []; mk_sessions := ∅ |}.
Definition market_env (id : string) : MarketEnv := {| me_now := HOUR; me_tz := 19800000; me_freshId := id |}.
Definition market_input (days : Z) (addons : list AncillarySelectionInput) : CreateMarketplaceQuoteInput :=
  {| mi_customerId := Some "c2"; mi_vendorId := "v1"; mi_branchId := None; mi_returnBranchId := None;
     mi_vehicleClass := None; mi_carId := "car1"; mi_startDate := 240 * HOUR; mi_endDate := (240 + 24 * days) * HOUR;
     mi_tripType := None; mi_couponCode := Some "save"; mi_ancillaries := addons; mi_deliveryAddress := None;
     mi_idempotencyKey := None |}.
Definition addon (code : string) : AncillarySelectionInput := {| as_code := code; as_quantity := None |}.
Definition market_run : result QuoteSnapshot * MarketStore RedisMem :=
  priceMarketQuote plain_checksum (market_env "mq1") (market_input 3 [addon "gps_navigation"]) market_store.
Definition later_run : result QuoteSnapshot * MarketStore RedisMem :=
  getVerifiedQuote plain_checksum (HOUR + 60000) "mq1" (snd market_run).

Lemma paise_numbers l ps : map rupees ps = l -> forallb (fun p => Z.abs p <=? 10 ^ 13)%Z ps = true ->
  Forall paise_number l.
Proof.
  intros <- H. rewrite forallb_forall in H. apply Forall_map, Forall_forall. intros p Hp.
  exists p. split; [|done]. apply Z.leb_le, H, list_elem_of_In, Hp.
Qed.

Lemma market_quote_integrity_witness :
  exists snap, fst market_run = Ok snap /\ fst later_run = Ok snap /\ qs_totalPayable snap == rupees 767587.
Proof.
  destruct (fst market_run) as [snap|] eqn:E; [|vm_compute in E; discriminate E]. exists snap. split; [reflexivity|].
  destruct (market_quote_integrity plain_checksum (market_env "mq1") (market_input 3 [addon "gps_navigation"])
    market_store snap (snd market_run) (HOUR + 60000)) as (car & offer & t & Hcar & Hoffer & Ht & Hv & _).
  { apply (run_eq market_run). exact E. }
  { exact plain_checksum_inj. }
  { exact plain_checksum_text. }
  vm_compute in Hcar. injection Hcar as <-. vm_compute in Hoffer. injection Hoffer as <-.
  vm_compute in Ht. injection Ht as <-.
  assert (qs_quoteId snap = "mq1") as Eid by (vm_compute in E; injection E as <-; reflexivity).
  destruct Hv as [Hv Ha].
  - apply (paise_numbers _ [370500; 46313; 65000; 78400; 300000; 767587]%Z); vm_compute; reflexivity.
  - discriminate.
  - unfold later_run. rewrite <- Eid, Hv. split; [reflexivity|].
    vm_compute in E. injection E as <-. vm_compute. reflexivity.
Defined.

(** Two add-ons of the platform's own catalogue on a rental of two days: the
    taxes add up to 724.6400000000001, the column holds 724.64, and the fresh
    quote is refused as tampered with. *)
Definition addons_run : result QuoteSnapshot * MarketStore RedisMem :=
  createQuote plain_checksum (market_env "mq1")
    (market_input 2 [addon "EV_FAST_CHARGING_PASS"; addon "ROADSIDE_ASSISTANCE"]) market_store.
Lemma fresh_quote_refused :
  is_Ok (fst addons_run) = true /\
  (bq_status <$> market_quotes (snd addons_run) !! "mq1") = Some QS_ACTIVE /\
  fst (getVerifiedQuote plain_checksum HOUR "mq1" (snd addons_run)) = Throw ConflictException.
Proof. split_and!; vm_compute; reflexivity. Qed.
