(* ===== verification/BookingCreation.v ===== *)
(** * Booking creation: createBooking of src/car_rental_backend/src/bookings/bookings.service.ts

    [createBooking] whole: the checks of dates, car and trip type, the car
    lock, the price (fare, delivery, coupon or referral benefit, protection,
    or the accepted quote), the deposit, the risk gate and the transaction
    with its overlap checks.  The row lock of the car inside the transaction
    serialises the transactions of a car: a transaction is one step.  Left
    out: cache invalidation, notifications and the dispatch after the commit. *)
From S2P Require Import Prelude JsNumber Decimal Schema Ledger Wallet Locks HandoverOtp PaymentRefund Outbox BookingStore.
From S2P Require Import CancellationPolicy BookingLifecycle Payments PaymentOrders FareCalculator Coupons Quotes.
From stdpp Require Import pretty.
Open Scope Z_scope.
Open Scope Q_scope.

Record CreateBookingDto : Type := {
  cb_carId : string;
  cb_startDate : Z;
  cb_endDate : Z;
  cb_tripType : TripType;
  cb_quoteId : option string;
  cb_mileagePackageId : option string;
  cb_distanceKm : option Q;
  cb_pickupHubId : option string;
  cb_returnHubId : option string;
  cb_deliveryType : option DeliveryType;
  cb_deliveryAddress : option string;
  cb_deliveryLatitude : option Q;
  cb_couponCode : option string;
  cb_protectionPackageId : option string;
}.

(** [ce_now] is the clock of the request, [ce_eligible] what the eligibility
    service answers, [ce_referral] the benefit of a referred customer (the
    least booking amount and the discount), [ce_blocked] whether the risk gate
    answers BLOCK; [None] or [false] for a service that is not wired.
    [ce_dayStart] and [ce_dayEnd] are the bounds of the local day of a time. *)
Record CreateEnv : Type := {
  ce_now : Z;
  ce_later : Z;
  ce_lockUp : bool;
  ce_releaseUp : bool;
  ce_token : string;
  ce_bookingId : string;
  ce_eventId : string;
  ce_eligible : option bool;
  ce_commission : option Q;
  ce_delivery : option (result DeliveryQuote);
  ce_referral : option (Q * Q);
  ce_hasDepositRules : bool;
  ce_depositDefaults : CarCategory -> option Q;
  ce_blocked : bool;
  ce_hasPricing : bool;
  ce_cancelMatrix : option CancellationMatrixConfig;
  ce_dayStart : Z -> Z;
  ce_dayEnd : Z -> Z;
}.

(** The statuses that keep a car for a new booking. *)
Definition active (st : BookingStatus) : bool :=
  bool_decide (st ∈ [BS_PENDING; BS_CONFIRMED; BS_HANDOVER_READY; BS_ONGOING; BS_RETURN_PENDING]).

(** What [createBooking] computes before its transaction. *)
Record PricedBooking : Type := {
  pb_platformFee : Q;
  pb_gst : Q;
  pb_totalFare : Q;
  pb_netToVendor : Q;
  pb_couponId : option string;
  pb_discountAmount : option Q;
  pb_deposit : Q;
}.

Section creation.
Context {R : Type} {redis : Redis R} {col : NumericColumn} {dec : DecimalArith} {num : DecimalNumbers}.
Abbreviation SM := (M (SalesStore R)).

Definition DEFAULT_TRIP_TYPES : list TripType := [TRIP_SELF_DRIVE; TRIP_OUTSTATION].
Definition CAR_LOCK_TTL_MS : Z := 10000.

(** The settings row is created on first use. *)
Definition enabledTripTypes : SM (list TripType) :=
  s ← get;
  match sl_settings s with
  | Some l => mret l
  | None => modify (set_settings DEFAULT_TRIP_TYPES) ;; mret DEFAULT_TRIP_TYPES
  end.

(** ** The car *)
Definition bookableCar (env : CreateEnv) (dto : CreateBookingDto) : SM (Car * CarOffer) :=
  s ← get;
  car ← from_option_or (car_of (cb_carId dto) s) NotFoundException;
  offer ← from_option_or (offer_of (cb_carId dto) s) NotFoundException;
  require (carOperational (Some car)) ConflictException ;;
  require (carVerified (Some car)) BadRequestException ;;
  require (bool_decide (cf_vendorVerification offer = VS_VERIFIED)) BadRequestException ;;
  require (car_isAvailable car) ConflictException ;;
  require (match cf_areaStatus offer with Some (area, _) => bool_decide (area = SA_ACTIVE) | None => true end)
    ConflictException ;;
  require (match cf_areaStatus offer with Some (_, city) => bool_decide (city = SA_ACTIVE) | None => true end)
    ConflictException ;;
  require (default true (ce_eligible env)) BadRequestException ;;
  require (bool_decide (cb_tripType dto ∈ cf_availableTripTypes offer)) BadRequestException ;;
  require (negb (existsb (fun d => (cb_startDate dto <=? d)%Z && (d <=? cb_endDate dto)%Z)
                         (cf_blockedDates offer))) ConflictException ;;
  mret (car, offer).

(** ** The price *)
Definition basePackagePrice (dto : CreateBookingDto) (offer : CarOffer) (durationDays durationMs : Z) : SM Q :=
  match truthy (cb_mileagePackageId dto) with
  | Some pkgId =>
    s ← get;
    pkg ← from_option_or (ct_packages (sl_catalog s) !! pkgId) NotFoundException;
    require (String.eqb (mp_carId pkg) (cb_carId dto)) BadRequestException ;;
    require (mp_isActive pkg) BadRequestException ;;
    require (bool_decide (mp_tripType pkg = cb_tripType dto)) BadRequestException ;;
    mret (dec_mul (mp_basePricePerDay pkg) (inject_Z durationDays))
  | None =>
    if bool_decide (cb_tripType dto = TRIP_LOCAL) || bool_decide (cb_tripType dto = TRIP_AIRPORT_TRANSFER)
    then mret (dec_mul (cf_pricePerHour offer)
                 (inject_Z (js_ceil (js_div (inject_Z durationMs) (inject_Z HOUR_MS)))))
    else mret (dec_mul (cf_pricePerDay offer) (inject_Z durationDays))
  end.

Definition fareOf (env : CreateEnv) (dto : CreateBookingDto) (car : Car) (offer : CarOffer)
    (cat : Catalog) (price : Q) (durationDays : Z) : FareDetails :=
  let packaged := match truthy (cb_mileagePackageId dto) with Some _ => true | None => false end in
  let distance := match cb_distanceKm dto with
                  | Some km => if packaged then 0 else of_number km
                  | None => 0
                  end in
  calculateFare distance price (if packaged then 0 else cf_pricePerKm offer)
    (resolveCommissionPercent (ct_commission cat) (ce_commission env) (cf_vendorCity offer) (car_type car)
       (cb_tripType dto))
    durationDays (default 0 (cf_weeklyDiscountPercent offer)) (default 0 (cf_monthlyDiscountPercent offer)) 18 None.

(** A location is closed on the local day of [t]. *)
Definition closedOn (env : CreateEnv) (closures : list (string * Z)) (location : string) (t : Z) : bool :=
  existsb (fun c => String.eqb (fst c) location && (ce_dayStart env t <=? snd c)%Z && (snd c <=? ce_dayEnd env t)%Z)
    closures.
Definition locationsOpen (env : CreateEnv) (dto : CreateBookingDto) (cat : Catalog) : SM unit :=
  require (match truthy (cb_pickupHubId dto) with
           | Some hub => negb (closedOn env (ct_closures cat) hub (cb_startDate dto))
           | None => true
           end) ConflictException ;;
  require (match truthy (cb_returnHubId dto) with
           | Some hub => bool_decide (cb_returnHubId dto = cb_pickupHubId dto) ||
                         negb (closedOn env (ct_closures cat) hub (cb_endDate dto))
           | None => true
           end) ConflictException.

(** Delivery, pickup, return and one-way fees together. *)
Definition deliveryAddons (env : CreateEnv) (dto : CreateBookingDto) : SM Q :=
  let wants := wantsDelivery (cb_deliveryType dto) in
  let asked := wants || match truthy (cb_pickupHubId dto), truthy (cb_returnHubId dto), cb_deliveryLatitude dto,
                              truthy (cb_deliveryAddress dto) with
                        | None, None, None, None => false
                        | _, _, _, _ => true
                        end in
  match (if asked then ce_delivery env else None) with
  | None => mret 0
  | Some (Ok q) =>
    require (negb (negb (dq_isAvailable q) && wants)) BadRequestException ;;
    mret (dec_add (dec_add (dec_add (of_number (dq_deliveryFee q)) (of_number (dq_pickupFee q)))
                           (of_number (dq_returnFee q))) (of_number (dq_oneWaySurcharge q)))
  | Some (Throw e) =>
    match e with
    | BadRequestException | ConflictException => throw e
    | _ => if wants then throw BadRequestException else mret 0
    end
  end.

(** [Math.max(0, Number(total) - discount) + addons.toNumber()] *)
Definition netPayable (total discount addons : Q) : Q :=
  of_number (js_add (js_max 0 (js_sub (rnd total) discount)) (rnd addons)).

(** The fare with coupon or referral benefit: total, coupon, discount. *)
Definition discountedFare (env : CreateEnv) (customerId : string) (dto : CreateBookingDto) (car : Car)
    (offer : CarOffer) (total addons : Q) : SM (Q * option string * option Q) :=
  match truthy (cb_couponCode dto) with
  | Some code =>
    c ← zoom sl_pay set_pay (validateCoupon (ce_now env) customerId
      {| cd_code := code; cd_car := Some (car_type car, cf_vendorCity offer); cd_subtotal := rnd total;
         cd_city := Some (cf_vendorCity offer); cd_tripType := Some (cb_tripType dto);
         cd_carCategory := Some (car_type car) |});
    mret (netPayable total (co_discountAmount c) addons, Some (co_couponId c),
          Some (of_number (co_discountAmount c)))
  | None =>
    match ce_referral env with
    | Some (minBookingAmount, discountAmount) =>
      if js_le minBookingAmount (rnd total)
      then mret (netPayable total discountAmount addons, None, Some (of_number discountAmount))
      else mret (dec_add total addons, None, None)
    | None => mret (dec_add total addons, None, None)
    end
  end.

(** The protection package, when the city is exactly the vendor's. *)
Definition protectionFeeOf (dto : CreateBookingDto) (offer : CarOffer) (cat : Catalog) (durationDays : Z)
    : option Q :=
  match truthy (cb_protectionPackageId dto) ≫= (fun i => ct_protection cat !! i) with
  | Some pkg =>
    if pp_isActive pkg && match truthy (pp_city pkg) with
                          | Some c => String.eqb c (cf_vendorCity offer)
                          | None => true
                          end
    then Some (dec_mul (pp_dailyRate pkg) (inject_Z durationDays))
    else None
  | None => None
  end.

Definition priceBooking (env : CreateEnv) (customerId : string) (dto : CreateBookingDto) (car : Car)
    (offer : CarOffer) : SM PricedBooking :=
  s ← get;
  let cat := sl_catalog s in
  let durationMs := (cb_endDate dto - cb_startDate dto)%Z in
  let durationDays := unitsOf DAY_MS durationMs in
  price ← basePackagePrice dto offer durationDays durationMs;
  let fare := fareOf env dto car offer cat price durationDays in
  locationsOpen env dto cat ;;
  addons ← deliveryAddons env dto;
  discounted ← discountedFare env customerId dto car offer (fd_total fare) addons;
  let '(finalTotalFare, couponId, discountAmount) := discounted in
  let totalFare := match protectionFeeOf dto offer cat durationDays with
                   | Some fee => dec_add finalTotalFare fee
                   | None => finalTotalFare
                   end in
  let depositAmount :=
    if ce_hasDepositRules env
    then getDepositAmount (Some (ct_deposits cat)) (ce_depositDefaults env) (car_type car)
           (Some (cf_vendorCity offer))
    else 5000 in
  require (negb (ce_blocked env)) ForbiddenException ;;
  mret {| pb_platformFee := fd_platformFee fare; pb_gst := fd_gst fare; pb_totalFare := totalFare;
          pb_netToVendor := dec_add (fd_netToVendor fare) addons; pb_couponId := couponId;
          pb_discountAmount := discountAmount; pb_deposit := of_number depositAmount |}.

(** ** The transaction *)
Definition overlapsPeriod (dto : CreateBookingDto) (startDate endDate : Z) : bool :=
  (startDate <? cb_endDate dto)%Z && (cb_startDate dto <? endDate)%Z.
Definition bookedAlready (dto : CreateBookingDto) (bookings : gmap string Booking) : bool :=
  existsb (fun p => String.eqb (b_carId (snd p)) (cb_carId dto) && active (b_status (snd p)) &&
                    overlapsPeriod dto (b_startDate (snd p)) (b_endDate (snd p))) (map_to_list bookings).
Definition blockedAlready (dto : CreateBookingDto) (blocks : list VehicleBlock) : bool :=
  existsb (fun v => String.eqb (vb_carId v) (cb_carId dto) && overlapsPeriod dto (vb_startDate v) (vb_endDate v)) blocks.
Definition heldByOther (now : Z) (customerId : string) (dto : CreateBookingDto) (holds : list VehicleHold) : bool :=
  existsb (fun h => String.eqb (vh_carId h) (cb_carId dto) && negb (String.eqb (vh_customerId h) customerId) &&
                    bool_decide (vh_status h = VH_ACTIVE) && (now <? vh_expiresAt h)%Z &&
                    overlapsPeriod dto (vh_startDate h) (vh_endDate h)) holds.

Definition convertHold (customerId carId : string) (h : VehicleHold) : VehicleHold :=
  if String.eqb (vh_carId h) carId && String.eqb (vh_customerId h) customerId && bool_decide (vh_status h = VH_ACTIVE)
  then {| vh_id := vh_id h; vh_carId := vh_carId h; vh_customerId := vh_customerId h;
          vh_vendorId := vh_vendorId h; vh_startDate := vh_startDate h;
          vh_endDate := vh_endDate h; vh_expiresAt := vh_expiresAt h; vh_status := VH_CONVERTED;
          vh_idempotencyKey := vh_idempotencyKey h |}
  else h.

(** What [verifyAndAcceptQuote] reads of its environment. *)
Definition acceptEnv (env : CreateEnv) : QuoteEnv :=
  {| qe_now := ce_now env; qe_freshId := ""; qe_available := None; qe_demand := None; qe_durationTiers := None;
     qe_commission := None; qe_gstRate := None; qe_delivery := None; qe_hasCoupons := false;
     qe_hasDepositRules := false; qe_depositDefaults := fun _ => None; qe_validityMinutes := None;
     qe_cancelMatrix := ce_cancelMatrix env |}.

Definition acceptQuote (env : CreateEnv) (customerId : string) (dto : CreateBookingDto) : SM (option PriceSnapshot) :=
  match truthy (cb_quoteId dto), ce_hasPricing env with
  | Some quoteId, true =>
    snapshot ← verifyAndAcceptQuote (acceptEnv env) quoteId customerId (cb_carId dto) (cb_startDate dto)
                 (cb_endDate dto) (cb_tripType dto);
    mret (Some snapshot)
  | _, _ => mret None
  end.

(** The row: the snapshot's amounts, numbers turned decimals, or the price
    computed; the coupon is the request's own in either case. *)
Definition bookingRow (customerId : string) (dto : CreateBookingDto) (offer : CarOffer) (p : PricedBooking)
    (snapshot : option PriceSnapshot) (quoteTotal : option Q) : Booking :=
  let pick (f : PriceSnapshot -> Q) (d : Q) :=
    store (match snapshot with Some sn => of_number (f sn) | None => d end) in
  {| b_customerId := customerId; b_vendorId := cf_vendorId offer; b_carId := cb_carId dto;
     b_pickupHubId := cb_pickupHubId dto; b_startDate := cb_startDate dto; b_endDate := cb_endDate dto;
     b_totalFare := pick sn_tripFare (pb_totalFare p); b_platformFee := pick sn_platformFee (pb_platformFee p);
     b_gstAmount := pick sn_taxTotal (pb_gst p); b_netToVendor := pick sn_netToVendor (pb_netToVendor p);
     b_disputeFlag := false; b_quoteTotal := quoteTotal; b_couponId := pb_couponId p;
     b_discountAmount := match snapshot with
                         | Some sn => Some (store (of_number (sn_discountTotal sn)))
                         | None => store <$> pb_discountAmount p
                         end;
     b_corporateAccountId := None;
     b_cancellationMatrix := snapshot ≫= sn_cancellationMatrix; b_commissionSplit := None;
     b_securityDeposit := Some {| sd_amount := pick sn_depositTotal (pb_deposit p); sd_status := SD_REQUIRED;
                                  sd_heldAt := None; sd_razorpayPaymentId := None; sd_releasedAt := None; sd_refundedAmount := 0%Q; sd_deductedAmount := 0%Q;
       sd_razorpayRefundId := None |};
     b_status := BS_PENDING; b_cancellationReason := None; b_cancellationFee := None; b_refundAmount := None;
     b_cancelledAt := None; b_cancelledBy := None |}.

Definition createdCorrelation (env : CreateEnv) : string :=
  "evt_booking_created_" +:+ ce_bookingId env +:+ "_" +:+ pretty (ce_now env).

(** [booking.create]: the id is new, the quote it names exists. *)
Definition insertBooking (env : CreateEnv) (dto : CreateBookingDto) (row : option Q -> Booking) : SM unit :=
  s ← get;
  require (bool_decide (ls_bookings (sales_core s) !! ce_bookingId env = None)) PrismaP2002 ;;
  let quote := cb_quoteId dto ≫= (fun id => sl_quotes s !! id) in
  require (match cb_quoteId dto, quote with Some _, None => false | _, _ => true end) PrismaP2003 ;;
  modify (fun s => set_sales_core (set_booking (ce_bookingId env) (row (bq_totalPayable <$> quote)) (sales_core s)) s).

Definition createdEvent (env : CreateEnv) (customerId : string) (offer : CarOffer) : SM unit :=
  s ← get;
  let events := os_events (ls_outbox (sales_core s)) in
  require (negb (existsb (fun e => String.eqb (oe_correlationId e) (createdCorrelation env) ||
                                   String.eqb (oe_id e) (ce_eventId env)) events)) PrismaP2002 ;;
  modify (fun s => set_sales_core (set_outbox
    {| os_events := events ++
         [{| oe_id := ce_eventId env; oe_bookingId := ce_bookingId env; oe_eventType := "BOOKING_CREATED";
             oe_tenantId := cf_vendorId offer; oe_actorId := customerId;
             oe_previousStatus := BS_PENDING; oe_newStatus := BS_PENDING;
             oe_correlationId := createdCorrelation env; oe_customerId := customerId;
             oe_refundAmount := None; oe_status := OB_PENDING; oe_retryCount := 0; oe_maxRetries := 3;
             oe_updatedAt := ce_now env |}];
       os_sent := os_sent (ls_outbox (sales_core s)) |} (sales_core s)) s).

Definition creationTransaction (env : CreateEnv) (customerId : string) (dto : CreateBookingDto) (offer : CarOffer)
    (p : PricedBooking) : SM string :=
  s ← get;
  require (negb (bookedAlready dto (ls_bookings (sales_core s)))) ConflictException ;;
  require (negb (blockedAlready dto (fl_blocks (ls_fleet (sales_core s))))) ConflictException ;;
  require (negb (heldByOther (ce_now env) customerId dto (sl_holds s))) ConflictException ;;
  snapshot ← acceptQuote env customerId dto;
  insertBooking env dto (bookingRow customerId dto offer p snapshot) ;;
  modify (fun s => set_holds (map (convertHold customerId (cb_carId dto)) (sl_holds s)) s) ;;
  createdEvent env customerId offer ;;
  mret (ce_bookingId env).

Definition underCarLock (env : CreateEnv) (customerId : string) (dto : CreateBookingDto) : SM string :=
  found ← bookableCar env dto;
  p ← priceBooking env customerId dto (fst found) (snd found);
  transaction (creationTransaction env customerId dto (snd found) p).

Definition on_locks {A} (m : M R A) : SM A :=
  zoom (fun s => ls_locks (sales_core s)) (fun l s => set_sales_core (set_locks l (sales_core s)) s) m.

Definition createBooking (env : CreateEnv) (customerId : string) (dto : CreateBookingDto) : SM string :=
  require (cb_startDate dto <? cb_endDate dto)%Z BadRequestException ;;
  require (negb (cb_startDate dto <? ce_now env)%Z) BadRequestException ;;
  types ← enabledTripTypes;
  require (bool_decide (cb_tripType dto ∈ types)) BadRequestException ;;
  lockToken ← on_locks (acquireLock (ce_lockUp env) (ce_now env) (cb_carId dto) (ce_token env) CAR_LOCK_TTL_MS);
  try_finally (underCarLock env customerId dto)
    (on_locks (r ← releaseLock (ce_releaseUp env) (ce_later env) (cb_carId dto) lockToken; mret tt)).
End creation.

(** ** Laws *)
Section creation_laws.
Context {R : Type} {redis : Redis R} {col : NumericColumn} {dec : DecimalArith} {num : DecimalNumbers}.
Implicit Types s : SalesStore R.

Lemma bookableCar_readonly env dto : readonly (bookableCar (R:=R) env dto).
Proof. intros x. unfold bookableCar. auto 40 with preserves. Qed.

Lemma priceBooking_readonly env c dto car offer : readonly (priceBooking (R:=R) env c dto car offer).
Proof.
  intros x. unfold priceBooking. apply preserves_bind; [auto with preserves|intros t].
  apply preserves_bind; [|intros price; apply preserves_bind; [|intros _; apply preserves_bind;
    [|intros addons; apply preserves_bind; [|intros [[total coupon] discount]; auto with preserves]]]].
  - unfold basePackagePrice. repeat case_match; auto 10 with preserves.
  - unfold locationsOpen. auto with preserves.
  - unfold deliveryAddons. cbv zeta. repeat case_match; auto with preserves.
  - unfold discountedFare. destruct (truthy (cb_couponCode dto)).
    + apply preserves_bind; [|auto with preserves].
      apply readonly_zoom; [by intros []|apply validateCoupon_readonly].
    + repeat case_match; auto with preserves.
Qed.

(** Everything but the locks and the settings row. *)
Definition sales_rows s :=
  let c := sales_core s in
  (ls_bookings c, ls_fleet c, ls_money c, ls_otps c, ls_outbox c, ls_audit c,
   (ps_coupons (sl_pay s), ps_usages (sl_pay s), ps_invoices (sl_pay s), ps_webhooks (sl_pay s),
    ps_vendorDeposits (sl_pay s)), sl_quotes s, sl_holds s).

Lemma on_locks_rows {A} (m : M R A) : keeps sales_rows (on_locks m).
Proof. intros x s r s' H <-. unfold on_locks in H. by apply zoom_run in H as (l & _ & ->). Qed.
Lemma enabledTripTypes_rows : keeps sales_rows (enabledTripTypes (R:=R)).
Proof.
  intros x s r s' H <-. unfold enabledTripTypes in H. step_in H. destruct (sl_settings s); by injection H as _ <-.
Qed.

(** An id is free of its slot's period in a table. *)
Definition clear_of (dto : CreateBookingDto) (startDate endDate : Z) : Prop :=
  (endDate <= cb_startDate dto \/ cb_endDate dto <= startDate)%Z.
Lemma overlapsPeriod_false dto a b : overlapsPeriod dto a b = false -> clear_of dto a b.
Proof. unfold overlapsPeriod, clear_of. rewrite andb_false_iff, !Z.ltb_ge. lia. Qed.

Lemma existsb_false {A} (f : A -> bool) l x : existsb f l = false -> x ∈ l -> f x = false.
Proof.
  intros H Hin. apply not_true_is_false. intros E. apply not_true_iff_false in H. apply H, existsb_exists.
  exists x. by rewrite <- list_elem_of_In.
Qed.

(** The period of the request is clear of the active bookings of the car, of
    its blocks and of the live holds of other customers. *)
Record period_clear (now : Z) (customerId : string) (dto : CreateBookingDto) s : Prop := {
  pc_bookings : forall j b, ls_bookings (sales_core s) !! j = Some b -> b_carId b = cb_carId dto ->
    active (b_status b) = true -> clear_of dto (b_startDate b) (b_endDate b);
  pc_blocks : forall v, v ∈ fl_blocks (ls_fleet (sales_core s)) -> vb_carId v = cb_carId dto ->
    clear_of dto (vb_startDate v) (vb_endDate v);
  pc_holds : forall h, h ∈ sl_holds s -> vh_carId h = cb_carId dto -> vh_customerId h <> customerId ->
    vh_status h = VH_ACTIVE -> (now < vh_expiresAt h)%Z -> clear_of dto (vh_startDate h) (vh_endDate h);
}.

Lemma period_checks now customerId dto s :
  bookedAlready dto (ls_bookings (sales_core s)) = false ->
  blockedAlready dto (fl_blocks (ls_fleet (sales_core s))) = false ->
  heldByOther now customerId dto (sl_holds s) = false -> period_clear now customerId dto s.
Proof.
  intros H1 H2 H3. split.
  - intros j b Hj Hc Ha. apply (existsb_false _ _ (j, b)) in H1; [|by apply elem_of_map_to_list].
    simpl in H1. rewrite Hc, String.eqb_refl, Ha in H1. by apply overlapsPeriod_false.
  - intros v Hv Hc. apply (existsb_false _ _ v) in H2; [|done]. simpl in H2.
    rewrite Hc, String.eqb_refl in H2. by apply overlapsPeriod_false.
  - intros h Hh Hc Hne Hst He. apply (existsb_false _ _ h) in H3; [|done]. simpl in H3.
    rewrite Hc, String.eqb_refl, (proj2 (String.eqb_neq _ _) Hne), bool_decide_true in H3 by done.
    rewrite (proj2 (Z.ltb_lt _ _) He) in H3. by apply overlapsPeriod_false.
Qed.

(** What the acceptance of a quote needs and does. *)
Record quote_accepted (now : Z) (quoteId customerId carId : string) (startDate endDate : Z) (tripType : TripType)
    (q : BookingQuote) : Prop := {
  qa_active : bq_status q = QS_ACTIVE;
  qa_alive : (now <= bq_expiresAt q)%Z;
  qa_car : bq_carId q = carId;
  qa_trip : bq_tripType q = tripType;
  qa_start : (Z.abs (startDate - bq_startDate q) <= 120000)%Z;
  qa_end : (Z.abs (endDate - bq_endDate q) <= 120000)%Z;
}.
Lemma verifyAndAcceptQuote_Ok env id c car a b t s sn s' :
  verifyAndAcceptQuote (R:=R) env id c car a b t s = (Ok sn, s') ->
  exists q, sl_quotes s !! id = Some q /\ quote_accepted (qe_now env) id c car a b t q /\
    sn = priceSnapshot env (accepted_by c (qe_now env) q) /\
    s' = set_quotes (<[id := accepted_by c (qe_now env) q]> (sl_quotes s)) s.
Proof.
  unfold verifyAndAcceptQuote. intros H. step_in H. destruct (sl_quotes s !! id) as [q|]; [|done].
  guard_in H as [_ E1]%negb_true_iff%orb_false_iff. guard_in H as E2%bool_decide_eq_true.
  guard_in H as E3%String.eqb_eq. guard_in H as E4%bool_decide_eq_true.
  guard_in H as [E5 E6]%negb_true_iff%orb_false_iff. cbv zeta in H. step_in H. injection H as <- <-.
  exists q. split; [done|]. split; [|done]. split; try done; lia.
Qed.

(** The booking, its event and the holds a creation leaves, and the quote it
    accepted. *)
Record creation_done (env : CreateEnv) (customerId : string) (dto : CreateBookingDto) (row : Booking) s s' : Prop := {
  cd_fresh : ls_bookings (sales_core s) !! ce_bookingId env = None;
  cd_bookings : ls_bookings (sales_core s') = <[ce_bookingId env := row]> (ls_bookings (sales_core s));
  cd_row : b_customerId row = customerId /\ b_carId row = cb_carId dto /\ b_startDate row = cb_startDate dto /\
           b_endDate row = cb_endDate dto /\ b_status row = BS_PENDING;
  cd_deposit : exists d, b_securityDeposit row = Some d /\ sd_status d = SD_REQUIRED;
  cd_period : period_clear (ce_now env) customerId dto s;
  cd_event : exists e, os_events (ls_outbox (sales_core s')) = os_events (ls_outbox (sales_core s)) ++ [e] /\
    oe_bookingId e = ce_bookingId env /\ oe_eventType e = "BOOKING_CREATED" /\ oe_status e = OB_PENDING;
  cd_holds : sl_holds s' = map (convertHold customerId (cb_carId dto)) (sl_holds s);
  cd_quote : match truthy (cb_quoteId dto), ce_hasPricing env with
             | Some id, true => exists q, sl_quotes s !! id = Some q /\
                 quote_accepted (ce_now env) id customerId (cb_carId dto) (cb_startDate dto) (cb_endDate dto)
                   (cb_tripType dto) q /\
                 sl_quotes s' = <[id := accepted_by customerId (ce_now env) q]> (sl_quotes s)
             | _, _ => sl_quotes s' = sl_quotes s
             end;
  cd_quoted : forall id q, truthy (cb_quoteId dto) = Some id -> ce_hasPricing env = true ->
    sl_quotes s !! id = Some q -> exists offer p, row = bookingRow customerId dto offer p
      (Some (priceSnapshot (acceptEnv env) (accepted_by customerId (ce_now env) q))) (Some (bq_totalPayable q));
  cd_rest : ls_fleet (sales_core s') = ls_fleet (sales_core s) /\ ls_money (sales_core s') = ls_money (sales_core s);
}.

Lemma acceptQuote_Ok env c dto s o s' : acceptQuote (R:=R) env c dto s = (Ok o, s') ->
  match truthy (cb_quoteId dto), ce_hasPricing env with
  | Some id, true => exists q, sl_quotes s !! id = Some q /\
      quote_accepted (ce_now env) id c (cb_carId dto) (cb_startDate dto) (cb_endDate dto) (cb_tripType dto) q /\
      o = Some (priceSnapshot (acceptEnv env) (accepted_by c (ce_now env) q)) /\
      s' = set_quotes (<[id := accepted_by c (ce_now env) q]> (sl_quotes s)) s
  | _, _ => o = None /\ s' = s
  end.
Proof.
  unfold acceptQuote. destruct (truthy (cb_quoteId dto)) as [id|], (ce_hasPricing env);
    try (intros [= <- <-]; done). intros H.
  apply bind_Ok in H as (sn & s1 & Hq & [= <- <-]).
  apply verifyAndAcceptQuote_Ok in Hq as (q & H1 & H2 & -> & ->). by exists q.
Qed.

Lemma creationTransaction_Ok env c dto offer p s id s' :
  creationTransaction (R:=R) env c dto offer p s = (Ok id, s') ->
  id = ce_bookingId env /\ exists o s1 qt, acceptQuote env c dto s = (Ok o, s1) /\
    qt = bq_totalPayable <$> (cb_quoteId dto ≫= (fun id => sl_quotes s1 !! id)) /\
    creation_done env c dto (bookingRow c dto offer p o qt) s s'.
Proof.
  unfold creationTransaction. intros H. guard_in H as H1%negb_true_iff. guard_in H as H2%negb_true_iff.
  guard_in H as H3%negb_true_iff. apply bind_Ok in H as (o & s1 & Hq & H). pose proof Hq as Hq'.
  apply acceptQuote_Ok in Hq.
  assert (sales_core s1 = sales_core s /\ sl_holds s1 = sl_holds s) as [Ec Eh].
  { destruct (truthy (cb_quoteId dto)), (ce_hasPricing env); try (by destruct Hq as [_ ->]).
    by destruct Hq as (q & _ & _ & _ & ->). }
  apply bind_Ok in H as ([] & s2 & Hi & H). unfold insertBooking in Hi.
  guard_in Hi as Hn%bool_decide_eq_true. cbv zeta in Hi. guard_in Hi as Hfk. step_in Hi. injection Hi as <-.
  rewrite modify_bind in H. apply bind_Ok in H as ([] & s3 & He & [= <- <-]). unfold createdEvent in He.
  guard_in He as Hcorr. step_in He. injection He as <-. split; [done|]. exists o, s1. eexists.
  split; [done|]. split; [reflexivity|].
  unfold sales_core in *. rewrite Ec in Hn. split; simpl; rewrite ?Ec, ?Eh; try done.
  - by eexists.
  - by apply period_checks.
  - by eexists.
  - destruct (truthy (cb_quoteId dto)), (ce_hasPricing env); try (by destruct Hq as [_ ->]).
    destruct Hq as (q & Hq1 & Hq2 & _ & ->). by exists q.
  - intros id q Hid Hpr Hrow. rewrite Hid, Hpr in Hq. destruct Hq as (q' & Hq1 & _ & -> & ->).
    assert (q' = q) as -> by congruence. exists offer, p. f_equal.
    assert (cb_quoteId dto = Some id) as -> by (revert Hid; unfold truthy; by repeat case_match).
    simpl. by rewrite lookup_insert_eq.
Qed.

Lemma underCarLock_cases env c dto s r s' : underCarLock (R:=R) env c dto s = (r, s') ->
  (exists e, r = Throw e /\ s' = s) \/
  (exists car offer p, bookableCar env dto s = (Ok (car, offer), s) /\
     priceBooking env c dto car offer s = (Ok p, s) /\
     creationTransaction env c dto offer p s = (r, s') /\ r = Ok (ce_bookingId env)).
Proof.
  unfold underCarLock. rewrite bind_run. destruct (bookableCar env dto s) as [[[car offer]|e] s1] eqn:E1;
    pose proof (readonly_eq _ _ _ _ (bookableCar_readonly _ _) E1) as ->; [|intros [= <- <-]; left; by exists e].
  rewrite bind_run. simpl. destruct (priceBooking env c dto car offer s) as [[p|e] s1] eqn:E2;
    pose proof (readonly_eq _ _ _ _ (priceBooking_readonly _ _ _ _ _) E2) as ->; [|intros [= <- <-]; left; by exists e].
  intros H. destruct r as [id|e].
  - right. rewrite transaction_Ok in H. exists car, offer, p. split_and!; try done.
    by apply creationTransaction_Ok in H as [-> _].
  - left. apply transaction_Throw in H as [-> _]. by exists e.
Qed.

Lemma creation_done_frame env c dto row s0 s1 s2 s3 : sales_rows s1 = sales_rows s0 -> sales_rows s3 = sales_rows s2 ->
  creation_done env c dto row s1 s2 -> creation_done env c dto row s0 s3.
Proof.
  unfold sales_rows. intros [= A1 A2 A3 _ A5 _ _ _ _ _ _ A12 A13] [= B1 B2 B3 _ B5 _ _ _ _ _ _ B12 B13].
  intros [C1 C2 C3 C4 [P1 P2 P3] C6 C7 C8 Cq [C9 C10]].
  rewrite A1 in *. rewrite ?A2, ?A3, ?A5, ?A12, ?A13 in *.
  split; rewrite ?B1, ?B2, ?B3, ?B5, ?B12, ?B13; try done.
Qed.

Lemma createBooking_cases env c dto s r s' : createBooking (R:=R) env c dto s = (r, s') ->
  (sales_rows s' = sales_rows s /\ is_Ok r = false) \/
  (exists row, creation_done env c dto row s s' /\
     (r = Ok (ce_bookingId env) \/ (is_Ok r = false /\ ce_releaseUp env = false))).
Proof.
  unfold createBooking. intros H. step_in H.
  destruct (cb_startDate dto <? cb_endDate dto)%Z; [|injection H as <- <-; by left].
  step_in H. destruct (negb _); [|injection H as <- <-; by left].
  rewrite bind_run in H. destruct (enabledTripTypes s) as [[types|e] s1] eqn:E1;
    pose proof (keeps_eq _ _ _ _ _ enabledTripTypes_rows E1) as R1; [|injection H as <- <-; by left].
  step_in H. destruct (bool_decide (cb_tripType dto ∈ types)); [|injection H as <- <-; by left].
  rewrite bind_run in H. destruct (on_locks _ s1) as [[token|e] s2] eqn:E2;
    pose proof (keeps_eq _ _ _ _ _ (on_locks_rows _) E2) as R2; [|injection H as <- <-; left; by rewrite R2].
  unfold try_finally in H. destruct (underCarLock env c dto s2) as [r3 s3] eqn:E3.
  destruct (on_locks _ s3) as [r4 s4] eqn:E4. pose proof (keeps_eq _ _ _ _ _ (on_locks_rows _) E4) as R4.
  assert (sales_rows s2 = sales_rows s) as R3 by (by rewrite R2).
  apply underCarLock_cases in E3 as [(e & -> & ->)|(car & offer & p & _ & _ & Ht & ->)].
  - left. rewrite <- R3, <- R4. destruct r4; by injection H as <- <-.
  - right. apply creationTransaction_Ok in Ht as (_ & o & s2' & qt & _ & _ & Hd). eexists. split.
    + destruct r4; injection H as <- <-; by eapply creation_done_frame.
    + destruct r4 as [u|e]; injection H as <- <-; [by left|right]. split; [done|].
      apply not_true_is_false. intros Hup. unfold on_locks in E4. apply zoom_run in E4 as (l & E4 & _).
      unfold releaseLock, releaseKey in E4. rewrite Hup in E4. rewrite bind_run in E4. unfold luaCompareAndDelete in E4.
      by destruct (bool_decide _).
Qed.

(** C2. Creating a booking is all or nothing and never double books.  Whatever
    createBooking answers, either no booking, quote, hold, event, vehicle,
    coupon or money row changed, and it threw; or exactly one booking was
    added, PENDING and with its deposit still required, while no active
    booking of the vehicle, no block and no live hold of another customer
    overlapped its period, a quote it names was accepted for it (active,
    not expired, same vehicle and trip, dates within two minutes), the
    customer's holds were converted and one pending event records it; only a
    lock server that fails at the release makes that answer an error. *)
Theorem create_booking_all_or_nothing env c dto s r s' (H : createBooking (R:=R) env c dto s = (r, s')) :
  (sales_rows s' = sales_rows s /\ is_Ok r = false) \/
  (exists row, creation_done env c dto row s s' /\
     (r = Ok (ce_bookingId env) \/ (is_Ok r = false /\ ce_releaseUp env = false))).
Proof. by apply createBooking_cases. Qed.
End creation_laws.
