(* ===== verification/Checkout.v ===== *)
(** * Checkout: src/car_rental_backend/src/marketplace/checkout-orchestrator.service.ts

    The session of a checkout from the quote to the confirmed booking, with
    payment, deposit and journal, and what happens when a payment fails
    ([evaluateFallbackSafety] of
    integrations/runtime/payment-routing.service.ts included).  The answers of
    the payment routing and of the integration runtime are arguments. *)
From S2P Require Import Prelude JsNumber Decimal Schema Ledger Wallet Locks HandoverOtp PaymentRefund Outbox BookingStore.
From S2P Require Import CancellationPolicy Commission BookingLifecycle Payments PaymentOrders FareCalculator Coupons Quotes.
From S2P Require Import MarketplacePricing MarketplaceQuotes BookingCreation.
From stdpp Require Import pretty.
Open Scope Z_scope.
Open Scope Q_scope.

Record RoutingDecision : Type := {
  rd_primaryProviderId : string;
  rd_fallbackChain : list string;
}.
(** The answer of [runtimeService.execute]: success, the order id or the
    [verified] flag of its data. *)
Record RuntimeAnswer : Type := {
  ra_success : bool;
  ra_orderId : option string;
  ra_verified : option bool;
}.

(** [ce_route method paise] and [ce_runtime]: what the routing service and the
    runtime answer or throw; the other fields are the clock, fresh ids and the
    optional services. *)
Record CheckoutEnv : Type := {
  co_now : Z;
  co_tz : Z;
  co_freshQuoteId : string;
  co_bookingId : string;
  co_paymentId : string;
  co_journalId : string;
  co_route : string -> Z -> result RoutingDecision;
  co_runtime : result RuntimeAnswer;
  co_hasCommission : bool;
  co_hasLedger : bool;
}.

Record DriverDetailsDto : Type := {
  dd_licenseNumber : string;
  dd_age : Z;
}.
Record VerificationPayload : Type := {
  vf_orderId : string;
  vf_paymentId : string;
}.
Record InitiatePaymentResult : Type := {
  ip_orderId : string;
  ip_providerId : string;
  ip_amountPaise : Z;
  ip_paymentMethod : string;
  ip_fallbackChain : list string;
}.
Record PaymentVerificationResult : Type := {
  pvr_bookingId : string;
  pvr_bookingStatus : BookingStatus;
  pvr_totalPaid : Q;
}.
Inductive FailureAction : Type := FAILOVER_SECONDARY | SELECT_NEW_METHOD | PENDING_RECONCILIATION.
Record PaymentFailureResult : Type := {
  pf_safeToRetry : bool;
  pf_safeToFailover : bool;
  pf_recommendedProviderId : option string;
  pf_action : FailureAction;
}.
Record FailureContext : Type := {
  fc_providerId : string;
  fc_errorCode : option string;
  fc_dispatchedToGateway : bool;
}.

(** ** [evaluateFallbackSafety] *)
Inductive FallbackAction : Type := FB_PENDING_RECONCILIATION | FB_ABORT | FB_FAILOVER.
Definition indeterminate (errorClass : string) : bool :=
  String.eqb errorClass "TIMEOUT" || String.eqb errorClass "NETWORK" || String.eqb errorClass "TRANSIENT".
(** [safeToFailover] and [action] for the context of [handlePaymentFailure]. *)
Definition evaluateFallbackSafety (fc : FailureContext) : bool * FallbackAction :=
  let errorClass := str_or (fc_errorCode fc) "" in
  if fc_dispatchedToGateway fc && indeterminate errorClass then (false, FB_PENDING_RECONCILIATION)
  else if String.eqb errorClass "INVALID_REQUEST" || String.eqb errorClass "AUTHENTICATION" then (false, FB_ABORT)
  else (true, FB_FAILOVER).

(** ** Updates of a session *)
Definition with_session_status (st : CheckoutSessionStatus) (c : CheckoutSession) : CheckoutSession :=
  {| cs_customerId := cs_customerId c; cs_quoteId := cs_quoteId c; cs_status := st;
     cs_driverDetails := cs_driverDetails c; cs_ancillarySelections := cs_ancillarySelections c;
     cs_selectedPaymentMethod := cs_selectedPaymentMethod c;
     cs_selectedPaymentProvider := cs_selectedPaymentProvider c; cs_paymentAttempts := cs_paymentAttempts c;
     cs_lastPaymentError := cs_lastPaymentError c; cs_bookingId := cs_bookingId c; cs_expiresAt := cs_expiresAt c;
     cs_completedAt := cs_completedAt c; cs_activeOrderId := cs_activeOrderId c;
     cs_fallbackChain := cs_fallbackChain c |}.
Definition with_addons (quoteId : string) (addons : list AncillarySelectionInput) (c : CheckoutSession)
    : CheckoutSession :=
  {| cs_customerId := cs_customerId c; cs_quoteId := quoteId; cs_status := cs_status c;
     cs_driverDetails := cs_driverDetails c; cs_ancillarySelections := Some addons;
     cs_selectedPaymentMethod := cs_selectedPaymentMethod c;
     cs_selectedPaymentProvider := cs_selectedPaymentProvider c; cs_paymentAttempts := cs_paymentAttempts c;
     cs_lastPaymentError := cs_lastPaymentError c; cs_bookingId := cs_bookingId c; cs_expiresAt := cs_expiresAt c;
     cs_completedAt := cs_completedAt c; cs_activeOrderId := cs_activeOrderId c;
     cs_fallbackChain := cs_fallbackChain c |}.
Definition with_driver (d : DriverDetailsDto) (c : CheckoutSession) : CheckoutSession :=
  {| cs_customerId := cs_customerId c; cs_quoteId := cs_quoteId c; cs_status := cs_status c;
     cs_driverDetails := Some (dd_licenseNumber d, dd_age d); cs_ancillarySelections := cs_ancillarySelections c;
     cs_selectedPaymentMethod := cs_selectedPaymentMethod c;
     cs_selectedPaymentProvider := cs_selectedPaymentProvider c; cs_paymentAttempts := cs_paymentAttempts c;
     cs_lastPaymentError := cs_lastPaymentError c; cs_bookingId := cs_bookingId c; cs_expiresAt := cs_expiresAt c;
     cs_completedAt := cs_completedAt c; cs_activeOrderId := cs_activeOrderId c;
     cs_fallbackChain := cs_fallbackChain c |}.
Definition with_order (method orderId : string) (d : RoutingDecision) (c : CheckoutSession) : CheckoutSession :=
  {| cs_customerId := cs_customerId c; cs_quoteId := cs_quoteId c; cs_status := CK_PAYMENT_PENDING;
     cs_driverDetails := cs_driverDetails c; cs_ancillarySelections := cs_ancillarySelections c;
     cs_selectedPaymentMethod := Some method; cs_selectedPaymentProvider := Some (rd_primaryProviderId d);
     cs_paymentAttempts := cs_paymentAttempts c + 1; cs_lastPaymentError := cs_lastPaymentError c;
     cs_bookingId := cs_bookingId c; cs_expiresAt := cs_expiresAt c; cs_completedAt := cs_completedAt c;
     cs_activeOrderId := Some orderId; cs_fallbackChain := rd_fallbackChain d |}.
Definition with_failure (providerId : string) (c : CheckoutSession) : CheckoutSession :=
  {| cs_customerId := cs_customerId c; cs_quoteId := cs_quoteId c; cs_status := CK_PAYMENT_FAILED;
     cs_driverDetails := cs_driverDetails c; cs_ancillarySelections := cs_ancillarySelections c;
     cs_selectedPaymentMethod := cs_selectedPaymentMethod c;
     cs_selectedPaymentProvider := cs_selectedPaymentProvider c; cs_paymentAttempts := cs_paymentAttempts c;
     cs_lastPaymentError := Some providerId; cs_bookingId := cs_bookingId c; cs_expiresAt := cs_expiresAt c;
     cs_completedAt := cs_completedAt c; cs_activeOrderId := cs_activeOrderId c;
     cs_fallbackChain := cs_fallbackChain c |}.
Definition confirmed_with (bookingId : string) (now : Z) (c : CheckoutSession) : CheckoutSession :=
  {| cs_customerId := cs_customerId c; cs_quoteId := cs_quoteId c; cs_status := CK_CONFIRMED;
     cs_driverDetails := cs_driverDetails c; cs_ancillarySelections := cs_ancillarySelections c;
     cs_selectedPaymentMethod := cs_selectedPaymentMethod c;
     cs_selectedPaymentProvider := cs_selectedPaymentProvider c; cs_paymentAttempts := cs_paymentAttempts c;
     cs_lastPaymentError := cs_lastPaymentError c; cs_bookingId := Some bookingId; cs_expiresAt := cs_expiresAt c;
     cs_completedAt := Some now; cs_activeOrderId := cs_activeOrderId c;
     cs_fallbackChain := cs_fallbackChain c |}.
(** [status: ACCEPTED, acceptedAt: now] *)
Definition accepted_at (now : Z) (q : BookingQuote) : BookingQuote :=
  {| bq_tenantId := bq_tenantId q; bq_customerId := bq_customerId q; bq_carId := bq_carId q;
     bq_tripType := bq_tripType q; bq_startDate := bq_startDate q; bq_endDate := bq_endDate q;
     bq_durationDays := bq_durationDays q; bq_durationHours := bq_durationHours q;
     bq_subtotal := bq_subtotal q; bq_discountTotal := bq_discountTotal q; bq_feesTotal := bq_feesTotal q;
     bq_taxTotal := bq_taxTotal q; bq_depositTotal := bq_depositTotal q;
     bq_totalPayable := bq_totalPayable q; bq_netToVendor := bq_netToVendor q; bq_status := QS_ACCEPTED;
     bq_expiresAt := bq_expiresAt q; bq_acceptedAt := Some now;
     bq_idempotencyKey := bq_idempotencyKey q; bq_metadata := bq_metadata q; bq_lineItems := bq_lineItems q |}.

Section checkout.
Context {R : Type} {redis : Redis R} {col : NumericColumn} {dec : DecimalArith} {num : DecimalNumbers}.
Abbreviation MM := (M (MarketStore R)).
Variable checksum : ChecksumPayload -> string.

Definition market_core (s : MarketStore R) : LifecycleStore R := sales_core (mk_sales s).
Definition set_market_core (c : LifecycleStore R) (s : MarketStore R) : MarketStore R :=
  set_sales (set_sales_core c (mk_sales s)) s.
Definition onSession (id : string) (f : CheckoutSession -> CheckoutSession) : MM unit :=
  modify (fun s => match mk_sessions s !! id with Some c => set_session id (f c) s | None => s end).

(** ** Sessions *)
Definition createCheckoutSession (env : CheckoutEnv) (sessionId quoteId customerId : string) : MM CheckoutSession :=
  verifiedQuote ← getVerifiedQuote checksum (co_now env) quoteId;
  s ← get;
  require (bool_decide (mk_sessions s !! sessionId = None)) PrismaP2002 ;;
  let session := {| cs_customerId := customerId; cs_quoteId := qs_quoteId verifiedQuote; cs_status := CK_QUOTE_LOCKED;
    cs_driverDetails := None; cs_ancillarySelections := None; cs_selectedPaymentMethod := None;
    cs_selectedPaymentProvider := None; cs_paymentAttempts := 0; cs_lastPaymentError := None; cs_bookingId := None;
    cs_expiresAt := qs_expiresAt verifiedQuote; cs_completedAt := None; cs_activeOrderId := None;
    cs_fallbackChain := [] |} in
  modify (set_session sessionId session) ;;
  mret session.

Definition findSession (sessionId customerId : string) : MM CheckoutSession :=
  s ← get;
  session ← from_option_or (mk_sessions s !! sessionId) NotFoundException;
  require (String.eqb (cs_customerId session) customerId) NotFoundException ;;
  mret session.

Definition assertActiveSession (env : CheckoutEnv) (sessionId customerId : string) : MM CheckoutSession :=
  session ← findSession sessionId customerId;
  require (negb (bool_decide (cs_status session = CK_CONFIRMED))) ConflictException ;;
  if bool_decide (cs_status session = CK_EXPIRED) || (cs_expiresAt session <? co_now env)%Z then
    onSession sessionId (with_session_status CK_EXPIRED) ;;
    throw ConflictException
  else mret session.

(** The quote a session includes; the foreign key keeps it in place. *)
Definition quoteOf (session : CheckoutSession) : MM BookingQuote :=
  s ← get;
  from_option_or (market_quotes s !! cs_quoteId session) OtherError.

Definition configureAddons (env : CheckoutEnv) (sessionId customerId : string) (addons : list AncillarySelectionInput)
    : MM QuoteSnapshot :=
  session ← assertActiveSession env sessionId customerId;
  updatedQuote ← refreshMarketQuote checksum
    {| me_now := co_now env; me_tz := co_tz env; me_freshId := co_freshQuoteId env |}
    (cs_quoteId session) (Some customerId);
  onSession sessionId (with_addons (qs_quoteId updatedQuote) addons) ;;
  mret updatedQuote.

Definition submitDriverAndCustomerDetails (env : CheckoutEnv) (sessionId customerId : string)
    (driver : DriverDetailsDto) : MM unit :=
  session ← assertActiveSession env sessionId customerId;
  require (negb (dd_age driver <? 18)%Z) BadRequestException ;;
  require (match truthy (Some (dd_licenseNumber driver)) with
           | Some l => negb (String.length (trim l) <? 5)%nat
           | None => false
           end) BadRequestException ;;
  onSession sessionId (with_driver driver).

(** ** Payment *)
Definition amountPaiseOf (quote : BookingQuote) : Z := js_round (js_mul (rnd (bq_totalPayable quote)) 100).
Definition PAYMENT_METHODS : list string := ["UPI"; "CREDIT_CARD"; "DEBIT_CARD"; "NET_BANKING"; "WALLET"].

(** The methods a route was found for, with the provider of each. *)
Definition getAvailablePaymentOptions (env : CheckoutEnv) (sessionId customerId : string)
    : MM (Q * list (string * string)) :=
  session ← assertActiveSession env sessionId customerId;
  quote ← quoteOf session;
  mret (rnd (bq_totalPayable quote),
        omap (fun m => match co_route env m (amountPaiseOf quote) with
                       | Ok d => Some (m, rd_primaryProviderId d)
                       | Throw _ => None
                       end) PAYMENT_METHODS).

Definition initiatePayment (env : CheckoutEnv) (sessionId customerId paymentMethod : string)
    : MM InitiatePaymentResult :=
  session ← assertActiveSession env sessionId customerId;
  quote ← quoteOf session;
  let method := uppercase paymentMethod in
  let amountPaise := amountPaiseOf quote in
  decision ← of_result (co_route env method amountPaise);
  answer ← of_result (co_runtime env);
  require (ra_success answer) ConflictException ;;
  let orderId := str_or (ra_orderId answer) ("ord_" +:+ pretty (co_now env)) in
  onSession sessionId (with_order method orderId decision) ;;
  mret {| ip_orderId := orderId; ip_providerId := rd_primaryProviderId decision; ip_amountPaise := amountPaise;
          ip_paymentMethod := method; ip_fallbackChain := rd_fallbackChain decision |}.

(** ** Confirmation *)
Definition depositNumber (quote : BookingQuote) : Q := rnd (bq_depositTotal quote).

(** The booking: its total is what was paid, deposit included; the deposit row
    is held. *)
Definition checkoutBooking (env : CheckoutEnv) (session : CheckoutSession) (quote : BookingQuote)
    (paymentId : string) (split : option CommissionBreakdown) : Booking :=
  {| b_customerId := cs_customerId session; b_vendorId := bq_tenantId quote; b_carId := bq_carId quote;
     b_pickupHubId := None; b_startDate := bq_startDate quote; b_endDate := bq_endDate quote;
     b_totalFare := bq_totalPayable quote; b_platformFee := bq_feesTotal quote; b_gstAmount := bq_taxTotal quote;
     b_netToVendor := bq_netToVendor quote; b_disputeFlag := false; b_quoteTotal := Some (bq_totalPayable quote);
     b_couponId := None; b_discountAmount := None; b_corporateAccountId := None; b_cancellationMatrix := None;
     b_commissionSplit := split;
     b_securityDeposit :=
       if js_lt 0 (depositNumber quote)
       then Some {| sd_amount := store (of_number (depositNumber quote)); sd_status := SD_HELD;
                    sd_heldAt := Some (co_now env); sd_razorpayPaymentId := Some paymentId; sd_releasedAt := None; sd_refundedAmount := 0%Q; sd_deductedAmount := 0%Q;
       sd_razorpayRefundId := None |}
       else None;
     b_status := BS_CONFIRMED; b_cancellationReason := None; b_cancellationFee := None; b_refundAmount := None;
     b_cancelledAt := None; b_cancelledBy := None |}.

Definition checkoutPayment (env : CheckoutEnv) (session : CheckoutSession) (quote : BookingQuote)
    (payload : VerificationPayload) : Payment :=
  {| pm_id := co_paymentId env; pm_amount := bq_totalPayable quote; pm_status := PS_PAID;
     pm_gatewayProvider := str_or (cs_selectedPaymentProvider session) "RAZORPAY";
     pm_paymentMethod := Some (str_or (cs_selectedPaymentMethod session) "CARD_OR_UPI");
     pm_razorpayOrderId := match truthy (Some (vf_orderId payload)) with
                           | Some o => Some o | None => cs_activeOrderId session end;
     pm_razorpayPaymentId := Some (vf_paymentId payload); pm_razorpayRefundId := None; pm_refundAmount := None;
     pm_refundStatus := RS_NONE |}.

Definition checkoutCommission (env : CheckoutEnv) (quote : BookingQuote) (car : Car) (rules : list CommissionRule)
    : option CommissionBreakdown :=
  if co_hasCommission env
  then Some (calculateCommission rules
    {| cc_vendorId := bq_tenantId quote; cc_branchId := truthy (car_pickupHubId car); cc_vehicleClass := car_type car;
       cc_channel := None; cc_grossAmount := js_max 0 (js_sub (rnd (bq_totalPayable quote)) (depositNumber quote));
       cc_discountAmount := None; cc_subsidyAmount := None |})
  else None.

(** The journal of a confirmation. *)
Definition checkoutLines (env : CheckoutEnv) (bookingId : string) (session : CheckoutSession) (quote : BookingQuote)
    (split : option CommissionBreakdown) : list JournalEntryLineInput :=
  let totalPaid := bq_totalPayable quote in
  let platformFee := match split with Some c => of_number (cb_platformFee c) | None => bq_feesTotal quote end in
  let gstTax := match split with Some c => of_number (cb_gstAmount c) | None => bq_taxTotal quote end in
  let vendorPayable := match split with
                       | Some c => of_number (js_add (cb_vendorNetPayable c) (cb_branchShare c))
                       | None => bq_netToVendor quote
                       end in
  let secDeposit := of_number (depositNumber quote) in
  let subComponents := dec_add (dec_add (dec_add vendorPayable platformFee) gstTax) secDeposit in
  let delta := dec_sub totalPaid subComponents in
  let adjustedPlatformFee := dec_add platformFee delta in
  let line a e sd amount := ledgerLine a e sd amount bookingId (co_paymentId env) in
  [line GATEWAY_CLEARING (Some (str_or (cs_selectedPaymentProvider session) "RAZORPAY")) DEBIT totalPaid;
   line VENDOR_PAYABLE (Some (bq_tenantId quote)) CREDIT vendorPayable] ++
  pushIf (d_gt adjustedPlatformFee 0) (line PLATFORM_COMMISSION_REVENUE None CREDIT adjustedPlatformFee) ++
  pushIf (d_gt gstTax 0) (line TAX_GST_LIABILITY None CREDIT gstTax) ++
  pushIf (js_lt 0 (depositNumber quote))
    (line CUSTOMER_DEPOSIT_ESCROW (Some (cs_customerId session)) CREDIT secDeposit).
Definition checkoutJournal (env : CheckoutEnv) (bookingId : string) (session : CheckoutSession)
    (quote : BookingQuote) (split : option CommissionBreakdown) : RecordJournalInput :=
  {| rj_journalId := None; rj_referenceType := "BOOKING_CONFIRMATION"; rj_referenceId := bookingId;
     rj_narration := None; rj_description := None;
     rj_lines := Some (checkoutLines env bookingId session quote split); rj_entries := None;
     rj_idempotencyKey := Some ("jrn_confirm_" +:+ bookingId); rj_currency := None; rj_bookingId := None;
     rj_paymentId := None; rj_payoutId := None; rj_vendorId := None |}.

(** The booking a gateway payment already belongs to. *)
Definition bookingPaidBy (paymentId : string) (s : MarketStore R) : option (string * Booking) :=
  match List.find (fun p => bool_decide (pm_razorpayPaymentId (snd p) = Some paymentId))
          (map_to_list (ms_payments (ls_money (market_core s)))) with
  | Some (bookingId, _) => (fun b => (bookingId, b)) <$> ls_bookings (market_core s) !! bookingId
  | None => None
  end.

Definition insertCheckout (env : CheckoutEnv) (session : CheckoutSession) (quote : BookingQuote) (car : Car)
    (payload : VerificationPayload) (split : option CommissionBreakdown) : MM unit :=
  s ← get;
  let core := market_core s in
  let id := co_bookingId env in
  let payment := checkoutPayment env session quote payload in
  require (bool_decide (ls_bookings core !! id = None)) PrismaP2002 ;;
  require (match pm_razorpayOrderId payment with
           | Some o => negb (orderIdTaken id o (ms_payments (ls_money core)))
           | None => true
           end) PrismaP2002 ;;
  let core1 := set_booking id (checkoutBooking env session quote (vf_paymentId payload) split) core in
  let core2 := set_money (set_payment id payment (ls_money core1)) core1 in
  let core3 := set_fleet (set_fulfillment
    (<[id := {| ff_vendorId := bq_tenantId quote; ff_branchId := car_pickupHubId car; ff_carId := bq_carId quote;
                ff_stage := FS_ALLOCATED |}]> (fl_fulfillment (ls_fleet core2))) (ls_fleet core2)) core2 in
  modify (set_market_core core3).

Definition confirmTransaction (env : CheckoutEnv) (sessionId : string) (session : CheckoutSession)
    (quote : BookingQuote) (payload : VerificationPayload) : MM (string * BookingStatus * Q) :=
  s ← get;
  match truthy (Some (vf_paymentId payload)) ≫= (fun p => bookingPaidBy p s) with
  | Some (id, b) => mret (id, b_status b, b_totalFare b)
  | None =>
    car ← from_option_or (car_of (bq_carId quote) (mk_sales s)) OtherError;
    modify (fun s => set_market_quote (cs_quoteId session) (accepted_at (co_now env) quote) s) ;;
    let split := checkoutCommission env quote car (rd_rules (ls_ref (market_core s))) in
    insertCheckout env session quote car payload split ;;
    when (co_hasLedger env)
      (zoom market_core set_market_core (zoom the_ledger (fun L s => set_money (set_ledger L (ls_money s)) s)
         (r ← recordJournal (co_now env) (co_journalId env) true
                (checkoutJournal env (co_bookingId env) session quote split);
          mret tt))) ;;
    modify (fun s => set_sales (set_holds (map (convertHold (cs_customerId session) (bq_carId quote))
                                             (sl_holds (mk_sales s))) (mk_sales s)) s) ;;
    onSession sessionId (confirmed_with (co_bookingId env) (co_now env)) ;;
    mret (co_bookingId env, BS_CONFIRMED, bq_totalPayable quote)
  end.

Definition verifyAndConfirmPayment (env : CheckoutEnv) (sessionId customerId : string)
    (payload : VerificationPayload) : MM PaymentVerificationResult :=
  session ← findSession sessionId customerId;
  quote ← quoteOf session;
  match bool_decide (cs_status session = CK_CONFIRMED), truthy (cs_bookingId session) with
  | true, Some bookingId =>
    mret {| pvr_bookingId := bookingId; pvr_bookingStatus := BS_CONFIRMED;
            pvr_totalPaid := rnd (bq_totalPayable quote) |}
  | _, _ =>
    answer ← of_result (co_runtime env);
    require (ra_success answer && negb (bool_decide (ra_verified answer = Some false))) BadRequestException ;;
    created ← transaction (confirmTransaction env sessionId session quote payload);
    let '(id, st, totalFare) := created in
    mret {| pvr_bookingId := id; pvr_bookingStatus := st; pvr_totalPaid := rnd totalFare |}
  end.

(** ** Failure *)
Definition handlePaymentFailure (sessionId customerId : string) (fc : FailureContext) : MM PaymentFailureResult :=
  session ← findSession sessionId customerId;
  let '(safeToFailover, action) := evaluateFallbackSafety fc in
  let secondary := truthy (head (cs_fallbackChain session)) in
  onSession sessionId (with_failure (fc_providerId fc)) ;;
  match safeToFailover, action, secondary with
  | false, FB_PENDING_RECONCILIATION, _ =>
    mret {| pf_safeToRetry := false; pf_safeToFailover := false; pf_recommendedProviderId := None;
            pf_action := PENDING_RECONCILIATION |}
  | true, _, Some p =>
    mret {| pf_safeToRetry := false; pf_safeToFailover := true; pf_recommendedProviderId := Some p;
            pf_action := FAILOVER_SECONDARY |}
  | _, _, _ =>
    mret {| pf_safeToRetry := true; pf_safeToFailover := false; pf_recommendedProviderId := None;
            pf_action := SELECT_NEW_METHOD |}
  end.
End checkout.

(** ** Laws *)
Section checkout_laws.
Context {R : Type} {redis : Redis R} {col : NumericColumn} {dec : DecimalArith} {num : DecimalNumbers}.
Implicit Types s : MarketStore R.
Variable checksum : ChecksumPayload -> string.

Definition payments_of s : gmap string Payment := ms_payments (ls_money (market_core s)).
Definition bookings_of s : gmap string Booking := ls_bookings (market_core s).

(** What a confirmation writes. *)
Record confirmation (env : CheckoutEnv) (sessionId : string) (session : CheckoutSession) (quote : BookingQuote)
    (payload : VerificationPayload) (split : option CommissionBreakdown) s s' : Prop := {
  cf_split : exists car, car_of (bq_carId quote) (mk_sales s) = Some car /\
    split = checkoutCommission env quote car (rd_rules (ls_ref (market_core s)));
  cf_unpaid : vf_paymentId payload <> "" -> bookingPaidBy (vf_paymentId payload) s = None;
  cf_fresh : bookings_of s !! co_bookingId env = None;
  cf_booking : bookings_of s' =
    <[co_bookingId env := checkoutBooking env session quote (vf_paymentId payload) split]> (bookings_of s);
  cf_payment : payments_of s' = <[co_bookingId env := checkoutPayment env session quote payload]> (payments_of s);
  cf_journal : if co_hasLedger env
    then exists r, recordJournal (co_now env) (co_journalId env) true
           (checkoutJournal env (co_bookingId env) session quote split) (the_ledger (market_core s)) =
           (Ok r, the_ledger (market_core s'))
    else the_ledger (market_core s') = the_ledger (market_core s);
  cf_quote : market_quotes s' = <[cs_quoteId session := accepted_at (co_now env) quote]> (market_quotes s);
  cf_holds : sl_holds (mk_sales s') = map (convertHold (cs_customerId session) (bq_carId quote)) (sl_holds (mk_sales s));
  cf_session : mk_sessions s' =
    match mk_sessions s !! sessionId with
    | Some c => <[sessionId := confirmed_with (co_bookingId env) (co_now env) c]> (mk_sessions s)
    | None => mk_sessions s
    end;
}.

Lemma insertCheckout_Ok env session quote car payload split s u s' :
  insertCheckout (R:=R) env session quote car payload split s = (Ok u, s') ->
  bookings_of s !! co_bookingId env = None /\
  bookings_of s' = <[co_bookingId env := checkoutBooking env session quote (vf_paymentId payload) split]> (bookings_of s) /\
  payments_of s' = <[co_bookingId env := checkoutPayment env session quote payload]> (payments_of s) /\
  the_ledger (market_core s') = the_ledger (market_core s) /\
  market_quotes s' = market_quotes s /\ sl_holds (mk_sales s') = sl_holds (mk_sales s) /\
  mk_sessions s' = mk_sessions s.
Proof.
  unfold insertCheckout. intros H. guard_in H as Hf%bool_decide_eq_true. cbv zeta in H. step_in H.
  match type of H with (if ?b then _ else _) = _ => destruct b; [|done] end. by injection H as _ <-.
Qed.

Lemma onSession_Ok id f s u s' : onSession (R:=R) id f s = (Ok u, s') ->
  mk_sales s' = mk_sales s /\
  mk_sessions s' = match mk_sessions s !! id with Some c => <[id := f c]> (mk_sessions s) | None => mk_sessions s end.
Proof. unfold onSession. rewrite modify_run. intros [= _ <-]. by destruct (mk_sessions s !! id). Qed.

Lemma confirmTransaction_cases env sid session quote payload s r s' :
  confirmTransaction (R:=R) env sid session quote payload s = (Ok r, s') ->
  (exists id b, vf_paymentId payload <> "" /\ bookingPaidBy (vf_paymentId payload) s = Some (id, b) /\
     s' = s /\ r = (id, b_status b, b_totalFare b)) \/
  ((exists split, confirmation env sid session quote payload split s s') /\ r = (co_bookingId env, BS_CONFIRMED, bq_totalPayable quote)).
Proof.
  unfold confirmTransaction. intros H. step_in H.
  destruct (truthy (Some (vf_paymentId payload)) ≫= _) as [[id b]|] eqn:Ep.
  { left. injection H as <- <-. exists id, b. simpl in Ep. destruct (vf_paymentId payload) eqn:Ev; [done|].
    by split_and!. }
  step_in H. destruct (car_of _ _) as [car|] eqn:Ecar; [|done].
  step_in H. cbv zeta in H. set (split := checkoutCommission _ _ _ _) in H.
  apply bind_Ok in H as ([] & s1 & Hi & H).
  apply insertCheckout_Ok in Hi as (H1 & H2 & H3 & H4 & H5 & H6 & H7). right.
  set (s0 := set_market_quote _ _ s) in *.
  assert (exists s2, (if co_hasLedger env
    then exists r, recordJournal (co_now env) (co_journalId env) true
           (checkoutJournal env (co_bookingId env) session quote split) (the_ledger (market_core s1)) =
           (Ok r, the_ledger (market_core s2))
    else the_ledger (market_core s2) = the_ledger (market_core s1)) /\
    bookings_of s2 = bookings_of s1 /\ payments_of s2 = payments_of s1 /\ market_quotes s2 = market_quotes s1 /\
    sl_holds (mk_sales s2) = sl_holds (mk_sales s1) /\ mk_sessions s2 = mk_sessions s1 /\
    (modify (fun s => set_sales (set_holds (map (convertHold (cs_customerId session) (bq_carId quote))
        (sl_holds (mk_sales s))) (mk_sales s)) s) ;;
     onSession sid (confirmed_with (co_bookingId env) (co_now env)) ;;
     mret (co_bookingId env, BS_CONFIRMED, bq_totalPayable quote)) s2 = (Ok r, s')) as (s2 & J1 & J2 & J3 & J4 & J5 & J6 & J7).
  { destruct (co_hasLedger env); [|exists s1; by split_and!].
    apply bind_Ok in H as ([] & s2 & Hj & H). exists s2. apply zoom_run in Hj as (c & Hj & ->).
    apply zoom_run in Hj as (L & Hj & ->). apply bind_Ok in Hj as (jr & L' & Hj & [= <-]).
    split; [by eexists|]. by split_and!. }
  clear H. rewrite modify_bind in J7. apply bind_Ok in J7 as ([] & s3 & J7 & [= <- <-]).
  apply onSession_Ok in J7 as [K1 K2]. simpl in K1, K2. split; [|done]. exists split.
  unfold bookings_of, payments_of, market_core, market_quotes, sales_core in *.
  split; unfold bookings_of, payments_of, market_core, market_quotes, sales_core; rewrite ?K1, ?K2; simpl.
  - by exists car.
  - intros Hne. simpl in Ep. by destruct (vf_paymentId payload).
  - exact H1.
  - by rewrite J2, H2.
  - by rewrite J3, H3.
  - rewrite H4 in J1. destruct (co_hasLedger env); [|exact J1].
    destruct J1 as (jr & J1). exists jr. exact J1.
  - by rewrite J4, H5.
  - by rewrite J5, H6.
  - by rewrite J6, H7.
Qed.

Lemma findSession_Ok id c s session s' : findSession (R:=R) id c s = (Ok session, s') ->
  s' = s /\ mk_sessions s !! id = Some session /\ cs_customerId session = c.
Proof.
  unfold findSession. intros H. guard_in H as E. guard_in H as E2%String.eqb_eq. step_in H. by injection H as -> ->.
Qed.
Lemma findSession_readonly id c : readonly (findSession (R:=R) id c).
Proof. intros x. unfold findSession. auto 8 with preserves. Qed.
Lemma quoteOf_readonly c : readonly (quoteOf (R:=R) c).
Proof. intros x. unfold quoteOf. auto 8 with preserves. Qed.

(** The answers of a verification that changes nothing. *)
Definition known_answer (sessionId : string) (payload : VerificationPayload) s (r : result PaymentVerificationResult) : Prop :=
  match r with
  | Throw _ => True
  | Ok v =>
    (exists c, mk_sessions s !! sessionId = Some c /\ cs_status c = CK_CONFIRMED /\
       cs_bookingId c = Some (pvr_bookingId v)) \/
    (exists b, vf_paymentId payload <> "" /\
       bookingPaidBy (vf_paymentId payload) s = Some (pvr_bookingId v, b) /\ pvr_bookingStatus v = b_status b)
  end.

Lemma verify_cases env sid c payload s r s' : verifyAndConfirmPayment (R:=R) env sid c payload s = (r, s') ->
  (s' = s /\ known_answer sid payload s r) \/
  (exists session quote split, mk_sessions s !! sid = Some session /\ cs_customerId session = c /\
     market_quotes s !! cs_quoteId session = Some quote /\
     confirmation env sid session quote payload split s s' /\
     r = Ok {| pvr_bookingId := co_bookingId env; pvr_bookingStatus := BS_CONFIRMED;
               pvr_totalPaid := rnd (bq_totalPayable quote) |}).
Proof.
  unfold verifyAndConfirmPayment. rewrite bind_run.
  destruct (findSession sid c s) as [[session|e] s1] eqn:E1;
    pose proof (readonly_eq _ _ _ _ (findSession_readonly _ _) E1) as ->; [|intros [= <- <-]; by left].
  apply findSession_Ok in E1 as (_ & Hs & Hc). rewrite bind_run.
  destruct (quoteOf session s) as [[quote|e] s1] eqn:E2;
    pose proof (readonly_eq _ _ _ _ (quoteOf_readonly _) E2) as ->; [|intros [= <- <-]; by left].
  unfold quoteOf in E2. rewrite get_bind in E2.
  destruct (market_quotes s !! cs_quoteId session) as [q|] eqn:Hq; [injection E2 as ->|discriminate E2].
  destruct (bool_decide (cs_status session = CK_CONFIRMED)) eqn:Est, (truthy (cs_bookingId session)) as [id|] eqn:Eid.
  { intros [= <- <-]. left. split; [done|]. left. exists session. apply bool_decide_eq_true in Est.
    split_and!; try done. revert Eid. unfold truthy. repeat case_match; naive_solver. }
  all: rewrite of_result_bind; destruct (co_runtime env) as [answer|e]; [|intros [= <- <-]; by left];
    rewrite require_bind; destruct (ra_success answer && _); [|intros [= <- <-]; by left];
    rewrite bind_run; destruct (transaction _ s) as [[[[id' st] total]|e] s1] eqn:Et;
    [|apply transaction_Throw in Et as [-> _]; intros [= <- <-]; by left];
    intros [= <- <-]; rewrite transaction_Ok in Et;
    apply confirmTransaction_cases in Et as [(i & b & Hne & Hb & -> & [= -> -> ->])|[[sp Hd] [= -> -> ->]]];
    [left; split; [done|]; right; by exists b|right; exists session, quote, sp; by split_and!].
Qed.

(** C9. A checkout confirms all or nothing.  A verified payment either
    changes nothing (and then throws, or answers the booking the session or
    the payment already has), or adds exactly one CONFIRMED booking for the
    session's customer, car, dates and quoted total together with its PAID
    payment of that very amount, the deposit held with it, the quote used up,
    the session confirmed and, with a ledger, a journal the ledger accepted;
    a booking of that id did not exist and the payment had paid for none. *)
Theorem checkout_confirms_all_or_nothing env sid c payload s r s'
    (H : verifyAndConfirmPayment env sid c payload s = (r, s')) :
  (s' = s /\ known_answer sid payload s r) \/
  (exists session quote split b p, mk_sessions s !! sid = Some session /\ cs_customerId session = c /\
     market_quotes s !! cs_quoteId session = Some quote /\
     confirmation env sid session quote payload split s s' /\
     bookings_of s' !! co_bookingId env = Some b /\ payments_of s' !! co_bookingId env = Some p /\
     b_status b = BS_CONFIRMED /\ b_customerId b = c /\ b_carId b = bq_carId quote /\
     b_startDate b = bq_startDate quote /\ b_endDate b = bq_endDate quote /\
     pm_status p = PS_PAID /\ pm_amount p = b_totalFare b /\ b_totalFare b = bq_totalPayable quote /\
     (forall d, b_securityDeposit b = Some d -> sd_status d = SD_HELD /\
        sd_razorpayPaymentId d = pm_razorpayPaymentId p) /\
     cs_status <$> mk_sessions s' !! sid = Some CK_CONFIRMED /\
     bq_status <$> market_quotes s' !! cs_quoteId session = Some QS_ACCEPTED /\
     exists v, r = Ok v /\ pvr_bookingId v = co_bookingId env).
Proof.
  apply verify_cases in H as [H|(session & quote & split & Hs & Hc & Hq & Hd & ->)]; [by left|right].
  exists session, quote, split. do 2 eexists. destruct Hd as [D0 D1 D2 D3 D4 D5 D6 D7 D8].
  rewrite D3, D4, D6, D8, Hs, !lookup_insert_eq. split_and!; try done.
  - simpl. destruct (js_lt 0 (depositNumber quote)); [|done]. by intros d [= <-].
  - by eexists.
Qed.

(** ** One payment, one booking *)
Inductive checkout_request : Type :=
  | CkSession (env : CheckoutEnv) (sessionId quoteId customerId : string)
  | CkAddons (env : CheckoutEnv) (sessionId customerId : string) (addons : list AncillarySelectionInput)
  | CkDriver (env : CheckoutEnv) (sessionId customerId : string) (driver : DriverDetailsDto)
  | CkPay (env : CheckoutEnv) (sessionId customerId paymentMethod : string)
  | CkVerify (env : CheckoutEnv) (sessionId customerId : string) (payload : VerificationPayload)
  | CkFail (sessionId customerId : string) (fc : FailureContext).
Definition serve_checkout (q : checkout_request) : M (MarketStore R) unit :=
  match q with
  | CkSession env sid qid c => createCheckoutSession checksum env sid qid c ;; mret tt
  | CkAddons env sid c addons => configureAddons checksum env sid c addons ;; mret tt
  | CkDriver env sid c d => submitDriverAndCustomerDetails env sid c d ;; mret tt
  | CkPay env sid c m => initiatePayment env sid c m ;; mret tt
  | CkVerify env sid c payload => verifyAndConfirmPayment env sid c payload ;; mret tt
  | CkFail sid c fc => handlePaymentFailure sid c fc ;; mret tt
  end.
(** A verification names the payment of the gateway. *)
Definition names_payment (q : checkout_request) : Prop :=
  match q with CkVerify _ _ _ payload => vf_paymentId payload <> "" | _ => True end.
Definition checkout_step s s' : Prop := exists q r, names_payment q /\ serve_checkout q s = (r, s').

(** Everything but the confirmation leaves payments and bookings alone. *)
Lemma pay_onSession id f : keeps market_pay (onSession (R:=R) id f).
Proof. intros x. apply preserves_modify. intros s <-. by destruct (mk_sessions s !! id). Qed.
Lemma pay_readonly {A} (m : M (MarketStore R) A) : readonly m -> keeps market_pay m.
Proof. intros Hm x s r s' H <-. by rewrite (readonly_eq _ _ _ _ Hm H). Qed.
Lemma pay_findSession id c : keeps market_pay (findSession (R:=R) id c).
Proof. apply pay_readonly, findSession_readonly. Qed.
Lemma pay_quoteOf c : keeps market_pay (quoteOf (R:=R) c).
Proof. apply pay_readonly, quoteOf_readonly. Qed.
Lemma pay_getVerifiedQuote now id : keeps market_pay (getVerifiedQuote (R:=R) checksum now id).
Proof.
  intros x. unfold getVerifiedQuote. apply preserves_bind; [auto with preserves|intros t].
  apply preserves_bind; [auto with preserves|intros q]. case_match; [|auto with preserves].
  apply preserves_bind; [|auto with preserves]. by apply preserves_modify.
Qed.
Lemma pay_priceMarketQuote env input : keeps market_pay (priceMarketQuote (R:=R) checksum env input).
Proof.
  intros x s r s' H <-. unfold priceMarketQuote in H. step_in H.
  destruct (car_of _ _); [|by injection H as _ <-]. step_in H. destruct (offer_of _ _); [|by injection H as _ <-].
  rewrite bind_run in H. destruct (marketTotals _ _ _ _ s) as [[t|e] s1] eqn:E;
    pose proof (readonly_eq _ _ _ _ (marketTotals_readonly _ _ _ _) E) as ->; [|by injection H as _ <-].
  rewrite bind_run in H. destruct (zoom _ _ _ s) as [r1 s2] eqn:E2. apply zoom_run in E2 as (x & E2 & ->).
  assert (sl_pay x = market_pay s) as Ex.
  { unfold createQuoteRow in E2. step_in E2. destruct (match bq_idempotencyKey _ with Some _ => _ | None => true end);
      [step_in E2|]; by injection E2 as _ <-. }
  destruct r1; by injection H as _ <-.
Qed.
Lemma pay_createQuote env input : keeps market_pay (createQuote (R:=R) checksum env input).
Proof.
  intros x. unfold createQuote. apply preserves_bind; [auto with preserves|intros _].
  apply preserves_bind; [auto with preserves|intros t].
  destruct (_ ≫= _) as [[id q]|]; [destruct (_ && _); [auto with preserves|]|]; apply pay_priceMarketQuote.
Qed.
Lemma pay_refresh env id c : keeps market_pay (refreshMarketQuote (R:=R) checksum env id c).
Proof.
  intros x. unfold refreshMarketQuote. apply preserves_bind; [auto with preserves|intros t].
  apply preserves_bind; [auto with preserves|intros q].
  apply preserves_bind; [|intros _; apply pay_createQuote]. apply preserves_when. by apply preserves_modify.
Qed.
Lemma pay_assertActive env id c : keeps market_pay (assertActiveSession (R:=R) env id c).
Proof.
  intros x. unfold assertActiveSession. apply preserves_bind; [apply pay_findSession|intros session].
  apply preserves_bind; [auto with preserves|intros _]. case_match; [|auto with preserves].
  apply preserves_bind; [apply pay_onSession|auto with preserves].
Qed.
Hint Resolve pay_onSession pay_findSession pay_quoteOf pay_getVerifiedQuote pay_refresh pay_assertActive : preserves.
Hint Extern 1 (preserves (fun t => market_pay t = _) (onSession _ _)) => apply pay_onSession : preserves.

Lemma pay_serve q : match q with CkVerify _ _ _ _ => True | _ => keeps market_pay (serve_checkout q) end.
Proof.
  destruct q; try done; intros x; (apply preserves_bind; [|auto with preserves]).
  - unfold createCheckoutSession. apply preserves_bind; [apply pay_getVerifiedQuote|intros v].
    apply preserves_bind; [auto with preserves|intros t]. apply preserves_bind; [auto with preserves|intros _].
    apply preserves_bind; [by apply preserves_modify|auto with preserves].
  - unfold configureAddons. apply preserves_bind; [apply pay_assertActive|intros session].
    apply preserves_bind; [apply pay_refresh|intros v]. apply preserves_bind; [apply pay_onSession|auto with preserves].
  - unfold submitDriverAndCustomerDetails. apply preserves_bind; [apply pay_assertActive|intros session].
    do 2 (apply preserves_bind; [auto with preserves|intros _]). apply pay_onSession.
  - unfold initiatePayment. apply preserves_bind; [apply pay_assertActive|intros session].
    apply preserves_bind; [apply pay_quoteOf|intros v].
    do 2 (apply preserves_bind; [auto with preserves|intros ?]). apply preserves_bind; [auto with preserves|intros _].
    apply preserves_bind; [apply pay_onSession|auto with preserves].
  - unfold handlePaymentFailure. apply preserves_bind; [apply pay_findSession|intros session].
    destruct (evaluateFallbackSafety fc) as [safe action].
    apply preserves_bind; [apply pay_onSession|intros _]. repeat case_match; auto with preserves.
Qed.

(** Payments belong to bookings and no two to one gateway payment. *)
Record paid_once s : Prop := {
  po_booked : forall i p, payments_of s !! i = Some p -> is_Some (bookings_of s !! i);
  po_unique : forall i j p q x, payments_of s !! i = Some p -> payments_of s !! j = Some q ->
    pm_razorpayPaymentId p = Some x -> pm_razorpayPaymentId q = Some x -> x <> "" -> i = j;
}.

Lemma bookingPaidBy_None x s : paid_once s -> bookingPaidBy x s = None ->
  forall i p, payments_of s !! i = Some p -> pm_razorpayPaymentId p <> Some x.
Proof.
  intros [Hb _] H i p Hp E. unfold bookingPaidBy in H. fold (payments_of s) (bookings_of s) in H.
  destruct (List.find _ _) as [[j q]|] eqn:Ef.
  - apply find_Some_elem in Ef as [Hin _]. apply elem_of_map_to_list in Hin.
    destruct (Hb j q Hin) as [b Hbj]. by rewrite Hbj in H.
  - rewrite find_None_iff in Ef. assert ((i, p) ∈ map_to_list (payments_of s)) as Hin by (by apply elem_of_map_to_list).
    specialize (Ef _ Hin). simpl in Ef. by rewrite bool_decide_true in Ef.
Qed.
Lemma bookingPaidBy_Some x s i p : paid_once s -> payments_of s !! i = Some p -> pm_razorpayPaymentId p = Some x ->
  x <> "" -> exists b, bookingPaidBy x s = Some (i, b).
Proof.
  intros Ho Hp Hx Hne. destruct (bookingPaidBy x s) as [[j b]|] eqn:E.
  - exists b. repeat f_equal. unfold bookingPaidBy in E. fold (payments_of s) (bookings_of s) in E.
    destruct (List.find _ _) as [[k q]|] eqn:Ef; [|done]. apply find_Some_elem in Ef as [Hin Hq%bool_decide_eq_true].
    apply elem_of_map_to_list in Hin. destruct (bookings_of s !! k); [|done]. injection E as -> _.
    symmetry. by eapply (po_unique s Ho i j p q x).
  - exfalso. by eapply (bookingPaidBy_None x s Ho E).
Qed.

Lemma confirmation_paid_once env sid session quote payload split s s' :
  confirmation env sid session quote payload split s s' -> vf_paymentId payload <> "" -> paid_once s -> paid_once s'.
Proof.
  intros [_ Hu Hf Hb Hp _ _ _ _] Hne Ho. pose proof (bookingPaidBy_None _ _ Ho (Hu Hne)) as Hnone. split; rewrite Hp, ?Hb.
  - intros i p. destruct (decide (co_bookingId env = i)) as [<-|]; [rewrite !lookup_insert_eq; eauto|].
    rewrite !lookup_insert_ne by done. apply (po_booked s Ho).
  - intros i j p q x. destruct (decide (co_bookingId env = i)) as [<-|], (decide (co_bookingId env = j)) as [<-|];
      rewrite ?lookup_insert_eq, ?lookup_insert_ne by done; intros Hi Hj Ei Ej Hx; try done.
    + injection Hi as <-. simpl in Ei. injection Ei as <-. by destruct (Hnone j q Hj).
    + injection Hj as <-. simpl in Ej. injection Ej as <-. by destruct (Hnone i p Hi).
    + by eapply (po_unique s Ho i j p q x).
Qed.

Lemma discard_like {A} (m : M (MarketStore R) A) s r s' : (m ;; mret tt) s = (r, s') -> exists r0, m s = (r0, s').
Proof.
  rewrite bind_run. destruct (m s) as [[a|e] s1]; [|by intros [= _ <-]; exists (Throw e)].
  intros [= _ <-]. by exists (Ok a).
Qed.

(** What payments and bookings a step keeps. *)
Definition grows s s' : Prop :=
  (forall i p, payments_of s !! i = Some p -> payments_of s' !! i = Some p) /\
  (forall i b, bookings_of s !! i = Some b -> bookings_of s' !! i = Some b).

Lemma step_paid_once s s' : checkout_step s s' -> paid_once s -> paid_once s' /\ grows s s'.
Proof.
  intros (q & r & Hn & H) Ho. pose proof (pay_serve q) as Hk.
  assert (market_pay s' = market_pay s -> paid_once s' /\ grows s s') as Hsame.
  { intros E. unfold grows, payments_of, bookings_of, market_core, sales_core in *. unfold market_pay in E.
    rewrite E. split; [|by split]. destruct Ho as [H1 H2]. unfold payments_of, bookings_of, market_core, sales_core in *.
    split; unfold payments_of, bookings_of, market_core, sales_core; by rewrite E. }
  destruct q; try (apply Hsame, (keeps_eq _ _ _ _ _ Hk H)). simpl in H, Hn.
  apply discard_like in H as (r0 & H). apply verify_cases in H as [[-> _]|(session & quote & split & _ & _ & _ & Hd & _)].
  - split; [done|]. by split.
  - split; [by eapply confirmation_paid_once|].
    pose proof Hd as [_ Hu Hf Hb Hp _ _ _ _]. split; intros i x Hx.
    + rewrite Hp, lookup_insert_ne; [done|]. intros <-. destruct (po_booked s Ho _ _ Hx) as [b Hb']. congruence.
    + rewrite Hb, lookup_insert_ne; [done|]. intros <-. congruence.
Qed.
Lemma grows_trans s1 s2 s3 : grows s1 s2 -> grows s2 s3 -> grows s1 s3.
Proof. intros [A1 A2] [B1 B2]. split; eauto. Qed.
Lemma steps_paid_once s s' : rtc checkout_step s s' -> paid_once s -> paid_once s' /\ grows s s'.
Proof.
  induction 1 as [s|s1 s2 s3 H _ IH]; intros Ho; [by split|].
  destruct (step_paid_once _ _ H Ho) as [H2 G]. destruct (IH H2) as [H3 G']. split; [done|by eapply grows_trans].
Qed.

(** C10. A payment of the gateway books once.  From a store where payments
    belong to bookings, through any sequence of checkout requests of any
    customers, no two bookings are paid by one gateway payment, no booking or
    payment is lost or altered, and whoever presents a payment that has booked,
    in whatever session, changes nothing and is answered that booking (or the
    one the session already confirmed). *)
Theorem payment_books_once s s' (H0 : paid_once s) (H : rtc checkout_step s s') :
  paid_once s' /\ grows s s' /\
  forall x i p env sid c o r s'', payments_of s !! i = Some p -> pm_razorpayPaymentId p = Some x -> x <> "" ->
    verifyAndConfirmPayment env sid c {| vf_orderId := o; vf_paymentId := x |} s' = (r, s'') ->
    s'' = s' /\ forall v, r = Ok v -> pvr_bookingId v = i \/
      exists session, mk_sessions s' !! sid = Some session /\ cs_status session = CK_CONFIRMED /\
        cs_bookingId session = Some (pvr_bookingId v).
Proof.
  destruct (steps_paid_once s s' H H0) as [H1 G]. split; [done|]. split; [done|].
  intros x i p env sid c o r s'' Hp Hx Hne Hv. apply G in Hp.
  destruct (bookingPaidBy_Some x s' i p H1 Hp Hx Hne) as [b Hb].
  apply verify_cases in Hv as [[-> Hk]|(session & quote & split & _ & _ & _ & Hd & _)].
  - split; [done|]. intros v ->. destruct Hk as [(session & ? & ? & ?)|(b' & _ & Hb' & _)]; [right; by exists session|left].
    simpl in Hb'. congruence.
  - exfalso. pose proof (cf_unpaid _ _ _ _ _ _ _ _ Hd Hne) as Hu. simpl in Hu. congruence.
Qed.
End checkout_laws.

(** ** Failed payments *)
(** A failed payment never invites a second charge while the first may
    still be taken: when the request had reached the gateway and the error
    leaves its outcome open, neither a retry nor another gateway is offered;
    another gateway is offered only otherwise, and then it is the first of the
    session's fallback chain.  In every case just the session is marked. *)
Theorem failure_offers_no_second_charge {R} sid c fc (s : MarketStore R) v s'
    (H : handlePaymentFailure sid c fc s = (Ok v, s')) :
  exists session, mk_sessions s !! sid = Some session /\ cs_customerId session = c /\
    mk_sales s' = mk_sales s /\
    mk_sessions s' = <[sid := with_failure (fc_providerId fc) session]> (mk_sessions s) /\
    let open_outcome := fc_dispatchedToGateway fc = true /\ indeterminate (str_or (fc_errorCode fc) "") = true in
    (open_outcome -> pf_safeToRetry v = false /\ pf_safeToFailover v = false /\ pf_action v = PENDING_RECONCILIATION) /\
    (pf_safeToFailover v = true -> ~ open_outcome /\ pf_safeToRetry v = false /\
       exists p l, cs_fallbackChain session = p :: l /\ pf_recommendedProviderId v = Some p).
Proof.
  unfold handlePaymentFailure in H. apply bind_Ok in H as (session & s1 & Hs & H).
  apply findSession_Ok in Hs as (-> & Hs & Hc). exists session. do 2 (split; [done|]).
  destruct (evaluateFallbackSafety fc) as [safe action] eqn:Ef. cbv zeta in H.
  apply bind_Ok in H as ([] & s2 & Ho & H). apply onSession_Ok in Ho as [E1 E2]. rewrite Hs in E2.
  assert (s' = s2 /\ (fc_dispatchedToGateway fc = true /\ indeterminate (str_or (fc_errorCode fc) "") = true ->
      safe = false /\ action = FB_PENDING_RECONCILIATION) /\ (safe = true -> ~ (fc_dispatchedToGateway fc = true /\
      indeterminate (str_or (fc_errorCode fc) "") = true))) as (-> & Hp & Hn).
  { split; [destruct safe, action, (truthy (head (cs_fallbackChain session))); by injection H as _ <-|].
    unfold evaluateFallbackSafety in Ef. split.
    - intros [A B]. rewrite A, B in Ef. by injection Ef as <- <-.
    - intros -> [A B]. by rewrite A, B in Ef. }
  split; [done|]. split; [done|]. cbv zeta. split.
  - intros Ho. destruct (Hp Ho) as [-> ->]. by injection H as <-.
  - intros Hf. destruct safe, action, (truthy (head (cs_fallbackChain session))) as [p|] eqn:Et; injection H as <-; try done;
      (split; [by apply Hn|]; split; [done|]; exists p; destruct (cs_fallbackChain session) as [|q l]; [done|];
       exists l; simpl in *; destruct q; simpl in Et; [done|]; by injection Et as <-).
Qed.

(** ** Concrete checkouts *)
Definition checkout_env (commission : bool) (booking : string) : CheckoutEnv :=
  {| co_now := HOUR + 60000; co_tz := 19800000; co_freshQuoteId := "mq2"; co_bookingId := booking;
     co_paymentId := "p" +:+ booking; co_journalId := "j" +:+ booking;
     co_route := fun _ _ => Ok {| rd_primaryProviderId := "razorpay"; rd_fallbackChain := ["stripe"] |};
     co_runtime := Ok {| ra_success := true; ra_orderId := Some ("order_" +:+ booking); ra_verified := Some true |};
     co_hasCommission := commission; co_hasLedger := true |}.
Definition paid_with (order payment : string) : VerificationPayload :=
  {| vf_orderId := order; vf_paymentId := payment |}.
Definition session_run (sessionId customer : string) (s : MarketStore RedisMem) : MarketStore RedisMem :=
  snd (createCheckoutSession plain_checksum (checkout_env false "b9") sessionId "mq1" customer s).
Definition two_sessions : MarketStore RedisMem := session_run "cs2" "c3" (session_run "cs1" "c2" (snd market_run)).
Definition confirm_run (commission : bool) : result PaymentVerificationResult * MarketStore RedisMem :=
  verifyAndConfirmPayment (checkout_env commission "b9") "cs1" "c2" (paid_with "order_b9" "pay_9") two_sessions.

Lemma checkout_confirms_all_or_nothing_witness :
  exists b, bookings_of (snd (confirm_run false)) !! "b9" = Some b /\ b_status b = BS_CONFIRMED /\
    b_totalFare b == 767587 # 100.
Proof.
  destruct (fst (confirm_run false)) as [v|] eqn:E; [|vm_compute in E; discriminate E].
  destruct (checkout_confirms_all_or_nothing (checkout_env false "b9") "cs1" "c2" (paid_with "order_b9" "pay_9")
    two_sessions (Ok v) (snd (confirm_run false))) as [[H _]|(session & quote & split & b & p & _ & _ & Hq & _ & Hb & _ & Hs & _ & _ & _ & _ & _ & _ & Ht & _)].
  - apply (run_eq (confirm_run false)). exact E.
  - exfalso. apply (f_equal (fun s => bookings_of s !! "b9")) in H. vm_compute in H. discriminate H.
  - exists b. split; [exact Hb|]. split; [exact Hs|]. vm_compute in Hb. injection Hb as <-. reflexivity.
Defined.

Lemma two_sessions_paid_once : paid_once two_sessions.
Proof.
  assert (exists p, payments_of two_sessions = {["b1" := p]} /\ is_Some (bookings_of two_sessions !! "b1")) as (p & E & Hb).
  { eexists. split; [vm_compute; reflexivity|]. vm_compute. eauto. }
  split; rewrite E.
  - intros i q Hi. apply lookup_singleton_Some in Hi as [<- _]. exact Hb.
  - intros i j q1 q2 x Hi Hj. apply lookup_singleton_Some in Hi as [<- _], Hj as [<- _]. done.
Qed.
(** The other customer presents the same payment in a session of their own. *)
Lemma payment_books_once_witness :
  paid_once (snd (confirm_run false)) /\
  exists v, verifyAndConfirmPayment (checkout_env false "b10") "cs2" "c3" (paid_with "order_x" "pay_9")
    (snd (confirm_run false)) = (Ok v, snd (confirm_run false)) /\ pvr_bookingId v = "b9".
Proof.
  assert (rtc (checkout_step plain_checksum) two_sessions (snd (confirm_run false))) as Hr.
  { apply rtc_once. exists (CkVerify (checkout_env false "b9") "cs1" "c2" (paid_with "order_b9" "pay_9")), (Ok tt).
    split; [discriminate|]. vm_compute. reflexivity. }
  destruct (payment_books_once plain_checksum two_sessions (snd (confirm_run false)) two_sessions_paid_once Hr)
    as (H1 & _ & _). split; [exact H1|].
  destruct (payment_books_once plain_checksum (snd (confirm_run false)) (snd (confirm_run false)) H1 (rtc_refl _ _))
    as (_ & _ & H2).
  destruct (verifyAndConfirmPayment (checkout_env false "b10") "cs2" "c3" (paid_with "order_x" "pay_9")
    (snd (confirm_run false))) as [r s''] eqn:E.
  assert (exists p, payments_of (snd (confirm_run false)) !! "b9" = Some p /\ pm_razorpayPaymentId p = Some "pay_9")
    as (p & Hp & Hx) by (eexists; split; [vm_compute; reflexivity|reflexivity]).
  destruct (H2 "pay_9" "b9" p _ _ _ "order_x" r s'' Hp Hx ltac:(discriminate) E) as [-> _].
  assert (fst (r, snd (confirm_run false)) = Ok {| pvr_bookingId := "b9"; pvr_bookingStatus := BS_CONFIRMED;
    pvr_totalPaid := rupees 767587 |}) as Er by (rewrite <- E; vm_compute; reflexivity).
  simpl in Er. subst r. eexists. split; reflexivity.
Defined.

Definition failed_after_dispatch (error : string) : FailureContext :=
  {| fc_providerId := "razorpay"; fc_errorCode := Some error; fc_dispatchedToGateway := true |}.
Lemma failure_offers_no_second_charge_witness :
  exists v, fst (handlePaymentFailure "cs1" "c2" (failed_after_dispatch "TIMEOUT") two_sessions) = Ok v /\
    pf_safeToRetry v = false /\ pf_safeToFailover v = false.
Proof.
  destruct (handlePaymentFailure "cs1" "c2" (failed_after_dispatch "TIMEOUT") two_sessions) as [[v|] s'] eqn:E;
    [|vm_compute in E; discriminate E].
  exists v. split; [reflexivity|].
  destruct (failure_offers_no_second_charge "cs1" "c2" (failed_after_dispatch "TIMEOUT") two_sessions v s' E)
    as (session & _ & _ & _ & _ & H & _).
  destruct H as (H1 & H2 & _); [split; reflexivity|]. split; [exact H1|exact H2].
Defined.

(** *** Defects *)
(** With the commission service and its built-in percentages (15, 5, 80 and
    18 of tax on top) the shares exceed what was paid, tax included, the
    platform's line is left out and the journal does not balance: the verified
    payment is not booked. *)
Lemma default_commission_blocks_checkout :
  fst (confirm_run true) = Throw UnbalancedJournalException /\ bookings_of (snd (confirm_run true)) !! "b9" = None.
Proof. split; vm_compute; reflexivity. Qed.
(** A second session of the same car and dates, paid with another payment, is
    confirmed as well. *)
Definition second_confirm : result PaymentVerificationResult * MarketStore RedisMem :=
  verifyAndConfirmPayment (checkout_env false "b10") "cs2" "c3" (paid_with "order_b10" "pay_10") (snd (confirm_run false)).
Lemma checkout_double_books :
  is_Ok (fst second_confirm) = true /\
  (fun b => (b_status b, b_carId b, b_startDate b)) <$> bookings_of (snd second_confirm) !! "b9" =
  (fun b => (b_status b, b_carId b, b_startDate b)) <$> bookings_of (snd second_confirm) !! "b10".
Proof. split; vm_compute; reflexivity. Qed.
(** A failure reported after the confirmation reopens the session, which then
    confirms a second booking. *)
Definition reopened_run : result PaymentVerificationResult * MarketStore RedisMem :=
  verifyAndConfirmPayment (checkout_env false "b10") "cs1" "c2" (paid_with "order_b10" "pay_10")
    (snd (handlePaymentFailure "cs1" "c2" (failed_after_dispatch "NETWORK") (snd (confirm_run false)))).
Lemma confirmed_session_reopened :
  pvr_bookingId <$> match fst reopened_run with Ok v => Some v | Throw _ => None end = Some "b10" /\
  (b_customerId <$> bookings_of (snd reopened_run) !! "b9") = Some "c2" /\
  (b_customerId <$> bookings_of (snd reopened_run) !! "b10") = Some "c2".
Proof. split_and!; vm_compute; reflexivity. Qed.
(** The total of the booking contains the deposit and the deposit row repeats
    it: what later services expect is more than was paid. *)
Lemma checkout_deposit_counted_twice :
  totalExpectedOf <$> bookings_of (snd (confirm_run false)) !! "b9" = Some (1067587 # 100) /\
  pm_amount <$> payments_of (snd (confirm_run false)) !! "b9" = Some (767587 # 100).
Proof. split; vm_compute; reflexivity. Qed.
(** An expired session is confirmed all the same. *)
Definition expired_env : CheckoutEnv :=
  {| co_now := 5 * HOUR; co_tz := 19800000; co_freshQuoteId := "mq2"; co_bookingId := "b9"; co_paymentId := "pb9";
     co_journalId := "jb9"; co_route := fun _ _ => Throw BadRequestException;
     co_runtime := Ok {| ra_success := true; ra_orderId := None; ra_verified := Some true |};
     co_hasCommission := false; co_hasLedger := true |}.
Lemma expired_session_confirms :
  fst (assertActiveSession expired_env "cs1" "c2" two_sessions) = Throw ConflictException /\
  is_Ok (fst (verifyAndConfirmPayment expired_env "cs1" "c2" (paid_with "order_b9" "pay_9") two_sessions)) = true.
Proof. split; vm_compute; reflexivity. Qed.
(** The add-ons a customer selects in the checkout are stored but not priced. *)
Definition addons_chosen : result QuoteSnapshot * MarketStore RedisMem :=
  configureAddons plain_checksum (checkout_env false "b9") "cs1" "c2" [addon "CHILD_SAFETY_SEAT"] two_sessions.
Lemma chosen_addons_are_free :
  qs_feesTotal <$> match fst addons_chosen with Ok q => Some q | Throw _ => None end =
  (fun q => rnd (bq_feesTotal q)) <$> market_quotes two_sessions !! "mq1".
Proof. vm_compute. reflexivity. Qed.
