(* ===== verification/Reservations.v ===== *)
(** * Reservations: the services of a booking together

    The requests that touch bookings, run one after the other over the whole
    store: quotes, [createBooking], payment orders, verification and webhooks,
    and the transitions of the lifecycle.  A booking that is PENDING keeps its
    vehicle like an occupying one, so the abstract book here is exclusive for
    all active slots. *)
From S2P Require Import Prelude JsNumber Decimal Schema Ledger Wallet Locks HandoverOtp PaymentRefund Outbox BookingStore.
From S2P Require Import CancellationPolicy BookingLifecycle Payments PaymentOrders PaymentWebhook FareCalculator Coupons Quotes.
From S2P Require Import BookingCreation.
Open Scope Z_scope.

(** ** The abstract book *)
Module ActiveBook.
Import ReservationBook.

Inductive step (B : gmap string Slot) : gmap string Slot -> Prop :=
  | step_lifecycle B' : ReservationBook.step B B' -> step B B'
  | step_add id x : B !! id = None -> sl_status x = BS_PENDING -> sl_start x < sl_end x ->
      (forall j y, B !! j = Some y -> sl_carId y = sl_carId x -> active (sl_status y) = true -> apart y x) ->
      step B (<[id := x]> B).

(** Two slots of one vehicle in the states [P] never overlap; [exclusive]: two
    active ones. *)
Definition exclusive_among (P : BookingStatus -> bool) (B : gmap string Slot) : Prop :=
  forall i j x y, i <> j -> B !! i = Some x -> B !! j = Some y ->
    P (sl_status x) = true -> P (sl_status y) = true -> sl_carId x = sl_carId y -> apart x y.
Definition exclusive : gmap string Slot -> Prop := exclusive_among active.

Lemma apart_sym x y : apart x y -> apart y x.
Proof. unfold apart. lia. Qed.
(** No transition makes a slot active that was not. *)
Lemma active_entry cur target : target ∈ matrix cur -> active target = true -> active cur = true.
Proof. intros Hm Ha. destruct cur, target; simpl in *; try done; exfalso; set_solver. Qed.

Lemma update_among P B id x : exclusive_among P B ->
  (P (sl_status x) = true -> forall j y, j <> id -> B !! j = Some y -> sl_carId y = sl_carId x ->
     P (sl_status y) = true -> apart y x) ->
  exclusive_among P (<[id := x]> B).
Proof.
  intros Hex Hx i j u v Hij Hu Hv Au Av Hc. destruct (decide (i = id)) as [->|Hi].
  - rewrite lookup_insert_eq in Hu. injection Hu as <-. rewrite lookup_insert_ne in Hv by done.
    by apply apart_sym, (Hx Au j).
  - rewrite lookup_insert_ne in Hu by done. destruct (decide (j = id)) as [->|Hj].
    + rewrite lookup_insert_eq in Hv. injection Hv as <-. by apply (Hx Av i).
    + rewrite lookup_insert_ne in Hv by done. by apply (Hex i j).
Qed.

Lemma update_exclusive B id x : exclusive B ->
  (active (sl_status x) = true -> forall j y, j <> id -> B !! j = Some y -> sl_carId y = sl_carId x ->
     active (sl_status y) = true -> apart y x) ->
  exclusive (<[id := x]> B).
Proof. apply update_among. Qed.

(** States that no transition enters from outside and that are active. *)
Lemma step_among P B B' : (forall st, P st = true -> active st = true) ->
  (forall cur target, target ∈ matrix cur -> P target = true -> P cur = true) ->
  step B B' -> exclusive_among P B -> exclusive_among P B'.
Proof.
  intros HP Hentry [B'' Hs|id x Hn Hp _ Hc] Hex.
  - destruct Hs as [|id x target Hx Hm _]; [done|]. apply update_among; [done|].
    intros Ha j y Hne Hj Hcar Hy. simpl in *. pose proof (Hentry _ _ Hm Ha) as Hax.
    exact (Hex j id y x Hne Hj Hx Hy Hax Hcar).
  - apply update_among; [done|]. intros _ j y _ Hj Hcar Hy. apply (Hc j); auto.
Qed.
Lemma active_step_exclusive B B' : step B B' -> exclusive B -> exclusive B'.
Proof. apply step_among; [done|apply active_entry]. Qed.

(** An active slot occupies its vehicle or waits for payment. *)
Lemma exclusive_occupying B : exclusive B -> ReservationBook.exclusive B.
Proof.
  intros Hex i j x y Hij Hx Hy Ox Oy Hc. apply (Hex i j); try done.
  - by destruct (sl_status x).
  - by destruct (sl_status y).
Qed.
End ActiveBook.

(** ** The requests *)
Section system.
Context {R : Type} {redis : Redis R} {col : NumericColumn} {dec : DecimalArith} {num : DecimalNumbers}.
Context {bcrypt : Bcrypt}.
Variable yearMonth : Z -> string.
Implicit Types s : SalesStore R.

Definition on_core {A} (m : M (LifecycleStore R) A) : M (SalesStore R) A := zoom sales_core set_sales_core m.
Definition on_pay {A} (m : M (PayStore R) A) : M (SalesStore R) A := zoom sl_pay set_pay m.

Inductive request : Type :=
  | ReqQuote (env : QuoteEnv) (userId : option string) (dto : CreateQuoteDto)
  | ReqRefreshQuote (env : QuoteEnv) (quoteId : string) (userId : option string)
  | ReqCreate (env : CreateEnv) (customerId : string) (dto : CreateBookingDto)
  | ReqOrder (env : PayEnv) (bookingId customerId : string) (useWallet : bool)
  | ReqVerify (env : PayEnv) (dto : VerifyPaymentDto) (customerId : string)
  | ReqWebhook (env : WebhookEnv) (rawBody signature : string) (headers : option WebhookHeaders)
  | ReqTransition (env : TransitionEnv) (ctx : BookingTransitionContext).

Definition discard {A} (m : M (SalesStore R) A) : M (SalesStore R) unit := m ;; mret tt.
Definition serve (q : request) : M (SalesStore R) unit :=
  match q with
  | ReqQuote env userId dto => discard (generateQuote env userId dto)
  | ReqRefreshQuote env quoteId userId => discard (refreshQuote env quoteId userId)
  | ReqCreate env customerId dto => discard (createBooking env customerId dto)
  | ReqOrder env bookingId customerId useWallet => discard (on_pay (createOrder env bookingId customerId useWallet))
  | ReqVerify env dto customerId => discard (on_pay (verifyPayment yearMonth env dto customerId))
  | ReqWebhook env rawBody signature headers => discard (on_pay (handleWebhook env rawBody signature headers))
  | ReqTransition env ctx => discard (on_core (executeTransition env ctx))
  end.
Definition system_step s s' : Prop := exists q r, serve q s = (r, s').

Definition sales_slots s : gmap string Slot := slots (sales_core s).

Lemma discard_run {A} (m : M (SalesStore R) A) s r s' : discard m s = (r, s') -> exists r0, m s = (r0, s').
Proof.
  unfold discard. rewrite bind_run. destruct (m s) as [[a|e] s1]; [|by intros [= _ <-]; exists (Throw e)].
  intros [= _ <-]. by exists (Ok a).
Qed.
Lemma on_pay_slots {A} (m : M (PayStore R) A) : keeps pay_slots m -> keeps sales_slots (on_pay m).
Proof.
  intros Hm x s r s' H <-. unfold on_pay in H. apply zoom_run in H as (p & H & ->).
  exact (keeps_eq _ _ _ _ _ Hm H).
Qed.

(** Quotes touch neither bookings and money nor holds. *)
Definition booking_side s : PayStore R * list VehicleHold := (sl_pay s, sl_holds s).
Lemma set_quotes_core x q s : booking_side s = x -> booking_side (set_quotes q s) = x.
Proof. done. Qed.
Lemma createQuoteRow_side id row : keeps booking_side (createQuoteRow (R:=R) id row).
Proof.
  intros x s r s' H <-. unfold createQuoteRow in H. step_in H.
  destruct (match bq_idempotencyKey row with Some _ => _ | None => true end); [|by injection H as _ <-].
  step_in H. by injection H as _ <-.
Qed.
Lemma readonly_keeps {A B} (f : SalesStore R -> B) (m : M (SalesStore R) A) : readonly m -> keeps f m.
Proof. intros Hm x s r s' H <-. by rewrite (readonly_eq _ _ _ _ Hm H). Qed.
Lemma priceQuote_side env u dto : keeps booking_side (priceQuote (R:=R) env u dto).
Proof.
  intros x. unfold priceQuote. apply preserves_bind; [auto with preserves|intros t].
  apply preserves_bind; [auto with preserves|intros car]. apply preserves_bind; [auto with preserves|intros offer].
  do 4 (apply preserves_bind; [auto with preserves|intros _]).
  apply preserves_bind; [apply (readonly_keeps booking_side), quoteParts_readonly|intros parts].
  apply createQuoteRow_side.
Qed.
Lemma generateQuote_side env u dto : keeps booking_side (generateQuote (R:=R) env u dto).
Proof.
  intros x. unfold generateQuote. do 2 (apply preserves_bind; [auto with preserves|intros _]).
  apply preserves_bind; [auto with preserves|intros t].
  destruct (_ ≫= _) as [[id q]|]; [|apply priceQuote_side].
  destruct (_ && _); [auto with preserves|apply priceQuote_side].
Qed.
Lemma refreshQuote_side env i u : keeps booking_side (refreshQuote (R:=R) env i u).
Proof.
  intros x. unfold refreshQuote. apply preserves_bind; [auto with preserves|intros t].
  apply preserves_bind; [auto with preserves|intros q].
  apply preserves_bind; [|intros _; apply generateQuote_side]. apply preserves_when, preserves_modify.
  intros s. apply set_quotes_core.
Qed.

(** Nor do payment orders and webhooks. *)
Lemma getOrCreateWallet_pay {A} (m : M WalletStore A) : keeps pay_slots (zoom (S:=PayStore R) pay_wallets set_pay_wallets m).
Proof. intros x. by apply preserves_zoom. Qed.
Lemma createOrder_slots env id c w : keeps pay_slots (createOrder (R:=R) env id c w).
Proof.
  intros x. unfold createOrder. apply preserves_bind; [auto with preserves|intros t].
  apply preserves_bind; [auto with preserves|intros b].
  do 4 (apply preserves_bind; [auto with preserves|intros _]).
  apply preserves_bind; [|intros [[wa pa] ra]; apply preserves_bind; [|intros oid; apply preserves_bind;
    [|intros p; apply preserves_bind; [by apply slots_of_payment_frame, keeps_audit|auto with preserves]]]].
  - unfold walletShare. destruct (_ && _); [|auto with preserves].
    apply preserves_bind; [apply getOrCreateWallet_pay|intros w']. cbv zeta. destruct (_ && _); auto with preserves.
  - destruct (d_le _ _); [auto with preserves|]. unfold gatewayOrder. destruct (pe_useMock env); [auto with preserves|].
    destruct (pe_runtime env) as [[[?|]|]|]; try (destruct (pe_createOrder _ _)); auto with preserves.
  - unfold writeOrder. do 2 (apply preserves_bind; [auto with preserves|intros ?]).
    apply preserves_bind; [by apply preserves_zoom|auto with preserves].
Qed.
Lemma handleWebhook_slots env raw sig hd : keeps pay_slots (handleWebhook (R:=R) env raw sig hd).
Proof.
  intros x s r s' H <-. unfold handleWebhook in H. step_in H.
  destruct (we_parse env raw) as [payload|]; [|by injection H as _ <-]. step_in H.
  destruct (webhookSignatureValid _ _ _ _ _); [|by injection H as _ <-]. step_in H.
  destruct (existsb _ _); [by injection H as _ <-|]. step_in H.
  pose proof (steady_dispatch (eventIdOf env payload hd raw) (pay_slots s) _ _ _ _ _ _ H) as Hs. apply Hs.
  split; [|done]. unfold seen. simpl. rewrite existsb_app. simpl. by rewrite String.eqb_refl, orb_true_r.
Qed.

Lemma transition_book env ctx s r s' : on_core (executeTransition (R:=R) env ctx) s = (r, s') ->
  ReservationBook.step (sales_slots s) (sales_slots s').
Proof. intros H. apply zoom_run in H as (c & H & ->). apply step_refines. by exists env, ctx, r. Qed.

Lemma create_book env c dto s r s' : createBooking (R:=R) env c dto s = (r, s') ->
  ActiveBook.step (sales_slots s) (sales_slots s').
Proof.
  destruct (Z.ltb_spec (cb_startDate dto) (cb_endDate dto)) as [Ht|Ht%Z.ltb_ge].
  2: { unfold createBooking. rewrite require_bind, Ht. intros [= _ <-]. constructor. constructor. }
  intros [[Hu _]|(row & [Hf Hb (Hc & Hcar & Hs & He & Hst) _ [Hp _ _] _ _ _ _ _] & _)]%createBooking_cases.
  - assert (sales_slots s' = sales_slots s) as ->; [|constructor; constructor].
    unfold sales_rows in Hu. injection Hu as Hu. unfold sales_slots, slots. by rewrite Hu.
  - unfold sales_slots, slots. rewrite Hb, fmap_insert. apply ActiveBook.step_add; [by rewrite lookup_fmap, Hf|done|simpl; lia|].
    intros j y Hj Hyc Ha. rewrite lookup_fmap in Hj. destruct (ls_bookings (sales_core s) !! j) as [b|] eqn:Ej; [|done].
    injection Hj as <-. simpl in *. rewrite Hcar in Hyc.
    destruct (Hp j b Ej Hyc Ha); unfold ReservationBook.apart; simpl; rewrite Hs, He; lia.
Qed.

(** Only a creation adds a slot or touches the holds. *)
Lemma request_frame q s r s' : serve q s = (r, s') ->
  (exists env c dto, q = ReqCreate env c dto) \/
  (ReservationBook.step (sales_slots s) (sales_slots s') /\ sl_holds s' = sl_holds s).
Proof.
  assert (forall x y, sales_slots y = sales_slots x -> ReservationBook.step (sales_slots x) (sales_slots y)) as Hskip
    by (intros x y ->; constructor).
  intros H. destruct q as [env u dto|env id u|env c dto|env id c w|env dto c|env raw sig hd|env ctx]; simpl in H;
    [| |by left; eauto| | | |]; right; apply discard_run in H as (r0 & H).
  - pose proof (keeps_eq _ _ _ _ _ (generateQuote_side _ _ _) H) as E.
    split; [apply Hskip; exact (f_equal (fun f => slots (ps_core f.1)) E)|exact (f_equal snd E)].
  - pose proof (keeps_eq _ _ _ _ _ (refreshQuote_side _ _ _) H) as E.
    split; [apply Hskip; exact (f_equal (fun f => slots (ps_core f.1)) E)|exact (f_equal snd E)].
  - split; [apply Hskip, (keeps_eq _ _ _ _ _ (on_pay_slots _ (createOrder_slots _ _ _ _)) H)|].
    by apply zoom_run in H as (t & _ & ->).
  - split; [apply Hskip, (keeps_eq _ _ _ _ _ (on_pay_slots _ (verifyPayment_slots _ _ _ _)) H)|].
    by apply zoom_run in H as (t & _ & ->).
  - split; [apply Hskip, (keeps_eq _ _ _ _ _ (on_pay_slots _ (handleWebhook_slots _ _ _ _)) H)|].
    by apply zoom_run in H as (t & _ & ->).
  - split; [exact (transition_book _ _ _ _ _ H)|]. by apply zoom_run in H as (t & _ & ->).
Qed.

Lemma system_step_book s s' : system_step s s' -> ActiveBook.step (sales_slots s) (sales_slots s').
Proof.
  intros (q & r & H). pose proof (request_frame _ _ _ _ H) as [(env & c & dto & ->)|[Hs _]]; [|by constructor].
  simpl in H. apply discard_run in H as (r0 & H). exact (create_book _ _ _ _ _ _ H).
Qed.

(** C3. No double booking in the system: through any sequence of quotes,
    bookings created, payment orders, verifications, webhooks and lifecycle
    transitions, with whatever clocks, actors and answers of outside
    services, two active bookings of one vehicle (waiting for payment,
    confirmed, ready, ongoing or being returned) never overlap in time; each
    request is a step of the book of reservations, and the bookings that
    occupy a vehicle stay exclusive. *)
Theorem no_overlap_in_system s s' (H0 : ActiveBook.exclusive (sales_slots s)) (H : rtc system_step s s') :
  rtc ActiveBook.step (sales_slots s) (sales_slots s') /\ ActiveBook.exclusive (sales_slots s') /\
  ReservationBook.exclusive (sales_slots s').
Proof.
  assert (rtc ActiveBook.step (sales_slots s) (sales_slots s')) as Hr
    by (revert H; apply rtc_congruence; apply system_step_book).
  assert (ActiveBook.exclusive (sales_slots s')) as Hex
    by exact (rtc_invariant _ _ _ _ ActiveBook.active_step_exclusive Hr H0).
  split_and!; [done..|by apply ActiveBook.exclusive_occupying].
Qed.
End system.

(** ** From the quote to the order *)
Section quoted.
Context {R : Type} {redis : Redis R} {col : NumericColumn} {dec : DecimalArith} {num : DecimalNumbers}.
Implicit Types s : SalesStore R.
Open Scope Q_scope.

(** A quote whose columns are whole paise up to a billion rupees and add up. *)
Record consistent (q : BookingQuote) : Prop := {
  cq_whole : whole_paise (bq_subtotal q) /\ whole_paise (bq_discountTotal q) /\ whole_paise (bq_feesTotal q) /\
             whole_paise (bq_taxTotal q) /\ whole_paise (bq_depositTotal q) /\ whole_paise (bq_netToVendor q);
  cq_fare : Qabs (bq_subtotal q - bq_discountTotal q + bq_feesTotal q + bq_taxTotal q) <= 1000000000;
  cq_sizes : Qabs (bq_depositTotal q) <= 1000000000 /\ Qabs (bq_netToVendor q) <= 1000000000 /\
             Qabs (bq_taxTotal q) <= 1000000000;
  cq_total : bq_totalPayable q ==
    bq_subtotal q - bq_discountTotal q + bq_feesTotal q + bq_taxTotal q + bq_depositTotal q;
}.

Lemma quoted_row env c now dto offer p q : consistent q ->
  let row := bookingRow c dto offer p (Some (priceSnapshot env (accepted_by c now q))) (Some (bq_totalPayable q)) in
  totalExpectedOf row == bq_totalPayable q /\ b_netToVendor row == bq_netToVendor q /\
  b_gstAmount row == bq_taxTotal q /\ depositOf row == bq_depositTotal q /\
  quoteMatches row (totalExpectedOf row) = true.
Proof.
  intros [(W1 & W2 & W3 & W4 & W5 & W6) Hf (Hd & Hn & Ht) Et] row.
  assert (forall x, whole_paise x -> Qabs x <= 1000000000 -> store (of_number (rnd x)) == x) as Hx.
  { intros x Hw Hb. rewrite store_exact; rewrite (number_roundtrip x Hw Hb); [reflexivity|done]. }
  assert (b_totalFare row == bq_subtotal q - bq_discountTotal q + bq_feesTotal q + bq_taxTotal q) as Ef
    by (apply Hx; [auto with dec|done]).
  assert (depositOf row == bq_depositTotal q) as Ed by (by apply Hx).
  assert (totalExpectedOf row == bq_totalPayable q) as Etot by (unfold totalExpectedOf; rewrite Ef, Ed, Et; reflexivity).
  split_and!; try done; try (by apply Hx).
  unfold quoteMatches. change (b_quoteTotal row) with (Some (bq_totalPayable q)). cbv iota beta.
  rewrite (rnd_eq (bq_totalPayable q - totalExpectedOf row) 0) by (rewrite Etot; ring). by vm_compute.
Qed.

Lemma quote_consistent env userId dto offer days hours p : parts_ok p ->
  Qabs (exactFare p) <= 1000000000 ->
  Qabs (qp_initialBaseFare p - qp_durationDiscount p +
        (qp_deliveryFee p + qp_pickupFee p + qp_returnFee p + qp_oneWayFee p)) <= 1000000000 ->
  consistent (quoteRow env userId dto offer days hours p).
Proof.
  intros Hp Hf Hn. destruct (quoteTotals_exact p Hp) as (E1 & E2 & E3 & E4 & E5 & E6 & E7).
  assert (bq_subtotal (quoteRow env userId dto offer days hours p) -
    bq_discountTotal (quoteRow env userId dto offer days hours p) +
    bq_feesTotal (quoteRow env userId dto offer days hours p) +
    bq_taxTotal (quoteRow env userId dto offer days hours p) == exactFare p) as Es.
  { unfold quoteRow. simpl. rewrite E1, E2, E3, E4. unfold exactFare. ring. }
  split.
  - unfold quoteRow. simpl. split_and!; apply store_whole.
  - by rewrite Es.
  - unfold quoteRow. simpl. rewrite E4, E5, E7.
    destruct Hp as [_ _ _ (_ & ? & ?) _ _ _ _ _ _ (_ & ? & ?) _]. split_and!; [by rewrite Qabs_pos|done|by rewrite Qabs_pos].
  - rewrite Es. unfold quoteRow. simpl. by rewrite E5, E6.
Qed.

(** The parts and the amounts made of them fit the columns. *)
Definition parts_fit (p : QuoteParts) : Prop :=
  parts_ok p /\ Qabs (exactFare p) <= 1000000000 /\
  Qabs (qp_initialBaseFare p - qp_durationDiscount p +
        (qp_deliveryFee p + qp_pickupFee p + qp_returnFee p + qp_oneWayFee p)) <= 1000000000.

(** C11. The price quoted is the price booked.  When a quote was priced (its
    parts whole paise, its fare up to a billion rupees) and a customer then
    books with it, the booking's fare and deposit are the quote's total, its
    tax, deposit and vendor net are the quote's to the paisa, although they
    pass through JavaScript numbers, the quote is used up, and the payment
    order's comparison with the quote will accept the total. *)
Theorem quoted_price_is_booked qenv userId qdto s0 id q s env c dto bid s'
    (Hq : priceQuote (R:=R) qenv userId qdto s0 = (Ok (id, q), s))
    (Hfit : forall car offer p, car_of (cq_carId qdto) s0 = Some car -> offer_of (cq_carId qdto) s0 = Some offer ->
       quoteParts qenv userId qdto car offer (unitsOf DAY_MS (cq_endDate qdto - cq_startDate qdto))
         (unitsOf HOUR_MS (cq_endDate qdto - cq_startDate qdto)) s0 = (Ok p, s0) -> parts_fit p)
    (H : createBooking env c dto s = (Ok bid, s'))
    (Hid : truthy (cb_quoteId dto) = Some id) (Hp : ce_hasPricing env = true) :
  exists b, ls_bookings (sales_core s') !! bid = Some b /\ totalExpectedOf b == bq_totalPayable q /\
    b_netToVendor b == bq_netToVendor q /\ b_gstAmount b == bq_taxTotal q /\ depositOf b == bq_depositTotal q /\
    sl_quotes s' !! id = Some (accepted_by c (ce_now env) q) /\ quoteMatches b (totalExpectedOf b) = true.
Proof.
  apply priceQuote_Ok in Hq as (car & offer & p & Hcar & Hoffer & _ & _ & Hparts & -> & -> & ->).
  destruct (Hfit _ _ _ Hcar Hoffer Hparts) as (Hok & Hf & Hn). set (q := quoteRow _ _ _ _ _ _ _) in *.
  assert (consistent q) as Hcon by (by apply quote_consistent).
  apply createBooking_cases in H as [[_ H]|(row & [Hfresh Hb _ _ _ _ _ Hacc Hrow _] & [Hbid|[H _]])]; try done.
  injection Hbid as ->. rewrite Hid, Hp in Hacc. destruct Hacc as (q' & Hq' & _ & Hqs).
  simpl in Hq'. rewrite lookup_insert_eq in Hq'. injection Hq' as <-.
  destruct (Hrow (qe_freshId qenv) q Hid Hp) as (offer' & p' & ->); [simpl; by rewrite lookup_insert_eq|].
  destruct (quoted_row (acceptEnv env) c (ce_now env) dto offer' p' q Hcon) as (T1 & T2 & T3 & T4 & T5).
  eexists. rewrite Hb, Hqs, !lookup_insert_eq. by split_and!.
Qed.
End quoted.

(** ** Concrete runs *)
#[local] Existing Instance plain_bcrypt.
(** Customer "c2" books the trip quoted as "q1", with everything answering. *)
Definition create_env : CreateEnv :=
  {| ce_now := HOUR; ce_later := HOUR + 500; ce_lockUp := true; ce_releaseUp := true; ce_token := "t1";
     ce_bookingId := "b9"; ce_eventId := "ev9"; ce_eligible := Some true; ce_commission := None;
     ce_delivery := qe_delivery (quote_env "q1"); ce_referral := None; ce_hasDepositRules := true;
     ce_depositDefaults := fun _ => None; ce_blocked := false; ce_hasPricing := true; ce_cancelMatrix := None;
     ce_dayStart := fun t => t; ce_dayEnd := fun t => t |}.
Definition booking_dto (quoteId : option string) : CreateBookingDto :=
  {| cb_carId := "car1"; cb_startDate := 240 * HOUR; cb_endDate := 432 * HOUR; cb_tripType := TRIP_SELF_DRIVE;
     cb_quoteId := quoteId; cb_mileagePackageId := None; cb_distanceKm := Some 100%Q; cb_pickupHubId := Some "h1";
     cb_returnHubId := None; cb_deliveryType := Some DEL_DOORSTEP_DELIVERY; cb_deliveryAddress := Some "MG Road 1";
     cb_deliveryLatitude := None; cb_couponCode := None; cb_protectionPackageId := Some "pp1" |}.
Definition create_run : result string * SalesStore RedisMem :=
  createBooking create_env "c2" (booking_dto (Some "q1")) (snd price_run).

Lemma create_booking_all_or_nothing_witness :
  exists row, b_totalFare row == 1084549 # 100 /\ ls_bookings (sales_core (snd create_run)) !! "b9" = Some row.
Proof.
  destruct (create_booking_all_or_nothing create_env "c2" (booking_dto (Some "q1")) (snd price_run) (Ok "b9")
    (snd create_run)) as [[_ H]|(row & [_ H _ _ _ _ _ _ _ _] & _)].
  - apply (run_eq create_run). vm_compute. reflexivity.
  - discriminate H.
  - exists row. assert (ls_bookings (sales_core (snd create_run)) !! "b9" = Some row) as E
      by (rewrite H; apply lookup_insert_eq). split; [|exact E].
    vm_compute in E. injection E as <-. reflexivity.
Defined.

Lemma quoted_price_is_booked_witness :
  exists b, ls_bookings (sales_core (snd create_run)) !! "b9" = Some b /\ totalExpectedOf b == 1484549 # 100 /\
    b_couponId b = None.
Proof.
  destruct (quoted_price_is_booked (quote_env "q1") (Some "c2") trip_dto empty_sales "q1" quoted (snd price_run)
    create_env "c2" (booking_dto (Some "q1")) "b9" (snd create_run)) as (b & H1 & H2 & _).
  - apply (run_eq price_run). vm_compute. reflexivity.
  - intros car offer p H1 H2 H3. vm_compute in H1. injection H1 as <-. vm_compute in H2. injection H2 as <-.
    vm_compute in H3. injection H3 as <-. split; [|split; vm_compute; discriminate].
    split; try (split; [apply is_whole_paise_true; vm_compute; reflexivity|split; vm_compute; discriminate]).
    vm_compute. discriminate.
  - apply (run_eq create_run). vm_compute. reflexivity.
  - reflexivity.
  - reflexivity.
  - exists b. split; [exact H1|]. split.
    + rewrite H2. vm_compute. reflexivity.
    + vm_compute in H1. injection H1 as <-. reflexivity.
Defined.

Lemma exclusive_singleton i x : ActiveBook.exclusive {[i := x]}.
Proof.
  intros i1 i2 x1 x2 Hne H1 H2. apply lookup_singleton_Some in H1 as [<- _], H2 as [<- _]. done.
Qed.
Lemma empty_sales_exclusive : ActiveBook.exclusive (sales_slots empty_sales).
Proof.
  assert (sales_slots empty_sales = {["b1" := {| sl_carId := "car1"; sl_start := 100 * HOUR;
    sl_end := 200 * HOUR; sl_status := BS_PENDING |}]}) as -> by (vm_compute; reflexivity).
  apply exclusive_singleton.
Qed.

Lemma no_overlap_in_system_witness :
  ActiveBook.exclusive (sales_slots (snd create_run)) /\ sales_slots (snd create_run) !! "b9" <> None.
Proof.
  split; [|vm_compute; discriminate].
  assert (rtc (system_step year_month) empty_sales (snd create_run)) as H.
  { apply rtc_l with (snd price_run).
    - exists (ReqQuote (quote_env "q1") (Some "c2") trip_dto), (Ok tt). vm_compute. reflexivity.
    - apply rtc_once. exists (ReqCreate create_env "c2" (booking_dto (Some "q1"))), (Ok tt). vm_compute. reflexivity. }
  destruct (no_overlap_in_system year_month empty_sales (snd create_run) empty_sales_exclusive H) as (_ & Hex & _).
  exact Hex.
Defined.

(** The quote's coupon has lowered the price, but the booking carries no
    coupon: its redemption is never counted. *)
Lemma quoted_coupon_is_not_redeemed :
  qm_couponCode (bq_metadata quoted) = Some "SAVE" /\ d_gt (bq_discountTotal quoted) 0 = true /\
  (b_couponId <$> ls_bookings (sales_core (snd create_run)) !! "b9") = Some None.
Proof. split_and!; vm_compute; reflexivity. Qed.
