(* ===== verification/Resilience.v ===== *)
(** * What protects the calls of outside providers
    (src/car_rental_backend/src/integrations/)

    runtime/failure-classifier.service.ts (classes of failures and what may
    follow them), errors/retry-policy.service.ts (the retry loop),
    runtime/circuit-breaker.service.ts (a breaker per provider),
    runtime/provider-rate-limiter.service.ts (requests per second and minute,
    slots) and the keyed cache of runtime/integration-idempotency.service.ts.
    Each keeps its state in memory; the clock is an argument and the maps are
    finite maps by the keys of the code.  Log lines, the texts of reasons and
    the Redis copy of the cache are left out. *)
From S2P Require Import Prelude JsNumber.
From stdpp Require Import sorting.
Open Scope Z_scope.

(** ** Failure classes: failure-classifier.service.ts *)
Inductive FailureClassification : Type :=
  | FC_TRANSIENT | FC_RATE_LIMITED | FC_TIMEOUT | FC_NETWORK | FC_AUTHENTICATION | FC_INVALID_REQUEST
  | FC_PROVIDER_DECLINED | FC_DUPLICATE | FC_NOT_SUPPORTED | FC_CONFIGURATION | FC_PERMANENT.
#[export] Instance FailureClassification_eq_dec : EqDecision FailureClassification.
Proof. solve_decision. Defined.

(** The subclasses of [IntegrationError] the classifier asks for. *)
Inductive ErrorKind : Type :=
  | EK_RateLimitExceeded | EK_ProviderTimeout | EK_TransientNetwork | EK_Authentication | EK_DuplicateRequest
  | EK_CapabilityNotSupported | EK_ProviderNotConfigured.
(** [isRetryable] of the classes of errors/integration-error.ts. *)
Definition kindRetryable (k : ErrorKind) : bool :=
  match k with
  | EK_RateLimitExceeded | EK_ProviderTimeout | EK_TransientNetwork => true
  | _ => false
  end.

(** An error a provider threw: its class when it is one of ours, its message,
    the code and the status found on it or on its response, the retry-after
    header. *)
Record ProviderFailure : Type := {
  er_kind : option ErrorKind;
  er_code : string;
  er_message : string;
  er_status : option Z;
  er_retryAfter : option string;
  er_retryAfterMs : option Z;
}.

Record ClassificationResult : Type := {
  cl_classification : FailureClassification;
  cl_isRetryable : bool;
  cl_isFallbackEligible : bool;
  cl_retryAfterMs : option Z;
}.
Definition classified (c : FailureClassification) (retry fallback : bool) : ClassificationResult :=
  {| cl_classification := c; cl_isRetryable := retry; cl_isFallbackEligible := fallback; cl_retryAfterMs := None |}.

(** Step 1: the classes of our own. *)
Definition classifyKind (error : ProviderFailure) (k : ErrorKind) : ClassificationResult :=
  match k with
  | EK_RateLimitExceeded =>
    {| cl_classification := FC_RATE_LIMITED; cl_isRetryable := true; cl_isFallbackEligible := true;
       cl_retryAfterMs := er_retryAfterMs error |}
  | EK_ProviderTimeout => classified FC_TIMEOUT true true
  | EK_TransientNetwork => classified FC_NETWORK true true
  | EK_Authentication => classified FC_AUTHENTICATION false true
  | EK_DuplicateRequest => classified FC_DUPLICATE false false
  | EK_CapabilityNotSupported => classified FC_NOT_SUPPORTED false true
  | EK_ProviderNotConfigured => classified FC_CONFIGURATION false true
  end.

Definition mentions (error : ProviderFailure) (word : string) : bool := includes word (lowercase (er_message error)).
Definition hasStatus (error : ProviderFailure) (codes : list Z) : bool :=
  match er_status error with Some st => bool_decide (st ∈ codes) | None => false end.
Definition hasCode (error : ProviderFailure) (codes : list string) : bool := bool_decide (er_code error ∈ codes).

Definition classifyDetails (error : ProviderFailure) : ClassificationResult :=
  match er_kind error with
  | Some k => classifyKind error k
  | None =>
    if hasCode error ["ETIMEDOUT"; "ESOCKETTIMEDOUT"] || mentions error "timeout" || mentions error "timed out" ||
       mentions error "time out" || hasStatus error [504]
    then classified FC_TIMEOUT true true
    else if hasCode error ["ECONNRESET"; "ECONNREFUSED"; "EAI_AGAIN"; "ENOTFOUND"; "EPIPE"] ||
            mentions error "network"
    then classified FC_NETWORK true true
    else if hasStatus error [429] || mentions error "rate limit"
    then {| cl_classification := FC_RATE_LIMITED; cl_isRetryable := true; cl_isFallbackEligible := true;
            cl_retryAfterMs := (fun s => s * 1000) <$> (truthy (er_retryAfter error) ≫= parseInt) |}
    else if hasStatus error [401; 403] || mentions error "unauthorized"
    then classified FC_AUTHENTICATION false true
    else if hasStatus error [409] || mentions error "duplicate"
    then classified FC_DUPLICATE false false
    else if hasStatus error [400; 422] || mentions error "validation"
    then
      if mentions error "declined" || mentions error "insufficient" || mentions error "rejected" ||
         mentions error "expired_card"
      then classified FC_PROVIDER_DECLINED false true
      else classified FC_INVALID_REQUEST false false
    else if match er_status error with Some st => 500 <=? st | None => false end ||
            includes "503" (er_message error) || includes "502" (er_message error) ||
            includes "504" (er_message error) || includes "500" (er_message error) || mentions error "unavailable"
    then classified FC_TRANSIENT true true
    else if mentions error "declined" || mentions error "insufficient" || mentions error "do_not_honor"
    then classified FC_PROVIDER_DECLINED false true
    else classified FC_PERMANENT false false
  end.
Definition classify (error : ProviderFailure) : FailureClassification := cl_classification (classifyDetails error).

(** The two questions asked of a bare class. *)
Definition isRetryable (c : FailureClassification) : bool :=
  bool_decide (c ∈ [FC_TRANSIENT; FC_RATE_LIMITED; FC_TIMEOUT; FC_NETWORK]).
Definition isFallbackEligible (c : FailureClassification) : bool :=
  negb (bool_decide (c ∈ [FC_INVALID_REQUEST; FC_PERMANENT; FC_DUPLICATE])).

(** [Math.pow] on numbers, correctly rounded; [random] is [Math.random()]. *)
Definition js_pow (b : Q) (n : Z) : Q := rnd (Qpower b n).
Definition calculateBackoff (attempt : Z) (error : ProviderFailure) (random baseMs maxMs : Q) : Q :=
  match truthy (er_retryAfter error) ≫= parseInt with
  | Some s => js_min maxMs (inject_Z (s * 1000))
  | None =>
    let exp := js_min maxMs (js_mul baseMs (js_pow 2 attempt)) in
    js_add exp (inject_Z (Qfloor (js_mul random (js_mul exp (1 # 4)))))
  end.

(** ** The retry loop: retry-policy.service.ts *)
Record RetryOptions : Type := {
  ro_maxRetries : Z;
  ro_initialDelayMs : Q;
  ro_maxDelayMs : Q;
  ro_backoffFactor : Q;
  ro_isIdempotent : bool;
}.
Definition DEFAULT_RETRY_OPTIONS (isIdempotent : bool) : RetryOptions :=
  {| ro_maxRetries := 3; ro_initialDelayMs := 200; ro_maxDelayMs := 3000; ro_backoffFactor := 2;
     ro_isIdempotent := isIdempotent |}.

(** What an operation answers or throws; [isRetryableError] is the field of an
    [IntegrationError] and false for other errors. *)
Inductive attempt_result (A E : Type) : Type :=
  | Returned (a : A)
  | Failed (e : E).
Arguments Returned {A E} a.
Arguments Failed {A E} e.

Definition retryDelay (o : RetryOptions) (attempt : Z) (random : Q) : Z :=
  let baseDelay := js_mul (ro_initialDelayMs o) (js_pow (ro_backoffFactor o) (attempt - 1)) in
  let cappedDelay := js_min baseDelay (ro_maxDelayMs o) in
  let jitter := js_mul (js_mul random (rnd (3 # 10))) cappedDelay in
  js_round (js_add cappedDelay jitter).

Section retry.
Context {S A E : Type} (operation : Z -> S -> attempt_result A E * S) (isRetryableError : E -> bool)
  (random : Z -> Q).

(** [while (true)], a turn per attempt; the delays waited are recorded.
    [None]: out of fuel. *)
Fixpoint retryLoop (fuel : nat) (o : RetryOptions) (attempt : Z) (delays : list Z) (s : S)
    : option (attempt_result A E * list Z * S) :=
  match fuel with
  | O => None
  | Datatypes.S fuel' =>
    let attempt := attempt + 1 in
    match operation attempt s with
    | (Returned a, s') => Some (Returned a, delays, s')
    | (Failed err, s') =>
      if negb (ro_isIdempotent o) then Some (Failed err, delays, s')
      else if (ro_maxRetries o <? attempt) || negb (isRetryableError err) then Some (Failed err, delays, s')
      else retryLoop fuel' o attempt (delays ++ [retryDelay o attempt (random attempt)]) s'
    end
  end.
(** The turns the loop can take. *)
Definition retryTurns (o : RetryOptions) : nat :=
  if ro_isIdempotent o then Datatypes.S (Z.to_nat (ro_maxRetries o)) else 1.
Definition executeWithRetry (o : RetryOptions) (s : S) : option (attempt_result A E * list Z * S) :=
  retryLoop (retryTurns o) o 0 [] s.
End retry.

(** ** The circuit breaker: circuit-breaker.service.ts *)
Inductive CircuitState : Type := CB_CLOSED | CB_OPEN | CB_HALF_OPEN.
#[export] Instance CircuitState_eq_dec : EqDecision CircuitState.
Proof. solve_decision. Defined.

Record CircuitBreakerConfig : Type := {
  cb_failureThreshold : Z;
  cb_rollingWindowMs : Z;
  cb_openDurationMs : Z;
  cb_halfOpenProbes : Z;
  cb_successThreshold : Z;
}.
Definition DEFAULT_CIRCUIT_CONFIG : CircuitBreakerConfig :=
  {| cb_failureThreshold := 5; cb_rollingWindowMs := 60000; cb_openDurationMs := 30000; cb_halfOpenProbes := 3;
     cb_successThreshold := 2 |}.

Record Circuit : Type := {
  ci_state : CircuitState;
  ci_failureTimestamps : list Z;
  ci_openedAt : option Z;
  ci_halfOpenProbesCount : Z;
  ci_consecutiveSuccesses : Z;
  ci_config : CircuitBreakerConfig;
}.
Record CircuitStore : Type := {
  cb_circuits : gmap string Circuit;
  cb_providerConfigs : gmap string CircuitBreakerConfig;
}.
Definition set_circuits (m : gmap string Circuit) (s : CircuitStore) : CircuitStore :=
  {| cb_circuits := m; cb_providerConfigs := cb_providerConfigs s |}.

Definition newCircuit (cfg : CircuitBreakerConfig) : Circuit :=
  {| ci_state := CB_CLOSED; ci_failureTimestamps := []; ci_openedAt := None; ci_halfOpenProbesCount := 0;
     ci_consecutiveSuccesses := 0; ci_config := cfg |}.

(** Cooldown over: [openedAt] is set and far enough back. *)
Definition cooledDown (now : Z) (c : Circuit) : bool :=
  match ci_openedAt c with
  | Some t => negb (t =? 0) && (cb_openDurationMs (ci_config c) <=? now - t)
  | None => false
  end.
Definition halfOpened (probes : Z) (c : Circuit) : Circuit :=
  {| ci_state := CB_HALF_OPEN; ci_failureTimestamps := ci_failureTimestamps c; ci_openedAt := ci_openedAt c;
     ci_halfOpenProbesCount := probes; ci_consecutiveSuccesses := 0; ci_config := ci_config c |}.
Definition openedCircuit (now : Z) (c : Circuit) : Circuit :=
  {| ci_state := CB_OPEN; ci_failureTimestamps := ci_failureTimestamps c; ci_openedAt := Some now;
     ci_halfOpenProbesCount := 0; ci_consecutiveSuccesses := 0; ci_config := ci_config c |}.
(** As [openedCircuit], but a trip out of CLOSED leaves the two counters alone. *)
Definition tripped (now : Z) (c : Circuit) : Circuit :=
  {| ci_state := CB_OPEN; ci_failureTimestamps := ci_failureTimestamps c; ci_openedAt := Some now;
     ci_halfOpenProbesCount := ci_halfOpenProbesCount c;
     ci_consecutiveSuccesses := ci_consecutiveSuccesses c; ci_config := ci_config c |}.
Definition with_failures (l : list Z) (c : Circuit) : Circuit :=
  {| ci_state := ci_state c; ci_failureTimestamps := l; ci_openedAt := ci_openedAt c;
     ci_halfOpenProbesCount := ci_halfOpenProbesCount c;
     ci_consecutiveSuccesses := ci_consecutiveSuccesses c; ci_config := ci_config c |}.
Definition with_counts (probes successes : Z) (c : Circuit) : Circuit :=
  {| ci_state := ci_state c; ci_failureTimestamps := ci_failureTimestamps c; ci_openedAt := ci_openedAt c;
     ci_halfOpenProbesCount := probes; ci_consecutiveSuccesses := successes; ci_config := ci_config c |}.

(** The operations on the circuit of a key. *)
Definition probe (now : Z) (c : Circuit) : bool * Circuit :=
  match ci_state c with
  | CB_CLOSED => (true, c)
  | CB_OPEN => if cooledDown now c then (true, halfOpened 1 c) else (false, c)
  | CB_HALF_OPEN =>
    if ci_halfOpenProbesCount c <? cb_halfOpenProbes (ci_config c)
    then (true, with_counts (ci_halfOpenProbesCount c + 1) (ci_consecutiveSuccesses c) c)
    else (false, c)
  end.
Definition succeed (c : Circuit) : Circuit :=
  match ci_state c with
  | CB_HALF_OPEN =>
    if cb_successThreshold (ci_config c) <=? ci_consecutiveSuccesses c + 1 then newCircuit (ci_config c)
    else with_counts (ci_halfOpenProbesCount c) (ci_consecutiveSuccesses c + 1) c
  | CB_CLOSED => with_failures [] c
  | CB_OPEN => c
  end.
Definition withinWindow (w now : Z) (l : list Z) : list Z := List.filter (fun ts => now - ts <=? w) l.
Definition fail (now : Z) (c : Circuit) : Circuit :=
  match ci_state c with
  | CB_HALF_OPEN => openedCircuit now c
  | CB_CLOSED =>
    let l := withinWindow (cb_rollingWindowMs (ci_config c)) now (ci_failureTimestamps c ++ [now]) in
    let c' := with_failures l c in
    if cb_failureThreshold (ci_config c) <=? Z.of_nat (length l) then tripped now c' else c'
  | CB_OPEN => c
  end.
Definition look (now : Z) (c : Circuit) : Circuit :=
  match ci_state c with
  | CB_OPEN => if cooledDown now c then halfOpened 0 c else c
  | _ => c
  end.

(** Keys: a provider, or a category and a provider; [recordFailure] and
    [tripCircuit] take their second argument for a provider only when the first
    is a category. *)
Definition INTEGRATION_CATEGORIES : list string :=
  ["PAYMENT"; "MESSAGING_WHATSAPP"; "MESSAGING_SMS"; "MESSAGING_EMAIL"; "MESSAGING_PUSH"; "VOICE_IVR"; "STORAGE";
   "CDN_IMAGE"; "MAPS"; "ROUTING_DISTANCE"; "PLACES_POI"; "IDENTITY_VERIFICATION"; "DOCUMENT_VERIFICATION"; "OCR";
   "FACE_LIVENESS"; "VEHICLE_TRACKING"; "FLEET_IOT"; "ACCOUNTING"; "ERP"; "TAX_GST"; "INVOICING"; "SEARCH";
   "ANALYTICS"; "CUSTOMER_SUPPORT"; "CRM"; "MARKETING_AUTOMATION"; "AI"; "TRANSLATION"; "ADDRESS_VALIDATION";
   "FRAUD_RISK"; "PAYMENT_RISK"; "OTP"; "VIDEO"; "ESIGNATURE"; "DOCUMENT_GENERATION"; "NOTIFICATION_ORCHESTRATION";
   "WEBHOOK_DELIVERY"; "DATA_EXPORT"; "BANK_ACCOUNT_VERIFICATION"; "PAYOUTS"; "OPEN_BANKING"; "TOLL_FASTAG";
   "FUEL_CHARGING"; "PARKING"; "TRAFFIC"; "WEATHER"; "CALENDAR"; "SOCIAL_CHANNELS"].
Definition normalizeKey (arg1 : string) (arg2 : option string) : string * string :=
  match truthy arg2 with
  | Some p => (lowercase (arg1 +:+ ":" +:+ p), lowercase p)
  | None => (lowercase arg1, lowercase arg1)
  end.
Definition categoryKey (arg1 : string) (arg2 : option string) : string * string :=
  if bool_decide (arg1 ∈ INTEGRATION_CATEGORIES) then normalizeKey arg1 arg2 else normalizeKey arg1 None.

Definition getOrCreate (key : string * string) : M CircuitStore Circuit :=
  s ← get;
  match cb_circuits s !! fst key with
  | Some c => mret c
  | None =>
    let c := newCircuit (default DEFAULT_CIRCUIT_CONFIG (cb_providerConfigs s !! snd key)) in
    modify (set_circuits (<[fst key := c]> (cb_circuits s))) ;; mret c
  end.
Definition putCircuit (key : string * string) (c : Circuit) : M CircuitStore unit :=
  modify (fun s => set_circuits (<[fst key := c]> (cb_circuits s)) s).

(** A partial config: the fields given replace the current ones. *)
Definition setProviderConfig (providerId : string) (change : CircuitBreakerConfig -> CircuitBreakerConfig)
    : M CircuitStore unit :=
  let id := lowercase providerId in
  modify (fun s =>
    let updated := change (default DEFAULT_CIRCUIT_CONFIG (cb_providerConfigs s !! id)) in
    {| cb_circuits := alter (fun c => {| ci_state := ci_state c; ci_failureTimestamps := ci_failureTimestamps c;
                                         ci_openedAt := ci_openedAt c;
                                         ci_halfOpenProbesCount := ci_halfOpenProbesCount c;
                                         ci_consecutiveSuccesses := ci_consecutiveSuccesses c;
                                         ci_config := updated |}) id (cb_circuits s);
       cb_providerConfigs := <[id := updated]> (cb_providerConfigs s) |}).
Definition canExecute (now : Z) (arg1 : string) (arg2 : option string) : M CircuitStore bool :=
  c ← getOrCreate (normalizeKey arg1 arg2);
  putCircuit (normalizeKey arg1 arg2) (snd (probe now c)) ;; mret (fst (probe now c)).
Definition recordSuccess (arg1 : string) (arg2 : option string) : M CircuitStore CircuitState :=
  c ← getOrCreate (normalizeKey arg1 arg2);
  putCircuit (normalizeKey arg1 arg2) (succeed c) ;; mret (ci_state (succeed c)).
Definition recordFailure (now : Z) (arg1 : string) (arg2 : option string) : M CircuitStore CircuitState :=
  c ← getOrCreate (categoryKey arg1 arg2);
  putCircuit (categoryKey arg1 arg2) (fail now c) ;; mret (ci_state (fail now c)).
Definition getState (now : Z) (arg1 : string) (arg2 : option string) : M CircuitStore CircuitState :=
  c ← getOrCreate (normalizeKey arg1 arg2);
  putCircuit (normalizeKey arg1 arg2) (look now c) ;; mret (ci_state (look now c)).
Definition resetCircuit (arg1 : string) (arg2 : option string) : M CircuitStore unit :=
  c ← getOrCreate (normalizeKey arg1 arg2);
  putCircuit (normalizeKey arg1 arg2) (newCircuit (ci_config c)).
Definition tripCircuit (now : Z) (arg1 : string) (arg2 : option string) : M CircuitStore unit :=
  c ← getOrCreate (categoryKey arg1 arg2);
  putCircuit (categoryKey arg1 arg2) (openedCircuit now c).
Definition resetAll : M CircuitStore unit :=
  modify (fun s => set_circuits ((fun c => newCircuit (ci_config c)) <$> cb_circuits s) s).
Definition cooldownRemainingMs (now : Z) (c : Circuit) : Z :=
  match ci_state c, ci_openedAt c with
  | CB_OPEN, Some t => if t =? 0 then 0 else Z.max 0 (cb_openDurationMs (ci_config c) - (now - t))
  | _, _ => 0
  end.

(** ** The rate limiter: provider-rate-limiter.service.ts *)
Record RateLimitConfig : Type := {
  rl_rps : Z;
  rl_rpm : Z;
  rl_burstCapacity : Z;
  rl_concurrencyLimit : Z;
}.
Definition DEFAULT_RATE_LIMIT_CONFIG : RateLimitConfig :=
  {| rl_rps := 50; rl_rpm := 1000; rl_burstCapacity := 20; rl_concurrencyLimit := 15 |}.
Record InFlightTracker : Type := {
  tk_activeCount : Z;
  tk_requestsLastSecond : list Z;
  tk_requestsLastMinute : list Z;
}.
Definition newTracker : InFlightTracker :=
  {| tk_activeCount := 0; tk_requestsLastSecond := []; tk_requestsLastMinute := [] |}.
Record LimiterStore : Type := {
  rl_trackers : gmap string InFlightTracker;
  rl_configs : gmap string RateLimitConfig;
}.
Definition set_tracker (key : string) (t : InFlightTracker) (s : LimiterStore) : LimiterStore :=
  {| rl_trackers := <[key := t]> (rl_trackers s); rl_configs := rl_configs s |}.

Definition num_or_Z (x d : Z) : Z := if x =? 0 then d else x.
Definition limitConfig (s : LimiterStore) (key : string) : RateLimitConfig :=
  default DEFAULT_RATE_LIMIT_CONFIG (rl_configs s !! key).
Definition trackerOf (s : LimiterStore) (key : string) : InFlightTracker := default newTracker (rl_trackers s !! key).
Definition secondLimit (c : RateLimitConfig) : Z := num_or_Z (num_or_Z (rl_rps c) (rl_burstCapacity c)) 50.
Definition recent (w now : Z) (l : list Z) : list Z := List.filter (fun ts => now - ts <? w) l.

Definition isAllowed (now : Z) (providerId : string) : M LimiterStore bool := fun s =>
  let key := lowercase providerId in
  let config := limitConfig s key in
  let tracker := trackerOf s key in
  let second := recent 1000 now (tk_requestsLastSecond tracker) in
  let minute := recent 60000 now (tk_requestsLastMinute tracker) in
  let put (second minute : list Z) :=
    set_tracker key {| tk_activeCount := tk_activeCount tracker; tk_requestsLastSecond := second;
                       tk_requestsLastMinute := minute |} s in
  if secondLimit config <=? Z.of_nat (length second) then (Ok false, put second minute)
  else if negb (rl_rpm config =? 0) && (rl_rpm config <=? Z.of_nat (length minute)) then (Ok false, put second minute)
  else (Ok true, put (second ++ [now]) (minute ++ [now])).

Definition with_active (n : Z) (t : InFlightTracker) : InFlightTracker :=
  {| tk_activeCount := n; tk_requestsLastSecond := tk_requestsLastSecond t;
     tk_requestsLastMinute := tk_requestsLastMinute t |}.
Definition acquireConcurrency (providerId : string) : M LimiterStore bool := fun s =>
  let key := lowercase providerId in
  let tracker := trackerOf s key in
  if num_or_Z (rl_concurrencyLimit (limitConfig s key)) 15 <=? tk_activeCount tracker
  then (Ok false, set_tracker key tracker s)
  else (Ok true, set_tracker key (with_active (tk_activeCount tracker + 1) tracker) s).
Definition releaseConcurrency (providerId : string) : M LimiterStore unit := fun s =>
  let key := lowercase providerId in
  match rl_trackers s !! key with
  | Some tracker =>
    if 0 <? tk_activeCount tracker
    then (Ok tt, set_tracker key (with_active (tk_activeCount tracker - 1) tracker) s)
    else (Ok tt, s)
  | None => (Ok tt, s)
  end.
Definition setLimitConfig (key : string) (change : RateLimitConfig -> RateLimitConfig) : M LimiterStore unit :=
  modify (fun s => {| rl_trackers := rl_trackers s;
                      rl_configs := <[lowercase key := change (limitConfig s (lowercase key))]> (rl_configs s) |}).
Definition clearAll : M LimiterStore unit :=
  modify (fun s => {| rl_trackers := ∅; rl_configs := rl_configs s |}).
(** [acquire]: the rate first, then a slot; the wait it suggests. *)
Definition acquireSlot (now : Z) (providerId : string) : M LimiterStore (bool * option Z) :=
  allowed ← isAllowed now providerId;
  match allowed with
  | true =>
    slot ← acquireConcurrency providerId;
    mret (match slot with true => (true, None) | false => (false, Some 100) end)
  | false => mret (false, Some 200)
  end.

(** ** The idempotency cache: integration-idempotency.service.ts *)
(** What a provider answers: nothing, a value that counts as false or true, or
    an object with perhaps a [data] field. *)
Inductive Json : Type :=
  | J_undefined
  | J_null
  | J_scalar (isTrue : bool) (text : string)
  | J_object (text : string) (data : option Json).
Definition json_truthy (j : Json) : bool :=
  match j with J_undefined | J_null => false | J_scalar b _ => b | J_object _ _ => true end.
(** [j?.data ?? j] *)
Definition json_data_or_self (j : Json) : Json :=
  match j with
  | J_object _ (Some J_undefined) | J_object _ (Some J_null) => j
  | J_object _ (Some d) => d
  | _ => j
  end.

Record CachedEntry : Type := { ce_result : Json; ce_timestamp : Z }.
Definition IDEMPOTENCY_TTL_MS : Z := 86400000.
Abbreviation Cache := (gmap string CachedEntry).

(** [null] when absent; an expired entry is removed. *)
Definition checkIdempotency (now : Z) (key : string) : M Cache Json :=
  s ← get;
  match s !! lowercase key with
  | Some entry =>
    if now - ce_timestamp entry <? IDEMPOTENCY_TTL_MS then mret (json_data_or_self (ce_result entry))
    else modify (fun m : Cache => delete (lowercase key) m) ;; mret J_null
  | None => mret J_null
  end.
Definition cacheSuccess (now : Z) (key : string) (data : Json) : M Cache unit :=
  modify (fun m : Cache => <[lowercase key := {| ce_result := data; ce_timestamp := now |}]> m).

(** ** The retry loop *)
Section retry_laws.
Context {S A E : Type} (operation : Z -> S -> attempt_result A E * S) (isRetryableError : E -> bool)
  (random : Z -> Q).
Implicit Types (s : S) (o : RetryOptions).

(** [errs] are the failures of the attempts after the [n]-th, one after the
    other and all of them retryable. *)
Inductive tried : Z -> S -> list E -> Z -> S -> Prop :=
  | tried_none n s : tried n s [] n s
  | tried_again n s e s1 errs m s' : operation (n + 1) s = (Failed e, s1) -> isRetryableError e = true ->
      tried (n + 1) s1 errs m s' -> tried n s (e :: errs) m s'.

(** Why the loop ends. *)
Definition retry_over (o : RetryOptions) (retried : Z) (r : attempt_result A E) : Prop :=
  match r with
  | Returned _ => True
  | Failed e => ro_isIdempotent o = false \/ isRetryableError e = false \/ Z.max 0 (ro_maxRetries o) <= retried
  end.

Lemma retryLoop_run o fuel : forall n ds s, 0 <= n ->
  (if ro_isIdempotent o then Z.max 0 (ro_maxRetries o) - n < Z.of_nat fuel else (0 < fuel)%nat) ->
  n <= Z.max 0 (ro_maxRetries o) ->
  exists r errs extra m s1 s', retryLoop operation isRetryableError random fuel o n ds s = Some (r, ds ++ extra, s') /\
    tried n s errs m s1 /\ operation (m + 1) s1 = (r, s') /\ m = n + Z.of_nat (length errs) /\
    extra = map (fun k => retryDelay o k (random k)) (map (fun i => n + Z.of_nat i) (seq 1 (length errs))) /\
    m <= Z.max 0 (ro_maxRetries o) /\ (ro_isIdempotent o = false -> errs = []) /\ retry_over o m r.
Proof.
  induction fuel as [|fuel IH]; intros n ds s Hn Hf Hm; [destruct (ro_isIdempotent o); lia|]. simpl.
  assert (Hstop : forall r s', operation (n + 1) s = (r, s') -> retry_over o n r ->
    exists r' errs extra m s1 s'', Some (r, ds, s') = Some (r', ds ++ extra, s'') /\
      tried n s errs m s1 /\ operation (m + 1) s1 = (r', s'') /\ m = n + Z.of_nat (length errs) /\
      extra = map (fun k => retryDelay o k (random k)) (map (fun i => n + Z.of_nat i) (seq 1 (length errs))) /\
      m <= Z.max 0 (ro_maxRetries o) /\ (ro_isIdempotent o = false -> errs = []) /\ retry_over o m r').
  { intros r s' Hop Hr. exists r, [], [], n, s, s'. rewrite app_nil_r. split_and!; try done; [constructor|simpl; lia]. }
  destruct (operation (n + 1) s) as [[a|e] s'] eqn:Hop; [by eapply Hstop|].
  destruct (ro_isIdempotent o) eqn:Hi; simpl; [|eapply Hstop; [done|by left]].
  destruct (ro_maxRetries o <? n + 1) eqn:Ha; simpl.
  { apply Z.ltb_lt in Ha. eapply Hstop; [done|right; right; lia]. }
  apply Z.ltb_ge in Ha. destruct (isRetryableError e) eqn:He; simpl; [|eapply Hstop; [done|by right; left]].
  destruct (IH (n + 1) (ds ++ [retryDelay o (n + 1) (random (n + 1))]) s') as
    (r & errs & extra & m & s1 & s2 & Hrun & Ht & Hlast & Hlen & -> & Hmm & Hne & Hov); [lia|lia|lia|].
  eexists r, (e :: errs), (_ :: _), m, s1, s2. split_and!; [| |done| | |done|by intros; specialize (Hne ltac:(done))|done].
  - rewrite Hrun, <- app_assoc. simpl. reflexivity.
  - by econstructor.
  - simpl length. lia.
  - simpl. f_equal. rewrite <- (seq_shift (length errs) 1), !map_map. apply map_ext. intros i.
    by replace (n + Z.of_nat (Datatypes.S i)) with (n + 1 + Z.of_nat i) by lia.
Qed.
End retry_laws.

Open Scope Q_scope.
Lemma rnd_sign x : 0 <= x -> 0 <= rnd x.
Proof.
  intros H. destruct (Qeq_dec x 0) as [E|E]; [by rewrite E|]. pose proof (rnd_err x) as He.
  rewrite (Qabs_pos x) in He by done. apply Qabs_Qle_condition in He as [He _].
  assert (pow2 (-53) <= 1) by (unfold pow2; discriminate). pose proof (pow2_pos (-53)). nra.
Qed.
Lemma rnd_up x b : 0 <= x -> x <= b -> rnd x <= b * (101 # 100).
Proof.
  intros H0 H. assert (Qabs x <= b) as Hb by (by rewrite Qabs_pos). pose proof (rnd_close x b Hb) as He.
  apply Qabs_Qle_condition in He as [_ He].
  assert (pow2 (-53) <= 1 # 100) by (unfold pow2; discriminate). nra.
Qed.
Lemma js_mul_range a A b B : 0 <= a -> a <= A -> 0 <= b -> b <= B ->
  0 <= js_mul a b /\ js_mul a b <= A * B * (101 # 100).
Proof.
  intros Ha0 Ha Hb0 Hb. unfold js_mul. assert (0 <= a * b) as H0 by (by apply Qmult_le_0_compat).
  assert (a * b <= A * B) as H1 by (apply Qmult_le_compat_nonneg; by split).
  split; [by apply rnd_sign|by apply rnd_up].
Qed.
(** A delay is not negative and at most four tenths above the cap. *)
Lemma retryDelay_bounds o attempt r : 0 <= ro_initialDelayMs o -> 0 <= ro_backoffFactor o -> 0 <= ro_maxDelayMs o ->
  0 <= r -> r <= 1 ->
  (0 <= retryDelay o attempt r)%Z /\ inject_Z (retryDelay o attempt r) <= (14 # 10) * ro_maxDelayMs o + 1.
Proof.
  intros Hi Hb Hm Hr0 Hr1. unfold retryDelay. set (base := js_mul _ _).
  assert (0 <= base) as Hbase.
  { apply rnd_sign, Qmult_le_0_compat; [done|]. apply rnd_sign, Qpower_pos. done. }
  set (c := js_min base (ro_maxDelayMs o)).
  assert (0 <= c /\ c <= ro_maxDelayMs o) as [Hc0 Hc1].
  { unfold c, js_min. destruct (Qle_bool _ _) eqn:E; [apply Qle_bool_iff in E; done|split; lra]. }
  clearbody c base. set (m := ro_maxDelayMs o) in *. clearbody m.
  destruct (js_mul_range r 1 (rnd (3 # 10)) (31 # 100)) as [Hj0 Hj1];
    [done|done|by vm_compute|by vm_compute|].
  set (j := js_mul r _) in *. clearbody j.
  destruct (js_mul_range j (32 # 100) c m) as [Hk0 Hk1]; [done| |done|done|].
  { eapply Qle_trans; [exact Hj1|discriminate]. }
  set (k := js_mul j c) in *. clearbody k.
  assert (0 <= js_add c k /\ js_add c k <= (14 # 10) * m) as [Hl0 Hl1].
  { split; [apply rnd_sign; lra|]. eapply Qle_trans; [apply (rnd_up _ ((133 # 100) * m)); lra|lra]. }
  set (l := js_add c k) in *. clearbody l.
  unfold js_round. split.
  - change 0%Z with (Qfloor 0). apply Qfloor_resp_le. lra.
  - pose proof (Qfloor_le (l + (1 # 2))). lra.
Qed.
Open Scope Z_scope.

Section retry_property.
Context {S A E : Type} (operation : Z -> S -> attempt_result A E * S) (isRetryableError : E -> bool)
  (random : Z -> Q).

(** C36. The retry loop ends and repeats only what may be repeated.  Whatever
    the operation does, the loop returns after at most one turn more than the
    retries allowed (with more fuel nothing changes): every failure it retried
    was retryable, an operation that is not idempotent ran exactly once, and a
    failure it gives back is one that may not be retried or the last one
    allowed.  It waits once per retry, never less than nothing and at most
    four tenths above the cap. *)
Theorem retry_terminates (o : RetryOptions) (s : S) (fuel : nat) : (retryTurns o <= fuel)%nat ->
  exists r ds s' errs m s1, executeWithRetry operation isRetryableError random o s = Some (r, ds, s') /\
    retryLoop operation isRetryableError random fuel o 0 [] s = Some (r, ds, s') /\
    tried operation isRetryableError 0 s errs m s1 /\ operation (m + 1) s1 = (r, s') /\
    m = Z.of_nat (length errs) /\ m <= Z.max 0 (ro_maxRetries o) /\
    (ro_isIdempotent o = false -> errs = []) /\ retry_over isRetryableError o m r /\ length ds = length errs /\
    ((0 <= ro_initialDelayMs o)%Q -> (0 <= ro_backoffFactor o)%Q -> (0 <= ro_maxDelayMs o)%Q ->
     (forall k, 0 <= random k /\ random k <= 1)%Q ->
     Forall (fun d => 0 <= d /\ (inject_Z d <= (14 # 10) * ro_maxDelayMs o + 1)%Q) ds).
Proof.
  intros Hfuel. unfold executeWithRetry, retryTurns in *.
  assert (Hrun : forall f, ((if ro_isIdempotent o then Datatypes.S (Z.to_nat (ro_maxRetries o)) else 1) <= f)%nat ->
    if ro_isIdempotent o then Z.max 0 (ro_maxRetries o) - 0 < Z.of_nat f else (0 < f)%nat)
    by (intros f; destruct (ro_isIdempotent o); lia).
  destruct (retryLoop_run operation isRetryableError random o fuel 0 [] s) as
    (r & errs & extra & m & s1 & s' & H1 & Ht & Hop & Hm & Hds & Hle & Hne & Hov); [lia|by apply Hrun|lia|].
  destruct (retryLoop_run operation isRetryableError random o
    (if ro_isIdempotent o then Datatypes.S (Z.to_nat (ro_maxRetries o)) else 1) 0 [] s) as
    (r2 & errs2 & extra2 & m2 & s2 & s2' & H2 & Ht2 & Hop2 & Hm2 & Hds2 & _); [lia|by apply Hrun|lia|].
  assert (Hmono : forall f g n ds t x, (f <= g)%nat ->
    retryLoop operation isRetryableError random f o n ds t = Some x ->
    retryLoop operation isRetryableError random g o n ds t = Some x).
  { clear. intros f. induction f as [|f IH]; [done|]. intros [|g] n ds t x Hfg; [lia|]. simpl.
    destruct (operation (n + 1) t) as [[a|e] t']; [done|]. repeat case_match; try done. apply IH. lia. }
  rewrite (Hmono _ _ _ _ _ _ Hfuel H2) in H1. injection H1 as <- <- <-. simpl in *.
  exists r2, extra2, s2', errs, m, s1. split_and!; try done; [by apply Hmono with (1 := Hfuel)| |].
  - apply (f_equal length) in Hds. by rewrite !length_map, length_seq in Hds.
  - intros Hi Hb Hx Hr. rewrite Hds. apply Forall_forall. intros d Hd.
    apply list_elem_of_In, in_map_iff in Hd as (k & <- & _).
    destruct (Hr k). by apply retryDelay_bounds.
Qed.
End retry_property.

(** ** The circuit breaker *)
(** The calls services make with a provider's id. *)
Inductive circuit_call : Type :=
  | CC_can (p : string)
  | CC_success (p : string)
  | CC_failure (p : string)
  | CC_state (p : string).
Definition call_provider (c : circuit_call) : string :=
  match c with CC_can p | CC_success p | CC_failure p | CC_state p => p end.
(** A call at a time; [canExecute] has an answer. *)
Definition run_circuit (now : Z) (c : circuit_call) : M CircuitStore (option bool) :=
  match c with
  | CC_can p => b ← canExecute now p None; mret (Some b)
  | CC_success p => recordSuccess p None ;; mret None
  | CC_failure p => recordFailure now p None ;; mret None
  | CC_state p => getState now p None ;; mret None
  end.
Definition circuit_effect (now : Z) (call : circuit_call) (c : Circuit) : option bool * Circuit :=
  match call with
  | CC_can _ => (Some (fst (probe now c)), snd (probe now c))
  | CC_success _ => (None, succeed c)
  | CC_failure _ => (None, fail now c)
  | CC_state _ => (None, look now c)
  end.

(** The circuit of a provider, which is new when it has none. *)
Definition circuit_at (p : string) (s : CircuitStore) : Circuit :=
  default (newCircuit (default DEFAULT_CIRCUIT_CONFIG (cb_providerConfigs s !! lowercase p)))
    (cb_circuits s !! lowercase p).

Lemma getOrCreate_run p s : exists s1, getOrCreate (normalizeKey p None) s = (Ok (circuit_at p s), s1) /\
  cb_providerConfigs s1 = cb_providerConfigs s /\ forall k, k <> lowercase p -> cb_circuits s1 !! k = cb_circuits s !! k.
Proof.
  unfold getOrCreate, circuit_at. simpl. step. destruct (cb_circuits s !! lowercase p) as [c|] eqn:E; step.
  - by exists s.
  - eexists. split_and!; [reflexivity|done|]. intros k Hk. simpl. by rewrite lookup_insert_ne.
Qed.

Lemma categoryKey_provider p : categoryKey p None = normalizeKey p None.
Proof. unfold categoryKey. by case_bool_decide. Qed.

(** A call acts on the circuit of its provider alone. *)
Lemma run_circuit_at now call s : exists s',
  run_circuit now call s = (Ok (fst (circuit_effect now call (circuit_at (call_provider call) s))), s') /\
  cb_circuits s' !! lowercase (call_provider call) = Some (snd (circuit_effect now call (circuit_at (call_provider call) s))) /\
  cb_providerConfigs s' = cb_providerConfigs s /\
  forall k, k <> lowercase (call_provider call) -> cb_circuits s' !! k = cb_circuits s !! k.
Proof.
  destruct (getOrCreate_run (call_provider call) s) as (s1 & H1 & Hc & Hk).
  assert (Hput : forall c, exists s', putCircuit (normalizeKey (call_provider call) None) c s1 = (Ok tt, s') /\
    cb_circuits s' !! lowercase (call_provider call) = Some c /\ cb_providerConfigs s' = cb_providerConfigs s /\
    forall k, k <> lowercase (call_provider call) -> cb_circuits s' !! k = cb_circuits s !! k).
  { intros c. eexists. split_and!; [reflexivity|simpl; by rewrite lookup_insert_eq|done|].
    intros k Hne. simpl. rewrite lookup_insert_ne by done. by apply Hk. }
  destruct (Hput (snd (circuit_effect now call (circuit_at (call_provider call) s)))) as (s' & Hp & Hs').
  exists s'. split; [|done].
  destruct call as [p|p|p|p]; simpl in *; unfold canExecute, recordSuccess, recordFailure, getState;
    rewrite ?categoryKey_provider, !bind_run, H1, bind_run, Hp; reflexivity.
Qed.

(** A run: the answers given for a provider, and the store after it. *)
Fixpoint run_circuits (p : string) (l : list (Z * circuit_call)) (s : CircuitStore) : list bool * CircuitStore :=
  match l with
  | [] => ([], s)
  | (now, call) :: l' =>
    let '(r, s1) := run_circuit now call s in
    let '(answers, s2) := run_circuits p l' s1 in
    (match r with
     | Ok (Some b) => if String.eqb (lowercase (call_provider call)) (lowercase p) then b :: answers else answers
     | _ => answers
     end, s2)
  end.
Definition granted (answers : list bool) : Z := Z.of_nat (length (List.filter id answers)).

(** A result of [p] is not yet in. *)
Definition no_result (p : string) (call : circuit_call) : Prop :=
  match call with
  | CC_success q | CC_failure q => lowercase q <> lowercase p
  | _ => True
  end.

(** The requests a circuit may still let through before a result is in. *)
Definition trial_budget (c : Circuit) : Z :=
  match ci_state c with
  | CB_OPEN => Z.max 1 (cb_halfOpenProbes (ci_config c))
  | CB_HALF_OPEN => Z.max 0 (cb_halfOpenProbes (ci_config c) - ci_halfOpenProbesCount c)
  | CB_CLOSED => 0
  end.
Lemma trial_step now p c call : ci_state c <> CB_CLOSED -> no_result p call -> lowercase (call_provider call) = lowercase p ->
  let '(r, c') := circuit_effect now call c in
  ci_state c' <> CB_CLOSED /\ (match r with Some true => 1 | _ => 0 end) + trial_budget c' <= trial_budget c /\
  (ci_state c = CB_OPEN -> cooledDown now c = false -> c' = c /\ r <> Some true).
Proof.
  intros Hst Hn Hp. destruct call as [q|q|q|q]; simpl in *; try done;
    unfold probe, look, trial_budget; destruct (ci_state c) eqn:E; try done;
    try (destruct (cooledDown now c) eqn:Ec); simpl; rewrite ?E; split_and!; try done; try lia;
    destruct (_ <? _) eqn:Hlt; simpl; rewrite ?E; try done; lia.
Qed.

Lemma run_circuits_trial p l : forall s d, cb_circuits s !! lowercase p = Some d -> ci_state d <> CB_CLOSED ->
  Forall (fun x => no_result p (snd x)) l ->
  granted (fst (run_circuits p l s)) <= trial_budget d.
Proof.
  induction l as [|[now call] l IH]; intros s d Hd Hst Hl.
  { unfold granted, trial_budget. simpl. destruct (ci_state d); lia. }
  apply Forall_cons in Hl as [Hc Hl]. simpl in Hc |- *.
  destruct (run_circuit_at now call s) as (s' & -> & Hat & _ & Hother).
  destruct (run_circuits p l s') as [answers s2] eqn:El.
  destruct (decide (lowercase (call_provider call) = lowercase p)) as [E|E].
  - rewrite E, String.eqb_refl. unfold circuit_at in *. rewrite E, Hd in *. simpl in Hat |- *.
    pose proof (trial_step now p d call Hst Hc E) as Ht. destruct (circuit_effect now call d) as [r d'].
    destruct Ht as (Hst' & Hb & _). specialize (IH s' d' Hat Hst' Hl). rewrite El in IH. simpl in *.
    destruct r as [[|]|]; unfold granted in *; simpl; lia.
  - rewrite <- Hother in Hd by congruence.
    specialize (IH s' d Hd Hst Hl). rewrite El in IH. simpl in *.
    destruct (fst (circuit_effect _ _ _)); [|done]. by rewrite (proj2 (String.eqb_neq _ _) E).
Qed.

Lemma open_step now t d call : ci_state d = CB_OPEN -> ci_openedAt d = Some t ->
  now - t < cb_openDurationMs (ci_config d) -> exists r, circuit_effect now call d = (r, d) /\ r <> Some true.
Proof.
  intros Hst Ht Hnow. assert (cooledDown now d = false) as Hc.
  { unfold cooledDown. rewrite Ht. rewrite andb_false_iff, Z.leb_gt. by right. }
  destruct call; simpl; unfold probe, succeed, fail, look; rewrite Hst, ?Hc; by eexists.
Qed.
Lemma run_circuits_open p t d l : ci_state d = CB_OPEN -> ci_openedAt d = Some t ->
  Forall (fun x => fst x - t < cb_openDurationMs (ci_config d)) l ->
  forall s, cb_circuits s !! lowercase p = Some d ->
  granted (fst (run_circuits p l s)) = 0 /\ cb_circuits (snd (run_circuits p l s)) !! lowercase p = Some d.
Proof.
  intros Hst Ht. induction l as [|[now call] l IH]; intros Hl s Hd; [done|].
  apply Forall_cons in Hl as [Hnow Hl]. simpl in Hnow |- *.
  destruct (run_circuit_at now call s) as (s' & -> & Hat & _ & Hother).
  destruct (decide (lowercase (call_provider call) = lowercase p)) as [E|E].
  - rewrite E, String.eqb_refl. unfold circuit_at in *. rewrite E, Hd in *. simpl in Hat |- *.
    destruct (open_step now t d call Hst Ht Hnow) as (r & Hr & Hne). rewrite Hr in *. simpl in *.
    destruct (IH Hl s' Hat) as [IH1 IH2]. destruct (run_circuits p l s') as [answers s2]. simpl in *.
    split; [|done]. destruct r as [[|]|]; done.
  - rewrite <- Hother in Hd by congruence. destruct (IH Hl s' Hd) as [IH1 IH2].
    destruct (run_circuits p l s') as [answers s2]. simpl in *. split; [|done].
    destruct (fst (circuit_effect _ _ _)); [|done]. by rewrite (proj2 (String.eqb_neq _ _) E).
Qed.
(** Successes close a half-open circuit. *)
Lemma successes_close n c : ci_state c = CB_HALF_OPEN -> (0 < n)%nat ->
  cb_successThreshold (ci_config c) <= ci_consecutiveSuccesses c + Z.of_nat n ->
  Nat.iter n succeed c = newCircuit (ci_config c) \/
  (exists k, (k < n)%nat /\ Nat.iter k succeed c = newCircuit (ci_config c)).
Proof.
  revert c. induction n as [|n IH]; intros c Hst Hn Hle; [lia|].
  destruct (decide (cb_successThreshold (ci_config c) <= ci_consecutiveSuccesses c + 1)) as [E|E].
  - assert (succeed c = newCircuit (ci_config c)) as Hs.
    { unfold succeed. rewrite Hst. by rewrite (proj2 (Z.leb_le _ _) E). }
    destruct n; [by left|right]. exists 1%nat. split; [lia|done].
  - assert (succeed c = with_counts (ci_halfOpenProbesCount c) (ci_consecutiveSuccesses c + 1) c) as Hs.
    { unfold succeed. rewrite Hst. by rewrite (proj2 (Z.leb_gt _ _)) by lia. }
    destruct (IH (succeed c)) as [H|(k & Hk & H)].
    + rewrite Hs. done.
    + lia.
    + rewrite Hs. simpl. lia.
    + left. rewrite Nat.iter_succ_r, H, Hs. done.
    + right. exists (S k). split; [lia|]. rewrite Nat.iter_succ_r, H, Hs. done.
Qed.

(** An open circuit protects its provider.  While the cooldown lasts no
    request is let through and nothing, not even a late result, changes the
    circuit, whatever calls for whatever providers come; afterwards, until a
    result is in, at most the configured number of probes passes (one when
    none is configured), and a request does pass; and as many successes as
    configured then close the circuit without a memory of its failures. *)
Theorem open_circuit_protects p t d l s : cb_circuits s !! lowercase p = Some d ->
  ci_state d = CB_OPEN -> ci_openedAt d = Some t ->
  (Forall (fun x => fst x - t < cb_openDurationMs (ci_config d)) l ->
   granted (fst (run_circuits p l s)) = 0 /\ cb_circuits (snd (run_circuits p l s)) !! lowercase p = Some d) /\
  (Forall (fun x => no_result p (snd x)) l ->
   granted (fst (run_circuits p l s)) <= Z.max 1 (cb_halfOpenProbes (ci_config d))) /\
  (forall now, t <> 0 -> cb_openDurationMs (ci_config d) <= now - t ->
   exists s1 c1, canExecute now p None s = (Ok true, s1) /\ cb_circuits s1 !! lowercase p = Some c1 /\
     ci_state c1 = CB_HALF_OPEN /\
     exists k, Z.of_nat k <= Z.max 1 (cb_successThreshold (ci_config d)) /\
       Nat.iter k succeed c1 = newCircuit (ci_config d)).
Proof.
  intros Hd Hst Ht. split_and!.
  - intros Hl. by apply (run_circuits_open p t d).
  - intros Hl. pose proof (run_circuits_trial p l s d Hd ltac:(congruence) Hl) as H.
    unfold trial_budget in H. by rewrite Hst in H.
  - intros now Ht0 Hnow. destruct (run_circuit_at now (CC_can p) s) as (s1 & H & Hat & _).
    unfold circuit_at in *. simpl in *. rewrite Hd in *. simpl in *.
    assert (probe now d = (true, halfOpened 1 d)) as Hp.
    { unfold probe, cooledDown. rewrite Hst, Ht, (proj2 (Z.eqb_neq _ _) Ht0), (proj2 (Z.leb_le _ _) Hnow). done. }
    rewrite Hp in *. apply bind_Ok in H as (b & s2 & Hcan & H). rewrite ret_run in H. simplify_eq/=.
    exists s1, (halfOpened 1 d). split_and!; try done.
    destruct (successes_close (Z.to_nat (Z.max 1 (cb_successThreshold (ci_config d)))) (halfOpened 1 d))
      as [H|(k & Hk & H)]; [done|lia|simpl; lia| |]; eexists; (split; [|exact H]); lia.
Qed.

(** ** When a circuit trips *)
(** Results of a provider: success or failure, with their times. *)
Definition result_effect (c : Circuit) (r : bool * Z) : Circuit := if fst r then succeed c else fail (snd r) c.
Definition after_results (l : list (bool * Z)) (c : Circuit) : Circuit := fold_left result_effect l c.

(** The reference: the failures since the last success. *)
Fixpoint since_success (l : list (bool * Z)) (acc : list Z) : list Z :=
  match l with
  | [] => acc
  | (true, _) :: l' => since_success l' []
  | (false, t) :: l' => since_success l' (acc ++ [t])
  end.
(** Some failure was the last of [failureThreshold] ones since the last
    success and within the window before it. *)
Definition overrun (cfg : CircuitBreakerConfig) (l : list (bool * Z)) : Prop :=
  exists l1 t l2, l = l1 ++ (false, t) :: l2 /\
    cb_failureThreshold cfg <= Z.of_nat (length (withinWindow (cb_rollingWindowMs cfg) t (since_success (l1 ++ [(false, t)]) []))).

Lemma since_success_snoc l r acc : since_success (l ++ [r]) acc =
  if fst r then [] else since_success l acc ++ [snd r].
Proof.
  revert acc. induction l as [|[[|] t] l IH]; intros acc; simpl; [by destruct r as [[|] t]|apply IH|apply IH].
Qed.
Lemma withinWindow_twice w t1 t2 l : t1 <= t2 -> withinWindow w t2 (withinWindow w t1 l) = withinWindow w t2 l.
Proof.
  intros Ht. induction l as [|x l IH]; [done|]. simpl. destruct (t1 - x <=? w) eqn:E1; simpl.
  - destruct (t2 - x <=? w); by rewrite IH.
  - apply Z.leb_gt in E1. by rewrite (proj2 (Z.leb_gt (t2 - x) w)) by lia.
Qed.
Lemma withinWindow_app w t l1 l2 : withinWindow w t (l1 ++ l2) = withinWindow w t l1 ++ withinWindow w t l2.
Proof. apply List.filter_app. Qed.

Lemma overrun_snoc cfg l r : overrun cfg (l ++ [r]) <->
  overrun cfg l \/ (fst r = false /\ cb_failureThreshold cfg <=
    Z.of_nat (length (withinWindow (cb_rollingWindowMs cfg) (snd r) (since_success l [] ++ [snd r])))).
Proof.
  split.
  - intros (l1 & t & l2 & E & H). destruct l2 as [|x l2 _] using rev_ind.
    + apply app_inj_tail in E as [-> ->]. right. split; [done|]. by rewrite since_success_snoc in H.
    + left. exists l1, t, l2. split; [|done]. rewrite app_comm_cons, app_assoc in E. by apply app_inj_tail in E as [-> _].
  - intros [(l1 & t & l2 & -> & H)|[Hf H]].
    + exists l1, t, (l2 ++ [r]). split; [|done]. by rewrite <- app_assoc.
    + exists l, (snd r), []. destruct r as [b t]. simpl in *. subst. split; [done|]. by rewrite since_success_snoc.
Qed.

(** The circuit after the results, while none of them overran. *)
Lemma after_results_spec cfg l last : StronglySorted Z.le (map snd l) -> Forall (fun r => snd r <= last) l ->
  let c := after_results l (newCircuit cfg) in
  ci_config c = cfg /\
  ((ci_state c = CB_OPEN /\ overrun cfg l) \/
   (ci_state c = CB_CLOSED /\ ~ overrun cfg l /\ ci_openedAt c = None /\
    forall now, last <= now -> withinWindow (cb_rollingWindowMs cfg) now (ci_failureTimestamps c) =
      withinWindow (cb_rollingWindowMs cfg) now (since_success l []))).
Proof.
  revert last. induction l as [|r l IH] using rev_ind; intros last Hs Hlast; simpl.
  { split; [done|]. right. split_and!; try done. intros (l1 & t & l2 & E & _). by destruct l1. }
  unfold after_results. rewrite fold_left_app. simpl. fold (after_results l (newCircuit cfg)).
  rewrite map_app in Hs. apply Forall_app in Hlast as [Hlast Hr]. apply Forall_cons in Hr as [Hr _]. simpl in Hr.
  assert (StronglySorted Z.le (map snd l) /\ Forall (fun x => snd x <= snd r) l) as [Hs1 Hs2].
  { apply StronglySorted_app in Hs as (Hs & Hl & _). split; [done|]. rewrite Forall_forall. intros x Hx.
    apply Hs; [by apply list_elem_of_fmap_2|]. simpl. apply list_elem_of_here. }
  specialize (IH (snd r) Hs1 Hs2). set (c := after_results l (newCircuit cfg)) in *.
  destruct IH as [Hcfg [[Hst Ho]|(Hst & Ho & Hoa & Hw)]].
  - assert (result_effect c r = c) as ->
      by (unfold result_effect, succeed, fail; rewrite Hst; by destruct (fst r)).
    split; [done|]. left. split; [done|]. apply overrun_snoc. by left.
  - unfold result_effect. destruct r as [[|] t]; simpl in *.
    + unfold succeed. rewrite Hst. simpl. split; [done|]. right. split_and!; try done.
      * rewrite overrun_snoc. intros [?|[? _]]; done.
      * intros now Hnow. by rewrite since_success_snoc.
    + unfold fail. rewrite Hst, Hcfg. set (f := withinWindow _ t _).
      assert (f = withinWindow (cb_rollingWindowMs cfg) t (since_success l [] ++ [t])) as Hf.
      { unfold f. rewrite !withinWindow_app, Hw by done. done. }
      destruct (_ <=? _) eqn:E; simpl; (split; [done|]).
      * left. split; [done|]. apply overrun_snoc. right. split; [done|]. simpl. rewrite <- Hf. lia.
      * right. split_and!; try done.
        -- rewrite overrun_snoc. intros [?|[_ H]]; [done|]. simpl in H. rewrite <- Hf in H. lia.
        -- intros now Hnow. rewrite since_success_snoc, Hf, withinWindow_twice by lia. done.
Qed.

(** A circuit trips exactly when it should.  Whatever successes and
    failures a provider has, in the order of their times, its circuit is open
    afterwards exactly when some failure was the last of as many failures as
    configured since the last success within the rolling window; the code
    forgets failures as it goes, the reference never does. *)
Theorem circuit_trips_exactly cfg (l : list (bool * Z)) : StronglySorted Z.le (map snd l) ->
  let c := after_results l (newCircuit cfg) in
  (ci_state c = CB_OPEN <-> overrun cfg l) /\ (ci_state c = CB_CLOSED <-> ~ overrun cfg l).
Proof.
  intros Hs c. assert (exists last, Forall (fun r => snd r <= last) l) as [last Hl].
  { clear. induction l as [|r l [last IH]]; [by exists 0|]. exists (Z.max (snd r) last).
    constructor; [lia|]. eapply Forall_impl; [exact IH|]. simpl. lia. }
  destruct (after_results_spec cfg l last Hs Hl) as [_ [[Hst Ho]|(Hst & Ho & _)]]; fold c in Hst; rewrite Hst;
    split; split; done.
Qed.

(** ** The rate limiter *)
(** Requests for slots of the limiter, with their times. *)
Inductive limiter_call : Type :=
  | LC_isAllowed (p : string)
  | LC_acquire (p : string)
  | LC_release (p : string).
(** The keys whose request was allowed: at most one a call. *)
Definition run_limiter (now : Z) (call : limiter_call) (s : LimiterStore) : option string * LimiterStore :=
  match call with
  | LC_isAllowed p =>
    match isAllowed now p s with
    | (Ok true, s') => (Some (lowercase p), s')
    | (_, s') => (None, s')
    end
  | LC_acquire p => (None, snd (acquireConcurrency p s))
  | LC_release p => (None, snd (releaseConcurrency p s))
  end.
Fixpoint run_limiters (l : list (Z * limiter_call)) (s : LimiterStore) : list (string * Z) * LimiterStore :=
  match l with
  | [] => ([], s)
  | (now, call) :: l' =>
    let '(k, s1) := run_limiter now call s in
    let '(rest, s2) := run_limiters l' s1 in
    (match k with Some k => (k, now) :: rest | None => rest end, s2)
  end.
(** The times at which requests for [k] were allowed, and those in the
    [w] milliseconds from [t] on. *)
Definition times_of (k : string) (l : list (string * Z)) : list Z :=
  map snd (List.filter (fun x => String.eqb (fst x) k) l).
Definition in_window (t w : Z) (l : list Z) : Z := Z.of_nat (length (List.filter (fun ts => (t <=? ts) && (ts <? t + w)) l)).

Lemma times_of_snoc k l k' t : times_of k (l ++ [(k', t)]) =
  times_of k l ++ (if String.eqb k' k then [t] else []).
Proof. unfold times_of. rewrite List.filter_app, map_app. simpl. by destruct (String.eqb k' k). Qed.
Lemma recent_twice w t1 t2 l : t1 <= t2 -> recent w t2 (recent w t1 l) = recent w t2 l.
Proof.
  intros Ht. induction l as [|x l IH]; [done|]. simpl. destruct (t1 - x <? w) eqn:E1; simpl.
  - destruct (t2 - x <? w); by rewrite IH.
  - apply Z.ltb_ge in E1. by rewrite (proj2 (Z.ltb_ge (t2 - x) w)) by lia.
Qed.
Lemma recent_app w t l1 l2 : recent w t (l1 ++ l2) = recent w t l1 ++ recent w t l2.
Proof. apply List.filter_app. Qed.
Lemma window_recent t w now l : now < t + w -> in_window t w l <= Z.of_nat (length (recent w now l)).
Proof.
  intros Hn. unfold in_window. induction l as [|x l IH]; simpl; [lia|].
  destruct (t <=? x) eqn:E1; simpl; [|destruct (now - x <? w); simpl; lia].
  apply Z.leb_le in E1. rewrite (proj2 (Z.ltb_lt (now - x) w)) by lia. destruct (x <? t + w); simpl; lia.
Qed.
Lemma in_window_snoc t w l x : in_window t w (l ++ [x]) =
  in_window t w l + (if (t <=? x) && (x <? t + w) then 1 else 0).
Proof. unfold in_window. rewrite List.filter_app, length_app. simpl. destruct (_ && _); simpl; lia. Qed.

(** A limit [lim] over windows of [w] ms is kept by the allowed times [h],
    and [l] is what the tracker remembers of them at any time from [now] on. *)
Record limited (w lim now : Z) (l h : list Z) : Prop := {
  lm_recent : forall now', now <= now' -> recent w now' l = recent w now' h;
  lm_past : Forall (fun ts => ts <= now) h;
  lm_kept : forall t, in_window t w h <= Z.max 0 lim;
}.
Lemma limited_later w lim now now' l h : now <= now' -> limited w lim now l h -> limited w lim now' l h.
Proof.
  intros Hn [H1 H2 H3]. split; [intros; apply H1; lia| |done]. eapply Forall_impl; [exact H2|]. simpl. lia.
Qed.
Lemma limited_forget w lim now l h : limited w lim now l h -> limited w lim now (recent w now l) h.
Proof. intros [H1 H2 H3]. split; [|done|done]. intros now' Hn. rewrite recent_twice by done. by apply H1. Qed.
Lemma limited_allow w lim now l h : 0 < w -> limited w lim now l h -> Z.of_nat (length (recent w now l)) < lim ->
  limited w lim now (recent w now l ++ [now]) (h ++ [now]).
Proof.
  intros Hw [H1 H2 H3] Hlt. split.
  - intros now' Hn. rewrite !recent_app, recent_twice by done. f_equal. by apply H1.
  - apply Forall_app. split; [done|]. by constructor.
  - intros t. rewrite in_window_snoc. specialize (H3 t). destruct (_ && _) eqn:E; [|lia].
    apply andb_true_iff in E as [E1 E2]. apply Z.leb_le in E1. apply Z.ltb_lt in E2.
    pose proof (window_recent t w now h E2) as Hwr. rewrite <- H1 in Hwr by lia. lia.
Qed.

(** What the whole limiter keeps. *)
Record limits_kept (now : Z) (s : LimiterStore) (h : list (string * Z)) : Prop := {
  lk_second : forall k, limited 1000 (secondLimit (limitConfig s k)) now
    (tk_requestsLastSecond (trackerOf s k)) (times_of k h);
  lk_minute : forall k, rl_rpm (limitConfig s k) <> 0 ->
    limited 60000 (rl_rpm (limitConfig s k)) now (tk_requestsLastMinute (trackerOf s k)) (times_of k h);
}.

Lemma trackerOf_set k k' t s : trackerOf (set_tracker k t s) k' = if decide (k' = k) then t else trackerOf s k'.
Proof.
  unfold trackerOf. simpl. destruct (decide (k' = k)) as [->|H]; [by rewrite lookup_insert_eq|].
  by rewrite lookup_insert_ne.
Qed.
Lemma limitConfig_set k t s k' : limitConfig (set_tracker k t s) k' = limitConfig s k'.
Proof. done. Qed.
(** The timestamps of a key may be cut to their window. *)
Lemma limits_cut now s h k t :
  tk_requestsLastSecond t = tk_requestsLastSecond (trackerOf s k) \/
    tk_requestsLastSecond t = recent 1000 now (tk_requestsLastSecond (trackerOf s k)) ->
  tk_requestsLastMinute t = tk_requestsLastMinute (trackerOf s k) \/
    tk_requestsLastMinute t = recent 60000 now (tk_requestsLastMinute (trackerOf s k)) ->
  limits_kept now s h -> limits_kept now (set_tracker k t s) h.
Proof.
  intros H1 H2 [Hs Hm]. split; intros k'; rewrite trackerOf_set, limitConfig_set; intros;
    (destruct (decide (k' = k)) as [->|]; [|auto]).
  - specialize (Hs k). destruct H1 as [->| ->]; [done|by apply limited_forget].
  - specialize (Hm k ltac:(done)). destruct H2 as [->| ->]; [done|by apply limited_forget].
Qed.
Lemma limits_later now now' s h : now <= now' -> limits_kept now s h -> limits_kept now' s h.
Proof. intros Hn [Hs Hm]. split; intros; (eapply limited_later; [exact Hn|auto]). Qed.

Lemma run_limiter_kept now call s h : limits_kept now s h ->
  let '(k, s') := run_limiter now call s in
  limits_kept now s' (h ++ match k with Some k => [(k, now)] | None => [] end) /\ rl_configs s' = rl_configs s.
Proof.
  intros H. destruct call as [p|p|p]; simpl.
  - unfold isAllowed. set (key := lowercase p). set (second := recent 1000 now _). set (minute := recent 60000 now _).
    destruct (_ <=? _) eqn:E1; [|destruct (negb _ && _) eqn:E2];
      try (rewrite app_nil_r; split; [|done]; apply limits_cut; auto).
    apply Z.leb_gt in E1. split; [|done]. destruct H as [Hs Hm].
    split; intros k; rewrite trackerOf_set, limitConfig_set, times_of_snoc; intros;
      (destruct (decide (k = key)) as [->|Hne];
        [rewrite String.eqb_refl; simpl|rewrite (proj2 (String.eqb_neq _ _)), app_nil_r by congruence; auto]).
    + apply limited_allow; [lia|apply Hs|done].
    + apply limited_allow; [lia|by apply Hm|].
      apply andb_false_iff in E2 as [E2|E2]; [|by apply Z.leb_gt in E2].
      apply negb_false_iff, Z.eqb_eq in E2. contradiction.
  - rewrite app_nil_r. unfold acquireConcurrency. destruct (_ <=? _); split; try done; apply limits_cut; auto.
  - rewrite app_nil_r. unfold releaseConcurrency. destruct (rl_trackers s !! lowercase p) as [t|] eqn:E; [|done].
    destruct (0 <? _); [|done]. split; [|done].
    apply limits_cut; [left|left|done]; unfold trackerOf; by rewrite E.
Qed.

(** The rate limiter holds its rates.  From an empty limiter, whatever
    requests and slots are asked for in the order of their times, the requests
    allowed for a provider never number more than its rate within any second
    (not only within calendar seconds), nor, where a rate per minute is
    configured, within any minute. *)
Theorem rate_limits_hold configs l : StronglySorted Z.le (map fst l) ->
  let s := {| rl_trackers := ∅; rl_configs := configs |} in
  forall p t, let k := lowercase p in let allowed := times_of k (fst (run_limiters l s)) in
    in_window t 1000 allowed <= Z.max 0 (secondLimit (limitConfig s k)) /\
    (rl_rpm (limitConfig s k) <> 0 -> in_window t 60000 allowed <= Z.max 0 (rl_rpm (limitConfig s k))).
Proof.
  intros Hs s p t k.
  assert (Hgen : forall now s0 h, limits_kept now s0 h -> rl_configs s0 = configs ->
    Forall (fun x => now <= x) (map fst l) -> exists now', limits_kept now' (snd (run_limiters l s0)) (h ++ fst (run_limiters l s0)) /\
      rl_configs (snd (run_limiters l s0)) = configs).
  { clear t k p. induction l as [|[now1 call] l IH]; intros now s0 h Hk Hc Hn; simpl.
    { exists now. by rewrite app_nil_r. }
    apply StronglySorted_inv in Hs as [Hs Hle]. apply Forall_cons in Hn as [Hn _]. simpl in Hn.
    apply (limits_later _ now1) in Hk; [|done]. pose proof (run_limiter_kept now1 call s0 h Hk) as Hr.
    destruct (run_limiter now1 call s0) as [r s1]. destruct Hr as [Hr Hc1].
    destruct (IH Hs now1 s1 _ Hr ltac:(congruence) Hle) as (now' & H & H').
    destruct (run_limiters l s1) as [rest s2]. simpl in *. exists now'. split; [|done].
    rewrite <- app_assoc in H. by destruct r. }
  destruct (map fst l) as [|now0 times] eqn:El.
  { apply map_eq_nil in El as ->. simpl. unfold in_window, times_of. simpl. lia. }
  destruct (Hgen now0 s []) as (now' & [H1 H2] & Hc).
  - split; intros; (split; [done|constructor|intros; unfold in_window, times_of; simpl; lia]).
  - done.
  - apply StronglySorted_inv in Hs as [_ Hs]. by constructor.
  - assert (limitConfig (snd (run_limiters l s)) k = limitConfig s k) as E by (unfold limitConfig; by rewrite Hc).
    split; [|intros Hr]; rewrite <- E; [apply (H1 k)|apply (H2 k); by rewrite E].
Qed.

(** ** Concrete runs *)
(** Concrete times in order. *)
Ltac sorted_times :=
  cbn; repeat first [apply SSorted_nil | apply SSorted_cons | apply List.Forall_nil | apply List.Forall_cons | lia].

(** An operation that times out twice and then answers: the attempts made are
    counted in the store. *)
Definition flaky (attempt s : Z) : attempt_result string string * Z :=
  (if attempt <? 3 then Failed "timed out" else Returned "order_1", s + 1).
Lemma retry_terminates_witness :
  executeWithRetry flaky (String.eqb "timed out") (fun _ => 0%Q) (DEFAULT_RETRY_OPTIONS true) 0 =
    Some (Returned "order_1", [200; 400], 3) /\
  exists errs m s1, tried flaky (String.eqb "timed out") 0 0 errs m s1 /\ length errs = 2%nat /\ m <= 3.
Proof.
  split; [by vm_compute|].
  destruct (retry_terminates flaky (String.eqb "timed out") (fun _ => 0%Q) (DEFAULT_RETRY_OPTIONS true) 0 4)
    as (r & ds & s' & errs & m & s1 & H1 & _ & Ht & _ & Hm & Hle & _ & _ & Hlen & _); [vm_compute; lia|].
  exists errs, m, s1. split; [exact Ht|].
  assert (executeWithRetry flaky (String.eqb "timed out") (fun _ => 0%Q) (DEFAULT_RETRY_OPTIONS true) 0 =
    Some (Returned "order_1", [200; 400], 3)) as E by (by vm_compute).
  rewrite E in H1. injection H1 as _ <- _. split; [by rewrite <- Hlen|exact Hle].
Defined.

Definition open_razorpay : Circuit :=
  {| ci_state := CB_OPEN; ci_failureTimestamps := [500; 600; 700; 800; 1000]; ci_openedAt := Some 1000;
     ci_halfOpenProbesCount := 0; ci_consecutiveSuccesses := 0; ci_config := DEFAULT_CIRCUIT_CONFIG |}.
Definition open_circuits : CircuitStore :=
  {| cb_circuits := {[ "razorpay" := open_razorpay ]}; cb_providerConfigs := ∅ |}.
Lemma open_circuit_protects_witness :
  granted (fst (run_circuits "Razorpay" [(2000, CC_can "razorpay"); (2500, CC_success "RAZORPAY"); (30999, CC_can "razorpay")]
                 open_circuits)) = 0 /\
  granted (fst (run_circuits "razorpay" [(31000, CC_can "razorpay"); (31001, CC_can "razorpay"); (31002, CC_can "razorpay");
                  (31003, CC_can "razorpay"); (99000, CC_state "razorpay"); (99000, CC_can "razorpay")] open_circuits)) <= 3 /\
  exists s1 c1, canExecute 31000 "razorpay" None open_circuits = (Ok true, s1) /\
    cb_circuits s1 !! "razorpay" = Some c1 /\ ci_state c1 = CB_HALF_OPEN.
Proof.
  split; [|split].
  - eapply (proj1 (open_circuit_protects "Razorpay" 1000 open_razorpay _ open_circuits eq_refl eq_refl eq_refl)).
    repeat constructor; vm_compute; reflexivity.
  - eapply (proj1 (proj2 (open_circuit_protects "razorpay" 1000 open_razorpay _ open_circuits eq_refl eq_refl eq_refl))).
    repeat constructor.
  - destruct (proj2 (proj2 (open_circuit_protects "razorpay" 1000 open_razorpay [] open_circuits eq_refl eq_refl eq_refl))
      31000) as (s1 & c1 & H1 & H2 & H3 & _); [lia|vm_compute; discriminate|]. exists s1, c1. split; [exact H1|].
    split; [exact H2|exact H3].
Defined.

Definition five_failures : list (bool * Z) :=
  [(false, 0); (true, 1); (false, 2); (false, 100); (false, 200); (false, 300); (false, 60002)].
Lemma circuit_trips_exactly_witness :
  ci_state (after_results five_failures (newCircuit DEFAULT_CIRCUIT_CONFIG)) = CB_OPEN /\
  overrun DEFAULT_CIRCUIT_CONFIG five_failures.
Proof.
  assert (StronglySorted Z.le (map snd five_failures)) as Hs by sorted_times.
  split; [by vm_compute|]. apply (circuit_trips_exactly DEFAULT_CIRCUIT_CONFIG five_failures Hs). by vm_compute.
Defined.

Definition two_a_second : gmap string RateLimitConfig :=
  {[ "msg91" := {| rl_rps := 2; rl_rpm := 100; rl_burstCapacity := 20; rl_concurrencyLimit := 15 |} ]}.
Definition burst : list (Z * limiter_call) :=
  [(0, LC_isAllowed "msg91"); (600, LC_isAllowed "MSG91"); (900, LC_isAllowed "msg91"); (1100, LC_isAllowed "msg91");
   (1500, LC_isAllowed "msg91")].
Lemma rate_limits_hold_witness :
  times_of "msg91" (fst (run_limiters burst {| rl_trackers := ∅; rl_configs := two_a_second |})) = [0; 600; 1100] /\
  in_window 500 1000 (times_of "msg91" (fst (run_limiters burst {| rl_trackers := ∅; rl_configs := two_a_second |}))) <= 2.
Proof.
  assert (StronglySorted Z.le (map fst burst)) as Hs by sorted_times.
  split; [by vm_compute|].
  apply (rate_limits_hold two_a_second burst Hs "msg91" 500).
Defined.
