(* ===== verification/ProviderRouting.v ===== *)
(** * Which provider a call goes to
    (src/car_rental_backend/src/integrations/runtime/)

    provider-policy.service.ts (rules), cost-model.service.ts (fees),
    provider-routing.service.ts (the chain of candidates of a request) and the
    route of a payment of payment-routing.service.ts, over the circuits of
    Resilience.v and the rolling statistics of health/provider-health.service.ts.
    The catalogue of a category, the adapters registered for it and the scores
    of the optional scoring service are arguments ([RoutingConfig]); so is
    whether the process runs in production.  The explanations that only
    describe a decision are left out. *)
From S2P Require Import Prelude JsNumber Resilience.
From stdpp Require Import sorting.
Open Scope Z_scope.

(** ** Sorting with a comparator
    [sort_with lt] is the stable sort whose comparator answers a negative
    number for [x], [y] when [lt x y]. *)
Section sort_with.
Context {A : Type} (lt : A -> A -> bool).
Fixpoint insert_with (x : A) (l : list A) : list A :=
  match l with
  | [] => [x]
  | y :: l' => if lt y x then y :: insert_with x l' else x :: l
  end.
Definition sort_with (l : list A) : list A := fold_right insert_with [] l.
Lemma insert_with_perm x l : insert_with x l ≡ₚ x :: l.
Proof.
  induction l as [|y l IH]; simpl; [done|]. destruct (lt y x); [|done]. rewrite IH. apply Permutation_swap.
Qed.
Lemma sort_with_perm l : sort_with l ≡ₚ l.
Proof. induction l as [|x l IH]; simpl; [done|]. by rewrite insert_with_perm, IH. Qed.
(** When the comparator is that of a key, the keys come out in order. *)
Lemma sort_with_sorted (key : A -> Z) : (forall x y, lt x y = (key x <? key y)) ->
  forall l, StronglySorted (fun x y => key x <= key y) (sort_with l).
Proof.
  intros Hlt l. induction l as [|x l IH]; simpl; [constructor|].
  assert (Hins : forall s, StronglySorted (fun x y => key x <= key y) s ->
    StronglySorted (fun x y => key x <= key y) (insert_with x s)); [|by apply Hins].
  clear IH l. intros s Hs. induction Hs as [|y s Hs IH Hy]; simpl; [repeat constructor|].
  rewrite Hlt. destruct (key y <? key x) eqn:E.
  - apply Z.ltb_lt in E. constructor; [done|]. rewrite insert_with_perm. constructor; [lia|done].
  - apply Z.ltb_ge in E. constructor; [by constructor|]. constructor; [done|].
    eapply Forall_impl; [exact Hy|]. simpl. lia.
Qed.
End sort_with.

Lemma sort_with_map {A B} (lt : B -> B -> bool) (f : A -> B) l :
  sort_with lt (map f l) = map f (sort_with (fun a b => lt (f a) (f b)) l).
Proof.
  assert (Hins : forall x l, insert_with lt (f x) (map f l) = map f (insert_with (fun a b => lt (f a) (f b)) x l)).
  { clear. intros x l. induction l as [|y l IH]; simpl; [done|]. destruct (lt (f y) (f x)); [|done]. simpl. by rewrite IH. }
  induction l as [|x l IH]; simpl; [done|]. by rewrite IH, Hins.
Qed.
Lemma filter_map_swap {A B} (g : B -> bool) (f : A -> B) l :
  List.filter g (map f l) = map f (List.filter (fun x => g (f x)) l).
Proof. induction l as [|x l IH]; simpl; [done|]. destruct (g (f x)); simpl; by rewrite IH. Qed.

(** ** Data *)
Inductive ProviderCertificationLevel : Type :=
  | CL_CATALOG | CL_CONTRACT_VALIDATED | CL_SANDBOX_VALIDATED | CL_WEBHOOK_VALIDATED | CL_FAILOVER_VALIDATED
  | CL_PRODUCTION_VALIDATED.
#[export] Instance ProviderCertificationLevel_eq_dec : EqDecision ProviderCertificationLevel.
Proof. solve_decision. Defined.
Inductive ProviderLifecycleState : Type :=
  | PL_DISCOVERED | PL_CATALOG_ONLY | PL_CONFIGURABLE | PL_SANDBOX_READY | PL_LIVE_READY | PL_HEALTHY | PL_DEGRADED
  | PL_DISABLED | PL_DEPRECATED.
#[export] Instance ProviderLifecycleState_eq_dec : EqDecision ProviderLifecycleState.
Proof. solve_decision. Defined.
Inductive ProviderEnvironment : Type := ENV_SANDBOX | ENV_LIVE.
#[export] Instance ProviderEnvironment_eq_dec : EqDecision ProviderEnvironment.
Proof. solve_decision. Defined.
Inductive RoutingStrategy : Type :=
  | RS_PRIMARY | RS_PRIORITY | RS_ROUND_ROBIN | RS_WEIGHTED | RS_LEAST_LATENCY | RS_HEALTH_BASED | RS_REGION_BASED
  | RS_CURRENCY_BASED | RS_CAPABILITY_BASED | RS_COST_OPTIMIZED | RS_SCORE_OPTIMIZED | RS_CUSTOM_RULE.

(** What routing reads of a provider of the catalogue. *)
Record CatalogProvider : Type := {
  cat_providerId : string;
  cat_supportedEnvironments : list ProviderEnvironment;
  cat_supportedCapabilities : list string;
  cat_supportedCurrencies : list string;
  cat_supportedCountries : list string;
  cat_supportedPaymentMethods : option (list string);
  cat_priority : Z;
  cat_weight : option Z;
  cat_certificationLevel : option ProviderCertificationLevel;
  cat_lifecycleState : option ProviderLifecycleState;
  cat_slaUptimePercent : option Q;
}.

Record CostTierRate : Type := {
  tr_minVolume : Q;
  tr_maxVolume : option Q;
  tr_percentageFee : Q;
  tr_fixedFee : Q;
}.
Record ProviderCostModel : Type := {
  cm_providerId : string;
  cm_category : string;
  cm_fixedFee : Q;
  cm_percentageFee : Q;
  cm_perRequestCost : Q;
  cm_perMessageCost : Q;
  cm_perGbCost : option Q;
  cm_minimumCharge : option Q;
  cm_tierRates : list CostTierRate;
  cm_currency : string;
  cm_regionSpecificCosts : list (string * Q);
}.
Record CostOptions : Type := {
  op_gbUsed : option Q;
  op_messagesSent : option Q;
  op_requestsCount : option Q;
  op_targetCurrency : option string;
}.

Record ProviderPolicyRule : Type := {
  pr_id : string;
  pr_enabled : bool;
  pr_priority : Z;
  pr_category : option string;
  pr_region : option string;
  pr_currency : option string;
  pr_tenantId : option string;
  pr_vendorId : option string;
  pr_branchId : option string;
  pr_capabilities : option (list string);
  pr_maxLatencyMs : option Z;
  pr_preferredProviderId : option string;
  pr_allowedProviders : option (list string);
  pr_deniedProviders : option (list string);
  pr_routingStrategy : option RoutingStrategy;
}.
Record PolicyContext : Type := {
  px_category : option string;
  px_region : option string;
  px_currency : option string;
  px_vendorId : option string;
  px_branchId : option string;
  px_capabilities : list string;
  px_currentLatencyMs : option Z;
}.
Record EvaluatedPolicy : Type := {
  ep_preferredProviderId : option string;
  ep_allowedProviders : option (list string);
  ep_deniedProviders : list string;
  ep_routingStrategyOverride : option RoutingStrategy;
}.

Record IntegrationExecutionRequest : Type := {
  rq_category : string;
  rq_capability : string;
  rq_vendorId : option string;
  rq_branchId : option string;
  rq_region : option string;
  rq_currency : option string;
  rq_environment : option ProviderEnvironment;
  rq_idempotencyKey : option string;
  rq_preferredProviderId : option string;
  rq_routingStrategy : option RoutingStrategy;
  rq_isIdempotent : bool;
}.

Record RoutingConfig : Type := {
  rc_catalog : list CatalogProvider;              (* of the request's category *)
  rc_registered : list string;                    (* adapters of the category *)
  rc_policies : list ProviderPolicyRule;
  rc_costModels : list (string * ProviderCostModel);
  rc_scores : option (CatalogProvider -> Z);       (* the scoring service, if any *)
  rc_customFallbacks : gmap string (list string);
  rc_defaultStrategies : gmap string RoutingStrategy;
  rc_production : bool;                           (* NODE_ENV *)
}.

(** ** Policies *)
Definition sameUpper (a b : string) : bool := String.eqb (uppercase a) (uppercase b).
Definition sameLower (a b : string) : bool := String.eqb (lowercase a) (lowercase b).
(** A condition fails when rule and context both have a value and they
    differ. *)
Definition conditionFails (eqb : string -> string -> bool) (c x : option string) : bool :=
  match truthy c, truthy x with Some a, Some b => negb (eqb a b) | _, _ => false end.
Definition policyApplies (ctx : PolicyContext) (r : ProviderPolicyRule) : bool :=
  pr_enabled r &&
  negb (conditionFails String.eqb (pr_category r) (px_category ctx)) &&
  negb (conditionFails sameUpper (pr_region r) (px_region ctx)) &&
  negb (conditionFails sameUpper (pr_currency r) (px_currency ctx)) &&
  negb (conditionFails String.eqb (pr_vendorId r) (px_vendorId ctx)) &&
  negb (conditionFails String.eqb (pr_branchId r) (px_branchId ctx)) &&
  match pr_capabilities r, px_capabilities ctx with
  | Some caps, _ :: _ => forallb (fun cap => existsb (fun x => sameLower x cap) (px_capabilities ctx)) caps
  | _, _ => true
  end &&
  negb match pr_maxLatencyMs r, px_currentLatencyMs ctx with
       | Some m, Some x => negb (m =? 0) && negb (x =? 0) && (x <=? m)
       | _, _ => false
       end.
Definition applyPolicy (e : EvaluatedPolicy) (r : ProviderPolicyRule) : EvaluatedPolicy :=
  {| ep_preferredProviderId := match truthy (pr_preferredProviderId r) with
                               | Some p => Some p | None => ep_preferredProviderId e end;
     ep_allowedProviders := match pr_allowedProviders r with
                            | Some l => Some (map lowercase l) | None => ep_allowedProviders e end;
     ep_deniedProviders := ep_deniedProviders e ++ map lowercase (default [] (pr_deniedProviders r));
     ep_routingStrategyOverride := match pr_routingStrategy r with
                                   | Some st => Some st | None => ep_routingStrategyOverride e end |}.
Definition getPolicies (rules : list ProviderPolicyRule) : list ProviderPolicyRule :=
  sort_with (fun a b => pr_priority a <? pr_priority b) rules.
Definition evaluatePolicies (rules : list ProviderPolicyRule) (ctx : PolicyContext) : EvaluatedPolicy :=
  fold_left applyPolicy (List.filter (policyApplies ctx) (getPolicies rules))
    {| ep_preferredProviderId := None; ep_allowedProviders := None; ep_deniedProviders := [];
       ep_routingStrategyOverride := None |}.

(** ** Costs *)
Definition opt_num (x : option Q) (d : Q) : Q := match x with Some q => if Qeq_bool q 0 then d else q | None => d end.
Definition exchangeRatesToUsd (currency : string) : Q :=
  match List.find (fun p => String.eqb (fst p) currency)
          [("USD", 1); ("INR", rnd (12 # 1000)); ("EUR", rnd (108 # 100)); ("GBP", rnd (128 # 100));
           ("AED", rnd (272 # 1000)); ("SGD", rnd (74 # 100))]%Q with
  | Some (_, r) => r
  | None => 1%Q
  end.
Definition costModelOf (models : list (string * ProviderCostModel)) (providerId : string) : option ProviderCostModel :=
  match List.find (fun p => String.eqb (fst p) (lowercase providerId)) models with
  | Some (_, m) => Some m
  | None => snd <$> List.find (fun p => sameLower (cm_providerId (snd p)) providerId) models
  end.
Open Scope Q_scope.
Definition tierApplies (amount : Q) (t : CostTierRate) : bool :=
  js_le (tr_minVolume t) amount &&
  match tr_maxVolume t with Some m => Qeq_bool m 0 || js_le amount m | None => true end.
Definition feePercentage (m : ProviderCostModel) (amount : Q) (region : option string) : Q :=
  let configured := match List.find (tierApplies amount) (cm_tierRates m) with
                    | Some t => tr_percentageFee t | None => cm_percentageFee m end in
  let percentage := if js_le 1 configured then js_div configured 100 else configured in
  match truthy region ≫= (fun r => List.find (fun p => String.eqb (fst p) (uppercase r)) (cm_regionSpecificCosts m)) with
  | Some (_, q) => if js_lt 1 q then js_div q 100 else q
  | None => percentage
  end.
Definition estimateCost (models : list (string * ProviderCostModel)) (providerId : string) (amount : Q)
    (region : option string) (options : option CostOptions) : Q :=
  match costModelOf models providerId with
  | None => 0
  | Some m =>
    let fixed := match List.find (tierApplies amount) (cm_tierRates m) with
                 | Some t => tr_fixedFee t | None => cm_fixedFee m end in
    let variableFee := js_mul amount (feePercentage m amount region) in
    let gbCost := js_mul (opt_num (options ≫= op_gbUsed) 0) (opt_num (cm_perGbCost m) 0) in
    let msgCost := js_mul (opt_num (options ≫= op_messagesSent) 1) (cm_perMessageCost m) in
    let reqCost := js_mul (opt_num (options ≫= op_requestsCount) 1) (cm_perRequestCost m) in
    let baseFee := js_add (js_add (js_add fixed (if js_lt 0 (cm_perRequestCost m) then reqCost else 0))
                                  (if js_lt 0 (cm_perMessageCost m) then msgCost else 0)) gbCost in
    let total := js_add baseFee variableFee in
    let total := match cm_minimumCharge m with
                 | Some c => if negb (Qeq_bool c 0) && js_lt total c then c else total
                 | None => total
                 end in
    let total := match truthy (options ≫= op_targetCurrency) with
                 | Some target =>
                   if sameUpper target (cm_currency m) then total
                   else js_div (js_mul total (exchangeRatesToUsd (uppercase (cm_currency m))))
                               (exchangeRatesToUsd (uppercase target))
                 | None => total
                 end in
    js_toFixed_num 4 total
  end.
Close Scope Q_scope.

(** ** Rolling statistics: health/provider-health.service.ts *)
Record HealthExecutionSample : Type := {
  hs_success : bool;
  hs_latencyMs : Z;
  hs_classification : option FailureClassification;
}.
Record ProviderRollingStats : Type := {
  st_samples : list HealthExecutionSample;
  st_failureStreak : Z;
  st_recoveryStreak : Z;
  st_rateLimitCount : Z;
  st_authFailureCount : Z;
}.
Definition newStats : ProviderRollingStats :=
  {| st_samples := []; st_failureStreak := 0; st_recoveryStreak := 0; st_rateLimitCount := 0;
     st_authFailureCount := 0 |}.
Definition MAX_SAMPLES : Z := 200.
Abbreviation HealthStore := (gmap string ProviderRollingStats).
Definition getRecordKey (category providerId : string) : string := lowercase (category +:+ ":" +:+ providerId).
Definition withOutcome (x : HealthExecutionSample) (st : ProviderRollingStats) : ProviderRollingStats :=
  let samples := st_samples st ++ [x] in
  let limited := hs_classification x in
  {| st_samples := if MAX_SAMPLES <? Z.of_nat (length samples) then tail samples else samples;
     st_failureStreak := if hs_success x then 0 else st_failureStreak st + 1;
     st_recoveryStreak := if hs_success x then st_recoveryStreak st + 1 else 0;
     st_rateLimitCount := if negb (hs_success x) && bool_decide (limited = Some FC_RATE_LIMITED)
                          then st_rateLimitCount st + 1 else st_rateLimitCount st;
     st_authFailureCount := if negb (hs_success x) && bool_decide (limited = Some FC_AUTHENTICATION)
                            then st_authFailureCount st + 1 else st_authFailureCount st |}.
Definition recordExecutionOutcome (category providerId : string) (success : bool) (latencyMs : Z)
    (classification : option FailureClassification) : M HealthStore unit :=
  let key := getRecordKey category providerId in
  modify (fun m : HealthStore =>
    <[key := withOutcome {| hs_success := success; hs_latencyMs := Z.max 0 latencyMs;
                            hs_classification := classification |} (default newStats (m !! key))]> m).

(** What they say of a provider. *)
Record ProviderRollingHealth : Type := {
  rh_successRate : Q;
  rh_failureRate : Q;
  rh_timeoutRate : Q;
  rh_latencyP50 : Z;
  rh_latencyP95 : Z;
  rh_latencyP99 : Z;
  rh_failureStreak : Z;
  rh_recoveryStreak : Z;
  rh_totalExecutions : Z;
}.
Definition percent1 (part total : Z) : Q :=
  js_div (inject_Z (js_round (js_mul (js_mul (js_div (inject_Z part) (inject_Z total)) 100) 10))) 10.
Definition quantile (f : Q) (sorted : list Z) : Z :=
  let n := Z.of_nat (length sorted) in
  nth (Z.to_nat (Z.min (n - 1) (Qfloor (js_mul (inject_Z n) f)))) sorted 0.
Definition getRollingHealth (m : HealthStore) (category providerId : string) : ProviderRollingHealth :=
  match m !! getRecordKey category providerId with
  | Some (Build_ProviderRollingStats (_ :: _) _ _ _ _ as st) =>
    let total := Z.of_nat (length (st_samples st)) in
    let successes := Z.of_nat (length (List.filter hs_success (st_samples st))) in
    let timeouts := Z.of_nat (length (List.filter (fun x => bool_decide (hs_classification x = Some FC_TIMEOUT))
                                                  (st_samples st))) in
    let latencies := sort_with Z.ltb (map hs_latencyMs (st_samples st)) in
    {| rh_successRate := percent1 successes total; rh_failureRate := percent1 (total - successes) total;
       rh_timeoutRate := percent1 timeouts total;
       rh_latencyP50 := quantile (1 # 2) latencies; rh_latencyP95 := quantile (rnd (95 # 100)) latencies;
       rh_latencyP99 := quantile (rnd (99 # 100)) latencies;
       rh_failureStreak := st_failureStreak st; rh_recoveryStreak := st_recoveryStreak st;
       rh_totalExecutions := total |}
  | _ =>
    {| rh_successRate := 100; rh_failureRate := 0; rh_timeoutRate := 0; rh_latencyP50 := 0; rh_latencyP95 := 0;
       rh_latencyP99 := 0; rh_failureStreak := 0; rh_recoveryStreak := 0; rh_totalExecutions := 0 |}
  end.

(** ** The chain of a request: provider-routing.service.ts *)
Record RoutingStore : Type := {
  rs_circuits : CircuitStore;
  rs_health : HealthStore;
  rs_counters : gmap string Z;                    (* round robin *)
}.
Definition set_rs_circuits (c : CircuitStore) (s : RoutingStore) : RoutingStore :=
  {| rs_circuits := c; rs_health := rs_health s; rs_counters := rs_counters s |}.
Definition set_rs_counters (c : gmap string Z) (s : RoutingStore) : RoutingStore :=
  {| rs_circuits := rs_circuits s; rs_health := rs_health s; rs_counters := c |}.

Record RoutingResolution : Type := {
  rr_primaryProviderId : option string;
  rr_fallbackChain : list string;
  rr_allCandidates : list string;
  rr_strategyUsed : RoutingStrategy;
}.
Definition resolution (ids : list string) (st : RoutingStrategy) : RoutingResolution :=
  {| rr_primaryProviderId := head ids; rr_fallbackChain := tail ids; rr_allCandidates := ids; rr_strategyUsed := st |}.

(** Step 2: the candidates. *)
Definition supports (word : string -> string) (l : list string) (x : string) : bool :=
  existsb (fun c => String.eqb (word c) x) l.
Definition supportsCapability (capability : string) (p : CatalogProvider) : bool :=
  let capNorm := lowercase capability in
  let has := supports lowercase (cat_supportedCapabilities p) in
  (bool_decide (capNorm ∈ ["create_payment"; "create_order"]) && (has "create_order" || has "create_payment")) ||
  (bool_decide (capNorm ∈ ["send_whatsapp"; "send_template"]) && (has "send_template" || has "send_whatsapp")) ||
  has capNorm.
Definition supportsCountry (region : string) (p : CatalogProvider) : bool :=
  bool_decide ("ALL" ∈ cat_supportedCountries p) || supports uppercase (cat_supportedCountries p) (uppercase region).
Definition supportsCurrency (currency : string) (p : CatalogProvider) : bool :=
  bool_decide ("ALL" ∈ cat_supportedCurrencies p) || supports uppercase (cat_supportedCurrencies p) (uppercase currency).
(** A filter that is dropped when nothing passes it. *)
Definition preferMatches {A} (f : A -> bool) (l : list A) : list A :=
  match List.filter f l with [] => l | m => m end.
Definition nonempty {A} (o : option (list A)) : option (list A) :=
  match o with Some [] => None | _ => o end.
(** A filter for a condition that may be missing. *)
Definition filterIf {A B} (o : option B) (f : B -> A -> bool) (l : list A) : list A :=
  match o with Some b => List.filter (f b) l | None => l end.

Definition preferIf {A B} (o : option B) (f : B -> A -> bool) (l : list A) : list A :=
  match o with Some b => preferMatches (f b) l | None => l end.

Definition liveGate (cfg : RoutingConfig) (rq : IntegrationExecutionRequest) : bool :=
  rc_production cfg || bool_decide (rq_environment rq = Some ENV_LIVE).
Definition certifiedLive (category : string) (p : CatalogProvider) : bool :=
  negb (startsWith "mock_" (cat_providerId p)) &&
  (bool_decide (cat_certificationLevel p = Some CL_PRODUCTION_VALIDATED) ||
   (negb (String.eqb category "PAYMENT") && bool_decide (cat_lifecycleState p = Some PL_LIVE_READY))).
Definition candidatesOf (cfg : RoutingConfig) (rq : IntegrationExecutionRequest) (policy : EvaluatedPolicy)
    : list CatalogProvider :=
  let l := filterIf (truthy (Some (rq_capability rq))) supportsCapability (rc_catalog cfg) in
  let l := preferIf (truthy (rq_region rq)) supportsCountry l in
  let l := preferIf (truthy (rq_currency rq)) supportsCurrency l in
  let l := filterIf (rq_environment rq) (fun e p => bool_decide (e ∈ cat_supportedEnvironments p)) l in
  let l := List.filter (fun p => negb (supports lowercase (ep_deniedProviders policy) (lowercase (cat_providerId p)))) l in
  let l := filterIf (nonempty (ep_allowedProviders policy))
                    (fun allowed p => supports lowercase allowed (lowercase (cat_providerId p))) l in
  if liveGate cfg rq then List.filter (certifiedLive (rq_category rq)) l else l.

(** Step 3: a chain somebody configured; an id that is no candidate becomes a
    provider of its own. *)
Definition customProvider (id capability : string) : CatalogProvider :=
  {| cat_providerId := id; cat_supportedEnvironments := []; cat_supportedCapabilities := [str_or (Some capability) "default"];
     cat_supportedCurrencies := ["ALL"]; cat_supportedCountries := ["ALL"]; cat_supportedPaymentMethods := None;
     cat_priority := 1; cat_weight := None; cat_certificationLevel := None; cat_lifecycleState := None;
     cat_slaUptimePercent := None |}.
Definition customKey (rq : IntegrationExecutionRequest) : string :=
  lowercase (rq_category rq +:+ ":" +:+ str_or (rq_vendorId rq) "platform").
Definition customChain (rq : IntegrationExecutionRequest) (ids : list string) (candidates : list CatalogProvider)
    : list CatalogProvider :=
  map (fun id => default (customProvider id (rq_capability rq))
                   (List.find (fun c => sameLower (cat_providerId c) id) (rev candidates))) ids.

(** Step 4: the order of a strategy. *)
Definition byPriority (a b : CatalogProvider) : bool := cat_priority a <? cat_priority b.
Definition matchFirst (f : CatalogProvider -> bool) (a b : CatalogProvider) : bool :=
  if f a && negb (f b) then true else if negb (f a) && f b then false else byPriority a b.
Definition healthier (a b : ProviderRollingHealth) : bool :=
  if negb (Qeq_bool (rh_successRate b) (rh_successRate a)) then js_lt (rh_successRate b) (rh_successRate a)
  else if negb (rh_totalExecutions b =? rh_totalExecutions a) then rh_totalExecutions b <? rh_totalExecutions a
  else rh_failureStreak a <? rh_failureStreak b.
(** The comparator of a strategy; [None]: the strategy does not sort. *)
Definition comparator (cfg : RoutingConfig) (health : HealthStore) (strategy : RoutingStrategy)
    (rq : IntegrationExecutionRequest) : option (CatalogProvider -> CatalogProvider -> bool) :=
  let rolling p := getRollingHealth health (rq_category rq) (cat_providerId p) in
  let weight p := num_or_Z (default 0 (cat_weight p)) 1 in
  let cost p := estimateCost (rc_costModels cfg) (cat_providerId p) 1 (rq_region rq) None in
  match strategy with
  | RS_ROUND_ROBIN => None
  | RS_WEIGHTED => Some (fun a b => weight b <? weight a)
  | RS_LEAST_LATENCY => Some (fun a b => num_or_Z (rh_latencyP50 (rolling a)) 9999 <? num_or_Z (rh_latencyP50 (rolling b)) 9999)
  | RS_HEALTH_BASED => Some (fun a b => healthier (rolling a) (rolling b))
  | RS_REGION_BASED =>
    Some (matchFirst (fun p => supports uppercase (cat_supportedCountries p) (uppercase (str_or (rq_region rq) ""))))
  | RS_CURRENCY_BASED =>
    Some (matchFirst (fun p => supports uppercase (cat_supportedCurrencies p) (uppercase (str_or (rq_currency rq) ""))))
  | RS_CAPABILITY_BASED =>
    Some (matchFirst (fun p => supports lowercase (cat_supportedCapabilities p) (lowercase (rq_capability rq))))
  | RS_COST_OPTIMIZED => Some (fun a b => js_lt (cost a) (cost b))
  | RS_SCORE_OPTIMIZED =>
    match rc_scores cfg with
    | Some score => Some (fun a b => score b <? score a)
    | None => Some byPriority
    end
  | RS_PRIMARY | RS_PRIORITY | RS_CUSTOM_RULE => Some byPriority
  end.
Definition rotate {A} (shift : Z) (l : list A) : list A := drop (Z.to_nat shift) l ++ take (Z.to_nat shift) l.
Definition applyRoutingStrategy (cfg : RoutingConfig) (candidates : list CatalogProvider) (strategy : RoutingStrategy)
    (rq : IntegrationExecutionRequest) : M RoutingStore (list CatalogProvider) :=
  s ← get;
  match comparator cfg (rs_health s) strategy rq with
  | Some lt => mret (sort_with lt candidates)
  | None =>
    let count := default 0 (rs_counters s !! rq_category rq) in
    modify (set_rs_counters (<[rq_category rq := count + 1]> (rs_counters s))) ;;
    mret (rotate (Z.rem count (Z.of_nat (length candidates))) candidates)
  end.

(** Step 5: the preferred provider comes first. *)
Definition isProvider (id : string) (p : CatalogProvider) : bool := sameLower (cat_providerId p) id.
Fixpoint elevate (id : string) (passed l : list CatalogProvider) : list CatalogProvider :=
  match l with
  | [] => rev passed
  | p :: l' => if isProvider id p then p :: rev passed ++ l' else elevate id (p :: passed) l'
  end.

(** Step 6: providers with an open circuit go last. *)
Fixpoint partitionOpen (now : Z) (l closed opened : list CatalogProvider)
    : M RoutingStore (list CatalogProvider * list CatalogProvider) :=
  match l with
  | [] => mret (closed, opened)
  | p :: l' =>
    st ← zoom rs_circuits set_rs_circuits (getState now (cat_providerId p) None);
    if decide (st = CB_OPEN) then partitionOpen now l' closed (opened ++ [p])
    else partitionOpen now l' (closed ++ [p]) opened
  end.

Definition policyOf (cfg : RoutingConfig) (rq : IntegrationExecutionRequest) : EvaluatedPolicy :=
  evaluatePolicies (rc_policies cfg)
    {| px_category := Some (rq_category rq); px_region := rq_region rq; px_currency := rq_currency rq;
       px_vendorId := rq_vendorId rq; px_branchId := rq_branchId rq;
       px_capabilities := match truthy (Some (rq_capability rq)) with Some c => [c] | None => [] end;
       px_currentLatencyMs := None |}.
Definition strategyOf (cfg : RoutingConfig) (rq : IntegrationExecutionRequest) (policy : EvaluatedPolicy) : RoutingStrategy :=
  match rq_routingStrategy rq, ep_routingStrategyOverride policy, rc_defaultStrategies cfg !! rq_category rq with
  | Some st, _, _ | None, Some st, _ | None, None, Some st => st
  | None, None, None => RS_PRIORITY
  end.
Definition preferredOf (rq : IntegrationExecutionRequest) (policy : EvaluatedPolicy) : option string :=
  opt_or (rq_preferredProviderId rq) (truthy (ep_preferredProviderId policy)).
Definition resolveRoutingChain (now : Z) (cfg : RoutingConfig) (rq : IntegrationExecutionRequest)
    : M RoutingStore RoutingResolution :=
  let policy := policyOf cfg rq in
  let strategy := strategyOf cfg rq policy in
  match candidatesOf cfg rq policy with
  | [] =>
    if liveGate cfg rq then throw OtherError
    else match rc_registered cfg with
         | [] => throw OtherError
         | ids => mret (resolution ids strategy)
         end
  | candidates =>
    ordered ← match rc_customFallbacks cfg !! customKey rq with
              | Some ((_ :: _) as ids) => mret (customChain rq ids candidates)
              | _ => applyRoutingStrategy cfg candidates strategy rq
              end;
    let ordered := match preferredOf rq policy with
                   | Some id => elevate id [] ordered
                   | None => ordered
                   end in
    parts ← partitionOpen now ordered [] [];
    mret (resolution (map cat_providerId (fst parts ++ snd parts)) strategy)
  end.

(** ** Laws of the routing chain *)
(** The state a circuit would answer at [now]. *)
Definition state_at (now : Z) (p : string) (s : CircuitStore) : CircuitState := ci_state (look now (circuit_at p s)).
Lemma look_twice now c : look now (look now c) = look now c.
Proof.
  unfold look. destruct (ci_state c) eqn:E; simpl; rewrite ?E; try done.
  destruct (cooledDown now c) eqn:Ec; simpl; [done|]. by rewrite E, Ec.
Qed.
Lemma circuit_at_same p q s s' : cb_circuits s' !! lowercase q = cb_circuits s !! lowercase q ->
  cb_providerConfigs s' = cb_providerConfigs s -> lowercase p = lowercase q -> circuit_at p s' = circuit_at p s.
Proof. intros H1 H2 E. unfold circuit_at. by rewrite E, H1, H2. Qed.
Lemma getState_run now p s : exists s', getState now p None s = (Ok (state_at now p s), s') /\
  forall q, state_at now q s' = state_at now q s.
Proof.
  destruct (getOrCreate_run p s) as (s1 & H1 & Hc & Hk).
  unfold getState. rewrite bind_run, H1. unfold putCircuit. step. eexists. split; [reflexivity|]. intros q.
  destruct (decide (lowercase q = lowercase p)) as [E|E].
  - unfold state_at, circuit_at. simpl. rewrite E, lookup_insert_eq. simpl. by rewrite look_twice.
  - unfold state_at. f_equal. f_equal. apply (circuit_at_same q q); [|done|done].
    simpl. rewrite lookup_insert_ne by done. by apply Hk.
Qed.

Definition is_open (now : Z) (s : CircuitStore) (p : CatalogProvider) : bool :=
  bool_decide (state_at now (cat_providerId p) s = CB_OPEN).
Lemma partitionOpen_run now l : forall a b s, exists s',
  partitionOpen now l a b s =
    (Ok (a ++ List.filter (fun p => negb (is_open now (rs_circuits s) p)) l,
         b ++ List.filter (is_open now (rs_circuits s)) l), s') /\
  (forall q, state_at now q (rs_circuits s') = state_at now q (rs_circuits s)) /\
  rs_health s' = rs_health s /\ rs_counters s' = rs_counters s.
Proof.
  induction l as [|p l IH]; intros a b s; simpl.
  { exists s. by rewrite !app_nil_r. }
  destruct (getState_run now (cat_providerId p) (rs_circuits s)) as (c1 & Hg & Hst).
  assert (Hz : zoom rs_circuits set_rs_circuits (getState now (cat_providerId p) None) s =
    (Ok (state_at now (cat_providerId p) (rs_circuits s)), set_rs_circuits c1 s))
    by (apply zoom_run; eauto). rewrite bind_run, Hz.
  set (s1 := set_rs_circuits c1 s).
  assert (List.filter (is_open now (rs_circuits s1)) l = List.filter (is_open now (rs_circuits s)) l /\
    List.filter (fun p => negb (is_open now (rs_circuits s1) p)) l =
      List.filter (fun p => negb (is_open now (rs_circuits s) p)) l) as [Hf1 Hf2].
  { split; apply List.filter_ext; intros q; unfold is_open; simpl; by rewrite Hst. }
  assert (Hp : is_open now (rs_circuits s) p = bool_decide (state_at now (cat_providerId p) (rs_circuits s) = CB_OPEN))
    by done.
  destruct (decide (state_at now (cat_providerId p) (rs_circuits s) = CB_OPEN)) as [E|E];
    [rewrite (bool_decide_eq_true_2 _ E) in Hp|rewrite (bool_decide_eq_false_2 _ E) in Hp]; rewrite Hp; simpl.
  - destruct (IH a (b ++ [p]) s1) as (s' & -> & H1 & H2). rewrite Hf1, Hf2, <- app_assoc.
    exists s'. split_and!; [done| |apply H2|apply H2]. intros q. rewrite H1. apply Hst.
  - destruct (IH (a ++ [p]) b s1) as (s' & -> & H1 & H2). rewrite Hf1, Hf2, <- app_assoc.
    exists s'. split_and!; [done| |apply H2|apply H2]. intros q. rewrite H1. apply Hst.
Qed.

Lemma elevate_spec id l : forall passed, (forall p, p ∈ passed -> isProvider id p = false) ->
  elevate id passed l ≡ₚ rev passed ++ l /\
  ((exists p, p ∈ l /\ isProvider id p = true) ->
   exists p l', elevate id passed l = p :: l' /\ isProvider id p = true /\ p ∈ l /\
     forall q, q ∈ rev passed ++ l -> isProvider id q = true -> q = p \/ q ∈ l').
Proof.
  induction l as [|x l IH]; intros passed Hp; simpl.
  { rewrite app_nil_r. split; [done|]. intros (p & Hin & _). by apply elem_of_nil in Hin. }
  destruct (isProvider id x) eqn:E.
  - split; [apply Permutation_middle|]. intros _. exists x, (rev passed ++ l). split_and!; try done; [by left|].
    intros q Hq _. rewrite elem_of_app, elem_of_cons in *. naive_solver.
  - destruct (IH (x :: passed)) as [H1 H2].
    { intros p Hin. apply elem_of_cons in Hin as [->|Hin]; auto. }
    simpl in H1, H2. rewrite <- app_assoc in H1, H2. simpl in H1, H2. split; [done|].
    intros (p & Hin & Hid). apply elem_of_cons in Hin as [->|Hin]; [congruence|].
    destruct H2 as (y & l' & Hy & Hyi & Hyin & Hall); [by exists p|].
    exists y, l'. split_and!; try done. by right.
Qed.
Lemma filter_perm {A} (f : A -> bool) l l' : l ≡ₚ l' -> List.filter f l ≡ₚ List.filter f l'.
Proof.
  induction 1; simpl; repeat case_match; try done.
  - by constructor.
  - by constructor.
  - by etrans.
Qed.
Lemma filter_split {A} (f : A -> bool) l : List.filter (fun x => negb (f x)) l ++ List.filter f l ≡ₚ l.
Proof.
  induction l as [|x l IH]; simpl; [done|]. destruct (f x); simpl; [|by constructor].
  rewrite <- Permutation_middle. by constructor.
Qed.
Lemma rotate_perm {A} n (l : list A) : rotate n l ≡ₚ l.
Proof. unfold rotate. rewrite Permutation_app_comm. by rewrite take_drop. Qed.
Lemma filter_sorted {A} (R : A -> A -> Prop) (f : A -> bool) l : StronglySorted R l -> StronglySorted R (List.filter f l).
Proof.
  induction 1 as [|x l Hl IH Hx]; simpl; [constructor|]. destruct (f x); [|done]. constructor; [done|].
  rewrite Forall_forall in *. intros y Hy. apply Hx. apply list_elem_of_In, filter_In in Hy as [Hy _].
  by apply list_elem_of_In.
Qed.

(** What a candidate fulfils. *)
Record admissible (cfg : RoutingConfig) (rq : IntegrationExecutionRequest) (p : CatalogProvider) : Prop := {
  ad_catalog : p ∈ rc_catalog cfg;
  ad_capability : rq_capability rq <> "" -> supportsCapability (rq_capability rq) p = true;
  ad_environment : forall e, rq_environment rq = Some e -> e ∈ cat_supportedEnvironments p;
  ad_denied : supports lowercase (ep_deniedProviders (policyOf cfg rq)) (lowercase (cat_providerId p)) = false;
  ad_allowed : forall l, ep_allowedProviders (policyOf cfg rq) = Some l -> l <> [] ->
    supports lowercase l (lowercase (cat_providerId p)) = true;
  ad_live : liveGate cfg rq = true -> certifiedLive (rq_category rq) p = true;
}.
Lemma elem_filter {A} (f : A -> bool) l x : x ∈ List.filter f l <-> x ∈ l /\ f x = true.
Proof. by rewrite list_elem_of_In, filter_In, <- list_elem_of_In. Qed.
Lemma elem_prefer {A} (f : A -> bool) l x : x ∈ preferMatches f l -> x ∈ l.
Proof.
  unfold preferMatches. destruct (List.filter f l) eqn:E; [done|]. rewrite <- E. by intros [? _]%elem_filter.
Qed.
Lemma prefer_keeps {A} (f : A -> bool) l x : x ∈ l -> f x = true -> x ∈ preferMatches f l.
Proof.
  intros Hx Hf. assert (x ∈ List.filter f l) as H by (by rewrite elem_filter).
  unfold preferMatches. destruct (List.filter f l); [done|exact H].
Qed.
Lemma elem_filterIf {A B} (o : option B) (f : B -> A -> bool) l x :
  x ∈ filterIf o f l <-> x ∈ l /\ forall b, o = Some b -> f b x = true.
Proof. destruct o as [b|]; simpl; [rewrite elem_filter|]; naive_solver. Qed.
Lemma elem_preferIf {A B} (o : option B) (f : B -> A -> bool) l x : x ∈ preferIf o f l -> x ∈ l.
Proof. destruct o; [apply elem_prefer|done]. Qed.
Lemma preferIf_keeps {A B} (o : option B) (f : B -> A -> bool) l x : x ∈ l ->
  (forall b, o = Some b -> f b x = true) -> x ∈ preferIf o f l.
Proof. destruct o; simpl; intros; [apply prefer_keeps; auto|done]. Qed.
Lemma elem_gate {A} (b : bool) (f : A -> bool) l x :
  x ∈ (if b then List.filter f l else l) <-> x ∈ l /\ (b = true -> f x = true).
Proof. destruct b; [rewrite elem_filter|]; naive_solver. Qed.
Lemma truthy_ne s c : truthy (Some s) = Some c <-> s <> "" /\ c = s.
Proof. destruct s; simpl; naive_solver. Qed.
Lemma nonempty_Some {A} (o : option (list A)) l : nonempty o = Some l <-> o = Some l /\ l <> [].
Proof. destruct o as [[|]|]; simpl; naive_solver. Qed.
(** A candidate fulfils all of it, and who does and supports the region and
    the currency is a candidate. *)
Lemma candidatesOf_admissible cfg rq p :
  (p ∈ candidatesOf cfg rq (policyOf cfg rq) -> admissible cfg rq p) /\
  (admissible cfg rq p -> (forall r, truthy (rq_region rq) = Some r -> supportsCountry r p = true) ->
   (forall c, truthy (rq_currency rq) = Some c -> supportsCurrency c p = true) ->
   p ∈ candidatesOf cfg rq (policyOf cfg rq)).
Proof.
  unfold candidatesOf. split.
  - rewrite elem_gate, elem_filterIf, elem_filter, elem_filterIf, negb_true_iff.
    intros [[[[Hp He] Hd] Ha] Hl]. do 2 apply elem_preferIf in Hp. apply elem_filterIf in Hp as [Hp Hc].
    split; try done.
    + intros Hne. apply Hc. by apply truthy_ne.
    + intros e E. specialize (He e E). by apply bool_decide_eq_true in He.
    + intros l E Hne. apply (Ha l). by apply nonempty_Some.
  - intros [H1 H2 H3 H4 H5 H6] Hr Hc. rewrite elem_gate, elem_filterIf, elem_filter, elem_filterIf, negb_true_iff.
    split_and!; try done.
    + apply preferIf_keeps; [|done]. apply preferIf_keeps; [|done]. apply elem_filterIf. split; [done|].
      intros c [Hne ->]%truthy_ne. auto.
    + intros e E. apply bool_decide_eq_true. auto.
    + intros l [E Hne]%nonempty_Some. auto.
Qed.

Definition customised (cfg : RoutingConfig) (rq : IntegrationExecutionRequest) : Prop :=
  exists id ids, rc_customFallbacks cfg !! customKey rq = Some (id :: ids).

(** What an ordered list of providers becomes. *)
Definition elevated (rq : IntegrationExecutionRequest) (policy : EvaluatedPolicy) (l : list CatalogProvider) :=
  match preferredOf rq policy with Some id => elevate id [] l | None => l end.
Lemma elevated_perm rq policy l : elevated rq policy l ≡ₚ l.
Proof.
  unfold elevated. destruct (preferredOf rq policy) as [id|]; [|done].
  apply (elevate_spec id l []). intros p Hp. by apply elem_of_nil in Hp.
Qed.
Lemma applyRoutingStrategy_run cfg l strategy rq s : exists l' s',
  applyRoutingStrategy cfg l strategy rq s = (Ok l', s') /\ (l' ≡ₚ l) /\
  rs_circuits s' = rs_circuits s /\ rs_health s' = rs_health s /\
  (comparator cfg (rs_health s) strategy rq = Some byPriority ->
   StronglySorted (fun a b => cat_priority a <= cat_priority b) l').
Proof.
  unfold applyRoutingStrategy. step. destruct (comparator cfg (rs_health s) strategy rq) as [lt|] eqn:E.
  - step. exists (sort_with lt l), s. split_and!; try done; [apply sort_with_perm|]. intros [= ->].
    by apply sort_with_sorted.
  - step. eexists _, _. split_and!; [reflexivity|apply rotate_perm|done|done|done].
Qed.

Lemma isProvider_state now s id p q : isProvider id p = true -> isProvider id q = true -> is_open now s p = is_open now s q.
Proof.
  unfold isProvider, sameLower, is_open, state_at, circuit_at. intros H1%String.eqb_eq H2%String.eqb_eq.
  by rewrite H1, H2.
Qed.
(** The preferred provider leads when its circuit is not open. *)
Lemma elevated_first now s rq policy l id : preferredOf rq policy = Some id ->
  let closed := List.filter (fun p => negb (is_open now s p)) (elevated rq policy l) in
  (exists p, p ∈ closed /\ isProvider id p = true) -> exists p, head closed = Some p /\ isProvider id p = true.
Proof.
  intros Hid closed (p & Hp & Hpid). unfold closed, elevated in *. rewrite Hid in *.
  apply elem_filter in Hp as [Hp Hcl].
  destruct (elevate_spec id l []) as [Hperm Hfirst]; [intros q Hq; by apply elem_of_nil in Hq|].
  rewrite Hperm in Hp. simpl in Hp. destruct Hfirst as (q & l' & E & Hq & _); [by exists p|].
  rewrite E. simpl. rewrite (isProvider_state now s id q p Hq Hpid), Hcl. by exists q.
Qed.

(** Steps 3 and 4. *)
Lemma ordered_run cfg strategy rq candidates s : candidates <> [] -> exists ordered s1,
  match rc_customFallbacks cfg !! customKey rq with
  | Some ((_ :: _) as ids) => mret (customChain rq ids candidates)
  | _ => applyRoutingStrategy cfg candidates strategy rq
  end s = (Ok ordered, s1) /\ ordered <> [] /\ rs_circuits s1 = rs_circuits s /\ rs_health s1 = rs_health s /\
  (~ customised cfg rq -> ordered ≡ₚ candidates) /\
  (~ customised cfg rq -> comparator cfg (rs_health s) strategy rq = Some byPriority ->
   StronglySorted (fun a b => cat_priority a <= cat_priority b) ordered).
Proof.
  intros Hne. destruct (applyRoutingStrategy_run cfg candidates strategy rq s) as (l & s1 & Hrun & Hp & Hc & Hh & Hs).
  assert (l <> []) by (intros ->; by apply Permutation_nil_l in Hp).
  destruct (rc_customFallbacks cfg !! customKey rq) as [[|id ids]|] eqn:E; [by exists l, s1| |by exists l, s1].
  eexists _, s. split; [reflexivity|]. split; [done|]. split; [done|]. split; [done|].
  assert (customised cfg rq) by (by exists id, ids). split; intros; contradiction.
Qed.

(** What is resolved is a primary and its fallbacks. *)
Lemma resolveRoutingChain_ids now cfg rq s res s' : resolveRoutingChain now cfg rq s = (Ok res, s') ->
  exists id ids, res = resolution (id :: ids) (strategyOf cfg rq (policyOf cfg rq)).
Proof.
  unfold resolveRoutingChain. destruct (candidatesOf cfg rq (policyOf cfg rq)) as [|c cs].
  { destruct (liveGate cfg rq); [by rewrite throw_run|]. destruct (rc_registered cfg) as [|id ids]; [by rewrite throw_run|].
    rewrite ret_run. intros [= <- <-]. by exists id, ids. }
  destruct (ordered_run cfg (strategyOf cfg rq (policyOf cfg rq)) rq (c :: cs) s ltac:(done)) as
    (ordered & s1 & Hord & Hne & _).
  rewrite bind_run, Hord. fold (elevated rq (policyOf cfg rq) ordered).
  destruct (partitionOpen_run now (elevated rq (policyOf cfg rq) ordered) [] [] s1) as (s2 & Hpart & _).
  rewrite bind_run, Hpart, ret_run. intros [= <- <-]. simpl.
  pose proof (Permutation_trans (filter_split (is_open now (rs_circuits s1)) (elevated rq (policyOf cfg rq) ordered))
    (elevated_perm rq (policyOf cfg rq) ordered)) as Hp.
  match type of Hp with ?l ≡ₚ _ => destruct l as [|p l'] end; [by apply Permutation_nil_l in Hp|].
  by exists (cat_providerId p), (map cat_providerId l').
Qed.

(** The chain of a request is safe to walk.  Resolving fails exactly when
    no provider qualifies and either only certified ones may serve or no
    adapter is registered.  Otherwise the primary is the head of the chain and
    the fallbacks are its tail; providers whose circuit is open come after all
    others; unless somebody configured a chain, it is a permutation of the
    candidates, each of them in the catalogue, able to do what is asked,
    available in the environment, allowed and not denied by the policies and
    certified where live traffic demands it, and it holds every such provider
    of the region and currency; a preferred provider leads whenever its
    circuit is not open; by priority, the others come in order.  No circuit
    answers differently afterwards and no statistics move. *)
Theorem routing_chain_safe now cfg rq s r s' : resolveRoutingChain now cfg rq s = (r, s') ->
  let policy := policyOf cfg rq in let candidates := candidatesOf cfg rq policy in
  (r = Throw OtherError <-> candidates = [] /\ (liveGate cfg rq = true \/ rc_registered cfg = [])) /\
  (forall e, r = Throw e -> e = OtherError) /\
  (forall res, r = Ok res -> rr_allCandidates res <> [] /\
     rr_primaryProviderId res = head (rr_allCandidates res) /\ rr_fallbackChain res = tail (rr_allCandidates res) /\
     if decide (candidates = []) then rr_allCandidates res = rc_registered cfg /\ liveGate cfg rq = false
     else exists closed opened, rr_allCandidates res = map cat_providerId (closed ++ opened) /\
       Forall (fun p => state_at now (cat_providerId p) (rs_circuits s) <> CB_OPEN) closed /\
       Forall (fun p => state_at now (cat_providerId p) (rs_circuits s) = CB_OPEN) opened /\
       (~ customised cfg rq -> closed ++ opened ≡ₚ candidates /\ Forall (admissible cfg rq) (closed ++ opened) /\
         forall p, admissible cfg rq p -> (forall x, truthy (rq_region rq) = Some x -> supportsCountry x p = true) ->
           (forall x, truthy (rq_currency rq) = Some x -> supportsCurrency x p = true) -> p ∈ closed ++ opened) /\
       (forall id, preferredOf rq policy = Some id -> (exists p, p ∈ closed /\ isProvider id p = true) ->
         exists p, head closed = Some p /\ isProvider id p = true) /\
       (~ customised cfg rq -> preferredOf rq policy = None ->
         comparator cfg (rs_health s) (strategyOf cfg rq policy) rq = Some byPriority ->
         StronglySorted (fun a b => cat_priority a <= cat_priority b) closed /\
         StronglySorted (fun a b => cat_priority a <= cat_priority b) opened)) /\
  (forall q, state_at now q (rs_circuits s') = state_at now q (rs_circuits s)) /\ rs_health s' = rs_health s.
Proof.
  intros H policy candidates. unfold resolveRoutingChain in H. fold policy candidates in H.
  pose proof (candidatesOf_admissible cfg rq) as Hadm. fold policy candidates in Hadm.
  destruct candidates as [|c0 cs] eqn:Ec.
  { destruct (liveGate cfg rq) eqn:El; [rewrite throw_run in H; simplify_eq; naive_solver|].
    destruct (rc_registered cfg) as [|id ids] eqn:Er; [rewrite throw_run in H; simplify_eq; naive_solver|].
    rewrite ret_run in H. simplify_eq. split_and!; try done; [naive_solver|].
    intros res [= <-]. simpl. done. }
  assert (c0 :: cs <> []) as Hne by done. rewrite <- Ec in *. clearbody candidates. clear c0 cs Ec.
  destruct (ordered_run cfg (strategyOf cfg rq policy) rq candidates s Hne) as
    (ordered & s1 & Hord & Hone & Hc1 & Hh1 & Hperm & Hsort).
  rewrite bind_run, Hord in H. fold (elevated rq policy ordered) in H.
  destruct (partitionOpen_run now (elevated rq policy ordered) [] [] s1) as (s2 & Hpart & Hst & Hh2 & _).
  rewrite bind_run, Hpart, ret_run in H. simpl in H. rewrite Hc1 in H. injection H as <- <-.
  set (closed := List.filter _ _). set (opened := List.filter (is_open now (rs_circuits s)) _).
  assert (Hall : closed ++ opened ≡ₚ ordered) by (etrans; [apply filter_split|apply elevated_perm]).
  assert (closed ++ opened <> []) as Hnil.
  { intros E. rewrite E in Hall. by apply Permutation_nil_l in Hall. }
  split_and!; [split; [done|by intros [? _]]|done| |by rewrite Hc1 in Hst|congruence].
  intros res [= <-]. simpl. split; [by intros ?%map_eq_nil|]. split; [done|]. split; [done|].
  destruct (decide (candidates = [])); [done|].
  exists closed, opened. split; [done|]. split_and!.
  - apply Forall_forall. intros p [_ Hp]%elem_filter. by apply negb_true_iff, bool_decide_eq_false in Hp.
  - apply Forall_forall. intros p [_ Hp]%elem_filter. by apply bool_decide_eq_true in Hp.
  - intros Hc. assert (closed ++ opened ≡ₚ candidates) as Hcand by (rewrite Hall; auto). split_and!; [done| |].
    + rewrite Hcand. apply Forall_forall. intros p Hp. by apply Hadm.
    + intros p Hp Hr Hcur. rewrite Hcand. by apply Hadm.
  - intros id Hid. by apply elevated_first.
  - intros Hc Hpref Hcmp. unfold closed, opened, elevated. rewrite Hpref.
    split; apply filter_sorted; auto.
Qed.

(** ** The route of a payment: payment-routing.service.ts *)
Record PaymentRoutingRequest : Type := {
  pq_country : option string;
  pq_currency : option string;
  pq_paymentMethod : option string;
  pq_amountPaise : Z;
}.
Record PaymentCandidate : Type := {
  pc_providerId : string;
  pc_eligible : bool;
  pc_score : Z;
  pc_fee : Q;
  pc_percentage : Q;
  pc_fixed : Q;
}.
Record PaymentRoutingDecision : Type := {
  pd_primaryProviderId : string;
  pd_fallbackChain : list string;
  pd_allCandidates : list string;
  pd_feeAmount : Q;
  pd_feePercentage : Q;
  pd_feeFixed : Q;
}.
Definition methodMatches (method m : string) : bool :=
  let normM := uppercase m in
  if String.eqb method "UPI" && bool_decide (normM ∈ ["UPI"; "UPI_INTENT"]) then true
  else if String.eqb method "CARD" && (includes "CARD" normM || String.eqb normM "CREDIT_CARD") then true
  else if String.eqb method "INTERNATIONAL_CARD" && bool_decide (normM ∈ ["INTERNATIONAL_CARD"; "LOCAL_CARD"]) then true
  else String.eqb normM method.
Definition paymentCountry (rq : PaymentRoutingRequest) : string := uppercase (str_or (pq_country rq) "IN").
Definition paymentCurrency (rq : PaymentRoutingRequest) : string := uppercase (str_or (pq_currency rq) "INR").
Definition paymentMethod (rq : PaymentRoutingRequest) : option string := uppercase <$> truthy (pq_paymentMethod rq).
Definition countryMatch (country : string) (p : CatalogProvider) : bool :=
  bool_decide ("ALL" ∈ cat_supportedCountries p) || supports uppercase (cat_supportedCountries p) country.
Definition currencyMatch (currency : string) (p : CatalogProvider) : bool :=
  match cat_supportedCurrencies p with [] => true | l => supports uppercase l currency end.
Definition methodMatch (method : option string) (p : CatalogProvider) : bool :=
  match method, cat_supportedPaymentMethods p with
  | Some m, Some l => existsb (methodMatches m) l || String.eqb (cat_providerId p) "mock_payment"
  | _, _ => true
  end.
(** [eligible] of a provider whose circuit is in state [cb]. *)
Definition paymentEligible (production : bool) (rq : PaymentRoutingRequest) (p : CatalogProvider) (cb : CircuitState) : bool :=
  countryMatch (paymentCountry rq) p && currencyMatch (paymentCurrency rq) p && methodMatch (paymentMethod rq) p &&
  negb (bool_decide (cb = CB_OPEN)) &&
  negb (production && negb (bool_decide (cat_certificationLevel p = Some CL_PRODUCTION_VALIDATED))).
Definition costScore (amount fee : Q) : Z :=
  let maxPossibleFee := js_max 1 (js_add (js_mul amount (rnd (5 # 100))) 1) in
  Z.max 0 (js_round (js_mul (js_sub 1 (js_div fee maxPossibleFee)) 20)).
Definition paymentScore (rq : PaymentRoutingRequest) (p : CatalogProvider) (cb : CircuitState) (eligible : bool) (fee : Q) : Z :=
  let health := match cb with CB_CLOSED => 30 | CB_HALF_OPEN => 15 | CB_OPEN => 0 end in
  let match_ := if eligible && bool_decide (is_Some (paymentMethod rq)) then 25 else 10 in
  let regionalFit := if countryMatch (paymentCountry rq) p then 15 else 0 in
  let priorityScore := Z.max 0 (30 - Z.min (cat_priority p) 30) in
  let latencyScore := if js_le (rnd (999 # 10)) (opt_num (cat_slaUptimePercent p) (995 # 10)) then 10 else 5 in
  health + match_ + regionalFit + priorityScore + costScore (rupees (pq_amountPaise rq)) fee + latencyScore.
Definition getCostModel (models : list (string * ProviderCostModel)) (category providerId : string) : option ProviderCostModel :=
  snd <$> List.find (fun p => String.eqb (fst p) (lowercase (category +:+ ":" +:+ providerId))) models.
Definition paymentCandidate (cfg : RoutingConfig) (rq : PaymentRoutingRequest) (p : CatalogProvider) (cb : CircuitState)
    : PaymentCandidate :=
  let eligible := paymentEligible (rc_production cfg) rq p cb in
  let fee := estimateCost (rc_costModels cfg) (cat_providerId p) (rupees (pq_amountPaise rq)) (Some (paymentCountry rq)) None in
  let model := getCostModel (rc_costModels cfg) "PAYMENT" (cat_providerId p) in
  {| pc_providerId := cat_providerId p; pc_eligible := eligible;
     pc_score := if eligible then paymentScore rq p cb eligible fee else -1; pc_fee := fee;
     pc_percentage := opt_num (cm_percentageFee <$> model) 0; pc_fixed := opt_num (cm_fixedFee <$> model) 0 |}.
Fixpoint paymentCandidates (now : Z) (cfg : RoutingConfig) (rq : PaymentRoutingRequest) (l : list CatalogProvider)
    : M CircuitStore (list PaymentCandidate) :=
  match l with
  | [] => mret []
  | p :: l' =>
    cb ← getState now (cat_providerId p) None;
    rest ← paymentCandidates now cfg rq l';
    mret (paymentCandidate cfg rq p cb :: rest)
  end.
Definition resolvePaymentRoute (now : Z) (cfg : RoutingConfig) (rq : PaymentRoutingRequest)
    : M CircuitStore PaymentRoutingDecision :=
  candidates ← paymentCandidates now cfg rq (rc_catalog cfg);
  match sort_with (fun a b => pc_score b <? pc_score a) (List.filter pc_eligible candidates) with
  | [] => throw BadRequestException
  | winner :: rest =>
    mret {| pd_primaryProviderId := pc_providerId winner; pd_fallbackChain := map pc_providerId rest;
            pd_allCandidates := pc_providerId winner :: map pc_providerId rest; pd_feeAmount := pc_fee winner;
            pd_feePercentage := pc_percentage winner; pd_feeFixed := pc_fixed winner |}
  end.

(** ** Laws of the payment route *)
Definition evaluated (now : Z) (cfg : RoutingConfig) (rq : PaymentRoutingRequest) (s : CircuitStore) (p : CatalogProvider) :=
  paymentCandidate cfg rq p (state_at now (cat_providerId p) s).
Lemma paymentCandidates_run now cfg rq l : forall s, exists s',
  paymentCandidates now cfg rq l s = (Ok (map (evaluated now cfg rq s) l), s') /\
  forall q, state_at now q s' = state_at now q s.
Proof.
  induction l as [|p l IH]; intros s; simpl; [by exists s|].
  destruct (getState_run now (cat_providerId p) s) as (s1 & H1 & Hst1). rewrite bind_run, H1.
  destruct (IH s1) as (s2 & H2 & Hst2). rewrite bind_run, H2. step. exists s2. split.
  - unfold evaluated at 2. do 3 f_equal. apply map_ext. intros q. unfold evaluated. by rewrite Hst1.
  - intros q. by rewrite Hst2.
Qed.
Lemma sorted_map {A B} (f : A -> B) (R : B -> B -> Prop) l : StronglySorted (fun x y => R (f x) (f y)) l ->
  StronglySorted R (map f l).
Proof. induction 1; simpl; constructor; [done|]. by apply Forall_map. Qed.

(** A provider that may take the payment. *)
Definition payable (now : Z) (cfg : RoutingConfig) (rq : PaymentRoutingRequest) (s : CircuitStore) (p : CatalogProvider) : bool :=
  paymentEligible (rc_production cfg) rq p (state_at now (cat_providerId p) s).
Definition score_of (now : Z) (cfg : RoutingConfig) (rq : PaymentRoutingRequest) (s : CircuitStore) (p : CatalogProvider) : Z :=
  pc_score (evaluated now cfg rq s p).

(** A payment goes to the best gateway there is.  Resolving fails, with a
    bad request, exactly when no gateway of the catalogue may take the payment;
    otherwise the primary and its fallbacks are all gateways that may, best
    score first, every one of them supporting the country, the currency and
    the method, with a circuit that is not open and, in production, certified;
    the fee quoted is the primary's.  No circuit answers differently
    afterwards. *)
Theorem payment_route_best now cfg rq s r s' : resolvePaymentRoute now cfg rq s = (r, s') ->
  (r = Throw BadRequestException <-> forall p, p ∈ rc_catalog cfg -> payable now cfg rq s p = false) /\
  (forall e, r = Throw e -> e = BadRequestException) /\
  (forall d, r = Ok d -> exists best rest,
     best :: rest ≡ₚ List.filter (payable now cfg rq s) (rc_catalog cfg) /\
     StronglySorted (fun p q => score_of now cfg rq s q <= score_of now cfg rq s p) (best :: rest) /\
     pd_primaryProviderId d = cat_providerId best /\ pd_fallbackChain d = map cat_providerId rest /\
     pd_allCandidates d = pd_primaryProviderId d :: pd_fallbackChain d /\
     pd_feeAmount d = estimateCost (rc_costModels cfg) (cat_providerId best) (rupees (pq_amountPaise rq))
                        (Some (paymentCountry rq)) None /\
     Forall (fun p => countryMatch (paymentCountry rq) p = true /\ currencyMatch (paymentCurrency rq) p = true /\
       methodMatch (paymentMethod rq) p = true /\ state_at now (cat_providerId p) s <> CB_OPEN /\
       (rc_production cfg = true -> cat_certificationLevel p = Some CL_PRODUCTION_VALIDATED)) (best :: rest)) /\
  (forall q, state_at now q s' = state_at now q s).
Proof.
  unfold resolvePaymentRoute. destruct (paymentCandidates_run now cfg rq (rc_catalog cfg) s) as (s1 & Hrun & Hst).
  rewrite bind_run, Hrun, filter_map_swap, sort_with_map. intros H.
  change (fun x => pc_eligible (evaluated now cfg rq s x)) with (payable now cfg rq s) in H.
  change (fun a b => pc_score (evaluated now cfg rq s b) <? pc_score (evaluated now cfg rq s a)) with
    (fun a b => score_of now cfg rq s b <? score_of now cfg rq s a) in H.
  set (l := List.filter (payable now cfg rq s) (rc_catalog cfg)) in *.
  assert (Hnone : l = [] <-> forall p, p ∈ rc_catalog cfg -> payable now cfg rq s p = false).
  { split.
    - intros El p Hp. apply not_true_iff_false. intros Ht. assert (p ∈ l) as Hin by (by apply elem_filter).
      rewrite El in Hin. by apply elem_of_nil in Hin.
    - intros Hall. destruct l as [|p l'] eqn:El; [done|]. assert (p ∈ p :: l') as Hin by (by left).
      rewrite <- El in Hin. apply elem_filter in Hin as [Hin Ht]. by rewrite Hall in Ht. }
  pose proof (sort_with_perm (fun a b => score_of now cfg rq s b <? score_of now cfg rq s a) l) as Hperm.
  pose proof (sort_with_sorted (fun a b => score_of now cfg rq s b <? score_of now cfg rq s a)
    (fun p => - score_of now cfg rq s p)) as Hsort.
  specialize (Hsort ltac:(intros x y; destruct (Z.ltb_spec (score_of now cfg rq s y) (score_of now cfg rq s x)),
    (Z.ltb_spec (- score_of now cfg rq s x) (- score_of now cfg rq s y)); lia || done) l).
  destruct (sort_with _ l) as [|best rest]; simpl in H.
  - rewrite throw_run in H. simplify_eq. apply Permutation_nil_l in Hperm. split_and!; try done; [|naive_solver].
    split; [intros _; by apply Hnone|done].
  - rewrite ret_run in H. simplify_eq. rewrite <- Hnone. split_and!; try done.
    { split; [done|]. intros El. rewrite El in Hperm. symmetry in Hperm. by apply Permutation_nil_cons in Hperm. }
    intros d [= <-]. exists best, rest. simpl. rewrite !map_map. split_and!; try done.
    + clear - Hsort. induction Hsort as [|x l' Hl IH Hx]; constructor; [done|].
      eapply Forall_impl; [exact Hx|]. simpl. lia.
    + apply Forall_forall. intros p Hp. rewrite Hperm in Hp. apply elem_filter in Hp as [_ Hp].
      unfold payable, paymentEligible in Hp. rewrite !andb_true_iff, !negb_true_iff, bool_decide_eq_false in Hp.
      destruct Hp as ((((H1 & H2) & H3) & H4) & H5). split_and!; try done. intros Hpr. rewrite Hpr in H5. simpl in H5.
      by apply negb_false_iff, bool_decide_eq_true in H5.
Qed.

(** ** Concrete runs *)
Definition gateway (id : string) (priority : Z) (level : ProviderCertificationLevel) : CatalogProvider :=
  {| cat_providerId := id; cat_supportedEnvironments := [ENV_SANDBOX; ENV_LIVE];
     cat_supportedCapabilities := ["CREATE_ORDER"; "VERIFY_PAYMENT"]; cat_supportedCurrencies := ["INR"; "USD"];
     cat_supportedCountries := ["IN"]; cat_supportedPaymentMethods := Some ["UPI"; "CREDIT_CARD"];
     cat_priority := priority; cat_weight := None; cat_certificationLevel := Some level; cat_lifecycleState := None;
     cat_slaUptimePercent := Some (rnd (9995 # 100)) |}.
Definition gateways : list CatalogProvider :=
  [gateway "stripe" 2 CL_PRODUCTION_VALIDATED; gateway "razorpay" 1 CL_PRODUCTION_VALIDATED;
   gateway "cashfree" 3 CL_PRODUCTION_VALIDATED; gateway "mock_payment" 4 CL_CATALOG].
Definition gateway_config (policies : list ProviderPolicyRule) (chains : gmap string (list string)) : RoutingConfig :=
  {| rc_catalog := gateways; rc_registered := ["razorpay"]; rc_policies := policies; rc_costModels := [];
     rc_scores := None; rc_customFallbacks := chains; rc_defaultStrategies := ∅; rc_production := true |}.
Definition order_request : IntegrationExecutionRequest :=
  {| rq_category := "PAYMENT"; rq_capability := "create_payment"; rq_vendorId := None; rq_branchId := None;
     rq_region := Some "in"; rq_currency := Some "INR"; rq_environment := Some ENV_LIVE; rq_idempotencyKey := None;
     rq_preferredProviderId := None; rq_routingStrategy := None; rq_isIdempotent := false |}.
Definition razorpay_down : RoutingStore :=
  {| rs_circuits := open_circuits; rs_health := ∅; rs_counters := ∅ |}.
(** The ids of the chain resolved. *)
Definition resolved (now : Z) (cfg : RoutingConfig) (rq : IntegrationExecutionRequest) (s : RoutingStore) : option (list string) :=
  match fst (resolveRoutingChain now cfg rq s) with Ok res => Some (rr_allCandidates res) | Throw _ => None end.

Lemma routing_chain_safe_witness :
  resolved 2000 (gateway_config [] ∅) order_request razorpay_down = Some ["stripe"; "cashfree"; "razorpay"] /\
  state_at 2000 "razorpay" (rs_circuits (snd (resolveRoutingChain 2000 (gateway_config [] ∅) order_request razorpay_down)))
    = state_at 2000 "razorpay" (rs_circuits razorpay_down).
Proof.
  split; [by vm_compute|].
  destruct (resolveRoutingChain 2000 (gateway_config [] ∅) order_request razorpay_down) as [r s'] eqn:E.
  apply (routing_chain_safe 2000 (gateway_config [] ∅) order_request razorpay_down r s' E).
Defined.

Definition upi_payment : PaymentRoutingRequest :=
  {| pq_country := None; pq_currency := Some "inr"; pq_paymentMethod := Some "upi"; pq_amountPaise := 250000 |}.
Lemma payment_route_best_witness :
  (exists d, fst (resolvePaymentRoute 2000 (gateway_config [] ∅) upi_payment open_circuits) = Ok d /\
     pd_allCandidates d = ["stripe"; "cashfree"]) /\
  state_at 2000 "razorpay" (snd (resolvePaymentRoute 2000 (gateway_config [] ∅) upi_payment open_circuits)) = CB_OPEN.
Proof.
  split; [eexists; split; by vm_compute|].
  destruct (resolvePaymentRoute 2000 (gateway_config [] ∅) upi_payment open_circuits) as [r s'] eqn:E.
  destruct (payment_route_best 2000 (gateway_config [] ∅) upi_payment open_circuits r s' E) as (_ & _ & _ & H).
  simpl. rewrite (H "razorpay"). by vm_compute.
Defined.

(** A configured chain brings back what the policy denied and what the gate for
    live traffic excluded. *)
Definition deny_stripe : ProviderPolicyRule :=
  {| pr_id := "p1"; pr_enabled := true; pr_priority := 1; pr_category := None; pr_region := None; pr_currency := None;
     pr_tenantId := None; pr_vendorId := None; pr_branchId := None; pr_capabilities := None; pr_maxLatencyMs := None;
     pr_preferredProviderId := None; pr_allowedProviders := None; pr_deniedProviders := Some ["stripe"];
     pr_routingStrategy := None |}.
Lemma custom_chain_skips_gate :
  let cfg := gateway_config [deny_stripe] {[ "payment:platform" := ["mock_payment"; "stripe"; "razorpay"] ]} in
  map cat_providerId (candidatesOf cfg order_request (policyOf cfg order_request)) = ["razorpay"; "cashfree"] /\
  resolved 99000 cfg order_request razorpay_down = Some ["mock_payment"; "stripe"; "razorpay"].
Proof. split; by vm_compute. Qed.

(** The tenant of a rule is never asked for. *)
Lemma tenant_condition_ignored rule ctx t :
  policyApplies ctx {| pr_id := pr_id rule; pr_enabled := pr_enabled rule; pr_priority := pr_priority rule;
    pr_category := pr_category rule; pr_region := pr_region rule; pr_currency := pr_currency rule; pr_tenantId := t;
    pr_vendorId := pr_vendorId rule; pr_branchId := pr_branchId rule; pr_capabilities := pr_capabilities rule;
    pr_maxLatencyMs := pr_maxLatencyMs rule; pr_preferredProviderId := pr_preferredProviderId rule;
    pr_allowedProviders := pr_allowedProviders rule; pr_deniedProviders := pr_deniedProviders rule;
    pr_routingStrategy := pr_routingStrategy rule |} = policyApplies ctx rule.
Proof. done. Qed.
(** A fee of 1 means one per cent by itself and a hundred per cent for a region. *)
Lemma region_fee_of_one :
  let m regions := {| cm_providerId := "x"; cm_category := "PAYMENT"; cm_fixedFee := 0; cm_percentageFee := 1;
    cm_perRequestCost := 0; cm_perMessageCost := 0; cm_perGbCost := None; cm_minimumCharge := None; cm_tierRates := [];
    cm_currency := "INR"; cm_regionSpecificCosts := regions |} in
  Qeq_bool (feePercentage (m []) 500 (Some "in")) (rnd (1 # 100)) = true /\
  Qeq_bool (feePercentage (m [("IN", 1%Q)]) 500 (Some "in")) 1 = true.
Proof. split; by vm_compute. Qed.
