(* ===== verification/IntegrationRuntime.v ===== *)
(** * Calls of outside providers
    (src/car_rental_backend/src/integrations/runtime/)

    integration-runtime.service.ts ([execute]: replay, route, walk the chain of
    candidates, retry) and provider-simulation.service.ts, over the circuits
    and limits of Resilience.v and the routes of ProviderRouting.v.  The world
    outside is an argument: its clock, what a provider's adapter answers, what
    waiting does, the random numbers.  The calls made are recorded in a trace
    of their own ([rt_calls]), which no code reads; the audit trail, whose
    failures the code swallows, the log lines and the explanations are left
    out. *)
From S2P Require Import Prelude JsNumber Resilience ProviderRouting.
Open Scope Z_scope.

(** ** Simulation: provider-simulation.service.ts *)
Inductive SimulationScenario : Type :=
  | SIM_NONE | SIM_SUCCESS | SIM_TIMEOUT | SIM_NETWORK_FAILURE | SIM_AUTH_FAILURE | SIM_AUTH_401 | SIM_FORBIDDEN_403
  | SIM_RATE_LIMIT | SIM_RATE_LIMIT_429 | SIM_PROVIDER_DECLINED | SIM_SLOW_RESPONSE | SIM_MALFORMED_RESPONSE
  | SIM_INVALID_REQUEST | SIM_DUPLICATE | SIM_NOT_SUPPORTED | SIM_CONFIGURATION_FAILURE | SIM_WEBHOOK_FAILURE
  | SIM_WEBHOOK_SIGNATURE_MISMATCH | SIM_LATENCY_INJECTION | SIM_PARTIAL_FAILURE.
#[export] Instance SimulationScenario_eq_dec : EqDecision SimulationScenario.
Proof. solve_decision. Defined.
Abbreviation Scenarios := (gmap string SimulationScenario).

Definition setProviderSimulation (production : bool) (providerId : string) (scenario : SimulationScenario)
    : M Scenarios unit :=
  require (negb production) OtherError ;;
  if decide (scenario = SIM_NONE) then modify (fun m : Scenarios => delete providerId m)
  else modify (fun m : Scenarios => <[providerId := scenario]> m).
Definition shouldSimulate (production : bool) (scenarios : Scenarios) (providerId : string)
    (requested : option SimulationScenario) : bool :=
  negb production &&
  (bool_decide (default SIM_NONE requested <> SIM_NONE) || bool_decide (default SIM_NONE (scenarios !! providerId) <> SIM_NONE)).
Definition resolveScenario (scenarios : Scenarios) (providerId : string) (requested : option SimulationScenario)
    : SimulationScenario :=
  if decide (default SIM_NONE requested <> SIM_NONE) then default SIM_NONE requested
  else default SIM_NONE (scenarios !! providerId).

Definition failure (message : string) (code : string) (status : option Z) (retryAfter : option string) : ProviderFailure :=
  {| er_kind := None; er_code := code; er_message := message; er_status := status; er_retryAfter := retryAfter;
     er_retryAfterMs := None |}.
Definition simulateExecution (production livePayload : bool) (providerId capability : string)
    (scenario : SimulationScenario) : attempt_result Json ProviderFailure :=
  let fails message code status := Failed (failure message code status None) in
  if livePayload then
    fails ("[SIMULATION_SAFETY] Sandbox simulation cannot execute against LIVE production credentials for provider " +:+ providerId) "" None
  else if production then
    fails ("[SIMULATION_SAFETY] Sandbox simulation cannot execute in production environment for provider " +:+ providerId) "" None
  else
  match scenario with
  | SIM_SUCCESS => Returned (J_object ("sim_" +:+ providerId) None)
  | SIM_SLOW_RESPONSE => Returned (J_object ("sim_slow_" +:+ providerId) None)
  | SIM_LATENCY_INJECTION => Returned (J_object ("sim_lat_" +:+ providerId) None)
  | SIM_TIMEOUT => fails ("Provider " +:+ providerId +:+ " timed out after 5000ms") "ETIMEDOUT" (Some 504)
  | SIM_NETWORK_FAILURE => fails ("ECONNREFUSED: Connection refused by upstream " +:+ providerId) "ECONNREFUSED" None
  | SIM_AUTH_FAILURE => fails ("401 Unauthorized: Invalid API key for provider " +:+ providerId) "" (Some 401)
  | SIM_AUTH_401 => fails ("401 Unauthorized: Invalid API key or token expired for provider " +:+ providerId) "" (Some 401)
  | SIM_FORBIDDEN_403 =>
    fails ("403 Forbidden: Insufficient permissions for capability '" +:+ capability +:+ "' on " +:+ providerId) "" (Some 403)
  | SIM_RATE_LIMIT =>
    Failed (failure ("429 Too Many Requests: Rate limit exceeded for " +:+ providerId) "" (Some 429) (Some "2"))
  | SIM_RATE_LIMIT_429 =>
    Failed (failure ("429 Too Many Requests: Rate limit exceeded for " +:+ providerId) "" (Some 429) (Some "3"))
  | SIM_PROVIDER_DECLINED => fails ("402 Payment Required: Card was declined by bank via " +:+ providerId) "" (Some 402)
  | SIM_MALFORMED_RESPONSE => fails "SyntaxError: Unexpected token '<', <!DOCTYPE ... is not valid JSON" "MALFORMED_RESPONSE" None
  | SIM_INVALID_REQUEST =>
    fails ("400 Bad Request: Invalid request parameters supplied to " +:+ providerId) "INVALID_REQUEST" (Some 400)
  | SIM_DUPLICATE =>
    fails ("409 Conflict: Duplicate transaction detected on provider " +:+ providerId) "DUPLICATE_TRANSACTION" (Some 409)
  | SIM_NOT_SUPPORTED =>
    fails ("501 Not Implemented: Capability '" +:+ capability +:+ "' is not supported by " +:+ providerId) "NOT_SUPPORTED" (Some 501)
  | SIM_CONFIGURATION_FAILURE =>
    fails ("Configuration Error: Missing credentials or webhook secret for provider " +:+ providerId) "CONFIGURATION_ERROR" None
  | SIM_WEBHOOK_SIGNATURE_MISMATCH =>
    fails ("Webhook Signature Error: Signature mismatch on provider " +:+ providerId) "SIGNATURE_MISMATCH" (Some 400)
  | SIM_PARTIAL_FAILURE =>
    fails ("Partial Failure: Primary action completed but webhook notification failed on " +:+ providerId) "PARTIAL_FAILURE" (Some 207)
  | SIM_WEBHOOK_FAILURE =>
    fails ("Webhook Delivery Error: HMAC signature verification failed for " +:+ providerId) "WEBHOOK_VERIFICATION_FAILED" None
  | SIM_NONE => fails "Unsupported simulation scenario: NONE" "" None
  end.

(** ** Executing a request: integration-runtime.service.ts *)
Definition className (c : FailureClassification) : string :=
  match c with
  | FC_TRANSIENT => "TRANSIENT" | FC_RATE_LIMITED => "RATE_LIMITED" | FC_TIMEOUT => "TIMEOUT" | FC_NETWORK => "NETWORK"
  | FC_AUTHENTICATION => "AUTHENTICATION" | FC_INVALID_REQUEST => "INVALID_REQUEST"
  | FC_PROVIDER_DECLINED => "PROVIDER_DECLINED" | FC_DUPLICATE => "DUPLICATE" | FC_NOT_SUPPORTED => "NOT_SUPPORTED"
  | FC_CONFIGURATION => "CONFIGURATION" | FC_PERMANENT => "PERMANENT"
  end.
Inductive AttemptStatus : Type := AT_SUCCESS | AT_FAILED | AT_CIRCUIT_OPEN | AT_RATE_LIMITED | AT_TIMEOUT.
#[export] Instance AttemptStatus_eq_dec : EqDecision AttemptStatus.
Proof. solve_decision. Defined.
Record IntegrationAttemptRecord : Type := {
  ar_attemptNumber : Z;
  ar_providerId : string;
  ar_status : AttemptStatus;
  ar_errorClassification : option FailureClassification;
}.
Record ExecutionError : Type := {
  xe_code : string;
  xe_message : string;
  xe_classification : FailureClassification;
  xe_providerId : string;
}.
Record IntegrationExecutionResult : Type := {
  xr_success : bool;
  xr_data : Json;
  xr_error : option ExecutionError;
  xr_providerId : string;
  xr_attempts : list IntegrationAttemptRecord;
  xr_fallbackOccurred : bool;
}.
(** What [execute] takes besides what routing reads. *)
Record RuntimeRequest : Type := {
  rn_request : IntegrationExecutionRequest;
  rn_simulation : option SimulationScenario;
  rn_livePayload : bool;
}.

(** A call made: the provider and what came back. *)
Abbreviation ProviderCall := (string * attempt_result Json ProviderFailure)%type.

Record RuntimeStore (W : Type) : Type := {
  rt_routing : RoutingStore;
  rt_limiter : LimiterStore;
  rt_cache : Cache;
  rt_scenarios : Scenarios;
  rt_calls : list ProviderCall;
  rt_world : W;
}.
Arguments rt_routing {W} s : rename.
Arguments rt_limiter {W} s : rename.
Arguments rt_cache {W} s : rename.
Arguments rt_scenarios {W} s : rename.
Arguments rt_calls {W} s : rename.
Arguments rt_world {W} s : rename.

(** What the loops of [execute] carry. *)
Record Progress : Type := {
  pg_attempts : list IntegrationAttemptRecord;
  pg_result : Json;
  pg_provider : string;
  pg_error : option ExecutionError;
  pg_fallback : bool;
}.
Definition attempted (p : string) (st : AttemptStatus) (c : option FailureClassification) (g : Progress) : Progress :=
  {| pg_attempts := pg_attempts g ++ [{| ar_attemptNumber := Z.of_nat (length (pg_attempts g)) + 1; ar_providerId := p;
                                         ar_status := st; ar_errorClassification := c |}];
     pg_result := pg_result g; pg_provider := pg_provider g; pg_error := pg_error g; pg_fallback := pg_fallback g |}.
Definition answered (p : string) (j : Json) (g : Progress) : Progress :=
  {| pg_attempts := pg_attempts g; pg_result := j; pg_provider := p; pg_error := pg_error g; pg_fallback := pg_fallback g |}.
Definition erred (e : ExecutionError) (g : Progress) : Progress :=
  {| pg_attempts := pg_attempts g; pg_result := pg_result g; pg_provider := pg_provider g; pg_error := Some e;
     pg_fallback := pg_fallback g |}.
Definition fellBack (b : bool) (g : Progress) : Progress :=
  {| pg_attempts := pg_attempts g; pg_result := pg_result g; pg_provider := pg_provider g; pg_error := pg_error g;
     pg_fallback := b || pg_fallback g |}.

Section runtime.
(** The world: its clock, a call of a provider's adapter, a wait, a random
    number. *)
Context {W : Type} (clock : W -> Z) (adapter : string -> W -> attempt_result Json ProviderFailure * W)
  (sleep : Q -> W -> W) (random : W -> Q).
Abbreviation Store := (RuntimeStore W).
Implicit Types (s : Store).

Definition set_rt_routing (x : RoutingStore) s : Store :=
  {| rt_routing := x; rt_limiter := rt_limiter s; rt_cache := rt_cache s; rt_scenarios := rt_scenarios s;
     rt_calls := rt_calls s; rt_world := rt_world s |}.
Definition set_rt_limiter (x : LimiterStore) s : Store :=
  {| rt_routing := rt_routing s; rt_limiter := x; rt_cache := rt_cache s; rt_scenarios := rt_scenarios s;
     rt_calls := rt_calls s; rt_world := rt_world s |}.
Definition set_rt_cache (x : Cache) s : Store :=
  {| rt_routing := rt_routing s; rt_limiter := rt_limiter s; rt_cache := x; rt_scenarios := rt_scenarios s;
     rt_calls := rt_calls s; rt_world := rt_world s |}.
Definition set_rt_world (w : W) s : Store :=
  {| rt_routing := rt_routing s; rt_limiter := rt_limiter s; rt_cache := rt_cache s; rt_scenarios := rt_scenarios s;
     rt_calls := rt_calls s; rt_world := w |}.
Definition called (x : ProviderCall) (w : W) s : Store :=
  {| rt_routing := rt_routing s; rt_limiter := rt_limiter s; rt_cache := rt_cache s; rt_scenarios := rt_scenarios s;
     rt_calls := rt_calls s ++ [x]; rt_world := w |}.
Definition now_of s : Z := clock (rt_world s).
Definition circuits_of s : CircuitStore := rs_circuits (rt_routing s).
Definition set_circuits_of (c : CircuitStore) s : Store := set_rt_routing (set_rs_circuits c (rt_routing s)) s.
Definition on_circuits {A} (m : M CircuitStore A) : M Store A := zoom circuits_of set_circuits_of m.
Definition on_limiter {A} (m : M LimiterStore A) : M Store A := zoom rt_limiter set_rt_limiter m.
Definition health_of s : HealthStore := rs_health (rt_routing s).
Definition set_health_of (h : HealthStore) s : Store :=
  set_rt_routing {| rs_circuits := rs_circuits (rt_routing s); rs_health := h; rs_counters := rs_counters (rt_routing s) |} s.
Definition on_health {A} (m : M HealthStore A) : M Store A := zoom health_of set_health_of m.

(** One call, simulated or not. *)
Definition invoke (production : bool) (rn : RuntimeRequest) (p : string)
    : M Store (attempt_result Json ProviderFailure) := fun s =>
  let '(r, w) :=
    if shouldSimulate production (rt_scenarios s) p (rn_simulation rn)
    then (simulateExecution production (rn_livePayload rn) p (rq_capability (rn_request rn))
            (resolveScenario (rt_scenarios s) p (rn_simulation rn)), rt_world s)
    else adapter p (rt_world s) in
  (Ok r, called (p, r) w s).

Definition mayRepeat (rq : IntegrationExecutionRequest) : bool :=
  rq_isIdempotent rq || bool_decide (is_Some (truthy (rq_idempotencyKey rq))).
Definition attemptStatus (c : FailureClassification) : AttemptStatus :=
  match c with FC_TIMEOUT => AT_TIMEOUT | FC_RATE_LIMITED => AT_RATE_LIMITED | _ => AT_FAILED end.
Definition maxRetriesOnProvider : nat := 2.

(** One attempt on a provider, with its records. *)
Definition error_of (p : string) (err : ProviderFailure) : ExecutionError :=
  {| xe_code := str_or (Some (er_code err)) "PROVIDER_ERROR";
     xe_message := str_or (Some (er_message err)) "Execution failed on provider";
     xe_classification := classify err; xe_providerId := p |}.
Definition attempt (production : bool) (rn : RuntimeRequest) (p : string) (g : Progress)
    : M Store (attempt_result Json ProviderFailure * Progress) :=
  start ← get;
  outcome ← invoke production rn p;
  stop ← get;
  let latency := now_of stop - now_of start in
  let category := rq_category (rn_request rn) in
  match outcome with
  | Returned j =>
    on_circuits (recordSuccess p None) ;;
    on_health (recordExecutionOutcome category p true latency None) ;;
    mret (outcome, answered p j (attempted p AT_SUCCESS None g))
  | Failed err =>
    let c := classify err in
    on_circuits (recordFailure (now_of stop) p (Some (className c))) ;;
    on_health (recordExecutionOutcome category p false latency (Some c)) ;;
    mret (outcome, erred (error_of p err) (attempted p (attemptStatus c) (Some c) g))
  end.
(** The attempts on a provider, [left] retries still allowed; whether one
    succeeded. *)
Fixpoint tryProvider (production : bool) (rn : RuntimeRequest) (p : string) (left : nat) (g : Progress)
    : M Store (bool * Progress) :=
  r ← attempt production rn p g;
  match r, left with
  | (Returned _, g'), _ => mret (true, g')
  | (Failed err, g'), S left' =>
    if isRetryable (classify err) && mayRepeat (rn_request rn) then
      modify (fun s => set_rt_world (sleep (calculateBackoff (Z.of_nat (maxRetriesOnProvider - left)) err
                                              (random (rt_world s)) 100 5000) (rt_world s)) s) ;;
      tryProvider production rn p left' g'
    else mret (false, g')
  | (Failed _, g'), O => mret (false, g')
  end.

(** A candidate: circuit, rate, slot, then the attempts; the slot is given
    back whatever happens. *)
Definition tryCandidate (production : bool) (rn : RuntimeRequest) (p : string) (g : Progress)
    : M Store (bool * Progress) :=
  s ← get;
  canExec ← on_circuits (canExecute (now_of s) p None);
  if negb canExec then mret (false, attempted p AT_CIRCUIT_OPEN (Some FC_TRANSIENT) g) else
  allowed ← on_limiter (isAllowed (now_of s) p);
  if negb allowed then mret (false, attempted p AT_RATE_LIMITED (Some FC_RATE_LIMITED) g) else
  slot ← on_limiter (acquireConcurrency p);
  if negb slot then mret (false, attempted p AT_RATE_LIMITED (Some FC_RATE_LIMITED) g) else
  try_finally (tryProvider production rn p maxRetriesOnProvider g) (on_limiter (releaseConcurrency p)).

(** The walk along the chain; [first]: the candidate is the primary. *)
Fixpoint walkChain (production : bool) (rn : RuntimeRequest) (first : bool) (l : list string) (g : Progress)
    : M Store Progress :=
  match l with
  | [] => mret g
  | p :: l' =>
    r ← tryCandidate production rn p (fellBack (negb first) g);
    match r with
    | (true, g') => mret g'
    | (false, g') => walkChain production rn false l' g'
    end
  end.

Definition failed_result (e : ExecutionError) (p : string) (attempts : list IntegrationAttemptRecord) (fallback : bool)
    : IntegrationExecutionResult :=
  {| xr_success := false; xr_data := J_undefined; xr_error := Some e; xr_providerId := p; xr_attempts := attempts;
     xr_fallbackOccurred := fallback |}.
Definition is_undefined (j : Json) : bool := match j with J_undefined => true | _ => false end.

(** Replay of a key already answered. *)
Definition replay (rq : IntegrationExecutionRequest) : M Store (option IntegrationExecutionResult) :=
  match truthy (rq_idempotencyKey rq) with
  | None => mret None
  | Some key =>
    s ← get;
    cached ← zoom rt_cache set_rt_cache (checkIdempotency (now_of s) key);
    mret (if json_truthy cached
          then Some {| xr_success := true; xr_data := cached; xr_error := None; xr_providerId := "cached_idempotency";
                       xr_attempts := []; xr_fallbackOccurred := false |}
          else None)
  end.
(** Steps 3 and 4 of [execute]. *)
Definition runChain (production : bool) (rn : RuntimeRequest) (res : RoutingResolution)
    : M Store IntegrationExecutionResult :=
  let rq := rn_request rn in
  let primary := default "undefined" (rr_primaryProviderId res) in
  g ← walkChain production rn true (primary :: rr_fallbackChain res)
        {| pg_attempts := []; pg_result := J_undefined; pg_provider := primary; pg_error := None; pg_fallback := false |};
  if is_undefined (pg_result g) then
    mret (failed_result (default {| xe_code := "ALL_PROVIDERS_FAILED";
                                    xe_message := "All configured providers in fallback chain failed execution";
                                    xe_classification := FC_PERMANENT; xe_providerId := pg_provider g |} (pg_error g))
            (pg_provider g) (pg_attempts g) (pg_fallback g))
  else
    match truthy (rq_idempotencyKey rq) with
    | Some key => s ← get; zoom rt_cache set_rt_cache (cacheSuccess (now_of s) key (pg_result g))
    | None => mret tt
    end ;;
    mret {| xr_success := true; xr_data := pg_result g; xr_error := None; xr_providerId := pg_provider g;
            xr_attempts := pg_attempts g; xr_fallbackOccurred := pg_fallback g |}.
Definition execute (cfg : RoutingConfig) (rn : RuntimeRequest) : M Store IntegrationExecutionResult :=
  let rq := rn_request rn in
  cached ← replay rq;
  match cached with
  | Some x => mret x
  | None =>
    s ← get;
    resolution ← try_catch (res ← zoom rt_routing set_rt_routing (resolveRoutingChain (now_of s) cfg rq); mret (Some res))
                           (fun _ => mret None);
    match resolution with
    | None =>
      mret (failed_result {| xe_code := "ROUTING_FAILED"; xe_message := "No provider found";
                             xe_classification := FC_CONFIGURATION; xe_providerId := "none" |} "none" [] false)
    | Some res => runChain (rc_production cfg) rn res
    end
  end.
End runtime.

(** ** What the parts of [execute] do *)
Lemma getOrCreate_Ok key s : exists c s1, getOrCreate key s = (Ok c, s1).
Proof. unfold getOrCreate. step. destruct (cb_circuits s !! key.1); step; eauto. Qed.
Lemma canExecute_Ok now p q s : exists b s1, canExecute now p q s = (Ok b, s1).
Proof.
  unfold canExecute. destruct (getOrCreate_Ok (normalizeKey p q) s) as (c & s1 & H). rewrite bind_run, H.
  unfold putCircuit. step. eauto.
Qed.
Lemma recordSuccess_Ok p q s : exists b s1, recordSuccess p q s = (Ok b, s1).
Proof.
  unfold recordSuccess. destruct (getOrCreate_Ok (normalizeKey p q) s) as (c & s1 & H). rewrite bind_run, H.
  unfold putCircuit. step. eauto.
Qed.
Lemma recordFailure_Ok now p q s : exists b s1, recordFailure now p q s = (Ok b, s1).
Proof.
  unfold recordFailure. destruct (getOrCreate_Ok (categoryKey p q) s) as (c & s1 & H). rewrite bind_run, H.
  unfold putCircuit. step. eauto.
Qed.

(** The slots in use of every key. *)
Definition slots (l : LimiterStore) (k : string) : Z := tk_activeCount (trackerOf l k).
Lemma slots_set k t l k' : slots (set_tracker k t l) k' = if decide (k' = k) then tk_activeCount t else slots l k'.
Proof. unfold slots. rewrite trackerOf_set. by destruct (decide (k' = k)). Qed.
Lemma isAllowed_slots now p l : exists b l1, isAllowed now p l = (Ok b, l1) /\ forall k, slots l1 k = slots l k.
Proof.
  unfold isAllowed. repeat case_match; (eexists _, _; split; [reflexivity|]); intros k; rewrite slots_set;
    (destruct (decide _) as [->|]; done).
Qed.
Lemma acquire_slots p l : exists b l1, acquireConcurrency p l = (Ok b, l1) /\
  forall k, slots l1 k = slots l k + if decide (k = lowercase p) then (if b then 1 else 0) else 0.
Proof.
  unfold acquireConcurrency. destruct (_ <=? _); (eexists _, _; split; [reflexivity|]); intros k; rewrite slots_set;
    (destruct (decide _) as [->|]; [unfold slots; simpl; lia|lia]).
Qed.
Lemma release_slots p l : 0 < slots l (lowercase p) -> exists l1, releaseConcurrency p l = (Ok tt, l1) /\
  forall k, slots l1 k = slots l k - if decide (k = lowercase p) then 1 else 0.
Proof.
  intros Hp. unfold releaseConcurrency. unfold slots, trackerOf in Hp.
  destruct (rl_trackers l !! lowercase p) as [t|] eqn:E; simpl in Hp; [|lia].
  rewrite (proj2 (Z.ltb_lt _ _) Hp). eexists. split; [reflexivity|]. intros k. rewrite slots_set.
  destruct (decide _) as [->|]; [|lia]. unfold slots, trackerOf. rewrite E. done.
Qed.

Section runtime_laws.
Context {W : Type} (clock : W -> Z) (adapter : string -> W -> attempt_result Json ProviderFailure * W)
  (sleep : Q -> W -> W) (random : W -> Q).
Abbreviation Store := (RuntimeStore W).
Implicit Types (s : Store).
Abbreviation tryProvider := (tryProvider clock adapter sleep random).
Abbreviation tryCandidate := (tryCandidate clock adapter sleep random).
Abbreviation walkChain := (walkChain clock adapter sleep random).
Abbreviation runChain := (runChain clock adapter sleep random).
Abbreviation execute := (execute clock adapter sleep random).

(** [s] and [s'] differ in the routing store only. *)
Definition unrouted s s' : Prop := exists x, s' = set_rt_routing x s.
Lemma on_circuits_run {A} (m : M CircuitStore A) s : (exists a c, m (circuits_of s) = (Ok a, c)) ->
  exists a s', on_circuits m s = (Ok a, s') /\ unrouted s s'.
Proof.
  intros (a & c & H). exists a, (set_circuits_of c s). split; [apply zoom_run; eauto|]. by eexists.
Qed.
Lemma on_health_run category p b l c s : exists s', on_health (recordExecutionOutcome category p b l c) s = (Ok tt, s') /\
  unrouted s s'.
Proof. eexists. split; [reflexivity|]. by eexists. Qed.

(** The failures repeated on a provider before the last attempt. *)
Record repeated (rq : IntegrationExecutionRequest) (limit : nat) (errs : list ProviderFailure) : Prop := {
  rp_few : (length errs <= limit)%nat;
  rp_retryable : Forall (fun e => isRetryable (classify e) = true) errs;
  rp_allowed : errs <> [] -> mayRepeat rq = true;
}.
Definition failures_of (p : string) (errs : list ProviderFailure) : list ProviderCall := map (fun e => (p, Failed e)) errs.

(** What the attempts on a provider leave. *)
Record tried_on (rn : RuntimeRequest) (p : string) (limit : nat) (g : Progress) s (ok : bool) (g' : Progress) s' : Prop := {
  to_calls : exists errs last, repeated (rn_request rn) limit errs /\
    rt_calls s' = rt_calls s ++ failures_of p errs ++ [(p, last)] /\
    length (pg_attempts g') = (length (pg_attempts g) + length errs + 1)%nat /\
    match last with
    | Returned j => ok = true /\ pg_result g' = j /\ pg_provider g' = p
    | Failed e => ok = false /\ pg_result g' = pg_result g /\ pg_provider g' = pg_provider g /\
        pg_error g' = Some (error_of p e)
    end;
  to_fallback : pg_fallback g' = pg_fallback g;
  to_limiter : rt_limiter s' = rt_limiter s;
  to_cache : rt_cache s' = rt_cache s;
}.

Lemma attempt_run production rn p g s : exists o g' s',
  attempt clock adapter production rn p g s = (Ok (o, g'), s') /\
  rt_calls s' = rt_calls s ++ [(p, o)] /\ rt_limiter s' = rt_limiter s /\ rt_cache s' = rt_cache s /\
  pg_fallback g' = pg_fallback g /\ length (pg_attempts g') = (length (pg_attempts g) + 1)%nat /\
  match o with
  | Returned j => pg_result g' = j /\ pg_provider g' = p
  | Failed e => pg_result g' = pg_result g /\ pg_provider g' = pg_provider g /\ pg_error g' = Some (error_of p e)
  end.
Proof.
  assert (exists o w, invoke adapter production rn p s = (Ok o, called (p, o) w s)) as (o & w & Hi).
  { unfold invoke. destruct (if shouldSimulate _ _ _ _ then _ else _) as [o w]. eauto. }
  unfold attempt. rewrite get_bind, bind_run, Hi, get_bind. set (s1 := called (p, o) w s). destruct o as [j|e].
  - destruct (on_circuits_run (recordSuccess p None) s1) as (a & s2 & Hs & [x ->]); [apply recordSuccess_Ok|].
    rewrite bind_run, Hs. step. eexists _, _, _. split; [reflexivity|]. simpl. by rewrite length_app.
  - destruct (on_circuits_run (recordFailure (now_of clock s1) p (Some (className (classify e)))) s1)
      as (a & s2 & Hs & [x ->]); [apply recordFailure_Ok|].
    rewrite bind_run, Hs. step. eexists _, _, _. split; [reflexivity|]. simpl. by rewrite length_app.
Qed.
Lemma tryProvider_run production rn p left : forall g s, exists ok g' s',
  tryProvider production rn p left g s = (Ok (ok, g'), s') /\ tried_on rn p left g s ok g' s'.
Proof.
  induction left as [|left IH]; intros g s; simpl;
    destruct (attempt_run production rn p g s) as (o & g1 & s1 & Hrun & Hcalls & Hlim & Hcache & Hfb & Hlen & Ho);
    rewrite bind_run, Hrun.
  - assert (tried_on rn p 0 g s (match o with Returned _ => true | _ => false end) g1 s1) as Ht.
    { split; [|done|done|done]. exists [], o. split; [by split|]. split; [done|]. split; [simpl; lia|].
      destruct o; naive_solver. }
    destruct o; eexists _, _, _; (split; [reflexivity|exact Ht]).
  - assert (forall ok, ok = match o with Returned _ => true | _ => false end -> tried_on rn p (S left) g s ok g1 s1) as Ht.
    { intros ok ->. split; [|done|done|done]. exists [], o. split; [split; simpl; [lia|done|done]|]. split; [done|].
      split; [simpl; lia|]. destruct o; naive_solver. }
    destruct o as [j|e]; [eexists _, _, _; split; [reflexivity|by apply Ht]|].
    destruct (isRetryable (classify e) && mayRepeat (rn_request rn)) eqn:Er;
      [|eexists _, _, _; split; [reflexivity|by apply Ht]].
    rewrite modify_bind. destruct (IH g1 (set_rt_world (sleep (calculateBackoff
      (Z.of_nat (maxRetriesOnProvider - S left)) e (random (rt_world s1)) 100 5000) (rt_world s1)) s1))
      as (ok & g2 & s2 & Hrun2 & [(errs & last & [H1 H2 H3] & Hc & Hl & Hlast) Hfb2 Hlim2 Hcache2]).
    exists ok, g2, s2. split; [exact Hrun2|]. apply andb_true_iff in Er as [Er1 Er2].
    split; [|congruence|simpl in *; congruence|simpl in *; congruence]. exists (e :: errs), last. split_and!.
    + split; [simpl; lia|by constructor|done].
    + rewrite Hc. simpl. rewrite Hcalls, <- app_assoc. done.
    + simpl. lia.
    + destruct last; [done|]. destruct Hlast as (? & ? & ? & ?). destruct Ho as (? & ? & ?). split_and!; congruence.
Qed.

(** How a candidate is visited: passed over, or called. *)
Record visited (rn : RuntimeRequest) (p : string) (g : Progress) s (ok : bool) (g' : Progress) s' : Prop := {
  vs_calls :
    (ok = false /\ rt_calls s' = rt_calls s /\ pg_result g' = pg_result g /\ pg_provider g' = pg_provider g /\
     pg_error g' = pg_error g) \/
    exists errs last, repeated (rn_request rn) maxRetriesOnProvider errs /\
      rt_calls s' = rt_calls s ++ failures_of p errs ++ [(p, last)] /\
      match last with
      | Returned j => ok = true /\ pg_result g' = j /\ pg_provider g' = p
      | Failed e => ok = false /\ pg_result g' = pg_result g /\ pg_provider g' = pg_provider g /\
          pg_error g' = Some (error_of p e)
      end;
  vs_slots : (forall k, 0 <= slots (rt_limiter s) k) -> forall k, slots (rt_limiter s') k = slots (rt_limiter s) k;
  vs_cache : rt_cache s' = rt_cache s;
}.
Lemma on_limiter_run {A} (m : M LimiterStore A) s a l : m (rt_limiter s) = (Ok a, l) ->
  on_limiter m s = (Ok a, set_rt_limiter l s).
Proof. intros H. apply zoom_run. eauto. Qed.
Lemma tryCandidate_run production rn p g s : exists ok g' s',
  tryCandidate production rn p g s = (Ok (ok, g'), s') /\ visited rn p g s ok g' s'.
Proof.
  unfold IntegrationRuntime.tryCandidate. rewrite get_bind.
  destruct (on_circuits_run (canExecute (now_of clock s) p None) s) as (b1 & s1 & H1 & [x ->]); [apply canExecute_Ok|].
  rewrite bind_run, H1. destruct b1; cbv beta iota delta [negb];
    [|eexists _, _, _; split; [reflexivity|split; [by left|done|done]]].
  destruct (isAllowed_slots (now_of clock s) p (rt_limiter s)) as (b2 & l2 & H2 & Hs2).
  rewrite bind_run, (on_limiter_run _ (set_rt_routing x s) _ _ H2). destruct b2; cbv beta iota delta [negb];
    [|eexists _, _, _; split; [reflexivity|split; [by left|by intros; apply Hs2|done]]].
  destruct (acquire_slots p l2) as (b3 & l3 & H3 & Hs3).
  rewrite bind_run, (on_limiter_run _ (set_rt_limiter l2 (set_rt_routing x s)) _ _ H3). destruct b3; cbv beta iota delta [negb];
    [|eexists _, _, _; split; [reflexivity|split; [by left|intros; simpl; rewrite Hs3, Hs2; by case_decide; lia|done]]].
  set (s3 := set_rt_limiter l3 _).
  destruct (tryProvider_run production rn p maxRetriesOnProvider g s3) as (ok & g' & s4 & H4 & [Hc Hfb Hl Hca]).
  unfold try_finally. rewrite H4.
  destruct (decide (0 < slots (rt_limiter s4) (lowercase p))) as [Hpos|Hneg].
  - destruct (release_slots p (rt_limiter s4) Hpos) as (l5 & H5 & Hs5). rewrite (on_limiter_run _ s4 _ _ H5).
    eexists ok, g', _. split; [reflexivity|]. split; [|intros _ k; simpl|done].
    + right. destruct Hc as (errs & last & ? & ? & _ & ?). by exists errs, last.
    + rewrite Hs5, Hl. simpl. rewrite Hs3, Hs2. case_decide; lia.
  - assert (exists l5, releaseConcurrency p (rt_limiter s4) = (Ok tt, l5)) as (l5 & H5).
    { unfold releaseConcurrency. repeat case_match; eauto. }
    rewrite (on_limiter_run _ s4 _ _ H5). eexists ok, g', _. split; [reflexivity|]. split; [|intros Hpos; simpl|done].
    + right. destruct Hc as (errs & last & ? & ? & _ & ?). by exists errs, last.
    + exfalso. apply Hneg. rewrite Hl. simpl. rewrite Hs3, Hs2. specialize (Hpos (lowercase p)). rewrite decide_True by done. lia.
Qed.

(** The calls of a walk along a chain: a provider is passed over or called, up
    to [maxRetriesOnProvider] times more after failures that may be retried;
    the first success ends the walk. *)
Inductive walked (rq : IntegrationExecutionRequest) : list string -> list ProviderCall -> option (string * Json) -> Prop :=
  | walked_end : walked rq [] [] None
  | walked_past p ps calls out : walked rq ps calls out -> walked rq (p :: ps) calls out
  | walked_failed p ps errs e calls out : repeated rq maxRetriesOnProvider errs -> walked rq ps calls out ->
      walked rq (p :: ps) (failures_of p errs ++ (p, Failed e) :: calls) out
  | walked_done p ps errs j : repeated rq maxRetriesOnProvider errs ->
      walked rq (p :: ps) (failures_of p errs ++ [(p, Returned j)]) (Some (p, j)).

(** The error of the last failed call, or the one before. *)
Fixpoint last_error (d : option ExecutionError) (calls : list ProviderCall) : option ExecutionError :=
  match calls with
  | [] => d
  | (p, Failed e) :: l => last_error (Some (error_of p e)) l
  | (_, Returned _) :: l => last_error d l
  end.
Lemma last_error_failures p errs e calls d :
  last_error d (failures_of p errs ++ (p, Failed e) :: calls) = last_error (Some (error_of p e)) calls.
Proof. revert d. induction errs as [|x errs IH]; intros d; [done|]. simpl. apply IH. Qed.

Lemma walkChain_run production rn l : forall first g s, exists g' s' calls out,
  walkChain production rn first l g s = (Ok g', s') /\ rt_calls s' = rt_calls s ++ calls /\
  walked (rn_request rn) l calls out /\
  match out with
  | Some (p, j) => pg_result g' = j /\ pg_provider g' = p
  | None => pg_result g' = pg_result g /\ pg_provider g' = pg_provider g /\ pg_error g' = last_error (pg_error g) calls
  end /\
  ((forall k, 0 <= slots (rt_limiter s) k) -> forall k, slots (rt_limiter s') k = slots (rt_limiter s) k) /\
  rt_cache s' = rt_cache s.
Proof.
  induction l as [|p l IH]; intros first g s; simpl.
  { exists g, s, [], None. rewrite app_nil_r. split_and!; try done. constructor. }
  destruct (tryCandidate_run production rn p (fellBack (negb first) g) s) as (ok & g1 & s1 & H1 & [Hc Hs Hca]).
  rewrite bind_run, H1. destruct Hc as [(-> & Hcalls & Hr & Hp & He)|(errs & last & Hrep & Hcalls & Hlast)].
  - destruct (IH false g1 s1) as (g' & s' & calls & out & Hrun & Hc2 & Hw & Hout & Hs2 & Hca2).
    exists g', s', calls, out. split_and!; [exact Hrun|congruence|by constructor| | |congruence].
    + destruct out as [[q j]|]; [done|]. simpl in *. rewrite Hr, Hp, He in Hout. done.
    + intros Hpos k. rewrite Hs2; [by apply Hs|]. intros k'. rewrite Hs; auto.
  - destruct last as [j|e]; [destruct Hlast as (-> & Hr & Hp)|destruct Hlast as (-> & Hr & Hp & He)].
    + exists g1, s1, (failures_of p errs ++ [(p, Returned j)]), (Some (p, j)). split_and!; try done. by constructor.
    + destruct (IH false g1 s1) as (g' & s' & calls & out & Hrun & Hc2 & Hw & Hout & Hs2 & Hca2).
      exists g', s', (failures_of p errs ++ (p, Failed e) :: calls), out. split_and!; [exact Hrun| | | | |congruence].
      * rewrite Hc2, Hcalls, <- !app_assoc. done.
      * by constructor.
      * destruct out as [[q j]|]; [done|]. rewrite last_error_failures. simpl in *. rewrite Hr, Hp, He in Hout. done.
      * intros Hpos k. rewrite Hs2; [by apply Hs|]. intros k'. rewrite Hs; auto.
Qed.

Definition failing (c : ProviderCall) : Prop := match snd c with Failed _ => True | Returned _ => False end.
Lemma failures_failing p errs : Forall failing (failures_of p errs).
Proof. apply Forall_forall. intros c (e & <- & _)%list_elem_of_In%in_map_iff. done. Qed.
Lemma removelast_Forall {A} (P : A -> Prop) l : Forall P l -> Forall P (removelast l).
Proof. induction 1 as [|x [|y l] Hx Hl IH]; simpl in *; constructor; auto. Qed.
(** What a walk cannot do. *)
Lemma walked_facts rq l calls out : walked rq l calls out ->
  (length calls <= 3 * length l)%nat /\
  (mayRepeat rq = false -> map fst calls `sublist_of` l) /\
  match out with
  | Some (p, j) => exists fs, calls = fs ++ [(p, Returned j)] /\ Forall failing fs
  | None => Forall failing calls
  end.
Proof.
  assert (Hfs : forall p errs, repeated rq maxRetriesOnProvider errs ->
    (length (failures_of p errs) <= 2)%nat /\ (mayRepeat rq = false -> failures_of p errs = [])).
  { intros p errs [H1 _ H3]. unfold failures_of. rewrite length_map. split; [exact H1|]. intros Hm.
    destruct errs; [done|]. rewrite Hm in H3. by specialize (H3 ltac:(done)). }
  induction 1 as [|p ps calls out _ (IH1 & IH2 & IH3)|p ps errs e calls out Hr _ (IH1 & IH2 & IH3)|p ps errs j Hr].
  - split_and!; [simpl; lia|constructor|constructor].
  - split_and!; [simpl; lia| |done]. intros Hm. constructor. auto.
  - destruct (Hfs p errs Hr) as [Hl He]. split_and!.
    + rewrite length_app. simpl. lia.
    + intros Hm. rewrite (He Hm). simpl. constructor. auto.
    + destruct out as [[q j]|].
      * destruct IH3 as (fs & -> & Hf). exists (failures_of p errs ++ (p, Failed e) :: fs). rewrite <- app_assoc.
        split; [done|]. apply Forall_app. split; [apply failures_failing|by constructor].
      * apply Forall_app. split; [apply failures_failing|by constructor].
  - destruct (Hfs p errs Hr) as [Hl He]. split_and!.
    + rewrite length_app. simpl. lia.
    + intros Hm. rewrite (He Hm). simpl. constructor. apply sublist_nil_l.
    + exists (failures_of p errs). split; [done|apply failures_failing].
Qed.
Lemma walked_none rq l : walked rq l [] None.
Proof. induction l; constructor; done. Qed.

(** The chain walked: what routing resolves. *)
Definition chain_of (cfg : RoutingConfig) (rn : RuntimeRequest) s : list string :=
  match fst (resolveRoutingChain (now_of clock s) cfg (rn_request rn) (rt_routing s)) with
  | Ok res => rr_allCandidates res
  | Throw _ => []
  end.
(** Keys that are not [k]. *)
Definition other_key (rq : IntegrationExecutionRequest) (k : string) : Prop :=
  forall key, truthy (rq_idempotencyKey rq) = Some key -> lowercase key <> k.
Lemma replay_run rq s : exists o s', replay clock rq s = (Ok o, s') /\ rt_calls s' = rt_calls s /\
  rt_limiter s' = rt_limiter s /\ rt_routing s' = rt_routing s /\ rt_world s' = rt_world s /\
  (forall x, o = Some x -> xr_success x = true /\ xr_attempts x = [] /\ xr_providerId x = "cached_idempotency") /\
  (forall k, other_key rq k -> rt_cache s' !! k = rt_cache s !! k).
Proof.
  unfold replay, other_key. destruct (truthy (rq_idempotencyKey rq)) as [key|]; [|by eexists _, _].
  rewrite get_bind. assert (exists j c, checkIdempotency (now_of clock s) key (rt_cache s) = (Ok j, c) /\
    forall k, lowercase key <> k -> c !! k = rt_cache s !! k) as (j & c & H & Hother).
  { unfold checkIdempotency. rewrite get_bind.
    repeat case_match; step; (eexists _, _; split; [reflexivity|]); intros k Hk; [done|by rewrite lookup_delete_ne|done]. }
  rewrite bind_run, (proj2 (zoom_run rt_cache set_rt_cache _ s _ _)) by eauto.
  eexists _, _. split; [reflexivity|]. split_and!; try done.
  - intros x. destruct (json_truthy j); [|done]. by intros [= <-].
  - intros k Hk. apply Hother. auto.
Qed.
(** Walking the chain and saving the answer. *)
Lemma runChain_run production rn res s : exists x s' calls out,
  runChain production rn res s = (Ok x, s') /\ rt_calls s' = rt_calls s ++ calls /\
  walked (rn_request rn) (default "undefined" (rr_primaryProviderId res) :: rr_fallbackChain res) calls out /\
  ((forall k, 0 <= slots (rt_limiter s) k) -> forall k, slots (rt_limiter s') k = slots (rt_limiter s) k) /\
  match out with
  | Some (p, J_undefined) => xr_success x = false
  | Some (p, j) => xr_success x = true /\ xr_data x = j /\ xr_providerId x = p
  | None => xr_success x = false /\ (calls <> [] -> xr_error x = last_error None calls)
  end /\
  rt_cache s' = match (if xr_success x then truthy (rq_idempotencyKey (rn_request rn)) else None) with
                | Some key => <[lowercase key := {| ce_result := xr_data x; ce_timestamp := now_of clock s' |}]> (rt_cache s)
                | None => rt_cache s
                end.
Proof.
  unfold IntegrationRuntime.runChain.
  match goal with |- context [walkChain production rn true ?l ?g] =>
    destruct (walkChain_run production rn l true g s) as (g' & s' & calls & out & Hrun & Hc & Hw & Hout & Hs & Hca) end.
  rewrite bind_run, Hrun. destruct (is_undefined (pg_result g')) eqn:Eu.
  - step. eexists _, s', calls, out. split_and!; [reflexivity|done|done|done| |exact Hca].
    destruct out as [[p j]|].
    + destruct Hout as [<- _]. destruct (pg_result g'); done.
    + split; [done|]. intros Hne. simpl. destruct Hout as (_ & _ & ->). simpl.
      apply walked_facts in Hw as (_ & _ & Hf). destruct calls as [|[p [j|e]] calls]; [done|by inversion Hf|].
      simpl. clear. generalize (error_of p e). induction calls as [|[q [j|e']] calls IH]; intros x; simpl; auto.
  - destruct out as [[p j]|]; [destruct Hout as [<- <-]|by destruct Hout as (Hout & _); rewrite Hout in Eu].
    destruct (truthy (rq_idempotencyKey (rn_request rn))) as [key|].
    + step. rewrite bind_run, (proj2 (zoom_run rt_cache set_rt_cache _ s' _ _)) by (eexists; split; reflexivity).
      eexists _, _, calls, _. split_and!; [reflexivity|done|done|done|by destruct (pg_result g')|].
      simpl. by rewrite Hca.
    + step. eexists _, _, calls, _. split_and!; [reflexivity|done|done|done|by destruct (pg_result g')|exact Hca].
Qed.

(** [execute]: a replay, a failed routing, or a walk along the chain. *)
Lemma execute_run cfg rn s : exists x s' calls out,
  execute cfg rn s = (Ok x, s') /\ rt_calls s' = rt_calls s ++ calls /\
  walked (rn_request rn) (chain_of cfg rn s) calls out /\
  ((forall k, 0 <= slots (rt_limiter s) k) -> forall k, slots (rt_limiter s') k = slots (rt_limiter s) k) /\
  (calls <> [] -> match out with
   | Some (p, J_undefined) => xr_success x = false
   | Some (p, j) => xr_success x = true /\ xr_data x = j /\ xr_providerId x = p
   | None => xr_success x = false /\ xr_error x = last_error None calls
   end) /\
  (forall k, other_key (rn_request rn) k -> rt_cache s' !! k = rt_cache s !! k) /\
  (calls <> [] -> xr_success x = true -> forall key, truthy (rq_idempotencyKey (rn_request rn)) = Some key ->
   rt_cache s' !! lowercase key = Some {| ce_result := xr_data x; ce_timestamp := now_of clock s' |}).
Proof.
  unfold IntegrationRuntime.execute, chain_of.
  destruct (replay_run (rn_request rn) s) as (o & s1 & H1 & Hc1 & Hl1 & Hr1 & Hw1 & _ & Hk1).
  rewrite bind_run, H1. destruct o as [x|].
  { exists x, s1, [], None. rewrite app_nil_r. split_and!; [done|done|apply walked_none|by intros; rewrite Hl1|done|done|done]. }
  rewrite get_bind, bind_run. unfold try_catch. rewrite bind_run.
  replace (now_of clock s1) with (now_of clock s) by (unfold now_of; by rewrite Hw1).
  unfold zoom at 1. rewrite Hr1. destruct (resolveRoutingChain _ _ _ _) as [[res|e] st] eqn:Er; simpl fst.
  - rewrite ret_run. destruct (resolveRoutingChain_ids _ _ _ _ _ _ Er) as (id & ids & ->).
    destruct (runChain_run (rc_production cfg) rn (resolution (id :: ids) (strategyOf cfg (rn_request rn) (policyOf cfg (rn_request rn))))
      (set_rt_routing st s1)) as (x & s' & calls & out & Hrun & Hc & Hw & Hs & Hout & Hca).
    exists x, s', calls, out. simpl in Hca.
    split_and!; [exact Hrun|by rewrite Hc; simpl; rewrite Hc1|exact Hw| | | |].
    + intros Hpos k. simpl in Hs. rewrite Hs, Hl1; [done|]. by rewrite Hl1.
    + intros Hne. destruct out as [[p j]|]; [|naive_solver]. destruct j; naive_solver.
    + intros k Hk. rewrite Hca, <- Hk1 by done. destruct (xr_success x); [|done]. unfold other_key in Hk.
      destruct (truthy _) as [key|]; [|done]. rewrite lookup_insert_ne; [done|auto].
    + intros _ Hx key Hkey. rewrite Hca, Hx, Hkey. by rewrite lookup_insert_eq.
  - rewrite ret_run. eexists _, _, [], None. rewrite app_nil_r.
    split_and!; [reflexivity|done|apply walked_none|by intros; simpl; rewrite Hl1|done|done|done].
Qed.

(** C35. Executing a request calls providers only as far as it may.  It always
    answers; the calls it makes follow the chain routing resolved, at most
    three to a candidate and more than one only after failures that may be
    retried; a request that is neither idempotent nor keyed calls no candidate
    twice; nothing is called after a success; the answer is the one success,
    from the provider that gave it, or the error of the last failure; and
    every slot taken is given back. *)
Theorem execution_is_safe cfg rn s r s' : (forall k, 0 <= slots (rt_limiter s) k) -> execute cfg rn s = (r, s') ->
  exists x calls out, r = Ok x /\ rt_calls s' = rt_calls s ++ calls /\
    walked (rn_request rn) (chain_of cfg rn s) calls out /\
    (length calls <= 3 * length (chain_of cfg rn s))%nat /\
    (mayRepeat (rn_request rn) = false -> map fst calls `sublist_of` chain_of cfg rn s) /\
    Forall failing (removelast calls) /\
    (forall k, slots (rt_limiter s') k = slots (rt_limiter s) k) /\
    (calls <> [] -> match out with
     | Some (p, J_undefined) => xr_success x = false
     | Some (p, j) => xr_success x = true /\ xr_data x = j /\ xr_providerId x = p
     | None => xr_success x = false /\ xr_error x = last_error None calls
     end).
Proof.
  intros Hpos H. destruct (execute_run cfg rn s) as (x & s1 & calls & out & Hrun & Hc & Hw & Hs & Hx & _).
  rewrite Hrun in H. simplify_eq. exists x, calls, out. destruct (walked_facts _ _ _ _ Hw) as (H1 & H2 & H3).
  split_and!; auto. destruct out as [[p j]|]; [|by apply removelast_Forall].
  destruct H3 as (fs & -> & Hf). by rewrite removelast_last.
Qed.

(** ** Replays *)
Lemma replay_hit rq key s entry : rq_idempotencyKey rq = Some key -> key <> "" ->
  rt_cache s !! lowercase key = Some entry -> now_of clock s - ce_timestamp entry < IDEMPOTENCY_TTL_MS ->
  json_truthy (json_data_or_self (ce_result entry)) = true ->
  exists s', replay clock rq s = (Ok (Some {| xr_success := true; xr_data := json_data_or_self (ce_result entry);
    xr_error := None; xr_providerId := "cached_idempotency"; xr_attempts := []; xr_fallbackOccurred := false |}), s') /\
    rt_calls s' = rt_calls s.
Proof.
  intros Hk Hne Hc Ht Hj. unfold replay. rewrite Hk, (proj2 (truthy_ne key key)) by done.
  rewrite get_bind, bind_run.
  rewrite (proj2 (zoom_run rt_cache set_rt_cache _ s (Ok (json_data_or_self (ce_result entry))) (set_rt_cache (rt_cache s) s))).
  - rewrite Hj. eexists. split; [reflexivity|done].
  - exists (rt_cache s). split; [|done]. unfold checkIdempotency. rewrite get_bind, Hc, (proj2 (Z.ltb_lt _ _) Ht). done.
Qed.
(** A request leaves the answers of other keys alone. *)
Lemma execute_other_key cfg rn s r s' k : other_key (rn_request rn) k -> execute cfg rn s = (r, s') ->
  rt_cache s' !! k = rt_cache s !! k.
Proof.
  intros Hk H. destruct (execute_run cfg rn s) as (x & s1 & calls & out & Hrun & _ & _ & _ & _ & Hca & _).
  rewrite Hrun in H. simplify_eq. auto.
Qed.

(** Time goes by and requests with other keys are executed. *)
Inductive elsewhere (k : string) : Store -> Store -> Prop :=
  | el_here s : elsewhere k s s
  | el_execute cfg rn s r s1 s2 : other_key (rn_request rn) k -> execute cfg rn s = (r, s1) -> elsewhere k s1 s2 ->
      elsewhere k s s2
  | el_world w s s2 : elsewhere k (set_rt_world w s) s2 -> elsewhere k s s2.
Lemma elsewhere_keeps k s s' : elsewhere k s s' -> rt_cache s' !! k = rt_cache s !! k.
Proof.
  induction 1 as [s|cfg rn s r s1 s2 Hk H _ IH|w s s2 _ IH]; [done| |done]. rewrite IH. by eapply execute_other_key.
Qed.

(** A keyed request reaches a provider once.  When it was executed and a
    provider answered something that counts as true, then, whatever requests
    with other keys follow and whatever the world does, every request with the
    key (in any case of letters, of any kind) within a day of the answer is
    given that answer (its [data] field, where it has one) without any call. *)
Theorem key_calls_once cfg rn key s x s1 s2 cfg2 rn2 key2 :
  rq_idempotencyKey (rn_request rn) = Some key -> key <> "" -> execute cfg rn s = (Ok x, s1) -> xr_success x = true ->
  rt_calls s1 <> rt_calls s -> json_truthy (json_data_or_self (xr_data x)) = true ->
  elsewhere (lowercase key) s1 s2 -> now_of clock s2 - now_of clock s1 < IDEMPOTENCY_TTL_MS ->
  rq_idempotencyKey (rn_request rn2) = Some key2 -> key2 <> "" -> lowercase key2 = lowercase key ->
  exists s3, execute cfg2 rn2 s2 = (Ok {| xr_success := true; xr_data := json_data_or_self (xr_data x); xr_error := None;
    xr_providerId := "cached_idempotency"; xr_attempts := []; xr_fallbackOccurred := false |}, s3) /\
    rt_calls s3 = rt_calls s2.
Proof.
  intros Hk Hne H Hx Hcalled Hj Hel Ht Hk2 Hne2 Heq.
  destruct (execute_run cfg rn s) as (x' & s' & calls & out & Hrun & Hc & _ & _ & Hout & _ & Hsaved).
  rewrite Hrun in H. simplify_eq. assert (calls <> []) as Hcs by (intros ->; by rewrite app_nil_r in Hc).
  specialize (Hout Hcs). assert (rt_cache s1 !! lowercase key = Some {| ce_result := xr_data x; ce_timestamp := now_of clock s1 |})
    as Hentry by (apply Hsaved; [done|done|rewrite Hk; by apply truthy_ne]).
  rewrite <- (elsewhere_keeps _ _ _ Hel), <- Heq in Hentry.
  destruct (replay_hit (rn_request rn2) key2 s2 _ Hk2 Hne2 Hentry Ht Hj) as (s3 & Hr & Hc3).
  exists s3. unfold IntegrationRuntime.execute. rewrite bind_run, Hr. done.
Qed.
End runtime_laws.

(** ** Concrete runs: the world is its clock *)
Definition timed_out : ProviderFailure := failure "Provider razorpay timed out after 10000ms" "ETIMEDOUT" (Some 504) None.
Definition bad_request : ProviderFailure := failure "400 Bad Request" "INVALID_REQUEST" (Some 400) None.
(** Razorpay fails with [e], the others make an order. *)
Definition razorpay_fails (e : ProviderFailure) (p : string) (now : Z) : attempt_result Json ProviderFailure * Z :=
  if String.eqb p "razorpay" then (Failed e, now + 10000) else (Returned (J_object ("order at " +:+ p) None), now + 200).
Definition wait_for (ms : Q) (now : Z) : Z := now + Qceiling ms.
Definition run_with (adapter : string -> Z -> attempt_result Json ProviderFailure * Z) (cfg : RoutingConfig) (rn : RuntimeRequest)
    (s : RuntimeStore Z) :=
  execute (fun now => now) adapter wait_for (fun _ => 0%Q) cfg rn s.
Definition fresh_runtime : RuntimeStore Z :=
  {| rt_routing := {| rs_circuits := {| cb_circuits := ∅; cb_providerConfigs := ∅ |}; rs_health := ∅; rs_counters := ∅ |};
     rt_limiter := {| rl_trackers := ∅; rl_configs := ∅ |}; rt_cache := ∅; rt_scenarios := ∅; rt_calls := [];
     rt_world := 1000 |}.
Definition with_key (key : option string) (idempotent : bool) : RuntimeRequest :=
  {| rn_request := {| rq_category := "PAYMENT"; rq_capability := "CREATE_ORDER"; rq_vendorId := None; rq_branchId := None;
       rq_region := None; rq_currency := Some "INR"; rq_environment := None; rq_idempotencyKey := key;
       rq_preferredProviderId := None; rq_routingStrategy := None; rq_isIdempotent := idempotent |};
     rn_simulation := None; rn_livePayload := false |}.
Definition live_config : RoutingConfig := gateway_config [] ∅.
Definition calls_after (x : result IntegrationExecutionResult * RuntimeStore Z) : list (string * bool) :=
  map (fun c => (fst c, match snd c with Returned _ => true | Failed _ => false end)) (rt_calls (snd x)).
Definition answer_of (x : result IntegrationExecutionResult * RuntimeStore Z) : option (bool * Json * string) :=
  match fst x with Ok r => Some (xr_success r, xr_data r, xr_providerId r) | Throw _ => None end.

Lemma execution_is_safe_witness :
  calls_after (run_with (razorpay_fails timed_out) live_config (with_key None false) fresh_runtime) =
    [("razorpay", false); ("stripe", true)] /\
  calls_after (run_with (razorpay_fails timed_out) live_config (with_key None true) fresh_runtime) =
    [("razorpay", false); ("razorpay", false); ("razorpay", false); ("stripe", true)] /\
  exists x calls, fst (run_with (razorpay_fails timed_out) live_config (with_key None false) fresh_runtime) = Ok x /\
    rt_calls (snd (run_with (razorpay_fails timed_out) live_config (with_key None false) fresh_runtime)) = calls /\
    map fst calls `sublist_of` ["razorpay"; "stripe"; "cashfree"].
Proof.
  split; [by vm_compute|]. split; [by vm_compute|].
  destruct (run_with (razorpay_fails timed_out) live_config (with_key None false) fresh_runtime) as [r s'] eqn:E.
  destruct (execution_is_safe (fun now => now) (razorpay_fails timed_out) wait_for (fun _ => 0%Q) live_config
    (with_key None false) fresh_runtime r s') as (x & calls & out & Hr & Hc & _ & _ & Hsub & _); [|exact E|].
  { intros k. unfold slots, trackerOf, fresh_runtime. simpl. rewrite lookup_empty. simpl. lia. }
  exists x, calls. split; [exact Hr|]. split; [exact Hc|]. apply Hsub. reflexivity.
Defined.

Definition first_run := run_with (razorpay_fails timed_out) live_config (with_key (Some "order-1") false) fresh_runtime.
Lemma key_calls_once_witness :
  calls_after first_run = [("razorpay", false); ("razorpay", false); ("razorpay", false); ("stripe", true)] /\
  exists s3, run_with (razorpay_fails timed_out) live_config (with_key (Some "ORDER-1") false) (snd first_run) =
    (Ok {| xr_success := true; xr_data := J_object "order at stripe" None; xr_error := None;
           xr_providerId := "cached_idempotency"; xr_attempts := []; xr_fallbackOccurred := false |}, s3) /\
    rt_calls s3 = rt_calls (snd first_run).
Proof.
  split; [by vm_compute|].
  assert (exists x, fst first_run = Ok x /\ xr_success x = true /\ xr_data x = J_object "order at stripe" None) as (x & Hx & Hs & Hd).
  { eexists. split_and!; vm_compute; reflexivity. }
  assert (rt_calls (snd first_run) <> []) as Hcalls by (vm_compute; discriminate).
  pose proof (key_calls_once (fun now => now) (razorpay_fails timed_out) wait_for (fun _ => 0%Q) live_config
    (with_key (Some "order-1") false) "order-1" fresh_runtime x (snd first_run) (snd first_run) live_config
    (with_key (Some "ORDER-1") false) "ORDER-1" eq_refl ltac:(discriminate)) as H.
  rewrite Hd in H.
  apply H; [rewrite <- Hx; apply surjective_pairing|exact Hs|exact Hcalls|reflexivity|constructor| |reflexivity|discriminate|reflexivity].
  rewrite Z.sub_diag. reflexivity.
Defined.

(** ** What the code does against its comments *)
(** An invalid request is sent to the next provider all the same. *)
Lemma invalid_request_fails_over :
  isFallbackEligible (classify bad_request) = false /\
  calls_after (run_with (razorpay_fails bad_request) live_config (with_key None false) fresh_runtime) =
    [("razorpay", false); ("stripe", true)].
Proof. split; by vm_compute. Qed.
(** So is an order that timed out at the first gateway, which the fallback
    rules of payment-routing.service.ts forbid (Checkout.v). *)
Lemma indeterminate_order_fails_over :
  className (classify timed_out) = "TIMEOUT" /\
  calls_after (run_with (razorpay_fails timed_out) live_config (with_key None false) fresh_runtime) =
    [("razorpay", false); ("stripe", true)].
Proof. split; by vm_compute. Qed.
(** A provider that answers nothing is reported as a failure of all, though it
    was called, and its call recorded, as a success. *)
Lemma empty_answer_is_a_failure :
  let run := run_with (fun p now => (Returned J_undefined, now)) live_config (with_key None false) fresh_runtime in
  calls_after run = [("razorpay", true)] /\ (option_map (fun x => fst (fst x)) (answer_of run)) = Some false.
Proof. split; by vm_compute. Qed.
(** Answers that count as false are not replayed, and an answer with a [data]
    field is replayed as that field. *)
Lemma replay_changes_answer :
  let run adapter s := run_with adapter live_config (with_key (Some "k") false) s in
  let no := fun (p : string) (now : Z) => (Returned (J_scalar false "0") : attempt_result Json ProviderFailure, now) in
  let wrapped := fun (p : string) (now : Z) =>
    (Returned (J_object "{data}" (Some (J_scalar true "inner"))) : attempt_result Json ProviderFailure, now) in
  length (rt_calls (snd (run no (snd (run no fresh_runtime))))) = 2%nat /\
  answer_of (run wrapped fresh_runtime) = Some (true, J_object "{data}" (Some (J_scalar true "inner")), "razorpay") /\
  answer_of (run wrapped (snd (run wrapped fresh_runtime))) = Some (true, J_scalar true "inner", "cached_idempotency").
Proof. split_and!; by vm_compute. Qed.
(** The key of one capability replays its answer to another. *)
Lemma key_ignores_capability :
  let refund := {| rn_request := {| rq_category := "PAYMENT"; rq_capability := "REFUND_PAYMENT"; rq_vendorId := Some "v2";
       rq_branchId := None; rq_region := None; rq_currency := None; rq_environment := None;
       rq_idempotencyKey := Some "order-1"; rq_preferredProviderId := None; rq_routingStrategy := None;
       rq_isIdempotent := false |}; rn_simulation := None; rn_livePayload := false |} in
  answer_of (run_with (razorpay_fails timed_out) live_config refund (snd first_run)) =
    Some (true, J_object "order at stripe" None, "cached_idempotency").
Proof. by vm_compute. Qed.
(** Probes of a half-open circuit that the rate limiter then refuses are lost:
    once all are, no request ever passes again. *)
Definition used_up : Circuit := with_counts 3 0 (halfOpened 3 open_razorpay).
Lemma spent_probes_block_forever now :
  let s := {| cb_circuits := {[ "razorpay" := used_up ]}; cb_providerConfigs := ∅ |} in
  fst (canExecute now "razorpay" None s) = Ok false /\ snd (canExecute now "razorpay" None s) = s /\
  fst (getState now "razorpay" None s) = Ok CB_HALF_OPEN.
Proof.
  simpl. unfold canExecute, getState, getOrCreate, putCircuit, set_circuits. simpl. step. simpl.
  by rewrite lookup_singleton_eq, ret_bind, modify_bind, !ret_run.
Qed.
(** Three requests refused for want of a slot spend the probes; with every
    slot free a day later nothing is called. *)
Lemma refused_probes_are_spent :
  let only_razorpay := {| rc_catalog := [gateway "razorpay" 1 CL_PRODUCTION_VALIDATED]; rc_registered := []; rc_policies := [];
    rc_costModels := []; rc_scores := None; rc_customFallbacks := ∅; rc_defaultStrategies := ∅; rc_production := true |} in
  let run (s : RuntimeStore Z) :=
    snd (run_with (fun p now => (Returned (J_object "order" None), now)) only_razorpay (with_key None false) s) in
  let busy := {| rt_routing := razorpay_down;
    rt_limiter := {| rl_trackers := {[ "razorpay" := with_active 15 newTracker ]}; rl_configs := ∅ |};
    rt_cache := ∅; rt_scenarios := ∅; rt_calls := []; rt_world := 31000 |} in
  let refused := run (run (run busy)) in
  let free := set_rt_world 86400000 (set_rt_limiter {| rl_trackers := ∅; rl_configs := ∅ |} refused) in
  cb_circuits (circuits_of refused) !! "razorpay" = Some (with_counts 3 0 (halfOpened 1 open_razorpay)) /\
  rt_calls (run free) = [].
Proof. split; by vm_compute. Qed.
