(* ===== verification/Payouts.v ===== *)
(** * Vendor payouts: src/car_rental_backend/src/payouts/

    payouts.service.ts (requests, approval, execution, rejection, reversal,
    the RazorpayX webhook, adjustments, the earnings summary) and what
    providers/razorpayx-payout.provider.ts makes of the bank's answer.  The
    tables are those the service reads and writes, with the ledger and wallets
    of Wallet.v; a booking comes with the status of its payment and of its
    damage claims, as the queries join them.  Clock, generated ids, the bank's
    answer and the check of a webhook signature are arguments; sums of columns
    are exact (decimal.js keeps twenty digits).  Notes, bank details and
    notifications are left out. *)
From S2P Require Import Prelude JsNumber Decimal Schema Ledger Wallet BookingStore.
From stdpp Require Import pretty.
Open Scope Z_scope.

(** ** Data *)
Record Payout : Type := {
  po_payoutNumber : string;
  po_vendorId : string;
  po_amount : Q;
  po_status : PayoutStatus;
  po_providerTransferId : option string;
  po_providerFee : option Q;
  po_failureReason : option string;
  po_idempotencyKey : option string;
  po_initiatedBy : option string;
  po_approvedBy : option string;
  po_processedAt : option Z;
  po_paidAt : option Z;
  po_createdAt : Z;
}.
Record FinancialAdjustment : Type := {
  fa_adjustmentNumber : string;
  fa_targetType : string;
  fa_targetId : string;
  fa_amount : Q;
  fa_direction : LedgerDirection;
  fa_approvedBy : string;
  fa_idempotencyKey : string;
}.
(** A booking with its payment's status and its damage claims. *)
Record EarningBooking : Type := {
  eb_vendorId : string;
  eb_status : BookingStatus;
  eb_paymentStatus : option PaymentStatus;
  eb_disputeFlag : bool;
  eb_damageClaims : list DamageClaimStatus;
  eb_netToVendor : Q;
  eb_createdAt : Z;
  eb_updatedAt : Z;
}.
Record PayoutStore : Type := {
  py_payouts : gmap string Payout;
  py_adjustments : list FinancialAdjustment;
  py_bookings : list EarningBooking;
  py_vendors : list string;
  py_wallets : WalletStore;
  py_webhooks : list string;               (* event ids of RAZORPAYX *)
  py_audit : list AuditLog;
}.
Record PayoutConfig : Type := {
  pf_minPayoutAmount : Q;
  pf_maxSinglePayoutAmount : Q;
  pf_dailyVendorPayoutCap : Q;
  pf_settlementHoldDays : Z;
}.
(** The clock: now, the local midnight before, the local month. *)
Record PayoutEnv : Type := {
  pe_now : Z;
  pe_todayStart : Z;
  pe_month : string;                       (* YYYY-MM *)
  pe_thisMonthStart : Z;
  pe_lastMonthStart : Z;
  pe_lastMonthEnd : Z;
}.

Definition set_payouts (m : gmap string Payout) (s : PayoutStore) : PayoutStore :=
  {| py_payouts := m; py_adjustments := py_adjustments s; py_bookings := py_bookings s; py_vendors := py_vendors s;
     py_wallets := py_wallets s; py_webhooks := py_webhooks s; py_audit := py_audit s |}.
Definition add_adjustment (a : FinancialAdjustment) (s : PayoutStore) : PayoutStore :=
  {| py_payouts := py_payouts s; py_adjustments := py_adjustments s ++ [a]; py_bookings := py_bookings s;
     py_vendors := py_vendors s; py_wallets := py_wallets s; py_webhooks := py_webhooks s; py_audit := py_audit s |}.
Definition set_py_wallets (w : WalletStore) (s : PayoutStore) : PayoutStore :=
  {| py_payouts := py_payouts s; py_adjustments := py_adjustments s; py_bookings := py_bookings s;
     py_vendors := py_vendors s; py_wallets := w; py_webhooks := py_webhooks s; py_audit := py_audit s |}.
Definition add_event (e : string) (s : PayoutStore) : PayoutStore :=
  {| py_payouts := py_payouts s; py_adjustments := py_adjustments s; py_bookings := py_bookings s;
     py_vendors := py_vendors s; py_wallets := py_wallets s; py_webhooks := py_webhooks s ++ [e]; py_audit := py_audit s |}.
Definition add_payout_audit (a : AuditLog) (s : PayoutStore) : PayoutStore :=
  {| py_payouts := py_payouts s; py_adjustments := py_adjustments s; py_bookings := py_bookings s;
     py_vendors := py_vendors s; py_wallets := py_wallets s; py_webhooks := py_webhooks s; py_audit := py_audit s ++ [a] |}.
Definition py_ledger (s : PayoutStore) : LedgerTable := ws_ledger (py_wallets s).
Definition set_py_ledger (L : LedgerTable) (s : PayoutStore) : PayoutStore := set_py_wallets (set_wledger L (py_wallets s)) s.
Definition auditLog (userId action entityId : string) : M PayoutStore unit :=
  modify (add_payout_audit {| al_userId := userId; al_action := action; al_entityId := entityId |}).

(** ** Balances *)
Definition damageClaimName (d : DamageClaimStatus) : string :=
  match d with
  | DC_SUBMITTED => "SUBMITTED" | DC_UNDER_REVIEW => "UNDER_REVIEW" | DC_APPROVED => "APPROVED"
  | DC_PARTIALLY_APPROVED => "PARTIALLY_APPROVED" | DC_REJECTED => "REJECTED" | DC_SETTLED => "SETTLED"
  end.
Definition completedPaid (vendorId : string) (b : EarningBooking) : bool :=
  String.eqb (eb_vendorId b) vendorId && bool_decide (eb_status b = BS_COMPLETED) &&
  bool_decide (eb_paymentStatus b = Some PS_PAID).
(** No dispute and no claim whose status is one of [open]. *)
Definition cleanOf (open : list string) (b : EarningBooking) : bool :=
  negb (eb_disputeFlag b) && negb (existsb (fun d => bool_decide (damageClaimName d ∈ open)) (eb_damageClaims b)).
Definition payouts_of (s : PayoutStore) : list Payout := snd <$> map_to_list (py_payouts s).
Definition sumPayouts (vendorId : string) (statuses : list PayoutStatus) (s : PayoutStore) : Q :=
  sum_by po_amount (List.filter (fun p => String.eqb (po_vendorId p) vendorId && bool_decide (po_status p ∈ statuses))
                                (payouts_of s)).
Definition sumAdjustments (f : FinancialAdjustment -> bool) (d : LedgerDirection) (s : PayoutStore) : Q :=
  sum_by fa_amount (List.filter (fun a => f a && bool_decide (fa_direction a = d)) (py_adjustments s)).
Definition reservedStatuses : list PayoutStatus := [PO_PENDING; PO_APPROVED; PO_PROCESSING].

Definition holdDaysOf (cfg : option PayoutConfig) : Z := match cfg with Some c => pf_settlementHoldDays c | None => 0 end.
(** What a request may draw on: [totalSettledEarned], the adjustments, what is
    paid and what is reserved. *)
Definition totalSettledEarned (now : Z) (cfg : option PayoutConfig) (vendorId : string) (s : PayoutStore) : Q :=
  let clean := List.filter (fun b => completedPaid vendorId b && cleanOf ["OPEN"; "UNDER_REVIEW"] b) (py_bookings s) in
  let holdDays := holdDaysOf cfg in
  sum_by eb_netToVendor
    (if 0 <? holdDays then List.filter (fun b => eb_updatedAt b <=? now - holdDays * 86400000) clean else clean).
Definition netAdjustments (f : FinancialAdjustment -> bool) (s : PayoutStore) : Q :=
  (sumAdjustments f DIR_CREDIT s - sumAdjustments f DIR_DEBIT s)%Q.
Definition availableFor (now : Z) (cfg : option PayoutConfig) (vendorId : string) (s : PayoutStore) : Q :=
  (totalSettledEarned now cfg vendorId s + netAdjustments (fun a => String.eqb (fa_targetId a) vendorId) s
   - sumPayouts vendorId [PO_PAID] s - sumPayouts vendorId reservedStatuses s)%Q.

(** [getVendorEarningsSummary], the sums taken in the database. *)
Record EarningsSummary : Type := {
  es_totalEarnings : Q;
  es_heldEarnings : Q;
  es_totalPaid : Q;
  es_totalPending : Q;
  es_netAdjustments : Q;
  es_availableBalance : Q;
  es_outstandingBalance : Q;
  es_thisMonthEarnings : Q;
  es_lastMonthEarnings : Q;
  es_ledgerPayableBalance : Q;
}.
Definition getVendorEarningsSummary (env : PayoutEnv) (cfg : option PayoutConfig) (vendorId : string)
    : M PayoutStore EarningsSummary :=
  s ← get;
  require (bool_decide (vendorId ∈ py_vendors s)) NotFoundException ;;
  let holdDays := holdDaysOf cfg in
  let holdCutoff := if 0 <? holdDays then pe_now env - holdDays * 86400000 else 0 in
  let earned (f : EarningBooking -> bool) :=
    sum_by eb_netToVendor (List.filter (fun b => completedPaid vendorId b && f b) (py_bookings s)) in
  let clean := cleanOf ["SUBMITTED"; "UNDER_REVIEW"] in
  let totalEarnings := earned clean in
  let heldEarnings := earned (fun b => clean b && (holdCutoff <? eb_updatedAt b)) in
  let totalPaid := sumPayouts vendorId [PO_PAID] s in
  let totalPending := sumPayouts vendorId reservedStatuses s in
  let adjustments := netAdjustments (fun a => String.eqb (fa_targetType a) "VENDOR" && String.eqb (fa_targetId a) vendorId) s in
  let gross := (totalEarnings + adjustments)%Q in
  mret {| es_totalEarnings := rnd totalEarnings; es_heldEarnings := rnd heldEarnings; es_totalPaid := rnd totalPaid;
          es_totalPending := rnd totalPending; es_netAdjustments := rnd adjustments;
          es_availableBalance := js_max 0 (rnd (gross - heldEarnings - totalPaid - totalPending)%Q);
          es_outstandingBalance := js_max 0 (rnd (gross - totalPaid)%Q);
          es_thisMonthEarnings := rnd (earned (fun b => pe_thisMonthStart env <=? eb_createdAt b));
          es_lastMonthEarnings := rnd (earned (fun b => (pe_lastMonthStart env <=? eb_createdAt b) &&
                                                         (eb_createdAt b <=? pe_lastMonthEnd env)));
          es_ledgerPayableBalance := rnd (getVendorPayableBalance (py_ledger s) vendorId) |}.

(** ** Requests *)
Section payouts.
Context {col : NumericColumn} {dec : DecimalArith} {num : DecimalNumbers}.

(** [payout.create] and [payout.update]: three columns are unique and the
    amount has eight digits before the point. *)
Definition has_number (x : string) (p : Payout) : bool := String.eqb (po_payoutNumber p) x.
Definition has_key (k : string) (p : Payout) : bool := bool_decide (po_idempotencyKey p = Some k).
Definition has_transfer (x : string) (p : Payout) : bool := bool_decide (po_providerTransferId p = Some x).
Definition taken {A} (f : A -> Payout -> bool) (o : option A) (l : list Payout) : bool :=
  match o with Some a => existsb (f a) l | None => false end.
Definition createPayoutRow (id : string) (p : Payout) : M PayoutStore Payout :=
  s ← get;
  require (negb (bool_decide (is_Some (py_payouts s !! id)) || existsb (has_number (po_payoutNumber p)) (payouts_of s) ||
                 taken has_key (po_idempotencyKey p) (payouts_of s))) PrismaP2002 ;;
  require (d_lt (po_amount p) 100000000) OtherError ;;
  modify (set_payouts (<[id := p]> (py_payouts s))) ;;
  mret p.
Definition updatePayout (id : string) (f : Payout -> Payout) : M PayoutStore Payout :=
  s ← get;
  p ← from_option_or (py_payouts s !! id) PrismaP2025;
  require (negb (taken has_transfer (po_providerTransferId (f p)) (snd <$> map_to_list (delete id (py_payouts s))))) PrismaP2002 ;;
  modify (set_payouts (<[id := f p]> (py_payouts s))) ;;
  mret (f p).

Definition countPrefix (prefix : string) (l : list string) : nat := length (List.filter (startsWith prefix) l).
Definition generatePayoutNumber (env : PayoutEnv) (s : PayoutStore) : string :=
  let prefix := "PO-" +:+ pe_month env +:+ "-" in
  prefix +:+ padStart5 (pretty (countPrefix prefix (map po_payoutNumber (payouts_of s)) + 1)%nat).
Definition generateAdjustmentNumber (env : PayoutEnv) (s : PayoutStore) : string :=
  let prefix := "ADJ-" +:+ pe_month env +:+ "-" in
  prefix +:+ padStart5 (pretty (countPrefix prefix (map fa_adjustmentNumber (py_adjustments s)) + 1)%nat).

(** A payout of the vendor created today that was not given up. *)
Definition countsToday (env : PayoutEnv) (vendorId : string) (p : Payout) : bool :=
  String.eqb (po_vendorId p) vendorId && (pe_todayStart env <=? po_createdAt p) &&
  negb (bool_decide (po_status p ∈ [PO_REJECTED; PO_FAILED; PO_REVERSED])).
Definition withinLimits (cfg : option PayoutConfig) (amount : Q) : bool :=
  match cfg with
  | None => true
  | Some c => negb (nonzero (pf_minPayoutAmount c) && d_lt amount (pf_minPayoutAmount c)) &&
              negb (nonzero (pf_maxSinglePayoutAmount c) && d_gt amount (pf_maxSinglePayoutAmount c))
  end.
Definition withinDailyCap (env : PayoutEnv) (cfg : option PayoutConfig) (vendorId : string) (amount : Q) (s : PayoutStore) : bool :=
  match cfg with
  | None => true
  | Some c =>
    negb (nonzero (pf_dailyVendorPayoutCap c) &&
          d_gt (sum_by po_amount (List.filter (countsToday env vendorId) (payouts_of s)) + of_number amount)
               (of_number (pf_dailyVendorPayoutCap c)))
  end.

Definition requestPayout (env : PayoutEnv) (cfg : option PayoutConfig) (freshId vendorId : string) (amount : Q)
    (idempotencyKey initiatedByUserId : option string) : M PayoutStore Payout :=
  require (d_gt amount 0) BadRequestException ;;
  s ← get;
  match truthy idempotencyKey ≫= (fun k => List.find (has_key k) (payouts_of s)) with
  | Some existing => mret existing
  | None =>
    require (withinLimits cfg amount) BadRequestException ;;
    transaction (
      s ← get;
      require (bool_decide (vendorId ∈ py_vendors s)) NotFoundException ;;
      require (withinDailyCap env cfg vendorId amount s) BadRequestException ;;
      let reqAmount := of_number amount in
      require (negb (d_gt reqAmount (availableFor (pe_now env) cfg vendorId s))) BadRequestException ;;
      payout ← createPayoutRow freshId
        {| po_payoutNumber := generatePayoutNumber env s; po_vendorId := vendorId; po_amount := store reqAmount;
           po_status := PO_PENDING; po_providerTransferId := None; po_providerFee := None; po_failureReason := None;
           po_idempotencyKey := idempotencyKey; po_initiatedBy := initiatedByUserId; po_approvedBy := None;
           po_processedAt := None; po_paidAt := None; po_createdAt := pe_now env |};
      match truthy initiatedByUserId with Some u => auditLog u "PAYOUT_CREATED" freshId | None => mret tt end ;;
      mret payout)
  end.
Definition createPayout (env : PayoutEnv) (cfg : option PayoutConfig) (freshId vendorId : string) (amount : Q)
    (adminUserId : option string) : M PayoutStore Payout :=
  requestPayout env cfg freshId vendorId amount None adminUserId.

(** ** The states of a payout *)
Definition po_set (status : PayoutStatus) (transfer : option string) (fee : option Q) (reason : option string)
    (approvedBy : option string) (processedAt paidAt : option Z) (p : Payout) : Payout :=
  {| po_payoutNumber := po_payoutNumber p; po_vendorId := po_vendorId p; po_amount := po_amount p; po_status := status;
     po_providerTransferId := match transfer with Some x => Some x | None => po_providerTransferId p end;
     po_providerFee := match fee with Some x => Some x | None => po_providerFee p end;
     po_failureReason := match reason with Some x => Some x | None => po_failureReason p end;
     po_idempotencyKey := po_idempotencyKey p; po_initiatedBy := po_initiatedBy p;
     po_approvedBy := match approvedBy with Some x => Some x | None => po_approvedBy p end;
     po_processedAt := match processedAt with Some x => Some x | None => po_processedAt p end;
     po_paidAt := match paidAt with Some x => Some x | None => po_paidAt p end;
     po_createdAt := po_createdAt p |}.
Definition findPayout (id : string) : M PayoutStore Payout :=
  s ← get; from_option_or (py_payouts s !! id) NotFoundException.
Definition feeColumn (fee : option Q) : option Q :=
  match fee with Some f => if nonzero f then Some (store (of_number f)) else None | None => None end.

Definition approvePayout (id adminUserId : string) : M PayoutStore Payout :=
  payout ← findPayout id;
  require (bool_decide (po_status payout = PO_PENDING)) BadRequestException ;;
  updated ← updatePayout id (po_set PO_APPROVED None None None (Some adminUserId) None None);
  auditLog adminUserId "PAYOUT_APPROVED" id ;;
  mret updated.
Definition rejectPayout (id adminUserId reason : string) : M PayoutStore Payout :=
  payout ← findPayout id;
  require (bool_decide (po_status payout ∈ [PO_PENDING; PO_APPROVED])) BadRequestException ;;
  updated ← updatePayout id (po_set PO_REJECTED None None (Some reason) None None None);
  auditLog adminUserId "PAYOUT_REJECTED" id ;;
  mret updated.

(** ** Journals *)
Definition payoutRef (id : string) (payout : Payout) : string := str_or (Some (po_payoutNumber payout)) id.
Definition payoutLine (a : LedgerAccountType) (entity : option string) (side : LedgerEntrySide) (amount : Q) (description : string)
    : JournalEntryLineInput :=
  {| li_accountType := a; li_accountEntityId := entity; li_side := None; li_entrySide := Some side; li_amount := amount;
     li_narration := None; li_description := Some description; li_bookingId := None; li_paymentId := None; li_payoutId := None |}.
Definition payoutJournal (referenceType key description id : string) (payout : Payout) (lines : list JournalEntryLineInput)
    : RecordJournalInput :=
  {| rj_journalId := None; rj_referenceType := referenceType; rj_referenceId := id; rj_narration := None;
     rj_description := Some description; rj_lines := None; rj_entries := Some lines;
     rj_idempotencyKey := Some key; rj_currency := None; rj_bookingId := None; rj_paymentId := None;
     rj_payoutId := Some id; rj_vendorId := Some (po_vendorId payout) |}.
Definition execJournal (id : string) (payout : Payout) : RecordJournalInput :=
  let ref := payoutRef id payout in
  payoutJournal "PAYOUT" ("ledger_po_exec_" +:+ id) ("Vendor payout settlement #" +:+ ref) id payout
    [payoutLine VENDOR_PAYABLE None DEBIT (po_amount payout) ("Debit vendor payable for payout #" +:+ ref);
     payoutLine GATEWAY_CLEARING (Some "RAZORPAY") CREDIT (po_amount payout) ("Credit gateway clearing for payout #" +:+ ref)].
Definition reverseJournal (id : string) (payout : Payout) (reason : option string) : RecordJournalInput :=
  let ref := payoutRef id payout in
  payoutJournal "PAYOUT_REVERSAL" ("ledger_po_rev_" +:+ id)
    ("Vendor payout reversal #" +:+ ref +:+ ": " +:+ str_or reason "Reversed") id payout
    [payoutLine GATEWAY_CLEARING (Some "RAZORPAY") DEBIT (po_amount payout) ("Debit gateway clearing (reversal) for payout #" +:+ ref);
     payoutLine VENDOR_PAYABLE None CREDIT (po_amount payout) ("Credit vendor payable (reversal) for payout #" +:+ ref)].
Definition recordPayoutJournal (env : PayoutEnv) (freshJournal : string) (inTx : bool) (input : RecordJournalInput)
    : M PayoutStore unit :=
  zoom py_ledger set_py_ledger (recordJournal (pe_now env) freshJournal inTx input) ;; mret tt.

(** ** Execution *)
Inductive TransferStatus : Type := TS_QUEUED | TS_PROCESSING | TS_PAID | TS_FAILED | TS_BLOCKED_CREDENTIALS.
Record PayoutTransferResponse : Type := {
  tr_status : TransferStatus;
  tr_providerTransferId : option string;
  tr_providerFee : option Q;
  tr_failureReason : option string;
}.

(** The manual settlement: the row first, then the journal, whose failure is
    only logged. *)
Definition settleManually (env : PayoutEnv) (freshJournal id adminUserId : string) (payout : Payout) (transfer : string)
    (fee : option Q) : M PayoutStore Payout :=
  updated ← updatePayout id (po_set PO_PAID (Some (trim transfer)) (feeColumn fee) None None (Some (pe_now env)) (Some (pe_now env)));
  auditLog adminUserId "PAYOUT_EXECUTED_MANUAL" id ;;
  try_catch (recordPayoutJournal env freshJournal false (execJournal id payout)) (fun _ => mret tt) ;;
  mret updated.
(** Paid: row and journal in one transaction. *)
Definition markPaid (env : PayoutEnv) (freshJournal id : string) (payout : Payout) (transfer : option string) (fee : option Q)
    : M PayoutStore Payout :=
  transaction (
    p ← updatePayout id (po_set PO_PAID transfer fee None None (Some (pe_now env)) (Some (pe_now env)));
    recordPayoutJournal env freshJournal true (execJournal id payout) ;;
    mret p).
(** What the bank answered, applied to the payout read before it was asked. *)
Definition applyTransfer (env : PayoutEnv) (freshJournal id adminUserId : string) (payout : Payout) (r : PayoutTransferResponse)
    : M PayoutStore Payout :=
  match tr_status r with
  | TS_BLOCKED_CREDENTIALS =>
    updated ← updatePayout id (po_set PO_PROCESSING None None (tr_failureReason r) None (Some (pe_now env)) None);
    auditLog adminUserId "PAYOUT_DISPATCH_BLOCKED_MISSING_CREDENTIALS" id ;; mret updated
  | TS_PAID =>
    updated ← markPaid env freshJournal id payout (tr_providerTransferId r) (feeColumn (tr_providerFee r));
    auditLog adminUserId "PAYOUT_EXECUTED" id ;; mret updated
  | TS_PROCESSING | TS_QUEUED =>
    updated ← updatePayout id (po_set PO_PROCESSING (tr_providerTransferId r) (feeColumn (tr_providerFee r)) None None
                                 (Some (pe_now env)) None);
    auditLog adminUserId "PAYOUT_PROCESSING" id ;; mret updated
  | TS_FAILED =>
    updated ← updatePayout id (po_set PO_FAILED None None (tr_failureReason r) None None None);
    auditLog adminUserId "PAYOUT_FAILED" id ;; mret updated
  end.
(** The checks before anything is written. *)
Definition readExecutable (id adminUserId : string) : M PayoutStore Payout :=
  payout ← findPayout id;
  require (bool_decide (po_status payout ∈ reservedStatuses)) BadRequestException ;;
  require (negb (js_lt 50000 (rnd (po_amount payout)) && bool_decide (truthy (po_approvedBy payout) = Some adminUserId)))
    BadRequestException ;;
  mret payout.
(** [transferId], [fee]: the operator's own transfer; [gateway]: the bank's
    answer, when a provider is configured. *)
Definition executePayout (env : PayoutEnv) (freshJournal id adminUserId : string) (transferId : option string) (fee : option Q)
    (gateway : option PayoutTransferResponse) : M PayoutStore Payout :=
  payout ← readExecutable id adminUserId;
  match truthy (trim <$> transferId), gateway with
  | Some transfer, _ => settleManually env freshJournal id adminUserId payout transfer fee
  | None, Some r => applyTransfer env freshJournal id adminUserId payout r
  | None, None =>
    updated ← updatePayout id (po_set PO_PROCESSING None None (Some "EXTERNAL CREDENTIAL BLOCKER: Payout gateway credentials unconfigured.") None
                                 (Some (pe_now env)) None);
    auditLog adminUserId "PAYOUT_PROCESSING" id ;; mret updated
  end.
Definition markPayoutPaid (env : PayoutEnv) (freshJournal id : string) (adminNote : option string) : M PayoutStore Payout :=
  executePayout env freshJournal id "system" (Some (str_or adminNote ("settled_" +:+ pretty (pe_now env)))) None None.

(** ** Reversal *)
Definition reversePayout (env : PayoutEnv) (freshJournal id adminUserId : string) (reason : option string) : M PayoutStore Payout :=
  payout ← findPayout id;
  if decide (po_status payout = PO_REVERSED) then mret payout else
  require (bool_decide (po_status payout ∈ [PO_PAID; PO_PROCESSING])) BadRequestException ;;
  updated ← transaction (
    p ← updatePayout id (po_set PO_REVERSED None None
          (Some (str_or reason "Payout reversed by banking network/operator.")) None None None);
    when (bool_decide (po_status payout = PO_PAID)) (recordPayoutJournal env freshJournal true (reverseJournal id payout reason)) ;;
    mret p);
  auditLog adminUserId "PAYOUT_REVERSED" id ;;
  mret updated.

(** ** The RazorpayX webhook *)
Record PayoutEvent : Type := {
  pv_eventId : string;
  pv_event : string;
  pv_hasEntity : bool;
  pv_transferId : option string;
  pv_referenceId : option string;
  pv_fees : option Q;
  pv_failureReason : option string;
}.
Inductive WebhookAnswer : Type :=
  | WA_received | WA_duplicate | WA_notFound | WA_alreadyProcessed | WA_status (st : PayoutStatus).
(** [findFirst] without an order: the first match of the table. *)
Definition matchesEvent (ev : PayoutEvent) (p : Payout) : bool :=
  match truthy (pv_transferId ev) with Some x => has_transfer x p | None => false end ||
  match truthy (pv_referenceId ev) with Some x => has_number x p | None => false end.
Definition handlePayoutWebhook (env : PayoutEnv) (freshJournal : string) (signatureValid : bool) (ev : PayoutEvent)
    : M PayoutStore WebhookAnswer :=
  require signatureValid BadRequestException ;;
  if negb (pv_hasEntity ev) then mret WA_received else
  s ← get;
  if bool_decide (pv_eventId ev ∈ py_webhooks s) then mret WA_duplicate else
  modify (add_event (pv_eventId ev)) ;;
  match List.find (fun x => matchesEvent ev (snd x)) (map_to_list (py_payouts s)) with
  | None => mret WA_notFound
  | Some (id, payout) =>
    if bool_decide (pv_event ev ∈ ["payout.processed"; "payout.paid"]) then
      if decide (po_status payout = PO_PAID) then mret WA_alreadyProcessed else
      markPaid env freshJournal id payout (truthy (pv_transferId ev))
        (match pv_fees ev with
         | Some f => if nonzero f then Some (store (of_number (js_div f 100))) else None | None => None end) ;;
      auditLog "WEBHOOK_RAZORPAYX" "PAYOUT_EXECUTED_WEBHOOK" id ;;
      mret (WA_status PO_PAID)
    else if String.eqb (pv_event ev) "payout.reversed" then
      reversePayout env freshJournal id "WEBHOOK_RAZORPAYX" (Some (str_or (pv_failureReason ev) "Reversed by banking network")) ;;
      mret (WA_status PO_REVERSED)
    else if bool_decide (pv_event ev ∈ ["payout.failed"; "payout.rejected"]) then
      if bool_decide (po_status payout ∈ [PO_FAILED; PO_REJECTED; PO_REVERSED]) then mret WA_received else
      updatePayout id (po_set PO_FAILED None None
        (Some (str_or (pv_failureReason ev) ("Payout was " +:+ pv_event ev +:+ " by RazorpayX."))) None None None) ;;
      auditLog "WEBHOOK_RAZORPAYX" "PAYOUT_FAILED_WEBHOOK" id ;;
      mret (WA_status PO_FAILED)
    else mret WA_received
  end.

(** ** Adjustments *)
Definition createFinancialAdjustment (env : PayoutEnv) (walletCfg : option WalletConfig) (adminUserId targetType targetId : string)
    (amount : Q) (direction : LedgerDirection) (idempotencyKey : string) : M PayoutStore FinancialAdjustment :=
  s ← get;
  match List.find (fun a => String.eqb (fa_idempotencyKey a) idempotencyKey) (py_adjustments s) with
  | Some existing => mret existing
  | None =>
    let number := generateAdjustmentNumber env s in
    let adj := {| fa_adjustmentNumber := number; fa_targetType := targetType; fa_targetId := targetId;
                  fa_amount := store (of_number amount); fa_direction := direction; fa_approvedBy := adminUserId;
                  fa_idempotencyKey := idempotencyKey |} in
    transaction (
      require (negb (existsb (fun a => String.eqb (fa_adjustmentNumber a) number) (py_adjustments s))) PrismaP2002 ;;
      modify (add_adjustment adj) ;;
      when (String.eqb targetType "CUSTOMER_WALLET")
        (zoom py_wallets set_py_wallets (adminAdjustWallet (pe_now env) walletCfg adminUserId targetId (of_number amount) direction
           BUCKET_REAL_MONEY (Some idempotencyKey)) ;; mret tt) ;;
      auditLog adminUserId "FINANCIAL_ADJUSTMENT_CREATED" number ;;
      mret adj)
  end.
End payouts.

(** ** The bank's answer: providers/razorpayx-payout.provider.ts *)
Inductive BankReply : Type :=
  | BR_timeout                                     (* aborted after fifteen seconds *)
  | BR_exception (message : option string)         (* network *)
  | BR_refused (httpStatus : Z) (description reason : option string)   (* not a 2xx status *)
  | BR_body (id : option string) (fees : option Q) (status failureReason : option string).
(** What the bank is asked to transfer. *)
Definition amountInPaise (amount : Q) : Z := js_round (js_mul amount 100).
Definition initiateTransfer (configured : bool) (accountNumber ifscCode : option string) (reply : BankReply)
    : PayoutTransferResponse :=
  let answer st id fee reason := {| tr_status := st; tr_providerTransferId := id; tr_providerFee := fee; tr_failureReason := reason |} in
  if negb configured then answer TS_BLOCKED_CREDENTIALS None None
    (Some "EXTERNAL CREDENTIAL BLOCKER: Live RazorpayX banking credentials (RAZORPAYX_KEY_ID, RAZORPAYX_KEY_SECRET, RAZORPAYX_ACCOUNT_NUMBER) are not configured. Transfer halted at PROCESSING.")
  else match truthy accountNumber, truthy ifscCode with
  | Some _, Some _ =>
    match reply with
    | BR_timeout => answer TS_FAILED None None (Some "RazorpayX gateway API request timed out after 15s")
    | BR_exception message => answer TS_FAILED None None (Some (str_or message "RazorpayX gateway communication error"))
    | BR_refused status description reason =>
      answer TS_FAILED None None
        (Some (str_or description (str_or reason ("RazorpayX HTTP " +:+ pretty status +:+ " error"))))
    | BR_body id fees status failureReason =>
      match truthy id with
      | None => answer TS_FAILED None None (Some "Invalid response from RazorpayX: Missing payout ID.")
      | Some id =>
        let fee := match fees with Some f => if nonzero f then Some (js_div f 100) else None | None => None end in
        let st := lowercase (str_or status "") in
        if String.eqb st "processed" then answer TS_PAID (Some id) fee None
        else if bool_decide (st ∈ ["processing"; "queued"; "pending"]) then answer TS_PROCESSING (Some id) fee None
        else if bool_decide (st ∈ ["rejected"; "cancelled"]) then
          answer TS_FAILED (Some id) None (Some (str_or failureReason ("Payout was " +:+ st +:+ " by RazorpayX.")))
        else if String.eqb st "reversed" then answer TS_FAILED (Some id) None (Some "Payout reversed by banking network.")
        else answer TS_PROCESSING (Some id) fee None
      end
    end
  | _, _ => answer TS_FAILED None None
      (Some "Beneficiary bank account details missing: both account number and IFSC code are required.")
  end.
