(* ===== verification/PayoutBook.v ===== *)
(** * The payout book

    What the operations of Payouts.v do to payouts and ledger is one of six
    moves of an abstract book ([book_moved]) or, when the bank takes an answer
    back, one of three late moves ([late_moved]).  From this follow, for every
    sequence of operations, how far the promises to a vendor can exceed what
    was earned, and that a payout's execution and reversal are posted at most
    once and in full. *)
From S2P Require Import Prelude JsNumber Decimal Schema Ledger Wallet BookingStore Payouts.
From stdpp Require Import pretty.
Open Scope Z_scope.
Open Scope Q_scope.

(** ** Sums over the table *)
Lemma sum_by_perm {A} (f : A -> Q) l l' : l ≡ₚ l' -> sum_by f l == sum_by f l'.
Proof. induction 1; simpl; lra. Qed.
Lemma sum_by_bool_filter {A} (f : A -> Q) (b : A -> bool) l :
  sum_by f (List.filter b l) == sum_by (fun x => if b x then f x else 0) l.
Proof. induction l as [|x l IH]; simpl; [reflexivity|]. destruct (b x); simpl; lra. Qed.

Definition counted (v : string) (sts : list PayoutStatus) (p : Payout) : Q :=
  if String.eqb (po_vendorId p) v && bool_decide (po_status p ∈ sts) then po_amount p else 0.
Lemma sumPayouts_counted v sts s : sumPayouts v sts s == sum_by (counted v sts) (payouts_of s).
Proof. unfold sumPayouts. by rewrite sum_by_bool_filter. Qed.
Lemma payouts_delete id p s : py_payouts s !! id = Some p ->
  payouts_of s ≡ₚ p :: (snd <$> map_to_list (delete id (py_payouts s))).
Proof. intros H. unfold payouts_of. rewrite <- (map_to_list_delete _ _ _ H). done. Qed.
Lemma payouts_insert id p s : payouts_of (set_payouts (<[id := p]> (py_payouts s)) s) ≡ₚ
  p :: (snd <$> map_to_list (delete id (py_payouts s))).
Proof.
  unfold payouts_of. simpl. rewrite <- insert_delete_eq.
  rewrite map_to_list_insert by apply lookup_delete_eq. done.
Qed.
(** What a sum becomes when a row is changed or added. *)
Lemma sumPayouts_update v sts id p p' s s' : py_payouts s !! id = Some p -> py_payouts s' = <[id := p']> (py_payouts s) ->
  sumPayouts v sts s' == sumPayouts v sts s - counted v sts p + counted v sts p'.
Proof.
  intros H H'. rewrite !sumPayouts_counted, (sum_by_perm _ _ _ (payouts_delete id p s H)).
  assert (payouts_of s' = payouts_of (set_payouts (<[id := p']> (py_payouts s)) s)) as -> by (unfold payouts_of; by rewrite H').
  rewrite (sum_by_perm _ _ _ (payouts_insert id p' s)). simpl. lra.
Qed.
Lemma sumPayouts_new v sts id p s s' : py_payouts s !! id = None -> py_payouts s' = <[id := p]> (py_payouts s) ->
  sumPayouts v sts s' == sumPayouts v sts s + counted v sts p.
Proof.
  intros H H'. rewrite !sumPayouts_counted.
  assert (payouts_of s' = payouts_of (set_payouts (<[id := p]> (py_payouts s)) s)) as -> by (unfold payouts_of; by rewrite H').
  rewrite (sum_by_perm _ _ _ (payouts_insert id p s)). rewrite delete_id by done. simpl.
  unfold payouts_of. lra.
Qed.
Lemma sumPayouts_same v sts s s' : py_payouts s' = py_payouts s -> sumPayouts v sts s' = sumPayouts v sts s.
Proof. intros H. unfold sumPayouts, payouts_of. by rewrite H. Qed.

(** ** Keys of the journals *)
Definition underscore_char : Ascii.ascii := Ascii.ascii_of_nat 95.
Definition plain (id : string) : Prop := all_chars (fun c => negb (Ascii.eqb c underscore_char)) id = true.
Lemma plain_app_inj a b s t : plain a -> plain b -> (s = "" \/ exists x, s = String underscore_char x) ->
  (t = "" \/ exists x, t = String underscore_char x) -> (a +:+ s)%string = (b +:+ t)%string -> a = b.
Proof.
  unfold plain. revert b. induction a as [|c a IH]; intros [|d b]; simpl; intros Ha Hb Hs Ht E; try done.
  - destruct Hs as [->|[x ->]]; [done|]. injection E as <- _. by rewrite Ascii.eqb_refl in Hb.
  - destruct Ht as [->|[x ->]]; [done|]. injection E as -> _. by rewrite Ascii.eqb_refl in Ha.
  - injection E as -> E. apply andb_true_iff in Ha as [_ Ha], Hb as [_ Hb]. f_equal. by apply IH.
Qed.
Lemma append_assoc_eq a b c : ((a +:+ b) +:+ c)%string = (a +:+ (b +:+ c))%string.
Proof. induction a as [|x a IH]; [done|]. exact (f_equal (String x) IH). Qed.
Lemma append_nil_r a : (a +:+ "")%string = a.
Proof. induction a as [|x a IH]; [done|]. exact (f_equal (String x) IH). Qed.

Definition exec_key (id : string) : string := "ledger_po_exec_" +:+ id.
Definition rev_key (id : string) : string := "ledger_po_rev_" +:+ id.
Lemma line_key_shape p id i : p <> "" -> exists t, (t = "" \/ exists x, t = String underscore_char x) /\
  lineIdempotencyKey (Some (p +:+ id)) i = Some (p +:+ (id +:+ t)).
Proof.
  intros Hp. unfold lineIdempotencyKey. destruct p as [|c p]; [done|]. simpl truthy. cbv iota.
  case_bool_decide.
  - exists "". split; [by left|]. by rewrite append_nil_r.
  - exists ("_line_" +:+ pretty i). split; [right; by eexists|].
    change (String c (p +:+ id)) with (String c p +:+ id). by rewrite append_assoc_eq.
Qed.
Lemma exec_key_inj id id' i j : plain id -> plain id' ->
  lineIdempotencyKey (Some (exec_key id)) i = lineIdempotencyKey (Some (exec_key id')) j -> id = id'.
Proof.
  intros H H' E. destruct (line_key_shape "ledger_po_exec_" id i ltac:(done)) as (t & Ht & E1).
  destruct (line_key_shape "ledger_po_exec_" id' j ltac:(done)) as (t' & Ht' & E2).
  unfold exec_key in E. rewrite E1, E2 in E. injection E as E. exact (plain_app_inj _ _ _ _ H H' Ht Ht' E).
Qed.
Lemma rev_key_inj id id' i j : plain id -> plain id' ->
  lineIdempotencyKey (Some (rev_key id)) i = lineIdempotencyKey (Some (rev_key id')) j -> id = id'.
Proof.
  intros H H' E. destruct (line_key_shape "ledger_po_rev_" id i ltac:(done)) as (t & Ht & E1).
  destruct (line_key_shape "ledger_po_rev_" id' j ltac:(done)) as (t' & Ht' & E2).
  unfold rev_key in E. rewrite E1, E2 in E. injection E as E. exact (plain_app_inj _ _ _ _ H H' Ht Ht' E).
Qed.
Lemma exec_rev_ne id id' i j : lineIdempotencyKey (Some (exec_key id)) i <> lineIdempotencyKey (Some (rev_key id')) j.
Proof.
  destruct (line_key_shape "ledger_po_exec_" id i ltac:(done)) as (t & _ & E1).
  destruct (line_key_shape "ledger_po_rev_" id' j ltac:(done)) as (t' & _ & E2).
  unfold exec_key, rev_key. rewrite E1, E2. discriminate.
Qed.

(** ** The rows of a payout's journals *)
Definition isPayoutRow (e : PlatformLedgerEntry) : bool := bool_decide (ple_referenceType e ∈ ["PAYOUT"; "PAYOUT_REVERSAL"]).
Definition row_is (key : string) (i : nat) (a : LedgerAccountType) (entity : string) (sd : LedgerEntrySide) (amount : Q)
    (e : PlatformLedgerEntry) : Prop :=
  isPayoutRow e = true /\ ple_idempotencyKey e = lineIdempotencyKey (Some key) i /\ ple_accountType e = a /\
  ple_accountEntityId e = Some entity /\ ple_side e = sd /\ ple_amount e == amount.
(** Paid: the debt to the vendor shrinks, the gateway pays; reversed: back. *)
Definition exec_rows (id v : string) (amount : Q) (rows : LedgerTable) : Prop :=
  exists r1 r2, rows = [r1; r2] /\ row_is (exec_key id) 0 VENDOR_PAYABLE v DEBIT amount r1 /\
                row_is (exec_key id) 1 GATEWAY_CLEARING "RAZORPAY" CREDIT amount r2.
Definition rev_rows (id v : string) (amount : Q) (rows : LedgerTable) : Prop :=
  exists r1 r2, rows = [r1; r2] /\ row_is (rev_key id) 0 GATEWAY_CLEARING "RAZORPAY" DEBIT amount r1 /\
                row_is (rev_key id) 1 VENDOR_PAYABLE v CREDIT amount r2.
Definition unused (key : string) (L : LedgerTable) : Prop := keys_fresh (Some key) 0 L.

Section journals.
Context {col : NumericColumn} {dec : DecimalArith}.
Lemma createEntry_unused e L : (forall x, x ∈ L -> ple_idempotencyKey x <> ple_idempotencyKey e) ->
  exists row, createEntry e L = (Ok row, L ++ [row]) /\ ple_idempotencyKey row = ple_idempotencyKey e /\
    ple_accountType row = ple_accountType e /\ ple_accountEntityId row = ple_accountEntityId e /\
    ple_side row = ple_side e /\ ple_amount row = store (ple_amount e) /\ ple_referenceType row = ple_referenceType e.
Proof.
  intros H. unfold createEntry. cbv zeta.
  assert (match ple_idempotencyKey e with None => false
          | Some k => existsb (fun e' => bool_decide (ple_idempotencyKey e' = Some k)) L end = false) as ->.
  { destruct (ple_idempotencyKey e) as [k|]; [|done]. apply not_true_iff_false.
    intros (x & Hx%list_elem_of_In & E%bool_decide_eq_true)%existsb_exists. by apply (H x). }
  eexists. split; [reflexivity|]. done.
Qed.
Lemma persistLines_two now input jid p1 p2 k L : rj_idempotencyKey input = Some k -> k <> "" -> unused k L ->
  exists r1 r2, persistLines now input jid 0 [p1; p2] L = (Ok [r1; r2], L ++ [r1; r2]) /\
    let matches r p i := ple_idempotencyKey r = lineIdempotencyKey (Some k) i /\ ple_accountType r = pl_accountType p /\
      ple_accountEntityId r = pl_accountEntityId p /\ ple_side r = pl_side p /\ ple_amount r = store (pl_amount p) /\
      ple_referenceType r = rj_referenceType input in
    matches r1 p1 0%nat /\ matches r2 p2 1%nat.
Proof.
  intros Hk Hne Hf. cbn [persistLines]. rewrite Hk, bind_run.
  assert (forall i, is_Some (lineIdempotencyKey (Some k) i)) as HS
    by (intros i; unfold lineIdempotencyKey; destruct k; [done|]; simpl; case_bool_decide; by eexists).
  match goal with |- context [createEntry ?x L] => destruct (createEntry_unused x L) as (r1 & -> & H1) end.
  { intros x Hx. apply (Hf 0%nat x); [lia|done|apply HS]. }
  cbv beta iota. rewrite bind_assoc_run, bind_run.
  match goal with |- context [createEntry ?x (L ++ [r1])] =>
    destruct (createEntry_unused x (L ++ [r1])) as (r2 & -> & H2) end.
  { intros x [Hx| ->%list_elem_of_singleton]%elem_of_app; [apply (Hf 1%nat x); [lia|done|apply HS]|].
    destruct H1 as [-> _]. cbn. intros E. destruct (HS 0%nat) as [k0 Hk0].
    pose proof (lineIdempotencyKey_inj (Some k) 0 1 k0 Hk0 ltac:(by rewrite <- E)). lia. }
  exists r1, r2. rewrite <- app_assoc. split; [reflexivity|]. cbn. split; [apply H1|apply H2].
Qed.
Lemma payoutJournal_run now fid inTx rt c key de id p a1 a2 e1 e2 d1 d2 amount L :
  unused (String c key) L -> 0 < amount -> whole_paise amount ->
  bool_decide (rt ∈ ["PAYOUT"; "PAYOUT_REVERSAL"]) = true -> 
  exists r r1 r2, recordJournal now fid inTx (payoutJournal rt (String c key) de id p
      [payoutLine a1 e1 DEBIT amount d1; payoutLine a2 e2 CREDIT amount d2]) L = (Ok r, L ++ [r1; r2]) /\
    row_is (String c key) 0 a1 (default (po_vendorId p) (truthy e1)) DEBIT amount r1 /\
    row_is (String c key) 1 a2 (default (po_vendorId p) (truthy e2)) CREDIT amount r2.
Proof.
  intros Hf Hpos Hw Hrt.
  set (lines := [payoutLine a1 e1 DEBIT amount d1; payoutLine a2 e2 CREDIT amount d2]).
  set (input := payoutJournal rt (String c key) de id p lines).
  unfold recordJournal. change (rawLines input) with lines.
  change (truthy (rj_idempotencyKey input)) with (Some (String c key)).
  change (negb (Nat.ltb (length lines) 2)) with true. rewrite require_bind, get_bind. cbv iota.
  assert (List.find (fun e => bool_decide (ple_idempotencyKey e = Some (String c key))) L = None) as ->.
  { apply find_None_iff. intros e He. apply bool_decide_eq_false. apply (Hf 0%nat e); [lia|done|by eexists]. }
  unfold lines. cbn [parseLines li_amount payoutLine li_side li_entrySide].
  rewrite (proj2 (d_le_false _ _) Hpos). cbv zeta.
  unfold d_eq. rewrite (proj2 (Qeq_bool_iff _ _) (Qeq_refl _)), require_bind, bind_run.
  cbn [app]. set (jid := str_or _ _).
  match goal with |- context [persistLines _ _ _ _ [?p1; ?p2]] =>
    destruct (persistLines_two now input jid p1 p2 (String c key) L) as (r1 & r2 & E & H1 & H2); [done..|] end.
  exists {| jr_journalId := jid; jr_entries := [r1; r2]; jr_isDuplicate := false |}, r1, r2. split.
  { destruct inTx; [by rewrite E|]. unfold transaction. by rewrite E. }
  destruct H1 as (K1 & A1 & N1 & S1 & M1 & R1), H2 as (K2 & A2 & N2 & S2 & M2 & R2).
  unfold row_is, isPayoutRow. rewrite R1, R2, M1, M2, K1, K2, A1, A2, N1, N2, S1, S2. cbn.
  split_and!; try done; try (by rewrite store_exact); unfold opt_or; by destruct (truthy _).
Qed.

Definition payout_ok (p : Payout) : Prop := whole_paise (po_amount p) /\ 0 < po_amount p.
(** Posting a journal with unused keys only appends its two rows. *)
Lemma postJournal_exec env j inTx id p s : payout_ok p -> unused (exec_key id) (py_ledger s) ->
  exists rows, recordPayoutJournal env j inTx (execJournal id p) s = (Ok tt, set_py_ledger (py_ledger s ++ rows) s) /\
    exec_rows id (po_vendorId p) (po_amount p) rows.
Proof.
  intros [Hw Hpos] Hf. unfold recordPayoutJournal. rewrite bind_run. unfold zoom.
  edestruct (payoutJournal_run (pe_now env) j inTx "PAYOUT" (Ascii.ascii_of_nat 108) ("edger_po_exec_" +:+ id))
    as (r & r1 & r2 & E & H1 & H2); [exact Hf|exact Hpos|exact Hw|reflexivity|].
  change (payoutJournal "PAYOUT" _ _ id p _) with (execJournal id p) in E.
  rewrite (E : recordJournal _ _ _ (execJournal id p) _ = _). exists [r1; r2]. split; [done|]. exists r1, r2. done.
Qed.
Lemma postJournal_reverse env j inTx id p reason s : payout_ok p -> unused (rev_key id) (py_ledger s) ->
  exists rows, recordPayoutJournal env j inTx (reverseJournal id p reason) s = (Ok tt, set_py_ledger (py_ledger s ++ rows) s) /\
    rev_rows id (po_vendorId p) (po_amount p) rows.
Proof.
  intros [Hw Hpos] Hf. unfold recordPayoutJournal. rewrite bind_run. unfold zoom.
  edestruct (payoutJournal_run (pe_now env) j inTx "PAYOUT_REVERSAL" (Ascii.ascii_of_nat 108) ("edger_po_rev_" +:+ id))
    as (r & r1 & r2 & E & H1 & H2); [exact Hf|exact Hpos|exact Hw|reflexivity|].
  rewrite (E : recordJournal _ _ _ (reverseJournal id p reason) _ = _). exists [r1; r2]. split; [done|]. exists r1, r2. done.
Qed.
(** Posting it again changes nothing. *)
Lemma postJournal_again env j inTx input key e s : rj_idempotencyKey input = Some key -> truthy (Some key) = Some key ->
  (2 <= length (rawLines input))%nat -> e ∈ py_ledger s -> ple_idempotencyKey e = Some key ->
  recordPayoutJournal env j inTx input s = (Ok tt, set_py_ledger (py_ledger s ++ []) s).
Proof.
  intros Hk Ht Hlen He Hkey. unfold recordPayoutJournal. rewrite bind_run. unfold zoom.
  destruct (List.find (by_key key) (py_ledger s)) as [e'|] eqn:Ef.
  - by rewrite (recordJournal_duplicate _ _ _ _ _ key e'), app_nil_r by (rewrite ?Hk; done).
  - rewrite find_None_iff in Ef. specialize (Ef e He). unfold by_key in Ef. by apply bool_decide_eq_false in Ef.
Qed.
End journals.

(** ** What a ledger holds of a journal *)
Definition of_journal (k : string) (e : PlatformLedgerEntry) : bool :=
  existsb (fun i => bool_decide (ple_idempotencyKey e = lineIdempotencyKey (Some k) i)) [0; 1]%nat.
Definition journal_rows (k : string) (L : LedgerTable) : LedgerTable := List.filter (of_journal k) L.
Definition executed (id : string) (p : Payout) (L : LedgerTable) : Prop :=
  exec_rows id (po_vendorId p) (po_amount p) (journal_rows (exec_key id) L).
Definition takenBack (id : string) (p : Payout) (L : LedgerTable) : Prop :=
  rev_rows id (po_vendorId p) (po_amount p) (journal_rows (rev_key id) L).
Lemma journal_rows_app k L L' : journal_rows k (L ++ L') = journal_rows k L ++ journal_rows k L'.
Proof. apply List.filter_app. Qed.
Lemma of_journal_key k e : of_journal k e = true -> exists i, ple_idempotencyKey e = lineIdempotencyKey (Some k) i.
Proof. intros (i & _ & E%bool_decide_eq_true)%existsb_exists. by exists i. Qed.
Lemma journal_rows_none k L : (forall e i, e ∈ L -> ple_idempotencyKey e <> lineIdempotencyKey (Some k) i) -> journal_rows k L = [].
Proof.
  intros H. induction L as [|e L IH]; [done|]. unfold journal_rows. cbn [List.filter].
  destruct (of_journal k e) eqn:E; [|by apply IH; intros; apply H, list_elem_of_further].
  destruct (of_journal_key k e E) as [i Hi]. by destruct (H e i (list_elem_of_here _ _)).
Qed.
Lemma line_keys_some k i : k <> "" -> is_Some (lineIdempotencyKey (Some k) i).
Proof. intros H. unfold lineIdempotencyKey. destruct k; [done|]. simpl. case_bool_decide; by eexists. Qed.
Lemma unused_rows k L : k <> "" -> unused k L -> journal_rows k L = [].
Proof. intros Hk H. apply journal_rows_none. intros e i He. apply (H i e); [lia|done|by apply line_keys_some]. Qed.

(** ** Phases and moves

    The book sees three phases.  A payout is opened, settled, given up or
    returned; everything else leaves book and ledger alone. *)
Inductive Phase : Type := Reserved | Settled | Void.
#[export] Instance Phase_eq_dec : EqDecision Phase.
Proof. solve_decision. Defined.
Definition phase (st : PayoutStatus) : Phase :=
  match st with
  | PO_PENDING | PO_APPROVED | PO_PROCESSING => Reserved
  | PO_PAID => Settled
  | PO_FAILED | PO_REJECTED | PO_REVERSED => Void
  end.
(** [p'] is [p] but for its state. *)
Definition same_payout (p p' : Payout) : Prop := po_vendorId p' = po_vendorId p /\ po_amount p' = po_amount p.
Definition payout_moves (id : string) (p : Payout) (ph : Phase) (rows : LedgerTable) (s s' : PayoutStore) : Prop :=
  exists p', py_payouts s !! id = Some p /\ same_payout p p' /\ phase (po_status p') = ph /\
    py_payouts s' = <[id := p']> (py_payouts s) /\ py_ledger s' = py_ledger s ++ rows.
(** What requests draw on before what is paid and reserved. *)
Definition fundsFor (now : Z) (cfg : option PayoutConfig) (v : string) (s : PayoutStore) : Q :=
  totalSettledEarned now cfg v s + netAdjustments (fun a => String.eqb (fa_targetId a) v) s.
Definition owed (v : string) (s : PayoutStore) : Q := sumPayouts v [PO_PAID] s + sumPayouts v reservedStatuses s.
Definition same_funds (s s' : PayoutStore) : Prop := py_bookings s' = py_bookings s /\ py_adjustments s' = py_adjustments s.

Inductive book_moved (now : Z) (cfg : option PayoutConfig) (s s' : PayoutStore) : Prop :=
  | moved_none : py_payouts s' = py_payouts s -> py_ledger s' = py_ledger s -> book_moved now cfg s s'
  | moved_open id p : py_payouts s !! id = None -> plain id -> payout_ok p -> po_status p = PO_PENDING ->
      owed (po_vendorId p) s + po_amount p <= fundsFor now cfg (po_vendorId p) s ->
      py_payouts s' = <[id := p]> (py_payouts s) -> py_ledger s' = py_ledger s -> book_moved now cfg s s'
  | moved_within id p : payout_moves id p (phase (po_status p)) [] s s' -> book_moved now cfg s s'
  | moved_settled id p rows : phase (po_status p) = Reserved -> exec_rows id (po_vendorId p) (po_amount p) rows ->
      payout_moves id p Settled rows s s' -> book_moved now cfg s s'
  | moved_released id p : phase (po_status p) = Reserved -> payout_moves id p Void [] s s' -> book_moved now cfg s s'
  | moved_returned id p rows : phase (po_status p) = Settled -> rev_rows id (po_vendorId p) (po_amount p) rows ->
      unused (rev_key id) (py_ledger s) -> payout_moves id p Void rows s s' -> book_moved now cfg s s'.

(** The bank may take an answer back: settle what was given up, which is
    posted unless it already was, and fail what it settled, which reverses
    nothing; and a payout settled a second time is reversed without rows. *)
Definition bank_settles (answer : option PayoutEvent) (p : Payout) : Prop :=
  exists ev, answer = Some ev /\ matchesEvent ev p = true /\ pv_event ev ∈ ["payout.processed"; "payout.paid"].
Definition bank_fails (answer : option PayoutEvent) (p : Payout) : Prop :=
  exists ev, answer = Some ev /\ matchesEvent ev p = true /\ pv_event ev ∈ ["payout.failed"; "payout.rejected"].
Inductive late_moved (answer : option PayoutEvent) (s s' : PayoutStore) : Prop :=
  | late_settled id p rows : phase (po_status p) = Void -> bank_settles answer p ->
      unused (exec_key id) (py_ledger s) /\ exec_rows id (po_vendorId p) (po_amount p) rows \/ executed id p (py_ledger s) /\ rows = [] ->
      payout_moves id p Settled rows s s' -> late_moved answer s s'
  | late_failed id p : phase (po_status p) = Settled -> bank_fails answer p -> payout_moves id p Void [] s s' -> late_moved answer s s'
  | late_reversed id p : phase (po_status p) = Settled -> takenBack id p (py_ledger s) -> payout_moves id p Void [] s s' -> late_moved answer s s'.

(** What the ledger holds of a payout: nothing while it is reserved, the
    execution once and in full when it is settled, and after that at most one
    reversal. *)
Definition fresh_id (id : string) (L : LedgerTable) : Prop := unused (exec_key id) L /\ unused (rev_key id) L.
Definition posted_once (id : string) (p : Payout) (L : LedgerTable) : Prop :=
  let paid := executed id p L /\ (unused (rev_key id) L \/ takenBack id p L) in
  match phase (po_status p) with
  | Reserved => fresh_id id L
  | Settled => paid
  | Void => fresh_id id L \/ paid
  end.
Record book_kept (s : PayoutStore) : Prop := {
  bk_payout id p : py_payouts s !! id = Some p -> plain id /\ payout_ok p;
  bk_new id : plain id -> py_payouts s !! id = None -> fresh_id id (py_ledger s);
  bk_posted id p : py_payouts s !! id = Some p -> posted_once id p (py_ledger s);
}.
Definition foreign_row (e : PlatformLedgerEntry) : Prop :=
  isPayoutRow e = false /\ forall id i, ple_idempotencyKey e <> lineIdempotencyKey (Some (exec_key id)) i /\
                                         ple_idempotencyKey e <> lineIdempotencyKey (Some (rev_key id)) i.

Lemma unused_app k L rows : unused k L -> (forall r i, r ∈ rows -> ple_idempotencyKey r <> lineIdempotencyKey (Some k) i) ->
  unused k (L ++ rows).
Proof. intros H Hr j e Hj [He|He]%elem_of_app Hs; [by apply (H j)|by apply Hr]. Qed.
Lemma exec_rows_keys id v a rows r : exec_rows id v a rows -> r ∈ rows ->
  exists i, ple_idempotencyKey r = lineIdempotencyKey (Some (exec_key id)) i.
Proof.
  intros (r1 & r2 & -> & (_ & H1 & _) & (_ & H2 & _)) [->| ->%list_elem_of_singleton]%elem_of_cons; eauto.
Qed.
Lemma rev_rows_keys id v a rows r : rev_rows id v a rows -> r ∈ rows ->
  exists i, ple_idempotencyKey r = lineIdempotencyKey (Some (rev_key id)) i.
Proof.
  intros (r1 & r2 & -> & (_ & H1 & _) & (_ & H2 & _)) [->| ->%list_elem_of_singleton]%elem_of_cons; eauto.
Qed.
(** Rows of other journals, and the rows of one's own. *)
Definition apart (id : string) (rows : LedgerTable) : Prop :=
  forall r i, r ∈ rows -> ple_idempotencyKey r <> lineIdempotencyKey (Some (exec_key id)) i /\
                          ple_idempotencyKey r <> lineIdempotencyKey (Some (rev_key id)) i.
Lemma exec_rows_apart id id' v a rows : plain id -> plain id' -> id' <> id -> exec_rows id v a rows -> apart id' rows.
Proof.
  intros Hp Hp' Hne Hr r i Hin. destruct (exec_rows_keys _ _ _ _ _ Hr Hin) as [j ->].
  split; [|apply exec_rev_ne]. intros E%exec_key_inj; [congruence|done..].
Qed.
Lemma rev_rows_apart id id' v a rows : plain id -> plain id' -> id' <> id -> rev_rows id v a rows -> apart id' rows.
Proof.
  intros Hp Hp' Hne Hr r i Hin. destruct (rev_rows_keys _ _ _ _ _ Hr Hin) as [j ->].
  split; [intros E; symmetry in E; by apply exec_rev_ne in E|]. intros E%rev_key_inj; [congruence|done..].
Qed.
Lemma foreign_apart rows id : Forall foreign_row rows -> apart id rows.
Proof. rewrite Forall_forall. intros H r i Hr. apply (H r Hr). Qed.
Lemma fresh_apart id L rows : apart id rows -> fresh_id id L -> fresh_id id (L ++ rows).
Proof. intros H [H1 H2]. split; apply unused_app; try done; intros r i Hr; apply (H r i Hr). Qed.
Lemma posted_apart id p L rows : apart id rows -> posted_once id p L -> posted_once id p (L ++ rows).
Proof.
  intros H. assert (executed id p L -> executed id p (L ++ rows)) as He.
  { unfold executed. rewrite journal_rows_app, (journal_rows_none _ rows), app_nil_r; [done|]. intros r i Hr. apply (H r i Hr). }
  assert (unused (rev_key id) L \/ takenBack id p L -> unused (rev_key id) (L ++ rows) \/ takenBack id p (L ++ rows)) as Hr.
  { intros [Hu|Hr]; [left; apply unused_app; [done|]; intros r i Hin; apply (H r i Hin)|right]. revert Hr.
    unfold takenBack. rewrite journal_rows_app, (journal_rows_none _ rows), app_nil_r; [done|]. intros r i Hr. apply (H r i Hr). }
  pose proof (fresh_apart id L rows H). unfold posted_once. destruct (phase _); tauto.
Qed.
Lemma bool_decide_eq_refl {A} `{EqDecision A} (x : A) : bool_decide (x = x) = true.
Proof. by apply bool_decide_true. Qed.
Lemma own_rows k r1 r2 : ple_idempotencyKey r1 = lineIdempotencyKey (Some k) 0 -> ple_idempotencyKey r2 = lineIdempotencyKey (Some k) 1 ->
  journal_rows k [r1; r2] = [r1; r2].
Proof.
  intros H1 H2. unfold journal_rows, of_journal. cbn [List.filter existsb]. rewrite H1, H2.
  rewrite !bool_decide_eq_refl. cbn [orb]. by rewrite orb_true_r.
Qed.
Lemma executed_now id p L rows : unused (exec_key id) L -> exec_rows id (po_vendorId p) (po_amount p) rows -> executed id p (L ++ rows).
Proof.
  intros Hu (r1 & r2 & -> & H1 & H2). unfold executed. rewrite journal_rows_app, unused_rows, own_rows; [|apply H1|apply H2|done|done].
  by exists r1, r2.
Qed.
Lemma takenBack_now id p L rows : unused (rev_key id) L -> rev_rows id (po_vendorId p) (po_amount p) rows -> takenBack id p (L ++ rows).
Proof.
  intros Hu (r1 & r2 & -> & H1 & H2). unfold takenBack. rewrite journal_rows_app, unused_rows, own_rows; [|apply H1|apply H2|done|done].
  by exists r1, r2.
Qed.
Lemma exec_rows_rev id id' v a rows L : exec_rows id v a rows -> unused (rev_key id') L -> unused (rev_key id') (L ++ rows).
Proof.
  intros Hr H. apply unused_app; [done|]. intros r i Hin E.
  destruct (exec_rows_keys _ _ _ _ _ Hr Hin) as [j Hj]. rewrite Hj in E. by apply exec_rev_ne in E.
Qed.
Lemma rev_rows_exec id p rows L v a : rev_rows id v a rows -> executed id p L -> executed id p (L ++ rows).
Proof.
  intros Hr. unfold executed. rewrite journal_rows_app, (journal_rows_none _ rows), app_nil_r; [done|].
  intros r i Hin E. destruct (rev_rows_keys _ _ _ _ _ Hr Hin) as [j Hj]. rewrite Hj in E. symmetry in E. by apply exec_rev_ne in E.
Qed.
(** What [posted_once] asks of a payout that is now in phase [ph]. *)
Lemma posted_phase id p p' L : same_payout p p' ->
  match phase (po_status p') with
  | Reserved => fresh_id id L
  | Settled => executed id p L /\ (unused (rev_key id) L \/ takenBack id p L)
  | Void => fresh_id id L \/ executed id p L /\ (unused (rev_key id) L \/ takenBack id p L)
  end -> posted_once id p' L.
Proof. intros [Hv Ha]. unfold posted_once, executed, takenBack. by rewrite Hv, Ha. Qed.
Lemma posted_same id p p' L : same_payout p p' -> phase (po_status p') = phase (po_status p) -> posted_once id p L -> posted_once id p' L.
Proof. intros [Hv Ha] E. unfold posted_once, executed, takenBack. by rewrite E, Hv, Ha. Qed.

(** A payout that moves with its own rows keeps the book in order. *)
Lemma payout_moves_kept id p ph rows s s' : book_kept s -> payout_moves id p ph rows s s' ->
  (plain id -> posted_once id p (py_ledger s) -> forall p', same_payout p p' -> phase (po_status p') = ph -> posted_once id p' (py_ledger s ++ rows)) ->
  (plain id -> forall id', plain id' -> id' <> id -> apart id' rows) -> book_kept s'.
Proof.
  intros [H1 H2 H3] (p' & Hp & Hs & Hph & E & EL) Hown Hother. destruct (H1 _ _ Hp) as [Hpl Hok].
  split; rewrite ?EL; intros id'; rewrite ?E.
  - intros q [[<- <-]|[Hne Hq]]%lookup_insert_Some; [|by apply H1]. split; [done|]. destruct Hs as [_ Ha]. unfold payout_ok. by rewrite Ha.
  - intros Hpl' [Hq Hne]%lookup_insert_None. apply fresh_apart; [by apply Hother|by apply H2].
  - intros q [[<- <-]|[Hne Hq]]%lookup_insert_Some; [by apply Hown; [..|apply H3| |]|].
    apply posted_apart; [apply Hother; [done|by apply (H1 _ _ Hq)|done]|by apply H3].
Qed.
Lemma apart_nil id : apart id [].
Proof. intros r i Hr. by apply elem_of_nil in Hr. Qed.
Lemma moved_kept now cfg s s' : book_kept s -> book_moved now cfg s s' -> book_kept s'.
Proof.
  intros Hs Hm. destruct Hm as [E EL|id p Hn Hpl Hok Hst _ E EL|id p Hm|id p rows Hp Hr Hm|id p Hp Hm|id p rows Hp Hr Hu Hm].
  - destruct Hs as [H1 H2 H3]. split; rewrite ?E, ?EL; done.
  - destruct Hs as [H1 H2 H3]. split; rewrite ?EL; intros id'; rewrite ?E.
    + intros q [[<- <-]|[Hne Hq]]%lookup_insert_Some; [done|by apply H1].
    + intros Hpl' [Hq Hne]%lookup_insert_None. by apply H2.
    + intros q [[<- <-]|[Hne Hq]]%lookup_insert_Some; [|by apply H3]. unfold posted_once. rewrite Hst. by apply H2.
  - eapply payout_moves_kept; [done..| |intros; apply apart_nil]. intros Hpl H p' Hsame E. rewrite app_nil_r. by eapply posted_same.
  - eapply payout_moves_kept; [done..| |intros Hpl id' Hpl' Hne; exact (exec_rows_apart id id' _ _ _ Hpl Hpl' Hne Hr)].
    intros Hpl H p' Hsame E. apply (posted_phase _ _ _ _ Hsame). rewrite E. unfold posted_once in H. rewrite Hp in H. destruct H as [H1 H2].
    split; [by apply executed_now|left; by eapply exec_rows_rev].
  - eapply payout_moves_kept; [done..| |intros; apply apart_nil].
    intros Hpl H p' Hsame E. apply (posted_phase _ _ _ _ Hsame). rewrite E, app_nil_r. unfold posted_once in H. rewrite Hp in H. by left.
  - eapply payout_moves_kept; [done..| |intros Hpl id' Hpl' Hne; exact (rev_rows_apart id id' _ _ _ Hpl Hpl' Hne Hr)].
    intros Hpl H p' Hsame E. apply (posted_phase _ _ _ _ Hsame). rewrite E. unfold posted_once in H. rewrite Hp in H. destruct H as [H1 H2].
    right. split; [by eapply rev_rows_exec|right; by apply takenBack_now].
Qed.
Lemma executed_used id p L : executed id p L -> ~ unused (exec_key id) L.
Proof. intros (r1 & r2 & E & _) Hu. by rewrite unused_rows in E. Qed.
Lemma late_kept answer s s' : book_kept s -> late_moved answer s s' -> book_kept s'.
Proof.
  intros Hs Hm. destruct Hm as [id p rows Hp _ Hr Hm|id p Hp _ Hm|id p Hp Hrev Hm].
  - destruct Hr as [[Hu Hr]|[He ->]].
    + eapply payout_moves_kept; [done..| |intros Hpl id' Hpl' Hne; exact (exec_rows_apart id id' _ _ _ Hpl Hpl' Hne Hr)].
      intros Hpl H p' Hsame E. apply (posted_phase _ _ _ _ Hsame). rewrite E. unfold posted_once in H. rewrite Hp in H.
      destruct H as [[_ H2]|[H1 _]]; [|by apply executed_used in H1]. split; [by apply executed_now|left; by eapply exec_rows_rev].
    + eapply payout_moves_kept; [done..| |intros; apply apart_nil].
      intros Hpl H p' Hsame E. apply (posted_phase _ _ _ _ Hsame). rewrite E, app_nil_r. unfold posted_once in H. rewrite Hp in H.
      destruct H as [[H1 _]|?]; [by apply executed_used in He|done].
  - eapply payout_moves_kept; [done..| |intros; apply apart_nil].
    intros Hpl H p' Hsame E. apply (posted_phase _ _ _ _ Hsame). rewrite E, app_nil_r. unfold posted_once in H. rewrite Hp in H. by right.
  - eapply payout_moves_kept; [done..| |intros; apply apart_nil].
    intros Hpl H p' Hsame E. apply (posted_phase _ _ _ _ Hsame). rewrite E, app_nil_r. unfold posted_once in H. rewrite Hp in H. by right.
Qed.

(** ** Every operation is a move *)
Section operations.
Context {col : NumericColumn} {dec : DecimalArith} {num : DecimalNumbers} (now : Z) (cfg : option PayoutConfig) (answer : option PayoutEvent).
(** A move of book and ledger that leaves bookings and adjustments alone. *)
Definition moves (s s' : PayoutStore) : Prop := (book_moved now cfg s s' \/ late_moved answer s s') /\ same_funds s s'.
Definition same_book (s s' : PayoutStore) : Prop :=
  py_payouts s' = py_payouts s /\ py_ledger s' = py_ledger s /\ same_funds s s'.

Lemma moves_same s s' : same_book s s' -> moves s s'.
Proof. intros (H1 & H2 & H3). split; [left; by apply moved_none|done]. Qed.
Lemma moves_refl s : moves s s.
Proof. by apply moves_same. Qed.
Lemma payout_moves_after id p ph rows s s1 s2 : payout_moves id p ph rows s s1 -> same_book s1 s2 -> payout_moves id p ph rows s s2.
Proof. intros (p' & H1 & H2 & H3 & H4 & H5) (E1 & E2 & _). exists p'. by rewrite E1, E2. Qed.
Lemma payout_moves_before id p ph rows s s1 s2 : same_book s s1 -> payout_moves id p ph rows s1 s2 -> payout_moves id p ph rows s s2.
Proof. intros (E1 & E2 & _) (p' & H1 & H2 & H3 & H4 & H5). exists p'. by rewrite <- E1, <- E2. Qed.
Lemma moves_after s s1 s2 : moves s s1 -> same_book s1 s2 -> moves s s2.
Proof.
  intros [Hm [F1 F2]] Hb. pose proof Hb as (E1 & E2 & F3 & F4). split; [|split; congruence].
  pose proof (fun id p ph rows H => payout_moves_after id p ph rows s s1 s2 H Hb) as Hafter.
  destruct Hm as [Hm|Hm]; [left|right]; destruct Hm; eauto using book_moved, late_moved.
  - apply moved_none; congruence.
  - eapply moved_open; eauto; congruence.
Qed.
Lemma moves_before s s1 s2 : same_book s s1 -> moves s1 s2 -> moves s s2.
Proof.
  intros Hb [Hm [F3 F4]]. pose proof Hb as (E1 & E2 & F1 & F2). split; [|split; congruence].
  pose proof (fun id p ph rows => payout_moves_before id p ph rows s s1 s2 Hb) as Hbefore.
  destruct Hm as [Hm|Hm]; [left|right]; [destruct Hm as [|id p H1 H2 H3 H4 H5| | | |]|destruct Hm]; rewrite ?E1, ?E2 in *;
    eauto using book_moved, late_moved.
  eapply moved_open with id p; try done; try congruence. revert H5.
  unfold owed, sumPayouts, payouts_of, fundsFor, totalSettledEarned, netAdjustments, sumAdjustments. by rewrite E1, F1, F2.
Qed.

Lemma findPayout_run id s r s' : findPayout id s = (r, s') ->
  s' = s /\ match r with Ok p => py_payouts s !! id = Some p | Throw _ => True end.
Proof. unfold findPayout. step. destruct (py_payouts s !! id); cbn; intros [= <- <-]; done. Qed.
Lemma updatePayout_run id f s r s' : updatePayout id f s = (r, s') ->
  (s' = s /\ is_Ok r = false) \/
  (exists p, py_payouts s !! id = Some p /\ r = Ok (f p) /\ s' = set_payouts (<[id := f p]> (py_payouts s)) s).
Proof.
  unfold updatePayout. step. destruct (py_payouts s !! id) as [p|]; [|intros [= <- <-]; by left].
  step. case_match; intros [= <- <-]; [right; by exists p|by left].
Qed.
(** The common tail of a handler: one row updated, one audit line. *)
Lemma update_then_log id f u a e s r s' :
  (x ← updatePayout id f; auditLog u a e ;; mret x) s = (r, s') ->
  s' = s \/ (exists p s1, py_payouts s !! id = Some p /\ s1 = set_payouts (<[id := f p]> (py_payouts s)) s /\ same_book s1 s').
Proof.
  rewrite bind_run. destruct (updatePayout id f s) as [r1 s1] eqn:E.
  apply updatePayout_run in E as [[-> Hr]|(p & Hp & -> & ->)].
  - destruct r1; [done|]. intros [= <- <-]. by left.
  - rewrite bind_run. cbn. intros [= <- <-]. right. exists p. eexists. split_and!; [done|reflexivity|done].
Qed.
Lemma set_payout_moves id p p' ph s : py_payouts s !! id = Some p -> same_payout p p' -> phase (po_status p') = ph ->
  payout_moves id p ph [] s (set_payouts (<[id := p']> (py_payouts s)) s).
Proof. intros. exists p'. split_and!; try done; [by rewrite lookup_insert_eq || done..|]. by rewrite app_nil_r. Qed.
(** An update within a phase, or one that gives a reserved payout up. *)
Lemma quiet_update id st f u a e p s r s' : py_payouts s !! id = Some p ->
  (forall q, same_payout q (f q) /\ po_status (f q) = st) ->
  phase st = phase (po_status p) \/ phase (po_status p) = Reserved /\ phase st = Void ->
  (x ← updatePayout id f; auditLog u a e ;; mret x) s = (r, s') -> moves s s'.
Proof.
  intros Hp Hf Hph [->|(q & s1 & Hq & -> & Hb)]%update_then_log; [apply moves_refl|]. simplify_eq.
  destruct (Hf p) as [Hsame Hst]. eapply moves_after; [|exact Hb]. split; [left|done].
  destruct Hph as [E|[E1 E2]].
  - eapply moved_within with id p, set_payout_moves; [done..|congruence].
  - eapply moved_released with id p; [done|]. eapply set_payout_moves; [done..|congruence].
Qed.
Lemma po_set_same st t fee reason by' pr pd q : same_payout q (po_set st t fee reason by' pr pd q) /\
  po_status (po_set st t fee reason by' pr pd q) = st.
Proof. done. Qed.

Lemma approvePayout_moves id u s r s' : approvePayout id u s = (r, s') -> moves s s'.
Proof.
  unfold approvePayout. rewrite bind_run. destruct (findPayout id s) as [[p|e] s1] eqn:E; apply findPayout_run in E as [-> Hp].
  2: { intros [= <- <-]. apply moves_refl. }
  step. case_bool_decide as Hst; [|intros [= <- <-]; apply moves_refl]. intros H.
  eapply quiet_update in H; [exact H|exact Hp|intros q; apply po_set_same|]. left. by rewrite Hst.
Qed.
Lemma rejectPayout_moves id u reason s r s' : rejectPayout id u reason s = (r, s') -> moves s s'.
Proof.
  unfold rejectPayout. rewrite bind_run. destruct (findPayout id s) as [[p|e] s1] eqn:E; apply findPayout_run in E as [-> Hp].
  2: { intros [= <- <-]. apply moves_refl. }
  step. case_bool_decide as Hst; [|intros [= <- <-]; apply moves_refl]. intros H.
  eapply quiet_update in H; [exact H|exact Hp|intros q; apply po_set_same|]. right.
  apply elem_of_cons in Hst as [->|[-> |[]%elem_of_nil]%elem_of_cons]; done.
Qed.
Lemma executed_key id p L : executed id p L -> exists e, e ∈ L /\ ple_idempotencyKey e = Some (exec_key id).
Proof.
  intros (r1 & r2 & E & (_ & Hk & _) & _). exists r1. split; [|exact Hk].
  assert (r1 ∈ journal_rows (exec_key id) L) as [Hin _]%list_elem_of_In%List.filter_In by (rewrite E; constructor).
  by apply list_elem_of_In.
Qed.
Lemma takenBack_key id p L : takenBack id p L -> exists e, e ∈ L /\ ple_idempotencyKey e = Some (rev_key id).
Proof.
  intros (r1 & r2 & E & (_ & Hk & _) & _). exists r1. split; [|exact Hk].
  assert (r1 ∈ journal_rows (rev_key id) L) as [Hin _]%list_elem_of_In%List.filter_In by (rewrite E; constructor).
  by apply list_elem_of_In.
Qed.
(** A payout becomes PAID and its journal is posted, unless it already was. *)
Lemma settled_row env j inTx id p p' s : book_kept s -> py_payouts s !! id = Some p ->
  phase (po_status p) = Reserved \/ phase (po_status p) = Void /\ bank_settles answer p ->
  same_payout p p' -> po_status p' = PO_PAID ->
  exists s2, recordPayoutJournal env j inTx (execJournal id p) (set_payouts (<[id := p']> (py_payouts s)) s) = (Ok tt, s2) /\ moves s s2.
Proof.
  intros Hs Hp Hph Hsame Hst. destruct (bk_payout s Hs _ _ Hp) as [Hpl Hok]. pose proof (bk_posted s Hs _ _ Hp) as Hpost.
  set (s1 := set_payouts _ s).
  assert (forall rows, payout_moves id p Settled rows s (set_py_ledger (py_ledger s1 ++ rows) s1)) as Hmove
    by (intros rows; exists p'; by rewrite Hst).
  unfold posted_once in Hpost.
  assert (unused (exec_key id) (py_ledger s) \/ phase (po_status p) = Void /\ bank_settles answer p /\ executed id p (py_ledger s)) as [Hu|(HV & Hb & He)].
  { destruct Hph as [E|[E Hb]]; rewrite E in Hpost; [left; apply Hpost|]. destruct Hpost as [[Hu _]|[He _]]; tauto. }
  - destruct (postJournal_exec env j inTx id p s1) as (rows & -> & Hr); [done..|].
    eexists. split; [reflexivity|]. split; [|done]. destruct Hph as [Hph|[Hph Hb]]; [left|right].
    + eapply moved_settled; [exact Hph|exact Hr|apply Hmove].
    + eapply late_settled; [exact Hph|exact Hb|by left|apply Hmove].
  - destruct (executed_key _ _ _ He) as (e & Hin & Hkey).
    rewrite (postJournal_again env j inTx (execJournal id p) (exec_key id) e s1) by done.
    eexists. split; [reflexivity|]. split; [right|done]. eapply late_settled; [exact HV|exact Hb|by right|apply Hmove].
Qed.
Lemma markPaid_moves env j id p t fee s r s' : book_kept s -> py_payouts s !! id = Some p ->
  phase (po_status p) = Reserved \/ phase (po_status p) = Void /\ bank_settles answer p ->
  markPaid env j id p t fee s = (r, s') -> moves s s'.
Proof.
  intros Hs Hp Hph. unfold markPaid, transaction. rewrite bind_run.
  destruct (updatePayout id _ s) as [r1 s1] eqn:E. apply updatePayout_run in E as [[-> Hr]|(q & Hq & -> & ->)].
  - destruct r1; [done|]. intros [= <- <-]. apply moves_refl.
  - simplify_eq. rewrite bind_run.
    edestruct (settled_row env j true id p) as (s2 & -> & Hm); [done..|apply po_set_same|apply po_set_same|].
    rewrite ret_run. intros [= <- <-]. exact Hm.
Qed.
Lemma settleManually_moves env j id u p t fee s r s' : book_kept s -> py_payouts s !! id = Some p -> phase (po_status p) = Reserved ->
  settleManually env j id u p t fee s = (r, s') -> moves s s'.
Proof.
  intros Hs Hp Hph. unfold settleManually. rewrite bind_run.
  destruct (updatePayout id _ s) as [r1 s1] eqn:E. apply updatePayout_run in E as [[-> Hr]|(q & Hq & -> & ->)].
  - destruct r1; [done|]. intros [= <- <-]. apply moves_refl.
  - simplify_eq. rewrite bind_run. unfold auditLog. rewrite modify_run. cbv beta iota.
    rewrite bind_run. unfold try_catch.
    set (s1 := add_payout_audit {| al_userId := u; al_action := "PAYOUT_EXECUTED_MANUAL"; al_entityId := id |} s).
    edestruct (settled_row env j false id p (po_set PO_PAID (Some (trim t)) (feeColumn fee) None None (Some (pe_now env)) (Some (pe_now env)) p) s1)
      as (s2 & E & Hm); [destruct Hs; by split|exact Hp|by left|apply po_set_same|apply po_set_same|].
    match goal with |- context [recordPayoutJournal env j false _ ?x] => change x with
      (set_payouts (<[id := po_set PO_PAID (Some (trim t)) (feeColumn fee) None None (Some (pe_now env)) (Some (pe_now env)) p]> (py_payouts s1)) s1) end.
    rewrite E, ret_run. intros [= <- <-]. by eapply moves_before; [|exact Hm].
Qed.
Lemma applyTransfer_moves env j id u p t s r s' : book_kept s -> py_payouts s !! id = Some p -> phase (po_status p) = Reserved ->
  applyTransfer env j id u p t s = (r, s') -> moves s s'.
Proof.
  intros Hs Hp Hph. unfold applyTransfer.
  destruct (tr_status t); try (intros H; eapply quiet_update in H; [exact H|exact Hp|intros q; apply po_set_same|rewrite Hph; first [by left|by right]]).
  rewrite bind_run. destruct (markPaid env j id p (tr_providerTransferId t) (feeColumn (tr_providerFee t)) s) as [r1 s1] eqn:E. apply markPaid_moves in E; [|done..|by left].
  destruct r1; [|intros [= <- <-]; done]. rewrite bind_run. cbn. intros [= <- <-]. by eapply moves_after.
Qed.
Lemma readExecutable_run id u s r s' : readExecutable id u s = (r, s') ->
  s' = s /\ match r with Ok p => py_payouts s !! id = Some p /\ phase (po_status p) = Reserved | Throw _ => True end.
Proof.
  unfold readExecutable. rewrite bind_run. destruct (findPayout id s) as [[p|e] s1] eqn:E; apply findPayout_run in E as [-> Hp].
  2: by intros [= <- <-]. step. case_bool_decide as Hst; [|by intros [= <- <-]].
  step. case_match; [|by intros [= <- <-]]. intros [= <- <-]. split_and!; [done..|].
  unfold reservedStatuses in Hst. by destruct (po_status p); try done; exfalso; set_solver.
Qed.
Lemma executePayout_moves env j id u t fee g s r s' : book_kept s -> executePayout env j id u t fee g s = (r, s') -> moves s s'.
Proof.
  intros Hs. unfold executePayout. rewrite bind_run.
  destruct (readExecutable id u s) as [r1 s1] eqn:E; apply readExecutable_run in E as [-> Hp].
  destruct r1 as [p|e]; [|intros [= <- <-]; apply moves_refl]. destruct Hp as [Hp Hph].
  destruct (truthy _) as [x|]; [by apply settleManually_moves|]. destruct g as [t'|]; [by apply applyTransfer_moves|].
  intros H. eapply quiet_update in H; [exact H|exact Hp|intros q; apply po_set_same|rewrite Hph; by left].
Qed.

Lemma phase_of st : (phase st = Reserved <-> st ∈ reservedStatuses) /\ (phase st = Settled <-> st = PO_PAID).
Proof. unfold reservedStatuses. destruct st; cbn; split; split; try done; set_solver. Qed.
Lemma reversePayout_moves env j id u reason s r s' : book_kept s -> reversePayout env j id u reason s = (r, s') -> moves s s'.
Proof.
  intros Hs. unfold reversePayout. rewrite bind_run.
  destruct (findPayout id s) as [[p|e] s1] eqn:E; apply findPayout_run in E as [-> Hp].
  2: { intros [= <- <-]. apply moves_refl. }
  destruct (decide _); [intros [= <- <-]; apply moves_refl|].
  step. case_bool_decide as Hst; [|intros [= <- <-]; apply moves_refl]. rewrite bind_run. unfold transaction. rewrite bind_run.
  destruct (updatePayout id _ s) as [r1 s1] eqn:E. apply updatePayout_run in E as [[-> Hr]|(q & Hq & -> & ->)].
  { destruct r1; [done|]. intros [= <- <-]. apply moves_refl. }
  simplify_eq. set (p' := po_set _ _ _ _ _ _ _ p). destruct (bk_payout s Hs _ _ Hp) as [Hpl Hok]. rewrite bind_run.
  case_bool_decide as Hpaid; cbn [when].
  - pose proof (bk_posted s Hs _ _ Hp) as Hpost. unfold posted_once in Hpost. rewrite Hpaid in Hpost. destruct Hpost as [_ [Hu|Hrev]].
    + destruct (postJournal_reverse env j true id p reason (set_payouts (<[id := p']> (py_payouts s)) s)) as (rows & -> & Hr); [done..|].
      rewrite ret_run. cbv beta iota. rewrite bind_run. cbn. intros [= <- <-]. split; [left|done].
      eapply moved_returned; [by rewrite Hpaid|exact Hr|exact Hu|]. by exists p'.
    + destruct (takenBack_key _ _ _ Hrev) as (e & Hin & Hkey).
      rewrite (postJournal_again env j true (reverseJournal id p reason) (rev_key id) e (set_payouts (<[id := p']> (py_payouts s)) s)) by done.
      rewrite ret_run. cbv beta iota. rewrite bind_run. cbn. intros [= <- <-]. split; [right|done].
      eapply late_reversed; [by rewrite Hpaid|exact Hrev|]. by exists p'.
  - rewrite ret_run. cbv beta iota. rewrite ret_run, bind_run. cbn. intros [= <- <-]. split; [left|done].
    eapply moved_released with id p; [|exists p'; split_and!; try done; cbn; by rewrite app_nil_r].
    apply elem_of_cons in Hst as [?|[->|[]%elem_of_nil]%elem_of_cons]; done.
Qed.

Lemma void_phase st : phase st = Void <-> st ∈ [PO_FAILED; PO_REJECTED; PO_REVERSED].
Proof. destruct st; cbn; split; try done; set_solver. Qed.
Lemma book_kept_same s s' : book_kept s -> same_book s s' -> book_kept s'.
Proof. intros [H1 H2 H3] (E1 & E2 & _). split; rewrite ?E1, ?E2; done. Qed.
Lemma handlePayoutWebhook_moves env j sig ev s r s' : book_kept s -> answer = Some ev ->
  handlePayoutWebhook env j sig ev s = (r, s') -> moves s s'.
Proof.
  intros Hs Ht. unfold handlePayoutWebhook. step.
  destruct sig; [|intros [= <- <-]; apply moves_refl].
  destruct (pv_hasEntity ev); cbn [negb]; step; [|intros [= <- <-]; apply moves_refl].
  case_bool_decide; [intros [= <- <-]; apply moves_refl|]. step.
  destruct (List.find _ _) as [[id p]|] eqn:Ef; [|intros [= <- <-]; by apply moves_same].
  apply List.find_some in Ef as [Hp%list_elem_of_In Hmatch]. apply elem_of_map_to_list in Hp. cbn in Hmatch.
  set (s1 := add_event _ s).
  assert (same_book s s1) as Hb by done. pose proof (book_kept_same _ _ Hs Hb) as Hs1.
  case_bool_decide as Hev.
  { destruct (decide _) as [|Hne]; [intros [= <- <-]; by apply moves_same|]. rewrite bind_run.
    destruct (markPaid env j id p (truthy (pv_transferId ev)) _ s1) as [r1 s2] eqn:E.
    apply markPaid_moves in E; [|done|exact Hp|].
    2: { destruct (phase_of (po_status p)) as [_ Hx].
         destruct (phase (po_status p)); [by left|by destruct Hne; apply Hx|right; split; [done|by exists ev]]. }
    eapply moves_before in E; [|exact Hb].
    destruct r1; [|by intros [= <- <-]]. rewrite bind_run. cbn. intros [= <- <-]. by eapply moves_after. }
  destruct (String.eqb _ _).
  { rewrite bind_run. destruct (reversePayout env j id _ _ s1) as [r1 s2] eqn:E.
    apply reversePayout_moves in E; [|done]. eapply moves_before in E; [|exact Hb].
    destruct r1; intros [= <- <-]; done. }
  case_bool_decide as Hev'; [|intros [= <- <-]; by apply moves_same].
  case_bool_decide as Hvoid; [intros [= <- <-]; by apply moves_same|]. rewrite bind_run.
  destruct (updatePayout id _ s1) as [r1 s2] eqn:E.
  apply updatePayout_run in E as [[-> Hr]|(q & Hq & -> & ->)].
  { destruct r1; [done|]. intros [= <- <-]. by apply moves_same. }
  rewrite bind_run. cbn. intros [= <- <-]. cbn in Hq. simplify_eq.
  eapply moves_before; [exact Hb|]. match goal with |- moves _ (add_payout_audit _ ?x) => apply (moves_after _ x); [|done] end. split; [|done].
  destruct (phase (po_status p)) eqn:Ep; [left|right|by apply void_phase in Ep].
  - apply (moved_released _ _ _ _ id p); [done|by apply (set_payout_moves id p _ Void s1)].
  - apply (late_failed _ _ _ id p); [done|by exists ev|by apply (set_payout_moves id p _ Void s1)].
Qed.

Lemma rupees_pos p : money p -> 0 < rupees p -> (0 < p)%Z.
Proof.
  intros Hm H. pose proof (near_rupees p Hm) as E. unfold near in E. apply Qabs_Qle_condition in E as [_ E].
  destruct (Z.le_gt_cases p 0) as [Hle|]; [|done]. exfalso. destruct (decide (p = 0%Z)) as [->|Hne]; [by rewrite rupees_0 in H|].
  assert (inject_Z p <= -1) by (change (-1)%Q with (inject_Z (-1)); rewrite <- Zle_Qle; lia).
  assert (inject_Z p / 100 == inject_Z p * (1 # 100)) as Ed by field. rewrite Ed in E. lra.
Qed.
(** A request of whole paise opens a payout the funds cover, or does nothing. *)
Lemma requestPayout_moves env id v paise key u s r s' : pe_now env = now -> money paise -> plain id ->
  requestPayout env cfg id v (rupees paise) key u s = (r, s') -> moves s s'.
Proof.
  intros Hnow Hm Hpl. unfold requestPayout. step.
  destruct (d_gt (rupees paise) 0) eqn:Hgt; [|intros [= <- <-]; apply moves_refl]. step.
  destruct (_ ≫= _); [intros [= <- <-]; apply moves_refl|]. step.
  destruct (withinLimits _ _); [|intros [= <- <-]; apply moves_refl].
  unfold transaction. step. case_bool_decide; [|intros [= <- <-]; apply moves_refl]. step.
  destruct (withinDailyCap _ _ _ _ _); [|intros [= <- <-]; apply moves_refl]. step.
  destruct (d_gt (of_number _) _) eqn:Ha; [intros [= <- <-]; apply moves_refl|]. cbn [negb].
  unfold createPayoutRow. step.
  destruct (negb _) eqn:Hclash; [|intros [= <- <-]; apply moves_refl]. step.
  destruct (d_lt _ _); [|intros [= <- <-]; apply moves_refl].
  set (p := {| po_payoutNumber := _ |}). intros Hrun.
  assert (same_book (set_payouts (<[id := p]> (py_payouts s)) s) s') as Hb.
  { revert Hrun. cbn. destruct (truthy u); cbn; intros [= <- <-]; done. }
  eapply moves_after; [|exact Hb]. split; [left|done].
  apply negb_true_iff, orb_false_iff in Hclash as [[Hfresh%bool_decide_eq_false _]%orb_false_iff _].
  assert (po_amount p == inject_Z paise / 100) as Hamt.
  { cbn. rewrite store_exact; [by apply of_number_paise|]. exists paise. by apply of_number_paise. }
  eapply moved_open with id p; try done; [by apply eq_None_not_Some| |].
  - split; [exists paise; exact Hamt|]. rewrite Hamt. apply d_gt_true, rupees_pos in Hgt; [|done].
    assert (inject_Z paise / 100 == inject_Z paise * (1 # 100)) as -> by field.
    assert (0 < inject_Z paise) by (change 0 with (inject_Z 0); by rewrite <- Zlt_Qlt). lra.
  - dec_bool. rewrite Hamt. rewrite of_number_paise in Ha by done. unfold availableFor in Ha. unfold owed, fundsFor. cbn.
    rewrite Hnow in Ha. lra.
Qed.
End operations.

(** ** What a move does to the sums *)
Definition takes (v : string) (p : Payout) : Q :=
  if String.eqb (po_vendorId p) v then match phase (po_status p) with Void => 0 | _ => po_amount p end else 0.
Lemma counted_takes v p : counted v [PO_PAID] p + counted v reservedStatuses p == takes v p.
Proof. unfold counted, takes. destruct (String.eqb _ v); [|reflexivity]. unfold reservedStatuses.
  destruct (po_status p); repeat case_bool_decide; cbn [andb phase]; first [ring|exfalso; set_solver]. Qed.
Lemma owed_update v id p p' s s' : py_payouts s !! id = Some p -> py_payouts s' = <[id := p']> (py_payouts s) ->
  owed v s' == owed v s - takes v p + takes v p'.
Proof.
  intros H H'. unfold owed. rewrite !(sumPayouts_update _ _ _ _ _ _ _ H H'), <- !counted_takes. ring.
Qed.
Lemma owed_new v id p s s' : py_payouts s !! id = None -> py_payouts s' = <[id := p]> (py_payouts s) ->
  owed v s' == owed v s + takes v p.
Proof. intros H H'. unfold owed. rewrite !(sumPayouts_new _ _ _ _ _ _ H H'), <- !counted_takes. ring. Qed.
Lemma same_funds_eq now cfg v s s' : same_funds s s' -> fundsFor now cfg v s' = fundsFor now cfg v s.
Proof. intros [E1 E2]. unfold fundsFor, totalSettledEarned, netAdjustments, sumAdjustments. by rewrite E1, E2. Qed.

Definition covered (now : Z) (cfg : option PayoutConfig) (s : PayoutStore) : Prop :=
  forall v, owed v s <= d_max 0 (fundsFor now cfg v s).
Lemma payout_moves_owed v id p ph rows s s' : book_kept s -> payout_moves id p ph rows s s' ->
  (phase (po_status p) = Void -> ph = Void) -> owed v s' <= owed v s.
Proof.
  intros Hs (p' & Hp & (Hv & Ha) & Hph & E & _) HV. rewrite (owed_update _ _ _ _ _ _ Hp E).
  destruct (bk_payout s Hs _ _ Hp) as [_ [_ Hpos]]. unfold takes. rewrite Hv, Ha, Hph.
  destruct (String.eqb _ v); [|lra]. destruct (phase (po_status p)) eqn:E1, ph; try lra; by specialize (HV eq_refl).
Qed.
(** A move of the book takes no more than the funds cover. *)
Lemma moved_covered now cfg v s s' : book_kept s -> book_moved now cfg s s' -> owed v s' <= d_max (owed v s) (fundsFor now cfg v s).
Proof.
  intros Hs Hm. assert (owed v s' <= owed v s -> owed v s' <= d_max (owed v s) (fundsFor now cfg v s)) as Hle'.
  { destruct (d_max_spec (owed v s) (fundsFor now cfg v s)) as [[? ->]|[? ->]]; lra. }
  destruct Hm as [E EL|id p Hn Hpl Hok Hst Hle E EL|id p Hm|id p rows Hp Hr Hm|id p Hp Hm|id p rows Hp Hr Hu Hm].
  - apply Hle'. unfold owed. rewrite !(sumPayouts_same _ _ _ _ E). lra.
  - rewrite (owed_new _ _ _ _ _ Hn E) in *. unfold takes in *. rewrite Hst in *. cbn [phase] in *.
    destruct (String.eqb_spec (po_vendorId p) v) as [<-|]; [|apply Hle'; lra].
    destruct (d_max_spec (owed (po_vendorId p) s) (fundsFor now cfg (po_vendorId p) s)) as [[? ->]|[? ->]]; lra.
  - apply Hle'. eapply payout_moves_owed; [done..|]. done.
  - apply Hle'. eapply payout_moves_owed; [done..|]. by rewrite Hp.
  - apply Hle'. eapply payout_moves_owed; [done..|]. done.
  - apply Hle'. eapply payout_moves_owed; [done..|]. done.
Qed.
(** What the bank settled of a vendor's payouts that had been given up. *)
Definition revived (v : string) (s : PayoutStore) (x : string * Payout) : Q :=
  if String.eqb (po_vendorId x.2) v && bool_decide (phase (po_status x.2) = Settled) &&
     match py_payouts s !! x.1 with Some p => bool_decide (phase (po_status p) = Void) | None => false end
  then po_amount x.2 else 0.
Definition lateSettled (v : string) (s s' : PayoutStore) : Q := sum_by (revived v s) (map_to_list (py_payouts s')).
Lemma lateSettled_least v s s' l : book_kept s' -> (forall x, x ∈ l -> py_payouts s' !! x.1 = Some x.2) -> 0 <= sum_by (revived v s) l.
Proof.
  intros Hs. induction l as [|x l IH]; intros H; cbn [sum_by]; [lra|].
  specialize (IH ltac:(intros y Hy; apply H; by right)). destruct (bk_payout _ Hs _ _ (H x ltac:(by left))) as [_ [_ Hpos]].
  unfold revived at 1. destruct (_ && _); lra.
Qed.
Lemma lateSettled_nonneg v s s' : book_kept s' -> 0 <= lateSettled v s s'.
Proof. intros Hs. eapply lateSettled_least; [done|]. intros [i q] Hx. by apply elem_of_map_to_list in Hx. Qed.
Lemma late_owed answer v s s' : book_kept s -> late_moved answer s s' -> owed v s' <= owed v s + lateSettled v s s'.
Proof.
  intros Hs Hm. pose proof (late_kept _ _ _ Hs Hm) as Hs'. pose proof (lateSettled_nonneg v s s' Hs') as H0.
  destruct Hm as [id p rows Hp _ _ (p' & Hid & (Hv & Ha) & Hph & E & _)|id p Hp _ Hm|id p Hp _ Hm].
  2,3: (assert (owed v s' <= owed v s); [eapply payout_moves_owed; done|lra]).
  rewrite (owed_update _ _ _ _ _ _ Hid E). unfold takes. rewrite Hp, Hph, Hv, Ha.
  destruct (String.eqb (po_vendorId p) v) eqn:Ev; [|lra].
  assert (po_amount p <= lateSettled v s s') as Hle; [|lra].
  unfold lateSettled. rewrite E. rewrite <- insert_delete_eq. rewrite (sum_by_perm _ _ _ (map_to_list_insert _ _ _ (lookup_delete_eq _ _))).
  cbn [sum_by]. unfold revived at 1. cbn [fst snd]. rewrite Hv, Ev, Hph, Hid, Hp, Ha. cbn [andb bool_decide].
  assert (0 <= sum_by (revived v s) (map_to_list (delete id (py_payouts s)))) as Hrest; [|rewrite !bool_decide_eq_refl; cbn [andb]; lra].
  eapply lateSettled_least; [exact Hs'|]. intros [i q] Hx. apply elem_of_map_to_list in Hx. apply lookup_delete_Some in Hx as [Hne Hx].
  cbn. rewrite E. by rewrite lookup_insert_ne.
Qed.
