(* ===== verification/PayoutSafety.v ===== *)
(** * Payouts over time

    Sequences of payout operations, with everything else the platform does in
    between, and what holds in every state they reach. *)
From S2P Require Import Prelude JsNumber Decimal Schema Ledger Wallet BookingStore Payouts PayoutBook.
From stdpp Require Import pretty.
Open Scope Z_scope.
Open Scope Q_scope.

(** ** Operations and steps *)
Inductive PayoutOp : Type :=
  | OpRequest (freshId vendorId : string) (paise : Z) (idempotencyKey initiatedBy : option string)
  | OpApprove (id adminUserId : string)
  | OpReject (id adminUserId reason : string)
  | OpExecute (freshJournal id adminUserId : string) (transferId : option string) (fee : option Q)
      (gateway : option PayoutTransferResponse)
  | OpMarkPaid (freshJournal id : string) (note : option string)
  | OpReverse (freshJournal id adminUserId : string) (reason : option string)
  | OpWebhook (freshJournal : string) (signatureValid : bool) (ev : PayoutEvent).

Section system.
Context {col : NumericColumn} {dec : DecimalArith} {num : DecimalNumbers}.
Definition void {A} (m : M PayoutStore A) (s : PayoutStore) : PayoutStore := snd (m s).
Definition runOp (env : PayoutEnv) (cfg : option PayoutConfig) (op : PayoutOp) : PayoutStore -> PayoutStore :=
  match op with
  | OpRequest id v paise key u => void (requestPayout env cfg id v (rupees paise) key u)
  | OpApprove id u => void (approvePayout id u)
  | OpReject id u reason => void (rejectPayout id u reason)
  | OpExecute j id u t fee g => void (executePayout env j id u t fee g)
  | OpMarkPaid j id note => void (markPayoutPaid env j id note)
  | OpReverse j id u reason => void (reversePayout env j id u reason)
  | OpWebhook j sig ev => void (handlePayoutWebhook env j sig ev)
  end.
(** Requests are of whole paise and ids as the database makes them; nothing
    is asked of the bank. *)
Definition expected (op : PayoutOp) : Prop :=
  match op with OpRequest id _ paise _ _ => plain id /\ money paise | _ => True end.
Definition answer (op : PayoutOp) : option PayoutEvent := match op with OpWebhook _ _ ev => Some ev | _ => None end.
Lemma runOp_moves env cfg op s : book_kept s -> expected op -> moves (pe_now env) cfg (answer op) s (runOp env cfg op s).
Proof.
  intros Hs He. destruct op; cbn [runOp expected] in *; unfold void.
  - destruct He. eapply requestPayout_moves; [done..|apply surjective_pairing].
  - eapply approvePayout_moves, surjective_pairing.
  - eapply rejectPayout_moves, surjective_pairing.
  - eapply executePayout_moves; [done|apply surjective_pairing].
  - eapply executePayout_moves; [done|apply surjective_pairing].
  - eapply reversePayout_moves; [done|apply surjective_pairing].
  - eapply handlePayoutWebhook_moves; [done..|apply surjective_pairing].
Qed.
Lemma runOp_kept env cfg op s : book_kept s -> expected op -> book_kept (runOp env cfg op s).
Proof.
  intros Hs He. destruct (runOp_moves env cfg op s Hs He) as [[Hm|Hm] _]; [by eapply moved_kept|by eapply late_kept].
Qed.

(** No payouts yet, and no journal of one. *)
Definition unstarted (s : PayoutStore) : Prop := py_payouts s = ∅ /\ Forall foreign_row (py_ledger s).
(** The life of a platform, seen by one vendor: operations, each with its own
    clock and configuration, and everything else the platform does in between,
    which touches no payout and posts other journals.  [peak] is the most the
    vendor's settled earnings and adjustments came to at an operation, [late]
    what the bank settled of the vendor's payouts after they were given up. *)
Inductive payout_history (v : string) : Q -> Q -> PayoutStore -> Prop :=
  | history_start s : unstarted s -> payout_history v 0 0 s
  | history_op peak late s env cfg op : payout_history v peak late s -> expected op ->
      payout_history v (d_max peak (fundsFor (pe_now env) cfg v s)) (late + lateSettled v s (runOp env cfg op s)) (runOp env cfg op s)
  | history_world peak late s s' rows : payout_history v peak late s -> py_payouts s' = py_payouts s ->
      py_ledger s' = py_ledger s ++ rows -> Forall foreign_row rows -> payout_history v peak late s'.

Lemma no_payouts v sts s : py_payouts s = ∅ -> sumPayouts v sts s = 0.
Proof. intros E. unfold sumPayouts, payouts_of. by rewrite E, map_to_list_empty. Qed.
Lemma unstarted_kept s : unstarted s -> book_kept s.
Proof.
  intros [E Hf]. split; rewrite E; [intros id p; by rewrite lookup_empty| |intros id p; by rewrite lookup_empty].
  intros id _ _. rewrite <- (app_nil_l (py_ledger s)). apply fresh_apart; [by apply foreign_apart|].
  split; intros j e _ He; by apply elem_of_nil in He.
Qed.
Lemma world_kept s s' rows : book_kept s -> py_payouts s' = py_payouts s -> py_ledger s' = py_ledger s ++ rows ->
  Forall foreign_row rows -> book_kept s'.
Proof.
  intros [H1 H2 H3] E EL Hf. split; rewrite ?E, ?EL; [done|intros; apply fresh_apart|intros; apply posted_apart];
    try (by apply foreign_apart); eauto.
Qed.
Lemma history_kept v peak late s : payout_history v peak late s -> book_kept s.
Proof. induction 1; [by apply unstarted_kept|by apply runOp_kept|by eapply world_kept]. Qed.
Lemma history_late v peak late s : payout_history v peak late s -> 0 <= late.
Proof.
  induction 1 as [|peak late s env cfg op Hh IH He|]; [lra| |done].
  pose proof (lateSettled_nonneg v s _ (runOp_kept env cfg op s (history_kept _ _ _ _ Hh) He)). lra.
Qed.
Lemma history_covered v peak late s : payout_history v peak late s -> owed v s <= peak + late.
Proof.
  induction 1 as [s [E _]|peak late s env cfg op Hh IH He|peak late s s' rows Hh IH E EL Hf].
  - unfold owed. rewrite !no_payouts by done. lra.
  - pose proof (history_kept _ _ _ _ Hh) as Hs. pose proof (runOp_kept env cfg op s Hs He) as Hs'.
    pose proof (lateSettled_nonneg v s _ Hs') as Hl. set (f := fundsFor (pe_now env) cfg v s).
    assert (peak <= d_max peak f /\ f <= d_max peak f) as [Hp Hf] by (destruct (d_max_spec peak f) as [[? ->]|[? ->]]; lra).
    pose proof (history_late _ _ _ _ Hh).
    destruct (runOp_moves env cfg op s Hs He) as [[Hm|Hm] _].
    + apply (moved_covered _ _ v) in Hm; [|done]. fold f in Hm. destruct (d_max_spec (owed v s) f) as [[? E]|[? E]]; rewrite E in Hm; lra.
    + apply (late_owed _ v) in Hm; [|done]. lra.
  - unfold owed. rewrite !(sumPayouts_same _ _ _ _ E). exact IH.
Qed.

(** ** What follows for the platform *)

(** C21. The payout handlers implement the book of payouts.  Whatever request (of whole paise), approval, rejection, execution, manual settlement, reversal or webhook runs, whether it returns or throws and whatever the bank reports, on a well-formed store the change is one move of the abstract book: nothing; a new pending payout that the vendor's settled earnings and adjustments cover on top of what is paid and reserved; a status change within a phase; a reserved payout settled together with exactly its two ledger rows; a reserved payout given up without rows; a settled payout returned with exactly the two opposite rows; or one of the three late moves: a webhook that reports a settlement settles a payout that was given up, with its two rows unless they are posted already; a webhook that reports a failure gives up a settled payout without rows; a payout whose reversal is already posted is returned again without rows.  Bookings and adjustments stay as they are and the store stays well-formed, so that the ledger holds of a payout nothing while it is reserved, its execution once and in full when it is settled, and afterwards at most one reversal. *)
Theorem payout_operations_refine_book env cfg op s :
  book_kept s -> expected op ->
  (book_moved (pe_now env) cfg s (runOp env cfg op s) \/ late_moved (answer op) s (runOp env cfg op s)) /\
  same_funds s (runOp env cfg op s) /\ book_kept (runOp env cfg op s).
Proof. intros Hs He. destruct (runOp_moves env cfg op s Hs He) as [Hm Hf]. split_and!; [done..|by apply runOp_kept]. Qed.

(** C20. What vendors are promised is bounded by what they earned and by what the bank settled late.  From a platform without payouts, through any sequence of payout operations, one after another (requests of whole paise), whatever the bank answers and reports, and anything else the platform does in between, what a vendor was paid plus what is pending, approved or processing never exceeds the most the vendor's settled earnings and adjustments came to at one of the operations (zero if they never were positive) plus the amounts of the vendor's payouts that a bank report settled after they had failed or been rejected or reversed.  (An answer written over a webhook that came meanwhile: [stale_answer_overwrites_paid].) *)
Theorem payouts_never_overdraw v peak late s :
  payout_history v peak late s -> sumPayouts v [PO_PAID] s + sumPayouts v reservedStatuses s <= peak + late.
Proof. apply history_covered. Qed.

(** Payouts and ledger agree.  In every state reached as above, a payout that is pending, approved or processing has no row in the ledger, one that is PAID has exactly the two rows of its execution, in full, and any payout has at most one execution and one reversal, the reversal only after the execution. *)
Theorem payout_posted_once v peak late s id p :
  payout_history v peak late s -> py_payouts s !! id = Some p ->
  let execution := journal_rows (exec_key id) (py_ledger s) in
  let reversal := journal_rows (rev_key id) (py_ledger s) in
  match phase (po_status p) with
  | Reserved => execution = [] /\ reversal = []
  | Settled => exec_rows id (po_vendorId p) (po_amount p) execution
  | Void => execution = [] \/ exec_rows id (po_vendorId p) (po_amount p) execution
  end /\ (reversal = [] \/ rev_rows id (po_vendorId p) (po_amount p) reversal /\ exec_rows id (po_vendorId p) (po_amount p) execution).
Proof.
  intros Hh%history_kept Hp. pose proof (bk_posted _ Hh _ _ Hp) as H. unfold posted_once, fresh_id, executed, takenBack in H.
  assert (forall k, k <> "" -> unused k (py_ledger s) -> journal_rows k (py_ledger s) = []) as Hu by (intros; by apply unused_rows).
  cbv zeta. destruct (phase _); naive_solver.
Qed.
End system.

(** ** Answers of a request *)
Section answers.
Context {col : NumericColumn} {dec : DecimalArith} {num : DecimalNumbers}.

Lemma availableFor_owed now cfg v s : availableFor now cfg v s == fundsFor now cfg v s - owed v s.
Proof. unfold availableFor, fundsFor, owed. ring. Qed.

(** What a call of [requestPayout] that writes has checked and written. *)
Lemma requestPayout_new env cfg id v amount key u s p s' : requestPayout env cfg id v amount key u s = (Ok p, s') ->
  (s' = s /\ exists k, truthy key = Some k /\ p ∈ payouts_of s /\ po_idempotencyKey p = Some k) \/
  (py_payouts s !! id = None /\ v ∈ py_vendors s /\ py_payouts s' = <[id := p]> (py_payouts s) /\ same_funds s s' /\
   py_ledger s' = py_ledger s /\ po_status p = PO_PENDING /\ po_vendorId p = v /\ po_amount p = store (of_number amount) /\
   of_number amount <= availableFor (pe_now env) cfg v s).
Proof.
  unfold requestPayout. step. destruct (d_gt amount 0); [|done]. step.
  destruct (_ ≫= _) as [x|] eqn:Ek.
  { intros [= <- <-]. left. split; [done|]. destruct (truthy key) as [k|]; [|done]. cbn in Ek.
    apply List.find_some in Ek as [Hx%list_elem_of_In Hk]. apply bool_decide_eq_true in Hk. by exists k. }
  step. destruct (withinLimits _ _); [|done]. unfold transaction. step. case_bool_decide as Hv; [|done]. step.
  destruct (withinDailyCap _ _ _ _ _); [|done]. step. destruct (d_gt (of_number _) _) eqn:Ha; [done|]. cbn [negb].
  unfold createPayoutRow. step. destruct (negb _) eqn:Hclash; [|done]. step. destruct (d_lt _ _); [|done].
  set (q := {| po_payoutNumber := _ |}). intros Hrun. right.
  apply negb_true_iff, orb_false_iff in Hclash as [[Hfresh%bool_decide_eq_false _]%orb_false_iff _].
  dec_bool. revert Hrun. cbn. destruct (truthy u); cbn; intros [= <- <-]; split_and!; try done; by apply eq_None_not_Some.
Qed.
Lemma requestPayout_refused env cfg id v amount key u s e s' :
  requestPayout env cfg id v amount key u s = (Throw e, s') -> s' = s.
Proof.
  unfold requestPayout. step. destruct (d_gt amount 0); [|by intros [= _ <-]]. step.
  destruct (_ ≫= _); [done|]. step. destruct (withinLimits _ _); [|by intros [= _ <-]].
  intros [-> _]%transaction_Throw. done.
Qed.

(** What a payout request does, success and refusal alike.  A request that is refused leaves every table as it was.  One that returns either found the payout its idempotency key already made and changed nothing, or made a new PENDING payout of exactly the requested paise for a known vendor: the amount was available, the available balance falls by exactly that amount and does not go below zero.  A request above the available balance is therefore never granted. *)
Theorem request_payout_outcome env cfg id v paise key u s r s' :
  money paise -> requestPayout env cfg id v (rupees paise) key u s = (r, s') ->
  match r with
  | Throw _ => s' = s
  | Ok p =>
    (s' = s /\ exists k, truthy key = Some k /\ p ∈ payouts_of s /\ po_idempotencyKey p = Some k) \/
    (py_payouts s !! id = None /\ v ∈ py_vendors s /\ py_payouts s' = <[id := p]> (py_payouts s) /\
     po_status p = PO_PENDING /\ po_vendorId p = v /\ po_amount p == inject_Z paise / 100 /\
     availableFor (pe_now env) cfg v s' == availableFor (pe_now env) cfg v s - inject_Z paise / 100 /\
     0 <= availableFor (pe_now env) cfg v s')
  end.
Proof.
  intros Hm H. destruct r as [p|e]; [|by eapply requestPayout_refused].
  apply requestPayout_new in H as [?|(Hn & Hv & E & Hf & _ & Hst & Hpv & Ham & Hle)]; [by left|right].
  assert (po_amount p == inject_Z paise / 100) as Hamt.
  { rewrite Ham, store_exact; [by apply of_number_paise|]. exists paise. by apply of_number_paise. }
  assert (availableFor (pe_now env) cfg v s' == availableFor (pe_now env) cfg v s - inject_Z paise / 100) as Hav.
  { rewrite !availableFor_owed, (same_funds_eq _ _ _ _ _ Hf), (owed_new _ _ _ _ _ Hn E). unfold takes.
    rewrite Hst, Hpv, String.eqb_refl. cbn [phase]. rewrite Hamt. ring. }
  split_and!; try done. rewrite Hav. rewrite of_number_paise in Hle by done. lra.
Qed.

(** ** The summary and the request *)
Lemma sum_by_split {A} (f : A -> Q) (b c : A -> bool) l :
  sum_by f (List.filter (fun x => b x) l) == sum_by f (List.filter (fun x => b x && c x) l) + sum_by f (List.filter (fun x => b x && negb (c x)) l).
Proof. induction l as [|x l IH]; cbn [List.filter sum_by]; [ring|]. destruct (b x), (c x); cbn [andb negb sum_by]; rewrite ?IH; try ring; exact IH. Qed.
Lemma filter_filter {A} (b c : A -> bool) l : List.filter c (List.filter b l) = List.filter (fun x => b x && c x) l.
Proof. induction l as [|x l IH]; [done|]. cbn. destruct (b x); cbn; [destruct (c x)|]; by rewrite IH. Qed.
Lemma filter_ext_on {A} (b c : A -> bool) l : (forall x, x ∈ l -> b x = c x) -> List.filter b l = List.filter c l.
Proof. intros H. apply List.filter_ext_in. intros x Hx. apply H. by apply list_elem_of_In. Qed.

(** The dashboard and the payout desk agree.  With a settlement hold of at least a day, no claim still SUBMITTED on the vendor's bookings and no adjustment that names the vendor under another target type, the available balance [getVendorEarningsSummary] reports is, as a number, the balance [requestPayout] compares the amount with, floored at zero. *)
Theorem summary_matches_request env cfg v s r s' :
  (0 < holdDaysOf cfg)%Z ->
  (forall b, b ∈ py_bookings s -> eb_vendorId b = v -> DC_SUBMITTED ∉ eb_damageClaims b) ->
  (forall a, a ∈ py_adjustments s -> fa_targetId a = v -> fa_targetType a = "VENDOR") ->
  getVendorEarningsSummary env cfg v s = (Ok r, s') ->
  s' = s /\ es_availableBalance r = js_max 0 (rnd (availableFor (pe_now env) cfg v s)).
Proof.
  intros Hh Hclaims Hadj. unfold getVendorEarningsSummary. step.
  case_bool_decide; [|done]. step. intros [= <- <-]. split; [done|]. cbn [es_availableBalance]. f_equal. apply rnd_eq.
  unfold availableFor, totalSettledEarned. rewrite (proj2 (Z.ltb_lt _ _) Hh).
  set (cutoff := (pe_now env - holdDaysOf cfg * 86400000)%Z).
  assert (forall b, b ∈ py_bookings s -> completedPaid v b && cleanOf ["SUBMITTED"; "UNDER_REVIEW"] b =
                                         completedPaid v b && cleanOf ["OPEN"; "UNDER_REVIEW"] b) as Hclean.
  { intros b Hb. unfold completedPaid. destruct (String.eqb_spec (eb_vendorId b) v) as [Ev|]; [|done]. cbn [andb].
    destruct (bool_decide _ && bool_decide _); [|done]. cbn [andb]. unfold cleanOf. f_equal. f_equal.
    specialize (Hclaims b Hb Ev). revert Hclaims. induction (eb_damageClaims b) as [|d l IH]; [done|].
    intros Hd. cbn [existsb]. rewrite IH by set_solver. f_equal.
    destruct d; try (apply bool_decide_ext; cbn; set_solver). }
  rewrite filter_filter.
  rewrite (sum_by_split eb_netToVendor (fun b => completedPaid v b && cleanOf ["SUBMITTED"; "UNDER_REVIEW"] b)
    (fun b => eb_updatedAt b <=? cutoff)%Z).
  assert (forall f g, (forall b, b ∈ py_bookings s -> f b = g b) ->
    sum_by eb_netToVendor (List.filter f (py_bookings s)) == sum_by eb_netToVendor (List.filter g (py_bookings s))) as Hext.
  { intros f g Hfg. by rewrite (filter_ext_on f g). }
  rewrite (Hext (fun b => completedPaid v b && (cleanOf ["SUBMITTED"; "UNDER_REVIEW"] b && (cutoff <? eb_updatedAt b)%Z))
    (fun b => completedPaid v b && cleanOf ["SUBMITTED"; "UNDER_REVIEW"] b && negb (eb_updatedAt b <=? cutoff)%Z)).
  2: { intros b _. rewrite andb_assoc. f_equal. by rewrite Z.leb_antisym, negb_involutive. }
  rewrite (Hext (fun b => completedPaid v b && cleanOf ["SUBMITTED"; "UNDER_REVIEW"] b && (eb_updatedAt b <=? cutoff)%Z)
    (fun b => completedPaid v b && cleanOf ["OPEN"; "UNDER_REVIEW"] b && (eb_updatedAt b <=? cutoff)%Z)).
  2: { intros b Hb. by rewrite Hclean. }
  assert (forall d, sumAdjustments (fun a => String.eqb (fa_targetType a) "VENDOR" && String.eqb (fa_targetId a) v) d s =
                    sumAdjustments (fun a => String.eqb (fa_targetId a) v) d s) as Hsum.
  { intros d. unfold sumAdjustments. f_equal. apply filter_ext_on. intros a Ha.
    destruct (String.eqb_spec (fa_targetId a) v) as [Et|]; [|by rewrite andb_false_r]. by rewrite (Hadj a Ha Et). }
  unfold netAdjustments. rewrite !Hsum. ring.
Qed.

(** The bank is asked for exactly the paise that were requested. *)
Lemma bank_gets_exact_paise env cfg id v paise key u s p s' :
  money paise -> py_payouts s !! id = None -> requestPayout env cfg id v (rupees paise) key u s = (Ok p, s') ->
  py_payouts s' !! id = Some p -> amountInPaise (rnd (po_amount p)) = paise.
Proof.
  intros Hm Hn H Hp. apply requestPayout_new in H as [[-> _]|(_ & _ & _ & _ & _ & _ & _ & Ham & _)]; [congruence|].
  unfold amountInPaise. assert (po_amount p == inject_Z paise / 100) as E.
  { rewrite Ham, store_exact; [by apply of_number_paise|]. exists paise. by apply of_number_paise. }
  rewrite (rnd_eq _ _ E). by apply rupees_to_paise.
Qed.

(** ** One event, one effect *)
Lemma webhooks_update id f : keeps py_webhooks (updatePayout id f).
Proof.
  intros x s r s' H <-. apply updatePayout_run in H as [[-> _]|(p & _ & _ & ->)]; done.
Qed.
Lemma webhooks_audit u a e : keeps py_webhooks (auditLog u a e).
Proof. intros x s r s' [= <- <-] <-. done. Qed.
Lemma webhooks_journal env j inTx i : keeps py_webhooks (recordPayoutJournal env j inTx i).
Proof. intros x. apply preserves_bind; [by apply preserves_zoom|intros; apply preserves_ret]. Qed.
Lemma webhooks_find id : keeps py_webhooks (findPayout id).
Proof. intros x s r s' H <-. by apply findPayout_run in H as [-> _]. Qed.
Lemma webhooks_markPaid env j id p t f : keeps py_webhooks (markPaid env j id p t f).
Proof.
  intros x. apply preserves_transaction, preserves_bind; [apply webhooks_update|intros q].
  apply preserves_bind; [apply webhooks_journal|intros; apply preserves_ret].
Qed.
Lemma webhooks_reverse env j id u reason : keeps py_webhooks (reversePayout env j id u reason).
Proof.
  intros x. apply preserves_bind; [apply webhooks_find|intros p]. destruct (decide _); [apply preserves_ret|].
  apply preserves_bind; [apply preserves_require|intros []]. apply preserves_bind.
  - apply preserves_transaction, preserves_bind; [apply webhooks_update|intros q].
    apply preserves_bind; [apply preserves_when, webhooks_journal|intros; apply preserves_ret].
  - intros q. apply preserves_bind; [apply webhooks_audit|intros; apply preserves_ret].
Qed.

(** A bank event has its effect once.  Whatever the first delivery of a genuine event did, its redelivery (a RazorpayX retry, with any clock and any journal id) answers that it is a duplicate and changes nothing. *)
Theorem payout_event_applies_once env env' j j' ev s r s' :
  pv_hasEntity ev = true -> handlePayoutWebhook env j true ev s = (r, s') ->
  handlePayoutWebhook env' j' true ev s' = (Ok WA_duplicate, s').
Proof.
  intros He H. assert (pv_eventId ev ∈ py_webhooks s') as Hin.
  - revert H. unfold handlePayoutWebhook. step. rewrite He. cbn [negb]. step.
    case_bool_decide as Hdup; [by intros [= <- <-]|]. step.
    assert (pv_eventId ev ∈ py_webhooks (add_event (pv_eventId ev) s)) as Hadd by (cbn; set_solver).
    revert Hadd. generalize (add_event (pv_eventId ev) s). intros s1 Hadd.
    destruct (List.find _ _) as [[id p]|]; [|by intros [= <- <-]].
    assert (forall A (m : M PayoutStore A) r1 s2, keeps py_webhooks m -> m s1 = (r1, s2) -> pv_eventId ev ∈ py_webhooks s2) as Hk.
    { intros A m r1 s2 Hm E. by rewrite (keeps_eq _ _ _ _ _ Hm E). }
    case_bool_decide.
    { destruct (decide _); [by intros [= <- <-]|]. apply Hk. intros x. apply preserves_bind; [apply webhooks_markPaid|intros q].
      apply preserves_bind; [apply webhooks_audit|intros; apply preserves_ret]. }
    destruct (String.eqb _ _).
    { apply Hk. intros x. apply preserves_bind; [apply webhooks_reverse|intros; apply preserves_ret]. }
    case_bool_decide; [|by intros [= <- <-]]. case_bool_decide; [by intros [= <- <-]|].
    apply Hk. intros x. apply preserves_bind; [apply webhooks_update|intros q].
    apply preserves_bind; [apply webhooks_audit|intros; apply preserves_ret].
  - unfold handlePayoutWebhook. step. rewrite He. cbn [negb]. step. by rewrite bool_decide_true.
Qed.
End answers.

(** ** A vendor's month *)
Definition env0 (now : Z) : PayoutEnv :=
  {| pe_now := now; pe_todayStart := 0; pe_month := "2026-01"; pe_thisMonthStart := 0; pe_lastMonthStart := 0; pe_lastMonthEnd := 0 |}.
Definition trip (net : Q) (claims : list DamageClaimStatus) (updated : Z) : EarningBooking :=
  {| eb_vendorId := "v1"; eb_status := BS_COMPLETED; eb_paymentStatus := Some PS_PAID; eb_disputeFlag := false;
     eb_damageClaims := claims; eb_netToVendor := net; eb_createdAt := 0; eb_updatedAt := updated |}.
Definition start (bookings : list EarningBooking) : PayoutStore :=
  {| py_payouts := ∅; py_adjustments := []; py_bookings := bookings; py_vendors := ["v1"];
     py_wallets := {| ws_wallets := ∅; ws_entries := []; ws_ledger := [] |}; py_webhooks := []; py_audit := [] |}.
Lemma start_unstarted b : unstarted (start b).
Proof. by split. Qed.

Definition run1 (cfg : option PayoutConfig) (s : PayoutStore) (x : Z * PayoutOp) : PayoutStore := runOp (env0 x.1) cfg x.2 s.
Definition runAll (cfg : option PayoutConfig) (ops : list (Z * PayoutOp)) (s : PayoutStore) : PayoutStore :=
  fold_left (run1 cfg) ops s.
(** A run with its peak and its late settlements. *)
Definition expectedb (op : PayoutOp) : bool :=
  match op with
  | OpRequest id _ paise _ _ => all_chars (fun c => negb (Ascii.eqb c underscore_char)) id && (Z.abs paise <=? 10 ^ 13)%Z
  | _ => true
  end.
Lemma expectedb_sound op : expectedb op = true -> expected op.
Proof. destruct op; cbn [expectedb expected]; try done. by intros [H1 H2%Z.leb_le]%andb_true_iff. Qed.
Fixpoint tally (v : string) (ops : list (Z * PayoutOp)) (peak late : Q) (s : PayoutStore) : Q * Q :=
  match ops with
  | [] => (peak, late)
  | x :: ops' => tally v ops' (d_max peak (fundsFor x.1 None v s)) (late + lateSettled v s (run1 None s x)) (run1 None s x)
  end.
Lemma tally_history v ops peak late s : payout_history v peak late s -> forallb (fun x => expectedb x.2) ops = true ->
  payout_history v (tally v ops peak late s).1 (tally v ops peak late s).2 (runAll None ops s).
Proof.
  revert peak late s. induction ops as [|[now op] ops IH]; intros peak late s Hh; [done|].
  cbn [forallb snd]. intros [He%expectedb_sound Hall]%andb_true_iff. apply (IH _ _ (run1 None s (now, op))); [|done].
  exact (history_op v peak late s (env0 now) None op Hh He).
Qed.

Definition status_of (id : string) (s : PayoutStore) : option PayoutStatus := po_status <$> (py_payouts s !! id).
Definition totals (s : PayoutStore) : Q * Q * Q :=
  (Qred (sumPayouts "v1" [PO_PAID] s), Qred (sumPayouts "v1" reservedStatuses s), Qred (getVendorPayableBalance (List.filter isPayoutRow (py_ledger s)) "v1")).
Definition event (id name number : string) : PayoutEvent :=
  {| pv_eventId := id; pv_event := name; pv_hasEntity := true; pv_transferId := None; pv_referenceId := Some number;
     pv_fees := None; pv_failureReason := None |}.
Definition month_ops : list PayoutOp :=
  [OpRequest "po1" "v1" 60000 None (Some "u1"); OpApprove "po1" "a1"; OpExecute "j1" "po1" "a2" None None
     (Some {| tr_status := TS_PROCESSING; tr_providerTransferId := Some "pout_1"; tr_providerFee := None; tr_failureReason := None |});
   OpRequest "po2" "v1" 50000 None None; OpWebhook "j2" true (event "e1" "payout.processed" "PO-2026-01-00001");
   OpRequest "po3" "v1" 40000 None None; OpMarkPaid "j3" "po3" (Some "UTR-1"); OpReverse "j4" "po3" "a1" None].
Definition month : PayoutStore := runAll None (map (pair 5%Z) month_ops) (start [trip 1000 [] 0]).
Lemma month_reached : payout_history "v1" (tally "v1" (map (pair 5%Z) month_ops) 0 0 (start [trip 1000 [] 0])).1
  (tally "v1" (map (pair 5%Z) month_ops) 0 0 (start [trip 1000 [] 0])).2 month.
Proof. apply tally_history; [apply history_start, start_unstarted|reflexivity]. Qed.

(** The bank fails what it settled: a late move. *)
Definition late_failure : PayoutOp := OpWebhook "j9" true (event "e9" "payout.failed" "PO-2026-01-00001").
Lemma payout_operations_refine_book_witness :
  (book_moved 5 None month (runOp (env0 5) None late_failure month) \/
   late_moved (answer late_failure) month (runOp (env0 5) None late_failure month)) /\
  status_of "po1" month = Some PO_PAID /\ status_of "po1" (runOp (env0 5) None late_failure month) = Some PO_FAILED.
Proof.
  split; [|split; vm_compute; reflexivity].
  apply (payout_operations_refine_book (env0 5) None late_failure month); [|exact I].
  exact (history_kept _ _ _ _ month_reached).
Defined.
(** A transfer given up settles after all, when its amount was paid again:
    the bound is met exactly. *)
Definition revival_ops : list (Z * PayoutOp) := map (pair 5%Z)
  [OpRequest "po1" "v1" 100000 None None;
   OpExecute "j1" "po1" "a2" None None
     (Some {| tr_status := TS_FAILED; tr_providerTransferId := Some "pout_1"; tr_providerFee := None; tr_failureReason := None |});
   OpRequest "po2" "v1" 100000 None None; OpMarkPaid "j2" "po2" None;
   OpWebhook "j3" true (event "e1" "payout.processed" "PO-2026-01-00001")].
Definition revival : PayoutStore := runAll None revival_ops (start [trip 1000 [] 0]).
Lemma payouts_never_overdraw_witness :
  let bound := tally "v1" revival_ops 0 0 (start [trip 1000 [] 0]) in
  sumPayouts "v1" [PO_PAID] revival + sumPayouts "v1" reservedStatuses revival <= bound.1 + bound.2 /\
  totals revival = (2000, 0, -2000) /\ (Qred bound.1, Qred bound.2) = (1000, 1000).
Proof.
  intros bound. split; [|split; vm_compute; reflexivity].
  apply (payouts_never_overdraw "v1" bound.1 bound.2 revival).
  apply tally_history; [apply history_start, start_unstarted|reflexivity].
Defined.
Lemma payout_posted_once_witness :
  exec_rows "po1" "v1" (600 # 1) (journal_rows (exec_key "po1") (py_ledger month)) /\
  length (journal_rows (rev_key "po3") (py_ledger month)) = 2%nat.
Proof.
  split; [|vm_compute; reflexivity].
  destruct (py_payouts month !! "po1") as [p|] eqn:Hp; [|exfalso; revert Hp; vm_compute; discriminate].
  destruct (payout_posted_once "v1" _ _ month "po1" p month_reached Hp) as [H _].
  revert Hp H. vm_compute (py_payouts month !! "po1"). intros [= <-] H. exact H.
Defined.

Lemma request_payout_outcome_witness :
  let r := requestPayout (env0 5) None "po9" "v1" (rupees 35000) None None month in
  is_Ok r.1 = true /\ py_payouts month !! "po9" = None /\
  match r.1 with
  | Throw _ => True
  | Ok p => (r.2 = month /\ exists k, truthy None = Some k /\ p ∈ payouts_of month /\ po_idempotencyKey p = Some k) \/
      (py_payouts month !! "po9" = None /\ "v1" ∈ py_vendors month /\ py_payouts r.2 = <["po9" := p]> (py_payouts month) /\
       po_status p = PO_PENDING /\ po_vendorId p = "v1" /\ po_amount p == inject_Z 35000 / 100 /\
       availableFor 5 None "v1" r.2 == availableFor 5 None "v1" month - inject_Z 35000 / 100 /\ 0 <= availableFor 5 None "v1" r.2)
  end.
Proof.
  intros r. split; [vm_compute; reflexivity|]. split; [vm_compute; reflexivity|].
  pose proof (request_payout_outcome (env0 5) None "po9" "v1" 35000 None None month r.1 r.2) as H.
  destruct r.1 as [p|] eqn:E; [|exact I]. apply H; [unfold money; lia|]. rewrite <- E. apply surjective_pairing.
Defined.

Definition holdConfig : option PayoutConfig :=
  Some {| pf_minPayoutAmount := 100; pf_maxSinglePayoutAmount := 500000; pf_dailyVendorPayoutCap := 1000000; pf_settlementHoldDays := 2 |}.
(** 900 settled, 100 still on hold. *)
Definition held_earnings : PayoutStore := start [trip 900 [DC_UNDER_REVIEW] 0; trip 900 [] 0; trip 100 [] 400000000].
Lemma summary_matches_request_witness :
  exists r, fst (getVendorEarningsSummary (env0 400000000) holdConfig "v1" held_earnings) = Ok r /\
    es_availableBalance r = js_max 0 (rnd (availableFor 400000000 holdConfig "v1" held_earnings)) /\ es_availableBalance r == 900.
Proof.
  destruct (getVendorEarningsSummary (env0 400000000) holdConfig "v1" held_earnings) as [[r|e] s'] eqn:E.
  2: { exfalso. revert E. vm_compute. discriminate. }
  exists r. split; [reflexivity|].
  destruct (summary_matches_request (env0 400000000) holdConfig "v1" held_earnings r s') as [_ H].
  - vm_compute. reflexivity.
  - intros b Hb _. repeat (apply elem_of_cons in Hb as [->|Hb]; [cbn; set_solver|]). by apply elem_of_nil in Hb.
  - intros a Ha. by apply elem_of_nil in Ha.
  - exact E.
  - split; [exact H|]. rewrite H. vm_compute. reflexivity.
Defined.
(** The first delivery fails, and is never looked at again. *)
Definition requested : PayoutStore := runAll None (map (pair 5%Z) (take 1 month_ops)) (start [trip 1000 [] 0]).
Definition early_reversal : PayoutEvent := event "e7" "payout.reversed" "PO-2026-01-00001".
Lemma payout_event_applies_once_witness :
  fst (handlePayoutWebhook (env0 5) "j2" true early_reversal requested) = Throw BadRequestException /\
  handlePayoutWebhook (env0 9) "j9" true early_reversal (snd (handlePayoutWebhook (env0 5) "j2" true early_reversal requested)) =
    (Ok WA_duplicate, snd (handlePayoutWebhook (env0 5) "j2" true early_reversal requested)).
Proof.
  split; [vm_compute; reflexivity|].
  apply (payout_event_applies_once (env0 5) (env0 9) "j2" "j9" early_reversal requested
    (fst (handlePayoutWebhook (env0 5) "j2" true early_reversal requested)));
    [reflexivity|apply surjective_pairing].
Defined.

(** ** What the code does where the book would object *)
Definition execute_with (st : TransferStatus) : PayoutOp :=
  OpExecute "j1" "po1" "a2" None None
    (Some {| tr_status := st; tr_providerTransferId := Some "pout_1"; tr_providerFee := None; tr_failureReason := None |}).
Definition after (ops : list PayoutOp) (s : PayoutStore) : PayoutStore := runAll None (map (pair 5%Z) ops) s.
Definition thousand : PayoutStore := start [trip 1000 [] 0].
(** A claim still SUBMITTED holds the money back in the summary, not in the
    request, which looks for a status OPEN that the enum does not have. *)
Lemma submitted_claim_not_held :
  let s := start [trip 1000 [DC_SUBMITTED] 0] in
  (es_availableBalance <$> match fst (getVendorEarningsSummary (env0 400000000) holdConfig "v1" s) with Ok r => Some r | _ => None end) = Some 0 /\
  is_Ok (fst (requestPayout (env0 400000000) holdConfig "po1" "v1" (rupees 100000) None None s)) = true /\
  forall d, damageClaimName d <> "OPEN".
Proof. split_and!; [vm_compute; reflexivity..|by intros []]. Qed.
(** Without a hold the summary takes every earning for held_earnings. *)
Lemma no_hold_shows_nothing :
  (es_availableBalance <$> match fst (getVendorEarningsSummary (env0 5) None "v1" (start [trip 1000 [] 3])) with Ok r => Some r | _ => None end) = Some 0 /\
  availableFor 5 None "v1" (start [trip 1000 [] 3]) == 1000.
Proof. split; vm_compute; reflexivity. Qed.
(** The bank reports a failure after it settled: the money is free again, the
    ledger still owes the vendor less. *)
Lemma failed_after_paid :
  totals (after [OpRequest "po1" "v1" 100000 None None; execute_with TS_PAID; OpWebhook "j2" true (event "e1" "payout.failed" "PO-2026-01-00001")]
            thousand) = (0, 0, -1000).
Proof. vm_compute. reflexivity. Qed.
(** A transfer reported failed (the provider also reports a time-out so) that
    settles after all: the vendor is paid twice. *)
Lemma settled_after_failed :
  totals (after [OpRequest "po1" "v1" 100000 None None; execute_with TS_FAILED; OpRequest "po2" "v1" 100000 None None;
                 OpMarkPaid "j2" "po2" None; OpWebhook "j3" true (event "e1" "payout.processed" "PO-2026-01-00001")] thousand)
    = (2000, 0, -2000) /\
  tr_status (initiateTransfer true (Some "acc") (Some "ifsc") BR_timeout) = TS_FAILED.
Proof. split; vm_compute; reflexivity. Qed.
(** A payout nobody approved is executed, the one above 50 000 too, and by
    the one who asked for it. *)
Lemma unapproved_payout_executed :
  status_of "po1" (after [OpRequest "po1" "v1" 10000000 None (Some "a1");
    OpExecute "j1" "po1" "a1" (Some "UTR-1") None None] (start [trip 100000 [] 0])) = Some PO_PAID.
Proof. vm_compute. reflexivity. Qed.
(** The bank's answer overtaken by its webhook: the row was settled and posted
    before the answer to the call arrives, and is set back to PROCESSING; its
    reversal then leaves the ledger posted. *)
Lemma stale_answer_overwrites_paid :
  let read := after [OpRequest "po1" "v1" 100000 None None] thousand in
  let settled := after [OpWebhook "j2" true (event "e1" "payout.processed" "PO-2026-01-00001")] read in
  match fst (readExecutable "po1" "a1" read) with
  | Ok p =>
    let answered := snd (applyTransfer (env0 5) "j1" "po1" "a1" p
      {| tr_status := TS_PROCESSING; tr_providerTransferId := Some "pout_1"; tr_providerFee := None; tr_failureReason := None |} settled) in
    status_of "po1" settled = Some PO_PAID /\ status_of "po1" answered = Some PO_PROCESSING /\
    totals (after [OpReverse "j3" "po1" "a1" None] answered) = (0, 0, -1000)
  | Throw _ => False
  end.
Proof. vm_compute. repeat split. Qed.
