(* ===== verification/VendorDeposits.v ===== *)
(** * Security deposits of vendors: src/car_rental_backend/src/vendors/onboarding/vendor-security-deposit.service.ts

    Policies, exemptions, gateway orders and their verification, recorded
    payments, hold, release, refund, forfeiture and adjustment, over the
    tables of DepositStore.v.  Amounts are JavaScript numbers that the columns
    round to two places.  Clock, generated ids, the rules of the configuration
    ([None]: absent or unreadable), the gateway's answers and the check of a
    signature are arguments; texts, cache and the listings are left out. *)
From S2P Require Import Prelude JsNumber Decimal Schema BookingStore DepositStore.
From stdpp Require Import pretty.
Open Scope Z_scope.

Record OnboardingRules : Type := {
  or_defaultSecurityDepositAmount : Q;
  or_allowPartialDepositPayment : bool;
  or_minInitialDepositPercentage : Q;
}.
Record DepositEnv : Type := {
  de_now : Z;
  de_freshId : string;
  de_rules : option OnboardingRules;
}.
Record DepositAnswer : Type := {
  da_deposit : option VendorSecurityDeposit;
  da_entry : option VendorDepositLedgerEntry;
  da_replay : bool;
}.

(** A transaction that calls a service which writes through its own client:
    that part survives a rollback. *)
Definition transaction_but {S T A} (part : S -> T) (set_part : T -> S -> S) (m : M S A) : M S A := fun s =>
  match m s with
  | (Ok a, s') => (Ok a, s')
  | (Throw e, s') => (Throw e, set_part (part s') s)
  end.
Definition depositAudit (userId action entityId : string) : M VendorDeposits unit :=
  modify (with_audit {| al_userId := userId; al_action := action; al_entityId := entityId |}).

Section deposits.
Context {col : NumericColumn} {num : DecimalNumbers}.

(** A number written to a column of eight digits and two places. *)
Definition column (x : Q) : M VendorDeposits Q :=
  let q := store (of_number x) in
  require (d_lt (Qabs q) 100000000) OtherError ;;
  mret q.

(** ** Policies *)
Definition newestPolicy (b : VendorDepositPolicy -> bool) (v : VendorDeposits) : option VendorDepositPolicy :=
  best (fun p => inject_Z (vdp_version p)) (List.filter b (vds_policies v)).
Definition nextVersion (v : VendorDeposits) : Z :=
  default 0 (vdp_version <$> newestPolicy (fun _ => true) v) + 1.
Definition policyView (p : VendorDepositPolicy) : VendorDepositPolicy :=
  {| vdp_version := vdp_version p; vdp_isRequired := vdp_isRequired p; vdp_amount := rnd (vdp_amount p);
     vdp_refundPolicy := vdp_refundPolicy p; vdp_paymentProvider := vdp_paymentProvider p; vdp_isActive := vdp_isActive p |}.
Definition getActivePolicy (env : DepositEnv) : M VendorDeposits VendorDepositPolicy :=
  v ← get;
  match newestPolicy vdp_isActive v with
  | Some policy => mret (policyView policy)
  | None =>
    let defaultAmount := match de_rules env with
      | Some r => if nonzero (or_defaultSecurityDepositAmount r) then or_defaultSecurityDepositAmount r else 25000%Q
      | None => 25000%Q end in
    amount ← column defaultAmount;
    let policy := {| vdp_version := nextVersion v; vdp_isRequired := true; vdp_amount := amount;
                     vdp_refundPolicy := "REFUNDABLE"; vdp_paymentProvider := "RAZORPAY"; vdp_isActive := true |} in
    modify (with_policies (vds_policies v ++ [policy])) ;;
    mret (policyView policy)
  end.
Definition deactivate (p : VendorDepositPolicy) : VendorDepositPolicy :=
  {| vdp_version := vdp_version p; vdp_isRequired := vdp_isRequired p; vdp_amount := vdp_amount p;
     vdp_refundPolicy := vdp_refundPolicy p; vdp_paymentProvider := vdp_paymentProvider p; vdp_isActive := false |}.
Definition updatePolicy (isRequired : option bool) (amount : Q) (refundPolicy paymentProvider : option string)
    (adminUserId : string) : M VendorDeposits VendorDepositPolicy :=
  require (negb (js_lt amount 0)) BadRequestException ;;
  transaction (
    v ← get;
    stored ← column amount;
    let policy := {| vdp_version := nextVersion v; vdp_isRequired := default true isRequired; vdp_amount := stored;
                     vdp_refundPolicy := str_or refundPolicy "REFUNDABLE";
                     vdp_paymentProvider := str_or paymentProvider "RAZORPAY"; vdp_isActive := true |} in
    modify (with_policies (map deactivate (vds_policies v) ++ [policy])) ;;
    depositAudit adminUserId "UPDATE_VENDOR_DEPOSIT_POLICY" (pretty (vdp_version policy)) ;;
    mret (policyView policy)).

(** ** The deposit of a vendor *)
Definition findDeposit (vendorId : string) (v : VendorDeposits) : option (string * VendorSecurityDeposit) :=
  List.find (fun x => String.eqb (vsd_vendorId (snd x)) vendorId) (map_to_list (vds_deposits v)).
Definition createDeposit (id : string) (d : VendorSecurityDeposit) : M VendorDeposits unit :=
  v ← get;
  require (bool_decide (vsd_vendorId d ∈ vds_vendors v)) PrismaP2003 ;;
  require (negb (bool_decide (is_Some (vds_deposits v !! id)))) PrismaP2002 ;;
  modify (with_deposits (<[id := d]> (vds_deposits v))).
(** A deposit as the policy asks for it. *)
Definition newDeposit (vendorId provider : string) (version : Z) (required : Q) (isRequired : bool) : VendorSecurityDeposit :=
  {| vsd_vendorId := vendorId; vsd_requiredAmount := required; vsd_paidAmount := 0; vsd_remainingAmount := required;
     vsd_status := if isRequired then VD_REQUIRED else VD_NOT_REQUIRED; vsd_isExempt := false;
     vsd_provider := provider; vsd_policyVersion := version; vsd_providerOrderId := None; vsd_providerPaymentId := None |}.
(** Amounts as numbers. *)
Definition depositView (d : VendorSecurityDeposit) : VendorSecurityDeposit :=
  deposit_set (rnd (vsd_requiredAmount d)) (rnd (vsd_paidAmount d)) (rnd (vsd_remainingAmount d)) (vsd_status d) d.
Definition getDeposit (env : DepositEnv) (vendorId : string) : M VendorDeposits (string * VendorSecurityDeposit) :=
  v ← get;
  match findDeposit vendorId v with
  | Some (id, d) => mret (id, depositView d)
  | None =>
    policy ← getActivePolicy env;
    required ← column (if vdp_isRequired policy then vdp_amount policy else 0%Q);
    let d := newDeposit vendorId (str_or (Some (vdp_paymentProvider policy)) "RAZORPAY") (vdp_version policy) required
               (vdp_isRequired policy) in
    createDeposit (de_freshId env) d ;;
    mret (de_freshId env, depositView d)
  end.
(** [getDepositSummary]: what the eligibility of a vendor asks. *)
Definition isSatisfied (policy : VendorDepositPolicy) (deposit : VendorSecurityDeposit) : bool :=
  vsd_isExempt deposit || negb (vdp_isRequired policy) ||
  bool_decide (vsd_status deposit ∈ [VD_PAID; VD_HELD; VD_NOT_REQUIRED]).
Definition getDepositSummary (env : DepositEnv) (vendorId : string) : M VendorDeposits bool :=
  policy ← getActivePolicy env;
  deposit ← getDeposit env vendorId;
  mret (isSatisfied policy (snd deposit)).

Definition setVendorExemption (env : DepositEnv) (vendorId : string) (isExempt : bool) (adminUserId : string)
    : M VendorDeposits VendorSecurityDeposit :=
  v ← get;
  require (bool_decide (vendorId ∈ vds_vendors v)) NotFoundException ;;
  '(id, deposit) ← getDeposit env vendorId;
  transaction (
    let full := js_le (vsd_requiredAmount deposit) (vsd_paidAmount deposit) in
    let newStatus := if isExempt then VD_NOT_REQUIRED else if full then VD_PAID else VD_REQUIRED in
    updated ← updateDeposit id (fun d => deposit_exempt isExempt
      (deposit_set (vsd_requiredAmount d) (vsd_paidAmount d) (vsd_remainingAmount d) newStatus d));
    upsertRequirement vendorId (if isExempt then RF_WAIVED else if full then RF_APPROVED else RF_PENDING) ;;
    depositAudit adminUserId "SET_VENDOR_DEPOSIT_EXEMPTION" id ;;
    mret (depositView updated)).

(** ** Payment at the gateway *)
Record VendorDepositOrder : Type := { do_orderId : string; do_amount : Z; do_amountInINR : Q }.
(** [order]: the id of the order, [None] when the gateway refuses. *)
Definition createDepositPaymentOrder (env : DepositEnv) (vendorId : string) (order : option string)
    : M VendorDeposits VendorDepositOrder :=
  policy ← getActivePolicy env;
  '(id, deposit) ← getDeposit env vendorId;
  require (negb (vsd_isExempt deposit) && vdp_isRequired policy) BadRequestException ;;
  require (negb (bool_decide (vsd_status deposit = VD_PAID) || js_le (vsd_remainingAmount deposit) 0)) BadRequestException ;;
  let remaining := vsd_remainingAmount deposit in
  let amountToPay := if js_lt 0 remaining then remaining else vdp_amount policy in
  let amountInPaise := js_round (js_mul amountToPay 100) in
  require (0 <? amountInPaise) BadRequestException ;;
  orderId ← from_option_or order BadRequestException;
  v ← get;
  require (negb (existsb (fun x => bool_decide (vsd_providerOrderId (snd x) = Some orderId))
                   (map_to_list (delete id (vds_deposits v))))) PrismaP2002 ;;
  updateDeposit id (fun d => deposit_provider "RAZORPAY" (vdp_version policy) (Some orderId) (vsd_providerPaymentId d)
    (deposit_set (vsd_requiredAmount d) (vsd_paidAmount d) (vsd_remainingAmount d) VD_PAYMENT_INITIATED d)) ;;
  mret {| do_orderId := orderId; do_amount := amountInPaise; do_amountInINR := amountToPay |}.

Inductive SignatureCheck : Type := Sig_valid | Sig_invalid | Sig_error.
Record VendorRazorpayPayment : Type := {
  rzp_order_id : option string;
  rzp_currency : option string;
  rzp_status : string;
  rzp_amount : option Z;
}.
Inductive FetchedPayment : Type := Fetch_none | Fetch_error | Fetched (p : VendorRazorpayPayment).
Definition depositFailed (id : string) : M VendorDeposits unit :=
  updateDeposit id (fun d => deposit_set (vsd_requiredAmount d) (vsd_paidAmount d) (vsd_remainingAmount d) VD_PAYMENT_FAILED d) ;;
  mret tt.
(** The amount that counts: what is missing, or what the gateway collected.
    [fetched]: [None] with mock payments or without the SDK. *)
Definition authoritativeAmount (id orderId : string) (deposit : VendorSecurityDeposit) (fetched : option FetchedPayment)
    : M VendorDeposits Q :=
  let missing := js_sub (rnd (vsd_requiredAmount deposit)) (rnd (vsd_paidAmount deposit)) in
  let missing := if js_le missing 0 then rnd (vsd_requiredAmount deposit) else missing in
  match fetched with
  | None | Some Fetch_error => mret missing
  | Some Fetch_none => throw BadRequestException
  | Some (Fetched p) =>
    require (match truthy (rzp_order_id p) with Some o => String.eqb o orderId | None => true end) BadRequestException ;;
    require (match truthy (rzp_currency p) with Some c => String.eqb (uppercase c) "INR" | None => true end) BadRequestException ;;
    when (String.eqb (rzp_status p) "failed") (depositFailed id ;; throw BadRequestException) ;;
    mret match rzp_amount p with
         | Some n => if n =? 0 then missing else js_div (inject_Z n) 100
         | None => missing end
  end.
(** The requirement a fully paid deposit fulfils. *)
Definition approveIfPaid (vendorId : string) (st : VendorDepositStatus) : M VendorDeposits unit :=
  if decide (st = VD_PAID) then upsertRequirement vendorId RF_APPROVED else mret tt.
Definition depositEntry (id : string) (amount : Q) (dir : LedgerDirection) (before after : Q) (t : VendorDepositTransactionType)
    (reference key : string) : VendorDepositLedgerEntry :=
  {| vde_depositId := id; vde_amount := amount; vde_direction := dir; vde_balanceBefore := before; vde_balanceAfter := after;
     vde_transactionType := t; vde_reference := reference; vde_idempotencyKey := key |}.
(** The entry with its amounts as the columns keep them. *)
Definition writeEntry (id : string) (amount : Q) (dir : LedgerDirection) (before after : Q) (t : VendorDepositTransactionType)
    (reference key : string) : M VendorDeposits VendorDepositLedgerEntry :=
  a ← column amount; b ← column before; c ← column after;
  createDepositEntry (depositEntry id a dir b c t reference key).
Definition creditType (balanceBefore : Q) : VendorDepositTransactionType :=
  if Qeq_bool balanceBefore 0 then VT_INITIAL_PAYMENT else VT_TOP_UP.
Definition creditStatus (required balanceAfter : Q) : VendorDepositStatus :=
  if js_le required balanceAfter then VD_PAID else VD_PARTIALLY_PAID.

Definition entryReferenced (reference : string) (v : VendorDeposits) : bool :=
  existsb (fun e => String.eqb (vde_reference e) reference) (vds_ledger v).
Definition entryKeyed (key : string) (v : VendorDeposits) : option VendorDepositLedgerEntry :=
  List.find (fun e => String.eqb (vde_idempotencyKey e) key) (vds_ledger v).
(** The transaction of a verified payment, with the deposit read before. *)
Definition creditVerified (env : DepositEnv) (id : string) (deposit : VendorSecurityDeposit) (orderId paymentId : string) (amount : Q)
    (requestingUserId : string) : M VendorDeposits DepositAnswer :=
  transaction (
    let balanceBefore := rnd (vsd_paidAmount deposit) in
    let balanceAfter := js_add balanceBefore amount in
    let required := rnd (vsd_requiredAmount deposit) in
    let newStatus := creditStatus required balanceAfter in
    paid ← column balanceAfter;
    remaining ← column (js_max 0 (js_sub required balanceAfter));
    v ← get;
    require (negb (existsb (fun x => bool_decide (vsd_providerOrderId (snd x) = Some orderId))
                     (map_to_list (delete id (vds_deposits v))))) PrismaP2002 ;;
    updated ← updateDeposit id (fun d => deposit_provider "RAZORPAY" (vsd_policyVersion d) (Some orderId) (Some paymentId)
      (deposit_set (vsd_requiredAmount d) paid remaining newStatus d));
    entry ← writeEntry id amount DIR_CREDIT balanceBefore balanceAfter (creditType balanceBefore) paymentId ("pay_" +:+ paymentId);
    approveIfPaid (vsd_vendorId deposit) newStatus ;;
    depositAudit requestingUserId "VERIFY_VENDOR_DEPOSIT_PAYMENT" id ;;
    mret {| da_deposit := Some (depositView updated); da_entry := Some entry; da_replay := false |}).
Definition verifyVendorDepositPayment (env : DepositEnv) (useMock : bool) (vendorId orderId paymentId signature requestingUserId : string)
    (check : SignatureCheck) (fetched : option FetchedPayment) : M VendorDeposits DepositAnswer :=
  require (negb (String.eqb orderId "" || String.eqb paymentId "" || String.eqb signature "")) BadRequestException ;;
  v ← get;
  '(id, deposit) ← from_option_or (findDeposit vendorId v) NotFoundException;
  if entryReferenced paymentId v || bool_decide (vsd_providerPaymentId deposit = Some paymentId)
  then mret {| da_deposit := Some (depositView deposit); da_entry := None; da_replay := true |}
  else
  (if useMock && String.eqb signature "mock_signature" then mret tt
   else match check with
        | Sig_valid => mret tt
        | Sig_invalid => depositFailed id ;; throw BadRequestException
        | Sig_error => throw BadRequestException
        end) ;;
  amount ← authoritativeAmount id orderId deposit (if useMock then None else fetched);
  creditVerified env id deposit orderId paymentId amount requestingUserId.

(** ** Payments recorded by hand *)
Definition terminal (st : VendorDepositStatus) : bool := bool_decide (st ∈ [VD_RELEASED; VD_REFUNDED; VD_FORFEITED]).
(** The rule for a first payment, when the configuration can be read. *)
Definition firstPaymentAllowed (env : DepositEnv) (balanceBefore required amount : Q) : bool :=
  match de_rules env with
  | Some r =>
    negb (Qeq_bool balanceBefore 0) ||
    (negb (negb (or_allowPartialDepositPayment r) && js_lt amount required) &&
     negb (or_allowPartialDepositPayment r && js_lt 0 (or_minInitialDepositPercentage r) &&
           js_lt amount (js_div (js_mul required (or_minInitialDepositPercentage r)) 100)))
  | None => true
  end.
(** The deposit as it is stored, or a new one of the policy. *)
Definition depositOrNew (env : DepositEnv) (vendorId : string) : M VendorDeposits (string * VendorSecurityDeposit) :=
  v ← get;
  match findDeposit vendorId v with
  | Some x => mret x
  | None =>
    policy ← getActivePolicy env;
    required ← column (if vdp_isRequired policy then vdp_amount policy else 0%Q);
    let d := newDeposit vendorId "RAZORPAY" 1 required (vdp_isRequired policy) in
    createDeposit (de_freshId env) d ;;
    mret (de_freshId env, d)
  end.
Definition recordPayment (env : DepositEnv) (vendorId : string) (amount : Q) (reference idempotencyKey actorId : string)
    : M VendorDeposits DepositAnswer :=
  require (negb (js_le amount 0)) BadRequestException ;;
  transaction_but vds_policies with_policies (
    v ← get;
    match truthy (Some idempotencyKey) ≫= (fun k => entryKeyed k v) with
    | Some existing =>
      mret {| da_deposit := depositView <$> (vds_deposits v !! vde_depositId existing); da_entry := Some existing; da_replay := true |}
    | None =>
      '(id, deposit) ← depositOrNew env vendorId;
      require (negb (terminal (vsd_status deposit))) BadRequestException ;;
      let balanceBefore := rnd (vsd_paidAmount deposit) in
      let required := rnd (vsd_requiredAmount deposit) in
      require (firstPaymentAllowed env balanceBefore required amount) BadRequestException ;;
      let balanceAfter := js_add balanceBefore amount in
      let newStatus := creditStatus required balanceAfter in
      paid ← column balanceAfter;
      remaining ← column (js_max 0 (js_sub required balanceAfter));
      updated ← updateDeposit id (fun d => deposit_set (vsd_requiredAmount d) paid remaining newStatus d);
      entry ← writeEntry id amount DIR_CREDIT balanceBefore balanceAfter (creditType balanceBefore) reference idempotencyKey;
      approveIfPaid vendorId newStatus ;;
      depositAudit actorId "RECORD_VENDOR_DEPOSIT_PAYMENT" id ;;
      mret {| da_deposit := Some (depositView updated); da_entry := Some entry; da_replay := false |}
    end).

(** ** Hold, release, refund, forfeiture, adjustment

    Each reads the deposit first; what its transaction does with that reading
    is a definition of its own. *)
Definition holdVendorDeposit (env : DepositEnv) (vendorId adminUserId : string) : M VendorDeposits VendorSecurityDeposit :=
  '(id, deposit) ← getDeposit env vendorId;
  require (bool_decide (vsd_status deposit ∈ [VD_PAID; VD_PARTIALLY_PAID])) BadRequestException ;;
  updated ← updateDeposit id (fun d => deposit_set (vsd_requiredAmount d) (vsd_paidAmount d) (vsd_remainingAmount d) VD_HELD d);
  depositAudit adminUserId "HOLD_VENDOR_DEPOSIT" id ;;
  mret (depositView updated).

Definition replayed (deposit : VendorSecurityDeposit) (existing : VendorDepositLedgerEntry) : DepositAnswer :=
  {| da_deposit := Some deposit; da_entry := Some existing; da_replay := true |}.
(** [tx]: the transaction unless the key was used before. *)
Definition unlessKeyed (key : string) (deposit : VendorSecurityDeposit) (tx : M VendorDeposits DepositAnswer)
    : M VendorDeposits DepositAnswer :=
  v ← get;
  match entryKeyed key v with Some existing => mret (replayed deposit existing) | None => tx end.

Definition releaseTx (id : string) (deposit : VendorSecurityDeposit) (reference key adminUserId : string) : M VendorDeposits DepositAnswer :=
  let body :=
    let isHoldRelease := bool_decide (vsd_status deposit = VD_HELD) in
    let newStatus := if isHoldRelease then VD_PAID else VD_RELEASED in
    let balanceBefore := vsd_paidAmount deposit in
    let balanceAfter := if isHoldRelease then vsd_paidAmount deposit else 0%Q in
    paid ← column balanceAfter;
    remaining ← column (if isHoldRelease then vsd_remainingAmount deposit else vsd_requiredAmount deposit);
    updated ← updateDeposit id (fun d => deposit_set (vsd_requiredAmount d) paid remaining newStatus d);
    entry ← writeEntry id (if isHoldRelease then 0%Q else balanceBefore) DIR_DEBIT balanceBefore balanceAfter VT_RELEASE reference key;
    depositAudit adminUserId "RELEASE_VENDOR_DEPOSIT" id ;;
    mret {| da_deposit := Some (depositView updated); da_entry := Some entry; da_replay := false |} in
  transaction (match truthy (Some key) with Some k => unlessKeyed k deposit body | None => body end).
Definition releaseDeposit (env : DepositEnv) (vendorId reference key adminUserId : string) : M VendorDeposits DepositAnswer :=
  '(id, deposit) ← getDeposit env vendorId;
  require (bool_decide (vsd_status deposit ∈ [VD_PAID; VD_HELD])) BadRequestException ;;
  releaseTx id deposit reference key adminUserId.

Definition amountOr (amount : option Q) (balance : Q) : Q :=
  match amount with Some a => if nonzero a then a else balance | None => balance end.
(** [updateMany] of the requirement: nothing to update is no error. *)
Definition updateRequirement (vendorId : string) (st : RequirementFulfillmentStatus) : M VendorDeposits unit :=
  v ← get;
  when (bool_decide (is_Some (vds_requirement v)) && bool_decide (is_Some (vds_states v !! vendorId)))
    (modify (with_state vendorId st)).
Definition refundTx (id : string) (deposit : VendorSecurityDeposit) (amount : Q) (reference key adminUserId : string)
    : M VendorDeposits DepositAnswer :=
  transaction (unlessKeyed key deposit (
    let balanceBefore := vsd_paidAmount deposit in
    let balanceAfter := js_sub balanceBefore amount in
    let emptied := Qeq_bool balanceAfter 0 in
    let newStatus := if emptied then VD_REFUNDED else vsd_status deposit in
    paid ← column balanceAfter;
    remaining ← column (js_sub (vsd_requiredAmount deposit) balanceAfter);
    updated ← updateDeposit id (fun d => deposit_set (vsd_requiredAmount d) paid remaining newStatus d);
    entry ← writeEntry id amount DIR_DEBIT balanceBefore balanceAfter VT_REFUND reference key;
    when emptied (updateRequirement (vsd_vendorId deposit) RF_PENDING) ;;
    depositAudit adminUserId "REFUND_VENDOR_DEPOSIT" id ;;
    mret {| da_deposit := Some (depositView updated); da_entry := Some entry; da_replay := false |})).
Definition refundDeposit (env : DepositEnv) (vendorId : string) (amount : option Q) (reference key adminUserId : string)
    : M VendorDeposits DepositAnswer :=
  '(id, deposit) ← getDeposit env vendorId;
  require (negb (js_le (vsd_paidAmount deposit) 0)) BadRequestException ;;
  let refundAmount := amountOr amount (vsd_paidAmount deposit) in
  require (negb (js_lt (vsd_paidAmount deposit) refundAmount)) BadRequestException ;;
  refundTx id deposit refundAmount reference key adminUserId.

Definition forfeitTx (id : string) (deposit : VendorSecurityDeposit) (amount : Q) (reference key adminUserId : string)
    : M VendorDeposits DepositAnswer :=
  transaction (unlessKeyed key deposit (
    let balanceBefore := vsd_paidAmount deposit in
    let balanceAfter := js_sub balanceBefore amount in
    paid ← column balanceAfter;
    updated ← updateDeposit id (fun d => deposit_set (vsd_requiredAmount d) paid (vsd_remainingAmount d) VD_FORFEITED d);
    entry ← writeEntry id amount DIR_DEBIT balanceBefore balanceAfter VT_FORFEITURE reference key;
    updateRequirement (vsd_vendorId deposit) RF_REJECTED ;;
    depositAudit adminUserId "FORFEIT_VENDOR_DEPOSIT" id ;;
    mret {| da_deposit := Some (depositView updated); da_entry := Some entry; da_replay := false |})).
Definition forfeitDeposit (env : DepositEnv) (vendorId : string) (amount : option Q) (reference key adminUserId : string)
    : M VendorDeposits DepositAnswer :=
  '(id, deposit) ← getDeposit env vendorId;
  require (negb (js_le (vsd_paidAmount deposit) 0)) BadRequestException ;;
  let forfeitAmount := amountOr amount (vsd_paidAmount deposit) in
  require (negb (js_lt (vsd_paidAmount deposit) forfeitAmount)) BadRequestException ;;
  forfeitTx id deposit forfeitAmount reference key adminUserId.

Definition adjustedStatus (required balanceAfter : Q) (st : VendorDepositStatus) : VendorDepositStatus :=
  if js_le required balanceAfter && js_lt 0 required then VD_PAID
  else if js_lt 0 balanceAfter then VD_PARTIALLY_PAID
  else if Qeq_bool balanceAfter 0 then VD_REQUIRED else st.
Definition adjustTx (env : DepositEnv) (id : string) (deposit : VendorSecurityDeposit) (amount : Q) (direction : option LedgerDirection)
    (newRequired : option Q) (reference key : option string) (adminUserId : string) : M VendorDeposits DepositAnswer :=
  let body :=
    let balanceBefore := vsd_paidAmount deposit in
    let isDebit := bool_decide (direction = Some DIR_DEBIT) || js_lt amount 0 in
    let adjustment := Qabs amount in
    let balanceAfter := if isDebit then js_sub balanceBefore adjustment else js_add balanceBefore adjustment in
    require (negb (js_lt balanceAfter 0)) BadRequestException ;;
    let required := default (vsd_requiredAmount deposit) newRequired in
    require (negb (js_lt required 0)) BadRequestException ;;
    let newStatus := adjustedStatus required balanceAfter (vsd_status deposit) in
    paid ← column balanceAfter;
    req ← column required;
    remaining ← column (js_max 0 (js_sub required balanceAfter));
    updated ← updateDeposit id (fun d => deposit_set req paid remaining newStatus d);
    entry ← writeEntry id adjustment (if isDebit then DIR_DEBIT else DIR_CREDIT) balanceBefore balanceAfter VT_ADMIN_ADJUSTMENT
      (str_or reference ("ADJ-" +:+ pretty (de_now env)))
      (str_or key ("adj-" +:+ id +:+ "-" +:+ pretty (de_now env)));
    approveIfPaid (vsd_vendorId deposit) newStatus ;;
    depositAudit adminUserId "ADJUST_VENDOR_DEPOSIT" id ;;
    mret {| da_deposit := Some (depositView updated); da_entry := Some entry; da_replay := false |} in
  transaction (match truthy key with Some k => unlessKeyed k deposit body | None => body end).
Definition adjustDeposit (env : DepositEnv) (vendorId : string) (amount : Q) (direction : option LedgerDirection)
    (newRequired : option Q) (reference key : option string) (reason adminUserId : string) : M VendorDeposits DepositAnswer :=
  require (negb (String.eqb (trim reason) "")) BadRequestException ;;
  '(id, deposit) ← getDeposit env vendorId;
  adjustTx env id deposit amount direction newRequired reference key adminUserId.
End deposits.
