(* ===== verification/DepositLedger.v ===== *)
(** * The ledger of a vendor's deposit

    Every operation of VendorDeposits.v keeps the ledger a gapless account of
    each deposit's balance. *)
From S2P Require Import Prelude JsNumber Decimal Schema BookingStore DepositStore VendorDeposits.
From stdpp Require Import pretty.
Open Scope Z_scope.
Open Scope Q_scope.

(** ** Amounts in columns *)
Section columns.
Context {col : NumericColumn} {num : DecimalNumbers}.
Lemma column_run x s q s' : column x s = (Ok q, s') -> s' = s /\ q = store (of_number x) /\ Qabs q < 100000000.
Proof. unfold column. step. destruct (d_lt _ _) eqn:E; [|done]. intros [= <- <-]. dec_bool. done. Qed.
Lemma column_near x s q s' p e : column x s = (Ok q, s') -> money p -> near x p e -> e <= 1 # 1000 ->
  s' = s /\ q == inject_Z p / 100 /\ Qabs q < 100000000.
Proof. intros (-> & -> & Hb)%column_run Hm Hn He. split_and!; [done|by eapply store_near|done]. Qed.
Lemma column_nonneg x s q s' : column x s = (Ok q, s') -> 0 <= x -> s' = s /\ column_ok q.
Proof.
  intros (-> & -> & Hb)%column_run Hx. split; [done|]. pose proof (store_nonneg x Hx). rewrite Qabs_pos in Hb by done.
  split_and!; [apply store_whole|done|done].
Qed.
End columns.

(** ** The account *)
Definition entrySigned (e : VendorDepositLedgerEntry) : Q :=
  match vde_direction e with DIR_CREDIT => vde_amount e | DIR_DEBIT => - vde_amount e end.
Definition entriesOf (id : string) (v : VendorDeposits) : list VendorDepositLedgerEntry :=
  List.filter (fun e => String.eqb (vde_depositId e) id) (vds_ledger v).
(** The entries lead from zero to [b], each from where the one before it
    ended, and never below zero. *)
Inductive chained : list VendorDepositLedgerEntry -> Q -> Prop :=
  | chained_nil b : b == 0 -> chained [] b
  | chained_snoc l b e b' : chained l b -> vde_balanceBefore e == b -> vde_balanceAfter e == b + entrySigned e ->
      0 <= vde_balanceAfter e -> b' == vde_balanceAfter e -> chained (l ++ [e]) b'.
Lemma chained_total l b : chained l b -> b == sum_by entrySigned l.
Proof.
  induction 1 as [b E|l b e b' _ IH H1 H2 H3 H4]; [exact E|]. rewrite sum_by_snoc, H4, H2. by rewrite <- IH.
Qed.
Lemma chained_nonneg l b : chained l b -> 0 <= b.
Proof. induction 1 as [b E|l b e b' _ IH H1 H2 H3 H4]; lra. Qed.
Lemma chained_proper l b b' : chained l b -> b == b' -> chained l b'.
Proof.
  intros H E. destruct H as [b E0|l b e b1 H H1 H2 H3 H4]; [constructor; by rewrite <- E|].
  eapply chained_snoc; [exact H|done..|by rewrite <- E].
Qed.

Record deposits_ok (v : VendorDeposits) : Prop := {
  dk_deposit id d : vds_deposits v !! id = Some d ->
    chained (entriesOf id v) (vsd_paidAmount d) /\ column_ok (vsd_paidAmount d) /\ column_ok (vsd_requiredAmount d);
  dk_known e : e ∈ vds_ledger v -> is_Some (vds_deposits v !! vde_depositId e);
  dk_keys : NoDup (map vde_idempotencyKey (vds_ledger v));
  dk_policy p : p ∈ vds_policies v -> column_ok (vdp_amount p);
}.

(** ** What keeps the account *)
Section keeping.
Context {col : NumericColumn} {num : DecimalNumbers}.

Lemma deposits_ok_same v v' : vds_deposits v' = vds_deposits v -> vds_ledger v' = vds_ledger v -> vds_policies v' = vds_policies v ->
  deposits_ok v -> deposits_ok v'.
Proof.
  intros E1 E2 E3 [H1 H2 H3 H4]. split; unfold entriesOf in *; rewrite ?E1, ?E2, ?E3; done.
Qed.
Lemma ok_audit u a e : preserves deposits_ok (depositAudit u a e).
Proof. apply preserves_modify. intros v. by apply deposits_ok_same. Qed.
Lemma ok_upsert id st : preserves deposits_ok (upsertRequirement id st).
Proof.
  apply preserves_get. intros v r v' Hv. destruct (vds_requirement v); [|by intros [= <- <-]].
  intros [= <- <-]. by eapply deposits_ok_same; [..|exact Hv].
Qed.
Lemma ok_approve id st : preserves deposits_ok (approveIfPaid id st).
Proof. unfold approveIfPaid. destruct (decide _); [apply ok_upsert|apply preserves_ret]. Qed.
Lemma ok_requirement id st : preserves deposits_ok (updateRequirement id st).
Proof.
  apply preserves_get. intros v r v' Hv. unfold when. case_match; [|by intros [= <- <-]].
  intros [= <- <-]. by eapply deposits_ok_same; [..|exact Hv].
Qed.
Lemma ok_column x : preserves deposits_ok (column x).
Proof. intros v r v' H Hv. unfold column in H. step_in H. case_match; by injection H as <- <-. Qed.
Lemma ok_update_quiet id f : (forall d, vsd_paidAmount (f d) = vsd_paidAmount d /\ vsd_requiredAmount (f d) = vsd_requiredAmount d) ->
  preserves deposits_ok (updateDeposit id f).
Proof.
  intros Hf v r v' H [H1 H2 H3 H4]. unfold updateDeposit in H. step_in H.
  destruct (vds_deposits v !! id) as [d|] eqn:Ed; [|by injection H as <- <-]. step_in H. injection H as <- <-.
  destruct (Hf d) as [E1 E2]. split; unfold entriesOf in *; cbn.
  - intros id' d' [[<- <-]|[Hne Hd']]%lookup_insert_Some; [rewrite E1, E2; by apply H1|by apply H1].
  - intros e He. destruct (decide (vde_depositId e = id)) as [->|]; [rewrite lookup_insert_eq|rewrite lookup_insert_ne by done]; eauto.
  - done.
  - done.
Qed.
Lemma updateDeposit_run id f v r v' : updateDeposit id f v = (Ok r, v') ->
  exists d, vds_deposits v !! id = Some d /\ r = f d /\ v' = with_deposits (<[id := f d]> (vds_deposits v)) v.
Proof.
  unfold updateDeposit. step. destruct (vds_deposits v !! id) as [d|]; [|done]. step. intros [= <- <-]. by exists d.
Qed.
Lemma createDepositEntry_run e v r v' : createDepositEntry e v = (Ok r, v') ->
  r = e /\ v' = with_entry e v /\ vde_idempotencyKey e ∉ map vde_idempotencyKey (vds_ledger v).
Proof.
  unfold createDepositEntry. step. destruct (negb _) eqn:E; [|done]. step. intros [= <- <-]. split_and!; [done..|].
  apply negb_true_iff in E. intros (x & Hx & Hin)%list_elem_of_fmap.
  rewrite existsb_false_iff in E || (apply not_true_iff_false in E; apply E, existsb_exists). 
  exists x. split; [by apply list_elem_of_In|]. by rewrite Hx, String.eqb_refl.
Qed.
Lemma writeEntry_run id amount dir before after t ref key v e v' pa pb pc err :
  writeEntry id amount dir before after t ref key v = (Ok e, v') ->
  money pa -> money pb -> money pc -> err <= 1 # 1000 -> near amount pa err -> near before pb err -> near after pc err ->
  v' = with_entry e v /\ vde_depositId e = id /\ vde_direction e = dir /\ vde_amount e == inject_Z pa / 100 /\
  vde_balanceBefore e == inject_Z pb / 100 /\ vde_balanceAfter e == inject_Z pc / 100 /\
  vde_idempotencyKey e ∉ map vde_idempotencyKey (vds_ledger v).
Proof.
  intros H Ha Hb Hc He Na Nb Nc. unfold writeEntry in H.
  apply bind_Ok in H as (a & v1 & Ea & H). eapply column_near in Ea as (-> & Ea & _); [|exact Ha|exact Na|exact He].
  apply bind_Ok in H as (b & v1 & Eb & H). eapply column_near in Eb as (-> & Eb & _); [|exact Hb|exact Nb|exact He].
  apply bind_Ok in H as (c & v1 & Ec & H). eapply column_near in Ec as (-> & Ec & _); [|exact Hc|exact Nc|exact He].
  apply createDepositEntry_run in H as (-> & -> & Hk). done.
Qed.

Lemma entriesOf_post e v id : entriesOf id (with_entry e v) = entriesOf id v ++ (if String.eqb (vde_depositId e) id then [e] else []).
Proof. unfold entriesOf. cbn. rewrite List.filter_app. cbn. by destruct (String.eqb _ _). Qed.
(** A change of a deposit together with the entry that explains it. *)
Lemma deposits_ok_post id d d' e v : deposits_ok v -> vds_deposits v !! id = Some d ->
  column_ok (vsd_paidAmount d') -> column_ok (vsd_requiredAmount d') -> vde_depositId e = id ->
  vde_balanceBefore e == vsd_paidAmount d -> vde_balanceAfter e == vsd_paidAmount d + entrySigned e ->
  vsd_paidAmount d' == vde_balanceAfter e -> vde_idempotencyKey e ∉ map vde_idempotencyKey (vds_ledger v) ->
  deposits_ok (with_entry e (with_deposits (<[id := d']> (vds_deposits v)) v)).
Proof.
  intros [H1 H2 H3 H4] Hd Hp Hr Hid Hb Ha Hpa Hk. split.
  - intros id' q Hq. rewrite entriesOf_post, Hid. cbn in Hq. change (entriesOf id' (with_deposits _ v)) with (entriesOf id' v).
    apply lookup_insert_Some in Hq as [[<- <-]|[Hne Hq]].
    + rewrite String.eqb_refl. split_and!; [|done..]. destruct (H1 _ _ Hd) as [Hc _].
      eapply chained_snoc; [exact Hc|done..| |done]. rewrite <- Hpa. apply Hp.
    + assert (String.eqb id id' = false) as -> by by apply String.eqb_neq. rewrite app_nil_r. by apply H1.
  - intros x Hx. cbn in Hx |- *. apply elem_of_app in Hx as [Hx| ->%list_elem_of_singleton]; [|rewrite Hid, lookup_insert_eq; by eexists].
    destruct (decide (vde_depositId x = id)) as [->|]; [rewrite lookup_insert_eq; by eexists|rewrite lookup_insert_ne by done; by apply H2].
  - cbn. rewrite map_app. apply NoDup_app. split_and!; [done| |apply NoDup_singleton]. intros x Hx ->%list_elem_of_singleton. done.
  - done.
Qed.
Lemma post_ok {A} id d f amount dir before after t ref key (K : VendorSecurityDeposit -> VendorDepositLedgerEntry -> M VendorDeposits A)
    v r v' pa pb pc err :
  deposits_ok v -> vds_deposits v !! id = Some d ->
  money pa -> money pb -> money pc -> err <= 1 # 1000 -> near amount pa err -> near before pb err -> near after pc err ->
  vsd_paidAmount d == inject_Z pb / 100 -> pc = match dir with DIR_CREDIT => pb + pa | DIR_DEBIT => pb - pa end%Z ->
  column_ok (vsd_paidAmount (f d)) -> vsd_paidAmount (f d) == inject_Z pc / 100 -> column_ok (vsd_requiredAmount (f d)) ->
  (forall u e, preserves deposits_ok (K u e)) ->
  (u ← updateDeposit id f; e ← writeEntry id amount dir before after t ref key; K u e) v = (Ok r, v') -> deposits_ok v'.
Proof.
  intros Hv Hd Ma Mb Mc He Na Nb Nc Epaid Epc Hp Ep Hr HK H.
  apply bind_Ok in H as (u & v1 & Hu & H). apply updateDeposit_run in Hu as (d0 & Hd0 & -> & ->). simplify_eq.
  apply bind_Ok in H as (e & v2 & Hw & H).
  eapply writeEntry_run in Hw as (-> & Hid & Hdir & Ea & Eb & Ec & Hk); [|exact Ma|exact Mb|exact Mc|exact He|exact Na|exact Nb|exact Nc].
  apply (HK _ _ _ _ _ H). eapply deposits_ok_post; try done.
  - by rewrite Eb, Epaid.
  - unfold entrySigned. rewrite Hdir. destruct dir; rewrite Ec, Epaid, Ea, ?inject_Z_plus, ?inject_Z_sub; field.
  - by rewrite Ep, Ec.
Qed.
End keeping.
#[export] Hint Resolve ok_audit ok_upsert ok_approve ok_requirement ok_column : preserves.

(** ** Policies and new deposits *)
Section creating.
Context {col : NumericColumn} {num : DecimalNumbers} (env : DepositEnv).
Definition rules_ok : Prop := match de_rules env with Some r => 0 <= or_defaultSecurityDepositAmount r | None => True end.
Lemma newestPolicy_in b v p : newestPolicy b v = Some p -> p ∈ vds_policies v.
Proof. intros [H _]%best_spec. apply list_elem_of_In, List.filter_In in H as [H _]. by apply list_elem_of_In. Qed.
Lemma add_policy_ok p v : column_ok (vdp_amount p) -> deposits_ok v -> deposits_ok (with_policies (vds_policies v ++ [p]) v).
Proof.
  intros Hp [H1 H2 H3 H4]. split; try done. cbn. intros q [Hq| ->%list_elem_of_singleton]%elem_of_app; [by apply H4|done].
Qed.
Lemma getActivePolicy_run v r v' : rules_ok -> deposits_ok v -> getActivePolicy env v = (r, v') ->
  deposits_ok v' /\ vds_deposits v' = vds_deposits v /\ vds_ledger v' = vds_ledger v /\
  match r with Ok p => 0 <= vdp_amount p | Throw _ => True end.
Proof.
  intros Hr Hv. unfold getActivePolicy. step. destruct (newestPolicy _ _) as [p|] eqn:Ep.
  - step. intros [= <- <-]. split_and!; try done. cbn. apply rnd_nonneg. apply newestPolicy_in in Ep. by apply Hv.
  - set (amount := match de_rules env with Some _ => _ | None => _ end).
    assert (0 <= amount) as Ha.
    { unfold amount, rules_ok in *. destruct (de_rules env) as [r0|]; [destruct (nonzero _)|]; (done || (vm_compute; discriminate)). }
    rewrite bind_run. destruct (column amount v) as [[a|e] v1] eqn:Ec.
    + apply column_nonneg in Ec as [-> Hok]; [|done]. step. intros [= <- <-].
      split_and!; try done; [by apply add_policy_ok|]. cbn. apply rnd_nonneg, Hok.
    + intros [= <- <-]. unfold column in Ec. step_in Ec. case_match; [done|]. by injection Ec as _ <-.
Qed.
Lemma new_deposit_ok id d v : deposits_ok v -> vds_deposits v !! id = None -> vsd_paidAmount d = 0 -> column_ok (vsd_requiredAmount d) ->
  deposits_ok (with_deposits (<[id := d]> (vds_deposits v)) v).
Proof.
  intros [H1 H2 H3 H4] Hn Hp Hr. split; try done; cbn.
  - intros id' q [[<- <-]|[Hne Hq]]%lookup_insert_Some; [|by apply H1]. split_and!; [|rewrite Hp; repeat split; [exists 0%Z; reflexivity|done]|done].
    assert (entriesOf id v = []) as E.
    { unfold entriesOf. destruct (List.filter _ (vds_ledger v)) as [|e l] eqn:Ef; [done|].
      assert (e ∈ List.filter (fun e => String.eqb (vde_depositId e) id) (vds_ledger v)) as He by (rewrite Ef; left).
      apply list_elem_of_In, List.filter_In in He as [He Hid%String.eqb_eq].
      destruct (H2 e) as [x Hx]; [by apply list_elem_of_In|]. congruence. }
    unfold entriesOf in *. cbn. rewrite E. constructor. by rewrite Hp.
  - intros e He. destruct (H2 e He) as [x Hx]. destruct (decide (vde_depositId e = id)) as [E|]; [rewrite E in Hx; congruence|].
    rewrite lookup_insert_ne by done. by eexists.
Qed.
Lemma createDeposit_run id d v r v' : deposits_ok v -> vsd_paidAmount d = 0 -> column_ok (vsd_requiredAmount d) ->
  createDeposit id d v = (r, v') -> deposits_ok v' /\ (is_Ok r = true -> vds_deposits v' !! id = Some d).
Proof.
  intros Hv Hp Hr. unfold createDeposit. step. case_bool_decide; [|by intros [= <- <-]]. step.
  destruct (bool_decide (is_Some _)) eqn:Es; [by intros [= <- <-]|]. apply bool_decide_eq_false in Es. step. intros [= <- <-].
  split; [apply new_deposit_ok; try done; by apply eq_None_not_Some|]. intros _. apply lookup_insert_eq.
Qed.
Lemma findDeposit_in vid v id d : findDeposit vid v = Some (id, d) -> vds_deposits v !! id = Some d /\ vsd_vendorId d = vid.
Proof.
  intros H. apply List.find_some in H as [Hin%list_elem_of_In Hv%String.eqb_eq]. by apply elem_of_map_to_list in Hin.
Qed.
Lemma getDeposit_run vid v r v' : rules_ok -> deposits_ok v -> getDeposit env vid v = (r, v') ->
  deposits_ok v' /\ match r with Ok (id, d) => exists d0, vds_deposits v' !! id = Some d0 /\ d = depositView d0 | Throw _ => True end.
Proof.
  intros Hr Hv. unfold getDeposit. step. destruct (findDeposit vid v) as [[id d]|] eqn:Ef.
  { intros [= <- <-]. split; [done|]. exists d. split; [|done]. by apply findDeposit_in in Ef as [? _]. }
  rewrite bind_run. destruct (getActivePolicy env v) as [r1 v1] eqn:Ep.
  apply getActivePolicy_run in Ep as (Hv1 & _ & _ & Hp); [|done..].
  destruct r1 as [p|e]; [|by intros [= <- <-]]. rewrite bind_run.
  destruct (column _ v1) as [[a|e] v2] eqn:Ec.
  2: { intros [= <- <-]. split; [|done]. exact (ok_column _ _ _ _ Ec Hv1). }
  apply column_nonneg in Ec as [-> Hok]; [|destruct (vdp_isRequired p); done].
  rewrite bind_run. destruct (createDeposit _ _ v1) as [r2 v2] eqn:Ecr.
  apply createDeposit_run in Ecr as [Hv2 Hl]; [|done..].
  destruct r2; [|by intros [= <- <-]]. step. intros [= <- <-]. split; [done|]. eexists. split; [by apply Hl|done].
Qed.
End creating.

(** ** Every operation keeps the account *)
Section operations.
Context {col : NumericColumn} {num : DecimalNumbers} (env : DepositEnv) (Hrules : rules_ok env).

Lemma transaction_keeps {A} (m : M VendorDeposits A) v r v' : deposits_ok v ->
  (forall a v1, m v = (Ok a, v1) -> deposits_ok v1) -> transaction m v = (r, v') -> deposits_ok v'.
Proof. intros Hv Hm. unfold transaction. destruct (m v) as [[a|e] v1]; intros [= <- <-]; eauto. Qed.
Lemma unlessKeyed_keeps k d tx v a v' : deposits_ok v -> (forall a v1, tx v = (Ok a, v1) -> deposits_ok v1) ->
  unlessKeyed k d tx v = (Ok a, v') -> deposits_ok v'.
Proof. intros Hv Htx. unfold unlessKeyed. step. destruct (entryKeyed k v); [by intros [= <- <-]|]. apply Htx. Qed.
(** Amounts of a stored deposit as numbers. *)
Lemma paid_paise id d v : deposits_ok v -> vds_deposits v !! id = Some d ->
  exists p, (0 <= p <= 10 ^ 10)%Z /\ vsd_paidAmount d == inject_Z p / 100 /\ rnd (vsd_paidAmount d) = rupees p /\ near (rupees p) p (1 # 80000).
Proof.
  intros Hv Hd. destruct (dk_deposit v Hv _ _ Hd) as (_ & Hp & _). apply column_ok_paise in Hp as (p & Hb & Hp).
  exists p. split_and!; [lia..|done|by apply rnd_column|by apply near_rupees, money_column].
Qed.
Lemma required_paise id d v : deposits_ok v -> vds_deposits v !! id = Some d ->
  exists p, (0 <= p <= 10 ^ 10)%Z /\ rnd (vsd_requiredAmount d) = rupees p /\ near (rupees p) p (1 # 80000).
Proof.
  intros Hv Hd. destruct (dk_deposit v Hv _ _ Hd) as (_ & _ & Hp). apply column_ok_paise in Hp as (p & Hb & Hp).
  exists p. split_and!; [lia..|by apply rnd_column|by apply near_rupees, money_column].
Qed.
Lemma column_ok_of q n : q == inject_Z n / 100 -> (0 <= n)%Z -> Qabs q < 100000000 -> column_ok q.
Proof.
  intros E Hn Hb. assert (0 <= q) as H0.
  { rewrite E. assert (inject_Z n / 100 == inject_Z n * (1 # 100)) as -> by field.
    assert (0 <= inject_Z n) by (change 0 with (inject_Z 0); by rewrite <- Zle_Qle). lra. }
  rewrite Qabs_pos in Hb by done. split_and!; [by exists n|done|done].
Qed.
Lemma money_sum p q : (0 <= p <= 10 ^ 10)%Z -> (0 <= q <= 10 ^ 12)%Z -> money q /\ money (p + q) /\ money (p - q).
Proof. unfold money. lia. Qed.

(** The credit of [amount] to the deposit as it was read. *)
Lemma credit_keeps {A} id d f amount q paid t ref key (K : VendorSecurityDeposit -> VendorDepositLedgerEntry -> M VendorDeposits A) v r v' v0 :
  deposits_ok v -> vds_deposits v !! id = Some d -> (0 <= q <= 10 ^ 12)%Z -> near amount q (1 # 8000) ->
  column (js_add (rnd (vsd_paidAmount d)) amount) v0 = (Ok paid, v0) ->
  vsd_paidAmount (f d) = paid -> vsd_requiredAmount (f d) = vsd_requiredAmount d ->
  (forall u e, preserves deposits_ok (K u e)) ->
  (u ← updateDeposit id f;
   e ← writeEntry id amount DIR_CREDIT (rnd (vsd_paidAmount d)) (js_add (rnd (vsd_paidAmount d)) amount) t ref key; K u e) v = (Ok r, v') ->
  deposits_ok v'.
Proof.
  intros Hv Hd Hq Hn Hc Hpf Hrf HK H. destruct (paid_paise id d v Hv Hd) as (p & Hp & Ep & Er & Np).
  destruct (money_sum p q Hp Hq) as (Mq & Mpq & _). rewrite Er in *.
  assert (near (js_add (rupees p) amount) (p + q) (1 # 4000)) as Na.
  { eapply near_weaken; [|eapply near_add; [exact Mpq| |exact Np|exact Hn]]; [|]; unfold Qle; simpl; lia. }
  eapply column_near in Hc as (_ & Ec & Hb); [|exact Mpq|exact Na|unfold Qle; simpl; lia].
  eapply (post_ok id d f amount DIR_CREDIT _ _ t ref key K v r v' q p (p + q) (1 # 4000)); try done.
  - by apply money_column.
  - eapply near_weaken; [|exact Hn]. unfold Qle; simpl; lia.
  - eapply near_weaken; [|exact Np]. unfold Qle; simpl; lia.
  - rewrite Hpf. eapply column_ok_of; [exact Ec|lia|done].
  - by rewrite Hpf.
  - rewrite Hrf. by apply (dk_deposit v Hv _ _ Hd).
Qed.
Lemma column_Ok_same x v q v' : column x v = (Ok q, v') -> v' = v /\ forall w, column x w = (Ok q, w).
Proof. unfold column. step. destruct (d_lt _ _) eqn:E; [|done]. intros [= <- <-]. split; [done|]. done. Qed.
Lemma creditVerified_keeps id d oid pid amount u q v r v' : deposits_ok v -> vds_deposits v !! id = Some d ->
  (0 <= q <= 10 ^ 12)%Z -> near amount q (1 # 8000) -> creditVerified env id d oid pid amount u v = (r, v') -> deposits_ok v'.
Proof.
  intros Hv Hd Hq Hn. unfold creditVerified. apply transaction_keeps; [done|]. intros a v1 H. cbv zeta in H.
  apply bind_Ok in H as (paid & v2 & Hc & H). apply column_Ok_same in Hc as [-> Hc].
  apply bind_Ok in H as (rem & v2 & Hc' & H). apply column_Ok_same in Hc' as [-> Hc'].
  step_in H. case_match; [|done].
  eapply (credit_keeps id d _ amount q paid); [exact Hv|exact Hd|exact Hq|exact Hn|apply (Hc v)| | | |exact H]; [done|done|].
  intros u0 e. cbv beta. auto 8 with preserves.
Qed.

(** The amount that counts is what is missing or what the gateway says it
    collected. *)
Definition collected_ok (f : option FetchedPayment) : Prop :=
  match f with Some (Fetched p) => match rzp_amount p with Some n => (0 <= n <= 10 ^ 12)%Z | None => True end | _ => True end.
Lemma depositFailed_keeps id : preserves deposits_ok (depositFailed id).
Proof. apply preserves_bind; [by apply ok_update_quiet|intros; apply preserves_ret]. Qed.
Lemma authoritativeAmount_run id oid d f v r v' : deposits_ok v -> vds_deposits v !! id = Some d -> collected_ok f ->
  authoritativeAmount id oid d f v = (r, v') ->
  deposits_ok v' /\ match r with Ok a => v' = v /\ exists q, (0 <= q <= 10 ^ 12)%Z /\ near a q (1 # 8000) | Throw _ => True end.
Proof.
  intros Hv Hd Hf. unfold authoritativeAmount. cbv zeta.
  set (missing := if js_le _ 0 then _ else _).
  assert (exists q, (0 <= q <= 10 ^ 12)%Z /\ near missing q (1 # 8000)) as Hmiss.
  { destruct (paid_paise id d v Hv Hd) as (p & Hp & _ & Er & Np). destruct (required_paise id d v Hv Hd) as (r0 & Hr0 & Er0 & Nr).
    unfold missing. rewrite Er, Er0. unfold js_le. destruct (Qle_bool _ 0) eqn:El.
    - exists r0. split; [lia|]. eapply near_weaken; [|exact Nr]. unfold Qle; simpl; lia.
    - assert (near (js_sub (rupees r0) (rupees p)) (r0 - p) (1 # 8000)) as Ns.
      { eapply near_weaken; [|eapply near_sub; [|  |exact Nr|exact Np]]; [unfold Qle; simpl; lia|unfold money; lia|unfold Qle; simpl; lia]. }
      exists (r0 - p)%Z. split; [|exact Ns]. split; [|lia].
      eapply near_nonneg; [exact Ns|unfold Qle; simpl; lia|]. apply Qlt_le_weak, Qnot_le_lt. intros Hle%Qle_bool_iff. congruence. }
  destruct f as [[| |p]|]; [by intros [= <- <-]|by intros [= <- <-]| |by intros [= <- <-]].
  do 2 (step; match goal with |- (if ?b then _ else _) = _ -> _ => destruct b end; [|by intros [= <- <-]]). step.
  destruct (String.eqb (rzp_status p) "failed").
  - step. rewrite bind_run. destruct (depositFailed id v) as [r1 v1] eqn:E. pose proof (depositFailed_keeps id _ _ _ E Hv).
    destruct r1; step; intros [= <- <-]; done.
  - intros [= <- <-]. split; [done|]. split; [done|]. cbn in Hf. destruct (rzp_amount p) as [n|]; [|done].
    destruct (n =? 0)%Z; [done|]. exists n. split; [done|]. change (js_div (inject_Z n) 100) with (rupees n).
    eapply near_weaken; [|apply near_rupees; unfold money; lia]. unfold Qle; simpl; lia.
Qed.
Lemma verifyVendorDepositPayment_keeps mock vid oid pid sg u chk f v r v' : deposits_ok v -> collected_ok f ->
  verifyVendorDepositPayment env mock vid oid pid sg u chk f v = (r, v') -> deposits_ok v'.
Proof.
  intros Hv Hf. unfold verifyVendorDepositPayment. step. destruct (negb _); [|by intros [= <- <-]]. step.
  destruct (findDeposit vid v) as [[id d]|] eqn:Efd; [|by intros [= <- <-]]. apply findDeposit_in in Efd as [Hd _].
  destruct (_ || _); [by intros [= <- <-]|]. rewrite bind_run.
  match goal with |- context [let (r, s') := ?m v in _] => destruct (m v) as [r1 v1] eqn:Es end.
  assert (deposits_ok v1 /\ (is_Ok r1 = true -> v1 = v)) as [Hv1 Hok].
  { revert Es. destruct (_ && _); [by intros [= <- <-]|]. destruct chk; [by intros [= <- <-]| |by intros [= <- <-]].
    rewrite bind_run. destruct (depositFailed id v) as [r2 v2] eqn:E. pose proof (depositFailed_keeps id _ _ _ E Hv).
    destruct r2; intros [= <- <-]; done. }
  destruct r1; [|by intros [= <- <-]]. rewrite (Hok eq_refl) in *. clear Hok Hv1. rewrite bind_run.
  destruct (authoritativeAmount id oid d _ v) as [r2 v2] eqn:Ea.
  apply authoritativeAmount_run in Ea as [Hv2 Ha]; [|done|done|by destruct mock].
  destruct r2 as [amt|e]; [|by intros [= <- <-]]. destruct Ha as (-> & q & Hq & Nq). by eapply creditVerified_keeps.
Qed.

Lemma transaction_but_keeps {A} (m : M VendorDeposits A) v r v' : deposits_ok v ->
  (forall r1 v1, m v = (r1, v1) -> forall p, p ∈ vds_policies v1 -> column_ok (vdp_amount p)) ->
  (forall a v1, m v = (Ok a, v1) -> deposits_ok v1) ->
  transaction_but vds_policies with_policies m v = (r, v') -> deposits_ok v'.
Proof.
  intros Hv Hp Hm. unfold transaction_but. destruct (m v) as [[a|e] v1]; intros [= <- <-]; [eauto|].
  destruct Hv as [H1 H2 H3 H4]. split; try done. cbn. by apply (Hp (Throw e)).
Qed.
(** A debit of [amount] from the deposit as it was read. *)
Lemma debit_keeps {A} id d f amount q after paid t ref key (K : VendorSecurityDeposit -> VendorDepositLedgerEntry -> M VendorDeposits A) v r v' v0 p :
  deposits_ok v -> vds_deposits v !! id = Some d -> (0 <= p <= 10 ^ 10)%Z -> vsd_paidAmount d == inject_Z p / 100 ->
  (0 <= q <= p)%Z -> near amount q (1 # 8000) -> near after (p - q) (1 # 4000) -> column after v0 = (Ok paid, v0) ->
  vsd_paidAmount (f d) = paid -> column_ok (vsd_requiredAmount (f d)) -> (forall u e, preserves deposits_ok (K u e)) ->
  (u ← updateDeposit id f; e ← writeEntry id amount DIR_DEBIT (rupees p) after t ref key; K u e) v = (Ok r, v') ->
  deposits_ok v'.
Proof.
  intros Hv Hd Hp Ep Hq Hn Na Hc Hpf Hrf HK H. destruct (money_sum p q Hp ltac:(lia)) as (Mq & _ & Mpq).
  eapply column_near in Hc as (_ & Ec & Hb); [|exact Mpq|exact Na|unfold Qle; simpl; lia].
  eapply (post_ok id d f amount DIR_DEBIT _ _ t ref key K v r v' q p (p - q) (1 # 4000)); try done.
  - by apply money_column.
  - eapply near_weaken; [|exact Hn]. unfold Qle; simpl; lia.
  - eapply near_weaken; [|by apply near_rupees, money_column]. unfold Qle; simpl; lia.
  - rewrite Hpf. eapply column_ok_of; [exact Ec|lia|done].
  - by rewrite Hpf.
Qed.
Lemma near_rupees_sub p q : (0 <= p <= 10 ^ 10)%Z -> (0 <= q <= 10 ^ 12)%Z -> near (js_sub (rupees p) (rupees q)) (p - q) (1 # 4000).
Proof.
  intros Hp Hq. destruct (money_sum p q Hp Hq) as (Mq & _ & Mpq).
  eapply near_weaken; [|eapply near_sub; [exact Mpq| |by apply near_rupees, money_column|by apply near_rupees]]; unfold Qle; simpl; lia.
Qed.
Lemma near_rupees_8 q : money q -> near (rupees q) q (1 # 8000).
Proof. intros H. eapply near_weaken; [|by apply near_rupees]. unfold Qle; simpl; lia. Qed.

Lemma depositOrNew_run vid v r v' : deposits_ok v -> depositOrNew env vid v = (r, v') ->
  deposits_ok v' /\ match r with Ok (id, d) => vds_deposits v' !! id = Some d | Throw _ => True end.
Proof.
  intros Hv. unfold depositOrNew. step. destruct (findDeposit vid v) as [[id d]|] eqn:Ef.
  { intros [= <- <-]. split; [done|]. by apply findDeposit_in in Ef as [? _]. }
  rewrite bind_run. destruct (getActivePolicy env v) as [r2 v2] eqn:Ep.
  apply getActivePolicy_run in Ep as (Hv2 & _ & _ & Hp); [|done..]. destruct r2 as [p|e]; [|by intros [= <- <-]].
  rewrite bind_run. destruct (column _ v2) as [[a|e] v3] eqn:Ec.
  2: { intros [= <- <-]. split; [|done]. exact (ok_column _ _ _ _ Ec Hv2). }
  apply column_nonneg in Ec as [-> Hok]; [|destruct (vdp_isRequired p); done]. rewrite bind_run.
  destruct (createDeposit _ _ v2) as [r3 v4] eqn:Ecr. apply createDeposit_run in Ecr as [Hv4 Hl]; [|done..].
  destruct r3; [|by intros [= <- <-]]. step. intros [= <- <-]. split; [done|by apply Hl].
Qed.
(** Only the policies survive of a payment that failed. *)
Definition policies_ok (v : VendorDeposits) : Prop := forall p, p ∈ vds_policies v -> column_ok (vdp_amount p).
Lemma policies_update id f : preserves policies_ok (updateDeposit id f).
Proof.
  apply preserves_get. intros v r v' Hv H. destruct (vds_deposits v !! id); step_in H; by injection H as <- <-.
Qed.
Lemma policies_column x : preserves policies_ok (column x).
Proof. intros v r v' H Hv. unfold column in H. step_in H. case_match; by injection H as <- <-. Qed.
Lemma policies_write id amount dir before after t ref key : preserves policies_ok (writeEntry id amount dir before after t ref key).
Proof.
  do 3 (apply preserves_bind; [apply policies_column|intros]). apply preserves_get. intros v r v' Hv H. step_in H.
  match type of H with (if ?b then _ else _) = _ => destruct b end; step_in H; by injection H as <- <-.
Qed.
Lemma policies_approve id st : preserves policies_ok (approveIfPaid id st).
Proof.
  unfold approveIfPaid. destruct (decide _); [|apply preserves_ret]. apply preserves_get. intros v r v' Hv.
  destruct (vds_requirement v); by intros [= <- <-].
Qed.
Lemma policies_audit u a e : preserves policies_ok (depositAudit u a e).
Proof. by apply preserves_modify. Qed.
#[local] Hint Resolve policies_update policies_column policies_write policies_approve policies_audit : preserves.
Lemma recordPayment_keeps vid q ref key u v r v' : (0 <= q <= 10 ^ 12)%Z -> deposits_ok v ->
  recordPayment env vid (rupees q) ref key u v = (r, v') -> deposits_ok v'.
Proof.
  intros Hq Hv. unfold recordPayment. step. destruct (negb _); [|by intros [= <- <-]].
  match goal with |- transaction_but _ _ ?m v = _ -> _ => set (body := m) end.
  assert (forall r1 v1, body v = (r1, v1) -> policies_ok v1 /\ (is_Ok r1 = true -> deposits_ok v1)) as Hbody.
  { intros r1 v1. unfold body. step. destruct (_ ≫= _) as [e|]; [step; intros [= <- <-]; split; [exact (dk_policy _ Hv)|done]|].
    rewrite bind_run. destruct (depositOrNew env vid v) as [r2 v2] eqn:Ef.
    apply depositOrNew_run in Ef as [Hv2 Hd]; [|done]. destruct r2 as [[id d]|e]; [|intros [= <- <-]; split; [exact (dk_policy _ Hv2)|done]].
    cbv zeta. intros H. split.
    - refine ((_ : preserves policies_ok _) v2 r1 v1 H (dk_policy _ Hv2)). do 6 (apply preserves_bind; [auto 2 with preserves|intros]). auto 8 with preserves.
    - intros Hok. destruct r1 as [a|]; [|done]. clear Hok. step_in H. do 2 (case_match; [step_in H|done]).
      apply bind_Ok in H as (paid & v3 & Hc & H). apply column_Ok_same in Hc as [-> Hc].
      apply bind_Ok in H as (rem & v3 & Hc' & H). apply column_Ok_same in Hc' as [-> Hc'].
      eapply (credit_keeps id d _ (rupees q) q paid); [exact Hv2|exact Hd|exact Hq| |apply (Hc v2)| | | |exact H]; [|done|done|].
      + apply near_rupees_8. unfold money. lia.
      + intros u0 e. cbv beta. auto 8 with preserves. }
  intros H. eapply transaction_but_keeps; [exact Hv| | |exact H].
  - intros r1 v1 E. exact (proj1 (Hbody _ _ E)).
  - intros a v1 E. exact (proj2 (Hbody _ _ E) eq_refl).
Qed.
Lemma holdVendorDeposit_keeps vid u v r v' : deposits_ok v -> holdVendorDeposit env vid u v = (r, v') -> deposits_ok v'.
Proof.
  intros Hv. unfold holdVendorDeposit. rewrite bind_run. destruct (getDeposit env vid v) as [r1 v1] eqn:E.
  apply getDeposit_run in E as [Hv1 _]; [|done..]. destruct r1 as [[id d]|]; [|by intros [= <- <-]].
  intros H. refine (_ v1 r v' H Hv1). apply preserves_bind; [apply preserves_require|intros []].
  apply preserves_bind; [by apply ok_update_quiet|intros]. auto 8 with preserves.
Qed.
Lemma setVendorExemption_keeps vid b u v r v' : deposits_ok v -> setVendorExemption env vid b u v = (r, v') -> deposits_ok v'.
Proof.
  intros Hv. unfold setVendorExemption. step. case_bool_decide; [|by intros [= <- <-]]. rewrite bind_run.
  destruct (getDeposit env vid v) as [r1 v1] eqn:E.
  apply getDeposit_run in E as [Hv1 _]; [|done..]. destruct r1 as [[id d]|]; [|by intros [= <- <-]].
  intros Hrun. refine (_ v1 r v' Hrun Hv1). apply preserves_transaction, preserves_bind; [by apply ok_update_quiet|intros].
  auto 8 with preserves.
Qed.
Lemma createDepositPaymentOrder_keeps vid o v r v' : deposits_ok v -> createDepositPaymentOrder env vid o v = (r, v') -> deposits_ok v'.
Proof.
  intros Hv. unfold createDepositPaymentOrder. rewrite bind_run. destruct (getActivePolicy env v) as [r0 v0] eqn:E0.
  apply getActivePolicy_run in E0 as (Hv0 & _); [|done..]. destruct r0 as [p|]; [|by intros [= <- <-]].
  rewrite bind_run. destruct (getDeposit env vid v0) as [r1 v1] eqn:E.
  apply getDeposit_run in E as [Hv1 _]; [|done..]. destruct r1 as [[id d]|]; [|by intros [= <- <-]].
  intros H. refine (_ v1 r v' H Hv1).
  apply preserves_bind; [apply preserves_require|intros []]. apply preserves_bind; [apply preserves_require|intros []].
  apply preserves_bind; [apply preserves_require|intros []]. apply preserves_bind; [apply preserves_from_option_or|intros oid].
  apply preserves_bind; [apply preserves_read|intros v2]. apply preserves_bind; [apply preserves_require|intros []].
  apply preserves_bind; [by apply ok_update_quiet|intros; apply preserves_ret].
Qed.
Lemma updatePolicy_keeps b amount rp pp u v r v' : deposits_ok v -> updatePolicy b amount rp pp u v = (r, v') -> deposits_ok v'.
Proof.
  intros Hv. unfold updatePolicy. step. destruct (negb (js_lt amount 0)) eqn:Ea; [|by intros [= <- <-]].
  apply transaction_keeps; [done|]. intros a v1. step. rewrite bind_run. destruct (column amount v) as [[q|e] v2] eqn:Ec; [|done].
  apply column_nonneg in Ec as [-> Hok].
  2: { unfold js_lt in Ea. rewrite negb_involutive in Ea. by apply Qle_bool_iff. }
  step. intros H. refine ((_ : preserves deposits_ok _) _ _ _ H _); [by auto 8 with preserves|].
  destruct Hv as [H1 H2 H3 H4]. split; try done. cbn. intros p [Hp| ->%list_elem_of_singleton]%elem_of_app; [|done].
  apply list_elem_of_fmap in Hp as (p0 & -> & Hp0). exact (H4 _ Hp0).
Qed.
Lemma releaseTx_keeps id d ref key u v r v' : deposits_ok v -> vds_deposits v !! id = Some d ->
  releaseTx id (depositView d) ref key u v = (r, v') -> deposits_ok v'.
Proof.
  intros Hv Hd. destruct (paid_paise id d v Hv Hd) as (p & Hp & Ep & Er & Np).
  unfold releaseTx. cbv zeta. apply transaction_keeps; [done|].
  set (body := mbind _ (column _)). assert (forall a v1, body v = (Ok a, v1) -> deposits_ok v1) as Hbody.
  { intros a v1 H. unfold body in H. cbn [depositView deposit_set vsd_status vsd_paidAmount vsd_remainingAmount vsd_requiredAmount] in H.
    rewrite Er in H. apply bind_Ok in H as (paid & v2 & Hc & H). apply column_Ok_same in Hc as [-> Hc].
    apply bind_Ok in H as (rem & v2 & Hc' & H). apply column_Ok_same in Hc' as [-> _].
    case_bool_decide.
    - eapply (debit_keeps id d _ 0 0 (rupees p) paid); [exact Hv|exact Hd|exact Hp|exact Ep|lia| | |apply (Hc v)| | | |exact H]; [| |done| |].
      + change 0 with (rupees 0) at 1. by apply near_rupees_8.
      + rewrite Z.sub_0_r. eapply near_weaken; [|exact Np]. unfold Qle; simpl; lia.
      + apply (dk_deposit v Hv _ _ Hd).
      + intros u0 e. cbv beta. auto 8 with preserves.
    - eapply (debit_keeps id d _ (rupees p) p 0 paid); [exact Hv|exact Hd|exact Hp|exact Ep|lia| | |apply (Hc v)| | | |exact H]; [| |done| |].
      + by apply near_rupees_8, money_column.
      + rewrite Z.sub_diag. change 0 with (rupees 0) at 1. eapply near_weaken; [|by apply near_rupees_8]. unfold Qle; simpl; lia.
      + apply (dk_deposit v Hv _ _ Hd).
      + intros u0 e. cbv beta. auto 8 with preserves. }
  intros a v1. destruct (truthy (Some key)); [by apply unlessKeyed_keeps|apply Hbody].
Qed.
Lemma releaseDeposit_keeps vid ref key u v r v' : deposits_ok v -> releaseDeposit env vid ref key u v = (r, v') -> deposits_ok v'.
Proof.
  intros Hv. unfold releaseDeposit. rewrite bind_run. destruct (getDeposit env vid v) as [r1 v1] eqn:E.
  apply getDeposit_run in E as [Hv1 Hd]; [|done..]. destruct r1 as [[id d]|]; [|by intros [= <- <-]].
  destruct Hd as (d0 & Hd0 & ->). step. case_bool_decide; [|by intros [= <- <-]]. by apply releaseTx_keeps.
Qed.
(** What is taken by a refund or a forfeiture is between nothing and all. *)
Lemma amountOr_paise amount p : (0 <= p <= 10 ^ 10)%Z -> (forall q, amount = Some q -> (0 <= q <= 10 ^ 12)%Z) ->
  js_lt (rupees p) (amountOr (rupees <$> amount) (rupees p)) = false ->
  exists q, amountOr (rupees <$> amount) (rupees p) = rupees q /\ (0 <= q <= p)%Z.
Proof.
  intros Hp Ha. unfold amountOr. destruct amount as [q|]; cbn; [|intros _; exists p; split; [done|lia]].
  destruct (nonzero (rupees q)); [|intros _; exists p; split; [done|lia]]. intros Hlt. exists q. split; [done|]. specialize (Ha q eq_refl). split; [lia|].
  apply rupees_le; [by apply money_column|unfold money; lia|]. unfold js_lt in Hlt. apply negb_false_iff in Hlt. by apply Qle_bool_iff.
Qed.
Lemma refundTx_keeps id d p q ref key u v r v' : deposits_ok v -> vds_deposits v !! id = Some d -> rnd (vsd_paidAmount d) = rupees p ->
  vsd_paidAmount d == inject_Z p / 100 -> (0 <= p <= 10 ^ 10)%Z -> (0 <= q <= p)%Z ->
  refundTx id (depositView d) (rupees q) ref key u v = (r, v') -> deposits_ok v'.
Proof.
  intros Hv Hd Er Ep Hp Hq. unfold refundTx. apply transaction_keeps; [done|]. intros a v1. apply unlessKeyed_keeps; [done|].
  intros a1 v2 H. cbv zeta in H. cbn [depositView deposit_set vsd_paidAmount vsd_requiredAmount] in H. rewrite Er in H.
  apply bind_Ok in H as (paid & v3 & Hc & H). apply column_Ok_same in Hc as [-> Hc].
  apply bind_Ok in H as (rem & v3 & Hc' & H). apply column_Ok_same in Hc' as [-> _].
  eapply (debit_keeps id d _ (rupees q) q (js_sub (rupees p) (rupees q)) paid); [exact Hv|exact Hd|exact Hp|exact Ep|exact Hq| | |apply (Hc v)| | | |exact H]; [| |done| |].
  - apply near_rupees_8. unfold money. lia.
  - apply near_rupees_sub; lia.
  - apply (dk_deposit v Hv _ _ Hd).
  - intros u0 e. cbv beta. auto 8 with preserves.
Qed.
Lemma forfeitTx_keeps id d p q ref key u v r v' : deposits_ok v -> vds_deposits v !! id = Some d -> rnd (vsd_paidAmount d) = rupees p ->
  vsd_paidAmount d == inject_Z p / 100 -> (0 <= p <= 10 ^ 10)%Z -> (0 <= q <= p)%Z ->
  forfeitTx id (depositView d) (rupees q) ref key u v = (r, v') -> deposits_ok v'.
Proof.
  intros Hv Hd Er Ep Hp Hq. unfold forfeitTx. apply transaction_keeps; [done|]. intros a v1. apply unlessKeyed_keeps; [done|].
  intros a1 v2 H. cbv zeta in H. cbn [depositView deposit_set vsd_paidAmount vsd_requiredAmount] in H. rewrite Er in H.
  apply bind_Ok in H as (paid & v3 & Hc & H). apply column_Ok_same in Hc as [-> Hc].
  eapply (debit_keeps id d _ (rupees q) q (js_sub (rupees p) (rupees q)) paid); [exact Hv|exact Hd|exact Hp|exact Ep|exact Hq| | |apply (Hc v)| | | |exact H]; [| |done| |].
  - apply near_rupees_8. unfold money. lia.
  - apply near_rupees_sub; lia.
  - apply (dk_deposit v Hv _ _ Hd).
  - intros u0 e. cbv beta. auto 8 with preserves.
Qed.
Lemma refundDeposit_keeps vid amount ref key u v r v' : (forall q, amount = Some q -> (0 <= q <= 10 ^ 12)%Z) -> deposits_ok v ->
  refundDeposit env vid (rupees <$> amount) ref key u v = (r, v') -> deposits_ok v'.
Proof.
  intros Ha Hv. unfold refundDeposit. rewrite bind_run. destruct (getDeposit env vid v) as [r1 v1] eqn:E.
  apply getDeposit_run in E as [Hv1 Hd]; [|done..]. destruct r1 as [[id d]|]; [|by intros [= <- <-]].
  destruct Hd as (d0 & Hd0 & ->). destruct (paid_paise id d0 v1 Hv1 Hd0) as (p & Hp & Ep & Er & _).
  change (vsd_paidAmount (depositView d0)) with (rnd (vsd_paidAmount d0)). rewrite Er.
  step. destruct (negb (js_le _ 0)); [|by intros [= <- <-]]. step. destruct (js_lt _ _) eqn:El; [by intros [= <- <-]|].
  apply amountOr_paise in El as (q & -> & Hq); [|done..]. by eapply refundTx_keeps.
Qed.
Lemma forfeitDeposit_keeps vid amount ref key u v r v' : (forall q, amount = Some q -> (0 <= q <= 10 ^ 12)%Z) -> deposits_ok v ->
  forfeitDeposit env vid (rupees <$> amount) ref key u v = (r, v') -> deposits_ok v'.
Proof.
  intros Ha Hv. unfold forfeitDeposit. rewrite bind_run. destruct (getDeposit env vid v) as [r1 v1] eqn:E.
  apply getDeposit_run in E as [Hv1 Hd]; [|done..]. destruct r1 as [[id d]|]; [|by intros [= <- <-]].
  destruct Hd as (d0 & Hd0 & ->). destruct (paid_paise id d0 v1 Hv1 Hd0) as (p & Hp & Ep & Er & _).
  change (vsd_paidAmount (depositView d0)) with (rnd (vsd_paidAmount d0)). rewrite Er.
  step. destruct (negb (js_le _ 0)); [|by intros [= <- <-]]. step. destruct (js_lt _ _) eqn:El; [by intros [= <- <-]|].
  apply amountOr_paise in El as (q & -> & Hq); [|done..]. by eapply forfeitTx_keeps.
Qed.
Lemma near_rupees_abs q : money q -> near (Qabs (rupees q)) (Z.abs q) (1 # 8000).
Proof.
  intros H. assert (inject_Z (Z.abs q) / 100 == Qabs (inject_Z q / 100)) as E.
  { destruct (Z.le_gt_cases 0 q) as [Hq|Hq].
    - rewrite Z.abs_eq by done. symmetry. apply Qabs_pos. apply Qle_shift_div_l; [done|]. rewrite Qmult_0_l.
      change 0 with (inject_Z 0). by rewrite <- Zle_Qle.
    - rewrite Z.abs_neq by lia. rewrite Qabs_neg, inject_Z_opp; [field|]. apply Qle_shift_div_r; [done|]. rewrite Qmult_0_l.
      change 0 with (inject_Z 0). rewrite <- Zle_Qle. lia. }
  unfold near. rewrite E. eapply Qle_trans; [apply Qabs_Qle_condition|apply (near_rupees_8 q H)].
  pose proof (Qabs_triangle_reverse (rupees q) (inject_Z q / 100)) as H1.
  pose proof (Qabs_triangle_reverse (inject_Z q / 100) (rupees q)) as H2.
  rewrite (Qabs_Qminus (inject_Z q / 100)) in H2. lra.
Qed.
Lemma adjustTx_keeps id d q dir newr ref key u v r v' : (Z.abs q <= 10 ^ 12)%Z -> deposits_ok v -> vds_deposits v !! id = Some d ->
  adjustTx env id (depositView d) (rupees q) dir newr ref key u v = (r, v') -> deposits_ok v'.
Proof.
  intros Hq Hv Hd. destruct (paid_paise id d v Hv Hd) as (p & Hp & Ep & Er & Np). unfold adjustTx. cbv zeta.
  apply transaction_keeps; [done|]. match goal with |- context [unlessKeyed _ _ ?m] => set (body := m) end.
  assert (forall a v1, body v = (Ok a, v1) -> deposits_ok v1) as Hbody.
  { intros a v1 H. unfold body in H. change (vsd_paidAmount (depositView d)) with (rnd (vsd_paidAmount d)) in H. rewrite Er in H.
    set (isDebit := bool_decide (dir = Some DIR_DEBIT) || js_lt (rupees q) 0) in H.
    set (after := if isDebit then _ else _) in H. set (req := default _ newr) in H.
    assert (near after (if isDebit then p - Z.abs q else p + Z.abs q) (1 # 4000)) as Na.
    { assert (money q) as Mq by (unfold money; lia). unfold after. destruct isDebit.
      - eapply near_weaken; [|eapply near_sub; [| |exact Np|exact (near_rupees_abs q Mq)]]; [unfold Qle; simpl; lia|unfold money; lia|unfold Qle; simpl; lia].
      - eapply near_weaken; [|eapply near_add; [| |exact Np|exact (near_rupees_abs q Mq)]]; [unfold Qle; simpl; lia|unfold money; lia|unfold Qle; simpl; lia]. }
    step_in H. destruct (negb (js_lt after 0)) eqn:Ea; [step_in H|done]. destruct (negb (js_lt req 0)) eqn:Eq; [|done].
    apply bind_Ok in H as (paid & v2 & Hc & H). apply column_Ok_same in Hc as [-> Hc].
    apply bind_Ok in H as (rq & v2 & Hr & H). apply column_nonneg in Hr as [-> Hok]; [|].
    2: { unfold js_lt in Eq. rewrite negb_involutive in Eq. by apply Qle_bool_iff. }
    apply bind_Ok in H as (rem & v2 & Hc' & H). apply column_Ok_same in Hc' as [-> _].
    assert (0 <= (if isDebit then p - Z.abs q else p + Z.abs q))%Z as Hpos.
    { eapply near_nonneg; [exact Na|unfold Qle; simpl; lia|]. unfold js_lt in Ea. rewrite negb_involutive in Ea. by apply Qle_bool_iff. }
    set (n := if isDebit then (p - Z.abs q)%Z else _) in Na, Hpos. assert (money n) as Mn by (unfold n, money; destruct isDebit; lia).
    pose proof (Hc v) as Hcol. eapply column_near in Hcol as (_ & Ec & Hb); [|exact Mn|exact Na|unfold Qle; simpl; lia].
    eapply (post_ok id d _ _ _ _ _ _ _ _ _ v _ v1 (Z.abs q) p n (1 # 4000)); [exact Hv|exact Hd|..|exact H].
    - unfold money. lia.
    - by apply money_column.
    - done.
    - unfold Qle; simpl; lia.
    - eapply near_weaken; [|apply near_rupees_abs; unfold money; lia]. unfold Qle; simpl; lia.
    - eapply near_weaken; [|exact Np]. unfold Qle; simpl; lia.
    - done.
    - done.
    - unfold n. by destruct isDebit.
    - by eapply column_ok_of.
    - done.
    - done.
    - intros u0 e. cbv beta. auto 8 with preserves. }
  intros a v1. destruct (truthy key); [by apply unlessKeyed_keeps|apply Hbody].
Qed.
Lemma adjustDeposit_keeps vid q dir newr ref key reason u v r v' : (Z.abs q <= 10 ^ 12)%Z -> deposits_ok v ->
  adjustDeposit env vid (rupees q) dir newr ref key reason u v = (r, v') -> deposits_ok v'.
Proof.
  intros Hq Hv. unfold adjustDeposit. step. destruct (negb _); [|by intros [= <- <-]].
  rewrite bind_run. destruct (getDeposit env vid v) as [r1 v1] eqn:E.
  apply getDeposit_run in E as [Hv1 Hd]; [|done..]. destruct r1 as [[id d]|]; [|by intros [= <- <-]].
  destruct Hd as (d0 & Hd0 & ->). by apply adjustTx_keeps.
Qed.
End operations.
