(* ===== verification/DepositSafety.v ===== *)
(** * Vendors' deposits over time

    Sequences of operations of VendorDeposits.v: the ledger of every state
    they reach accounts for the balances, one key moves money once, and what
    a refused verification leaves behind. *)
From S2P Require Import Prelude JsNumber Decimal Schema PaymentRefund BookingStore DepositStore Payments PaymentWebhook VendorDeposits DepositLedger.
From stdpp Require Import pretty.
Open Scope Z_scope.
Open Scope Q_scope.

(** ** Operations and steps *)
Inductive DepositOp : Type :=
  | OpPolicy (isRequired : option bool) (amount : Q) (refundPolicy paymentProvider : option string) (adminUserId : string)
  | OpSummary (vendorId : string)
  | OpExempt (vendorId : string) (isExempt : bool) (adminUserId : string)
  | OpOrder (vendorId : string) (order : option string)
  | OpVerify (useMock : bool) (vendorId orderId paymentId signature userId : string) (check : SignatureCheck)
      (fetched : option FetchedPayment)
  | OpRecord (vendorId : string) (paise : Z) (reference key actorId : string)
  | OpHold (vendorId adminUserId : string)
  | OpRelease (vendorId reference key adminUserId : string)
  | OpRefund (vendorId : string) (paise : option Z) (reference key adminUserId : string)
  | OpForfeit (vendorId : string) (paise : option Z) (reference key adminUserId : string)
  | OpAdjust (vendorId : string) (paise : Z) (direction : option LedgerDirection) (newRequired : option Q)
      (reference key : option string) (reason adminUserId : string).

Definition tells {A} (m : M VendorDeposits A) : M VendorDeposits unit := m ;; mret tt.
Section operations.
Context {col : NumericColumn} {num : DecimalNumbers}.
Definition runDeposit (env : DepositEnv) (op : DepositOp) : M VendorDeposits unit :=
  match op with
  | OpPolicy b amount rp pp u => tells (updatePolicy b amount rp pp u)
  | OpSummary vid => tells (getDepositSummary env vid)
  | OpExempt vid b u => tells (setVendorExemption env vid b u)
  | OpOrder vid order => tells (createDepositPaymentOrder env vid order)
  | OpVerify mock vid oid pid sig u check f => tells (verifyVendorDepositPayment env mock vid oid pid sig u check f)
  | OpRecord vid q ref key u => tells (recordPayment env vid (rupees q) ref key u)
  | OpHold vid u => tells (holdVendorDeposit env vid u)
  | OpRelease vid ref key u => tells (releaseDeposit env vid ref key u)
  | OpRefund vid q ref key u => tells (refundDeposit env vid (rupees <$> q) ref key u)
  | OpForfeit vid q ref key u => tells (forfeitDeposit env vid (rupees <$> q) ref key u)
  | OpAdjust vid q dir newr ref key reason u => tells (adjustDeposit env vid (rupees q) dir newr ref key reason u)
  end.
(** Amounts are whole paise of at most ten thousand million rupees. *)
Definition amountsOk (op : DepositOp) : Prop :=
  match op with
  | OpVerify _ _ _ _ _ _ _ f => collected_ok f
  | OpRecord _ q _ _ _ => (0 <= q <= 10 ^ 12)%Z
  | OpRefund _ (Some q) _ _ _ | OpForfeit _ (Some q) _ _ _ => (0 <= q <= 10 ^ 12)%Z
  | OpAdjust _ q _ _ _ _ _ _ => (Z.abs q <= 10 ^ 12)%Z
  | _ => True
  end.
(** The webhook of Payments.v on the payment of a deposit, and the deposits
    whose ledger it continues: those with nothing paid in, under a payment
    that has no entry yet. *)
Definition webhookDeposit (orderId paymentId : string) : M VendorDeposits unit :=
  v ← get;
  match findVendorDeposit orderId paymentId v with
  | Some (id, d) => when (negb (bool_decide (vsd_status d = VD_PAID))) (transaction (settleVendorDeposit id orderId paymentId d))
  | None => mret tt
  end.
Definition firstCapture (orderId paymentId : string) (v : VendorDeposits) : Prop :=
  forall id d, findVendorDeposit orderId paymentId v = Some (id, d) -> vsd_status d <> VD_PAID ->
    vsd_paidAmount d == 0 /\ forall e, e ∈ vds_ledger v -> vde_reference e <> paymentId.
Inductive deposit_step : VendorDeposits -> VendorDeposits -> Prop :=
  | deposit_step_run env op v r v' : rules_ok env -> amountsOk op -> runDeposit env op v = (r, v') -> deposit_step v v'
  | deposit_step_webhook orderId paymentId v r v' : firstCapture orderId paymentId v ->
      webhookDeposit orderId paymentId v = (r, v') -> deposit_step v v'.
Definition noDeposits (v : VendorDeposits) : Prop := vds_deposits v = ∅ /\ vds_ledger v = [] /\ vds_policies v = [].

Lemma tells_keeps {A} (m : M VendorDeposits A) v r v' : deposits_ok v -> (forall r1 v1, m v = (r1, v1) -> deposits_ok v1) ->
  tells m v = (r, v') -> deposits_ok v'.
Proof.
  intros Hv Hm. unfold tells. rewrite bind_run. destruct (m v) as [[a|e] v1]; [step|]; intros [= <- <-]; eauto.
Qed.
Lemma getDepositSummary_keeps env vid v r v' : rules_ok env -> deposits_ok v -> getDepositSummary env vid v = (r, v') -> deposits_ok v'.
Proof.
  intros Hr Hv. unfold getDepositSummary. rewrite bind_run. destruct (getActivePolicy env v) as [r0 v0] eqn:E0.
  apply getActivePolicy_run in E0 as (Hv0 & _); [|done..]. destruct r0 as [p|]; [|by intros [= <- <-]].
  rewrite bind_run. destruct (getDeposit env vid v0) as [r1 v1] eqn:E.
  apply getDeposit_run in E as [Hv1 _]; [|done..]. destruct r1 as [[id d]|]; by intros [= <- <-].
Qed.
Lemma store_rnd_column q : column_ok q -> store (rnd q) == q.
Proof.
  intros (p & Hb & Hp)%column_ok_paise. rewrite (rnd_column p q Hp).
  pose proof (near_rupees p (money_column p Hb)) as Hn. unfold near in Hn.
  pose proof (store_err (rupees p)) as He. apply Qabs_Qle_condition in Hn as [N1 N2], He as [E1 E2].
  rewrite Hp. apply (whole_paise_close); [apply store_whole|by exists p|]. apply Qabs_Qlt_condition. split; lra.
Qed.
Lemma webhookDeposit_keeps oid pid v r v' : firstCapture oid pid v -> deposits_ok v -> webhookDeposit oid pid v = (r, v') ->
  deposits_ok v'.
Proof.
  intros Hf Hv. unfold webhookDeposit. step. destruct (findVendorDeposit oid pid v) as [[id d]|] eqn:Ef; [|by intros [= <- <-]].
  case_bool_decide as Hst; [by intros [= <- <-]|]. destruct (Hf id d Ef Hst) as [Hz Href]. cbn [negb when].
  apply List.find_some in Ef as [Hd%list_elem_of_In _]. apply elem_of_map_to_list in Hd.
  destruct (dk_deposit v Hv id d Hd) as (_ & _ & Hreq). apply transaction_keeps; [done|]. intros a v1 H.
  apply bind_Ok in H as (d' & v2 & Hu & H). apply updateDeposit_run in Hu as (d0 & Hd0 & -> & ->). simplify_eq.
  step_in H. change (vds_ledger (with_deposits _ v)) with (vds_ledger v) in H.
  assert (existsb (fun e => String.eqb (vde_reference e) pid) (vds_ledger v) = false) as Hno.
  { apply not_true_iff_false. intros (e & He%list_elem_of_In & Heq%String.eqb_eq)%existsb_exists. by apply (Href e). }
  rewrite Hno in H. cbn [negb when] in H. apply bind_Ok in H as (e & v3 & He & H).
  apply createDepositEntry_run in He as (_ & Ev & Hk). subst v3. step_in H.
  apply (ok_upsert _ _ _ _ _ H). pose proof (store_rnd_column _ Hreq) as Es.
  assert (store (rnd (vsd_paidAmount d)) == 0) as Ez.
  { rewrite <- Hz. apply store_rnd_column. by apply (dk_deposit v Hv id d). }
  eapply deposits_ok_post; try done; cbn.
  - split_and!; [by rewrite Es; apply Hreq|rewrite Es; apply Hreq|rewrite Es; apply Hreq].
  - by rewrite Ez, Hz.
  - unfold entrySigned. cbn. rewrite Hz. ring.
Qed.
Lemma step_keeps v v' : deposit_step v v' -> deposits_ok v -> deposits_ok v'.
Proof.
  intros [env op v0 r v1 Hr Ha H|oid pid v0 r v1 Hf H] Hv; [|by eapply webhookDeposit_keeps]. destruct op; cbn [runDeposit amountsOk] in *; (eapply tells_keeps; [exact Hv| |exact H]; intros r1 v2 E).
  - by eapply updatePolicy_keeps.
  - by eapply getDepositSummary_keeps.
  - by eapply setVendorExemption_keeps.
  - by eapply createDepositPaymentOrder_keeps.
  - by eapply verifyVendorDepositPayment_keeps.
  - by eapply recordPayment_keeps.
  - by eapply holdVendorDeposit_keeps.
  - by eapply releaseDeposit_keeps.
  - eapply refundDeposit_keeps; [done| |done..]. by intros q ->.
  - eapply forfeitDeposit_keeps; [done| |done..]. by intros q ->.
  - by eapply adjustDeposit_keeps.
Qed.
Lemma noDeposits_ok v : noDeposits v -> deposits_ok v.
Proof.
  intros (E1 & E2 & E3). split; rewrite ?E1, ?E2, ?E3.
  - intros id d. by rewrite lookup_empty.
  - by intros e ?%elem_of_nil.
  - constructor.
  - by intros p ?%elem_of_nil.
Qed.
Lemma reachable_ok v0 v : noDeposits v0 -> rtc deposit_step v0 v -> deposits_ok v.
Proof. intros H0 Hr. apply (rtc_invariant _ _ _ _ step_keeps Hr). by apply noDeposits_ok. Qed.
End operations.

(** ** What is written to the ledger *)
Definition keysOf (v : VendorDeposits) : list string := map vde_idempotencyKey (vds_ledger v).
(** One entry under [key] at most, and never under a key that was used. *)
Definition posts {A} (key : option string) (m : M VendorDeposits A) : Prop := forall v r v', m v = (r, v') ->
  (vds_ledger v' = vds_ledger v) \/
  (exists e, vds_ledger v' = vds_ledger v ++ [e] /\ ~ In (vde_idempotencyKey e) (keysOf v) /\ (forall k, key = Some k -> vde_idempotencyKey e = k)).

Section posting.
Context {A : Type}.
Implicit Types m : M VendorDeposits A.
Lemma posts_silent m key : keeps vds_ledger m -> posts key m.
Proof. intros H v r v' E. left. by eapply keeps_eq. Qed.
Lemma posts_after {B} (n : M VendorDeposits B) (k : B -> M VendorDeposits A) key :
  keeps vds_ledger n -> (forall b, posts key (k b)) -> posts key (n ≫= k).
Proof.
  intros Hn Hk v r v' H. rewrite bind_run in H. destruct (n v) as [[b|e] v1] eqn:E; pose proof (keeps_eq _ _ _ _ _ Hn E) as El.
  - apply Hk in H. unfold keysOf in *. by rewrite El in H.
  - injection H as <- <-. by left.
Qed.
Lemma posts_before {B} (n : M VendorDeposits B) (k : B -> M VendorDeposits A) key :
  posts key n -> (forall b, keeps vds_ledger (k b)) -> posts key (n ≫= k).
Proof.
  intros Hn Hk v r v' H. rewrite bind_run in H. destruct (n v) as [[b|e] v1] eqn:E; apply Hn in E.
  - by rewrite (keeps_eq _ _ _ _ _ (Hk b) H).
  - by injection H as <- <-.
Qed.
Lemma posts_transaction m key : posts key m -> posts key (transaction m).
Proof. intros Hm v r v'. unfold transaction. destruct (m v) as [[a|e] v1] eqn:E; intros [= <- <-]; [by eapply Hm|by left]. Qed.
Lemma posts_transaction_but m key : posts key m -> posts key (transaction_but vds_policies with_policies m).
Proof. intros Hm v r v'. unfold transaction_but. destruct (m v) as [[a|e] v1] eqn:E; intros [= <- <-]; [by eapply Hm|by left]. Qed.
Lemma posts_get (k : VendorDeposits -> M VendorDeposits A) key : (forall v, posts key (k v)) -> posts key (v ← get; k v).
Proof. intros H v r v'. step. apply H. Qed.
Lemma posts_let {B} (b : B) (k : B -> M VendorDeposits A) key : posts key (k b) -> posts key (let x := b in k x).
Proof. done. Qed.
End posting.
Section silence.
Context {col : NumericColumn} {num : DecimalNumbers}.
Lemma silent_update id f : keeps vds_ledger (updateDeposit id f).
Proof.
  intros x. apply preserves_get. intros v r v' Hv H. destruct (vds_deposits v !! id); step_in H; by injection H as <- <-.
Qed.
Lemma silent_column x : keeps vds_ledger (column x).
Proof. intros l v r v' H Hv. unfold column in H. step_in H. case_match; by injection H as <- <-. Qed.
Lemma silent_upsert id st : keeps vds_ledger (upsertRequirement id st).
Proof. intros x. apply preserves_get. intros v r v' Hv. destruct (vds_requirement v); by intros [= <- <-]. Qed.
Lemma silent_requirement id st : keeps vds_ledger (updateRequirement id st).
Proof. intros x. apply preserves_get. intros v r v' Hv. unfold when. case_match; by intros [= <- <-]. Qed.
Lemma silent_approve id st : keeps vds_ledger (approveIfPaid id st).
Proof. unfold approveIfPaid. destruct (decide _); [apply silent_upsert|intros x; apply preserves_ret]. Qed.
Lemma silent_audit u a e : keeps vds_ledger (depositAudit u a e).
Proof. intros x. by apply preserves_modify. Qed.
Lemma silent_policies l : keeps vds_ledger (modify (with_policies l)).
Proof. intros x. by apply preserves_modify. Qed.
Lemma silent_create id d : keeps vds_ledger (createDeposit id d).
Proof.
  intros x. apply preserves_get. intros v r v' Hv. step. case_bool_decide; [|by intros [= <- <-]]. step.
  destruct (negb _); by intros [= <- <-].
Qed.
#[local] Hint Resolve silent_update silent_column silent_upsert silent_requirement silent_approve silent_audit silent_policies silent_create
  preserves_read : preserves.
#[local] Hint Extern 1 (preserves (fun t => vds_ledger t = _) ?m) => first
  [ match goal with H : keeps vds_ledger m |- _ => apply H end | apply silent_update | apply silent_column | apply silent_upsert
  | apply silent_requirement | apply silent_approve | apply silent_audit | apply silent_policies | apply silent_create ] : preserves.
Lemma silent_policy env : keeps vds_ledger (getActivePolicy env).
Proof.
  intros x. apply preserves_bind; [apply preserves_read|intros v]. destruct (newestPolicy _ v); [apply preserves_ret|].
  auto 8 with preserves.
Qed.
Lemma silent_getDeposit env vid : keeps vds_ledger (getDeposit env vid).
Proof.
  intros x. apply preserves_bind; [apply preserves_read|intros v]. destruct (findDeposit _ v) as [[id d]|]; [apply preserves_ret|].
  apply preserves_bind; [apply silent_policy|intros]. auto 8 with preserves.
Qed.
Lemma silent_depositOrNew env vid : keeps vds_ledger (depositOrNew env vid).
Proof.
  intros x. apply preserves_bind; [apply preserves_read|intros v]. destruct (findDeposit _ v) as [[id d]|]; [apply preserves_ret|].
  apply preserves_bind; [apply silent_policy|intros]. auto 8 with preserves.
Qed.
Lemma writeEntry_posts id amount dir before after t ref key :
  posts (Some key) (writeEntry id amount dir before after t ref key).
Proof.
  do 3 (apply posts_after; [apply silent_column|intros]). intros v r v' H.
  destruct r as [e|]; [apply createDepositEntry_run in H as (-> & -> & Hk)|].
  - right. eexists. split_and!; [done|by rewrite <- list_elem_of_In|]. by intros k [= <-].
  - left. revert H. unfold createDepositEntry. step. destruct (negb _); by intros [= <- <-].
Qed.

Ltac silence := intros; intros ?; auto 10 with preserves.
Lemma creditVerified_posts env id d oid pid amount u : posts (Some ("pay_" +:+ pid)) (creditVerified env id d oid pid amount u).
Proof.
  apply posts_transaction. do 2 (apply posts_after; [apply silent_column|intros]). apply posts_get. intros v.
  apply posts_after; [silence|intros]. apply posts_after; [apply silent_update|intros].
  apply posts_before; [apply writeEntry_posts|silence].
Qed.
#[local] Hint Extern 1 (preserves (fun t => vds_ledger t = _) _) => first
  [ apply silent_policy | apply silent_getDeposit | apply silent_depositOrNew ] : preserves.
Lemma silent_failed id : keeps vds_ledger (depositFailed id).
Proof. unfold depositFailed. silence. Qed.
Lemma silent_amount id oid d f : keeps vds_ledger (authoritativeAmount id oid d f).
Proof.
  intros x. unfold authoritativeAmount. cbv zeta. destruct f as [[| |p]|]; try (by auto with preserves).
  do 2 (apply preserves_bind; [apply preserves_require|intros]). apply preserves_bind; [|intros; apply preserves_ret].
  apply preserves_when, preserves_bind; [apply silent_failed|intros; apply preserves_throw].
Qed.
Lemma unlessKeyed_posts k d tx key : posts key tx -> posts key (unlessKeyed k d tx).
Proof. intros H. apply posts_get. intros v. destruct (entryKeyed k v); [apply posts_silent; silence|done]. Qed.
Lemma verify_posts env mock vid oid pid sig u chk f :
  posts (Some ("pay_" +:+ pid)) (verifyVendorDepositPayment env mock vid oid pid sig u chk f).
Proof.
  apply posts_after; [silence|intros _]. apply posts_get. intros v. apply posts_after; [silence|intros [id d]].
  destruct (_ || _); [apply posts_silent; silence|]. apply posts_after.
  { intros x. destruct (_ && _); [apply preserves_ret|]. destruct chk; [apply preserves_ret| |apply preserves_throw].
    apply preserves_bind; [apply silent_failed|intros; apply preserves_throw]. }
  intros _. apply posts_after; [apply silent_amount|intros amount]. apply creditVerified_posts.
Qed.
Lemma record_posts env vid amount ref key u : posts (Some key) (recordPayment env vid amount ref key u).
Proof.
  apply posts_after; [silence|intros _]. apply posts_transaction_but, posts_get. intros v.
  destruct (_ ≫= _); [apply posts_silent; silence|]. apply posts_after; [silence|intros [id d]].
  do 2 (apply posts_after; [silence|intros _]). cbv zeta. do 3 (apply posts_after; [silence|intros]).
  apply posts_before; [apply writeEntry_posts|silence].
Qed.
Lemma releaseTx_posts id d ref key u : posts (Some key) (releaseTx id d ref key u).
Proof.
  apply posts_transaction. match goal with |- context [unlessKeyed _ _ ?m] => assert (posts (Some key) m) as Hb end.
  { do 3 (apply posts_after; [silence|intros]). apply posts_before; [apply writeEntry_posts|silence]. }
  destruct (truthy _); [by apply unlessKeyed_posts|done].
Qed.
Lemma refundTx_posts id d amount ref key u : posts (Some key) (refundTx id d amount ref key u).
Proof.
  apply posts_transaction, unlessKeyed_posts. cbv zeta. do 3 (apply posts_after; [silence|intros]).
  apply posts_before; [apply writeEntry_posts|silence].
Qed.
Lemma forfeitTx_posts id d amount ref key u : posts (Some key) (forfeitTx id d amount ref key u).
Proof.
  apply posts_transaction, unlessKeyed_posts. cbv zeta. do 2 (apply posts_after; [silence|intros]).
  apply posts_before; [apply writeEntry_posts|silence].
Qed.
Lemma adjustTx_posts env id d amount dir newr ref key u : posts (truthy key) (adjustTx env id d amount dir newr ref key u).
Proof.
  apply posts_transaction. match goal with |- context [unlessKeyed _ _ ?m] => assert (posts (truthy key) m) as Hb end.
  { cbv zeta. do 6 (apply posts_after; [silence|intros]). apply posts_before; [|silence].
    intros v r v' H. destruct (writeEntry_posts _ _ _ _ _ _ _ _ _ _ _ H) as [E|(e & E & Hn & Hk)]; [by left|]. right.
    exists e. split_and!; [done|done|]. intros k Ek. rewrite (Hk _ eq_refl). unfold str_or. by rewrite Ek. }
  destruct (truthy key); [by apply unlessKeyed_posts|done].
Qed.
Lemma createEntry_posts e : posts (Some (vde_idempotencyKey e)) (createDepositEntry e).
Proof.
  intros v r v' H. destruct r as [x|].
  - apply createDepositEntry_run in H as (-> & -> & Hk). right. exists e. split_and!; [done|by rewrite <- list_elem_of_In|].
    by intros k [= <-].
  - left. revert H. unfold createDepositEntry. step. destruct (negb _); by intros [= <- <-].
Qed.
Lemma webhook_posts oid pid : posts (Some ("wh_" +:+ pid)) (webhookDeposit oid pid).
Proof.
  apply posts_get. intros v. destruct (findVendorDeposit oid pid v) as [[id d]|]; [|apply posts_silent; silence].
  destruct (negb _); [|apply posts_silent; intros x; apply preserves_ret]. apply posts_transaction. apply posts_after; [apply silent_update|intros _].
  apply posts_get. intros w. apply posts_before; [|silence].
  destruct (negb _); [|apply posts_silent; intros x; apply preserves_ret]. apply posts_before; [apply createEntry_posts|silence].
Qed.
(** The key under which an operation writes. *)
Definition opKey (op : DepositOp) : option string :=
  match op with
  | OpVerify _ _ _ pid _ _ _ _ => Some ("pay_" +:+ pid)
  | OpRecord _ _ _ key _ | OpRelease _ _ key _ | OpRefund _ _ _ key _ | OpForfeit _ _ _ key _ => Some key
  | OpAdjust _ _ _ _ _ key _ _ => truthy key
  | _ => None
  end.
Lemma tells_posts {A} (m : M VendorDeposits A) key : posts key m -> posts key (tells m).
Proof. intros H. apply posts_before; [done|silence]. Qed.
Lemma op_posts env op : posts (opKey op) (runDeposit env op).
Proof.
  destruct op; cbn [opKey runDeposit]; apply tells_posts.
  - apply posts_silent. unfold updatePolicy. silence.
  - apply posts_silent. unfold getDepositSummary. silence.
  - apply posts_silent. intros x. unfold setVendorExemption. apply preserves_bind; [apply preserves_read|intros v].
    apply preserves_bind; [apply preserves_require|intros _]. apply preserves_bind; [apply silent_getDeposit|intros [id d]].
    auto 10 with preserves.
  - apply posts_silent. intros x. apply preserves_bind; [apply silent_policy|intros].
    apply preserves_bind; [apply silent_getDeposit|intros [id d]]. auto 12 with preserves.
  - apply verify_posts.
  - apply record_posts.
  - apply posts_silent. intros x. apply preserves_bind; [apply silent_getDeposit|intros [id d]]. auto 12 with preserves.
  - apply posts_after; [silence|intros [id d]]. apply posts_after; [silence|intros _]. apply releaseTx_posts.
  - apply posts_after; [silence|intros [id d]]. do 2 (apply posts_after; [silence|intros _]). apply refundTx_posts.
  - apply posts_after; [silence|intros [id d]]. do 2 (apply posts_after; [silence|intros _]). apply forfeitTx_posts.
  - apply posts_after; [silence|intros _]. apply posts_after; [silence|intros [id d]]. apply adjustTx_posts.
Qed.
End silence.

(** ** What follows for the platform *)
Section consequences.
Context {col : NumericColumn} {num : DecimalNumbers}.

(** C24. The ledger accounts for every deposit.  From empty tables, after any sequence of operations of the service with amounts of whole paise, one after the other and whatever they return or throw, and of webhooks for deposits into which nothing is paid yet, the ledger entries of a deposit lead from zero to its paid amount, each starting where the one before it ended, moving by its own amount and direction and never below zero; the paid amount is the sum of credits minus debits; every entry belongs to a deposit and no idempotency key is used twice.  ([webhook_skips_ledger] and [webhook_breaks_ledger]: a webhook for a deposit that is partly paid, or whose payment has an entry, breaks the chain.) *)
Theorem deposit_ledger_reconciles v0 v : noDeposits v0 -> rtc deposit_step v0 v ->
  (forall id d, vds_deposits v !! id = Some d ->
    chained (entriesOf id v) (vsd_paidAmount d) /\ vsd_paidAmount d == sum_by entrySigned (entriesOf id v) /\ 0 <= vsd_paidAmount d) /\
  (forall e, e ∈ vds_ledger v -> is_Some (vds_deposits v !! vde_depositId e)) /\
  NoDup (map vde_idempotencyKey (vds_ledger v)).
Proof.
  intros H0 Hr. pose proof (reachable_ok v0 v H0 Hr) as [H1 H2 H3 _]. split_and!; [|done..].
  intros id d Hd. destruct (H1 id d Hd) as (Hc & _ & _). split_and!; [done|by apply chained_total|by eapply chained_nonneg].
Qed.

(** C25. Amounts fit their columns.  In every state reached in the same way the paid and required amounts of all deposits and the amounts of all policies are whole numbers of paise, not negative and below the hundred million rupees the columns can hold.  (The remaining amount is not one of them: [remaining_not_kept].) *)
Theorem deposit_amounts_typed v0 v : noDeposits v0 -> rtc deposit_step v0 v ->
  (forall id d, vds_deposits v !! id = Some d -> column_ok (vsd_paidAmount d) /\ column_ok (vsd_requiredAmount d)) /\
  (forall p, p ∈ vds_policies v -> column_ok (vdp_amount p)).
Proof.
  intros H0 Hr. pose proof (reachable_ok v0 v H0 Hr) as [H1 _ _ H4]. split; [|done]. intros id d Hd. by destruct (H1 id d Hd).
Qed.

Lemma op_step env op v r v' : rules_ok env -> amountsOk op -> runDeposit env op v = (r, v') -> deposit_step v v'.
Proof. apply deposit_step_run. Qed.
Lemma key_stays k v v' : rtc deposit_step v v' -> In k (keysOf v) -> In k (keysOf v').
Proof.
  induction 1 as [|v v1 v2 Hs _ IH]; [done|]. intros Hk. apply IH.
  assert (vds_ledger v1 = vds_ledger v \/ exists e, vds_ledger v1 = vds_ledger v ++ [e]) as Hp.
  { destruct Hs as [env op w r w' _ _ H|oid pid w r w' _ H];
      [destruct (op_posts env op _ _ _ H) as [E|(e & E & _)]|destruct (webhook_posts oid pid _ _ _ H) as [E|(e & E & _)]]; eauto. }
  destruct Hp as [E|[e E]]; unfold keysOf in *; rewrite E; [done|]. rewrite map_app, in_app_iff. by left.
Qed.
Lemma same_entries id v v' : vds_ledger v' = vds_ledger v -> entriesOf id v' = entriesOf id v.
Proof. intros E. unfold entriesOf. by rewrite E. Qed.

(** One key moves money once.  When an operation has written to the ledger, no later operation with the same key (for a verification the payment id, for the others the idempotency key given) writes to it again, whatever ran in between and whichever vendor it names: the ledger stays as it was and so does the balance of every deposit. *)
Theorem deposit_key_moves_once v0 v env op r v1 v2 env' op' r' v3 k :
  noDeposits v0 -> rtc deposit_step v0 v -> rules_ok env -> amountsOk op -> rules_ok env' -> amountsOk op' ->
  opKey op = Some k -> opKey op' = Some k ->
  runDeposit env op v = (r, v1) -> vds_ledger v1 <> vds_ledger v -> rtc deposit_step v1 v2 -> runDeposit env' op' v2 = (r', v3) ->
  vds_ledger v3 = vds_ledger v2 /\
  forall id d d', vds_deposits v2 !! id = Some d -> vds_deposits v3 !! id = Some d' -> vsd_paidAmount d' == vsd_paidAmount d.
Proof.
  intros H0 Hr He Ha He' Ha' Hk Hk' H1 Hne Hr2 H3.
  assert (deposits_ok v1) as Hok1 by (eapply step_keeps; [exact (op_step _ _ _ _ _ He Ha H1)|by apply (reachable_ok v0 v)]).
  pose proof (rtc_invariant _ _ _ _ step_keeps Hr2 Hok1) as Hok2.
  pose proof (step_keeps _ _ (op_step _ _ _ _ _ He' Ha' H3) Hok2) as Hok3.
  assert (vds_ledger v3 = vds_ledger v2) as El.
  { destruct (op_posts env op _ _ _ H1) as [E|(e & E & _ & Ek)]; [done|].
    destruct (op_posts env' op' _ _ _ H3) as [E'|(e' & E' & Hn & Ek')]; [done|]. destruct Hn. rewrite (Ek' k Hk').
    apply (key_stays k v1); [done|]. unfold keysOf. rewrite E, map_app, in_app_iff. right. left. by apply Ek. }
  split; [done|]. intros id d d' Hd Hd'.
  destruct (dk_deposit _ Hok2 _ _ Hd) as [Hc _]. destruct (dk_deposit _ Hok3 _ _ Hd') as [Hc' _].
  rewrite (chained_total _ _ Hc), (chained_total _ _ Hc'). by rewrite (same_entries id v2 v3).
Qed.
(** ** What a verification leaves behind *)
Lemma creditVerified_outcome env id d oid pid amount u v r v' : creditVerified env id d oid pid amount u v = (r, v') ->
  match r with
  | Ok a => da_replay a = false /\ exists e, vds_ledger v' = vds_ledger v ++ [e] /\ vde_depositId e = id /\
      vde_direction e = DIR_CREDIT /\ vde_reference e = pid /\ vde_amount e = store (of_number amount) /\ vde_idempotencyKey e = "pay_" +:+ pid
  | Throw _ => v' = v
  end.
Proof.
  unfold creditVerified. destruct r as [a|e]; [|by intros [-> _]%transaction_Throw]. rewrite transaction_Ok. intros H. cbv zeta in H.
  apply bind_Ok in H as (paid & v2 & Hc & H). apply column_Ok_same in Hc as [-> _].
  apply bind_Ok in H as (rem & v2 & Hc & H). apply column_Ok_same in Hc as [-> _].
  step_in H. case_match; [|done].
  apply bind_Ok in H as (up & v2 & Hu & H). pose proof (keeps_eq _ _ _ _ _ (silent_update _ _) Hu) as E2.
  apply bind_Ok in H as (e & v3 & Hw & H). apply bind_Ok in Hw as (q & v4 & Hq & Hw). apply column_run in Hq as (-> & -> & _).
  apply bind_Ok in Hw as (b & v4 & Hb & Hw). apply column_Ok_same in Hb as [-> _].
  apply bind_Ok in Hw as (c & v4 & Hb & Hw). apply column_Ok_same in Hb as [-> _].
  apply createDepositEntry_run in Hw as (-> & -> & _).
  apply bind_Ok in H as (x & v4 & Ha & H). pose proof (keeps_eq _ _ _ _ _ (silent_approve _ _) Ha) as E4. step_in H.
  injection H as <- <-. split; [done|]. eexists. cbn. rewrite E4. cbn. by rewrite E2.
Qed.
Definition markedFailed (id : string) (d : VendorSecurityDeposit) (v : VendorDeposits) : VendorDeposits :=
  with_deposits (<[id := deposit_set (vsd_requiredAmount d) (vsd_paidAmount d) (vsd_remainingAmount d) VD_PAYMENT_FAILED d]> (vds_deposits v)) v.
Lemma depositFailed_stored id d v r v' : vds_deposits v !! id = Some d -> depositFailed id v = (r, v') -> v' = markedFailed id d v.
Proof. intros E. unfold depositFailed, updateDeposit. step. rewrite E. step. by intros [= <- <-]. Qed.
Lemma authoritativeAmount_outcome id oid d f v r v' : vds_deposits v !! id = Some d -> authoritativeAmount id oid d f v = (r, v') ->
  match r with
  | Ok a => v' = v /\ forall p n, f = Some (Fetched p) -> rzp_amount p = Some n -> n <> 0%Z -> a = rupees n
  | Throw _ => v' = v \/ (v' = markedFailed id d v /\ exists p, f = Some (Fetched p) /\ rzp_status p = "failed")
  end.
Proof.
  intros Hd. unfold authoritativeAmount. cbv zeta.
  destruct f as [[| |p]|]; [by intros [= <- <-]; left|by intros [= <- <-]| |by intros [= <- <-]].
  do 2 (step; match goal with |- (if ?b then _ else _) = _ -> _ => destruct b end; [|by intros [= <- <-]; left]). step.
  destruct (String.eqb (rzp_status p) "failed") eqn:Es.
  - step. rewrite bind_run. destruct (depositFailed id v) as [r1 v1] eqn:E. apply (depositFailed_stored _ d) in E as ->; [|done].
    apply String.eqb_eq in Es. destruct r1; step; intros [= <- <-]; right; (split; [done|by exists p]).
  - intros [= <- <-]. split; [done|]. intros p0 n [= <-] En Hn. rewrite En. by destruct (Z.eqb_spec n 0).
Qed.

(** What a verification does, success and refusal alike.  A verification that returns is either a replay, which changes nothing, or it was sealed by a valid signature (or by the mock signature where payments are mocked), its payment id was not in the ledger, and exactly one credit in the name of that payment was written for the vendor's deposit, over exactly the paise the gateway says it collected.  One that is refused writes nothing: every table is as before, but for the status PAYMENT_FAILED of the vendor's deposit when the signature was invalid or the gateway reports the payment as failed. *)
Theorem verify_deposit_outcome env useMock vid oid pid sig u check f v r v' :
  collected_ok f -> verifyVendorDepositPayment env useMock vid oid pid sig u check f v = (r, v') ->
  match r with
  | Ok a =>
    if da_replay a then v' = v
    else (check = Sig_valid \/ (useMock = true /\ sig = "mock_signature")) /\ entryReferenced pid v = false /\
      exists id d e, findDeposit vid v = Some (id, d) /\ vds_ledger v' = vds_ledger v ++ [e] /\ vde_depositId e = id /\
        vde_direction e = DIR_CREDIT /\ vde_reference e = pid /\ vde_idempotencyKey e = "pay_" +:+ pid /\
        forall p n, useMock = false -> f = Some (Fetched p) -> rzp_amount p = Some n -> n <> 0%Z -> vde_amount e == inject_Z n / 100
  | Throw _ =>
    v' = v \/ exists id d, findDeposit vid v = Some (id, d) /\ v' = markedFailed id d v /\
      (check = Sig_invalid \/ exists p, useMock = false /\ f = Some (Fetched p) /\ rzp_status p = "failed")
  end.
Proof.
  intros Hf. unfold verifyVendorDepositPayment. step. destruct (negb _); [|by intros [= <- <-]; left]. step.
  destruct (findDeposit vid v) as [[id d]|] eqn:Efd; [|by intros [= <- <-]; left]. pose proof (findDeposit_in _ _ _ _ Efd) as [Hd _].
  destruct (_ || _) eqn:Erep; [by intros [= <- <-]|]. apply orb_false_iff in Erep as [Erep _]. rewrite bind_run.
  match goal with |- context [let (r, s') := ?m v in _] => destruct (m v) as [r1 v1] eqn:Es end.
  assert (match r1 with
    | Ok _ => v1 = v /\ (check = Sig_valid \/ (useMock = true /\ sig = "mock_signature"))
    | Throw _ => v1 = v \/ (v1 = markedFailed id d v /\ check = Sig_invalid) end) as Hseal.
  { revert Es. destruct (useMock && _) eqn:Em.
    { intros [= <- <-]. split; [done|right]. apply andb_true_iff in Em as [-> Em%String.eqb_eq]. done. }
    destruct check; [by intros [= <- <-]; auto| |by intros [= <- <-]; left].
    rewrite bind_run. destruct (depositFailed id v) as [r2 v2] eqn:E. apply (depositFailed_stored _ d) in E as ->; [|done].
    destruct r2; intros [= <- <-]; by right. }
  destruct r1 as [[]|e1].
  2: { intros [= <- <-]. destruct Hseal as [->|[-> ->]]; [by left|right]. exists id, d. auto. }
  destruct Hseal as [-> Hseal]. rewrite bind_run.
  destruct (authoritativeAmount id oid d _ v) as [r2 v2] eqn:Ea. apply (authoritativeAmount_outcome _ _ _ _ _ _ _ Hd) in Ea.
  destruct r2 as [amt|e2].
  2: { intros [= <- <-]. destruct Ea as [->|(-> & p & Ep & Es')]; [by left|right]. exists id, d. split_and!; [done|done|right].
       exists p. destruct useMock; [done|auto]. }
  destruct Ea as [-> Hamt]. intros H%creditVerified_outcome. destruct r as [a|e]; [|by left].
  destruct H as (-> & e & El & Hid & Hdir & Href & Ham & Hk). split_and!; [done..|]. exists id, d, e. split_and!; try done.
  intros p n -> -> En Hn. cbn in Hf. rewrite En in Hf. rewrite Ham, (Hamt p n eq_refl En Hn).
  assert (money n) by (unfold money; lia). rewrite store_exact; [by apply of_number_paise|]. exists n. by apply of_number_paise.
Qed.
End consequences.

(** ** A vendor's deposit *)
Definition depositEnv : DepositEnv := {| de_now := 5; de_freshId := "d1"; de_rules := None |}.
Definition noDepositsOf (vendors : list string) : VendorDeposits :=
  {| vds_deposits := ∅; vds_ledger := []; vds_policies := []; vds_requirement := Some "req"; vds_states := ∅;
     vds_vendors := vendors; vds_audit := [] |}.
Definition runDeposits (ops : list DepositOp) (v : VendorDeposits) : VendorDeposits :=
  fold_left (fun v op => snd (runDeposit depositEnv op v)) ops v.
Definition amountsOkb (op : DepositOp) : bool :=
  match op with
  | OpVerify _ _ _ _ _ _ _ (Some (Fetched p)) => match rzp_amount p with Some n => (0 <=? n)%Z && (n <=? 10 ^ 12)%Z | None => true end
  | OpRecord _ q _ _ _ => (0 <=? q)%Z && (q <=? 10 ^ 12)%Z
  | OpRefund _ (Some q) _ _ _ | OpForfeit _ (Some q) _ _ _ => (0 <=? q)%Z && (q <=? 10 ^ 12)%Z
  | OpAdjust _ q _ _ _ _ _ _ => (Z.abs q <=? 10 ^ 12)%Z
  | _ => true
  end.
Lemma amountsOkb_sound op : amountsOkb op = true -> amountsOk op.
Proof.
  destruct op as [| | | |? ? ? ? ? ? ? f|? q| | |? q|? q|? q]; cbn; try done.
  - destruct f as [[| |p]|]; try done. cbn. destruct (rzp_amount p); [|done]. intros [? ?]%andb_true_iff. lia.
  - intros [? ?]%andb_true_iff. lia.
  - destruct q; [|done]. intros [? ?]%andb_true_iff. lia.
  - destruct q; [|done]. intros [? ?]%andb_true_iff. lia.
  - lia.
Qed.
Lemma runDeposits_reach ops v : forallb amountsOkb ops = true -> rtc deposit_step v (runDeposits ops v).
Proof.
  revert v. induction ops as [|op ops IH]; intros v; cbn [forallb]; [constructor|]. intros [H1 H2]%andb_true_iff.
  eapply rtc_l; [|by apply IH]. eapply (deposit_step_run depositEnv op v); [exact I|by apply amountsOkb_sound|apply surjective_pairing].
Qed.
Definition capture (orderId : string) (paise : Z) : option FetchedPayment :=
  Some (Fetched {| rzp_order_id := Some orderId; rzp_currency := Some "INR"; rzp_status := "captured"; rzp_amount := Some paise |}).
Definition first_payment : list DepositOp :=
  [OpSummary "v1"; OpOrder "v1" (Some "order_1"); OpVerify false "v1" "order_1" "pay_1" "sig" "u1" Sig_valid (capture "order_1" 1000000)].
Definition deposit_year : list DepositOp :=
  first_payment ++
  [OpRecord "v1" 1500000 "cheque" "k2" "a1"; OpHold "v1" "a1"; OpRelease "v1" "rel" "k3" "a1"; OpRefund "v1" (Some 500000%Z) "ref" "k4" "a1";
   OpRefund "v1" (Some 500000%Z) "ref" "k4" "a1"; OpAdjust "v1" 12345 (Some DIR_DEBIT) None None (Some "k5") "damage" "a1";
   OpRecord "v1" 12345 "again" "k5" "a1"].
Definition yearly : VendorDeposits := runDeposits deposit_year (noDepositsOf ["v1"]).
Definition standing (v : VendorDeposits) : list (Q * Q * VendorDepositStatus) :=
  map (fun x => (Qred (vsd_paidAmount (snd x)), Qred (vsd_remainingAmount (snd x)), vsd_status (snd x))) (map_to_list (vds_deposits v)).
Definition movements (v : VendorDeposits) : list (Q * Q * Q) :=
  map (fun e => (Qred (vde_balanceBefore e), Qred (entrySigned e), Qred (vde_balanceAfter e))) (vds_ledger v).
Lemma yearly_reached : rtc deposit_step (noDepositsOf ["v1"]) yearly.
Proof. apply runDeposits_reach. vm_compute. reflexivity. Qed.
Lemma noDepositsOf_start vendors : noDeposits (noDepositsOf vendors).
Proof. by split_and!. Qed.

Lemma deposit_ledger_reconciles_witness :
  (forall id d, vds_deposits yearly !! id = Some d ->
    chained (entriesOf id yearly) (vsd_paidAmount d) /\ vsd_paidAmount d == sum_by entrySigned (entriesOf id yearly) /\ 0 <= vsd_paidAmount d) /\
  standing yearly = [(397531 # 20, 102469 # 20, VD_PARTIALLY_PAID)] /\
  movements yearly = [(0, 10000, 10000); (10000, 15000, 25000); (25000, 0, 25000); (25000, -5000, 20000); (20000, -2469 # 20, 397531 # 20)].
Proof.
  split; [|split; vm_compute; reflexivity].
  apply (deposit_ledger_reconciles (noDepositsOf ["v1"]) yearly); [apply noDepositsOf_start|apply yearly_reached].
Defined.
Lemma deposit_amounts_typed_witness :
  (forall id d, vds_deposits yearly !! id = Some d -> column_ok (vsd_paidAmount d) /\ column_ok (vsd_requiredAmount d)) /\
  length (map_to_list (vds_deposits yearly)) = 1%nat.
Proof.
  split; [|vm_compute; reflexivity].
  apply (deposit_amounts_typed (noDepositsOf ["v1"]) yearly); [apply noDepositsOf_start|apply yearly_reached].
Defined.

Definition deposit_opened : VendorDeposits := runDeposits first_payment (noDepositsOf ["v1"; "v2"]).
Definition cheque (vendorId : string) : DepositOp := OpRecord vendorId 1500000 "cheque" "k2" "a1".
Definition after_cheque : VendorDeposits := snd (runDeposit depositEnv (cheque "v1") deposit_opened).
Lemma deposit_key_moves_once_witness :
  let r := runDeposit depositEnv (cheque "v1") deposit_opened in
  let r' := runDeposit depositEnv (OpRefund "v1" (Some 100%Z) "ref" "k2" "a1") after_cheque in
  is_Ok r.1 = true /\ is_Ok r'.1 = true /\ length (vds_ledger after_cheque) = 2%nat /\
  vds_ledger r'.2 = vds_ledger after_cheque /\
  forall id d d', vds_deposits after_cheque !! id = Some d -> vds_deposits r'.2 !! id = Some d' -> vsd_paidAmount d' == vsd_paidAmount d.
Proof.
  intros r r'. split; [vm_compute; reflexivity|]. split; [vm_compute; reflexivity|]. split; [vm_compute; reflexivity|].
  apply (deposit_key_moves_once (noDepositsOf ["v1"; "v2"]) deposit_opened depositEnv (cheque "v1") r.1 after_cheque after_cheque
    depositEnv (OpRefund "v1" (Some 100%Z) "ref" "k2" "a1") r'.1 r'.2 "k2").
  - apply noDepositsOf_start.
  - apply runDeposits_reach. vm_compute. reflexivity.
  - exact I.
  - cbn. lia.
  - exact I.
  - cbn. lia.
  - reflexivity.
  - reflexivity.
  - apply surjective_pairing.
  - intros E. apply (f_equal length) in E. revert E. vm_compute. discriminate.
  - constructor.
  - apply surjective_pairing.
Defined.
Definition deposit_ordered : VendorDeposits := runDeposits (take 2 first_payment) (noDepositsOf ["v1"]).
Definition verify1 : result DepositAnswer * VendorDeposits :=
  verifyVendorDepositPayment depositEnv false "v1" "order_1" "pay_1" "sig" "u1" Sig_valid (capture "order_1" 1000000) deposit_ordered.
Lemma verify_deposit_outcome_witness :
  match verify1.1 with
  | Ok a => da_replay a = false /\ exists e, vds_ledger verify1.2 = vds_ledger deposit_ordered ++ [e] /\ vde_amount e == inject_Z 1000000 / 100
  | Throw _ => False
  end.
Proof.
  assert (collected_ok (capture "order_1" 1000000)) as Hc by (cbn; lia).
  pose proof (verify_deposit_outcome depositEnv false "v1" "order_1" "pay_1" "sig" "u1" Sig_valid (capture "order_1" 1000000) deposit_ordered
    verify1.1 verify1.2 Hc (surjective_pairing _)) as H.
  assert (match verify1.1 with Ok a => negb (da_replay a) | Throw _ => false end = true) as Hok by (vm_compute; reflexivity).
  destruct verify1.1 as [a|] eqn:E; [|discriminate Hok]. apply negb_true_iff in Hok. rewrite Hok in H. split; [exact Hok|].
  destruct H as (_ & _ & id & d & e & _ & El & _ & _ & _ & _ & Ham). exists e. split; [exact El|].
  exact (Ham _ 1000000%Z eq_refl eq_refl eq_refl ltac:(done)).
Defined.

(** ** What the operations allow *)

(** The release of a hold makes a partly paid deposit PAID: 10000 of 25000. *)
Lemma held_release_marks_paid :
  standing deposit_opened = [(10000, 15000, VD_PARTIALLY_PAID)] /\
  standing (runDeposits [OpHold "v1" "a1"; OpRelease "v1" "rel" "k2" "a1"] deposit_opened) = [(10000, 15000, VD_PAID)].
Proof. split; vm_compute; reflexivity. Qed.
(** And on hold it counts as satisfied already. *)
Lemma partly_paid_hold_satisfies :
  fst (getDepositSummary depositEnv "v1" deposit_opened) = Ok false /\
  fst (getDepositSummary depositEnv "v1" (runDeposits [OpHold "v1" "a1"] deposit_opened)) = Ok true.
Proof. split; vm_compute; reflexivity. Qed.
(** A request with an invalid signature takes PAID from a deposit that was paid in full. *)
Lemma forged_signature_unpays :
  standing after_cheque = [(25000, 0, VD_PAID)] /\
  standing (runDeposits [OpVerify false "v1" "x" "y" "forged" "u1" Sig_invalid None] after_cheque) = [(25000, 0, VD_PAYMENT_FAILED)].
Proof. split; vm_compute; reflexivity. Qed.
(** A forfeited deposit is paid again by a verification, with an order that
    was never issued for it and a payment that was only authorized. *)
Definition authorized (paise : Z) : option FetchedPayment :=
  Some (Fetched {| rzp_order_id := Some "other"; rzp_currency := Some "INR"; rzp_status := "authorized"; rzp_amount := Some paise |}).
Lemma forfeited_deposit_paid_again :
  let forfeited := runDeposits [OpForfeit "v1" None "f" "k3" "a1"] after_cheque in
  standing forfeited = [(0, 0, VD_FORFEITED)] /\
  standing (runDeposits [OpVerify false "v1" "other" "pay_9" "sig" "u1" Sig_valid (authorized 2500000)] forfeited) = [(25000, 0, VD_PAID)] /\
  is_Ok (fst (recordPayment depositEnv "v1" 25000 "c" "k4" "a1" forfeited)) = false.
Proof. split_and!; vm_compute; reflexivity. Qed.
(** What remains after refunding part of an overpaid deposit is negative, and
    a forfeiture leaves it as it was. *)
Lemma remaining_not_kept :
  standing (runDeposits [OpRecord "v1" 1000000 "c" "k3" "a1"; OpRefund "v1" (Some 100000%Z) "r" "k4" "a1"] after_cheque) =
    [(34000, -9000, VD_PAID)] /\
  standing (runDeposits [OpForfeit "v1" (Some 2000000%Z) "f" "k3" "a1"] after_cheque) = [(5000, 0, VD_FORFEITED)].
Proof. split; vm_compute; reflexivity. Qed.
(** Two refunds that read the deposit before either wrote: both are in the
    ledger, the balance shows one. *)
Definition reading : option (string * VendorSecurityDeposit) := (fun x => (fst x, depositView (snd x))) <$> findDeposit "v1" after_cheque.
Lemma concurrent_refunds_drift :
  match reading with
  | Some (id, d) =>
    let v := snd (refundTx id d 20000 "r2" "k4" "a1" (snd (refundTx id d 20000 "r1" "k3" "a1" after_cheque))) in
    standing v = [(5000, 20000, VD_PAID)] /\ Qeq_bool (sum_by entrySigned (entriesOf id v)) (-15000) = true
  | None => False
  end.
Proof. vm_compute. split; reflexivity. Qed.
(** A webhook for a deposit of which a part is paid: its entry credits the
    whole requirement to a balance that was not zero, *)
Lemma webhook_breaks_ledger :
  let v := snd (webhookDeposit "order_1" "pay_7" deposit_opened) in
  movements v = [(0, 10000, 10000); (10000, 25000, 25000)] /\ standing v = [(25000, 0, VD_PAID)].
Proof. split; vm_compute; reflexivity. Qed.
(** and one for the payment that paid this part writes none at all: 15000
    rupees appear in the balance. *)
Lemma webhook_skips_ledger :
  let v := snd (webhookDeposit "order_1" "pay_1" deposit_opened) in
  movements v = [(0, 10000, 10000)] /\ standing v = [(25000, 0, VD_PAID)].
Proof. split; vm_compute; reflexivity. Qed.
(** The step is what the webhook of the payments service does when no payment
    has the order. *)
Lemma handleCaptured_deposit {R} {redis : Locks.Redis R} {col : NumericColumn} {dec : DecimalArith} {num : DecimalNumbers}
    env payload ev oid (s : PayStore R) :
  webhookOrderId payload = Some oid ->
  let pid := webhookPaymentId (pe_now env) payload in
  findPayment (fun p => bool_decide (pm_razorpayOrderId p = Some oid) || bool_decide (pm_razorpayPaymentId p = Some pid) ||
                        String.eqb (pm_id p) oid) s = None ->
  set_vendorDeposits (snd (webhookDeposit oid pid (ps_vendorDeposits s))) s = snd (handleCaptured env payload ev s).
Proof.
  intros Ho pid Hn. unfold handleCaptured. rewrite Ho, get_bind. fold pid. rewrite Hn. unfold webhookDeposit. rewrite get_bind.
  assert (set_vendorDeposits (ps_vendorDeposits s) s = s) as Hid by by destruct s.
  destruct (findVendorDeposit oid pid _) as [[id d]|]; [|exact Hid].
  rewrite bind_run. destruct (negb _); cbn [when]; [|exact Hid]. unfold transaction, zoom.
  destruct (settleVendorDeposit id oid pid d _) as [[u|e] v']; cbn; [done|exact Hid].
Qed.
