(* ===== verification/BookingDeposits.v ===== *)
(** * Deposits of bookings, damage claims and disputes

    deposits/deposits.service.ts, damage-claims/damage-claims.service.ts and
    disputes/disputes.service.ts of src/car_rental_backend/src, over bookings
    with their deposits and the money of PaymentRefund.v.  What a handler reads
    before it writes is an argument of the part that writes ([releaseWith],
    [settleWith], [adjudicateWith]), so that other requests can come between.
    Fresh ids, clock, the gateway's answer and the presence of the ledger are
    arguments; texts, photos, notifications and listings are left out. *)
From S2P Require Import Prelude JsNumber Decimal Schema Ledger Wallet PaymentRefund BookingStore BookingLifecycle Payments.
From stdpp Require Import pretty.
Open Scope Z_scope.

Record DamageClaim : Type := {
  dc_bookingId : string;
  dc_vendorId : string;
  dc_claimedAmount : Q;
  dc_approvedAmount : option Q;
  dc_status : DamageClaimStatus;
  dc_customerDispute : option string;
  dc_resolvedAt : option Z;
}.
Record Dispute : Type := {
  dsp_bookingId : string;
  dsp_raisedByUserId : string;
  dsp_status : DisputeStatus;
  dsp_resolvedAt : option Z;
}.
Record DisputeEvidence : Type := {
  dev_disputeId : string;
  dev_uploadedByUserId : string;
  dev_fileUrl : string;
}.
(** [protectionDeductible] of a booking and [deductibleAmount] of its package. *)
Record Protection : Type := {
  pt_protectionDeductible : option Q;
  pt_deductibleAmount : option Q;
}.
Record TripStore : Type := {
  tr_bookings : gmap string Booking;
  tr_money : MoneyStore;
  tr_claims : gmap string DamageClaim;
  tr_disputes : gmap string Dispute;
  tr_evidences : list DisputeEvidence;
  tr_audit : list AuditLog;
  tr_vendorUser : gmap string string;
  tr_protection : gmap string Protection;       (* by booking *)
}.
Definition set_trips (m : gmap string Booking) (s : TripStore) : TripStore :=
  {| tr_bookings := m; tr_money := tr_money s; tr_claims := tr_claims s; tr_disputes := tr_disputes s;
     tr_evidences := tr_evidences s; tr_audit := tr_audit s; tr_vendorUser := tr_vendorUser s; tr_protection := tr_protection s |}.
Definition set_trip_money (m : MoneyStore) (s : TripStore) : TripStore :=
  {| tr_bookings := tr_bookings s; tr_money := m; tr_claims := tr_claims s; tr_disputes := tr_disputes s;
     tr_evidences := tr_evidences s; tr_audit := tr_audit s; tr_vendorUser := tr_vendorUser s; tr_protection := tr_protection s |}.
Definition set_claims (m : gmap string DamageClaim) (s : TripStore) : TripStore :=
  {| tr_bookings := tr_bookings s; tr_money := tr_money s; tr_claims := m; tr_disputes := tr_disputes s;
     tr_evidences := tr_evidences s; tr_audit := tr_audit s; tr_vendorUser := tr_vendorUser s; tr_protection := tr_protection s |}.
Definition set_disputes (m : gmap string Dispute) (s : TripStore) : TripStore :=
  {| tr_bookings := tr_bookings s; tr_money := tr_money s; tr_claims := tr_claims s; tr_disputes := m;
     tr_evidences := tr_evidences s; tr_audit := tr_audit s; tr_vendorUser := tr_vendorUser s; tr_protection := tr_protection s |}.
Definition add_evidence (e : DisputeEvidence) (s : TripStore) : TripStore :=
  {| tr_bookings := tr_bookings s; tr_money := tr_money s; tr_claims := tr_claims s; tr_disputes := tr_disputes s;
     tr_evidences := tr_evidences s ++ [e]; tr_audit := tr_audit s; tr_vendorUser := tr_vendorUser s; tr_protection := tr_protection s |}.
Definition add_trip_audit (a : AuditLog) (s : TripStore) : TripStore :=
  {| tr_bookings := tr_bookings s; tr_money := tr_money s; tr_claims := tr_claims s; tr_disputes := tr_disputes s;
     tr_evidences := tr_evidences s; tr_audit := tr_audit s ++ [a]; tr_vendorUser := tr_vendorUser s; tr_protection := tr_protection s |}.
Definition set_trip_ledger (L : LedgerTable) (s : TripStore) : TripStore :=
  set_trip_money (set_ledger L (tr_money s)) s.
Abbreviation TM := (M TripStore).

Record TripUser : Type := { tu_userId : string; tu_role : Role }.
(** [depositId]: the generated id of the deposit of a booking. *)
Record TripEnv : Type := {
  tn_now : Z;
  tn_journalId : string;
  tn_hasLedger : bool;
  tn_depositId : string -> string;
  tn_refund : RefundEnv;
}.
Definition tripAudit (userId action entityId : string) : TM unit :=
  modify (add_trip_audit {| al_userId := userId; al_action := action; al_entityId := entityId |}).
Definition isVendorOf (user : TripUser) (b : Booking) (s : TripStore) : bool :=
  bool_decide (tr_vendorUser s !! b_vendorId b = Some (tu_userId user)).

Definition with_dispute (flag : bool) (b : Booking) : Booking :=
  {| b_customerId := b_customerId b; b_vendorId := b_vendorId b; b_carId := b_carId b;
     b_pickupHubId := b_pickupHubId b; b_startDate := b_startDate b; b_endDate := b_endDate b;
     b_totalFare := b_totalFare b; b_platformFee := b_platformFee b; b_gstAmount := b_gstAmount b;
     b_netToVendor := b_netToVendor b; b_disputeFlag := flag;
     b_quoteTotal := b_quoteTotal b; b_couponId := b_couponId b;
     b_discountAmount := b_discountAmount b; b_corporateAccountId := b_corporateAccountId b;
     b_cancellationMatrix := b_cancellationMatrix b; b_commissionSplit := b_commissionSplit b;
     b_securityDeposit := b_securityDeposit b; b_status := b_status b;
     b_cancellationReason := b_cancellationReason b; b_cancellationFee := b_cancellationFee b;
     b_refundAmount := b_refundAmount b; b_cancelledAt := b_cancelledAt b;
     b_cancelledBy := b_cancelledBy b |}.
(** What the handlers change in a deposit. *)
Definition sd_settle (st : SecurityDepositStatus) (deducted : Q) (released : option Z) (d : SecurityDeposit) : SecurityDeposit :=
  {| sd_amount := sd_amount d; sd_status := st; sd_heldAt := sd_heldAt d; sd_razorpayPaymentId := sd_razorpayPaymentId d;
     sd_releasedAt := released; sd_refundedAmount := sd_refundedAmount d; sd_deductedAmount := deducted;
     sd_razorpayRefundId := sd_razorpayRefundId d |}.
Definition sd_refund (refunded : Q) (refundId : option string) (d : SecurityDeposit) : SecurityDeposit :=
  {| sd_amount := sd_amount d; sd_status := sd_status d; sd_heldAt := sd_heldAt d; sd_razorpayPaymentId := sd_razorpayPaymentId d;
     sd_releasedAt := sd_releasedAt d; sd_refundedAmount := refunded; sd_deductedAmount := sd_deductedAmount d;
     sd_razorpayRefundId := refundId |}.
Definition sd_held (amount : Q) (paymentId : option string) (now : Z) (d : SecurityDeposit) : SecurityDeposit :=
  {| sd_amount := amount; sd_status := SD_HELD; sd_heldAt := Some now; sd_razorpayPaymentId := paymentId;
     sd_releasedAt := sd_releasedAt d; sd_refundedAmount := sd_refundedAmount d; sd_deductedAmount := sd_deductedAmount d;
     sd_razorpayRefundId := sd_razorpayRefundId d |}.
Definition newHeld (amount : Q) (paymentId : option string) (now : Z) : SecurityDeposit :=
  {| sd_amount := amount; sd_status := SD_HELD; sd_heldAt := Some now; sd_razorpayPaymentId := paymentId;
     sd_releasedAt := None; sd_refundedAmount := 0; sd_deductedAmount := 0; sd_razorpayRefundId := None |}.

Section deposits.
Context {col : NumericColumn} {dec : DecimalArith} {num : DecimalNumbers}.

(** ** The deposit of a booking *)
Definition depositIn (bookingId : string) (s : TripStore) : option (Booking * SecurityDeposit) :=
  b ← tr_bookings s !! bookingId; d ← b_securityDeposit b; Some (b, d).
Definition putDeposit (bookingId : string) (b : Booking) (d : SecurityDeposit) (s : TripStore) : TripStore :=
  set_trips (<[bookingId := with_deposit b d]> (tr_bookings s)) s.
(** [securityDeposit.update] *)
Definition updateBookingDeposit (bookingId : string) (f : SecurityDeposit -> SecurityDeposit) : TM SecurityDeposit :=
  s ← get;
  '(b, d) ← from_option_or (depositIn bookingId s) PrismaP2025;
  modify (putDeposit bookingId b (f d)) ;;
  mret (f d).
(** [updateMany] where the status is still HELD: how many rows changed. *)
Definition updateHeld (bookingId : string) (f : SecurityDeposit -> SecurityDeposit) : TM nat :=
  s ← get;
  match depositIn bookingId s with
  | Some (b, d) =>
    if decide (sd_status d = SD_HELD) then modify (putDeposit bookingId b (f d)) ;; mret 1%nat else mret 0%nat
  | None => mret 0%nat
  end.
(** [razorpayRefundId] is unique. *)
Definition depositRefundIdTaken (bookingId : string) (refundId : option string) (s : TripStore) : bool :=
  match refundId with
  | Some r => existsb (fun x => match b_securityDeposit (snd x) with
                                | Some d => bool_decide (sd_razorpayRefundId d = Some r) | None => false end)
                (map_to_list (delete bookingId (tr_bookings s)))
  | None => false
  end.
Definition writeRefund (bookingId : string) (refunded : Q) (refundId : option string) : TM SecurityDeposit :=
  s ← get;
  require (negb (depositRefundIdTaken bookingId refundId s)) PrismaP2002 ;;
  updateBookingDeposit bookingId (sd_refund (store refunded) refundId).

Definition isCollateral (d : SecurityDeposit) : bool :=
  match truthy (sd_razorpayPaymentId d) with Some p => startsWith "COLLATERAL:" p | None => false end.
(** The refund through the payment of the booking; [undo] when it fails. *)
Definition refundThrough (env : TripEnv) (bookingId : string) (b : Booking) (paise : Z) (undo : SecurityDeposit -> SecurityDeposit)
    : TM (option string) :=
  try_catch
    (r ← zoom tr_money set_trip_money (refund (tn_refund env) (Some (b_customerId b)) bookingId paise None None);
     mret (truthy (rr_refundId r)))
    (fun _ => updateBookingDeposit bookingId undo ;; throw BadRequestException).
Definition depositLine (a : LedgerAccountType) (e : string) (side : LedgerEntrySide) (amount : Q) (narration bookingId : string)
    : JournalEntryLineInput :=
  {| li_accountType := a; li_accountEntityId := Some e; li_side := Some side; li_entrySide := None; li_amount := amount;
     li_narration := Some narration; li_description := None; li_bookingId := Some bookingId; li_paymentId := None; li_payoutId := None |}.
Definition settlementJournal (refType key narration depositId bookingId : string) (vendorId : option string)
    (lines : list JournalEntryLineInput) : RecordJournalInput :=
  {| rj_journalId := None; rj_referenceType := refType; rj_referenceId := depositId; rj_narration := Some narration;
     rj_description := None; rj_lines := Some lines; rj_entries := None; rj_idempotencyKey := Some (key +:+ depositId);
     rj_currency := None; rj_bookingId := Some bookingId; rj_paymentId := None; rj_payoutId := None; rj_vendorId := vendorId |}.
(** A journal that is posted when there is a ledger and may fail. *)
Definition tryJournal (env : TripEnv) (input : RecordJournalInput) : TM unit :=
  when (tn_hasLedger env)
    (try_catch
       (zoom (fun s => ws_ledger (ms_wallets (tr_money s))) set_trip_ledger
          (r ← recordJournal (tn_now env) (tn_journalId env) false input; mret tt))
       (fun _ => mret tt)).
Definition releaseJournal (env : TripEnv) (bookingId : string) (b : Booking) (remaining : Q) (reason : option string) : RecordJournalInput :=
  settlementJournal "SECURITY_DEPOSIT_RELEASE" "jrn_dep_rel_"
    ("Security deposit refund for booking " +:+ bookingId +:+ " (" +:+ str_or reason "Standard release" +:+ ")")
    (tn_depositId env bookingId) bookingId None
    [depositLine CUSTOMER_DEPOSIT_ESCROW (b_customerId b) DEBIT remaining
       ("Escrow liability released on deposit refund for booking " +:+ bookingId) bookingId;
     depositLine GATEWAY_CLEARING "RAZORPAY" CREDIT remaining
       ("Gateway refund clearing for released security deposit on booking " +:+ bookingId) bookingId].
Definition deductionJournal (env : TripEnv) (bookingId : string) (b : Booking) (total deducted remaining : Q) (reason : string)
    : RecordJournalInput :=
  settlementJournal "DAMAGE_DEDUCTION" "jrn_dep_deduct_"
    ("Security deposit damage deduction settlement for booking " +:+ bookingId +:+ " (" +:+ reason +:+ ")")
    (tn_depositId env bookingId) bookingId (Some (b_vendorId b))
    ([depositLine CUSTOMER_DEPOSIT_ESCROW (b_customerId b) DEBIT total
        ("Total escrow deposit settled after damage assessment for booking " +:+ bookingId) bookingId] ++
     pushIf (d_gt deducted 0) (depositLine VENDOR_PAYABLE (b_vendorId b) CREDIT deducted
        ("Damage compensation payable to host from security deposit for booking " +:+ bookingId +:+ ": " +:+ reason) bookingId) ++
     pushIf (d_gt remaining 0) (depositLine GATEWAY_CLEARING "RAZORPAY" CREDIT remaining
        ("Remaining security deposit refunded to customer for booking " +:+ bookingId) bookingId)).

(** ** Release and deduction *)
Definition releaseWith (env : TripEnv) (bookingId : string) (b : Booking) (deposit : SecurityDeposit) (adminUserId reason : option string)
    : TM SecurityDeposit :=
  require (bool_decide (sd_status deposit = SD_HELD)) ConflictException ;;
  let remainingToRefund := dec_sub (sd_amount deposit) (sd_deductedAmount deposit) in
  require (negb (d_le remainingToRefund 0)) BadRequestException ;;
  let targetStatus := if d_gt (sd_deductedAmount deposit) 0 then SD_PARTIALLY_REFUNDED else SD_REFUNDED in
  count ← updateHeld bookingId (fun d => sd_settle targetStatus (sd_deductedAmount d) (Some (tn_now env)) d);
  require (negb (Nat.eqb count 0)) ConflictException ;;
  razorpayRefundId ←
    (if isCollateral deposit then mret (Some ("COLLATERAL_RELEASED_" +:+ pretty (tn_now env)))
     else refundThrough env bookingId b (js_round (js_mul (rnd remainingToRefund) 100))
            (fun d => sd_settle SD_HELD (sd_deductedAmount d) None d));
  updated ← writeRefund bookingId remainingToRefund (opt_or razorpayRefundId (sd_razorpayRefundId deposit));
  tryJournal env (releaseJournal env bookingId b remainingToRefund reason) ;;
  match truthy adminUserId with
  | Some u => tripAudit u "SECURITY_DEPOSIT_RELEASED" (tn_depositId env bookingId)
  | None => mret tt
  end ;;
  mret updated.
Definition releaseBookingDeposit (env : TripEnv) (bookingId : string) (adminUserId reason : option string) : TM (option SecurityDeposit) :=
  s ← get;
  match depositIn bookingId s with
  | None => mret None
  | Some (b, deposit) => updated ← releaseWith env bookingId b deposit adminUserId reason; mret (Some updated)
  end.

Definition settleWith (env : TripEnv) (bookingId : string) (b : Booking) (deposit : SecurityDeposit) (deductAmount : Q)
    (adminUserId reason : string) : TM SecurityDeposit :=
  if negb (bool_decide (sd_status deposit = SD_HELD)) then mret deposit
  else
    let deductDecimal := of_number deductAmount in
    let actualDeduct := if d_gt deductDecimal (sd_amount deposit) then sd_amount deposit else deductDecimal in
    let remainingRefund := dec_sub (sd_amount deposit) actualDeduct in
    let targetStatus := if d_gt remainingRefund 0 then SD_PARTIALLY_REFUNDED else SD_FORFEITED in
    count ← updateHeld bookingId (fun d => sd_settle targetStatus (store actualDeduct) (Some (tn_now env)) d);
    require (negb (Nat.eqb count 0)) ConflictException ;;
    razorpayRefundId ←
      (if d_gt remainingRefund 0
       then refundThrough env bookingId b (js_round (js_mul (rnd remainingRefund) 100)) (fun d => sd_settle SD_HELD 0 None d)
       else mret None);
    updated ← writeRefund bookingId remainingRefund (opt_or razorpayRefundId (sd_razorpayRefundId deposit));
    tryJournal env (deductionJournal env bookingId b (sd_amount deposit) actualDeduct remainingRefund reason) ;;
    tripAudit adminUserId "SECURITY_DEPOSIT_SETTLED_WITH_DEDUCTION" (tn_depositId env bookingId) ;;
    mret updated.
Definition settleDeduction (env : TripEnv) (bookingId : string) (deductAmount : Q) (adminUserId reason : string)
    : TM (option SecurityDeposit) :=
  s ← get;
  match depositIn bookingId s with
  | None => mret None
  | Some (b, deposit) => updated ← settleWith env bookingId b deposit deductAmount adminUserId reason; mret (Some updated)
  end.

(** [autoReleaseEligibleDeposits]: [updatedAt] of the bookings; the query
    names no order, the order of the table stands for it. *)
Definition openClaimStatuses : list DamageClaimStatus := [DC_SUBMITTED; DC_UNDER_REVIEW; DC_APPROVED; DC_PARTIALLY_APPROVED].
Definition hasOpenClaim (bookingId : string) (s : TripStore) : bool :=
  existsb (fun c => String.eqb (dc_bookingId (snd c)) bookingId && bool_decide (dc_status (snd c) ∈ openClaimStatuses))
    (map_to_list (tr_claims s)).
Definition eligible (now : Z) (updatedAt : string -> Z) (s : TripStore) (x : string * Booking) : bool :=
  match b_securityDeposit (snd x) with Some d => bool_decide (sd_status d = SD_HELD) | None => false end &&
  bool_decide (b_status (snd x) = BS_COMPLETED) && (updatedAt (fst x) <=? now - 24 * 60 * 60 * 1000) && negb (hasOpenClaim (fst x) s).
Fixpoint releaseEach (env : TripEnv) (ids : list string) : TM unit :=
  match ids with
  | [] => mret tt
  | id :: ids' =>
    try_catch (releaseBookingDeposit env id None (Some "Automated 24-hour post-trip deposit release") ;; mret tt) (fun _ => mret tt) ;;
    releaseEach env ids'
  end.
Definition autoReleaseEligibleDeposits (env : TripEnv) (updatedAt : string -> Z) : TM unit :=
  s ← get;
  releaseEach env (fst <$> take 20 (List.filter (eligible (tn_now env) updatedAt s) (map_to_list (tr_bookings s)))).

(** ** Reading, holding, collateral *)
Definition getBookingDeposit (bookingId : string) (user : TripUser) : TM SecurityDeposit :=
  s ← get;
  booking ← from_option_or (tr_bookings s !! bookingId) NotFoundException;
  require (bool_decide (tu_role user ∈ [ROLE_ADMIN; ROLE_SUPPORT_AGENT]) || String.eqb (b_customerId booking) (tu_userId user) ||
           isVendorOf user booking s) ForbiddenException ;;
  from_option_or (b_securityDeposit booking) NotFoundException.
Definition upsertHeld (env : TripEnv) (bookingId : string) (create : SecurityDeposit) (update : SecurityDeposit -> SecurityDeposit)
    (b : Booking) : TM SecurityDeposit :=
  let d := match b_securityDeposit b with Some d => update d | None => create end in
  modify (putDeposit bookingId b d) ;;
  mret d.
Definition holdBookingDeposit (env : TripEnv) (bookingId : string) (amount : Q) (razorpayPaymentId : option string) : TM SecurityDeposit :=
  s ← get;
  booking ← from_option_or (tr_bookings s !! bookingId) NotFoundException;
  let amountDecimal := store (of_number amount) in
  upsertHeld env bookingId (newHeld amountDecimal razorpayPaymentId (tn_now env))
    (fun d => sd_held amountDecimal (match razorpayPaymentId with Some p => Some p | None => sd_razorpayPaymentId d end) (tn_now env) d) booking.

Inductive CollateralType : Type := CT_MONETARY_ONLINE | CT_PHYSICAL_VEHICLE | CT_ORIGINAL_DOCUMENT | CT_DIGILOCKER_HIGH_TRUST.
Definition collateralName (t : CollateralType) : string :=
  match t with
  | CT_MONETARY_ONLINE => "MONETARY_ONLINE" | CT_PHYSICAL_VEHICLE => "PHYSICAL_VEHICLE"
  | CT_ORIGINAL_DOCUMENT => "ORIGINAL_DOCUMENT" | CT_DIGILOCKER_HIGH_TRUST => "DIGILOCKER_HIGH_TRUST"
  end.
Record RecordCollateralDto : Type := {
  rc_collateralType : CollateralType;
  rc_vehicleRegistrationNumber : option string;
  rc_keysCollected : option bool;
  rc_documentType : option string;
  rc_documentNumberMasked : option string;
  rc_verifiedPhysically : option bool;
}.
Definition given (o : option string) : bool := bool_decide (is_Some (truthy o)).
Definition collateralValid (dto : RecordCollateralDto) : bool :=
  match rc_collateralType dto with
  | CT_PHYSICAL_VEHICLE => given (rc_vehicleRegistrationNumber dto) && bool_decide (rc_keysCollected dto = Some true)
  | CT_ORIGINAL_DOCUMENT => given (rc_documentType dto) && given (rc_documentNumberMasked dto) &&
      bool_decide (rc_verifiedPhysically dto = Some true)
  | _ => true
  end.
Definition collateralIdentifier (dto : RecordCollateralDto) : string :=
  match rc_collateralType dto with
  | CT_PHYSICAL_VEHICLE => default "undefined" (rc_vehicleRegistrationNumber dto)
  | CT_ORIGINAL_DOCUMENT => default "undefined" (rc_documentType dto) +:+ "_" +:+ default "undefined" (rc_documentNumberMasked dto)
  | _ => "DIGILOCKER_HIGH_TRUST"
  end.
Definition collateralTag (dto : RecordCollateralDto) : string :=
  "COLLATERAL:" +:+ collateralName (rc_collateralType dto) +:+ ":" +:+ collateralIdentifier dto.
Definition recordCollateral (env : TripEnv) (bookingId : string) (dto : RecordCollateralDto) (user : TripUser) : TM SecurityDeposit :=
  s ← get;
  booking ← from_option_or (tr_bookings s !! bookingId) NotFoundException;
  require (bool_decide (tu_role user = ROLE_ADMIN) || isVendorOf user booking s) ForbiddenException ;;
  require (bool_decide (b_status booking ∈ [BS_CONFIRMED; BS_HANDOVER_READY])) BadRequestException ;;
  require (collateralValid dto) BadRequestException ;;
  let tag := collateralTag dto in
  let defaultAmount := match b_securityDeposit booking with Some d => sd_amount d | None => 5000%Q end in
  deposit ← upsertHeld env bookingId (newHeld defaultAmount (Some tag) (tn_now env))
    (fun d => sd_held (sd_amount d) (Some tag) (tn_now env) d) booking;
  tripAudit (tu_userId user) "CUSTOMER_COLLATERAL_RECORDED" (tn_depositId env bookingId) ;;
  mret deposit.
(** [split(':')], [slice(2)] and [join(':')] *)
Definition collateral_sep : Ascii.ascii := Ascii.ascii_of_nat 58.
Fixpoint join_with (sep : string) (l : list string) : string :=
  match l with
  | [] => ""
  | [w] => w
  | w :: ws => w +:+ sep +:+ join_with sep ws
  end.
Record Collateral : Type := { cl_collateralType : string; cl_collateralIdentifier : string }.
Definition parseCollateral (paymentId : option string) : option Collateral :=
  match truthy paymentId with
  | Some p =>
    if startsWith "COLLATERAL:" p then
      let parts := split_on collateral_sep p in
      Some {| cl_collateralType := str_or (nth_error parts 1) "UNKNOWN"; cl_collateralIdentifier := join_with ":" (skipn 2 parts) |}
    else None
  | None => None
  end.
Definition getCollateral (bookingId : string) (user : TripUser) : TM (option Collateral) :=
  deposit ← getBookingDeposit bookingId user;
  mret (parseCollateral (sd_razorpayPaymentId deposit)).

(** ** Damage claims *)
Definition putClaim (id : string) (c : DamageClaim) : TM unit :=
  modify (fun s => set_claims (<[id := c]> (tr_claims s)) s).
(** The partial unique index of the table. *)
Definition claimClashes (id bookingId : string) (st : DamageClaimStatus) (s : TripStore) : bool :=
  bool_decide (st ∈ openClaimStatuses) &&
  existsb (fun c => String.eqb (dc_bookingId (snd c)) bookingId && bool_decide (dc_status (snd c) ∈ openClaimStatuses))
    (map_to_list (delete id (tr_claims s))).
Definition updateClaim (id : string) (f : DamageClaim -> DamageClaim) : TM DamageClaim :=
  s ← get;
  c ← from_option_or (tr_claims s !! id) PrismaP2025;
  require (negb (claimClashes id (dc_bookingId c) (dc_status (f c)) s)) PrismaP2002 ;;
  putClaim id (f c) ;;
  mret (f c).
Definition claim_set (st : DamageClaimStatus) (approved : option Q) (dispute : option string) (resolved : option Z) (c : DamageClaim) : DamageClaim :=
  {| dc_bookingId := dc_bookingId c; dc_vendorId := dc_vendorId c; dc_claimedAmount := dc_claimedAmount c; dc_approvedAmount := approved;
     dc_status := st; dc_customerDispute := dispute; dc_resolvedAt := resolved |}.
Definition createClaim (freshId bookingId : string) (claimedAmount : Q) (user : TripUser) : TM DamageClaim :=
  try_catch
    (transaction (
       s ← get;
       booking ← from_option_or (tr_bookings s !! bookingId) NotFoundException;
       require (bool_decide (tu_role user = ROLE_ADMIN) || isVendorOf user booking s) ForbiddenException ;;
       require (bool_decide (b_status booking = BS_COMPLETED)) BadRequestException ;;
       require (negb (existsb (fun c => String.eqb (dc_bookingId (snd c)) bookingId &&
                          negb (bool_decide (dc_status (snd c) ∈ [DC_REJECTED; DC_SETTLED]))) (map_to_list (tr_claims s)))) ConflictException ;;
       let c := {| dc_bookingId := bookingId; dc_vendorId := b_vendorId booking; dc_claimedAmount := store (of_number claimedAmount);
                   dc_approvedAmount := None; dc_status := DC_SUBMITTED; dc_customerDispute := None; dc_resolvedAt := None |} in
       require (negb (bool_decide (is_Some (tr_claims s !! freshId))) && negb (claimClashes freshId bookingId DC_SUBMITTED s)) PrismaP2002 ;;
       putClaim freshId c ;;
       mret c))
    (fun e => throw (if decide (e = PrismaP2002) then ConflictException else e)).
Definition disputeClaim (claimId customerDispute : string) (user : TripUser) : TM DamageClaim :=
  s ← get;
  claim ← from_option_or (tr_claims s !! claimId) NotFoundException;
  booking ← from_option_or (tr_bookings s !! dc_bookingId claim) OtherError;
  require (String.eqb (b_customerId booking) (tu_userId user)) ForbiddenException ;;
  require (bool_decide (dc_status claim ∈ [DC_SUBMITTED; DC_UNDER_REVIEW])) BadRequestException ;;
  updateClaim claimId (fun c => claim_set DC_UNDER_REVIEW (dc_approvedAmount c) (Some customerDispute) (dc_resolvedAt c) c).

Inductive ClaimDecision : Type := CD_APPROVED | CD_PARTIALLY_APPROVED | CD_REJECTED.
#[export] Instance ClaimDecision_eq_dec : EqDecision ClaimDecision.
Proof. solve_decision. Defined.
Definition finalStatuses : list DamageClaimStatus := [DC_SETTLED; DC_REJECTED; DC_APPROVED; DC_PARTIALLY_APPROVED].
Definition deductibleCeiling (bookingId : string) (s : TripStore) : option Q :=
  p ← tr_protection s !! bookingId;
  match pt_protectionDeductible p with Some q => Some (rnd q) | None => rnd <$> pt_deductibleAmount p end.
Definition rejectClaim (env : TripEnv) (claimId : string) (claim : DamageClaim) (adminNotes adminUserId : string) : TM DamageClaim :=
  updated ← updateClaim claimId (fun c => claim_set DC_REJECTED (dc_approvedAmount c) (dc_customerDispute c) (Some (tn_now env)) c);
  releaseBookingDeposit env (dc_bookingId claim) (Some adminUserId) (Some ("Damage claim rejected: " +:+ adminNotes)) ;;
  tripAudit adminUserId "DAMAGE_CLAIM_REJECTED" claimId ;;
  mret updated.
Definition approveClaim (env : TripEnv) (claimId : string) (claim : DamageClaim) (decision : ClaimDecision) (approvedAmount : option Q)
    (ceiling : option Q) (adminNotes adminUserId : string) : TM DamageClaim :=
  approved ← from_option_or approvedAmount BadRequestException;
  require (nonzero approved && negb (js_le approved 0)) BadRequestException ;;
  let claimed := rnd (dc_claimedAmount claim) in
  require (negb (js_lt claimed approved)) BadRequestException ;;
  require (match ceiling with Some m => negb (js_lt m approved) | None => true end) BadRequestException ;;
  let targetStatus := if bool_decide (decision = CD_PARTIALLY_APPROVED) || js_lt approved claimed then DC_PARTIALLY_APPROVED else DC_APPROVED in
  settled ← settleDeduction env (dc_bookingId claim) approved adminUserId adminNotes;
  updated ← updateClaim claimId (fun c => claim_set targetStatus (Some (store (of_number approved))) (dc_customerDispute c) (Some (tn_now env)) c);
  tripAudit adminUserId (match settled with Some _ => "DAMAGE_CLAIM_APPROVED" | None => "DAMAGE_CLAIM_APPROVED_NO_DEPOSIT" end) claimId ;;
  mret updated.
(** With the claim and its ceiling as they were read. *)
Definition adjudicateWith (env : TripEnv) (claimId : string) (claim : DamageClaim) (ceiling : option Q) (decision : ClaimDecision)
    (approvedAmount : option Q) (adminNotes adminUserId : string) : TM DamageClaim :=
  require (negb (bool_decide (dc_status claim ∈ finalStatuses))) ConflictException ;;
  if decide (decision = CD_REJECTED) then rejectClaim env claimId claim adminNotes adminUserId
  else approveClaim env claimId claim decision approvedAmount ceiling adminNotes adminUserId.
Definition adjudicateClaim (env : TripEnv) (claimId : string) (decision : ClaimDecision) (approvedAmount : option Q)
    (adminNotes adminUserId : string) : TM DamageClaim :=
  s ← get;
  claim ← from_option_or (tr_claims s !! claimId) NotFoundException;
  adjudicateWith env claimId claim (deductibleCeiling (dc_bookingId claim) s) decision approvedAmount adminNotes adminUserId.

(** ** Disputes *)
Definition partyTo (userId : string) (b : Booking) (s : TripStore) : bool :=
  String.eqb (b_customerId b) userId || bool_decide (tr_vendorUser s !! b_vendorId b = Some userId).
Definition setDisputeFlag (bookingId : string) (flag : bool) : TM unit :=
  s ← get;
  b ← from_option_or (tr_bookings s !! bookingId) PrismaP2025;
  modify (set_trips (<[bookingId := with_dispute flag b]> (tr_bookings s))).
Definition createDispute (freshId userId bookingId : string) : TM Dispute :=
  s ← get;
  booking ← from_option_or (tr_bookings s !! bookingId) NotFoundException;
  require (partyTo userId booking s) ForbiddenException ;;
  match List.find (fun x => String.eqb (dsp_bookingId (snd x)) bookingId) (map_to_list (tr_disputes s)) with
  | Some (_, existing) => mret existing
  | None =>
    let d := {| dsp_bookingId := bookingId; dsp_raisedByUserId := userId; dsp_status := DSP_OPEN; dsp_resolvedAt := None |} in
    require (negb (bool_decide (is_Some (tr_disputes s !! freshId)))) PrismaP2002 ;;
    modify (set_disputes (<[freshId := d]> (tr_disputes s))) ;;
    setDisputeFlag bookingId true ;;
    mret d
  end.
Definition addEvidence (userId disputeId fileUrl : string) : TM DisputeEvidence :=
  s ← get;
  dispute ← from_option_or (tr_disputes s !! disputeId) NotFoundException;
  booking ← from_option_or (tr_bookings s !! dsp_bookingId dispute) OtherError;
  require (partyTo userId booking s || String.eqb (dsp_raisedByUserId dispute) userId) ForbiddenException ;;
  let e := {| dev_disputeId := disputeId; dev_uploadedByUserId := userId; dev_fileUrl := fileUrl |} in
  modify (add_evidence e) ;;
  mret e.
Definition getDisputeById (user : TripUser) (disputeId : string) : TM Dispute :=
  s ← get;
  dispute ← from_option_or (tr_disputes s !! disputeId) NotFoundException;
  booking ← from_option_or (tr_bookings s !! dsp_bookingId dispute) OtherError;
  require (bool_decide (tu_role user ∈ [ROLE_ADMIN; ROLE_SUPPORT_AGENT]) || partyTo (tu_userId user) booking s ||
           String.eqb (dsp_raisedByUserId dispute) (tu_userId user)) ForbiddenException ;;
  mret dispute.
Definition adminUpdateDispute (now : Z) (adminUserId disputeId : string) (st : DisputeStatus) : TM Dispute :=
  s ← get;
  dispute ← from_option_or (tr_disputes s !! disputeId) NotFoundException;
  let closed := bool_decide (st ∈ [DSP_RESOLVED; DSP_REJECTED]) in
  let updated := {| dsp_bookingId := dsp_bookingId dispute; dsp_raisedByUserId := dsp_raisedByUserId dispute; dsp_status := st;
                    dsp_resolvedAt := if closed then Some now else dsp_resolvedAt dispute |} in
  modify (set_disputes (<[disputeId := updated]> (tr_disputes s))) ;;
  when closed (setDisputeFlag (dsp_bookingId dispute) false) ;;
  tripAudit adminUserId "DISPUTE_UPDATED" disputeId ;;
  mret updated.
End deposits.
