(* ===== verification/DepositSettlement.v ===== *)
(** * What deposits, claims and disputes keep

    A held deposit is settled once and to the paisa, the hourly release spares
    open claims, a booking has one open claim, collateral tags read back as
    they were written; and runs in which the handlers do not do what they
    mean to. *)
From S2P Require Import Prelude JsNumber Decimal Schema Ledger Wallet PaymentRefund BookingStore BookingLifecycle Payments Payouts BookingDeposits.
From stdpp Require Import pretty.
Open Scope Z_scope.
Open Scope Q_scope.

(** ** Runs of the parts *)
Section parts.
Context {col : NumericColumn} {dec : DecimalArith} {num : DecimalNumbers}.

Lemma depositIn_some id s b d : depositIn id s = Some (b, d) <-> tr_bookings s !! id = Some b /\ b_securityDeposit b = Some d.
Proof.
  unfold depositIn. destruct (tr_bookings s !! id) as [b0|]; cbn; [|by split; [|intros []]].
  destruct (b_securityDeposit b0) as [d0|] eqn:E; cbn; split; try done.
  - intros [= <- <-]. done.
  - intros [[= <-] E']. congruence.
  - intros [[= <-] E']. congruence.
Qed.
Lemma depositIn_put id b d s : depositIn id (putDeposit id b d s) = Some (with_deposit b d, d).
Proof. apply depositIn_some. cbn. by rewrite lookup_insert_eq. Qed.
Lemma put_put id b b' d d' s : with_deposit b' d' = with_deposit b d' ->
  putDeposit id b' d' (putDeposit id b d s) = putDeposit id b d' s.
Proof. intros E. unfold putDeposit, set_trips. cbn. by rewrite insert_insert_eq, E. Qed.
Lemma depositIn_money id m s : depositIn id (set_trip_money m s) = depositIn id s.
Proof. done. Qed.

Lemma updateHeld_run id f b d s r s' : depositIn id s = Some (b, d) -> updateHeld id f s = (r, s') ->
  if decide (sd_status d = SD_HELD) then r = Ok 1%nat /\ s' = putDeposit id b (f d) s else r = Ok 0%nat /\ s' = s.
Proof. intros Hd. unfold updateHeld. step. rewrite Hd. destruct (decide _); step; by intros [= <- <-]. Qed.
Lemma updateBookingDeposit_run id f b d s r s' : depositIn id s = Some (b, d) -> updateBookingDeposit id f s = (r, s') ->
  r = Ok (f d) /\ s' = putDeposit id b (f d) s.
Proof. intros Hd. unfold updateBookingDeposit. step. rewrite Hd. step. by intros [= <- <-]. Qed.
Lemma writeRefund_run id q rid b d s r s' : depositIn id s = Some (b, d) -> writeRefund id q rid s = (r, s') ->
  (r = Throw PrismaP2002 /\ s' = s) \/ (r = Ok (sd_refund (store q) rid d) /\ s' = putDeposit id b (sd_refund (store q) rid d) s).
Proof.
  intros Hd. unfold writeRefund. step. destruct (negb _); [|intros [= <- <-]; by left]. step.
  intros H. right. by eapply updateBookingDeposit_run in H.
Qed.
Lemma refundThrough_run env id b0 paise undo b d s r s' : depositIn id s = Some (b, d) ->
  refundThrough env id b0 paise undo s = (r, s') ->
  exists m, m = snd (refund (tn_refund env) (Some (b_customerId b0)) id paise None None (tr_money s)) /\
  match r with
  | Ok _ => s' = set_trip_money m s
  | Throw e => e = BadRequestException /\ s' = putDeposit id b (undo d) (set_trip_money m s)
  end.
Proof.
  intros Hd. unfold refundThrough, try_catch. rewrite bind_run. unfold zoom.
  destruct (refund _ _ id paise None None (tr_money s)) as [[a|e] m] eqn:Er; cbn [fst snd].
  - step. intros [= <- <-]. by exists m.
  - rewrite bind_run. destruct (updateBookingDeposit id undo _) as [r1 s1] eqn:Eu.
    eapply updateBookingDeposit_run in Eu as [-> ->]; [|by rewrite depositIn_money]. step. intros [= <- <-]. by exists m.
Qed.
Lemma tryJournal_run env input s r s' : tryJournal env input s = (r, s') ->
  r = Ok tt /\ tr_bookings s' = tr_bookings s /\ tr_claims s' = tr_claims s /\ tr_disputes s' = tr_disputes s /\
  ms_payments (tr_money s') = ms_payments (tr_money s) /\ ms_refunds (tr_money s') = ms_refunds (tr_money s) /\ tr_audit s' = tr_audit s.
Proof.
  unfold tryJournal, when. destruct (tn_hasLedger env); [|by intros [= <- <-]]. unfold try_catch.
  destruct (zoom _ _ _ s) as [[[]|e] s1] eqn:E; apply zoom_run in E as (L & _ & ->); by intros [= <- <-].
Qed.
Lemma tripAudit_run u a e s r s' : tripAudit u a e s = (r, s') -> r = Ok tt /\ tr_bookings s' = tr_bookings s /\ tr_money s' = tr_money s.
Proof. by intros [= <- <-]. Qed.

(** ** Settlements *)
Inductive Settlement : Type :=
  | Release (adminUserId reason : option string)
  | Deduct (paise : Z) (adminUserId reason : string).
Definition runSettlement (env : TripEnv) (id : string) (b : Booking) (d : SecurityDeposit) (x : Settlement) : M TripStore SecurityDeposit :=
  match x with
  | Release u reason => releaseWith env id b d u reason
  | Deduct q u reason => settleWith env id b d (rupees q) u reason
  end.
Definition deducts (x : Settlement) (d : SecurityDeposit) : Q :=
  match x with Release _ _ => sd_deductedAmount d | Deduct q _ _ => d_min (inject_Z q / 100) (sd_amount d) end.
Definition settlement_ok (x : Settlement) : Prop := match x with Release _ _ => True | Deduct q _ _ => (0 < q <= 10 ^ 12)%Z end.
Definition deposit_ok (d : SecurityDeposit) : Prop :=
  column_ok (sd_amount d) /\ column_ok (sd_deductedAmount d) /\ sd_deductedAmount d <= sd_amount d.

(** The end of both: the refund is written, journal and audit follow. *)
Lemma finish_run {A} id q rid b d s (K : SecurityDeposit -> M TripStore A) r s' :
  depositIn id s = Some (b, d) -> (u ← writeRefund id q rid; K u) s = (r, s') ->
  (r = Throw PrismaP2002 /\ s' = s) \/
  K (sd_refund (store q) rid d) (putDeposit id b (sd_refund (store q) rid d) s) = (r, s').
Proof.
  intros Hd. rewrite bind_run. destruct (writeRefund id q rid s) as [r1 s1] eqn:E.
  eapply writeRefund_run in E as [[-> ->]|[-> ->]]; [..|exact Hd]; [intros [= <- <-]; by left|by right].
Qed.

(** What a settlement that returns has done: all of the deposit is refunded
    or deducted, and the payment was asked for exactly the refund. *)
Definition bypassed (x : Settlement) (d : SecurityDeposit) (p : Z) : bool :=
  match x with Release _ _ => isCollateral d | Deduct _ _ _ => (p =? 0)%Z end.
Record deposit_settled (env : TripEnv) (id : string) (b : Booking) (d : SecurityDeposit) (x : Settlement) (s : TripStore) (d' : SecurityDeposit)
    (s' : TripStore) : Prop := {
  st_row : tr_bookings s' = <[id := with_deposit b d']> (tr_bookings s);
  st_amount : sd_amount d' = sd_amount d;
  st_deducted : sd_deductedAmount d' == deducts x d;
  st_refunded : sd_refundedAmount d' == sd_amount d - deducts x d;
  st_nonneg : 0 <= sd_refundedAmount d';
  st_status : sd_status d' = if Qeq_bool (sd_refundedAmount d') 0 then SD_FORFEITED
                             else if Qeq_bool (sd_deductedAmount d') 0 then SD_REFUNDED else SD_PARTIALLY_REFUNDED;
  st_money : exists p, sd_refundedAmount d' == inject_Z p / 100 /\
    ms_payments (tr_money s') = ms_payments (if bypassed x d p then tr_money s
      else snd (refund (tn_refund env) (Some (b_customerId b)) id p None None (tr_money s)));
}.
(** What one that throws leaves: the deposit as it was or held for the next
    attempt, unless its refund id was used by another deposit. *)
Definition unsettled (id : string) (d : SecurityDeposit) (e : Exn) (s s' : TripStore) : Prop :=
  s' = s \/ exists b d', depositIn id s' = Some (b, d') /\ sd_amount d' = sd_amount d /\ sd_refundedAmount d' = sd_refundedAmount d /\
    (sd_status d' = SD_HELD \/ e = PrismaP2002).

Lemma column_diff a q : column_ok a -> column_ok q -> q <= a ->
  exists p, (0 <= p <= 10 ^ 10)%Z /\ a - q == inject_Z p / 100 /\ dec_sub a q == inject_Z p / 100.
Proof.
  intros (i & Hi & Ei)%column_ok_paise (j & Hj & Ej)%column_ok_paise Hle. exists (i - j)%Z.
  assert (a - q == inject_Z (i - j) / 100) as E by (rewrite inject_Z_sub, Ei, Ej; field).
  assert (j <= i)%Z as Hij. { rewrite Ei, Ej in Hle. assert (inject_Z i / 100 == inject_Z i * (1 # 100)) as E1 by field.
    assert (inject_Z j / 100 == inject_Z j * (1 # 100)) as E2 by field. rewrite E1, E2 in Hle. rewrite Zle_Qle. lra. }
  split_and!; [lia..|exact E|]. unfold dec_sub. rewrite dec_round_exact; [exact E|by exists (i - j)%Z|].
  rewrite E. assert (inject_Z (i - j) / 100 == inject_Z (i - j) * (1 # 100)) as -> by field.
  rewrite Qabs_pos; [|apply Qmult_le_0_compat; [|done]; change 0 with (inject_Z 0); rewrite <- Zle_Qle; lia].
  assert (inject_Z (i - j) <= inject_Z (10 ^ 10)) as Hb by (rewrite <- Zle_Qle; lia).
  change (inject_Z (10 ^ 10)) with 10000000000 in Hb. lra.
Qed.
Lemma paise_of p q : (0 <= p <= 10 ^ 10)%Z -> q == inject_Z p / 100 -> js_round (js_mul (rnd q) 100) = p /\ store q == inject_Z p / 100.
Proof.
  intros Hp E. split; [rewrite (rnd_column _ _ E); apply rupees_to_paise; unfold money; lia|].
  rewrite store_exact; [exact E|]. by exists p.
Qed.

(** After the row was taken: refund, write, post. *)
Lemma with_deposit_twice b d d' : with_deposit (with_deposit b d) d' = with_deposit b d'.
Proof. done. Qed.
Lemma finish_settled env id b d1 q rid input s0 s r s' (K : SecurityDeposit -> M TripStore unit) :
  tr_bookings s = <[id := with_deposit b d1]> (tr_bookings s0) -> depositIn id s = Some (with_deposit b d1, d1) ->
  (forall u t r1 t1, K u t = (r1, t1) -> r1 = Ok tt /\ tr_bookings t1 = tr_bookings t /\ tr_money t1 = tr_money t) ->
  (u ← writeRefund id q rid; tryJournal env input ;; K u ;; mret u) s = (r, s') ->
  (r = Throw PrismaP2002 /\ s' = s) \/
  (r = Ok (sd_refund (store q) rid d1) /\ tr_bookings s' = <[id := with_deposit b (sd_refund (store q) rid d1)]> (tr_bookings s0) /\
   ms_payments (tr_money s') = ms_payments (tr_money s)).
Proof.
  intros Hb Hd HK H. eapply finish_run in H as [?|H]; [by left| |exact Hd]. right.
  rewrite bind_run in H. destruct (tryJournal _ _ _) as [r1 s1] eqn:Ej. apply tryJournal_run in Ej as (-> & Eb & _ & _ & Em & _).
  rewrite bind_run in H. destruct (K _ s1) as [r2 s2] eqn:Ek. apply HK in Ek as (-> & Eb2 & Em2). step_in H. injection H as <- <-.
  split_and!; [done| |by rewrite Em2, Em]. rewrite Eb2, Eb. cbn. by rewrite Hb, insert_insert_eq.
Qed.

Lemma Qeq_bool_l x y : x == y -> Qeq_bool x 0 = Qeq_bool y 0.
Proof.
  intros E. destruct (Qeq_bool x 0) eqn:E1, (Qeq_bool y 0) eqn:E2; try done; [apply Qeq_bool_iff in E1; apply Qeq_bool_neq in E2|apply Qeq_bool_neq in E1; apply Qeq_bool_iff in E2]; exfalso; lra.
Qed.
Lemma released_status q p : column_ok q -> ~ inject_Z p / 100 <= 0 ->
  (if d_gt q 0 then SD_PARTIALLY_REFUNDED else SD_REFUNDED) =
  (if Qeq_bool (inject_Z p / 100) 0 then SD_FORFEITED else if Qeq_bool q 0 then SD_REFUNDED else SD_PARTIALLY_REFUNDED).
Proof.
  intros (_ & Hq & _) Hp. destruct (Qeq_bool (inject_Z p / 100) 0) eqn:E; [apply Qeq_bool_iff in E; rewrite E in Hp; lra|].
  destruct (d_gt q 0) eqn:Eg, (Qeq_bool q 0) eqn:Ez; dec_bool; try done; exfalso.
  - apply Qeq_bool_iff in Ez. lra.
  - apply Qeq_bool_neq in Ez. lra.
Qed.
Lemma releaseWith_outcome env id b d u reason s r s' : depositIn id s = Some (b, d) -> sd_status d = SD_HELD -> deposit_ok d ->
  releaseWith env id b d u reason s = (r, s') ->
  match r with Ok d' => deposit_settled env id b d (Release u reason) s d' s' | Throw e => unsettled id d e s s' end.
Proof.
  intros Hd Hst (Ha & Hq & Hle) H. destruct (column_diff _ _ Ha Hq Hle) as (p & Hp & E & Edec).
  pose proof (paise_of p _ Hp Edec) as [Ejs Est]. unfold releaseWith in H. cbv zeta in H. rewrite Ejs in H.
  step_in H. rewrite (bool_decide_true _ Hst) in H. step_in H.
  destruct (negb (d_le _ 0)) eqn:Epos; [|injection H as <- <-; by left]. apply negb_true_iff in Epos. dec_bool.
  rewrite bind_run in H. destruct (updateHeld id _ s) as [rc s1] eqn:Eu. eapply updateHeld_run in Eu; [|exact Hd].
  rewrite decide_True in Eu by done. destruct Eu as [-> ->]. step_in H. cbn [Nat.eqb negb] in H. step_in H.
  set (d1 := sd_settle _ _ _ d) in H. rewrite bind_run in H.
  match type of H with context [let (r, s') := ?m (putDeposit id b d1 s) in _] => destruct (m (putDeposit id b d1 s)) as [rr s2] eqn:Er end.
  assert (match rr with
    | Ok _ => tr_bookings s2 = <[id := with_deposit b d1]> (tr_bookings s) /\ tr_money s2 = (if isCollateral d then tr_money s
        else snd (refund (tn_refund env) (Some (b_customerId b)) id p None None (tr_money s)))
    | Throw e => exists d', depositIn id s2 = Some (with_deposit b d', d') /\ sd_amount d' = sd_amount d /\
        sd_refundedAmount d' = sd_refundedAmount d /\ sd_status d' = SD_HELD end) as Hr.
  { destruct (isCollateral d); [injection Er as <- <-; done|].
    eapply refundThrough_run in Er as (m & -> & Er); [|apply depositIn_put]. destruct rr as [x|e]; [by subst s2|].
    destruct Er as [_ ->]. eexists. split; [exact (depositIn_put id (with_deposit b d1) _ _)|done]. }
  destruct rr as [rid|e].
  2: { injection H as <- <-. right. destruct Hr as (d' & H1 & H2 & H3 & H4). exists (with_deposit b d'), d'. auto. }
  destruct Hr as [Hb Hm].
  eapply (finish_settled env id b d1) in H as [[-> ->]|(-> & Hb' & Hm')]; [..|exact Hb| |].
  - right. exists (with_deposit b d1), d1. split_and!; try done; [|by right]. apply depositIn_some. rewrite Hb, lookup_insert_eq. done.
  - unfold sd_refund, d1, sd_settle in *. cbn in *. split; cbn; try done.
    + by rewrite Est, <- E.
    + rewrite Est. rewrite Edec in Epos. by apply Qlt_le_weak.
    + rewrite (Qeq_bool_l _ _ Est). apply released_status; try done. rewrite <- Edec. lra.
    + exists p. split; [exact Est|]. rewrite Hm', Hm. by destruct (isCollateral d).
  - apply depositIn_some. rewrite Hb, lookup_insert_eq. done.
  - intros u0 t r1 t1 Ht. destruct (truthy u); [by apply tripAudit_run in Ht|by injection Ht as <- <-].
Qed.

Lemma actual_deduct q a : (0 < q <= 10 ^ 12)%Z -> column_ok a ->
  let x := if d_gt (of_number (rupees q)) a then a else of_number (rupees q) in
  x == d_min (inject_Z q / 100) a /\ column_ok x /\ x <= a /\ (0 < a -> 0 < x).
Proof.
  intros Hq (Hw & H0 & H1) x. assert (of_number (rupees q) == inject_Z q / 100) as E by (apply of_number_paise; unfold money; lia).
  assert (inject_Z q / 100 == inject_Z q * (1 # 100)) as Ed by field.
  assert (0 < inject_Z q) as Hp by (change 0 with (inject_Z 0); rewrite <- Zlt_Qlt; lia).
  assert (column_ok (inject_Z q / 100) \/ a < inject_Z q / 100) as Hc.
  { destruct (Qlt_le_dec a (inject_Z q / 100)) as [|Hle]; [by right|left]. split_and!; [by exists q|lra|lra]. }
  subst x. destruct (d_gt _ a) eqn:Eg, (d_min_spec (inject_Z q / 100) a) as [[? ->]|[? ->]]; dec_bool; rewrite E in *;
    destruct Hc as [Hc|?]; try (exfalso; lra); (split_and!; [lra|done|lra|intros; lra]).
Qed.
Lemma settleWith_outcome env id b d q u reason s r s' : depositIn id s = Some (b, d) -> sd_status d = SD_HELD -> deposit_ok d ->
  (0 < q <= 10 ^ 12)%Z -> 0 < sd_amount d -> settleWith env id b d (rupees q) u reason s = (r, s') ->
  match r with Ok d' => deposit_settled env id b d (Deduct q u reason) s d' s' | Throw e => unsettled id d e s s' end.
Proof.
  intros Hd Hst (Ha & _ & _) Hq Hpos H. unfold settleWith in H. cbv zeta in H. rewrite (bool_decide_true _ Hst) in H. cbn [negb] in H.
  destruct (actual_deduct q _ Hq Ha) as (Ex & Hx & Hle & Hx0). set (x := if d_gt (of_number _) _ then _ else _) in H, Ex, Hx, Hle, Hx0.
  specialize (Hx0 Hpos). destruct (column_diff _ _ Ha Hx Hle) as (p & Hp & E & Edec).
  pose proof (paise_of p _ Hp Edec) as [Ejs Est]. rewrite Ejs in H.
  assert (store x == x) as Esx by (apply store_exact; apply Hx).
  rewrite bind_run in H. destruct (updateHeld id _ s) as [rc s1] eqn:Eu. eapply updateHeld_run in Eu; [|exact Hd].
  rewrite decide_True in Eu by done. destruct Eu as [-> ->]. step_in H. cbn [Nat.eqb negb] in H. step_in H.
  set (d1 := sd_settle _ _ _ d) in H. rewrite bind_run in H.
  match type of H with context [let (r, s') := ?m (putDeposit id b d1 s) in _] => destruct (m (putDeposit id b d1 s)) as [rr s2] eqn:Er end.
  assert (d_gt (dec_sub (sd_amount d) x) 0 = negb (p =? 0)%Z) as Eg.
  { destruct (d_gt _ 0) eqn:Eg, (Z.eqb_spec p 0) as [->|Hne]; try done; dec_bool; exfalso; rewrite Edec in Eg.
    - revert Eg. by vm_compute.
    - assert (0 < inject_Z p / 100); [|lra]. apply Qlt_shift_div_l; [done|]. rewrite Qmult_0_l. change 0 with (inject_Z 0).
      rewrite <- Zlt_Qlt. lia. }
  rewrite Eg in Er.
  assert (match rr with
    | Ok _ => tr_bookings s2 = <[id := with_deposit b d1]> (tr_bookings s) /\ tr_money s2 = (if (p =? 0)%Z then tr_money s
        else snd (refund (tn_refund env) (Some (b_customerId b)) id p None None (tr_money s)))
    | Throw e => exists d', depositIn id s2 = Some (with_deposit b d', d') /\ sd_amount d' = sd_amount d /\
        sd_refundedAmount d' = sd_refundedAmount d /\ sd_status d' = SD_HELD end) as Hr.
  { destruct (p =? 0)%Z; cbn [negb] in Er; [injection Er as <- <-; done|].
    eapply refundThrough_run in Er as (m & -> & Er); [|apply depositIn_put]. destruct rr as [y|e]; [by subst s2|].
    destruct Er as [_ ->]. eexists. split; [exact (depositIn_put id (with_deposit b d1) _ _)|done]. }
  destruct rr as [rid|e].
  2: { injection H as <- <-. right. destruct Hr as (d' & H1 & H2 & H3 & H4). exists (with_deposit b d'), d'. auto. }
  destruct Hr as [Hb Hm].
  eapply (finish_settled env id b d1 _ _ _ s _ _ _ (fun _ => tripAudit u _ _)) in H as [[-> ->]|(-> & Hb' & Hm')]; [..|exact Hb| |].
  - right. exists (with_deposit b d1), d1. split_and!; try done; [|by right]. apply depositIn_some. rewrite Hb, lookup_insert_eq. done.
  - unfold sd_refund, d1, sd_settle in *. cbn in *. split; cbn; try done.
    + by rewrite Esx.
    + by rewrite Est, <- E, Ex.
    + rewrite Est, <- E. lra.
    + rewrite (Qeq_bool_l _ _ Est), (Qeq_bool_l _ _ Esx), Eg. destruct (Z.eqb_spec p 0) as [->|Hne]; cbn [negb]; [done|].
      assert (Qeq_bool (inject_Z p / 100) 0 = false) as ->.
      { apply not_true_iff_false. intros Hz%Qeq_bool_iff. assert (inject_Z p / 100 == inject_Z p * (1 # 100)) as Ed by field.
        assert (inject_Z p == inject_Z 0) as Hz' by (change (inject_Z 0) with 0; lra). apply Hne. by apply inject_Z_injective. }
      assert (Qeq_bool x 0 = false) as ->; [|done]. apply not_true_iff_false. intros Hz%Qeq_bool_iff. lra.
    + exists p. split; [exact Est|]. rewrite Hm', Hm. done.
  - apply depositIn_some. rewrite Hb, lookup_insert_eq. done.
  - intros u0 t r1 t1 Ht. by apply tripAudit_run in Ht.
Qed.
End parts.

(** ** A deposit is settled once *)
Section once.
Context {col : NumericColumn} {dec : DecimalArith} {num : DecimalNumbers}.

Lemma settlement_run env id b d x s r s' : depositIn id s = Some (b, d) -> sd_status d = SD_HELD -> deposit_ok d -> 0 < sd_amount d ->
  settlement_ok x -> runSettlement env id b d x s = (r, s') ->
  match r with Ok d' => deposit_settled env id b d x s d' s' | Throw e => unsettled id d e s s' end.
Proof.
  intros Hd Hst Hok Hpos Hx H. destruct x; cbn [runSettlement settlement_ok] in *;
    [by eapply releaseWith_outcome|by eapply settleWith_outcome].
Qed.
(** What the settlement of a held deposit does, success and failure alike.  A release or deduction that returns leaves the deposit row with everything accounted for: the deducted amount is what was asked for, at most the deposit, the refunded amount is exactly the rest, and the status is REFUNDED, PARTIALLY_REFUNDED or FORFEITED as these amounts say; the payment of the booking was asked to refund exactly those paise (nothing for collateral that is released, or when nothing remains), and no other payment changed.  One that throws left everything as it was or the deposit HELD for the next attempt with its amounts in place, unless the refund's id was taken by another deposit. *)
Theorem settlement_outcome env id b d x s r s' :
  depositIn id s = Some (b, d) -> sd_status d = SD_HELD -> deposit_ok d -> 0 < sd_amount d -> settlement_ok x ->
  runSettlement env id b d x s = (r, s') ->
  match r with Ok d' => deposit_settled env id b d x s d' s' | Throw e => unsettled id d e s s' end.
Proof. apply settlement_run. Qed.

Lemma settled_not_held env id b d x s d' s' : deposit_settled env id b d x s d' s' -> depositIn id s' = Some (with_deposit b d', d') /\ sd_status d' <> SD_HELD.
Proof.
  intros H. split; [apply depositIn_some; by rewrite (st_row _ _ _ _ _ _ _ _ H), lookup_insert_eq|].
  rewrite (st_status _ _ _ _ _ _ _ _ H). by destruct (Qeq_bool _ 0); [|destruct (Qeq_bool _ 0)].
Qed.
Lemma updateHeld_refused {A} id f (K : M TripStore A) b d s : depositIn id s = Some (b, d) -> sd_status d <> SD_HELD ->
  (count ← updateHeld id f; require (negb (Nat.eqb count 0)) ConflictException ;; K) s = (Throw ConflictException, s).
Proof.
  intros Hd Hne. rewrite bind_run. destruct (updateHeld id f s) as [r s1] eqn:E. eapply updateHeld_run in E; [|exact Hd].
  rewrite decide_False in E by done. by destruct E as [-> ->].
Qed.
(** C23. A held deposit is paid back once.  When two requests read the same HELD deposit, each to release it or to deduct from it, with any amounts and answers of the gateway, and one of them has returned, the other throws and changes nothing: neither money, nor ledger, nor the row. *)
Theorem second_settlement_refused env env' id b d x y s d' s' :
  depositIn id s = Some (b, d) -> sd_status d = SD_HELD -> deposit_ok d -> 0 < sd_amount d -> settlement_ok x ->
  runSettlement env id b d x s = (Ok d', s') ->
  exists e, runSettlement env' id b d y s' = (Throw e, s') /\ e ∈ [ConflictException; BadRequestException].
Proof.
  intros Hd Hst Hok Hpos Hx H. eapply settlement_run in H; [|done..].
  destruct (settled_not_held _ _ _ _ _ _ _ _ H) as [Hd' Hne].
  destruct y as [u reason|q u reason]; cbn [runSettlement].
  - unfold releaseWith. step. rewrite (bool_decide_true _ Hst). step. destruct (negb (d_le _ 0)); [|eexists; split; [done|set_solver]].
    step. eexists. split; [by eapply updateHeld_refused|set_solver].
  - unfold settleWith. rewrite (bool_decide_true _ Hst). cbn [negb]. cbv zeta. eexists. split; [by eapply updateHeld_refused|set_solver].
Qed.
End once.

(** ** The hourly release *)
Section hourly.
Context {col : NumericColumn} {dec : DecimalArith} {num : DecimalNumbers}.

(** A handler that leaves all rows but one booking's. *)
Definition only {A} (id : string) (m : M TripStore A) : Prop := forall i, i <> id -> keeps (fun s => tr_bookings s !! i) m.
Lemma only_bind {A B} id (m : M TripStore A) (k : A -> M TripStore B) : only id m -> (forall a, only id (k a)) -> only id (m ≫= k).
Proof. intros Hm Hk i Hi x. apply preserves_bind; [by apply Hm|intros a; by apply Hk]. Qed.
Lemma only_ret {A} id (a : A) : only id (mret (M:=M TripStore) a).
Proof. intros i Hi x. apply preserves_ret. Qed.
Lemma only_throw {A} id e : only id (throw (A:=A) e).
Proof. intros i Hi x. apply preserves_throw. Qed.
Lemma only_require id b e : only id (require b e).
Proof. intros i Hi x. apply preserves_require. Qed.
Lemma only_put id b d s s' : s' = putDeposit id b d s -> forall i, i <> id -> tr_bookings s' !! i = tr_bookings s !! i.
Proof. intros -> i Hi. cbn. by apply lookup_insert_ne. Qed.
Lemma only_held id f : only id (updateHeld id f).
Proof.
  intros i Hi x s r s' H <-. unfold updateHeld in H. step_in H. destruct (depositIn id s) as [[b d]|]; [|by injection H as <- <-].
  destruct (decide _); step_in H; [|by injection H as <- <-]. injection H as <- <-. cbn. by apply lookup_insert_ne.
Qed.
Lemma only_update id f : only id (updateBookingDeposit id f).
Proof.
  intros i Hi x s r s' H <-. unfold updateBookingDeposit in H. step_in H. destruct (depositIn id s) as [[b d]|]; [|by injection H as <- <-].
  step_in H. injection H as <- <-. cbn. by apply lookup_insert_ne.
Qed.
Lemma only_write id q rid : only id (writeRefund id q rid).
Proof.
  intros i Hi x. apply preserves_get. intros s r s' Hs. rewrite require_bind. destruct (negb _); [|by intros [= <- <-]].
  intros H. by apply (only_update id _ i Hi x _ _ _ H).
Qed.
Lemma only_refund env id b paise undo : only id (refundThrough env id b paise undo).
Proof.
  intros i Hi x. apply preserves_try_catch.
  - apply preserves_bind; [by apply preserves_zoom|intros; apply preserves_ret].
  - intros e. apply preserves_bind; [by apply only_update|intros; apply preserves_throw].
Qed.
Lemma only_journal env id input : only id (tryJournal env input).
Proof. intros i Hi x s r s' H <-. by apply tryJournal_run in H as (_ & -> & _). Qed.
Lemma only_audit id u a e : only id (tripAudit u a e).
Proof. intros i Hi x s r s' H <-. by apply tripAudit_run in H as (_ & -> & _). Qed.
Create HintDb only discriminated.
#[local] Hint Resolve only_bind only_ret only_throw only_require only_held only_write only_refund only_journal only_audit : only.
Lemma only_release env id b d u reason : only id (releaseWith env id b d u reason).
Proof.
  unfold releaseWith. cbv zeta. do 4 (apply only_bind; [auto with only|intros]).
  apply only_bind; [destruct (isCollateral d); auto with only|intros]. do 2 (apply only_bind; [auto with only|intros]).
  apply only_bind; [destruct (truthy u)|intros]; auto with only.
Qed.
Lemma only_releaseBooking env id u reason : only id (releaseBookingDeposit env id u reason).
Proof.
  intros i Hi x. apply preserves_get. intros s r s' Hs. destruct (depositIn id s) as [[b d]|]; [|by intros [= <- <-]].
  intros H. refine ((_ : preserves (fun s => tr_bookings s !! i = x) _) _ _ _ H Hs). apply preserves_bind; [by apply only_release|intros; apply preserves_ret].
Qed.
Lemma releaseEach_run env ids s : exists s', releaseEach env ids s = (Ok tt, s') /\ forall i, i ∉ ids -> tr_bookings s' !! i = tr_bookings s !! i.
Proof.
  revert s. induction ids as [|id ids IH]; intros s; [by exists s|]. cbn [releaseEach]. rewrite bind_run. unfold try_catch. rewrite bind_run.
  destruct (releaseBookingDeposit env id None _ s) as [r1 s1] eqn:E.
  assert (forall i, i <> id -> tr_bookings s1 !! i = tr_bookings s !! i) as Hs.
  { intros i Hi. exact (only_releaseBooking env id _ _ i Hi _ _ _ _ E eq_refl). }
  destruct (IH s1) as (s' & E' & H'). exists s'. split; [destruct r1; step; exact E'|].
  intros i [Hi Hn]%not_elem_of_cons. by rewrite H', Hs.
Qed.
(** The hourly release touches only what may be released.  Whatever the single releases return or throw, [autoReleaseEligibleDeposits] returns, and every booking whose row it changed was COMPLETED, last updated at least 24 hours before, had its deposit HELD and no damage claim that is submitted, under review, approved or partially approved; at most twenty bookings change. *)
Theorem auto_release_spares_claims env updatedAt s :
  exists s', autoReleaseEligibleDeposits env updatedAt s = (Ok tt, s') /\
  exists ids, (length ids <= 20)%nat /\ forall i, tr_bookings s' !! i <> tr_bookings s !! i ->
    i ∈ ids /\ exists b d, tr_bookings s !! i = Some b /\ b_status b = BS_COMPLETED /\ b_securityDeposit b = Some d /\
      sd_status d = SD_HELD /\ (updatedAt i <= tn_now env - 86400000)%Z /\
      forall k c, tr_claims s !! k = Some c -> dc_bookingId c = i -> dc_status c ∉ openClaimStatuses.
Proof.
  unfold autoReleaseEligibleDeposits. step. set (l := List.filter _ _). set (ids := fst <$> take 20 l).
  destruct (releaseEach_run env ids s) as (s' & E & Hs). exists s'. split; [exact E|]. exists ids. split.
  { unfold ids. rewrite length_fmap. rewrite length_take; lia. }
  intros i Hne. destruct (decide (i ∈ ids)) as [Hin|Hn]; [|destruct Hne; by apply Hs]. split; [done|].
  apply list_elem_of_fmap in Hin as ([i' b] & -> & Hin). apply elem_of_take in Hin as (n & Hl & _). apply list_elem_of_lookup_2 in Hl.
  apply list_elem_of_In, List.filter_In in Hl as [Hl He]. apply list_elem_of_In, elem_of_map_to_list in Hl. unfold eligible in He. cbn [fst snd] in *.
  apply andb_true_iff in He as [[[Hd Hc]%andb_true_iff Hu]%andb_true_iff Hopen].
  destruct (b_securityDeposit b) as [d|] eqn:Eb; [|done]. exists b, d. apply bool_decide_eq_true in Hd, Hc. split_and!; try done; [lia|].
  intros k c Hk Hbk Hin. apply negb_true_iff in Hopen. unfold hasOpenClaim in Hopen.
  apply not_true_iff_false in Hopen. apply Hopen, existsb_exists. exists (k, c). split; [by apply list_elem_of_In, elem_of_map_to_list|].
  cbn. by rewrite Hbk, String.eqb_refl, bool_decide_true.
Qed.
End hourly.

(** ** Collateral tags *)
Section collateral.
Context {col : NumericColumn} {dec : DecimalArith} {num : DecimalNumbers}.
Lemma split_nonempty c s : split_on c s <> [].
Proof. induction s as [|a s IH]; simpl; [done|]. destruct (split_on c s); [done|]. by destruct (Ascii.eqb a c). Qed.
Lemma join_split c s : join_with (String c "") (split_on c s) = s.
Proof.
  induction s as [|a s IH]; [done|]. simpl. pose proof (split_nonempty c s) as Hne. destruct (split_on c s) as [|w ws]; [done|].
  destruct (Ascii.eqb_spec a c) as [->|].
  - change (String c (join_with (String c "") (w :: ws)) = String c s). by rewrite IH.
  - rewrite <- IH. by destruct ws.
Qed.
Lemma parse_tag dto : parseCollateral (Some (collateralTag dto)) =
  Some {| cl_collateralType := collateralName (rc_collateralType dto); cl_collateralIdentifier := collateralIdentifier dto |}.
Proof.
  assert (collateralTag dto = "COLLATERAL" +:+ String collateral_sep (collateralName (rc_collateralType dto) +:+ String collateral_sep (collateralIdentifier dto))) as E.
  { unfold collateralTag. by destruct (rc_collateralType dto). }
  unfold parseCollateral. assert (truthy (Some (collateralTag dto)) = Some (collateralTag dto)) as -> by done.
  assert (startsWith "COLLATERAL:" (collateralTag dto) = true) as -> by done.
  rewrite E, split_on_app by reflexivity. rewrite split_on_app by (by destruct (rc_collateralType dto)).
  cbn [nth_error skipn]. do 2 f_equal; [by destruct (rc_collateralType dto)|]. apply (join_split collateral_sep).
Qed.
(** Collateral reads back as it was recorded.  After a vendor or administrator recorded collateral for a booking, the deposit is HELD and [getCollateral], asked by the same user, finds the type and the identifier that were recorded, whatever characters the registration or document number has. *)
Theorem collateral_roundtrip env id dto user s d s' :
  recordCollateral env id dto user s = (Ok d, s') ->
  sd_status d = SD_HELD /\
  getCollateral id user s' = (Ok (Some {| cl_collateralType := collateralName (rc_collateralType dto);
                                          cl_collateralIdentifier := collateralIdentifier dto |}), s').
Proof.
  unfold recordCollateral. step. destruct (tr_bookings s !! id) as [b|] eqn:Eb; [|done]. step. destruct (_ || _) eqn:Ea; [|done].
  step. destruct (bool_decide (b_status b ∈ _)); [|done]. step. destruct (collateralValid dto); [|done]. step. unfold upsertHeld. step. intros [= <- <-].
  set (d := match b_securityDeposit b with Some _ => _ | None => _ end).
  assert (sd_status d = SD_HELD /\ sd_razorpayPaymentId d = Some (collateralTag dto)) as [H1 H2] by (unfold d; by destruct (b_securityDeposit b)).
  split; [done|]. unfold getCollateral, getBookingDeposit. step. cbn. rewrite lookup_insert_eq. step.
  assert (bool_decide (tu_role user ∈ [ROLE_ADMIN; ROLE_SUPPORT_AGENT]) || String.eqb (b_customerId (with_deposit b d)) (tu_userId user) ||
          isVendorOf user (with_deposit b d) (add_trip_audit {| al_userId := tu_userId user; al_action := "CUSTOMER_COLLATERAL_RECORDED";
            al_entityId := tn_depositId env id |} (putDeposit id b d s)) = true) as ->.
  { apply orb_true_iff in Ea as [Ea%bool_decide_eq_true|Ea].
    - rewrite (bool_decide_true (tu_role user ∈ _)); [done|rewrite Ea; set_solver].
    - apply orb_true_iff. right. exact Ea. }
  step. cbn [b_securityDeposit with_deposit]. rewrite H2, parse_tag. done.
Qed.
End collateral.

(** ** The protocol of damage claims *)
Section claims.
Context {col : NumericColumn} {dec : DecimalArith} {num : DecimalNumbers}.

Lemma claims_held id f : keeps tr_claims (updateHeld id f).
Proof.
  intros x s r s' H <-. unfold updateHeld in H. step_in H. destruct (depositIn id s) as [[b d]|]; [|by injection H as <- <-].
  destruct (decide _); step_in H; by injection H as <- <-.
Qed.
Lemma claims_update id f : keeps tr_claims (updateBookingDeposit id f).
Proof.
  intros x s r s' H <-. unfold updateBookingDeposit in H. step_in H. destruct (depositIn id s) as [[b d]|]; [|by injection H as <- <-].
  step_in H. by injection H as <- <-.
Qed.
Lemma claims_write id q rid : keeps tr_claims (writeRefund id q rid).
Proof.
  intros x. apply preserves_get. intros s r s' Hs. rewrite require_bind. destruct (negb _); [|by intros [= <- <-]].
  intros H. by apply (claims_update id _ x _ _ _ H).
Qed.
Lemma claims_refund env id b paise undo : keeps tr_claims (refundThrough env id b paise undo).
Proof.
  intros x. apply preserves_try_catch.
  - apply preserves_bind; [by apply preserves_zoom|intros; apply preserves_ret].
  - intros e. apply preserves_bind; [by apply claims_update|intros; apply preserves_throw].
Qed.
Lemma claims_journal env input : keeps tr_claims (tryJournal env input).
Proof. intros x s r s' H <-. by apply tryJournal_run in H as (_ & _ & -> & _). Qed.
Lemma claims_audit u a e : keeps tr_claims (tripAudit u a e).
Proof. intros x s r s' [= <- <-] <-. done. Qed.
#[local] Hint Extern 1 (preserves (fun t => tr_claims t = _) _) => first
  [ apply claims_held | apply claims_update | apply claims_write | apply claims_refund | apply claims_journal | apply claims_audit ] : preserves.
Lemma claims_release env id u reason : keeps tr_claims (releaseBookingDeposit env id u reason).
Proof.
  intros x. apply preserves_bind; [apply preserves_read|intros s]. destruct (depositIn id s) as [[b d]|]; [|apply preserves_ret].
  apply preserves_bind; [|intros; apply preserves_ret]. unfold releaseWith. cbv zeta.
  do 4 (apply preserves_bind; [auto with preserves|intros]). apply preserves_bind; [destruct (isCollateral d); auto with preserves|intros].
  do 2 (apply preserves_bind; [auto with preserves|intros]). apply preserves_bind; [destruct (truthy u)|intros]; auto with preserves.
Qed.
Lemma claims_settle env id q u reason : keeps tr_claims (settleDeduction env id q u reason).
Proof.
  intros x. apply preserves_bind; [apply preserves_read|intros s]. destruct (depositIn id s) as [[b d]|]; [|apply preserves_ret].
  apply preserves_bind; [|intros; apply preserves_ret]. unfold settleWith. destruct (negb _); [apply preserves_ret|]. cbv zeta.
  do 2 (apply preserves_bind; [auto with preserves|intros]). apply preserves_bind; [destruct (d_gt _ 0); auto with preserves|intros].
  auto 8 with preserves.
Qed.

Inductive ClaimOp : Type :=
  | OpFile (freshId bookingId : string) (paise : Z) (user : TripUser)
  | OpDispute (claimId customerDispute : string) (user : TripUser)
  | OpAdjudicate (env : TripEnv) (claimId : string) (decision : ClaimDecision) (paise : option Z) (adminNotes adminUserId : string).
Definition runClaim (op : ClaimOp) (s : TripStore) : TripStore :=
  match op with
  | OpFile id bid q user => snd (createClaim id bid (rupees q) user s)
  | OpDispute id text user => snd (disputeClaim id text user s)
  | OpAdjudicate env id decision q notes u => snd (adjudicateClaim env id decision (rupees <$> q) notes u s)
  end.
Definition claimPaise (op : ClaimOp) : Prop :=
  match op with
  | OpFile _ _ q _ => (0 < q <= 10 ^ 10)%Z
  | OpAdjudicate _ _ _ (Some q) _ _ => (Z.abs q <= 10 ^ 10)%Z
  | _ => True
  end.
(** Everything else leaves the claims alone. *)
Inductive claim_step : TripStore -> TripStore -> Prop :=
  | claim_step_op op s : claimPaise op -> claim_step s (runClaim op s)
  | claim_step_world s s' : tr_claims s' = tr_claims s -> claim_step s s'.

Definition undecided (c : DamageClaim) : Prop := dc_status c ∉ finalStatuses.
Definition claim_ok (c : DamageClaim) : Prop :=
  (exists n, (0 < n <= 10 ^ 10)%Z /\ dc_claimedAmount c == inject_Z n / 100) /\
  match dc_status c with
  | DC_SUBMITTED | DC_UNDER_REVIEW | DC_REJECTED => dc_approvedAmount c = None
  | DC_APPROVED => exists a, dc_approvedAmount c = Some a /\ a == dc_claimedAmount c
  | DC_PARTIALLY_APPROVED => exists a, dc_approvedAmount c = Some a /\ 0 < a /\ a <= dc_claimedAmount c
  | DC_SETTLED => False
  end.
(** What an operation may do to the table. *)
Inductive claim_moved (s s' : TripStore) : Prop :=
  | moved_none : tr_claims s' = tr_claims s -> claim_moved s s'
  | moved_new id c : tr_claims s !! id = None -> tr_claims s' = <[id := c]> (tr_claims s) -> dc_status c = DC_SUBMITTED -> claim_ok c ->
      (forall i x, tr_claims s !! i = Some x -> dc_bookingId x = dc_bookingId c -> dc_status x ∈ [DC_REJECTED; DC_SETTLED]) -> claim_moved s s'
  | moved_on id c c' : tr_claims s !! id = Some c -> undecided c -> tr_claims s' = <[id := c']> (tr_claims s) ->
      dc_bookingId c' = dc_bookingId c -> dc_vendorId c' = dc_vendorId c -> dc_claimedAmount c' = dc_claimedAmount c ->
      dc_status c' <> DC_SUBMITTED -> claim_ok c' -> claim_moved s s'.

Definition claims_ok (s : TripStore) : Prop := forall id c, tr_claims s !! id = Some c -> claim_ok c.
Lemma updateClaim_run id f s r s' : updateClaim id f s = (r, s') ->
  (exists e, r = Throw e /\ s' = s) \/ exists c, tr_claims s !! id = Some c /\ r = Ok (f c) /\ s' = set_claims (<[id := f c]> (tr_claims s)) s.
Proof.
  unfold updateClaim, putClaim. step. destruct (tr_claims s !! id) as [c|] eqn:E; [|intros [= <- <-]; left; by eexists].
  step. destruct (negb _); [|intros [= <- <-]; left; by eexists]. step. intros [= <- <-]. right. by exists c.
Qed.
Lemma createClaim_moves id bid q user s r s' : (0 < q <= 10 ^ 10)%Z -> createClaim id bid (rupees q) user s = (r, s') -> claim_moved s s'.
Proof.
  intros Hq. unfold createClaim, try_catch. destruct (transaction _ s) as [[c|e] s1] eqn:E; [intros [= <- <-]|].
  2: { apply transaction_Throw in E as [-> _]. unfold throw. intros [= <- <-]. by apply moved_none. }
  rewrite transaction_Ok in E. step_in E. destruct (tr_bookings s !! bid) as [b|]; [|done]. step_in E.
  destruct (_ || _) in E; [|done]. step_in E. destruct (bool_decide (b_status b = _)) in E; [|done]. step_in E.
  destruct (negb (existsb _ _)) eqn:Eex; [|done]. step_in E. destruct (_ && _) eqn:En; [|done]. unfold putClaim in E. step_in E.
  injection E as <- <-. apply andb_true_iff in En as [Hfr%negb_true_iff%bool_decide_eq_false _]. apply negb_true_iff in Eex.
  assert (store (of_number (rupees q)) == inject_Z q / 100) as Eq.
  { rewrite store_exact; [by apply of_number_paise; unfold money; lia|]. exists q. apply of_number_paise. unfold money; lia. }
  eapply (moved_new _ _ id); [by apply eq_None_not_Some|done|done| |].
  - split; [exists q; split; [lia|exact Eq]|done].
  - cbn. intros i x Hx Hb. apply not_true_iff_false in Eex. destruct (decide (dc_status x ∈ [DC_REJECTED; DC_SETTLED])); [done|].
    exfalso. apply Eex, existsb_exists. exists (i, x). split; [by apply list_elem_of_In, elem_of_map_to_list|]. cbn.
    by rewrite Hb, String.eqb_refl, bool_decide_false.
Qed.
Lemma disputeClaim_moves id text user s r s' : claims_ok s -> disputeClaim id text user s = (r, s') -> claim_moved s s'.
Proof.
  intros Hs. unfold disputeClaim. step. destruct (tr_claims s !! id) as [c|] eqn:E; [|intros [= <- <-]; by apply moved_none]. step.
  destruct (tr_bookings s !! _); [|intros [= <- <-]; by apply moved_none]. step. destruct (String.eqb _ _); [|intros [= <- <-]; by apply moved_none].
  step. case_bool_decide as Hst; [|intros [= <- <-]; by apply moved_none]. intros H. apply updateClaim_run in H as [(e & _ & ->)|(c' & E' & _ & ->)]; [by apply moved_none|].
  rewrite E in E'. injection E' as <-. destruct (Hs _ _ E) as [Hn Hok].
  eapply (moved_on _ _ id c); [done| |done|done|done|done|done|].
  - unfold undecided, finalStatuses. destruct (dc_status c); set_solver.
  - split; [exact Hn|]. cbn. apply elem_of_cons in Hst as [Hst|Hst%list_elem_of_singleton]; by rewrite Hst in Hok.
Qed.
Lemma approved_between n a : (0 < n <= 10 ^ 10)%Z -> (Z.abs a <= 10 ^ 10)%Z -> nonzero (rupees a) && negb (js_le (rupees a) 0) = true ->
  js_lt (rupees n) (rupees a) = false ->
  (0 < a <= n)%Z /\ (js_lt (rupees a) (rupees n) = false -> a = n) /\ store (of_number (rupees a)) == inject_Z a / 100.
Proof.
  intros Hn Ha Hp Hlt. assert (money n) by (unfold money; lia). assert (money a) by (unfold money; lia).
  assert (forall x y, money x -> money y -> js_lt (rupees x) (rupees y) = false -> (y <= x)%Z) as Hle.
  { intros x y Hx Hy Hl. apply rupees_le; [done..|]. unfold js_lt in Hl. apply negb_false_iff in Hl. by apply Qle_bool_iff. }
  assert (0 < a)%Z as Hpos.
  { apply andb_true_iff in Hp as [_ Hp%negb_true_iff]. apply Z.nle_gt. intros Ha0. apply not_true_iff_false in Hp. apply Hp.
    unfold js_le. apply Qle_bool_iff. unfold rupees. apply rnd_nonpos. apply Qle_shift_div_r; [done|]. rewrite Qmult_0_l.
    change 0 with (inject_Z 0). by rewrite <- Zle_Qle. }
  split_and!; [done|by apply Hle|intros Hb; apply Z.le_antisymm; [by apply Hle|by apply Hle]|].
  rewrite store_exact; [by apply of_number_paise|]. exists a. by apply of_number_paise.
Qed.

Lemma rejectClaim_moves env id c notes u s r s' : claims_ok s -> tr_claims s !! id = Some c -> undecided c ->
  rejectClaim env id c notes u s = (r, s') -> claim_moved s s'.
Proof.
  intros Hs Hc Hu. unfold rejectClaim. rewrite bind_run. destruct (updateClaim id _ s) as [r1 s1] eqn:E.
  apply updateClaim_run in E as [(e & -> & ->)|(c' & E' & -> & ->)]; [intros [= <- <-]; by apply moved_none|].
  rewrite Hc in E'. injection E' as <-. intros H.
  set (s1 := set_claims _ s) in H. set (c1 := claim_set _ _ _ _ c) in s1.
  assert (tr_claims s' = tr_claims s1) as El.
  { refine ((_ : preserves (fun t => tr_claims t = tr_claims s1) _) _ _ _ H eq_refl).
    apply preserves_bind; [apply claims_release|intros]. auto with preserves. }
  destruct (Hs _ _ Hc) as [Hn Hok]. unfold undecided, finalStatuses in Hu.
  eapply (moved_on _ _ id c c1); [done|done|exact El|done|done|done|done|].
  split; [exact Hn|]. cbn. destruct (dc_status c); try done; set_solver.
Qed.
Lemma approveClaim_moves env id c decision q ceiling notes u s r s' : claims_ok s -> tr_claims s !! id = Some c -> undecided c ->
  (forall a, q = Some a -> (Z.abs a <= 10 ^ 10)%Z) -> approveClaim env id c decision (rupees <$> q) ceiling notes u s = (r, s') -> claim_moved s s'.
Proof.
  intros Hs Hc Hu Hq. unfold approveClaim. destruct q as [a|]; cbn [fmap option_fmap option_map]; step; [|intros [= <- <-]; by apply moved_none].
  specialize (Hq a eq_refl). destruct (Hs _ _ Hc) as [(n & Hn & En) Hok].
  rewrite (rnd_column n _ En). destruct (_ && _) eqn:Hp; [|intros [= <- <-]; by apply moved_none]. step. cbv zeta.
  destruct (js_lt (rupees n) (rupees a)) eqn:Hlt; [intros [= <- <-]; by apply moved_none|]. cbn [negb]. step.
  match goal with |- (if ?b then _ else _) = _ -> _ => destruct b end; [|intros [= <- <-]; by apply moved_none].
  destruct (approved_between n a Hn Hq Hp Hlt) as (Han & Heq & Est). set (st := if _ || _ then _ else _).
  rewrite bind_run. destruct (settleDeduction _ _ _ _ _ s) as [r1 s1] eqn:E1.
  pose proof (claims_settle _ _ _ _ _ (tr_claims s) _ _ _ E1 eq_refl) as El1. destruct r1 as [o|e]; [|intros [= <- <-]; by apply moved_none].
  rewrite bind_run. destruct (updateClaim id _ s1) as [r2 s2] eqn:E2.
  apply updateClaim_run in E2 as [(e & -> & ->)|(c' & E' & -> & ->)]; [intros [= <- <-]; by apply moved_none|].
  rewrite El1, Hc in E'. injection E' as <-. step. intros [= <- <-].
  assert (inject_Z a / 100 == inject_Z a * (1 # 100)) as Ea by field. assert (inject_Z n / 100 == inject_Z n * (1 # 100)) as Enn by field.
  assert (0 < inject_Z a) by (change 0 with (inject_Z 0); rewrite <- Zlt_Qlt; lia).
  assert (inject_Z a <= inject_Z n) by (rewrite <- Zle_Qle; lia).
  eapply (moved_on _ _ id c); [done|done|cbn; by rewrite El1|done|done|done| |].
  - cbn. unfold st. by destruct (_ || _).
  - split; [exists n; done|]. cbn. unfold st. destruct (bool_decide _ || js_lt (rupees a) (rupees n)) eqn:Eb.
    + eexists. split; [done|]. rewrite Est, En. lra.
    + apply orb_false_iff in Eb as [_ Eb]. eexists. split; [done|]. by rewrite Est, En, (Heq Eb).
Qed.
Lemma adjudicateClaim_moves env id decision q notes u s r s' : claims_ok s -> (forall a, q = Some a -> (Z.abs a <= 10 ^ 10)%Z) ->
  adjudicateClaim env id decision (rupees <$> q) notes u s = (r, s') -> claim_moved s s'.
Proof.
  intros Hs Hq. unfold adjudicateClaim, adjudicateWith. step. destruct (tr_claims s !! id) as [c|] eqn:E; [|intros [= <- <-]; by apply moved_none].
  step. case_bool_decide as Hu; [intros [= <- <-]; by apply moved_none|]. cbn [negb].
  destruct (decide (decision = CD_REJECTED)); [by apply rejectClaim_moves|by apply approveClaim_moves].
Qed.
Lemma runClaim_moves op s : claims_ok s -> claimPaise op -> claim_moved s (runClaim op s).
Proof.
  intros Hs Hp. destruct op; cbn [runClaim claimPaise] in *.
  - eapply createClaim_moves; [done|apply surjective_pairing].
  - eapply disputeClaim_moves; [done|apply surjective_pairing].
  - eapply adjudicateClaim_moves; [done| |apply surjective_pairing]. by intros a ->.
Qed.

(** One claim of a booking at a time. *)
Definition claims_exclusive (s : TripStore) : Prop := forall i j c d, tr_claims s !! i = Some c -> tr_claims s !! j = Some d ->
  dc_bookingId c = dc_bookingId d -> dc_status c ∉ [DC_REJECTED; DC_SETTLED] -> dc_status d ∉ [DC_REJECTED; DC_SETTLED] -> i = j.
Lemma moved_claims s s' : claim_moved s s' -> claims_ok s -> claims_exclusive s -> claims_ok s' /\ claims_exclusive s'.
Proof.
  intros [E|id c Hn E Hst Hok Hex|id c c' Hc Hu E Eb _ _ Hst Hok] Hs Hx.
  - split; [intros i x; rewrite E; apply Hs|]. intros i j x y. rewrite E. apply Hx.
  - split.
    + intros i x. rewrite E. intros [[<- <-]|[_ Hx']]%lookup_insert_Some; [done|by eapply Hs].
    + intros i j x y. rewrite E. intros [[<- <-]|[Hi Hx']]%lookup_insert_Some [[<- <-]|[Hj Hy]]%lookup_insert_Some Hb Hox Hoy; [done| | |by eapply Hx].
      * destruct Hoy. by eapply Hex.
      * destruct Hox. by eapply Hex.
  - split.
    + intros i x. rewrite E. intros [[<- <-]|[_ Hx']]%lookup_insert_Some; [done|by eapply Hs].
    + assert (dc_status c ∉ [DC_REJECTED; DC_SETTLED]) as Hc0.
      { intros Hin. apply Hu. unfold finalStatuses. set_solver. }
      intros i j x y. rewrite E. intros [[<- <-]|[Hi Hx']]%lookup_insert_Some [[<- <-]|[Hj Hy]]%lookup_insert_Some Hb Hox Hoy; [done| | |by eapply Hx].
      * eapply (Hx _ _ c y); try done. congruence.
      * eapply (Hx _ _ x c); try done. congruence.
Qed.
(** A claim later on: the same claim, unchanged once it is decided. *)
Definition claim_later (c c' : DamageClaim) : Prop :=
  dc_bookingId c' = dc_bookingId c /\ dc_vendorId c' = dc_vendorId c /\ dc_claimedAmount c' = dc_claimedAmount c /\
  (dc_status c' = DC_SUBMITTED -> dc_status c = DC_SUBMITTED) /\ (dc_status c ∈ finalStatuses -> c' = c).
Lemma moved_later s s' id c : claim_moved s s' -> tr_claims s !! id = Some c -> exists c', tr_claims s' !! id = Some c' /\ claim_later c c'.
Proof.
  intros [E|i x Hn E _ _ _|i x c' Hc Hu E Eb Ev Ea Hst _] Hid; rewrite E.
  - by exists c.
  - exists c. rewrite lookup_insert_ne by congruence. done.
  - destruct (decide (i = id)) as [->|].
    + rewrite lookup_insert_eq. exists c'. split; [done|]. rewrite Hid in Hc. injection Hc as <-. split_and!; done.
    + rewrite lookup_insert_ne by done. by exists c.
Qed.
Lemma claim_later_trans c d e : claim_later c d -> claim_later d e -> claim_later c e.
Proof.
  intros (H1 & H2 & H3 & H4 & H5) (G1 & G2 & G3 & G4 & G5). split_and!; try congruence; [tauto|].
  intros Hf. specialize (H5 Hf). subst d. by apply G5.
Qed.
Lemma step_claims s s' : claim_step s s' -> claims_ok s -> claims_exclusive s ->
  claims_ok s' /\ claims_exclusive s' /\ forall id c, tr_claims s !! id = Some c -> exists c', tr_claims s' !! id = Some c' /\ claim_later c c'.
Proof.
  intros Hst Hs Hx. assert (claim_moved s s') as Hm by (destruct Hst; [by apply runClaim_moves|by apply moved_none]).
  destruct (moved_claims _ _ Hm Hs Hx). split_and!; [done..|]. intros id c. by apply moved_later.
Qed.
Lemma steps_claims s s' : rtc claim_step s s' -> claims_ok s -> claims_exclusive s ->
  claims_ok s' /\ claims_exclusive s' /\ forall id c, tr_claims s !! id = Some c -> exists c', tr_claims s' !! id = Some c' /\ claim_later c c'.
Proof.
  induction 1 as [s|s s1 s2 Hst _ IH]; intros Hs Hx; [split_and!; [done..|]; intros id c Hc; by exists c|].
  destruct (step_claims _ _ Hst Hs Hx) as (Hs1 & Hx1 & Hl). destruct (IH Hs1 Hx1) as (Hs2 & Hx2 & Hl2). split_and!; [done..|].
  intros id c Hc. destruct (Hl id c Hc) as (c1 & Hc1 & Hl1). destruct (Hl2 id c1 Hc1) as (c2 & Hc2 & Hl3).
  exists c2. split; [done|]. by eapply claim_later_trans.
Qed.
Lemma runClaims_steps ops s : Forall claimPaise ops -> rtc claim_step s (fold_left (fun s op => runClaim op s) ops s).
Proof.
  revert s. induction ops as [|op ops IH]; intros s; [constructor|]. intros [Hp H]%Forall_cons. cbn.
  eapply rtc_l; [by apply (claim_step_op op)|by apply IH].
Qed.
(** The protocol of damage claims.  From a table without claims, after any sequence of filings, disputes and adjudications (whatever they return or throw) interleaved with anything that leaves the claims alone: a booking has at most one claim that is neither rejected nor settled; an approved claim was approved for exactly the claimed amount and a partially approved one for more than nothing and at most it; undecided and rejected claims carry no approved amount; and whatever runs afterwards, a claim keeps its booking, vendor and claimed amount, never returns to SUBMITTED, and does not change any more once it is decided. *)
Theorem claims_follow_protocol s0 s s' : tr_claims s0 = ∅ -> rtc claim_step s0 s -> rtc claim_step s s' ->
  claims_exclusive s /\ (forall id c, tr_claims s !! id = Some c -> claim_ok c) /\
  forall id c, tr_claims s !! id = Some c -> exists c', tr_claims s' !! id = Some c' /\ claim_later c c'.
Proof.
  intros H0 Hr Hr'. destruct (steps_claims s0 s Hr) as (Hs & Hx & _).
  - intros id c. by rewrite H0, lookup_empty.
  - intros i j c d. by rewrite H0, lookup_empty.
  - split_and!; [done..|]. by apply (steps_claims s s' Hr').
Qed.
End claims.

(** ** A trip that ended *)
Definition held5000 (paymentId : string) : SecurityDeposit := newHeld 5000 (Some paymentId) 0.
Definition ended (st : BookingStatus) (d : SecurityDeposit) : Booking := with_deposit (standard_rental st) d.
Definition trip_store (b : Booking) (money : MoneyStore) (claims : gmap string DamageClaim) : TripStore :=
  {| tr_bookings := {["b1" := b]}; tr_money := money; tr_claims := claims; tr_disputes := ∅; tr_evidences := []; tr_audit := [];
     tr_vendorUser := {["v1" := "vu1"]}; tr_protection := ∅ |}.
Definition trip_env (answer : RazorpayRefundAnswer) : TripEnv :=
  {| tn_now := 200000000; tn_journalId := "j1"; tn_hasLedger := true; tn_depositId := fun id => "dep_" +:+ id;
     tn_refund := sample_env answer |}.
Definition processed : TripEnv := trip_env (RefundResponse "rfnd_1" "processed").
Definition completed : TripStore := trip_store (ended BS_COMPLETED (held5000 "pay_1")) (paid_store 6118) ∅.
Definition depositView1 (s : TripStore) : option (Q * Q * SecurityDepositStatus) :=
  (fun x => (Qred (sd_refundedAmount (snd x)), Qred (sd_deductedAmount (snd x)), sd_status (snd x))) <$> depositIn "b1" s.
Definition paymentView1 (s : TripStore) : option (PaymentStatus * option Q) :=
  (fun p => (pm_status p, pm_refundAmount p)) <$> (ms_payments (tr_money s) !! "b1").
Definition ledgerView (s : TripStore) : list (LedgerAccountType * LedgerEntrySide * Q) :=
  (fun e => (ple_accountType e, ple_side e, ple_amount e)) <$> ws_ledger (ms_wallets (tr_money s)).
Definition damage : Settlement := Deduct 120050 "a1" "scratched bumper".
Definition booking1 : Booking := ended BS_COMPLETED (held5000 "pay_1").
Definition settled_run : result SecurityDeposit * TripStore := runSettlement processed "b1" booking1 (held5000 "pay_1") damage completed.
Lemma completed_held : depositIn "b1" completed = Some (booking1, held5000 "pay_1").
Proof. vm_compute. reflexivity. Qed.
Lemma held5000_ok p : deposit_ok (held5000 p).
Proof.
  assert (column_ok 5000 /\ column_ok 0) as [H5 H0] by (split; (split; [by apply is_whole_paise_true|split; by vm_compute])).
  split_and!; [exact H5|exact H0|by vm_compute].
Qed.
Lemma settlement_outcome_witness :
  match settled_run.1 with Ok d' => deposit_settled processed "b1" booking1 (held5000 "pay_1") damage completed d' settled_run.2 | Throw _ => False end /\
  depositView1 settled_run.2 = Some (7599 # 2, 2401 # 2, SD_PARTIALLY_REFUNDED).
Proof.
  split; [|vm_compute; reflexivity]. assert (is_Ok settled_run.1 = true) as Hok by (vm_compute; reflexivity).
  pose proof (settlement_outcome processed "b1" booking1 (held5000 "pay_1") damage completed settled_run.1 settled_run.2
    completed_held eq_refl (held5000_ok _) ltac:(vm_compute; reflexivity) ltac:(cbn; lia) (surjective_pairing _)) as H.
  destruct settled_run.1; [exact H|discriminate Hok].
Defined.
Definition second_release : result SecurityDeposit * TripStore :=
  runSettlement processed "b1" booking1 (held5000 "pay_1") (Release (Some "a2") None) settled_run.2.
Lemma second_settlement_refused_witness :
  is_Ok settled_run.1 = true /\ exists e, second_release = (Throw e, settled_run.2) /\ e ∈ [ConflictException; BadRequestException].
Proof.
  split; [vm_compute; reflexivity|]. unfold second_release. destruct settled_run as [[d'|e] s'] eqn:E; [|exfalso; revert E; vm_compute; discriminate].
  eapply (second_settlement_refused processed processed "b1" booking1 (held5000 "pay_1") damage (Release (Some "a2") None) completed d' s').
  - exact completed_held.
  - reflexivity.
  - apply held5000_ok.
  - vm_compute. reflexivity.
  - cbn. lia.
  - exact E.
Defined.
Definition scooter : RecordCollateralDto :=
  {| rc_collateralType := CT_PHYSICAL_VEHICLE; rc_vehicleRegistrationNumber := Some "KA:01 4242"; rc_keysCollected := Some true;
     rc_documentType := None; rc_documentNumberMasked := None; rc_verifiedPhysically := None |}.
Definition yard : TripUser := {| tu_userId := "vu1"; tu_role := ROLE_VENDOR |}.
Definition confirmed : TripStore := trip_store (ended BS_CONFIRMED (held5000 "pay_1")) (paid_store 6118) ∅.
Definition with_scooter : TripStore := snd (recordCollateral processed "b1" scooter yard confirmed).
Lemma collateral_roundtrip_witness :
  getCollateral "b1" yard with_scooter = (Ok (Some {| cl_collateralType := "PHYSICAL_VEHICLE"; cl_collateralIdentifier := "KA:01 4242" |}), with_scooter).
Proof.
  unfold with_scooter. destruct (recordCollateral processed "b1" scooter yard confirmed) as [[d|e] s'] eqn:E; [|exfalso; revert E; vm_compute; discriminate].
  exact (proj2 (collateral_roundtrip processed "b1" scooter yard confirmed d s' E)).
Defined.
(** A claim that is filed, disputed and partly approved. *)
Definition claim_ops : list ClaimOp :=
  [OpFile "k1" "b1" 200000 yard; OpDispute "k1" "it was there before" {| tu_userId := "c1"; tu_role := ROLE_CUSTOMER |};
   OpFile "k2" "b1" 1000 yard; OpAdjudicate processed "k1" CD_APPROVED (Some 150000%Z) "half of the bumper" "a1"].
Definition claimed : TripStore := fold_left (fun s op => runClaim op s) claim_ops completed.
Definition refiled : TripStore := runClaim (OpAdjudicate processed "k1" CD_REJECTED None "second thoughts" "a1") claimed.
Definition claimView (s : TripStore) : list (string * DamageClaimStatus * option Q) :=
  (fun x => (fst x, dc_status (snd x), Qred <$> dc_approvedAmount (snd x))) <$> map_to_list (tr_claims s).
Lemma claims_follow_protocol_witness :
  claims_exclusive claimed /\ claimView claimed = [("k1", DC_PARTIALLY_APPROVED, Some 1500)] /\ claimView refiled = claimView claimed.
Proof.
  split; [|split; vm_compute; reflexivity].
  apply (claims_follow_protocol completed claimed refiled).
  - reflexivity.
  - apply runClaims_steps. unfold claim_ops. repeat (constructor; [cbn; (exact I || lia)|]). constructor.
  - apply rtc_once, claim_step_op. exact I.
Defined.

(** ** What the handlers do not do *)
Definition release1 (env : TripEnv) (s : TripStore) : TripStore := snd (releaseBookingDeposit env "b1" (Some "a1") None s).
(** The payment was refunded before, or the gateway refuses the refund: no
    money moves, the deposit is REFUNDED and the refund is in the ledger. *)
Definition refunded_money : MoneyStore :=
  snd (refund (sample_env (RefundResponse "rfnd_0" "processed")) (Some "c1") "b1" 10000 None None (paid_store 6118)).
Definition refunded_before : TripStore := trip_store booking1 refunded_money ∅.
Lemma released_without_money :
  ms_refunds (tr_money (release1 processed refunded_before)) = ms_refunds refunded_money /\
  paymentView1 refunded_before = paymentView1 (release1 processed refunded_before) /\
  depositView1 (release1 processed refunded_before) = Some (5000, 0, SD_REFUNDED) /\
  ledgerView (release1 processed refunded_before) = [(CUSTOMER_DEPOSIT_ESCROW, DEBIT, 5000); (GATEWAY_CLEARING, CREDIT, 5000)].
Proof. split_and!; vm_compute; reflexivity. Qed.
Lemma failed_refund_counts_as_release :
  let s := release1 (trip_env (RefundResponse "rfnd_1" "failed")) completed in
  paymentView1 s = Some (PS_PAID, Some 5000) /\ depositView1 s = Some (5000, 0, SD_REFUNDED) /\
  ledgerView s = [(CUSTOMER_DEPOSIT_ESCROW, DEBIT, 5000); (GATEWAY_CLEARING, CREDIT, 5000)].
Proof. split_and!; vm_compute; reflexivity. Qed.
(** A deposit paid online is forgotten when collateral is recorded: the
    release pays nothing back. *)
Lemma collateral_forgets_payment :
  depositView1 (release1 processed with_scooter) = Some (5000, 0, SD_REFUNDED) /\
  paymentView1 (release1 processed with_scooter) = Some (PS_PAID, None) /\ ms_refunds (tr_money (release1 processed with_scooter)) = [].
Proof. split_and!; vm_compute; reflexivity. Qed.
(** Collateral without any deposit: its release credits the gateway with
    money that never came, and a deduction refunds the rest of the nominal
    amount out of the rent. *)
Definition without_deposit : TripStore :=
  trip_store (later_rental) (paid_store 6118) ∅.
Definition with_deed : TripStore := snd (recordCollateral processed "b1" scooter yard without_deposit).
Lemma collateral_is_refunded_in_money :
  ledgerView (release1 processed with_deed) = [(CUSTOMER_DEPOSIT_ESCROW, DEBIT, 5000); (GATEWAY_CLEARING, CREDIT, 5000)] /\
  paymentView1 (snd (settleDeduction processed "b1" 1000 "a1" "scratch" with_deed)) = Some (PS_REFUNDED, Some 4000).
Proof. split; vm_compute; reflexivity. Qed.
(** The release of a deposit marks the whole payment REFUNDED, after which the
    vendor's earnings of the trip no longer count. *)
Definition earning (s : TripStore) : EarningBooking :=
  {| eb_vendorId := "v1"; eb_status := BS_COMPLETED; eb_paymentStatus := pm_status <$> (ms_payments (tr_money s) !! "b1");
     eb_disputeFlag := false; eb_damageClaims := []; eb_netToVendor := 1000; eb_createdAt := 0; eb_updatedAt := 0 |}.
Lemma released_deposit_unearns :
  completedPaid "v1" (earning completed) = true /\ completedPaid "v1" (earning (release1 processed completed)) = false.
Proof. split; vm_compute; reflexivity. Qed.
(** A claim approved after the deposit was released takes nothing and is
    logged like one that did. *)
Definition late_claim : TripStore := runClaim (OpFile "k1" "b1" 200000 yard) (release1 processed completed).
Lemma late_claim_approved_for_nothing :
  let s := runClaim (OpAdjudicate processed "k1" CD_APPROVED (Some 200000%Z) "bumper" "a1") late_claim in
  claimView s = [("k1", DC_APPROVED, Some 2000)] /\ depositView1 s = Some (5000, 0, SD_REFUNDED) /\
  al_action <$> last (tr_audit s) = Some "DAMAGE_CLAIM_APPROVED".
Proof. split_and!; vm_compute; reflexivity. Qed.
(** Rejecting a claim after the release fails, with the claim REJECTED. *)
Lemma late_rejection_throws :
  let r := adjudicateClaim processed "k1" CD_REJECTED None "nothing there" "a1" late_claim in
  fst r = Throw ConflictException /\ claimView (snd r) = [("k1", DC_REJECTED, None)].
Proof. split; vm_compute; reflexivity. Qed.
(** Two administrators read the same claim: the second decision overwrites
    the first, whose deduction stays. *)
Definition filed : TripStore := runClaim (OpFile "k1" "b1" 200000 yard) completed.
Definition approved_first : TripStore := runClaim (OpAdjudicate processed "k1" CD_APPROVED (Some 200000%Z) "bumper" "a1") filed.
Lemma stale_rejection_overwrites :
  match tr_claims filed !! "k1" with
  | Some c =>
    let s := snd (adjudicateWith processed "k1" c None CD_REJECTED None "no" "a2" approved_first) in
    claimView s = [("k1", DC_REJECTED, Some 2000)] /\ depositView1 s = Some (3000, 2000, SD_PARTIALLY_REFUNDED)
  | None => False
  end.
Proof. vm_compute. split; reflexivity. Qed.
(** MONETARY_ONLINE is accepted as collateral: the deposit is HELD without
    money or object. *)
Lemma nothing_as_collateral :
  let dto := {| rc_collateralType := CT_MONETARY_ONLINE; rc_vehicleRegistrationNumber := None; rc_keysCollected := None;
                rc_documentType := None; rc_documentNumberMasked := None; rc_verifiedPhysically := None |} in
  depositView1 (snd (recordCollateral processed "b1" dto yard without_deposit)) = Some (0, 0, SD_HELD).
Proof. vm_compute. reflexivity. Qed.
