(* ===== verification/Loyalty.v ===== *)
(** * Loyalty points: src/car_rental_backend/src/loyalty/loyalty.service.ts

    Tiers, accounts and their transactions, over the wallets of Wallet.v.
    Configuration numbers are JavaScript numbers; balances are columns of 32
    bits ([intColumn] throws where the database would), their sums and
    differences exact integers.  Clock, generated ids and keys and the
    configuration are arguments.  A booking is what the handlers read of it.
    The paginated administration list, descriptions and log lines are left
    out. *)
From S2P Require Import Prelude JsNumber Decimal Schema Ledger Wallet BookingStore.
Open Scope Z_scope.
Open Scope Q_scope.

Record LoyaltyConfig : Type := {
  lc_isEnabled : bool;
  lc_rupeesPerPointEarned : Q;
  lc_pointsToRupeeRatio : Q;
  lc_minPointsToRedeem : Q;
  lc_maxPointsPerBooking : Q;
}.
Definition defaultLoyaltyConfig : LoyaltyConfig :=
  {| lc_isEnabled := true; lc_rupeesPerPointEarned := 10; lc_pointsToRupeeRatio := 2; lc_minPointsToRedeem := 2;
     lc_maxPointsPerBooking := 5000 |}.
(** [getEffectiveConfig]: what the configuration service answers, if there is one. *)
Definition effectiveConfig (service : option LoyaltyConfig) : LoyaltyConfig := default defaultLoyaltyConfig service.

Record LoyaltyTier : Type := {
  lt_id : string;
  lt_code : LoyaltyTierCode;
  lt_name : string;
  lt_minPointsRequired : Z;
  lt_pointsMultiplier : Q;
  lt_cashbackPercent : Q;
  lt_prioritySupport : bool;
  lt_freeCancellationCount : Z;
}.
Record LoyaltyAccount : Type := {
  la_id : string;
  la_tierId : string;
  la_pointsBalance : Z;
  la_lifetimePoints : Z;
}.
Record LoyaltyTransaction : Type := {
  lx_id : string;
  lx_accountId : string;
  lx_type : LoyaltyTransactionType;
  lx_points : Z;
  lx_balanceBefore : Z;
  lx_balanceAfter : Z;
  lx_referenceType : string;
  lx_referenceId : option string;
  lx_idempotencyKey : string;
}.
Record EarnedTrip : Type := {
  et_customerId : string;
  et_status : BookingStatus;
  et_baseFare : Q;
  et_payment : option (PaymentStatus * RefundStatus);
}.
(** Accounts by their user. *)
Record LoyaltyStore : Type := {
  ly_tiers : list LoyaltyTier;
  ly_accounts : gmap string LoyaltyAccount;
  ly_transactions : list LoyaltyTransaction;
  ly_bookings : gmap string EarnedTrip;
  ly_wallets : WalletStore;
  ly_users : list string;
  ly_audit : list AuditLog;
}.
Definition set_tiers (l : list LoyaltyTier) (s : LoyaltyStore) : LoyaltyStore :=
  {| ly_tiers := l; ly_accounts := ly_accounts s; ly_transactions := ly_transactions s; ly_bookings := ly_bookings s;
     ly_wallets := ly_wallets s; ly_users := ly_users s; ly_audit := ly_audit s |}.
Definition set_account (userId : string) (a : LoyaltyAccount) (s : LoyaltyStore) : LoyaltyStore :=
  {| ly_tiers := ly_tiers s; ly_accounts := <[userId := a]> (ly_accounts s); ly_transactions := ly_transactions s;
     ly_bookings := ly_bookings s; ly_wallets := ly_wallets s; ly_users := ly_users s; ly_audit := ly_audit s |}.
Definition add_transaction (t : LoyaltyTransaction) (s : LoyaltyStore) : LoyaltyStore :=
  {| ly_tiers := ly_tiers s; ly_accounts := ly_accounts s; ly_transactions := ly_transactions s ++ [t]; ly_bookings := ly_bookings s;
     ly_wallets := ly_wallets s; ly_users := ly_users s; ly_audit := ly_audit s |}.
Definition set_loyalty_wallets (w : WalletStore) (s : LoyaltyStore) : LoyaltyStore :=
  {| ly_tiers := ly_tiers s; ly_accounts := ly_accounts s; ly_transactions := ly_transactions s; ly_bookings := ly_bookings s;
     ly_wallets := w; ly_users := ly_users s; ly_audit := ly_audit s |}.
Definition add_loyalty_audit (a : AuditLog) (s : LoyaltyStore) : LoyaltyStore :=
  {| ly_tiers := ly_tiers s; ly_accounts := ly_accounts s; ly_transactions := ly_transactions s; ly_bookings := ly_bookings s;
     ly_wallets := ly_wallets s; ly_users := ly_users s; ly_audit := ly_audit s ++ [a] |}.
Abbreviation YM := (M LoyaltyStore).
Record LoyaltyEnv : Type := {
  ye_now : Z;
  ye_config : option LoyaltyConfig;
  ye_tierId : LoyaltyTierCode -> string;
  ye_accountId : string;
  ye_transactionId : string;
  ye_redeemKey : string;
  ye_walletId : string;
  ye_walletConfig : option WalletConfig;
}.

(** A number written to a column of type [Int]. *)
Definition fits_int (n : Z) : bool := ((- 2 ^ 31 <=? n) && (n <? 2 ^ 31))%Z.
Definition intColumn (x : Q) : YM Z :=
  require (Qeq_bool (inject_Z (Qfloor x)) x && fits_int (Qfloor x)) OtherError ;;
  mret (Qfloor x).

(** [prisma.$transaction]: [ensureTiersExist] writes on a connection of its
    own, so the tiers it makes stay when the transaction is rolled back. *)
Definition loyaltyTransaction {A} (m : YM A) : YM A := fun s =>
  match m s with
  | (Ok a, s') => (Ok a, s')
  | (Throw e, s') => (Throw e, set_tiers (ly_tiers s') s)
  end.

(** ** Tiers *)
Definition tier_of (id : string) (code : LoyaltyTierCode) (name : string) (min : Z) (multiplier cashback : Q) (priority : bool)
    (cancellations : Z) : LoyaltyTier :=
  {| lt_id := id; lt_code := code; lt_name := name; lt_minPointsRequired := min; lt_pointsMultiplier := multiplier;
     lt_cashbackPercent := cashback; lt_prioritySupport := priority; lt_freeCancellationCount := cancellations |}.
Definition defaultTiers (id : LoyaltyTierCode -> string) : list LoyaltyTier :=
  [ tier_of (id LTC_BRONZE) LTC_BRONZE "Bronze" 0 1 1 false 0;
    tier_of (id LTC_SILVER) LTC_SILVER "Silver" 500 (5 # 4) (5 # 4) false 1;
    tier_of (id LTC_GOLD) LTC_GOLD "Gold" 2000 (3 # 2) (3 # 2) true 2;
    tier_of (id LTC_PLATINUM) LTC_PLATINUM "Platinum" 5000 2 2 true 5 ].

Definition hasTierCode (code : LoyaltyTierCode) (t : LoyaltyTier) : bool := bool_decide (lt_code t = code).
Definition with_tier_id (id : string) (t : LoyaltyTier) : LoyaltyTier :=
  tier_of id (lt_code t) (lt_name t) (lt_minPointsRequired t) (lt_pointsMultiplier t) (lt_cashbackPercent t)
    (lt_prioritySupport t) (lt_freeCancellationCount t).
(** [loyaltyTier.upsert]: an existing row keeps its id. *)
Definition upsertTier (t : LoyaltyTier) (l : list LoyaltyTier) : list LoyaltyTier :=
  if existsb (hasTierCode (lt_code t)) l
  then map (fun x => if hasTierCode (lt_code t) x then with_tier_id (lt_id x) t else x) l
  else l ++ [t].
Definition ensureTiersExist (tierId : LoyaltyTierCode -> string) : YM unit :=
  forEach (defaultTiers tierId) (fun t => modify (fun s => set_tiers (upsertTier t (ly_tiers s)) s)).

Definition ascendingTiers (s : LoyaltyStore) : list LoyaltyTier :=
  sort_desc (fun t => - inject_Z (lt_minPointsRequired t)) (ly_tiers s).
Definition getLoyaltyTiers : YM (list LoyaltyTier) := s ← get; mret (ascendingTiers s).
Definition tierById (id : string) (l : list LoyaltyTier) : option LoyaltyTier := List.find (fun t => String.eqb (lt_id t) id) l.

(** The first tier, from the most demanding, that [lifetimePoints] reaches,
    or else the last one. *)
Definition determineTierForLifetimePoints (lifetimePoints : Z) (tiers : list LoyaltyTier) : option LoyaltyTier :=
  let sorted := sort_desc (fun t => inject_Z (lt_minPointsRequired t)) tiers in
  match List.find (fun t => Z.leb (lt_minPointsRequired t) lifetimePoints) sorted with
  | Some tier => Some tier
  | None => last sorted
  end.

(** ** Accounts *)
Definition getOrCreateLoyaltyAccount (env : LoyaltyEnv) (userId : string) : YM LoyaltyAccount :=
  s ← get;
  match ly_accounts s !! userId with
  | Some account => mret account
  | None =>
    let bronze (s : LoyaltyStore) := List.find (hasTierCode LTC_BRONZE) (ly_tiers s) in
    when (bool_decide (bronze s = None)) (ensureTiersExist (ye_tierId env)) ;;
    s1 ← get;
    bronzeTier ← from_option_or (bronze s1) OtherError;
    require (bool_decide (userId ∈ ly_users s1)) PrismaP2003 ;;
    let account := {| la_id := ye_accountId env; la_tierId := lt_id bronzeTier; la_pointsBalance := 0; la_lifetimePoints := 0 |} in
    modify (set_account userId account) ;;
    mret account
  end.

Record NextTier : Type := { nt_tier : LoyaltyTier; nt_pointsToNextTier : Z; nt_progressPercent : Q; }.
Record LoyaltyView : Type := {
  lv_account : LoyaltyAccount;
  lv_walletEquivalent : Z;
  lv_currentTier : LoyaltyTier;
  lv_nextTier : option NextTier;
}.
(** The way from [current] to [next], in percent to one decimal. *)
Definition tierProgress (lifetimePoints : Z) (current next : LoyaltyTier) : Q :=
  let tierSpan := (lt_minPointsRequired next - lt_minPointsRequired current)%Z in
  let pointsInTier := (lifetimePoints - lt_minPointsRequired current)%Z in
  let progressPercent :=
    if (0 <? tierSpan)%Z
    then js_min 100 (js_max 0 (js_mul (js_div (inject_Z pointsInTier) (inject_Z tierSpan)) 100))
    else 100 in
  js_div (inject_Z (js_round (js_mul progressPercent 10))) 10.
Definition getLoyaltyAccount (env : LoyaltyEnv) (userId : string) : YM LoyaltyView :=
  account ← getOrCreateLoyaltyAccount env userId;
  s ← get;
  let tiers := ascendingTiers s in
  let currentTierIndex := list_find (fun t => lt_id t = la_tierId account) tiers in
  currentTier ← from_option_or (match currentTierIndex with
                                | Some (_, t) => Some t
                                | None => tierById (la_tierId account) (ly_tiers s)
                                end) OtherError;
  let nextTier := p ← currentTierIndex; tiers !! S (fst p) in
  mret {| lv_account := account; lv_walletEquivalent := (la_pointsBalance account / 2)%Z; lv_currentTier := currentTier;
          lv_nextTier := option_map (fun next =>
            {| nt_tier := next; nt_pointsToNextTier := Z.max 0 (lt_minPointsRequired next - la_lifetimePoints account);
               nt_progressPercent := tierProgress (la_lifetimePoints account) currentTier next |}) nextTier |}.

Definition getLoyaltyTransactions (env : LoyaltyEnv) (userId : string) (page limit : nat)
    : YM (list LoyaltyTransaction * nat * nat) :=
  account ← getOrCreateLoyaltyAccount env userId;
  s ← get;
  let rows := reverse (filter (fun t => lx_accountId t = la_id account) (ly_transactions s)) in
  mret (take limit (drop ((page - 1) * limit) rows), length rows, ((length rows + limit - 1) / limit)%nat).

(** [loyaltyAccount.update] *)
Definition updateAccount (userId : string) (account : LoyaltyAccount) (tierId : string) (pointsBalance lifetimePoints : Q) : YM LoyaltyAccount :=
  balance ← intColumn pointsBalance;
  lifetime ← intColumn lifetimePoints;
  let row := {| la_id := la_id account; la_tierId := tierId; la_pointsBalance := balance; la_lifetimePoints := lifetime |} in
  modify (set_account userId row) ;;
  mret row.
(** [loyaltyTransaction.create]: [idempotencyKey] is unique. *)
Definition findTransaction (key : string) (s : LoyaltyStore) : option LoyaltyTransaction :=
  List.find (fun t => String.eqb (lx_idempotencyKey t) key) (ly_transactions s).
Definition createTransaction (env : LoyaltyEnv) (accountId : string) (type : LoyaltyTransactionType) (points balanceBefore balanceAfter : Q)
    (referenceType : string) (referenceId : option string) (idempotencyKey : string) : YM LoyaltyTransaction :=
  n ← intColumn points;
  before ← intColumn balanceBefore;
  after ← intColumn balanceAfter;
  s ← get;
  require (bool_decide (findTransaction idempotencyKey s = None)) PrismaP2002 ;;
  let row := {| lx_id := ye_transactionId env; lx_accountId := accountId; lx_type := type; lx_points := n; lx_balanceBefore := before;
                lx_balanceAfter := after; lx_referenceType := referenceType; lx_referenceId := referenceId;
                lx_idempotencyKey := idempotencyKey |} in
  modify (add_transaction row) ;;
  mret row.
(** [SELECT ... FOR UPDATE] by user *)
Definition lockAccount (userId : string) : YM LoyaltyAccount :=
  s ← get;
  from_option_or (ly_accounts s !! userId) NotFoundException.

(** ** Earning *)
Definition calculateEligiblePoints (eligibleBaseFare tierMultiplier rupeesPerPoint : Q) (maxPointsCap : option Q) : Q :=
  if negb (nonzero eligibleBaseFare) || js_le eligibleBaseFare 0 then 0
  else
    let basePoints := inject_Z (Qfloor (js_div eligibleBaseFare rupeesPerPoint)) in
    let finalPoints := inject_Z (Qfloor (js_mul basePoints tierMultiplier)) in
    let positivePoints := js_max 0 finalPoints in
    match maxPointsCap with
    | Some cap => if nonzero cap then js_min positivePoints cap else positivePoints
    | None => positivePoints
    end.

Inductive Completion : Type :=
  | AlreadyCredited (points : Z)
  | NotEarned (reason : string)
  | Earned (points newPointsBalance newLifetimePoints : Z) (tierCode : LoyaltyTierCode) (transactionId : string).
Definition completionKey (bookingId : string) : string := "loyalty_booking_" +:+ bookingId.
(** The transaction of [handleBookingCompleted]. *)
Definition creditBooking (env : LoyaltyEnv) (config : LoyaltyConfig) (bookingId customerId : string) (eligibleBaseFare : Q) : YM Completion :=
  loyaltyTransaction (
    s ← get;
    match findTransaction (completionKey bookingId) s with
    | Some doubleCheck => mret (AlreadyCredited (lx_points doubleCheck))
    | None =>
      getOrCreateLoyaltyAccount env customerId ;;
      account ← lockAccount customerId;
      s1 ← get;
      let allTiers := ascendingTiers s1 in
      currentTier ← from_option_or (match tierById (la_tierId account) allTiers with Some t => Some t | None => head allTiers end) OtherError;
      let multiplier := rnd (lt_pointsMultiplier currentTier) in
      let finalPoints := calculateEligiblePoints eligibleBaseFare multiplier (num_or (lc_rupeesPerPointEarned config) 10)
                           (Some (lc_maxPointsPerBooking config)) in
      if js_le finalPoints 0 then mret (NotEarned "")
      else
        let newLifetimePoints := js_add (inject_Z (la_lifetimePoints account)) finalPoints in
        let newPointsBalance := js_add (inject_Z (la_pointsBalance account)) finalPoints in
        upgradedTier ← from_option_or (determineTierForLifetimePoints (Qfloor newLifetimePoints) allTiers) OtherError;
        row ← updateAccount customerId account (lt_id upgradedTier) newPointsBalance newLifetimePoints;
        loyaltyTx ← createTransaction env (la_id account) LTX_TRIP_COMPLETION_EARNED finalPoints (inject_Z (la_pointsBalance account))
                      newPointsBalance "BOOKING" (Some bookingId) (completionKey bookingId);
        mret (Earned (lx_points loyaltyTx) (la_pointsBalance row) (la_lifetimePoints row) (lt_code upgradedTier) (lx_id loyaltyTx))
    end).
(** What is checked before it: the answer, or whose points on what fare. *)
Definition completionGuard (bookingId : string) (s : LoyaltyStore) : Completion + (string * Q) :=
  match findTransaction (completionKey bookingId) s with
  | Some existingTx => inl (AlreadyCredited (lx_points existingTx))
  | None =>
    match ly_bookings s !! bookingId with
    | None => inl (NotEarned "Booking not found")
    | Some booking =>
      if negb (bool_decide (et_status booking = BS_COMPLETED)) then inl (NotEarned "Booking not completed")
      else if negb (bool_decide (et_payment booking = Some (PS_PAID, RS_NONE))) then inl (NotEarned "Booking payment not paid/valid")
      else
        let eligibleBaseFare := rnd (et_baseFare booking) in
        if js_le eligibleBaseFare 0 then inl (NotEarned "Base fare is 0")
        else inr (et_customerId booking, eligibleBaseFare)
    end
  end.
Definition handleBookingCompleted (env : LoyaltyEnv) (bookingId : string) : YM Completion :=
  let config := effectiveConfig (ye_config env) in
  if negb (lc_isEnabled config) then mret (NotEarned "Loyalty program disabled")
  else
    s ← get;
    match completionGuard bookingId s with
    | inl answer => mret answer
    | inr (customerId, eligibleBaseFare) => creditBooking env config bookingId customerId eligibleBaseFare
    end.

(** ** PointsReversal *)
Inductive PointsReversal : Type :=
  | NotReversed (reason : string)
  | AlreadyReversed (points : Z)
  | Reversed (points newPointsBalance newLifetimePoints : Z) (tierCode : LoyaltyTierCode) (transactionId : string).
Definition reversalKey (bookingId : string) : string := "loyalty_reversal_booking_" +:+ bookingId.
Definition accountById (id : string) (s : LoyaltyStore) : option (string * LoyaltyAccount) :=
  List.find (fun p => String.eqb (la_id (snd p)) id) (map_to_list (ly_accounts s)).
Definition isEarning (bookingId : string) (t : LoyaltyTransaction) : bool :=
  String.eqb (lx_referenceType t) "BOOKING" && bool_decide (lx_referenceId t = Some bookingId) &&
  bool_decide (lx_type t = LTX_TRIP_COMPLETION_EARNED).
Definition reverseBooking (env : LoyaltyEnv) (bookingId : string) (earningTx : LoyaltyTransaction) : YM PointsReversal :=
  loyaltyTransaction (
    s ← get;
    match findTransaction (reversalKey bookingId) s with
    | Some doubleCheck => mret (AlreadyReversed (lx_points doubleCheck))
    | None =>
      match accountById (lx_accountId earningTx) s with
      | None => mret (NotReversed "Loyalty account not found")
      | Some (userId, account) =>
        let pointsToReverse := lx_points earningTx in
        let newPointsBalance := Z.max 0 (la_pointsBalance account - pointsToReverse) in
        let newLifetimePoints := Z.max 0 (la_lifetimePoints account - pointsToReverse) in
        adjustedTier ← from_option_or (determineTierForLifetimePoints newLifetimePoints (ascendingTiers s)) OtherError;
        row ← updateAccount userId account (lt_id adjustedTier) (inject_Z newPointsBalance) (inject_Z newLifetimePoints);
        reversalTx ← createTransaction env (la_id account) LTX_CANCELLATION_REVERSAL (inject_Z pointsToReverse)
                       (inject_Z (la_pointsBalance account)) (inject_Z newPointsBalance) "BOOKING_CANCELLATION" (Some bookingId)
                       (reversalKey bookingId);
        mret (Reversed pointsToReverse (la_pointsBalance row) (la_lifetimePoints row) (lt_code adjustedTier) (lx_id reversalTx))
      end
    end).
Definition handleBookingCancelled (env : LoyaltyEnv) (bookingId : string) : YM PointsReversal :=
  s ← get;
  match List.find (isEarning bookingId) (ly_transactions s) with
  | None => mret (NotReversed "No loyalty points earned for this booking")
  | Some earningTx =>
    match findTransaction (reversalKey bookingId) s with
    | Some existingReversal => mret (AlreadyReversed (lx_points existingReversal))
    | None => reverseBooking env bookingId earningTx
    end
  end.

(** ** Redemption and adjustment *)
Record Redeemed : Type := { rd_points : Z; rd_walletCreditAmount : Z; rd_newPointsBalance : Z; rd_transactionId : string; }.
Section wallets.
Context {col : NumericColumn} {dec : DecimalArith}.

Definition redeemPointsToWallet (env : LoyaltyEnv) (userId : string) (points : Q) (key : option string) : YM Redeemed :=
  let config := effectiveConfig (ye_config env) in
  require (lc_isEnabled config) BadRequestException ;;
  let minPoints := num_or (lc_minPointsToRedeem config) 2 in
  let ratio := num_or (lc_pointsToRupeeRatio config) 2 in
  require (nonzero points && negb (js_lt points minPoints) && Qeq_bool (inject_Z (Qfloor points)) points) BadRequestException ;;
  let idempotencyKey := str_or key (ye_redeemKey env) in
  loyaltyTransaction (
    s ← get;
    require (bool_decide (findTransaction idempotencyKey s = None)) ConflictException ;;
    getOrCreateLoyaltyAccount env userId ;;
    account ← lockAccount userId;
    require (negb (js_lt (inject_Z (la_pointsBalance account)) points)) BadRequestException ;;
    let walletCreditAmount := Qfloor (js_div points ratio) in
    require (0 <? walletCreditAmount)%Z BadRequestException ;;
    let actualPointsRedeemed := js_mul (inject_Z walletCreditAmount) ratio in
    let newPointsBalance := js_sub (inject_Z (la_pointsBalance account)) actualPointsRedeemed in
    row ← updateAccount userId account (la_tierId account) newPointsBalance (inject_Z (la_lifetimePoints account));
    loyaltyTx ← createTransaction env (la_id account) LTX_REDEMPTION_TO_WALLET actualPointsRedeemed (inject_Z (la_pointsBalance account))
                  newPointsBalance "WALLET" None idempotencyKey;
    userWallet ← zoom ly_wallets set_loyalty_wallets (getOrCreateWallet (ye_walletId env) userId);
    zoom ly_wallets set_loyalty_wallets
      (creditWallet (ye_now env) (ye_walletConfig env) (fst userWallet) (inject_Z walletCreditAmount) LT_LOYALTY_CONVERSION
         BUCKET_PROMOTIONAL "LOYALTY" (Some (lx_id loyaltyTx)) ("wallet_loyalty_redeem_" +:+ lx_id loyaltyTx) None true) ;;
    mret {| rd_points := lx_points loyaltyTx; rd_walletCreditAmount := walletCreditAmount; rd_newPointsBalance := la_pointsBalance row;
            rd_transactionId := lx_id loyaltyTx |}).
End wallets.

Record Adjusted : Type := { aj_newPointsBalance : Z; aj_newLifetimePoints : Z; aj_tierCode : LoyaltyTierCode; }.
Definition adminAdjustPoints (env : LoyaltyEnv) (adminUserId userId : string) (points : Z) (idempotencyKey : string) : YM Adjusted :=
  require (negb (points =? 0)%Z) BadRequestException ;;
  loyaltyTransaction (
    s ← get;
    require (bool_decide (findTransaction idempotencyKey s = None)) ConflictException ;;
    getOrCreateLoyaltyAccount env userId ;;
    account ← lockAccount userId;
    require (negb ((points <? 0) && (la_pointsBalance account + points <? 0))%Z) BadRequestException ;;
    let newPointsBalance := (la_pointsBalance account + points)%Z in
    let newLifetimePoints := if (0 <? points)%Z then (la_lifetimePoints account + points)%Z else la_lifetimePoints account in
    s1 ← get;
    newTier ← from_option_or (determineTierForLifetimePoints newLifetimePoints (ascendingTiers s1)) OtherError;
    updateAccount userId account (lt_id newTier) (inject_Z newPointsBalance) (inject_Z newLifetimePoints) ;;
    createTransaction env (la_id account) LTX_ADMIN_ADJUSTMENT (inject_Z (Z.abs points)) (inject_Z (la_pointsBalance account))
      (inject_Z newPointsBalance) "ADMIN" (Some adminUserId) idempotencyKey ;;
    modify (add_loyalty_audit {| al_userId := adminUserId; al_action := "LOYALTY_POINT_ADJUSTMENT"; al_entityId := la_id account |}) ;;
    mret {| aj_newPointsBalance := newPointsBalance; aj_newLifetimePoints := newLifetimePoints; aj_tierCode := lt_code newTier |}).

(** ** Administration *)
Record LoyaltySummary : Type := {
  lm_totalAccounts : nat;
  lm_totalLifetimePoints : Z;
  lm_totalAvailablePoints : Z;
  lm_totalPointsRedeemed : Z;
  lm_outstandingLiabilityInr : Z;
  lm_tierBreakdown : list (LoyaltyTierCode * nat);
}.
Definition sum_points (f : LoyaltyAccount -> Z) (l : list (string * LoyaltyAccount)) : Z := fold_right (fun p n => f (snd p) + n)%Z 0%Z l.
Definition getAdminLoyaltySummary : YM LoyaltySummary :=
  s ← get;
  let accounts := map_to_list (ly_accounts s) in
  let totalAvailablePoints := sum_points la_pointsBalance accounts in
  let totalLifetimePoints := sum_points la_lifetimePoints accounts in
  mret {| lm_totalAccounts := length accounts; lm_totalLifetimePoints := totalLifetimePoints;
          lm_totalAvailablePoints := totalAvailablePoints;
          lm_totalPointsRedeemed := Z.max 0 (totalLifetimePoints - totalAvailablePoints);
          lm_outstandingLiabilityInr := (totalAvailablePoints / 2)%Z;
          lm_tierBreakdown := map (fun t => (lt_code t, length (filter (fun p => la_tierId (snd p) = lt_id t) accounts)))
                                (ascendingTiers s) |}.
