(* ===== verification/LoyaltyLedger.v ===== *)
(** * What loyalty accounts keep

    An account is the replay of its transactions, a booking earns and loses
    its points at most once, a redemption takes whole points for whole rupees,
    over the handlers of Loyalty.v in any order; and runs that show where the
    shared idempotency keys and the configuration let the rules slip. *)
From S2P Require Import Prelude JsNumber Decimal Schema Ledger Wallet BookingStore Loyalty.
Open Scope Z_scope.
Open Scope Q_scope.

(** ** Columns of 32 bits *)
Definition int32 (n : Z) : Prop := (- 2 ^ 31 <= n < 2 ^ 31)%Z.

Lemma intColumn_run x s r s' : intColumn x s = (r, s') ->
  s' = s /\ forall n, r = Ok n -> x == inject_Z n /\ int32 n.
Proof.
  unfold intColumn. step. destruct (_ && _) eqn:E; step; intros [= <- <-]; (split; [done|]); [|done].
  intros n [= <-]. apply andb_true_iff in E as [E1%Qeq_bool_eq E2]. split; [by symmetry|]. unfold fits_int, int32 in *. lia.
Qed.
Lemma intColumn_int n s : int32 n -> intColumn (inject_Z n) s = (Ok n, s).
Proof.
  intros H. unfold intColumn. rewrite Qfloor_Z. step. rewrite Qeq_bool_refl. unfold fits_int, int32 in *.
  replace ((- 2 ^ 31 <=? n) && (n <? 2 ^ 31))%Z with true by lia. done.
Qed.

(** The relative error of one rounding is at most 2^-53. *)
Lemma rnd_rel x : 0 <= x -> x * (1 - (1 # 9007199254740992)) <= rnd x /\ rnd x <= x * (1 + (1 # 9007199254740992)).
Proof.
  intros Hx. pose proof (rnd_err x) as E. rewrite (Qabs_pos x Hx) in E.
  change (pow2 (-53)) with (1 # 9007199254740992) in E. apply Qabs_Qle_condition in E. lra.
Qed.

(** A rounded sum that fits the column is the exact sum. *)
Lemma js_add_int32 a x p c : x == inject_Z p -> int32 a -> int32 p -> js_add (inject_Z a) x == inject_Z c -> (c = a + p)%Z.
Proof.
  unfold js_add, int32. intros E Ha Hp Hc. assert (inject_Z a + x == inject_Z (a + p)) as E1 by (rewrite inject_Z_plus, E; ring).
  rewrite (rnd_proper _ _ E1), rnd_Z in Hc by lia. by apply inject_Z_injective.
Qed.
Lemma js_sub_int32 a x p c : x == inject_Z p -> int32 a -> int32 p -> js_sub (inject_Z a) x == inject_Z c -> (c = a - p)%Z.
Proof.
  unfold js_sub, int32. intros E Ha Hp Hc. assert (inject_Z a - x == inject_Z (a - p)) as E1 by (rewrite inject_Z_sub, E; ring).
  rewrite (rnd_proper _ _ E1), rnd_Z in Hc by lia. by apply inject_Z_injective.
Qed.

(** ** Tiers *)
Section tiers.
Variable ids : LoyaltyTierCode -> string.
Abbreviation T := (defaultTiers ids).

Lemma ensureTiers_run ids' s : ly_tiers s = T \/ (ly_tiers s = [] /\ ids' = ids) ->
  ensureTiersExist ids' s = (Ok tt, set_tiers T s).
Proof. destruct s as [l a t b w u au]. cbn. by intros [->|[-> ->]]. Qed.

(** The highest tier that [lifetime] reaches. *)
Definition tier_for (lifetime : Z) : LoyaltyTier :=
  let at_ n := nth n T (tier_of "" LTC_BRONZE "" 0 0 0 false 0) in
  if (5000 <=? lifetime)%Z then at_ 3%nat else if (2000 <=? lifetime)%Z then at_ 2%nat
  else if (500 <=? lifetime)%Z then at_ 1%nat else at_ 0%nat.

Lemma ascending_default s : ly_tiers s = T -> ascendingTiers s = T.
Proof. unfold ascendingTiers. by intros ->. Qed.
Lemma descending_default : sort_desc (fun t => inject_Z (lt_minPointsRequired t)) T = reverse T.
Proof. reflexivity. Qed.
Lemma determineTier_default lifetime : determineTierForLifetimePoints lifetime T = Some (tier_for lifetime).
Proof.
  unfold determineTierForLifetimePoints, tier_for. rewrite descending_default. cbn -[Z.leb].
  do 3 (destruct (_ <=? lifetime)%Z; [done|]). by destruct (_ <=? lifetime)%Z.
Qed.
Lemma tier_for_highest lifetime : (0 <= lifetime)%Z ->
  tier_for lifetime ∈ T /\ (lt_minPointsRequired (tier_for lifetime) <= lifetime)%Z /\
  forall t, t ∈ T -> (lt_minPointsRequired t <= lifetime -> lt_minPointsRequired t <= lt_minPointsRequired (tier_for lifetime))%Z.
Proof.
  intros H. unfold tier_for. split_and!.
  - repeat case_match; rewrite list_elem_of_In; cbn; auto 6.
  - repeat case_match; cbn; lia.
  - intros t Ht%list_elem_of_In. cbn in Ht.
    destruct Ht as [<-|[<-|[<-|[<-|[]]]]]; repeat case_match; cbn in *; lia.
Qed.
End tiers.

(** ** The ledger of an account *)
(** What a transaction of each type does to balance and lifetime points; a
    row the handlers would not write has no effect defined. *)
Definition apply_row (st : Z * Z) (t : LoyaltyTransaction) : option (Z * Z) :=
  let '(balance, lifetime) := st in
  let p := lx_points t in
  if negb (0 <? p)%Z then None
  else match lx_type t with
  | LTX_TRIP_COMPLETION_EARNED => Some (balance + p, lifetime + p)%Z
  | LTX_REDEMPTION_TO_WALLET => if (p <=? balance)%Z then Some (balance - p, lifetime)%Z else None
  | LTX_ADMIN_ADJUSTMENT =>
    if (lx_balanceBefore t <? lx_balanceAfter t)%Z then Some (balance + p, lifetime + p)%Z
    else if (p <=? balance)%Z then Some (balance - p, lifetime)%Z else None
  | LTX_CANCELLATION_REVERSAL => Some (Z.max 0 (balance - p), Z.max 0 (lifetime - p))
  | _ => None
  end.
(** Every row starts where the last one ended. *)
Fixpoint replay_rows (st : Z * Z) (l : list LoyaltyTransaction) : option (Z * Z) :=
  match l with
  | [] => Some st
  | t :: l' =>
    match apply_row st t with
    | Some st' => if ((lx_balanceBefore t =? fst st) && (lx_balanceAfter t =? fst st'))%Z then replay_rows st' l' else None
    | None => None
    end
  end.
Definition rows_of (accountId : string) (l : list LoyaltyTransaction) : list LoyaltyTransaction :=
  filter (fun t => lx_accountId t = accountId) l.

Lemma replay_app st l l' : replay_rows st (l ++ l') = match replay_rows st l with Some st' => replay_rows st' l' | None => None end.
Proof. revert st. induction l as [|t l IH]; intros st; [done|]. cbn. destruct (apply_row st t); [|done]. by destruct (_ && _). Qed.
(** Points in hand never exceed the points ever credited. *)
Definition within (st : Z * Z) : Prop := (0 <= fst st <= snd st)%Z.
Lemma apply_row_within st t st' : within st -> apply_row st t = Some st' -> within st'.
Proof.
  destruct st as [b l]. unfold within, apply_row. cbn. intros H. destruct (negb _) eqn:E; [done|].
  destruct (lx_type t); repeat case_match; intros; simplify_eq; cbn; lia.
Qed.
Lemma replay_within l st st' : within st -> replay_rows st l = Some st' -> within st'.
Proof.
  revert st. induction l as [|t l IH]; cbn; intros st H; [by intros [= <-]|].
  destruct (apply_row st t) as [st1|] eqn:E; [|done]. destruct (_ && _); [|done]. eauto using apply_row_within.
Qed.

(** Every row of a ledger that replays moves a positive number of points. *)
Lemma replay_positive l : forall st st' t, replay_rows st l = Some st' -> t ∈ l -> (0 < lx_points t)%Z.
Proof.
  induction l as [|x l IH]; intros st st' t H Ht; [by apply elem_of_nil in Ht|]. cbn in H.
  destruct (apply_row st x) as [st1|] eqn:E; [|done]. destruct (_ && _); [|done]. apply elem_of_cons in Ht as [->|Ht]; [|by eapply IH].
  destruct st as [b lf]. unfold apply_row in E. destruct (negb (0 <? lx_points x)%Z) eqn:Ep; [done|]. lia.
Qed.

Lemma rows_of_snoc id l t : rows_of id (l ++ [t]) = rows_of id l ++ (if decide (lx_accountId t = id) then [t] else []).
Proof. unfold rows_of. by rewrite filter_app, filter_cons, filter_nil. Qed.

(** ** The invariant *)
Section ledger.
Context {col : NumericColumn} {dec : DecimalArith}.
Variable ids : LoyaltyTierCode -> string.

Record account_ok (l : list LoyaltyTransaction) (a : LoyaltyAccount) : Prop := {
  ao_replay : replay_rows (0, 0)%Z (rows_of (la_id a) l) = Some (la_pointsBalance a, la_lifetimePoints a);
  ao_fits : int32 (la_lifetimePoints a);
  ao_tier : la_tierId a = lt_id (tier_for ids (la_lifetimePoints a));
}.
(** Where the rows of a booking come from. *)
Definition earned_for (b : string) (t : LoyaltyTransaction) : Prop :=
  lx_type t = LTX_TRIP_COMPLETION_EARNED /\ lx_referenceType t = "BOOKING" /\ lx_referenceId t = Some b.
Definition row_ok (l : list LoyaltyTransaction) (t : LoyaltyTransaction) : Prop :=
  match lx_type t with
  | LTX_TRIP_COMPLETION_EARNED => exists b, earned_for b t /\ lx_idempotencyKey t = completionKey b
  | LTX_CANCELLATION_REVERSAL => exists b e, lx_referenceId t = Some b /\ lx_idempotencyKey t = reversalKey b /\
      e ∈ l /\ earned_for b e /\ lx_accountId t = lx_accountId e /\ lx_points t = lx_points e
  | _ => True
  end.
Record loyalty_ok (s : LoyaltyStore) : Prop := {
  lo_tiers : ly_tiers s = defaultTiers ids;
  lo_account : forall u a, ly_accounts s !! u = Some a -> account_ok (ly_transactions s) a;
  lo_ids : forall u u' a a', ly_accounts s !! u = Some a -> ly_accounts s !! u' = Some a' -> la_id a = la_id a' -> u = u';
  lo_owner : forall t, t ∈ ly_transactions s -> exists u a, ly_accounts s !! u = Some a /\ la_id a = lx_accountId t;
  lo_keys : NoDup (map lx_idempotencyKey (ly_transactions s));
  lo_rows : forall t, t ∈ ly_transactions s -> row_ok (ly_transactions s) t;
}.
Definition fresh_account (env : LoyaltyEnv) (s : LoyaltyStore) : Prop :=
  forall u a, ly_accounts s !! u = Some a -> la_id a <> ye_accountId env.

Lemma findTransaction_none key s : findTransaction key s = None -> key ∉ map lx_idempotencyKey (ly_transactions s).
Proof.
  unfold findTransaction. intros H (t & -> & Ht)%list_elem_of_fmap. apply list_elem_of_In in Ht.
  pose proof (find_none _ _ H t Ht) as E. cbn in E. by rewrite String.eqb_refl in E.
Qed.
Lemma row_ok_mono l l' t : (forall e, e ∈ l -> e ∈ l') -> row_ok l t -> row_ok l' t.
Proof. unfold row_ok. destruct (lx_type t); naive_solver. Qed.

(** An account opened for its user. *)
Definition open_account (env : LoyaltyEnv) : LoyaltyAccount :=
  {| la_id := ye_accountId env; la_tierId := lt_id (tier_for ids 0); la_pointsBalance := 0; la_lifetimePoints := 0 |}.
Definition opened_for (env : LoyaltyEnv) (u : string) (s s1 : LoyaltyStore) (a : LoyaltyAccount) : Prop :=
  (ly_accounts s !! u = Some a /\ s1 = s) \/
  (ly_accounts s !! u = None /\ a = open_account env /\ s1 = set_account u a s).
Lemma getOrCreateAccount_run env u s r s' : ly_tiers s = defaultTiers ids -> getOrCreateLoyaltyAccount env u s = (r, s') ->
  match r with Ok a => opened_for env u s s' a | Throw _ => s' = s end.
Proof.
  intros HT. unfold getOrCreateLoyaltyAccount. step. destruct (ly_accounts s !! u) as [a|] eqn:Ea; step.
  { intros [= <- <-]. by left. }
  rewrite HT. change (List.find (hasTierCode LTC_BRONZE) (defaultTiers ids)) with (head (defaultTiers ids)).
  rewrite bool_decide_eq_false_2 by done.
  step. cbn [head defaultTiers].
  destruct (bool_decide (u ∈ ly_users s)); step; intros [= <- <-]; [|done]. right. done.
Qed.

(** *** Writes that keep the invariant *)
Lemma loyalty_ok_ext s s' : ly_tiers s' = ly_tiers s -> ly_accounts s' = ly_accounts s -> ly_transactions s' = ly_transactions s ->
  loyalty_ok s -> loyalty_ok s'.
Proof. intros E1 E2 E3 []. split; rewrite ?E1, ?E2, ?E3; auto. Qed.
Lemma rows_of_none id l : (forall t, t ∈ l -> lx_accountId t <> id) -> rows_of id l = [].
Proof.
  intros H. unfold rows_of. destruct (filter _ l) as [|t l'] eqn:E; [done|].
  assert (t ∈ filter (fun t => lx_accountId t = id) l) as [Ht Hin]%list_elem_of_filter by (rewrite E; apply list_elem_of_here).
  by destruct (H t Hin).
Qed.
Lemma opened_ok env u s s1 a : loyalty_ok s -> fresh_account env s -> opened_for env u s s1 a ->
  loyalty_ok s1 /\ ly_accounts s1 !! u = Some a.
Proof.
  intros Ho Hf [[Ha ->]|(Hn & -> & ->)]; [done|]. split; [|apply lookup_insert_eq]. destruct Ho. split; cbn; [done| | | |done|done].
  - intros u' a'. destruct (decide (u' = u)) as [->|Hu]; [|rewrite lookup_insert_ne by done; eauto].
    rewrite lookup_insert_eq. intros [= <-]. split; cbn; [|done|done].
    rewrite rows_of_none; [done|]. intros t (u' & a' & Hu & <-)%lo_owner0. by apply (Hf u').
  - intros u1 u2 a1 a2 H1 H2 E. destruct (decide (u1 = u)) as [->|Hu1], (decide (u2 = u)) as [->|Hu2]; [done| | |];
      rewrite ?lookup_insert_eq, ?lookup_insert_ne in H1 by done; rewrite ?lookup_insert_eq, ?lookup_insert_ne in H2 by done.
    + injection H1 as <-. by destruct (Hf u2 a2 H2).
    + injection H2 as <-. by destruct (Hf u1 a1 H1).
    + eauto.
  - intros t (u' & a' & Hu & E)%lo_owner0. exists u', a'. split; [|done]. rewrite lookup_insert_ne; [done|]. by intros ->; rewrite Hn in Hu.
Qed.

Definition moved_account (a : LoyaltyAccount) (b l : Z) : LoyaltyAccount :=
  {| la_id := la_id a; la_tierId := lt_id (tier_for ids l); la_pointsBalance := b; la_lifetimePoints := l |}.
Lemma write_row_ok u a b l t s s' : loyalty_ok s -> ly_accounts s !! u = Some a ->
  ly_tiers s' = ly_tiers s -> ly_accounts s' = <[u := moved_account a b l]> (ly_accounts s) ->
  ly_transactions s' = ly_transactions s ++ [t] -> lx_accountId t = la_id a ->
  apply_row (la_pointsBalance a, la_lifetimePoints a) t = Some (b, l) ->
  lx_balanceBefore t = la_pointsBalance a -> lx_balanceAfter t = b -> int32 l ->
  findTransaction (lx_idempotencyKey t) s = None -> row_ok (ly_transactions s) t -> loyalty_ok s'.
Proof.
  intros Ho Ha E1 E2 E3 Hid Hr Hbe Haf Hl Hk%findTransaction_none Hrow. destruct Ho.
  assert (forall e, e ∈ ly_transactions s -> e ∈ ly_transactions s ++ [t]) as Hsub by (intros e; rewrite elem_of_app; by left).
  split; rewrite ?E1, ?E2, ?E3; [done| | | | |].
  - intros u' a'. destruct (decide (u' = u)) as [->|Hu].
    + rewrite lookup_insert_eq. intros [= <-]. destruct (lo_account0 u a Ha). split; cbn; [|done|done].
      rewrite rows_of_snoc, decide_True by done. rewrite replay_app, ao_replay0. cbn -[apply_row]. rewrite Hr. cbn.
      by rewrite Hbe, Haf, !Z.eqb_refl.
    + rewrite lookup_insert_ne by done. intros Ha'. destruct (lo_account0 u' a' Ha'). split; [|done|done].
      rewrite rows_of_snoc, decide_False, app_nil_r; [done|]. intros E. apply Hu. rewrite Hid in E. by eapply lo_ids0.
  - intros u1 u2 a1 a2 H1 H2 E. apply lookup_insert_Some in H1, H2.
    destruct H1 as [[<- <-]|[Hu1 H1]], H2 as [[<- <-]|[Hu2 H2]]; eauto.
  - intros e [He| ->%list_elem_of_singleton]%elem_of_app.
    + destruct (lo_owner0 e He) as (u' & a' & Hu' & E'). destruct (decide (u' = u)) as [->|Hu].
      * exists u, (moved_account a b l). rewrite lookup_insert_eq. split; [done|]. cbn. congruence.
      * exists u', a'. by rewrite lookup_insert_ne by done.
    + exists u, (moved_account a b l). by rewrite lookup_insert_eq.
  - rewrite map_app. apply NoDup_app. split_and!; [done| |apply NoDup_singleton]. by intros x Hx ->%list_elem_of_singleton.
  - intros e [He| ->%list_elem_of_singleton]%elem_of_app; eauto using row_ok_mono.
Qed.

(** *** Runs of the transactions *)
Definition tiered (s : LoyaltyStore) : Prop := ly_tiers s = defaultTiers ids.
Lemma preserves_intColumn x : preserves tiered (intColumn x).
Proof. unfold intColumn. auto with preserves. Qed.
Lemma preserves_getOrCreate env u : preserves tiered (getOrCreateLoyaltyAccount env u).
Proof.
  intros s r s' H Hs. eapply getOrCreateAccount_run in H; [|exact Hs].
  destruct r; [|by subst]. by destruct H as [[_ ->]|(_ & _ & ->)].
Qed.
Lemma preserves_updateAccount u a tid xb xl : preserves tiered (updateAccount u a tid xb xl).
Proof.
  unfold updateAccount. do 2 (apply preserves_bind; [apply preserves_intColumn|intros ?]).
  apply preserves_bind; [by apply preserves_modify|intros ?]. apply preserves_ret.
Qed.
Lemma preserves_createTransaction env id ty xp xbe xaf rt rid key : preserves tiered (createTransaction env id ty xp xbe xaf rt rid key).
Proof.
  unfold createTransaction. do 3 (apply preserves_bind; [apply preserves_intColumn|intros ?]).
  apply preserves_bind; [auto with preserves|intros s]. apply preserves_bind; [auto with preserves|intros _].
  apply preserves_bind; [by apply preserves_modify|intros ?]. apply preserves_ret.
Qed.
Lemma preserves_lockAccount u : preserves tiered (lockAccount u).
Proof. unfold lockAccount. auto with preserves. Qed.
Lemma preserves_loyalty_wallets {A} (m : M WalletStore A) : preserves tiered (zoom ly_wallets set_loyalty_wallets m).
Proof. by apply preserves_zoom. Qed.
Lemma preserves_loyalty_audit e : preserves tiered (modify (add_loyalty_audit e)).
Proof. by apply preserves_modify. Qed.
Hint Resolve preserves_intColumn preserves_getOrCreate preserves_updateAccount preserves_createTransaction preserves_lockAccount
  preserves_loyalty_wallets preserves_loyalty_audit : preserves.

(** A transaction that throws leaves the store as it was. *)
Lemma loyaltyTransaction_run {A} (m : YM A) s r s' : preserves tiered m -> tiered s -> loyaltyTransaction m s = (r, s') ->
  match r with Ok _ => m s = (r, s') | Throw _ => s' = s end.
Proof.
  intros Hm Hs. unfold loyaltyTransaction. destruct (m s) as [[a|e] s1] eqn:E; intros [= <- <-]; [done|].
  rewrite (Hm _ _ _ E Hs), <- Hs. by destruct s.
Qed.

Lemma update_Ok u a tid xb xl s row s' : updateAccount u a tid xb xl s = (Ok row, s') ->
  exists b l, xb == inject_Z b /\ xl == inject_Z l /\ int32 b /\ int32 l /\
    row = {| la_id := la_id a; la_tierId := tid; la_pointsBalance := b; la_lifetimePoints := l |} /\ s' = set_account u row s.
Proof.
  unfold updateAccount. intros (b & s1 & [-> Hb]%intColumn_run & H)%bind_Ok.
  apply bind_Ok in H as (l & s2 & [-> Hl]%intColumn_run & H). step_in H. injection H as <- <-.
  destruct (Hb b eq_refl), (Hl l eq_refl). by exists b, l.
Qed.
Lemma create_Ok env id ty xp xbe xaf rt rid key s t s' : createTransaction env id ty xp xbe xaf rt rid key s = (Ok t, s') ->
  exists p be af, xp == inject_Z p /\ xbe == inject_Z be /\ xaf == inject_Z af /\ int32 p /\ int32 be /\ int32 af /\
    t = {| lx_id := ye_transactionId env; lx_accountId := id; lx_type := ty; lx_points := p; lx_balanceBefore := be;
           lx_balanceAfter := af; lx_referenceType := rt; lx_referenceId := rid; lx_idempotencyKey := key |} /\
    findTransaction key s = None /\ s' = add_transaction t s.
Proof.
  unfold createTransaction. intros (p & s1 & [-> Hp]%intColumn_run & H)%bind_Ok.
  apply bind_Ok in H as (be & s2 & [-> Hbe]%intColumn_run & H). apply bind_Ok in H as (af & s3 & [-> Haf]%intColumn_run & H).
  guard_in H as E. step_in H. injection H as <- <-. apply bool_decide_eq_true in E.
  destruct (Hp p eq_refl), (Hbe be eq_refl), (Haf af eq_refl). by exists p, be, af.
Qed.
(** Account and row are written together. *)
Definition row_for (env : LoyaltyEnv) (a : LoyaltyAccount) (ty : LoyaltyTransactionType) (p b : Z) (rt : string) (rid : option string)
    (key : string) : LoyaltyTransaction :=
  {| lx_id := ye_transactionId env; lx_accountId := la_id a; lx_type := ty; lx_points := p; lx_balanceBefore := la_pointsBalance a;
     lx_balanceAfter := b; lx_referenceType := rt; lx_referenceId := rid; lx_idempotencyKey := key |}.
Lemma write_Ok {A} env u a tid xb xl ty xp rt rid key (K : LoyaltyAccount -> LoyaltyTransaction -> YM A) s r s' :
  (row ← updateAccount u a tid xb xl;
   t ← createTransaction env (la_id a) ty xp (inject_Z (la_pointsBalance a)) xb rt rid key; K row t) s = (Ok r, s') ->
  exists p b l, xp == inject_Z p /\ xb == inject_Z b /\ xl == inject_Z l /\ int32 p /\ int32 b /\ int32 l /\ int32 (la_pointsBalance a) /\
    findTransaction key s = None /\
    let row := {| la_id := la_id a; la_tierId := tid; la_pointsBalance := b; la_lifetimePoints := l |} in
    let t := row_for env a ty p b rt rid key in
    K row t (add_transaction t (set_account u row s)) = (Ok r, s').
Proof.
  intros (row & s1 & (b & l & Eb & El & Hb & Hl & -> & ->)%update_Ok & H)%bind_Ok.
  apply bind_Ok in H as (t & s2 & (p & be & af & Ep & Ebe & Eaf & Hp & Hbe & _ & -> & Hk & ->)%create_Ok & H).
  apply inject_Z_injective in Ebe as <-. assert (b = af) as <- by (apply inject_Z_injective; by rewrite <- Eb).
  exists p, b, l. by split_and!.
Qed.

Lemma account_int32 l a : account_ok l a -> int32 (la_pointsBalance a) /\ int32 (la_lifetimePoints a) /\
  (0 <= la_pointsBalance a <= la_lifetimePoints a)%Z.
Proof.
  intros [Hr Hf _]. apply replay_within in Hr; [|by split]. unfold within, int32 in *. cbn in *. lia.
Qed.
Lemma account_tier s a : tiered s -> account_ok (ly_transactions s) a ->
  tierById (la_tierId a) (ascendingTiers s) <> None.
Proof.
  intros Ht [_ _ ->]. rewrite (ascending_default ids) by done. destruct (tier_for_highest ids 0 ltac:(lia)) as [_ _].
  intros H. assert (tier_for ids (la_lifetimePoints a) ∈ defaultTiers ids) as Hin%list_elem_of_In
    by (unfold tier_for; repeat case_match; rewrite list_elem_of_In; cbn; auto 6).
  pose proof (find_none _ _ H _ Hin) as E. cbn in E. by rewrite String.eqb_refl in E.
Qed.

(** What [creditBooking] answers and leaves. *)
Definition credited (env : LoyaltyEnv) (config : LoyaltyConfig) (bookingId customerId : string) (fare : Q) (s : LoyaltyStore)
    (r : result Completion) (s' : LoyaltyStore) : Prop :=
  match r with
  | Throw _ => s' = s
  | Ok (AlreadyCredited p) => s' = s /\ exists t, findTransaction (completionKey bookingId) s = Some t /\ p = lx_points t
  | Ok (NotEarned _) => exists a, opened_for env customerId s s' a
  | Ok (Earned p b l code id) => exists s1 a tier, opened_for env customerId s s1 a /\
      tierById (la_tierId a) (defaultTiers ids) = Some tier /\
      inject_Z p == calculateEligiblePoints fare (rnd (lt_pointsMultiplier tier)) (num_or (lc_rupeesPerPointEarned config) 10)
                      (Some (lc_maxPointsPerBooking config)) /\
      (0 < p)%Z /\ b = (la_pointsBalance a + p)%Z /\ l = (la_lifetimePoints a + p)%Z /\ int32 b /\ int32 l /\
      code = lt_code (tier_for ids l) /\ id = ye_transactionId env /\ findTransaction (completionKey bookingId) s1 = None /\
      s' = add_transaction (row_for env a LTX_TRIP_COMPLETION_EARNED p b "BOOKING" (Some bookingId) (completionKey bookingId))
             (set_account customerId (moved_account a b l) s1)
  end.
Lemma preserves_ret_tiered {A} (a : A) : preserves tiered (mret (M:=YM) a).
Proof. apply preserves_ret. Qed.
Ltac tier_safe :=
  repeat first [progress (cbv zeta) | apply preserves_bind; [solve [auto with preserves]|intros ?] | case_match | solve [auto with preserves]].
Lemma creditBooking_run env config bookingId customerId fare s r s' : loyalty_ok s -> fresh_account env s ->
  creditBooking env config bookingId customerId fare s = (r, s') -> credited env config bookingId customerId fare s r s'.
Proof.
  intros Ho Hf H. unfold creditBooking in H. apply loyaltyTransaction_run in H; [|tier_safe|apply (lo_tiers _ Ho)].
  destruct r as [c|e]; [|done]. step_in H. destruct (findTransaction _ s) as [t|] eqn:Ek.
  { injection H as <- <-. split; [done|]. by exists t. }
  apply bind_Ok in H as (a & s1 & Hopen & H). apply (getOrCreateAccount_run env customerId) in Hopen; [|apply (lo_tiers _ Ho)].
  destruct (opened_ok env customerId s s1 a Ho Hf Hopen) as [Ho1 Ha]. unfold lockAccount in H. step_in H. rewrite Ha in H. step_in H.
  pose proof (account_tier s1 a (lo_tiers _ Ho1) (lo_account _ Ho1 _ _ Ha)) as Ht.
  destruct (tierById (la_tierId a) (ascendingTiers s1)) as [tier|] eqn:Etier; [|done]. step_in H.
  set (pts := calculateEligiblePoints _ _ _ _) in *. destruct (js_le pts 0) eqn:Ep.
  { step_in H. injection H as <- <-. by exists a. }
  rewrite (ascending_default ids) in H, Etier by apply (lo_tiers _ Ho1). rewrite determineTier_default in H. step_in H.
  apply write_Ok in H as (p & b & l & Exp & Exb & Exl & Hp & Hb & Hl & Hbal & Hk & H). cbv zeta in H. step_in H.
  injection H as <- <-. destruct (account_int32 _ _ (lo_account _ Ho1 _ _ Ha)) as (Hi1 & Hi2 & Hi3).
  pose proof (js_add_int32 _ _ _ _ Exp Hi1 Hp Exb) as Eb. pose proof (js_add_int32 _ _ _ _ Exp Hi2 Hp Exl) as El.
  unfold credited. exists s1, a, tier. rewrite (Qfloor_comp _ _ Exl), Qfloor_Z. split_and!; try done.
  unfold js_le in Ep. rewrite Zlt_Qlt, <- Exp. change (inject_Z 0) with 0. apply Qnot_le_lt. intros Hle%Qle_bool_iff. congruence.
Qed.

Lemma accountById_Some id s u a : accountById id s = Some (u, a) -> ly_accounts s !! u = Some a /\ la_id a = id.
Proof.
  unfold accountById. intros [Hin E%String.eqb_eq]%find_some. split; [|done].
  by apply elem_of_map_to_list, list_elem_of_In.
Qed.
(** What [reverseBooking] answers and leaves. *)
Definition reversed (env : LoyaltyEnv) (bookingId : string) (e : LoyaltyTransaction) (s : LoyaltyStore) (r : result PointsReversal)
    (s' : LoyaltyStore) : Prop :=
  match r with
  | Ok (Reversed p b l code id) => exists u a, ly_accounts s !! u = Some a /\ la_id a = lx_accountId e /\ p = lx_points e /\
      b = Z.max 0 (la_pointsBalance a - p) /\ l = Z.max 0 (la_lifetimePoints a - p) /\ int32 l /\
      code = lt_code (tier_for ids l) /\ findTransaction (reversalKey bookingId) s = None /\
      s' = add_transaction (row_for env a LTX_CANCELLATION_REVERSAL p b "BOOKING_CANCELLATION" (Some bookingId) (reversalKey bookingId))
             (set_account u (moved_account a b l) s)
  | Ok (AlreadyReversed p) => s' = s /\ exists t, findTransaction (reversalKey bookingId) s = Some t /\ p = lx_points t
  | _ => s' = s
  end.
Lemma reverseBooking_run env bookingId e s r s' : loyalty_ok s -> reverseBooking env bookingId e s = (r, s') ->
  reversed env bookingId e s r s'.
Proof.
  intros Ho H. unfold reverseBooking in H. apply loyaltyTransaction_run in H; [|tier_safe|apply (lo_tiers _ Ho)].
  destruct r as [c|ex]; [|done]. step_in H. destruct (findTransaction _ s) as [t|] eqn:Ek.
  { injection H as <- <-. split; [done|]. by exists t. }
  destruct (accountById _ s) as [[u a]|] eqn:Ea; [|by injection H as <- <-].
  apply accountById_Some in Ea as [Ha Hid]. rewrite (ascending_default ids) in H by apply (lo_tiers _ Ho).
  rewrite determineTier_default in H. step_in H.
  apply write_Ok in H as (p & b & l & Exp & Exb & Exl & Hp & Hb & Hl & _ & Hk & H). cbv zeta in H. step_in H.
  injection H as <- <-. apply inject_Z_injective in Exp as <-. apply inject_Z_injective in Exb as <-. apply inject_Z_injective in Exl as <-.
  by exists u, a.
Qed.

Lemma redeemed_within points P ratio credit p : points == inject_Z P -> (0 < P)%Z -> int32 P -> credit = Qfloor (js_div points ratio) ->
  (0 < credit)%Z -> js_mul (inject_Z credit) ratio == inject_Z p -> (0 < p <= P)%Z.
Proof.
  intros EP HP Hi Ec Hc Ep. set (e := 1 # 9007199254740992).
  assert (0 < points) as Hpt by (rewrite EP, <- (Zlt_Qlt 0); lia).
  assert (inject_Z credit <= js_div points ratio) as Hle by (subst credit; apply Qfloor_le).
  assert (1 <= inject_Z credit) as H1 by (rewrite <- (Zle_Qle 1); lia).
  assert (0 < points / ratio) as Hq.
  { apply Qnot_le_lt. intros Hn%rnd_nonpos. unfold js_div in Hle. lra. }
  assert (0 < ratio) as Hr.
  { apply Qnot_le_lt. intros Hn. apply (Qlt_irrefl 0). eapply Qlt_le_trans; [exact Hq|]. unfold Qdiv.
    assert (/ ratio <= 0) as Hinv.
    { destruct (Qlt_le_dec 0 (/ ratio)) as [Hlt|]; [|done]. exfalso. apply (Qinv_lt_0_compat) in Hlt.
      rewrite Qinv_involutive in Hlt. lra. }
    nra. }
  unfold js_div in Hle. destruct (rnd_rel (points / ratio)) as [_ Hup]; [lra|].
  assert (inject_Z credit * ratio <= points * (1 + e)) as Hcr.
  { assert (points / ratio * ratio == points) as E by (field; lra).
    assert (inject_Z credit * ratio <= points / ratio * (1 + e) * ratio) as H by (apply Qmult_le_compat_r; [unfold e in *; lra|lra]).
    assert (points / ratio * (1 + e) * ratio == points * (1 + e)) as E2 by (rewrite <- E at 2; ring). lra. }
  assert (0 < inject_Z credit * ratio) as Hpos by nra.
  destruct (rnd_rel (inject_Z credit * ratio)) as [Hlo Hhi]; [lra|]. unfold js_mul in Ep. rewrite Ep in Hlo, Hhi.
  unfold int32 in Hi. assert (points <= 2147483648) as Hb by (rewrite EP; change 2147483648 with (inject_Z 2147483648); rewrite <- Zle_Qle; lia).
  assert (0 < inject_Z p) as H0 by lra. assert (inject_Z p < inject_Z (P + 1)) as H2.
  { rewrite inject_Z_plus, <- EP. change (inject_Z 1) with 1. unfold e in *. lra. }
  rewrite <- (Zlt_Qlt 0) in H0. rewrite <- Zlt_Qlt in H2. lia.
Qed.

(** What a redemption answers and leaves. *)
Definition redemptionRatio (env : LoyaltyEnv) : Q := num_or (lc_pointsToRupeeRatio (effectiveConfig (ye_config env))) 2.
Definition walletCredit (env : LoyaltyEnv) (walletId : string) (amount : Z) : M WalletStore WalletLedgerEntry :=
  creditWallet (ye_now env) (ye_walletConfig env) walletId (inject_Z amount) LT_LOYALTY_CONVERSION BUCKET_PROMOTIONAL "LOYALTY"
    (Some (ye_transactionId env)) ("wallet_loyalty_redeem_" +:+ ye_transactionId env) None true.
Definition redeemed_for (env : LoyaltyEnv) (userId : string) (points : Q) (key : option string) (s : LoyaltyStore) (r : result Redeemed)
    (s' : LoyaltyStore) : Prop :=
  match r with
  | Throw _ => s' = s
  | Ok d => exists s1 a n w row W1 W2, opened_for env userId s s1 a /\ points == inject_Z n /\ (n <= la_pointsBalance a)%Z /\
      rd_walletCreditAmount d = Qfloor (js_div points (redemptionRatio env)) /\ (0 < rd_walletCreditAmount d)%Z /\
      js_mul (inject_Z (rd_walletCreditAmount d)) (redemptionRatio env) == inject_Z (rd_points d) /\
      (0 < rd_points d <= n)%Z /\ rd_newPointsBalance d = (la_pointsBalance a - rd_points d)%Z /\
      findTransaction (str_or key (ye_redeemKey env)) s1 = None /\
      getOrCreateWallet (ye_walletId env) userId (ly_wallets s) = (Ok w, W1) /\
      walletCredit env (fst w) (rd_walletCreditAmount d) W1 = (Ok row, W2) /\
      s' = set_loyalty_wallets W2 (add_transaction (row_for env a LTX_REDEMPTION_TO_WALLET (rd_points d) (rd_newPointsBalance d)
             "WALLET" None (str_or key (ye_redeemKey env)))
             (set_account userId (moved_account a (rd_newPointsBalance d) (la_lifetimePoints a)) s1))
  end.
Lemma redeem_run env userId points key s r s' : loyalty_ok s -> fresh_account env s -> 2 <= points ->
  redeemPointsToWallet env userId points key s = (r, s') -> redeemed_for env userId points key s r s'.
Proof.
  intros Ho Hf H2 H. unfold redeemPointsToWallet in H. cbv zeta in H. step_in H.
  destruct (lc_isEnabled _); [|by injection H as <- <-]. step_in H. destruct (_ && _) eqn:Ev; [|by injection H as <- <-].
  apply andb_true_iff in Ev as [_ Eint%Qeq_bool_eq].
  apply loyaltyTransaction_run in H; [|tier_safe|apply (lo_tiers _ Ho)]. destruct r as [d|ex]; [|done].
  guard_in H as _. apply bind_Ok in H as (a & s1 & Hopen & H). apply (getOrCreateAccount_run env userId) in Hopen; [|apply (lo_tiers _ Ho)].
  destruct (opened_ok env userId s s1 a Ho Hf Hopen) as [Ho1 Ha]. unfold lockAccount in H. step_in H. rewrite Ha in H.
  guard_in H as Eins. guard_in H as Ecr. fold (redemptionRatio env) in H, Ecr.
  apply write_Ok in H as (p & b & l & Exp & Exb & Exl & Hp & Hb & Hl & Hbal & Hk & H). cbv zeta in H.
  apply bind_Ok in H as (w & s2 & (W1 & Ew & ->)%zoom_run & H). apply bind_Ok in H as (row & s3 & (W2 & Ec & ->)%zoom_run & H).
  step_in H. injection H as <- <-. apply inject_Z_injective in Exl as <-.
  destruct (account_int32 _ _ (lo_account _ Ho1 _ _ Ha)) as (Hi1 & Hi2 & Hi3).
  pose proof (js_sub_int32 _ _ _ _ Exp Hi1 Hp Exb) as ->. set (n := Qfloor points) in *.
  assert (n <= la_pointsBalance a)%Z as Hn.
  { apply negb_true_iff, negb_false_iff, Qle_bool_iff in Eins. rewrite <- Eint, <- Zle_Qle in Eins. done. }
  assert (2 <= n)%Z as Hn2 by (rewrite Zle_Qle, Eint; exact H2).
  assert (0 < p <= n)%Z as Hpn.
  { apply (redeemed_within points n (redemptionRatio env) (Qfloor (js_div points (redemptionRatio env))) p); [by symmetry|lia|unfold int32 in *; lia|reflexivity|lia|exact Exp]. }
  exists s1, a, n, w, row, W1, W2. cbn. split_and!; try done; try lia.
  - destruct Hopen as [[_ ->]|(_ & _ & ->)]; exact Ew.
  - unfold moved_account. rewrite <- (ao_tier _ _ (lo_account _ Ho1 _ _ Ha)). done.
Qed.

(** What an adjustment answers and leaves. *)
Definition adjusted (env : LoyaltyEnv) (adminUserId userId : string) (points : Z) (key : string) (s : LoyaltyStore) (r : result Adjusted)
    (s' : LoyaltyStore) : Prop :=
  match r with
  | Throw _ => s' = s
  | Ok d => exists s1 a, opened_for env userId s s1 a /\ points <> 0%Z /\ (0 <= aj_newPointsBalance d)%Z /\
      aj_newPointsBalance d = (la_pointsBalance a + points)%Z /\
      aj_newLifetimePoints d = (la_lifetimePoints a + Z.max 0 points)%Z /\ int32 (aj_newLifetimePoints d) /\
      aj_tierCode d = lt_code (tier_for ids (aj_newLifetimePoints d)) /\ findTransaction key s1 = None /\
      s' = add_loyalty_audit {| al_userId := adminUserId; al_action := "LOYALTY_POINT_ADJUSTMENT"; al_entityId := la_id a |}
             (add_transaction (row_for env a LTX_ADMIN_ADJUSTMENT (Z.abs points) (aj_newPointsBalance d) "ADMIN" (Some adminUserId) key)
               (set_account userId (moved_account a (aj_newPointsBalance d) (aj_newLifetimePoints d)) s1))
  end.
Lemma adjust_run env adminUserId userId points key s r s' : loyalty_ok s -> fresh_account env s ->
  adminAdjustPoints env adminUserId userId points key s = (r, s') -> adjusted env adminUserId userId points key s r s'.
Proof.
  intros Ho Hf H. unfold adminAdjustPoints in H. step_in H. destruct (negb _) eqn:E0; [|by injection H as <- <-].
  apply loyaltyTransaction_run in H; [|tier_safe|apply (lo_tiers _ Ho)]. destruct r as [d|ex]; [|done].
  guard_in H as _. apply bind_Ok in H as (a & s1 & Hopen & H). apply (getOrCreateAccount_run env userId) in Hopen; [|apply (lo_tiers _ Ho)].
  destruct (opened_ok env userId s s1 a Ho Hf Hopen) as [Ho1 Ha]. unfold lockAccount in H. step_in H. rewrite Ha in H.
  guard_in H as Eneg. step_in H. rewrite (ascending_default ids), determineTier_default in H by apply (lo_tiers _ Ho1). step_in H.
  destruct (account_int32 _ _ (lo_account _ Ho1 _ _ Ha)) as (Hi1 & Hi2 & Hi3).
  apply (write_Ok env userId a _ _ _ _ _ _ _ _ (fun _ _ => modify _ ;; mret _)) in H
    as (p & b & l & Exp & Exb & Exl & Hp & Hb & Hl & _ & Hk & H).
  cbv zeta in H. step_in H. injection H as <- <-.
  apply inject_Z_injective in Exp as <-. apply inject_Z_injective in Exb as <-. apply inject_Z_injective in Exl as <-.
  exists s1, a. cbn. split_and!; try done; try lia. destruct (0 <? points)%Z eqn:E; lia.
Qed.

(** ** Reachable stores

    A step is one transaction.  The guards of [handleBookingCompleted] and
    [handleBookingCancelled] are read before theirs, so the customer and fare
    of a credit and the earning row of a reversal may be old; bookings,
    wallets and users also change by other hands. *)
Inductive loyalty_step : LoyaltyStore -> LoyaltyStore -> Prop :=
  | ly_seed tierId s r s' : ensureTiersExist tierId s = (r, s') -> loyalty_step s s'
  | ly_open env u s r s' : fresh_account env s -> getOrCreateLoyaltyAccount env u s = (r, s') -> loyalty_step s s'
  | ly_credit env config b u fare s r s' : fresh_account env s -> creditBooking env config b u fare s = (r, s') -> loyalty_step s s'
  | ly_reverse env b e s r s' : e ∈ ly_transactions s -> isEarning b e = true -> reverseBooking env b e s = (r, s') -> loyalty_step s s'
  | ly_redeem env u points key s r s' : fresh_account env s -> 2 <= points ->
      redeemPointsToWallet env u points key s = (r, s') -> loyalty_step s s'
  | ly_adjust env admin u points key s r s' : fresh_account env s -> adminAdjustPoints env admin u points key s = (r, s') -> loyalty_step s s'
  | ly_others s s' : ly_tiers s' = ly_tiers s -> ly_accounts s' = ly_accounts s -> ly_transactions s' = ly_transactions s -> loyalty_step s s'.
Definition loyalty_init (s : LoyaltyStore) : Prop := ly_tiers s = defaultTiers ids /\ ly_accounts s = ∅ /\ ly_transactions s = [].

Lemma loyalty_init_ok s : loyalty_init s -> loyalty_ok s.
Proof. intros (E1 & E2 & E3). split; rewrite ?E1, ?E2, ?E3; try done; try (by intros ? ?%elem_of_nil). apply NoDup_nil_2. Qed.

Lemma isEarning_spec b t : isEarning b t = true <-> earned_for b t.
Proof.
  unfold isEarning, earned_for. rewrite !andb_true_iff, String.eqb_eq, !bool_decide_eq_true. tauto.
Qed.
Lemma credited_ok env config b u fare s r s' : loyalty_ok s -> fresh_account env s ->
  credited env config b u fare s r s' -> loyalty_ok s'.
Proof.
  intros Ho Hf. destruct r as [[p|m|p bal l code id]|e]; cbn; [by intros [-> _]|intros (a & H); by eapply opened_ok| |by intros ->].
  intros (s1 & a & tier & H & _ & _ & Hp & -> & -> & _ & Hl & _ & _ & Hk & ->). destruct (opened_ok env u s s1 a Ho Hf H) as [Ho1 Ha].
  eapply (write_row_ok u a); [exact Ho1|exact Ha|reflexivity..|cbn| | | | |]; cbn; try done.
  - by replace (0 <? p)%Z with true by lia.
  - by exists b.
Qed.
Lemma reversed_ok env b e s r s' : loyalty_ok s -> e ∈ ly_transactions s -> earned_for b e ->
  reversed env b e s r s' -> loyalty_ok s'.
Proof.
  intros Ho He Hb. destruct r as [[m|p|p bal l code id]|ex]; cbn; [by intros ->|by intros [-> _]| |by intros ->].
  intros (u & a & Ha & Hid & -> & -> & -> & Hl & _ & Hk & ->).
  eapply (write_row_ok u a); [exact Ho|exact Ha|reflexivity..|cbn| | | | |]; cbn; try done.
  - pose proof (lo_owner _ Ho e He) as (u' & a' & Hu' & Hid'). assert (u' = u) as -> by (eapply (lo_ids _ Ho); eauto; congruence).
    assert (0 < lx_points e)%Z as Hp.
    { destruct (lo_account _ Ho u a Ha) as [Hrep _ _]. eapply (replay_positive _ _ _ e Hrep). apply list_elem_of_filter. by rewrite Hid. }
    by replace (0 <? lx_points e)%Z with true by lia.
  - exists b, e. split_and!; try done.
Qed.
Lemma redeemed_ok env u points key s r s' : loyalty_ok s -> fresh_account env s -> redeemed_for env u points key s r s' -> loyalty_ok s'.
Proof.
  intros Ho Hf. destruct r as [d|e]; cbn; [|by intros ->].
  intros (s1 & a & n & w & row & W1 & W2 & H & _ & Hn & _ & _ & _ & Hp & Eb & Hk & _ & _ & ->).
  destruct (opened_ok env u s s1 a Ho Hf H) as [Ho1 Ha]. destruct (account_int32 _ _ (lo_account _ Ho1 _ _ Ha)) as (_ & Hi & _).
  eapply (write_row_ok u a); [exact Ho1|exact Ha|reflexivity..|cbn| | | | |]; cbn; try done.
  rewrite Eb. replace (0 <? rd_points d)%Z with true by lia. by replace (rd_points d <=? la_pointsBalance a)%Z with true by lia.
Qed.
Lemma adjusted_ok env admin u points key s r s' : loyalty_ok s -> fresh_account env s ->
  adjusted env admin u points key s r s' -> loyalty_ok s'.
Proof.
  intros Ho Hf. destruct r as [d|e]; cbn; [|by intros ->].
  intros (s1 & a & H & Hne & Hnn & Eb & El & Hl & _ & Hk & ->). destruct (opened_ok env u s s1 a Ho Hf H) as [Ho1 Ha].
  eapply (write_row_ok u a); [exact Ho1|exact Ha|reflexivity..|cbn| | | | |]; cbn; try done.
  replace (0 <? Z.abs points)%Z with true by lia. cbn. rewrite Eb, El in *. destruct (Z.ltb_spec 0 points).
  - replace (la_pointsBalance a <? la_pointsBalance a + points)%Z with true by lia. do 2 f_equal; lia.
  - replace (la_pointsBalance a <? la_pointsBalance a + points)%Z with false by lia.
    replace (Z.abs points <=? la_pointsBalance a)%Z with true by lia. do 2 f_equal; lia.
Qed.

Lemma loyalty_step_ok s s' : loyalty_step s s' -> loyalty_ok s -> loyalty_ok s'.
Proof.
  intros [] Ho.
  - rewrite (ensureTiers_run ids) in H by (left; apply (lo_tiers _ Ho)). injection H as <- <-.
    eapply loyalty_ok_ext; [symmetry; apply (lo_tiers _ Ho)|done..].
  - eapply getOrCreateAccount_run in H0; [|apply (lo_tiers _ Ho)]. destruct r; [by eapply opened_ok|by subst].
  - eapply credited_ok; [exact Ho|exact H|]. by apply creditBooking_run.
  - eapply reversed_ok; [exact Ho|exact H|by apply isEarning_spec|]. by apply reverseBooking_run.
  - eapply redeemed_ok; [exact Ho|exact H|]. by apply redeem_run.
  - eapply adjusted_ok; [exact Ho|exact H|]. by apply adjust_run.
  - by eapply loyalty_ok_ext.
Qed.
Lemma reachable_loyalty_ok s0 s : loyalty_init s0 -> rtc loyalty_step s0 s -> loyalty_ok s.
Proof. intros H0%loyalty_init_ok Hr. by eapply (rtc_invariant _ _ _ _ loyalty_step_ok). Qed.

(** *** The handlers are steps *)
Lemma handleBookingCompleted_step env b s r s' : fresh_account env s -> handleBookingCompleted env b s = (r, s') -> rtc loyalty_step s s'.
Proof.
  intros Hf. unfold handleBookingCompleted. destruct (negb _); step; [intros [= <- <-]; apply rtc_refl|].
  destruct (completionGuard b s) as [c|[u fare]]; [intros [= <- <-]; apply rtc_refl|]. intros H. eapply rtc_once, ly_credit; eauto.
Qed.
Lemma handleBookingCancelled_step env b s r s' : handleBookingCancelled env b s = (r, s') -> rtc loyalty_step s s'.
Proof.
  unfold handleBookingCancelled. step. destruct (List.find _ _) as [e|] eqn:E; [|intros [= <- <-]; apply rtc_refl].
  destruct (findTransaction _ s); [intros [= <- <-]; apply rtc_refl|]. apply find_some in E as [Hin He].
  intros H. eapply rtc_once, ly_reverse; [|exact He|exact H]. by apply list_elem_of_In.
Qed.
Lemma getLoyaltyAccount_step env u s r s' : fresh_account env s -> getLoyaltyAccount env u s = (r, s') -> rtc loyalty_step s s'.
Proof.
  intros Hf H. unfold getLoyaltyAccount in H. rewrite bind_run in H.
  destruct (getOrCreateLoyaltyAccount env u s) as [[a|e] s1] eqn:E; [|injection H as <- <-; by eapply rtc_once, ly_open].
  step_in H. assert (s' = s1) as ->.
  { destruct (match list_find _ _ with Some _ => _ | None => _ end); by injection H as <- <-. }
  by eapply rtc_once, ly_open.
Qed.
End ledger.
