(* ===== verification/LoyaltySafety.v ===== *)
(** * Loyalty points are kept, earned once and redeemed exactly

    The theorems on Loyalty.v, from the invariant of LoyaltyLedger.v, and runs
    in which client-chosen keys, late cancellations and unusual configurations
    defeat what the handlers mean to do. *)
From S2P Require Import Prelude JsNumber Decimal Schema Ledger Wallet BookingStore Loyalty LoyaltyLedger.
Open Scope Z_scope.
Open Scope Q_scope.

(** ** Whole points for whole rupees *)
(** Below 2^31 the division of numbers, floored, is that of integers. *)
Lemma floor_js_div n k : (0 < n < 2 ^ 31)%Z -> (0 < k)%Z -> Qfloor (js_div (inject_Z n) (inject_Z k)) = (n / k)%Z.
Proof.
  intros Hn Hk. set (e := 1 # 9007199254740992). unfold js_div. pose proof (Z.div_mod n k ltac:(lia)) as E.
  pose proof (Z.mod_pos_bound n k ltac:(lia)) as Hm. set (q := (n / k)%Z) in *. set (m := (n mod k)%Z) in *.
  assert (0 < inject_Z k) as Hk0 by (by rewrite <- (Zlt_Qlt 0)). set (x := inject_Z n / inject_Z k).
  assert (x * inject_Z k == inject_Z n) as Ex by (unfold x; field; lra).
  assert (inject_Z n == inject_Z k * inject_Z q + inject_Z m) as En by (rewrite <- inject_Z_mult, <- inject_Z_plus; by rewrite <- E).
  assert (0 <= inject_Z m /\ inject_Z m <= inject_Z k - 1) as [Hm0 Hm1].
  { change 1 with (inject_Z 1). rewrite <- inject_Z_sub. change 0 with (inject_Z 0). rewrite <- !Zle_Qle. lia. }
  assert (inject_Z n <= 2147483648) as Hn1 by (change 2147483648 with (inject_Z 2147483648); rewrite <- Zle_Qle; lia).
  assert (0 < inject_Z n) as Hn0 by (rewrite <- (Zlt_Qlt 0); lia). assert (0 <= x) as Hx by nra.
  destruct (rnd_rel x Hx) as [Hlo Hhi]. fold e in Hlo, Hhi. apply Qfloor_unique.
  - destruct (decide (m = 0%Z)) as [Em|Em].
    + assert (x == inject_Z q) as Exq.
      { apply (Qmult_inj_r _ _ (inject_Z k)); [lra|]. rewrite Ex, En, Em. change (inject_Z 0) with 0. ring. }
      rewrite (rnd_proper _ _ Exq), rnd_Z; [apply Qle_refl|]. assert (0 <= q <= n)%Z by (unfold q; split; [apply Z.div_pos; lia|apply Z.div_le_upper_bound; nia]). lia.
    + assert (1 <= inject_Z m) as H1 by (rewrite <- (Zle_Qle 1); lia). apply Qle_trans with (x * (1 - e)); [|exact Hlo].
      apply (Qmult_le_r _ _ (inject_Z k)); [done|]. assert (x * (1 - e) * inject_Z k == inject_Z n * (1 - e)) as -> by (rewrite <- Ex; ring).
      unfold e in *. lra.
  - eapply Qle_lt_trans; [exact Hhi|]. apply (Qmult_lt_r _ _ (inject_Z k)); [done|].
    assert (x * (1 + e) * inject_Z k == inject_Z n * (1 + e)) as -> by (rewrite <- Ex; ring). unfold e in *. lra.
Qed.

Section safety.
Context {col : NumericColumn} {dec : DecimalArith}.
Variable ids : LoyaltyTierCode -> string.

(** C26. A loyalty account is the replay of its transactions: in every store reachable from the seeded tiers by openings, booking credits (on however old a reading of the booking), reversals, redemptions, adjustments and re-seedings, the rows of an account, each starting at the balance where the one before it ended, give exactly its balance and lifetime points; 0 <= balance <= lifetime points < 2^31, and its tier is the most demanding one its lifetime points reach. *)
Theorem loyalty_account_replays s0 s u a :
  loyalty_init ids s0 -> rtc loyalty_step s0 s -> ly_accounts s !! u = Some a ->
  replay_rows (0, 0)%Z (rows_of (la_id a) (ly_transactions s)) = Some (la_pointsBalance a, la_lifetimePoints a) /\
  (0 <= la_pointsBalance a <= la_lifetimePoints a)%Z /\ (la_lifetimePoints a < 2 ^ 31)%Z /\
  exists tier, tier ∈ ly_tiers s /\ la_tierId a = lt_id tier /\ (lt_minPointsRequired tier <= la_lifetimePoints a)%Z /\
    forall t, t ∈ ly_tiers s -> (lt_minPointsRequired t <= la_lifetimePoints a -> lt_minPointsRequired t <= lt_minPointsRequired tier)%Z.
Proof.
  intros H0 Hr Ha. pose proof (reachable_loyalty_ok ids s0 s H0 Hr) as Ho.
  pose proof (account_int32 _ _ _ (lo_account _ _ Ho u a Ha)) as (_ & Hi & Hb). destruct (lo_account _ _ Ho u a Ha) as [Hrep _ Ht].
  split_and!; [exact Hrep|lia..|unfold int32 in Hi; lia|]. rewrite (lo_tiers _ _ Ho).
  destruct (tier_for_highest ids (la_lifetimePoints a) ltac:(lia)) as (H1 & H2 & H3). by exists (tier_for ids (la_lifetimePoints a)).
Qed.

Lemma earned_unique s b t t' : loyalty_ok ids s -> t ∈ ly_transactions s -> t' ∈ ly_transactions s ->
  earned_for b t -> earned_for b t' -> lx_idempotencyKey t = lx_idempotencyKey t'.
Proof.
  intros Ho Ht Ht' (E1 & _ & R1) (E2 & _ & R2). pose proof (lo_rows _ _ Ho t Ht) as H. pose proof (lo_rows _ _ Ho t' Ht') as H'.
  unfold row_ok in H, H'. rewrite E1 in H. rewrite E2 in H'. destruct H as (b1 & (_ & _ & Hb1) & ->), H' as (b2 & (_ & _ & Hb2) & ->).
  congruence.
Qed.
(** In a list without duplicate keys, rows that share a key are one row. *)
Lemma one_row (P : LoyaltyTransaction -> Prop) `{forall t, Decision (P t)} l : NoDup (map lx_idempotencyKey l) ->
  (forall t t', t ∈ l -> t' ∈ l -> P t -> P t' -> lx_idempotencyKey t = lx_idempotencyKey t') -> (length (filter P l) <= 1)%nat.
Proof.
  induction l as [|x l IH]; intros Hnd Hsame; [cbn; lia|]. cbn in Hnd. apply NoDup_cons in Hnd as [Hx Hnd].
  rewrite filter_cons. destruct (decide (P x)) as [Px|_].
  - cbn. destruct (filter P l) as [|y l'] eqn:E; [done|exfalso]. assert (y ∈ filter P l) as [Py Hy]%list_elem_of_filter
      by (rewrite E; apply list_elem_of_here).
    apply Hx. rewrite (Hsame x y); [|by apply list_elem_of_here|by apply list_elem_of_further|done|done].
    by apply (list_elem_of_fmap_2 lx_idempotencyKey).
  - apply IH; [done|]. intros t t' Ht Ht'. apply Hsame; by apply list_elem_of_further.
Qed.

#[local] Instance earned_for_dec b t : Decision (earned_for b t).
Proof. unfold earned_for. apply _. Defined.
Definition reversal_of (b : string) (t : LoyaltyTransaction) : Prop :=
  lx_type t = LTX_CANCELLATION_REVERSAL /\ lx_referenceId t = Some b.
#[local] Instance reversal_of_dec b t : Decision (reversal_of b t).
Proof. unfold reversal_of. apply _. Defined.

(** C27. A booking earns and loses its points once: in every reachable store, whatever completions and cancellations of it ran and on whatever old readings, at most one transaction credits the booking and at most one reverses it, and a reversal belongs to the account of the booking's credit and is for exactly the points it gave. *)
Theorem booking_points_once s0 s b :
  loyalty_init ids s0 -> rtc loyalty_step s0 s ->
  (length (filter (earned_for b) (ly_transactions s)) <= 1)%nat /\
  (length (filter (reversal_of b) (ly_transactions s)) <= 1)%nat /\
  forall t, t ∈ ly_transactions s -> reversal_of b t ->
    exists e, e ∈ ly_transactions s /\ earned_for b e /\ lx_accountId t = lx_accountId e /\ lx_points t = lx_points e.
Proof.
  intros H0 Hr. pose proof (reachable_loyalty_ok ids s0 s H0 Hr) as Ho.
  assert (forall t, t ∈ ly_transactions s -> reversal_of b t -> lx_idempotencyKey t = reversalKey b /\
    exists e, e ∈ ly_transactions s /\ earned_for b e /\ lx_accountId t = lx_accountId e /\ lx_points t = lx_points e) as Hrev.
  { intros t Ht [Ety Er]. pose proof (lo_rows _ _ Ho t Ht) as H. unfold row_ok in H. rewrite Ety in H.
    destruct H as (b' & e & Er' & Ek & He & Hb & Hid & Hp). assert (b' = b) as -> by congruence. split; [done|]. by exists e. }
  split_and!.
  - apply one_row; [apply (lo_keys _ _ Ho)|]. intros. by eapply earned_unique.
  - apply one_row; [apply (lo_keys _ _ Ho)|]. intros t t' Ht Ht' R R'. by rewrite (proj1 (Hrev t Ht R)), (proj1 (Hrev t' Ht' R')).
  - intros t Ht R. apply (Hrev t Ht R).
Qed.

(** Redemption is exact and atomic: in a reachable store, redeeming n >= 2 points at a whole ratio of k points to the rupee either throws and leaves the store as it was, or takes k * (n / k) points off the account, credits n / k > 0 rupees of promotional money to the user's wallet (its real money unchanged) in one new wallet entry, and appends one loyalty transaction for those points; the n mod k points left over stay with the customer. *)
Theorem redemption_exact s0 s env u n k key r s' :
  loyalty_init ids s0 -> rtc loyalty_step s0 s -> fresh_account env s -> store_ok (ly_wallets s) -> fresh_wallet_id (ye_walletId env) (ly_wallets s) ->
  findByKey ("wallet_loyalty_redeem_" +:+ ye_transactionId env) (ly_wallets s) = None ->
  (2 <= n)%Z -> (0 < k)%Z -> redemptionRatio env == inject_Z k ->
  redeemPointsToWallet env u (inject_Z n) key s = (r, s') ->
  match r with
  | Throw _ => s' = s
  | Ok d => (0 < n / k)%Z /\ rd_walletCreditAmount d = (n / k)%Z /\ rd_points d = (k * (n / k))%Z /\
      (exists a, ly_accounts s !! u = Some a /\ (n <= la_pointsBalance a)%Z /\
        ly_accounts s' !! u = Some (moved_account ids a (la_pointsBalance a - k * (n / k)) (la_lifetimePoints a))) /\
      (exists t, ly_transactions s' = ly_transactions s ++ [t] /\ lx_type t = LTX_REDEMPTION_TO_WALLET /\ lx_points t = (k * (n / k))%Z) /\
      exists p W1 w' e, getOrCreateWallet (ye_walletId env) u (ly_wallets s) = (Ok p, W1) /\
        ws_wallets (ly_wallets s') !! fst p = Some w' /\ w_promoBalance w' == w_promoBalance (snd p) + inject_Z (n / k) /\
        w_realBalance w' == w_realBalance (snd p) /\ ws_entries (ly_wallets s') = ws_entries (ly_wallets s) ++ [e] /\
        we_amount e == inject_Z (n / k)
  end.
Proof.
  intros H0 Hr Hf Hws Hfw Hkey Hn Hk Eratio H. pose proof (reachable_loyalty_ok ids s0 s H0 Hr) as Ho.
  apply (redeem_run ids) in H; [|done|done|by rewrite <- (Zle_Qle 2)]. destruct r as [d|e]; [|exact H].
  destruct H as (s1 & a & n' & w & row & W1 & W2 & Hop & En & Hle & Ec & Hc & Ep & Hp & Eb & Ek & Ew & Ecr & ->).
  apply inject_Z_injective in En as <-. destruct (opened_ok ids env u s s1 a Ho Hf Hop) as [Ho1 Ha].
  destruct (account_int32 _ _ _ (lo_account _ _ Ho1 _ _ Ha)) as (Hi & _ & _). unfold int32 in Hi.
  assert (rd_walletCreditAmount d = (n / k)%Z) as Ed.
  { rewrite Ec, <- (floor_js_div n k) by lia. apply Qfloor_comp. unfold js_div. rewrite (rnd_eq _ (inject_Z n / inject_Z k)); [done|].
    by rewrite Eratio. }
  assert (rd_points d = (k * (n / k))%Z) as Epts.
  { assert (inject_Z (rd_walletCreditAmount d) * redemptionRatio env == inject_Z (k * (n / k))) as E1
      by (rewrite Ed, Eratio, inject_Z_mult; ring).
    unfold js_mul in Ep. rewrite (rnd_eq _ _ E1), rnd_Z in Ep; [apply inject_Z_injective; by symmetry|].
    pose proof (Z.mul_div_le n k ltac:(lia)). assert (0 <= n / k)%Z by (apply Z.div_pos; lia). lia. }
  rewrite Ed in *. split_and!; [lia|done|done| | |].
  - exists a. cbn. rewrite lookup_insert_eq, Eb, Epts. split_and!; [|done|done].
    destruct Hop as [[Hop _]|(_ & -> & _)]; [done|]. cbn in Hle. lia.
  - eexists. split; [cbn; destruct Hop as [[_ ->]|(_ & _ & ->)]; reflexivity|]. done.
  - destruct (getOrCreateWallet_row _ _ _ _ _ Ew) as (Hw & _ & Een). unfold walletCredit, creditWallet in Ecr. step_in Ecr.
    destruct (negb _); [|done]. apply executeCredit_cases in Ecr as [[_ Hno]|(w0 & row' & Hw0 & _ & _ & _ & _ & _ & Hmv)].
    { specialize (Hno _ eq_refl). unfold findByKey in *. rewrite Een in Hno. congruence. }
    cbv zeta in Hmv. destruct Hmv as (_ & _ & Eam & _ & _ & ->). rewrite Hw in Hw0. injection Hw0 as <-.
    pose proof (getOrCreateWallet_ok _ _ _ _ _ Ew Hws Hfw) as Hws1. pose proof (so_wallets _ Hws1 _ _ Hw) as Hwok.
    assert (whole_paise (inject_Z (n / k))) as Hwp by (exists (n / k * 100)%Z; rewrite inject_Z_mult; field).
    exists w, W1. do 2 eexists. cbn. rewrite lookup_insert_eq. split_and!; [exact Ew|reflexivity|..].
    + cbn. apply store_exact, whole_paise_add; [exact (ok_whole_promo _ _ _ Hwok)|done].
    + cbn. apply store_exact, (ok_whole_real _ _ _ Hwok).
    + by rewrite Een.
    + rewrite Eam. by apply store_exact.
Qed.
End safety.

(** ** Concrete runs *)
Definition sample_tier (c : LoyaltyTierCode) : string :=
  match c with LTC_BRONZE => "t1" | LTC_SILVER => "t2" | LTC_GOLD => "t3" | LTC_PLATINUM => "t4" end.
Definition with_config (config : option LoyaltyConfig) (tx : string) : LoyaltyEnv :=
  {| ye_now := 0%Z; ye_config := config; ye_tierId := sample_tier; ye_accountId := "a" +:+ tx; ye_transactionId := "x" +:+ tx;
     ye_redeemKey := "r" +:+ tx; ye_walletId := "w1"; ye_walletConfig := None |}.
Definition loyalty_env : string -> LoyaltyEnv := with_config None.
(** A completed and paid booking of 1000 rupees. *)
Definition seeded : LoyaltyStore :=
  {| ly_tiers := defaultTiers sample_tier; ly_accounts := ∅; ly_transactions := [];
     ly_bookings := {[ "b1" := {| et_customerId := "u1"; et_status := BS_COMPLETED; et_baseFare := 1000;
                                  et_payment := Some (PS_PAID, RS_NONE) |} ]};
     ly_wallets := empty_store; ly_users := ["u1"]; ly_audit := [] |}.
Definition earned : LoyaltyStore := (handleBookingCompleted (loyalty_env "1") "b1" seeded).2.
Definition balance_of (s : LoyaltyStore) : option Z := option_map la_pointsBalance (ly_accounts s !! "u1").
Definition promo_of_wallet (s : LoyaltyStore) : option Q := option_map w_promoBalance (ws_wallets (ly_wallets s) !! "w1").

Example completion_earns : (handleBookingCompleted (loyalty_env "1") "b1" seeded).1 = Ok (Earned 100 100 100 LTC_BRONZE "x1").
Proof. vm_compute. reflexivity. Qed.

Lemma seeded_init : loyalty_init sample_tier seeded.
Proof. by repeat split. Qed.
Lemma earned_reachable : rtc loyalty_step seeded earned.
Proof.
  eapply handleBookingCompleted_step; [|apply surjective_pairing]. intros u a H. by destruct (lookup_empty_Some (M:=gmap string) u a).
Qed.

Lemma loyalty_account_replays_witness :
  exists a, ly_accounts earned !! "u1" = Some a /\ la_pointsBalance a = 100%Z /\
    replay_rows (0, 0)%Z (rows_of (la_id a) (ly_transactions earned)) = Some (la_pointsBalance a, la_lifetimePoints a).
Proof.
  destruct (ly_accounts earned !! "u1") as [a|] eqn:E; [|vm_compute in E; discriminate E]. exists a. split; [reflexivity|].
  split; [vm_compute in E; injection E as <-; reflexivity|].
  exact (proj1 (loyalty_account_replays sample_tier seeded earned "u1" a seeded_init earned_reachable E)).
Defined.
Lemma booking_points_once_witness :
  length (ly_transactions earned) = 1%nat /\
  (length (filter (fun t => bool_decide (lx_type t = LTX_CANCELLATION_REVERSAL)) (ly_transactions earned)) = 0)%nat /\
  forall t, t ∈ ly_transactions earned -> reversal_of "b1" t ->
    exists e, e ∈ ly_transactions earned /\ earned_for "b1" e /\ lx_accountId t = lx_accountId e /\ lx_points t = lx_points e.
Proof.
  split; [vm_compute; reflexivity|]. split; [vm_compute; reflexivity|].
  exact (proj2 (proj2 (booking_points_once sample_tier seeded earned "b1" seeded_init earned_reachable))).
Defined.
(** 21 of the 100 points at 2 points to the rupee. *)
Definition redeem_21 : result Redeemed * LoyaltyStore := redeemPointsToWallet (loyalty_env "2") "u1" (inject_Z 21) None earned.
Lemma redemption_exact_witness :
  exists d s', redeem_21 = (Ok d, s') /\ rd_walletCreditAmount d = 10%Z /\ rd_points d = 20%Z.
Proof.
  destruct redeem_21 as [[d|e] s'] eqn:E; [|exfalso; vm_compute in E; discriminate E]. exists d, s'. split; [reflexivity|].
  pose proof (redemption_exact sample_tier seeded earned (loyalty_env "2") "u1" 21 2 None (Ok d) s' seeded_init earned_reachable
    ltac:(intros u a H; assert (ly_accounts earned = {[ "u1" := default (open_account sample_tier (loyalty_env "1")) (ly_accounts earned !! "u1") ]})
            as Ea by (vm_compute; reflexivity); rewrite Ea in H; apply lookup_singleton_Some in H as [_ <-]; vm_compute; discriminate)
    store_ok_empty ltac:(vm_compute; reflexivity) ltac:(vm_compute; reflexivity) ltac:(lia) ltac:(lia) ltac:(reflexivity) E) as H.
  exact (conj (proj1 (proj2 H)) (proj1 (proj2 (proj2 H)))).
Defined.

(** ** Where the handlers do something else than they mean to *)
(** The client chooses the key of a redemption; one that spells the reversal
    key of a booking makes its cancellation look done already. *)
Definition squatting : YM (Redeemed * PointsReversal) :=
  d ← redeemPointsToWallet (loyalty_env "2") "u1" 2 (Some (reversalKey "b1"));
  v ← handleBookingCancelled (loyalty_env "3") "b1";
  mret (d, v).
Lemma client_key_blocks_reversal :
  exists d s', squatting earned = (Ok (d, AlreadyReversed 2), s') /\ balance_of s' = Some 98%Z.
Proof. do 2 eexists. split; vm_compute; reflexivity. Qed.

(** Points spent before the cancellation are not taken back: the row says 100
    points were reversed, the balance does not move and the wallet keeps its
    50 rupees. *)
Definition spend_then_cancel : YM PointsReversal :=
  redeemPointsToWallet (loyalty_env "2") "u1" 100 None ;;
  handleBookingCancelled (loyalty_env "3") "b1".
Lemma spent_points_survive_cancellation :
  exists s', spend_then_cancel earned = (Ok (Reversed 100 0 0 LTC_BRONZE "x3"), s') /\ balance_of s' = Some 0%Z /\
    option_map (Qeq_bool 50) (promo_of_wallet s') = Some true.
Proof. eexists. split; [vm_compute; reflexivity|]. split; vm_compute; reflexivity. Qed.

(** A ratio of 2.5 points to the rupee makes a redemption of 3 points write
    2.5 points to an integer column. *)
Definition config_with (ratio cap : Q) : LoyaltyConfig :=
  {| lc_isEnabled := true; lc_rupeesPerPointEarned := 10; lc_pointsToRupeeRatio := ratio; lc_minPointsToRedeem := 2;
     lc_maxPointsPerBooking := cap |}.
Lemma fractional_ratio_throws :
  redeemPointsToWallet (with_config (Some (config_with (5 # 2) 5000)) "2") "u1" 3 None earned = (Throw OtherError, earned).
Proof. vm_compute. reflexivity. Qed.

(** A cap of 0 points to a booking is no cap. *)
Lemma zero_cap_is_no_cap : calculateEligiblePoints 1000000 1 10 (Some 0) = 100000 /\ calculateEligiblePoints 1000000 1 10 (Some 1) = 1.
Proof. split; vm_compute; reflexivity. Qed.

(** The account page values points at half a rupee each, whatever the
    configured ratio pays for them. *)
Definition shown_and_paid : YM (Z * Z) :=
  let env := with_config (Some (config_with 4 5000)) "2" in
  v ← getLoyaltyAccount env "u1";
  d ← redeemPointsToWallet env "u1" 100 None;
  mret (lv_walletEquivalent v, rd_walletCreditAmount d).
Lemma shown_value_ignores_ratio : (shown_and_paid earned).1 = Ok (50, 25)%Z.
Proof. vm_compute. reflexivity. Qed.
