(* ===== verification/Referrals.v ===== *)
(** * Referrals: src/car_rental_backend/src/referrals/referrals.service.ts

    Campaigns, attributions and their rewards, over the wallets of Wallet.v.
    Attributions are keyed by their referee, which is unique; campaigns are in
    the order of their creation.  An attribution names the wallet entry of its
    reward by that entry's idempotency key.  Clock, generated ids, random
    codes and configuration are arguments; a user and a booking are what the
    handlers read of them.  Notifications and log lines are left out. *)
From S2P Require Import Prelude JsNumber Decimal Schema Ledger Wallet BookingStore PaymentRefund.
Open Scope Z_scope.
Open Scope Q_scope.

Definition DEFAULT_REFERRER_REWARD : Q := 250.
Definition DEFAULT_REFEREE_DISCOUNT : Q := 250.
Definition DEFAULT_MIN_BOOKING_AMOUNT : Q := 1000.
Definition DEFAULT_MAX_REFERRALS_PER_USER : Z := 20.

Record ReferralConfig : Type := {
  rg_defaultReferrerReward : Q;
  rg_defaultRefereeReward : Q;
  rg_minBookingAmount : Q;
  rg_maxReferralsPerUser : Z;
  rg_isReferralsEnabled : bool;
}.
Definition defaultReferralConfig : ReferralConfig :=
  {| rg_defaultReferrerReward := DEFAULT_REFERRER_REWARD; rg_defaultRefereeReward := DEFAULT_REFEREE_DISCOUNT;
     rg_minBookingAmount := DEFAULT_MIN_BOOKING_AMOUNT; rg_maxReferralsPerUser := DEFAULT_MAX_REFERRALS_PER_USER;
     rg_isReferralsEnabled := true |}.

Record ReferralCampaign : Type := {
  rc_name : string;
  rc_code : string;
  rc_referrerRewardAmount : Q;
  rc_refereeRewardAmount : Q;
  rc_minBookingAmount : Q;
  rc_city : option string;
  rc_startDate : option Z;
  rc_endDate : option Z;
  rc_isActive : bool;
  rc_maxReferralsPerUser : Z;
}.
Record ReferralAttribution : Type := {
  ra_id : string;
  ra_referrerId : string;
  ra_campaignId : option string;
  ra_referralCodeUsed : string;
  ra_status : ReferralStatus;
  ra_qualifyingBookingId : option string;
  ra_referrerRewardAmount : Q;
  ra_refereeRewardAmount : Q;
  ra_referrerLedgerEntryId : option string;
  ra_createdAt : Z;
  ra_qualifiedAt : option Z;
  ra_rewardedAt : option Z;
}.
Record ReferralUser : Type := {
  ru_name : option string;
  ru_phone : option string;
  ru_referralCode : option string;
  ru_licenceNumber : option string;
}.
Record ReferredTrip : Type := {
  rt_customerId : string;
  rt_status : BookingStatus;
  rt_totalFare : Q;
  rt_payment : option (PaymentStatus * RefundStatus);
}.
Record ReferralStore : Type := {
  rs_users : gmap string ReferralUser;
  rs_campaigns : list (string * ReferralCampaign);
  rs_attributions : gmap string ReferralAttribution;
  rs_trips : gmap string ReferredTrip;
  rs_wallets : WalletStore;
  rs_audit : list AuditLog;
}.
Abbreviation RM := (M ReferralStore).
Definition set_referral_user (id : string) (u : ReferralUser) (s : ReferralStore) : ReferralStore :=
  {| rs_users := <[id := u]> (rs_users s); rs_campaigns := rs_campaigns s; rs_attributions := rs_attributions s; rs_trips := rs_trips s;
     rs_wallets := rs_wallets s; rs_audit := rs_audit s |}.
Definition set_campaigns (l : list (string * ReferralCampaign)) (s : ReferralStore) : ReferralStore :=
  {| rs_users := rs_users s; rs_campaigns := l; rs_attributions := rs_attributions s; rs_trips := rs_trips s;
     rs_wallets := rs_wallets s; rs_audit := rs_audit s |}.
Definition set_attribution (refereeId : string) (a : ReferralAttribution) (s : ReferralStore) : ReferralStore :=
  {| rs_users := rs_users s; rs_campaigns := rs_campaigns s; rs_attributions := <[refereeId := a]> (rs_attributions s);
     rs_trips := rs_trips s; rs_wallets := rs_wallets s; rs_audit := rs_audit s |}.
Definition set_referral_wallets (w : WalletStore) (s : ReferralStore) : ReferralStore :=
  {| rs_users := rs_users s; rs_campaigns := rs_campaigns s; rs_attributions := rs_attributions s; rs_trips := rs_trips s;
     rs_wallets := w; rs_audit := rs_audit s |}.
Definition add_referral_audit (a : AuditLog) (s : ReferralStore) : ReferralStore :=
  {| rs_users := rs_users s; rs_campaigns := rs_campaigns s; rs_attributions := rs_attributions s; rs_trips := rs_trips s;
     rs_wallets := rs_wallets s; rs_audit := rs_audit s ++ [a] |}.

Record ReferralEnv : Type := {
  rv_now : Z;
  rv_config : option ReferralConfig;
  rv_campaignId : string;
  rv_attributionId : string;
  rv_suffix3 : string;    (* [crypto.randomBytes(3)] in hexadecimal *)
  rv_suffix4 : string;
  rv_walletId : string;
  rv_walletConfig : option WalletConfig;
}.

Section referrals.
Context {col : NumericColumn} {dec : DecimalArith}.

(** ** Campaigns *)
Definition findCampaign (p : ReferralCampaign -> bool) (s : ReferralStore) : option (string * ReferralCampaign) :=
  List.find (fun c => p (snd c)) (rs_campaigns s).
Definition campaignById (id : string) (s : ReferralStore) : option ReferralCampaign :=
  option_map snd (List.find (fun c => String.eqb (fst c) id) (rs_campaigns s)).
(** [referralCampaign.create]: [code] is unique. *)
Definition createCampaign (id : string) (c : ReferralCampaign) : RM (string * ReferralCampaign) :=
  s ← get;
  require (bool_decide (findCampaign (fun c' => String.eqb (rc_code c') (rc_code c)) s = None)) PrismaP2002 ;;
  let row := {| rc_name := rc_name c; rc_code := rc_code c; rc_referrerRewardAmount := store (rc_referrerRewardAmount c);
                rc_refereeRewardAmount := store (rc_refereeRewardAmount c); rc_minBookingAmount := store (rc_minBookingAmount c);
                rc_city := rc_city c; rc_startDate := rc_startDate c; rc_endDate := rc_endDate c; rc_isActive := rc_isActive c;
                rc_maxReferralsPerUser := rc_maxReferralsPerUser c |} in
  modify (set_campaigns (rs_campaigns s ++ [(id, row)])) ;;
  mret (id, row).
Definition getOrCreateDefaultCampaign (env : ReferralEnv) : RM (string * ReferralCampaign) :=
  s ← get;
  let refConfig := default defaultReferralConfig (rv_config env) in
  match findCampaign (fun c => String.eqb (rc_code c) "DEFAULT_GLOBAL" && rc_isActive c) s with
  | Some campaign => mret campaign
  | None =>
    createCampaign (rv_campaignId env)
      {| rc_name := "DriveGo Standard Referral Program"; rc_code := "DEFAULT_GLOBAL";
         rc_referrerRewardAmount := rg_defaultReferrerReward refConfig; rc_refereeRewardAmount := rg_defaultRefereeReward refConfig;
         rc_minBookingAmount := rg_minBookingAmount refConfig; rc_city := None; rc_startDate := None; rc_endDate := None;
         rc_isActive := rg_isReferralsEnabled refConfig; rc_maxReferralsPerUser := rg_maxReferralsPerUser refConfig |}
  end.

(** ** Codes *)
Definition userByCode (code : string) (s : ReferralStore) : option (string * ReferralUser) :=
  List.find (fun p => bool_decide (ru_referralCode (snd p) = Some code)) (map_to_list (rs_users s)).
Record ShareCode : Type := {
  sh_referralCode : string;
  sh_referrerReward : Q;
  sh_refereeDiscount : Q;
  sh_minBookingAmount : Q;
  sh_maxReferralsPerUser : Z;
}.
(** [user.update]: [referralCode] is unique. *)
Definition assignCode (userId code : string) (u : ReferralUser) : RM unit :=
  s ← get;
  require (bool_decide (userByCode code s = None)) PrismaP2002 ;;
  modify (set_referral_user userId
    {| ru_name := ru_name u; ru_phone := ru_phone u; ru_referralCode := Some code; ru_licenceNumber := ru_licenceNumber u |}).
Definition getOrCreateUserReferralCode (env : ReferralEnv) (userId : string) : RM ShareCode :=
  s ← get;
  user ← from_option_or (rs_users s !! userId) NotFoundException;
  referralCode ← match truthy (ru_referralCode user) with
                 | Some code => mret code
                 | None =>
                   let code := "DG" +:+ uppercase (rv_suffix3 env) in
                   let code := if bool_decide (userByCode code s = None) then code else "DG" +:+ uppercase (rv_suffix4 env) in
                   assignCode userId code user ;;
                   mret code
                 end;
  campaign ← getOrCreateDefaultCampaign env;
  mret {| sh_referralCode := referralCode; sh_referrerReward := rnd (rc_referrerRewardAmount (snd campaign));
          sh_refereeDiscount := rnd (rc_refereeRewardAmount (snd campaign)); sh_minBookingAmount := rnd (rc_minBookingAmount (snd campaign));
          sh_maxReferralsPerUser := rc_maxReferralsPerUser (snd campaign) |}.

(** ** Attribution *)
Definition attributionList (s : ReferralStore) : list (string * ReferralAttribution) := map_to_list (rs_attributions s).
Definition completedTrips (customerId : string) (s : ReferralStore) : nat :=
  length (filter (fun p => rt_customerId (snd p) = customerId /\ rt_status (snd p) = BS_COMPLETED) (map_to_list (rs_trips s))).
(** Both present and, put into one form, the same. *)
Definition sameIdentity (form : string -> string) (a b : option string) : bool :=
  match truthy a, truthy b with Some x, Some y => String.eqb (form x) (form y) | _, _ => false end.
(** [findFirst] ordered by [city] descending: a database that puts NULL first
    in a descending order returns a campaign without city if there is one. *)
Definition campaignFor (city : option string) (s : ReferralStore) : option (string * ReferralCampaign) :=
  let global c := rc_isActive c && bool_decide (rc_city c = None) in
  match truthy city with
  | Some name =>
    match findCampaign global s with
    | Some campaign => Some campaign
    | None => findCampaign (fun c => rc_isActive c && bool_decide (rc_city c = Some name)) s
    end
  | None => findCampaign global s
  end.
Definition rewardedCount (referrerId campaignId : string) (s : ReferralStore) : Z :=
  Z.of_nat (length (filter (fun p => ra_referrerId (snd p) = referrerId /\ ra_campaignId (snd p) = Some campaignId /\
                                     ra_status (snd p) = RFS_REWARDED) (attributionList s))).
(** [referralAttribution.create]: [refereeId] is unique. *)
Definition createAttribution (refereeId : string) (a : ReferralAttribution) : RM unit :=
  s ← get;
  require (bool_decide (rs_attributions s !! refereeId = None)) PrismaP2002 ;;
  modify (set_attribution refereeId a).

Record Applied : Type := { ap_discountAmount : Q; ap_minBookingAmount : Q; }.
Definition applyReferralCode (env : ReferralEnv) (refereeId referralCode : string) (city : option string) : RM Applied :=
  let cleanCode := uppercase (trim referralCode) in
  s ← get;
  '(referrerId, referrer) ← from_option_or (userByCode cleanCode s) BadRequestException;
  referee ← from_option_or (rs_users s !! refereeId) NotFoundException;
  require (negb (String.eqb referrerId refereeId)) BadRequestException ;;
  require (negb (sameIdentity trim (ru_phone referrer) (ru_phone referee))) BadRequestException ;;
  require (negb (sameIdentity (fun l => uppercase (trim l)) (ru_licenceNumber referrer) (ru_licenceNumber referee))) BadRequestException ;;
  require (bool_decide (rs_attributions s !! refereeId = None)) ConflictException ;;
  require (completedTrips refereeId s =? 0)%nat BadRequestException ;;
  '(campaignId, campaign) ← match campaignFor city s with Some c => mret c | None => getOrCreateDefaultCampaign env end;
  require (rc_isActive campaign) BadRequestException ;;
  require (match rc_startDate campaign with Some d => d <=? rv_now env | None => true end)%Z BadRequestException ;;
  require (match rc_endDate campaign with Some d => rv_now env <=? d | None => true end)%Z BadRequestException ;;
  require (match truthy (rc_city campaign), truthy city with Some a, Some b => String.eqb (lowercase a) (lowercase b) | _, _ => true end)
    BadRequestException ;;
  s1 ← get;
  require (rewardedCount referrerId campaignId s1 <? rc_maxReferralsPerUser campaign)%Z BadRequestException ;;
  createAttribution refereeId
    {| ra_id := rv_attributionId env; ra_referrerId := referrerId; ra_campaignId := Some campaignId; ra_referralCodeUsed := cleanCode;
       ra_status := RFS_REGISTERED; ra_qualifyingBookingId := None; ra_referrerRewardAmount := store (rc_referrerRewardAmount campaign);
       ra_refereeRewardAmount := store (rc_refereeRewardAmount campaign); ra_referrerLedgerEntryId := None;
       ra_createdAt := rv_now env; ra_qualifiedAt := None; ra_rewardedAt := None |} ;;
  mret {| ap_discountAmount := rnd (rc_refereeRewardAmount campaign); ap_minBookingAmount := rnd (rc_minBookingAmount campaign) |}.

Record Eligibility : Type := { el_eligible : bool; el_discountAmount : Q; el_minBookingAmount : Q; }.
(** The campaign of an attribution, if it has one. *)
Definition campaignOf (a : ReferralAttribution) (s : ReferralStore) : option ReferralCampaign :=
  id ← ra_campaignId a; campaignById id s.
Definition getRefereeEligibility (refereeId : string) : RM Eligibility :=
  s ← get;
  let refused := {| el_eligible := false; el_discountAmount := 0; el_minBookingAmount := 0 |} in
  match rs_attributions s !! refereeId with
  | None => mret refused
  | Some attribution =>
    if negb (bool_decide (ra_status attribution = RFS_REGISTERED)) then mret refused
    else if (0 <? completedTrips refereeId s)%nat then mret refused
    else
      let minAmount := match campaignOf attribution s with
                       | Some campaign => rnd (rc_minBookingAmount campaign)
                       | None => DEFAULT_MIN_BOOKING_AMOUNT
                       end in
      mret {| el_eligible := true; el_discountAmount := rnd (ra_refereeRewardAmount attribution); el_minBookingAmount := minAmount |}
  end.

(** [toFixed] and masks of the history are texts; its figures are these. *)
Record ReferralItem : Type := { hi_refereePhone : string; hi_status : ReferralStatus; hi_rewardAmount : Q; }.
Record ReferralHistory : Type := {
  hs_totalInvited : nat;
  hs_totalRegistered : nat;
  hs_totalCompleted : nat;
  hs_totalEarnings : Q;
  hs_referrals : list ReferralItem;
}.
Definition maskPhone (phone : option string) : string :=
  let rawPhone := str_or phone "" in
  if (6 <? String.length rawPhone)%nat then String.substring 0 4 rawPhone +:+ "****" +:+ slice_last 2 rawPhone else "Customer".
Definition withStatus (l : list ReferralStatus) (as_ : list (string * ReferralAttribution)) : list (string * ReferralAttribution) :=
  filter (fun p => ra_status (snd p) ∈ l) as_.
Definition getReferralHistory (userId : string) : RM ReferralHistory :=
  s ← get;
  let attributions := sort_desc (fun p => inject_Z (ra_createdAt (snd p)))
                        (filter (fun p => ra_referrerId (snd p) = userId) (attributionList s)) in
  let rewarded := withStatus [RFS_REWARDED] attributions in
  mret {| hs_totalInvited := length attributions;
          hs_totalRegistered := length (withStatus [RFS_REGISTERED; RFS_QUALIFIED; RFS_REWARDED] attributions);
          hs_totalCompleted := length rewarded;
          hs_totalEarnings := fold_left (fun n p => js_add n (rnd (ra_referrerRewardAmount (snd p)))) rewarded 0;
          hs_referrals := map (fun p => {| hi_refereePhone := maskPhone (u ← rs_users s !! fst p; ru_phone u);
                                           hi_status := ra_status (snd p);
                                           hi_rewardAmount := rnd (ra_referrerRewardAmount (snd p)) |}) attributions |}.

(** ** Reward and reversal *)
Definition with_referral_status (a : ReferralAttribution) (st : ReferralStatus) : ReferralAttribution :=
  {| ra_id := ra_id a; ra_referrerId := ra_referrerId a; ra_campaignId := ra_campaignId a; ra_referralCodeUsed := ra_referralCodeUsed a;
     ra_status := st; ra_qualifyingBookingId := ra_qualifyingBookingId a; ra_referrerRewardAmount := ra_referrerRewardAmount a;
     ra_refereeRewardAmount := ra_refereeRewardAmount a; ra_referrerLedgerEntryId := ra_referrerLedgerEntryId a;
     ra_createdAt := ra_createdAt a; ra_qualifiedAt := ra_qualifiedAt a; ra_rewardedAt := ra_rewardedAt a |}.
Definition qualify (bookingId : string) (now : Z) (a : ReferralAttribution) : ReferralAttribution :=
  {| ra_id := ra_id a; ra_referrerId := ra_referrerId a; ra_campaignId := ra_campaignId a; ra_referralCodeUsed := ra_referralCodeUsed a;
     ra_status := RFS_QUALIFIED; ra_qualifyingBookingId := Some bookingId; ra_referrerRewardAmount := ra_referrerRewardAmount a;
     ra_refereeRewardAmount := ra_refereeRewardAmount a; ra_referrerLedgerEntryId := ra_referrerLedgerEntryId a;
     ra_createdAt := ra_createdAt a; ra_qualifiedAt := Some now; ra_rewardedAt := ra_rewardedAt a |}.
Definition reward (entry : string) (now : Z) (a : ReferralAttribution) : ReferralAttribution :=
  {| ra_id := ra_id a; ra_referrerId := ra_referrerId a; ra_campaignId := ra_campaignId a; ra_referralCodeUsed := ra_referralCodeUsed a;
     ra_status := RFS_REWARDED; ra_qualifyingBookingId := ra_qualifyingBookingId a; ra_referrerRewardAmount := ra_referrerRewardAmount a;
     ra_refereeRewardAmount := ra_refereeRewardAmount a; ra_referrerLedgerEntryId := Some entry;
     ra_createdAt := ra_createdAt a; ra_qualifiedAt := ra_qualifiedAt a; ra_rewardedAt := Some now |}.
(** [referralAttribution.update] by id: the row of this referee. *)
Definition updateAttribution (refereeId : string) (f : ReferralAttribution -> ReferralAttribution) : RM ReferralAttribution :=
  s ← get;
  a ← from_option_or (rs_attributions s !! refereeId) PrismaP2025;
  modify (set_attribution refereeId (f a)) ;;
  mret (f a).

Inductive Qualification : Type :=
  | NotQualified
  | AlreadyRewarded (attributionId : string)
  | Rewarded (attributionId : string) (rewardAmount : Q) (ledgerEntryId : string).
Definition rewardKey (attributionId : string) : string := "ref_reward_" +:+ attributionId +:+ "_referrer".
(** Paid, not refunded, of the fare the campaign asks for. *)
Definition qualifies (booking : ReferredTrip) (attribution : ReferralAttribution) (s : ReferralStore) : bool :=
  let minQualifyingAmount := match campaignOf attribution s with
                             | Some campaign => rc_minBookingAmount campaign
                             | None => DEFAULT_MIN_BOOKING_AMOUNT
                             end in
  negb (d_lt (rt_totalFare booking) minQualifyingAmount) && bool_decide (rt_payment booking = Some (PS_PAID, RS_NONE)).
Definition payReward (env : ReferralEnv) (bookingId refereeId : string) (attribution : ReferralAttribution) : RM Qualification :=
  updateAttribution refereeId (qualify bookingId (rv_now env)) ;;
  referrerWallet ← zoom rs_wallets set_referral_wallets (getOrCreateWallet (rv_walletId env) (ra_referrerId attribution));
  ledgerEntry ← zoom rs_wallets set_referral_wallets
    (creditWallet (rv_now env) (rv_walletConfig env) (fst referrerWallet) (ra_referrerRewardAmount attribution) LT_REFERRAL_REWARD
       BUCKET_PROMOTIONAL "REFERRAL" (Some (ra_id attribution)) (rewardKey (ra_id attribution)) None true);
  updateAttribution refereeId (reward (we_idempotencyKey ledgerEntry) (rv_now env)) ;;
  mret (Rewarded (ra_id attribution) (rnd (ra_referrerRewardAmount attribution)) (we_idempotencyKey ledgerEntry)).
Definition executeQualification (env : ReferralEnv) (bookingId : string) : RM Qualification :=
  s ← get;
  match rs_trips s !! bookingId with
  | None => mret NotQualified
  | Some booking =>
    if negb (bool_decide (rt_status booking = BS_COMPLETED)) then mret NotQualified
    else
      match rs_attributions s !! rt_customerId booking with
      | None => mret NotQualified
      | Some attribution =>
        if bool_decide (ra_status attribution = RFS_REWARDED) then mret (AlreadyRewarded (ra_id attribution))
        else if bool_decide (ra_status attribution ∈ [RFS_FRAUD_BLOCKED; RFS_CANCELLED; RFS_EXPIRED]) then mret NotQualified
        else if negb (qualifies booking attribution s) then mret NotQualified
        else
          locked ← get;
          match rs_attributions locked !! rt_customerId booking with
          | None => mret NotQualified
          | Some lockedAttribution =>
            if bool_decide (ra_status lockedAttribution = RFS_REWARDED) then mret (AlreadyRewarded (ra_id attribution))
            else payReward env bookingId (rt_customerId booking) attribution
          end
      end
  end.
Definition handleReferralCompleted (env : ReferralEnv) (bookingId : string) (externalTx : bool) : RM Qualification :=
  if externalTx then executeQualification env bookingId else transaction (executeQualification env bookingId).

Inductive Reverted : Type :=
  | NothingReverted
  | Reverted_ (attributionId : string) (previousStatus : ReferralStatus).
Definition referralReversalKey (attributionId bookingId : string) : string := "ref_reversal_" +:+ attributionId +:+ "_" +:+ bookingId.
Definition qualifiedBy (bookingId : string) (p : string * ReferralAttribution) : bool :=
  bool_decide (ra_qualifyingBookingId (snd p) = Some bookingId) && bool_decide (ra_status (snd p) ∈ [RFS_QUALIFIED; RFS_REWARDED]).
(** A debit the wallet refuses is only logged. *)
Definition clawBack (env : ReferralEnv) (bookingId : string) (attribution : ReferralAttribution) : RM unit :=
  s ← get;
  match findWalletByUser (ra_referrerId attribution) (rs_wallets s) with
  | None => mret tt
  | Some referrerWallet =>
    try_catch
      (zoom rs_wallets set_referral_wallets
         (debitWallet (rv_now env) (rv_walletConfig env) (fst referrerWallet) (ra_referrerRewardAmount attribution) LT_ADMIN_ADJUSTMENT
            "REFERRAL_REVERSAL" (Some (ra_id attribution)) (referralReversalKey (ra_id attribution) bookingId) true) ;;
       mret tt)
      (fun _ => mret tt)
  end.
Definition executeReversal (env : ReferralEnv) (bookingId : string) : RM Reverted :=
  s ← get;
  match List.find (qualifiedBy bookingId) (attributionList s) with
  | None => mret NothingReverted
  | Some (refereeId, attribution) =>
    when (bool_decide (ra_status attribution = RFS_REWARDED) && bool_decide (truthy (ra_referrerLedgerEntryId attribution) <> None))
      (clawBack env bookingId attribution) ;;
    updated ← updateAttribution refereeId (fun a => with_referral_status a RFS_CANCELLED);
    mret (Reverted_ (ra_id updated) (ra_status attribution))
  end.
Definition handleReferralCancelled (env : ReferralEnv) (bookingId : string) (externalTx : bool) : RM Reverted :=
  if externalTx then executeReversal env bookingId else transaction (executeReversal env bookingId).

(** ** Administration *)
Record CampaignStats : Type := { ct_total : nat; ct_registered : nat; ct_qualified : nat; ct_rewarded : nat; ct_cancelled : nat; ct_fraudBlocked : nat; }.
Definition campaignStats (id : string) (s : ReferralStore) : CampaignStats :=
  let attributions := filter (fun p => ra_campaignId (snd p) = Some id) (attributionList s) in
  let count st := length (withStatus [st] attributions) in
  {| ct_total := length attributions; ct_registered := count RFS_REGISTERED; ct_qualified := count RFS_QUALIFIED;
     ct_rewarded := count RFS_REWARDED; ct_cancelled := count RFS_CANCELLED; ct_fraudBlocked := count RFS_FRAUD_BLOCKED |}.
Definition getAdminCampaigns : RM (list (string * ReferralCampaign * CampaignStats)) :=
  s ← get;
  mret (map (fun c => (fst c, snd c, campaignStats (fst c) s)) (reverse (rs_campaigns s))).

Definition referralAudit (adminUserId action id : string) : RM unit :=
  modify (add_referral_audit {| al_userId := adminUserId; al_action := action; al_entityId := id |}).
Record CreateReferralCampaignDto : Type := {
  cc_name : string;
  cc_code : string;
  cc_referrerRewardAmount : Q;
  cc_refereeRewardAmount : Q;
  cc_minBookingAmount : Q;
  cc_city : option string;
  cc_startDate : option Z;
  cc_endDate : option Z;
  cc_isActive : option bool;
  cc_maxReferralsPerUser : option Z;
}.
Definition createAdminCampaign (env : ReferralEnv) (adminUserId : string) (dto : CreateReferralCampaignDto) : RM (string * ReferralCampaign) :=
  s ← get;
  require (bool_decide (findCampaign (fun c => String.eqb (rc_code c) (uppercase (cc_code dto))) s = None)) ConflictException ;;
  campaign ← createCampaign (rv_campaignId env)
    {| rc_name := cc_name dto; rc_code := uppercase (cc_code dto); rc_referrerRewardAmount := cc_referrerRewardAmount dto;
       rc_refereeRewardAmount := cc_refereeRewardAmount dto; rc_minBookingAmount := cc_minBookingAmount dto;
       rc_city := truthy (cc_city dto); rc_startDate := cc_startDate dto; rc_endDate := cc_endDate dto;
       rc_isActive := default true (cc_isActive dto);
       rc_maxReferralsPerUser := match cc_maxReferralsPerUser dto with
                                 | Some n => if (n =? 0)%Z then DEFAULT_MAX_REFERRALS_PER_USER else n
                                 | None => DEFAULT_MAX_REFERRALS_PER_USER
                                 end |};
  referralAudit adminUserId "CREATE_REFERRAL_CAMPAIGN" (fst campaign) ;;
  mret campaign.
(** [referralCampaign.update] by id. *)
Definition updateCampaign (id : string) (f : ReferralCampaign -> ReferralCampaign) : RM ReferralCampaign :=
  s ← get;
  campaign ← from_option_or (campaignById id s) NotFoundException;
  modify (fun s => set_campaigns (map (fun c => if String.eqb (fst c) id then (id, f (snd c)) else c) (rs_campaigns s)) s) ;;
  mret (f campaign).
(** A field that is [None] is left as it is; a date that is [Some None] is cleared. *)
Record UpdateReferralCampaignDto : Type := {
  uc_name : option string;
  uc_referrerRewardAmount : option Q;
  uc_refereeRewardAmount : option Q;
  uc_minBookingAmount : option Q;
  uc_city : option (option string);
  uc_startDate : option (option Z);
  uc_endDate : option (option Z);
  uc_isActive : option bool;
  uc_maxReferralsPerUser : option Z;
}.
Definition patchCampaign (dto : UpdateReferralCampaignDto) (c : ReferralCampaign) : ReferralCampaign :=
  {| rc_name := str_or (uc_name dto) (rc_name c); rc_code := rc_code c;
     rc_referrerRewardAmount := default (rc_referrerRewardAmount c) (store <$> uc_referrerRewardAmount dto);
     rc_refereeRewardAmount := default (rc_refereeRewardAmount c) (store <$> uc_refereeRewardAmount dto);
     rc_minBookingAmount := default (rc_minBookingAmount c) (store <$> uc_minBookingAmount dto);
     rc_city := default (rc_city c) (uc_city dto); rc_startDate := default (rc_startDate c) (uc_startDate dto);
     rc_endDate := default (rc_endDate c) (uc_endDate dto); rc_isActive := default (rc_isActive c) (uc_isActive dto);
     rc_maxReferralsPerUser := default (rc_maxReferralsPerUser c) (uc_maxReferralsPerUser dto) |}.
Definition updateAdminCampaign (adminUserId id : string) (dto : UpdateReferralCampaignDto) : RM ReferralCampaign :=
  updated ← updateCampaign id (patchCampaign dto);
  referralAudit adminUserId "UPDATE_REFERRAL_CAMPAIGN" id ;;
  mret updated.
Definition flipActive (c : ReferralCampaign) : ReferralCampaign :=
  {| rc_name := rc_name c; rc_code := rc_code c; rc_referrerRewardAmount := rc_referrerRewardAmount c;
     rc_refereeRewardAmount := rc_refereeRewardAmount c; rc_minBookingAmount := rc_minBookingAmount c; rc_city := rc_city c;
     rc_startDate := rc_startDate c; rc_endDate := rc_endDate c; rc_isActive := negb (rc_isActive c);
     rc_maxReferralsPerUser := rc_maxReferralsPerUser c |}.
Definition toggleAdminCampaign (adminUserId id : string) : RM ReferralCampaign :=
  updated ← updateCampaign id flipActive;
  referralAudit adminUserId "TOGGLE_REFERRAL_CAMPAIGN" id ;;
  mret updated.
End referrals.
