(* ===== verification/ReferralRewards.v ===== *)
(** * Referral rewards are paid once

    Over the handlers of Referrals.v in any order: an attribution is rewarded
    by exactly one wallet credit of its amount, only qualified bookings reward
    it, a cancellation takes the reward back when the wallet can pay; and runs
    in which the campaigns do not do what they mean to. *)
From S2P Require Import Prelude JsNumber Decimal Schema Ledger Wallet BookingStore PaymentRefund Referrals.
Open Scope Z_scope.
Open Scope Q_scope.

(** ** Keys *)
Lemma append_length a t : String.length (a +:+ t) = (String.length a + String.length t)%nat.
Proof. induction a as [|c a IH]; [done|]. change (S (String.length (a +:+ t)) = S (String.length a + String.length t)). by rewrite IH. Qed.
Lemma append_inj_r t a b : a +:+ t = b +:+ t -> a = b.
Proof.
  revert b. induction a as [|c a IH]; intros [|d b] E; [done| | |].
  - apply (f_equal String.length) in E. rewrite !append_length in E. cbn in E. lia.
  - apply (f_equal String.length) in E. rewrite !append_length in E. cbn in E. lia.
  - change (String c (a +:+ t) = String d (b +:+ t)) in E. injection E as <- E. f_equal. by apply IH.
Qed.
Lemma rewardKey_inj a b : rewardKey a = rewardKey b -> a = b.
Proof.
  unfold rewardKey. intros E. apply (append_inj_r "_referrer").
  by apply (inj (String.append "ref_reward_")) in E.
Qed.
Lemma reversal_not_reward id b id' : referralReversalKey id b <> rewardKey id'.
Proof. unfold referralReversalKey, rewardKey. cbn. intros E. discriminate E. Qed.

Section rewards.
Context {col : NumericColumn} {dec : DecimalArith}.

Definition keyed (key : string) (W : WalletStore) : list WalletLedgerEntry :=
  filter (fun e => we_idempotencyKey e = key) (ws_entries W).
Lemma keyed_none key W : keyed key W = [] <-> findByKey key W = None.
Proof.
  unfold keyed, findByKey. rewrite find_None_iff. split.
  - intros H e He. apply not_true_iff_false. intros E%String.eqb_eq.
    assert (e ∈ filter (fun e => we_idempotencyKey e = key) (ws_entries W)) as Hin by (apply list_elem_of_filter; done).
    rewrite H in Hin. by apply elem_of_nil in Hin.
  - intros H. destruct (filter _ _) as [|e l] eqn:E; [done|exfalso].
    assert (e ∈ filter (fun e => we_idempotencyKey e = key) (ws_entries W)) as [Ek Hin]%list_elem_of_filter by (rewrite E; apply list_elem_of_here).
    specialize (H e Hin). by rewrite Ek, String.eqb_refl in H.
Qed.
Lemma keyed_snoc key W W' e : ws_entries W' = ws_entries W ++ [e] ->
  keyed key W' = keyed key W ++ (if decide (we_idempotencyKey e = key) then [e] else []).
Proof. intros E. unfold keyed. by rewrite E, filter_app, filter_cons, filter_nil. Qed.

(** A credit under a new key adds one entry to the wallet. *)
Lemma credit_adds now cfg id amount ty bucket rt rid key exp W row W' :
  creditWallet now cfg id amount ty bucket rt rid key exp true W = (Ok row, W') -> findByKey key W = None ->
  ws_entries W' = ws_entries W ++ [row] /\ we_idempotencyKey row = key /\ we_direction row = DIR_CREDIT /\
  we_amount row = store amount /\ 0 < amount /\
  exists w w', ws_wallets W !! id = Some w /\ we_walletId row = id /\ ws_wallets W' !! id = Some w' /\ w_userId w' = w_userId w.
Proof.
  unfold creditWallet. step. destruct (negb _) eqn:E; [|done]. intros H Hk.
  apply executeCredit_cases in H as [[_ Hno]|(w & row' & Hw & [= <-] & _ & _ & _ & _ & Hm)].
  { specialize (Hno _ eq_refl). congruence. }
  cbv zeta in Hm. destruct Hm as (Hid & Hd & Ham & Hkey & _ & ->). cbn. split_and!; try done.
  - apply negb_true_iff in E. by dec_bool.
  - exists w. eexists. rewrite lookup_insert_eq. done.
Qed.
(** A debit adds at most one entry, under its key. *)
Lemma debit_adds now cfg id amount ty rt rid key W r W' : debitWallet now cfg id amount ty rt rid key true W = (r, W') ->
  ws_entries W' = ws_entries W \/ exists row, r = Ok row /\ ws_entries W' = ws_entries W ++ [row] /\ we_idempotencyKey row = key /\
    we_direction row = DIR_DEBIT /\ we_amount row = store amount.
Proof.
  unfold debitWallet. step. destruct (negb _); [|intros [= <- <-]; by left]. intros H.
  apply executeDebit_cases in H as [[-> _]|(w & row & _ & -> & _ & _ & _ & _ & _ & Hd & Ham & Hk & ->)]; [by left|right].
  by exists row.
Qed.

(** ** The invariant *)
Definition attribution_ok (W : WalletStore) (refereeId : string) (a : ReferralAttribution) : Prop :=
  ra_referrerId a <> refereeId /\
  match ra_status a with
  | RFS_REGISTERED => keyed (rewardKey (ra_id a)) W = [] /\ ra_qualifyingBookingId a = None
  | RFS_REWARDED | RFS_CANCELLED => exists e, keyed (rewardKey (ra_id a)) W = [e] /\ we_direction e = DIR_CREDIT /\
      we_amount e = store (ra_referrerRewardAmount a) /\ ra_qualifyingBookingId a <> None /\
      ra_referrerLedgerEntryId a = Some (rewardKey (ra_id a))
  | _ => False
  end.
Record referral_ok (s : ReferralStore) : Prop := {
  ro_row : forall r a, rs_attributions s !! r = Some a -> attribution_ok (rs_wallets s) r a;
  ro_ids : forall r r' a a', rs_attributions s !! r = Some a -> rs_attributions s !! r' = Some a' -> ra_id a = ra_id a' -> r = r';
  ro_keys : forall e i, e ∈ ws_entries (rs_wallets s) -> we_idempotencyKey e = rewardKey i ->
    exists r a, rs_attributions s !! r = Some a /\ ra_id a = i;
}.
Definition fresh_attribution (env : ReferralEnv) (s : ReferralStore) : Prop :=
  forall r a, rs_attributions s !! r = Some a -> ra_id a <> rv_attributionId env.

(** Wallet entries of other keys do not matter. *)
Definition no_reward (l : list WalletLedgerEntry) : Prop := forall e i, e ∈ l -> we_idempotencyKey e <> rewardKey i.
Lemma keyed_others key l W W' : ws_entries W' = ws_entries W ++ l -> (forall e, e ∈ l -> we_idempotencyKey e <> key) ->
  keyed key W' = keyed key W.
Proof.
  intros E Hl. unfold keyed. rewrite E, filter_app. assert (filter (fun e => we_idempotencyKey e = key) l = []) as ->; [|by rewrite app_nil_r].
  destruct (filter _ l) as [|e l'] eqn:Ef; [done|exfalso]. assert (e ∈ filter (fun e => we_idempotencyKey e = key) l) as [Ek Hin]%list_elem_of_filter
    by (rewrite Ef; apply list_elem_of_here). by apply (Hl e).
Qed.
Lemma referral_ok_others s s' l : referral_ok s -> rs_attributions s' = rs_attributions s ->
  ws_entries (rs_wallets s') = ws_entries (rs_wallets s) ++ l -> no_reward l -> referral_ok s'.
Proof.
  intros [Hr Hi Hk] E El Hl. split; rewrite ?E; [|done|].
  - intros r a Ha. pose proof (Hr r a Ha) as [Hn Hm]. split; [done|].
    rewrite (keyed_others _ l _ _ El) by (intros e He; by apply Hl). done.
  - rewrite El. intros e i [He|He]%elem_of_app Ek; [by eapply Hk|by destruct (Hl e i He)].
Qed.
(** A new attribution, and one whose row changes within its status. *)
Lemma referral_ok_new env s r a : referral_ok s -> fresh_attribution env s -> rs_attributions s !! r = None ->
  ra_id a = rv_attributionId env -> ra_status a = RFS_REGISTERED -> ra_qualifyingBookingId a = None -> ra_referrerId a <> r ->
  referral_ok (set_attribution r a s).
Proof.
  intros [Hr Hi Hk] Hf Hn Hid Hst Hq Hne. split; cbn.
  - intros r' a' Ha. apply lookup_insert_Some in Ha as [[<- <-]|[Hr' Ha]]; [|by apply Hr]. split; [done|]. rewrite Hst. split; [|done].
    unfold keyed. destruct (filter _ _) as [|e l] eqn:E; [done|exfalso].
    assert (e ∈ filter (fun e => we_idempotencyKey e = rewardKey (ra_id a)) (ws_entries (rs_wallets s))) as [Ek Hin]%list_elem_of_filter
      by (rewrite E; apply list_elem_of_here).
    destruct (Hk e _ Hin Ek) as (r1 & a1 & H1 & H2). apply (Hf r1 a1 H1). congruence.
  - intros r1 r2 a1 a2 H1 H2 E. apply lookup_insert_Some in H1 as [[<- <-]|[? H1]], H2 as [[<- <-]|[? H2]]; [done| | |by eapply Hi].
    + destruct (Hf _ _ H2). congruence.
    + destruct (Hf _ _ H1). congruence.
  - intros e i He Ek. destruct (Hk e i He Ek) as (r1 & a1 & H1 & H2). exists r1, a1. split; [|done].
    rewrite lookup_insert_ne; [done|]. intros ->. congruence.
Qed.
Lemma referral_ok_update s s' r a a' : referral_ok s -> rs_attributions s !! r = Some a ->
  rs_attributions s' = <[r := a']> (rs_attributions s) -> ra_id a' = ra_id a -> attribution_ok (rs_wallets s') r a' ->
  (exists l, ws_entries (rs_wallets s') = ws_entries (rs_wallets s) ++ l /\
    forall e i, e ∈ l -> we_idempotencyKey e = rewardKey i -> i = ra_id a) -> referral_ok s'.
Proof.
  intros [Hr Hi Hk] Ha E Hid Hok (l & El & Hl). split; rewrite ?E.
  - intros r1 a1 H1. apply lookup_insert_Some in H1 as [[<- <-]|[Hne H1]]; [done|]. pose proof (Hr r1 a1 H1) as [H2 H3]. split; [done|].
    rewrite (keyed_others _ l _ _ El); [done|]. intros e He Ek. apply Hne. eapply Hi; [exact Ha|exact H1|]. symmetry. by apply (Hl e).
  - intros r1 r2 a1 a2 H1 H2 Eid. apply lookup_insert_Some in H1 as [[<- <-]|[? H1]], H2 as [[<- <-]|[? H2]]; [done| | |by eapply Hi];
      [eapply Hi; [exact Ha|exact H2|congruence]|eapply Hi; [exact H1|exact Ha|congruence]].
  - assert (forall i, (exists r1 a1, rs_attributions s !! r1 = Some a1 /\ ra_id a1 = i) ->
      exists r1 a1, <[r := a']> (rs_attributions s) !! r1 = Some a1 /\ ra_id a1 = i) as Hex.
    { intros i (r1 & a1 & H1 & H2). destruct (decide (r1 = r)) as [->|Hne].
      - exists r, a'. rewrite lookup_insert_eq. split; [done|congruence].
      - exists r1, a1. by rewrite lookup_insert_ne by done. }
    rewrite El. intros e i [He|He]%elem_of_app Ek; apply Hex; [by eapply Hk|]. exists r, a. split; [done|]. symmetry. by apply (Hl e).
Qed.

(** ** Runs of the handlers *)
Lemma updateAttribution_run r f s a res s' : rs_attributions s !! r = Some a -> updateAttribution r f s = (res, s') ->
  res = Ok (f a) /\ s' = set_attribution r (f a) s.
Proof. intros Ha. unfold updateAttribution. step. rewrite Ha. step. by intros [= <- <-]. Qed.

Definition rewarded_row (env : ReferralEnv) (b : string) (a : ReferralAttribution) : ReferralAttribution :=
  reward (rewardKey (ra_id a)) (rv_now env) (qualify b (rv_now env) a).
Lemma payReward_run env b r a s q s' : rs_attributions s !! r = Some a -> keyed (rewardKey (ra_id a)) (rs_wallets s) = [] ->
  payReward env b r a s = (Ok q, s') ->
  q = Rewarded (ra_id a) (rnd (ra_referrerRewardAmount a)) (rewardKey (ra_id a)) /\
  exists e w w0, rs_attributions s' = <[r := rewarded_row env b a]> (rs_attributions s) /\
    ws_entries (rs_wallets s') = ws_entries (rs_wallets s) ++ [e] /\ we_idempotencyKey e = rewardKey (ra_id a) /\
    we_direction e = DIR_CREDIT /\ we_amount e = store (ra_referrerRewardAmount a) /\ 0 < ra_referrerRewardAmount a /\
    we_walletId e = w0 /\ ws_wallets (rs_wallets s') !! w0 = Some w /\ w_userId w = ra_referrerId a.
Proof.
  intros Ha Hk%keyed_none. unfold payReward. intros (a1 & s1 & Hq & H)%bind_Ok.
  destruct (updateAttribution_run _ _ _ _ _ _ Ha Hq) as [_ ->].
  apply bind_Ok in H as (p & s2 & (W1 & Hw & ->)%zoom_run & H). apply bind_Ok in H as (row & s3 & (W2 & Hc & ->)%zoom_run & H).
  cbn in Hw, Hc. pose proof (getOrCreateWallet_row _ _ _ _ _ Hw) as (Hp & Hu & He).
  apply credit_adds in Hc as (He2 & Hkey & Hd & Ham & Hpos & w & w' & Hw1 & Hid & Hw2 & Hu2); [|unfold findByKey in *; by rewrite He].
  apply bind_Ok in H as (a2 & s4 & Hr & H).
  destruct (updateAttribution_run _ _ _ _ _ _ (lookup_insert_eq _ _ _) Hr) as [_ ->].
  step_in H. injection H as <- <-. rewrite Hkey. split; [done|]. exists row, w', (fst p). cbn.
  rewrite insert_insert_eq, He2, He. split_and!; try done. rewrite Hp in Hw1. injection Hw1 as <-. congruence.
Qed.

(** What a completion answers and leaves. *)
Definition completion_done (env : ReferralEnv) (b : string) (s : ReferralStore) (res : result Qualification) (s' : ReferralStore) : Prop :=
  match res with
  | Ok (Rewarded id amount entry) => exists t a e w, rs_trips s !! b = Some t /\ rt_status t = BS_COMPLETED /\
      rs_attributions s !! rt_customerId t = Some a /\ id = ra_id a /\ amount = rnd (ra_referrerRewardAmount a) /\
      entry = rewardKey id /\ ra_status a <> RFS_REWARDED /\ ra_status a <> RFS_CANCELLED /\ qualifies t a s = true /\
      rs_attributions s' = <[rt_customerId t := rewarded_row env b a]> (rs_attributions s) /\
      ws_entries (rs_wallets s') = ws_entries (rs_wallets s) ++ [e] /\ we_idempotencyKey e = rewardKey id /\
      we_direction e = DIR_CREDIT /\ we_amount e = store (ra_referrerRewardAmount a) /\
      ws_wallets (rs_wallets s') !! we_walletId e = Some w /\ w_userId w = ra_referrerId a
  | _ => s' = s
  end.
Lemma completed_run env b s res s' : referral_ok s -> handleReferralCompleted env b false s = (res, s') ->
  completion_done env b s res s'.
Proof.
  intros Ho. unfold handleReferralCompleted. destruct res as [q|e]; intros H; [|by apply transaction_Throw in H as [-> _]].
  rewrite transaction_Ok in H. unfold executeQualification in H. step_in H.
  destruct (rs_trips s !! b) as [t|] eqn:Et; [|by injection H as <- <-].
  destruct (bool_decide (rt_status t = BS_COMPLETED)) eqn:Est; [apply bool_decide_eq_true in Est|by injection H as <- <-]. cbn [negb] in H.
  destruct (rs_attributions s !! rt_customerId t) as [a|] eqn:Ea; [|by injection H as <- <-].
  destruct (bool_decide (ra_status a = RFS_REWARDED)) eqn:E1; [by injection H as <- <-|apply bool_decide_eq_false in E1].
  destruct (bool_decide (ra_status a ∈ _)) eqn:E2; [by injection H as <- <-|apply bool_decide_eq_false in E2].
  destruct (qualifies t a s) eqn:Eq; [|by injection H as <- <-]. cbn [negb] in H. step_in H. rewrite Ea, bool_decide_eq_false_2 in H by done.
  destruct (ro_row _ Ho _ _ Ea) as [Hne Hst].
  assert (ra_status a = RFS_REGISTERED) as Ereg by (destruct (ra_status a); try done; exfalso; apply E2; set_solver).
  rewrite Ereg in Hst. apply payReward_run in H as (-> & e & w & w0 & H1 & H2 & H3 & H4 & H5 & _ & <- & H7 & H8); [|done|by apply Hst].
  exists t, a, e, w. by rewrite Ereg.
Qed.
Lemma completed_ok env b s res s' : referral_ok s -> completion_done env b s res s' -> referral_ok s'.
Proof.
  intros Ho. destruct res as [[| |id amount entry]|e]; try by intros ->.
  intros (t & a & e & w & _ & _ & Ha & -> & -> & -> & Hn1 & Hn2 & _ & H1 & H2 & H3 & H4 & H5 & _ & _).
  destruct (ro_row _ Ho _ _ Ha) as [Hne Hst]. eapply referral_ok_update; [exact Ho|exact Ha|exact H1|done| |].
  - split; [done|]. cbn. exists e. split_and!; try done. rewrite (keyed_snoc _ _ _ _ H2), decide_True by done.
    destruct (ra_status a); try done. by destruct Hst as [-> _].
  - exists [e]. split; [done|]. intros e' i ->%list_elem_of_singleton E. rewrite H3 in E. by apply rewardKey_inj in E.
Qed.

(** What a cancellation answers and leaves. *)
Definition cancellation_done (env : ReferralEnv) (b : string) (s : ReferralStore) (res : result Reverted) (s' : ReferralStore) : Prop :=
  match res with
  | Ok NothingReverted => s' = s /\ forall r a, rs_attributions s !! r = Some a -> ra_qualifyingBookingId a = Some b -> ra_status a <> RFS_REWARDED
  | Ok (Reverted_ id st) => exists r a l, rs_attributions s !! r = Some a /\ ra_id a = id /\ ra_status a = st /\ st = RFS_REWARDED /\
      ra_qualifyingBookingId a = Some b /\ rs_attributions s' = <[r := with_referral_status a RFS_CANCELLED]> (rs_attributions s) /\
      ws_entries (rs_wallets s') = ws_entries (rs_wallets s) ++ l /\
      (l = [] \/ exists e, l = [e] /\ we_idempotencyKey e = referralReversalKey id b /\ we_direction e = DIR_DEBIT /\
         we_amount e = store (ra_referrerRewardAmount a))
  | Throw _ => False
  end.
Lemma clawBack_run env b a s res s' : clawBack env b a s = (res, s') ->
  res = Ok tt /\ rs_attributions s' = rs_attributions s /\
  exists l, ws_entries (rs_wallets s') = ws_entries (rs_wallets s) ++ l /\
    (l = [] \/ exists e, l = [e] /\ we_idempotencyKey e = referralReversalKey (ra_id a) b /\ we_direction e = DIR_DEBIT /\
       we_amount e = store (ra_referrerRewardAmount a)).
Proof.
  unfold clawBack. step. destruct (findWalletByUser _ _) as [p|]; step.
  2:{ intros [= <- <-]. split_and!; try done. exists []. rewrite app_nil_r. auto. }
  unfold try_catch. rewrite bind_run. destruct (zoom _ _ _ s) as [r1 s1] eqn:E. apply zoom_run in E as (W & Hd & ->).
  assert (exists l, ws_entries W = ws_entries (rs_wallets s) ++ l /\ (l = [] \/ exists e, l = [e] /\
    we_idempotencyKey e = referralReversalKey (ra_id a) b /\ we_direction e = DIR_DEBIT /\ we_amount e = store (ra_referrerRewardAmount a))) as Hl.
  { apply debit_adds in Hd as [->|(row & _ & -> & H)]; [exists []; rewrite app_nil_r; auto|]. exists [row]. split; [done|]. right. by exists row. }
  destruct r1; step; intros [= <- <-]; done.
Qed.
Lemma cancelled_run env b s res s' : referral_ok s -> handleReferralCancelled env b false s = (res, s') ->
  cancellation_done env b s res s'.
Proof.
  intros Ho. unfold handleReferralCancelled, executeReversal, transaction. step.
  destruct (List.find (qualifiedBy b) (attributionList s)) as [[r a]|] eqn:Ef; step.
  2:{ intros [= <- <-]. split; [done|]. intros r a Ha Hb Hst.
      assert ((r, a) ∈ attributionList s) as Hin%list_elem_of_In by by apply elem_of_map_to_list.
      pose proof (find_none _ _ Ef _ Hin) as Hq. unfold qualifiedBy in Hq. cbn in Hq. rewrite Hb, Hst in Hq.
      by rewrite !bool_decide_eq_true_2 in Hq by set_solver. }
  apply find_some in Ef as [Hin Hq]. apply list_elem_of_In, elem_of_map_to_list in Hin.
  unfold qualifiedBy in Hq. cbn in Hq. apply andb_true_iff in Hq as [Hb%bool_decide_eq_true Hst%bool_decide_eq_true].
  destruct (ro_row _ Ho _ _ Hin) as [Hne Hrow].
  assert (ra_status a = RFS_REWARDED) as Est by (destruct (ra_status a); try done; set_solver).
  rewrite Est in Hrow. destruct Hrow as (e & _ & _ & _ & _ & Hle). rewrite Est, Hle. rewrite !bool_decide_eq_true_2 by done. cbn [andb].
  rewrite bind_run. destruct (clawBack env b a s) as [r1 s1] eqn:Ec.
  apply clawBack_run in Ec as (-> & Ea & l & El & Hl). rewrite bind_run.
  destruct (updateAttribution r _ s1) as [r2 s2] eqn:Eu. eapply updateAttribution_run in Eu as [-> ->]; [|by rewrite Ea].
  step. intros [= <- <-]. exists r, a, l. cbn. rewrite Ea. by split_and!.
Qed.
Lemma cancelled_ok env b s res s' : referral_ok s -> cancellation_done env b s res s' -> referral_ok s'.
Proof.
  intros Ho. destruct res as [[|id st]|e]; [by intros [-> _]| |done].
  intros (r & a & l & Ha & <- & <- & Est & Hb & H1 & H2 & Hl). destruct (ro_row _ Ho _ _ Ha) as [Hne Hst].
  assert (no_reward l) as Hnr.
  { intros e i He Ek. destruct Hl as [->|(e' & -> & Hk & _)]; [by apply elem_of_nil in He|]. apply list_elem_of_singleton in He as ->.
    rewrite Hk in Ek. by apply reversal_not_reward in Ek. }
  eapply referral_ok_update; [exact Ho|exact Ha|exact H1|done| |].
  - split; [done|]. cbn. rewrite Est in Hst. destruct Hst as (e & He & H). exists e.
    rewrite (keyed_others _ l _ _ H2); [by split|]. intros e' He'. by apply Hnr.
  - exists l. split; [done|]. intros e i He Ek. by destruct (Hnr e i He).
Qed.

(** Only the campaigns may change on the way to one. *)
Definition only_campaigns (s s' : ReferralStore) : Prop :=
  rs_users s' = rs_users s /\ rs_attributions s' = rs_attributions s /\ rs_trips s' = rs_trips s /\ rs_wallets s' = rs_wallets s /\
  rs_audit s' = rs_audit s.
Lemma createCampaign_run id c s res s' : createCampaign id c s = (res, s') -> only_campaigns s s'.
Proof. unfold createCampaign. step. destruct (bool_decide _); step; by intros [= <- <-]. Qed.
Lemma defaultCampaign_run env s res s' : getOrCreateDefaultCampaign env s = (res, s') -> only_campaigns s s'.
Proof.
  unfold getOrCreateDefaultCampaign. step. destruct (findCampaign _ s); step; [by intros [= <- <-]|apply createCampaign_run].
Qed.
Lemma rewardedCount_ext referrerId id s s' : rs_attributions s' = rs_attributions s -> rewardedCount referrerId id s' = rewardedCount referrerId id s.
Proof. unfold rewardedCount, attributionList. by intros ->. Qed.

(** What the checks of [applyReferralCode] leave of the two users and the campaign. *)
Record admitted (env : ReferralEnv) (refereeId code : string) (city : option string) (s : ReferralStore) (referrerId : string)
    (referrer referee : ReferralUser) (campaignId : string) (c : ReferralCampaign) : Prop := {
  ad_code : userByCode code s = Some (referrerId, referrer);
  ad_referee : rs_users s !! refereeId = Some referee;
  ad_other : referrerId <> refereeId;
  ad_phone : sameIdentity trim (ru_phone referrer) (ru_phone referee) = false;
  ad_licence : sameIdentity (fun l => uppercase (trim l)) (ru_licenceNumber referrer) (ru_licenceNumber referee) = false;
  ad_first : rs_attributions s !! refereeId = None;
  ad_new : completedTrips refereeId s = 0%nat;
  ad_active : rc_isActive c = true;
  ad_started : forall d, rc_startDate c = Some d -> (d <= rv_now env)%Z;
  ad_running : forall d, rc_endDate c = Some d -> (rv_now env <= d)%Z;
  ad_room : (rewardedCount referrerId campaignId s < rc_maxReferralsPerUser c)%Z;
}.
Definition new_attribution (env : ReferralEnv) (code referrerId campaignId : string) (c : ReferralCampaign) : ReferralAttribution :=
  {| ra_id := rv_attributionId env; ra_referrerId := referrerId; ra_campaignId := Some campaignId; ra_referralCodeUsed := code;
     ra_status := RFS_REGISTERED; ra_qualifyingBookingId := None; ra_referrerRewardAmount := store (rc_referrerRewardAmount c);
     ra_refereeRewardAmount := store (rc_refereeRewardAmount c); ra_referrerLedgerEntryId := None;
     ra_createdAt := rv_now env; ra_qualifiedAt := None; ra_rewardedAt := None |}.
Definition applied (env : ReferralEnv) (refereeId code : string) (city : option string) (s : ReferralStore) (res : result Applied)
    (s' : ReferralStore) : Prop :=
  match res with
  | Throw _ => only_campaigns s s'
  | Ok d => exists s1 referrerId referrer referee campaignId c, only_campaigns s s1 /\
      admitted env refereeId (uppercase (trim code)) city s referrerId referrer referee campaignId c /\
      s' = set_attribution refereeId (new_attribution env (uppercase (trim code)) referrerId campaignId c) s1 /\
      d = {| ap_discountAmount := rnd (rc_refereeRewardAmount c); ap_minBookingAmount := rnd (rc_minBookingAmount c) |}
  end.
Lemma only_campaigns_refl s : only_campaigns s s.
Proof. done. Qed.
Lemma campaign_run env city s res s' :
  match campaignFor city s with Some c => mret c | None => getOrCreateDefaultCampaign env end s = (res, s') -> only_campaigns s s'.
Proof. destruct (campaignFor city s); [step; by intros [= <- <-]|apply defaultCampaign_run]. Qed.
Lemma apply_run env refereeId code city s res s' : applyReferralCode env refereeId code city s = (res, s') ->
  applied env refereeId code city s res s'.
Proof.
  unfold applyReferralCode. cbv zeta. step. intros H.
  destruct (userByCode _ s) as [[referrerId referrer]|] eqn:Ecode; [|by injection H as <- <-]. step_in H.
  destruct (rs_users s !! refereeId) as [referee|] eqn:Eref; [|by injection H as <- <-]. step_in H.
  destruct (String.eqb_spec referrerId refereeId) as [->|Hne]; cbn [negb] in H; [by injection H as <- <-|]. step_in H.
  destruct (sameIdentity trim _ _) eqn:Ep; cbn [negb] in H; [by injection H as <- <-|]. step_in H.
  destruct (sameIdentity _ (ru_licenceNumber referrer) _) eqn:El; cbn [negb] in H; [by injection H as <- <-|]. step_in H.
  destruct (bool_decide (rs_attributions s !! refereeId = None)) eqn:Ea; [apply bool_decide_eq_true in Ea|by injection H as <- <-]. step_in H.
  destruct (completedTrips refereeId s =? 0)%nat eqn:Et; [apply Nat.eqb_eq in Et|by injection H as <- <-].
  lazymatch type of H with mbind _ ?m s = _ => rewrite bind_run in H; destruct (m s) as [[[id c]|e] s1] eqn:Ec end;
    apply campaign_run in Ec; [|by injection H as <- <-]. step_in H.
  destruct (rc_isActive c) eqn:Eact; [|by injection H as <- <-]. step_in H.
  destruct (match rc_startDate c with Some _ => _ | None => _ end) eqn:Es; [|by injection H as <- <-]. step_in H.
  destruct (match rc_endDate c with Some _ => _ | None => _ end) eqn:Ee; [|by injection H as <- <-]. step_in H.
  destruct (match truthy (rc_city c) with Some _ => _ | None => _ end); [|by injection H as <- <-]. step_in H.
  destruct (rewardedCount referrerId id s1 <? rc_maxReferralsPerUser c)%Z eqn:Em; [|by injection H as <- <-].
  unfold createAttribution in H. step_in H. destruct Ec as (E1 & E2 & E3). rewrite E2, Ea, bool_decide_eq_true_2 in H by done.
  step_in H. injection H as <- <-. exists s1, referrerId, referrer, referee, id, c. split; [by split|]. split; [|done].
  rewrite (rewardedCount_ext _ _ _ _ E2) in Em. split; try done; [| |lia]; intros d Hd; rewrite Hd in *; lia.
Qed.
Lemma only_campaigns_ok s s' : referral_ok s -> only_campaigns s s' -> referral_ok s'.
Proof.
  intros Ho (_ & E & _ & W & _). apply (referral_ok_others s s' []); [done|done|by rewrite W, app_nil_r|]. intros e i He. by apply elem_of_nil in He.
Qed.
Lemma applied_ok env r code city s res s' : referral_ok s -> fresh_attribution env s -> applied env r code city s res s' -> referral_ok s'.
Proof.
  intros Ho Hf. destruct res as [d|e]; [|by apply only_campaigns_ok].
  intros (s1 & referrerId & referrer & referee & id & c & Hc & Had & -> & _). pose proof (only_campaigns_ok _ _ Ho Hc) as Ho1.
  destruct Hc as (_ & E & _). eapply referral_ok_new; [exact Ho1| |rewrite E; apply (ad_first _ _ _ _ _ _ _ _ _ _ Had)|done..|].
  - intros r' a'. rewrite E. apply Hf.
  - apply (ad_other _ _ _ _ _ _ _ _ _ _ Had).
Qed.

(** ** Reachable stores *)
Inductive referral_step : ReferralStore -> ReferralStore -> Prop :=
  | rf_apply env refereeId code city s res s' : fresh_attribution env s ->
      applyReferralCode env refereeId code city s = (res, s') -> referral_step s s'
  | rf_complete env b s res s' : handleReferralCompleted env b false s = (res, s') -> referral_step s s'
  | rf_cancel env b s res s' : handleReferralCancelled env b false s = (res, s') -> referral_step s s'
  | rf_code env u s res s' : getOrCreateUserReferralCode env u s = (res, s') -> referral_step s s'
  | rf_create env admin dto s res s' : createAdminCampaign env admin dto s = (res, s') -> referral_step s s'
  | rf_update admin id dto s res s' : updateAdminCampaign admin id dto s = (res, s') -> referral_step s s'
  | rf_toggle admin id s res s' : toggleAdminCampaign admin id s = (res, s') -> referral_step s s'
  | rf_others s s' l : rs_attributions s' = rs_attributions s ->
      ws_entries (rs_wallets s') = ws_entries (rs_wallets s) ++ l -> no_reward l -> referral_step s s'.
Definition referral_init (s : ReferralStore) : Prop := rs_attributions s = ∅ /\ no_reward (ws_entries (rs_wallets s)).

(** Codes and campaigns touch neither attributions nor wallets. *)
Definition rewards_of (s : ReferralStore) := (rs_attributions s, rs_wallets s).
Lemma keeps_createCampaign id c : keeps rewards_of (createCampaign id c).
Proof. intros x s r s' H <-. apply createCampaign_run in H as (_ & E & _ & W & _). unfold rewards_of. by rewrite E, W. Qed.
Lemma keeps_defaultCampaign env : keeps rewards_of (getOrCreateDefaultCampaign env).
Proof. intros x s r s' H <-. apply defaultCampaign_run in H as (_ & E & _ & W & _). unfold rewards_of. by rewrite E, W. Qed.
Lemma keeps_assignCode u code user : keeps rewards_of (assignCode u code user).
Proof. intros x. apply preserves_get. intros s r s' Hs. step. destruct (bool_decide _); step; by intros [= <- <-]. Qed.
Lemma keeps_updateCampaign id f : keeps rewards_of (updateCampaign id f).
Proof. intros x. apply preserves_get. intros s r s' Hs. step. destruct (campaignById id s); step; by intros [= <- <-]. Qed.
Lemma keeps_referralAudit u a id : keeps rewards_of (referralAudit u a id).
Proof. intros x. by apply preserves_modify. Qed.
Hint Resolve keeps_createCampaign keeps_defaultCampaign keeps_assignCode keeps_updateCampaign keeps_referralAudit : preserves.
Lemma keeps_code env u : keeps rewards_of (getOrCreateUserReferralCode env u).
Proof.
  intros x. apply preserves_bind; [auto with preserves|intros s]. apply preserves_bind; [auto with preserves|intros user].
  apply preserves_bind.
  - destruct (truthy (ru_referralCode user)); [auto with preserves|].
    apply preserves_bind; [apply keeps_assignCode|intros _; auto with preserves].
  - intros code. apply preserves_bind; [apply keeps_defaultCampaign|auto with preserves].
Qed.
Lemma keeps_createAdmin env admin dto : keeps rewards_of (createAdminCampaign env admin dto).
Proof.
  intros x. apply preserves_bind; [auto with preserves|intros s]. apply preserves_bind; [auto with preserves|intros _].
  apply preserves_bind; [apply keeps_createCampaign|intros c]. apply preserves_bind; [apply keeps_referralAudit|auto with preserves].
Qed.
Lemma keeps_updateThen id f admin action : keeps rewards_of (updated ← updateCampaign id f; referralAudit admin action id ;; mret updated).
Proof.
  intros x. apply preserves_bind; [apply keeps_updateCampaign|intros c]. apply preserves_bind; [apply keeps_referralAudit|auto with preserves].
Qed.
Lemma rewards_kept {A} (m : RM A) s r s' : keeps rewards_of m -> m s = (r, s') -> referral_ok s -> referral_ok s'.
Proof.
  intros Hm H Ho. pose proof (Hm (rewards_of s) s r s' H eq_refl) as E. injection E as E W.
  apply (referral_ok_others s s' []); [done|done|by rewrite W, app_nil_r|]. intros e i He. by apply elem_of_nil in He.
Qed.

Lemma referral_step_ok s s' : referral_step s s' -> referral_ok s -> referral_ok s'.
Proof.
  intros [] Ho.
  - eapply applied_ok; [exact Ho|exact H|by eapply apply_run].
  - eapply completed_ok; [exact Ho|by eapply completed_run].
  - eapply cancelled_ok; [exact Ho|by eapply cancelled_run].
  - eapply rewards_kept; [apply keeps_code|exact H|exact Ho].
  - eapply rewards_kept; [apply keeps_createAdmin|exact H|exact Ho].
  - eapply rewards_kept; [apply keeps_updateThen|exact H|exact Ho].
  - eapply rewards_kept; [apply keeps_updateThen|exact H|exact Ho].
  - by eapply referral_ok_others.
Qed.
Lemma referral_init_ok s : referral_init s -> referral_ok s.
Proof.
  intros [E Hn]. split; rewrite ?E.
  - intros r a H. by apply lookup_empty_Some in H.
  - intros r r' a a' H. by apply lookup_empty_Some in H.
  - intros e i He Ek. by destruct (Hn e i He).
Qed.
Lemma reachable_referral_ok s0 s : referral_init s0 -> rtc referral_step s0 s -> referral_ok s.
Proof. intros H0%referral_init_ok Hr. by eapply (rtc_invariant _ _ _ _ referral_step_ok). Qed.
End rewards.
