(* ===== verification/ReferralSafety.v ===== *)
(** * What referrals promise

    The theorems on Referrals.v, from the invariant of ReferralRewards.v, and
    runs in which campaigns and discounts do not do what they mean to. *)
From S2P Require Import Prelude JsNumber Decimal Schema Ledger Wallet BookingStore PaymentRefund Referrals ReferralRewards.
Open Scope Z_scope.
Open Scope Q_scope.

Section safety.
Context {col : NumericColumn} {dec : DecimalArith}.

Lemma rewards_same {A} (m : M ReferralStore A) s r s' : keeps rewards_of m -> m s = (r, s') -> rs_attributions s' = rs_attributions s.
Proof. intros Hm H. pose proof (Hm (rewards_of s) s r s' H eq_refl) as E. by injection E. Qed.
(** An attribution leaves REGISTERED only by the completion that rewards it. *)
Lemma leaves_registered s s' r a a' : referral_ok s -> referral_step s s' -> rs_attributions s !! r = Some a ->
  ra_status a = RFS_REGISTERED -> rs_attributions s' !! r = Some a' -> ra_status a' <> RFS_REGISTERED ->
  exists env b t, rs_trips s !! b = Some t /\ rt_customerId t = r /\ rt_status t = BS_COMPLETED /\ qualifies t a s = true /\
    a' = rewarded_row env b a.
Proof.
  intros Ho Hst Ha Hreg Ha' Hn.
  assert (rs_attributions s' = rs_attributions s -> False) as Hsame by (intros E; rewrite E in Ha'; by simplify_eq).
  destruct Hst as [env u code city s res s' _ H|env b s res s' H|env b s res s' H|env u s res s' H|env admin dto s res s' H
    |admin id dto s res s' H|admin id s res s' H|s s' l E _ _].
  - apply apply_run in H. destruct res as [d|e]; cbn in H; [|by destruct H as (_ & E & _)].
    destruct H as (s1 & ? & ? & ? & ? & ? & (_ & E & _) & Had & -> & _). cbn in Ha'. rewrite E in Ha'.
    pose proof (ad_first _ _ _ _ _ _ _ _ _ _ Had). apply lookup_insert_Some in Ha' as [[-> _]|[_ ?]]; by simplify_eq.
  - apply completed_run in H; [|done]. destruct res as [[| |i amount entry]|e]; cbn in H; try (by subst s').
    destruct H as (t & a0 & e & w & Ht & Hc & Ha0 & _ & _ & _ & _ & _ & Hq & Hs & _). rewrite Hs in Ha'.
    apply lookup_insert_Some in Ha' as [[<- <-]|[_ ?]]; [|by simplify_eq]. simplify_eq. by exists env, b, t.
  - apply cancelled_run in H; [|done]. destruct res as [[|i st]|e]; cbn in H; [by destruct H as [-> _]| |done].
    destruct H as (r0 & a0 & l & Ha0 & _ & Est & -> & _ & Hs & _). rewrite Hs in Ha'.
    apply lookup_insert_Some in Ha' as [[<- <-]|[_ ?]]; [|by simplify_eq]. simplify_eq. congruence.
  - by apply rewards_same in H; [|apply keeps_code].
  - by apply rewards_same in H; [|apply keeps_createAdmin].
  - by apply rewards_same in H; [|apply keeps_updateThen].
  - by apply rewards_same in H; [|apply keeps_updateThen].
  - done.
Qed.

(** C28. A referral is rewarded exactly once, for a trip that qualifies.  In every store reachable by applications of codes, completions and cancellations of bookings, administration of campaigns and foreign wallet movements, an attribution is registered, rewarded or cancelled, its referrer is not its referee, and the wallet entries under its reward key are none while it is registered and exactly one afterwards, a credit of the amount fixed when the code was applied.  A step takes an attribution out of REGISTERED only by rewarding it for a booking of the referee that is COMPLETED, whose payment is PAID and not refunded and whose fare reaches the minimum of the campaign; the row records that booking and when it qualified. *)
Theorem referral_rewarded_once s0 s r a :
  referral_init s0 -> rtc referral_step s0 s -> rs_attributions s !! r = Some a ->
  ra_referrerId a <> r /\ ra_status a ∈ [RFS_REGISTERED; RFS_REWARDED; RFS_CANCELLED] /\
  match keyed (rewardKey (ra_id a)) (rs_wallets s) with
  | [] => ra_status a = RFS_REGISTERED
  | [e] => ra_status a <> RFS_REGISTERED /\ we_direction e = DIR_CREDIT /\ we_amount e = store (ra_referrerRewardAmount a)
  | _ => False
  end /\
  forall s' a', referral_step s s' -> rs_attributions s' !! r = Some a' ->
    ra_status a = RFS_REGISTERED -> ra_status a' <> RFS_REGISTERED ->
    ra_status a' = RFS_REWARDED /\ is_Some (ra_qualifiedAt a') /\
    ra_referrerId a' = ra_referrerId a /\ ra_referrerRewardAmount a' = ra_referrerRewardAmount a /\
    exists b t, ra_qualifyingBookingId a' = Some b /\ rs_trips s !! b = Some t /\ rt_customerId t = r /\
      rt_status t = BS_COMPLETED /\ rt_payment t = Some (PS_PAID, RS_NONE) /\
      match campaignOf a s with Some c => rc_minBookingAmount c | None => 1000 end <= rt_totalFare t.
Proof.
  intros H0 Hr Ha. pose proof (reachable_referral_ok _ _ H0 Hr) as Ho. destruct (ro_row _ Ho r a Ha) as [Hne Hst]. split; [done|].
  assert (forall s' a', referral_step s s' -> rs_attributions s' !! r = Some a' ->
    ra_status a = RFS_REGISTERED -> ra_status a' <> RFS_REGISTERED ->
    exists env b t, rs_trips s !! b = Some t /\ rt_customerId t = r /\ rt_status t = BS_COMPLETED /\ qualifies t a s = true /\
      a' = rewarded_row env b a) as Hleave by (intros s' a' Hs Ha' Hreg Hn; by eapply leaves_registered).
  split; [destruct (ra_status a); (set_solver || done)|]. split.
  { destruct (ra_status a) eqn:E; try done.
    - by destruct Hst as [-> _].
    - by destruct Hst as (e & -> & Hd & Ham & _).
    - by destruct Hst as (e & -> & Hd & Ham & _). }
  intros s' a' Hs Ha' Hreg Hn. destruct (Hleave s' a' Hs Ha' Hreg Hn) as (env & b & t & Ht & Hu & Hc & Hq & ->). cbn.
  apply andb_true_iff in Hq as [Hmin Hpaid%bool_decide_eq_true]. do 4 (split; [done|]). exists b, t.
  split_and!; try done. revert Hmin. cbv zeta. unfold DEFAULT_MIN_BOOKING_AMOUNT.
  destruct (campaignOf a s); intros Hmin; dec_bool; done.
Qed.

(** C29. A referral code is applied only where every fraud check passes: an application that returns was for the code of another user with another phone and licence number, by a referee without attribution and without completed booking, under an active campaign within its dates and below its limit of rewarded referrals; it adds one registered attribution with the campaign's amounts and nothing else but, at most, the default campaign, and one that throws adds no attribution and moves no wallet. *)
Theorem referral_code_checked env refereeId code city s res s' :
  applyReferralCode env refereeId code city s = (res, s') ->
  rs_wallets s' = rs_wallets s /\ rs_users s' = rs_users s /\ rs_trips s' = rs_trips s /\
  match res with
  | Throw _ => rs_attributions s' = rs_attributions s
  | Ok d => exists referrerId referrer referee campaignId c,
      admitted env refereeId (uppercase (trim code)) city s referrerId referrer referee campaignId c /\
      rs_attributions s' = <[refereeId := new_attribution env (uppercase (trim code)) referrerId campaignId c]> (rs_attributions s) /\
      ap_discountAmount d = rnd (rc_refereeRewardAmount c)
  end.
Proof.
  intros H%apply_run. destruct res as [d|e]; cbn in H; [|destruct H as (E1 & E2 & E3 & E4 & _); done].
  destruct H as (s1 & referrerId & referrer & referee & id & c & (E1 & E2 & E3 & E4 & _) & Had & -> & ->). cbn. split_and!; try done.
  exists referrerId, referrer, referee, id, c. by rewrite E2.
Qed.

(** A cancellation takes the referral reward back where it can: in a reachable store the handler never throws; it answers that nothing was reverted, and changes nothing, exactly when no rewarded attribution was qualified by the booking; else it cancels that attribution and either debits the referrer once, under the reversal key, the amount of the reward, or, where the wallet cannot pay, leaves the entries of the wallet as they are. *)
Theorem referral_reversal_spec s0 s env b res s' :
  referral_init s0 -> rtc referral_step s0 s -> handleReferralCancelled env b false s = (res, s') ->
  (res = Ok NothingReverted /\ s' = s /\
    forall r a, rs_attributions s !! r = Some a -> ra_qualifyingBookingId a = Some b -> ra_status a <> RFS_REWARDED) \/
  exists r a, rs_attributions s !! r = Some a /\ ra_qualifyingBookingId a = Some b /\ ra_status a = RFS_REWARDED /\
    res = Ok (Reverted_ (ra_id a) RFS_REWARDED) /\ rs_attributions s' = <[r := with_referral_status a RFS_CANCELLED]> (rs_attributions s) /\
    (ws_entries (rs_wallets s') = ws_entries (rs_wallets s) \/
     exists e, ws_entries (rs_wallets s') = ws_entries (rs_wallets s) ++ [e] /\ we_idempotencyKey e = referralReversalKey (ra_id a) b /\
       we_direction e = DIR_DEBIT /\ we_amount e = store (ra_referrerRewardAmount a)).
Proof.
  intros H0 Hr H. apply cancelled_run in H; [|by eapply reachable_referral_ok]. destruct res as [[|id st]|e]; [left| |destruct H].
  - destruct H as [-> H]. done.
  - right. destruct H as (r & a & l & Ha & <- & <- & Est & Hb & H1 & H2 & Hl). exists r, a. rewrite Est. split_and!; try done.
    destruct Hl as [->|(e & -> & He)]; [left; by rewrite app_nil_r in H2|right]. by exists e.
Qed.
End safety.

(** ** Concrete runs *)
Definition referral_env (n : string) : ReferralEnv :=
  {| rv_now := 100; rv_config := None; rv_campaignId := "c" +:+ n; rv_attributionId := "a" +:+ n; rv_suffix3 := "0a1b2c"; rv_suffix4 := "0a1b2c3d";
     rv_walletId := "w" +:+ n; rv_walletConfig := None |}.
Definition person (phone code : string) : ReferralUser :=
  {| ru_name := None; ru_phone := Some phone; ru_referralCode := Some code; ru_licenceNumber := None |}.
Definition completed_trip (fare : Q) : ReferredTrip :=
  {| rt_customerId := "u2"; rt_status := BS_COMPLETED; rt_totalFare := fare; rt_payment := Some (PS_PAID, RS_NONE) |}.
Definition referral_seed (trips : gmap string ReferredTrip) : ReferralStore :=
  {| rs_users := <["u1" := person "111" "DG1"]> (<["u2" := person "222" ""]> {["u3" := person "333" ""]}); rs_campaigns := [];
     rs_attributions := ∅; rs_trips := trips; rs_wallets := empty_store; rs_audit := [] |}.
(** The referee applies the code, then completes a trip of 1500. *)
Definition referred : ReferralStore := (applyReferralCode (referral_env "1") "u2" " dg1 " None (referral_seed ∅)).2.
Definition with_trips (trips : gmap string ReferredTrip) (s : ReferralStore) : ReferralStore :=
  {| rs_users := rs_users s; rs_campaigns := rs_campaigns s; rs_attributions := rs_attributions s; rs_trips := trips;
     rs_wallets := rs_wallets s; rs_audit := rs_audit s |}.
Definition travelled : ReferralStore := with_trips {["b1" := completed_trip 1500]} referred.
Definition paid_out : ReferralStore := (handleReferralCompleted (referral_env "2") "b1" false travelled).2.

Lemma referral_seed_init trips : referral_init (referral_seed trips).
Proof. split; [done|]. intros e i He. by apply elem_of_nil in He. Qed.
Lemma paid_out_reachable : rtc referral_step (referral_seed ∅) paid_out.
Proof.
  eapply rtc_l; [eapply (rf_apply (referral_env "1") "u2" " dg1 " None); [|apply surjective_pairing]|].
  { intros r a H. by destruct (lookup_empty_Some (M:=gmap string) r a). }
  eapply rtc_l; [apply (rf_others _ travelled []); [reflexivity|by rewrite app_nil_r|intros e i He; by apply elem_of_nil in He]|].
  eapply rtc_once, (rf_complete (referral_env "2") "b1"). apply surjective_pairing.
Qed.

Lemma referral_rewarded_once_witness :
  exists a, rs_attributions paid_out !! "u2" = Some a /\ ra_status a = RFS_REWARDED /\ ra_referrerId a <> "u2".
Proof.
  destruct (rs_attributions paid_out !! "u2") as [a|] eqn:E; [|vm_compute in E; discriminate E]. exists a. split; [reflexivity|].
  split; [vm_compute in E; injection E as <-; reflexivity|].
  exact (proj1 (referral_rewarded_once _ _ "u2" a (referral_seed_init ∅) paid_out_reachable E)).
Defined.
Lemma referral_code_checked_witness :
  exists d s', applyReferralCode (referral_env "1") "u2" " dg1 " None (referral_seed ∅) = (Ok d, s') /\
    Qeq_bool (ap_discountAmount d) 250 = true /\ rs_wallets s' = rs_wallets (referral_seed ∅).
Proof.
  destruct (applyReferralCode (referral_env "1") "u2" " dg1 " None (referral_seed ∅)) as [[d|e] s'] eqn:E;
    [|exfalso; vm_compute in E; discriminate E].
  exists d, s'. split; [reflexivity|]. split; [vm_compute in E; injection E as <- _; reflexivity|].
  exact (proj1 (referral_code_checked _ _ _ _ _ _ _ E)).
Defined.
Lemma referral_reversal_spec_witness :
  exists s' r a, handleReferralCancelled (referral_env "3") "b1" false paid_out = (Ok (Reverted_ "a1" RFS_REWARDED), s') /\
    rs_attributions paid_out !! r = Some a /\ rs_attributions s' = <[r := with_referral_status a RFS_CANCELLED]> (rs_attributions paid_out).
Proof.
  destruct (handleReferralCancelled (referral_env "3") "b1" false paid_out) as [res s'] eqn:E. exists s'.
  assert (res = Ok (Reverted_ "a1" RFS_REWARDED)) as -> by (vm_compute in E; injection E as <- _; reflexivity).
  destruct (referral_reversal_spec _ _ _ _ _ _ (referral_seed_init ∅) paid_out_reachable E)
    as [[H _]|(r & a & Ha & _ & _ & _ & Hs & _)]; [discriminate H|]. exists r, a. split; [reflexivity|]. exact (conj Ha Hs).
Defined.

(** ** Where the handlers do something else than they mean to *)
Definition campaign (code : string) (city : option string) (reward : Q) (active : bool) (max : Z) : ReferralCampaign :=
  {| rc_name := code; rc_code := code; rc_referrerRewardAmount := reward; rc_refereeRewardAmount := 100; rc_minBookingAmount := 1000;
     rc_city := city; rc_startDate := None; rc_endDate := None; rc_isActive := active; rc_maxReferralsPerUser := max |}.
Definition with_campaigns (l : list (string * ReferralCampaign)) : ReferralStore := set_campaigns l (referral_seed ∅).

(** Switching the default campaign off does not end it: the next request finds
    no active one, creates it again and violates its unique code. *)
Lemma default_campaign_cannot_be_off :
  (getOrCreateUserReferralCode (referral_env "1") "u1" (with_campaigns [("c0", campaign "DEFAULT_GLOBAL" None 250 false 20)])).1 = Throw PrismaP2002.
Proof. vm_compute. reflexivity. Qed.

(** The comment prefers a campaign of the city; a descending order puts the
    campaign without one first. *)
Lemma global_campaign_shadows_city :
  option_map (fun c => rc_code (snd c))
    (campaignFor (Some "Pune") (with_campaigns [("c1", campaign "PUNE" (Some "Pune") 400 true 20); ("c2", campaign "ALL" None 250 true 20)])) = Some "ALL".
Proof. reflexivity. Qed.

(** A campaign whose referrer gets nothing is allowed, but a wallet credit of
    zero is refused: the completion throws and the attribution stays as it is. *)
Definition zero_reward : RM Qualification :=
  applyReferralCode (referral_env "1") "u2" "DG1" None ;;
  modify (with_trips {["b1" := completed_trip 1500]}) ;;
  handleReferralCompleted (referral_env "2") "b1" false.
Lemma zero_reward_throws :
  exists s', zero_reward (with_campaigns [("c1", campaign "FREE" None 0 true 20)]) = (Throw BadRequestException, s') /\
    option_map ra_status (rs_attributions s' !! "u2") = Some RFS_REGISTERED.
Proof. eexists. split; vm_compute; reflexivity. Qed.

(** The limit of a campaign counts rewarded referrals when a code is applied:
    two referees apply under a limit of one and both are rewarded. *)
Definition two_friends : RM (Qualification * Qualification) :=
  applyReferralCode (referral_env "1") "u2" "DG1" None ;;
  applyReferralCode (referral_env "2") "u3" "DG1" None ;;
  modify (with_trips (<["b1" := completed_trip 1500]> {["b2" := {| rt_customerId := "u3"; rt_status := BS_COMPLETED; rt_totalFare := 1500;
    rt_payment := Some (PS_PAID, RS_NONE) |}]})) ;;
  a ← handleReferralCompleted (referral_env "3") "b1" false;
  b ← handleReferralCompleted (referral_env "4") "b2" false;
  mret (a, b).
Definition is_rewarded (q : Qualification) : bool := match q with Rewarded _ _ _ => true | _ => false end.
Lemma referral_limit_overshoots :
  exists a b s', two_friends (with_campaigns [("c1", campaign "ONE" None 250 true 1)]) = (Ok (a, b), s') /\
    is_rewarded a = true /\ is_rewarded b = true.
Proof. do 3 eexists. split; [vm_compute; reflexivity|]. split; reflexivity. Qed.

(** The discount is granted on a fare of 1000, the reward asks for 1000 after
    it: the referee's trip does not count. *)
Definition discounted_trip : RM (Eligibility * Qualification) :=
  e ← getRefereeEligibility "u2";
  modify (with_trips {["b1" := completed_trip (1000 - el_discountAmount e)]}) ;;
  q ← handleReferralCompleted (referral_env "2") "b1" false;
  mret (e, q).
Lemma discounted_trip_does_not_qualify :
  exists e s', discounted_trip referred = (Ok (e, NotQualified), s') /\ el_eligible e = true /\ Qeq_bool (el_minBookingAmount e) 1000 = true.
Proof. do 2 eexists. split; [vm_compute; reflexivity|]. split; reflexivity. Qed.

(** The first-booking discount only looks at completed trips: a referee with
    a confirmed one is granted it again. *)
Lemma discount_is_granted_again :
  option_map el_eligible (match (getRefereeEligibility "u2" (with_trips {["b1" := {| rt_customerId := "u2"; rt_status := BS_CONFIRMED;
    rt_totalFare := 1250; rt_payment := Some (PS_PAID, RS_NONE) |}]} referred)).1 with Ok e => Some e | Throw _ => None end) = Some true.
Proof. vm_compute. reflexivity. Qed.
