(* ===== verification/TripExtensions.v ===== *)
(** * Trip extensions

    bookings/trip-extensions.service.ts: a customer on a trip asks for a later
    end, pays for the extra time and, when the payment is verified, the
    booking's end moves.  The availability check of [getQuote], the order and
    the row of [createExtension], the confirmation of
    [verifyExtensionPayment] and its journal.  The store [ExtStore] adds the
    table of extensions to the [SalesStore]; the clock, the checks and orders
    of Razorpay and the notifications are arguments. *)
From S2P Require Import Prelude JsNumber Decimal Schema Ledger Wallet Locks HandoverOtp PaymentRefund Outbox BookingStore.
From S2P Require Import CancellationPolicy BookingLifecycle LifecycleMoney Payments PaymentOrders PaymentWebhook FareCalculator.
From S2P Require Import Coupons Quotes BookingCreation Reservations.
From stdpp Require Import pretty.
Open Scope Z_scope.

Record TripExtension : Type := {
  te_bookingId : string;
  te_currentEndDate : Z;
  te_requestedEndDate : Z;
  te_extraDays : Z;
  te_extraHours : Z;
  te_baseFare : Q;
  te_platformFee : Q;
  te_gstAmount : Q;
  te_totalFare : Q;
  te_netToVendor : Q;
  te_razorpayOrderId : option string;
  te_razorpayPaymentId : option string;
  te_status : ExtensionStatus;
  te_createdAt : Z;
}.

(** [xs_tripType] is the column of a booking, which the handlers read. *)
Record ExtStore (R : Type) : Type := {
  xs_sales : SalesStore R;
  xs_tripType : string -> TripType;
  xs_extensions : gmap string TripExtension;
}.
Arguments xs_sales {R}. Arguments xs_tripType {R}. Arguments xs_extensions {R}.

Section setters.
Context {R : Type}.
Implicit Types s : ExtStore R.
Definition set_xs_sales (p : SalesStore R) s : ExtStore R :=
  {| xs_sales := p; xs_tripType := xs_tripType s; xs_extensions := xs_extensions s |}.
Definition set_extension (id : string) (x : TripExtension) s : ExtStore R :=
  {| xs_sales := xs_sales s; xs_tripType := xs_tripType s; xs_extensions := <[id := x]> (xs_extensions s) |}.
Definition xs_core s : LifecycleStore R := sales_core (xs_sales s).
Definition set_xs_core (c : LifecycleStore R) s : ExtStore R := set_xs_sales (set_sales_core c (xs_sales s)) s.
Definition xs_pay s : PayStore R := sl_pay (xs_sales s).
Definition set_xs_pay (p : PayStore R) s : ExtStore R := set_xs_sales (set_pay p (xs_sales s)) s.
Definition xs_booking (id : string) s : option Booking := ls_bookings (xs_core s) !! id.
Definition xs_ledger s : LedgerTable := pay_ledger (xs_pay s).
Definition set_xs_ledger (L : LedgerTable) s : ExtStore R := set_xs_pay (set_pay_ledger L (xs_pay s)) s.
End setters.

Definition with_endDate (t : Z) (b : Booking) : Booking :=
  {| b_customerId := b_customerId b; b_vendorId := b_vendorId b; b_carId := b_carId b;
     b_pickupHubId := b_pickupHubId b; b_startDate := b_startDate b; b_endDate := t;
     b_totalFare := b_totalFare b; b_platformFee := b_platformFee b; b_gstAmount := b_gstAmount b;
     b_netToVendor := b_netToVendor b; b_disputeFlag := b_disputeFlag b; b_quoteTotal := b_quoteTotal b;
     b_couponId := b_couponId b; b_discountAmount := b_discountAmount b;
     b_corporateAccountId := b_corporateAccountId b; b_cancellationMatrix := b_cancellationMatrix b;
     b_commissionSplit := b_commissionSplit b; b_securityDeposit := b_securityDeposit b;
     b_status := b_status b; b_cancellationReason := b_cancellationReason b;
     b_cancellationFee := b_cancellationFee b; b_refundAmount := b_refundAmount b;
     b_cancelledAt := b_cancelledAt b; b_cancelledBy := b_cancelledBy b |}.
Definition confirmedRow (paymentId : string) (x : TripExtension) : TripExtension :=
  {| te_bookingId := te_bookingId x; te_currentEndDate := te_currentEndDate x;
     te_requestedEndDate := te_requestedEndDate x; te_extraDays := te_extraDays x;
     te_extraHours := te_extraHours x; te_baseFare := te_baseFare x; te_platformFee := te_platformFee x;
     te_gstAmount := te_gstAmount x; te_totalFare := te_totalFare x; te_netToVendor := te_netToVendor x;
     te_razorpayOrderId := te_razorpayOrderId x; te_razorpayPaymentId := Some paymentId;
     te_status := EXT_CONFIRMED; te_createdAt := te_createdAt x |}.

(** Amounts of a quote are JavaScript numbers. *)
Record ExtensionQuote : Type := {
  eq_bookingId : string;
  eq_currentEndDate : Z;
  eq_requestedEndDate : Z;
  eq_extraDays : Z;
  eq_extraHours : Z;
  eq_baseFare : Q;
  eq_platformFee : Q;
  eq_gstAmount : Q;
  eq_totalFare : Q;
  eq_netToVendor : Q;
}.
Record ExtensionOrder : Type := {
  eo_extensionId : string;
  eo_orderId : string;
  eo_amount : Q;
  eo_amountInPaise : Z;
}.
Record ExtensionPayment : Type := {
  xp_razorpayOrderId : string;
  xp_razorpayPaymentId : string;
  xp_razorpaySignature : string;
}.

(** [xe_pay] has the clock, RAZORPAY_USE_MOCK, the presence of the ledger, the
    answer of [razorpay.orders.create] and the ids of journals; [xe_razorpay]
    says that the library has keys. *)
Record ExtEnv : Type := {
  xe_pay : PayEnv;
  xe_production : bool;
  xe_razorpay : bool;
  xe_secret : string;
  xe_hmac : string -> string -> string;
  xe_freshId : string;
  xe_commission : option Q;
  xe_notifyCustomer : result unit;
  xe_notifyVendor : result unit;
}.

Section extensions.
Context {R : Type} {col : NumericColumn} {dec : DecimalArith} {num : DecimalNumbers}.
Variable yearMonth : Z -> string.
Abbreviation XM := (M (ExtStore R)).

(** ** Availability *)
Definition competing (st : BookingStatus) : bool :=
  match st with BS_PENDING | BS_CONFIRMED | BS_ONGOING | BS_HANDOVER_READY => true | _ => false end.
(** The [where] of both [booking.findFirst]: another booking of the car that
    meets the time from the old end to the new one. *)
Definition inTheWay (carId bookingId : string) (currentEnd requestedEnd : Z) (row : string * Booking) : bool :=
  String.eqb (b_carId (snd row)) carId && negb (String.eqb (fst row) bookingId) && competing (b_status (snd row)) &&
  (b_startDate (snd row) <? requestedEnd) && (currentEnd <? b_endDate (snd row)).
Definition conflictingBooking (carId bookingId : string) (currentEnd requestedEnd : Z) (s : ExtStore R) : bool :=
  existsb (inTheWay carId bookingId currentEnd requestedEnd) (map_to_list (ls_bookings (xs_core s))).

Definition validateExtensionAvailability (carId bookingId : string) (currentEnd requestedEnd : Z)
    (blockedDates : list Z) : XM unit :=
  let hasBlockedDate := existsb (fun bTime => (currentEnd <? bTime) && (bTime <=? requestedEnd)) blockedDates in
  require (negb hasBlockedDate) ConflictException ;;
  s ← get;
  require (negb (conflictingBooking carId bookingId currentEnd requestedEnd s)) ConflictException.

(** ** Quotes and orders *)
Definition hourly (t : TripType) : bool :=
  match t with TRIP_LOCAL | TRIP_AIRPORT_TRANSFER => true | _ => false end.
Definition extraHoursOf (ms : Z) : Z := js_ceil (js_div (inject_Z ms) (inject_Z HOUR_MS)).
Definition extraDaysOf (ms : Z) : Z := Z.max 1 (js_ceil (js_div (inject_Z ms) (inject_Z DAY_MS))).
Definition extraBasePrice (t : TripType) (offer : CarOffer) (extraHours extraDays : Z) : Q :=
  if hourly t then dec_mul (cf_pricePerHour offer) (inject_Z extraHours)
  else dec_mul (cf_pricePerDay offer) (inject_Z extraDays).

(** [requested] is the date the string denotes, if it does. *)
Definition getQuote (env : ExtEnv) (bookingId : string) (requested : option Z) (userId : string) (role : Role)
    : XM ExtensionQuote :=
  s ← get;
  booking ← from_option_or (xs_booking bookingId s) NotFoundException;
  require (negb (bool_decide (role = ROLE_CUSTOMER) && negb (String.eqb (b_customerId booking) userId)))
    ForbiddenException ;;
  require (bool_decide (b_status booking = BS_ONGOING)) BadRequestException ;;
  requestedEndDate ← from_option_or requested BadRequestException;
  require (negb (requestedEndDate <=? b_endDate booking)) BadRequestException ;;
  car ← from_option_or (car_of (b_carId booking) (xs_sales s)) OtherError;
  offer ← from_option_or (offer_of (b_carId booking) (xs_sales s)) OtherError;
  validateExtensionAvailability (b_carId booking) bookingId (b_endDate booking) requestedEndDate
    (cf_blockedDates offer) ;;
  let extraDurationMs := requestedEndDate - b_endDate booking in
  let extraHours := extraHoursOf extraDurationMs in
  let extraDays := extraDaysOf extraDurationMs in
  let tripType := xs_tripType s bookingId in
  let commissionPercent := resolveCommissionPercent (ct_commission (sl_catalog (xs_sales s))) (xe_commission env)
    (cf_vendorCity offer) (car_type car) tripType in
  let fareDetails := calculateFare 0 (extraBasePrice tripType offer extraHours extraDays) 0 commissionPercent
    extraDays 0 0 18 None in
  mret {| eq_bookingId := bookingId; eq_currentEndDate := b_endDate booking;
          eq_requestedEndDate := requestedEndDate; eq_extraDays := extraDays; eq_extraHours := extraHours;
          eq_baseFare := rnd (fd_baseFare fareDetails); eq_platformFee := rnd (fd_platformFee fareDetails);
          eq_gstAmount := rnd (fd_gst fareDetails); eq_totalFare := rnd (fd_total fareDetails);
          eq_netToVendor := rnd (fd_netToVendor fareDetails) |}.

(** The order: a mock, or Razorpay's. *)
Definition extensionOrder (env : ExtEnv) (amountInPaise : Z) : XM string :=
  require (negb (xe_production env && negb (xe_razorpay env))) BadRequestException ;;
  if negb (pe_useMock (xe_pay env)) && xe_razorpay env then
    match pe_createOrder (xe_pay env) amountInPaise with
    | Ok id => mret id
    | Throw _ => throw BadRequestException
    end
  else mret ("ext_mock_" +:+ pretty (pe_now (xe_pay env))).

Definition extensionRow (env : ExtEnv) (q : ExtensionQuote) (orderId : string) : TripExtension :=
  {| te_bookingId := eq_bookingId q; te_currentEndDate := eq_currentEndDate q;
     te_requestedEndDate := eq_requestedEndDate q; te_extraDays := eq_extraDays q;
     te_extraHours := eq_extraHours q; te_baseFare := store (of_number (eq_baseFare q));
     te_platformFee := store (of_number (eq_platformFee q)); te_gstAmount := store (of_number (eq_gstAmount q));
     te_totalFare := store (of_number (eq_totalFare q)); te_netToVendor := store (of_number (eq_netToVendor q));
     te_razorpayOrderId := Some orderId; te_razorpayPaymentId := None; te_status := EXT_PENDING_PAYMENT;
     te_createdAt := pe_now (xe_pay env) |}.

Definition createExtension (env : ExtEnv) (bookingId : string) (requested : option Z) (customerId : string)
    : XM ExtensionOrder :=
  quote ← getQuote env bookingId requested customerId ROLE_CUSTOMER;
  s ← get;
  booking ← from_option_or (xs_booking bookingId s) NotFoundException;
  let amountInPaise := js_round (js_mul (eq_totalFare quote) 100) in
  orderId ← extensionOrder env amountInPaise;
  modify (set_extension (xe_freshId env) (extensionRow env quote orderId)) ;;
  mret {| eo_extensionId := xe_freshId env; eo_orderId := orderId; eo_amount := eq_totalFare quote;
          eo_amountInPaise := amountInPaise |}.

(** ** The journal of a verified extension *)
Definition extensionLine (account : LedgerAccountType) (entity : option string) (side : LedgerEntrySide)
    (amount : Q) (bookingId : string) : JournalEntryLineInput :=
  {| li_accountType := account; li_accountEntityId := entity; li_side := Some side; li_entrySide := None;
     li_amount := amount; li_narration := None; li_description := None; li_bookingId := Some bookingId;
     li_paymentId := None; li_payoutId := None |}.
Definition extensionLines (bookingId vendorId : string) (x : TripExtension) : list JournalEntryLineInput :=
  let sub := (te_netToVendor x + te_platformFee x + te_gstAmount x)%Q in
  let delta := (te_totalFare x - sub)%Q in
  let adjustedPlatformFee := (te_platformFee x + delta)%Q in
  [extensionLine GATEWAY_CLEARING (Some "RAZORPAY") DEBIT (te_totalFare x) bookingId;
   extensionLine VENDOR_PAYABLE (Some vendorId) CREDIT (te_netToVendor x) bookingId] ++
  pushIf (d_gt adjustedPlatformFee 0)
    (extensionLine PLATFORM_COMMISSION_REVENUE None CREDIT adjustedPlatformFee bookingId) ++
  pushIf (d_gt (te_gstAmount x) 0) (extensionLine TAX_GST_LIABILITY None CREDIT (te_gstAmount x) bookingId).
Definition extensionKey (extensionId : string) : string := "jrn_ext_verify_" +:+ extensionId.
Definition extensionJournal (bookingId vendorId extensionId : string) (x : TripExtension) : RecordJournalInput :=
  {| rj_journalId := None; rj_referenceType := "TRIP_EXTENSION_PAYMENT"; rj_referenceId := extensionId;
     rj_narration := None; rj_description := None; rj_lines := Some (extensionLines bookingId vendorId x);
     rj_entries := None; rj_idempotencyKey := Some (extensionKey extensionId); rj_currency := None;
     rj_bookingId := Some bookingId; rj_paymentId := None; rj_payoutId := None; rj_vendorId := Some vendorId |}.

(** ** Verification *)
Definition updateExtension (id : string) (f : TripExtension -> TripExtension) : XM unit :=
  s ← get;
  x ← from_option_or (xs_extensions s !! id) PrismaP2025;
  modify (set_extension id (f x)).
Definition updateEndDate (bookingId : string) (t : Z) : XM unit :=
  s ← get;
  b ← from_option_or (xs_booking bookingId s) PrismaP2025;
  zoom xs_core set_xs_core (modify (set_booking bookingId (with_endDate t b))).

(** The transaction; [x] and [b] are the rows read before it. *)
Definition confirmExtension (env : ExtEnv) (bookingId extensionId : string) (x : TripExtension) (b : Booking)
    (paymentId : string) : XM unit :=
  s ← get;
  require (negb (conflictingBooking (b_carId b) bookingId (te_currentEndDate x) (te_requestedEndDate x) s))
    ConflictException ;;
  updateExtension extensionId (confirmedRow paymentId) ;;
  updateEndDate bookingId (te_requestedEndDate x) ;;
  when (pe_hasLedger (xe_pay env))
    (try_catch
       (zoom xs_ledger set_xs_ledger
          (r ← recordJournal (pe_now (xe_pay env)) (pe_journalId (xe_pay env)) true
                 (extensionJournal bookingId (b_vendorId b) extensionId x);
           mret tt))
       (fun _ => mret tt)).

Definition paymentBody (p : ExtensionPayment) : string :=
  xp_razorpayOrderId p +:+ "|" +:+ xp_razorpayPaymentId p.
Definition signatureValid (env : ExtEnv) (p : ExtensionPayment) : bool :=
  pe_useMock (xe_pay env) || String.eqb (xe_hmac env (xe_secret env) (paymentBody p)) (xp_razorpaySignature p).

(** The answer is the new end, none when the extension was confirmed before. *)
Definition verifyExtensionPayment (env : ExtEnv) (bookingId extensionId : string) (p : ExtensionPayment)
    (customerId : string) : XM (option Z) :=
  s ← get;
  x ← from_option_or (xs_extensions s !! extensionId) NotFoundException;
  require (String.eqb (te_bookingId x) bookingId) NotFoundException ;;
  b ← from_option_or (xs_booking bookingId s) OtherError;
  require (String.eqb (b_customerId b) customerId) ForbiddenException ;;
  if bool_decide (te_status x = EXT_CONFIRMED) then mret None
  else
    require (negb (xe_production env && pe_useMock (xe_pay env))) BadRequestException ;;
    require (signatureValid env p) BadRequestException ;;
    transaction (confirmExtension env bookingId extensionId x b (xp_razorpayPaymentId p)) ;;
    try_catch (zoom xs_pay set_xs_pay (generateInvoiceForBooking yearMonth (xe_pay env) bookingId))
      (fun _ => mret tt) ;;
    when (match truthy (Some (b_customerId b)) with Some _ => true | None => false end)
      (of_result (xe_notifyCustomer env)) ;;
    when (match truthy (rd_vendorUser (ls_ref (xs_core s)) !! b_vendorId b) with Some _ => true | None => false end)
      (of_result (xe_notifyVendor env)) ;;
    mret (Some (te_requestedEndDate x)).

Definition getExtensionsForBooking (bookingId : string) : XM (list (string * TripExtension)) :=
  s ← get;
  mret (sort_desc (fun r => inject_Z (te_createdAt (snd r)))
    (List.filter (fun r => String.eqb (te_bookingId (snd r)) bookingId) (map_to_list (xs_extensions s)))).
End extensions.

(** ** What a verification does *)
Section verification.
Context {R : Type} {col : NumericColumn} {dec : DecimalArith} {num : DecimalNumbers}.
Variable yearMonth : Z -> string.
Implicit Types s : ExtStore R.

(** The guards of [verifyExtensionPayment] and of its transaction. *)
Record extensionAccepted (env : ExtEnv) (bid xid : string) (p : ExtensionPayment) (c : string) s
    (x : TripExtension) (b : Booking) : Prop := {
  ac_row : xs_extensions s !! xid = Some x;
  ac_booking : te_bookingId x = bid;
  ac_slot : xs_booking bid s = Some b;
  ac_customer : b_customerId b = c;
  ac_open : te_status x <> EXT_CONFIRMED;
  ac_mode : xe_production env = true -> pe_useMock (xe_pay env) = false;
  ac_signature : pe_useMock (xe_pay env) = false ->
    xe_hmac env (xe_secret env) (xp_razorpayOrderId p +:+ "|" +:+ xp_razorpayPaymentId p) = xp_razorpaySignature p;
  ac_free : forall j y, ls_bookings (xs_core s) !! j = Some y -> j <> bid -> b_carId y = b_carId b ->
    competing (b_status y) = true -> b_endDate y <= te_currentEndDate x \/ te_requestedEndDate x <= b_startDate y;
}.

Definition set_xs_invoices (l : list Invoice) s : ExtStore R := set_xs_pay (set_invoices l (xs_pay s)) s.
(** The store with the booking extended, a ledger and a list of invoices. *)
Definition extended (bid xid pid : string) (x : TripExtension) (b : Booking) (L : LedgerTable) (inv : list Invoice) s
    : ExtStore R :=
  set_xs_invoices inv (set_xs_ledger L
    (set_xs_core (set_booking bid (with_endDate (te_requestedEndDate x) b) (xs_core s))
       (set_extension xid (confirmedRow pid x) s))).
Definition ledger_after (env : ExtEnv) (bid xid : string) (x : TripExtension) (b : Booking) s : LedgerTable :=
  if pe_hasLedger (xe_pay env) then
    snd (recordJournal (pe_now (xe_pay env)) (pe_journalId (xe_pay env)) true
           (extensionJournal bid (b_vendorId b) xid x) (xs_ledger s))
  else xs_ledger s.

Lemma conflict_free car bid cur req s : conflictingBooking car bid cur req s = false <->
  forall j y, ls_bookings (xs_core s) !! j = Some y -> j <> bid -> b_carId y = car ->
    competing (b_status y) = true -> b_endDate y <= cur \/ req <= b_startDate y.
Proof.
  unfold conflictingBooking. rewrite <- not_true_iff_false, existsb_exists. split.
  - intros Hn j y Hj Hne Hc Hs. destruct (Z.le_gt_cases (b_endDate y) cur); [by left|].
    destruct (Z.le_gt_cases req (b_startDate y)); [by right|]. destruct Hn. exists (j, y).
    split; [by apply list_elem_of_In, elem_of_map_to_list|]. unfold inTheWay. simpl.
    rewrite Hc, String.eqb_refl, Hs, (proj2 (String.eqb_neq j bid) Hne). simpl.
    apply andb_true_intro. split; apply Z.ltb_lt; lia.
  - intros H ([j y] & Hin & Hw). apply list_elem_of_In, elem_of_map_to_list in Hin. unfold inTheWay in Hw. simpl in Hw.
    repeat apply andb_true_iff in Hw as [Hw ?]. apply String.eqb_eq in Hw.
    destruct (H j y) as [|]; try done; [|lia..].
    intros ->. by rewrite String.eqb_refl in *.
Qed.

Lemma set_xs_ledger_id s : set_xs_ledger (xs_ledger s) s = s.
Proof. unfold set_xs_ledger, xs_ledger. rewrite set_pay_ledger_id. by destruct s as [[] ? ?]. Qed.
Lemma set_xs_invoices_id s : set_xs_invoices (ps_invoices (xs_pay s)) s = s.
Proof. by destruct s as [[[] ? ? ? ?] ? ?]. Qed.

Lemma invoice_run env id (s : PayStore R) r (s' : PayStore R) : generateInvoiceForBooking yearMonth env id s = (r, s') ->
  exists l, s' = set_invoices l s.
Proof.
  intros H. assert (exists l, s = set_invoices l s) as Hid by (exists (ps_invoices s); by destruct s).
  unfold generateInvoiceForBooking in H. step_in H. destruct (booking_of id s); [|by injection H as _ <-]. step_in H.
  destruct (existsb _ _); [by injection H as _ <-|]. cbv zeta in H.
  destruct (existsb _ _); [by injection H as _ <-|]. injection H as _ <-. by eexists.
Qed.

Lemma journal_run env bid xid x b s :
  when (pe_hasLedger (xe_pay env))
    (try_catch (zoom xs_ledger set_xs_ledger
       (r ← recordJournal (pe_now (xe_pay env)) (pe_journalId (xe_pay env)) true
              (extensionJournal bid (b_vendorId b) xid x); mret tt))
       (fun _ => mret tt)) s = (Ok tt, set_xs_ledger (ledger_after env bid xid x b s) s).
Proof.
  unfold ledger_after, when. destruct (pe_hasLedger _); [|by rewrite set_xs_ledger_id].
  unfold try_catch, zoom. rewrite bind_run.
  by destruct (recordJournal _ _ _ _ _) as [[?|?] ?].
Qed.

Lemma confirmExtension_run env bid xid x b pid s : xs_extensions s !! xid = Some x -> xs_booking bid s = Some b ->
  confirmExtension env bid xid x b pid s =
  if conflictingBooking (b_carId b) bid (te_currentEndDate x) (te_requestedEndDate x) s
  then (Throw ConflictException, s)
  else (Ok tt, extended bid xid pid x b (ledger_after env bid xid x b s) (ps_invoices (xs_pay s)) s).
Proof.
  intros Hx Hb. unfold confirmExtension. step. destruct (conflictingBooking _ _ _ _ s); simpl; [done|].
  unfold updateExtension, updateEndDate. step. rewrite Hx. step. 
  change (xs_booking bid (set_extension xid (confirmedRow pid x) s)) with (xs_booking bid s). rewrite Hb.
  set (t := set_extension xid (confirmedRow pid x) s). rewrite bind_run.
  change (zoom xs_core set_xs_core ?m t) with (Ok tt, set_xs_core (set_booking bid
    (with_endDate (te_requestedEndDate x) b) (xs_core t)) t).
  cbv beta iota. rewrite journal_run. unfold extended. f_equal.
Qed.

Lemma invoice_kept env id s : exists inv,
  try_catch (zoom xs_pay set_xs_pay (generateInvoiceForBooking yearMonth env id)) (fun _ => mret tt) s =
  (Ok tt, set_xs_invoices inv s).
Proof.
  unfold try_catch, zoom. destruct (generateInvoiceForBooking yearMonth env id (xs_pay s)) as [[[]|e] t] eqn:E;
    apply invoice_run in E as [inv ->]; by exists inv.
Qed.
Lemma notify_run (q1 q2 : bool) (n1 n2 : result unit) (t : Z) s r s' :
  (when q1 (of_result n1) ;; when q2 (of_result n2) ;; mret (M:=M (ExtStore R)) (Some t)) s = (r, s') ->
  s' = s /\ (r = Ok (Some t) \/ exists e : Exn, r = Throw e /\ (n1 = Throw e \/ n2 = Throw e)).
Proof.
  unfold when, mbind, M_bind, of_result. destruct q1, q2, n1, n2; intros [= <- <-]; split; eauto.
Qed.

(** Everything a request that verifies an extension can do. *)
#[local] Ltac refused H := left; injection H as <- <-; split_and!; [done| |by right; eexists];
  intros ? ? [? ? ? ? ? Hmode ? ?]; simplify_eq.
Lemma verifyExtension_cases env bid xid p c s r s' :
  verifyExtensionPayment yearMonth env bid xid p c s = (r, s') ->
  (s' = s /\ (forall x b, ~ extensionAccepted env bid xid p c s x b) /\
   (r = Ok None \/ exists e, r = Throw e)) \/
  (exists x b inv, extensionAccepted env bid xid p c s x b /\
    s' = extended bid xid (xp_razorpayPaymentId p) x b (ledger_after env bid xid x b s) inv s /\
    (r = Ok (Some (te_requestedEndDate x)) \/
     exists e, r = Throw e /\ (xe_notifyCustomer env = Throw e \/ xe_notifyVendor env = Throw e))).
Proof.
  intros H. unfold verifyExtensionPayment in H. step_in H.
  destruct (xs_extensions s !! xid) as [x|] eqn:Hx; [|refused H]. step_in H.
  destruct (String.eqb_spec (te_bookingId x) bid) as [Hbid|Hbid]; [|refused H]. step_in H.
  destruct (xs_booking bid s) as [b|] eqn:Hb; [|refused H]. step_in H.
  destruct (String.eqb_spec (b_customerId b) c) as [Hc|Hc]; [|refused H].
  case_bool_decide as Hst.
  { left. rewrite ret_run in H. injection H as <- <-. split_and!; [done| |by left]. intros ? ? []. congruence. }
  rewrite require_bind in H. destruct (xe_production env && pe_useMock (xe_pay env)) eqn:Em; simpl in H.
  { refused H. apply andb_true_iff in Em as [E1 E2]. rewrite Hmode in E2; done. }
  rewrite require_bind in H. destruct (signatureValid env p) eqn:Es.
  2: { refused H. unfold signatureValid, paymentBody in Es. apply orb_false_iff in Es as [E1 E2%String.eqb_neq]. auto. }
  assert (forall F, (forall j y, ls_bookings (xs_core s) !! j = Some y -> j <> bid -> b_carId y = b_carId b ->
    competing (b_status y) = true -> b_endDate y <= te_currentEndDate x \/ te_requestedEndDate x <= b_startDate y) <-> F ->
    F -> extensionAccepted env bid xid p c s x b) as Hacc.
  { intros F HF f. split; [done..| | |by apply HF].
    - intros E. rewrite E in Em. done.
    - intros E. unfold signatureValid, paymentBody in Es. rewrite E in Es. by apply String.eqb_eq. }
  pose proof (conflict_free (b_carId b) bid (te_currentEndDate x) (te_requestedEndDate x) s) as Hfree.
  rewrite bind_run in H. unfold transaction in H. rewrite (confirmExtension_run env bid xid x b _ s Hx Hb) in H.
  destruct (conflictingBooking _ _ _ _ s) eqn:Ec.
  - left. injection H as <- <-. split_and!; [done| |by right; eexists]. intros x' b' [? ? ? _ _ _ _ Hf]. simplify_eq.
    apply Hfree in Hf. congruence.
  - right. specialize (Hacc _ (iff_sym Hfree) eq_refl). rewrite bind_run in H.
    destruct (invoice_kept (xe_pay env) bid (extended bid xid (xp_razorpayPaymentId p) x b
      (ledger_after env bid xid x b s) (ps_invoices (xs_pay s)) s)) as [inv Hi].
    rewrite Hi in H. apply notify_run in H as [-> Hr]. by exists x, b, inv.
Qed.
End verification.
