(* ===== verification/ExtensionSafety.v ===== *)
(** * Trip extensions over time

    What [TripExtensions] keeps: extensions that are verified in order book no
    vehicle twice, together with every other request on bookings; what the
    customer pays for an extension is what its journal posts; and the runs in
    which the code does not do what it means to. *)
From S2P Require Import Prelude JsNumber Decimal Schema Ledger Wallet Locks HandoverOtp PaymentRefund Outbox BookingStore.
From S2P Require Import CancellationPolicy BookingLifecycle LifecycleMoney Payments PaymentOrders PaymentWebhook FareCalculator.
From S2P Require Import Coupons Quotes BookingCreation Reservations TripExtensions.
Open Scope Z_scope.

(** ** Extensions and the book of reservations *)
Section system.
Context {R : Type} {redis : Redis R} {col : NumericColumn} {dec : DecimalArith} {num : DecimalNumbers}.
Context {bcrypt : Bcrypt}.
Variable yearMonth : Z -> string.
Implicit Types s : ExtStore R.

Definition xs_slots s : gmap string Slot := sales_slots (xs_sales s).

Inductive ext_request : Type :=
  | ExtOther (q : request)
  | ExtQuote (env : ExtEnv) (bookingId : string) (requested : option Z) (userId : string) (role : Role)
  | ExtCreate (env : ExtEnv) (bookingId : string) (requested : option Z) (customerId : string)
  | ExtVerify (env : ExtEnv) (bookingId extensionId : string) (p : ExtensionPayment) (customerId : string).
Definition ext_serve (q : ext_request) : M (ExtStore R) unit :=
  match q with
  | ExtOther q => zoom xs_sales set_xs_sales (serve yearMonth q)
  | ExtQuote env id requested userId role => getQuote env id requested userId role ;; mret tt
  | ExtCreate env id requested customerId => createExtension env id requested customerId ;; mret tt
  | ExtVerify env id xid p customerId => verifyExtensionPayment yearMonth env id xid p customerId ;; mret tt
  end.

(** What the code leaves to chance: an extension is verified only while it
    still lengthens the booking. *)
Definition in_order (q : ext_request) s : Prop :=
  match q with
  | ExtVerify _ bid xid _ _ => forall x b, xs_extensions s !! xid = Some x -> xs_booking bid s = Some b ->
      b_endDate b <= te_requestedEndDate x
  | _ => True
  end.
Definition ext_step s s' : Prop := exists q r, in_order q s /\ ext_serve q s = (r, s').

(** The bookings an extension looks at: the active ones but those whose car is
    being returned. *)
Definition unreturned (st : BookingStatus) : bool := active st && negb (bool_decide (st = BS_RETURN_PENDING)).
Lemma unreturned_active st : unreturned st = true -> active st = true.
Proof. by intros [? _]%andb_true_iff. Qed.
Lemma unreturned_entry cur target : target ∈ matrix cur -> unreturned target = true -> unreturned cur = true.
Proof. intros Hm Ha. destruct cur, target; simpl in *; try done; exfalso; set_solver. Qed.

(** Every extension starts within the booking it extends, every booking ends
    after it starts. *)
Definition rows_ok s : Prop :=
  (forall xid x, xs_extensions s !! xid = Some x ->
     exists y, xs_slots s !! te_bookingId x = Some y /\ te_currentEndDate x <= sl_end y) /\
  (forall id y, xs_slots s !! id = Some y -> sl_start y < sl_end y).
(** Slots stay, and none ends earlier. *)
Definition lasts (B B' : gmap string Slot) : Prop :=
  forall id y, B !! id = Some y -> exists y', B' !! id = Some y' /\ sl_end y <= sl_end y'.

Lemma getQuote_readonly env bid t u role : readonly (getQuote (R:=R) env bid t u role).
Proof.
  intros x. unfold getQuote, validateExtensionAvailability. cbv zeta. apply preserves_bind; [auto with preserves|intros ?].
  do 7 (apply preserves_bind; [auto with preserves|intros ?]). apply preserves_bind; auto 10 with preserves.
Qed.

(** Requests other than verifications keep the times of the slots. *)
Lemma book_step_lasts B B' : ActiveBook.step B B' -> lasts B B'.
Proof.
  intros [B'' [|i x t Hx _ _]|i x Hn _ _ _] id y Hy; [by exists y| |].
  - destruct (decide (i = id)) as [->|Hne]; [|exists y; by rewrite lookup_insert_ne].
    exists (with_status t x). rewrite lookup_insert_eq. split; [done|]. simpl. by replace y with x by congruence.
  - exists y. rewrite lookup_insert_ne; [done|]. intros ->. congruence.
Qed.
Lemma book_step_timed B B' : ActiveBook.step B B' -> (forall id y, B !! id = Some y -> sl_start y < sl_end y) ->
  forall id y, B' !! id = Some y -> sl_start y < sl_end y.
Proof.
  intros [B'' [|i x t Hx _ _]|i x Hn _ Ht _] HB id y Hy; [by eapply HB| |];
    (destruct (decide (i = id)) as [->|Hne]; [rewrite lookup_insert_eq in Hy; injection Hy as <-
                                              |rewrite lookup_insert_ne in Hy by done; by eapply HB]); [|done].
  exact (HB _ _ Hx).
Qed.
Lemma lasts_refl B : lasts B B.
Proof. intros id y H. by exists y. Qed.
Lemma lasts_trans B1 B2 B3 : lasts B1 B2 -> lasts B2 B3 -> lasts B1 B3.
Proof. intros H1 H2 id y (y1 & Hy & ?)%H1. apply H2 in Hy as (y2 & ? & ?). exists y2. split; [done|lia]. Qed.

Lemma extended_slots bid xid pid x b L inv s : xs_slots (extended bid xid pid x b L inv s) =
  <[bid := slot (with_endDate (te_requestedEndDate x) b)]> (xs_slots s).
Proof. apply (fmap_insert slot). Qed.

Lemma createExtension_cases env bid t c s r s' : createExtension env bid t c s = (r, s') ->
  s' = s \/ exists q oid b, getQuote env bid t c ROLE_CUSTOMER s = (Ok q, s) /\ xs_booking bid s = Some b /\
    s' = set_extension (xe_freshId env) (extensionRow env q oid) s.
Proof.
  unfold createExtension. rewrite bind_run. destruct (getQuote env bid t c ROLE_CUSTOMER s) as [[q|e] s1] eqn:E;
    pose proof (readonly_eq _ _ _ _ (getQuote_readonly _ _ _ _ _) E) as ->; [|intros [= _ <-]; by left].
  intros H. step_in H. destruct (xs_booking bid s) as [b|] eqn:Hb; [|injection H as _ <-; by left].
  cbv zeta in H. rewrite bind_run in H. unfold extensionOrder in H. rewrite require_bind in H.
  destruct (negb _); [|injection H as _ <-; by left].
  destruct (negb _ && _); [destruct (pe_createOrder _ _) as [oid|]|]; step_in H; injection H as _ <-;
    try (by left); right; exists q; eexists; exists b; done.
Qed.

(** The quote of an extension is about the booking as it is. *)
Lemma getQuote_Ok env bid t u role s q s' : getQuote (R:=R) env bid t u role s = (Ok q, s') ->
  exists b car offer, xs_booking bid s = Some b /\ b_status b = BS_ONGOING /\
    car_of (b_carId b) (xs_sales s) = Some car /\ offer_of (b_carId b) (xs_sales s) = Some offer /\
    conflictingBooking (b_carId b) bid (b_endDate b) (eq_requestedEndDate q) s = false /\
    t = Some (eq_requestedEndDate q) /\ b_endDate b < eq_requestedEndDate q /\
    let ms := eq_requestedEndDate q - b_endDate b in
    let f := calculateFare 0 (extraBasePrice (xs_tripType s bid) offer (extraHoursOf ms) (extraDaysOf ms)) 0
      (resolveCommissionPercent (ct_commission (sl_catalog (xs_sales s))) (xe_commission env)
        (cf_vendorCity offer) (car_type car) (xs_tripType s bid)) (extraDaysOf ms) 0 0 18 None in
    (eq_bookingId q = bid /\ eq_currentEndDate q = b_endDate b) /\
    eq_baseFare q = rnd (fd_baseFare f) /\ eq_platformFee q = rnd (fd_platformFee f) /\
    eq_gstAmount q = rnd (fd_gst f) /\ eq_totalFare q = rnd (fd_total f) /\ eq_netToVendor q = rnd (fd_netToVendor f).
Proof.
  intros H. unfold getQuote in H. step_in H. destruct (xs_booking bid s) as [b|] eqn:Hb; [|done]. step_in H.
  destruct (negb (_ && _)); [|done]. step_in H. destruct (bool_decide_reflect (b_status b = BS_ONGOING)); [|done].
  step_in H. destruct t as [t|]; [|done]. step_in H. destruct (Z.leb_spec t (b_endDate b)); [done|]. simpl in H.
  step_in H. destruct (car_of _ _) as [car|] eqn:Hcar; [|done]. step_in H.
  destruct (offer_of _ _) as [offer|] eqn:Ho; [|done]. unfold validateExtensionAvailability in H. step_in H.
  destruct (negb (existsb _ _)); [|done]. step_in H.
  destruct (conflictingBooking _ _ _ _ s) eqn:Ec; [done|]. simpl in H. injection H as <- <-.
  exists b, car, offer. simpl. split_and!; done.
Qed.

(** A verified extension takes time that is free. *)
Lemma extended_exclusive env bid xid p c s x b L inv : extensionAccepted env bid xid p c s x b ->
  ActiveBook.exclusive_among unreturned (xs_slots s) -> rows_ok s ->
  ActiveBook.exclusive_among unreturned (xs_slots (extended bid xid (xp_razorpayPaymentId p) x b L inv s)).
Proof.
  intros [Hx Hbid Hb _ _ _ _ Hfree] Hex Hok. rewrite extended_slots. destruct Hok as [Hok Htime]. destruct (Hok _ _ Hx) as (y0 & Hy0 & Hcur).
  assert (xs_slots s !! bid = Some (slot b)) as Hsl
    by (unfold xs_slots, sales_slots; rewrite lookup_slots; unfold xs_booking, xs_core in Hb; by rewrite Hb).
  rewrite Hbid, Hsl in Hy0. injection Hy0 as <-. simpl in Hcur.
  apply ActiveBook.update_among; [done|]. intros Ha j y Hne Hj Hcar Hy. simpl in *.
  pose proof (Htime _ _ Hj) as Hlt. pose proof (Hex bid j (slot b) y ltac:(done) Hsl Hj Ha Hy ltac:(done)) as Hap.
  unfold xs_slots, sales_slots in Hj. rewrite lookup_slots in Hj.
  destruct (ls_bookings (sales_core (xs_sales s)) !! j) as [b'|] eqn:Eb; [|done]. injection Hj as <-.
  unfold ReservationBook.apart in *. simpl in *.
  assert (b_endDate b' <= te_currentEndDate x \/ te_requestedEndDate x <= b_startDate b') as Hnew; [|simpl in Hlt; lia].
  apply (Hfree j); try done. by destruct (b_status b').
Qed.

Lemma slot_of s id b : xs_booking id s = Some b -> xs_slots s !! id = Some (slot b).
Proof. intros H. unfold xs_slots, sales_slots. rewrite lookup_slots. unfold xs_booking, xs_core in H. by rewrite H. Qed.

Lemma extended_lasts env bid xid p c s x b L inv : extensionAccepted env bid xid p c s x b ->
  b_endDate b <= te_requestedEndDate x -> lasts (xs_slots s) (xs_slots (extended bid xid (xp_razorpayPaymentId p) x b L inv s)).
Proof.
  intros [_ _ Hb _ _ _ _ _] Hle id y Hy. rewrite extended_slots. destruct (decide (bid = id)) as [<-|Hne].
  - rewrite (slot_of _ _ _ Hb) in Hy. injection Hy as <-. eexists. rewrite lookup_insert_eq. by split.
  - exists y. by rewrite lookup_insert_ne.
Qed.

Lemma ext_step_safe s s' : ext_step s s' -> ActiveBook.exclusive_among unreturned (xs_slots s) -> rows_ok s ->
  ActiveBook.exclusive_among unreturned (xs_slots s') /\ rows_ok s' /\ lasts (xs_slots s) (xs_slots s').
Proof.
  intros (q & r & Hord & H) Hex Hok. pose proof Hok as [Hrows Htime].
  assert (forall A (m : M (ExtStore R) A) x, (m ;; mret tt) s = (r, x) -> exists r0, m s = (r0, x)) as Hdrop.
  { intros A m x E. rewrite bind_run in E. destruct (m s) as [[a|e] t]; injection E as _ <-; by eexists. }
  destruct q as [q|env bid t u role|env bid t c|env bid xid p c]; simpl in H.
  - apply zoom_run in H as (t & H & ->).
    assert (ActiveBook.step (xs_slots s) (xs_slots (set_xs_sales t s))) as Hst
      by (apply (system_step_book yearMonth); by exists q, r).
    split; [exact (ActiveBook.step_among _ _ _ unreturned_active unreturned_entry Hst Hex)|]. pose proof (book_step_lasts _ _ Hst) as Hl.
    split; [|done]. split; [|by apply (book_step_timed _ _ Hst)].
    intros xid x (y & Hy & Hle)%Hrows. apply Hl in Hy as (y' & Hy' & ?). exists y'. split; [done|lia].
  - apply Hdrop in H as (r0 & H). rewrite (readonly_eq _ _ _ _ (getQuote_readonly _ _ _ _ _) H).
    split_and!; [done..|apply lasts_refl].
  - apply Hdrop in H as (r0 & H). apply createExtension_cases in H as [->|(q & oid & b & Hq & Hb & ->)];
      [split_and!; [done..|apply lasts_refl]|].
    apply getQuote_Ok in Hq as (b' & _ & _ & Hb' & _ & _ & _ & _ & _ & _ & [E1 E2] & _). simplify_eq.
    split_and!; [done| |apply lasts_refl]. split; [|done]. intros xid x. simpl.
    destruct (decide (xe_freshId env = xid)) as [<-|Hne]; [rewrite lookup_insert_eq|rewrite lookup_insert_ne by done; apply Hrows].
    intros [= <-]. exists (slot b'). simpl. rewrite E2. split; [by apply slot_of|done].
  - apply Hdrop in H as (r0 & H). apply verifyExtension_cases in H as [(-> & _)|(x & b & inv & Hacc & -> & _)];
      [split_and!; [done..|apply lasts_refl]|].
    pose proof (extended_exclusive _ _ _ _ _ _ _ _ (ledger_after env bid xid x b s) inv Hacc Hex Hok) as Hex'.
    pose proof Hacc as [Hx Hbid Hb _ _ _ _ _]. pose proof (Hord x b Hx Hb) as Hle.
    pose proof (extended_lasts _ _ _ _ _ _ _ _ (ledger_after env bid xid x b s) inv Hacc Hle) as Hl.
    split_and!; [done| |done]. split.
    + intros xid' x' Hx'. assert (exists x0, xs_extensions s !! xid' = Some x0 /\ te_bookingId x' = te_bookingId x0 /\
        te_currentEndDate x' = te_currentEndDate x0) as (x0 & Hx0 & -> & ->).
      { simpl in Hx'. destruct (decide (xid = xid')) as [<-|Hne].
        - rewrite lookup_insert_eq in Hx'. injection Hx' as <-. by exists x.
        - rewrite lookup_insert_ne in Hx' by done. by exists x'. }
      destruct (Hrows _ _ Hx0) as (y & Hy & Hle'). apply Hl in Hy as (y' & Hy' & ?). exists y'. split; [done|lia].
    + intros id y. rewrite extended_slots. destruct (decide (bid = id)) as [<-|Hne];
        [rewrite lookup_insert_eq; intros [= <-]|rewrite lookup_insert_ne by done; apply Htime].
      pose proof (Htime _ _ (slot_of _ _ _ Hb)). simpl in *. lia.
Qed.

(** C7. Extensions do not double book.  Through any sequence of requests on
    bookings (quotes, creations, payments, webhooks, transitions) and of
    quotes, orders and verifications of extensions, as long as an extension is
    only verified while it still lengthens its booking, no two bookings of a
    car that are pending, confirmed, ready or ongoing overlap, and no booking
    ends earlier than it did.  Bookings whose car is being returned are the
    ones the check of an extension does not look at. *)
Theorem extensions_keep_cars_exclusive s s' (H0 : ActiveBook.exclusive_among unreturned (xs_slots s)) (Hrows : rows_ok s)
    (H : rtc ext_step s s') :
  ActiveBook.exclusive_among unreturned (xs_slots s') /\ rows_ok s' /\ lasts (xs_slots s) (xs_slots s').
Proof.
  revert H0 Hrows. induction H as [t|t t1 t' Hs _ IH]; intros H0 Hrows; [split_and!; [done..|apply lasts_refl]|].
  destruct (ext_step_safe _ _ Hs H0 Hrows) as (H1 & H2 & H3). destruct (IH H1 H2) as (? & ? & ?).
  split_and!; [done..|by eapply lasts_trans].
Qed.
End system.

(** ** What the extension costs and what is posted *)
Section money.
Context {R : Type} {redis : Redis R} {col : NumericColumn} {dec : DecimalArith} {num : DecimalNumbers}.
Implicit Types s : ExtStore R.
Open Scope Q_scope.

Lemma whole_paise_times q n : whole_paise q -> whole_paise (q * inject_Z n).
Proof. intros [m Hm]. exists (m * n)%Z. rewrite Hm, inject_Z_mult. field. Qed.

(** The platform's share of a fare that is not free covers the rounding of
    total and tax. *)
Lemma share_covers_rounding B P G T : whole_paise B -> 0 < B -> B <= 10000000 -> 0 <= G ->
  P == 0 /\ G == 0 /\ T == B \/ (1 # 10000000) <= P /\ Qabs (T - (B + P + G)) <= (1 # 100000000) ->
  to_places2 B + to_places2 G <= to_places2 T.
Proof.
  intros HB Hpos Hmax HG Hcase. rewrite (to_places2_exact B HB).
  destruct Hcase as [(_ & HG0 & HT)|[HP HT]].
  - rewrite (to_places2_proper _ _ HT), (to_places2_proper _ _ HG0), (to_places2_exact B HB),
      (to_places2_exact 0 whole_paise_0). lra.
  - apply Qabs_Qle_condition in HT as [HT1 HT2]. pose proof (to_places2_err T) as ET. pose proof (to_places2_err G) as EG.
    apply Qabs_Qle_condition in ET as [ET1 _], EG as [_ EG2].
    assert (whole_paise (B + to_places2 G - to_places2 T)) as Hw by auto 10 with dec.
    apply (whole_paise_le _ 0) in Hw.
    + assert (inject_Z 0 / 100 == 0) as E0 by reflexivity. rewrite E0 in Hw. lra.
    + assert ((inject_Z 0 + 1) / 100 == 1 # 100) as -> by reflexivity. lra.
Qed.

Lemma dec_round_to q v : q == v -> whole_paise v -> Qabs v <= 100000000000 -> dec_round q == v.
Proof. intros E Hw Hb. rewrite dec_round_exact; rewrite E; [reflexivity|done|lra]. Qed.
Lemma whole_paise_pos q : whole_paise q -> 0 < q -> 1 # 100 <= q.
Proof.
  intros Hw Hq. apply Qnot_lt_le. intros H. apply (whole_paise_le _ 0) in Hw.
  - assert (inject_Z 0 / 100 == 0) as E by reflexivity. rewrite E in Hw. lra.
  - assert ((inject_Z 0 + 1) / 100 == 1 # 100) as -> by reflexivity. done.
Qed.

(** Fee, tax and total before they are rounded to paise. *)
Lemma extension_parts B comm : whole_paise B -> 0 < B -> B <= 10000000 ->
  whole_paise comm -> 0 <= comm -> comm <= 100 ->
  let P := dec_mul B (dec_div comm 100) in let G := dec_mul P (dec_div 18 100) in
  let T := dec_add (dec_add B P) G in
  0 <= P /\ P <= 11000000 /\ 0 <= G /\ G <= 2200000 /\
  (P == 0 /\ G == 0 /\ T == B \/ (1 # 10000000) <= P /\ Qabs (T - (B + P + G)) <= (1 # 100000000)).
Proof.
  intros HB Hpos Hmax Hc Hc0 Hc1. cbv zeta. destruct (dec_percent comm Hc0 Hc1) as [Hcc0 Hcc1].
  assert (dec_div 18 100 == 18 # 100) as Er
    by (apply dec_round_to; [reflexivity|by exists 18%Z|vm_compute; discriminate]).
  set (r := dec_div 18 100) in *. pose proof (dec_round_err (comm / 100)) as Hce.
  assert (comm / 100 == comm * (1 # 100)) as Ec by field.
  assert (Qabs (comm / 100) == comm * (1 # 100)) as Ea by (rewrite Ec; apply Qabs_pos; lra). rewrite Ea in Hce.
  change (dec_round (comm / 100)) with (dec_div comm 100) in Hce.
  assert (comm == 0 -> dec_div comm 100 == 0) as Hzero.
  { intros E. apply dec_round_to; [rewrite E; reflexivity|apply whole_paise_0|vm_compute; discriminate]. }
  set (c := dec_div comm 100) in *. apply Qabs_Qle_condition in Hce as [Hce1 _].
  assert (0 <= B * c) as Hbc0 by (apply Qmult_le_0_compat; lra).
  assert (B * c <= 10000001) as Hbc1 by nra.
  pose proof (dec_round_nonneg _ Hbc0) as HP0. assert (Qabs (B * c) <= 10000001) as Ha by (by rewrite Qabs_pos).
  pose proof (dec_round_near _ _ Ha) as HPn. apply Qabs_Qle_condition in HPn as [HP1 HP2].
  change (dec_round (B * c)) with (dec_mul B c) in *. set (P := dec_mul B c) in *.
  assert (0 <= P * r) as Hpr0 by (apply Qmult_le_0_compat; lra).
  assert (P * r <= 2000000) as Hpr1 by (rewrite Er; lra).
  pose proof (dec_round_nonneg _ Hpr0) as HG0. assert (Qabs (P * r) <= 2000000) as Hb by (by rewrite Qabs_pos).
  pose proof (dec_round_near _ _ Hb) as HGn. apply Qabs_Qle_condition in HGn as [_ HG2].
  change (dec_round (P * r)) with (dec_mul P r) in *.
  assert (P == 0 -> dec_mul P r == 0) as HGz.
  { intros E. apply dec_round_to; [rewrite E; ring|apply whole_paise_0|vm_compute; discriminate]. }
  set (G := dec_mul P r) in *. split_and!; [done|lra|done|lra|].
  destruct (Qlt_le_dec 0 comm) as [Hcpos|Hcz].
  - right. pose proof (whole_paise_pos _ Hc Hcpos). pose proof (whole_paise_pos _ HB Hpos).
    assert (999 # 10000000 <= c) as Hclow by lra. assert ((1 # 100) * (999 # 10000000) <= B * c) as Hlow by nra.
    split; [lra|]. unfold dec_add.
    assert (Qabs (B + P) <= 30000000) as H1 by (rewrite Qabs_pos; lra).
    pose proof (dec_round_near _ _ H1) as H1n. pose proof (dec_round_nonneg (B + P) ltac:(lra)) as H1p.
    set (S1 := dec_round (B + P)) in *. apply Qabs_Qle_condition in H1n as [? ?].
    assert (Qabs (S1 + G) <= 40000000) as Hs by (rewrite Qabs_pos; lra).
    pose proof (dec_round_near _ _ Hs) as H2n. apply Qabs_Qle_condition in H2n as [? ?].
    apply Qabs_Qle_condition. split; lra.
  - left. assert (comm == 0) as Ez by lra. specialize (Hzero Ez).
    assert (P == 0) as EP by (apply dec_round_to; [rewrite Hzero; ring|apply whole_paise_0|vm_compute; discriminate]).
    specialize (HGz EP). split_and!; [done..|].
    assert (Qabs B <= 100000000000) as HBa by (rewrite Qabs_pos; lra).
    unfold dec_add. assert (dec_round (B + P) == B) as E1 by (apply dec_round_to; [rewrite EP; ring|done|done]).
    apply dec_round_to; [rewrite E1, HGz; ring|done|done].
Qed.

Lemma extension_fare price n comm days :
  whole_paise price -> 0 < price * inject_Z n -> price * inject_Z n <= 10000000 ->
  whole_paise comm -> 0 <= comm -> comm <= 100 ->
  let f := calculateFare 0 (dec_mul price (inject_Z n)) 0 comm days 0 0 18 None in
  fd_baseFare f == price * inject_Z n /\ fd_netToVendor f = fd_baseFare f /\ 0 <= fd_gst f /\
  fd_baseFare f + fd_gst f <= fd_total f /\ fd_total f <= 50000000 /\ 0 <= fd_platformFee f /\
  fd_platformFee f <= 50000000.
Proof.
  intros Hw Hpos Hmax Hc Hc0 Hc1. unfold calculateFare.
  assert (fareDiscountPercent days 0 0 None = 0) as ->.
  { unfold fareDiscountPercent. assert (js_lt 0 0 = false) as -> by reflexivity. by rewrite !andb_false_r. }
  change (d_gt 0 0) with false. cbv iota zeta. cbn [fd_baseFare fd_platformFee fd_gst fd_total fd_netToVendor].
  pose proof (whole_paise_times _ n Hw) as HB0. set (B0 := price * inject_Z n) in *.
  assert (Qabs B0 <= 10000000) as Habs by (rewrite Qabs_pos; lra).
  assert (dec_mul price (inject_Z n) == B0) as E1 by (apply dec_round_exact; [done|fold B0; lra]).
  assert (dec_mul 0 0 == 0) as E2 by (apply dec_round_exact; [apply whole_paise_0|vm_compute; discriminate]).
  set (B := dec_add (dec_mul 0 0) (dec_mul price (inject_Z n))).
  assert (B == B0) as EB.
  { assert (dec_mul 0 0 + dec_mul price (inject_Z n) == B0) as E by (rewrite E1, E2; ring).
    unfold B, dec_add. rewrite dec_round_exact; [done|by rewrite E|rewrite E; lra]. }
  assert (whole_paise B) as HB by (by rewrite EB).
  destruct (extension_parts B comm HB ltac:(lra) ltac:(lra) Hc Hc0 Hc1) as (HP0 & HP1 & HG0 & HG1 & Hcase).
  set (P := dec_mul B (dec_div comm 100)) in *. set (G := dec_mul P (dec_div 18 100)) in *.
  set (T := dec_add (dec_add B P) G) in *.
  pose proof (share_covers_rounding B P G T HB ltac:(lra) ltac:(lra) HG0 Hcase) as Hcov.
  pose proof (to_places2_err T) as ET. pose proof (to_places2_err P) as EP.
  apply Qabs_Qle_condition in ET as [_ ET], EP as [_ EP].
  split_and!; [by rewrite to_places2_exact|done|by apply to_places2_nonneg|done| |by apply to_places2_nonneg|lra].
  destruct Hcase as [(_ & _ & HT)|[_ HT]]; [lra|]. apply Qabs_Qle_condition in HT as [_ HT]. lra.
Qed.

(** The price of the added time and the commission are column values, and the
    price is positive and at most ten million rupees. *)
Definition extensionPrice (t : TripType) (offer : CarOffer) (ms : Z) : Q :=
  if hourly t then cf_pricePerHour offer * inject_Z (extraHoursOf ms) else cf_pricePerDay offer * inject_Z (extraDaysOf ms).
Definition priced (env : ExtEnv) (bid : string) (requested : option Z) s : Prop :=
  forall b car offer t, xs_booking bid s = Some b -> car_of (b_carId b) (xs_sales s) = Some car ->
    offer_of (b_carId b) (xs_sales s) = Some offer -> requested = Some t ->
    let comm := resolveCommissionPercent (ct_commission (sl_catalog (xs_sales s))) (xe_commission env)
      (cf_vendorCity offer) (car_type car) (xs_tripType s bid) in
    whole_paise comm /\ 0 <= comm /\ comm <= 100 /\
    whole_paise (cf_pricePerHour offer) /\ whole_paise (cf_pricePerDay offer) /\
    0 < extensionPrice (xs_tripType s bid) offer (t - b_endDate b) /\
    extensionPrice (xs_tripType s bid) offer (t - b_endDate b) <= 10000000.

(** What [createExtension] writes. *)
Lemma createExtension_Ok env bid t c s o s' : createExtension env bid t c s = (Ok o, s') ->
  exists q, getQuote env bid t c ROLE_CUSTOMER s = (Ok q, s) /\ eo_extensionId o = xe_freshId env /\
    eo_amountInPaise o = js_round (js_mul (eq_totalFare q) 100) /\ eo_amount o = eq_totalFare q /\
    s' = set_extension (xe_freshId env) (extensionRow env q (eo_orderId o)) s.
Proof.
  intros H. unfold createExtension in H. apply bind_Ok in H as (q & s1 & Hq & H).
  pose proof (readonly_eq _ _ _ _ (getQuote_readonly _ _ _ _ _) Hq) as ->. step_in H.
  destruct (xs_booking bid s); [|done]. cbv zeta in H. apply bind_Ok in H as (oid & s1 & Ho & H).
  assert (s1 = s) as -> by (revert Ho; unfold extensionOrder; rewrite require_bind; repeat case_match; by intros [= _ <-]).
  step_in H. injection H as <- <-. exists q. by split_and!.
Qed.

Lemma extensionLines_post now fid bid vid xid x L :
  whole_paise (te_netToVendor x) -> whole_paise (te_platformFee x) -> whole_paise (te_gstAmount x) ->
  whole_paise (te_totalFare x) -> 0 < te_netToVendor x -> 0 <= te_gstAmount x ->
  te_netToVendor x + te_gstAmount x <= te_totalFare x -> te_totalFare x <= 100000000 ->
  keys_fresh (Some (extensionKey xid)) 0 L ->
  let lines := extensionLines bid vid x in
  side_total DEBIT lines == te_totalFare x /\ side_total CREDIT lines == te_totalFare x /\
  exists entries, recordJournal now fid true (extensionJournal bid vid xid x) L =
    (Ok {| jr_journalId := "jrn_" +:+ fid; jr_entries := entries; jr_isDuplicate := false |}, L ++ entries).
Proof.
  intros Wn Wp Wg Wt Hn Hg Hsum Hmax Hk lines.
  set (adj := te_platformFee x + (te_totalFare x - (te_netToVendor x + te_platformFee x + te_gstAmount x))).
  assert (adj == te_totalFare x - te_netToVendor x - te_gstAmount x) as Ea by (unfold adj; ring).
  assert (side_total DEBIT lines == te_totalFare x /\ side_total CREDIT lines == te_totalFare x) as [HD HC].
  { unfold lines, extensionLines. cbv zeta. fold adj. split; rewrite !side_total_app, !pushIf_side;
      unfold side_total; cbn [sum_by]; rewrite ?andb_true_r, ?andb_false_r; simpl; rewrite ?andb_true_r, ?andb_false_r.
    - ring.
    - rewrite !pushed_amount by (try rewrite Ea; lra). rewrite Ea. ring. }
  assert (Forall well_formed_line lines /\ Forall (fun l => whole_paise (li_amount l)) lines) as [Hwf Hwh].
  { assert (whole_paise adj) by (unfold adj; auto 10 with dec). unfold lines, extensionLines. cbv zeta. fold adj.
    split; apply Forall_app_2; try (apply Forall_app_2);
      try (apply pushIf_Forall; intros E; dec_bool; simpl; done || (split; simpl; [lra|eauto]));
      repeat constructor; simpl; eauto; lra. }
  split_and!; [done..|].
  destruct (recordJournal_fresh_run now fid true (extensionJournal bid vid xid x) L) as [[_ (es & _ & Hr)]|[He _]].
  - unfold rawLines, extensionJournal, extensionLines. simpl. lia.
  - exact Hwf.
  - split; [exact Hwh|]. change (rawLines _) with lines. rewrite (abs_sides _ Hwf), HD, HC. lra.
  - exact Hk.
  - by exists es.
  - destruct He. change (rawLines _) with lines. by rewrite HD, HC.
Qed.

(** What an extension costs is what is charged and what is posted.  An
    order for an extension whose price and commission are column values (the
    price up to ten million rupees) leaves a pending row in which the vendor
    is owed exactly the price of the added time, the amount of the order in
    paise is the total to the paisa, although fare, fee, tax and total are
    rounded one by one and pass through JavaScript numbers; when it is
    verified its journal always balances: it debits the gateway with the
    total and credits vendor, tax and platform with all of it. *)
Theorem extension_charge_is_posted env bid requested c s o s' (Hp : priced env bid requested s)
    (H : createExtension env bid requested c s = (Ok o, s')) :
  exists x b offer t, xs_extensions s' !! eo_extensionId o = Some x /\ te_status x = EXT_PENDING_PAYMENT /\
    xs_booking bid s = Some b /\ offer_of (b_carId b) (xs_sales s) = Some offer /\ requested = Some t /\
    te_bookingId x = bid /\ te_currentEndDate x = b_endDate b /\ te_requestedEndDate x = t /\
    te_netToVendor x == extensionPrice (xs_tripType s bid) offer (t - b_endDate b) /\
    te_totalFare x == inject_Z (eo_amountInPaise o) / 100 /\ te_netToVendor x + te_gstAmount x <= te_totalFare x /\
    forall now fid vid L, keys_fresh (Some (extensionKey (eo_extensionId o))) 0 L ->
      let lines := extensionLines bid vid x in
      side_total DEBIT lines == te_totalFare x /\ side_total CREDIT lines == te_totalFare x /\
      exists entries, recordJournal now fid true (extensionJournal bid vid (eo_extensionId o) x) L =
        (Ok {| jr_journalId := "jrn_" +:+ fid; jr_entries := entries; jr_isDuplicate := false |}, L ++ entries).
Proof.
  apply createExtension_Ok in H as (q & Hq & -> & Epaise & _ & ->).
  apply getQuote_Ok in Hq as (b & car & offer & Hb & _ & Hcar & Ho & _ & -> & _ & [Eid Ecur] & E1 & E2 & E3 & E4 & E5).
  set (t := eq_requestedEndDate q) in *. set (ms := (t - b_endDate b)%Z) in *.
  destruct (Hp b car offer t Hb Hcar Ho eq_refl) as (Wc & C0 & C1 & Wh & Wd & Hpos & Hmax).
  set (comm := resolveCommissionPercent _ _ _ _ _) in *. unfold extensionPrice in *. fold ms in Hpos, Hmax |- *.
  set (f := calculateFare _ _ _ _ _ _ _ _ _) in *.
  set (price := if hourly (xs_tripType s bid) then cf_pricePerHour offer * inject_Z (extraHoursOf ms)
                else cf_pricePerDay offer * inject_Z (extraDaysOf ms)) in *.
  assert (fd_baseFare f == price /\ fd_netToVendor f = fd_baseFare f /\ 0 <= fd_gst f /\
    fd_baseFare f + fd_gst f <= fd_total f /\ fd_total f <= 50000000 /\ 0 <= fd_platformFee f /\
    fd_platformFee f <= 50000000) as (F1 & F2 & F3 & F4 & F5 & F6 & F7).
  { unfold f, price, extraBasePrice in *. destruct (hourly _); by apply extension_fare. }
  assert (forall v, whole_paise v -> 0 <= v -> v <= 100000000 -> store (of_number (rnd v)) == v) as Hrt.
  { intros v Hw H0 H1. assert (of_number (rnd v) == v) as E by (apply number_roundtrip; [done|rewrite Qabs_pos; lra]).
    rewrite store_exact; rewrite E; [reflexivity|done]. }
  exists (extensionRow env q (eo_orderId o)), b, offer, t. simpl. rewrite lookup_insert_eq.
  rewrite E3, E4, E5. assert (whole_paise (fd_netToVendor f)) by apply to_places2_whole.
  assert (store (of_number (rnd (fd_netToVendor f))) == price) as Rn by (rewrite F2, Hrt; [done|by rewrite <- F2|lra|lra]).
  assert (store (of_number (rnd (fd_gst f))) == fd_gst f) as Rg by (apply Hrt; [apply to_places2_whole|lra|lra]).
  assert (store (of_number (rnd (fd_total f))) == fd_total f) as Rt by (apply Hrt; [apply to_places2_whole|lra|lra]).
  split_and!; try done.
  - rewrite Rt, Epaise, E4. symmetry. apply (toPaise_exact (fd_total f)); [apply to_places2_whole|rewrite Qabs_pos; lra].
  - rewrite Rn, Rg, Rt. lra.
  - intros now fid vid L Hk. pose proof (extensionLines_post now fid bid vid (xe_freshId env) (extensionRow env q (eo_orderId o)) L) as Hpost.
    simpl in Hpost. rewrite E3, E4, E5 in Hpost. apply Hpost; try apply store_whole; try done; lra.
Qed.
End money.

(** ** The outcome of a verification *)
Section outcome.
Context {R : Type} {col : NumericColumn} {dec : DecimalArith} {num : DecimalNumbers}.
Variable yearMonth : Z -> string.
Implicit Types s : ExtStore R.

(** C8. Verifying an extension is all or nothing.  A request to verify the
    payment of an extension either changes nothing, and then one of its
    guards failed (the extension exists, belongs to this booking and this
    customer and is not confirmed yet, no mock payments in production, the
    signature is that of the order and payment submitted, no other booking of
    the car that is pending, confirmed, ready or ongoing meets the added
    time); or all of them held, the extension is CONFIRMED with its payment,
    the booking ends when it asked, the ledger is the one its journal leaves,
    an invoice may be issued and nothing else changed, whatever becomes of
    the notifications. *)
Theorem extension_all_or_nothing env bid xid p c s r s'
    (H : verifyExtensionPayment yearMonth env bid xid p c s = (r, s')) :
  (s' = s /\ (forall x b, ~ extensionAccepted env bid xid p c s x b) /\ (r = Ok None \/ exists e, r = Throw e)) \/
  (exists x b inv, extensionAccepted env bid xid p c s x b /\
    s' = extended bid xid (xp_razorpayPaymentId p) x b (ledger_after env bid xid x b s) inv s /\
    (r = Ok (Some (te_requestedEndDate x)) \/
     exists e, r = Throw e /\ (xe_notifyCustomer env = Throw e \/ xe_notifyVendor env = Throw e))).
Proof. by eapply verifyExtension_cases. Qed.
End outcome.

(** ** Concrete runs *)
#[local] Existing Instance plain_bcrypt.
(** Customer "c1" drives "car1" from hour 100 to hour 200. *)
Definition riding_with (bookings : gmap string Booking) : ExtStore RedisMem :=
  {| xs_sales := sales_store (pay_store bookings ∅ (customer_wallet 0));
     xs_tripType := fun _ => TRIP_SELF_DRIVE; xs_extensions := ∅ |}.
Definition riding : ExtStore RedisMem := riding_with {["b1" := standard_rental BS_ONGOING]}.
Definition ext_env (id : string) : ExtEnv :=
  {| xe_pay := live_env 0; xe_production := true; xe_razorpay := true; xe_secret := "s";
     xe_hmac := fun k m => "hmac" +:+ k +:+ m; xe_freshId := id; xe_commission := None;
     xe_notifyCustomer := Ok tt; xe_notifyVendor := Ok tt |}.
Definition paid (order payment : string) : ExtensionPayment :=
  {| xp_razorpayOrderId := order; xp_razorpayPaymentId := payment;
     xp_razorpaySignature := "hmacs" +:+ order +:+ "|" +:+ payment |}.
Definition order_ext (id : string) (hour : Z) (s : ExtStore RedisMem) : result ExtensionOrder * ExtStore RedisMem :=
  createExtension (ext_env id) "b1" (Some (hour * HOUR)) "c1" s.
Definition confirm_ext (id : string) (s : ExtStore RedisMem) : result (option Z) * ExtStore RedisMem :=
  verifyExtensionPayment year_month (ext_env id) "b1" id (paid "order_g1" "pay_7") "c1" s.
Definition ends_at (id : string) (s : ExtStore RedisMem) : option Z := b_endDate <$> xs_booking id s.

Definition ordered_ext : result ExtensionOrder * ExtStore RedisMem := order_ext "x1" 230 riding.
Definition confirmed_run : result (option Z) * ExtStore RedisMem := confirm_ext "x1" (snd ordered_ext).

Lemma riding_priced : priced (ext_env "x1") "b1" (Some (230 * HOUR)) riding.
Proof.
  intros b car offer t H1 H2 H3 [= <-]. vm_compute in H1. injection H1 as <-. vm_compute in H2. injection H2 as <-.
  vm_compute in H3. injection H3 as <-. cbv zeta.
  split_and!; try (apply is_whole_paise_true; vm_compute; reflexivity); vm_compute; congruence.
Qed.
Lemma extension_charge_is_posted_witness : exists x, xs_extensions (snd ordered_ext) !! "x1" = Some x /\
  te_netToVendor x == 246998 # 100 /\ te_totalFare x == 283430 # 100.
Proof.
  destruct (extension_charge_is_posted (ext_env "x1") "b1" (Some (230 * HOUR)) "c1" riding
    {| eo_extensionId := "x1"; eo_orderId := "order_g1"; eo_amount := rnd (283430 # 100); eo_amountInPaise := 283430 |}
    (snd ordered_ext) riding_priced) as (x & b & offer & t & H1 & _ & Hb & Ho & Ht & _ & _ & _ & H2 & H3 & _).
  - apply (run_eq ordered_ext). vm_compute. reflexivity.
  - exists x. split; [exact H1|]. split; [|rewrite H3; reflexivity]. rewrite H2.
    vm_compute in Hb. injection Hb as <-. vm_compute in Ho. injection Ho as <-. injection Ht as <-. vm_compute. reflexivity.
Defined.
Lemma extension_all_or_nothing_witness :
  ends_at "b1" (snd confirmed_run) = Some (230 * HOUR) /\ fst confirmed_run = Ok (Some (230 * HOUR)).
Proof.
  destruct (extension_all_or_nothing year_month (ext_env "x1") "b1" "x1" (paid "order_g1" "pay_7") "c1"
    (snd ordered_ext) (Ok (Some (230 * HOUR))) (snd confirmed_run)) as [(_ & _ & [H|[e H]])|(x & b & inv & [Hx _ _ _ _ _ _ _] & -> & _)].
  - apply (run_eq confirmed_run). vm_compute. reflexivity.
  - discriminate H.
  - discriminate H.
  - split; [|vm_compute; reflexivity]. unfold ends_at, xs_booking. simpl. rewrite lookup_insert_eq.
    vm_compute in Hx. injection Hx as <-. reflexivity.
Defined.

Lemma riding_ok : ActiveBook.exclusive_among unreturned (xs_slots riding) /\ rows_ok riding.
Proof.
  assert (xs_slots riding = {["b1" := {| sl_carId := "car1"; sl_start := 100 * HOUR; sl_end := 200 * HOUR;
    sl_status := BS_ONGOING |}]}) as E by (vm_compute; reflexivity).
  split; [rewrite E; by intros i j x y Hne [<- _]%lookup_singleton_Some [<- _]%lookup_singleton_Some|]. split.
  - intros xid x H. discriminate H.
  - intros id y. rewrite E. intros [_ <-]%lookup_singleton_Some. reflexivity.
Qed.
Lemma extensions_keep_cars_exclusive_witness :
  ActiveBook.exclusive_among unreturned (xs_slots (snd confirmed_run)) /\ ends_at "b1" (snd confirmed_run) = Some (230 * HOUR).
Proof.
  split; [|vm_compute; reflexivity].
  apply (extensions_keep_cars_exclusive year_month riding (snd confirmed_run) (proj1 riding_ok) (proj2 riding_ok)).
  apply rtc_l with (snd ordered_ext).
  - exists (ExtCreate (ext_env "x1") "b1" (Some (230 * HOUR)) "c1"), (Ok tt). split; [exact I|vm_compute; reflexivity].
  - apply rtc_once. exists (ExtVerify (ext_env "x1") "b1" "x1" (paid "order_g1" "pay_7") "c1"), (Ok tt).
    split; [|vm_compute; reflexivity]. intros x b Hx Hb. vm_compute in Hx. injection Hx as <-.
    vm_compute in Hb. injection Hb as <-. vm_compute. discriminate.
Defined.

(** *** Where the code does not do what it means to *)

(** An extension bought first and paid last takes back the time of the longer
    one confirmed before it, and what was then extended from the longer end
    covers a booking another customer made in between. *)
Definition two_orders : ExtStore RedisMem := snd (order_ext "x2" 440 (snd (order_ext "x1" 210 riding))).
Definition longer : ExtStore RedisMem := snd (order_ext "x3" 450 (snd (confirm_ext "x2" two_orders))).
Definition shortened : ExtStore RedisMem := snd (confirm_ext "x1" longer).
Definition overbooked : ExtStore RedisMem :=
  snd (confirm_ext "x3" (set_xs_sales (snd (createBooking create_env "c2" (booking_dto None) (xs_sales shortened))) shortened)).
Lemma late_payment_shortens : ends_at "b1" longer = Some (440 * HOUR) /\ ends_at "b1" shortened = Some (210 * HOUR).
Proof. split; vm_compute; reflexivity. Qed.
Lemma late_payment_double_books :
  exists x y, xs_slots overbooked !! "b1" = Some x /\ xs_slots overbooked !! "b9" = Some y /\
    active (sl_status x) = true /\ active (sl_status y) = true /\ sl_carId x = sl_carId y /\
    ~ ReservationBook.apart x y.
Proof.
  destruct (xs_slots overbooked !! "b1") as [x|] eqn:Ex; [|vm_compute in Ex; discriminate Ex].
  destruct (xs_slots overbooked !! "b9") as [y|] eqn:Ey; [|vm_compute in Ey; discriminate Ey].
  exists x, y. vm_compute in Ex. vm_compute in Ey. injection Ex as <-. injection Ey as <-.
  split_and!; try done. unfold ReservationBook.apart. simpl. lia.
Qed.

(** A booking of the car whose return is being inspected is not looked at. *)
Definition being_returned : ExtStore RedisMem :=
  riding_with {["b1" := standard_rental BS_ONGOING;
                "b2" := with_endDate (300 * HOUR) (standard_rental BS_RETURN_PENDING)]}.
Lemma return_pending_is_ignored :
  ends_at "b1" (snd (confirm_ext "x1" (snd (order_ext "x1" 230 being_returned)))) = Some (230 * HOUR).
Proof. vm_compute. reflexivity. Qed.

(** One payment of any order confirms every extension of the customer: the
    order of the extension is never compared with the order that was paid. *)
Lemma one_payment_confirms_all :
  let p := paid "some_other_order" "pay_7" in
  let verify id s := verifyExtensionPayment year_month (ext_env id) "b1" id p "c1" s in
  te_razorpayOrderId <$> xs_extensions two_orders !! "x1" = Some (Some "order_g1") /\
  fst (verify "x1" two_orders) = Ok (Some (210 * HOUR)) /\
  fst (verify "x2" (snd (verify "x1" two_orders))) = Ok (Some (440 * HOUR)).
Proof. split_and!; vm_compute; reflexivity. Qed.

(** The status of the booking is not looked at again. *)
Definition completed_meanwhile : ExtStore RedisMem :=
  set_xs_core (set_booking "b1" (standard_rental BS_COMPLETED) (xs_core (snd ordered_ext))) (snd ordered_ext).
Lemma completed_booking_is_extended :
  fst (confirm_ext "x1" completed_meanwhile) = Ok (Some (230 * HOUR)).
Proof. vm_compute. reflexivity. Qed.

(** A payment that arrives after the car was booked again is refused, and
    nothing of it is kept: no row says that there is money to give back. *)
Definition booked_meanwhile : ExtStore RedisMem :=
  set_xs_core (set_booking "b2" (with_endDate (300 * HOUR) (standard_rental BS_CONFIRMED)) (xs_core (snd ordered_ext)))
    (snd ordered_ext).
Lemma refused_payment_leaves_no_trace : confirm_ext "x1" booked_meanwhile = (Throw ConflictException, booked_meanwhile).
Proof.
  assert (fst (confirm_ext "x1" booked_meanwhile) = Throw ConflictException) as E by (vm_compute; reflexivity).
  destruct (confirm_ext "x1" booked_meanwhile) as [r s'] eqn:H. simpl in E. subst r.
  destruct (verifyExtension_cases year_month (ext_env "x1") "b1" "x1" (paid "order_g1" "pay_7") "c1" booked_meanwhile
    (Throw ConflictException) s' H) as [(-> & _)|(x & b & inv & _ & _ & [Hr|(e & _ & [Hr|Hr])])];
    [reflexivity|discriminate Hr..].
Qed.

(** The "supplementary invoice" of an extension is never issued: a booking
    that is paid has its invoice, and it has only one. *)
Lemma no_supplementary_invoice env id (s : PayStore RedisMem) :
  existsb (fun i => String.eqb (inv_bookingId i) id) (ps_invoices s) = true -> is_Some (booking_of id s) ->
  generateInvoiceForBooking year_month env id s = (Ok tt, s).
Proof. intros Hi [b Hb]. unfold generateInvoiceForBooking. step. rewrite Hb. step. by rewrite Hi. Qed.
