(* ===== verification/Availability.v ===== *)
(** * The availability calendar of vehicles

    cars/vehicle-availability.service.ts: the conflicts of a period
    ([checkAvailability]), temporary holds during checkout, operational
    blocks, the timeline of a vehicle.  The tables of bookings, blocks and
    holds are those of the [SalesStore]; dates are milliseconds, [None] an
    invalid one.  Texts ([reason], [status]) are left out of the answers, and
    so are the ids of location closures and realtime messages. *)
From S2P Require Import Prelude JsNumber Decimal Schema Ledger Wallet Locks HandoverOtp PaymentRefund Outbox BookingStore.
From S2P Require Import CancellationPolicy BookingLifecycle Payments FareCalculator Coupons Quotes BookingCreation.
Open Scope Z_scope.

(** Intervals are half open: adjacent ones do not overlap. *)
Definition isIntervalOverlapping (start1 end1 start2 end2 : Z) : bool := (start1 <? end2) && (start2 <? end1).

Inductive ConflictType : Type := CT_BOOKING | CT_MAINTENANCE | CT_BLOCK | CT_HOLD | CT_LOCATION_CLOSURE.
Record AvailabilityConflict : Type := {
  ac_type : ConflictType;
  ac_id : option string;
  ac_startDate : Z;
  ac_endDate : Z;
}.
Record AvailabilityResult : Type := {
  ar_available : bool;
  ar_conflicts : list AvailabilityConflict;
}.
Record AvailabilityOptions : Type := {
  ao_excludeBookingId : option string;
  ao_actorId : option string;
  ao_hubId : option string;
}.
Definition no_options : AvailabilityOptions :=
  {| ao_excludeBookingId := None; ao_actorId := None; ao_hubId := None |}.
Inductive TimelineType : Type := TL_BOOKING | TL_MAINTENANCE | TL_BLOCK | TL_HOLD.
Record AvailabilityTimelineEntry : Type := {
  tl_type : TimelineType;
  tl_id : string;
  tl_startDate : Z;
  tl_endDate : Z;
}.

(** [va_now] is the time of the checks, [va_later] that of the release of
    the lock; [va_dayStart] and [va_dayEnd] are the local day of a time. *)
Record AvailabilityEnv : Type := {
  va_now : Z;
  va_later : Z;
  va_lockUp : bool;
  va_releaseUp : bool;
  va_token : string;
  va_freshId : string;
  va_dayStart : Z -> Z;
  va_dayEnd : Z -> Z;
}.

Section availability.
Context {R : Type} {redis : Redis R}.
Abbreviation AM := (M (SalesStore R)).

(** ** Conflicts of a period *)
Definition unavailable (startDate endDate : Z) : AvailabilityResult :=
  {| ar_available := false;
     ar_conflicts := [{| ac_type := CT_BLOCK; ac_id := None; ac_startDate := startDate; ac_endDate := endDate |}] |}.

Definition closureConflicts (env : AvailabilityEnv) (hub : option string) (startDate endDate : Z)
    (closures : list (string * Z)) : list AvailabilityConflict :=
  match truthy hub with
  | None => []
  | Some location =>
    map (fun c => {| ac_type := CT_LOCATION_CLOSURE; ac_id := None; ac_startDate := snd c; ac_endDate := snd c |})
      (List.filter (fun c => String.eqb (fst c) location && (va_dayStart env startDate <=? snd c) &&
                             (snd c <=? va_dayEnd env endDate)) closures)
  end.
Definition overlappingBookings (carId : string) (startDate endDate : Z) (exclude : option string)
    (bookings : gmap string Booking) : list (string * Booking) :=
  List.filter (fun p => String.eqb (b_carId (snd p)) carId && active (b_status (snd p)) &&
    isIntervalOverlapping (b_startDate (snd p)) (b_endDate (snd p)) startDate endDate &&
    match truthy exclude with Some id => negb (String.eqb (fst p) id) | None => true end) (map_to_list bookings).
Definition overlappingBlocks (carId : string) (startDate endDate : Z) (blocks : list VehicleBlock) : list VehicleBlock :=
  List.filter (fun v => String.eqb (vb_carId v) carId &&
    isIntervalOverlapping (vb_startDate v) (vb_endDate v) startDate endDate) blocks.
Definition liveHold (now : Z) (h : VehicleHold) : bool :=
  bool_decide (vh_status h = VH_ACTIVE) && (now <? vh_expiresAt h).
Definition overlappingHolds (now : Z) (carId : string) (startDate endDate : Z) (holds : list VehicleHold)
    : list VehicleHold :=
  List.filter (fun h => String.eqb (vh_carId h) carId && liveHold now h &&
    isIntervalOverlapping (vh_startDate h) (vh_endDate h) startDate endDate) holds.

Definition checkAvailability (env : AvailabilityEnv) (carId : string) (startDate endDate : option Z)
    (options : AvailabilityOptions) : AM AvailabilityResult :=
  start ← from_option_or startDate BadRequestException;
  stop ← from_option_or endDate BadRequestException;
  require (negb (stop <=? start)) BadRequestException ;;
  s ← get;
  car ← from_option_or (car_of carId s) NotFoundException;
  offer ← from_option_or (offer_of carId s) OtherError;
  if negb (car_isAvailable car) || negb (bool_decide (car_operationalStatus car = VO_ACTIVE)) then
    mret (unavailable start stop)
  else if negb (bool_decide (car_verificationStatus car = VV_VERIFIED)) then mret (unavailable start stop)
  else if negb (bool_decide (cf_vendorVerification offer = VS_VERIFIED)) then mret (unavailable start stop)
  else
    let hubIdToCheck := opt_or (ao_hubId options) (car_pickupHubId car) in
    let closures := closureConflicts env hubIdToCheck start stop (ct_closures (sl_catalog s)) in
    let bookings :=
      map (fun p => {| ac_type := CT_BOOKING; ac_id := Some (fst p); ac_startDate := b_startDate (snd p);
                       ac_endDate := b_endDate (snd p) |})
        (overlappingBookings carId start stop (ao_excludeBookingId options) (ls_bookings (sales_core s))) in
    let blocks :=
      map (fun v => {| ac_type := if bool_decide (vb_blockType v = VB_MAINTENANCE) then CT_MAINTENANCE else CT_BLOCK;
                       ac_id := Some (vb_id v); ac_startDate := vb_startDate v; ac_endDate := vb_endDate v |})
        (overlappingBlocks carId start stop (fl_blocks (ls_fleet (sales_core s)))) in
    let holds :=
      map (fun h => {| ac_type := CT_HOLD; ac_id := Some (vh_id h); ac_startDate := vh_startDate h;
                       ac_endDate := vh_endDate h |})
        (List.filter (fun h => match truthy (ao_actorId options) with
                               | Some actor => negb (String.eqb (vh_customerId h) actor)
                               | None => true
                               end) (overlappingHolds (va_now env) carId start stop (sl_holds s))) in
    let blockedDates :=
      if existsb (fun t => (start <=? t) && (t <=? stop)) (cf_blockedDates offer)
      then ar_conflicts (unavailable start stop) else [] in
    let conflicts := closures ++ bookings ++ blocks ++ holds ++ blockedDates in
    mret {| ar_available := (length conflicts =? 0)%nat; ar_conflicts := conflicts |}.

(** ** Holds *)
Definition holdByKey (key : string) (holds : list VehicleHold) : option VehicleHold :=
  List.find (fun h => bool_decide (vh_idempotencyKey h = Some key)) holds.
Definition holdById (id : string) (holds : list VehicleHold) : option VehicleHold :=
  List.find (fun h => String.eqb (vh_id h) id) holds.
(** [vehicleHold.create]: [idempotencyKey] is unique. *)
Definition insertHold (h : VehicleHold) : AM unit :=
  s ← get;
  require (match vh_idempotencyKey h with
           | Some k => match holdByKey k (sl_holds s) with Some _ => false | None => true end
           | None => true
           end) PrismaP2002 ;;
  modify (set_holds (sl_holds s ++ [h])).

Definition holdUnderLock (env : AvailabilityEnv) (carId customerId : string) (startDate endDate ttlSeconds : Z)
    (idempotencyKey : option string) : AM VehicleHold :=
  check ← checkAvailability env carId (Some startDate) (Some endDate)
    {| ao_excludeBookingId := None; ao_actorId := Some customerId; ao_hubId := None |};
  require (ar_available check) ConflictException ;;
  s ← get;
  offer ← from_option_or (offer_of carId s) NotFoundException;
  let hold := {| vh_id := va_freshId env; vh_carId := carId; vh_customerId := customerId;
                 vh_vendorId := cf_vendorId offer; vh_startDate := startDate; vh_endDate := endDate;
                 vh_expiresAt := va_now env + ttlSeconds * 1000; vh_status := VH_ACTIVE;
                 vh_idempotencyKey := idempotencyKey |} in
  insertHold hold ;;
  mret hold.

(** The hold the key names, while it lives. *)
Definition reusableHold (now : Z) (idempotencyKey : option string) (holds : list VehicleHold) : option VehicleHold :=
  match truthy idempotencyKey with
  | Some k => match holdByKey k holds with
              | Some h => if liveHold now h then Some h else None
              | None => None
              end
  | None => None
  end.
Definition createHold (env : AvailabilityEnv) (carId customerId : string) (startDate endDate ttlSeconds : Z)
    (idempotencyKey : option string) : AM VehicleHold :=
  require (negb (endDate <=? startDate)) BadRequestException ;;
  s ← get;
  match reusableHold (va_now env) idempotencyKey (sl_holds s) with
  | Some existing => mret existing
  | None =>
    lockToken ← on_locks (acquireLock (va_lockUp env) (va_now env) carId (va_token env) CAR_LOCK_TTL_MS);
    try_finally (holdUnderLock env carId customerId startDate endDate ttlSeconds idempotencyKey)
      (on_locks (r ← releaseLock (va_releaseUp env) (va_later env) carId lockToken; mret tt))
  end.

Definition with_holdStatus (st : VehicleHoldStatus) (h : VehicleHold) : VehicleHold :=
  {| vh_id := vh_id h; vh_carId := vh_carId h; vh_customerId := vh_customerId h; vh_vendorId := vh_vendorId h;
     vh_startDate := vh_startDate h; vh_endDate := vh_endDate h; vh_expiresAt := vh_expiresAt h; vh_status := st;
     vh_idempotencyKey := vh_idempotencyKey h |}.
Definition updateHolds (p : VehicleHold -> bool) (st : VehicleHoldStatus) : AM unit :=
  modify (fun s => set_holds (map (fun h => if p h then with_holdStatus st h else h) (sl_holds s)) s).

Definition releaseHold (holdId : string) (customerId : option string) : AM bool :=
  s ← get;
  match holdById holdId (sl_holds s) with
  | None => mret false
  | Some hold =>
    require (match truthy customerId with Some c => String.eqb (vh_customerId hold) c | None => true end)
      ForbiddenException ;;
    updateHolds (fun h => String.eqb (vh_id h) holdId) VH_RELEASED ;;
    mret true
  end.
Definition expireHold (holdId : string) : AM bool :=
  updateHolds (fun h => String.eqb (vh_id h) holdId && bool_decide (vh_status h = VH_ACTIVE)) VH_EXPIRED ;;
  mret true.
Definition convertHoldToBooking (carId customerId : string) : AM unit :=
  updateHolds (fun h => String.eqb (vh_carId h) carId && String.eqb (vh_customerId h) customerId &&
                        bool_decide (vh_status h = VH_ACTIVE)) VH_CONVERTED.

(** ** Blocks *)
Definition on_blocks (f : list VehicleBlock -> list VehicleBlock) : AM unit :=
  zoom sales_core set_sales_core (modify (fun c => set_fleet
    {| fl_cars := fl_cars (ls_fleet c); fl_blocks := f (fl_blocks (ls_fleet c)); fl_audit := fl_audit (ls_fleet c);
       fl_fulfillment := fl_fulfillment (ls_fleet c) |} c)).

Definition blockUnderLock (env : AvailabilityEnv) (carId vendorId : string) (startDate endDate : Z)
    (blockType : VehicleBlockType) (actorRole : Role) : AM VehicleBlock :=
  s ← get;
  car ← from_option_or (car_of carId s) NotFoundException;
  offer ← from_option_or (offer_of carId s) OtherError;
  require (negb (bool_decide (actorRole = ROLE_VENDOR) && negb (String.eqb (cf_vendorId offer) vendorId)))
    ForbiddenException ;;
  require ((length (overlappingBookings carId startDate endDate None (ls_bookings (sales_core s))) =? 0)%nat)
    ConflictException ;;
  let block := {| vb_id := va_freshId env; vb_carId := carId; vb_vendorId := cf_vendorId offer;
                  vb_blockType := blockType; vb_startDate := startDate; vb_endDate := endDate |} in
  on_blocks (fun l => l ++ [block]) ;;
  mret block.
Definition blockVehicle (env : AvailabilityEnv) (carId vendorId : string) (startDate endDate : Z)
    (blockType : VehicleBlockType) (actorRole : Role) : AM VehicleBlock :=
  require (negb (endDate <=? startDate)) BadRequestException ;;
  require (negb (bool_decide (actorRole = ROLE_CUSTOMER))) ForbiddenException ;;
  lockToken ← on_locks (acquireLock (va_lockUp env) (va_now env) carId (va_token env) CAR_LOCK_TTL_MS);
  try_finally (blockUnderLock env carId vendorId startDate endDate blockType actorRole)
    (on_locks (r ← releaseLock (va_releaseUp env) (va_later env) carId lockToken; mret tt)).

Definition unblockVehicle (blockId : string) (actorRole : Role) (vendorId : option string) : AM bool :=
  s ← get;
  block ← from_option_or (List.find (fun v => String.eqb (vb_id v) blockId) (fl_blocks (ls_fleet (sales_core s))))
            NotFoundException;
  require (negb (bool_decide (actorRole = ROLE_VENDOR) &&
                 match truthy vendorId with Some v => negb (String.eqb (vb_vendorId block) v) | None => false end))
    ForbiddenException ;;
  on_blocks (List.filter (fun v => negb (String.eqb (vb_id v) blockId))) ;;
  mret true.

(** ** The timeline *)
Definition by_start {A} (f : A -> Z) (l : list A) : list A := sort_desc (fun x => inject_Z (- f x)) l.
Definition getVehicleAvailabilityTimeline (env : AvailabilityEnv) (carId : string) (startDate endDate : Z)
    : AM (list AvailabilityTimelineEntry) :=
  s ← get;
  car ← from_option_or (car_of carId s) NotFoundException;
  let bookings := by_start (fun p => b_startDate (snd p))
    (overlappingBookings carId startDate endDate None (ls_bookings (sales_core s))) in
  let blocks := by_start vb_startDate (overlappingBlocks carId startDate endDate (fl_blocks (ls_fleet (sales_core s)))) in
  let holds := by_start vh_startDate (overlappingHolds (va_now env) carId startDate endDate (sl_holds s)) in
  mret (by_start tl_startDate
    (map (fun p => {| tl_type := TL_BOOKING; tl_id := fst p; tl_startDate := b_startDate (snd p);
                      tl_endDate := b_endDate (snd p) |}) bookings ++
     map (fun v => {| tl_type := if bool_decide (vb_blockType v = VB_MAINTENANCE) then TL_MAINTENANCE else TL_BLOCK;
                      tl_id := vb_id v; tl_startDate := vb_startDate v; tl_endDate := vb_endDate v |}) blocks ++
     map (fun h => {| tl_type := TL_HOLD; tl_id := vh_id h; tl_startDate := vh_startDate h;
                      tl_endDate := vh_endDate h |}) holds)).
Definition getBlocks (carId : string) : AM (list VehicleBlock) :=
  s ← get;
  mret (by_start vb_startDate (List.filter (fun v => String.eqb (vb_carId v) carId) (fl_blocks (ls_fleet (sales_core s))))).
End availability.
