(* ===== verification/AvailabilitySafety.v ===== *)
(** * The availability calendar over time

    What [Availability] answers and keeps: a period is reported available
    exactly when nothing is in its way; bookings, holds and blocks made
    through any sequence of requests keep out of each other's way as far as
    the code makes them; and the runs in which it does not. *)
From S2P Require Import Prelude JsNumber Decimal Schema Ledger Wallet Locks HandoverOtp PaymentRefund Outbox BookingStore.
From S2P Require Import CancellationPolicy BookingLifecycle LifecycleHandover Payments PaymentOrders PaymentWebhook FareCalculator.
From S2P Require Import Coupons Quotes BookingCreation Reservations Availability.
Open Scope Z_scope.

(** ** A period is available exactly when it is free *)
Definition disjoint_periods (start1 end1 start2 end2 : Z) : Prop := end1 <= start2 \/ end2 <= start1.
Lemma overlap_false a b c d : isIntervalOverlapping a b c d = false <-> disjoint_periods a b c d.
Proof. unfold isIntervalOverlapping, disjoint_periods. rewrite andb_false_iff, !Z.ltb_ge. lia. Qed.

Lemma filter_empty {A} (f : A -> bool) l : List.filter f l = [] <-> forall x, x ∈ l -> f x = false.
Proof.
  induction l as [|y l IH]; simpl.
  - split; [intros _ x []%elem_of_nil|done].
  - destruct (f y) eqn:E; split.
    + done.
    + intros H. rewrite H in E by left. done.
    + intros H x [->|Hx]%elem_of_cons; [done|]. by apply IH.
    + intros H. apply IH. intros x Hx. apply H. by right.
Qed.

Section answers.
Context {R : Type} {redis : Redis R}.
Implicit Types s : SalesStore R.

(** What the answer means. *)
Record period_free (env : AvailabilityEnv) (carId : string) (a b : Z) (o : AvailabilityOptions) (car : Car)
    (offer : CarOffer) s : Prop := {
  pf_car : car_isAvailable car = true /\ car_operationalStatus car = VO_ACTIVE /\
           car_verificationStatus car = VV_VERIFIED /\ cf_vendorVerification offer = VS_VERIFIED;
  pf_open : forall hub c, truthy (opt_or (ao_hubId o) (car_pickupHubId car)) = Some hub ->
    c ∈ ct_closures (sl_catalog s) -> fst c = hub -> snd c < va_dayStart env a \/ va_dayEnd env b < snd c;
  pf_bookings : forall j x, ls_bookings (sales_core s) !! j = Some x -> b_carId x = carId ->
    active (b_status x) = true -> truthy (ao_excludeBookingId o) <> Some j ->
    disjoint_periods (b_startDate x) (b_endDate x) a b;
  pf_blocks : forall v, v ∈ fl_blocks (ls_fleet (sales_core s)) -> vb_carId v = carId ->
    disjoint_periods (vb_startDate v) (vb_endDate v) a b;
  pf_holds : forall h, h ∈ sl_holds s -> vh_carId h = carId -> liveHold (va_now env) h = true ->
    truthy (ao_actorId o) <> Some (vh_customerId h) -> disjoint_periods (vh_startDate h) (vh_endDate h) a b;
  pf_dates : forall t, t ∈ cf_blockedDates offer -> t < a \/ b < t;
}.

Lemma bookings_free car a b ex (B : gmap string Booking) : overlappingBookings car a b ex B = [] <->
  forall j x, B !! j = Some x -> b_carId x = car -> active (b_status x) = true -> truthy ex <> Some j ->
    disjoint_periods (b_startDate x) (b_endDate x) a b.
Proof.
  unfold overlappingBookings. rewrite filter_empty. split.
  - intros H j x Hj Hc Ha Hex. specialize (H (j, x)). rewrite elem_of_map_to_list in H. specialize (H Hj). simpl in H.
    rewrite Hc, String.eqb_refl, Ha in H. simpl in H. apply andb_false_iff in H as [H|H]; [by apply overlap_false|].
    destruct (truthy ex) as [i|]; [|done]. apply negb_false_iff, String.eqb_eq in H. congruence.
  - intros H [j x] Hin%elem_of_map_to_list. simpl. apply not_true_is_false. intros E.
    repeat apply andb_true_iff in E as [E ?]. apply String.eqb_eq in E.
    assert (disjoint_periods (b_startDate x) (b_endDate x) a b) as Hd.
    { apply (H j); try done. destruct (truthy ex) as [i|]; [|done]. intros [= ->]. by rewrite String.eqb_refl in *. }
    apply overlap_false in Hd. congruence.
Qed.
Lemma blocks_free car a b l : overlappingBlocks car a b l = [] <->
  forall v, v ∈ l -> vb_carId v = car -> disjoint_periods (vb_startDate v) (vb_endDate v) a b.
Proof.
  unfold overlappingBlocks. rewrite filter_empty. split; intros H v Hv.
  - intros Hc. specialize (H v Hv). rewrite Hc, String.eqb_refl in H. by apply overlap_false.
  - destruct (String.eqb_spec (vb_carId v) car) as [Hc|]; [|done]. by apply overlap_false, H.
Qed.
Lemma holds_free now car a b actor l :
  List.filter (fun h => match truthy actor with Some c => negb (String.eqb (vh_customerId h) c) | None => true end)
    (overlappingHolds now car a b l) = [] <->
  forall h, h ∈ l -> vh_carId h = car -> liveHold now h = true -> truthy actor <> Some (vh_customerId h) ->
    disjoint_periods (vh_startDate h) (vh_endDate h) a b.
Proof.
  unfold overlappingHolds. rewrite filter_empty. split.
  - intros H h Hh Hc Hl Ha. apply overlap_false, not_true_is_false. intros Ho. specialize (H h).
    rewrite list_elem_of_In, List.filter_In, <- list_elem_of_In, Hc, String.eqb_refl, Hl, Ho in H. specialize (H (conj Hh eq_refl)).
    destruct (truthy actor) as [c|]; [|done]. apply negb_false_iff, String.eqb_eq in H. congruence.
  - intros H h Hin. rewrite list_elem_of_In, List.filter_In, <- list_elem_of_In in Hin. destruct Hin as [Hh E].
    apply andb_true_iff in E as [[Hc%String.eqb_eq Hl]%andb_true_iff Ho].
    destruct (truthy actor) as [c|] eqn:Ea.
    + destruct (String.eqb_spec (vh_customerId h) c) as [|Hne]; [done|]. exfalso.
      assert (disjoint_periods (vh_startDate h) (vh_endDate h) a b) as Hd%overlap_false by (apply H; congruence). congruence.
    + exfalso. assert (disjoint_periods (vh_startDate h) (vh_endDate h) a b) as Hd%overlap_false by (by apply H). congruence.
Qed.
Lemma closures_free env hub a b l : closureConflicts env hub a b l = [] <->
  forall h c, truthy hub = Some h -> c ∈ l -> fst c = h -> snd c < va_dayStart env a \/ va_dayEnd env b < snd c.
Proof.
  unfold closureConflicts. destruct (truthy hub) as [loc|]; [|split; [by intros _ ? ? [=]|done]]. split.
  - intros H%map_eq_nil h c [= <-] Hc Hl. rewrite filter_empty in H. specialize (H c Hc).
    rewrite Hl, String.eqb_refl in H. simpl in H. apply andb_false_iff in H as [?%Z.leb_gt|?%Z.leb_gt]; lia.
  - intros H. rewrite (proj2 (filter_empty _ l)); [done|]. intros c Hc. apply not_true_is_false.
    intros [[E ?%Z.leb_le]%andb_true_iff ?%Z.leb_le]%andb_true_iff. apply String.eqb_eq in E.
    destruct (H loc c eq_refl Hc E); lia.
Qed.

Lemma app_empty {A} (l k : list A) : l ++ k = [] <-> l = [] /\ k = [].
Proof. split; [apply app_eq_nil|by intros [-> ->]]. Qed.
Lemma map_empty {A B} (f : A -> B) l : map f l = [] <-> l = [].
Proof. split; [apply map_eq_nil|by intros ->]. Qed.

Lemma checkAvailability_run env carId a b o s r s' :
  checkAvailability env carId (Some a) (Some b) o s = (r, s') -> s' = s /\
  match r with
  | Ok x => a < b /\ exists car offer, car_of carId s = Some car /\ offer_of carId s = Some offer /\
      (ar_available x = true <-> ar_conflicts x = []) /\
      (ar_available x = true <-> period_free env carId a b o car offer s)
  | Throw _ => b <= a \/ car_of carId s = None \/ offer_of carId s = None
  end.
Proof.
  unfold checkAvailability. intros H. step_in H. destruct (Z.leb_spec b a) as [|Hab]; [injection H as <- <-; auto|].
  simpl in H. step_in H. destruct (car_of carId s) as [car|] eqn:Hcar; [|injection H as <- <-; auto]. step_in H.
  destruct (offer_of carId s) as [offer|] eqn:Hoffer; [|injection H as <- <-; auto].
  assert (forall x, (Ok (unavailable a b), s) = (x, s') -> ~ (car_isAvailable car = true /\
     car_operationalStatus car = VO_ACTIVE /\ car_verificationStatus car = VV_VERIFIED /\
     cf_vendorVerification offer = VS_VERIFIED) -> x = r -> s' = s /\
    match r with
    | Ok x => a < b /\ exists car0 offer0, Some car = Some car0 /\ Some offer = Some offer0 /\
        (ar_available x = true <-> ar_conflicts x = []) /\
        (ar_available x = true <-> period_free env carId a b o car0 offer0 s)
    | Throw _ => b <= a \/ Some car = None \/ Some offer = None
    end) as Hno.
  { intros x [= <- <-] Hn <-. split; [done|]. split; [done|]. exists car, offer. split_and!; try done.
    split; [done|]. intros [Hc _ _ _ _ _]. by destruct Hn. }
  destruct (car_isAvailable car) eqn:E1; simpl in H; [|apply (Hno _ H); [naive_solver|done]].
  case_bool_decide as E2; simpl in H; [|apply (Hno _ H); [naive_solver|done]].
  case_bool_decide as E3; simpl in H; [|apply (Hno _ H); [naive_solver|done]].
  case_bool_decide as E4; simpl in H; [|apply (Hno _ H); [naive_solver|done]]. clear Hno.
  cbv zeta in H. step_in H. injection H as <- <-. split; [done|]. split; [done|]. exists car, offer.
  split; [done|]. split; [done|]. cbn [ar_available ar_conflicts]. set (conflicts := _ ++ _).
  assert ((length conflicts =? 0)%nat = true <-> conflicts = []) as Hlen
    by (rewrite Nat.eqb_eq; apply length_zero_iff_nil).
  split; [done|]. rewrite Hlen. unfold conflicts. rewrite !app_empty, !map_empty.
  rewrite closures_free, bookings_free, blocks_free, holds_free.
  assert ((if existsb (fun t => (a <=? t) && (t <=? b)) (cf_blockedDates offer) then ar_conflicts (unavailable a b) else []) = []
    <-> forall t, t ∈ cf_blockedDates offer -> t < a \/ b < t) as Hdates.
  { destruct (existsb _ _) eqn:Ed.
    - split; [done|]. intros Hf. apply existsb_exists in Ed as (t & Ht%list_elem_of_In & [?%Z.leb_le ?%Z.leb_le]%andb_true_iff).
      destruct (Hf t Ht); lia.
    - split; [|done]. intros _ t Ht. apply (existsb_false _ _ t) in Ed; [|done].
      apply andb_false_iff in Ed as [?%Z.leb_gt|?%Z.leb_gt]; lia. }
  rewrite Hdates. split; [intros (?&?&?&?&?); by split|intros [? ? ? ? ? ?]; by split_and!].
Qed.
End answers.

(** ** Holds, blocks and bookings over time *)
Section calendar.
Context {R : Type} {redis : Redis R} {col : NumericColumn} {dec : DecimalArith} {num : DecimalNumbers}.
Context {bcrypt : Bcrypt}.
Variable yearMonth : Z -> string.
Implicit Types s : SalesStore R.

Inductive cal_request : Type :=
  | CalOther (q : request)
  | CalHold (env : AvailabilityEnv) (carId customerId : string) (startDate endDate ttlSeconds : Z) (key : option string)
  | CalRelease (holdId : string) (customerId : option string)
  | CalExpire (holdId : string)
  | CalConvert (carId customerId : string)
  | CalBlock (env : AvailabilityEnv) (carId vendorId : string) (startDate endDate : Z) (blockType : VehicleBlockType)
      (actorRole : Role)
  | CalUnblock (blockId : string) (actorRole : Role) (vendorId : option string).
Definition cal_serve (q : cal_request) : M (SalesStore R) unit :=
  match q with
  | CalOther q => serve yearMonth q
  | CalHold env car c a b ttl key => discard (createHold env car c a b ttl key)
  | CalRelease id c => discard (releaseHold id c)
  | CalExpire id => discard (expireHold id)
  | CalConvert car c => convertHoldToBooking car c
  | CalBlock env car v a b ty role => discard (blockVehicle env car v a b ty role)
  | CalUnblock id role v => discard (unblockVehicle id role v)
  end.
(** The clock a request compares holds with. *)
Definition cal_time (q : cal_request) : option Z :=
  match q with
  | CalOther (ReqCreate env _ _) => Some (ce_now env)
  | CalHold env _ _ _ _ _ _ => Some (va_now env)
  | _ => None
  end.
(** A request served at time [t'], not before the one served last. *)
Definition cal_step (x y : Z * SalesStore R) : Prop :=
  exists q r, x.1 <= y.1 /\ (forall n, cal_time q = Some n -> n = y.1) /\ cal_serve q x.2 = (r, y.2).

Record calendar (t : Z) s : Prop := {
  cal_bookings : ActiveBook.exclusive (sales_slots s);
  cal_holds : forall h k, h ∈ sl_holds s -> k ∈ sl_holds s -> liveHold t h = true -> liveHold t k = true ->
    vh_carId h = vh_carId k -> vh_customerId h <> vh_customerId k ->
    disjoint_periods (vh_startDate h) (vh_endDate h) (vh_startDate k) (vh_endDate k);
  cal_mixed : forall h id x, h ∈ sl_holds s -> liveHold t h = true -> sales_slots s !! id = Some x ->
    active (sl_status x) = true -> sl_carId x = vh_carId h ->
    disjoint_periods (sl_start x) (sl_end x) (vh_startDate h) (vh_endDate h);
}.

Lemma live_earlier t t' h : t <= t' -> liveHold t' h = true -> liveHold t h = true.
Proof. unfold liveHold. intros ? [-> ?%Z.ltb_lt]%andb_true_iff. apply Z.ltb_lt. lia. Qed.
Lemma calendar_later t t' s : t <= t' -> calendar t s -> calendar t' s.
Proof.
  intros Ht [H1 H2 H3]. split; [done| |].
  - intros h k Hh Hk Lh Lk. apply H2; try done; by apply (live_earlier _ t').
  - intros h id x Hh Lh. apply H3; [done|]. by apply (live_earlier _ t').
Qed.

(** Fewer holds and no new active slots. *)
Lemma calendar_shrinks t s s' : calendar t s ->
  (forall h, h ∈ sl_holds s' -> liveHold t h = true -> h ∈ sl_holds s) ->
  ReservationBook.step (sales_slots s) (sales_slots s') -> calendar t s'.
Proof.
  intros [H1 H2 H3] Hh Hs. split.
  - apply (ActiveBook.active_step_exclusive (sales_slots s)); [by constructor|done].
  - intros h k Ih Ik Lh Lk. apply H2; try done; by apply Hh.
  - intros h id x Ih Lh Hx Ha Hc. assert (exists y, sales_slots s !! id = Some y /\ active (sl_status y) = true /\
      sl_carId y = sl_carId x /\ sl_start y = sl_start x /\ sl_end y = sl_end x) as (y & Hy & Hya & E1 & E2 & E3).
    { destruct Hs as [|i z target Hz Hm _]; [by exists x|]. destruct (decide (i = id)) as [->|Hne].
      - rewrite lookup_insert_eq in Hx. injection Hx as <-. exists z. split; [done|]. split; [|done].
        exact (ActiveBook.active_entry _ _ Hm Ha).
      - rewrite lookup_insert_ne in Hx by done. by exists x. }
    rewrite <- E2, <- E3. apply (H3 h id y); [by apply Hh|done..|by rewrite E1].
Qed.

(** What is left alive of holds whose status changed is as it was. *)
Lemma map_live t (f : VehicleHold -> VehicleHold) l h :
  (forall x, f x = x \/ vh_status (f x) <> VH_ACTIVE) -> h ∈ map f l -> liveHold t h = true -> h ∈ l.
Proof.
  intros Hf Hin Hl. apply list_elem_of_In, List.in_map_iff in Hin as (x & <- & Hx).
  destruct (Hf x) as [->|Hn]; [by apply list_elem_of_In|]. unfold liveHold in Hl.
  by rewrite bool_decide_eq_false_2 in Hl.
Qed.
Lemma updateHolds_calendar t p st s r s' : st <> VH_ACTIVE -> updateHolds (R:=R) p st s = (r, s') ->
  calendar t s -> calendar t s'.
Proof.
  intros Hst [= _ <-] Hcal. apply (calendar_shrinks t s); [done| |constructor].
  intros h. simpl. apply map_live. intros x. destruct (p x); [by right|by left].
Qed.
Lemma calendar_same t s s' : sl_holds s' = sl_holds s -> sales_slots s' = sales_slots s -> calendar t s -> calendar t s'.
Proof. intros E1 E2 [H1 H2 H3]. split; rewrite ?E1, ?E2; done. Qed.

(** The locks are not looked at. *)
Lemma on_locks_same {A} (m : M R A) s r s' : on_locks m s = (r, s') ->
  sl_holds s' = sl_holds s /\ sales_slots s' = sales_slots s.
Proof. unfold on_locks. intros (t & _ & ->)%zoom_run. done. Qed.
Lemma locked_run {A} (m : M (SalesStore R) A) (mk : string -> M (SalesStore R) unit) (acq : M R string) (P : SalesStore R -> Prop) s r s' :
  (forall s1 s2, sl_holds s2 = sl_holds s1 -> sales_slots s2 = sales_slots s1 -> P s1 -> P s2) ->
  (forall tok s1 r s2, mk tok s1 = (r, s2) -> sl_holds s2 = sl_holds s1 /\ sales_slots s2 = sales_slots s1) ->
  (token ← on_locks acq; try_finally m (mk token)) s = (r, s') ->
  P s -> (forall s1 r1 s2, m s1 = (r1, s2) -> P s1 -> P s2) -> P s'.
Proof.
  intros Hsame Hrel H Hs Hm. rewrite bind_run in H. destruct (on_locks acq s) as [[tok|e] s1] eqn:E1;
    apply on_locks_same in E1 as [? ?]; [|injection H as _ <-; eauto].
  unfold try_finally in H. destruct (m s1) as [r2 s2] eqn:E2. destruct (mk tok s2) as [r3 s3] eqn:E3.
  apply Hrel in E3 as [? ?]. assert (s' = s3) as -> by (destruct r3; by injection H). eauto.
Qed.

Lemma truthy_same c d : truthy (Some c) = Some d -> c = d.
Proof. unfold truthy. destruct c; congruence. Qed.
(** A new hold keeps clear of bookings and of the live holds of others. *)
Lemma holdUnderLock_calendar env car c a b ttl key s r s' :
  holdUnderLock env car c a b ttl key s = (r, s') -> calendar (va_now env) s -> calendar (va_now env) s'.
Proof.
  intros H Hcal. unfold holdUnderLock in H. rewrite bind_run in H.
  destruct (checkAvailability env car (Some a) (Some b) _ s) as [[x|e] s1] eqn:E; apply checkAvailability_run in E as [-> E];
    [|by injection H as _ <-]. destruct E as (_ & cr & offer & _ & Ho & _ & Hfree).
  rewrite require_bind in H. destruct (ar_available x); [|by injection H as _ <-].
  destruct (proj1 Hfree eq_refl) as [_ _ Hb _ Hh _]. simpl in Hb, Hh. step_in H. rewrite Ho in H. cbv zeta in H.
  unfold insertHold in H. step_in H.
  match type of H with context [if ?g then _ else _] => destruct g end; [|by injection H as _ <-].
  step_in H. injection H as _ <-. destruct Hcal as [H1 H2 H3].
  assert (forall id y, sales_slots s !! id = Some y -> active (sl_status y) = true -> sl_carId y = car ->
    disjoint_periods (sl_start y) (sl_end y) a b) as Hslot.
  { intros id y Hy Ha Hcar. unfold sales_slots in Hy. rewrite lookup_slots in Hy.
    destruct (ls_bookings (sales_core s) !! id) as [bk|] eqn:Ebk; [|done]. injection Hy as <-. by apply (Hb id bk). }
  split; [done| |].
  - intros h k [Ih| ->%list_elem_of_singleton]%elem_of_app [Ik| ->%list_elem_of_singleton]%elem_of_app Lh Lk Hcar Hne;
      simpl in *; [by apply H2| | |done].
    + apply Hh; [done..|]. by intros E%truthy_same.
    + unfold disjoint_periods in *. apply or_comm. apply Hh; [done..|]. by intros E%truthy_same.
  - intros h id y [Ih| ->%list_elem_of_singleton]%elem_of_app Lh Hy Ha Hcar; [by apply (H3 h id)|].
    simpl in *. by apply (Hslot id y).
Qed.

(** A booking takes time that no live hold of somebody else claims, and
    the holds of its customer on the car end with it. *)
Lemma creation_calendar env c dto s r s' : createBooking (R:=R) env c dto s = (r, s') ->
  calendar (ce_now env) s -> calendar (ce_now env) s'.
Proof.
  intros H Hcal. pose proof (create_book _ _ _ _ _ _ H) as Hb.
  apply createBooking_cases in H as [[Hu _]|(row & [_ Hbk (_ & Hcar & Hs & He & _) _ [_ _ Hp] _ Hholds _ _ _] & _)].
  { unfold sales_rows in Hu. injection Hu. intros Eh _ _ _ _ _ _ _ _ _ _ _ Ebk.
    apply (calendar_same _ s); [done| |done]. unfold sales_slots, slots. by rewrite Ebk. }
  assert (forall x, convertHold c (cb_carId dto) x = x \/ vh_status (convertHold c (cb_carId dto) x) <> VH_ACTIVE) as Hconv.
  { intros x. unfold convertHold. destruct (_ && _); [by right|by left]. }
  destruct Hcal as [H1 H2 H3]. split.
  - exact (ActiveBook.active_step_exclusive _ _ Hb H1).
  - rewrite Hholds. intros h k Ih Ik Lh Lk. apply H2; [by eapply map_live|by eapply map_live|done..].
  - rewrite Hholds. intros h id x Ih Lh Hx Ha Hc. pose proof (map_live _ _ _ _ Hconv Ih Lh) as Ih'.
    unfold sales_slots in Hx. rewrite lookup_slots, Hbk in Hx. destruct (decide (ce_bookingId env = id)) as [<-|Hne].
    + rewrite lookup_insert_eq in Hx. injection Hx as <-. simpl in *. rewrite Hs, He.
      pose proof Lh as [Hst%bool_decide_eq_true Hexp%Z.ltb_lt]%andb_true_iff.
      assert (vh_customerId h <> c) as Hcust.
      { intros E. apply list_elem_of_In, List.in_map_iff in Ih as (y & Ey & _). destruct (Hconv y) as [Ec|Ec].
        - rewrite Ec in Ey. subst y. unfold convertHold in Ec.
          rewrite <- Hc, Hcar, E, !String.eqb_refl, bool_decide_eq_true_2 in Ec by done.
          apply (f_equal vh_status) in Ec. simpl in Ec. congruence.
        - rewrite Ey in Ec. done. }
      pose proof (Hp h Ih' ltac:(congruence) Hcust Hst Hexp) as Hd. unfold clear_of in Hd. unfold disjoint_periods. lia.
    + rewrite lookup_insert_ne in Hx by done. apply (H3 h id x); try done. unfold sales_slots. by rewrite lookup_slots.
Qed.

Lemma on_blocks_same f s r s' : on_blocks (R:=R) f s = (r, s') -> sl_holds s' = sl_holds s /\ sales_slots s' = sales_slots s.
Proof. unfold on_blocks. intros (t & [= _ <-] & ->)%zoom_run. done. Qed.
Lemma blockUnderLock_same env car v a b ty role s r s' : blockUnderLock (R:=R) env car v a b ty role s = (r, s') ->
  sl_holds s' = sl_holds s /\ sales_slots s' = sales_slots s.
Proof.
  intros H. unfold blockUnderLock in H. step_in H. destruct (car_of car s); [|by injection H as _ <-]. step_in H.
  destruct (offer_of car s); [|by injection H as _ <-]. step_in H. destruct (negb _); [|by injection H as _ <-].
  step_in H. destruct (_ =? 0)%nat; [|by injection H as _ <-]. cbv zeta in H. rewrite bind_run in H.
  destruct (on_blocks _ s) as [[u|e] s1] eqn:E; apply on_blocks_same in E; [|by injection H as _ <-].
  step_in H. by injection H as _ <-.
Qed.
Lemma release_same up now car tok s r s' :
  on_locks (R:=R) (r ← releaseLock up now car tok; mret tt) s = (r, s') ->
  sl_holds s' = sl_holds s /\ sales_slots s' = sales_slots s.
Proof. apply on_locks_same. Qed.

Lemma cal_serve_keeps t q s r s' : (forall n, cal_time q = Some n -> n = t) -> cal_serve q s = (r, s') ->
  calendar t s -> calendar t s'.
Proof.
  intros Ht H Hcal.
  destruct q as [q|env car c a b ttl key|id c|id|car c|env car v a b ty role|id role v]; simpl in H.
  - pose proof (request_frame yearMonth _ _ _ _ H) as [(env & c & dto & ->)|[Hs Hh]].
    + simpl in H, Ht. rewrite <- (Ht _ eq_refl) in *. apply discard_run in H as (r0 & H).
      exact (creation_calendar _ _ _ _ _ _ H Hcal).
    + apply (calendar_shrinks t s); [done| |done]. intros h Ih _. by rewrite <- Hh.
  - apply discard_run in H as (r0 & H). simpl in Ht. rewrite <- (Ht _ eq_refl) in *. unfold createHold in H.
    step_in H. destruct (negb _); [|by injection H as _ <-]. step_in H.
    destruct (reusableHold _ _ _); [step_in H; by injection H as _ <-|].
    eapply locked_run; [| |exact H|exact Hcal|].
    + intros s1 s2. apply calendar_same.
    + intros tok s1 r1 s2. apply release_same.
    + intros s1 r1 s2. apply holdUnderLock_calendar.
  - apply discard_run in H as (r0 & H). unfold releaseHold in H. step_in H.
    destruct (holdById id (sl_holds s)); [|step_in H; by injection H as _ <-]. step_in H.
    match type of H with context [if ?g then _ else _] => destruct g end; [|by injection H as _ <-].
    rewrite bind_run in H. destruct (updateHolds _ _ s) as [[u|e] s1] eqn:E; step_in H; injection H as _ <-;
      by refine (updateHolds_calendar _ _ _ _ _ _ _ E Hcal).
  - apply discard_run in H as (r0 & H). unfold expireHold in H. rewrite bind_run in H.
    destruct (updateHolds _ _ s) as [[u|e] s1] eqn:E; step_in H; injection H as _ <-;
      by refine (updateHolds_calendar _ _ _ _ _ _ _ E Hcal).
  - by refine (updateHolds_calendar _ _ _ _ _ _ _ H Hcal).
  - apply discard_run in H as (r0 & H). unfold blockVehicle in H. step_in H.
    destruct (negb _); [|by injection H as _ <-]. step_in H. destruct (negb _); [|by injection H as _ <-].
    eapply locked_run; [| |exact H|exact Hcal|].
    + intros s1 s2. apply calendar_same.
    + intros tok s1 r1 s2. apply release_same.
    + intros s1 r1 s2 [? ?]%blockUnderLock_same. by apply calendar_same.
  - apply discard_run in H as (r0 & H). unfold unblockVehicle in H. step_in H.
    destruct (List.find _ _); [|by injection H as _ <-]. step_in H. destruct (negb _); [|by injection H as _ <-].
    rewrite bind_run in H. destruct (on_blocks _ s) as [[u|e] s1] eqn:E; apply on_blocks_same in E as [? ?];
      step_in H; injection H as _ <-; by apply (calendar_same _ s).
Qed.

(** C5. Nobody's time is promised twice.  Through any sequence of requests at
    times that do not run back (quotes, creations, payments, webhooks,
    transitions, and holds, releases, expiries, conversions and blocks of the
    availability service) no two active bookings of a car overlap, the live
    holds of different customers on a car do not overlap, and no live hold
    overlaps an active booking of its car. *)
Theorem calendar_never_double_promises t s t' s' (H0 : calendar t s) (H : rtc cal_step (t, s) (t', s')) : calendar t' s'.
Proof.
  change (calendar (t', s').1 (t', s').2). revert H0. change (calendar t s) with (calendar (t, s).1 (t, s).2).
  induction H as [|x y z (q & r & Hle & Ht & Hq) _ IH]; [done|]. intros Hx. apply IH.
  apply (cal_serve_keeps y.1 q x.2 r y.2 Ht Hq). by apply (calendar_later x.1).
Qed.
End calendar.

(** C6. The answer is exact.  For a valid period of a known car the check
    returns, changes nothing and reports the car available exactly when it
    lists no conflict and when nothing is in the way: car, verification and
    vendor in order, the hub open on its days, no active booking (but the one
    excluded), no block, no live hold of somebody else that overlaps the half
    open period, and no day the fleet owner blocked; otherwise it throws. *)
Theorem availability_exact {R} {redis : Redis R} env carId a b o (s : SalesStore R) r s'
    (H : checkAvailability env carId (Some a) (Some b) o s = (r, s')) : s' = s /\
  match r with
  | Ok x => a < b /\ exists car offer, car_of carId s = Some car /\ offer_of carId s = Some offer /\
      (ar_available x = true <-> ar_conflicts x = []) /\
      (ar_available x = true <-> period_free env carId a b o car offer s)
  | Throw _ => b <= a \/ car_of carId s = None \/ offer_of carId s = None
  end.
Proof. by apply checkAvailability_run. Qed.

(** ** Concrete runs *)
#[local] Existing Instance plain_bcrypt.
Definition avail_env (now : Z) (id : string) : AvailabilityEnv :=
  {| va_now := now; va_later := now + 10; va_lockUp := true; va_releaseUp := true; va_token := "t2"; va_freshId := id;
     va_dayStart := fun t => t; va_dayEnd := fun t => t |}.
(** Customer "c2" holds "car1" from hour 240 to hour 432 for fifteen minutes. *)
Definition hold_run : result VehicleHold * SalesStore RedisMem :=
  createHold (avail_env HOUR "h1") "car1" "c2" (240 * HOUR) (432 * HOUR) 900 (Some "k1") empty_sales.
Definition held_store : SalesStore RedisMem := snd hold_run.
Definition booked_from_hold : result string * SalesStore RedisMem :=
  createBooking create_env "c2" (booking_dto None) held_store.

Lemma availability_exact_witness : exists x : AvailabilityResult,
  checkAvailability (avail_env HOUR "") "car1" (Some (300 * HOUR)) (Some (310 * HOUR)) no_options held_store =
    (Ok x, held_store) /\ ar_available x = false /\ map ac_id (ar_conflicts x) = [Some "h1"].
Proof.
  assert (exists x, fst (checkAvailability (avail_env HOUR "") "car1" (Some (300 * HOUR)) (Some (310 * HOUR)) no_options
    held_store) = Ok x /\ map ac_id (ar_conflicts x) = [Some "h1"]) as (x & E & Hids)
    by (eexists; split; vm_compute; reflexivity).
  exists x. pose proof (run_eq _ _ E) as Hrun.
  destruct (availability_exact (avail_env HOUR "") "car1" (300 * HOUR) (310 * HOUR) no_options held_store (Ok x) _ Hrun)
    as (Es & _ & car & offer & _ & _ & Hc & _).
  rewrite Hrun, Es. split; [reflexivity|]. split; [|exact Hids].
  destruct (ar_available x); [|reflexivity]. rewrite (proj1 Hc eq_refl) in Hids. discriminate Hids.
Defined.

Lemma calendar_never_double_promises_witness :
  calendar HOUR (snd booked_from_hold) /\ sales_slots (snd booked_from_hold) !! "b9" <> None /\
  map vh_status (sl_holds held_store) = [VH_ACTIVE] /\ map vh_status (sl_holds (snd booked_from_hold)) = [VH_CONVERTED].
Proof.
  split; [|split; [vm_compute; discriminate|split; vm_compute; reflexivity]].
  apply (calendar_never_double_promises year_month HOUR empty_sales HOUR (snd booked_from_hold)).
  - split; [exact empty_sales_exclusive| |].
    + intros h k Hh. vm_compute in Hh. inversion Hh.
    + intros h id x Hh. vm_compute in Hh. inversion Hh.
  - apply rtc_l with (HOUR, held_store).
    + exists (CalHold (avail_env HOUR "h1") "car1" "c2" (240 * HOUR) (432 * HOUR) 900 (Some "k1")), (Ok tt).
      split; [simpl; reflexivity || lia|]. split; [intros n [= <-]; reflexivity|]. vm_compute. reflexivity.
    + apply rtc_once. exists (CalOther (ReqCreate create_env "c2" (booking_dto None))), (Ok tt).
      split; [simpl; reflexivity || lia|]. split; [intros n [= <-]; reflexivity|]. vm_compute. reflexivity.
Defined.

(** *** Where the code does not do what it means to *)

(** The idempotency key of somebody else answers with their hold, whatever
    car and period were asked for. *)
Lemma foreign_key_answers :
  let r := createHold (avail_env (HOUR + 1000) "h2") "car1" "c3" (500 * HOUR) (510 * HOUR) 900 (Some "k1") held_store in
  vh_customerId <$> (match fst r with Ok h => Some h | Throw _ => None end) = Some "c2" /\
  length (sl_holds (snd r)) = 1%nat.
Proof. split; vm_compute; reflexivity. Qed.
(** A key whose hold has ended can never be used again. *)
Lemma ended_key_is_refused :
  fst (createHold (avail_env (3 * HOUR) "h2") "car1" "c2" (240 * HOUR) (432 * HOUR) 900 (Some "k1") held_store) =
  Throw PrismaP2002.
Proof. vm_compute. reflexivity. Qed.
(** A block is placed over a live hold: the customer who holds the car can no
    longer book it. *)
Definition blocked_over_hold : SalesStore RedisMem :=
  snd (blockVehicle (avail_env (HOUR + 20) "blk1") "car1" "v1" (300 * HOUR) (310 * HOUR) VB_MAINTENANCE ROLE_VENDOR held_store).
Lemma block_ignores_holds :
  map vb_id (fl_blocks (ls_fleet (sales_core blocked_over_hold))) = ["blk1"] /\
  (fun h => liveHold (HOUR + 20) h) <$> sl_holds blocked_over_hold = [true] /\
  fst (createBooking create_env "c2" (booking_dto None) blocked_over_hold) = Throw ConflictException.
Proof. split_and!; vm_compute; reflexivity. Qed.
