(* ===== verification/Reconciliation.v ===== *)
(** * Financial reconciliation

    payments/reconciliation.service.ts: the job that compares payments,
    bookings and wallets with the gateway every quarter of an hour and heals
    what differs: refunds made at the gateway, captured payments nobody
    verified, orders that went stale, contradicting states, wallets whose
    balance is not what their entries say.  The gateway, the clock, tokens and
    the time stamps of rows are arguments; what the job reports to monitoring
    and to customers is left out. *)
From S2P Require Import Prelude JsNumber Decimal Schema Ledger Wallet Locks HandoverOtp PaymentRefund Outbox BookingStore.
From S2P Require Import Commission CancellationPolicy BookingLifecycle LifecycleMoney Payments PaymentOrders PaymentWebhook FareCalculator.
From S2P Require Import Coupons Quotes BookingCreation Reservations.
Open Scope Z_scope.

Record ReconciliationReport : Type := {
  rp_candidatesFound : Z;
  rp_processed : Z;
  rp_healed : Z;
  rp_skipped : Z;
  rp_errors : Z;
}.
Definition empty_report : ReconciliationReport :=
  {| rp_candidatesFound := 0; rp_processed := 0; rp_healed := 0; rp_skipped := 0; rp_errors := 0 |}.

(** What becomes of a candidate: the counter that is raised for it. *)
Inductive Outcome : Type := Healed | Skipped | Errored.
Definition countOutcome (o : Outcome) (r : ReconciliationReport) : ReconciliationReport :=
  {| rp_candidatesFound := rp_candidatesFound r; rp_processed := rp_processed r + 1;
     rp_healed := match o with Healed => rp_healed r + 1 | _ => rp_healed r end;
     rp_skipped := match o with Skipped => rp_skipped r + 1 | _ => rp_skipped r end;
     rp_errors := match o with Errored => rp_errors r + 1 | _ => rp_errors r end |}.
Definition countFound (n : nat) (r : ReconciliationReport) : ReconciliationReport :=
  {| rp_candidatesFound := rp_candidatesFound r + Z.of_nat n; rp_processed := rp_processed r; rp_healed := rp_healed r;
     rp_skipped := rp_skipped r; rp_errors := rp_errors r |}.

(** What Razorpay lists of a payment and of an order. *)
Record GatewayRefund : Type := {
  gr_id : string;
  gr_payment_id : string;
  gr_status : string;
  gr_amount : Z;
  gr_created_at : Z;
}.
Record GatewayPayment : Type := {
  gp_id : string;
  gp_order_id : string;
  gp_status : string;
  gp_currency : option string;
  gp_amount : Z;
}.

(** [rn_createdAt] and [rn_updatedAt] are columns of the payment of a
    booking, [rn_vehicleClass] one of the booking; [rn_admin] is the first
    administrator, [rn_token] the token of a lock. *)
Record ReconEnv : Type := {
  rn_now : Z;
  rn_lookbackMinutes : Z;
  rn_staleHours : Z;
  rn_isEnabled : bool;
  rn_useMock : bool;
  rn_razorpay : bool;
  rn_redisUp : bool;
  rn_token : string -> string;
  rn_refunds : string -> result (list GatewayRefund);
  rn_orderPayments : string -> result (list GatewayPayment);
  rn_createdAt : string -> Z;
  rn_updatedAt : string -> Z;
  rn_rowOrder : string -> Z;
  rn_vehicleClass : string -> option CarCategory;
  rn_admin : option string;
  rn_hasLedger : bool;
  rn_hasCommission : bool;
  rn_hasInvoices : bool;
  rn_journalId : string -> string;
  rn_payEnv : PayEnv;
}.

(** A candidate: the booking's id and the rows as the query found them. *)
Record Candidate : Type := {
  cn_bookingId : string;
  cn_payment : Payment;
  cn_booking : Booking;
}.

Section reconciliation.
Context {R : Type} {redis : Redis R} {col : NumericColumn} {dec : DecimalArith}.
Variable yearMonth : Z -> string.
Abbreviation RM := (M (SalesStore R)).
Implicit Types s : SalesStore R.

(** ** Candidates *)
Definition paymentsOf s : gmap string Payment := ms_payments (ls_money (sales_core s)).
Definition candidates (p : Candidate -> bool) (byTime : string -> Z) s : list Candidate :=
  take 50 (sort_desc (fun c => inject_Z (- byTime (cn_bookingId c)))
    (List.filter p (omap (fun row => b ← ls_bookings (sales_core s) !! fst row;
                                     Some {| cn_bookingId := fst row; cn_payment := snd row; cn_booking := b |})
                         (map_to_list (paymentsOf s))))).

Definition MINUTE_MS : Z := 60 * 1000.
Definition orphanedRefund (env : ReconEnv) (c : Candidate) : bool :=
  bool_decide (pm_status (cn_payment c) = PS_PAID) && bool_decide (pm_refundStatus (cn_payment c) = RS_NONE) &&
  bool_decide (pm_razorpayPaymentId (cn_payment c) <> None) && bool_decide (b_status (cn_booking c) = BS_CONFIRMED) &&
  (rn_updatedAt env (cn_bookingId c) <=? rn_now env - rn_lookbackMinutes env * MINUTE_MS).
Definition unpaidOrder (env : ReconEnv) (before : Z) (c : Candidate) : bool :=
  bool_decide (pm_status (cn_payment c) = PS_CREATED) && bool_decide (pm_razorpayOrderId (cn_payment c) <> None) &&
  bool_decide (b_status (cn_booking c) = BS_PENDING) && (rn_createdAt env (cn_bookingId c) <=? before).
Definition refundedConfirmed (c : Candidate) : bool :=
  bool_decide (b_status (cn_booking c) = BS_CONFIRMED) && bool_decide (pm_status (cn_payment c) = PS_REFUNDED) &&
  bool_decide (pm_refundStatus (cn_payment c) = RS_PROCESSED).
Definition cancelledUnrefunded (c : Candidate) : bool :=
  bool_decide (b_status (cn_booking c) = BS_CANCELLED) &&
  match b_refundAmount (cn_booking c) with Some q => d_gt q 0 | None => false end &&
  bool_decide (pm_status (cn_payment c) = PS_PAID) && bool_decide (pm_refundStatus (cn_payment c) = RS_NONE).

(** ** Locks and the audit log *)
Definition trySet (now : Z) (key token : string) (ttlMs : Z) : M R bool := fun r =>
  match redis_set_px_nx now key token ttlMs r with
  | (b, r') => (Ok b, r')
  end.
Definition setNX (env : ReconEnv) (key : string) (ttlMs : Z) : RM bool :=
  if rn_redisUp env then
    on_locks (trySet (rn_now env) key (rn_token env key) ttlMs)
  else throw OtherError.
Definition releaseRecordLock (env : ReconEnv) (key : string) : RM unit :=
  try_catch (on_locks (x ← releaseKey (rn_redisUp env) (rn_now env) key (rn_token env key); mret tt)) (fun _ => mret tt).

(** One candidate: [continue]d over when its lock is taken; whatever its body
    throws is counted, and the lock released. *)
Definition withRecordLock (env : ReconEnv) (key : string) (body : RM Outcome) : RM Outcome :=
  acquired ← setNX env key 30000;
  if (acquired : bool) then
    try_finally (try_catch body (fun _ => mret Errored)) (releaseRecordLock env key)
  else mret Skipped.

Definition recordReconciliationAuditLog (env : ReconEnv) (action targetId : string) : RM unit :=
  match rn_admin env with
  | Some admin => on_core (modify (fun c => set_audit (ls_audit c ++
      [{| al_userId := admin; al_action := action; al_entityId := targetId |}]) c))
  | None => mret tt
  end.

(** ** Rows *)
Definition updatePaymentRow (bookingId : string) (f : Payment -> Payment) : RM unit :=
  s ← get;
  p ← from_option_or (paymentsOf s !! bookingId) PrismaP2025;
  on_core (zoom ls_money set_money (modify (set_payment bookingId (f p)))).
(** [razorpayRefundId] is unique. *)
Definition linkRefund (bookingId : string) (rf : GatewayRefund) (refundRupees : Q) : RM unit :=
  s ← get;
  require (negb (refundIdTaken bookingId (gr_id rf) (paymentsOf s))) PrismaP2002 ;;
  updatePaymentRow bookingId (fun p =>
    {| pm_id := pm_id p; pm_amount := pm_amount p; pm_status := PS_REFUNDED;
       pm_gatewayProvider := pm_gatewayProvider p; pm_paymentMethod := pm_paymentMethod p;
       pm_razorpayOrderId := pm_razorpayOrderId p; pm_razorpayPaymentId := pm_razorpayPaymentId p;
       pm_razorpayRefundId := Some (gr_id rf); pm_refundAmount := Some (store refundRupees);
       pm_refundStatus := if String.eqb (gr_status rf) "processed" then RS_PROCESSED else RS_PENDING |}).
Definition with_paymentStatus (st : PaymentStatus) (paymentId : option string) (p : Payment) : Payment :=
  {| pm_id := pm_id p; pm_amount := pm_amount p; pm_status := st; pm_gatewayProvider := pm_gatewayProvider p;
     pm_paymentMethod := pm_paymentMethod p; pm_razorpayOrderId := pm_razorpayOrderId p;
     pm_razorpayPaymentId := paymentId; pm_razorpayRefundId := pm_razorpayRefundId p;
     pm_refundAmount := pm_refundAmount p; pm_refundStatus := pm_refundStatus p |}.

Definition updateBookingRow (bookingId : string) (f : Booking -> Booking) : RM unit :=
  s ← get;
  b ← from_option_or (ls_bookings (sales_core s) !! bookingId) PrismaP2025;
  on_core (modify (set_booking bookingId (f b))).
(** The booking with another status and what a cancellation records. *)
Definition restated (st : BookingStatus) (reason : option string) (refund : option Q) (at_ : option Z) (b : Booking) : Booking :=
  {| b_customerId := b_customerId b; b_vendorId := b_vendorId b; b_carId := b_carId b;
     b_pickupHubId := b_pickupHubId b; b_startDate := b_startDate b; b_endDate := b_endDate b;
     b_totalFare := b_totalFare b; b_platformFee := b_platformFee b; b_gstAmount := b_gstAmount b;
     b_netToVendor := b_netToVendor b; b_disputeFlag := b_disputeFlag b; b_quoteTotal := b_quoteTotal b;
     b_couponId := b_couponId b; b_discountAmount := b_discountAmount b;
     b_corporateAccountId := b_corporateAccountId b; b_cancellationMatrix := b_cancellationMatrix b;
     b_commissionSplit := b_commissionSplit b; b_securityDeposit := b_securityDeposit b; b_status := st;
     b_cancellationReason := reason; b_cancellationFee := b_cancellationFee b; b_refundAmount := refund;
     b_cancelledAt := at_; b_cancelledBy := b_cancelledBy b |}.
Definition cancelledFor (reason : string) (refund : Q) (at_ : Z) : Booking -> Booking :=
  restated BS_CANCELLED (Some reason) (Some (store refund)) (Some at_).
Definition confirmedBooking (b : Booking) : Booking :=
  restated BS_CONFIRMED (b_cancellationReason b) (b_refundAmount b) (b_cancelledAt b) b.

(** [recordJournal] in the transaction. *)
Definition postReconciled (env : ReconEnv) (input : RecordJournalInput) : RM unit :=
  on_core (zoom the_ledger (fun L c => set_money (set_ledger L (ls_money c)) c)
    (r ← recordJournal (rn_now env) (rn_journalId env (str_or (rj_idempotencyKey input) "")) true input; mret tt)).

(** ** Rule 1: refunds made at the gateway *)
Definition liveRefund (rf : GatewayRefund) : bool :=
  String.eqb (gr_status rf) "processed" || String.eqb (gr_status rf) "pending".
Definition refundKeyOf (bookingId refundId : string) : string :=
  "jrn_reconcile_refund_" +:+ bookingId +:+ "_" +:+ refundId.
Definition healedRefundJournal (bookingId : string) (b : Booking) (p : Payment) (rf : GatewayRefund) (refundRupees : Q)
    : RecordJournalInput :=
  journalOf "BOOKING_CANCELLATION_REFUND" (refundKeyOf bookingId (gr_id rf)) bookingId (b_vendorId b) (pm_id p)
    (reversalLines bookingId b p refundRupees).
Definition healOrphanedRefund (env : ReconEnv) (c : Candidate) (rf : GatewayRefund) (refundRupees : Q) : RM unit :=
  let bookingId := cn_bookingId c in
  linkRefund bookingId rf refundRupees ;;
  updateBookingRow bookingId (cancelledFor "Reconciled from existing gateway refund" refundRupees (gr_created_at rf * 1000)) ;;
  when (rn_hasLedger env)
    (s ← get;
     when (negb (hasBaseline bookingId (the_ledger (sales_core s))))
       (postReconciled env (baselineJournal bookingId (cn_booking c) (cn_payment c))) ;;
     postReconciled env (healedRefundJournal bookingId (cn_booking c) (cn_payment c) rf refundRupees)).

Definition reconcileOrphanedRefund (env : ReconEnv) (c : Candidate) : RM Outcome :=
  let razorpayPaymentId := default "" (pm_razorpayPaymentId (cn_payment c)) in
  if negb (rn_razorpay env) || rn_useMock env then mret Skipped
  else
    match rn_refunds env razorpayPaymentId with
    | Throw _ => mret Errored
    | Ok items =>
      match List.find (fun rf => liveRefund rf && String.eqb (gr_payment_id rf) razorpayPaymentId) items with
      | None => mret Skipped
      | Some validRefund =>
        let refundRupees := refundRupeesOf (gr_amount validRefund) in
        if d_gt refundRupees (pm_amount (cn_payment c)) then mret Errored
        else
          transaction (healOrphanedRefund env c validRefund refundRupees) ;;
          recordReconciliationAuditLog env "RECONCILIATION_AUTO_HEALED_REFUND" (pm_id (cn_payment c)) ;;
          mret Healed
      end
    end.

(** ** Rule 2: captured payments nobody verified *)
Definition redeemQuietly (bookingId : string) (b : Booking) : RM unit :=
  match truthy (b_couponId b) with
  | None => mret tt
  | Some couponId =>
    on_pay (s ← get;
      if existsb (fun u => String.eqb (cu_bookingId u) bookingId) (ps_usages s) then mret tt
      else
        match ps_coupons s !! couponId with
        | None => mret tt
        | Some couponRecord =>
          let perCustomerLimit := default 1 (cpn_perCustomerLimit couponRecord) in
          let customerUsageCount := Z.of_nat (length (filter (fun u =>
            String.eqb (cu_couponId u) couponId && String.eqb (cu_customerId u) (b_customerId b)) (ps_usages s))) in
          if cpn_isActive couponRecord &&
             match cpn_globalUsageLimit couponRecord with Some limit => cpn_usageCount couponRecord <? limit | None => true end &&
             (customerUsageCount <? perCustomerLimit)
          then
            modify (set_coupon couponId (with_usageCount (cpn_usageCount couponRecord + 1) couponRecord)) ;;
            discountAmount ← from_option_or (b_discountAmount b) OtherError;
            modify (add_usage {| cu_couponId := couponId; cu_customerId := b_customerId b;
                                 cu_bookingId := bookingId; cu_discountAmount := store discountAmount |})
          else mret tt
        end)
  end.
Definition allocate (bookingId : string) (b : Booking) : RM unit :=
  on_core (onFleet (fun f => set_fulfillment (<[bookingId :=
    {| ff_vendorId := b_vendorId b; ff_branchId := b_pickupHubId b; ff_carId := b_carId b;
       ff_stage := if String.eqb (b_carId b) "" then FS_PENDING_ALLOCATION else FS_ALLOCATED |}]> (fl_fulfillment f)) f)).
Definition with_split (split : CommissionBreakdown) (b : Booking) : Booking :=
  {| b_customerId := b_customerId b; b_vendorId := b_vendorId b; b_carId := b_carId b;
     b_pickupHubId := b_pickupHubId b; b_startDate := b_startDate b; b_endDate := b_endDate b;
     b_totalFare := b_totalFare b; b_platformFee := b_platformFee b; b_gstAmount := b_gstAmount b;
     b_netToVendor := b_netToVendor b; b_disputeFlag := b_disputeFlag b; b_quoteTotal := b_quoteTotal b;
     b_couponId := b_couponId b; b_discountAmount := b_discountAmount b;
     b_corporateAccountId := b_corporateAccountId b; b_cancellationMatrix := b_cancellationMatrix b;
     b_commissionSplit := Some split; b_securityDeposit := b_securityDeposit b; b_status := b_status b;
     b_cancellationReason := b_cancellationReason b; b_cancellationFee := b_cancellationFee b;
     b_refundAmount := b_refundAmount b; b_cancelledAt := b_cancelledAt b; b_cancelledBy := b_cancelledBy b |}.
Definition splitCommission (env : ReconEnv) (bookingId : string) (b : Booking) : RM unit :=
  s ← get;
  let split := calculateCommission (rd_rules (ls_ref (sales_core s)))
    {| cc_vendorId := b_vendorId b; cc_branchId := truthy (b_pickupHubId b);
       cc_vehicleClass := default CAT_SEDAN (rn_vehicleClass env bookingId); cc_channel := None;
       cc_grossAmount := rnd (b_totalFare b); cc_discountAmount := None; cc_subsidyAmount := None |} in
  updateBookingRow bookingId (with_split split).

Definition confirmPaidBooking (env : ReconEnv) (c : Candidate) (capturedPaymentId : string) : RM unit :=
  let bookingId := cn_bookingId c in
  let booking := cn_booking c in
  updatePaymentRow bookingId (with_paymentStatus PS_PAID (Some capturedPaymentId)) ;;
  redeemQuietly bookingId booking ;;
  updateBookingRow bookingId confirmedBooking ;;
  allocate bookingId booking ;;
  when (rn_hasCommission env) (try_catch (splitCommission env bookingId booking) (fun _ => mret tt)) ;;
  modify (fun s => set_holds (map (convertHold (b_customerId booking) (b_carId booking)) (sl_holds s)) s) ;;
  when (rn_hasInvoices env)
    (try_catch (on_pay (generateInvoiceForBooking yearMonth (rn_payEnv env) bookingId)) (fun _ => mret tt)) ;;
  when (rn_hasLedger env) (postReconciled env (baselineJournal bookingId booking (cn_payment c))).

Definition reconcilePaidBooking (env : ReconEnv) (c : Candidate) : RM Outcome :=
  let razorpayOrderId := default "" (pm_razorpayOrderId (cn_payment c)) in
  if negb (rn_razorpay env) || rn_useMock env then mret Skipped
  else
    match rn_orderPayments env razorpayOrderId with
    | Throw _ => mret Errored
    | Ok items =>
      match List.find (fun p => String.eqb (gp_status p) "captured" && String.eqb (gp_order_id p) razorpayOrderId) items with
      | None => mret Skipped
      | Some captured =>
        if match truthy (gp_currency captured) with Some cur => negb (isINR cur) | None => false end then mret Errored
        else if negb (gp_amount captured =? toPaise (totalExpectedOf (cn_booking c))) then mret Errored
        else
          transaction (confirmPaidBooking env c (gp_id captured)) ;;
          recordReconciliationAuditLog env "RECONCILIATION_AUTO_CONFIRMED_PAYMENT" (cn_bookingId c) ;;
          mret Healed
      end
    end.

(** ** Rule 3: stale orders *)
Definition expireStaleOrder (env : ReconEnv) (c : Candidate) : RM Outcome :=
  let razorpayOrderId := default "" (pm_razorpayOrderId (cn_payment c)) in
  let alive :=
    rn_razorpay env && negb (rn_useMock env) &&
    match rn_orderPayments env razorpayOrderId with
    | Ok items => existsb (fun p => String.eqb (gp_status p) "captured" || String.eqb (gp_status p) "authorized") items
    | Throw _ => false
    end in
  if alive then mret Skipped
  else
    updatePaymentRow (cn_bookingId c) (fun p => with_paymentStatus PS_FAILED (pm_razorpayPaymentId p) p) ;;
    recordReconciliationAuditLog env "RECONCILIATION_STALE_ORDER_EXPIRED" (pm_id (cn_payment c)) ;;
    mret Healed.

(** ** Rule 4: contradicting states *)

(** Holds have no [bookingId]: Prisma refuses the query that releases them. *)
Definition cancelRefunded (env : ReconEnv) (c : Candidate) : RM Outcome :=
  updateBookingRow (cn_bookingId c) (cancelledFor "Reconciled: linked payment was already refunded"
    (default 0%Q (pm_refundAmount (cn_payment c))) (rn_now env)) ;;
  on_core (onFleet (setStage (cn_bookingId c) FS_CANCELLED)) ;;
  throw OtherError.
Definition healRefunded (env : ReconEnv) (c : Candidate) : RM Outcome :=
  try_catch (cancelRefunded env c) (fun _ => mret Errored).

(** Whether a refund was found and linked. *)
Definition linkGatewayRefund (env : ReconEnv) (c : Candidate) : RM bool :=
  match truthy (pm_razorpayPaymentId (cn_payment c)) with
  | Some razorpayPaymentId =>
    if rn_razorpay env && negb (rn_useMock env) then
      items ← of_result (rn_refunds env razorpayPaymentId);
      match List.find liveRefund items with
      | Some validRefund =>
        linkRefund (cn_bookingId c) validRefund (refundRupeesOf (gr_amount validRefund)) ;;
        recordReconciliationAuditLog env "RECONCILIATION_AUTO_HEALED_REFUND" (pm_id (cn_payment c)) ;;
        mret true
      | None => mret false
      end
    else mret false
  | None => mret false
  end.
Definition settleCancelled (env : ReconEnv) (c : Candidate) : RM Outcome :=
  linked ← try_catch (linkGatewayRefund env c) (fun _ => mret false);
  if (linked : bool) then mret Healed
  else
    recordReconciliationAuditLog env "RECONCILIATION_INCONSISTENCY_DETECTED" (cn_bookingId c) ;;
    mret Errored.

(** ** Rule 5: wallets *)
Definition walletConsistent (walletId : string) (wallet : Wallet) (entries : list WalletLedgerEntry) : bool :=
  let totalCredits := sum_by we_amount (filter (fun e => ofDirection walletId DIR_CREDIT e) entries) in
  let totalDebits := sum_by we_amount (filter (fun e => ofDirection walletId DIR_DEBIT e) entries) in
  let calculatedBalance := (totalCredits - totalDebits)%Q in
  d_eq (w_availableBalance wallet) calculatedBalance &&
  d_eq (w_realBalance wallet + w_promoBalance wallet)%Q (w_availableBalance wallet).
Definition frozenWallet (w : Wallet) : Wallet :=
  {| w_userId := w_userId w; w_availableBalance := w_availableBalance w; w_lockedBalance := w_lockedBalance w;
     w_realBalance := w_realBalance w; w_promoBalance := w_promoBalance w; w_status := WS_FROZEN |}.
Definition salesWallets s : WalletStore := pay_wallets (sl_pay s).
Fixpoint reconcileWallets (env : ReconEnv) (wallets : list (string * Wallet)) : RM nat :=
  match wallets with
  | [] => mret 0%nat
  | (walletId, wallet) :: rest =>
    s ← get;
    if walletConsistent walletId wallet (ws_entries (salesWallets s)) then reconcileWallets env rest
    else
      row ← from_option_or (ws_wallets (salesWallets s) !! walletId) PrismaP2025;
      on_pay (zoom pay_wallets set_pay_wallets (modify (set_wallet walletId (frozenWallet row)))) ;;
      recordReconciliationAuditLog env "WALLET_RECONCILIATION_DISCREPANCY_FROZEN" walletId ;;
      n ← reconcileWallets env rest;
      mret (S n)
  end.
(** Wallets checked, discrepancies found. *)
Definition reconcileAllWallets (env : ReconEnv) : RM (nat * nat) :=
  s ← get;
  let wallets := map_to_list (ws_wallets (salesWallets s)) in
  discrepanciesFound ← reconcileWallets env wallets;
  mret (length wallets, discrepanciesFound).

(** ** The cycle *)
Fixpoint reconcileEach (body : Candidate -> RM Outcome) (l : list Candidate) (report : ReconciliationReport)
    : RM ReconciliationReport :=
  match l with
  | [] => mret report
  | c :: rest => o ← body c; reconcileEach body rest (countOutcome o report)
  end.
Definition rule (p : Candidate -> bool) (byTime : string -> Z) (body : Candidate -> RM Outcome)
    (report : ReconciliationReport) : RM ReconciliationReport :=
  s ← get;
  let found := candidates p byTime s in
  reconcileEach body found (countFound (length found) report).

Definition paymentLock (c : Candidate) : string := "lock:reconcile:payment:" +:+ pm_id (cn_payment c).
Definition bookingLock (c : Candidate) : string := "lock:reconcile:booking:" +:+ cn_bookingId c.

Definition reconcileOrphanedRefunds (env : ReconEnv) : ReconciliationReport -> RM ReconciliationReport :=
  rule (orphanedRefund env) (rn_updatedAt env)
    (fun c => withRecordLock env (paymentLock c) (reconcileOrphanedRefund env c)).
Definition reconcileUnconfirmedPaidBookings (env : ReconEnv) : ReconciliationReport -> RM ReconciliationReport :=
  rule (unpaidOrder env (rn_now env - rn_lookbackMinutes env * MINUTE_MS)) (rn_createdAt env)
    (fun c => withRecordLock env (bookingLock c) (reconcilePaidBooking env c)).
Definition reconcileStalePaymentOrders (env : ReconEnv) : ReconciliationReport -> RM ReconciliationReport :=
  rule (unpaidOrder env (rn_now env - rn_staleHours env * 60 * MINUTE_MS)) (rn_createdAt env)
    (fun c => withRecordLock env (paymentLock c) (expireStaleOrder env c)).
Definition reconcileFinancialInconsistencies (env : ReconEnv) (report : ReconciliationReport)
    : RM ReconciliationReport :=
  report ← rule refundedConfirmed (rn_rowOrder env) (healRefunded env) report;
  rule cancelledUnrefunded (rn_rowOrder env) (settleCancelled env) report.

Definition runReconciliationCycle (env : ReconEnv) : RM ReconciliationReport :=
  report ← reconcileOrphanedRefunds env empty_report;
  report ← reconcileUnconfirmedPaidBookings env report;
  report ← reconcileStalePaymentOrders env report;
  report ← reconcileFinancialInconsistencies env report;
  reconcileAllWallets env ;;
  mret report.

Definition cronLock : string := "lock:reconciliation:cron".
Definition handleScheduledReconciliation (env : ReconEnv) : RM (option ReconciliationReport) :=
  if negb (rn_isEnabled env) then mret None
  else
    acquired ← setNX env cronLock (10 * 60 * 1000);
    if (acquired : bool) then
      try_finally (report ← runReconciliationCycle env; mret (Some report)) (releaseRecordLock env cronLock)
    else mret None.
End reconciliation.
