(* ===== verification/ReconciliationSafety.v ===== *)
(** * What reconciliation keeps

    The reconciliation cycle books no car twice, counts every candidate once,
    confirms a booking only for a payment the gateway captured to the paisa,
    and freezes exactly the wallets whose balance is not what their entries
    say. *)
From S2P Require Import Prelude JsNumber Decimal Schema Ledger Wallet Locks HandoverOtp PaymentRefund Outbox BookingStore.
From S2P Require Import Commission CancellationPolicy BookingLifecycle LifecycleMoney Payments PaymentOrders PaymentWebhook FareCalculator.
From S2P Require Import Coupons Quotes BookingCreation Reservations Reconciliation.
Open Scope Z_scope.

(** The branch of a test that changes nothing. *)
Ltac branch := match goal with |- preserves _ (if ?b then _ else _) => destruct b; [auto with preserves|] end.

(** ** Bookings *)
Section bookings.
Context {R : Type} {redis : Redis R} {col : NumericColumn} {dec : DecimalArith}.
Variable yearMonth : Z -> string.
Implicit Types s : SalesStore R.

(** Two active bookings of a car never overlap, and the bookings [ids] are
    active. *)
Definition waiting s (id : string) : Prop := exists x, sales_slots s !! id = Some x /\ active (sl_status x) = true.
Definition orderly (ids : list string) s : Prop := ActiveBook.exclusive (sales_slots s) /\ Forall (waiting s) ids.

Lemma orderly_keeps {A} ids (m : M (SalesStore R) A) : keeps sales_slots m -> preserves (orderly ids) m.
Proof.
  intros Hm s r s' H [Hx Hw]. pose proof (keeps_eq _ _ _ _ _ Hm H) as E. unfold orderly, waiting. by rewrite E.
Qed.

(** A booking gets another status: it stays active, or stops being so. *)
Lemma orderly_restated ids id f st : (forall b, slot (f b) = with_status st (slot b)) ->
  (if active st then id ∈ ids else ids = []) -> preserves (orderly ids) (updateBookingRow (R:=R) id f).
Proof.
  intros Hf Hst s r s' H [Hx Hw]. unfold updateBookingRow in H. step_in H.
  destruct (ls_bookings (sales_core s) !! id) as [b|] eqn:Eb; [|by injection H as _ <-].
  step_in H. injection H as _ <-.
  assert (sales_slots s !! id = Some (slot b)) as Es by (unfold sales_slots; by rewrite lookup_slots, Eb).
  assert (forall s1, sales_slots s1 = <[id := with_status st (slot b)]> (sales_slots s) -> orderly ids s1) as Hgo.
  { intros s1 E1. unfold orderly, waiting. rewrite E1. destruct (active st) eqn:Ea.
    - pose proof (proj1 (Forall_forall _ _) Hw id Hst) as (x & Ex & Ax). rewrite Es in Ex. injection Ex as <-.
      split.
      + apply ActiveBook.update_exclusive; [done|]. intros _ j y Hj Ey Hc Ay. exact (Hx j id y (slot b) Hj Ey Es Ay Ax Hc).
      + apply Forall_forall. intros i Hi. pose proof (proj1 (Forall_forall _ _) Hw i Hi) as (y & Ey & Ay).
        destruct (decide (i = id)) as [->|Hne]; [exists (with_status st (slot b))|exists y].
        * by rewrite lookup_insert_eq.
        * by rewrite lookup_insert_ne by congruence.
    - subst ids. split; [|done]. apply ActiveBook.update_exclusive; [done|]. simpl. by rewrite Ea. }
  apply Hgo. unfold sales_slots, slots. simpl. by rewrite fmap_insert, Hf.
Qed.

Lemma core_slots {A} (m : M (LifecycleStore R) A) : keeps slots m -> keeps sales_slots (on_core m).
Proof.
  intros Hm x s r s' H <-. apply zoom_run in H as (c & H & ->). exact (keeps_eq _ _ _ _ _ Hm H).
Qed.
Lemma audit_slots env a t : keeps sales_slots (recordReconciliationAuditLog (R:=R) env a t).
Proof.
  unfold recordReconciliationAuditLog. destruct (rn_admin env); [|intros x; auto with preserves].
  apply core_slots. intros x. by apply preserves_modify.
Qed.
Lemma locks_slots {A} (m : M R A) : keeps sales_slots (on_locks m).
Proof. intros x. by apply preserves_zoom. Qed.
Lemma setNX_slots env k ttl : keeps sales_slots (setNX env k ttl).
Proof. unfold setNX. destruct (rn_redisUp env); [apply locks_slots|intros x; auto with preserves]. Qed.
Lemma releaseLock_slots env k : keeps sales_slots (releaseRecordLock env k).
Proof. intros x. apply preserves_try_catch; [apply locks_slots|auto with preserves]. Qed.
Lemma updatePaymentRow_slots id f : keeps sales_slots (updatePaymentRow (R:=R) id f).
Proof.
  intros x. unfold updatePaymentRow. apply preserves_bind; [auto with preserves|intros t].
  apply preserves_bind; [auto with preserves|intros p]. apply core_slots. intros y. by apply preserves_zoom.
Qed.
Lemma linkRefund_slots id rf q : keeps sales_slots (linkRefund (R:=R) id rf q).
Proof.
  intros x. unfold linkRefund. apply preserves_bind; [auto with preserves|intros t].
  apply preserves_bind; [auto with preserves|intros ?]. apply updatePaymentRow_slots.
Qed.
Lemma post_slots env input : keeps sales_slots (postReconciled (R:=R) env input).
Proof. apply core_slots. intros x. by apply preserves_zoom. Qed.
Lemma redeem_slots id b : keeps sales_slots (redeemQuietly (R:=R) id b).
Proof.
  unfold redeemQuietly. destruct (truthy _); [|intros x; auto with preserves].
  apply on_pay_slots. intros x. apply preserves_bind; [auto with preserves|intros t].
  repeat case_match; auto with preserves; (apply preserves_bind; [by apply preserves_modify|intros _]);
    (apply preserves_bind; [auto with preserves|intros d]; by apply preserves_modify).
Qed.
Lemma splitCommission_slots env id b : keeps sales_slots (splitCommission (R:=R) env id b).
Proof.
  intros x s r s' H <-. unfold splitCommission, updateBookingRow in H. do 2 step_in H.
  destruct (ls_bookings (sales_core s) !! id) as [b0|] eqn:Eb; [|by injection H as _ <-].
  step_in H. injection H as _ <-. unfold sales_slots, slots. simpl. rewrite fmap_insert. apply insert_id.
  by rewrite lookup_fmap, Eb.
Qed.
Lemma fleet_slots f : keeps slots (onFleet (R:=R) f).
Proof. intros x. by apply preserves_modify. Qed.
Lemma invoice_slots env id : keeps sales_slots (on_pay (generateInvoiceForBooking (R:=R) yearMonth env id)).
Proof. apply on_pay_slots, (keeps_of _ (fun v => slots v.1) _ (keeps_invoice yearMonth env id)). Qed.

(** What a rule does to one candidate. *)
Lemma locked_orderly env key body ids : preserves (orderly ids) body -> preserves (orderly ids) (withRecordLock (R:=R) env key body).
Proof.
  intros Hb. apply preserves_bind; [apply orderly_keeps, setNX_slots|intros [|]]; [|auto with preserves].
  apply preserves_finally; [apply preserves_try_catch; auto with preserves|apply orderly_keeps, releaseLock_slots].
Qed.
Lemma healed_orderly env c ids : cn_bookingId c ∈ ids ->
  preserves (orderly ids) (reconcilePaidBooking yearMonth env c).
Proof.
  intros Hc. unfold reconcilePaidBooking. destruct (_ || _); [auto with preserves|].
  destruct (rn_orderPayments env _) as [items|]; [|auto with preserves].
  destruct (List.find _ items) as [g|]; [|auto with preserves]. branch. branch. apply preserves_bind;
    [|intros _; apply preserves_bind; [apply orderly_keeps, audit_slots|auto with preserves]].
  apply preserves_transaction. unfold confirmPaidBooking.
  apply preserves_bind; [apply orderly_keeps, updatePaymentRow_slots|intros _].
  apply preserves_bind; [apply orderly_keeps, redeem_slots|intros _].
  apply preserves_bind; [by apply orderly_restated with BS_CONFIRMED|intros _].
  apply preserves_bind; [apply orderly_keeps, core_slots, fleet_slots|intros _].
  apply preserves_bind; [apply preserves_when, preserves_try_catch; [|auto with preserves]|intros _].
  - apply orderly_keeps, splitCommission_slots.
  - apply preserves_bind; [by apply preserves_modify|intros _].
    apply preserves_bind; [apply preserves_when, preserves_try_catch; [apply orderly_keeps, invoice_slots|auto with preserves]|intros _].
    apply preserves_when, orderly_keeps, post_slots.
Qed.
Lemma refunded_orderly env c : preserves (orderly []) (reconcileOrphanedRefund (R:=R) env c).
Proof.
  unfold reconcileOrphanedRefund. destruct (_ || _); [auto with preserves|].
  destruct (rn_refunds env _) as [items|]; [|auto with preserves].
  destruct (List.find _ items) as [g|]; [|auto with preserves]. cbv zeta. destruct (d_gt _ _); [auto with preserves|].
  apply preserves_bind; [|intros _; apply preserves_bind; [apply orderly_keeps, audit_slots|auto with preserves]].
  apply preserves_transaction. unfold healOrphanedRefund.
  apply preserves_bind; [apply orderly_keeps, linkRefund_slots|intros _].
  apply preserves_bind; [by apply orderly_restated with BS_CANCELLED|intros _].
  apply preserves_when, preserves_bind; [auto with preserves|intros t].
  apply preserves_bind; [apply preserves_when|intros _]; apply orderly_keeps, post_slots.
Qed.
Lemma expired_orderly env c ids : preserves (orderly ids) (expireStaleOrder (R:=R) env c).
Proof.
  apply orderly_keeps. intros x. unfold expireStaleOrder. cbv zeta. destruct (_ && _); [auto with preserves|].
  apply preserves_bind; [apply updatePaymentRow_slots|intros _].
  apply preserves_bind; [apply audit_slots|auto with preserves].
Qed.
Lemma cancelled_orderly env c : preserves (orderly []) (healRefunded (R:=R) env c).
Proof.
  apply preserves_try_catch; [|auto with preserves]. unfold cancelRefunded.
  apply preserves_bind; [by apply orderly_restated with BS_CANCELLED|intros _].
  apply preserves_bind; [apply orderly_keeps, core_slots, fleet_slots|auto with preserves].
Qed.
Lemma settled_orderly env c ids : preserves (orderly ids) (settleCancelled (R:=R) env c).
Proof.
  apply orderly_keeps. intros x. unfold settleCancelled. apply preserves_bind.
  - apply preserves_try_catch; [|auto with preserves]. unfold linkGatewayRefund.
    destruct (truthy _); [|auto with preserves]. destruct (_ && _); [|auto with preserves].
    apply preserves_bind; [auto with preserves|intros items]. destruct (List.find _ _); [|auto with preserves].
    apply preserves_bind; [apply linkRefund_slots|intros _]. apply preserves_bind; [apply audit_slots|auto with preserves].
  - intros [|]; [auto with preserves|]. apply preserves_bind; [apply audit_slots|auto with preserves].
Qed.
Lemma wallets_slots env l : keeps sales_slots (reconcileWallets (R:=R) env l).
Proof.
  intros x. induction l as [|[id w] l IH]; simpl; [auto with preserves|].
  apply preserves_bind; [auto with preserves|intros t]. destruct (walletConsistent _ _ _); [done|].
  apply preserves_bind; [auto with preserves|intros row].
  apply preserves_bind; [apply on_pay_slots; intros y; by apply preserves_zoom|intros _].
  apply preserves_bind; [apply audit_slots|intros _]. apply preserves_bind; [done|auto with preserves].
Qed.
End bookings.

(** ** The cycle *)
Section cycle.
Context {R : Type} {redis : Redis R} {col : NumericColumn} {dec : DecimalArith}.
Variable yearMonth : Z -> string.
Implicit Types s : SalesStore R.

Lemma candidate_found p byTime s c : c ∈ candidates p byTime s ->
  p c = true /\ ls_bookings (sales_core s) !! cn_bookingId c = Some (cn_booking c) /\
  paymentsOf s !! cn_bookingId c = Some (cn_payment c).
Proof.
  intros (i & H%list_elem_of_lookup_2 & _)%elem_of_take. rewrite sort_desc_perm in H.
  apply list_elem_of_In, filter_In in H as [H%list_elem_of_In Hp].
  apply list_elem_of_omap in H as ([id pm] & Hrow%elem_of_map_to_list & Hb).
  destruct (ls_bookings (sales_core s) !! id) as [b|] eqn:Eb; simpl in Hb; rewrite Eb in Hb; [|done].
  by injection Hb as <-.
Qed.
Lemma candidates_bound p byTime s : (length (candidates p byTime s) <= 50)%nat.
Proof. unfold candidates. rewrite length_take. lia. Qed.

Lemma each_preserves (P : SalesStore R -> Prop) body l : (forall c, c ∈ l -> preserves P (body c)) ->
  forall report, preserves P (reconcileEach body l report).
Proof.
  induction l as [|c l IH]; intros Hb report; simpl; [auto with preserves|].
  apply preserves_bind; [apply Hb; by left|intros o]. apply IH. intros d Hd. apply Hb. by right.
Qed.
Lemma rule_orderly p byTime body report ids :
  (forall c, preserves (orderly ids) (body c)) -> preserves (orderly ids) (rule (R:=R) p byTime body report).
Proof. intros Hb. apply preserves_get. intros s r s' Hs H. revert H Hs. apply each_preserves. auto. Qed.

Lemma unconfirmed_orderly env report : preserves (orderly []) (reconcileUnconfirmedPaidBookings yearMonth env report).
Proof.
  apply preserves_get. intros s r s' [Hs _] H.
  set (found := candidates _ _ s) in H. assert (orderly (map cn_bookingId found) s) as Hf.
  { split; [done|]. apply Forall_fmap, Forall_forall. intros c (Hp & Hb & _)%candidate_found.
    exists (slot (cn_booking c)). unfold sales_slots. rewrite lookup_slots, Hb. split; [done|].
    apply andb_true_iff in Hp as [[_ Hst%bool_decide_eq_true]%andb_true_iff _]. simpl. by rewrite Hst. }
  assert (orderly (map cn_bookingId found) s') as [Hx _]; [|done]. revert H Hf. apply each_preserves.
  intros c Hc. apply locked_orderly, healed_orderly. by apply list_elem_of_fmap_2.
Qed.

Lemma cycle_orderly env : preserves (orderly []) (runReconciliationCycle yearMonth env).
Proof.
  unfold runReconciliationCycle. apply preserves_bind.
  { apply rule_orderly. intros c. apply locked_orderly, refunded_orderly. }
  intros r1. apply preserves_bind; [apply unconfirmed_orderly|intros r2]. apply preserves_bind.
  { apply rule_orderly. intros c. apply locked_orderly, expired_orderly. }
  intros r3. apply preserves_bind.
  { apply preserves_bind; [|intros r]; apply rule_orderly; intros c; [apply cancelled_orderly|apply settled_orderly]. }
  intros r4. apply preserves_bind; [|auto with preserves].
  apply preserves_bind; [auto with preserves|intros t].
  apply preserves_bind; [apply orderly_keeps, wallets_slots|auto with preserves].
Qed.
Lemma job_orderly env : preserves (orderly []) (handleScheduledReconciliation yearMonth env).
Proof.
  unfold handleScheduledReconciliation. branch.
  apply preserves_bind; [apply orderly_keeps, setNX_slots|intros [|]]; [|auto with preserves].
  apply preserves_finally; [|apply orderly_keeps, releaseLock_slots].
  apply preserves_bind; [apply cycle_orderly|auto with preserves].
Qed.

(** ** Every candidate is counted *)
Lemma audit_returns env a t : returns (recordReconciliationAuditLog (R:=R) env a t).
Proof. unfold recordReconciliationAuditLog. destruct (rn_admin env); [apply returns_zoom|]; auto with returns. Qed.
Lemma release_returns env k : returns (releaseRecordLock env k).
Proof. apply returns_catch. auto with returns. Qed.
Lemma setNX_returns env k ttl : rn_redisUp env = true -> returns (setNX env k ttl).
Proof.
  intros Hup. unfold setNX. rewrite Hup. apply returns_zoom. intros r. unfold trySet.
  destruct (redis_set_px_nx _ _ _ _ _) as [b r']. by exists b, r'.
Qed.
Lemma locked_returns env k body : rn_redisUp env = true -> returns (withRecordLock (R:=R) env k body).
Proof.
  intros Hup. apply returns_bind; [by apply setNX_returns|intros [|]]; [|auto with returns].
  apply returns_finally; [apply returns_catch; auto with returns|apply release_returns].
Qed.
Lemma settled_returns env c : returns (settleCancelled (R:=R) env c).
Proof.
  apply returns_bind; [apply returns_catch; auto with returns|intros [|]]; [auto with returns|].
  apply returns_bind; [apply audit_returns|auto with returns].
Qed.

(** ** Wallets *)
Lemma none_filtered {A} (f : A -> bool) l : (forall x, x ∈ l -> f x = false) -> List.filter f l = [].
Proof.
  induction l as [|x l IH]; intros Hf; [done|]. simpl. rewrite (Hf x) by left. apply IH. intros y Hy. apply Hf. by right.
Qed.
Lemma filtered_sublist {A} (f : A -> bool) l : List.filter f l `sublist_of` l.
Proof. induction l as [|x l IH]; simpl; [done|]. destruct (f x); by constructor. Qed.
Definition audited s (id : string) (w : Wallet) : Wallet :=
  if walletConsistent id w (ws_entries (salesWallets s)) then w else frozenWallet w.
Definition discrepant s (row : string * Wallet) : bool :=
  negb (walletConsistent (fst row) (snd row) (ws_entries (salesWallets s))).
(** Everything but wallets and the audit log. *)
Definition off_wallets s :=
  (ls_bookings (sales_core s), paymentsOf s, ws_entries (salesWallets s), ws_ledger (salesWallets s), sl_holds s).

Lemma audit_run env a t s : exists s', recordReconciliationAuditLog (R:=R) env a t s = (Ok tt, s') /\
  salesWallets s' = salesWallets s /\ off_wallets s' = off_wallets s.
Proof. unfold recordReconciliationAuditLog. destruct (rn_admin env); (eexists; split; [reflexivity|done]). Qed.

Lemma wallets_run env l : NoDup l.*1 -> forall s, (forall row, row ∈ l -> ws_wallets (salesWallets s) !! fst row = Some (snd row)) ->
  exists s', reconcileWallets (R:=R) env l s = (Ok (length (List.filter (discrepant s) l)), s') /\
    off_wallets s' = off_wallets s /\
    (forall id, ws_wallets (salesWallets s') !! id =
      (if bool_decide (id ∈ l.*1) then audited s id else fun w => w) <$> ws_wallets (salesWallets s) !! id) /\
    (List.filter (discrepant s) l = [] -> s' = s).
Proof.
  induction l as [|[id w] l IH]; intros Hnd s Hl.
  - exists s. split_and!; try done. intros id. by destruct (ws_wallets _ !! id).
  - rewrite fmap_cons in *. apply NoDup_cons in Hnd as [Hid Hnd].
    pose proof (Hl (id, w) (list_elem_of_here _ _)) as Hw. cbn [fst snd] in *.
    assert (forall j, j <> id -> bool_decide (j ∈ id :: l.*1) = bool_decide (j ∈ l.*1)) as Hj
      by (intros j Hj; apply bool_decide_ext; rewrite elem_of_cons; naive_solver).
    assert (bool_decide (id ∈ id :: l.*1) = true) as Hin by (apply bool_decide_eq_true_2; by left).
    assert (bool_decide (id ∈ l.*1) = false) as Hout by by apply bool_decide_eq_false_2.
    cbn [reconcileWallets List.filter]. rewrite get_bind.
    assert (discrepant s (id, w) = negb (walletConsistent id w (ws_entries (salesWallets s)))) as -> by done.
    destruct (walletConsistent id w _) eqn:Ec; cbn [negb].
    + destruct (IH Hnd s) as (s' & E & F & W & Z); [intros row Hr; apply Hl; by right|].
      exists s'. split_and!; try done. intros j. rewrite W. destruct (decide (j = id)) as [->|Hne]; [|by rewrite Hj].
      rewrite Hout, Hin, Hw. unfold audited. simpl. by rewrite Ec.
    + rewrite Hw. cbn [from_option_or]. rewrite ret_bind, bind_run.
      set (s1 := set_pay (set_pay_wallets (set_wallet id (frozenWallet w) (pay_wallets (sl_pay s))) (sl_pay s)) s).
      assert (on_pay (zoom pay_wallets set_pay_wallets (modify (set_wallet id (frozenWallet w)))) s = (Ok tt, s1)) as -> by done.
      destruct (audit_run env "WALLET_RECONCILIATION_DISCREPANCY_FROZEN" id s1) as (s2 & E2 & W2 & F2).
      rewrite bind_run, E2, bind_run. destruct (IH Hnd s2) as (s' & E & F & W & Z).
      { intros row Hr. rewrite W2. cbn. rewrite lookup_insert_ne; [apply Hl; by right|].
        intros ->. apply Hid, list_elem_of_fmap. eauto. }
      assert (discrepant s2 = discrepant s) as Ed by (unfold discrepant; by rewrite W2).
      assert (forall j, audited s2 j = audited s j) as Ea by (intros j; unfold audited; by rewrite W2).
      rewrite Ed in *. exists s'. rewrite E. split_and!; [done|by rewrite F, F2| |done].
      intros j. rewrite W, W2, Ea. cbn [s1 salesWallets]. destruct (decide (j = id)) as [->|Hne].
      * rewrite Hout, Hin, Hw. cbn. rewrite lookup_insert_eq. unfold audited. cbn. by rewrite Ec.
      * rewrite Hj by done. f_equal. cbn. by rewrite lookup_insert_ne by congruence.
Qed.

Lemma sides_net id l :
  (sum_by we_amount (filter (fun e => ofDirection id DIR_CREDIT e) l) - sum_by we_amount (filter (fun e => ofDirection id DIR_DEBIT e) l)
   == wallet_net id l)%Q.
Proof.
  unfold wallet_net, ofDirection, signed. induction l as [|e l IH]; [reflexivity|]. rewrite !filter_cons. cbn [sum_by].
  destruct (String.eqb (we_walletId e) id), (we_direction e); simpl;
    repeat (rewrite decide_True by done || rewrite decide_False by (intros []); simpl); rewrite <- IH; ring.
Qed.
Lemma walletConsistent_iff id w l : walletConsistent id w l = true <->
  (w_availableBalance w == wallet_net id l /\ w_realBalance w + w_promoBalance w == w_availableBalance w)%Q.
Proof. unfold walletConsistent, d_eq. by rewrite andb_true_iff, !Qeq_bool_iff, sides_net. Qed.

(** Every wallet is checked; the discrepant ones are frozen, nothing else. *)
Lemma allWallets_run env s : exists s',
  reconcileAllWallets (R:=R) env s =
    (Ok (size (ws_wallets (salesWallets s)), length (List.filter (discrepant s) (map_to_list (ws_wallets (salesWallets s))))), s') /\
  off_wallets s' = off_wallets s /\
  ws_wallets (salesWallets s') = map_imap (fun id w => Some (audited s id w)) (ws_wallets (salesWallets s)) /\
  ((forall id w, ws_wallets (salesWallets s) !! id = Some w -> walletConsistent id w (ws_entries (salesWallets s)) = true) ->
   s' = s).
Proof.
  destruct (wallets_run env (map_to_list (ws_wallets (salesWallets s))) (NoDup_fst_map_to_list _) s) as (s' & E & F & W & Z).
  { intros [id w] Hr%elem_of_map_to_list. done. }
  exists s'. unfold reconcileAllWallets. rewrite get_bind, bind_run, E. split_and!; [|done| |].
  - by rewrite <- length_map_to_list.
  - apply map_eq. intros id. rewrite W, map_lookup_imap.
    destruct (ws_wallets _ !! id) as [w|] eqn:Ew; [|done]. simpl.
    rewrite bool_decide_eq_true_2; [done|]. apply list_elem_of_fmap. exists (id, w). by rewrite elem_of_map_to_list.
  - intros Hc. apply Z. apply none_filtered. intros [id w] Hr%elem_of_map_to_list. unfold discrepant. simpl. by rewrite Hc.
Qed.
Lemma allWallets_returns env : returns (reconcileAllWallets (R:=R) env).
Proof. intros s. destruct (allWallets_run env s) as (s' & E & _). eauto. Qed.
(** The audit of the job is the wallet service's own. *)
Lemma consistent_wallet s id w : store_ok (salesWallets s) -> ws_wallets (salesWallets s) !! id = Some w ->
  walletConsistent id w (ws_entries (salesWallets s)) = true.
Proof.
  intros Hs Hw. destruct (reconcile_consistent id _ w Hs Hw) as (rec & H & Hm). unfold reconcileWallet in H.
  rewrite get_bind, Hw in H. cbn [from_option_or] in H. rewrite ret_bind, bind_run in H.
  destruct (when _ _ _) as [[[]|e] s1]; [|done]. injection H as <- _. exact Hm.
Qed.


(** A report that counts what it found, once. *)
Record tallied (n : nat) (report : ReconciliationReport) : Prop := {
  ct_processed : rp_processed report = rp_candidatesFound report;
  ct_found : rp_candidatesFound report = rp_healed report + rp_skipped report + rp_errors report;
  ct_signs : 0 <= rp_healed report /\ 0 <= rp_skipped report /\ 0 <= rp_errors report;
  ct_bound : rp_candidatesFound report <= 50 * Z.of_nat n;
}.
(** [k] of the candidates found are still to be processed. *)
Record counting (n k : nat) (report : ReconciliationReport) : Prop := {
  cg_processed : rp_processed report + Z.of_nat k = rp_candidatesFound report;
  cg_found : rp_processed report = rp_healed report + rp_skipped report + rp_errors report;
  cg_signs : 0 <= rp_healed report /\ 0 <= rp_skipped report /\ 0 <= rp_errors report;
  cg_bound : rp_candidatesFound report <= 50 * Z.of_nat n;
}.
Lemma each_counts n body l : (forall c, returns (body c)) -> forall report s, counting n (length l) report ->
  exists report' s', reconcileEach (R:=R) body l report s = (Ok report', s') /\ tallied n report'.
Proof.
  intros Hb. induction l as [|c l IH]; intros report s [H1 H2 H3 H4].
  - exists report, s. split; [done|]. simpl in H1. split; lia.
  - destruct (Hb c s) as (o & s1 & E). simpl. rewrite bind_run, E. apply IH.
    simpl in H1. destruct o; split; simpl; lia.
Qed.
Lemma rule_counts n p byTime body report s : (forall c, returns (body c)) -> tallied n report ->
  exists report' s', rule (R:=R) p byTime body report s = (Ok report', s') /\ tallied (S n) report'.
Proof.
  intros Hb [H1 H2 H3 H4]. unfold rule. rewrite get_bind. apply each_counts; [done|].
  pose proof (candidates_bound p byTime s). split; simpl; lia.
Qed.
Lemma counted_empty : tallied 0 empty_report.
Proof. split; simpl; lia. Qed.

Lemma cycle_counts env s : rn_redisUp env = true ->
  exists report s', runReconciliationCycle yearMonth env s = (Ok report, s') /\ tallied 5 report.
Proof.
  intros Hup. unfold runReconciliationCycle.
  destruct (rule_counts 0 (orphanedRefund env) (rn_updatedAt env)
    (fun c => withRecordLock env (paymentLock c) (reconcileOrphanedRefund env c)) empty_report s)
    as (r1 & s1 & E1 & C1); [by intros; apply locked_returns|apply counted_empty|].
  destruct (rule_counts 1 (unpaidOrder env (rn_now env - rn_lookbackMinutes env * MINUTE_MS)) (rn_createdAt env)
    (fun c => withRecordLock env (bookingLock c) (reconcilePaidBooking yearMonth env c)) r1 s1)
    as (r2 & s2 & E2 & C2); [by intros; apply locked_returns|done|].
  destruct (rule_counts 2 (unpaidOrder env (rn_now env - rn_staleHours env * 60 * MINUTE_MS)) (rn_createdAt env)
    (fun c => withRecordLock env (paymentLock c) (expireStaleOrder env c)) r2 s2)
    as (r3 & s3 & E3 & C3); [by intros; apply locked_returns|done|].
  destruct (rule_counts 3 refundedConfirmed (rn_rowOrder env) (healRefunded env) r3 s3)
    as (r4 & s4 & E4 & C4); [intros; apply returns_catch; auto with returns|done|].
  destruct (rule_counts 4 cancelledUnrefunded (rn_rowOrder env) (settleCancelled env) r4 s4)
    as (r5 & s5 & E5 & C5); [apply settled_returns|done|].
  destruct (allWallets_returns env s5) as ([n k] & s6 & E6). exists r5, s6. split; [|done].
  unfold reconcileOrphanedRefunds, reconcileUnconfirmedPaidBookings, reconcileStalePaymentOrders.
  rewrite bind_run, E1, bind_run, E2, bind_run, E3, bind_run.
  unfold reconcileFinancialInconsistencies. rewrite bind_run, E4, E5, bind_run, E6. done.
Qed.
End cycle.

(** ** Confirming a captured payment *)
Section healing.
Context {R : Type} {redis : Redis R} {col : NumericColumn} {dec : DecimalArith}.
Variable yearMonth : Z -> string.
Implicit Types s : SalesStore R.

Definition rows s : gmap string Booking * gmap string Payment := (ls_bookings (sales_core s), paymentsOf s).
Lemma core_rows {A} (m : M (LifecycleStore R) A) :
  keeps (fun c => (ls_bookings c, ms_payments (ls_money c))) m -> keeps rows (on_core m).
Proof. intros Hm x s r s' H <-. apply zoom_run in H as (c & H & ->). exact (keeps_eq _ _ _ _ _ Hm H). Qed.
Lemma pay_rows {A} (m : M (PayStore R) A) : keeps ps_core m -> keeps rows (on_pay m).
Proof.
  intros Hm x s r s' H <-. apply zoom_run in H as (p & H & ->). pose proof (keeps_eq _ _ _ _ _ Hm H) as E.
  unfold rows, paymentsOf, sales_core in *. simpl. by rewrite E.
Qed.
Lemma redeem_rows id b : keeps rows (redeemQuietly (R:=R) id b).
Proof.
  unfold redeemQuietly. destruct (truthy _); [|intros x; auto with preserves].
  apply pay_rows. intros x. apply preserves_bind; [auto with preserves|intros t].
  repeat case_match; auto with preserves; (apply preserves_bind; [by apply preserves_modify|intros _]);
    (apply preserves_bind; [auto with preserves|intros d]; by apply preserves_modify).
Qed.
Lemma allocate_rows id b : keeps rows (allocate (R:=R) id b).
Proof. apply core_rows. intros x. by apply preserves_modify. Qed.
Lemma invoice_rows env b id : keeps rows (when b (try_catch (on_pay (generateInvoiceForBooking (R:=R) yearMonth env id)) (fun _ => mret tt))).
Proof.
  intros x. apply preserves_when, preserves_try_catch; [|auto with preserves].
  apply pay_rows, (keeps_of _ fst _ (keeps_invoice yearMonth env id)).
Qed.
Lemma updatePaymentRow_Ok id f s u s' : updatePaymentRow (R:=R) id f s = (Ok u, s') ->
  exists p, paymentsOf s !! id = Some p /\ rows s' = (ls_bookings (sales_core s), <[id := f p]> (paymentsOf s)).
Proof.
  unfold updatePaymentRow. rewrite get_bind. destruct (paymentsOf s !! id) as [p|] eqn:E; [|done].
  cbn [from_option_or]. rewrite ret_bind. intros [= _ <-]. by exists p.
Qed.
Lemma updateBookingRow_run id f s r s' b : updateBookingRow (R:=R) id f s = (r, s') ->
  ls_bookings (sales_core s) !! id = Some b -> rows s' = (<[id := f b]> (ls_bookings (sales_core s)), paymentsOf s).
Proof.
  unfold updateBookingRow. rewrite get_bind. intros H E. rewrite E in H. cbn [from_option_or] in H.
  rewrite ret_bind in H. by injection H as _ <-.
Qed.
Lemma updateBookingRow_Ok id f s u s' : updateBookingRow (R:=R) id f s = (Ok u, s') ->
  is_Some (ls_bookings (sales_core s) !! id).
Proof.
  unfold updateBookingRow. rewrite get_bind. destruct (ls_bookings _ !! id) as [b|]; [by eexists|done].
Qed.
(** The commission split is stored, or its failure ignored. *)
Lemma split_rows env id b0 on s u s' b :
  when on (try_catch (splitCommission (R:=R) env id b0) (fun _ => mret tt)) s = (Ok u, s') ->
  ls_bookings (sales_core s) !! id = Some b ->
  exists b', b_status b' = b_status b /\ rows s' = (<[id := b']> (ls_bookings (sales_core s)), paymentsOf s).
Proof.
  intros H E. destruct on; simpl in H.
  - unfold try_catch in H. destruct (splitCommission env id b0 s) as [r1 s1] eqn:E1. unfold splitCommission in E1.
    rewrite get_bind in E1. eapply updateBookingRow_run in E1; [|done]. eexists. split; [|destruct r1; injection H as _ <-; exact E1]. done.
  - injection H as _ <-. exists b. split; [done|]. unfold rows. by rewrite insert_id.
Qed.
(** The journal under a key is in the ledger once it was recorded. *)
Lemma post_Ok env input k s u s' : truthy (rj_idempotencyKey input) = Some k ->
  postReconciled (R:=R) env input s = (Ok u, s') ->
  rows s' = rows s /\ is_Some (List.find (by_key k) (the_ledger (sales_core s'))).
Proof.
  intros Hk H. split.
  - refine (keeps_eq _ _ _ _ _ (core_rows _ _) H). intros x. by apply preserves_zoom.
  - unfold postReconciled, on_core in H. do 2 apply zoom_run in H as (? & H & ->).
    apply bind_Ok in H as (r & L & H & H'). injection H' as _ <-.
    destruct (recordJournal_key_found _ _ _ _ _ _ _ k Hk H) as (e & E & _). exists e. exact E.
Qed.

(** What makes a captured payment and what it writes. *)
Record captured_for (env : ReconEnv) (c : Candidate) (g : GatewayPayment) : Prop := {
  cf_listed : exists items, rn_orderPayments env (default "" (pm_razorpayOrderId (cn_payment c))) = Ok items /\ In g items;
  cf_captured : gp_status g = "captured";
  cf_order : gp_order_id g = default "" (pm_razorpayOrderId (cn_payment c));
  cf_currency cur : truthy (gp_currency g) = Some cur -> isINR cur = true;
  cf_amount : gp_amount g = toPaise (totalExpectedOf (cn_booking c));
}.
Lemma reconcilePaid_cases env c s r s' : reconcilePaidBooking yearMonth env c s = (r, s') ->
  (r <> Ok Healed /\ s' = s) \/
  exists g s1, r = Ok Healed /\ captured_for env c g /\ confirmPaidBooking yearMonth env c (gp_id g) s = (Ok tt, s1) /\
    recordReconciliationAuditLog env "RECONCILIATION_AUTO_CONFIRMED_PAYMENT" (cn_bookingId c) s1 = (Ok tt, s').
Proof.
  unfold reconcilePaidBooking. destruct (_ || _); [by intros [= <- <-]; left|].
  destruct (rn_orderPayments env _) as [items|] eqn:Ei; [|by intros [= <- <-]; left].
  destruct (List.find _ items) as [g|] eqn:Eg; [|by intros [= <- <-]; left].
  apply find_some in Eg as [Hg [Hst%String.eqb_eq Ho%String.eqb_eq]%andb_true_iff].
  match goal with |- (if ?b then _ else _) _ = _ -> _ => destruct b eqn:Ec end; [by intros [= <- <-]; left|].
  destruct (Z.eqb_spec (gp_amount g) (toPaise (totalExpectedOf (cn_booking c)))) as [Ea|]; [|by intros [= <- <-]; left].
  cbn [negb]. rewrite bind_run. destruct (transaction _ s) as [[[]|e] s1] eqn:Et; intros H.
  - right. rewrite transaction_Ok in Et. destruct (audit_run env "RECONCILIATION_AUTO_CONFIRMED_PAYMENT" (cn_bookingId c) s1)
      as (s2 & E2 & _). rewrite bind_run, E2 in H. injection H as <- <-. exists g, s1. split_and!; try done.
    split; try done; [by exists items|]. intros cur Hc. rewrite Hc in Ec. by apply negb_false_iff in Ec.
  - apply transaction_Throw in Et as [-> _]. injection H as <- <-. by left.
Qed.

Lemma confirmPaid_Ok env c gid s s' : confirmPaidBooking yearMonth env c gid s = (Ok tt, s') ->
  exists p b, paymentsOf s !! cn_bookingId c = Some p /\ b_status b = BS_CONFIRMED /\
    rows s' = (<[cn_bookingId c := b]> (ls_bookings (sales_core s)),
               <[cn_bookingId c := with_paymentStatus PS_PAID (Some gid) p]> (paymentsOf s)) /\
    (rn_hasLedger env = true -> is_Some (List.find (by_key (journalKey (cn_bookingId c))) (the_ledger (sales_core s')))).
Proof.
  set (id := cn_bookingId c). unfold confirmPaidBooking. fold id. intros H.
  apply bind_Ok in H as ([] & s1 & E & H). apply updatePaymentRow_Ok in E as (p & Hp & [= E1b E1p]).
  apply bind_Ok in H as ([] & s2 & E & H). pose proof (keeps_eq _ _ _ _ _ (redeem_rows _ _) E) as [= E2b E2p]; clear E.
  apply bind_Ok in H as ([] & s3 & E & H). pose proof (updateBookingRow_Ok _ _ _ _ _ E) as [b0 Hb0].
  apply (updateBookingRow_run _ _ _ _ _ b0) in E as [= E3b E3p]; [|done].
  apply bind_Ok in H as ([] & s4 & E & H). pose proof (keeps_eq _ _ _ _ _ (allocate_rows _ _) E) as [= E4b E4p]; clear E.
  apply bind_Ok in H as ([] & s5 & E & H).
  apply (split_rows _ _ _ _ _ _ _ (confirmedBooking b0)) in E as (b & Hb & [= E5b E5p]);
    [|by rewrite E4b, E3b, lookup_insert_eq].
  apply bind_Ok in H as ([] & s6 & E & H). injection E as <-.
  apply bind_Ok in H as ([] & s7 & E & H). pose proof (keeps_eq _ _ _ _ _ (invoice_rows _ _ _) E) as [= E7b E7p]; clear E.
  assert (rows s7 = (<[id := b]> (ls_bookings (sales_core s)), <[id := with_paymentStatus PS_PAID (Some gid) p]> (paymentsOf s))) as E8.
  { unfold rows. rewrite E7b, E7p. change (ls_bookings (sales_core _)) with (ls_bookings (sales_core s5)) at 1.
    f_equal; [|change (paymentsOf s5 = <[id := with_paymentStatus PS_PAID (Some gid) p]> (paymentsOf s)); congruence].
    by rewrite E5b, E4b, E3b, insert_insert_eq, E2b, E1b. }
  exists p, b. destruct (rn_hasLedger env); simpl in H.
  - apply (post_Ok _ _ (journalKey id)) in H as [Hr Hl]; [|done]. rewrite Hr. by split_and!.
  - injection H as <-. by split_and!.
Qed.
End healing.

(** ** Properties *)
Section properties.
Context {R : Type} {redis : Redis R} {col : NumericColumn} {dec : DecimalArith} {num : DecimalNumbers}.
Context {bcrypt : Bcrypt}.
Variable yearMonth : Z -> string.
Implicit Types s : SalesStore R.

(** A request, or a run of the scheduled job. *)
Inductive reconciled_step s s' : Prop :=
  | step_request : system_step yearMonth s s' -> reconciled_step s s'
  | step_job env r : handleScheduledReconciliation yearMonth env s = (r, s') -> reconciled_step s s'.

(** C4. Reconciliation books no car twice.  Through any sequence of quotes,
    bookings, orders, verifications, webhooks, transitions and reconciliation
    jobs, with whatever the gateway lists, two active bookings of one car
    never overlap: the job confirms only bookings that wait for payment. *)
Theorem reconciliation_books_no_car_twice s s' (H0 : ActiveBook.exclusive (sales_slots s))
    (H : rtc reconciled_step s s') :
  ActiveBook.exclusive (sales_slots s') /\ ReservationBook.exclusive (sales_slots s').
Proof.
  assert (ActiveBook.exclusive (sales_slots s')) as Hex; [|split; [done|by apply ActiveBook.exclusive_occupying]].
  revert H0. apply (rtc_invariant _ (fun t => ActiveBook.exclusive (sales_slots t)) _ _) with (2 := H).
  intros a b [Hs|env r Hj] Ha.
  - by eapply ActiveBook.active_step_exclusive; [eapply system_step_book|].
  - by apply (job_orderly yearMonth env _ _ _ Hj).
Qed.

(** C37. The cycle reports every candidate once.  While Redis answers, a
    cycle returns, whatever the gateway answers or throws and whatever the
    database refuses: every candidate found is processed and counted as
    healed, skipped or in error, and there are at most two hundred and
    fifty. *)
Theorem cycle_reports_every_candidate env s (Hup : rn_redisUp env = true) :
  exists report s', runReconciliationCycle yearMonth env s = (Ok report, s') /\
    rp_processed report = rp_candidatesFound report /\
    rp_candidatesFound report = rp_healed report + rp_skipped report + rp_errors report /\
    0 <= rp_healed report /\ 0 <= rp_skipped report /\ 0 <= rp_errors report /\ rp_candidatesFound report <= 250.
Proof.
  destruct (cycle_counts yearMonth env s Hup) as (report & s' & E & [H1 H2 (H3 & H4 & H5) H6]).
  exists report, s'. split_and!; try done.
Qed.

(** C17. A booking is healed only for money the gateway captured.  Either
    nothing changes, or the gateway lists a captured payment of the order, in
    rupees and of fare plus deposit to the paisa; then the payment is PAID
    with its id, the booking CONFIRMED, no other row of either changes and
    the journal is in the ledger under the key verification uses, so that a
    later verification posts nothing more. *)
Theorem payment_healed_only_when_captured env c s r s'
    (H : reconcilePaidBooking yearMonth env c s = (r, s')) :
  (r <> Ok Healed /\ s' = s) \/
  exists g p b, r = Ok Healed /\ captured_for env c g /\ paymentsOf s !! cn_bookingId c = Some p /\
    b_status b = BS_CONFIRMED /\
    ls_bookings (sales_core s') = <[cn_bookingId c := b]> (ls_bookings (sales_core s)) /\
    paymentsOf s' = <[cn_bookingId c := with_paymentStatus PS_PAID (Some (gp_id g)) p]> (paymentsOf s) /\
    (rn_hasLedger env = true -> is_Some (List.find (by_key (journalKey (cn_bookingId c))) (the_ledger (sales_core s')))).
Proof.
  apply reconcilePaid_cases in H as [H|(g & s1 & -> & Hg & H & Ha)]; [by left|right].
  apply confirmPaid_Ok in H as (p & b & Hp & Hb & [= Eb Ep] & Hl).
  destruct (audit_run env "RECONCILIATION_AUTO_CONFIRMED_PAYMENT" (cn_bookingId c) s1) as (s2 & E2 & Ew & [= Fb Fp _ Fl _]).
  rewrite E2 in Ha. injection Ha as <-. exists g, p, b. split_and!; try done; [by rewrite Fb|by rewrite Fp|].
  change (the_ledger (sales_core s2)) with (ws_ledger (salesWallets s2)). by rewrite Fl.
Qed.

(** C15. Exactly the discrepant wallets are frozen.  The audit of all wallets
    returns how many it checked and how many it found whose balance is not the
    credits minus the debits of their entries or not the sum of their buckets.
    Each of these is FROZEN afterwards with its money as it was, every other
    wallet is as before, and no entry, booking, payment or journal changes; in
    a store the wallet service reached by movements of whole paise none is
    found and nothing is written. *)
Theorem wallets_frozen_exactly env isoDay s :
  exists s' bad, reconcileAllWallets (R:=R) env s = (Ok (size (ws_wallets (salesWallets s)), length bad), s') /\
    NoDup bad /\
    (forall id, id ∈ bad <-> exists w, ws_wallets (salesWallets s) !! id = Some w /\
       ~ (w_availableBalance w == wallet_net id (ws_entries (salesWallets s)) /\
          w_realBalance w + w_promoBalance w == w_availableBalance w))%Q /\
    (forall id w, ws_wallets (salesWallets s) !! id = Some w ->
       exists w', ws_wallets (salesWallets s') !! id = Some w' /\ (id ∉ bad -> w' = w) /\ (id ∈ bad -> w_status w' = WS_FROZEN) /\
         w_userId w' = w_userId w /\ w_availableBalance w' = w_availableBalance w /\ w_lockedBalance w' = w_lockedBalance w /\
         w_realBalance w' = w_realBalance w /\ w_promoBalance w' = w_promoBalance w) /\
    dom (ws_wallets (salesWallets s')) = dom (ws_wallets (salesWallets s)) /\
    off_wallets s' = off_wallets s /\
    (rtc (wallet_step isoDay) empty_store (salesWallets s) -> bad = [] /\ s' = s).
Proof.
  destruct (allWallets_run env s) as (s' & E & F & W & Z).
  set (rows := List.filter (discrepant s) (map_to_list (ws_wallets (salesWallets s)))) in *.
  assert (forall id, id ∈ rows.*1 <-> exists w, ws_wallets (salesWallets s) !! id = Some w /\
    walletConsistent id w (ws_entries (salesWallets s)) = false) as Hbad.
  { intros id. rewrite list_elem_of_fmap. split.
    - intros ([i w] & -> & [Hin%list_elem_of_In Hd]%list_elem_of_In%List.filter_In). apply elem_of_map_to_list in Hin.
      exists w. split; [done|]. by apply negb_true_iff in Hd.
    - intros (w & Hw & Hc). exists (id, w). split; [done|]. apply list_elem_of_In, List.filter_In. split.
      + by apply list_elem_of_In, elem_of_map_to_list.
      + unfold discrepant. simpl. by rewrite Hc. }
  exists s', rows.*1. rewrite length_fmap. split_and!; [done| | | | |done|].
  - apply (sublist_NoDup _ _ (NoDup_fst_map_to_list (ws_wallets (salesWallets s)))), fmap_sublist, filtered_sublist.
  - intros id. rewrite Hbad. split; intros (w & Hw & Hc); exists w; (split; [done|]).
    + intros H. apply walletConsistent_iff in H. congruence.
    + apply not_true_iff_false. by rewrite walletConsistent_iff.
  - intros id w Hw. exists (audited s id w). split; [by rewrite W, map_lookup_imap, Hw|].
    assert (id ∈ rows.*1 <-> walletConsistent id w (ws_entries (salesWallets s)) = false) as Hid
      by (rewrite Hbad; split; [intros (w0 & ? & ?); by simplify_eq|eauto]).
    rewrite Hid. unfold audited. destruct (walletConsistent _ _ _); split_and!; done.
  - rewrite W. apply set_eq. intros id. rewrite !elem_of_dom, map_lookup_imap.
    destruct (ws_wallets _ !! id); simpl; split; intros [? ?]; (done || by eexists).
  - intros Hr%reachable_store_ok. assert (forall id w, ws_wallets (salesWallets s) !! id = Some w ->
      walletConsistent id w (ws_entries (salesWallets s)) = true) as Hc by (intros id w; by apply consistent_wallet).
    split; [|by apply Z]. apply elem_of_nil_inv. intros id (w & Hw & Hf)%Hbad. by rewrite (Hc id w Hw) in Hf.
Qed.
End properties.

(** ** Concrete runs *)
#[local] Existing Instance plain_bcrypt.
(** A day after the orders; the gateway captured 6,118 rupees for
    "order_g1", or is down. *)
Definition recon_env (up : bool) (orders : string -> result (list GatewayPayment)) : ReconEnv :=
  {| rn_now := 100 * HOUR; rn_lookbackMinutes := 30; rn_staleHours := 24; rn_isEnabled := true; rn_useMock := false;
     rn_razorpay := true; rn_redisUp := up; rn_token := fun key => key; rn_refunds := fun _ => Ok [];
     rn_orderPayments := orders; rn_createdAt := fun _ => HOUR; rn_updatedAt := fun _ => HOUR; rn_rowOrder := fun _ => 0;
     rn_vehicleClass := fun _ => None; rn_admin := Some "a1"; rn_hasLedger := true; rn_hasCommission := true;
     rn_hasInvoices := true; rn_journalId := fun key => key; rn_payEnv := live_env 0 |}.
Definition captured_orders (paise : Z) (orderId : string) : result (list GatewayPayment) :=
  Ok [{| gp_id := "pay_9"; gp_order_id := orderId; gp_status := "captured"; gp_currency := Some "INR"; gp_amount := paise |}].
Definition gateway_up : ReconEnv := recon_env true (captured_orders 611800).
Definition gateway_down : ReconEnv := recon_env true (fun _ => Throw OtherError).
Definition unconfirmed (bookings : gmap string Booking) : SalesStore RedisMem :=
  sales_store (pay_store bookings {["b1" := ordered_payment]} empty_store).
Definition waiting_store : SalesStore RedisMem := unconfirmed {["b1" := standard_rental BS_PENDING]}.
Definition healing_run : result (option ReconciliationReport) * SalesStore RedisMem :=
  handleScheduledReconciliation year_month gateway_up waiting_store.
Definition candidate_b1 : Candidate :=
  {| cn_bookingId := "b1"; cn_payment := ordered_payment; cn_booking := standard_rental BS_PENDING |}.

Lemma reconciliation_books_no_car_twice_witness :
  ActiveBook.exclusive (sales_slots (snd healing_run)) /\
  (b_status <$> ls_bookings (sales_core (snd healing_run)) !! "b1") = Some BS_CONFIRMED.
Proof.
  split; [|vm_compute; reflexivity].
  destruct (reconciliation_books_no_car_twice year_month waiting_store (snd healing_run)) as [Hex _]; [| |exact Hex].
  - assert (sales_slots waiting_store = {["b1" := slot (standard_rental BS_PENDING)]}) as -> by (vm_compute; reflexivity).
    apply exclusive_singleton.
  - apply rtc_once. apply (step_job _ _ _ gateway_up (fst healing_run)). apply surjective_pairing.
Defined.

Lemma cycle_reports_every_candidate_witness :
  exists report s', runReconciliationCycle year_month gateway_up waiting_store = (Ok report, s') /\
    rp_candidatesFound report <= 250.
Proof.
  destruct (cycle_reports_every_candidate year_month gateway_up waiting_store eq_refl)
    as (report & s' & E & _ & _ & _ & _ & _ & Hb).
  exists report, s'. split; [exact E|exact Hb].
Defined.

Definition paid_run : result Outcome * SalesStore RedisMem :=
  reconcilePaidBooking year_month gateway_up candidate_b1 waiting_store.
Lemma payment_healed_only_when_captured_witness :
  exists g, captured_for gateway_up candidate_b1 g /\ gp_amount g = 611800.
Proof.
  destruct (payment_healed_only_when_captured year_month gateway_up candidate_b1 waiting_store (fst paid_run) (snd paid_run))
    as [[Hr _]|(g & p & b & _ & Hg & _)].
  - apply surjective_pairing.
  - exfalso. apply Hr. vm_compute. reflexivity.
  - exists g. split; [exact Hg|]. rewrite (cf_amount _ _ _ Hg). vm_compute. reflexivity.
Defined.

Definition deposited_store : SalesStore RedisMem := sales_store (pay_store ∅ ∅ deposited).
(** A wallet whose buckets hold two rupees less than its balance. *)
Definition tampered_store : SalesStore RedisMem :=
  sales_store (pay_store ∅ ∅
    {| ws_wallets := {["w1" := {| w_userId := "u1"; w_availableBalance := 7; w_lockedBalance := 0; w_realBalance := 5;
                                  w_promoBalance := 0; w_status := WS_ACTIVE |}]};
       ws_entries := []; ws_ledger := [] |}).
Lemma wallets_frozen_exactly_witness :
  exists w, ws_wallets (salesWallets (snd (reconcileAllWallets gateway_up tampered_store))) !! "w1" = Some w /\
    w_status w = WS_FROZEN /\ w_availableBalance w = 7%Q.
Proof.
  destruct (wallets_frozen_exactly gateway_up sample_day tampered_store) as (s' & bad & E & _ & Hbad & Hw & _).
  rewrite E. destruct (Hw "w1" _ eq_refl) as (w & Hl & _ & Hf & _ & Ha & _). exists w. split; [exact Hl|]. split; [|exact Ha].
  apply Hf, Hbad. eexists. split; [reflexivity|]. intros [_ H]. discriminate H.
Defined.

(** ** Where reconciliation goes wrong *)

(** The rows of a candidate are as old as the query: a booking cancelled
    meanwhile, whose car was booked again, is confirmed all the same. *)
Lemma cancelled_booking_resurrected :
  let s := unconfirmed {["b1" := standard_rental BS_CANCELLED; "b2" := standard_rental BS_CONFIRMED]} in
  let s' := snd (reconcilePaidBooking year_month gateway_up candidate_b1 s) in
  sales_slots s' !! "b1" = Some (slot (standard_rental BS_CONFIRMED)) /\
  sales_slots s' !! "b2" = Some (slot (standard_rental BS_CONFIRMED)).
Proof. split; vm_compute; reflexivity. Qed.

(** The deposit of a healed booking stays REQUIRED, and no event is written. *)
Lemma healed_deposit_not_held :
  (option_map sd_status ∘ b_securityDeposit <$> ls_bookings (sales_core (snd paid_run)) !! "b1") = Some (Some SD_REQUIRED) /\
  ls_outbox (sales_core (snd paid_run)) = ls_outbox (sales_core waiting_store).
Proof. split; vm_compute; reflexivity. Qed.

(** The gateway's part of an order split with the wallet is not the whole
    total: the booking is never healed. *)
Lemma split_order_never_healed :
  reconcilePaidBooking year_month (recon_env true (captured_orders 411800)) candidate_b1 waiting_store =
  (Ok Errored, waiting_store).
Proof. vm_compute. reflexivity. Qed.

(** While the gateway is down a paid order expires, and is no candidate any more. *)
Lemma outage_fails_paid_order :
  let s' := snd (runReconciliationCycle year_month gateway_down waiting_store) in
  (pm_status <$> paymentsOf s' !! "b1") = Some PS_FAILED /\
  (forall env before, candidates (unpaidOrder env before) (rn_createdAt env) s' = []).
Proof. split; [vm_compute; reflexivity|]. intros env before. vm_compute. reflexivity. Qed.

(** A confirmed booking whose payment was refunded is cancelled and counted
    as an error. *)
Lemma refunded_booking_counted_as_error {R} env c (s : SalesStore R) : exists s', healRefunded env c s = (Ok Errored, s').
Proof.
  unfold healRefunded, try_catch. destruct (cancelRefunded env c s) as [[o|e] s'] eqn:E; [|by exists s'].
  unfold cancelRefunded in E. apply bind_Ok in E as (? & ? & _ & E). apply bind_Ok in E as (? & ? & _ & E). done.
Qed.

(** A lock that Redis refuses to answer for ends the whole cycle. *)
Lemma redis_failure_ends_cycle :
  fst (runReconciliationCycle year_month (recon_env false (captured_orders 611800)) waiting_store) = Throw OtherError.
Proof. vm_compute. reflexivity. Qed.

(** A refund of one rupee made at the gateway cancels the booking as
    REFUNDED. *)
Lemma partial_refund_cancels_booking :
  let paid := with_paymentStatus PS_PAID (Some "pay_9") ordered_payment in
  let c := {| cn_bookingId := "b1"; cn_payment := paid; cn_booking := standard_rental BS_CONFIRMED |} in
  let refund := {| gr_id := "rf_1"; gr_payment_id := "pay_9"; gr_status := "processed"; gr_amount := 100; gr_created_at := 1 |} in
  let s := sales_store (pay_store {["b1" := standard_rental BS_CONFIRMED]} {["b1" := paid]} empty_store) in
  let s' := snd (transaction (healOrphanedRefund gateway_up c refund 1%Q) s) in
  (pm_status <$> paymentsOf s' !! "b1") = Some PS_REFUNDED /\
  (b_status <$> ls_bookings (sales_core s') !! "b1") = Some BS_CANCELLED.
Proof. split; vm_compute; reflexivity. Qed.
