(* ===== verification/Corporate.v ===== *)
(** * Corporate credit: src/car_rental_backend/src/corporate/corporate-accounts.service.ts

    Companies with a credit line, their employees, the reservations, releases
    and settlements of credit and their ledger, and the statement.  Each
    operation on credit runs in one transaction under a row lock, so it is one
    step of the store; an id the database generates is refused when it is
    taken.  Clock, generated ids and random suffixes and the start
    of the month in local time are arguments.  Opaque metadata, the listings
    and log lines are left out. *)
From stdpp Require Import pretty.
From S2P Require Import Prelude JsNumber Decimal Schema Ledger.
Open Scope Z_scope.
Open Scope Q_scope.

Record CorporateAccount : Type := {
  cp_companyName : string;
  cp_corporateCode : string;
  cp_contactEmail : string;
  cp_contactPhone : string;
  cp_taxIdNumber : option string;
  cp_billingAddress : string;
  cp_creditLimit : Q;
  cp_usedCredit : Q;
  cp_negotiatedDiscountPct : Q;
  cp_paymentTermsDays : Z;
  cp_isActive : bool;
  cp_preferredVendorId : option string;
}.
Record CorporateEmployee : Type := {
  em_corporateAccountId : string;
  em_userId : string;
  em_employeeCode : option string;
  em_department : option string;
  em_spendingLimitMonthly : option Q;
  em_isActive : bool;
}.
Inductive CreditEntryType : Type := CREDIT_RESERVATION | CREDIT_RELEASE | INVOICE_SETTLEMENT.
#[export] Instance CreditEntryType_eq_dec : EqDecision CreditEntryType.
Proof. solve_decision. Defined.
Record CreditEntry : Type := {
  cx_corporateAccountId : string;
  cx_userId : string;
  cx_bookingId : option string;
  cx_type : CreditEntryType;
  cx_amount : Q;
  cx_balanceAfter : Q;
  cx_referenceKey : string;
  cx_createdAt : Z;
}.
(** Accounts and employees by their ids; [corp_users], [corp_bookings]
    and [corp_vendors] are the ids foreign keys refer to. *)
Record CorporateStore : Type := {
  corp_accounts : gmap string CorporateAccount;
  corp_employees : gmap string CorporateEmployee;
  corp_entries : list CreditEntry;
  corp_ledger : LedgerTable;
  corp_users : list string;
  corp_bookings : list string;
  corp_vendors : list string;
}.
Definition set_corp_account (id : string) (a : CorporateAccount) (s : CorporateStore) : CorporateStore :=
  {| corp_accounts := <[id := a]> (corp_accounts s); corp_employees := corp_employees s; corp_entries := corp_entries s;
     corp_ledger := corp_ledger s; corp_users := corp_users s; corp_bookings := corp_bookings s;
     corp_vendors := corp_vendors s |}.
Definition set_employee (id : string) (e : CorporateEmployee) (s : CorporateStore) : CorporateStore :=
  {| corp_accounts := corp_accounts s; corp_employees := <[id := e]> (corp_employees s); corp_entries := corp_entries s;
     corp_ledger := corp_ledger s; corp_users := corp_users s; corp_bookings := corp_bookings s;
     corp_vendors := corp_vendors s |}.
Definition add_credit_entry (e : CreditEntry) (s : CorporateStore) : CorporateStore :=
  {| corp_accounts := corp_accounts s; corp_employees := corp_employees s; corp_entries := corp_entries s ++ [e];
     corp_ledger := corp_ledger s; corp_users := corp_users s; corp_bookings := corp_bookings s;
     corp_vendors := corp_vendors s |}.
Definition set_corp_ledger (l : LedgerTable) (s : CorporateStore) : CorporateStore :=
  {| corp_accounts := corp_accounts s; corp_employees := corp_employees s; corp_entries := corp_entries s;
     corp_ledger := l; corp_users := corp_users s; corp_bookings := corp_bookings s;
     corp_vendors := corp_vendors s |}.
Abbreviation KM := (M CorporateStore).

Record CorporateEnv : Type := {
  oe_now : Z;
  oe_startOfMonth : Z;
  oe_freshId : string;
  oe_random : string;
  oe_hasLedger : bool;
  oe_journalId : string;
}.

Record CreateCorporateAccountDto : Type := {
  cad_companyName : string;
  cad_corporateCode : string;
  cad_contactEmail : string;
  cad_contactPhone : string;
  cad_taxIdNumber : option string;
  cad_billingAddress : string;
  cad_creditLimit : option Q;
  cad_negotiatedDiscountPct : option Q;
  cad_paymentTermsDays : option Z;
  cad_preferredVendorId : option string;
}.
(** A field that is [None] is absent. *)
Record UpdateCorporateAccountDto : Type := {
  uad_companyName : option string;
  uad_contactEmail : option string;
  uad_contactPhone : option string;
  uad_taxIdNumber : option string;
  uad_billingAddress : option string;
  uad_creditLimit : option Q;
  uad_negotiatedDiscountPct : option Q;
  uad_paymentTermsDays : option Z;
  uad_isActive : option bool;
  uad_preferredVendorId : option string;
}.
Record AddCorporateEmployeeDto : Type := {
  aed_userId : string;
  aed_employeeCode : option string;
  aed_department : option string;
  aed_spendingLimitMonthly : option Q;
}.

Section corporate.
Context {col : NumericColumn} {dec : DecimalArith} {num : DecimalNumbers}.

(** ** Accounts *)
Definition findAccount (code : string) (s : CorporateStore) : option (string * CorporateAccount) :=
  List.find (fun row => String.eqb (cp_corporateCode (snd row)) code) (map_to_list (corp_accounts s)).
Definition accountByCode (corporateCode : string) : KM (string * CorporateAccount) :=
  s ← get; from_option_or (findAccount (uppercase corporateCode) s) NotFoundException.
Definition getAccountById (id : string) : KM CorporateAccount :=
  s ← get; from_option_or (corp_accounts s !! id) NotFoundException.
Definition getAccountByCode (code : string) : KM (string * CorporateAccount) := accountByCode code.

Definition knownVendor (vendorId : option string) : KM unit :=
  s ← get; require (match vendorId with Some v => bool_decide (v ∈ corp_vendors s) | None => true end) PrismaP2003.
Definition createCorporateAccount (env : CorporateEnv) (dto : CreateCorporateAccountDto) : KM CorporateAccount :=
  s ← get;
  require (match findAccount (uppercase (cad_corporateCode dto)) s with None => true | Some _ => false end) ConflictException ;;
  let a := {| cp_companyName := cad_companyName dto; cp_corporateCode := uppercase (cad_corporateCode dto);
              cp_contactEmail := cad_contactEmail dto; cp_contactPhone := cad_contactPhone dto;
              cp_taxIdNumber := cad_taxIdNumber dto; cp_billingAddress := cad_billingAddress dto;
              cp_creditLimit := store (of_number (default 50000 (cad_creditLimit dto))); cp_usedCredit := store 0;
              cp_negotiatedDiscountPct := store (of_number (default 10 (cad_negotiatedDiscountPct dto)));
              cp_paymentTermsDays := default 30%Z (cad_paymentTermsDays dto); cp_isActive := true;
              cp_preferredVendorId := cad_preferredVendorId dto |} in
  knownVendor (cp_preferredVendorId a) ;;
  require (match corp_accounts s !! oe_freshId env with None => true | Some _ => false end) PrismaP2002 ;;
  modify (set_corp_account (oe_freshId env) a) ;;
  mret a.

Definition updateCorporateAccount (id : string) (dto : UpdateCorporateAccountDto) : KM CorporateAccount :=
  account ← getAccountById id;
  let a := {| cp_companyName := str_or (uad_companyName dto) (cp_companyName account);
              cp_corporateCode := cp_corporateCode account;
              cp_contactEmail := str_or (uad_contactEmail dto) (cp_contactEmail account);
              cp_contactPhone := str_or (uad_contactPhone dto) (cp_contactPhone account);
              cp_taxIdNumber := match uad_taxIdNumber dto with Some t => Some t | None => cp_taxIdNumber account end;
              cp_billingAddress := str_or (uad_billingAddress dto) (cp_billingAddress account);
              cp_creditLimit := match uad_creditLimit dto with Some x => store (of_number x) | None => cp_creditLimit account end;
              cp_usedCredit := cp_usedCredit account;
              cp_negotiatedDiscountPct := match uad_negotiatedDiscountPct dto with
                                          | Some x => store (of_number x)
                                          | None => cp_negotiatedDiscountPct account
                                          end;
              cp_paymentTermsDays := default (cp_paymentTermsDays account) (uad_paymentTermsDays dto);
              cp_isActive := default (cp_isActive account) (uad_isActive dto);
              cp_preferredVendorId := match uad_preferredVendorId dto with
                                      | Some v => Some v
                                      | None => cp_preferredVendorId account
                                      end |} in
  knownVendor (uad_preferredVendorId dto) ;;
  modify (set_corp_account id a) ;;
  mret a.

(** ** Employees *)
Definition findEmployee (accountId userId : string) (s : CorporateStore) : option (string * CorporateEmployee) :=
  List.find (fun row => String.eqb (em_corporateAccountId (snd row)) accountId && String.eqb (em_userId (snd row)) userId)
    (map_to_list (corp_employees s)).
(** A limit of zero is falsy and stored as none. *)
Definition limitOf (spendingLimitMonthly : option Q) : option Q :=
  match spendingLimitMonthly with
  | Some x => if Qeq_bool x 0 then None else Some (store (of_number x))
  | None => None
  end.
Definition addEmployee (env : CorporateEnv) (corporateAccountId : string) (dto : AddCorporateEmployeeDto) : KM CorporateEmployee :=
  getAccountById corporateAccountId ;;
  s ← get;
  require (bool_decide (aed_userId dto ∈ corp_users s)) NotFoundException ;;
  require (match findEmployee corporateAccountId (aed_userId dto) s with None => true | Some _ => false end) ConflictException ;;
  let e := {| em_corporateAccountId := corporateAccountId; em_userId := aed_userId dto;
              em_employeeCode := aed_employeeCode dto; em_department := aed_department dto;
              em_spendingLimitMonthly := limitOf (aed_spendingLimitMonthly dto); em_isActive := true |} in
  require (match corp_employees s !! oe_freshId env with None => true | Some _ => false end) PrismaP2002 ;;
  modify (set_employee (oe_freshId env) e) ;;
  mret e.
Definition updateEmployeeStatus (corporateAccountId employeeId : string) (isActive : bool) : KM CorporateEmployee :=
  s ← get;
  e ← from_option_or (e ← corp_employees s !! employeeId;
                      if String.eqb (em_corporateAccountId e) corporateAccountId then Some e else None) NotFoundException;
  let e := {| em_corporateAccountId := em_corporateAccountId e; em_userId := em_userId e;
              em_employeeCode := em_employeeCode e; em_department := em_department e;
              em_spendingLimitMonthly := em_spendingLimitMonthly e; em_isActive := isActive |} in
  modify (set_employee employeeId e) ;;
  mret e.

(** ** Credit *)
Definition availableCredit (a : CorporateAccount) : Q := cp_creditLimit a - cp_usedCredit a.
Definition with_usedCredit (q : Q) (a : CorporateAccount) : CorporateAccount :=
  {| cp_companyName := cp_companyName a; cp_corporateCode := cp_corporateCode a; cp_contactEmail := cp_contactEmail a;
     cp_contactPhone := cp_contactPhone a; cp_taxIdNumber := cp_taxIdNumber a; cp_billingAddress := cp_billingAddress a;
     cp_creditLimit := cp_creditLimit a; cp_usedCredit := q; cp_negotiatedDiscountPct := cp_negotiatedDiscountPct a;
     cp_paymentTermsDays := cp_paymentTermsDays a; cp_isActive := cp_isActive a;
     cp_preferredVendorId := cp_preferredVendorId a |}.

(** The caller, when a customer, is an active employee of the account. *)
Definition employeeGuard (accountId : string) (callerUserId : option string) (callerRole : option Role)
    : KM (option CorporateEmployee) :=
  if bool_decide (callerRole = Some ROLE_CUSTOMER) then
    userId ← from_option_or (truthy callerUserId) ForbiddenException;
    s ← get;
    e ← from_option_or (option_map snd (findEmployee accountId userId s)) ForbiddenException;
    require (em_isActive e) ForbiddenException ;;
    mret (Some e)
  else mret None.

Record CreditValidation : Type := {
  cvl_eligible : bool;
  cvl_corporateCode : string;
  cvl_creditLimit : Q;
  cvl_usedCredit : Q;
  cvl_availableCredit : Q;
  cvl_negotiatedDiscountPct : Q;
  cvl_employeeCode : option string;
}.
Definition validateCredit (corporateCode : string) (estimatedAmount : Q) (callerUserId : option string)
    (callerRole : option Role) : KM CreditValidation :=
  row ← getAccountByCode corporateCode;
  let '(accountId, account) := row in
  require (cp_isActive account) BadRequestException ;;
  employee ← employeeGuard accountId callerUserId callerRole;
  mret {| cvl_eligible := d_ge (availableCredit account) (of_number estimatedAmount);
          cvl_corporateCode := cp_corporateCode account; cvl_creditLimit := rnd (cp_creditLimit account);
          cvl_usedCredit := rnd (cp_usedCredit account); cvl_availableCredit := rnd (availableCredit account);
          cvl_negotiatedDiscountPct := rnd (cp_negotiatedDiscountPct account);
          cvl_employeeCode := employee ≫= (fun e => truthy (em_employeeCode e)) |}.

(** The month's reservations of a user, releases not taken off. *)
Definition reservedSince (accountId userId : string) (since : Z) (l : list CreditEntry) : Q :=
  sum_by cx_amount (List.filter (fun e => String.eqb (cx_corporateAccountId e) accountId && String.eqb (cx_userId e) userId &&
    bool_decide (cx_type e = CREDIT_RESERVATION) && (since <=? cx_createdAt e)%Z) l).
Definition spendingGuard (env : CorporateEnv) (accountId userId : string) (employee : option CorporateEmployee) (amount : Q)
    : KM unit :=
  match employee ≫= em_spendingLimitMonthly with
  | Some limit =>
    if d_gt limit 0 then
      s ← get;
      require (negb (d_gt (reservedSince accountId userId (oe_startOfMonth env) (corp_entries s) + of_number amount) limit))
        BadRequestException
    else mret tt
  | None => mret tt
  end.

Definition typeTag (t : CreditEntryType) : string :=
  match t with CREDIT_RESERVATION => "cc_res_" | CREDIT_RELEASE => "cc_rel_" | INVOICE_SETTLEMENT => "cc_stl_" end.
Definition referenceKey (env : CorporateEnv) (t : CreditEntryType) (accountId : string) : string :=
  typeTag t +:+ accountId +:+ "_" +:+ pretty (oe_now env) +:+ "_" +:+ oe_random env.
(** The account's row with another used credit, and the entry that records
    it: [referenceKey] is unique, [bookingId] refers to a booking. *)
Definition moveCredit (env : CorporateEnv) (accountId : string) (account : CorporateAccount) (t : CreditEntryType)
    (amount usedCredit : Q) (callerUserId bookingId : option string) : KM CorporateAccount :=
  let updated := with_usedCredit (store usedCredit) account in
  modify (set_corp_account accountId updated) ;;
  s ← get;
  let key := referenceKey env t accountId in
  require (negb (existsb (fun e => String.eqb (cx_referenceKey e) key) (corp_entries s))) PrismaP2002 ;;
  require (match truthy bookingId with Some b => bool_decide (b ∈ corp_bookings s) | None => true end) PrismaP2003 ;;
  modify (add_credit_entry
    {| cx_corporateAccountId := accountId; cx_userId := str_or callerUserId "SYSTEM"; cx_bookingId := truthy bookingId;
       cx_type := t; cx_amount := store amount; cx_balanceAfter := store (availableCredit updated);
       cx_referenceKey := key; cx_createdAt := oe_now env |}) ;;
  mret updated.

Definition reserveCredit (env : CorporateEnv) (corporateCode : string) (amount : Q) (callerUserId : option string)
    (callerRole : option Role) (bookingId : option string) : KM CorporateAccount :=
  require (negb (Qle_bool amount 0)) BadRequestException ;;
  transaction (
    row ← accountByCode corporateCode;
    let '(accountId, account) := row in
    require (cp_isActive account) BadRequestException ;;
    employee ← employeeGuard accountId callerUserId callerRole;
    spendingGuard env accountId (str_or callerUserId "") employee amount ;;
    let required := of_number amount in
    require (negb (d_lt (availableCredit account) required)) ConflictException ;;
    moveCredit env accountId account CREDIT_RESERVATION required (cp_usedCredit account + required) callerUserId bookingId).

Definition releaseCredit (env : CorporateEnv) (corporateCode : string) (amount : Q) (callerUserId bookingId : option string)
    : KM CorporateAccount :=
  require (negb (Qle_bool amount 0)) BadRequestException ;;
  transaction (
    row ← accountByCode corporateCode;
    let '(accountId, account) := row in
    let decrementAmount := d_min (cp_usedCredit account) (of_number amount) in
    moveCredit env accountId account CREDIT_RELEASE decrementAmount (cp_usedCredit account - decrementAmount) callerUserId bookingId).

Definition settlementLine (a : LedgerAccountType) (entity : string) (sd : LedgerEntrySide) (amount : Q) (narration : string)
    : JournalEntryLineInput :=
  {| li_accountType := a; li_accountEntityId := Some entity; li_side := Some sd; li_entrySide := None;
     li_amount := amount; li_narration := Some narration; li_description := None; li_bookingId := None; li_paymentId := None;
     li_payoutId := None |}.
Definition creditSettlementJournal (env : CorporateEnv) (accountId : string) (account : CorporateAccount)
    (bookingId : option string) (amount : Q) : RecordJournalInput :=
  {| rj_journalId := None; rj_referenceType := "CORPORATE_CREDIT_SETTLEMENT"; rj_referenceId := accountId;
     rj_narration := Some ("Corporate invoice payment settled for " +:+ cp_companyName account +:+ " (" +:+
                           cp_corporateCode account +:+ ")");
     rj_description := None;
     rj_lines := Some [settlementLine GATEWAY_CLEARING "BANK_TRANSFER" DEBIT amount
                         ("Settlement funds received for corporate account " +:+ cp_corporateCode account);
                       settlementLine CORPORATE_RECEIVABLE accountId CREDIT amount
                         ("Corporate credit line cleared for " +:+ cp_corporateCode account)];
     rj_entries := None;
     rj_idempotencyKey := Some ("jrn_corp_stl_" +:+ accountId +:+ "_" +:+ pretty (oe_now env) +:+ "_" +:+ oe_random env);
     rj_currency := None; rj_bookingId := truthy bookingId; rj_paymentId := None; rj_payoutId := None; rj_vendorId := None |}.
Definition settleCredit (env : CorporateEnv) (corporateCode : string) (amount : Q) (callerUserId bookingId : option string)
    : KM CorporateAccount :=
  require (negb (Qle_bool amount 0)) BadRequestException ;;
  transaction (
    row ← accountByCode corporateCode;
    let '(accountId, account) := row in
    let decrementAmount := d_min (cp_usedCredit account) (of_number amount) in
    updated ← moveCredit env accountId account INVOICE_SETTLEMENT decrementAmount (cp_usedCredit account - decrementAmount)
                callerUserId bookingId;
    when (oe_hasLedger env)
      (try_catch
        (zoom corp_ledger set_corp_ledger
          (r ← recordJournal (oe_now env) (oe_journalId env) true (creditSettlementJournal env accountId account bookingId decrementAmount);
           mret tt))
        (fun _ => mret tt)) ;;
    mret updated).
Definition recordUsage (env : CorporateEnv) (corporateCode : string) (amount : Q) : KM CorporateAccount :=
  reserveCredit env corporateCode amount None None None.

(** The routes that pass their caller on: the one that releases gives the
    caller's role where the service takes a booking. *)
Definition roleName (r : Role) : string :=
  match r with
  | ROLE_CUSTOMER => "CUSTOMER" | ROLE_VENDOR => "VENDOR" | ROLE_ADMIN => "ADMIN" | ROLE_SUPPORT_AGENT => "SUPPORT_AGENT"
  end.
Definition reserveRoute (env : CorporateEnv) (userId : string) (role : Role) (code : string) (estimatedAmount : Q)
    : KM CorporateAccount :=
  reserveCredit env code estimatedAmount (Some userId) (Some role) None.
Definition releaseRoute (env : CorporateEnv) (userId : string) (role : Role) (code : string) (estimatedAmount : Q)
    : KM CorporateAccount :=
  releaseCredit env code estimatedAmount (Some userId) (Some (roleName role)).
Definition settleRoute (env : CorporateEnv) (userId : string) (id : string) (amount : Q) (bookingId : option string)
    : KM CorporateAccount :=
  account ← getAccountById id;
  settleCredit env (cp_corporateCode account) amount (Some userId) bookingId.

(** ** Statements *)
Record CreditStatement : Type := {
  cst_usedCredit : Q;
  cst_availableCredit : Q;
  cst_totalReserved : Q;
  cst_totalSettled : Q;
  cst_totalReleased : Q;
  cst_netBilled : Q;
  cst_outstandingDue : Q;
  cst_entries : list CreditEntry;
}.
Definition inPeriod (startDate endDate : option Z) (e : CreditEntry) : bool :=
  match startDate with Some d => (d <=? cx_createdAt e)%Z | None => true end &&
  match endDate with Some d => (cx_createdAt e <=? d)%Z | None => true end.
Definition totalOf (t : CreditEntryType) (l : list CreditEntry) : Q :=
  sum_by cx_amount (List.filter (fun e => bool_decide (cx_type e = t)) l).
Definition getStatement (accountId : string) (startDate endDate : option Z) : KM CreditStatement :=
  account ← getAccountById accountId;
  s ← get;
  let rows := List.filter (fun e => String.eqb (cx_corporateAccountId e) accountId && inPeriod startDate endDate e) (corp_entries s) in
  let totalReserved := rnd (totalOf CREDIT_RESERVATION rows) in
  let totalSettled := rnd (totalOf INVOICE_SETTLEMENT rows) in
  let totalReleased := rnd (totalOf CREDIT_RELEASE rows) in
  mret {| cst_usedCredit := rnd (cp_usedCredit account); cst_availableCredit := rnd (availableCredit account);
          cst_totalReserved := totalReserved; cst_totalSettled := totalSettled; cst_totalReleased := totalReleased;
          cst_netBilled := js_max 0 (js_sub totalReserved totalReleased); cst_outstandingDue := rnd (cp_usedCredit account);
          cst_entries := take 100 (sort_desc (fun e => inject_Z (cx_createdAt e)) rows) |}.
Definition getCreditLedger (accountId : string) (page limit : nat) : KM (list CreditEntry * nat) :=
  getAccountById accountId ;;
  s ← get;
  let rows := List.filter (fun e => String.eqb (cx_corporateAccountId e) accountId) (corp_entries s) in
  mret (take limit (drop ((page - 1) * limit) (sort_desc (fun e => inject_Z (cx_createdAt e)) rows)), length rows).
(** The route gives its limit where the service takes a page. *)
Definition creditLedgerRoute (accountId : string) (limit : option nat) : KM (list CreditEntry * nat) :=
  getCreditLedger accountId (default 1%nat limit) 20.
End corporate.
