(* ===== verification/CorporateSafety.v ===== *)
(** * What holds of corporate credit

    The used credit of an account is the replay of its ledger and never
    negative; a reservation stays within the credit limit and the monthly
    limit of the employee, or changes nothing. *)
From S2P Require Import Prelude JsNumber Decimal Schema Ledger Corporate.
Open Scope Z_scope.
Open Scope Q_scope.

Section safety.
Context {col : NumericColumn} {dec : DecimalArith} {num : DecimalNumbers}.
Implicit Types s : CorporateStore.

(** What an entry adds to the used credit. *)
Definition signedCredit (e : CreditEntry) : Q :=
  match cx_type e with CREDIT_RESERVATION => cx_amount e | _ => - cx_amount e end.
Definition creditNet (id : string) (l : list CreditEntry) : Q :=
  sum_by (fun e => if String.eqb (cx_corporateAccountId e) id then signedCredit e else 0) l.

Record corp_ok s : Prop := {
  co_used id a : corp_accounts s !! id = Some a ->
    cp_usedCredit a == creditNet id (corp_entries s) /\ 0 <= cp_usedCredit a /\ whole_paise (cp_usedCredit a);
  co_entries e : e ∈ corp_entries s ->
    is_Some (corp_accounts s !! cx_corporateAccountId e) /\ 0 <= cx_amount e /\ whole_paise (cx_amount e);
}.
Definition empty_corporate : CorporateStore :=
  {| corp_accounts := ∅; corp_employees := ∅; corp_entries := []; corp_ledger := []; corp_users := ["u1"; "u2"];
     corp_bookings := ["b1"; "b2"]; corp_vendors := [] |}.
Lemma corp_ok_empty s : corp_accounts s = ∅ -> corp_entries s = [] -> corp_ok s.
Proof. intros Ha He. split; [intros id a; by rewrite Ha, lookup_empty|rewrite He; set_solver]. Qed.

(** A row written back with the used credit it had. *)
Lemma corp_ok_rewrite s id a : corp_ok s ->
  (forall b, corp_accounts s !! id = Some b -> cp_usedCredit a = cp_usedCredit b) ->
  (corp_accounts s !! id = None -> cp_usedCredit a == 0 /\ whole_paise (cp_usedCredit a)) -> corp_ok (set_corp_account id a s).
Proof.
  intros [Hu He] Hb Hn. split; simpl.
  - intros j c. destruct (decide (j = id)) as [->|Hj].
    + rewrite lookup_insert_eq. intros [= <-]. destruct (corp_accounts s !! id) as [b|] eqn:E.
      * rewrite (Hb b eq_refl). by apply Hu.
      * destruct (Hn eq_refl) as [H0 Hw]. split_and!; [|by rewrite H0|done].
        rewrite H0. symmetry. apply sum_by_zero. intros e Hin. destruct (String.eqb_spec (cx_corporateAccountId e) id) as [Ei|]; [|done].
        destruct (He e Hin) as [[x Hx] _]. congruence.
    + rewrite lookup_insert_ne by congruence. apply Hu.
  - intros e Hin. destruct (He e Hin) as (Hx & H1 & H2). split; [|done].
    destruct (decide (cx_corporateAccountId e = id)) as [->|Hj]; [by rewrite lookup_insert_eq|].
    by rewrite lookup_insert_ne by congruence.
Qed.

Definition creditRow (env : CorporateEnv) (id : string) (updated : CorporateAccount) (t : CreditEntryType) (amount : Q)
    (caller booking : option string) : CreditEntry :=
  {| cx_corporateAccountId := id; cx_userId := str_or caller "SYSTEM"; cx_bookingId := truthy booking; cx_type := t;
     cx_amount := store amount; cx_balanceAfter := store (availableCredit updated); cx_referenceKey := referenceKey env t id;
     cx_createdAt := oe_now env |}.
Lemma moveCredit_Ok env id a t amount used caller booking s a' s' :
  moveCredit env id a t amount used caller booking s = (Ok a', s') ->
  a' = with_usedCredit (store used) a /\
  s' = add_credit_entry (creditRow env id a' t amount caller booking) (set_corp_account id a' s).
Proof.
  unfold moveCredit. intros H. apply bind_Ok in H as ([] & s1 & E & H). injection E as <-.
  rewrite get_bind, require_bind in H. destruct (negb _); [|done]. rewrite require_bind in H.
  match type of H with (if ?b then _ else _) = _ => destruct b; [|done] end.
  apply bind_Ok in H as ([] & s2 & E & H). injection E as <-. by injection H as <- <-.
Qed.

Lemma corp_ok_move env id a t amount used caller booking s : corp_ok s -> corp_accounts s !! id = Some a ->
  whole_paise amount -> 0 <= amount -> 0 <= used ->
  used == cp_usedCredit a + match t with CREDIT_RESERVATION => amount | _ => - amount end ->
  let a' := with_usedCredit (store used) a in
  corp_ok (add_credit_entry (creditRow env id a' t amount caller booking) (set_corp_account id a' s)).
Proof.
  intros [Hu He] Ha Hw H0 Hused E a'. destruct (Hu id a Ha) as (Hn & _ & Hwu).
  assert (whole_paise used) as Hwused by (rewrite E; destruct t; auto with dec; by apply whole_paise_sub).
  assert (store amount == amount) as Es by by apply store_exact.
  assert (store used == used) as Eu by by apply store_exact.
  split; simpl.
  - intros j b. destruct (decide (j = id)) as [->|Hj].
    + rewrite lookup_insert_eq. intros [= <-]. simpl. split_and!; [|by rewrite Eu|by rewrite Eu].
      unfold creditNet. rewrite sum_by_snoc. fold (creditNet id (corp_entries s)). cbn. rewrite String.eqb_refl, Eu, E, Hn.
      unfold signedCredit. simpl. destruct t; rewrite Es; ring.
    + rewrite lookup_insert_ne by congruence. intros Hb. destruct (Hu j b Hb) as (Hnb & Hb0 & Hbw). split_and!; try done.
      unfold creditNet. rewrite sum_by_snoc. fold (creditNet j (corp_entries s)). cbn.
      rewrite (proj2 (String.eqb_neq id j)) by congruence. rewrite Hnb. ring.
  - intros e [Hin| ->%list_elem_of_singleton]%elem_of_app.
    + destruct (He e Hin) as (Hx & H1 & H2). split; [|done].
      destruct (decide (cx_corporateAccountId e = id)) as [->|Hj]; [by rewrite lookup_insert_eq|by rewrite lookup_insert_ne by congruence].
    + cbn. rewrite lookup_insert_eq. split_and!; [done|by rewrite Es|by rewrite Es].
Qed.

Lemma employeeGuard_readonly id caller role : readonly (employeeGuard id caller role).
Proof.
  intros x. unfold employeeGuard. case_bool_decide; [|auto with preserves].
  apply preserves_bind; [auto with preserves|intros u]. apply preserves_bind; [auto with preserves|intros t].
  apply preserves_bind; [auto with preserves|intros e]. auto with preserves.
Qed.
Lemma spendingGuard_readonly env id u e amount : readonly (spendingGuard env id u e amount).
Proof.
  intros x. unfold spendingGuard. destruct (e ≫= _); [|auto with preserves]. destruct (d_gt _ _); auto with preserves.
Qed.
Lemma findAccount_Some code s id a : findAccount code s = Some (id, a) ->
  corp_accounts s !! id = Some a /\ cp_corporateCode a = code.
Proof.
  intros [Hin%list_elem_of_In%elem_of_map_to_list Hc%String.eqb_eq]%find_some. done.
Qed.
Lemma of_number_pos x : Qle_bool x 0 = false -> 0 <= of_number x.
Proof.
  intros H. assert (0 < x) as Hx by (apply Qnot_le_lt; intros Hle%Qle_bool_iff; congruence).
  pose proof (of_number_close x) as Hc. rewrite (Qabs_pos x) in Hc by lra.
  assert (pow2 (-52) <= 1) by (vm_compute; discriminate).
  assert (x * pow2 (-52) <= x * 1) as Hm by (rewrite !(Qmult_comm x); apply Qmult_le_compat_r; lra).
  apply Qabs_Qle_condition in Hc as [Hc _]. lra.
Qed.

(** The three movements of credit, when they succeed. *)
Lemma reserve_Ok env code amount caller role booking s a' s' :
  reserveCredit env code amount caller role booking s = (Ok a', s') ->
  exists id a e, findAccount (uppercase code) s = Some (id, a) /\ cp_isActive a = true /\ Qle_bool amount 0 = false /\
    employeeGuard id caller role s = (Ok e, s) /\ spendingGuard env id (str_or caller "") e amount s = (Ok tt, s) /\
    of_number amount <= availableCredit a /\
    a' = with_usedCredit (store (cp_usedCredit a + of_number amount)) a /\
    s' = add_credit_entry (creditRow env id a' CREDIT_RESERVATION (of_number amount) caller booking) (set_corp_account id a' s).
Proof.
  unfold reserveCredit. rewrite require_bind. destruct (Qle_bool amount 0); [done|]. cbn [negb].
  rewrite transaction_Ok. intros H. unfold accountByCode in H. rewrite bind_run, get_bind in H.
  destruct (findAccount (uppercase code) s) as [[id a]|] eqn:Ef; [|done]. cbn [from_option_or] in H. cbn in H.
  rewrite require_bind in H. destruct (cp_isActive a) eqn:Ea; [|done].
  apply bind_Ok in H as (e & s1 & Eg & H). pose proof (readonly_eq _ _ _ _ (employeeGuard_readonly _ _ _) Eg) as ->.
  apply bind_Ok in H as ([] & s2 & Es & H). pose proof (readonly_eq _ _ _ _ (spendingGuard_readonly _ _ _ _ _) Es) as ->.
  rewrite require_bind in H. destruct (d_lt (availableCredit a) (of_number amount)) eqn:Ed; [done|]. cbn [negb] in H.
  apply moveCredit_Ok in H as [-> ->]. exists id, a, e. dec_bool. by split_and!.
Qed.
Lemma release_Ok env code amount caller booking s a' s' :
  releaseCredit env code amount caller booking s = (Ok a', s') ->
  exists id a, findAccount (uppercase code) s = Some (id, a) /\ Qle_bool amount 0 = false /\
    let d := d_min (cp_usedCredit a) (of_number amount) in
    a' = with_usedCredit (store (cp_usedCredit a - d)) a /\
    s' = add_credit_entry (creditRow env id a' CREDIT_RELEASE d caller booking) (set_corp_account id a' s).
Proof.
  unfold releaseCredit. rewrite require_bind. destruct (Qle_bool amount 0); [done|]. cbn [negb].
  rewrite transaction_Ok. intros H. unfold accountByCode in H. rewrite bind_run, get_bind in H.
  destruct (findAccount (uppercase code) s) as [[id a]|] eqn:Ef; [|done]. cbn [from_option_or] in H. cbn in H.
  apply moveCredit_Ok in H as [-> ->]. by exists id, a.
Qed.
Lemma settle_Ok env code amount caller booking s a' s' :
  settleCredit env code amount caller booking s = (Ok a', s') ->
  exists id a l, findAccount (uppercase code) s = Some (id, a) /\ Qle_bool amount 0 = false /\
    let d := d_min (cp_usedCredit a) (of_number amount) in
    a' = with_usedCredit (store (cp_usedCredit a - d)) a /\
    s' = set_corp_ledger l (add_credit_entry (creditRow env id a' INVOICE_SETTLEMENT d caller booking) (set_corp_account id a' s)).
Proof.
  unfold settleCredit. rewrite require_bind. destruct (Qle_bool amount 0); [done|]. cbn [negb].
  rewrite transaction_Ok. intros H. unfold accountByCode in H. rewrite bind_run, get_bind in H.
  destruct (findAccount (uppercase code) s) as [[id a]|] eqn:Ef; [|done]. cbn [from_option_or] in H. cbn in H.
  apply bind_Ok in H as (u & s1 & E & H). apply moveCredit_Ok in E as [-> E].
  apply bind_Ok in H as ([] & s2 & Ej & H). injection H as <- <-.
  assert (exists l, s2 = set_corp_ledger l s1) as [l ->].
  { destruct (oe_hasLedger env); simpl in Ej; [|injection Ej as <-; exists (corp_ledger s1); by destruct s1].
    unfold try_catch in Ej. destruct (zoom _ _ _ s1) as [r1 s3] eqn:Ez.
    apply zoom_run in Ez as (l & _ & ->). exists l. destruct r1; injection Ej; intros; by subst. }
  subst s1. by exists id, a, l.
Qed.
(** What the guards of a customer's reservation checked. *)
Lemma guards_hold env id caller amount s e :
  employeeGuard id caller (Some ROLE_CUSTOMER) s = (Ok e, s) -> spendingGuard env id (str_or caller "") e amount s = (Ok tt, s) ->
  exists u eid m, truthy caller = Some u /\ findEmployee id u s = Some (eid, m) /\ em_isActive m = true /\
    forall limit, em_spendingLimitMonthly m = Some limit -> 0 < limit ->
      reservedSince id u (oe_startOfMonth env) (corp_entries s) + of_number amount <= limit.
Proof.
  intros Hg Hsp. unfold employeeGuard in Hg. rewrite bool_decide_eq_true_2 in Hg by done.
  apply bind_Ok in Hg as (u & s1 & [Eu ->]%from_option_or_Ok & Hg). rewrite get_bind in Hg.
  apply bind_Ok in Hg as (m & s2 & [Ee ->]%from_option_or_Ok & Hg).
  destruct (findEmployee id u s) as [[eid m']|] eqn:Ef; [|done]. injection Ee as ->.
  rewrite require_bind in Hg. destruct (em_isActive m) eqn:Ea; [|done]. injection Hg as <-.
  exists u, eid, m. split_and!; try done. intros limit Hl H0. unfold spendingGuard in Hsp. cbn in Hsp. rewrite Hl in Hsp.
  assert (d_gt limit 0 = true) as Hd by by apply d_gt_true. rewrite Hd, get_bind in Hsp. unfold require in Hsp.
  assert (str_or caller "" = u) as Es by (unfold str_or; by rewrite Eu). rewrite Es in Hsp.
  destruct (d_gt (_ + _) limit) eqn:E; [done|]. by dec_bool.
Qed.
Lemma guarded_throw {A} b e (m : M CorporateStore A) s x s' : (require b e ;; transaction m) s = (Throw x, s') -> s' = s.
Proof.
  rewrite require_bind. destruct b; [|by intros [= _ <-]]. intros H. by apply transaction_Throw in H as [-> _].
Qed.

Lemma d_min_credit a amount : 0 <= cp_usedCredit a -> 0 <= of_number amount ->
  let d := d_min (cp_usedCredit a) (of_number amount) in 0 <= d /\ d <= cp_usedCredit a.
Proof. intros Hu Ha d. unfold d. destruct (d_min_spec (cp_usedCredit a) (of_number amount)) as [[? ->]|[? ->]]; lra. Qed.

(** One operation on corporate accounts; amounts of credit are whole paise. *)
Inductive corporate_step s s' : Prop :=
  | step_create env dto r : createCorporateAccount env dto s = (r, s') -> corporate_step s s'
  | step_update id dto r : updateCorporateAccount id dto s = (r, s') -> corporate_step s s'
  | step_employee env id dto r : addEmployee env id dto s = (r, s') -> corporate_step s s'
  | step_status id eid b r : updateEmployeeStatus id eid b s = (r, s') -> corporate_step s s'
  | step_validate code x caller role r : validateCredit code x caller role s = (r, s') -> corporate_step s s'
  | step_reserve env code x caller role booking r : whole_paise (of_number x) ->
      reserveCredit env code x caller role booking s = (r, s') -> corporate_step s s'
  | step_release env code x caller booking r : whole_paise (of_number x) ->
      releaseCredit env code x caller booking s = (r, s') -> corporate_step s s'
  | step_settle env code x caller booking r : whole_paise (of_number x) ->
      settleCredit env code x caller booking s = (r, s') -> corporate_step s s'.

Lemma knownVendor_readonly v : readonly (knownVendor v).
Proof. intros x. unfold knownVendor. apply preserves_bind; auto with preserves. Qed.
Lemma createAccount_ok env dto : preserves corp_ok (createCorporateAccount env dto).
Proof.
  intros s r s' H Hs. unfold createCorporateAccount in H. rewrite get_bind, require_bind in H.
  destruct (findAccount _ s); [by injection H as _ <-|]. cbn zeta in H. rewrite bind_run in H.
  destruct (knownVendor _ s) as [[[]|e] s1] eqn:E; pose proof (readonly_eq _ _ _ _ (knownVendor_readonly _) E) as ->;
    [|by injection H as _ <-].
  rewrite require_bind in H. destruct (corp_accounts s !! oe_freshId env) eqn:Ef; [by injection H as _ <-|].
  injection H as _ <-. assert (store 0 == 0) as E0 by (apply store_exact; auto with dec).
  apply corp_ok_rewrite; [done|by rewrite Ef|]. intros _. simpl. split; [done|]. rewrite E0. auto with dec.
Qed.
Lemma updateAccount_ok id dto : preserves corp_ok (updateCorporateAccount id dto).
Proof.
  intros s r s' H Hs. unfold updateCorporateAccount, getAccountById in H. rewrite bind_run, get_bind in H.
  destruct (corp_accounts s !! id) as [a|] eqn:Ea; [|by injection H as _ <-]. cbn in H.
  rewrite bind_run in H. destruct (knownVendor _ s) as [[[]|e] s1] eqn:E;
    pose proof (readonly_eq _ _ _ _ (knownVendor_readonly _) E) as ->; [|by injection H as _ <-].
  injection H as _ <-. apply corp_ok_rewrite; [done| |by rewrite Ea]. intros b. rewrite Ea. by intros [= <-].
Qed.
Definition account_side s := (corp_accounts s, corp_entries s).
Lemma side_ok s s' : account_side s' = account_side s -> corp_ok s -> corp_ok s'.
Proof. intros [= Ea Ee] [Hu He]. split; [rewrite Ea, Ee; apply Hu|rewrite Ee, Ea; apply He]. Qed.
Lemma ledger_ok l s : corp_ok s -> corp_ok (set_corp_ledger l s).
Proof. by apply side_ok. Qed.
Lemma addEmployee_side env id dto : keeps account_side (addEmployee env id dto).
Proof.
  intros x. unfold addEmployee, getAccountById. apply preserves_bind; [apply preserves_bind; auto with preserves|intros _].
  apply preserves_bind; [auto with preserves|intros t]. do 2 (apply preserves_bind; [auto with preserves|intros _]).
  apply preserves_bind; [auto with preserves|intros _]. apply preserves_bind; [by apply preserves_modify|auto with preserves].
Qed.
Lemma updateEmployeeStatus_side id eid b : keeps account_side (updateEmployeeStatus id eid b).
Proof.
  intros x. unfold updateEmployeeStatus. apply preserves_bind; [auto with preserves|intros t].
  apply preserves_bind; [auto with preserves|intros e]. apply preserves_bind; [by apply preserves_modify|auto with preserves].
Qed.
Lemma validateCredit_readonly code x caller role : readonly (validateCredit code x caller role).
Proof.
  intros y. unfold validateCredit, getAccountByCode, accountByCode.
  apply preserves_bind; [apply preserves_bind; auto with preserves|intros [id a]].
  apply preserves_bind; [auto with preserves|intros _].
  apply preserves_bind; [apply employeeGuard_readonly|auto with preserves].
Qed.

Lemma corporate_step_ok s s' : corporate_step s s' -> corp_ok s -> corp_ok s'.
Proof.
  intros [env dto r H|id dto r H|env id dto r H|id eid b r H|code x caller role r H|env code x caller role booking [a'|e] Hx H|
    env code x caller booking [a'|e] Hx H|env code x caller booking [a'|e] Hx H] Hs.
  - by eapply createAccount_ok.
  - by eapply updateAccount_ok.
  - by eapply side_ok, Hs; eapply keeps_eq, H; apply addEmployee_side.
  - by eapply side_ok, Hs; eapply keeps_eq, H; apply updateEmployeeStatus_side.
  - by rewrite (readonly_eq _ _ _ _ (validateCredit_readonly _ _ _ _) H).
  - apply reserve_Ok in H as (id & a & e & [Ha _]%findAccount_Some & _ & Hp%of_number_pos & _ & _ & _ & -> & ->).
    destruct (co_used _ Hs _ _ Ha) as (_ & H0 & _). apply (corp_ok_move env id a CREDIT_RESERVATION); try done; lra.
  - by rewrite (guarded_throw _ _ _ _ _ _ H).
  - apply release_Ok in H as (id & a & [Ha _]%findAccount_Some & Hp%of_number_pos & -> & ->).
    destruct (co_used _ Hs _ _ Ha) as (_ & H0 & Hw). destruct (d_min_credit a x H0 Hp) as [D1 D2].
    apply (corp_ok_move env id a CREDIT_RELEASE); try done; [auto with dec|lra].
  - by rewrite (guarded_throw _ _ _ _ _ _ H).
  - apply settle_Ok in H as (id & a & l & [Ha _]%findAccount_Some & Hp%of_number_pos & -> & ->).
    destruct (co_used _ Hs _ _ Ha) as (_ & H0 & Hw). destruct (d_min_credit a x H0 Hp) as [D1 D2].
    apply ledger_ok.
    apply (corp_ok_move env id a INVOICE_SETTLEMENT); try done; [auto with dec|lra].
  - by rewrite (guarded_throw _ _ _ _ _ _ H).
Qed.

(** The net of an account by the three types of entries. *)
Definition creditEntriesOf (id : string) s : list CreditEntry :=
  List.filter (fun e => String.eqb (cx_corporateAccountId e) id) (corp_entries s).
Lemma own_net id l :
  creditNet id l == sum_by signedCredit (List.filter (fun e => String.eqb (cx_corporateAccountId e) id) l).
Proof.
  unfold creditNet. induction l as [|e l IH]; [reflexivity|]. simpl.
  destruct (String.eqb (cx_corporateAccountId e) id); simpl; rewrite IH; ring.
Qed.
Lemma net_totals l : sum_by signedCredit l == totalOf CREDIT_RESERVATION l - totalOf CREDIT_RELEASE l - totalOf INVOICE_SETTLEMENT l.
Proof.
  induction l as [|e l IH]; [reflexivity|]. simpl. rewrite IH. unfold totalOf, signedCredit. simpl.
  destruct (cx_type e); simpl; ring.
Qed.
End safety.

(** ** Properties *)
Section properties.
Context {col : NumericColumn} {dec : DecimalArith} {num : DecimalNumbers}.
Implicit Types s : CorporateStore.

(** Corporate credit is the replay of its ledger.  Through any sequence
    of accounts created and changed, employees, validations, reservations,
    releases and settlements of whole paise, whatever they answer, the used
    credit of every account is what its ledger reserved less what it released
    and settled, never negative, no entry is negative and every entry belongs
    to an account. *)
Theorem corporate_credit_replays s0 s id a (H0 : corp_accounts s0 = ∅ /\ corp_entries s0 = [])
    (H : rtc corporate_step s0 s) (Ha : corp_accounts s !! id = Some a) :
  cp_usedCredit a == totalOf CREDIT_RESERVATION (creditEntriesOf id s) - totalOf CREDIT_RELEASE (creditEntriesOf id s) -
    totalOf INVOICE_SETTLEMENT (creditEntriesOf id s) /\
  0 <= cp_usedCredit a /\
  forall e, e ∈ corp_entries s -> 0 <= cx_amount e /\ is_Some (corp_accounts s !! cx_corporateAccountId e).
Proof.
  assert (corp_ok s) as [Hu He] by (destruct H0; apply (rtc_invariant _ _ _ _ corporate_step_ok H); by apply corp_ok_empty).
  destruct (Hu id a Ha) as (Hn & H1 & _). split_and!; [|done|].
  - by rewrite Hn, own_net, net_totals.
  - intros e Hin. destruct (He e Hin) as (? & ? & _). done.
Qed.

(** A reservation stays within the limits or changes nothing.  When
    credit of whole paise is reserved, the account is active, the caller, if
    a customer, an active employee of it within the month's limit, the used
    credit grows by exactly the amount, to at most the credit limit of any
    account whose limit is whole paise, and one entry records it with the
    credit left; else the call throws and the store is as before. *)
Theorem reservation_within_limits env code amount caller role booking s r s'
    (Hs : corp_ok s) (Hw : whole_paise (of_number amount))
    (H : reserveCredit env code amount caller role booking s = (r, s')) :
  (exists x, r = Throw x /\ s' = s) \/
  exists id a a' e, r = Ok a' /\ findAccount (uppercase code) s = Some (id, a) /\ cp_isActive a = true /\
    (role = Some ROLE_CUSTOMER -> exists u eid m, truthy caller = Some u /\ findEmployee id u s = Some (eid, m) /\ em_isActive m = true /\
       forall limit, em_spendingLimitMonthly m = Some limit -> 0 < limit ->
         reservedSince id u (oe_startOfMonth env) (corp_entries s) + of_number amount <= limit) /\
    corp_accounts s' = <[id := a']> (corp_accounts s) /\ corp_entries s' = corp_entries s ++ [e] /\ corp_ledger s' = corp_ledger s /\
    cp_usedCredit a' == cp_usedCredit a + of_number amount /\ cp_usedCredit a' <= cp_creditLimit a' /\
    cx_amount e == of_number amount /\ (whole_paise (cp_creditLimit a) -> cx_balanceAfter e == cp_creditLimit a' - cp_usedCredit a').
Proof.
  destruct r as [a'|x]; [right|left; exists x; by rewrite (guarded_throw _ _ _ _ _ _ H)].
  apply reserve_Ok in H as (id & a & e & Hf & Hact & Hp & Hg & Hsp & Hlim & Ea & ->).
  pose proof (findAccount_Some _ _ _ _ Hf) as [Ha _]. destruct (co_used _ Hs _ _ Ha) as (_ & H0 & Hwu).
  assert (whole_paise (cp_usedCredit a + of_number amount)) as Hwn by auto with dec.
  assert (cp_usedCredit a' == cp_usedCredit a + of_number amount) as Eu by (rewrite Ea; by apply store_exact).
  exists id, a, a', (creditRow env id a' CREDIT_RESERVATION (of_number amount) caller booking).
  split_and!; try done.
  - intros ->. by apply (guards_hold env id caller amount s e).
  - rewrite Eu, Ea. simpl. unfold availableCredit in Hlim. lra.
  - by apply store_exact.
  - intros Hwl. cbn. apply store_exact. unfold availableCredit. rewrite Eu, Ea. simpl. auto with dec.
Qed.
End properties.

(** ** Concrete runs *)
Definition corp_env (now : Z) (random : string) : CorporateEnv :=
  {| oe_now := now; oe_startOfMonth := 0; oe_freshId := "x" +:+ random; oe_random := random; oe_hasLedger := true;
     oe_journalId := "j" +:+ random |}.
Definition acme : CreateCorporateAccountDto :=
  {| cad_companyName := "Acme"; cad_corporateCode := "acme"; cad_contactEmail := "a@acme"; cad_contactPhone := "1";
     cad_taxIdNumber := None; cad_billingAddress := "Pune"; cad_creditLimit := Some 10000; cad_negotiatedDiscountPct := None;
     cad_paymentTermsDays := None; cad_preferredVendorId := None |}.
Definition employee_1 (limit : option Q) : AddCorporateEmployeeDto :=
  {| aed_userId := "u1"; aed_employeeCode := Some "E1"; aed_department := None; aed_spendingLimitMonthly := limit |}.
(** Account "xa" with employee "u1", whose month is limited to 3,000. *)
Definition staffed (limit : option Q) : CorporateStore :=
  snd (addEmployee (corp_env 1 "e") "xa" (employee_1 limit) (snd (createCorporateAccount (corp_env 0 "a") acme empty_corporate))).
Definition reserve_run (n : Z) (random : string) (amount : Q) (booking : string) (s : CorporateStore)
    : result CorporateAccount * CorporateStore :=
  reserveCredit (corp_env n random) "acme" amount (Some "u1") (Some ROLE_CUSTOMER) (Some booking) s.
Definition reserved : result CorporateAccount * CorporateStore := reserve_run 2 "r1" 2500 "b1" (staffed (Some 3000)).
Lemma reserved_reachable : rtc corporate_step empty_corporate (snd reserved).
Proof.
  eapply rtc_l; [|eapply rtc_l; [|apply rtc_once]].
  - apply (step_create _ _ (corp_env 0 "a") acme (fst (createCorporateAccount (corp_env 0 "a") acme empty_corporate))), surjective_pairing.
  - eapply (step_employee _ _ (corp_env 1 "e") "xa" (employee_1 (Some 3000))), surjective_pairing.
  - eapply (step_reserve _ _ (corp_env 2 "r1") "acme" 2500); [|apply surjective_pairing].
    apply is_whole_paise_true. vm_compute. reflexivity.
Qed.

Lemma corporate_credit_replays_witness :
  exists a, corp_accounts (snd reserved) !! "xa" = Some a /\ cp_usedCredit a == 2500 /\
    totalOf CREDIT_RESERVATION (creditEntriesOf "xa" (snd reserved)) == 2500.
Proof.
  destruct (corp_accounts (snd reserved) !! "xa") as [a|] eqn:Ea; [|vm_compute in Ea; discriminate Ea].
  destruct (corporate_credit_replays empty_corporate (snd reserved) "xa" a (conj eq_refl eq_refl) reserved_reachable Ea)
    as (E & _ & _).
  exists a. split; [reflexivity|]. rewrite E. split; vm_compute; reflexivity.
Defined.

Lemma staffed_ok : corp_ok (staffed (Some 3000)).
Proof.
  apply (rtc_invariant corporate_step corp_ok empty_corporate); [apply corporate_step_ok| |by apply corp_ok_empty].
  eapply rtc_l; [|apply rtc_once].
  - apply (step_create _ _ (corp_env 0 "a") acme (fst (createCorporateAccount (corp_env 0 "a") acme empty_corporate))), surjective_pairing.
  - eapply (step_employee _ _ (corp_env 1 "e") "xa" (employee_1 (Some 3000))), surjective_pairing.
Qed.
Lemma reservation_within_limits_witness :
  exists a', fst reserved = Ok a' /\ cp_usedCredit a' <= cp_creditLimit a'.
Proof.
  destruct (reservation_within_limits (corp_env 2 "r1") "acme" 2500 (Some "u1") (Some ROLE_CUSTOMER) (Some "b1")
    (staffed (Some 3000)) (fst reserved) (snd reserved)) as [(x & H & _)|(id & a & a' & e & H & _ & _ & _ & _ & _ & _ & _ & Hl & _)].
  - exact staffed_ok.
  - apply is_whole_paise_true. vm_compute. reflexivity.
  - apply surjective_pairing.
  - vm_compute in H. discriminate H.
  - exists a'. split; [exact H|exact Hl].
Defined.

(** A second reservation over the month's limit is refused, *)
Lemma month_limit_refused : reserve_run 3 "r2" 600 "b2" (snd reserved) = (Throw BadRequestException, snd reserved).
Proof. vm_compute. reflexivity. Qed.

(** ** Where corporate credit goes wrong *)

(** and refused still when the first was released: the limit counts what was
    reserved, not what is. *)
Definition released : result CorporateAccount * CorporateStore :=
  releaseCredit (corp_env 3 "r2") "acme" 2500 None (Some "b1") (snd reserved).
Lemma released_still_counts :
  (cp_usedCredit <$> corp_accounts (snd released) !! "xa") = Some 0 /\
  fst (reserve_run 4 "r3" 600 "b2" (snd released)) = Throw BadRequestException.
Proof. split; vm_compute; reflexivity. Qed.

(** A monthly limit of zero is stored as none: nothing limits the employee. *)
Lemma zero_limit_is_unlimited :
  (em_spendingLimitMonthly <$> corp_employees (staffed (Some 0)) !! "xe") = Some None /\
  match fst (reserve_run 2 "r1" 9000 "b1" (staffed (Some 0))) with Ok _ => True | Throw _ => False end.
Proof. split; vm_compute; done. Qed.

(** The route that releases credit names the caller's role as the booking: no
    booking has such an id, and every release throws. *)
Lemma release_route_never_releases {col : NumericColumn} {num : DecimalNumbers} env userId role code amount s :
  roleName role ∉ corp_bookings s -> exists x, releaseRoute env userId role code amount s = (Throw x, s).
Proof.
  intros Hr. destruct (releaseRoute env userId role code amount s) as [[a|x] s'] eqn:E; unfold releaseRoute in E.
  - exfalso. unfold releaseCredit in E. rewrite require_bind in E. destruct (negb _); [|done].
    rewrite transaction_Ok in E. unfold accountByCode in E. rewrite bind_run, get_bind in E.
    destruct (findAccount (uppercase code) s) as [[id b]|]; [|done]. cbn in E. unfold moveCredit in E.
    apply bind_Ok in E as ([] & s1 & E1 & E). injection E1 as <-. rewrite get_bind, require_bind in E.
    destruct (negb _); [|done]. rewrite require_bind in E. simpl in E.
    assert (truthy (Some (roleName role)) = Some (roleName role)) as Ht by by destruct role.
    simpl in Ht. rewrite Ht, bool_decide_eq_false_2 in E by done. done.
  - exists x. by rewrite (guarded_throw _ _ _ _ _ _ E).
Qed.

(** A release that is repeated takes back what another booking reserved. *)
Lemma repeated_release_frees_others :
  let s := snd (reserve_run 3 "r2" 400 "b2" (snd (reserve_run 2 "r1" 400 "b1" (staffed None)))) in
  let release n r s := snd (releaseCredit (corp_env n r) "acme" 400 None (Some "b1") s) in
  (cp_usedCredit <$> corp_accounts s !! "xa") = Some 800 /\
  (cp_usedCredit <$> corp_accounts (release 5%Z "r4" (release 4%Z "r3" s)) !! "xa") = Some 0.
Proof. split; vm_compute; reflexivity. Qed.

(** The limit of an account can be set below what is used. *)
Lemma limit_below_used :
  let dto := {| uad_companyName := None; uad_contactEmail := None; uad_contactPhone := None; uad_taxIdNumber := None;
                uad_billingAddress := None; uad_creditLimit := Some 1000; uad_negotiatedDiscountPct := None;
                uad_paymentTermsDays := None; uad_isActive := None; uad_preferredVendorId := None |} in
  (availableCredit <$> corp_accounts (snd (updateCorporateAccount "xa" dto (snd reserved))) !! "xa") = Some (-1500).
Proof. vm_compute. reflexivity. Qed.

(** Settling an account that owes nothing writes an entry of zero, and the
    journal that cannot be recorded is dropped. *)
Lemma settlement_of_nothing :
  let run := settleCredit (corp_env 3 "s1") "acme" 500 None None (staffed None) in
  map (fun e => (cx_type e, cx_amount e)) (corp_entries (snd run)) = [(INVOICE_SETTLEMENT, 0)] /\ corp_ledger (snd run) = [].
Proof. split; vm_compute; reflexivity. Qed.

(** The route of the ledger takes its limit for a page: an account with no
    more than twenty entries shows none of them to a client that asks for two
    or more. *)
Lemma limit_skips_entries accountId limit s a : (2 <= limit)%nat -> corp_accounts s !! accountId = Some a ->
  (length (creditEntriesOf accountId s) <= 20)%nat ->
  creditLedgerRoute accountId (Some limit) s = (Ok ([], length (creditEntriesOf accountId s)), s).
Proof.
  intros Hl Ea Hn. unfold creditLedgerRoute, getCreditLedger, getAccountById. rewrite bind_run, get_bind, Ea.
  unfold from_option_or. rewrite ret_run. cbv beta iota. rewrite get_bind. fold (creditEntriesOf accountId s).
  cbn [default from_option id]. rewrite drop_ge, take_nil; [done|].
  rewrite (Permutation_length (sort_desc_perm _ _)). lia.
Qed.
