(* ===== verification/Auth.v ===== *)
(** * Authentication: src/car_rental_backend/src/auth/

    One-time passwords of the phone login (otp.service.ts), sessions and
    refresh tokens (auth.service.ts), the logins with Google and Apple
    (social-auth.service.ts) and what the guards read of an access token
    (strategies/jwt.strategy.ts, guards/, permissions.enum.ts).  The clock,
    generated ids and codes, the outcome of the text message, the encryption
    of bank details and what Google and Apple answer are arguments.  Redis,
    bcrypt and the JWT library are interfaces with their documented
    behaviour. *)
From stdpp Require Import pretty.
From S2P Require Import Prelude Schema Locks HandoverOtp.
Open Scope Z_scope.

(** ** Interfaces *)

(** [GET k] and [SET k v EX seconds]. *)
Class RedisCache (R : Type) : Type := {
  rc_get : Z -> string -> R -> option string;
  rc_set_ex : Z -> string -> string -> Z -> R -> R;
  rc_get_set now t k v ttl r : now <= t -> t < now + ttl * 1000 -> rc_get t k (rc_set_ex now k v ttl r) = Some v;
  rc_get_expired now t k v ttl r : now + ttl * 1000 <= t -> rc_get t k (rc_set_ex now k v ttl r) = None;
  rc_get_other now t k k' v ttl r : k <> k' -> rc_get t k' (rc_set_ex now k v ttl r) = rc_get t k' r;
}.
#[refine, export] Instance mem_cache : RedisCache RedisMem := {
  rc_get := mem_get;
  rc_set_ex now k v ttl r := <[k := (v, now + ttl * 1000)]> r
}.
Proof.
  all: intros; unfold mem_get.
  - rewrite lookup_insert_eq. by rewrite (proj2 (Z.ltb_lt _ _)).
  - rewrite lookup_insert_eq. by rewrite (proj2 (Z.ltb_ge _ _)).
  - by rewrite lookup_insert_ne.
Defined.

Inductive Claims : Type :=
  | AccessClaims (userId : string) (role : Role) (staffRole : option string)
  | RefreshClaims (sub tokenId : string).
(** [jwt_sign now secret ttl claims] and [jwt_verify now secret token]: a
    token says the same whenever it is accepted, and is accepted with the
    secret it was signed with until it expires. *)
Class Jwt : Type := {
  jwt_sign : Z -> string -> Z -> Claims -> string;
  jwt_verify : Z -> string -> string -> option Claims;
  jwt_verify_stable t t' secret token p q :
    jwt_verify t secret token = Some p -> jwt_verify t' secret token = Some q -> p = q;
  jwt_verify_sign now t secret ttl c : now <= t -> t < now + ttl ->
    jwt_verify t secret (jwt_sign now secret ttl c) = Some c;
}.

(** ** Data *)
Record OtpRequest : Type := {
  oq_id : string;
  oq_phone : string;
  oq_otpHash : string;
  oq_expiresAt : Z;
  oq_verified : bool;
  oq_attemptCount : Z;
  oq_createdAt : Z;
}.
Record RefreshToken : Type := {
  tk_userId : string;
  tk_tokenHash : string;
  tk_expiresAt : Z;
  tk_revoked : bool;
}.
Record User : Type := {
  us_name : string;
  us_phone : option string;
  us_email : option string;
  us_googleId : option string;
  us_appleId : option string;
  us_role : Role;
  us_staffRole : option string;
  us_passwordHash : option string;
  us_profilePhotoUrl : option string;
  us_banned : bool;
}.
Inductive BusinessType : Type := INDIVIDUAL | CONSULTANCY.
Record VendorProfile : Type := {
  vp_userId : string;
  vp_businessName : string;
  vp_ownerName : string;
  vp_city : string;
  vp_gstNumber : option string;
  vp_panNumber : option string;
  vp_bankDetails : option string;
  vp_businessType : BusinessType;
  vp_yearsInOperation : option Z;
  vp_verificationStatus : VerificationStatus;
}.
Record AuthStore (R : Type) : Type := {
  au_otps : list OtpRequest;
  au_tokens : gmap string RefreshToken;
  au_users : gmap string User;
  au_vendors : gmap string VendorProfile;
  au_redis : R;
}.
Arguments au_otps {R}. Arguments au_tokens {R}. Arguments au_users {R}. Arguments au_vendors {R}. Arguments au_redis {R}.

Section setters.
Context {R : Type}.
Implicit Types s : AuthStore R.
Definition set_otpRequests (l : list OtpRequest) s : AuthStore R :=
  {| au_otps := l; au_tokens := au_tokens s; au_users := au_users s; au_vendors := au_vendors s; au_redis := au_redis s |}.
Definition set_token (id : string) (t : RefreshToken) s : AuthStore R :=
  {| au_otps := au_otps s; au_tokens := <[id := t]> (au_tokens s); au_users := au_users s; au_vendors := au_vendors s;
     au_redis := au_redis s |}.
Definition set_user (id : string) (u : User) s : AuthStore R :=
  {| au_otps := au_otps s; au_tokens := au_tokens s; au_users := <[id := u]> (au_users s); au_vendors := au_vendors s;
     au_redis := au_redis s |}.
Definition set_vendor_profile (id : string) (v : VendorProfile) s : AuthStore R :=
  {| au_otps := au_otps s; au_tokens := au_tokens s; au_users := au_users s; au_vendors := <[id := v]> (au_vendors s);
     au_redis := au_redis s |}.
Definition set_redis (r : R) s : AuthStore R :=
  {| au_otps := au_otps s; au_tokens := au_tokens s; au_users := au_users s; au_vendors := au_vendors s; au_redis := r |}.
End setters.

Record GooglePayload : Type := {
  gg_sub : string;
  gg_email : option string;
  gg_name : option string;
  gg_picture : option string;
}.
Record ApplePayload : Type := {
  ap_sub : string;
  ap_email : option string;
}.
(** [ae_google] and
    [ae_apple] answer [verifyIdToken], [None] when it throws or has no
    subject. *)
Record AuthEnv : Type := {
  ae_now : Z;
  ae_redisUp : bool;
  ae_otpId : string;
  ae_otpCode : Z;
  ae_smsSent : bool;
  ae_devBypass : bool;
  ae_tokenId : string;
  ae_userId : string;
  ae_vendorId : string;
  ae_accessSecret : string;
  ae_refreshSecret : string;
  ae_accessTtl : Z;
  ae_refreshTtl : Z;
  ae_encrypt : string -> string;
  ae_google : string -> option GooglePayload;
  ae_apple : string -> option ApplePayload;
}.
Record Tokens : Type := {
  tp_accessToken : string;
  tp_refreshToken : string;
}.
Inductive LoginResult : Type :=
  | NewUser
  | LoggedIn (userId : string) (tokens : Tokens).

Section auth.
Context {R : Type} {cache : RedisCache R} {bcrypt : Bcrypt} {jwt : Jwt}.
Abbreviation AM := (M (AuthStore R)).
Implicit Types s : AuthStore R.

(** ** One-time passwords *)
Definition rateLimitKey (phone : string) : string := "otp:ratelimit:" +:+ phone.
Definition unverifiedOf (phone : string) (o : OtpRequest) : bool :=
  String.eqb (oq_phone o) phone && negb (oq_verified o).
Definition expireOtp (at_ : Z) (o : OtpRequest) : OtpRequest :=
  {| oq_id := oq_id o; oq_phone := oq_phone o; oq_otpHash := oq_otpHash o; oq_expiresAt := at_;
     oq_verified := oq_verified o; oq_attemptCount := oq_attemptCount o; oq_createdAt := oq_createdAt o |}.
Definition updateOtps (p : OtpRequest -> bool) (f : OtpRequest -> OtpRequest) : AM unit :=
  modify (fun s => set_otpRequests (map (fun o => if p o then f o else o) (au_otps s)) s).
(** Every unverified request of the phone ends. *)
Definition expireUnverified (env : AuthEnv) (phone : string) : AM unit :=
  updateOtps (unverifiedOf phone) (expireOtp (ae_now env - 1000)).

Definition sendOtp (env : AuthEnv) (phone : string) : AM unit :=
  s ← get;
  require (negb (ae_redisUp env && match truthy (rc_get (ae_now env) (rateLimitKey phone) (au_redis s)) with
                                   | Some _ => true
                                   | None => false
                                   end)) TooManyRequestsException ;;
  expireUnverified env phone ;;
  s ← get;
  require (negb (existsb (fun o => String.eqb (oq_id o) (ae_otpId env)) (au_otps s))) PrismaP2002 ;;
  modify (set_otpRequests (au_otps s ++
    [{| oq_id := ae_otpId env; oq_phone := phone; oq_otpHash := hashSync (pretty (ae_otpCode env));
        oq_expiresAt := ae_now env + 5 * 60 * 1000; oq_verified := false; oq_attemptCount := 0;
        oq_createdAt := ae_now env |}])) ;;
  (if ae_smsSent env then mret tt
   else updateOtps (fun o => String.eqb (oq_id o) (ae_otpId env)) (expireOtp (ae_now env - 1000)) ;;
        throw BadGatewayException) ;;
  when (ae_redisUp env) (modify (fun s => set_redis (rc_set_ex (ae_now env) (rateLimitKey phone) "1" 60 (au_redis s)) s)).

(** The table grows at its end: the latest request is the last. *)
Definition latestOtp (phone : string) (l : list OtpRequest) : option OtpRequest :=
  List.find (unverifiedOf phone) (reverse l).
Definition MAX_ATTEMPTS : Z := 5.
Definition failedAttempt (env : AuthEnv) (latest o : OtpRequest) : OtpRequest :=
  {| oq_id := oq_id o; oq_phone := oq_phone o; oq_otpHash := oq_otpHash o;
     oq_expiresAt := if MAX_ATTEMPTS <=? oq_attemptCount latest + 1 then ae_now env - 1000 else oq_expiresAt o;
     oq_verified := oq_verified o; oq_attemptCount := oq_attemptCount o + 1; oq_createdAt := oq_createdAt o |}.
Definition acceptOtp (env : AuthEnv) (o : OtpRequest) : OtpRequest :=
  {| oq_id := oq_id o; oq_phone := oq_phone o; oq_otpHash := oq_otpHash o; oq_expiresAt := ae_now env - 1000;
     oq_verified := true; oq_attemptCount := oq_attemptCount o; oq_createdAt := oq_createdAt o |}.
Definition otpMatches (env : AuthEnv) (otp : string) (latest : OtpRequest) : bool :=
  (ae_devBypass env && String.eqb otp "123456") || compareSync otp (oq_otpHash latest).
(** What follows the read of the latest request. *)
Definition judgeOtp (env : AuthEnv) (phone otp : string) (latest : OtpRequest) : AM unit :=
  require (ae_now env <=? oq_expiresAt latest) BadRequestException ;;
  require (oq_attemptCount latest <? MAX_ATTEMPTS) BadRequestException ;;
  if otpMatches env otp latest then
    updateOtps (fun o => String.eqb (oq_id o) (oq_id latest)) (acceptOtp env) ;;
    expireUnverified env phone
  else
    updateOtps (fun o => String.eqb (oq_id o) (oq_id latest)) (failedAttempt env latest) ;;
    throw BadRequestException.
Definition verifyPhoneOtp (env : AuthEnv) (phone otp : string) : AM unit :=
  s ← get;
  latest ← from_option_or (latestOtp phone (au_otps s)) BadRequestException;
  judgeOtp env phone otp latest.

(** ** Sessions *)
Definition THIRTY_DAYS_MS : Z := 30 * 24 * 60 * 60 * 1000.
Definition issueTokens (env : AuthEnv) (userId : string) (role : Role) (staffRole : option string) : AM Tokens :=
  s ← get;
  require (match au_tokens s !! ae_tokenId env with None => true | Some _ => false end) PrismaP2002 ;;
  require (match au_users s !! userId with Some _ => true | None => false end) PrismaP2003 ;;
  let expiresAt := ae_now env + THIRTY_DAYS_MS in
  modify (set_token (ae_tokenId env)
    {| tk_userId := userId; tk_tokenHash := ""; tk_expiresAt := expiresAt; tk_revoked := false |}) ;;
  let accessToken := jwt_sign (ae_now env) (ae_accessSecret env) (ae_accessTtl env) (AccessClaims userId role (truthy staffRole)) in
  let refreshToken := jwt_sign (ae_now env) (ae_refreshSecret env) (ae_refreshTtl env) (RefreshClaims userId (ae_tokenId env)) in
  modify (set_token (ae_tokenId env)
    {| tk_userId := userId; tk_tokenHash := hashSync refreshToken; tk_expiresAt := expiresAt; tk_revoked := false |}) ;;
  mret {| tp_accessToken := accessToken; tp_refreshToken := refreshToken |}.

Definition findUser (p : User -> bool) (users : gmap string User) : option (string * User) :=
  List.find (fun row => p (snd row)) (map_to_list users).
Definition userByPhone (phone : string) (users : gmap string User) : option (string * User) :=
  findUser (fun u => bool_decide (us_phone u = Some phone)) users.

Definition verifyOtpAndLogin (env : AuthEnv) (phone otp : string) : AM LoginResult :=
  verifyPhoneOtp env phone otp ;;
  s ← get;
  match userByPhone phone (au_users s) with
  | None => mret NewUser
  | Some (id, user) =>
    require (negb (us_banned user)) ForbiddenException ;;
    tokens ← issueTokens env id (us_role user) None;
    mret (LoggedIn id tokens)
  end.

Definition recentlyVerified (env : AuthEnv) (phone : string) (l : list OtpRequest) : bool :=
  existsb (fun o => String.eqb (oq_phone o) phone && oq_verified o && (ae_now env - 10 * 60 * 1000 <=? oq_createdAt o)) l.
Definition newUser (env : AuthEnv) (u : User) : AM unit :=
  s ← get;
  require (match au_users s !! ae_userId env with None => true | Some _ => false end) PrismaP2002 ;;
  modify (set_user (ae_userId env) u).
Definition plainUser (name : string) (phone email : option string) (role : Role) : User :=
  {| us_name := name; us_phone := phone; us_email := email; us_googleId := None; us_appleId := None; us_role := role;
     us_staffRole := None; us_passwordHash := None; us_profilePhotoUrl := None; us_banned := false |}.
Definition register (env : AuthEnv) (phone name : string) (email : option string) : AM LoginResult :=
  s ← get;
  require (recentlyVerified env phone (au_otps s)) BadRequestException ;;
  require (match userByPhone phone (au_users s) with None => true | Some _ => false end) BadRequestException ;;
  newUser env (plainUser name (Some phone) email ROLE_CUSTOMER) ;;
  tokens ← issueTokens env (ae_userId env) ROLE_CUSTOMER None;
  mret (LoggedIn (ae_userId env) tokens).

Record RegisterVendorDto : Type := {
  rv_phone : string;
  rv_businessName : string;
  rv_email : option string;
  rv_ownerName : string;
  rv_city : string;
  rv_gstNumber : option string;
  rv_panNumber : option string;
  rv_bankDetails : option string;
  rv_businessType : BusinessType;
  rv_yearsInOperation : option Z;
}.
(** [[^a-z0-9]] removed. *)
Fixpoint alphanumeric (t : string) : string :=
  match t with
  | EmptyString => EmptyString
  | String c t' =>
    let n := Z.of_nat (Ascii.nat_of_ascii c) in
    if ((97 <=? n) && (n <=? 122)) || ((48 <=? n) && (n <=? 57)) then String c (alphanumeric t') else alphanumeric t'
  end.
Definition lastFour (t : string) : string := String.substring (String.length t - 4) 4 t.
Definition vendorEmail (dto : RegisterVendorDto) : string :=
  str_or (rv_email dto)
    (str_or (Some (alphanumeric (lowercase (rv_ownerName dto)))) "vendor" +:+ "_" +:+ lastFour (rv_phone dto) +:+ "@vendor.drivego.in").
Definition registerVendor (env : AuthEnv) (dto : RegisterVendorDto) : AM LoginResult :=
  s ← get;
  require (recentlyVerified env (rv_phone dto) (au_otps s)) BadRequestException ;;
  require (match userByPhone (rv_phone dto) (au_users s) with None => true | Some _ => false end) BadRequestException ;;
  transaction (
    newUser env (plainUser (rv_ownerName dto) (Some (rv_phone dto)) (Some (vendorEmail dto)) ROLE_VENDOR) ;;
    s ← get;
    require (match au_vendors s !! ae_vendorId env with None => true | Some _ => false end) PrismaP2002 ;;
    modify (set_vendor_profile (ae_vendorId env)
      {| vp_userId := ae_userId env; vp_businessName := rv_businessName dto; vp_ownerName := rv_ownerName dto;
         vp_city := rv_city dto; vp_gstNumber := rv_gstNumber dto; vp_panNumber := rv_panNumber dto;
         vp_bankDetails := option_map (ae_encrypt env) (truthy (rv_bankDetails dto));
         vp_businessType := rv_businessType dto;
         vp_yearsInOperation := match rv_yearsInOperation dto with Some 0 => None | y => y end;
         vp_verificationStatus := VS_PENDING |})) ;;
  tokens ← issueTokens env (ae_userId env) ROLE_VENDOR None;
  mret (LoggedIn (ae_userId env) tokens).

Definition adminLogin (env : AuthEnv) (email password : string) : AM LoginResult :=
  s ← get;
  row ← from_option_or (findUser (fun u => bool_decide (us_email u = Some email) &&
          bool_decide (us_role u ∈ [ROLE_ADMIN; ROLE_SUPPORT_AGENT])) (au_users s)) UnauthorizedException;
  let '(id, user) := row in
  hash ← from_option_or (truthy (us_passwordHash user)) UnauthorizedException;
  require (compareSync password hash) UnauthorizedException ;;
  require (negb (us_banned user)) ForbiddenException ;;
  tokens ← issueTokens env id (us_role user) (us_staffRole user);
  mret (LoggedIn id tokens).

Definition revoked (t : RefreshToken) : RefreshToken :=
  {| tk_userId := tk_userId t; tk_tokenHash := tk_tokenHash t; tk_expiresAt := tk_expiresAt t; tk_revoked := true |}.
Definition revokeToken (tokenId : string) : AM unit :=
  s ← get;
  t ← from_option_or (au_tokens s !! tokenId) PrismaP2025;
  modify (set_token tokenId (revoked t)).
(** The ids a refresh token names, when neither is missing. *)
Definition refreshClaims (c : option Claims) : option (string * string) :=
  match c with
  | Some (RefreshClaims sub tokenId) =>
    match truthy (Some sub), truthy (Some tokenId) with Some u, Some t => Some (u, t) | _, _ => None end
  | _ => None
  end.
(** What follows the read of the token's row. *)
Definition rotateToken (env : AuthEnv) (refreshToken userId tokenId : string) (stored : RefreshToken) : AM Tokens :=
  require (negb (tk_revoked stored) && negb (tk_expiresAt stored <? ae_now env)) UnauthorizedException ;;
  require (compareSync refreshToken (tk_tokenHash stored)) UnauthorizedException ;;
  revokeToken tokenId ;;
  s ← get;
  user ← from_option_or (au_users s !! userId) UnauthorizedException;
  require (negb (us_banned user)) UnauthorizedException ;;
  issueTokens env userId (us_role user) (us_staffRole user).
Definition refreshTokens (env : AuthEnv) (refreshToken : string) : AM Tokens :=
  try_catch
    (ids ← from_option_or (refreshClaims (jwt_verify (ae_now env) (ae_refreshSecret env) refreshToken)) UnauthorizedException;
     let '(userId, tokenId) := ids in
     s ← get;
     stored ← from_option_or (au_tokens s !! tokenId) UnauthorizedException;
     rotateToken env refreshToken userId tokenId stored)
    (fun _ => throw UnauthorizedException).
Definition logout (env : AuthEnv) (refreshToken : string) : AM unit :=
  try_catch
    (match jwt_verify (ae_now env) (ae_refreshSecret env) refreshToken with
     | Some (RefreshClaims _ tokenId) =>
       match truthy (Some tokenId) with Some id => revokeToken id | None => mret tt end
     | Some _ => mret tt
     | None => throw OtherError
     end)
    (fun _ => mret tt).
Definition getUserById (userId : string) : AM (option User) := s ← get; mret (au_users s !! userId).

(** ** Google and Apple *)
Definition with_google (googleId : string) (picture : option string) (u : User) : User :=
  {| us_name := us_name u; us_phone := us_phone u; us_email := us_email u; us_googleId := Some googleId;
     us_appleId := us_appleId u; us_role := us_role u; us_staffRole := us_staffRole u;
     us_passwordHash := us_passwordHash u;
     us_profilePhotoUrl := match truthy (us_profilePhotoUrl u) with Some p => Some p | None => truthy picture end;
     us_banned := us_banned u |}.
Definition with_apple (appleId : string) (u : User) : User :=
  {| us_name := us_name u; us_phone := us_phone u; us_email := us_email u; us_googleId := us_googleId u;
     us_appleId := Some appleId; us_role := us_role u; us_staffRole := us_staffRole u;
     us_passwordHash := us_passwordHash u; us_profilePhotoUrl := us_profilePhotoUrl u; us_banned := us_banned u |}.
(** The steps both logins share: a known user, one linked by the address, or
    a new customer. *)
Definition socialLogin (env : AuthEnv) (known : User -> bool) (email : option string) (link : User -> User) (created : User)
    : AM LoginResult :=
  s ← get;
  match findUser known (au_users s) with
  | Some (id, user) =>
    require (negb (us_banned user)) ForbiddenException ;;
    tokens ← issueTokens env id (us_role user) None;
    mret (LoggedIn id tokens)
  | None =>
    match truthy email ≫= (fun e => findUser (fun u => bool_decide (us_email u = Some e)) (au_users s)) with
    | Some (id, existing) =>
      require (negb (us_banned existing)) ForbiddenException ;;
      modify (set_user id (link existing)) ;;
      tokens ← issueTokens env id (us_role existing) None;
      mret (LoggedIn id tokens)
    | None =>
      newUser env created ;;
      tokens ← issueTokens env (ae_userId env) (us_role created) None;
      mret (LoggedIn (ae_userId env) tokens)
    end
  end.
Definition loginWithGoogle (env : AuthEnv) (idToken : string) : AM LoginResult :=
  require (match truthy (Some idToken) with Some _ => true | None => false end) BadRequestException ;;
  payload ← from_option_or (ae_google env idToken) UnauthorizedException;
  socialLogin env (fun u => bool_decide (us_googleId u = Some (gg_sub payload))) (gg_email payload)
    (with_google (gg_sub payload) (gg_picture payload))
    {| us_name := str_or (gg_name payload) "Google User"; us_phone := None; us_email := truthy (gg_email payload);
       us_googleId := Some (gg_sub payload); us_appleId := None; us_role := ROLE_CUSTOMER; us_staffRole := None;
       us_passwordHash := None; us_profilePhotoUrl := truthy (gg_picture payload); us_banned := false |}.
Definition loginWithApple (env : AuthEnv) (identityToken : string) (fullName : option string) : AM LoginResult :=
  require (match truthy (Some identityToken) with Some _ => true | None => false end) BadRequestException ;;
  payload ← from_option_or (ae_apple env identityToken) UnauthorizedException;
  socialLogin env (fun u => bool_decide (us_appleId u = Some (ap_sub payload))) (ap_email payload)
    (with_apple (ap_sub payload))
    {| us_name := str_or fullName "Apple User"; us_phone := None; us_email := truthy (ap_email payload);
       us_googleId := None; us_appleId := Some (ap_sub payload); us_role := ROLE_CUSTOMER; us_staffRole := None;
       us_passwordHash := None; us_profilePhotoUrl := None; us_banned := false |}.
End auth.
