(* ===== verification/Permissions.v ===== *)
(** * Permissions: what the guards read of an access token

    auth/permissions.enum.ts, auth/strategies/jwt.strategy.ts and auth/guards/:
    the permissions of roles and staff roles, and the two guards that compare
    them with what a route requires.  The routes' decorators are
    arguments. *)
From S2P Require Import Prelude Schema Locks HandoverOtp Auth.
Open Scope Z_scope.

Inductive AdminPermission : Type :=
  | SYSTEM_CONFIG_READ | SYSTEM_CONFIG_WRITE | AUDIT_LOG_READ | USER_READ | USER_WRITE | KYC_REVIEW
  | VENDOR_READ | VENDOR_WRITE | VENDOR_REQUIREMENTS_READ | VENDOR_REQUIREMENTS_WRITE | VENDOR_DEPOSIT_READ
  | VENDOR_DEPOSIT_WRITE | VENDOR_VERIFICATION_READ | VENDOR_VERIFICATION_WRITE | FLEET_MANAGEMENT | FLEET_READ
  | FLEET_WRITE | FLEET_VERIFY | LOCATION_READ | LOCATION_WRITE | BOOKING_READ | BOOKING_WRITE
  | EMERGENCY_DISPATCH | FINANCE_READ | FINANCE_WRITE | FINANCE_ADJUSTMENT | PAYOUT_APPROVE | PAYOUT_EXECUTE
  | REFUND_ADJUDICATE | DAMAGE_CLAIM_ADJUDICATE | RECONCILIATION_READ | RECONCILIATION_MANAGE
  | COMMISSION_MANAGE | WALLET_READ | WALLET_WRITE | WALLET_ADJUST | LOYALTY_READ | LOYALTY_WRITE
  | LOYALTY_ADJUST | SUPPORT_TICKET_READ | SUPPORT_TICKET_WRITE | DISPUTE_RESOLVE | COUPON_MANAGE
  | CAMPAIGN_MANAGE | BANNER_MANAGE | REFERRAL_READ | REFERRAL_WRITE | FRAUD_VIEW | FRAUD_RESOLVE
  | ANALYTICS_READ | MARKETPLACE_INTELLIGENCE.
#[export] Instance AdminPermission_eq_dec : EqDecision AdminPermission.
Proof. solve_decision. Defined.
Definition allPermissions : list AdminPermission :=
  [SYSTEM_CONFIG_READ; SYSTEM_CONFIG_WRITE; AUDIT_LOG_READ; USER_READ; USER_WRITE; KYC_REVIEW; VENDOR_READ;
   VENDOR_WRITE; VENDOR_REQUIREMENTS_READ; VENDOR_REQUIREMENTS_WRITE; VENDOR_DEPOSIT_READ;
   VENDOR_DEPOSIT_WRITE; VENDOR_VERIFICATION_READ; VENDOR_VERIFICATION_WRITE; FLEET_MANAGEMENT; FLEET_READ;
   FLEET_WRITE; FLEET_VERIFY; LOCATION_READ; LOCATION_WRITE; BOOKING_READ; BOOKING_WRITE; EMERGENCY_DISPATCH;
   FINANCE_READ; FINANCE_WRITE; FINANCE_ADJUSTMENT; PAYOUT_APPROVE; PAYOUT_EXECUTE; REFUND_ADJUDICATE;
   DAMAGE_CLAIM_ADJUDICATE; RECONCILIATION_READ; RECONCILIATION_MANAGE; COMMISSION_MANAGE; WALLET_READ;
   WALLET_WRITE; WALLET_ADJUST; LOYALTY_READ; LOYALTY_WRITE; LOYALTY_ADJUST; SUPPORT_TICKET_READ;
   SUPPORT_TICKET_WRITE; DISPUTE_RESOLVE; COUPON_MANAGE; CAMPAIGN_MANAGE; BANNER_MANAGE; REFERRAL_READ;
   REFERRAL_WRITE; FRAUD_VIEW; FRAUD_RESOLVE; ANALYTICS_READ; MARKETPLACE_INTELLIGENCE].

Inductive StaffRole : Type :=
  | SUPER_ADMIN | OPERATIONS_MANAGER | CUSTOMER_SUPPORT | FINANCE_MANAGER | MARKETING_MANAGER | COMPLIANCE_OFFICER | READONLY_ANALYST.
#[export] Instance StaffRole_eq_dec : EqDecision StaffRole.
Proof. solve_decision. Defined.
Definition staffRoles : list (string * StaffRole) :=
  [("SUPER_ADMIN", SUPER_ADMIN); ("OPERATIONS_MANAGER", OPERATIONS_MANAGER);
   ("CUSTOMER_SUPPORT", CUSTOMER_SUPPORT); ("FINANCE_MANAGER", FINANCE_MANAGER);
   ("MARKETING_MANAGER", MARKETING_MANAGER); ("COMPLIANCE_OFFICER", COMPLIANCE_OFFICER);
   ("READONLY_ANALYST", READONLY_ANALYST)].
(** A column of the user's row is a key of the matrix. *)
Definition staffRoleOf (name : string) : option StaffRole :=
  option_map snd (List.find (fun p => String.eqb (fst p) name) staffRoles).

Definition rolePermissions (role : Role) : list AdminPermission :=
  match role with
  | ROLE_ADMIN => allPermissions
  | ROLE_SUPPORT_AGENT =>
    [USER_READ; BOOKING_READ; BOOKING_WRITE; SUPPORT_TICKET_READ; SUPPORT_TICKET_WRITE; EMERGENCY_DISPATCH;
     DISPUTE_RESOLVE; VENDOR_READ; VENDOR_REQUIREMENTS_READ; VENDOR_DEPOSIT_READ; VENDOR_VERIFICATION_READ;
     FLEET_READ]
  | ROLE_VENDOR | ROLE_CUSTOMER => []
  end.
Definition staffPermissions (role : StaffRole) : list AdminPermission :=
  match role with
  | SUPER_ADMIN => allPermissions
  | OPERATIONS_MANAGER =>
    [VENDOR_READ; VENDOR_WRITE; VENDOR_REQUIREMENTS_READ; VENDOR_REQUIREMENTS_WRITE; VENDOR_DEPOSIT_READ;
     VENDOR_VERIFICATION_READ; VENDOR_VERIFICATION_WRITE; FLEET_MANAGEMENT; FLEET_READ; FLEET_WRITE;
     FLEET_VERIFY; LOCATION_READ; LOCATION_WRITE; BOOKING_READ; BOOKING_WRITE; EMERGENCY_DISPATCH;
     ANALYTICS_READ]
  | CUSTOMER_SUPPORT =>
    [USER_READ; BOOKING_READ; BOOKING_WRITE; SUPPORT_TICKET_READ; SUPPORT_TICKET_WRITE; EMERGENCY_DISPATCH;
     DISPUTE_RESOLVE; VENDOR_READ; FLEET_READ]
  | FINANCE_MANAGER =>
    [FINANCE_READ; FINANCE_WRITE; FINANCE_ADJUSTMENT; PAYOUT_APPROVE; PAYOUT_EXECUTE; REFUND_ADJUDICATE;
     DAMAGE_CLAIM_ADJUDICATE; RECONCILIATION_READ; RECONCILIATION_MANAGE; COMMISSION_MANAGE; WALLET_READ;
     WALLET_WRITE; WALLET_ADJUST; VENDOR_DEPOSIT_READ; VENDOR_DEPOSIT_WRITE; BOOKING_READ; ANALYTICS_READ]
  | MARKETING_MANAGER =>
    [COUPON_MANAGE; CAMPAIGN_MANAGE; BANNER_MANAGE; REFERRAL_READ; REFERRAL_WRITE; LOYALTY_READ; LOYALTY_WRITE;
     LOYALTY_ADJUST; ANALYTICS_READ]
  | COMPLIANCE_OFFICER =>
    [KYC_REVIEW; VENDOR_REQUIREMENTS_READ; VENDOR_REQUIREMENTS_WRITE; VENDOR_VERIFICATION_READ;
     VENDOR_VERIFICATION_WRITE; VENDOR_DEPOSIT_READ; DISPUTE_RESOLVE; AUDIT_LOG_READ; FRAUD_VIEW; USER_READ;
     VENDOR_READ]
  | READONLY_ANALYST =>
    [ANALYTICS_READ; MARKETPLACE_INTELLIGENCE; AUDIT_LOG_READ; BOOKING_READ; VENDOR_READ; FLEET_READ;
     USER_READ; FINANCE_READ; RECONCILIATION_READ; REFERRAL_READ; LOYALTY_READ]
  end.
(** The staff role, when there is one, replaces the role. *)
Definition getPermissionsForUser (role : Role) (staffRole : option string) : list AdminPermission :=
  match truthy staffRole ≫= staffRoleOf with
  | Some st => staffPermissions st
  | None => rolePermissions role
  end.

(** ** The guards *)

(** [JwtStrategy.validate]: what a request carries of its access token. *)
Record Principal : Type := {
  pr_userId : string;
  pr_role : Role;
  pr_staffRole : option string;
}.
Definition validate (c : Claims) : option Principal :=
  match c with
  | AccessClaims userId role staffRole => Some {| pr_userId := userId; pr_role := role; pr_staffRole := staffRole |}
  | RefreshClaims _ _ => None
  end.
Definition authenticate {jwt : Jwt} (now : Z) (accessSecret token : string) : option Principal :=
  jwt_verify now accessSecret token ≫= validate.

Definition rolesGuard (requiredRoles : list Role) (user : option Principal) : result bool :=
  match requiredRoles with
  | [] => Ok true
  | _ => match user with
         | Some u => if bool_decide (pr_role u ∈ requiredRoles) then Ok true else Throw ForbiddenException
         | None => Throw ForbiddenException
         end
  end.
Definition mutates (method : string) : bool := bool_decide (method ∈ ["POST"; "PUT"; "PATCH"; "DELETE"]).
Definition permissionsGuard (requiredPermissions : list AdminPermission) (method : string) (user : option Principal) : result bool :=
  if match user with Some u => bool_decide (pr_staffRole u = Some "READONLY_ANALYST") && mutates method | None => false end
  then Throw ForbiddenException
  else
    match requiredPermissions with
    | [] => Ok true
    | _ => match user with
           | Some u =>
             if forallb (fun p => bool_decide (p ∈ getPermissionsForUser (pr_role u) (pr_staffRole u))) requiredPermissions
             then Ok true else Throw ForbiddenException
           | None => Throw ForbiddenException
           end
    end.

(** ** Laws *)

Lemma all_granted (granted l : list AdminPermission) :
  forallb (fun p => bool_decide (p ∈ granted)) l = true <-> forall p, p ∈ l -> p ∈ granted.
Proof.
  rewrite forallb_forall. split; intros H p Hp.
  - by eapply bool_decide_eq_true_1, H, list_elem_of_In.
  - by apply bool_decide_eq_true_2, H, list_elem_of_In.
Qed.
(** A route that requires permissions is passed exactly with all of them, and
    never by an analyst who writes. *)
Lemma permissionsGuard_exact required method u : required <> [] ->
  permissionsGuard required method (Some u) = Ok true <->
  (forall p, p ∈ required -> p ∈ getPermissionsForUser (pr_role u) (pr_staffRole u)) /\
  ~ (pr_staffRole u = Some "READONLY_ANALYST" /\ mutates method = true).
Proof.
  intros Hne. rewrite <- all_granted. unfold permissionsGuard.
  destruct (bool_decide_reflect (pr_staffRole u = Some "READONLY_ANALYST")) as [Ha|Ha]; destruct (mutates method);
    destruct required as [|p l]; simpl; try done; try (split; [done|naive_solver]);
    (match goal with |- context [if ?b then Ok true else _] => destruct b end); naive_solver.
Qed.
(** Customers and vendors hold no permission unless a staff role gives it. *)
Lemma no_staff_no_permission role : role ∈ [ROLE_CUSTOMER; ROLE_VENDOR] -> getPermissionsForUser role None = [].
Proof. destruct role; set_solver. Qed.
Lemma allPermissions_all p : p ∈ allPermissions.
Proof. destruct p; by apply (bool_decide_eq_true_1 (_ ∈ _)); vm_compute. Qed.
