(* ===== verification/AuthSafety.v ===== *)
(** * What holds of authentication

    A refresh token is used once, a one-time password accepted once and not
    guessed more than five times, and no banned user gets a session. *)
From stdpp Require Import pretty.
From S2P Require Import Prelude Schema Locks HandoverOtp Auth Permissions.
Open Scope Z_scope.

Section safety.
Context {R : Type} {cache : RedisCache R} {bcrypt : Bcrypt} {jwt : Jwt}.
Implicit Types s : AuthStore R.

(** ** Runs of the parts *)
Definition sessions s := (au_tokens s, au_users s).
Lemma updateOtps_sessions p f : keeps sessions (updateOtps (R:=R) p f).
Proof. intros x. by apply preserves_modify. Qed.
Lemma judgeOtp_sessions env phone otp o : keeps sessions (judgeOtp (R:=R) env phone otp o).
Proof.
  intros x. unfold judgeOtp. do 2 (apply preserves_bind; [auto with preserves|intros _]).
  destruct (otpMatches _ _ _); (apply preserves_bind; [apply updateOtps_sessions|intros _]); [apply updateOtps_sessions|auto with preserves].
Qed.
Lemma verifyPhoneOtp_sessions env phone otp : keeps sessions (verifyPhoneOtp (R:=R) env phone otp).
Proof.
  intros x. unfold verifyPhoneOtp. apply preserves_bind; [auto with preserves|intros t].
  apply preserves_bind; [auto with preserves|intros o]. apply judgeOtp_sessions.
Qed.
Lemma sendOtp_sessions env phone : keeps sessions (sendOtp (R:=R) env phone).
Proof.
  intros x. unfold sendOtp. apply preserves_bind; [auto with preserves|intros t].
  apply preserves_bind; [auto with preserves|intros _]. apply preserves_bind; [apply updateOtps_sessions|intros _].
  apply preserves_bind; [auto with preserves|intros u]. apply preserves_bind; [auto with preserves|intros _].
  apply preserves_bind; [by apply preserves_modify|intros _]. apply preserves_bind.
  - destruct (ae_smsSent env); [auto with preserves|]. apply preserves_bind; [apply updateOtps_sessions|auto with preserves].
  - intros _. apply preserves_when. by apply preserves_modify.
Qed.

(** A session of [userId] is sessionOpened, or nothing is. *)
Definition sessionOpened (env : AuthEnv) (userId : string) s s' : Prop :=
  exists t, au_tokens s !! ae_tokenId env = None /\ is_Some (au_users s !! userId) /\ tk_userId t = userId /\
    tk_revoked t = false /\ tk_expiresAt t = ae_now env + THIRTY_DAYS_MS /\
    au_tokens s' = <[ae_tokenId env := t]> (au_tokens s) /\ au_users s' = au_users s /\ au_otps s' = au_otps s.
Lemma issueTokens_cases env userId role staff s r s' : issueTokens env userId role staff s = (r, s') ->
  (exists e, r = Throw e /\ s' = s) \/ ((exists p, r = Ok p) /\ sessionOpened env userId s s').
Proof.
  unfold issueTokens. rewrite get_bind, require_bind. destruct (au_tokens s !! ae_tokenId env) eqn:Et;
    [intros [= <- <-]; eauto|]. rewrite require_bind. destruct (au_users s !! userId) eqn:Eu; [|intros [= <- <-]; eauto].
  cbv zeta. rewrite !bind_run. intros [= <- <-]. right. split; [by eexists|].
  eexists. split_and!; [done|by eexists|..]; cycle 3; [cbn; by rewrite insert_insert_eq|done..].
Qed.

Lemma issueTokens_access env userId role staff s p s' : issueTokens (R:=R) env userId role staff s = (Ok p, s') ->
  tp_accessToken p = jwt_sign (ae_now env) (ae_accessSecret env) (ae_accessTtl env) (AccessClaims userId role (truthy staff)).
Proof.
  unfold issueTokens. rewrite get_bind, require_bind. destruct (au_tokens s !! ae_tokenId env); [done|].
  rewrite require_bind. destruct (au_users s !! userId); [|done]. cbv zeta. rewrite !bind_run. by intros [= <- _].
Qed.

(** Every token row that is new belongs to a user who is not banned. *)
Definition clean s s' : Prop :=
  forall tid t, au_tokens s' !! tid = Some t -> au_tokens s !! tid = None ->
    exists u, au_users s' !! tk_userId t = Some u /\ us_banned u = false.
(** A revoked token stays revoked. *)
Definition spent (tid : string) s : Prop := exists t, au_tokens s !! tid = Some t /\ tk_revoked t = true.

Lemma clean_same s s' : au_tokens s' = au_tokens s -> clean s s'.
Proof. intros E tid t H1 H2. congruence. Qed.
Lemma clean_opened env userId u s s1 s' : au_tokens s1 = au_tokens s -> sessionOpened env userId s1 s' ->
  au_users s1 !! userId = Some u -> us_banned u = false -> clean s s'.
Proof.
  intros E (t & Hf & _ & <- & _ & _ & Ht & Hu & _) Eu Hb tid t' H1 H2. rewrite Ht in H1.
  destruct (decide (tid = ae_tokenId env)) as [->|Hne].
  - rewrite lookup_insert_eq in H1. injection H1 as <-. exists u. by rewrite Hu.
  - rewrite lookup_insert_ne in H1 by done. congruence.
Qed.
Lemma spent_opened env userId tid s s' : sessionOpened env userId s s' -> spent tid s -> spent tid s'.
Proof.
  intros (t & Hf & _ & _ & _ & _ & Ht & _) (t' & H1 & H2). exists t'. rewrite Ht, lookup_insert_ne; [done|congruence].
Qed.
Lemma spent_issue env userId role staff tid : preserves (spent tid) (issueTokens (R:=R) env userId role staff).
Proof.
  intros s r s' H Hs. apply issueTokens_cases in H as [(e & _ & ->)|[_ H]]; [done|by eapply spent_opened].
Qed.
Lemma sessions_spent {A} tid (m : M (AuthStore R) A) : keeps sessions m -> preserves (spent tid) m.
Proof. intros Hm s r s' H Hs. pose proof (keeps_eq _ _ _ _ _ Hm H) as [= E _]. unfold spent. by rewrite E. Qed.
Lemma newUser_tokens env u : keeps (fun s => au_tokens s) (newUser (R:=R) env u).
Proof.
  intros x. unfold newUser. apply preserves_bind; [auto with preserves|intros t].
  apply preserves_bind; [auto with preserves|intros _]. by apply preserves_modify.
Qed.
Lemma tokens_spent {A} tid (m : M (AuthStore R) A) : keeps (fun s => au_tokens s) m -> preserves (spent tid) m.
Proof. intros Hm s r s' H Hs. pose proof (keeps_eq _ _ _ _ _ Hm H) as E. unfold spent. simpl in E. by rewrite E. Qed.
Lemma revoke_spent tid id : preserves (spent tid) (revokeToken (R:=R) id).
Proof.
  intros s r s' H (t & H1 & H2). unfold revokeToken in H. rewrite get_bind in H.
  destruct (au_tokens s !! id) as [t'|] eqn:E; [|injection H as _ <-; by exists t].
  cbn [from_option_or] in H. rewrite ret_bind in H. injection H as _ <-. unfold spent. simpl.
  destruct (decide (tid = id)) as [->|Hne]; [rewrite lookup_insert_eq; by exists (revoked t')|].
  rewrite lookup_insert_ne by done. by exists t.
Qed.

(** ** The handlers *)
Lemma findUser_Some p users id u : findUser p users = Some (id, u) -> users !! id = Some u /\ p u = true.
Proof. intros [H%list_elem_of_In%elem_of_map_to_list Hp]%find_some. done. Qed.
Lemma login_tail {A} env id role staff (k : Tokens -> A) s s1 r s' u :
  (tokens ← issueTokens env id role staff; mret (k tokens)) s1 = (r, s') -> au_tokens s1 = au_tokens s ->
  au_users s1 !! id = Some u -> us_banned u = false -> clean s s'.
Proof.
  intros H E Eu Hb. rewrite bind_run in H. destruct (issueTokens env id role staff s1) as [[p|e] s2] eqn:Ei;
    injection H as _ <-; apply issueTokens_cases in Ei as [(x & Hx & ->)|[_ Ho]]; try done;
    [exact (clean_opened _ _ _ _ _ _ E Ho Eu Hb)|by apply clean_same|exact (clean_opened _ _ _ _ _ _ E Ho Eu Hb)].
Qed.
Lemma newUser_user env u s r s' : newUser (R:=R) env u s = (r, s') ->
  au_tokens s' = au_tokens s /\ (r = Ok tt -> au_users s' !! ae_userId env = Some u).
Proof.
  unfold newUser. rewrite get_bind, require_bind. destruct (au_users s !! ae_userId env); intros [= <- <-]; [done|].
  split; [done|]. intros _. cbn. by rewrite lookup_insert_eq.
Qed.

Lemma login_clean env phone otp s r s' : verifyOtpAndLogin env phone otp s = (r, s') -> clean s s'.
Proof.
  unfold verifyOtpAndLogin. intros H. rewrite bind_run in H. destruct (verifyPhoneOtp env phone otp s) as [[[]|e] s1] eqn:Ev;
    pose proof (keeps_eq _ _ _ _ _ (verifyPhoneOtp_sessions _ _ _) Ev) as [= Et Eu]; [|injection H as _ <-; by apply clean_same].
  rewrite get_bind in H. destruct (userByPhone phone (au_users s1)) as [[id u]|] eqn:Ef;
    [|injection H as _ <-; by apply clean_same]. apply findUser_Some in Ef as [Hu _].
  rewrite require_bind in H. destruct (us_banned u) eqn:Eb; [injection H as _ <-; by apply clean_same|].
  exact (login_tail _ _ _ _ _ _ _ _ _ _ H Et Hu Eb).
Qed.
Lemma register_clean env phone name email s r s' : register env phone name email s = (r, s') -> clean s s'.
Proof.
  unfold register. intros H. rewrite get_bind, require_bind in H.
  destruct (recentlyVerified _ _ _); [|injection H as _ <-; by apply clean_same]. rewrite require_bind in H.
  destruct (userByPhone _ _); [injection H as _ <-; by apply clean_same|]. rewrite bind_run in H.
  destruct (newUser env _ s) as [[[]|e] s1] eqn:En; apply newUser_user in En as [Et Hu];
    [|injection H as _ <-; by apply clean_same]. by eapply login_tail; [exact H|exact Et|by apply Hu|].
Qed.
Lemma registerVendor_clean env dto s r s' : registerVendor env dto s = (r, s') -> clean s s'.
Proof.
  unfold registerVendor. intros H. rewrite get_bind, require_bind in H.
  destruct (recentlyVerified _ _ _); [|injection H as _ <-; by apply clean_same]. rewrite require_bind in H.
  destruct (userByPhone _ _); [injection H as _ <-; by apply clean_same|]. rewrite bind_run in H.
  destruct (transaction _ s) as [[[]|e] s1] eqn:En;
    [|apply transaction_Throw in En as [-> _]; injection H as _ <-; by apply clean_same].
  apply transaction_Ok, bind_Ok in En as ([] & s2 & En & E). apply newUser_user in En as [Et Hu].
  rewrite get_bind, require_bind in E. destruct (au_vendors s2 !! _); [done|]. injection E as <-.
  by eapply login_tail; [exact H|exact Et|by apply Hu|].
Qed.
Lemma adminLogin_clean env email password s r s' : adminLogin env email password s = (r, s') -> clean s s'.
Proof.
  unfold adminLogin. intros H. rewrite get_bind in H.
  destruct (findUser _ (au_users s)) as [[id u]|] eqn:Ef; [|injection H as _ <-; by apply clean_same].
  apply findUser_Some in Ef as [Hu _]. cbn [from_option_or] in H. rewrite ret_bind in H.
  destruct (truthy (us_passwordHash u)); [|injection H as _ <-; by apply clean_same].
  cbn [from_option_or] in H. rewrite ret_bind, require_bind in H.
  destruct (compareSync _ _); [|injection H as _ <-; by apply clean_same]. rewrite require_bind in H.
  destruct (us_banned u) eqn:Eb; [injection H as _ <-; by apply clean_same|]. exact (login_tail _ _ _ _ _ _ _ _ _ _ H eq_refl Hu Eb).
Qed.
Lemma socialLogin_clean env known email link created s r s' :
  (forall u, us_banned (link u) = us_banned u) -> us_banned created = false ->
  socialLogin env known email link created s = (r, s') -> clean s s'.
Proof.
  intros Hl Hc H. unfold socialLogin in H. rewrite get_bind in H. destruct (findUser known (au_users s)) as [[id u]|] eqn:Ef.
  - apply findUser_Some in Ef as [Hu _]. rewrite require_bind in H.
    destruct (us_banned u) eqn:Eb; [injection H as _ <-; by apply clean_same|]. exact (login_tail _ _ _ _ _ _ _ _ _ _ H eq_refl Hu Eb).
  - destruct (truthy email ≫= _) as [[id u]|] eqn:Ee.
    + rewrite require_bind in H. destruct (us_banned u) eqn:Eb; [injection H as _ <-; by apply clean_same|].
      rewrite bind_run, modify_run in H. eapply login_tail; [exact H|done|cbn; by rewrite lookup_insert_eq|by rewrite Hl].
    + rewrite bind_run in H. destruct (newUser env created s) as [[[]|e] s1] eqn:En; apply newUser_user in En as [Et Hu];
        [|injection H as _ <-; by apply clean_same]. by eapply login_tail; [exact H|exact Et|by apply Hu|].
Qed.
Lemma revoke_clean id s r s' : revokeToken (R:=R) id s = (r, s') -> clean s s' /\ au_users s' = au_users s.
Proof.
  unfold revokeToken. rewrite get_bind. destruct (au_tokens s !! id) as [t'|] eqn:E; intros H.
  - cbn [from_option_or] in H. rewrite ret_bind in H. injection H as _ <-. split; [|done].
    intros tid t H1 H2. cbn in H1. rewrite lookup_insert_ne in H1 by congruence. congruence.
  - injection H as _ <-. split; [by apply clean_same|done].
Qed.

(** Reading the claims and the row of a refresh token. *)
Lemma refresh_cases env tok s r s' : refreshTokens env tok s = (r, s') ->
  (r = Throw UnauthorizedException /\ s' = s) \/
  exists u tid st, refreshClaims (jwt_verify (ae_now env) (ae_refreshSecret env) tok) = Some (u, tid) /\
    au_tokens s !! tid = Some st /\ tk_revoked st = false /\ ae_now env <= tk_expiresAt st /\
    compareSync tok (tk_tokenHash st) = true /\
    ((r = Throw UnauthorizedException /\ s' = set_token tid (revoked st) s) \/
     (exists p user, r = Ok p /\ au_users s !! u = Some user /\ us_banned user = false /\ sessionOpened env u (set_token tid (revoked st) s) s')).
Proof.
  unfold refreshTokens, try_catch. destruct (refreshClaims _) as [[u tid]|] eqn:Ec; [|intros [= <- <-]; by left].
  cbn [from_option_or]. rewrite ret_bind, get_bind. destruct (au_tokens s !! tid) as [st|] eqn:Et; [|intros [= <- <-]; by left].
  cbn [from_option_or]. rewrite ret_bind. unfold rotateToken. rewrite require_bind.
  destruct (negb (tk_revoked st) && negb (tk_expiresAt st <? ae_now env)) eqn:Eg; [|intros [= <- <-]; by left].
  apply andb_true_iff in Eg as [Er%negb_true_iff Ex%negb_true_iff%Z.ltb_ge]. rewrite require_bind.
  destruct (compareSync tok (tk_tokenHash st)) eqn:Eh; [|intros [= <- <-]; by left].
  intros H. right. exists u, tid, st. split_and!; try done.
  assert (revokeToken tid s = (Ok tt, set_token tid (revoked st) s)) as Erv
    by (unfold revokeToken; rewrite get_bind, Et; done).
  rewrite bind_run, Erv, get_bind in H. cbn [set_token au_users] in H.
  destruct (au_users s !! u) as [user|] eqn:Eu; [|injection H as <- <-; by left].
  cbn [from_option_or] in H. rewrite ret_bind, require_bind in H.
  destruct (us_banned user) eqn:Eb; [injection H as <- <-; by left|]. cbn [negb] in H.
  destruct (issueTokens _ _ _ _ _) as [[p|e] s1] eqn:Ei; apply issueTokens_cases in Ei as [(x & Hx & ->)|[[p' Hp] Ho]]; try done.
  - injection H as <- <-. right. by exists p, user.
  - injection H as <- <-. by left.
Qed.
Lemma refresh_clean env tok s r s' : refreshTokens env tok s = (r, s') -> clean s s'.
Proof.
  intros [[_ ->]|(u & tid & st & _ & Et & _ & _ & _ & Ho)]%refresh_cases; [by apply clean_same|].
  assert (clean s (set_token tid (revoked st) s)) as Hc.
  { intros i t H1 H2. cbn in H1. rewrite lookup_insert_ne in H1 by congruence. congruence. }
  destruct Ho as [[_ ->]|(p & user & _ & Eu & Eb & Ho)]; [done|].
  intros i t H1 H2. destruct (au_tokens (set_token tid (revoked st) s) !! i) as [t'|] eqn:E.
  - cbn in E. rewrite lookup_insert_ne in E by congruence. congruence.
  - exact (clean_opened env u user _ _ _ eq_refl Ho Eu Eb i t H1 E).
Qed.
Lemma logout_cases env tok s r s' : logout env tok s = (r, s') ->
  r = Ok tt /\ (s' = s \/ exists id st, au_tokens s !! id = Some st /\ s' = set_token id (revoked st) s).
Proof.
  unfold logout, try_catch. destruct (jwt_verify _ _ tok) as [[|sub id]|]; try (intros [= <- <-]; by eauto).
  destruct (truthy (Some id)) as [i|]; [|intros [= <- <-]; by eauto]. unfold revokeToken. rewrite get_bind.
  destruct (au_tokens s !! i) as [st|] eqn:E; intros [= <- <-]; [|by eauto]. split; [done|]. right. by exists i, st.
Qed.
Lemma set_revoked_spent tid id st s : spent tid s -> spent tid (set_token id (revoked st) s).
Proof.
  intros (t & H1 & H2). unfold spent. cbn. destruct (decide (tid = id)) as [->|Hne].
  - rewrite lookup_insert_eq. by exists (revoked st).
  - rewrite lookup_insert_ne by done. by exists t.
Qed.

(** ** The system *)

(** A request, or a change to users by another service. *)
Inductive auth_step s s' : Prop :=
  | step_send env phone r : sendOtp env phone s = (r, s') -> auth_step s s'
  | step_login env phone otp r : verifyOtpAndLogin env phone otp s = (r, s') -> auth_step s s'
  | step_register env phone name email r : register env phone name email s = (r, s') -> auth_step s s'
  | step_vendor env dto r : registerVendor env dto s = (r, s') -> auth_step s s'
  | step_admin env email password r : adminLogin env email password s = (r, s') -> auth_step s s'
  | step_refresh env tok r : refreshTokens env tok s = (r, s') -> auth_step s s'
  | step_logout env tok r : logout env tok s = (r, s') -> auth_step s s'
  | step_google env tok r : loginWithGoogle env tok s = (r, s') -> auth_step s s'
  | step_apple env tok name r : loginWithApple env tok name s = (r, s') -> auth_step s s'
  | step_users : au_tokens s' = au_tokens s -> au_otps s' = au_otps s -> auth_step s s'.

Lemma google_clean env tok s r s' : loginWithGoogle env tok s = (r, s') -> clean s s'.
Proof.
  unfold loginWithGoogle. rewrite require_bind. case_match; [|intros [= _ <-]; by apply clean_same].
  destruct (ae_google env tok); [|intros [= _ <-]; by apply clean_same]. cbn [from_option_or]. rewrite ret_bind.
  by apply socialLogin_clean.
Qed.
Lemma apple_clean env tok name s r s' : loginWithApple env tok name s = (r, s') -> clean s s'.
Proof.
  unfold loginWithApple. rewrite require_bind. case_match; [|intros [= _ <-]; by apply clean_same].
  destruct (ae_apple env tok); [|intros [= _ <-]; by apply clean_same]. cbn [from_option_or]. rewrite ret_bind.
  by apply socialLogin_clean.
Qed.
Lemma step_clean s s' : auth_step s s' -> clean s s'.
Proof.
  destruct 1 as [env phone r H|env phone otp r H|env phone name email r H|env dto r H|env email password r H|env tok r H|env tok r H|env tok r H|
    env tok name r H|H _].
  - apply clean_same. by pose proof (keeps_eq _ _ _ _ _ (sendOtp_sessions _ _) H) as [= E _].
  - by eapply login_clean.
  - by eapply register_clean.
  - by eapply registerVendor_clean.
  - by eapply adminLogin_clean.
  - by eapply refresh_clean.
  - apply logout_cases in H as [_ [->|(id & st & E & ->)]]; [by apply clean_same|].
    intros i t H1 H2. cbn in H1. rewrite lookup_insert_ne in H1 by congruence. congruence.
  - by eapply google_clean.
  - by eapply apple_clean.
  - by apply clean_same.
Qed.

Lemma tail_spent {A} tid env id role staff (k : Tokens -> A) :
  preserves (spent tid) (tokens ← issueTokens (R:=R) env id role staff; mret (k tokens)).
Proof. apply preserves_bind; [apply spent_issue|auto with preserves]. Qed.
Lemma social_spent tid env known email link created : preserves (spent tid) (socialLogin (R:=R) env known email link created).
Proof.
  unfold socialLogin. apply preserves_bind; [auto with preserves|intros t]. destruct (findUser known _) as [[id u]|].
  - apply preserves_bind; [auto with preserves|intros _]. apply tail_spent.
  - destruct (truthy email ≫= _) as [[id u]|].
    + apply preserves_bind; [auto with preserves|intros _]. apply preserves_bind; [by apply preserves_modify|intros _]. apply tail_spent.
    + apply preserves_bind; [apply tokens_spent, newUser_tokens|intros _]. apply tail_spent.
Qed.
Lemma login_spent tid env phone otp : preserves (spent tid) (verifyOtpAndLogin (R:=R) env phone otp).
Proof.
  unfold verifyOtpAndLogin. apply preserves_bind; [apply sessions_spent, verifyPhoneOtp_sessions|intros _].
  apply preserves_bind; [auto with preserves|intros t]. destruct (userByPhone _ _) as [[id u]|]; [|auto with preserves].
  apply preserves_bind; [auto with preserves|intros _]. apply tail_spent.
Qed.
Lemma register_spent tid env phone name email : preserves (spent tid) (register (R:=R) env phone name email).
Proof.
  unfold register. apply preserves_bind; [auto with preserves|intros t]. do 2 (apply preserves_bind; [auto with preserves|intros _]).
  apply preserves_bind; [apply tokens_spent, newUser_tokens|intros _]. apply tail_spent.
Qed.
Lemma registerVendor_spent tid env dto : preserves (spent tid) (registerVendor (R:=R) env dto).
Proof.
  unfold registerVendor. apply preserves_bind; [auto with preserves|intros t]. do 2 (apply preserves_bind; [auto with preserves|intros _]).
  apply preserves_bind; [|intros _; apply tail_spent]. apply preserves_transaction.
  apply preserves_bind; [apply tokens_spent, newUser_tokens|intros _]. apply preserves_bind; [auto with preserves|intros u].
  apply preserves_bind; [auto with preserves|intros _]. by apply preserves_modify.
Qed.
Lemma adminLogin_spent tid env email password : preserves (spent tid) (adminLogin (R:=R) env email password).
Proof.
  unfold adminLogin. apply preserves_bind; [auto with preserves|intros t]. apply preserves_bind; [auto with preserves|intros [id u]].
  apply preserves_bind; [auto with preserves|intros h]. do 2 (apply preserves_bind; [auto with preserves|intros _]). apply tail_spent.
Qed.
Lemma refresh_spent tid env tok : preserves (spent tid) (refreshTokens (R:=R) env tok).
Proof.
  intros s r s' [[_ ->]|(u & id & st & _ & _ & _ & _ & _ & [[_ ->]|(p & user & _ & _ & _ & Ho)])]%refresh_cases Hs;
    [done|by apply set_revoked_spent|]. eapply spent_opened; [exact Ho|by apply set_revoked_spent].
Qed.
Lemma logout_spent tid env tok : preserves (spent tid) (logout (R:=R) env tok).
Proof. intros s r s' [_ [->|(id & st & _ & ->)]]%logout_cases Hs; [done|by apply set_revoked_spent]. Qed.
Lemma google_spent tid env tok : preserves (spent tid) (loginWithGoogle (R:=R) env tok).
Proof.
  unfold loginWithGoogle. apply preserves_bind; [auto with preserves|intros _].
  apply preserves_bind; [auto with preserves|intros p]. apply social_spent.
Qed.
Lemma apple_spent tid env tok name : preserves (spent tid) (loginWithApple (R:=R) env tok name).
Proof.
  unfold loginWithApple. apply preserves_bind; [auto with preserves|intros _].
  apply preserves_bind; [auto with preserves|intros p]. apply social_spent.
Qed.
Lemma step_spent tid s s' : auth_step s s' -> spent tid s -> spent tid s'.
Proof.
  destruct 1 as [env phone r H|env phone otp r H|env phone name email r H|env dto r H|env email password r H|env tok r H|env tok r H|env tok r H|
    env tok name r H|H _].
  - exact (sessions_spent tid _ (sendOtp_sessions env phone) _ _ _ H).
  - exact (login_spent tid _ _ _ _ _ _ H).
  - exact (register_spent tid _ _ _ _ _ _ _ H).
  - exact (registerVendor_spent tid _ _ _ _ _ H).
  - exact (adminLogin_spent tid _ _ _ _ _ _ H).
  - exact (refresh_spent tid _ _ _ _ _ H).
  - exact (logout_spent tid _ _ _ _ _ H).
  - exact (google_spent tid _ _ _ _ _ H).
  - exact (apple_spent tid _ _ _ _ _ _ H).
  - unfold spent. by rewrite H.
Qed.
(** A spent token opens nothing. *)
Lemma spent_refused env tok u tid s : refreshClaims (jwt_verify (ae_now env) (ae_refreshSecret env) tok) = Some (u, tid) ->
  spent tid s -> refreshTokens env tok s = (Throw UnauthorizedException, s).
Proof.
  intros Hc (t & Ht & Hr). destruct (refreshTokens env tok s) as [r s'] eqn:E.
  apply refresh_cases in E as [[-> ->]|(u' & tid' & st & Hc' & Et & Er & _)]; [done|]. rewrite Hc in Hc'. injection Hc' as -> ->. congruence.
Qed.

(** ** Codes *)
Lemma latest_map phone f l : (forall o, unverifiedOf phone (f o) = unverifiedOf phone o) ->
  latestOtp phone (map f l) = f <$> latestOtp phone l.
Proof.
  intros Hf. unfold latestOtp. rewrite <- fmap_reverse. generalize (reverse l). intros k.
  induction k as [|o k IH]; [done|]. cbn. rewrite Hf. destruct (unverifiedOf phone o); [done|]. exact IH.
Qed.
Lemma latest_Some phone l o : latestOtp phone l = Some o -> o ∈ l /\ unverifiedOf phone o = true.
Proof. intros [H%list_elem_of_In Hp]%find_some. split; [by apply elem_of_reverse|done]. Qed.

(** No unverified request of the phone lives at [now] or later. *)
Definition none_alive (now : Z) (phone : string) s : Prop :=
  forall o, o ∈ au_otps s -> unverifiedOf phone o = true -> oq_expiresAt o < now.
Lemma dead_refused env phone otp now s : none_alive now phone s -> now <= ae_now env ->
  verifyPhoneOtp env phone otp s = (Throw BadRequestException, s).
Proof.
  intros Hd Hle. unfold verifyPhoneOtp. rewrite get_bind. destruct (latestOtp phone (au_otps s)) as [o|] eqn:E; [|done].
  apply latest_Some in E as [Hin Hu]. specialize (Hd o Hin Hu). cbn [from_option_or]. rewrite ret_bind. unfold judgeOtp.
  rewrite require_bind. assert ((ae_now env <=? oq_expiresAt o) = false) as -> by (apply Z.leb_gt; lia). done.
Qed.
Lemma verifyPhoneOtp_Ok env phone otp s u s' : verifyPhoneOtp env phone otp s = (Ok u, s') ->
  exists o, latestOtp phone (au_otps s) = Some o /\ ae_now env <= oq_expiresAt o /\ oq_attemptCount o < MAX_ATTEMPTS /\
    otpMatches env otp o = true /\ none_alive (ae_now env) phone s'.
Proof.
  unfold verifyPhoneOtp. rewrite get_bind. destruct (latestOtp phone (au_otps s)) as [o|] eqn:E; [|done].
  cbn [from_option_or]. rewrite ret_bind. unfold judgeOtp. rewrite require_bind.
  destruct (Z.leb_spec (ae_now env) (oq_expiresAt o)); [|done]. rewrite require_bind.
  destruct (Z.ltb_spec (oq_attemptCount o) MAX_ATTEMPTS); [|done]. destruct (otpMatches env otp o) eqn:Em; [|done].
  unfold expireUnverified, updateOtps. rewrite bind_run, !modify_run. intros [= _ <-]. exists o. split_and!; try done.
  intros x Hx Hu. cbn in Hx. apply list_elem_of_In, in_map_iff in Hx as (y & <- & _).
  destruct (unverifiedOf phone y) eqn:Ey; [cbn; lia|congruence].
Qed.

Definition guess phone (g : AuthEnv * string) s : AuthStore R := snd (verifyPhoneOtp (fst g) phone (snd g) s).
Definition guesses phone (l : list (AuthEnv * string)) s : AuthStore R := fold_left (fun t g => guess phone g t) l s.
Lemma wrong_guess env phone otp s o : latestOtp phone (au_otps s) = Some o -> otpMatches env otp o = false ->
  exists o', latestOtp phone (au_otps (guess phone (env, otp) s)) = Some o' /\ oq_otpHash o' = oq_otpHash o /\
    oq_attemptCount o <= oq_attemptCount o' /\
    (MAX_ATTEMPTS <= oq_attemptCount o' \/ oq_expiresAt o' = oq_expiresAt o) /\
    (ae_now env <= oq_expiresAt o -> oq_attemptCount o < MAX_ATTEMPTS -> oq_attemptCount o' = oq_attemptCount o + 1).
Proof.
  intros E Em. unfold guess. cbn [fst snd]. unfold verifyPhoneOtp. rewrite get_bind, E. cbn [from_option_or]. rewrite ret_bind.
  unfold judgeOtp. rewrite require_bind. destruct (Z.leb_spec (ae_now env) (oq_expiresAt o)); [|exists o; split_and!; try done; try lia; by right].
  rewrite require_bind. destruct (Z.ltb_spec (oq_attemptCount o) MAX_ATTEMPTS); [|exists o; split_and!; try done; try lia; by right].
  rewrite Em. unfold updateOtps. rewrite bind_run, modify_run. cbn [snd throw set_otpRequests au_otps]. rewrite latest_map, E; [|by intros x; destruct (String.eqb _ _)].
  cbn [fmap option_fmap option_map]. rewrite String.eqb_refl. eexists. split_and!; [done|done|cbn; lia| |done]. cbn.
  destruct (Z.leb_spec MAX_ATTEMPTS (oq_attemptCount o + 1)); [by left|by right].
Qed.

Lemma exhausted_refused env phone otp o s : latestOtp phone (au_otps s) = Some o -> MAX_ATTEMPTS <= oq_attemptCount o ->
  verifyPhoneOtp env phone otp s = (Throw BadRequestException, s).
Proof.
  intros E Hge. unfold verifyPhoneOtp. rewrite get_bind, E. cbn [from_option_or]. rewrite ret_bind. unfold judgeOtp.
  rewrite require_bind. destruct (_ <=? _); [|done]. rewrite require_bind.
  assert ((oq_attemptCount o <? MAX_ATTEMPTS) = false) as -> by (apply Z.ltb_ge; lia). done.
Qed.
(** Five wrong codes for a request, and no code is accepted for it. *)
Lemma phone_otp_locks_after_five phone l s o env otp :
  latestOtp phone (au_otps s) = Some o -> 0 <= oq_attemptCount o ->
  Forall (fun g => otpMatches (fst g) (snd g) o = false /\ ae_now (fst g) <= oq_expiresAt o) l -> (5 <= length l)%nat ->
  verifyPhoneOtp env phone otp (guesses phone l s) = (Throw BadRequestException, guesses phone l s).
Proof.
  intros E H0 Hl Hn. assert (MAX_ATTEMPTS <= oq_attemptCount o + Z.of_nat (length l)) as Hc by (unfold MAX_ATTEMPTS; lia).
  clear Hn. revert s o E H0 Hl Hc. induction l as [|[e c] l IH]; intros s o E H0 Hl Hc.
  - apply (exhausted_refused _ _ _ o); [done|]. cbn in Hc. lia.
  - apply Forall_cons in Hl as [[Hm Ht] Hl]. cbn [fst snd] in *. cbn [guesses fold_left].
    destruct (wrong_guess e phone c s o E Hm) as (o' & E' & Eh & Hge & Hex & Hinc).
    destruct (Z.lt_ge_cases (oq_attemptCount o') MAX_ATTEMPTS) as [Hlt|Hge'].
    + destruct Hex as [Hex|Hex]; [lia|]. apply (IH _ o' E'); [lia| |].
      * eapply Forall_impl; [exact Hl|]. intros [e1 c1] [H1 H2]. unfold otpMatches in *. cbn in *. by rewrite Eh, Hex.
      * rewrite Hinc by lia. cbn in Hc. lia.
    + clear IH Hc. revert E' Hge'. generalize (guess phone (e, c) s). clear - Hl Eh. intros s E Hge.
      assert (forall k t, latestOtp phone (au_otps t) = Some o' -> guesses phone k t = t) as Hk.
      { induction k as [|g k IHk]; intros t Et; [done|]. cbn [guesses fold_left]. unfold guess at 2.
        rewrite (exhausted_refused _ _ _ _ _ Et Hge). by apply IHk. }
      fold (guesses phone l s). rewrite (Hk l s E). by apply (exhausted_refused _ _ _ o').
Qed.
End safety.

(** ** Properties *)
Section properties.
Context {R : Type} {cache : RedisCache R} {bcrypt : Bcrypt} {jwt : Jwt}.
Implicit Types s : AuthStore R.

(** C22. A refresh token is used once.  When a refresh token was exchanged, or
    its holder logged out, it is refused from then on: after whatever codes,
    logins, registrations, refreshes, logouts and changes of users, one after
    the other, another exchange with it throws and changes nothing, as long as
    the tokens are verified with the same secret.  (Two exchanges that read the
    row together both succeed: [stale_rotation_opens_two].) *)
Theorem refresh_token_single_use env env' tok s s1 s2 u tid
    (Hc : refreshClaims (jwt_verify (ae_now env) (ae_refreshSecret env) tok) = Some (u, tid))
    (Hrow : is_Some (au_tokens s !! tid)) (Hsec : ae_refreshSecret env' = ae_refreshSecret env)
    (H : (exists p, refreshTokens env tok s = (Ok p, s1)) \/ logout env tok s = (Ok tt, s1))
    (Hrun : rtc auth_step s1 s2) :
  refreshTokens env' tok s2 = (Throw UnauthorizedException, s2).
Proof.
  assert (spent tid s2) as Hsp.
  { apply (rtc_invariant _ _ _ _ (step_spent tid) Hrun). destruct H as [[p H]|H].
    - apply refresh_cases in H as [[H _]|(u' & tid' & st & Hc' & Et & _ & _ & _ & [[H _]|(q & user & _ & _ & _ & Ho)])]; try done.
      rewrite Hc in Hc'. injection Hc' as <- <-. eapply spent_opened; [exact Ho|].
      exists (revoked st). cbn. by rewrite lookup_insert_eq.
    - destruct Hrow as [st Et]. unfold logout, try_catch in H.
      destruct (jwt_verify _ _ tok) as [[|sub id]|]; try done. unfold refreshClaims in Hc.
      destruct (truthy (Some sub)); [|done]. destruct (truthy (Some id)) as [i|]; [|done]. injection Hc as -> ->.
      unfold revokeToken in H. rewrite get_bind, Et in H. injection H as <-. exists (revoked st). cbn. by rewrite lookup_insert_eq. }
  destruct (refreshClaims (jwt_verify (ae_now env') (ae_refreshSecret env') tok)) as [[u' tid']|] eqn:Hc'.
  - apply (spent_refused env' tok u' tid' s2 Hc'). rewrite Hsec in Hc'.
    destruct (jwt_verify (ae_now env) _ tok) as [c|] eqn:E1; [|done].
    destruct (jwt_verify (ae_now env') _ tok) as [c'|] eqn:E2; [|done].
    rewrite (jwt_verify_stable _ _ _ _ _ _ E1 E2) in Hc. rewrite Hc in Hc'. by injection Hc' as <- <-.
  - unfold refreshTokens, try_catch. by rewrite Hc'.
Qed.

(** A phone login takes the code that was sent, once.  A login that
    succeeds was made with a code that matches the latest request of the
    phone (or the bypass of development), before it expired and after fewer
    than five failures, for a user who is not banned; afterwards no code is
    accepted for the phone until another is sent. *)
Theorem phone_login_guarded env phone otp s res s' (H : verifyOtpAndLogin env phone otp s = (Ok res, s')) :
  (exists o, latestOtp phone (au_otps s) = Some o /\ ae_now env <= oq_expiresAt o /\ oq_attemptCount o < MAX_ATTEMPTS /\
     otpMatches env otp o = true) /\
  (forall env' otp', ae_now env <= ae_now env' -> verifyPhoneOtp env' phone otp' s' = (Throw BadRequestException, s')) /\
  (forall id p, res = LoggedIn id p -> exists u, au_users s' !! id = Some u /\ us_phone u = Some phone /\ us_banned u = false /\
     tp_accessToken p = jwt_sign (ae_now env) (ae_accessSecret env) (ae_accessTtl env) (AccessClaims id (us_role u) None)).
Proof.
  unfold verifyOtpAndLogin in H. apply bind_Ok in H as ([] & s1 & Ev & H).
  apply verifyPhoneOtp_Ok in Ev as (o & E1 & E2 & E3 & E4 & Hd). split; [by exists o|]. rewrite get_bind in H.
  assert (none_alive (ae_now env) phone s' /\ forall id p, res = LoggedIn id p -> exists u, au_users s' !! id = Some u /\
    us_phone u = Some phone /\ us_banned u = false /\
    tp_accessToken p = jwt_sign (ae_now env) (ae_accessSecret env) (ae_accessTtl env) (AccessClaims id (us_role u) None)) as [Hd' Hu].
  { destruct (userByPhone phone (au_users s1)) as [[id u]|] eqn:Ef; [|by injection H as <- <-].
    apply findUser_Some in Ef as [Hu Hp%bool_decide_eq_true]. rewrite require_bind in H.
    destruct (us_banned u) eqn:Eb; [done|]. apply bind_Ok in H as (p & s2 & Ei & H). injection H as <- <-.
    pose proof Ei as Ei'. apply issueTokens_cases in Ei as [(e & ? & _)|[_ (t & _ & _ & _ & _ & _ & _ & Eu & Eo)]]; [done|].
    split; [unfold none_alive in *; by rewrite Eo|]. intros i q [= <- <-]. exists u. rewrite Eu. split_and!; try done.
    by apply issueTokens_access in Ei'. }
  split; [|exact Hu]. intros env' otp' Hle. by apply (dead_refused env' phone otp' (ae_now env)).
Qed.

(** No step opens a session for a banned user. *)
Theorem banned_users_get_no_session s s' tid t : auth_step s s' ->
  au_tokens s' !! tid = Some t -> au_tokens s !! tid = None -> exists u, au_users s' !! tk_userId t = Some u /\ us_banned u = false.
Proof. intros H. by apply step_clean. Qed.
End properties.

(** ** A concrete token *)
Fixpoint tokenBits (p : positive) : string :=
  match p with
  | xH => ""
  | xO q => String (Ascii.ascii_of_nat 48) (tokenBits q)
  | xI q => String (Ascii.ascii_of_nat 49) (tokenBits q)
  end.
Fixpoint untokenBits (t : string) : option positive :=
  match t with
  | "" => Some xH
  | String c r => if Ascii.eqb c (Ascii.ascii_of_nat 49) then xI <$> untokenBits r else xO <$> untokenBits r
  end.
Lemma untokenBits_tokenBits p : untokenBits (tokenBits p) = Some p.
Proof. induction p as [p IH|p IH|]; simpl; [by rewrite IH..|done]. Qed.
Definition packed : Type := (string * Z * (string * Z * option string + string * string))%type.
Definition roleCode (r : Role) : Z :=
  match r with ROLE_CUSTOMER => 0 | ROLE_VENDOR => 1 | ROLE_ADMIN => 2 | ROLE_SUPPORT_AGENT => 3 end.
Definition roleOfCode (z : Z) : Role :=
  match z with 0 => ROLE_CUSTOMER | 1 => ROLE_VENDOR | 2 => ROLE_ADMIN | _ => ROLE_SUPPORT_AGENT end.
Definition packClaims (c : Claims) : string * Z * option string + string * string :=
  match c with AccessClaims u r st => inl (u, roleCode r, st) | RefreshClaims u t => inr (u, t) end.
Definition unpackClaims (x : string * Z * option string + string * string) : Claims :=
  match x with inl (u, r, st) => AccessClaims u (roleOfCode r) st | inr (u, t) => RefreshClaims u t end.
Lemma unpack_pack c : unpackClaims (packClaims c) = c.
Proof. destruct c as [u [] st|u t]; done. Qed.
#[refine, local] Instance plain_jwt : Jwt := {
  jwt_sign now secret ttl c := tokenBits (encode ((secret, now + ttl, packClaims c) : packed));
  jwt_verify t secret token :=
    match untokenBits token ≫= (fun p => decode p : option packed) with
    | Some (secret', exp, c) => if String.eqb secret secret' && (t <? exp) then Some (unpackClaims c) else None
    | None => None
    end
}.
Proof.
  - intros t t' secret token p q. destruct (untokenBits token ≫= _) as [[[k exp] c]|]; [|done].
    destruct (String.eqb secret k); [|done]. simpl. destruct (t <? exp), (t' <? exp); naive_solver.
  - intros now t secret ttl c H1 H2. rewrite untokenBits_tokenBits. cbn [mbind option_bind]. rewrite decode_encode.
    rewrite String.eqb_refl. assert ((t <? now + ttl) = true) as -> by (by apply Z.ltb_lt). simpl. by rewrite unpack_pack.
Defined.

(** ** Concrete runs *)
#[local] Existing Instance plain_bcrypt.
Definition auth_env (now : Z) (tokenId : string) : AuthEnv :=
  {| ae_now := now; ae_redisUp := true; ae_otpId := "o1"; ae_otpCode := 123123; ae_smsSent := true; ae_devBypass := false;
     ae_tokenId := tokenId; ae_userId := "u9"; ae_vendorId := "v9"; ae_accessSecret := "a"; ae_refreshSecret := "r";
     ae_accessTtl := 900000; ae_refreshTtl := THIRTY_DAYS_MS; ae_encrypt := fun x => x;
     ae_google := fun tok => if String.eqb tok "google" then
       Some {| gg_sub := "g1"; gg_email := Some "boss@x"; gg_name := None; gg_picture := None |} else None;
     ae_apple := fun _ => None |}.
(** An analyst among the administrators, with a phone and an address. *)
Definition analyst : User :=
  {| us_name := "Ann"; us_phone := Some "99"; us_email := Some "boss@x"; us_googleId := None; us_appleId := None;
     us_role := ROLE_ADMIN; us_staffRole := Some "READONLY_ANALYST"; us_passwordHash := Some "#pw";
     us_profilePhotoUrl := None; us_banned := false |}.
Definition fresh_auth : AuthStore RedisMem :=
  {| au_otps := []; au_tokens := ∅; au_users := {["u1" := analyst]}; au_vendors := ∅; au_redis := ∅ |}.
Definition sent : AuthStore RedisMem := snd (sendOtp (auth_env 0 "t1") "99" fresh_auth).
Definition logged_in : result LoginResult * AuthStore RedisMem := verifyOtpAndLogin (auth_env 1000 "t1") "99" "123123" sent.
Definition refresh_token : string :=
  match fst logged_in with Ok (LoggedIn _ p) => tp_refreshToken p | _ => "" end.
Definition refreshed : result Tokens * AuthStore RedisMem := refreshTokens (auth_env 2000 "t2") refresh_token (snd logged_in).
Lemma returned_Ok {A} (r : result A) : match r with Ok _ => true | Throw _ => false end = true -> exists a, r = Ok a.
Proof. destruct r; [eauto|done]. Qed.

Lemma refresh_token_single_use_witness :
  refreshTokens (auth_env 3000 "t3") refresh_token (snd refreshed) = (Throw UnauthorizedException, snd refreshed).
Proof.
  refine (refresh_token_single_use (auth_env 2000 "t2") (auth_env 3000 "t3") refresh_token (snd logged_in) (snd refreshed)
    (snd refreshed) "u1" "t1" _ _ eq_refl _ (rtc_refl _ _)).
  - vm_compute. reflexivity.
  - apply (bool_decide_eq_true_1 (is_Some _)). vm_compute. reflexivity.
  - left. destruct (returned_Ok (fst refreshed)) as [p Hp]; [vm_compute; reflexivity|].
    exists p. rewrite <- Hp. apply surjective_pairing.
Defined.

Lemma phone_login_guarded_witness :
  exists res, fst logged_in = Ok res /\ forall otp, verifyPhoneOtp (auth_env 5000 "t9") "99" otp (snd logged_in) =
    (Throw BadRequestException, snd logged_in).
Proof.
  destruct (returned_Ok (fst logged_in)) as [res Hres]; [vm_compute; reflexivity|].
  destruct (phone_login_guarded (auth_env 1000 "t1") "99" "123123" sent res (snd logged_in)) as (_ & H & _).
  - rewrite <- Hres. apply surjective_pairing.
  - exists res. split; [exact Hres|]. intros otp. apply H. vm_compute. discriminate.
Defined.

(** ** Where authentication goes wrong *)

(** A token of a phone login carries no staff role: the analyst, who may not
    write, gets every permission of an administrator, *)
Definition principal_of (r : result LoginResult) : option Principal :=
  match r with Ok (LoggedIn _ p) => authenticate 1500 "a" (tp_accessToken p) | _ => None end.
Lemma phone_login_drops_staff_role :
  permissionsGuard [PAYOUT_EXECUTE] "POST" (principal_of (fst logged_in)) = Ok true /\
  permissionsGuard [PAYOUT_EXECUTE] "POST" (principal_of (fst (adminLogin (auth_env 1000 "t1") "boss@x" "pw" sent))) =
    Throw ForbiddenException.
Proof. split; vm_compute; reflexivity. Qed.

(** and so does whoever Google says has the address, which is linked to the
    administrator's account without a password. *)
Lemma google_address_opens_admin :
  let run := loginWithGoogle (auth_env 1000 "t1") "google" sent in
  permissionsGuard [PAYOUT_EXECUTE] "POST" (principal_of (fst run)) = Ok true /\
  (us_googleId <$> au_users (snd run) !! "u1") = Some (Some "g1").
Proof. split; vm_compute; reflexivity. Qed.

(** Guesses that read the request together are all compared, however many. *)
Lemma stale_guesses_all_compared {R} (s : AuthStore R) phone latest l :
  oq_attemptCount latest < MAX_ATTEMPTS ->
  forall g, otpMatches (fst g) (snd g) latest = true -> ae_now (fst g) <= oq_expiresAt latest ->
    exists s', judgeOtp (fst g) phone (snd g) latest
      (fold_left (fun t g => snd (judgeOtp (fst g) phone (snd g) latest t)) l s) = (Ok tt, s').
Proof.
  intros Ha g Hm Ht. unfold judgeOtp at 1. rewrite require_bind, (proj2 (Z.leb_le _ _) Ht), require_bind,
    (proj2 (Z.ltb_lt _ _) Ha), Hm. unfold expireUnverified, updateOtps. rewrite bind_run, !modify_run. eauto.
Qed.

(** Two exchanges that read the row of a token together both open a session. *)
Lemma stale_rotation_opens_two :
  let stored := default {| tk_userId := ""; tk_tokenHash := ""; tk_expiresAt := 0; tk_revoked := true |} (au_tokens (snd logged_in) !! "t1") in
  let first := rotateToken (auth_env 2000 "t2") refresh_token "u1" "t1" stored (snd logged_in) in
  let second := rotateToken (auth_env 2000 "t3") refresh_token "u1" "t1" stored (snd first) in
  (exists p, fst first = Ok p) /\ (exists p, fst second = Ok p).
Proof. split; apply returned_Ok; vm_compute; reflexivity. Qed.
